(* ===== verification/_CoqProject ===== *)
-Q . S2P
Prelude.v
Monad.v
Bytes.v
WaitStatus.v
TracerSeccomp.v
EventMessage.v
SyscallInfo.v
TaskState.v
ForkDecode.v
ForkSpec.v
Lifecycle.v
TaskInvariant.v
TaskHandlers.v
TaskTheorems.v
Supervisor.v
SupervisorInv.v
SupervisorCalls.v
SupervisorTheorems.v
RejectionCodes.v
TraceProtocol.v
ExecuteOnlySeccomp.v
ContractTypes.v
Canonical.v
CanonicalSpec.v
CanonicalParse.v
CanonicalCodec.v
RecordTypes.v
Paths.v
RecordValidation.v
RecordCodec.v
RecordRoundTrip.v
Digest.v
IdentityWire.v
Identity.v
IdentityRoundTrip.v
RecordTop.v
Sample.v
RecordTheorems.v
ComparisonTheorems.v
IdentityTheorems.v
ManifestTypes.v
ManifestWriter.v
ManifestStream.v
StreamLaws.v
ManifestReference.v
ManifestDigest.v
ManifestStreamTheorems.v
ManifestValidation.v
ManifestCodec.v
TreeSpec.v
TreeBinding.v
ManifestTheorems.v
Promotion.v
PromotionTheorems.v
PathModel.v
Policy.v
PolicyTheorems.v
Text.v
Team.v
TeamCrypto.v
TrustBundle.v
TeamLaws.v
TrustSample.v
TrustTheorems.v
GatewayProtocol.v
ProfileRegistry.v
GatewayRouter.v
GatewayTheorems.v
TeamRequestKey.v
Privacy.v
PrivacyTheorems.v
RequestObservation.v
RequestTree.v
RequestKeyTheorems.v
LookupBundle.v
EncryptedManifest.v
TeamPull.v
PullSample.v
EncryptedTheorems.v
PullTheorems.v
