(* ===== verification/Prelude.v ===== *)
(** * Again: a model of a cache for agent commands and its correctness

    Again runs commands for coding agents and decides when an earlier result may
    stand for a new run. A wrong answer is silent, so the program fails closed
    everywhere: what it cannot explain is executed again, kept local or refused.
    This library models the pure core of that decision, file by file, and proves
    what each part promises. Everything under [src/src/]; the names of the
    definitions are those of the source.

    ** The program and its model

    A command is first classified ([Policy]): only a few read-only tools with
    modelled arguments may be answered from the cache at all. On Linux a run is
    observed with ptrace under a trace-all seccomp filter; the tracer turns kernel
    stops into a stream of lifecycle events ([Supervisor] drives [TaskState]). The
    run becomes an effect record over a sealed snapshot of the file system, with
    canonical bytes and digests; a primary and an independent shadow record of one
    command are compared and promoted to a reusable pair. A team may share
    results: a client verifies a signed trust bundle, derives from it what it
    accepts, and checks each manifest against it; before anything leaves the
    machine the request is reduced to a portable key and admitted by a sharing
    policy. A shared result travels encrypted under a signed manifest, and a pull
    releases it only after checking trust, request and runtime again. The agent
    gateway routes tool calls between these candidates and the
    native execution.

    *** Foundations

    - [Prelude]: machine integers as [Z] with their wrap-around and checked
      additions written out, [position]/[count]/[any] over slices, automation.
    - [Monad]: [result E A] for [Result]; [state_m S E A] for a method on
      [&mut self], whose outcome is a value or an error together with the mutated
      state, or a panic; its weakest precondition [wp], which no panic satisfies.
    - [Bytes]: little- and big-endian byte strings, the FNV-1a fingerprint.
    - [Text], [PathModel]: what the sources use of Rust's strings, UTF-8,
      [std::path] on Unix and slice searches.

    *** The tracer ([linux_pytest/])

    - [WaitStatus] ([tracer_wait_status.rs]), [EventMessage]
      ([tracer_event_message.rs]), [SyscallInfo] ([tracer_syscall_info.rs]),
      [ForkDecode] and [ForkSpec] ([tracer_fork_decode.rs]): the decoders, each
      with the kernel's encoding as its specification.
    - [TracerSeccomp] ([tracer_seccomp.rs]) and [ExecuteOnlySeccomp]
      ([execute_only_seccomp.rs]): the two BPF programs with their builders,
      checkers and evaluators.
    - [TaskState] ([tracer_task_state.rs]): the recorder, one definition per
      handler; [Lifecycle] is its abstract specification, a monitor over events
      without raw TIDs; [TaskInvariant], [TaskHandlers],
      [TaskTheorems] hold its invariant, a specification of each handler and the
      theorems about runs.
    - [Supervisor] ([tracer_supervisor_state.rs]): the planner with its pending
      exchanges, single-use tokens, resume cursors and parked stops;
      [SupervisorInv], [SupervisorCalls], [SupervisorTheorems] as above. The class
      [BirthDecoder] is what it relies on of the fork decoder, the class
      [NormalizedTracerTaskEventSinkV1] what the recorder relies on of its sink.
    - [RejectionCodes], [TraceProtocol] ([trace_protocol.rs]): diagnostics.

    *** Records and identities ([linux_pytest.rs], [canonical.rs], [identity.rs])

    - [ContractTypes], [RecordTypes], [RecordTop]: the data of an effect record;
      [Paths], [RecordValidation]: its validation; [Canonical], [CanonicalSpec],
      [CanonicalParse], [CanonicalCodec]: the canonical containers, their parser
      and the class of codecs; [RecordCodec], [RecordRoundTrip],
      [RecordTop]: the codec of records and its two directions.
    - [Digest]: the tagged hash frame; [IdentityWire], [Identity],
      [IdentityRoundTrip]: the lookup identities; [Sample]: a concrete record.
    - [RecordTheorems], [ComparisonTheorems],
      [IdentityTheorems]: what they guarantee.
    - [ManifestTypes], [ManifestWriter], [ManifestStream], [StreamLaws],
      [ManifestReference], [ManifestDigest]: snapshot manifests and the streaming
      writer with its reference encoder; [ManifestValidation], [ManifestCodec],
      [TreeSpec], [TreeBinding]: validation, codec and the
      abstract tree; [ManifestStreamTheorems], [ManifestTheorems].
    - [Promotion], [PromotionTheorems]: verified candidates,
      pairs and lookups.

    *** Policy and sharing

    - [Policy], [PolicyTheorems] ([policy.rs]): the classifier of commands.
    - [Team] ([team.rs]), [TeamCrypto] ([team_crypto.rs]), [TrustBundle]
      ([trust_bundle.rs]): cache manifests, their verification, trust bundles and
      the tracker of a client; [TeamLaws] (with the runs of a
      client), [TrustSample], [TrustTheorems].
    - [TeamRequestKey] and [RequestObservation] ([team_request_key.rs], with the
      digest cache of [fingerprint.rs]): the descriptor of a request, the command
      subset, operands, file and tree digests, the build. The second is stateful:
      its state counts the calls to the host, so a file system that changes
      between two calls is one that answers them differently. [RequestTree]
      holds the laws of its encoding, the walk against a recursive encoding and the
      build with and without a cache; [RequestKeyTheorems].
    - [Privacy] ([privacy.rs]): the sharing policy and the credential scanners;
      [PrivacyTheorems] describes each scanner as a decomposition of the text.
    - [EncryptedManifest] ([team_manifest_v2.rs]): encrypted results, their
      admission, publication, verification and decryption; [EncryptedTheorems].
    - [LookupBundle] ([team_lookup_bundle.rs]): the wire format of a response, its
      parser and the validator of a body that arrives in chunks.
    - [TeamPull] ([team_pull.rs], with [team_clock.rs], the checkpoint of
      [team_config.rs], the request binding of [runtime_attestation.rs] and the
      errors and decoders of [remote.rs]): both pull protocols, as computations over
      the client's time, cache, transport, clock, tracker and checkpoint file.
      The state also keeps a log of the steps that succeeded ([PullEvents]); no
      step reads it, and [PullTheorems] states with it what a pull did and in
      which order. [PullSample] is a producer, a service and a consumer to run
      the protocols with.

    *** The gateway ([agent_gateway/])

    - [GatewayProtocol] ([protocol.rs]), [ProfileRegistry]
      ([profile_registry.rs] and its parts), [GatewayRouter] ([router.rs], with
      the proofs of [store.rs]), [GatewayTheorems].

    ** What the theorems show

    - Decoders and codecs are exact: each accepts a word, a buffer, bytes or a
      transcript if and only if it is the encoding of a value of the type, and
      returns that value ([decode_wait_status_exact], [decode_fork_family_exact],
      [record_bytes_exact], [identity_bytes_exact], [manifest_bytes_exact],
      [lookup_parse_exact]).
    - Validators are equal to a declarative specification
      ([tree_validate_exact], [remote_admission_exact],
      [credential_detector_exact]; also [executable_chain_exact],
      [disposition_exact], [verify_trust_bundle_exact], [publishable_exact]).
    - The recorder refines its abstract monitor and the planner keeps its
      invariant whatever the kernel and the caller do ([run_refines_lifecycle],
      [observe_invariant], [supervisor_call_invariant], [supervised_run_legal]);
      tokens are good once, resumes are confirmed child first, sessions do not
      mix, a rejection is permanent.
    - Digests bind what they are taken over, up to an explicit collision
      ([tree_root_binds_entries], [pair_comparison_exact], [request_key_binds],
      [tree_digest_binds]); signed and authenticated bytes bind their manifest and
      stay apart ([encrypted_bytes_bind]).
    - Optimized code equals its reference: the streaming manifest writer
      ([tree_writer_exact]), the stack walk over a tree ([tree_walk_exact]), the
      build over a digest cache ([digest_cache_transparent]), the validator of a
      chunked body ([lookup_stream_exact]).
    - Reuse is safe end to end in each part: [exact_reuse_safe] (commands),
      [promoted_pair_same_run] (pairs), [shared_result_authorized] and
      [trust_never_rolls_back] (shared results, over all histories of a client),
      [automatic_reuse_exact] and [proof_serves_once] (the gateway, whose metrics are
      exact totals, [metrics_exact]).
    - Sharing works and is fenced: a published result decrypts at a consumer that
      still trusts its producer to the bytes the producer ran
      ([published_result_round_trip]); a pull that releases a result did exactly the
      steps of its protocol, in order: trust accepted and stored, the manifest
      authorized, the live request and runtime checked, before the decryption and
      again, under a bundle fetched later, after it ([pulled_result_fenced]);
      against an honest service and with steady facts it completes
      ([honest_pull_completes]).
    - Two theorems say exactly what a check guarantees and show with it behaviour of
      the code that its tests or callers do not expect: [nested_mounts_accepted]
      (the order of mounts) and [checkpoint_restores_exact] (the size of a
      checkpoint).

    ** Bounds and fuel

    Loops over slices are structural on the list. Loops with fuel: the filter
    evaluators, whose cap is that of the source and is never reached
    ([forward_reachable_checker_sound], [verify_filter_sound]); the canonical
    parsers and scanners, where each round consumes input, so that the length of
    the input is enough; the tree walk, where the bound on discovered entries is
    ([tree_walk_exact] shows that the fuel of [tree_fuel] suffices); the drawing of
    a second nonce, which ends with the first draw that differs ([fresh_nonce_iff]).
    Running out of fuel is a panic in the model or no answer at all, never a result.
    Integers keep their width: every checked addition has its overflow branch, and
    fixed arrays their length.

    ** Assumptions

    Code outside the repository is a parameter, as a class: BLAKE3 ([Blake3],
    [Blake3Hash]), Ed25519 ([Ed25519Dalek]), the URL parser ([UrlParser]), the
    splitter of shell words ([ShellWords]), canonical JSON ([CanonicalJson]),
    floating point ([Float64]), the file system ([FileSystem] of [Policy],
    [TeamHost] of [RequestObservation]), the AEAD ([XChaCha20Poly1305]), the wall
    clock ([SystemTime]), serde's decoders ([TeamResponses]). Code of the repository
    that only does I/O is a class as well: the inspection of an executable and of the
    live runtime ([RuntimeHost]), the checkpoint file and its lock
    ([CheckpointStore]); a transport is the trait of the code
    ([TeamPullTransport], [TeamBundlePullTransport]), over which theorems quantify.
    The laws
    used of them are classes of their own, each documented behaviour with an
    instance: digests are 32 bytes ([Blake3Ok], [Blake3HashOk]), a signature of a
    key verifies under its public key ([Ed25519DalekOk]), decryption inverts
    encryption ([XChaCha20Poly1305Ok]), a host holds still
    ([QuietHost]), a digest cache answers what was recorded ([SoundCache]). No
    theorem assumes collision freedom: where digests are compared, the collision
    is a case of the conclusion or a hypothesis about the values at hand.
    Well-formedness predicates ([_wf]) state the ranges of the Rust types.

    ** Not modelled

    Allocation failure, derived [Debug] and serde code, constant summaries and
    getters. The parts whose behaviour is in system calls, processes, sockets or a
    database: the ptrace connector, the execute-only runtime, capture and
    publication of snapshots through file descriptors, qualification of the host,
    the SQL store (of it, only the one-shot proofs the router consumes), workspace
    authority and whole-workspace fingerprints, sandboxes, the command line, the
    HTTP client, configuration files and publication orchestration of team sharing,
    and the gateway service. The heuristics of code
    intelligence, which rank text and have no contract to prove. *)

From stdpp Require Export base tactics list list_numbers option numbers.
From Stdlib Require Export ZArith Lia.

Open Scope Z_scope.

#[global] Arguments Nat.leb : simpl never.

(** ** Machine integers

    A [w]-bit integer is a [Z]; the wrap-around of an [as] cast and the
    failure of a checked addition are written out. *)

Definition U8_MAX : Z := 255.
Definition U16_MAX : Z := 65535.
Definition U32_MAX : Z := 4294967295.
Definition U64_MAX : Z := 18446744073709551615.
Definition I32_MAX : Z := 2147483647.

Definition as_u8 (z : Z) : Z := z mod 2 ^ 8.
Definition as_u16 (z : Z) : Z := z mod 2 ^ 16.
Definition as_u32 (z : Z) : Z := z mod 2 ^ 32.
Definition as_u64 (z : Z) : Z := z mod 2 ^ 64.
Definition as_i32 (z : Z) : Z := (z + 2 ^ 31) mod 2 ^ 32 - 2 ^ 31.
Definition as_i64 (z : Z) : Z := (z + 2 ^ 63) mod 2 ^ 64 - 2 ^ 63.

Definition is_u8 (z : Z) : Prop := 0 <= z < 2 ^ 8.
Definition is_u16 (z : Z) : Prop := 0 <= z < 2 ^ 16.
Definition is_u32 (z : Z) : Prop := 0 <= z < 2 ^ 32.
Definition is_u64 (z : Z) : Prop := 0 <= z < 2 ^ 64.
Definition is_i32 (z : Z) : Prop := - 2 ^ 31 <= z < 2 ^ 31.
Definition is_i64 (z : Z) : Prop := - 2 ^ 63 <= z < 2 ^ 63.

(** [u64::checked_add]: [None] on overflow. *)
Definition u64_checked_add (a b : Z) : option Z :=
  if a + b <=? U64_MAX then Some (a + b) else None.

Definition u32_checked_add (a b : Z) : option Z :=
  if a + b <=? U32_MAX then Some (a + b) else None.

(** [usize::checked_add] on a 64-bit target; indices are [nat]. *)
Definition usize_checked_add (a b : nat) : option nat :=
  if Z.of_nat a + Z.of_nat b <=? U64_MAX then Some (a + b)%nat else None.

(** ** Slices *)

(** [iter().position(p)]: the first index that satisfies [p]. *)
Fixpoint position {A} (p : A → bool) (l : list A) : option nat :=
  match l with
  | [] => None
  | x :: l => if p x then Some 0%nat else S <$> position p l
  end.

(** [iter().filter(p).count()]. *)
Fixpoint count {A} (p : A → bool) (l : list A) : nat :=
  match l with
  | [] => 0%nat
  | x :: l => ((if p x then 1 else 0) + count p l)%nat
  end.

Definition any {A} (p : A → bool) (l : list A) : bool := existsb p l.

(** ** Automation *)

(** Turns boolean tests of the code into propositions. *)
Ltac bool_to_prop :=
  repeat match goal with
  | H : andb _ _ = true |- _ => apply andb_true_iff in H as [? ?]
  | H : andb _ _ = false |- _ => apply andb_false_iff in H
  | H : orb _ _ = true |- _ => apply orb_true_iff in H
  | H : orb _ _ = false |- _ => apply orb_false_iff in H as [? ?]
  | H : negb _ = true |- _ => apply negb_true_iff in H
  | H : negb _ = false |- _ => apply negb_false_iff in H
  | H : (_ =? _) = true |- _ => apply Z.eqb_eq in H
  | H : (_ =? _) = false |- _ => apply Z.eqb_neq in H
  | H : (_ <? _) = true |- _ => apply Z.ltb_lt in H
  | H : (_ <? _) = false |- _ => apply Z.ltb_ge in H
  | H : (_ <=? _) = true |- _ => apply Z.leb_le in H
  | H : (_ <=? _) = false |- _ => apply Z.leb_gt in H
  | H : (_ =? _)%nat = true |- _ => apply Nat.eqb_eq in H
  | H : (_ =? _)%nat = false |- _ => apply Nat.eqb_neq in H
  | H : (_ <? _)%nat = true |- _ => apply Nat.ltb_lt in H
  | H : (_ <? _)%nat = false |- _ => apply Nat.ltb_ge in H
  | H : (_ <=? _)%nat = true |- _ => apply Nat.leb_le in H
  | H : (_ <=? _)%nat = false |- _ => apply Nat.leb_gt in H
  | H : bool_decide _ = true |- _ => apply bool_decide_eq_true_1 in H
  | H : bool_decide _ = false |- _ => apply bool_decide_eq_false_1 in H
  end.

(** Cases on every test and match that blocks the goal or a hypothesis. *)
Ltac case_code :=
  repeat (case_match; bool_to_prop; simplify_eq/=; try done).

(** [lia] with division and remainder. *)
Ltac zdiv_lia := Z.to_euclidean_division_equations; lia.

Create HintDb tracer discriminated.
#[export] Hint Resolve lookup_lt_Some : tracer.

(** ** Generic lemmas *)

Lemma u64_checked_add_Some a b c :
  u64_checked_add a b = Some c ↔ c = a + b ∧ a + b <= U64_MAX.
Proof.
  unfold u64_checked_add. destruct (Z.leb_spec (a + b) U64_MAX);
    split; [intros [= <-] | intros [-> ?] | done | intros [-> ?]]; done || lia.
Qed.

Lemma u64_checked_add_None a b :
  u64_checked_add a b = None ↔ U64_MAX < a + b.
Proof. unfold u64_checked_add. destruct (Z.leb_spec (a + b) U64_MAX); naive_solver lia. Qed.

Lemma u32_checked_add_Some a b c :
  u32_checked_add a b = Some c ↔ c = a + b ∧ a + b <= U32_MAX.
Proof.
  unfold u32_checked_add. destruct (Z.leb_spec (a + b) U32_MAX);
    split; [intros [= <-] | intros [-> ?] | done | intros [-> ?]]; done || lia.
Qed.

Lemma usize_checked_add_Some a b c : usize_checked_add a b = Some c → c = (a + b)%nat.
Proof. unfold usize_checked_add. case_match; naive_solver. Qed.

Section Slices.
Context {A : Type}.
Implicit Types (p : A → bool) (l : list A).

Lemma position_Some p l i :
  position p l = Some i ↔
  (∃ x, l !! i = Some x ∧ p x = true) ∧
  (∀ j y, (j < i)%nat → l !! j = Some y → p y = false).
Proof.
  revert i; induction l as [|x l IH]; intros i; simpl; [naive_solver|].
  destruct (p x) eqn:Hx; simpl.
  - split.
    + intros [= <-]. split; [naive_solver | lia].
    + intros [_ Hmin]. destruct i as [|i]; [done|].
      specialize (Hmin 0%nat x). rewrite Hx in Hmin. discriminate Hmin; [lia|done].
  - rewrite fmap_Some. split.
    + intros (k & Hk%IH & ->). destruct Hk as [Hk Hmin]. split; [done|].
      intros [|j] y Hj Hy; simplify_eq/=; [done|]. eapply Hmin; [|done]. lia.
    + intros [(y & Hy & Hp) Hmin]. destruct i as [|i]; simplify_eq/=; [congruence|].
      exists i. split; [|done]. apply IH. split; [naive_solver|].
      intros j z Hj Hz. apply (Hmin (S j) z); [lia|done].
Qed.

Lemma position_None p l :
  position p l = None ↔ ∀ i x, l !! i = Some x → p x = false.
Proof.
  induction l as [|x l IH]; simpl; [naive_solver|].
  destruct (p x) eqn:Hx.
  - split; [done|]. intros H. specialize (H 0%nat x eq_refl). congruence.
  - rewrite fmap_None, IH. split.
    + intros H [|i] y Hy; simplify_eq/=; [done|]. by eapply H.
    + intros H i y Hy. by apply (H (S i) y).
Qed.

Lemma any_true p l :
  any p l = true ↔ ∃ i x, l !! i = Some x ∧ p x = true.
Proof.
  unfold any. rewrite existsb_exists. split.
  - intros (x & Hx%list_elem_of_In & Hp). apply list_elem_of_lookup in Hx as [i Hi].
    naive_solver.
  - intros (i & x & Hi & Hp). exists x. split; [|done].
    apply list_elem_of_In, list_elem_of_lookup. eauto.
Qed.

Lemma any_false p l :
  any p l = false ↔ ∀ i x, l !! i = Some x → p x = false.
Proof.
  rewrite <- not_true_iff_false, any_true. split.
  - intros H i x Hi. destruct (p x) eqn:?; [|done]. destruct H; eauto.
  - intros H (i & x & Hi & Hp). rewrite (H _ _ Hi) in Hp. done.
Qed.

Lemma any_ext p p' l : (∀ i x, l !! i = Some x → p x = p' x) → any p l = any p' l.
Proof.
  induction l as [|x l IH]; intros H; simpl; [done|].
  rewrite (H 0%nat x eq_refl). f_equal. apply IH. intros i y Hi. by apply (H (S i) y).
Qed.

Lemma any_fmap {B} (f : B → A) p (l : list B) : any p (f <$> l) = any (λ x, p (f x)) l.
Proof. induction l as [|x l IH]; simpl; [done|]. f_equal. apply IH. Qed.

Lemma count_le_length p l : (count p l ≤ length l)%nat.
Proof. induction l as [|x l IH]; simpl; [done|]. destruct (p x); lia. Qed.

Lemma count_zero p l :
  count p l = 0%nat ↔ ∀ i x, l !! i = Some x → p x = false.
Proof.
  induction l as [|x l IH]; simpl; [naive_solver|].
  destruct (p x) eqn:Hx; simpl.
  - split; [done|]. intros H. specialize (H 0%nat x eq_refl). congruence.
  - rewrite IH. split.
    + intros H [|i] y Hy; simplify_eq/=; [done|]. by eapply H.
    + intros H i y Hy. by apply (H (S i) y).
Qed.

Lemma count_insert p l i x y :
  l !! i = Some x →
  (count p (<[i:=y]> l) + (if p x then 1 else 0)
   = count p l + (if p y then 1 else 0))%nat.
Proof.
  revert i; induction l as [|z l IH]; intros [|i] Hi; simplify_eq/=.
  - lia.
  - specialize (IH _ Hi). lia.
Qed.

Lemma count_insert_same p l i x y :
  l !! i = Some x → p x = p y → count p (<[i:=y]> l) = count p l.
Proof. intros Hi Hp. pose proof (count_insert p l i x y Hi). rewrite Hp in *. lia. Qed.

Lemma count_insert_Z p l i x y :
  l !! i = Some x →
  Z.of_nat (count p (<[i:=y]> l)) = Z.of_nat (count p l) + Z.b2z (p y) - Z.b2z (p x).
Proof.
  intros Hi. pose proof (count_insert p l i x y Hi). destruct (p x), (p y); simpl; lia.
Qed.

Lemma count_ext p p' l :
  (∀ i x, l !! i = Some x → p x = p' x) → count p l = count p' l.
Proof.
  induction l as [|x l IH]; intros H; simpl; [done|].
  rewrite (H 0%nat x eq_refl), IH; [done|]. intros i y Hi. by apply (H (S i) y).
Qed.

Lemma count_fmap {B} (f : B → A) p (l : list B) : count p (f <$> l) = count (λ x, p (f x)) l.
Proof. induction l as [|x l IH]; simpl; [done|]. f_equal. apply IH. Qed.

Lemma count_replicate_false p n x :
  p x = false → count p (replicate n x) = 0%nat.
Proof. intros Hp. induction n as [|n IH]; simpl; [done|]. by rewrite Hp, IH. Qed.

Lemma count_lt_length p l :
  (count p l < length l)%nat → ∃ i x, l !! i = Some x ∧ p x = false.
Proof.
  induction l as [|x l IH]; simpl; [lia|]. destruct (p x) eqn:Hx; intros H.
  - destruct IH as (i & y & ? & ?); [lia|]. by exists (S i), y.
  - by exists 0%nat, x.
Qed.

(** A count over a slice whose tail is not counted is bounded by the prefix. *)
Lemma count_le_prefix p l n :
  (∀ i x, l !! i = Some x → (n ≤ i)%nat → p x = false) → (count p l ≤ n)%nat.
Proof.
  revert n; induction l as [|x l IH]; intros n H; simpl; [lia|].
  destruct n as [|n].
  - rewrite (H 0%nat x eq_refl) by lia. simpl. apply (IH 0%nat).
    intros i y Hi _. apply (H (S i) y Hi). lia.
  - assert (count p l ≤ n)%nat by (apply IH; intros i y Hi ?; apply (H (S i) y Hi); lia).
    destruct (p x); lia.
Qed.

Lemma count_app p l k : count p (l ++ k) = (count p l + count p k)%nat.
Proof. induction l as [|x l IH]; simpl; [done|]. rewrite IH. lia. Qed.

Lemma count_all p l : (∀ i x, l !! i = Some x → p x = true) → count p l = length l.
Proof.
  induction l as [|x l IH]; intros H; simpl; [done|].
  rewrite (H 0%nat x eq_refl), IH; [done|]. intros i y Hi. by apply (H (S i) y).
Qed.

(** A slice whose tail is not counted is counted on its prefix. *)
Lemma count_take p l n :
  (∀ i x, l !! i = Some x → (n ≤ i)%nat → p x = false) → count p l = count p (take n l).
Proof.
  intros H. rewrite <- (take_drop n l) at 1. rewrite count_app.
  rewrite (proj2 (count_zero p (drop n l))); [lia|].
  intros i x Hi. rewrite lookup_drop in Hi. eapply H; [done|lia].
Qed.

End Slices.

(** ** Bit masks as arithmetic *)

Lemma land_mask z n : 0 <= n → Z.land z (2 ^ n - 1) = z mod 2 ^ n.
Proof. intros Hn. rewrite <- Z.land_ones, Z.ones_equiv, <- Z.sub_1_r by done. done. Qed.

(** A mask of [n] bits at offset [k] reads the field at that offset. *)
Lemma land_field z k n :
  0 <= k → 0 <= n →
  Z.land z (Z.shiftl (2 ^ n - 1) k) = ((z / 2 ^ k) mod 2 ^ n) * 2 ^ k.
Proof.
  intros Hk Hn. rewrite <- land_mask, <- Z.shiftr_div_pow2, <- Z.shiftl_mul_pow2 by done.
  apply Z.bits_inj'; intros i Hi. rewrite Z.land_spec, !Z.shiftl_spec by done.
  destruct (Z.ltb_spec (i - k) 0) as [Hneg|Hpos].
  - by rewrite !(Z.testbit_neg_r _ (i - k)), andb_false_r by done.
  - rewrite Z.land_spec, Z.shiftr_spec by done. f_equal. f_equal. lia.
Qed.

Lemma as_u32_range z : is_u32 (as_u32 z).
Proof. apply Z.mod_pos_bound. lia. Qed.

Lemma as_u32_id z : is_u32 z → as_u32 z = z.
Proof. apply Z.mod_small. Qed.

Lemma as_u8_id z : is_u8 z → as_u8 z = z.
Proof. apply Z.mod_small. Qed.

Lemma as_u16_id z : is_u16 z → as_u16 z = z.
Proof. apply Z.mod_small. Qed.

Lemma as_u32_as_i32 z : as_u32 (as_i32 z) = as_u32 z.
Proof.
  unfold as_u32, as_i32. rewrite Zminus_mod_idemp_l. f_equal. lia.
Qed.
