(* ===== verification/Monad.v ===== *)
(** * Error and state monads of the model, and a small program logic

    [result E A] models a Rust [Result<A, E>] of a pure function.
    [state_m S E A] models a method on [&mut self]: it returns a value or an
    error and in both cases the mutated state, or it panics (an index out of
    range). [wp] is the weakest precondition of such a computation: it is false
    on a panic, so every specification proved with it also proves the absence
    of panics. *)

From S2P Require Import Prelude.

Inductive result (E A : Type) : Type :=
| Ok (a : A)
| Err (e : E).
Arguments Ok {_ _} _.
Arguments Err {_ _} _.

#[global] Instance result_ret E : MRet (result E) := λ A a, Ok a.
#[global] Instance result_bind E : MBind (result E) := λ A B f m,
  match m with Ok a => f a | Err e => Err e end.
#[global] Instance result_fmap E : FMap (result E) := λ A B f m,
  match m with Ok a => Ok (f a) | Err e => Err e end.
#[global] Instance result_throw E : MThrow E (result E) := λ A e, Err e.

#[global] Instance result_eq_dec {E A} `{EqDecision E, EqDecision A} :
  EqDecision (result E A).
Proof. solve_decision. Defined.

(** [Option::ok_or]. *)
Definition ok_or {E A} (o : option A) (e : E) : result E A :=
  match o with Some a => Ok a | None => Err e end.

Lemma ok_or_Ok {E A} (o : option A) (e : E) a : ok_or o e = Ok a → o = Some a.
Proof. destruct o; naive_solver. Qed.

Lemma result_bind_Ok {E A B} (m : result E A) (f : A → result E B) b :
  m ≫= f = Ok b → ∃ a, m = Ok a ∧ f a = Ok b.
Proof. destruct m; naive_solver. Qed.

Definition is_ok {E A} (r : result E A) : bool :=
  match r with Ok _ => true | Err _ => false end.

Inductive outcome (S E A : Type) : Type :=
| Returned (a : A) (s : S)
| Threw (e : E) (s : S)
| Panicked.
Arguments Returned {_ _ _} _ _.
Arguments Threw {_ _ _} _ _.
Arguments Panicked {_ _ _}.

Definition state_m (S E A : Type) : Type := S → outcome S E A.

#[global] Instance state_ret S E : MRet (state_m S E) := λ A a s, Returned a s.
#[global] Instance state_bind S E : MBind (state_m S E) := λ A B f m s,
  match m s with
  | Returned a s' => f a s'
  | Threw e s' => Threw e s'
  | Panicked => Panicked
  end.
#[global] Instance state_throw S E : MThrow E (state_m S E) := λ A e s, Threw e s.

Definition gets {S E A} (f : S → A) : state_m S E A := λ s, Returned (f s) s.
Definition modify {S E} (f : S → S) : state_m S E () := λ s, Returned () (f s).

(** The [?] operator on a pure [Result] inside a method. *)
Definition lift_result {S E A} (r : result E A) : state_m S E A := λ s,
  match r with Ok a => Returned a s | Err e => Threw e s end.

(** The panic of an index expression that is out of range. *)
Definition lift_index {S E A} (o : option A) : state_m S E A := λ s,
  match o with Some a => Returned a s | None => Panicked end.

(** A method of the first component of a pair of states. *)
Definition on_fst {S K E A} (m : state_m S E A) : state_m (S * K) E A := λ '(s, k),
  match m s with
  | Returned a s' => Returned a (s', k)
  | Threw e s' => Threw e (s', k)
  | Panicked => Panicked
  end.

(** ** Weakest preconditions *)

Definition wp {S E A} (m : state_m S E A)
    (Q : A → S → Prop) (R : E → S → Prop) (s : S) : Prop :=
  match m s with
  | Returned a s' => Q a s'
  | Threw e s' => R e s'
  | Panicked => False
  end.

Section wp.
Context {S E : Type}.

Lemma wp_mono {A} (m : state_m S E A) (Q Q' : A → S → Prop) (R R' : E → S → Prop) s :
  wp m Q R s → (∀ a s', Q a s' → Q' a s') → (∀ e s', R e s' → R' e s') → wp m Q' R' s.
Proof. unfold wp. destruct (m s); naive_solver. Qed.

Lemma wp_ret {A} (a : A) (Q : A → S → Prop) (R : E → S → Prop) s :
  Q a s → wp (mret a) Q R s.
Proof. done. Qed.

Lemma wp_throw {A} (e : E) (Q : A → S → Prop) (R : E → S → Prop) s :
  R e s → wp (mthrow e : state_m S E A) Q R s.
Proof. done. Qed.

Lemma wp_bind {A B} (m : state_m S E A) (k : A → state_m S E B) Q R s :
  wp m (λ a s', wp (k a) Q R s') R s → wp (m ≫= k) Q R s.
Proof. unfold wp, mbind, state_bind. by destruct (m s). Qed.

Lemma wp_bind_with {A B} (m : state_m S E A) (k : A → state_m S E B)
    (Q1 : A → S → Prop) (R1 : E → S → Prop) Q R s :
  wp m Q1 R1 s →
  (∀ a s', Q1 a s' → wp (k a) Q R s') →
  (∀ e s', R1 e s' → R e s') →
  wp (m ≫= k) Q R s.
Proof. intros Hm HQ HR. apply wp_bind. by eapply wp_mono. Qed.

Lemma wp_gets {A} (f : S → A) (Q : A → S → Prop) (R : E → S → Prop) s :
  Q (f s) s → wp (gets f) Q R s.
Proof. done. Qed.

Lemma wp_modify (f : S → S) (Q : () → S → Prop) (R : E → S → Prop) s :
  Q () (f s) → wp (modify f) Q R s.
Proof. done. Qed.

Lemma wp_lift_result {A} (r : result E A) (Q : A → S → Prop) (R : E → S → Prop) s :
  (∀ a, r = Ok a → Q a s) → (∀ e, r = Err e → R e s) → wp (lift_result r) Q R s.
Proof. unfold wp, lift_result. destruct r; auto. Qed.

Lemma wp_lift_index {A} (o : option A) (Q : A → S → Prop) (R : E → S → Prop) s a :
  o = Some a → Q a s → wp (lift_index o) Q R s.
Proof. unfold wp, lift_index. by intros ->. Qed.

Lemma wp_on_fst {K A} (m : state_m S E A) (Q : A → S * K → Prop) (R : E → S * K → Prop) s k :
  wp m (λ a s', Q a (s', k)) (λ e s', R e (s', k)) s → wp (on_fst m) Q R (s, k).
Proof. unfold wp, on_fst. by destruct (m s). Qed.

Lemma wp_Returned {A} (m : state_m S E A) Q R s a s' :
  wp m Q R s → m s = Returned a s' → Q a s'.
Proof. unfold wp. intros H Hm. by rewrite Hm in H. Qed.

Lemma wp_Threw {A} (m : state_m S E A) Q R s e s' :
  wp m Q R s → m s = Threw e s' → R e s'.
Proof. unfold wp. intros H Hm. by rewrite Hm in H. Qed.

Lemma wp_no_panic {A} (m : state_m S E A) Q R s :
  wp m Q R s → m s ≠ Panicked.
Proof. unfold wp. intros H E'. by rewrite E' in H. Qed.
End wp.

(** One symbolic step through a computation: binds, reads, writes, throws and
    the case analysis of its tests. *)
Ltac wp_step :=
  match goal with
  | |- wp (mbind _ _) _ _ _ => apply wp_bind
  | |- wp (mret _) _ _ _ => apply wp_ret
  | |- wp (mthrow _) _ _ _ => apply wp_throw
  | |- wp (gets _) _ _ _ => apply wp_gets; simpl
  | |- wp (modify _) _ _ _ => apply wp_modify
  | |- wp (lift_result _) _ _ _ => apply wp_lift_result; intros ? ?
  | |- wp (if ?b then _ else _) _ _ _ => destruct b eqn:?; bool_to_prop
  | |- wp (match ?x with _ => _ end) _ _ _ => destruct x eqn:?
  end.

Ltac wp_steps := repeat (wp_step; simplify_eq/=).
