(* ===== verification/Bytes.v ===== *)
(** * Little- and big-endian byte strings, and the FNV-1a fingerprint

    A byte is a [Z] in [0, 256); a Rust array [[u8; n]] is a list of [n] such
    bytes. [le_value] is [from_le_bytes], [le_bytes] is [to_le_bytes]. *)

From S2P Require Import Prelude.

Definition is_bytes (l : list Z) : Prop := Forall is_u8 l.

Fixpoint le_value (l : list Z) : Z :=
  match l with
  | [] => 0
  | b :: l => b + 256 * le_value l
  end.

Fixpoint le_bytes (n : nat) (z : Z) : list Z :=
  match n with
  | O => []
  | S n => z mod 256 :: le_bytes n (z / 256)
  end.

Definition be_bytes (n : nat) (z : Z) : list Z := reverse (le_bytes n z).

(** [copy_from_slice(&buffer[offset..offset + n])] then [from_le_bytes]. *)
Definition read_le (n : nat) (buffer : list Z) (offset : nat) : Z :=
  le_value (take n (drop offset buffer)).

(** One round of FNV-1a on 64-bit words. *)
Definition FNV1A64_OFFSET_BASIS : Z := 0xcbf29ce484222325.
Definition FNV1A64_PRIME : Z := 0x00000100000001b3.

Definition fnv1a64_round (fingerprint byte : Z) : Z :=
  as_u64 (Z.lxor fingerprint byte * FNV1A64_PRIME).

Definition fnv1a64_bytes (fingerprint : Z) (bytes : list Z) : Z :=
  foldl fnv1a64_round fingerprint bytes.

(** ** Round trips and ranges *)

Lemma le_bytes_length n z : length (le_bytes n z) = n.
Proof. revert z; induction n; intros z; simpl; auto. Qed.

Lemma is_bytes_le_bytes n z : is_bytes (le_bytes n z).
Proof.
  revert z; induction n as [|n IH]; intros z; simpl; constructor; [|apply IH].
  apply Z.mod_pos_bound. lia.
Qed.

Lemma le_value_range l :
  is_bytes l → 0 <= le_value l < 256 ^ Z.of_nat (length l).
Proof.
  unfold is_bytes, is_u8. induction 1 as [|b l Hb _ IH]; [done|].
  cbn [le_value length]. rewrite Nat2Z.inj_succ, Z.pow_succ_r by lia. lia.
Qed.

Lemma le_value_le_bytes n z : le_value (le_bytes n z) = z mod 256 ^ Z.of_nat n.
Proof.
  revert z; induction n as [|n IH]; intros z; [by rewrite Z.mod_1_r|].
  cbn [le_bytes le_value]. rewrite IH, Nat2Z.inj_succ, Z.pow_succ_r by lia.
  rewrite Z.rem_mul_r by lia. done.
Qed.

Lemma le_bytes_le_value l : is_bytes l → le_bytes (length l) (le_value l) = l.
Proof.
  unfold is_bytes, is_u8. induction 1 as [|b l Hb _ IH]; [done|].
  cbn [le_bytes le_value length].
  rewrite (Z.mul_comm 256), Z.mod_add, Z.div_add by lia.
  rewrite Z.mod_small, Z.div_small, Z.add_0_l, IH by lia. done.
Qed.

Lemma le_value_inj l k :
  is_bytes l → is_bytes k → length l = length k → le_value l = le_value k → l = k.
Proof.
  intros Hl Hk Hlen Heq. rewrite <- (le_bytes_le_value l Hl), <- (le_bytes_le_value k Hk).
  by rewrite Hlen, Heq.
Qed.

Lemma is_bytes_take_drop n m l : is_bytes l → is_bytes (take n (drop m l)).
Proof. intros. by apply Forall_take, Forall_drop. Qed.

Lemma read_le_range n buffer offset :
  is_bytes buffer → 0 <= read_le n buffer offset < 256 ^ Z.of_nat n.
Proof.
  intros Hb. unfold read_le.
  pose proof (le_value_range _ (is_bytes_take_drop n offset _ Hb)) as Hr.
  enough (256 ^ Z.of_nat (length (take n (drop offset buffer))) <= 256 ^ Z.of_nat n) by lia.
  apply Z.pow_le_mono_r; [lia|]. rewrite length_take. lia.
Qed.

(** A field written after a prefix is read back. *)
Lemma read_le_app pre n z post :
  read_le n (pre ++ le_bytes n z ++ post) (length pre) = z mod 256 ^ Z.of_nat n.
Proof.
  unfold read_le. rewrite drop_app_length.
  rewrite take_app_le by (rewrite le_bytes_length; lia).
  rewrite firstn_all2 by (rewrite le_bytes_length; lia).
  apply le_value_le_bytes.
Qed.

(** ** Records of consecutive fields *)

Lemma drop_field m z rest off :
  (m ≤ off)%nat → drop off (le_bytes m z ++ rest) = drop (off - m) rest.
Proof. intros. by rewrite drop_app_ge, le_bytes_length by (rewrite le_bytes_length; lia). Qed.

Lemma read_le_skip n m z rest off :
  (m ≤ off)%nat → read_le n (le_bytes m z ++ rest) off = read_le n rest (off - m).
Proof. intros. unfold read_le. by rewrite drop_field. Qed.

Lemma read_le_here n z rest :
  0 <= z < 256 ^ Z.of_nat n → read_le n (le_bytes n z ++ rest) 0 = z.
Proof. intros. rewrite <- (Z.mod_small z (256 ^ Z.of_nat n)) at 2 by done. apply (read_le_app []). Qed.

Lemma read_le_end n z : 0 <= z < 256 ^ Z.of_nat n → read_le n (le_bytes n z) 0 = z.
Proof. intros. rewrite <- (app_nil_r (le_bytes n z)). by apply read_le_here. Qed.

(** A buffer is the concatenation of its fields: the field at [off] and the rest. *)
Lemma drop_split n off l :
  is_bytes l → (off + n ≤ length l)%nat →
  drop off l = le_bytes n (read_le n l off) ++ drop (off + n) l.
Proof.
  intros Hb Hlen. unfold read_le.
  rewrite <- (take_drop n (drop off l)) at 1. rewrite drop_drop. f_equal.
  rewrite <- (le_bytes_le_value (take n (drop off l))) at 1 by by apply is_bytes_take_drop.
  f_equal. rewrite length_take, length_drop. lia.
Qed.

#[global] Arguments le_bytes : simpl never.
#[global] Arguments le_value : simpl never.

Ltac read_field :=
  repeat (rewrite read_le_skip by lia; cbn [Nat.sub]);
  first [rewrite read_le_here | rewrite read_le_end].
