(* ===== verification/WaitStatus.v ===== *)
(** * Wait status words

    The classifier of raw [waitpid(__WALL)] status words
    ([src/src/linux_pytest/tracer_wait_status.rs]) and the final terminations
    it shares with the persisted record ([src/src/linux_pytest.rs],
    [LinuxWaitTerminationV1] and [RawLinuxWaitStatusV1]). *)

From S2P Require Import Prelude Monad.

(** ** Final terminations *)

Inductive LinuxWaitTerminationV1 :=
| Exited (code : Z)
| Signaled (signal : Z) (core_dumped : bool).

#[global] Instance LinuxWaitTerminationV1_eq_dec : EqDecision LinuxWaitTerminationV1.
Proof. solve_decision. Defined.

(** The x86_64 signals whose default action dumps core. *)
Definition is_core_dump_signal (signal : Z) : bool :=
  existsb (Z.eqb signal) [3; 4; 5; 6; 7; 8; 11; 24; 25; 31].

Definition termination_valid (t : LinuxWaitTerminationV1) : bool :=
  match t with
  | Exited _ => true
  | Signaled signal core_dumped =>
      (1 <=? signal) && (signal <=? 64) &&
      (negb core_dumped || is_core_dump_signal signal)
  end.

(** ** Constants *)

Definition LINUX_WAIT_LOW_BYTE_MASK_V1 : Z := 0x000000ff.
Definition LINUX_WAIT_SIGNAL_MASK_V1 : Z := 0x7f.
Definition LINUX_WAIT_CORE_FLAG_V1 : Z := 0x80.
Definition LINUX_WAIT_STOP_LOW_BYTE_V1 : Z := 0x7f.
Definition LINUX_WAIT_CONTINUED_V1 : Z := 0x0000ffff.
Definition LINUX_WAIT_EVENT_MASK_V1 : Z := 0xffff0000.

Definition LINUX_X86_64_MAX_SIGNAL_V1 : Z := 64.
Definition LINUX_SIGTRAP_V1 : Z := 5.
Definition LINUX_SIGSTOP_V1 : Z := 19.
Definition LINUX_SIGTSTP_V1 : Z := 20.
Definition LINUX_SIGTTIN_V1 : Z := 21.
Definition LINUX_SIGTTOU_V1 : Z := 22.
Definition LINUX_TRACESYSGOOD_STOP_SIGNAL_V1 : Z := Z.lor LINUX_SIGTRAP_V1 0x80.

Definition LINUX_PTRACE_EVENT_FORK_V1 : Z := 1.
Definition LINUX_PTRACE_EVENT_VFORK_V1 : Z := 2.
Definition LINUX_PTRACE_EVENT_CLONE_V1 : Z := 3.
Definition LINUX_PTRACE_EVENT_EXEC_V1 : Z := 4.
Definition LINUX_PTRACE_EVENT_VFORK_DONE_V1 : Z := 5.
Definition LINUX_PTRACE_EVENT_EXIT_V1 : Z := 6.
Definition LINUX_PTRACE_EVENT_SECCOMP_V1 : Z := 7.
Definition LINUX_PTRACE_EVENT_STOP_V1 : Z := 128.

(** ** Classes and rejections *)

Inductive LinuxPtraceEventV1 :=
| EvFork | EvVfork | EvClone | EvExec | EvExit | EvSeccomp.

#[global] Instance LinuxPtraceEventV1_eq_dec : EqDecision LinuxPtraceEventV1.
Proof. solve_decision. Defined.

(** The [repr(u16)] discriminant, [event as u16]. *)
Definition ptrace_event_code (event : LinuxPtraceEventV1) : Z :=
  match event with
  | EvFork => LINUX_PTRACE_EVENT_FORK_V1
  | EvVfork => LINUX_PTRACE_EVENT_VFORK_V1
  | EvClone => LINUX_PTRACE_EVENT_CLONE_V1
  | EvExec => LINUX_PTRACE_EVENT_EXEC_V1
  | EvExit => LINUX_PTRACE_EVENT_EXIT_V1
  | EvSeccomp => LINUX_PTRACE_EVENT_SECCOMP_V1
  end.

Inductive LinuxPtraceEventStopSignalShapeV1 :=
| TrapInitialChildOrInterrupt
| JobControlGroupStop.

#[global] Instance LinuxPtraceEventStopSignalShapeV1_eq_dec :
  EqDecision LinuxPtraceEventStopSignalShapeV1.
Proof. solve_decision. Defined.

Record LinuxPtraceEventStopCandidateV1 := {
  stop_signal : Z;
  signal_shape : LinuxPtraceEventStopSignalShapeV1;
}.

#[global] Instance LinuxPtraceEventStopCandidateV1_eq_dec :
  EqDecision LinuxPtraceEventStopCandidateV1.
Proof. solve_decision. Defined.

Record LinuxEventZeroStopCandidateV1 := { event_zero_stop_signal : Z }.

#[global] Instance LinuxEventZeroStopCandidateV1_eq_dec :
  EqDecision LinuxEventZeroStopCandidateV1.
Proof. solve_decision. Defined.

Inductive LinuxWaitStatusClassV1 :=
| Final (termination : LinuxWaitTerminationV1)
| SyscallEntryOrExitStop
| PtraceEvent (event : LinuxPtraceEventV1)
| PtraceEventStopRequiringContext (candidate : LinuxPtraceEventStopCandidateV1)
| EventZeroStopRequiringSiginfo (candidate : LinuxEventZeroStopCandidateV1)
| Continued.

#[global] Instance LinuxWaitStatusClassV1_eq_dec : EqDecision LinuxWaitStatusClassV1.
Proof. solve_decision. Defined.

Inductive LinuxWaitStatusDecodeErrorV1 :=
| PtraceEventBitsOnNonStop
| CoreFlagWithoutSignal
| ReservedContinuationEncoding
| InvalidTerminationSignal (signal : Z)
| SignaledTerminationHasExitPayload
| CoreFlagForNonCoreDumpSignal (signal : Z)
| InvalidEventZeroStopSignal (stop_signal : Z)
| PtraceEventSignalMismatch (event_code : Z) (stop_signal : Z)
| UnsupportedPtraceEventVforkDone
| PtraceEventStopSignalMismatch (stop_signal : Z)
| UnknownPtraceEvent (event_code : Z).

#[global] Instance LinuxWaitStatusDecodeErrorV1_eq_dec :
  EqDecision LinuxWaitStatusDecodeErrorV1.
Proof. solve_decision. Defined.

(** ** The decoder *)

Definition is_job_control_stop_signal_v1 (signal : Z) : bool :=
  (signal =? LINUX_SIGSTOP_V1) || (signal =? LINUX_SIGTSTP_V1) ||
  (signal =? LINUX_SIGTTIN_V1) || (signal =? LINUX_SIGTTOU_V1).

Definition decode_ptrace_event_stop_v1 (stop_signal : Z) :
    result LinuxWaitStatusDecodeErrorV1 LinuxWaitStatusClassV1 :=
  if stop_signal =? LINUX_SIGTRAP_V1 then
    Ok (PtraceEventStopRequiringContext
          {| stop_signal := stop_signal;
             signal_shape := TrapInitialChildOrInterrupt |})
  else if is_job_control_stop_signal_v1 stop_signal then
    Ok (PtraceEventStopRequiringContext
          {| stop_signal := stop_signal; signal_shape := JobControlGroupStop |})
  else Err (PtraceEventStopSignalMismatch stop_signal).

Definition decode_linux_ptrace_stop_v1 (status : Z) :
    result LinuxWaitStatusDecodeErrorV1 LinuxWaitStatusClassV1 :=
  let stop_signal := as_u8 (Z.land (Z.shiftr status 8) 0xff) in
  let event_code := as_u16 (Z.shiftr status 16) in
  (* The arms that bind [event] continue with the common signal check. *)
  let continue (event : LinuxPtraceEventV1) :=
    if negb (stop_signal =? LINUX_SIGTRAP_V1) then
      Err (PtraceEventSignalMismatch (ptrace_event_code event) stop_signal)
    else Ok (PtraceEvent event) in
  if event_code =? 0 then
    if stop_signal =? LINUX_TRACESYSGOOD_STOP_SIGNAL_V1 then
      Ok SyscallEntryOrExitStop
    else if (stop_signal =? 0) || (LINUX_X86_64_MAX_SIGNAL_V1 <? stop_signal) then
      Err (InvalidEventZeroStopSignal stop_signal)
    else Ok (EventZeroStopRequiringSiginfo {| event_zero_stop_signal := stop_signal |})
  else if event_code =? LINUX_PTRACE_EVENT_FORK_V1 then continue EvFork
  else if event_code =? LINUX_PTRACE_EVENT_VFORK_V1 then continue EvVfork
  else if event_code =? LINUX_PTRACE_EVENT_CLONE_V1 then continue EvClone
  else if event_code =? LINUX_PTRACE_EVENT_EXEC_V1 then continue EvExec
  else if event_code =? LINUX_PTRACE_EVENT_VFORK_DONE_V1 then
    if negb (stop_signal =? LINUX_SIGTRAP_V1) then
      Err (PtraceEventSignalMismatch event_code stop_signal)
    else Err UnsupportedPtraceEventVforkDone
  else if event_code =? LINUX_PTRACE_EVENT_EXIT_V1 then continue EvExit
  else if event_code =? LINUX_PTRACE_EVENT_SECCOMP_V1 then continue EvSeccomp
  else if event_code =? LINUX_PTRACE_EVENT_STOP_V1 then
    decode_ptrace_event_stop_v1 stop_signal
  else Err (UnknownPtraceEvent event_code).

Definition decode_linux_terminal_signal_v1 (status low_byte : Z) :
    result LinuxWaitStatusDecodeErrorV1 LinuxWaitStatusClassV1 :=
  let signal := Z.land low_byte LINUX_WAIT_SIGNAL_MASK_V1 in
  if (signal =? 0) || (LINUX_X86_64_MAX_SIGNAL_V1 <? signal) then
    Err (InvalidTerminationSignal signal)
  else if negb (Z.land status 0x0000ff00 =? 0) then
    Err SignaledTerminationHasExitPayload
  else
    let core_dumped := negb (Z.land low_byte LINUX_WAIT_CORE_FLAG_V1 =? 0) in
    if core_dumped && negb (termination_valid (Signaled signal core_dumped)) then
      Err (CoreFlagForNonCoreDumpSignal signal)
    else Ok (Final (Signaled signal core_dumped)).

Definition decode_linux_wait_status_x86_64_v1 (raw_status : Z) :
    result LinuxWaitStatusDecodeErrorV1 LinuxWaitStatusClassV1 :=
  let status := as_u32 raw_status in
  let low_byte := as_u8 (Z.land status LINUX_WAIT_LOW_BYTE_MASK_V1) in
  if negb (Z.land status LINUX_WAIT_EVENT_MASK_V1 =? 0)
     && negb (low_byte =? LINUX_WAIT_STOP_LOW_BYTE_V1) then
    Err PtraceEventBitsOnNonStop
  else if status =? LINUX_WAIT_CONTINUED_V1 then Ok Continued
  else if low_byte =? 0 then
    Ok (Final (Exited (as_u8 (Z.land (Z.shiftr status 8) 0xff))))
  else if low_byte =? LINUX_WAIT_CORE_FLAG_V1 then Err CoreFlagWithoutSignal
  else if low_byte =? LINUX_WAIT_STOP_LOW_BYTE_V1 then
    decode_linux_ptrace_stop_v1 status
  else if low_byte =? U8_MAX then Err ReservedContinuationEncoding
  else decode_linux_terminal_signal_v1 status low_byte.

(** ** [RawLinuxWaitStatusV1] *)

Definition raw_exited (code : Z) : Z := as_u32 (Z.shiftl code 8).

Definition raw_termination (raw : Z) : option LinuxWaitTerminationV1 :=
  match decode_linux_wait_status_x86_64_v1 (as_i32 raw) with
  | Ok (Final termination) => Some termination
  | Ok _ | Err _ => None
  end.

Definition raw_is_success (raw : Z) : bool :=
  match raw_termination raw with
  | Some (Exited code) => code =? 0
  | _ => false
  end.

Definition raw_exit_code (raw : Z) : option Z :=
  match raw_termination raw with
  | Some (Exited code) => Some code
  | Some (Signaled _ _) | None => None
  end.

Definition raw_terminating_signal (raw : Z) : option (Z * bool) :=
  match raw_termination raw with
  | Some (Signaled signal core_dumped) => Some (signal, core_dumped)
  | Some (Exited _) | None => None
  end.

Definition raw_is_final (raw : Z) : bool :=
  match raw_termination raw with Some _ => true | None => false end.

(** ** Specification: the kernel's encoding of each class *)

Definition encode_termination (t : LinuxWaitTerminationV1) : Z :=
  match t with
  | Exited code => 256 * code
  | Signaled signal core_dumped => signal + (if core_dumped then 128 else 0)
  end.

Definition encode_wait_class (c : LinuxWaitStatusClassV1) : Z :=
  match c with
  | Final t => encode_termination t
  | SyscallEntryOrExitStop => 0x857f
  | PtraceEvent event => 65536 * ptrace_event_code event + 0x057f
  | PtraceEventStopRequiringContext c => 65536 * 128 + 256 * stop_signal c + 0x7f
  | EventZeroStopRequiringSiginfo c => 256 * event_zero_stop_signal c + 0x7f
  | Continued => 0xffff
  end.

(** The classes the kernel can report. *)
Definition wait_class_valid (c : LinuxWaitStatusClassV1) : Prop :=
  match c with
  | Final (Exited code) => is_u8 code
  | Final (Signaled s b) => termination_valid (Signaled s b) = true
  | SyscallEntryOrExitStop | PtraceEvent _ | Continued => True
  | PtraceEventStopRequiringContext {| stop_signal := s; signal_shape := sh |} =>
      match sh with
      | TrapInitialChildOrInterrupt => s = 5
      | JobControlGroupStop => 19 <= s <= 22
      end
  | EventZeroStopRequiringSiginfo c => 1 <= event_zero_stop_signal c <= 64
  end.

(** ** Exactness of the classifier *)

(** The three byte fields of a status word. *)
Lemma status_fields s :
  is_u32 s →
  ∃ ev sig low, s = 65536 * ev + 256 * sig + low
    ∧ 0 <= ev < 65536 ∧ 0 <= sig < 256 ∧ 0 <= low < 256
    ∧ as_u8 (Z.land s LINUX_WAIT_LOW_BYTE_MASK_V1) = low
    ∧ as_u8 (Z.land (Z.shiftr s 8) 0xff) = sig
    ∧ as_u16 (Z.shiftr s 16) = ev
    ∧ Z.land s LINUX_WAIT_EVENT_MASK_V1 = 65536 * ev
    ∧ Z.land s 0x0000ff00 = 256 * sig.
Proof.
  unfold is_u32. intros Hs. exists (s / 65536), ((s / 256) mod 256), (s mod 256).
  change LINUX_WAIT_LOW_BYTE_MASK_V1 with (2 ^ 8 - 1).
  change 0xff with (2 ^ 8 - 1).
  change LINUX_WAIT_EVENT_MASK_V1 with (Z.shiftl (2 ^ 16 - 1) 16).
  change 0x0000ff00 with (Z.shiftl (2 ^ 8 - 1) 8).
  rewrite !land_field, !land_mask, !Z.shiftr_div_pow2 by lia.
  change (2 ^ 8) with 256; change (2 ^ 16) with 65536.
  unfold as_u8, as_u16. change (2 ^ 8) with 256; change (2 ^ 16) with 65536.
  assert (0 <= s / 65536 < 65536) by zdiv_lia.
  rewrite !(Z.mod_small (s / 65536)), !Zmod_mod by done.
  split_and!; zdiv_lia.
Qed.

Lemma low_byte_fields low :
  0 <= low < 256 →
  Z.land low LINUX_WAIT_SIGNAL_MASK_V1 = low mod 128
  ∧ Z.land low LINUX_WAIT_CORE_FLAG_V1 = 128 * (low / 128).
Proof.
  intros Hlow. change LINUX_WAIT_SIGNAL_MASK_V1 with (2 ^ 7 - 1).
  change LINUX_WAIT_CORE_FLAG_V1 with (Z.shiftl (2 ^ 1 - 1) 7).
  rewrite land_field, land_mask by lia. change (2 ^ 7) with 128. change (2 ^ 1) with 2.
  rewrite (Z.mod_small (low / 128)) by zdiv_lia. lia.
Qed.

Ltac unfold_wait_constants :=
  unfold LINUX_WAIT_STOP_LOW_BYTE_V1, LINUX_WAIT_CONTINUED_V1, LINUX_WAIT_CORE_FLAG_V1,
    LINUX_X86_64_MAX_SIGNAL_V1, LINUX_SIGTRAP_V1, LINUX_SIGSTOP_V1, LINUX_SIGTSTP_V1,
    LINUX_SIGTTIN_V1, LINUX_SIGTTOU_V1, LINUX_PTRACE_EVENT_FORK_V1,
    LINUX_PTRACE_EVENT_VFORK_V1, LINUX_PTRACE_EVENT_CLONE_V1, LINUX_PTRACE_EVENT_EXEC_V1,
    LINUX_PTRACE_EVENT_VFORK_DONE_V1, LINUX_PTRACE_EVENT_EXIT_V1,
    LINUX_PTRACE_EVENT_SECCOMP_V1, LINUX_PTRACE_EVENT_STOP_V1, U8_MAX in *.

(** The classifier on the fields of the word, with every test arithmetic. *)
Lemma decode_ptrace_stop_spec s ev sig :
  as_u8 (Z.land (Z.shiftr s 8) 0xff) = sig → as_u16 (Z.shiftr s 16) = ev →
  0 <= ev < 65536 → 0 <= sig < 256 →
  match decode_linux_ptrace_stop_v1 s with
  | Ok c => wait_class_valid c ∧ encode_wait_class c = 65536 * ev + 256 * sig + 127
            ∧ ∀ t, c ≠ Final t
  | Err _ => ∀ c, wait_class_valid c → encode_wait_class c ≠ 65536 * ev + 256 * sig + 127
  end.
Proof.
  intros Hsig Hev ??. unfold decode_linux_ptrace_stop_v1, decode_ptrace_event_stop_v1,
    is_job_control_stop_signal_v1. rewrite Hsig, Hev.
  change LINUX_TRACESYSGOOD_STOP_SIGNAL_V1 with 133. unfold_wait_constants. clear Hsig Hev.
  case_code; try solve [split_and!; done || lia];
    intros [[|? []]| |[]|[? []]| |]; simpl; unfold is_u8; try lia;
    intros ?; bool_to_prop; unfold_wait_constants; lia.
Qed.

Lemma decode_terminal_signal_spec s sig low :
  Z.land s 0x0000ff00 = 256 * sig → 0 <= sig < 256 →
  0 <= low < 256 → low ≠ 0 → low ≠ 127 → low ≠ 128 → low ≠ 255 →
  match decode_linux_terminal_signal_v1 s low with
  | Ok c => wait_class_valid c ∧ encode_wait_class c = 256 * sig + low
  | Err _ => ∀ c, wait_class_valid c → encode_wait_class c ≠ 256 * sig + low
  end.
Proof.
  intros Hsig ??????. unfold decode_linux_terminal_signal_v1.
  destruct (low_byte_fields low) as [-> ->]; [done|]. rewrite Hsig. clear Hsig.
  set (signal := low mod 128). set (core := low / 128).
  assert (low = 128 * core + signal ∧ 0 <= signal < 128 ∧ 0 <= core < 2) as (?&?&?)
    by (subst signal core; zdiv_lia).
  clearbody signal core. subst low. unfold_wait_constants.
  destruct (decide (core = 0)) as [->|]; [|assert (core = 1) as -> by lia]; simpl;
    destruct (is_core_dump_signal signal) eqn:Hcore;
    case_code; try solve [rewrite ?Hcore; split_and!; done || lia];
    intros [[|s' [|]]| |[]|[? []]| |]; simpl; unfold is_u8; try lia;
    intros Hv ?; bool_to_prop; unfold_wait_constants; try lia;
    assert (s' = signal) as -> by lia; simpl in *; intuition congruence.
Qed.

(** No class encodes to the word at hand. *)
Ltac wait_class_contra :=
  intros [[|? []]| |[]|[? []]| |]; simpl; unfold is_u8; intros; bool_to_prop;
  unfold_wait_constants; lia.

Lemma decode_wait_status_spec raw :
  match decode_linux_wait_status_x86_64_v1 raw with
  | Ok c => wait_class_valid c ∧ as_u32 raw = encode_wait_class c
  | Err _ => ∀ c, wait_class_valid c → as_u32 raw ≠ encode_wait_class c
  end.
Proof.
  unfold decode_linux_wait_status_x86_64_v1.
  destruct (status_fields (as_u32 raw) (as_u32_range raw))
    as (ev & sig & low & Hs & ? & ? & ? & -> & Hsig & Hev & -> & Hmask).
  pose proof (decode_ptrace_stop_spec _ _ _ Hsig Hev) as Hstop.
  pose proof (decode_terminal_signal_spec _ sig low Hmask) as Hterm.
  rewrite Hsig. rewrite Hs in *. unfold_wait_constants.
  destruct (_ && _) eqn:Hbits; [bool_to_prop; wait_class_contra|].
  destruct (65536 * ev + 256 * sig + low =? 65535) eqn:?; [by bool_to_prop|].
  destruct (low =? 0) eqn:?; [bool_to_prop; simpl; unfold is_u8; lia|].
  destruct (low =? 128) eqn:?; [bool_to_prop; wait_class_contra|].
  destruct (low =? 127) eqn:?; bool_to_prop.
  { subst low. specialize (Hstop ltac:(done) ltac:(done)).
    destruct (decode_linux_ptrace_stop_v1 _); [|intros c Hc; specialize (Hstop c Hc)];
      intuition lia. }
  destruct (low =? 255) eqn:?; bool_to_prop; [wait_class_contra|].
  assert (ev = 0) as -> by (destruct Hbits; bool_to_prop; lia).
  specialize (Hterm ltac:(done) ltac:(done) ltac:(done) ltac:(done) ltac:(done) ltac:(done)).
  destruct (decode_linux_terminal_signal_v1 _ _); [|intros c Hc; specialize (Hterm c Hc)];
    intuition lia.
Qed.

Lemma encode_wait_class_inj c c' :
  wait_class_valid c → wait_class_valid c' →
  encode_wait_class c = encode_wait_class c' → c = c'.
Proof.
  destruct c as [[?|? []]| |[]|[? []]|[?]|], c' as [[?|? []]| |[]|[? []]|[?]|];
    simpl; unfold is_u8; intros; bool_to_prop; unfold_wait_constants;
    try done; try (exfalso; lia); repeat f_equal; lia.
Qed.

(** C9. The classifier accepts exactly the words the kernel can produce: it
    returns class [c] on a raw word if and only if [c] is a class Linux x86_64
    can report and the word is the encoding of [c]; every other word is
    rejected. *)
Theorem decode_wait_status_exact raw c :
  decode_linux_wait_status_x86_64_v1 raw = Ok c
  ↔ wait_class_valid c ∧ as_u32 raw = encode_wait_class c.
Proof.
  pose proof (decode_wait_status_spec raw) as Hspec.
  destruct (decode_linux_wait_status_x86_64_v1 raw) as [c'|e].
  - destruct Hspec as [Hv He]. split; [by intros [= <-]|].
    intros [Hv' He']. f_equal. apply encode_wait_class_inj; [done..|congruence].
  - split; [done|]. intros [Hv He]. by destruct (Hspec c Hv).
Qed.

(** ** The record-side accessors *)

(** [None] of [raw_termination] is a word no final class encodes to. *)
Lemma raw_termination_exact raw t :
  is_u32 raw →
  raw_termination raw = Some t ↔ wait_class_valid (Final t) ∧ raw = encode_termination t.
Proof.
  intros Hraw. unfold raw_termination. pose proof (decode_wait_status_spec (as_i32 raw)) as Hspec.
  rewrite as_u32_as_i32, as_u32_id in Hspec by done.
  destruct (decode_linux_wait_status_x86_64_v1 (as_i32 raw)) as [c|e].
  - destruct Hspec as [Hv He]. transitivity (c = Final t).
    { clear. destruct c; naive_solver. }
    split; [by intros ->|]. intros [Hv' He'].
    apply encode_wait_class_inj; [done..|]. by rewrite <- He.
  - split; [done|]. intros [Hv He]. by destruct (Hspec (Final t) Hv).
Qed.

(** The accessors of a recorded wait status agree with the kernel's
    encoding: an exit code is reported exactly for the word [exited] builds
    from it, success exactly for the zero word, a terminating signal exactly
    for a signal a task can die of (with the core flag only where the signal
    dumps core), and a word is final exactly when it is one of these. *)
Theorem raw_wait_status_exact raw :
  is_u32 raw →
  (∀ code, raw_exit_code raw = Some code ↔ is_u8 code ∧ raw = raw_exited code)
  ∧ (∀ signal core, raw_terminating_signal raw = Some (signal, core) ↔
       termination_valid (Signaled signal core) = true
       ∧ raw = signal + (if core then 128 else 0))
  ∧ (raw_is_success raw = true ↔ raw = 0)
  ∧ (raw_is_final raw = true ↔ ∃ t, wait_class_valid (Final t) ∧ raw = encode_termination t).
Proof.
  intros Hraw. pose proof (λ t, raw_termination_exact raw t Hraw) as Ht.
  assert (∀ code, is_u8 code → raw_exited code = encode_termination (Exited code)) as Henc.
  { intros code Hc. unfold is_u8 in Hc. unfold raw_exited, as_u32. simpl.
    rewrite Z.shiftl_mul_pow2, Z.mod_small by lia. lia. }
  assert (∀ code, raw_termination raw = Some (Exited code) ↔ is_u8 code ∧ raw = raw_exited code)
    as Hexit.
  { intros code. rewrite Ht. split; intros [Hc ->]; (split; [done|]); by rewrite Henc. }
  split; [|split; [|split]].
  - intros code. rewrite <- Hexit. unfold raw_exit_code.
    destruct (raw_termination raw) as [[]|]; split; congruence.
  - intros signal core. transitivity (raw_termination raw = Some (Signaled signal core)).
    { unfold raw_terminating_signal. destruct (raw_termination raw) as [[]|]; split; congruence. }
    apply Ht.
  - transitivity (raw_termination raw = Some (Exited 0)).
    { unfold raw_is_success. destruct (raw_termination raw) as [[]|]; [|split; congruence..].
      rewrite Z.eqb_eq. split; congruence. }
    rewrite Hexit. split; [by intros [_ ->]|]. by intros ->.
  - unfold raw_is_final. split.
    + destruct (raw_termination raw) as [t|]; [|done]. intros _. exists t. by apply Ht.
    + intros [t Hval]. apply Ht in Hval. by rewrite Hval.
Qed.

Lemma raw_wait_status_exact_witness :
  raw_exit_code 0x0700 = Some 7 ∧ raw_terminating_signal 0x8b = Some (11, true).
Proof.
  split.
  - apply (raw_wait_status_exact 0x0700); [done|]. split; [done|]. reflexivity.
  - apply (raw_wait_status_exact 0x8b); [done|]. split; reflexivity.
Defined.
