(* ===== verification/TracerSeccomp.v ===== *)
(** * The trace-all seccomp filter

    The frozen cBPF program of [src/src/linux_pytest/tracer_seccomp.rs], its
    canonical bytes and fingerprint, the compile-time forward-reachability
    checker, and the reference evaluator of the file's unit tests. *)

From S2P Require Import Prelude Monad Bytes.

Definition LINUX_SECCOMP_DATA_SYSCALL_NUMBER_OFFSET_V1 : Z := 0.
Definition LINUX_SECCOMP_DATA_ARCHITECTURE_OFFSET_V1 : Z := 4.
Definition LINUX_BPF_LD_W_ABS_V1 : Z := 0x20.
Definition LINUX_BPF_JMP_JEQ_K_V1 : Z := 0x15.
Definition LINUX_BPF_JMP_JSET_K_V1 : Z := 0x45.
Definition LINUX_BPF_RET_K_V1 : Z := 0x06.
Definition LINUX_AUDIT_ARCH_X86_64_V1 : Z := 0xc000003e.
Definition LINUX_X32_SYSCALL_BIT_V1 : Z := 0x40000000.
Definition LINUX_SECCOMP_RET_KILL_PROCESS_V1 : Z := 0x80000000.
Definition LINUX_SECCOMP_RET_TRACE_V1 : Z := 0x7ff00000.
Definition LINUX_SECCOMP_RET_DATA_MASK_V1 : Z := 0x0000ffff.
Definition TRACE_ALL_NATIVE_SECCOMP_COOKIE_V1 : Z := 0xa731.
Definition TRACE_ALL_NATIVE_SECCOMP_RESULT_V1 : Z :=
  Z.lor LINUX_SECCOMP_RET_TRACE_V1 TRACE_ALL_NATIVE_SECCOMP_COOKIE_V1.
Definition TRACE_ALL_NATIVE_SECCOMP_INSTRUCTION_COUNT_V1 : nat := 7.
Definition TRACE_ALL_NATIVE_SECCOMP_CANONICAL_BYTE_COUNT_V1 : nat :=
  (TRACE_ALL_NATIVE_SECCOMP_INSTRUCTION_COUNT_V1 * 8)%nat.
Definition TRACE_ALL_NATIVE_SECCOMP_BYTES_FNV1A64_V1 : Z := 0x1fb7ac427a7bad22.

Definition trace_all_native_seccomp_cookie_spec_v1 : Z :=
  TRACE_ALL_NATIVE_SECCOMP_COOKIE_V1.

Record LinuxSockFilterV1 := {
  code : Z;
  jump_true : Z;
  jump_false : Z;
  operand : Z;
}.

Definition TRACE_ALL_NATIVE_SECCOMP_FILTER_INSTRUCTIONS_V1 : list LinuxSockFilterV1 := [
  {| code := LINUX_BPF_LD_W_ABS_V1; jump_true := 0; jump_false := 0;
     operand := LINUX_SECCOMP_DATA_ARCHITECTURE_OFFSET_V1 |};
  {| code := LINUX_BPF_JMP_JEQ_K_V1; jump_true := 1; jump_false := 0;
     operand := LINUX_AUDIT_ARCH_X86_64_V1 |};
  {| code := LINUX_BPF_RET_K_V1; jump_true := 0; jump_false := 0;
     operand := LINUX_SECCOMP_RET_KILL_PROCESS_V1 |};
  {| code := LINUX_BPF_LD_W_ABS_V1; jump_true := 0; jump_false := 0;
     operand := LINUX_SECCOMP_DATA_SYSCALL_NUMBER_OFFSET_V1 |};
  {| code := LINUX_BPF_JMP_JSET_K_V1; jump_true := 0; jump_false := 1;
     operand := LINUX_X32_SYSCALL_BIT_V1 |};
  {| code := LINUX_BPF_RET_K_V1; jump_true := 0; jump_false := 0;
     operand := LINUX_SECCOMP_RET_KILL_PROCESS_V1 |};
  {| code := LINUX_BPF_RET_K_V1; jump_true := 0; jump_false := 0;
     operand := TRACE_ALL_NATIVE_SECCOMP_RESULT_V1 |}
].

(** Eight bytes per instruction: code, the two jumps, the operand. *)
Definition canonical_instruction_bytes (i : LinuxSockFilterV1) : list Z :=
  le_bytes 2 (code i) ++ [jump_true i; jump_false i] ++ le_bytes 4 (operand i).

Definition canonical_filter_bytes_v1 (program : list LinuxSockFilterV1) : list Z :=
  mjoin (canonical_instruction_bytes <$> program).

Definition TRACE_ALL_NATIVE_SECCOMP_CANONICAL_BYTES_V1 : list Z :=
  canonical_filter_bytes_v1 TRACE_ALL_NATIVE_SECCOMP_FILTER_INSTRUCTIONS_V1.

Definition fnv1a64_v1 (bytes : list Z) : Z := fnv1a64_bytes 0xcbf29ce484222325 bytes.

(** ** The static checker *)

Definition checked_forward_target_v1 (instruction_index : nat) (jump_offset : Z) :
    option nat :=
  let target := (instruction_index + 1 + Z.to_nat jump_offset)%nat in
  if (target <=? instruction_index)%nat
     || (TRACE_ALL_NATIVE_SECCOMP_INSTRUCTION_COUNT_V1 <=? target)%nat
  then None else Some target.

(** One iteration of the scan: [None] is the early [return false]. *)
Definition mark_targets (instruction_index : nat) (instruction : LinuxSockFilterV1)
    (reachable : list bool) : option (list bool) :=
  if code instruction =? LINUX_BPF_LD_W_ABS_V1 then
    target ← checked_forward_target_v1 instruction_index 0;
    Some (<[target:=true]> reachable)
  else if (code instruction =? LINUX_BPF_JMP_JEQ_K_V1)
          || (code instruction =? LINUX_BPF_JMP_JSET_K_V1) then
    true_target ← checked_forward_target_v1 instruction_index (jump_true instruction);
    false_target ← checked_forward_target_v1 instruction_index (jump_false instruction);
    Some (<[false_target:=true]> (<[true_target:=true]> reachable))
  else if negb (code instruction =? LINUX_BPF_RET_K_V1) then None
  else Some reachable.

Fixpoint scan_reachable (program : list LinuxSockFilterV1) (instruction_index : nat)
    (reachable : list bool) : option (list bool) :=
  match program with
  | [] => Some reachable
  | instruction :: program =>
      if default false (reachable !! instruction_index) then
        reachable' ← mark_targets instruction_index instruction reachable;
        scan_reachable program (S instruction_index) reachable'
      else scan_reachable program (S instruction_index) reachable
  end.

Definition all_nodes_strictly_forward_reachable_v1 (program : list LinuxSockFilterV1) :
    bool :=
  match scan_reachable program 0
          (<[0%nat:=true]> (replicate TRACE_ALL_NATIVE_SECCOMP_INSTRUCTION_COUNT_V1 false)) with
  | Some reachable => forallb (λ b, b) reachable
  | None => false
  end.

(** ** The reference evaluator *)

Fixpoint evaluate_program (steps : nat) (program : list LinuxSockFilterV1)
    (architecture syscall_number accumulator : Z) (instruction_index : nat) : option Z :=
  match steps with
  | O => None
  | S steps =>
      instruction ← program !! instruction_index;
      if code instruction =? LINUX_BPF_LD_W_ABS_V1 then
        if operand instruction =? LINUX_SECCOMP_DATA_SYSCALL_NUMBER_OFFSET_V1 then
          evaluate_program steps program architecture syscall_number
            syscall_number (S instruction_index)
        else if operand instruction =? LINUX_SECCOMP_DATA_ARCHITECTURE_OFFSET_V1 then
          evaluate_program steps program architecture syscall_number
            architecture (S instruction_index)
        else None
      else if code instruction =? LINUX_BPF_JMP_JEQ_K_V1 then
        next ← checked_forward_target_v1 instruction_index
                 (if accumulator =? operand instruction
                  then jump_true instruction else jump_false instruction);
        evaluate_program steps program architecture syscall_number accumulator next
      else if code instruction =? LINUX_BPF_JMP_JSET_K_V1 then
        next ← checked_forward_target_v1 instruction_index
                 (if negb (Z.land accumulator (operand instruction) =? 0)
                  then jump_true instruction else jump_false instruction);
        evaluate_program steps program architecture syscall_number accumulator next
      else if code instruction =? LINUX_BPF_RET_K_V1 then Some (operand instruction)
      else None
  end.

Definition TEST_EVALUATION_STEP_CAP_V1 : nat :=
  S TRACE_ALL_NATIVE_SECCOMP_INSTRUCTION_COUNT_V1.

Definition evaluate_filter_v1 (architecture syscall_number : Z) : option Z :=
  evaluate_program TEST_EVALUATION_STEP_CAP_V1
    TRACE_ALL_NATIVE_SECCOMP_FILTER_INSTRUCTIONS_V1 architecture syscall_number 0 0.

(** ** Theorems *)

(** The specified verdict: native x86_64 calls are traced with the cookie,
    everything else kills the process. *)
Definition seccomp_verdict (architecture syscall_number : Z) : Z :=
  if (architecture =? LINUX_AUDIT_ARCH_X86_64_V1) && negb (Z.testbit syscall_number 30)
  then TRACE_ALL_NATIVE_SECCOMP_RESULT_V1
  else LINUX_SECCOMP_RET_KILL_PROCESS_V1.

Lemma land_bit z n : 0 <= n → (Z.land z (2 ^ n) =? 0) = negb (Z.testbit z n).
Proof.
  intros Hn. pose proof (land_field z n 1 Hn ltac:(lia)) as Hf.
  rewrite Z.shiftl_mul_pow2 in Hf by done. change (2 ^ 1 - 1) with 1 in Hf.
  rewrite Z.mul_1_l in Hf. rewrite Hf.
  change (2 ^ 1) with 2. rewrite <- Z.testbit_spec' by done.
  pose proof (Z.pow_pos_nonneg 2 n). destruct (Z.testbit z n); simpl; [apply Z.eqb_neq; lia|done].
Qed.

(** The frozen filter decides every system call: on any audit architecture
    and syscall number its evaluation ends within the step cap with the
    trace verdict carrying the cookie exactly for native x86_64 numbers
    (x32 bit 30 clear), and with the kill verdict otherwise. *)
Theorem evaluate_filter_verdict architecture syscall_number :
  evaluate_filter_v1 architecture syscall_number
  = Some (seccomp_verdict architecture syscall_number).
Proof.
  unfold evaluate_filter_v1, seccomp_verdict.
  pose proof (land_bit syscall_number 30 ltac:(done)) as Hbit.
  change (2 ^ 30) with LINUX_X32_SYSCALL_BIT_V1 in Hbit.
  assert (Hstep : ∀ b1 b2,
    (architecture =? LINUX_AUDIT_ARCH_X86_64_V1) = b1 →
    (Z.land syscall_number LINUX_X32_SYSCALL_BIT_V1 =? 0) = b2 →
    evaluate_program 8 TRACE_ALL_NATIVE_SECCOMP_FILTER_INSTRUCTIONS_V1
      architecture syscall_number 0 0
    = Some (if b1 && b2 then TRACE_ALL_NATIVE_SECCOMP_RESULT_V1
            else LINUX_SECCOMP_RET_KILL_PROCESS_V1)).
  { intros b1 b2 H1 H2. simpl. simpl in H1, H2. rewrite H1.
    destruct b1; simpl; [|done]. rewrite H2. by destruct b2. }
  unfold TEST_EVALUATION_STEP_CAP_V1, TRACE_ALL_NATIVE_SECCOMP_INSTRUCTION_COUNT_V1.
  by rewrite (Hstep _ _ eq_refl eq_refl), Hbit.
Qed.

(** The check the scan makes of a reachable instruction. *)
Definition instruction_ok (i : nat) (instruction : LinuxSockFilterV1) : Prop :=
  is_Some (mark_targets i instruction []).

Lemma checked_forward_target_Some i jump target :
  checked_forward_target_v1 i jump = Some target → (i < target < 7)%nat.
Proof.
  unfold checked_forward_target_v1, TRACE_ALL_NATIVE_SECCOMP_INSTRUCTION_COUNT_V1.
  case_match; [done|]. intros [= <-]. bool_to_prop. lia.
Qed.

Lemma mark_targets_Some i instruction r r' :
  mark_targets i instruction r = Some r' →
  instruction_ok i instruction ∧ ∀ j, (j ≤ i)%nat → r' !! j = r !! j.
Proof.
  unfold instruction_ok, mark_targets. intros H.
  repeat case_match; simplify_option_eq; split; eauto; intros j Hj;
    repeat match goal with
    | H : checked_forward_target_v1 _ _ = Some _ |- _ =>
        apply checked_forward_target_Some in H
    end; rewrite ?list_lookup_insert_ne by lia; done.
Qed.

Lemma scan_reachable_low program i r r' :
  scan_reachable program i r = Some r' → ∀ j, (j ≤ i)%nat → r' !! j = r !! j.
Proof.
  revert i r; induction program as [|instruction program IH]; intros i r; simpl.
  { by intros [= <-]. }
  destruct (default false (r !! i)); [intros (r1 & Hm & Hs)%bind_Some | intros Hs];
    intros j Hj; rewrite (IH _ _ Hs j) by lia; [|done].
  by apply mark_targets_Some in Hm as [_ ->].
Qed.

Lemma scan_reachable_ok program i r r' k instruction :
  scan_reachable program i r = Some r' →
  program !! k = Some instruction → r' !! (i + k)%nat = Some true →
  instruction_ok (i + k) instruction.
Proof.
  revert i r k; induction program as [|instr program IH]; intros i r k Hs Hk Hr; [done|].
  simpl in Hs. destruct k as [|k]; simplify_eq/=.
  - rewrite Nat.add_0_r in *. destruct (default false (r !! i)) eqn:Hi.
    + apply bind_Some in Hs as (r1 & Hm & _). by apply mark_targets_Some in Hm as [? _].
    + pose proof (scan_reachable_low _ _ _ _ Hs i ltac:(lia)) as Hlow.
      rewrite Hlow in Hr. by rewrite Hr in Hi.
  - replace (i + S k)%nat with (S i + k)%nat in * by lia.
    destruct (default false (r !! i)).
    + apply bind_Some in Hs as (r1 & _ & Hs). by eapply IH.
    + by eapply IH.
Qed.

Lemma scan_reachable_length program i r r' :
  scan_reachable program i r = Some r' → length r' = length r.
Proof.
  revert i r; induction program as [|instruction program IH]; intros i r; simpl.
  { by intros [= <-]. }
  destruct (default false (r !! i)); [intros (r1 & Hm & Hs)%bind_Some | intros Hs];
    rewrite (IH _ _ Hs); [|done].
  unfold mark_targets in Hm. repeat case_match; simplify_option_eq;
    by rewrite ?length_insert.
Qed.

(** Loads read only the two words the evaluator supplies. *)
Definition loads_known (program : list LinuxSockFilterV1) : Prop :=
  ∀ i instruction, program !! i = Some instruction →
    code instruction = LINUX_BPF_LD_W_ABS_V1 →
    operand instruction = LINUX_SECCOMP_DATA_SYSCALL_NUMBER_OFFSET_V1
    ∨ operand instruction = LINUX_SECCOMP_DATA_ARCHITECTURE_OFFSET_V1.

Lemma evaluate_program_total program steps architecture syscall_number accumulator i :
  length program = 7%nat → loads_known program →
  (∀ k instruction, program !! k = Some instruction → instruction_ok k instruction) →
  (i < 7)%nat → (7 - i ≤ steps)%nat →
  ∃ k instruction,
    evaluate_program steps program architecture syscall_number accumulator i
    = Some (operand instruction)
    ∧ program !! k = Some instruction ∧ code instruction = LINUX_BPF_RET_K_V1.
Proof.
  intros Hlen Hloads Hok. revert accumulator i.
  induction steps as [|steps IH]; intros accumulator i Hi Hsteps; [lia|].
  destruct (lookup_lt_is_Some_2 program i) as [instruction Hinstr]; [lia|].
  specialize (Hloads _ _ Hinstr). specialize (Hok _ _ Hinstr) as Hok_i.
  cbn [evaluate_program]. rewrite Hinstr. cbn [mbind option_bind].
  unfold instruction_ok, mark_targets in Hok_i. destruct Hok_i as [r' Hr].
  repeat case_match; simplify_option_eq; bool_to_prop;
    repeat (match goal with H : checked_forward_target_v1 _ _ = Some _ |- _ =>
              apply checked_forward_target_Some in H end);
    try (apply IH; lia); try (destruct (Hloads ltac:(done)); congruence);
    try (intuition congruence); try (by eauto).
Qed.

(** C39. Soundness of the compile-time checker: any seven-instruction program it
    accepts, whose loads name a supplied word, terminates on every input within
    seven steps, and the verdict is the operand of one of its own return
    instructions; the evaluation never falls off the program. *)
Theorem forward_reachable_checker_sound program architecture syscall_number :
  length program = TRACE_ALL_NATIVE_SECCOMP_INSTRUCTION_COUNT_V1 →
  loads_known program →
  all_nodes_strictly_forward_reachable_v1 program = true →
  ∃ k instruction,
    evaluate_program TRACE_ALL_NATIVE_SECCOMP_INSTRUCTION_COUNT_V1 program
      architecture syscall_number 0 0 = Some (operand instruction)
    ∧ program !! k = Some instruction ∧ code instruction = LINUX_BPF_RET_K_V1.
Proof.
  intros Hlen Hloads Hall. unfold all_nodes_strictly_forward_reachable_v1 in Hall.
  destruct (scan_reachable program 0 _) as [r|] eqn:Hs; [|done].
  apply (evaluate_program_total program 7); [done..| |lia|lia].
  intros k instruction Hk. eapply (scan_reachable_ok _ 0); [done..|].
  assert (length r = 7%nat) as Hr by (apply scan_reachable_length in Hs; by rewrite Hs).
  destruct (lookup_lt_is_Some_2 r k) as [b Hb].
  { apply lookup_lt_Some in Hk. rewrite Hlen in Hk. by rewrite Hr. }
  rewrite forallb_forall in Hall. simpl. rewrite Hb. f_equal. apply Hall.
  apply list_elem_of_In, list_elem_of_lookup. eauto.
Qed.

Lemma forward_reachable_checker_sound_witness :
  ∃ k instruction,
    evaluate_program 7 TRACE_ALL_NATIVE_SECCOMP_FILTER_INSTRUCTIONS_V1
      LINUX_AUDIT_ARCH_X86_64_V1 39 0 0 = Some (operand instruction)
    ∧ TRACE_ALL_NATIVE_SECCOMP_FILTER_INSTRUCTIONS_V1 !! k = Some instruction
    ∧ code instruction = LINUX_BPF_RET_K_V1.
Proof.
  apply (forward_reachable_checker_sound TRACE_ALL_NATIVE_SECCOMP_FILTER_INSTRUCTIONS_V1
           LINUX_AUDIT_ARCH_X86_64_V1 39).
  - reflexivity.
  - intros i instruction Hi Hc.
    do 7 (destruct i as [|i]; simpl in Hi; [injection Hi as <-; vm_compute in Hc |- *; auto; discriminate|]).
    discriminate.
  - vm_compute. reflexivity.
Defined.

(** The frozen tables agree with their pinned constants: the program has 56
    canonical bytes whose FNV-1a fingerprint is the recorded one, it passes the
    checker, and the data bits of the trace verdict are exactly the cookie the
    decoders compare with. *)
Theorem frozen_filter_constants :
  length TRACE_ALL_NATIVE_SECCOMP_CANONICAL_BYTES_V1
  = TRACE_ALL_NATIVE_SECCOMP_CANONICAL_BYTE_COUNT_V1
  ∧ fnv1a64_v1 TRACE_ALL_NATIVE_SECCOMP_CANONICAL_BYTES_V1
    = TRACE_ALL_NATIVE_SECCOMP_BYTES_FNV1A64_V1
  ∧ all_nodes_strictly_forward_reachable_v1
      TRACE_ALL_NATIVE_SECCOMP_FILTER_INSTRUCTIONS_V1 = true
  ∧ Z.land TRACE_ALL_NATIVE_SECCOMP_RESULT_V1 LINUX_SECCOMP_RET_DATA_MASK_V1
    = trace_all_native_seccomp_cookie_spec_v1.
Proof. vm_compute. done. Qed.
