(* ===== verification/EventMessage.v ===== *)
(** * [PTRACE_GETEVENTMSG] payloads

    The decoder of [src/src/linux_pytest/tracer_event_message.rs]: one
    little-endian [unsigned long] interpreted by the already classified ptrace
    event. *)

From S2P Require Import Prelude Monad Bytes WaitStatus TracerSeccomp.

Definition PTRACE_EVENT_MESSAGE_BYTES_X86_64_V1 : nat := 8.
Definition LINUX_X86_64_MAX_POSSIBLE_TID_V1 : Z := 4 * 1024 * 1024 - 1.

Record LinuxPtraceEventTidV1 := { event_raw_tid : Z }.

Inductive DecodedLinuxPtraceEventMessageV1 :=
| ChildTid (tid : LinuxPtraceEventTidV1)
| FormerTid (tid : LinuxPtraceEventTidV1)
| ExitTermination (termination : LinuxWaitTerminationV1)
| SeccompTraceCookieSchemaMatched.

Inductive LinuxPtraceEventMessageDecodeErrorV1 :=
| UpperWordNonzero
| TidZero
| TidExceedsLinuxX8664Limit
| ExitMessageMalformed (error : LinuxWaitStatusDecodeErrorV1)
| ExitMessageIsNotFinal
| SeccompReservedBitsNonzero
| SeccompTraceCookieSchemaMismatch.

#[global] Instance LinuxPtraceEventMessageDecodeErrorV1_eq_dec :
  EqDecision LinuxPtraceEventMessageDecodeErrorV1.
Proof. solve_decision. Defined.

Definition decode_tid_v1 (raw_message : Z) :
    result LinuxPtraceEventMessageDecodeErrorV1 LinuxPtraceEventTidV1 :=
  if raw_message =? 0 then Err TidZero
  else if LINUX_X86_64_MAX_POSSIBLE_TID_V1 <? raw_message then
    Err TidExceedsLinuxX8664Limit
  else Ok {| event_raw_tid := as_i32 raw_message |}.

Definition decode_exit_v1 (raw_message : Z) :
    result LinuxPtraceEventMessageDecodeErrorV1 DecodedLinuxPtraceEventMessageV1 :=
  let raw_status := as_i32 (as_u32 raw_message) in
  match decode_linux_wait_status_x86_64_v1 raw_status with
  | Ok (Final termination) => Ok (ExitTermination termination)
  | Ok _ => Err ExitMessageIsNotFinal
  | Err error => Err (ExitMessageMalformed error)
  end.

Definition decode_seccomp_cookie_v1 (raw_message : Z) :
    result LinuxPtraceEventMessageDecodeErrorV1 DecodedLinuxPtraceEventMessageV1 :=
  if U16_MAX <? raw_message then Err SeccompReservedBitsNonzero
  else if negb (raw_message =? trace_all_native_seccomp_cookie_spec_v1) then
    Err SeccompTraceCookieSchemaMismatch
  else Ok SeccompTraceCookieSchemaMatched.

Definition decode_linux_ptrace_event_message_x86_64_v1
    (event : LinuxPtraceEventV1) (bytes : list Z) :
    result LinuxPtraceEventMessageDecodeErrorV1 DecodedLinuxPtraceEventMessageV1 :=
  let raw_message := le_value bytes in
  if U32_MAX <? raw_message then Err UpperWordNonzero
  else
    match event with
    | EvFork | EvVfork | EvClone => ChildTid <$> decode_tid_v1 raw_message
    | EvExec => FormerTid <$> decode_tid_v1 raw_message
    | EvExit => decode_exit_v1 raw_message
    | EvSeccomp => decode_seccomp_cookie_v1 raw_message
    end.

(** ** Specification: the message each event carries *)

Definition event_message_shape (event : LinuxPtraceEventV1)
    (d : DecodedLinuxPtraceEventMessageV1) : Prop :=
  match event, d with
  | (EvFork | EvVfork | EvClone), ChildTid t
  | EvExec, FormerTid t => 0 < event_raw_tid t < 2 ^ 22
  | EvExit, ExitTermination t => wait_class_valid (Final t)
  | EvSeccomp, SeccompTraceCookieSchemaMatched => True
  | _, _ => False
  end.

Definition event_message_value (d : DecodedLinuxPtraceEventMessageV1) : Z :=
  match d with
  | ChildTid t | FormerTid t => event_raw_tid t
  | ExitTermination t => encode_termination t
  | SeccompTraceCookieSchemaMatched => TRACE_ALL_NATIVE_SECCOMP_COOKIE_V1
  end.

(** ** Exactness *)

Lemma decode_tid_exact v t :
  0 <= v → decode_tid_v1 v = Ok t ↔ 0 < event_raw_tid t < 2 ^ 22 ∧ v = event_raw_tid t.
Proof.
  intros Hv. unfold decode_tid_v1, LINUX_X86_64_MAX_POSSIBLE_TID_V1.
  destruct t as [t]; simpl. case_code; try (split; [done|]; intros; lia).
  assert (as_i32 v = v) as ->.
  { unfold as_i32. rewrite Z.mod_small; lia. }
  split; [intros [= <-]; lia | intros [? ->]; done].
Qed.

Lemma decode_exit_exact v d :
  is_u32 v →
  decode_exit_v1 v = Ok d
  ↔ event_message_shape EvExit d ∧ v = event_message_value d.
Proof.
  intros Hv. unfold decode_exit_v1. rewrite as_u32_id by done.
  pose proof (decode_wait_status_spec (as_i32 v)) as Hs.
  rewrite as_u32_as_i32, as_u32_id in Hs by done.
  destruct (decode_linux_wait_status_x86_64_v1 (as_i32 v)) as [c|e].
  - destruct Hs as [Hc ->]. split.
    + destruct c; naive_solver.
    + destruct d as [| |t|]; simpl; [naive_solver..| |naive_solver].
      intros [Ht He]. change (encode_termination t) with (encode_wait_class (Final t)) in He.
      by apply encode_wait_class_inj in He as ->.
  - split; [done|]. destruct d as [| |t|]; simpl; [naive_solver..| |naive_solver].
    intros [Ht ->]. by destruct (Hs (Final t) Ht).
Qed.

(** The event-message decoder accepts exactly the messages of the event's
    shape: on eight bytes it returns [d] if and only if [d] has the shape the
    event admits (a TID of at most 22 bits, a final termination, or the seccomp
    cookie) and the bytes are the little-endian encoding of its value. *)
Theorem decode_event_message_exact event bytes d :
  is_bytes bytes → length bytes = PTRACE_EVENT_MESSAGE_BYTES_X86_64_V1 →
  decode_linux_ptrace_event_message_x86_64_v1 event bytes = Ok d
  ↔ event_message_shape event d ∧ bytes = le_bytes 8 (event_message_value d).
Proof.
  intros Hb Hlen. pose proof (le_value_range _ Hb) as Hr. rewrite Hlen in Hr.
  assert (Hiff : ∀ v, is_u64 v → bytes = le_bytes 8 v ↔ le_value bytes = v).
  { intros v Hv. split.
    - intros ->. rewrite le_value_le_bytes. by apply Z.mod_small.
    - intros <-. rewrite <- (le_bytes_le_value bytes Hb) at 1. by rewrite Hlen. }
  assert (Hu : ∀ e, event_message_shape e d → is_u32 (event_message_value d)).
  { intros e. unfold is_u32. destruct e, d as [| |[|? []]|]; simpl; unfold is_u8; try done; try lia;
      intros; bool_to_prop; lia. }
  transitivity (event_message_shape event d ∧ le_value bytes = event_message_value d).
  2:{ split; intros [Hs He]; (split; [done|]); specialize (Hu _ Hs); revert He;
      rewrite Hiff by (unfold is_u64, is_u32 in *; lia); done. }
  unfold decode_linux_ptrace_event_message_x86_64_v1, U32_MAX.
  set (v := le_value bytes) in *. clearbody v. case_match; bool_to_prop.
  { split; [done|]. intros [Hs ->]. specialize (Hu _ Hs). unfold is_u32 in Hu. lia. }
  assert (is_u32 v) by (unfold is_u32; lia).
  destruct event; try (by apply decode_exit_exact).
  5:{ unfold decode_seccomp_cookie_v1, trace_all_native_seccomp_cookie_spec_v1, U16_MAX.
      destruct d; repeat (case_match; bool_to_prop); simpl; unfold trace_all_native_seccomp_cookie_spec_v1,
        TRACE_ALL_NATIVE_SECCOMP_COOKIE_V1 in *; naive_solver lia. }
  all: pose proof (decode_tid_exact v) as Ht; unfold fmap, result_fmap;
    destruct (decode_tid_v1 v) as [t|e]; destruct d as [u|u| |]; simpl; try naive_solver;
    specialize (Ht u ltac:(lia)); rewrite <- Ht; naive_solver.
Qed.

Lemma decode_event_message_exact_witness :
  decode_linux_ptrace_event_message_x86_64_v1 EvExit [0; 7; 0; 0; 0; 0; 0; 0]
  = Ok (ExitTermination (Exited 7)).
Proof.
  apply (decode_event_message_exact EvExit [0; 7; 0; 0; 0; 0; 0; 0]
           (ExitTermination (Exited 7))).
  - repeat constructor; unfold is_u8; lia.
  - reflexivity.
  - simpl. unfold is_u8. split; [lia|reflexivity].
Defined.
