(* ===== verification/SyscallInfo.v ===== *)
(** * [PTRACE_GET_SYSCALL_INFO] records

    The decoder of [src/src/linux_pytest/tracer_syscall_info.rs]: a
    caller-zeroed 84-byte buffer and the byte count the kernel returned are
    parsed into a seccomp-entry frame or a syscall-exit frame. *)

From S2P Require Import Prelude Monad Bytes TracerSeccomp.

Definition PTRACE_SYSCALL_INFO_BUFFER_BYTES_V1 : nat := 84.
Definition PTRACE_SYSCALL_INFO_EXIT_BYTES_V1 : nat := 33.
Definition PTRACE_SYSCALL_INFO_SECCOMP_BYTES_V1 : nat := 84.
Definition PTRACE_SYSCALL_INFO_EXIT_OPERATION_V1 : Z := 2.
Definition PTRACE_SYSCALL_INFO_SECCOMP_OPERATION_V1 : Z := 3.
Definition OPERATION_OFFSET_V1 : nat := 0.
Definition RESERVED_OFFSET_V1 : nat := 1.
Definition FLAGS_OFFSET_V1 : nat := 2.
Definition ARCHITECTURE_OFFSET_V1 : nat := 4.
Definition INSTRUCTION_POINTER_OFFSET_V1 : nat := 8.
Definition STACK_POINTER_OFFSET_V1 : nat := 16.
Definition UNION_OFFSET_V1 : nat := 24.
Definition SECCOMP_SYSCALL_NUMBER_OFFSET_V1 : nat := UNION_OFFSET_V1.
Definition SECCOMP_ARGUMENTS_OFFSET_V1 : nat := 32.
Definition SECCOMP_ARGUMENT_COUNT_V1 : nat := 6.
Definition SECCOMP_RETURN_DATA_OFFSET_V1 : nat := 80.
Definition EXIT_RETURN_VALUE_OFFSET_V1 : nat := UNION_OFFSET_V1.
Definition EXIT_IS_ERROR_OFFSET_V1 : nat := 32.
Definition EXIT_TAIL_OFFSET_V1 : nat := PTRACE_SYSCALL_INFO_EXIT_BYTES_V1.
Definition AUDIT_ARCH_X86_64_V1 : Z := 0xc000003e.
Definition X32_SYSCALL_BIT_V1 : Z := 0x40000000.
Definition MAX_X86_64_ERRNO_V1 : Z := 4095.

Inductive PtraceSyscallInfoDecodeErrorV1 :=
| UnsupportedReturnedByteCount
| UnsupportedOperation
| ExitReturnedByteCountMismatch
| SeccompReturnedByteCountMismatch
| HeaderReservedByteNonzero
| HeaderFlagsNonzero
| ArchitectureMismatch
| SeccompSyscallNumberDoesNotFitU32
| SeccompSyscallNumberUsesX32Abi
| SeccompSyscallNumberNotCanonicalNative
| SeccompCookieMismatch
| ExitTailNonzero
| ExitIsErrorInvalid
| ExitResultShapeMismatch.

#[global] Instance PtraceSyscallInfoDecodeErrorV1_eq_dec :
  EqDecision PtraceSyscallInfoDecodeErrorV1.
Proof. solve_decision. Defined.

Record DecodedSeccompSyscallInfoX8664V1 := {
  seccomp_instruction_pointer : Z;
  syscall_number : Z;
  arguments : list Z;
}.

Record DecodedExitSyscallInfoX8664V1 := {
  exit_instruction_pointer : Z;
  return_value : Z;
}.

Inductive DecodedPtraceSyscallInfoX8664V1 :=
| DecodedSeccomp (frame : DecodedSeccompSyscallInfoX8664V1)
| DecodedExit (frame : DecodedExitSyscallInfoX8664V1).

(** [buffer[offset]] at a constant offset of the fixed array. *)
Definition byte_at (buffer : list Z) (offset : nat) : Z := read_le 1 buffer offset.
Definition read_u16_le_v1 (buffer : list Z) (offset : nat) : Z := read_le 2 buffer offset.
Definition read_u32_le_v1 (buffer : list Z) (offset : nat) : Z := read_le 4 buffer offset.
Definition read_u64_le_v1 (buffer : list Z) (offset : nat) : Z := read_le 8 buffer offset.
Definition read_i64_le_v1 (buffer : list Z) (offset : nat) : Z :=
  as_i64 (read_u64_le_v1 buffer offset).

Definition validate_common_header_v1 (buffer : list Z) :
    result PtraceSyscallInfoDecodeErrorV1 () :=
  if negb (byte_at buffer RESERVED_OFFSET_V1 =? 0) then Err HeaderReservedByteNonzero
  else if negb (read_u16_le_v1 buffer FLAGS_OFFSET_V1 =? 0) then Err HeaderFlagsNonzero
  else if negb (read_u32_le_v1 buffer ARCHITECTURE_OFFSET_V1 =? AUDIT_ARCH_X86_64_V1) then
    Err ArchitectureMismatch
  else Ok ().

(** The [while argument_index < 6] loop. *)
Definition read_arguments (buffer : list Z) : list Z :=
  (λ argument_index, read_u64_le_v1 buffer
                       (SECCOMP_ARGUMENTS_OFFSET_V1 + argument_index * 8))
  <$> seq 0 SECCOMP_ARGUMENT_COUNT_V1.

Definition decode_seccomp_v1 (buffer : list Z) :
    result PtraceSyscallInfoDecodeErrorV1 DecodedPtraceSyscallInfoX8664V1 :=
  let raw_syscall_number := read_u64_le_v1 buffer SECCOMP_SYSCALL_NUMBER_OFFSET_V1 in
  if U32_MAX <? raw_syscall_number then Err SeccompSyscallNumberDoesNotFitU32
  else
    let syscall_number := raw_syscall_number in
    if negb (Z.land syscall_number X32_SYSCALL_BIT_V1 =? 0) then
      Err SeccompSyscallNumberUsesX32Abi
    else if I32_MAX <? syscall_number then Err SeccompSyscallNumberNotCanonicalNative
    else if negb (read_u32_le_v1 buffer SECCOMP_RETURN_DATA_OFFSET_V1
                  =? trace_all_native_seccomp_cookie_spec_v1) then
      Err SeccompCookieMismatch
    else Ok (DecodedSeccomp
      {| seccomp_instruction_pointer := read_u64_le_v1 buffer INSTRUCTION_POINTER_OFFSET_V1;
         syscall_number := syscall_number;
         arguments := read_arguments buffer |}).

Definition decode_exit_v1 (buffer : list Z) :
    result PtraceSyscallInfoDecodeErrorV1 DecodedPtraceSyscallInfoX8664V1 :=
  (* the [while tail_index < buffer.len()] loop *)
  if any (λ byte, negb (byte =? 0)) (drop EXIT_TAIL_OFFSET_V1 buffer) then
    Err ExitTailNonzero
  else
    is_error ← (if byte_at buffer EXIT_IS_ERROR_OFFSET_V1 =? 0 then Ok false
                else if byte_at buffer EXIT_IS_ERROR_OFFSET_V1 =? 1 then Ok true
                else Err ExitIsErrorInvalid);
    let return_value := read_i64_le_v1 buffer EXIT_RETURN_VALUE_OFFSET_V1 in
    let has_x86_64_errno_shape :=
      (- MAX_X86_64_ERRNO_V1 <=? return_value) && (return_value <=? -1) in
    if negb (bool_decide (is_error = has_x86_64_errno_shape)) then
      Err ExitResultShapeMismatch
    else Ok (DecodedExit
      {| exit_instruction_pointer := read_u64_le_v1 buffer INSTRUCTION_POINTER_OFFSET_V1;
         return_value := return_value |}).

Definition decode_ptrace_syscall_info_x86_64_v1 (returned_byte_count : nat)
    (buffer : list Z) :
    result PtraceSyscallInfoDecodeErrorV1 DecodedPtraceSyscallInfoX8664V1 :=
  if negb (returned_byte_count =? PTRACE_SYSCALL_INFO_EXIT_BYTES_V1)%nat
     && negb (returned_byte_count =? PTRACE_SYSCALL_INFO_SECCOMP_BYTES_V1)%nat then
    Err UnsupportedReturnedByteCount
  else if byte_at buffer OPERATION_OFFSET_V1 =? PTRACE_SYSCALL_INFO_EXIT_OPERATION_V1 then
    if negb (returned_byte_count =? PTRACE_SYSCALL_INFO_EXIT_BYTES_V1)%nat then
      Err ExitReturnedByteCountMismatch
    else validate_common_header_v1 buffer;; decode_exit_v1 buffer
  else if byte_at buffer OPERATION_OFFSET_V1 =? PTRACE_SYSCALL_INFO_SECCOMP_OPERATION_V1 then
    if negb (returned_byte_count =? PTRACE_SYSCALL_INFO_SECCOMP_BYTES_V1)%nat then
      Err SeccompReturnedByteCountMismatch
    else validate_common_header_v1 buffer;; decode_seccomp_v1 buffer
  else Err UnsupportedOperation.

(** ** Specification: the kernel's record layout

    [struct ptrace_syscall_info] as bytes; the stack pointer is the one field
    the decoder discards. *)

Definition header_bytes (operation instruction_pointer stack_pointer : Z) : list Z :=
  le_bytes 1 operation ++ le_bytes 1 0 ++ le_bytes 2 0 ++ le_bytes 4 AUDIT_ARCH_X86_64_V1
  ++ le_bytes 8 instruction_pointer ++ le_bytes 8 stack_pointer.

Definition syscall_info_bytes (stack_pointer : Z) (d : DecodedPtraceSyscallInfoX8664V1) :
    list Z :=
  match d with
  | DecodedSeccomp f =>
      header_bytes 3 (seccomp_instruction_pointer f) stack_pointer
      ++ le_bytes 8 (syscall_number f)
      ++ mjoin (le_bytes 8 <$> arguments f)
      ++ le_bytes 4 TRACE_ALL_NATIVE_SECCOMP_COOKIE_V1
  | DecodedExit f =>
      header_bytes 2 (exit_instruction_pointer f) stack_pointer
      ++ le_bytes 8 (as_u64 (return_value f))
      ++ le_bytes 1 (if bool_decide (- 4095 <= return_value f <= -1) then 1 else 0)
      ++ replicate 51 0
  end.

Definition syscall_info_length (d : DecodedPtraceSyscallInfoX8664V1) : nat :=
  match d with DecodedSeccomp _ => 84 | DecodedExit _ => 33 end.

(** The frames the kernel can report for a native x86_64 task. *)
Definition syscall_info_valid (d : DecodedPtraceSyscallInfoX8664V1) : Prop :=
  match d with
  | DecodedSeccomp f =>
      is_u64 (seccomp_instruction_pointer f)
      ∧ 0 <= syscall_number f < 2 ^ 30
      ∧ length (arguments f) = 6%nat ∧ Forall is_u64 (arguments f)
  | DecodedExit f => is_u64 (exit_instruction_pointer f) ∧ is_i64 (return_value f)
  end.

(** ** Exactness *)

Lemma header_split buffer :
  is_bytes buffer → length buffer = 84%nat →
  buffer = le_bytes 1 (byte_at buffer 0) ++ le_bytes 1 (byte_at buffer 1)
    ++ le_bytes 2 (read_u16_le_v1 buffer 2) ++ le_bytes 4 (read_u32_le_v1 buffer 4)
    ++ le_bytes 8 (read_u64_le_v1 buffer 8) ++ le_bytes 8 (read_u64_le_v1 buffer 16)
    ++ le_bytes 8 (read_u64_le_v1 buffer 24) ++ drop 32 buffer.
Proof.
  intros Hb Hlen. rewrite <- (drop_0 buffer) at 1.
  rewrite (drop_split 1 0) by (done || lia). f_equal.
  rewrite (drop_split 1) by (done || (simpl; lia)). f_equal. simpl.
  rewrite (drop_split 2) by (done || (simpl; lia)). f_equal. simpl.
  rewrite (drop_split 4) by (done || (simpl; lia)). f_equal. simpl.
  rewrite (drop_split 8) by (done || (simpl; lia)). f_equal. simpl.
  rewrite (drop_split 8) by (done || (simpl; lia)). f_equal. simpl.
  rewrite (drop_split 8) by (done || (simpl; lia)). done.
Qed.

Lemma arguments_split buffer :
  is_bytes buffer → length buffer = 84%nat →
  drop 32 buffer = mjoin (le_bytes 8 <$> read_arguments buffer)
                   ++ le_bytes 4 (read_u32_le_v1 buffer 80).
Proof.
  intros Hb Hlen. unfold read_arguments, read_u64_le_v1, read_u32_le_v1,
    SECCOMP_ARGUMENTS_OFFSET_V1, SECCOMP_ARGUMENT_COUNT_V1. cbn [seq fmap list_fmap mjoin
      list_join Nat.add Nat.mul].
  do 6 (rewrite (drop_split 8) by (done || (simpl; lia)); rewrite <- ?app_assoc; f_equal; simpl).
  rewrite (drop_split 4) by (done || (simpl; lia)). f_equal.
  rewrite drop_ge by (simpl; lia). done.
Qed.

Lemma exit_tail_split buffer :
  is_bytes buffer → length buffer = 84%nat →
  any (λ byte, negb (byte =? 0)) (drop 33 buffer) = false →
  drop 32 buffer = le_bytes 1 (byte_at buffer 32) ++ replicate 51 0.
Proof.
  intros Hb Hlen Htail. rewrite (drop_split 1) by (done || (simpl; lia)). f_equal.
  symmetry. apply replicate_as_elem_of. split; [by rewrite length_drop, Hlen|].
  intros x [i Hi]%list_elem_of_lookup. rewrite any_false in Htail.
  specialize (Htail _ _ Hi). simpl in Htail. bool_to_prop. done.
Qed.

Lemma read_u64_range buffer off :
  is_bytes buffer → is_u64 (read_u64_le_v1 buffer off).
Proof. intros. by apply (read_le_range 8). Qed.

Lemma as_u64_as_i64 z : is_u64 z → as_u64 (as_i64 z) = z.
Proof.
  intros Hz. unfold as_u64, as_i64. rewrite Zminus_mod_idemp_l.
  replace (z + 2 ^ 63 - 2 ^ 63) with z by lia. by apply Z.mod_small.
Qed.

Lemma as_i64_as_u64 z : is_i64 z → as_i64 (as_u64 z) = z.
Proof.
  intros Hz. unfold as_u64, as_i64, is_i64 in *. rewrite Zplus_mod_idemp_l, Z.mod_small; lia.
Qed.

Lemma native_number_range nr :
  0 <= nr → (Z.land nr X32_SYSCALL_BIT_V1 =? 0) = true ∧ nr <= I32_MAX ↔ nr < 2 ^ 30.
Proof.
  intros Hnr. change X32_SYSCALL_BIT_V1 with (Z.shiftl (2 ^ 1 - 1) 30).
  rewrite land_field, Z.eqb_eq by lia. unfold I32_MAX. split.
  - intros [H ?]. zdiv_lia.
  - intros ?. split; zdiv_lia.
Qed.

Lemma validate_common_header_Ok buffer :
  validate_common_header_v1 buffer = Ok () ↔
  byte_at buffer 1 = 0 ∧ read_u16_le_v1 buffer 2 = 0
  ∧ read_u32_le_v1 buffer 4 = AUDIT_ARCH_X86_64_V1.
Proof.
  unfold validate_common_header_v1, RESERVED_OFFSET_V1, FLAGS_OFFSET_V1,
    ARCHITECTURE_OFFSET_V1.
  repeat (case_match; bool_to_prop); naive_solver.
Qed.

Lemma decode_exit_sound buffer d :
  is_bytes buffer → length buffer = 84%nat → byte_at buffer 0 = 2 →
  validate_common_header_v1 buffer = Ok () → decode_exit_v1 buffer = Ok d →
  syscall_info_length d = 33%nat ∧ syscall_info_valid d
  ∧ buffer = syscall_info_bytes (read_u64_le_v1 buffer 16) d.
Proof.
  intros Hb Hlen Hop (H1 & H2 & H4)%validate_common_header_Ok Hd.
  pose proof (header_split _ Hb Hlen) as Hsplit. rewrite Hop, H1, H2, H4 in Hsplit.
  unfold decode_exit_v1, EXIT_TAIL_OFFSET_V1, PTRACE_SYSCALL_INFO_EXIT_BYTES_V1,
    EXIT_IS_ERROR_OFFSET_V1, EXIT_RETURN_VALUE_OFFSET_V1, UNION_OFFSET_V1,
    INSTRUCTION_POINTER_OFFSET_V1, MAX_X86_64_ERRNO_V1 in Hd.
  destruct (any _ _) eqn:Htail; [done|].
  rewrite (exit_tail_split _ Hb Hlen Htail) in Hsplit.
  pose proof (read_u64_range buffer 24 Hb) as H24.
  set (rv := read_i64_le_v1 buffer 24) in *.
  assert (as_u64 rv = read_u64_le_v1 buffer 24) as Hrv by by apply as_u64_as_i64.
  assert (is_i64 rv) as Hi.
  { subst rv. unfold read_i64_le_v1, as_i64, is_i64.
    pose proof (Z.mod_pos_bound (read_u64_le_v1 buffer 24 + 2 ^ 63) (2 ^ 64)). lia. }
  assert (∃ e : bool, byte_at buffer 32 = (if e then 1 else 0)
    ∧ e = (- 4095 <=? rv) && (rv <=? -1)
    ∧ d = DecodedExit {| exit_instruction_pointer := read_u64_le_v1 buffer 8;
                         return_value := rv |}) as (e & He & Herr & ->).
  { destruct (byte_at buffer 32 =? 0) eqn:?;
      [exists false|destruct (byte_at buffer 32 =? 1) eqn:?; [exists true|done]];
      cbn [mbind result_bind] in Hd; case_match; bool_to_prop; simplify_eq; done. }
  split; [done|]. split; [split; [by apply read_u64_range|done]|].
  unfold syscall_info_bytes, header_bytes; cbn [exit_instruction_pointer return_value].
  rewrite Hrv. replace (if bool_decide _ then 1 else 0) with (byte_at buffer 32).
  { rewrite <- !app_assoc. done. }
  rewrite He, Herr. case_bool_decide; destruct (Z.leb_spec (- 4095) rv),
    (Z.leb_spec rv (-1)); simpl; done || lia.
Qed.

Lemma decode_seccomp_sound buffer d :
  is_bytes buffer → length buffer = 84%nat → byte_at buffer 0 = 3 →
  validate_common_header_v1 buffer = Ok () → decode_seccomp_v1 buffer = Ok d →
  syscall_info_length d = 84%nat ∧ syscall_info_valid d
  ∧ buffer = syscall_info_bytes (read_u64_le_v1 buffer 16) d.
Proof.
  intros Hb Hlen Hop (H1 & H2 & H4)%validate_common_header_Ok Hd.
  pose proof (header_split _ Hb Hlen) as Hsplit. rewrite Hop, H1, H2, H4 in Hsplit.
  rewrite (arguments_split _ Hb Hlen) in Hsplit.
  pose proof (read_u64_range buffer 24 Hb) as H24.
  unfold decode_seccomp_v1, SECCOMP_SYSCALL_NUMBER_OFFSET_V1, UNION_OFFSET_V1,
    SECCOMP_RETURN_DATA_OFFSET_V1, INSTRUCTION_POINTER_OFFSET_V1 in Hd.
  repeat (case_match; bool_to_prop; try done). simplify_eq.
  split; [done|]. unfold is_u64 in H24. split.
  - simpl. split; [by apply read_u64_range|]. split.
    + split; [lia|]. apply native_number_range; [lia|]. split; [|lia]. by apply Z.eqb_eq.
    + split; [done|]. unfold read_arguments. apply Forall_fmap, Forall_true.
      intros ?. by apply read_u64_range.
  - unfold syscall_info_bytes, header_bytes;
      cbn [seccomp_instruction_pointer syscall_number arguments].
    change TRACE_ALL_NATIVE_SECCOMP_COOKIE_V1 with trace_all_native_seccomp_cookie_spec_v1.
    match goal with H : read_u32_le_v1 _ 80 = _ |- _ => rewrite <- H end.
    rewrite <- !app_assoc. done.
Qed.

Lemma decode_syscall_info_sound n buffer d :
  is_bytes buffer → length buffer = 84%nat →
  decode_ptrace_syscall_info_x86_64_v1 n buffer = Ok d →
  n = syscall_info_length d ∧ syscall_info_valid d
  ∧ buffer = syscall_info_bytes (read_u64_le_v1 buffer 16) d.
Proof.
  intros Hb Hlen. unfold decode_ptrace_syscall_info_x86_64_v1,
    OPERATION_OFFSET_V1, PTRACE_SYSCALL_INFO_EXIT_OPERATION_V1,
    PTRACE_SYSCALL_INFO_SECCOMP_OPERATION_V1, PTRACE_SYSCALL_INFO_EXIT_BYTES_V1,
    PTRACE_SYSCALL_INFO_SECCOMP_BYTES_V1.
  destruct (validate_common_header_v1 buffer) as [[]|] eqn:Hv;
    cbn [mbind result_bind]; repeat (case_match; bool_to_prop; try done); intros Hd; subst n.
  - destruct (decode_exit_sound buffer d) as (-> & ? & ?); done.
  - destruct (decode_seccomp_sound buffer d) as (-> & ? & ?); done.
Qed.

(** Reading the fixed fields back from a record with any union part. *)
Lemma read_header op ip sp rest :
  0 <= op < 256 → is_u64 ip →
  let buffer := header_bytes op ip sp ++ rest in
  byte_at buffer 0 = op ∧ read_u64_le_v1 buffer 8 = ip
  ∧ validate_common_header_v1 buffer = Ok ()
  ∧ (∀ n off, (24 ≤ off)%nat → read_le n buffer off = read_le n rest (off - 24))
  ∧ (∀ off, (24 ≤ off)%nat → drop off buffer = drop (off - 24) rest).
Proof.
  intros Hop Hip. unfold is_u64 in Hip. cbv zeta. rewrite validate_common_header_Ok.
  unfold byte_at, read_u16_le_v1, read_u32_le_v1, read_u64_le_v1, header_bytes.
  rewrite <- !app_assoc. split_and!.
  1-5: by (read_field; unfold AUDIT_ARCH_X86_64_V1; lia).
  - intros n off Hoff. rewrite !read_le_skip by lia. f_equal. lia.
  - intros off Hoff. rewrite !drop_field by lia. f_equal. lia.
Qed.

Lemma decode_seccomp_complete sp f :
  is_u64 sp → syscall_info_valid (DecodedSeccomp f) →
  decode_ptrace_syscall_info_x86_64_v1 84 (syscall_info_bytes sp (DecodedSeccomp f))
  = Ok (DecodedSeccomp f).
Proof.
  destruct f as [ip nr args]. intros Hsp (Hip & Hnr & Hlen & Hargs).
  cbn [seccomp_instruction_pointer syscall_number arguments] in Hip, Hnr, Hlen, Hargs.
  unfold decode_ptrace_syscall_info_x86_64_v1, syscall_info_bytes,
    OPERATION_OFFSET_V1; cbn [seccomp_instruction_pointer syscall_number arguments].
  set (rest := le_bytes 8 nr ++ _).
  destruct (read_header 3 ip sp rest) as (-> & H8 & -> & Hread & _); [lia|done|].
  do 6 (destruct args as [|? args]; [done|]). destruct args; [|done].
  do 6 (let H := fresh in apply Forall_cons_1 in Hargs as [H Hargs]).
  unfold is_u64 in *. cbn [mbind result_bind andb negb Nat.eqb].
  unfold decode_seccomp_v1, read_arguments, read_u64_le_v1, read_u32_le_v1,
    SECCOMP_SYSCALL_NUMBER_OFFSET_V1, UNION_OFFSET_V1, SECCOMP_RETURN_DATA_OFFSET_V1,
    INSTRUCTION_POINTER_OFFSET_V1, SECCOMP_ARGUMENTS_OFFSET_V1, SECCOMP_ARGUMENT_COUNT_V1 in *.
  cbn [seq fmap list_fmap Nat.add Nat.mul]. rewrite H8, !Hread by lia. cbn [Nat.sub].
  subst rest. cbn [fmap list_fmap mjoin list_join]. rewrite ?app_nil_r, <- !app_assoc.
  repeat (read_field; [|lia || done]).
  destruct (native_number_range nr) as [_ [-> ?]]; [lia..|].
  destruct (Z.ltb_spec U32_MAX nr); [unfold U32_MAX in *; lia|].
  destruct (Z.ltb_spec I32_MAX nr); [lia|]. done.
Qed.

Lemma decode_exit_complete sp f :
  is_u64 sp → syscall_info_valid (DecodedExit f) →
  decode_ptrace_syscall_info_x86_64_v1 33 (syscall_info_bytes sp (DecodedExit f))
  = Ok (DecodedExit f).
Proof.
  destruct f as [ip rv]. intros Hsp (Hip & Hrv).
  cbn [exit_instruction_pointer return_value] in Hip, Hrv.
  unfold decode_ptrace_syscall_info_x86_64_v1, syscall_info_bytes,
    OPERATION_OFFSET_V1; cbn [exit_instruction_pointer return_value].
  set (rest := le_bytes 8 _ ++ _).
  destruct (read_header 2 ip sp rest) as (-> & H8 & -> & Hread & Hdrop); [lia|done|].
  cbn [mbind result_bind andb negb Nat.eqb].
  unfold decode_exit_v1, byte_at, read_i64_le_v1, read_u64_le_v1, EXIT_TAIL_OFFSET_V1,
    PTRACE_SYSCALL_INFO_EXIT_BYTES_V1, EXIT_IS_ERROR_OFFSET_V1,
    EXIT_RETURN_VALUE_OFFSET_V1, UNION_OFFSET_V1, INSTRUCTION_POINTER_OFFSET_V1,
    MAX_X86_64_ERRNO_V1 in *.
  rewrite H8, !Hread, Hdrop by lia. cbn [Nat.sub]. subst rest.
  rewrite !drop_field by lia. replace (any _ _) with false by (vm_compute; done).
  set (e := if bool_decide _ then 1 else 0).
  assert (0 <= e < 256) by (subst e; case_match; lia).
  pose proof (Z.mod_pos_bound rv (2 ^ 64) ltac:(lia)).
  repeat (read_field; [|unfold as_u64; lia]). rewrite as_i64_as_u64 by done.
  assert ((- (4095) <=? rv) && (rv <=? -1) = bool_decide (- 4095 <= rv <= -1)) as ->
    by (case_bool_decide; lia).
  subst e. by destruct (bool_decide (- 4095 <= rv <= -1)).
Qed.

(** The syscall-info decoder accepts exactly the kernel's records: on an
    84-byte buffer and a returned length it yields frame [d] if and only if [d]
    is a frame a native x86_64 task can produce, the length is that of its
    record, and the buffer is the record's byte layout for some stack pointer. *)
Theorem decode_syscall_info_exact n buffer d :
  is_bytes buffer → length buffer = PTRACE_SYSCALL_INFO_BUFFER_BYTES_V1 →
  decode_ptrace_syscall_info_x86_64_v1 n buffer = Ok d
  ↔ n = syscall_info_length d ∧ syscall_info_valid d
    ∧ ∃ stack_pointer, is_u64 stack_pointer ∧ buffer = syscall_info_bytes stack_pointer d.
Proof.
  intros Hb Hlen. split.
  - intros (? & ? & ?)%decode_syscall_info_sound; [|done..].
    split_and!; [done..|]. eexists; split; [|done]. by apply read_u64_range.
  - intros (-> & Hv & sp & Hsp & ->).
    destruct d; [by apply decode_seccomp_complete|by apply decode_exit_complete].
Qed.

Lemma decode_syscall_info_exact_witness :
  decode_ptrace_syscall_info_x86_64_v1 33
    (syscall_info_bytes 4096
      (DecodedExit {| exit_instruction_pointer := 8192; return_value := -2 |}))
  = Ok (DecodedExit {| exit_instruction_pointer := 8192; return_value := -2 |}).
Proof.
  apply (decode_syscall_info_exact 33
    (syscall_info_bytes 4096
      (DecodedExit {| exit_instruction_pointer := 8192; return_value := -2 |}))
    (DecodedExit {| exit_instruction_pointer := 8192; return_value := -2 |})).
  - vm_compute. repeat constructor; discriminate.
  - reflexivity.
  - split; [reflexivity|]. split; [split; vm_compute; split; congruence|].
    exists 4096. split; [split; vm_compute; congruence|reflexivity].
Defined.
