(* ===== verification/TaskState.v ===== *)
(** * The task lifecycle recorder

    [src/src/linux_pytest/tracer_task_state.rs]: the fixed-capacity recorder
    that correlates raw Linux TIDs with logical task lifetimes, accepts one
    observation at a time, emits normalized events into a caller-owned sink and
    poisons itself permanently on the first rejection.

    Definitions only; [TaskInvariant], [TaskHandlers] and
    [TaskTheorems] hold the proofs. *)

From S2P Require Import Prelude Monad WaitStatus.

Definition TRACER_TASK_MAX_TASKS_V1 : nat := 256.
#[global] Arguments TRACER_TASK_MAX_TASKS_V1 : simpl never.
Definition TRACER_TASK_CLONE_NR_X86_64_V1 : Z := 56.
Definition TRACER_TASK_FORK_NR_X86_64_V1 : Z := 57.
Definition TRACER_TASK_VFORK_NR_X86_64_V1 : Z := 58.
Definition TRACER_TASK_EXECVE_NR_X86_64_V1 : Z := 59.
Definition TRACER_TASK_EXIT_NR_X86_64_V1 : Z := 60.
Definition TRACER_TASK_EXIT_GROUP_NR_X86_64_V1 : Z := 231.
Definition TRACER_TASK_EXECVEAT_NR_X86_64_V1 : Z := 322.
Definition TRACER_TASK_CLONE3_NR_X86_64_V1 : Z := 435.

(** [LogicalTaskId(pub u32)]. *)
Definition LogicalTaskId : Type := Z.

Inductive TracerTaskBirthKindV1 :=
| BirthInitial | BirthFork | BirthVfork | BirthClone.

Inductive TracerTaskChildBirthKindV1 :=
| ChildFork | ChildVfork | ChildClone.

#[global] Instance TracerTaskChildBirthKindV1_eq_dec : EqDecision TracerTaskChildBirthKindV1.
Proof. solve_decision. Defined.

Inductive TracerTaskGroupRelationV1 :=
| NewThreadGroup | SharesParentThreadGroup.

#[global] Instance TracerTaskGroupRelationV1_eq_dec : EqDecision TracerTaskGroupRelationV1.
Proof. solve_decision. Defined.

Definition normalized (kind : TracerTaskChildBirthKindV1) : TracerTaskBirthKindV1 :=
  match kind with
  | ChildFork => BirthFork
  | ChildVfork => BirthVfork
  | ChildClone => BirthClone
  end.

Inductive TracerTaskNoReturnKindV1 := NoReturnExit | NoReturnExitGroup.

Inductive TracerTaskObservationV1 :=
| ObsInitialBirth (sequence raw_tid : Z)
| ObsChildAnnouncement (sequence parent_raw_tid child_raw_tid : Z)
    (kind : TracerTaskChildBirthKindV1) (group_relation : TracerTaskGroupRelationV1)
| ObsChildReady (sequence child_raw_tid : Z)
| ObsExec (sequence raw_tid former_raw_tid : Z)
| ObsSeccompEntry (sequence raw_tid syscall_number : Z)
| ObsSyscallExit (sequence raw_tid result : Z)
| ObsPtraceExitEvent (sequence raw_tid : Z) (termination : LinuxWaitTerminationV1)
| ObsTerminalReap (sequence raw_tid : Z) (termination : LinuxWaitTerminationV1).

Definition observation_sequence (observation : TracerTaskObservationV1) : Z :=
  match observation with
  | ObsInitialBirth sequence _
  | ObsChildAnnouncement sequence _ _ _ _
  | ObsChildReady sequence _
  | ObsExec sequence _ _
  | ObsSeccompEntry sequence _ _
  | ObsSyscallExit sequence _ _
  | ObsPtraceExitEvent sequence _ _
  | ObsTerminalReap sequence _ _ => sequence
  end.

Inductive NormalizedTracerTaskEventV1 :=
| Birth (transport_sequence : Z) (logical_task_id : LogicalTaskId)
    (parent_logical_task_id : option LogicalTaskId)
    (thread_group_logical_task_id : LogicalTaskId) (kind : TracerTaskBirthKindV1)
| Exec (transport_sequence : Z) (logical_task_id : LogicalTaskId) (syscall_number : Z)
| SeccompEntry (transport_sequence : Z) (logical_task_id : LogicalTaskId) (syscall_number : Z)
| SyscallExit (transport_sequence : Z) (logical_task_id : LogicalTaskId) (syscall_number : Z)
| PtraceExitEvent (transport_sequence : Z) (logical_task_id : LogicalTaskId)
    (termination : LinuxWaitTerminationV1)
    (resolved_no_return : option TracerTaskNoReturnKindV1)
| TerminalReap (transport_sequence : Z) (logical_task_id : LogicalTaskId)
    (termination : LinuxWaitTerminationV1).

(** The sink trait: the recorder is generic in its implementation. *)
Class NormalizedTracerTaskEventSinkV1 (K : Type) :=
  emit : K → NormalizedTracerTaskEventV1 → result () () * K.

Module TaskReason.
Inductive TracerTaskExecuteOnlyReasonV1 :=
| SequenceMismatch | CounterOverflow | InvalidRawTid | UnknownRawTid | DuplicateRawTid
| InitialBirthRequired | DuplicateInitialBirth | TaskCapacityExceeded | ParentNotRunning
| SelfParentTid | ChildAnnouncementWithoutEntry | ChildAnnouncementSyscallMismatch
| DuplicateChildAnnouncement | DuplicateChildReady | ChildNotReady
| MissingChildAnnouncement | ChildResultMismatch | BirthGroupRelationMismatch
| DuplicateExec | ExecWithoutEntry | ExecSyscallMismatch | ExecTidReplacementUnsupported
| ExecThreadTeardownUnsupported | DuplicateSeccompEntry | SyscallExitWithoutEntry
| SyscallRestartUnsupported | NoReturnResolutionRequired | MissingExecEvent
| ExecResultMismatch | OutstandingSyscall | DuplicatePtraceExit | LateLifecycleEvent
| ReapBeforePtraceExit | InvalidTermination | TerminationMismatch | SinkRejected
| IncompleteShutdown.

#[global] Instance TracerTaskExecuteOnlyReasonV1_eq_dec :
  EqDecision TracerTaskExecuteOnlyReasonV1.
Proof. solve_decision. Defined.
End TaskReason.
Abbreviation TracerTaskExecuteOnlyReasonV1 := TaskReason.TracerTaskExecuteOnlyReasonV1.

Inductive TaskPhaseV1 := Unused | Running | ExitObserved | Reaped.

#[global] Instance TaskPhaseV1_eq_dec : EqDecision TaskPhaseV1.
Proof. solve_decision. Defined.

Record TaskSlotV1 := {
  logical_task_id : LogicalTaskId;
  thread_group_logical_task_id : LogicalTaskId;
  raw_tid : Z;
  phase : TaskPhaseV1;
  pending_syscall : option Z;
  child_ready_seen_for_pending : bool;
  pending_child_raw_tid : Z;
  exec_event_seen_for_pending : bool;
  exec_seen_ever : bool;
  slot_termination : option LinuxWaitTerminationV1;
}.

Definition TaskSlotV1_EMPTY : TaskSlotV1 := {|
  logical_task_id := 0;
  thread_group_logical_task_id := 0;
  raw_tid := 0;
  phase := Unused;
  pending_syscall := None;
  child_ready_seen_for_pending := false;
  pending_child_raw_tid := 0;
  exec_event_seen_for_pending := false;
  exec_seen_ever := false;
  slot_termination := None;
|}.

Record PendingChildAnnouncementV1 := {
  parent_index : nat;
  announced_kind : TracerTaskChildBirthKindV1;
  announced_group_relation : TracerTaskGroupRelationV1;
}.

Record PendingChildCorrelationV1 := {
  pending_raw_tid : Z;
  announcement : option PendingChildAnnouncementV1;
  ready_seen : bool;
}.

Definition PendingChildCorrelationV1_EMPTY : PendingChildCorrelationV1 :=
  {| pending_raw_tid := 0; announcement := None; ready_seen := false |}.

Record TracerTaskCountersV1 := {
  accepted_transition_count : Z;
  initial_birth_count : Z;
  child_announcement_count : Z;
  child_ready_count : Z;
  fork_birth_count : Z;
  vfork_birth_count : Z;
  clone_birth_count : Z;
  exec_count : Z;
  seccomp_entry_count : Z;
  syscall_exit_count : Z;
  no_return_resolution_count : Z;
  ptrace_exit_event_count : Z;
  terminal_reap_count : Z;
}.

Definition counters_zero : TracerTaskCountersV1 :=
  Build_TracerTaskCountersV1 0 0 0 0 0 0 0 0 0 0 0 0 0.

Inductive CounterKindV1 :=
| CountInitialBirth | CountChildAnnouncement | CountChildReady | CountExec
| CountSeccompEntry | CountSyscallExit | CountPtraceExitEvent | CountTerminalReap.

(** [checked_add(1).ok_or(CounterOverflow)?]. *)
Definition bump (counter : Z) : result TracerTaskExecuteOnlyReasonV1 Z :=
  ok_or (u64_checked_add counter 1) TaskReason.CounterOverflow.

Definition incremented (self : TracerTaskCountersV1) (kind : CounterKindV1) :
    result TracerTaskExecuteOnlyReasonV1 TracerTaskCountersV1 :=
  let '(Build_TracerTaskCountersV1 accepted initial announcement ready fork vfork clone
          exec entry exit no_return ptrace_exit reap) := self in
  accepted ← bump accepted;
  match kind with
  | CountInitialBirth =>
      initial ← bump initial;
      Ok (Build_TracerTaskCountersV1 accepted initial announcement ready fork vfork clone
            exec entry exit no_return ptrace_exit reap)
  | CountChildAnnouncement =>
      announcement ← bump announcement;
      Ok (Build_TracerTaskCountersV1 accepted initial announcement ready fork vfork clone
            exec entry exit no_return ptrace_exit reap)
  | CountChildReady =>
      ready ← bump ready;
      Ok (Build_TracerTaskCountersV1 accepted initial announcement ready fork vfork clone
            exec entry exit no_return ptrace_exit reap)
  | CountExec =>
      exec ← bump exec;
      Ok (Build_TracerTaskCountersV1 accepted initial announcement ready fork vfork clone
            exec entry exit no_return ptrace_exit reap)
  | CountSeccompEntry =>
      entry ← bump entry;
      Ok (Build_TracerTaskCountersV1 accepted initial announcement ready fork vfork clone
            exec entry exit no_return ptrace_exit reap)
  | CountSyscallExit =>
      exit ← bump exit;
      Ok (Build_TracerTaskCountersV1 accepted initial announcement ready fork vfork clone
            exec entry exit no_return ptrace_exit reap)
  | CountPtraceExitEvent =>
      ptrace_exit ← bump ptrace_exit;
      Ok (Build_TracerTaskCountersV1 accepted initial announcement ready fork vfork clone
            exec entry exit no_return ptrace_exit reap)
  | CountTerminalReap =>
      reap ← bump reap;
      Ok (Build_TracerTaskCountersV1 accepted initial announcement ready fork vfork clone
            exec entry exit no_return ptrace_exit reap)
  end.

Definition with_correlated_birth (self : TracerTaskCountersV1)
    (kind : TracerTaskChildBirthKindV1) :
    result TracerTaskExecuteOnlyReasonV1 TracerTaskCountersV1 :=
  let '(Build_TracerTaskCountersV1 accepted initial announcement ready fork vfork clone
          exec entry exit no_return ptrace_exit reap) := self in
  match kind with
  | ChildFork =>
      fork ← bump fork;
      Ok (Build_TracerTaskCountersV1 accepted initial announcement ready fork vfork clone
            exec entry exit no_return ptrace_exit reap)
  | ChildVfork =>
      vfork ← bump vfork;
      Ok (Build_TracerTaskCountersV1 accepted initial announcement ready fork vfork clone
            exec entry exit no_return ptrace_exit reap)
  | ChildClone =>
      clone ← bump clone;
      Ok (Build_TracerTaskCountersV1 accepted initial announcement ready fork vfork clone
            exec entry exit no_return ptrace_exit reap)
  end.

Definition with_no_return_resolution (self : TracerTaskCountersV1) :
    result TracerTaskExecuteOnlyReasonV1 TracerTaskCountersV1 :=
  let '(Build_TracerTaskCountersV1 accepted initial announcement ready fork vfork clone
          exec entry exit no_return ptrace_exit reap) := self in
  no_return ← bump no_return;
  Ok (Build_TracerTaskCountersV1 accepted initial announcement ready fork vfork clone
        exec entry exit no_return ptrace_exit reap).

Record TracerTaskStateRecorderV1 := {
  tasks : list TaskSlotV1;
  pending_children : list PendingChildCorrelationV1;
  slots_used : nat;
  next_logical_task_id : Z;
  next_transport_sequence : Z;
  counters : TracerTaskCountersV1;
  poisoned : option TracerTaskExecuteOnlyReasonV1;
}.

Definition new : TracerTaskStateRecorderV1 := {|
  tasks := replicate TRACER_TASK_MAX_TASKS_V1 TaskSlotV1_EMPTY;
  pending_children := replicate TRACER_TASK_MAX_TASKS_V1 PendingChildCorrelationV1_EMPTY;
  slots_used := 0;
  next_logical_task_id := 1;
  next_transport_sequence := 1;
  counters := counters_zero;
  poisoned := None;
|}.

(** ** Field updates *)

Definition with_tasks (f : list TaskSlotV1 → list TaskSlotV1)
    (r : TracerTaskStateRecorderV1) : TracerTaskStateRecorderV1 :=
  {| tasks := f (tasks r); pending_children := pending_children r;
     slots_used := slots_used r; next_logical_task_id := next_logical_task_id r;
     next_transport_sequence := next_transport_sequence r; counters := counters r;
     poisoned := poisoned r |}.

Definition with_pending_children
    (f : list PendingChildCorrelationV1 → list PendingChildCorrelationV1)
    (r : TracerTaskStateRecorderV1) : TracerTaskStateRecorderV1 :=
  {| tasks := tasks r; pending_children := f (pending_children r);
     slots_used := slots_used r; next_logical_task_id := next_logical_task_id r;
     next_transport_sequence := next_transport_sequence r; counters := counters r;
     poisoned := poisoned r |}.

Definition with_slots_used (n : nat) (next_id : Z)
    (r : TracerTaskStateRecorderV1) : TracerTaskStateRecorderV1 :=
  {| tasks := tasks r; pending_children := pending_children r;
     slots_used := n; next_logical_task_id := next_id;
     next_transport_sequence := next_transport_sequence r; counters := counters r;
     poisoned := poisoned r |}.

Definition with_accepted (c : TracerTaskCountersV1) (next : Z)
    (r : TracerTaskStateRecorderV1) : TracerTaskStateRecorderV1 :=
  {| tasks := tasks r; pending_children := pending_children r;
     slots_used := slots_used r; next_logical_task_id := next_logical_task_id r;
     next_transport_sequence := next; counters := c; poisoned := poisoned r |}.

Definition with_poisoned (p : option TracerTaskExecuteOnlyReasonV1)
    (r : TracerTaskStateRecorderV1) : TracerTaskStateRecorderV1 :=
  {| tasks := tasks r; pending_children := pending_children r;
     slots_used := slots_used r; next_logical_task_id := next_logical_task_id r;
     next_transport_sequence := next_transport_sequence r; counters := counters r;
     poisoned := p |}.

(** The slot writes of the observation handlers. *)
Definition clear_pending (t : TaskSlotV1) (p : option Z) : TaskSlotV1 :=
  {| logical_task_id := logical_task_id t;
     thread_group_logical_task_id := thread_group_logical_task_id t;
     raw_tid := raw_tid t; phase := phase t; pending_syscall := p;
     child_ready_seen_for_pending := false; pending_child_raw_tid := 0;
     exec_event_seen_for_pending := false; exec_seen_ever := exec_seen_ever t;
     slot_termination := slot_termination t |}.

Definition set_exec_seen (t : TaskSlotV1) : TaskSlotV1 :=
  {| logical_task_id := logical_task_id t;
     thread_group_logical_task_id := thread_group_logical_task_id t;
     raw_tid := raw_tid t; phase := phase t; pending_syscall := pending_syscall t;
     child_ready_seen_for_pending := child_ready_seen_for_pending t;
     pending_child_raw_tid := pending_child_raw_tid t;
     exec_event_seen_for_pending := true; exec_seen_ever := true;
     slot_termination := slot_termination t |}.

Definition set_pending_child (child_raw_tid : Z) (t : TaskSlotV1) : TaskSlotV1 :=
  {| logical_task_id := logical_task_id t;
     thread_group_logical_task_id := thread_group_logical_task_id t;
     raw_tid := raw_tid t; phase := phase t; pending_syscall := pending_syscall t;
     child_ready_seen_for_pending := child_ready_seen_for_pending t;
     pending_child_raw_tid := child_raw_tid;
     exec_event_seen_for_pending := exec_event_seen_for_pending t;
     exec_seen_ever := exec_seen_ever t; slot_termination := slot_termination t |}.

Definition set_child_ready_seen (t : TaskSlotV1) : TaskSlotV1 :=
  {| logical_task_id := logical_task_id t;
     thread_group_logical_task_id := thread_group_logical_task_id t;
     raw_tid := raw_tid t; phase := phase t; pending_syscall := pending_syscall t;
     child_ready_seen_for_pending := true;
     pending_child_raw_tid := pending_child_raw_tid t;
     exec_event_seen_for_pending := exec_event_seen_for_pending t;
     exec_seen_ever := exec_seen_ever t; slot_termination := slot_termination t |}.

Definition set_phase (p : TaskPhaseV1) (tid : Z) (termination : option LinuxWaitTerminationV1)
    (t : TaskSlotV1) : TaskSlotV1 :=
  {| logical_task_id := logical_task_id t;
     thread_group_logical_task_id := thread_group_logical_task_id t;
     raw_tid := tid; phase := p; pending_syscall := pending_syscall t;
     child_ready_seen_for_pending := child_ready_seen_for_pending t;
     pending_child_raw_tid := pending_child_raw_tid t;
     exec_event_seen_for_pending := exec_event_seen_for_pending t;
     exec_seen_ever := exec_seen_ever t; slot_termination := termination |}.

(** ** Helpers *)

(** Methods on [&mut self] of the recorder. *)
Abbreviation recorder_m := (state_m TracerTaskStateRecorderV1 TracerTaskExecuteOnlyReasonV1).

(** [self.tasks[index]] and [self.pending_children[index]]: reads and writes at
    a computed index panic when it is out of range. *)
Definition task_at (index : nat) : recorder_m TaskSlotV1 :=
  slots ← gets tasks; lift_index (slots !! index).

Definition update_task (index : nat) (f : TaskSlotV1 → TaskSlotV1) : recorder_m () :=
  t ← task_at index; modify (with_tasks (<[index := f t]>)).

Definition pending_at (index : nat) : recorder_m PendingChildCorrelationV1 :=
  slots ← gets pending_children; lift_index (slots !! index).

Definition write_pending (index : nat) (p : PendingChildCorrelationV1) : recorder_m () :=
  pending_at index;; modify (with_pending_children (<[index := p]>)).

Definition is_creation_syscall (syscall_number : Z) : bool :=
  (syscall_number =? TRACER_TASK_CLONE_NR_X86_64_V1)
  || (syscall_number =? TRACER_TASK_FORK_NR_X86_64_V1)
  || (syscall_number =? TRACER_TASK_VFORK_NR_X86_64_V1)
  || (syscall_number =? TRACER_TASK_CLONE3_NR_X86_64_V1).

Definition is_restart_result (result : Z) : bool :=
  (result =? -512) || (result =? -513) || (result =? -514) || (result =? -516).

Definition is_exec_syscall (syscall_number : Z) : bool :=
  (syscall_number =? TRACER_TASK_EXECVE_NR_X86_64_V1)
  || (syscall_number =? TRACER_TASK_EXECVEAT_NR_X86_64_V1).

Definition is_exit_syscall (syscall_number : Z) : bool :=
  (syscall_number =? TRACER_TASK_EXIT_NR_X86_64_V1)
  || (syscall_number =? TRACER_TASK_EXIT_GROUP_NR_X86_64_V1).

Definition creation_syscall_permits (syscall_number : option Z)
    (kind : TracerTaskChildBirthKindV1) : bool :=
  match syscall_number with
  | Some nr =>
      if nr =? TRACER_TASK_FORK_NR_X86_64_V1 then bool_decide (kind = ChildFork)
      else if nr =? TRACER_TASK_VFORK_NR_X86_64_V1 then bool_decide (kind = ChildVfork)
      else (nr =? TRACER_TASK_CLONE_NR_X86_64_V1) || (nr =? TRACER_TASK_CLONE3_NR_X86_64_V1)
  | None => false
  end.

Definition require_positive_tid (tid : Z) : result TracerTaskExecuteOnlyReasonV1 () :=
  if 0 <? tid then Ok () else Err TaskReason.InvalidRawTid.

(** A slot of the used prefix that currently owns [tid]. *)
Definition owns_tid (tid : Z) (task : TaskSlotV1) : bool :=
  (raw_tid task =? tid) && negb (bool_decide (phase task = Reaped)).

Definition find_live_task (r : TracerTaskStateRecorderV1) (tid : Z) : option nat :=
  position (owns_tid tid) (take (slots_used r) (tasks r)).

Definition live_task_index (tid : Z) : recorder_m nat :=
  lift_result (require_positive_tid tid);;
  r ← gets id;
  lift_result (ok_or (find_live_task r tid) TaskReason.UnknownRawTid).

Definition running_task_index (tid : Z) : recorder_m nat :=
  index ← live_task_index tid;
  t ← task_at index;
  match phase t with
  | Running => mret index
  | ExitObserved => mthrow TaskReason.LateLifecycleEvent
  | Unused | Reaped => mthrow TaskReason.UnknownRawTid
  end.

Definition poison {A} (reason : TracerTaskExecuteOnlyReasonV1) : recorder_m A :=
  r ← gets id;
  let first := default reason (poisoned r) in
  modify (with_poisoned (Some first));;
  mthrow first.

Definition contains_live_raw_tid (r : TracerTaskStateRecorderV1) (tid : Z) : bool :=
  bool_decide (is_Some (find_live_task r tid)).

Definition is_announced_child_awaiting_ready (r : TracerTaskStateRecorderV1) (tid : Z) : bool :=
  any (λ pending, (pending_raw_tid pending =? tid)
                  && bool_decide (is_Some (announcement pending))
                  && negb (ready_seen pending)) (pending_children r).

(** The index comes from [find_live_task], so it is in range. *)
Definition pending_syscall_number (r : TracerTaskStateRecorderV1) (tid : Z) : option Z :=
  index ← find_live_task r tid;
  t ← tasks r !! index;
  pending_syscall t.

Definition insert_task (tid : Z) (inherited_thread_group : option LogicalTaskId) :
    recorder_m LogicalTaskId :=
  lift_result (require_positive_tid tid);;
  r ← gets id;
  if bool_decide (is_Some (find_live_task r tid)) then mthrow TaskReason.DuplicateRawTid
  else if (TRACER_TASK_MAX_TASKS_V1 <=? slots_used r)%nat then
    mthrow TaskReason.TaskCapacityExceeded
  else
    let id := next_logical_task_id r in
    if id =? 0 then mthrow TaskReason.CounterOverflow
    else
      next_id ← lift_result (ok_or (u32_checked_add id 1) TaskReason.CounterOverflow);
      update_task (slots_used r) (λ _,
        {| logical_task_id := id;
           thread_group_logical_task_id := default id inherited_thread_group;
           raw_tid := tid; phase := Running; pending_syscall := None;
           child_ready_seen_for_pending := false; pending_child_raw_tid := 0;
           exec_event_seen_for_pending := false; exec_seen_ever := false;
           slot_termination := None |});;
      modify (with_slots_used (S (slots_used r)) next_id);;
      mret id.

Definition pending_child_index_or_insert (tid : Z) : recorder_m nat :=
  r ← gets id;
  match position (λ pending, pending_raw_tid pending =? tid) (pending_children r) with
  | Some index => mret index
  | None =>
      let pending_count := count (λ pending, negb (pending_raw_tid pending =? 0))
                             (pending_children r) in
      if match usize_checked_add (slots_used r) pending_count with
         | None => true
         | Some total => (TRACER_TASK_MAX_TASKS_V1 <=? total)%nat
         end
      then mthrow TaskReason.TaskCapacityExceeded
      else
        index ← lift_result
          (ok_or (position (λ pending, pending_raw_tid pending =? 0) (pending_children r))
             TaskReason.TaskCapacityExceeded);
        write_pending index
          {| pending_raw_tid := tid; announcement := None; ready_seen := false |};;
        mret index
  end.

(** ** Observation handlers

    Each returns the event to emit, if any, and the counters to store once the
    sink accepted it. *)

Abbreviation accepted :=
  (option NormalizedTracerTaskEventV1 * TracerTaskCountersV1)%type.

(** [Ok((Some(event), self.counters.incremented(kind)?))]. *)
Definition accept_event (event : NormalizedTracerTaskEventV1) (kind : CounterKindV1) :
    recorder_m accepted :=
  r ← gets id;
  next_counters ← lift_result (incremented (counters r) kind);
  mret (Some event, next_counters).

Definition observe_initial_birth (sequence tid : Z) : recorder_m accepted :=
  r ← gets id;
  if negb (slots_used r =? 0)%nat then mthrow TaskReason.DuplicateInitialBirth
  else
    id ← insert_task tid None;
    accept_event (Birth sequence id None id BirthInitial) CountInitialBirth.

Definition finish_child_correlation (sequence : Z) (pending_index : nat)
    (next_counters : TracerTaskCountersV1) : recorder_m accepted :=
  pending ← pending_at pending_index;
  match announcement pending with
  | None => mret (None, next_counters)
  | Some ann =>
      if negb (ready_seen pending) then mret (None, next_counters)
      else
        parent ← task_at (parent_index ann);
        if negb (bool_decide (phase parent = Running)) then mthrow TaskReason.ParentNotRunning
        else if negb (pending_child_raw_tid parent =? pending_raw_tid pending)
             || negb (creation_syscall_permits (pending_syscall parent) (announced_kind ann))
        then mthrow TaskReason.ChildAnnouncementSyscallMismatch
        else
          let inherited_thread_group :=
            match announced_group_relation ann with
            | NewThreadGroup => None
            | SharesParentThreadGroup => Some (thread_group_logical_task_id parent)
            end in
          id ← insert_task (pending_raw_tid pending) inherited_thread_group;
          update_task (parent_index ann) set_child_ready_seen;;
          write_pending pending_index PendingChildCorrelationV1_EMPTY;;
          next_counters ← lift_result (with_correlated_birth next_counters (announced_kind ann));
          mret (Some (Birth sequence id (Some (logical_task_id parent))
                        (default id inherited_thread_group) (normalized (announced_kind ann))),
                next_counters)
  end.

Definition observe_child_announcement (sequence parent_raw_tid child_raw_tid : Z)
    (kind : TracerTaskChildBirthKindV1) (group_relation : TracerTaskGroupRelationV1) :
    recorder_m accepted :=
  lift_result (require_positive_tid parent_raw_tid);;
  lift_result (require_positive_tid child_raw_tid);;
  if parent_raw_tid =? child_raw_tid then mthrow TaskReason.SelfParentTid
  else
    r ← gets id;
    parent_index ← lift_result (ok_or (find_live_task r parent_raw_tid) TaskReason.UnknownRawTid);
    parent ← task_at parent_index;
    if negb (bool_decide (phase parent = Running)) then mthrow TaskReason.ParentNotRunning
    else
      creation_syscall ← lift_result
        (ok_or (pending_syscall parent) TaskReason.ChildAnnouncementWithoutEntry);
      if negb (creation_syscall_permits (Some creation_syscall) kind) then
        mthrow TaskReason.ChildAnnouncementSyscallMismatch
      else if negb (pending_child_raw_tid parent =? 0) then
        mthrow TaskReason.DuplicateChildAnnouncement
      else if negb (bool_decide (kind = ChildClone))
              && negb (bool_decide (group_relation = NewThreadGroup)) then
        mthrow TaskReason.BirthGroupRelationMismatch
      else if bool_decide (is_Some (find_live_task r child_raw_tid)) then
        mthrow TaskReason.DuplicateRawTid
      else
        pending_index ← pending_child_index_or_insert child_raw_tid;
        pending ← pending_at pending_index;
        if bool_decide (is_Some (announcement pending)) then
          mthrow TaskReason.DuplicateChildAnnouncement
        else
          write_pending pending_index
            {| pending_raw_tid := pending_raw_tid pending;
               announcement := Some {| parent_index := parent_index; announced_kind := kind;
                                       announced_group_relation := group_relation |};
               ready_seen := ready_seen pending |};;
          update_task parent_index (set_pending_child child_raw_tid);;
          r ← gets id;
          next_counters ← lift_result (incremented (counters r) CountChildAnnouncement);
          finish_child_correlation sequence pending_index next_counters.

Definition observe_child_ready (sequence child_raw_tid : Z) : recorder_m accepted :=
  lift_result (require_positive_tid child_raw_tid);;
  r ← gets id;
  if bool_decide (is_Some (find_live_task r child_raw_tid)) then
    mthrow TaskReason.DuplicateChildReady
  else
    pending_index ← pending_child_index_or_insert child_raw_tid;
    pending ← pending_at pending_index;
    if ready_seen pending then mthrow TaskReason.DuplicateChildReady
    else
      write_pending pending_index
        {| pending_raw_tid := pending_raw_tid pending;
           announcement := announcement pending; ready_seen := true |};;
      r ← gets id;
      next_counters ← lift_result (incremented (counters r) CountChildReady);
      finish_child_correlation sequence pending_index next_counters.

Definition observe_exec (sequence tid former_raw_tid : Z) : recorder_m accepted :=
  lift_result (require_positive_tid former_raw_tid);;
  if negb (tid =? former_raw_tid) then mthrow TaskReason.ExecTidReplacementUnsupported
  else
    index ← running_task_index tid;
    t ← task_at index;
    syscall_number ← lift_result (ok_or (pending_syscall t) TaskReason.ExecWithoutEntry);
    if negb (is_exec_syscall syscall_number) then mthrow TaskReason.ExecSyscallMismatch
    else if exec_event_seen_for_pending t || exec_seen_ever t then
      mthrow TaskReason.DuplicateExec
    else
      r ← gets id;
      let group_members :=
        count (λ task, (0 <? raw_tid task) && negb (bool_decide (phase task = Reaped))
                 && (thread_group_logical_task_id task =? thread_group_logical_task_id t))
          (take (slots_used r) (tasks r)) in
      if negb (group_members =? 1)%nat then
        mthrow TaskReason.ExecThreadTeardownUnsupported
      else
        update_task index set_exec_seen;;
        accept_event (Exec sequence (logical_task_id t) syscall_number) CountExec.

Definition observe_seccomp_entry (sequence tid syscall_number : Z) : recorder_m accepted :=
  index ← running_task_index tid;
  t ← task_at index;
  if bool_decide (is_Some (pending_syscall t)) then mthrow TaskReason.DuplicateSeccompEntry
  else
    update_task index (λ t, clear_pending t (Some syscall_number));;
    accept_event (SeccompEntry sequence (logical_task_id t) syscall_number) CountSeccompEntry.

(** The checks of a syscall exit against the exec event or child seen meanwhile. *)
Definition check_exec_result (t : TaskSlotV1) (result : Z) :
    Monad.result TracerTaskExecuteOnlyReasonV1 () :=
  if exec_event_seen_for_pending t then
    if result =? 0 then Ok () else Err TaskReason.ExecResultMismatch
  else if (-4095 <=? result) && (result <=? -1) then Ok ()
  else if result =? 0 then Err TaskReason.MissingExecEvent
  else Err TaskReason.ExecResultMismatch.

Definition check_creation_result (t : TaskSlotV1) (result : Z) :
    Monad.result TracerTaskExecuteOnlyReasonV1 () :=
  let announced := negb (pending_child_raw_tid t =? 0) in
  let ready := child_ready_seen_for_pending t in
  if (-4095 <=? result) && (result <=? -1) && negb announced then Ok ()
  else if (1 <=? result) && negb announced then Err TaskReason.MissingChildAnnouncement
  else if (1 <=? result) && negb ready then Err TaskReason.ChildNotReady
  else if (1 <=? result) && (result =? pending_child_raw_tid t) then Ok ()
  else Err TaskReason.ChildResultMismatch.

Definition observe_syscall_exit (sequence tid result : Z) : recorder_m accepted :=
  index ← running_task_index tid;
  t ← task_at index;
  syscall_number ← lift_result
    (ok_or (pending_syscall t) TaskReason.SyscallExitWithoutEntry);
  if is_restart_result result then mthrow TaskReason.SyscallRestartUnsupported
  else if is_exit_syscall syscall_number then mthrow TaskReason.NoReturnResolutionRequired
  else
    (if is_exec_syscall syscall_number then lift_result (check_exec_result t result)
     else mret ());;
    (if is_creation_syscall syscall_number then lift_result (check_creation_result t result)
     else mret ());;
    update_task index (λ t, clear_pending t None);;
    accept_event (SyscallExit sequence (logical_task_id t) syscall_number) CountSyscallExit.

Definition resolve_no_return (termination : LinuxWaitTerminationV1) (pending : option Z) :
    result TracerTaskExecuteOnlyReasonV1 (option TracerTaskNoReturnKindV1) :=
  match termination with
  | Exited _ =>
      match pending with
      | Some nr =>
          if nr =? TRACER_TASK_EXIT_NR_X86_64_V1 then Ok (Some NoReturnExit)
          else if nr =? TRACER_TASK_EXIT_GROUP_NR_X86_64_V1 then Ok (Some NoReturnExitGroup)
          else Err TaskReason.OutstandingSyscall
      | None => Err TaskReason.NoReturnResolutionRequired
      end
  | Signaled _ _ =>
      if bool_decide (is_Some pending) then Err TaskReason.OutstandingSyscall else Ok None
  end.

Definition observe_ptrace_exit (sequence tid : Z) (termination : LinuxWaitTerminationV1) :
    recorder_m accepted :=
  if negb (termination_valid termination) then mthrow TaskReason.InvalidTermination
  else
    index ← live_task_index tid;
    t ← task_at index;
    match phase t with
    | ExitObserved => mthrow TaskReason.DuplicatePtraceExit
    | Unused | Reaped => mthrow TaskReason.UnknownRawTid
    | Running =>
        resolved_no_return ← lift_result (resolve_no_return termination (pending_syscall t));
        update_task index (λ t,
          set_phase ExitObserved (raw_tid t) (Some termination) (clear_pending t None));;
        r ← gets id;
        next_counters ← lift_result (incremented (counters r) CountPtraceExitEvent);
        next_counters ← (if bool_decide (is_Some resolved_no_return)
                         then lift_result (with_no_return_resolution next_counters)
                         else mret next_counters);
        mret (Some (PtraceExitEvent sequence (logical_task_id t) termination
                      resolved_no_return), next_counters)
    end.

Definition observe_terminal_reap (sequence tid : Z) (termination : LinuxWaitTerminationV1) :
    recorder_m accepted :=
  if negb (termination_valid termination) then mthrow TaskReason.InvalidTermination
  else
    index ← live_task_index tid;
    t ← task_at index;
    match phase t with
    | Running => mthrow TaskReason.ReapBeforePtraceExit
    | Unused | Reaped => mthrow TaskReason.UnknownRawTid
    | ExitObserved =>
        if negb (bool_decide (slot_termination t = Some termination)) then
          mthrow TaskReason.TerminationMismatch
        else
          update_task index (λ t,
            set_phase Reaped 0 (slot_termination t) (clear_pending t None));;
          accept_event (TerminalReap sequence (logical_task_id t) termination)
            CountTerminalReap
    end.

(** ** The public operations *)

(** A recorder method called while a sink is also in scope. *)
Abbreviation on_recorder := on_fst.

(** [match accepted { Ok(value) => value, Err(reason) => return self.poison(reason) }]. *)
Definition or_poison {A} (m : recorder_m A) : recorder_m A := λ r,
  match m r with
  | Threw reason r' => poison reason r'
  | o => o
  end.

Definition sink_emit {K} `{NormalizedTracerTaskEventSinkV1 K}
    (event : NormalizedTracerTaskEventV1) :
    state_m (TracerTaskStateRecorderV1 * K) TracerTaskExecuteOnlyReasonV1 bool := λ '(r, k),
  let '(answer, k') := emit k event in Returned (is_ok answer) (r, k').

Definition dispatch (sequence : Z) (observation : TracerTaskObservationV1) :
    recorder_m accepted :=
  match observation with
  | ObsInitialBirth _ tid => observe_initial_birth sequence tid
  | ObsChildAnnouncement _ parent_tid child_tid kind relation =>
      observe_child_announcement sequence parent_tid child_tid kind relation
  | ObsChildReady _ child_tid => observe_child_ready sequence child_tid
  | ObsExec _ tid former_tid => observe_exec sequence tid former_tid
  | ObsSeccompEntry _ tid syscall_number => observe_seccomp_entry sequence tid syscall_number
  | ObsSyscallExit _ tid result => observe_syscall_exit sequence tid result
  | ObsPtraceExitEvent _ tid termination => observe_ptrace_exit sequence tid termination
  | ObsTerminalReap _ tid termination => observe_terminal_reap sequence tid termination
  end.

Definition is_initial_birth (observation : TracerTaskObservationV1) : bool :=
  match observation with ObsInitialBirth _ _ => true | _ => false end.

Definition observe {K} `{NormalizedTracerTaskEventSinkV1 K}
    (observation : TracerTaskObservationV1) :
    state_m (TracerTaskStateRecorderV1 * K) TracerTaskExecuteOnlyReasonV1 () :=
  r ← on_recorder (gets id);
  match poisoned r with
  | Some reason => mthrow reason
  | None =>
      let sequence := observation_sequence observation in
      if negb (sequence =? next_transport_sequence r) then
        on_recorder (poison TaskReason.SequenceMismatch)
      else if (slots_used r =? 0)%nat && negb (is_initial_birth observation) then
        on_recorder (poison TaskReason.InitialBirthRequired)
      else
        match u64_checked_add (next_transport_sequence r) 1 with
        | None => on_recorder (poison TaskReason.CounterOverflow)
        | Some next_sequence =>
            '(event, next_counters) ← on_recorder (or_poison (dispatch sequence observation));
            delivered ← match event with
                        | Some event => sink_emit event
                        | None => mret true
                        end;
            if negb delivered then on_recorder (poison TaskReason.SinkRejected)
            else on_recorder (modify (with_accepted next_counters next_sequence))
        end
  end.

(** The struct repeats the counters field by field; here they stay one record. *)
Record TracerTaskCompletionSummaryV1 := {
  task_count : Z;
  summary_counters : TracerTaskCountersV1;
}.

(** [checked_add] chains of [complete]. *)
Definition checked_sum (first : Z) (rest : list Z) : option Z :=
  foldl (λ acc c, acc ≫= λ a, u64_checked_add a c) (Some first) rest.

Definition complete (r : TracerTaskStateRecorderV1) :
    result TracerTaskExecuteOnlyReasonV1 TracerTaskCompletionSummaryV1 :=
  match poisoned r with
  | Some reason => Err reason
  | None =>
      let c := counters r in
      let slots := Z.of_nat (slots_used r) in
      let children := Z.of_nat (slots_used r - 1) in
      resolved_syscall_count ←
        ok_or (u64_checked_add (syscall_exit_count c) (no_return_resolution_count c))
          TaskReason.CounterOverflow;
      expected_transition_count ←
        ok_or (checked_sum (initial_birth_count c)
                 [child_announcement_count c; child_ready_count c; exec_count c;
                  seccomp_entry_count c; syscall_exit_count c; ptrace_exit_event_count c;
                  terminal_reap_count c])
          TaskReason.CounterOverflow;
      if (slots_used r =? 0)%nat
         || any (λ task, negb (bool_decide (phase task = Reaped)) || negb (raw_tid task =? 0))
              (take (slots_used r) (tasks r))
         || any (λ pending, negb (pending_raw_tid pending =? 0)) (pending_children r)
         || negb (initial_birth_count c =? 1)
         || negb (accepted_transition_count c =? expected_transition_count)
         || negb (child_announcement_count c =? child_ready_count c)
         || negb (child_ready_count c =? children)
         || negb (bool_decide (checked_sum (fork_birth_count c)
                                 [vfork_birth_count c; clone_birth_count c] = Some children))
         || negb (ptrace_exit_event_count c =? slots)
         || negb (terminal_reap_count c =? slots)
         || (slots <? exec_count c)
         || (ptrace_exit_event_count c <? no_return_resolution_count c)
         || negb (seccomp_entry_count c =? resolved_syscall_count)
      then Err TaskReason.IncompleteShutdown
      else if U16_MAX <? slots then Err TaskReason.CounterOverflow
      else Ok {| task_count := slots; summary_counters := c |}
  end.

(** ** Sinks *)

(** The sink that keeps every event, in order. *)
#[export] Instance list_sink : NormalizedTracerTaskEventSinkV1
    (list NormalizedTracerTaskEventV1) := λ log event, (Ok (), log ++ [event]).

(** A sink of bounded capacity: it rejects once full. *)
Record bounded_sink := { sink_capacity : nat; sink_log : list NormalizedTracerTaskEventV1 }.

#[export] Instance bounded_event_sink : NormalizedTracerTaskEventSinkV1 bounded_sink :=
  λ k event,
    if (length (sink_log k) <? sink_capacity k)%nat
    then (Ok (), {| sink_capacity := sink_capacity k; sink_log := sink_log k ++ [event] |})
    else (Err (), k).
