(* ===== verification/ForkDecode.v ===== *)
(** * Fork-family entry decoder

    [src/src/linux_pytest/tracer_fork_decode.rs]: from the native syscall
    number and its six argument words, the [clone3] argument copy and the ptrace
    event of the stop, the kind of birth and the thread-group relation of the
    child. An argument array [[u64; 6]] is a list of six words; the buffer of a
    capture is a list of 88 bytes. *)

From S2P Require Import Prelude Monad Bytes WaitStatus TaskState.

Definition CLONE3_ARGS_SIZE_VER0_V1 : Z := 64.
Definition CLONE3_ARGS_SIZE_VER1_V1 : Z := 80.
Definition CLONE3_ARGS_SIZE_VER2_V1 : Z := 88.
Definition CLONE3_ARGS_BUFFER_BYTES_V1 : nat := 88.

Definition LINUX_CSIGNAL_MASK_V1 : Z := 0xff.
Definition LINUX_SIGCHLD_V1 : Z := 17.
Definition LINUX_X86_64_MAX_SIGNAL_V1 : Z := 64.

Definition LINUX_CLONE_VM_V1 : Z := 0x100.
Definition LINUX_CLONE_FS_V1 : Z := 0x200.
Definition LINUX_CLONE_FILES_V1 : Z := 0x400.
Definition LINUX_CLONE_SIGHAND_V1 : Z := 0x800.
Definition LINUX_CLONE_PIDFD_V1 : Z := 0x1000.
Definition LINUX_CLONE_VFORK_V1 : Z := 0x4000.
Definition LINUX_CLONE_PARENT_V1 : Z := 0x8000.
Definition LINUX_CLONE_THREAD_V1 : Z := 0x10000.
Definition LINUX_CLONE_NEWNS_V1 : Z := 0x20000.
Definition LINUX_CLONE_SYSVSEM_V1 : Z := 0x40000.
Definition LINUX_CLONE_SETTLS_V1 : Z := 0x80000.
Definition LINUX_CLONE_PARENT_SETTID_V1 : Z := 0x100000.
Definition LINUX_CLONE_CHILD_CLEARTID_V1 : Z := 0x200000.
Definition LINUX_CLONE_DETACHED_V1 : Z := 0x400000.
Definition LINUX_CLONE_UNTRACED_V1 : Z := 0x800000.
Definition LINUX_CLONE_CHILD_SETTID_V1 : Z := 0x1000000.
Definition LINUX_CLONE_NEWCGROUP_V1 : Z := 0x2000000.
Definition LINUX_CLONE_NEWUTS_V1 : Z := 0x4000000.
Definition LINUX_CLONE_NEWIPC_V1 : Z := 0x8000000.
Definition LINUX_CLONE_NEWUSER_V1 : Z := 0x10000000.
Definition LINUX_CLONE_NEWPID_V1 : Z := 0x20000000.
Definition LINUX_CLONE_NEWNET_V1 : Z := 0x40000000.
Definition LINUX_CLONE_IO_V1 : Z := 0x80000000.

Definition LINUX_CLONE_NEWTIME_V1 : Z := 0x80.
Definition LINUX_CLONE_CLEAR_SIGHAND_V1 : Z := Z.shiftl 1 32.
Definition LINUX_CLONE_INTO_CGROUP_V1 : Z := Z.shiftl 1 33.

Definition LEGACY_CLONE_ADMITTED_FLAGS_V1 : Z :=
  foldl Z.lor 0
    [LINUX_CLONE_VM_V1; LINUX_CLONE_FS_V1; LINUX_CLONE_FILES_V1; LINUX_CLONE_SIGHAND_V1;
     LINUX_CLONE_PIDFD_V1; LINUX_CLONE_VFORK_V1; LINUX_CLONE_PARENT_V1;
     LINUX_CLONE_THREAD_V1; LINUX_CLONE_NEWNS_V1; LINUX_CLONE_SYSVSEM_V1;
     LINUX_CLONE_SETTLS_V1; LINUX_CLONE_PARENT_SETTID_V1; LINUX_CLONE_CHILD_CLEARTID_V1;
     LINUX_CLONE_CHILD_SETTID_V1; LINUX_CLONE_NEWCGROUP_V1; LINUX_CLONE_NEWUTS_V1;
     LINUX_CLONE_NEWIPC_V1; LINUX_CLONE_NEWUSER_V1; LINUX_CLONE_NEWPID_V1;
     LINUX_CLONE_NEWNET_V1; LINUX_CLONE_IO_V1].

Definition CLONE3_ADMITTED_FLAGS_V1 : Z :=
  foldl Z.lor LEGACY_CLONE_ADMITTED_FLAGS_V1
    [LINUX_CLONE_NEWTIME_V1; LINUX_CLONE_CLEAR_SIGHAND_V1; LINUX_CLONE_INTO_CGROUP_V1].

Inductive Clone3ArgsCaptureV1 :=
| NotApplicable
| Unavailable
| Exact (copied_byte_count : Z) (buffer : list Z).

Record Clone3ArgsReadSpecV1 := { read_address : Z; read_byte_count : Z }.

Record ForkFamilyBirthObservationV1 := {
  birth_kind : TracerTaskChildBirthKindV1;
  birth_relation : TracerTaskGroupRelationV1;
}.

Inductive ForkFamilyDecodeErrorV1 :=
| UnsupportedSyscall | UnexpectedClone3Capture | Clone3ArgsUnavailable
| Clone3NullArgsPointer | Clone3DeclaredSizeTooSmall | Clone3DeclaredSizeTooLarge
| Clone3DeclaredSizeAmbiguous | Clone3CopiedByteCountMismatch | Clone3UncopiedTailNonzero
| LegacyCloneHighFlagBitsNonzero | ExitSignalOutOfRange | Clone3SignalBitsInFlags
| TraceSuppressionFlag | ReservedCloneFlag | UnsupportedCloneFlags
| InvalidCloneFlagCombination | SharedThreadGroupWithExitSignal
| VforkSharedThreadGroupUnsupported | LegacyCloneInactiveFieldNonzero
| Clone3InactiveFieldNonzero | Clone3ActiveFieldZero | Clone3SetTidExternalReadUnsupported
| Clone3FlagRequiresNewerVersion | Clone3StackShapeInvalid | Clone3PidfdParentTidAlias
| PtraceEventMismatch.

#[global] Instance ForkFamilyDecodeErrorV1_eq_dec : EqDecision ForkFamilyDecodeErrorV1.
Proof. solve_decision. Defined.

Abbreviation fork_result := (result ForkFamilyDecodeErrorV1).

(** [arguments[i]] of a six-word array at a constant index. *)
Definition argument (arguments : list Z) (i : nat) : Z := nth i arguments 0.

(** [!mask] on 64 bits, and the test [flags & mask != 0]. *)
Definition u64_not (mask : Z) : Z := Z.lxor U64_MAX mask.
Definition has (flags mask : Z) : bool := negb (Z.land flags mask =? 0).

Definition plan_clone3_args_read_x86_64_v1 (arguments : list Z) :
    fork_result Clone3ArgsReadSpecV1 :=
  let declared_size := argument arguments 1 in
  if argument arguments 0 =? 0 then Err Clone3NullArgsPointer
  else if declared_size <? CLONE3_ARGS_SIZE_VER0_V1 then Err Clone3DeclaredSizeTooSmall
  else if CLONE3_ARGS_SIZE_VER2_V1 <? declared_size then Err Clone3DeclaredSizeTooLarge
  else if negb ((declared_size =? CLONE3_ARGS_SIZE_VER0_V1)
                || (declared_size =? CLONE3_ARGS_SIZE_VER1_V1)
                || (declared_size =? CLONE3_ARGS_SIZE_VER2_V1)) then
    Err Clone3DeclaredSizeAmbiguous
  else Ok {| read_address := argument arguments 0; read_byte_count := declared_size |}.

Definition require_no_clone3_capture_v1 (capture : Clone3ArgsCaptureV1) : fork_result () :=
  match capture with
  | NotApplicable => Ok ()
  | Unavailable | Exact _ _ => Err UnexpectedClone3Capture
  end.

Definition validate_common_flags_v1 (flags exit_signal : Z) (clone3 : bool) : fork_result () :=
  let admitted_flags :=
    if clone3 then CLONE3_ADMITTED_FLAGS_V1 else LEGACY_CLONE_ADMITTED_FLAGS_V1 in
  if has flags LINUX_CLONE_UNTRACED_V1 then Err TraceSuppressionFlag
  else if has flags LINUX_CLONE_DETACHED_V1 then Err ReservedCloneFlag
  else if has flags (u64_not admitted_flags) then Err UnsupportedCloneFlags
  else if has flags LINUX_CLONE_SIGHAND_V1 && negb (has flags LINUX_CLONE_VM_V1)
       || has flags LINUX_CLONE_THREAD_V1 && negb (has flags LINUX_CLONE_SIGHAND_V1)
       || has flags LINUX_CLONE_THREAD_V1
          && has flags (Z.lor LINUX_CLONE_NEWUSER_V1 LINUX_CLONE_NEWPID_V1)
       || has flags LINUX_CLONE_NEWNS_V1 && has flags LINUX_CLONE_FS_V1
       || has flags LINUX_CLONE_NEWUSER_V1 && has flags LINUX_CLONE_FS_V1
       || has flags LINUX_CLONE_CLEAR_SIGHAND_V1 && has flags LINUX_CLONE_SIGHAND_V1
  then Err InvalidCloneFlagCombination
  else if has flags LINUX_CLONE_THREAD_V1 && negb (exit_signal =? 0) then
    Err SharedThreadGroupWithExitSignal
  else if Z.land flags (Z.lor LINUX_CLONE_THREAD_V1 LINUX_CLONE_VFORK_V1)
          =? Z.lor LINUX_CLONE_THREAD_V1 LINUX_CLONE_VFORK_V1 then
    Err VforkSharedThreadGroupUnsupported
  else if clone3 && has flags LINUX_CLONE_PARENT_V1 && negb (exit_signal =? 0) then
    Err InvalidCloneFlagCombination
  else Ok ().

Definition validate_legacy_clone_fields_v1 (flags : Z) (arguments : list Z) : fork_result () :=
  let parent_word := Z.lor LINUX_CLONE_PIDFD_V1 LINUX_CLONE_PARENT_SETTID_V1 in
  if Z.land flags parent_word =? parent_word then Err InvalidCloneFlagCombination
  else
    let parent_word_is_active := has flags parent_word in
    let child_word_is_active :=
      has flags (Z.lor LINUX_CLONE_CHILD_SETTID_V1 LINUX_CLONE_CHILD_CLEARTID_V1) in
    let tls_word_is_active := has flags LINUX_CLONE_SETTLS_V1 in
    if negb parent_word_is_active && negb (argument arguments 2 =? 0)
       || negb child_word_is_active && negb (argument arguments 3 =? 0)
       || negb tls_word_is_active && negb (argument arguments 4 =? 0)
    then Err LegacyCloneInactiveFieldNonzero
    else Ok ().

Definition classify_clone_birth_v1 (flags exit_signal : Z) : ForkFamilyBirthObservationV1 :=
  {| birth_kind :=
       if has flags LINUX_CLONE_VFORK_V1 then ChildVfork
       else if negb (exit_signal =? LINUX_SIGCHLD_V1) then ChildClone
       else ChildFork;
     birth_relation :=
       if has flags LINUX_CLONE_THREAD_V1 then SharesParentThreadGroup else NewThreadGroup |}.

Definition decode_legacy_clone_v1 (arguments : list Z) :
    fork_result ForkFamilyBirthObservationV1 :=
  let raw_flags := argument arguments 0 in
  if negb (Z.shiftr raw_flags 32 =? 0) then Err LegacyCloneHighFlagBitsNonzero
  else
    let exit_signal := Z.land raw_flags LINUX_CSIGNAL_MASK_V1 in
    if LINUX_X86_64_MAX_SIGNAL_V1 <? exit_signal then Err ExitSignalOutOfRange
    else
      let flags := Z.land raw_flags (u64_not LINUX_CSIGNAL_MASK_V1) in
      _ ← validate_common_flags_v1 flags exit_signal false;
      _ ← validate_legacy_clone_fields_v1 flags arguments;
      Ok (classify_clone_birth_v1 flags exit_signal).

Record Clone3FieldsV1 := {
  c3_flags : Z; c3_pidfd : Z; c3_child_tid : Z; c3_parent_tid : Z; c3_exit_signal : Z;
  c3_stack : Z; c3_stack_size : Z; c3_tls : Z; c3_set_tid : Z; c3_set_tid_size : Z;
  c3_cgroup : Z;
}.

Definition clone3_read_u64_le_v1 (buffer : list Z) (offset : nat) : Z := read_le 8 buffer offset.

Definition clone3_fields_decode (buffer : list Z) : Clone3FieldsV1 :=
  {| c3_flags := clone3_read_u64_le_v1 buffer 0;
     c3_pidfd := clone3_read_u64_le_v1 buffer 8;
     c3_child_tid := clone3_read_u64_le_v1 buffer 16;
     c3_parent_tid := clone3_read_u64_le_v1 buffer 24;
     c3_exit_signal := clone3_read_u64_le_v1 buffer 32;
     c3_stack := clone3_read_u64_le_v1 buffer 40;
     c3_stack_size := clone3_read_u64_le_v1 buffer 48;
     c3_tls := clone3_read_u64_le_v1 buffer 56;
     c3_set_tid := clone3_read_u64_le_v1 buffer 64;
     c3_set_tid_size := clone3_read_u64_le_v1 buffer 72;
     c3_cgroup := clone3_read_u64_le_v1 buffer 80 |}.

Definition validate_clone3_fields_v1 (fields : Clone3FieldsV1) (declared_size : Z) :
    fork_result () :=
  let flags := c3_flags fields in
  if has flags LINUX_CLONE_INTO_CGROUP_V1 && (declared_size <? CLONE3_ARGS_SIZE_VER2_V1) then
    Err Clone3FlagRequiresNewerVersion
  else if has flags LINUX_CLONE_INTO_CGROUP_V1 && (I32_MAX <? c3_cgroup fields) then
    Err InvalidCloneFlagCombination
  else
    let pidfd_is_active := has flags LINUX_CLONE_PIDFD_V1 in
    let child_tid_is_active :=
      has flags (Z.lor LINUX_CLONE_CHILD_SETTID_V1 LINUX_CLONE_CHILD_CLEARTID_V1) in
    let parent_tid_is_active := has flags LINUX_CLONE_PARENT_SETTID_V1 in
    let tls_is_active := has flags LINUX_CLONE_SETTLS_V1 in
    let cgroup_is_active := has flags LINUX_CLONE_INTO_CGROUP_V1 in
    if negb pidfd_is_active && negb (c3_pidfd fields =? 0)
       || negb child_tid_is_active && negb (c3_child_tid fields =? 0)
       || negb parent_tid_is_active && negb (c3_parent_tid fields =? 0)
       || negb tls_is_active && negb (c3_tls fields =? 0)
       || negb cgroup_is_active && negb (c3_cgroup fields =? 0)
    then Err Clone3InactiveFieldNonzero
    else if pidfd_is_active && (c3_pidfd fields =? 0)
       || child_tid_is_active && (c3_child_tid fields =? 0)
       || parent_tid_is_active && (c3_parent_tid fields =? 0)
       || tls_is_active && (c3_tls fields =? 0)
    then Err Clone3ActiveFieldZero
    else if negb (c3_set_tid fields =? 0) || negb (c3_set_tid_size fields =? 0) then
      Err Clone3SetTidExternalReadUnsupported
    else if negb (Bool.eqb (c3_stack fields =? 0) (c3_stack_size fields =? 0)) then
      Err Clone3StackShapeInvalid
    else if pidfd_is_active && parent_tid_is_active
            && (c3_pidfd fields =? c3_parent_tid fields) then
      Err Clone3PidfdParentTidAlias
    else Ok ().

Definition decode_clone3_v1 (arguments : list Z) (capture : Clone3ArgsCaptureV1) :
    fork_result ForkFamilyBirthObservationV1 :=
  read_spec ← plan_clone3_args_read_x86_64_v1 arguments;
  let declared_size := read_byte_count read_spec in
  match capture with
  | NotApplicable | Unavailable => Err Clone3ArgsUnavailable
  | Exact copied_byte_count buffer =>
      if negb (copied_byte_count =? declared_size) then Err Clone3CopiedByteCountMismatch
      else if any (λ byte, negb (byte =? 0)) (drop (Z.to_nat copied_byte_count) buffer) then
        Err Clone3UncopiedTailNonzero
      else
        let fields := clone3_fields_decode buffer in
        if LINUX_X86_64_MAX_SIGNAL_V1 <? c3_exit_signal fields then Err ExitSignalOutOfRange
        else if has (c3_flags fields)
                  (Z.land LINUX_CSIGNAL_MASK_V1 (u64_not LINUX_CLONE_NEWTIME_V1)) then
          Err Clone3SignalBitsInFlags
        else
          _ ← validate_common_flags_v1 (c3_flags fields) (c3_exit_signal fields) true;
          _ ← validate_clone3_fields_v1 fields declared_size;
          Ok (classify_clone_birth_v1 (c3_flags fields) (c3_exit_signal fields))
  end.

Definition ptrace_event_matches_birth_kind_v1 (event : LinuxPtraceEventV1)
    (kind : TracerTaskChildBirthKindV1) : bool :=
  match event, kind with
  | EvFork, ChildFork | EvVfork, ChildVfork | EvClone, ChildClone => true
  | _, _ => false
  end.

Definition decode_fork_family_entry_x86_64_v1 (syscall_number : Z) (arguments : list Z)
    (clone3_capture : Clone3ArgsCaptureV1) (ptrace_event : LinuxPtraceEventV1) :
    fork_result ForkFamilyBirthObservationV1 :=
  observation ←
    (if syscall_number =? TRACER_TASK_FORK_NR_X86_64_V1 then
       _ ← require_no_clone3_capture_v1 clone3_capture;
       Ok {| birth_kind := ChildFork; birth_relation := NewThreadGroup |}
     else if syscall_number =? TRACER_TASK_VFORK_NR_X86_64_V1 then
       _ ← require_no_clone3_capture_v1 clone3_capture;
       Ok {| birth_kind := ChildVfork; birth_relation := NewThreadGroup |}
     else if syscall_number =? TRACER_TASK_CLONE_NR_X86_64_V1 then
       _ ← require_no_clone3_capture_v1 clone3_capture;
       decode_legacy_clone_v1 arguments
     else if syscall_number =? TRACER_TASK_CLONE3_NR_X86_64_V1 then
       decode_clone3_v1 arguments clone3_capture
     else Err UnsupportedSyscall);
  if negb (ptrace_event_matches_birth_kind_v1 ptrace_event (birth_kind observation)) then
    Err PtraceEventMismatch
  else Ok observation.
