(* ===== verification/ForkSpec.v ===== *)
(** * What the fork-family decoder accepts

    A specification of [ForkDecode] in terms of individual flag bits and of the
    kernel's [struct clone_args], and the proof that the decoder accepts exactly
    that. *)

From S2P Require Import Prelude Monad Bytes WaitStatus TaskState ForkDecode.

(** ** Flags as bits *)

Definition VM : Z := 8.
Definition FS : Z := 9.
Definition SIGHAND : Z := 11.
Definition PIDFD : Z := 12.
Definition VFORK : Z := 14.
Definition PARENT : Z := 15.
Definition THREAD : Z := 16.
Definition NEWNS : Z := 17.
Definition SETTLS : Z := 19.
Definition PARENT_SETTID : Z := 20.
Definition CHILD_CLEARTID : Z := 21.
Definition CHILD_SETTID : Z := 24.
Definition NEWUSER : Z := 28.
Definition NEWPID : Z := 29.
Definition CLEAR_SIGHAND : Z := 32.
Definition INTO_CGROUP : Z := 33.

(** The bits [clone] admits above the signal byte, and those [clone3] adds. *)
Definition legacy_bits : list Z :=
  [8; 9; 10; 11; 12; 14; 15; 16; 17; 18; 19; 20; 21; 24; 25; 26; 27; 28; 29; 30; 31].
Definition clone3_bits : list Z := legacy_bits ++ [7; 32; 33].

(** The rules both calls share, for a set of flag bits and an exit signal. *)
Record flag_rules (bit : Z → bool) (exit_signal : Z) (clone3 : bool) : Prop := {
  rule_admitted : ∀ n, bit n = true → n ∈ (if clone3 then clone3_bits else legacy_bits);
  rule_sighand : bit SIGHAND = true → bit VM = true;
  rule_thread : bit THREAD = true → bit SIGHAND = true;
  rule_thread_new : bit THREAD = true → bit NEWUSER || bit NEWPID = false;
  rule_newns : bit NEWNS = true → bit FS = false;
  rule_newuser : bit NEWUSER = true → bit FS = false;
  rule_clear : bit CLEAR_SIGHAND = true → bit SIGHAND = false;
  rule_thread_signal : bit THREAD = true → exit_signal = 0;
  rule_thread_vfork : bit THREAD = true → bit VFORK = false;
  rule_parent : clone3 = true → bit PARENT = true → exit_signal = 0;
}.

Lemma has_bit flags n : 0 <= n → has flags (2 ^ n) = Z.testbit flags n.
Proof.
  intros Hn. unfold has. destruct (Z.testbit flags n) eqn:E.
  - apply negb_true_iff, Z.eqb_neq. intros H0.
    assert (Z.testbit (Z.land flags (2 ^ n)) n = true) as H1
      by (rewrite Z.land_spec, E, Z.pow2_bits_true by done; done).
    by rewrite H0, Z.bits_0 in H1.
  - apply negb_false_iff, Z.eqb_eq. apply Z.bits_inj'. intros m Hm.
    rewrite Z.land_spec, Z.bits_0. destruct (Z.eq_dec m n) as [->|Hne]; [by rewrite E|].
    by rewrite Z.pow2_bits_false, andb_false_r by lia.
Qed.

Lemma has_lor flags a b : has flags (Z.lor a b) = has flags a || has flags b.
Proof.
  unfold has. rewrite Z.land_lor_distr_r.
  destruct (Z.eqb_spec (Z.lor (Z.land flags a) (Z.land flags b)) 0) as [E|E].
  - apply Z.lor_eq_0_iff in E as [-> ->]. done.
  - destruct (Z.eqb_spec (Z.land flags a) 0) as [Ea|]; [|done].
    destruct (Z.eqb_spec (Z.land flags b) 0) as [Eb|]; [|done].
    rewrite Ea, Eb in E. done.
Qed.

(** [flags & (a | b) == a | b] for two distinct bits. *)
Lemma land_both flags n m :
  0 <= n → 0 <= m →
  (Z.land flags (Z.lor (2 ^ n) (2 ^ m)) =? Z.lor (2 ^ n) (2 ^ m))
  = Z.testbit flags n && Z.testbit flags m.
Proof.
  intros Hn Hm. destruct (Z.eqb_spec (Z.land flags (Z.lor (2 ^ n) (2 ^ m))) (Z.lor (2 ^ n) (2 ^ m)))
    as [E|E].
  - assert (∀ k, Z.testbit (Z.lor (2 ^ n) (2 ^ m)) k = true → Z.testbit flags k = true) as Hk.
    { intros k Hk. rewrite <- E, Z.land_spec in Hk. by apply andb_true_iff in Hk as [? _]. }
    rewrite (Hk n), (Hk m); [done|..]; rewrite Z.lor_spec, Z.pow2_bits_true by done;
      [by rewrite orb_true_r|done].
  - symmetry. apply andb_false_iff. destruct (Z.testbit flags n) eqn:E1; [|by left].
    destruct (Z.testbit flags m) eqn:E2; [|by right]. exfalso. apply E.
    apply Z.bits_inj'. intros k Hk. rewrite Z.land_spec, Z.lor_spec, !Z.pow2_bits_eqb by done.
    destruct (Z.eqb_spec n k) as [<-|]; [by rewrite E1|].
    destruct (Z.eqb_spec m k) as [<-|]; [by rewrite E2|]. by rewrite andb_false_r.
Qed.

Lemma u64_bits_above flags n : is_u64 flags → 64 <= n → Z.testbit flags n = false.
Proof.
  intros [H0 H1] Hn. destruct (Z.eq_dec flags 0) as [->|]; [apply Z.bits_0|].
  apply Z.bits_above_log2; [done|]. apply Z.lt_le_trans with 64; [|done].
  apply Z.log2_lt_pow2; lia.
Qed.

(** A mask is the set of its bits. *)
Definition mask_is (mask : Z) (bits : list Z) : bool :=
  forallb (λ n, Bool.eqb (Z.testbit mask n) (bool_decide (n ∈ bits)))
    (seqZ 0 64).

(** No bit outside the mask. *)
Lemma has_not_mask flags mask bits :
  is_u64 flags → mask_is mask bits = true →
  has flags (u64_not mask) = false ↔ ∀ n, Z.testbit flags n = true → n ∈ bits.
Proof.
  intros Hu Hmask. unfold mask_is in Hmask. rewrite forallb_forall in Hmask.
  assert (∀ n, 0 <= n < 64 → Z.testbit mask n = bool_decide (n ∈ bits)) as Hm.
  { intros n Hn. apply eqb_prop, Hmask, list_elem_of_In, elem_of_seqZ. lia. }
  unfold has, u64_not. rewrite negb_false_iff, Z.eqb_eq. split.
  - intros E n Hn.
    assert (0 <= n < 64) as Hr.
    { split; [destruct (Z.neg_nonneg_cases n); [by rewrite Z.testbit_neg_r in Hn|done]|].
      destruct (Z.lt_ge_cases n 64); [done|]. by rewrite u64_bits_above in Hn. }
    assert (Z.testbit (Z.land flags (Z.lxor U64_MAX mask)) n = false) as Hb
      by (rewrite E; apply Z.bits_0).
    rewrite Z.land_spec, Z.lxor_spec, Hn, Hm in Hb by done.
    change U64_MAX with (Z.ones 64) in Hb. rewrite Z.ones_spec_low in Hb by done.
    simpl in Hb. apply negb_false_iff, bool_decide_eq_true in Hb. done.
  - intros Hbits. apply Z.bits_inj'. intros n Hn. rewrite Z.bits_0, Z.land_spec, Z.lxor_spec.
    destruct (Z.testbit flags n) eqn:E; [|done]. pose proof (Hbits n E) as Hin.
    assert (n < 64) by (destruct (Z.lt_ge_cases n 64); [done|by rewrite u64_bits_above in E]).
    rewrite Hm by lia. rewrite bool_decide_eq_true_2 by done.
    change U64_MAX with (Z.ones 64). by rewrite Z.ones_spec_low by lia.
Qed.

(** Reads every flag test of the code as a bit. *)
Ltac flag_bits :=
  change LINUX_CLONE_VM_V1 with (2 ^ VM); change LINUX_CLONE_FS_V1 with (2 ^ FS);
  change LINUX_CLONE_SIGHAND_V1 with (2 ^ SIGHAND); change LINUX_CLONE_PIDFD_V1 with (2 ^ PIDFD);
  change LINUX_CLONE_VFORK_V1 with (2 ^ VFORK); change LINUX_CLONE_PARENT_V1 with (2 ^ PARENT);
  change LINUX_CLONE_THREAD_V1 with (2 ^ THREAD); change LINUX_CLONE_NEWNS_V1 with (2 ^ NEWNS);
  change LINUX_CLONE_SETTLS_V1 with (2 ^ SETTLS);
  change LINUX_CLONE_PARENT_SETTID_V1 with (2 ^ PARENT_SETTID);
  change LINUX_CLONE_CHILD_CLEARTID_V1 with (2 ^ CHILD_CLEARTID);
  change LINUX_CLONE_CHILD_SETTID_V1 with (2 ^ CHILD_SETTID);
  change LINUX_CLONE_NEWUSER_V1 with (2 ^ NEWUSER); change LINUX_CLONE_NEWPID_V1 with (2 ^ NEWPID);
  change LINUX_CLONE_CLEAR_SIGHAND_V1 with (2 ^ CLEAR_SIGHAND);
  change LINUX_CLONE_INTO_CGROUP_V1 with (2 ^ INTO_CGROUP);
  change LINUX_CLONE_UNTRACED_V1 with (2 ^ 23); change LINUX_CLONE_DETACHED_V1 with (2 ^ 22);
  rewrite ?has_lor, ?has_bit, ?land_both by done.

Lemma andb_false_impl a b : a && b = false ↔ (a = true → b = false).
Proof. destruct a, b; naive_solver. Qed.

(** A conjunction of bits that is false, as an implication between them. *)
Ltac bits_to_impl :=
  repeat match goal with
  | H : _ || _ = false |- _ => apply orb_false_iff in H as [? ?]
  | H : _ && _ = false |- _ => rewrite andb_false_impl in H
  | H : context [negb _ = false] |- _ => rewrite negb_false_iff in H
  | H : context [negb _ = true] |- _ => rewrite negb_true_iff in H
  | H : context [(_ =? _) = true] |- _ => rewrite Z.eqb_eq in H
  | H : context [(_ =? _) = false] |- _ => rewrite Z.eqb_neq in H
  end.

Lemma validate_common_flags_exact flags exit_signal clone3 :
  is_u64 flags →
  validate_common_flags_v1 flags exit_signal clone3 = Ok ()
  ↔ flag_rules (Z.testbit flags) exit_signal clone3.
Proof.
  intros Hu. unfold validate_common_flags_v1.
  assert (has flags (u64_not (if clone3 then CLONE3_ADMITTED_FLAGS_V1
                              else LEGACY_CLONE_ADMITTED_FLAGS_V1)) = false
    ↔ ∀ n, Z.testbit flags n = true → n ∈ (if clone3 then clone3_bits else legacy_bits)) as Hadm
    by (destruct clone3; by apply has_not_mask).
  set (adm := has flags (u64_not _)) in *. flag_bits. clearbody adm.
  assert (∀ n, n = 22 ∨ n = 23 → n ∉ (if clone3 then clone3_bits else legacy_bits)) as Hno.
  { intros n [-> | ->]; destruct clone3; by apply (bool_decide_unpack _). }
  split.
  - intros H. destruct clone3; repeat case_match; try discriminate H; bits_to_impl;
      (split; [by apply Hadm|..]; done || auto).
  - intros [R1 R2 R3 R4 R5 R6 R7 R8 R9 R10].
    pose proof (R1 22) as E22. pose proof (R1 23) as E23. rewrite <- Hadm in R1.
    destruct (Z.testbit flags 23); [by destruct (Hno 23); auto|].
    destruct (Z.testbit flags 22); [by destruct (Hno 22); auto|]. rewrite R1. clear Hadm Hno E22 E23.
    repeat case_match; try done; exfalso; bool_to_prop.
    + rewrite !orb_true_iff, !andb_true_iff, !negb_true_iff in H. intuition congruence.
    + intuition congruence.
    + intuition congruence.
    + intuition congruence.
Qed.

(** ** The legacy call *)

(** The flag bits of the first word of [clone], whose low byte is the signal. *)
Definition legacy_bit (raw n : Z) : bool := (8 <=? n) && Z.testbit raw n.

Record legacy_clone_rules (arguments : list Z) : Prop := {
  legacy_word : argument arguments 0 < 2 ^ 32;
  legacy_signal : argument arguments 0 mod 256 <= 64;
  legacy_flags : flag_rules (legacy_bit (argument arguments 0)) (argument arguments 0 mod 256) false;
  legacy_pidfd : legacy_bit (argument arguments 0) PIDFD
    && legacy_bit (argument arguments 0) PARENT_SETTID = false;
  legacy_parent_word : legacy_bit (argument arguments 0) PIDFD
    || legacy_bit (argument arguments 0) PARENT_SETTID = false → argument arguments 2 = 0;
  legacy_child_word : legacy_bit (argument arguments 0) CHILD_SETTID
    || legacy_bit (argument arguments 0) CHILD_CLEARTID = false → argument arguments 3 = 0;
  legacy_tls_word : legacy_bit (argument arguments 0) SETTLS = false → argument arguments 4 = 0;
}.

(** The birth the kernel reports for a set of flag bits and an exit signal. *)
Definition birth_of (bit : Z → bool) (exit_signal : Z) : ForkFamilyBirthObservationV1 :=
  {| birth_kind := if bit VFORK then ChildVfork
                   else if exit_signal =? 17 then ChildFork else ChildClone;
     birth_relation := if bit THREAD then SharesParentThreadGroup else NewThreadGroup |}.

Lemma classify_clone_birth_bits flags exit_signal :
  classify_clone_birth_v1 flags exit_signal = birth_of (Z.testbit flags) exit_signal.
Proof.
  unfold classify_clone_birth_v1, birth_of. flag_bits. unfold LINUX_SIGCHLD_V1.
  by destruct (exit_signal =? 17).
Qed.

Lemma flag_rules_ext bit bit' exit_signal clone3 :
  (∀ n, bit n = bit' n) → flag_rules bit exit_signal clone3 → flag_rules bit' exit_signal clone3.
Proof. intros E []. split; intros *; rewrite <- ?E; auto. Qed.

(** The flags word with the signal byte masked off. *)
Lemma land_not_signal raw :
  is_u64 raw → Z.land raw (u64_not LINUX_CSIGNAL_MASK_V1) = Z.ldiff raw (Z.ones 8).
Proof.
  intros Hu. apply Z.bits_inj'. intros n Hn. unfold u64_not.
  rewrite Z.land_spec, Z.lxor_spec, Z.ldiff_spec.
  change U64_MAX with (Z.ones 64). change LINUX_CSIGNAL_MASK_V1 with (Z.ones 8).
  destruct (Z.lt_ge_cases n 64); [|by rewrite u64_bits_above by done].
  by rewrite (Z.ones_spec_low 64) by lia.
Qed.

Lemma testbit_without_signal raw n :
  is_u64 raw → Z.testbit (Z.land raw (u64_not LINUX_CSIGNAL_MASK_V1)) n = legacy_bit raw n.
Proof.
  intros Hu. rewrite land_not_signal by done. unfold legacy_bit.
  destruct (Z.neg_nonneg_cases n) as [Hn|Hn].
  { rewrite !(Z.testbit_neg_r _ n) by done. by rewrite andb_false_r. }
  rewrite Z.ldiff_spec. destruct (Z.leb_spec 8 n).
  - rewrite Z.ones_spec_high by lia. apply andb_true_r.
  - rewrite Z.ones_spec_low by lia. apply andb_false_r.
Qed.

Lemma land_not_signal_u64 raw : is_u64 raw → is_u64 (Z.land raw (u64_not LINUX_CSIGNAL_MASK_V1)).
Proof.
  intros Hu. rewrite land_not_signal, Z.ldiff_ones_r by done.
  rewrite Z.shiftl_mul_pow2, Z.shiftr_div_pow2 by done.
  unfold is_u64 in *. change (2 ^ 8) with 256. zdiv_lia.
Qed.

Lemma legacy_fields_exact flags arguments (bit : Z → bool) :
  (∀ n, Z.testbit flags n = bit n) →
  validate_legacy_clone_fields_v1 flags arguments = Ok ()
  ↔ bit PIDFD && bit PARENT_SETTID = false
    ∧ (bit PIDFD || bit PARENT_SETTID = false → argument arguments 2 = 0)
    ∧ (bit CHILD_SETTID || bit CHILD_CLEARTID = false → argument arguments 3 = 0)
    ∧ (bit SETTLS = false → argument arguments 4 = 0).
Proof.
  intros E. unfold validate_legacy_clone_fields_v1. flag_bits. rewrite !E.
  destruct (bit PIDFD && bit PARENT_SETTID) eqn:E1; [naive_solver|].
  destruct (Z.eqb_spec (argument arguments 2) 0), (Z.eqb_spec (argument arguments 3) 0),
    (Z.eqb_spec (argument arguments 4) 0), (bit PIDFD || bit PARENT_SETTID),
    (bit CHILD_SETTID || bit CHILD_CLEARTID), (bit SETTLS); simpl; naive_solver.
Qed.

Lemma decode_legacy_clone_exact arguments observation :
  is_u64 (argument arguments 0) →
  decode_legacy_clone_v1 arguments = Ok observation
  ↔ legacy_clone_rules arguments
    ∧ observation = birth_of (legacy_bit (argument arguments 0)) (argument arguments 0 mod 256).
Proof.
  intros Hu. unfold decode_legacy_clone_v1. set (raw := argument arguments 0) in *.
  set (flags := Z.land raw (u64_not _)).
  assert (∀ n, Z.testbit flags n = legacy_bit raw n) as Hbits
    by (intros n; by apply testbit_without_signal).
  assert (Z.land raw LINUX_CSIGNAL_MASK_V1 = raw mod 256) as -> by (apply (land_mask raw 8); done).
  rewrite Z.shiftr_div_pow2 by done.
  pose proof (validate_common_flags_exact flags (raw mod 256) false
    ltac:(by apply land_not_signal_u64)) as Hc.
  pose proof (legacy_fields_exact flags arguments _ Hbits) as Hf.
  rewrite classify_clone_birth_bits. unfold birth_of. rewrite !Hbits.
  destruct (Z.eqb_spec (raw / 2 ^ 32) 0) as [Hw|Hw]; simpl.
  2: { split; [done|]. intros [[Hlt _ _ _ _ _ _] _]. fold raw in Hlt. destruct Hw.
       apply Z.div_small. unfold is_u64 in Hu. lia. }
  apply Z.div_small_iff in Hw as [Hw|Hw]; [|unfold is_u64 in Hu; lia|done].
  destruct (Z.ltb_spec LINUX_X86_64_MAX_SIGNAL_V1 (raw mod 256)) as [Hs|Hs].
  { split; [done|]. intros [[_ Hle _ _ _ _ _] _]. fold raw in Hle.
    unfold LINUX_X86_64_MAX_SIGNAL_V1 in Hs. lia. }
  split.
  - intros H. apply result_bind_Ok in H as ([] & Hv%Hc & H).
    apply result_bind_Ok in H as ([] & (F1 & F2 & F3 & F4)%Hf & [= <-]).
    split; [|done]. split; fold raw; try done; [lia|]. by eapply flag_rules_ext.
  - intros [[_ _ Hv F1 F2 F3 F4] ->]. fold raw in Hv, F1, F2, F3.
    rewrite (proj2 Hc) by (eapply flag_rules_ext; [|done]; done).
    cbn [mbind result_bind]. by rewrite (proj2 Hf).
Qed.

(** ** The [clone3] call *)

(** The words of [struct clone_args] in order, and their little-endian image. *)
Definition clone3_words (f : Clone3FieldsV1) : list Z :=
  [c3_flags f; c3_pidfd f; c3_child_tid f; c3_parent_tid f; c3_exit_signal f; c3_stack f;
   c3_stack_size f; c3_tls f; c3_set_tid f; c3_set_tid_size f; c3_cgroup f].

Definition encode_clone3 (f : Clone3FieldsV1) : list Z := mjoin (le_bytes 8 <$> clone3_words f).

Record clone3_rules (f : Clone3FieldsV1) (size : Z) : Prop := {
  clone3_size : size = 64 ∨ size = 80 ∨ size = 88;
  clone3_signal : c3_exit_signal f <= 64;
  clone3_flags : flag_rules (Z.testbit (c3_flags f)) (c3_exit_signal f) true;
  clone3_cgroup_size : Z.testbit (c3_flags f) INTO_CGROUP = true → size = 88 ∧ c3_cgroup f < 2 ^ 31;
  clone3_cgroup : Z.testbit (c3_flags f) INTO_CGROUP = false → c3_cgroup f = 0;
  clone3_pidfd : c3_pidfd f ≠ 0 ↔ Z.testbit (c3_flags f) PIDFD = true;
  clone3_child : c3_child_tid f ≠ 0
    ↔ Z.testbit (c3_flags f) CHILD_SETTID || Z.testbit (c3_flags f) CHILD_CLEARTID = true;
  clone3_parent : c3_parent_tid f ≠ 0 ↔ Z.testbit (c3_flags f) PARENT_SETTID = true;
  clone3_tls : c3_tls f ≠ 0 ↔ Z.testbit (c3_flags f) SETTLS = true;
  clone3_set_tid : c3_set_tid f = 0 ∧ c3_set_tid_size f = 0;
  clone3_stack : c3_stack f = 0 ↔ c3_stack_size f = 0;
  clone3_alias : c3_pidfd f ≠ 0 → c3_parent_tid f ≠ 0 → c3_pidfd f ≠ c3_parent_tid f;
}.

Lemma clone3_round_trip f :
  Forall is_u64 (clone3_words f) → clone3_fields_decode (encode_clone3 f) = f.
Proof.
  intros Hu. unfold clone3_words in Hu. do 11 (apply Forall_cons_1 in Hu as [? Hu]).
  destruct f as [f0 f1 f2 f3 f4 f5 f6 f7 f8 f9 f10]. simpl in *.
  unfold clone3_fields_decode, encode_clone3, clone3_read_u64_le_v1.
  cbn [clone3_words fmap list_fmap mjoin list_join c3_flags c3_pidfd c3_child_tid c3_parent_tid
    c3_exit_signal c3_stack c3_stack_size c3_tls c3_set_tid c3_set_tid_size c3_cgroup].
  f_equal; read_field; done.
Qed.

Lemma clone3_decode_encode buffer :
  is_bytes buffer → length buffer = CLONE3_ARGS_BUFFER_BYTES_V1 →
  encode_clone3 (clone3_fields_decode buffer) = buffer
  ∧ Forall is_u64 (clone3_words (clone3_fields_decode buffer)).
Proof.
  intros Hb Hlen. unfold CLONE3_ARGS_BUFFER_BYTES_V1 in Hlen. split.
  - rewrite <- (drop_0 buffer) at 2.
    unfold encode_clone3, clone3_fields_decode, clone3_read_u64_le_v1.
    cbn [clone3_words fmap list_fmap mjoin list_join c3_flags c3_pidfd c3_child_tid c3_parent_tid
      c3_exit_signal c3_stack c3_stack_size c3_tls c3_set_tid c3_set_tid_size c3_cgroup].
    do 11 (rewrite (drop_split 8) by (done || lia); f_equal; cbn [Nat.add]).
    symmetry. apply nil_length_inv. rewrite length_drop. lia.
  - repeat constructor; unfold clone3_fields_decode, clone3_read_u64_le_v1; simpl;
      by apply (read_le_range 8).
Qed.

(** A pointer field is set exactly when its flag is. *)
Definition set_iff (field : Z) (active : bool) : Prop := field ≠ 0 ↔ active = true.

Lemma set_iff_tests field active :
  set_iff field active ↔ negb active && negb (field =? 0) = false ∧ active && (field =? 0) = false.
Proof. unfold set_iff. destruct active, (Z.eqb_spec field 0); simpl; naive_solver. Qed.

Lemma validate_clone3_fields_exact f size :
  size <= 88 →
  validate_clone3_fields_v1 f size = Ok ()
  ↔ (Z.testbit (c3_flags f) INTO_CGROUP = true → size = 88 ∧ c3_cgroup f < 2 ^ 31)
    ∧ (Z.testbit (c3_flags f) INTO_CGROUP = false → c3_cgroup f = 0)
    ∧ set_iff (c3_pidfd f) (Z.testbit (c3_flags f) PIDFD)
    ∧ set_iff (c3_child_tid f)
        (Z.testbit (c3_flags f) CHILD_SETTID || Z.testbit (c3_flags f) CHILD_CLEARTID)
    ∧ set_iff (c3_parent_tid f) (Z.testbit (c3_flags f) PARENT_SETTID)
    ∧ set_iff (c3_tls f) (Z.testbit (c3_flags f) SETTLS)
    ∧ (c3_set_tid f = 0 ∧ c3_set_tid_size f = 0)
    ∧ (c3_stack f = 0 ↔ c3_stack_size f = 0)
    ∧ (c3_pidfd f ≠ 0 → c3_parent_tid f ≠ 0 → c3_pidfd f ≠ c3_parent_tid f).
Proof.
  intros Hsize. unfold validate_clone3_fields_v1, CLONE3_ARGS_SIZE_VER2_V1, I32_MAX.
  rewrite !set_iff_tests. flag_bits.
  generalize (Z.testbit (c3_flags f) CHILD_SETTID || Z.testbit (c3_flags f) CHILD_CLEARTID) as child.
  generalize (Z.testbit (c3_flags f) PIDFD) as pidfd.
  generalize (Z.testbit (c3_flags f) PARENT_SETTID) as parent.
  generalize (Z.testbit (c3_flags f) SETTLS) as tls.
  generalize (Z.testbit (c3_flags f) INTO_CGROUP) as cgroup. intros.
  destruct (cgroup && (size <? 88)) eqn:E1.
  { bool_to_prop. subst. split; [done|]. intros (H & _). destruct H; [done|lia]. }
  destruct (cgroup && (2147483647 <? c3_cgroup f)) eqn:E2.
  { bool_to_prop. subst. split; [done|]. intros (H & _). destruct H; [done|lia]. }
  destruct (negb pidfd && _) eqn:E3; [naive_solver|].
  destruct (negb child && _) eqn:E4; [naive_solver|].
  destruct (negb parent && _) eqn:E5; [naive_solver|].
  destruct (negb tls && _) eqn:E6; [naive_solver|].
  destruct (negb cgroup && _) eqn:E7; [bool_to_prop; naive_solver|].
  destruct (pidfd && (c3_pidfd f =? 0)) eqn:E8; [naive_solver|].
  destruct (child && _) eqn:E9; [naive_solver|].
  destruct (parent && (c3_parent_tid f =? 0)) eqn:E10; [naive_solver|].
  destruct (tls && _) eqn:E11; [naive_solver|]. cbn [orb].
  assert (cgroup = true → size = 88 ∧ c3_cgroup f < 2 ^ 31) as Hc1.
  { intros ->. simpl in E1, E2. bool_to_prop. lia. }
  assert (cgroup = false → c3_cgroup f = 0) as Hc2.
  { intros ->. simpl in E7. by bool_to_prop. }
  destruct (Z.eqb_spec (c3_set_tid f) 0); [|naive_solver].
  destruct (Z.eqb_spec (c3_set_tid_size f) 0); [|naive_solver]. cbn [orb negb].
  destruct (Z.eqb_spec (c3_stack f) 0), (Z.eqb_spec (c3_stack_size f) 0);
    try (split; [done|]; intros (_ & _ & _ & _ & _ & _ & _ & H & _); tauto).
  all: cbn [Bool.eqb negb].
  all: destruct (Z.eqb_spec (c3_pidfd f) (c3_parent_tid f)) as [E|E], pidfd, parent; simpl in *;
    bool_to_prop; first
      [ split; [intros _; split_and!; done || tauto | done]
      | split; [done|intros (_ & _ & _ & _ & _ & _ & _ & _ & H); by destruct H] ].
Qed.

(** The words an older version of the struct does not have are zero. *)
Lemma clone3_tail_zero f size :
  clone3_rules f size →
  any (λ byte, negb (byte =? 0)) (drop (Z.to_nat size) (encode_clone3 f)) = false.
Proof.
  intros Hr. destruct (clone3_set_tid _ _ Hr) as [Hs1 Hs2].
  assert (size < 88 → c3_cgroup f = 0) as Hcg.
  { intros Hlt. destruct (Z.testbit (c3_flags f) INTO_CGROUP) eqn:E.
    - destruct (clone3_cgroup_size _ _ Hr E). lia.
    - by apply (clone3_cgroup _ _ Hr). }
  unfold encode_clone3. cbn [clone3_words fmap list_fmap mjoin list_join].
  destruct (clone3_size _ _ Hr) as [-> | [-> | ->]].
  - change (Z.to_nat 64) with 64%nat. rewrite !drop_field by lia.
    rewrite Hs1, Hs2, Hcg by lia. reflexivity.
  - change (Z.to_nat 80) with 80%nat. rewrite !drop_field by lia. rewrite Hcg by lia. reflexivity.
  - change (Z.to_nat 88) with 88%nat. by rewrite !drop_field by lia.
Qed.

(** No signal bit in the flags of an admitted [clone3]. *)
Lemma clone3_no_signal_bits flags signal :
  flag_rules (Z.testbit flags) signal true →
  has flags (Z.land LINUX_CSIGNAL_MASK_V1 (u64_not LINUX_CLONE_NEWTIME_V1)) = false.
Proof.
  intros [Hadm _ _ _ _ _ _ _ _ _]. unfold has. apply negb_false_iff, Z.eqb_eq.
  change (Z.land LINUX_CSIGNAL_MASK_V1 (u64_not LINUX_CLONE_NEWTIME_V1)) with (Z.ones 7).
  apply Z.bits_inj'. intros n Hn. rewrite Z.bits_0, Z.land_spec.
  destruct (Z.testbit flags n) eqn:E; [|done]. simpl.
  destruct (Z.lt_ge_cases n 7) as [Hlt|Hge]; [|by apply Z.ones_spec_high; lia].
  specialize (Hadm n E). simpl in Hadm.
  apply list_elem_of_In in Hadm. simpl in Hadm. lia.
Qed.

Lemma plan_clone3_exact arguments spec :
  plan_clone3_args_read_x86_64_v1 arguments = Ok spec
  ↔ argument arguments 0 ≠ 0
    ∧ (argument arguments 1 = 64 ∨ argument arguments 1 = 80 ∨ argument arguments 1 = 88)
    ∧ spec = {| read_address := argument arguments 0; read_byte_count := argument arguments 1 |}.
Proof.
  unfold plan_clone3_args_read_x86_64_v1, CLONE3_ARGS_SIZE_VER0_V1, CLONE3_ARGS_SIZE_VER1_V1,
    CLONE3_ARGS_SIZE_VER2_V1.
  generalize (argument arguments 0) as a, (argument arguments 1) as b. intros a b.
  repeat case_match; bool_to_prop; split; intros H'; simplify_eq; try done.
  all: try (destruct H' as (? & ? & ->); lia || done).
  rewrite orb_true_iff, !Z.eqb_eq in *. split_and!; done || tauto.
Qed.

Lemma decode_clone3_exact arguments n f observation :
  Forall is_u64 (clone3_words f) →
  decode_clone3_v1 arguments (Exact n (encode_clone3 f)) = Ok observation
  ↔ argument arguments 0 ≠ 0 ∧ argument arguments 1 = n ∧ clone3_rules f n
    ∧ observation = birth_of (Z.testbit (c3_flags f)) (c3_exit_signal f).
Proof.
  intros Hu. unfold decode_clone3_v1.
  assert (is_u64 (c3_flags f)) as Huf by (by apply Forall_cons_1 in Hu as [? _]).
  pose proof (validate_common_flags_exact (c3_flags f) (c3_exit_signal f) true Huf) as Hc.
  split.
  - intros H. apply result_bind_Ok in H as (spec & (Hnz & Hsize & ->)%plan_clone3_exact & H).
    simpl read_byte_count in H. case_match; [done|]. bool_to_prop. subst n. case_match; [done|].
    rewrite clone3_round_trip in H by done. cbv zeta in H.
    case_match; [done|]. case_match; [done|].
    apply result_bind_Ok in H as ([] & Hv%Hc & H). apply result_bind_Ok in H as ([] & Hf & H).
    apply validate_clone3_fields_exact in Hf as (? & ? & ? & ? & ? & ? & ? & ? & ?); [|lia].
    rewrite classify_clone_birth_bits in H. injection H as <-. bool_to_prop.
    split_and!; try done.
  - intros (Hnz & <- & Hr & ->). pose proof (clone3_tail_zero _ _ Hr) as Htail.
    rewrite (proj2 (plan_clone3_exact arguments
      {| read_address := argument arguments 0; read_byte_count := argument arguments 1 |}))
      by (destruct Hr; done).
    cbn [mbind result_bind read_byte_count]. rewrite Z.eqb_refl, Htail, clone3_round_trip by done.
    destruct Hr as [Hs Hsig Hv R1 R2 R3 R4 R5 R6 R7 R8 R9]. cbv zeta. cbn [negb].
    unfold LINUX_X86_64_MAX_SIGNAL_V1. rewrite (proj2 (Z.ltb_ge _ _)) by done.
    rewrite (clone3_no_signal_bits _ _ Hv), (proj2 Hc Hv).
    cbn [mbind result_bind]. rewrite (proj2 (validate_clone3_fields_exact f (argument arguments 1) ltac:(lia))) by done.
    by rewrite classify_clone_birth_bits.
Qed.

(** ** The whole decoder *)

(** The entries that report a birth, one rule per native call. *)
Inductive fork_entry (nr : Z) (arguments : list Z) :
    Clone3ArgsCaptureV1 → ForkFamilyBirthObservationV1 → Prop :=
| entry_fork :
    nr = 57 →
    fork_entry nr arguments NotApplicable
      {| birth_kind := ChildFork; birth_relation := NewThreadGroup |}
| entry_vfork :
    nr = 58 →
    fork_entry nr arguments NotApplicable
      {| birth_kind := ChildVfork; birth_relation := NewThreadGroup |}
| entry_clone :
    nr = 56 → legacy_clone_rules arguments →
    fork_entry nr arguments NotApplicable
      (birth_of (legacy_bit (argument arguments 0)) (argument arguments 0 mod 256))
| entry_clone3 f :
    nr = 435 → Forall is_u64 (clone3_words f) → argument arguments 0 ≠ 0 →
    clone3_rules f (argument arguments 1) →
    fork_entry nr arguments (Exact (argument arguments 1) (encode_clone3 f))
      (birth_of (Z.testbit (c3_flags f)) (c3_exit_signal f)).

Definition event_of_kind (kind : TracerTaskChildBirthKindV1) : LinuxPtraceEventV1 :=
  match kind with ChildFork => EvFork | ChildVfork => EvVfork | ChildClone => EvClone end.

Lemma ptrace_event_matches event kind :
  ptrace_event_matches_birth_kind_v1 event kind = true ↔ event = event_of_kind kind.
Proof. destruct event, kind; simpl; naive_solver. Qed.

(** A captured buffer is 88 bytes. *)
Definition capture_wf (capture : Clone3ArgsCaptureV1) : Prop :=
  match capture with
  | Exact _ buffer => is_bytes buffer ∧ length buffer = CLONE3_ARGS_BUFFER_BYTES_V1
  | _ => True
  end.

(** C8. The fork-family decoder is exact: it reports a birth if and only if
    the entry is a [fork], a [vfork], a [clone] whose words obey the flag
    rules, or a [clone3] whose captured bytes are the image of a
    [struct clone_args] of the declared version that obeys them, and the ptrace
    event is the one the kernel raises for that kind of birth; kind and group
    relation are then those the flag bits and the exit signal determine. *)
Theorem decode_fork_family_exact nr arguments capture event observation :
  is_u64 (argument arguments 0) → capture_wf capture →
  decode_fork_family_entry_x86_64_v1 nr arguments capture event = Ok observation
  ↔ fork_entry nr arguments capture observation ∧ event = event_of_kind (birth_kind observation).
Proof.
  intros Hu Hcap. unfold decode_fork_family_entry_x86_64_v1.
  unfold TRACER_TASK_FORK_NR_X86_64_V1, TRACER_TASK_VFORK_NR_X86_64_V1,
    TRACER_TASK_CLONE_NR_X86_64_V1, TRACER_TASK_CLONE3_NR_X86_64_V1.
  set (entry := if nr =? 57 then _ else _).
  assert (∀ o, entry = Ok o ↔ fork_entry nr arguments capture o) as Hentry.
  { intros o. subst entry.
    destruct (Z.eqb_spec nr 57) as [->|H57]; [|destruct (Z.eqb_spec nr 58) as [->|H58];
      [|destruct (Z.eqb_spec nr 56) as [->|H56]; [|destruct (Z.eqb_spec nr 435) as [->|H435]]]].
    - destruct capture; simpl; (split; intros H; [by simplify_eq; constructor|by inversion H]).
    - destruct capture; simpl; (split; intros H; [by simplify_eq; constructor|by inversion H]).
    - destruct capture; simpl; [|split; intros H; [done|by inversion H]..].
      rewrite decode_legacy_clone_exact by done. split.
      + intros [? ->]. by constructor.
      + intros H. by inversion H.
    - split.
      + destruct capture as [| |n buffer]; intros H; [by apply result_bind_Ok in H as (? & _ & ?)..|].
        destruct Hcap as [Hb Hlen]. destruct (clone3_decode_encode buffer Hb Hlen) as [E Hw].
        rewrite <- E in H |- *. apply decode_clone3_exact in H as (? & <- & ? & ->); [|done].
        by constructor.
      + intros H. inversion H; subst; try done. by apply decode_clone3_exact.
    - split; intros H; [done|by inversion H]. }
  destruct entry as [o|e].
  - simpl. destruct (ptrace_event_matches_birth_kind_v1 event (birth_kind o)) eqn:E; simpl.
    + apply ptrace_event_matches in E. split.
      * intros [= <-]. split; [by apply Hentry|done].
      * intros [H _]. by apply Hentry in H.
    + split; [done|]. intros [H%Hentry ->]. injection H as ->.
      by rewrite (proj2 (ptrace_event_matches _ _) eq_refl) in E.
  - split; [done|]. by intros [H%Hentry _].
Qed.

(** A thread created with [CLONE_VM | CLONE_SIGHAND | CLONE_THREAD]. *)
Lemma decode_fork_family_exact_witness :
  decode_fork_family_entry_x86_64_v1 56 [0x10900; 0; 0; 0; 0; 0] NotApplicable EvClone
  = Ok {| birth_kind := ChildClone; birth_relation := SharesParentThreadGroup |}.
Proof.
  apply (decode_fork_family_exact 56 [0x10900; 0; 0; 0; 0; 0] NotApplicable EvClone).
  - split; [discriminate|reflexivity].
  - exact I.
  - split; [|reflexivity].
    change {| birth_kind := _; birth_relation := _ |}
      with (birth_of (legacy_bit 0x10900) (0x10900 mod 256)).
    apply (entry_clone _ [0x10900; 0; 0; 0; 0; 0]); [reflexivity|].
    apply (proj1 (decode_legacy_clone_exact [0x10900; 0; 0; 0; 0; 0]
      {| birth_kind := ChildClone; birth_relation := SharesParentThreadGroup |}
      ltac:(split; [discriminate|reflexivity])) eq_refl).
Defined.

(** ** The contract with the recorder

    What the recorder of [TaskState] checks of an announcement and the
    supervisor relies on: a birth that was decoded for a call is one that call
    permits, and only a [clone] shares its parent's group. *)
Class BirthDecoder
    (decode : Z → list Z → Clone3ArgsCaptureV1 → LinuxPtraceEventV1 →
              fork_result ForkFamilyBirthObservationV1) : Prop := {
  decoder_permits nr arguments capture event o :
    decode nr arguments capture event = Ok o →
    creation_syscall_permits (Some nr) (birth_kind o) = true;
  decoder_relation nr arguments capture event o :
    decode nr arguments capture event = Ok o →
    birth_kind o ≠ ChildClone → birth_relation o = NewThreadGroup;
  decoder_event nr arguments capture event o :
    decode nr arguments capture event = Ok o → event = event_of_kind (birth_kind o);
}.

(** A shared group comes with no exit signal and no [CLONE_VFORK], so it is
    classified as a clone. *)
Lemma classify_relation flags exit_signal clone3 u :
  validate_common_flags_v1 flags exit_signal clone3 = Ok u →
  birth_kind (classify_clone_birth_v1 flags exit_signal) ≠ ChildClone →
  birth_relation (classify_clone_birth_v1 flags exit_signal) = NewThreadGroup.
Proof.
  intros Hv Hkind. rewrite classify_clone_birth_bits in *. cbn [birth_of birth_kind birth_relation] in *.
  destruct (Z.testbit flags THREAD) eqn:Ht; [exfalso|done]. revert Hv.
  unfold validate_common_flags_v1. flag_bits. rewrite Ht.
  intros Hv. revert Hkind. destruct clone3; do 4 (case_match; [discriminate Hv|]);
    cbn [andb negb] in Hv;
  destruct (Z.eqb_spec exit_signal 0) as [->|]; try discriminate Hv; cbn [negb] in Hv;
    by destruct (Z.testbit flags VFORK).
Qed.

(** Every entry is decoded by one of the two constant births or classified. *)
Lemma decode_fork_family_cases nr arguments capture event o :
  decode_fork_family_entry_x86_64_v1 nr arguments capture event = Ok o →
  (nr = 57 ∧ o = {| birth_kind := ChildFork; birth_relation := NewThreadGroup |})
  ∨ (nr = 58 ∧ o = {| birth_kind := ChildVfork; birth_relation := NewThreadGroup |})
  ∨ ((nr = 56 ∨ nr = 435)
     ∧ ∃ flags exit_signal clone3, validate_common_flags_v1 flags exit_signal clone3 = Ok ()
       ∧ o = classify_clone_birth_v1 flags exit_signal).
Proof.
  unfold decode_fork_family_entry_x86_64_v1. intros H.
  apply result_bind_Ok in H as (o' & Hentry & H). case_match; [done|]. injection H as ->.
  unfold TRACER_TASK_FORK_NR_X86_64_V1, TRACER_TASK_VFORK_NR_X86_64_V1,
    TRACER_TASK_CLONE_NR_X86_64_V1, TRACER_TASK_CLONE3_NR_X86_64_V1 in Hentry.
  destruct (Z.eqb_spec nr 57) as [->|]; [apply result_bind_Ok in Hentry as (? & _ & [= <-]); auto|].
  destruct (Z.eqb_spec nr 58) as [->|]; [apply result_bind_Ok in Hentry as (? & _ & [= <-]); auto|].
  right; right. destruct (Z.eqb_spec nr 56) as [->|].
  - split; [by left|]. apply result_bind_Ok in Hentry as (? & _ & Hentry).
    unfold decode_legacy_clone_v1 in Hentry. do 2 (case_match; [discriminate Hentry|]).
    apply result_bind_Ok in Hentry as ([] & Hv & Hentry).
    apply result_bind_Ok in Hentry as (? & _ & [= <-]). eauto.
  - destruct (Z.eqb_spec nr 435) as [->|]; [|done]. split; [by right|].
    apply result_bind_Ok in Hentry as (spec & _ & Hentry). destruct capture; try done.
    cbv zeta in Hentry. do 4 (case_match; [discriminate Hentry|]). apply result_bind_Ok in Hentry as ([] & Hv & Hentry).
    apply result_bind_Ok in Hentry as (? & _ & [= <-]). eauto.
Qed.

#[export] Instance fork_family_birth_decoder : BirthDecoder decode_fork_family_entry_x86_64_v1.
Proof.
  split; intros nr arguments capture event o H.
  3: { apply result_bind_Ok in H as (o' & _ & H). case_match; [done|]. injection H as ->.
       by apply negb_false_iff, ptrace_event_matches in H0. }
  all: apply decode_fork_family_cases in H
    as [[-> ->]|[[-> ->]|[Hnr (flags & signal & clone3 & Hv & ->)]]]; try done.
  - by destruct Hnr as [-> | ->].
  - by eapply classify_relation.
Qed.
