(* ===== verification/Lifecycle.v ===== *)
(** * Abstract specification of the task lifecycle

    What the recorder of [TaskState] promises to the consumer of its event
    stream, with no raw TID in it: a monitor over normalized events whose state
    is one [lifetime] per logical task, in logical-id order. [life_step] is
    defined exactly on the events a correct stream may contain next. *)

From S2P Require Import Prelude Monad WaitStatus TaskState.

Inductive life_status :=
| Live (pending : option Z) (child_born : bool)
| Dying (termination : LinuxWaitTerminationV1)
| Gone (termination : LinuxWaitTerminationV1).

Record lifetime := {
  life_group : LogicalTaskId;
  life_execed : bool;
  life_now : life_status;
}.

Definition life_fresh (group : LogicalTaskId) : lifetime :=
  {| life_group := group; life_execed := false; life_now := Live None false |}.

Definition life_set (now : life_status) (l : lifetime) : lifetime :=
  {| life_group := life_group l; life_execed := life_execed l; life_now := now |}.

Definition is_gone (l : lifetime) : bool :=
  match life_now l with Gone _ => true | _ => false end.

(** Logical ids count from one. *)
Definition life_at (ls : list lifetime) (id : LogicalTaskId) : option lifetime :=
  if 1 <=? id then ls !! Z.to_nat (id - 1) else None.

Definition life_put (ls : list lifetime) (id : LogicalTaskId) (l : lifetime) : list lifetime :=
  <[Z.to_nat (id - 1) := l]> ls.

Definition child_kind (kind : TracerTaskBirthKindV1) : option TracerTaskChildBirthKindV1 :=
  match kind with
  | BirthInitial => None
  | BirthFork => Some ChildFork
  | BirthVfork => Some ChildVfork
  | BirthClone => Some ChildClone
  end.

(** The group a child may be born into: its own, or its parent's for a clone. *)
Definition group_permitted (kind : TracerTaskChildBirthKindV1) (id group parent_group : Z) : bool :=
  (group =? id) || (bool_decide (kind = ChildClone) && (group =? parent_group)).

Definition life_birth (ls : list lifetime) (id : LogicalTaskId)
    (parent : option LogicalTaskId) (group : LogicalTaskId) (kind : TracerTaskBirthKindV1) :
    option (list lifetime) :=
  if negb (id =? Z.of_nat (length ls) + 1) then None
  else match parent, child_kind kind with
  | None, None =>
      if (id =? 1) && (group =? 1) then Some [life_fresh group] else None
  | Some p, Some k =>
      l ← life_at ls p;
      match life_now l with
      | Live nr false =>
          if creation_syscall_permits nr k && group_permitted k id group (life_group l)
          then Some (life_put ls p (life_set (Live nr true) l) ++ [life_fresh group])
          else None
      | _ => None
      end
  | _, _ => None
  end.

(** An exec needs an open exec call and no other task alive in the group. *)
Definition life_exec (ls : list lifetime) (id : LogicalTaskId) (nr : Z) :
    option (list lifetime) :=
  l ← life_at ls id;
  match life_now l with
  | Live (Some open) born =>
      if (open =? nr) && is_exec_syscall nr && negb (life_execed l)
         && (count (λ m, negb (is_gone m) && (life_group m =? life_group l)%Z) ls =? 1)%nat
      then Some (life_put ls id {| life_group := life_group l; life_execed := true;
                                   life_now := Live (Some open) born |})
      else None
  | _ => None
  end.

Definition life_enter (ls : list lifetime) (id : LogicalTaskId) (nr : Z) :
    option (list lifetime) :=
  l ← life_at ls id;
  match life_now l with
  | Live None false => Some (life_put ls id (life_set (Live (Some nr) false) l))
  | _ => None
  end.

Definition life_leave (ls : list lifetime) (id : LogicalTaskId) (nr : Z) :
    option (list lifetime) :=
  l ← life_at ls id;
  match life_now l with
  | Live (Some open) _ =>
      if (open =? nr) && negb (is_exit_syscall nr)
      then Some (life_put ls id (life_set (Live None false) l))
      else None
  | _ => None
  end.

(** The exit call a normal termination must resolve; a signal resolves none. *)
Definition exit_call (termination : LinuxWaitTerminationV1)
    (resolved : option TracerTaskNoReturnKindV1) : option (option Z) :=
  match termination, resolved with
  | Exited _, Some NoReturnExit => Some (Some TRACER_TASK_EXIT_NR_X86_64_V1)
  | Exited _, Some NoReturnExitGroup => Some (Some TRACER_TASK_EXIT_GROUP_NR_X86_64_V1)
  | Signaled _ _, None => Some None
  | _, _ => None
  end.

Definition life_exit (ls : list lifetime) (id : LogicalTaskId)
    (termination : LinuxWaitTerminationV1) (resolved : option TracerTaskNoReturnKindV1) :
    option (list lifetime) :=
  l ← life_at ls id;
  match life_now l with
  | Live nr false =>
      if termination_valid termination
         && bool_decide (exit_call termination resolved = Some nr)
      then Some (life_put ls id (life_set (Dying termination) l))
      else None
  | _ => None
  end.

Definition life_reap (ls : list lifetime) (id : LogicalTaskId)
    (termination : LinuxWaitTerminationV1) : option (list lifetime) :=
  l ← life_at ls id;
  match life_now l with
  | Dying observed =>
      if bool_decide (observed = termination)
      then Some (life_put ls id (life_set (Gone termination) l))
      else None
  | _ => None
  end.

Definition life_step (ls : list lifetime) (event : NormalizedTracerTaskEventV1) :
    option (list lifetime) :=
  match event with
  | Birth _ id parent group kind => life_birth ls id parent group kind
  | Exec _ id nr => life_exec ls id nr
  | SeccompEntry _ id nr => life_enter ls id nr
  | SyscallExit _ id nr => life_leave ls id nr
  | PtraceExitEvent _ id termination resolved => life_exit ls id termination resolved
  | TerminalReap _ id termination => life_reap ls id termination
  end.

(** An accepted observation that emits nothing leaves the lifetimes alone. *)
Definition life_step_opt (ls : list lifetime) (event : option NormalizedTracerTaskEventV1) :
    option (list lifetime) :=
  match event with Some event => life_step ls event | None => Some ls end.

Definition replay_from (ls : list lifetime) (log : list NormalizedTracerTaskEventV1) :
    option (list lifetime) :=
  foldl (λ acc event, acc ≫= λ ls, life_step ls event) (Some ls) log.

(** The monitor run over a whole stream. *)
Definition replay : list NormalizedTracerTaskEventV1 → option (list lifetime) :=
  replay_from [].

(** ** The abstraction of a recorder *)

Definition abs_status (t : TaskSlotV1) : life_status :=
  match phase t with
  | Unused | Running => Live (pending_syscall t) (child_ready_seen_for_pending t)
  | ExitObserved => Dying (default (Exited 0) (slot_termination t))
  | Reaped => Gone (default (Exited 0) (slot_termination t))
  end.

Definition abs_task (t : TaskSlotV1) : lifetime :=
  {| life_group := thread_group_logical_task_id t; life_execed := exec_seen_ever t;
     life_now := abs_status t |}.

Definition abs (r : TracerTaskStateRecorderV1) : list lifetime :=
  abs_task <$> take (slots_used r) (tasks r).

(** ** Facts of the monitor *)

Lemma replay_from_snoc ls log event :
  replay_from ls (log ++ [event]) = replay_from ls log ≫= λ ls, life_step ls event.
Proof. unfold replay_from. by rewrite foldl_snoc. Qed.

Lemma life_at_Some ls i l :
  life_at ls (Z.of_nat i + 1) = Some l ↔ ls !! i = Some l.
Proof.
  unfold life_at. rewrite (proj2 (Z.leb_le _ _)) by lia.
  by replace (Z.to_nat (Z.of_nat i + 1 - 1)) with i by lia.
Qed.

Lemma life_put_index ls i l : life_put ls (Z.of_nat i + 1) l = <[i := l]> ls.
Proof. unfold life_put. f_equal. lia. Qed.

(** ** Accounting of a stream

    The monitor keeps the books of the events it accepted. *)

Definition is_birth (e : NormalizedTracerTaskEventV1) : bool :=
  match e with Birth _ _ _ _ _ => true | _ => false end.
Definition is_exec (e : NormalizedTracerTaskEventV1) : bool :=
  match e with Exec _ _ _ => true | _ => false end.
Definition is_entry (e : NormalizedTracerTaskEventV1) : bool :=
  match e with SeccompEntry _ _ _ => true | _ => false end.
Definition is_return (e : NormalizedTracerTaskEventV1) : bool :=
  match e with SyscallExit _ _ _ => true | _ => false end.
Definition is_exit (e : NormalizedTracerTaskEventV1) : bool :=
  match e with PtraceExitEvent _ _ _ _ => true | _ => false end.
Definition is_resolution (e : NormalizedTracerTaskEventV1) : bool :=
  match e with PtraceExitEvent _ _ _ (Some _) => true | _ => false end.
Definition is_reap (e : NormalizedTracerTaskEventV1) : bool :=
  match e with TerminalReap _ _ _ => true | _ => false end.

Definition is_dead (l : lifetime) : bool :=
  match life_now l with Live _ _ => false | _ => true end.
Definition is_open (l : lifetime) : bool :=
  match life_now l with Live (Some _) _ => true | _ => false end.

Record balanced (log : list NormalizedTracerTaskEventV1) (ls : list lifetime) : Prop := {
  balanced_births : count is_birth log = length ls;
  balanced_execs : count is_exec log = count life_execed ls;
  balanced_calls : count is_entry log
    = (count is_return log + count is_resolution log + count is_open ls)%nat;
  balanced_exits : count is_exit log = count is_dead ls;
  balanced_reaps : count is_reap log = count is_gone ls;
}.

Lemma life_at_inv ls id l : life_at ls id = Some l → ls !! Z.to_nat (id - 1) = Some l.
Proof. unfold life_at. by case_match. Qed.

Lemma count_life_put p ls id l l' :
  life_at ls id = Some l →
  (count p (life_put ls id l') + Nat.b2n (p l) = count p ls + Nat.b2n (p l'))%nat.
Proof. intros H%life_at_inv. by apply count_insert. Qed.

Lemma count_snoc {A} (p : A → bool) l x : count p (l ++ [x]) = (count p l + Nat.b2n (p x))%nat.
Proof. rewrite count_app. simpl. destruct (p x); simpl; lia. Qed.

(** One event moves one lifetime by one state. *)
Lemma balanced_put log ls id l l' e :
  balanced log ls → life_at ls id = Some l → is_birth e = false →
  (Nat.b2n (is_exec e) + Nat.b2n (life_execed l) = Nat.b2n (life_execed l'))%nat →
  (Nat.b2n (is_entry e) + Nat.b2n (is_open l)
   = Nat.b2n (is_return e) + Nat.b2n (is_resolution e) + Nat.b2n (is_open l'))%nat →
  (Nat.b2n (is_exit e) + Nat.b2n (is_dead l) = Nat.b2n (is_dead l'))%nat →
  (Nat.b2n (is_reap e) + Nat.b2n (is_gone l) = Nat.b2n (is_gone l'))%nat →
  balanced (log ++ [e]) (life_put ls id l').
Proof.
  intros [Hb Hx Hc He Hr] Hat Hbirth Hexec Hcall Hexit Hreap.
  pose proof (count_life_put life_execed ls id l l' Hat).
  pose proof (count_life_put is_open ls id l l' Hat).
  pose proof (count_life_put is_dead ls id l l' Hat).
  pose proof (count_life_put is_gone ls id l l' Hat).
  split; rewrite !count_snoc; try lia. unfold life_put. rewrite length_insert, Hbirth. simpl. lia.
Qed.

Lemma balanced_birth log ls e group :
  balanced log ls → is_birth e = true → balanced (log ++ [e]) (ls ++ [life_fresh group]).
Proof.
  intros [Hb Hx Hc He Hr] Hbirth. destruct e; try done.
  split; rewrite ?length_app, !count_snoc; simpl; lia.
Qed.

(** The parent's side of a birth changes nothing that is counted. *)
Lemma balanced_parent log ls p l nr :
  balanced log ls → life_at ls p = Some l → life_now l = Live nr false →
  balanced log (life_put ls p (life_set (Live nr true) l)).
Proof.
  intros [Hb Hx Hc He Hr] Hat%life_at_inv Hl. unfold life_put.
  split; rewrite ?length_insert, ?(count_insert_same _ _ _ l); try done;
    unfold is_open, is_dead, is_gone; by rewrite Hl.
Qed.

Lemma option_bind_Some {A B} (m : option A) (f : A → option B) b :
  m ≫= f = Some b → ∃ a, m = Some a ∧ f a = Some b.
Proof. destruct m; naive_solver. Qed.

Lemma balanced_step log ls e ls' :
  balanced log ls → life_step ls e = Some ls' → balanced (log ++ [e]) ls'.
Proof.
  intros Hbal Hstep. destruct e; simpl in Hstep.
  1: { unfold life_birth in Hstep. case_match eqn:Hid; [done|]. bool_to_prop.
       destruct parent_logical_task_id as [p|], (child_kind kind) as [k|]; try done.
       - apply option_bind_Some in Hstep as (l & Hat & Hstep).
         destruct (life_now l) as [nr [|]| |] eqn:Hl; try done. case_match; [|done].
         injection Hstep as <-. apply balanced_birth; [|done]. by apply balanced_parent.
       - case_match; [|done]. bool_to_prop. injection Hstep as <-.
         destruct ls; [|simpl in *; lia]. by apply (balanced_birth log []). }
  all: apply option_bind_Some in Hstep as (l & Hat & Hstep).
  all: destruct (life_now l) as [[nr|] [|]|seen|seen] eqn:Hl; try done.
  all: try (case_match; [|done]; bool_to_prop).
  all: injection Hstep as <-; apply (balanced_put log ls logical_task_id l); try done.
  all: unfold is_open, is_dead, is_gone; rewrite ?Hl; try done.
  1-2: by rewrite H1.
  all: destruct termination, resolved_no_return as [[]|]; done.
Qed.

Lemma balanced_replay log ls : replay log = Some ls → balanced log ls.
Proof.
  revert ls. induction log as [|e log IH] using rev_ind; intros ls Hreplay.
  - by injection Hreplay as <-.
  - unfold replay in *. rewrite replay_from_snoc in Hreplay.
    apply option_bind_Some in Hreplay as (mid & Hmid & Hstep). by eapply balanced_step; [apply IH|].
Qed.
