(* ===== verification/TaskInvariant.v ===== *)
(** * Invariant of the task lifecycle recorder

    The well-formedness of a recorder that has not been poisoned, how each kind
    of slot and correlation update keeps it, and the counters it determines. The
    handlers are shown to keep it in [TaskHandlers]. *)

From S2P Require Import Prelude Monad WaitStatus TaskState Lifecycle.

(** ** The invariant *)

Definition is_announced (p : PendingChildCorrelationV1) : bool :=
  match announcement p with Some _ => true | None => false end.
Definition is_occupied (p : PendingChildCorrelationV1) : bool :=
  negb (pending_raw_tid p =? 0).
Definition has_pending_syscall (t : TaskSlotV1) : bool :=
  match pending_syscall t with Some _ => true | None => false end.
Definition is_exited (t : TaskSlotV1) : bool :=
  match phase t with ExitObserved | Reaped => true | _ => false end.
Definition is_reaped (t : TaskSlotV1) : bool :=
  match phase t with Reaped => true | _ => false end.

(** A parent whose announced child has not reached its initial stop. *)
Definition awaits_child (t : TaskSlotV1) : Prop :=
  pending_child_raw_tid t ≠ 0 ∧ child_ready_seen_for_pending t = false.

Definition recorded_termination (t : TaskSlotV1) : Prop :=
  ∃ termination, slot_termination t = Some termination ∧ termination_valid termination = true.

(** The slot at index [i] of the used prefix. *)
Record slot_wf (i : nat) (t : TaskSlotV1) : Prop := {
  slot_id : logical_task_id t = Z.of_nat i + 1;
  slot_group : 1 <= thread_group_logical_task_id t <= Z.of_nat i + 1;
  slot_phase : match phase t with
    | Unused => False
    | Running => 0 < raw_tid t ∧ slot_termination t = None
    | ExitObserved => 0 < raw_tid t ∧ pending_syscall t = None ∧ recorded_termination t
    | Reaped => raw_tid t = 0 ∧ pending_syscall t = None ∧ recorded_termination t
    end;
  slot_idle : pending_syscall t = None →
    child_ready_seen_for_pending t = false ∧ pending_child_raw_tid t = 0
    ∧ exec_event_seen_for_pending t = false;
  slot_child : pending_child_raw_tid t ≠ 0 →
    0 < pending_child_raw_tid t
    ∧ ∃ nr, pending_syscall t = Some nr ∧ is_creation_syscall nr = true;
  slot_ready : child_ready_seen_for_pending t = true → pending_child_raw_tid t ≠ 0;
  slot_exec : exec_event_seen_for_pending t = true →
    exec_seen_ever t = true ∧ ∃ nr, pending_syscall t = Some nr ∧ is_exec_syscall nr = true;
}.

(** The parent an announcement refers to is still waiting for that child. *)
Definition announcement_wf (slots : list TaskSlotV1) (tid : Z)
    (ann : PendingChildAnnouncementV1) : Prop :=
  ∃ parent, slots !! parent_index ann = Some parent
    ∧ phase parent = Running ∧ pending_child_raw_tid parent = tid
    ∧ child_ready_seen_for_pending parent = false
    ∧ creation_syscall_permits (pending_syscall parent) (announced_kind ann) = true
    ∧ (announced_kind ann ≠ ChildClone → announced_group_relation ann = NewThreadGroup).

Definition pending_wf (slots : list TaskSlotV1) (p : PendingChildCorrelationV1) : Prop :=
  p = PendingChildCorrelationV1_EMPTY
  ∨ (0 < pending_raw_tid p
     ∧ (∀ i t, slots !! i = Some t → raw_tid t ≠ pending_raw_tid p)
     ∧ ∀ ann, announcement p = Some ann → announcement_wf slots (pending_raw_tid p) ann).

Record shape_wf (slots : list TaskSlotV1) (pending : list PendingChildCorrelationV1)
    (used : nat) : Prop := {
  shape_tasks : length slots = TRACER_TASK_MAX_TASKS_V1;
  shape_pendings : length pending = TRACER_TASK_MAX_TASKS_V1;
  shape_slot : ∀ i t, slots !! i = Some t → (i < used)%nat → slot_wf i t;
  shape_unused : ∀ i t, slots !! i = Some t → (used ≤ i)%nat → t = TaskSlotV1_EMPTY;
  shape_tid : ∀ i j t u, slots !! i = Some t → slots !! j = Some u →
    raw_tid t ≠ 0 → raw_tid t = raw_tid u → i = j;
  shape_pending : ∀ k p, pending !! k = Some p → pending_wf slots p;
  shape_pending_tid : ∀ j k p q, pending !! j = Some p → pending !! k = Some q →
    pending_raw_tid p ≠ 0 → pending_raw_tid p = pending_raw_tid q → j = k;
  shape_awaits : ∀ i t, slots !! i = Some t → awaits_child t →
    ∃ k p ann, pending !! k = Some p ∧ pending_raw_tid p = pending_child_raw_tid t
      ∧ announcement p = Some ann ∧ parent_index ann = i;
  shape_capacity : (used + count is_occupied pending ≤ TRACER_TASK_MAX_TASKS_V1)%nat;
}.

Record counts_wf (slots : list TaskSlotV1) (pending : list PendingChildCorrelationV1)
    (used : nat) (c : TracerTaskCountersV1) : Prop := {
  counts_accepted : accepted_transition_count c
    = initial_birth_count c + child_announcement_count c + child_ready_count c
      + exec_count c + seccomp_entry_count c + syscall_exit_count c
      + ptrace_exit_event_count c + terminal_reap_count c;
  counts_initial : initial_birth_count c = Z.of_nat (Nat.min 1 used);
  counts_births : 0 <= fork_birth_count c ∧ 0 <= vfork_birth_count c
    ∧ 0 <= clone_birth_count c
    ∧ fork_birth_count c + vfork_birth_count c + clone_birth_count c
      = Z.of_nat (used - 1);
  counts_announced : child_announcement_count c
    = Z.of_nat (used - 1) + Z.of_nat (count is_announced pending);
  counts_ready : child_ready_count c
    = Z.of_nat (used - 1) + Z.of_nat (count ready_seen pending);
  counts_exec : exec_count c = Z.of_nat (count exec_seen_ever slots);
  counts_entries : seccomp_entry_count c
    = syscall_exit_count c + no_return_resolution_count c
      + Z.of_nat (count has_pending_syscall slots);
  counts_exits : 0 <= syscall_exit_count c;
  counts_no_return : 0 <= no_return_resolution_count c <= ptrace_exit_event_count c;
  counts_ptrace_exit : ptrace_exit_event_count c = Z.of_nat (count is_exited slots);
  counts_reap : terminal_reap_count c = Z.of_nat (count is_reaped slots);
}.

(** The recorder with the counters a handler is about to store. *)
Record core_wf (r : TracerTaskStateRecorderV1) (c : TracerTaskCountersV1) : Prop := {
  core_shape : shape_wf (tasks r) (pending_children r) (slots_used r);
  core_counts : counts_wf (tasks r) (pending_children r) (slots_used r) c;
  core_next_id : next_logical_task_id r = Z.of_nat (slots_used r) + 1;
}.

(** Between observations a correlation has exactly one of its two halves. *)
Definition settled (r : TracerTaskStateRecorderV1) : Prop :=
  ∀ k p, pending_children r !! k = Some p → is_occupied p = true →
    ready_seen p = negb (is_announced p).

Record recorder_wf (r : TracerTaskStateRecorderV1) : Prop := {
  wf_core : core_wf r (counters r);
  wf_settled : settled r;
  wf_sequence : next_transport_sequence r = accepted_transition_count (counters r) + 1;
  wf_sequence_range : next_transport_sequence r <= U64_MAX;
  wf_start : slots_used r = 0%nat → accepted_transition_count (counters r) = 0;
}.

(** A poisoned recorder answers every call with its first reason, so only a
    healthy one has to be well formed. *)
Definition recorder_inv (r : TracerTaskStateRecorderV1) : Prop :=
  poisoned r = None → recorder_wf r.

(** ** The initial recorder *)

Lemma lookup_replicate_eq {A} n (x y : A) i : replicate n x !! i = Some y → y = x.
Proof. intros [-> _]%lookup_replicate_1. done. Qed.

Lemma new_wf : recorder_wf new.
Proof.
  split; [split|intros k p Hp%lookup_replicate_eq; by subst p|done..]; [| |done].
  - split; cbn [new tasks pending_children slots_used]; rewrite ?length_replicate; try done.
    + lia.
    + intros i t Ht _. by apply lookup_replicate_eq in Ht.
    + intros i j t u Ht%lookup_replicate_eq _ H. by subst t.
    + intros k p Hp%lookup_replicate_eq. by left.
    + intros j k p q Hp%lookup_replicate_eq _ H. by subst p.
    + intros i t Ht%lookup_replicate_eq [H _]. by subst t.
    + rewrite count_replicate_false by done. lia.
  - split; cbn; rewrite ?count_replicate_false; done.
Qed.

(** ** Updates that preserve the shape *)

(** Cases on a lookup in an updated list: the new element or an old one. *)
Ltac lookup_cases H :=
  apply list_lookup_insert_Some in H as [(<- & <- & _) | [? H]].

Definition same_wait (t t' : TaskSlotV1) : Prop :=
  phase t' = phase t ∧ pending_syscall t' = pending_syscall t
  ∧ pending_child_raw_tid t' = pending_child_raw_tid t
  ∧ child_ready_seen_for_pending t' = child_ready_seen_for_pending t.

(** An announcement survives an update of a slot that was not awaiting it. *)
Lemma announcement_wf_update slots tid ann i t t' :
  0 < tid → slots !! i = Some t → (pending_child_raw_tid t ≠ tid ∨ ¬ awaits_child t ∨ same_wait t t') →
  announcement_wf slots tid ann → announcement_wf (<[i := t']> slots) tid ann.
Proof.
  intros Htid Hi Hsafe (parent & Hp & Hphase & Hchild & Hready & Hpermit & Hgroup).
  destruct (decide (parent_index ann = i)) as [<-|Hne].
  - simplify_eq. destruct Hsafe as [?|[Hno|(E1 & E2 & E3 & E4)]].
    + done.
    + destruct Hno. split; [lia|done].
    + exists t'. rewrite list_lookup_insert_eq by eauto with tracer.
      rewrite E1, E2, E3, E4. done.
  - exists parent. rewrite list_lookup_insert_ne by done. done.
Qed.

Lemma occupied_pos p : 0 < pending_raw_tid p → is_occupied p = true.
Proof. intros. apply negb_true_iff, Z.eqb_neq. lia. Qed.

Section Shape.
Context {slots : list TaskSlotV1} {pending : list PendingChildCorrelationV1} {used : nat}.
Hypothesis Hshape : shape_wf slots pending used.

Lemma shape_used_le : (used ≤ TRACER_TASK_MAX_TASKS_V1)%nat.
Proof. pose proof (shape_capacity _ _ _ Hshape). lia. Qed.

(** A slot keeps or loses its TID, so a TID nobody owned stays free. *)
Lemma shape_update_slot i t t' :
  slots !! i = Some t → (i < used)%nat → slot_wf i t' →
  (raw_tid t' = raw_tid t ∨ raw_tid t' = 0) →
  (¬ awaits_child t ∧ ¬ awaits_child t' ∨ same_wait t t') →
  shape_wf (<[i := t']> slots) pending used.
Proof.
  intros Hi Hlt Hwf Htid Hwait. destruct Hshape as [H1 H2 H3 H4 H5 H6 H7 H8 H9].
  split; try done.
  - by rewrite length_insert.
  - intros j u Hj ?. lookup_cases Hj; [done|by apply H3].
  - intros j u Hj ?. lookup_cases Hj; [lia|by eapply H4].
  - intros j k u v Hj Hk Hnz Heq. lookup_cases Hj; lookup_cases Hk; [done|..].
    + destruct Htid as [E|E]; [|congruence]. eapply H5; [exact Hi|exact Hk|congruence..].
    + destruct Htid as [E|E]; [|congruence]. eapply H5; [exact Hj|exact Hi|congruence..].
    + by eapply H5.
  - intros k p Hk. destruct (H6 k p Hk) as [->|(Hpos & Hfree & Hann)]; [by left|right].
    split; [done|split].
    + intros j u Hj. lookup_cases Hj; [|by eapply Hfree].
      specialize (Hfree _ _ Hi). destruct Htid; lia.
    + intros ann E. eapply announcement_wf_update; [done|done| |by apply Hann].
      right. destruct Hwait as [[? _]|?]; auto.
  - intros j u Hj Hawait. lookup_cases Hj; [|by apply H8].
    destruct Hwait as [[_ ?]|(_ & _ & E3 & E4)]; [done|].
    rewrite E3. apply (H8 i t Hi). unfold awaits_child. by rewrite <- E3, <- E4.
Qed.

(** Writing one correlation: its TID is positive and owned by no slot. *)
Lemma shape_insert_pending k tid :
  pending !! k = Some PendingChildCorrelationV1_EMPTY → 0 < tid →
  (∀ i t, slots !! i = Some t → raw_tid t ≠ tid) →
  (∀ j p, pending !! j = Some p → pending_raw_tid p ≠ tid) →
  (used + count is_occupied pending < TRACER_TASK_MAX_TASKS_V1)%nat →
  shape_wf slots (<[k := {| pending_raw_tid := tid; announcement := None;
                            ready_seen := false |}]> pending) used.
Proof.
  intros Hk Hpos Hfree Hnew Hroom. destruct Hshape as [H1 H2 H3 H4 H5 H6 H7 H8 H9].
  split; try done.
  - by rewrite length_insert.
  - intros j p Hj. lookup_cases Hj; [|by eapply H6]. right. done.
  - intros i j p q Hp Hq Hnz Heq. lookup_cases Hp; lookup_cases Hq; simplify_eq/=; try done.
    + by destruct (Hnew _ _ Hq).
    + by destruct (Hnew _ _ Hp).
    + by eapply H7.
  - intros i t Hi Hawait. destruct (H8 i t Hi Hawait) as (j & p & ann & Hj & Htid & Hann & ?).
    exists j, p, ann. rewrite list_lookup_insert_ne; [done|]. intros ->. by simplify_eq.
  - pose proof (count_insert is_occupied pending k _
      {| pending_raw_tid := tid; announcement := None; ready_seen := false |} Hk) as E.
    rewrite (occupied_pos {| pending_raw_tid := tid |}) in E by done.
    change (is_occupied PendingChildCorrelationV1_EMPTY) with false in E. cbv iota in E. lia.
Qed.

(** The ready half of a correlation. *)
Lemma shape_set_ready k p :
  pending !! k = Some p → is_occupied p = true →
  shape_wf slots (<[k := {| pending_raw_tid := pending_raw_tid p;
                            announcement := announcement p; ready_seen := true |}]> pending) used.
Proof.
  intros Hk Hocc. destruct Hshape as [H1 H2 H3 H4 H5 H6 H7 H8 H9].
  split; try done.
  - by rewrite length_insert.
  - intros j q Hj. lookup_cases Hj; [|by eapply H6].
    destruct (H6 _ _ Hk) as [->|?]; [done|by right].
  - intros i j q q' Hq Hq' Hnz Heq. lookup_cases Hq; lookup_cases Hq'; simplify_eq/=; try done.
    + by eapply H7.
    + by eapply H7.
    + by eapply H7.
  - intros i t Hi Hawait. destruct (H8 i t Hi Hawait) as (j & q & ann & Hj & Htid & Hann & ?).
    destruct (decide (j = k)) as [->|].
    + simplify_eq. eexists k, _, ann.
      rewrite list_lookup_insert_eq by eauto with tracer. done.
    + exists j, q, ann. by rewrite list_lookup_insert_ne.
  - rewrite (count_insert_same _ _ _ p); done.
Qed.

(** The announcement half of a correlation, and the parent's side of it. *)
Lemma shape_announce k p i t ann :
  pending !! k = Some p → is_occupied p = true → announcement p = None →
  slots !! i = Some t → parent_index ann = i → phase t = Running →
  pending_child_raw_tid t = 0 → child_ready_seen_for_pending t = false →
  creation_syscall_permits (pending_syscall t) (announced_kind ann) = true →
  (announced_kind ann ≠ ChildClone → announced_group_relation ann = NewThreadGroup) →
  slot_wf i (set_pending_child (pending_raw_tid p) t) →
  (i < used)%nat →
  shape_wf (<[i := set_pending_child (pending_raw_tid p) t]> slots)
    (<[k := {| pending_raw_tid := pending_raw_tid p; announcement := Some ann;
               ready_seen := ready_seen p |}]> pending) used.
Proof.
  intros Hk Hocc Hnone Hi Hpi Hrun Hzero Hready Hpermit Hgroup Hwf Hlt.
  destruct Hshape as [H1 H2 H3 H4 H5 H6 H7 H8 H9].
  assert (is_Some (slots !! i)) as Hin%lookup_lt_is_Some by eauto.
  split; rewrite ?length_insert; try done.
  - intros j u Hj ?. lookup_cases Hj; [done|by apply H3].
  - intros j u Hj ?. lookup_cases Hj; [lia|by eapply H4].
  - intros j j' u v Hj Hk' Hnz Heq. lookup_cases Hj; lookup_cases Hk'; simplify_eq/=; [done|..].
    + by eapply H5.
    + by eapply H5.
    + by eapply H5.
  - intros j q Hj. lookup_cases Hj.
    + right. destruct (H6 _ _ Hk) as [->|(Hpos & Hfree & _)]; [done|]. split; [done|split].
      * intros j u Hj. lookup_cases Hj; [by apply (Hfree _ _ Hi)|by eapply Hfree].
      * intros ? [= <-]. exists (set_pending_child (pending_raw_tid p) t).
        rewrite Hpi, list_lookup_insert_eq by done. done.
    + destruct (H6 _ _ Hj) as [->|(Hpos & Hfree & Hann)]; [by left|right].
      split; [done|split].
      * intros j' u Hj'. lookup_cases Hj'; [by apply (Hfree _ _ Hi)|by eapply Hfree].
      * intros ann' E. eapply announcement_wf_update; [done|done| |by apply Hann].
        left. lia.
  - intros j j' q q' Hq Hq' Hnz Heq. lookup_cases Hq; lookup_cases Hq'; simplify_eq/=; try done.
    + by eapply H7.
    + by eapply H7.
    + by eapply H7.
  - intros j u Hj Hawait. lookup_cases Hj.
    + eexists k, _, ann. rewrite list_lookup_insert_eq by eauto with tracer.
      done.
    + destruct (H8 j u Hj Hawait) as (k' & q & ann' & Hk' & Htid & Hann & ?).
      exists k', q, ann'. rewrite list_lookup_insert_ne; [done|]. intros ->. by simplify_eq.
  - rewrite (count_insert_same _ _ _ p); done.
Qed.

(** After a birth every slot is the parent, the child or an old one. *)
Lemma birth_slot_cases i new t' j u :
  <[i := t']> (<[used := new]> slots) !! j = Some u →
  (j = i ∧ u = t') ∨ (j = used ∧ u = new) ∨ (j ≠ i ∧ j ≠ used ∧ slots !! j = Some u).
Proof. intros Hj. lookup_cases Hj; [auto|]. lookup_cases Hj; auto. Qed.

(** The correlation of another child survives the birth. *)
Lemma birth_pending_wf k p i t j q new :
  pending !! k = Some p → slots !! i = Some t → pending_child_raw_tid t = pending_raw_tid p →
  raw_tid new = pending_raw_tid p → pending !! j = Some q → j ≠ k →
  pending_wf (<[i := set_child_ready_seen t]> (<[used := new]> slots)) q.
Proof.
  intros Hk Hi Hchild Hraw Hj Hjk.
  destruct (shape_pending _ _ _ Hshape _ _ Hj) as [->|(Hqpos & Hqfree & Hqann)]; [by left|right].
  assert (pending_raw_tid q ≠ pending_raw_tid p) as Hne.
  { intros E. apply Hjk. eapply (shape_pending_tid _ _ _ Hshape); [done..|lia|done]. }
  split; [done|split].
  - intros j' u Hj'. apply birth_slot_cases in Hj' as [[-> ->]|[[-> ->]|(? & ? & Hu)]].
    + by apply (Hqfree _ _ Hi).
    + congruence.
    + by eapply Hqfree.
  - intros ann' E. destruct (Hqann ann' E) as (parent & Hp & Hrest).
    assert (parent_index ann' ≠ i).
    { intros E'. rewrite E' in Hp. simplify_eq. destruct Hrest as (_ & E2 & _). congruence. }
    assert (parent_index ann' ≠ used).
    { intros E'. rewrite E' in Hp.
      rewrite (shape_unused _ _ _ Hshape _ _ Hp) in Hrest by lia. by destruct Hrest as (? & _). }
    exists parent. by rewrite !list_lookup_insert_ne by done.
Qed.

(** The birth that completes a correlation: a new slot takes over its TID. *)
Lemma shape_birth k p i t ann new :
  pending !! k = Some p → is_occupied p = true → announcement p = Some ann →
  slots !! i = Some t → parent_index ann = i → (i < used)%nat →
  slot_wf used new → raw_tid new = pending_raw_tid p → pending_syscall new = None →
  slot_wf i (set_child_ready_seen t) → pending_child_raw_tid t = pending_raw_tid p →
  shape_wf (<[i := set_child_ready_seen t]> (<[used := new]> slots))
    (<[k := PendingChildCorrelationV1_EMPTY]> pending) (S used).
Proof.
  intros Hk Hocc Hann Hi Hpi Hlt Hnew Hraw Hidle Hwf Hchild.
  destruct Hshape as [H1 H2 H3 H4 H5 H6 H7 H8 H9].
  pose proof (lookup_lt_Some _ _ _ Hk) as Hkl. pose proof (lookup_lt_Some _ _ _ Hi) as Hil.
  destruct (H6 _ _ Hk) as [->|(Hpos & Hfree & _)]; [done|].
  pose proof (count_insert is_occupied pending k p PendingChildCorrelationV1_EMPTY Hk) as Hcnt.
  rewrite Hocc in Hcnt; simpl in Hcnt.
  assert (¬ awaits_child new) as Hnowait.
  { intros [Hnz _]. destruct (slot_idle _ _ Hnew Hidle) as (_ & ? & _). done. }
  split; rewrite ?length_insert; try done.
  - intros j u Hj ?. destruct (birth_slot_cases _ _ _ _ _ Hj) as [[-> ->]|[[-> ->]|(? & ? & ?)]]; try done.
    apply H3; [done|lia].
  - intros j u Hj ?. destruct (birth_slot_cases _ _ _ _ _ Hj) as [[-> ->]|[[-> ->]|(? & ? & ?)]]; try lia.
    eapply H4; [done|lia].
  - intros j j' u v Hj Hj' Hnz Heq.
    destruct (birth_slot_cases _ _ _ _ _ Hj) as [[-> ->]|[[-> ->]|(? & ? & Hu)]],
      (birth_slot_cases _ _ _ _ _ Hj') as [[-> ->]|[[-> ->]|(? & ? & Hv)]]; simpl in *; try done.
    + destruct (Hfree _ _ Hi). congruence.
    + by eapply H5.
    + destruct (Hfree _ _ Hi). congruence.
    + destruct (Hfree _ _ Hv). congruence.
    + by eapply H5.
    + destruct (Hfree _ _ Hu). congruence.
    + by eapply H5.
  - intros j q Hj. lookup_cases Hj; [by left|]. exact (birth_pending_wf _ _ _ _ _ _ _ Hk Hi Hchild Hraw Hj ltac:(lia)).
  - intros j j' q q' Hq Hq' Hnz Heq. lookup_cases Hq; [done|]. lookup_cases Hq'.
    + by rewrite Heq in Hnz.
    + by eapply H7.
  - intros j u Hj Hawait. destruct (birth_slot_cases _ _ _ _ _ Hj) as [[-> ->]|[[-> ->]|(? & ? & Hu)]].
    + by destruct Hawait.
    + done.
    + destruct (H8 j u Hu Hawait) as (k' & q & ann' & Hk' & Htid & Hann' & ?).
      exists k', q, ann'. rewrite list_lookup_insert_ne; [done|]. intros ->. by simplify_eq.
  - lia.
Qed.
End Shape.

(** ** The counters *)

Definition one_if (k kind : CounterKindV1) : Z :=
  match k, kind with
  | CountInitialBirth, CountInitialBirth
  | CountChildAnnouncement, CountChildAnnouncement
  | CountChildReady, CountChildReady
  | CountExec, CountExec
  | CountSeccompEntry, CountSeccompEntry
  | CountSyscallExit, CountSyscallExit
  | CountPtraceExitEvent, CountPtraceExitEvent
  | CountTerminalReap, CountTerminalReap => 1
  | _, _ => 0
  end.

Definition one_if_birth (k kind : TracerTaskChildBirthKindV1) : Z :=
  match k, kind with
  | ChildFork, ChildFork | ChildVfork, ChildVfork | ChildClone, ChildClone => 1
  | _, _ => 0
  end.

(** What a successful checked increment computes. *)
Definition counters_inc (c : TracerTaskCountersV1) (kind : CounterKindV1) : TracerTaskCountersV1 :=
  {| accepted_transition_count := accepted_transition_count c + 1;
     initial_birth_count := initial_birth_count c + one_if CountInitialBirth kind;
     child_announcement_count := child_announcement_count c + one_if CountChildAnnouncement kind;
     child_ready_count := child_ready_count c + one_if CountChildReady kind;
     fork_birth_count := fork_birth_count c;
     vfork_birth_count := vfork_birth_count c;
     clone_birth_count := clone_birth_count c;
     exec_count := exec_count c + one_if CountExec kind;
     seccomp_entry_count := seccomp_entry_count c + one_if CountSeccompEntry kind;
     syscall_exit_count := syscall_exit_count c + one_if CountSyscallExit kind;
     no_return_resolution_count := no_return_resolution_count c;
     ptrace_exit_event_count := ptrace_exit_event_count c + one_if CountPtraceExitEvent kind;
     terminal_reap_count := terminal_reap_count c + one_if CountTerminalReap kind |}.

Definition counters_birth (c : TracerTaskCountersV1) (kind : TracerTaskChildBirthKindV1) :
    TracerTaskCountersV1 :=
  {| accepted_transition_count := accepted_transition_count c;
     initial_birth_count := initial_birth_count c;
     child_announcement_count := child_announcement_count c;
     child_ready_count := child_ready_count c;
     fork_birth_count := fork_birth_count c + one_if_birth ChildFork kind;
     vfork_birth_count := vfork_birth_count c + one_if_birth ChildVfork kind;
     clone_birth_count := clone_birth_count c + one_if_birth ChildClone kind;
     exec_count := exec_count c; seccomp_entry_count := seccomp_entry_count c;
     syscall_exit_count := syscall_exit_count c;
     no_return_resolution_count := no_return_resolution_count c;
     ptrace_exit_event_count := ptrace_exit_event_count c;
     terminal_reap_count := terminal_reap_count c |}.

Definition counters_no_return (c : TracerTaskCountersV1) : TracerTaskCountersV1 :=
  {| accepted_transition_count := accepted_transition_count c;
     initial_birth_count := initial_birth_count c;
     child_announcement_count := child_announcement_count c;
     child_ready_count := child_ready_count c;
     fork_birth_count := fork_birth_count c; vfork_birth_count := vfork_birth_count c;
     clone_birth_count := clone_birth_count c;
     exec_count := exec_count c; seccomp_entry_count := seccomp_entry_count c;
     syscall_exit_count := syscall_exit_count c;
     no_return_resolution_count := no_return_resolution_count c + 1;
     ptrace_exit_event_count := ptrace_exit_event_count c;
     terminal_reap_count := terminal_reap_count c |}.

Lemma bump_Ok z z' : bump z = Ok z' → z' = z + 1.
Proof.
  unfold bump, ok_or. destruct (u64_checked_add z 1) eqn:E; [|done].
  apply u64_checked_add_Some in E as [-> _]. by intros [= <-].
Qed.

Ltac invert_bumps :=
  repeat match goal with
  | H : _ ≫= _ = Ok _ |- _ =>
      apply result_bind_Ok in H as (? & ->%bump_Ok & H)
  end.

Lemma incremented_Ok c kind c' : incremented c kind = Ok c' → c' = counters_inc c kind.
Proof.
  destruct c, kind; unfold incremented, counters_inc; intros H;
    invert_bumps; simplify_eq; cbn; f_equal; lia.
Qed.

Lemma with_correlated_birth_Ok c kind c' :
  with_correlated_birth c kind = Ok c' → c' = counters_birth c kind.
Proof.
  destruct c, kind; unfold with_correlated_birth, counters_birth; intros H;
    invert_bumps; simplify_eq; cbn; f_equal; lia.
Qed.

Lemma with_no_return_resolution_Ok c c' :
  with_no_return_resolution c = Ok c' → c' = counters_no_return c.
Proof.
  destruct c; unfold with_no_return_resolution, counters_no_return; intros H;
    invert_bumps; simplify_eq; done.
Qed.
