(* ===== verification/TaskHandlers.v ===== *)
(** * The observation handlers of the recorder

    Every handler of [TaskState], run on a well-formed recorder, either rejects
    the observation or returns the counters and the event of one step of the
    abstract lifecycle of [Lifecycle]; none of them panics. The second part treats births. *)

From S2P Require Import Prelude Monad WaitStatus TaskState Lifecycle TaskInvariant.

(** ** Lookups *)

Lemma require_positive_tid_Ok tid u : require_positive_tid tid = Ok u → 0 < tid.
Proof. unfold require_positive_tid. by destruct (Z.ltb_spec 0 tid). Qed.

(** Steps over a fallible pure call, keeping what its success implies. *)
Ltac wp_bind_result H :=
  apply wp_bind, wp_lift_result; [intros ? ?%H | intros ? _].

Section Lookups.
Context {r : TracerTaskStateRecorderV1} {c : TracerTaskCountersV1}.
Hypothesis Hcore : core_wf r c.

Lemma find_live_task_Some tid i :
  find_live_task r tid = Some i →
  ∃ t, tasks r !! i = Some t ∧ (i < slots_used r)%nat ∧ slot_wf i t
    ∧ raw_tid t = tid ∧ phase t ≠ Reaped.
Proof.
  intros [(t & Hi & Howns) _]%position_Some. apply lookup_take_Some in Hi as [Hi Hlt].
  unfold owns_tid in Howns. bool_to_prop.
  exists t. split_and!; try done. by apply (shape_slot _ _ _ (core_shape _ _ Hcore)).
Qed.

Lemma find_live_task_None tid :
  0 < tid → find_live_task r tid = None → ∀ i t, tasks r !! i = Some t → raw_tid t ≠ tid.
Proof.
  intros Hpos Hnone i t Hi Htid. unfold find_live_task in Hnone.
  rewrite position_None in Hnone. pose proof (core_shape _ _ Hcore) as Hshape.
  destruct (decide (i < slots_used r)%nat) as [Hlt|Hge].
  - specialize (Hnone i t). rewrite lookup_take_lt in Hnone by done.
    specialize (Hnone Hi). unfold owns_tid in Hnone.
    pose proof (slot_phase _ _ (shape_slot _ _ _ Hshape i t Hi Hlt)) as Hp.
    rewrite Htid, Z.eqb_refl in Hnone. simpl in Hnone. bool_to_prop.
    rewrite Hnone in Hp. lia.
  - rewrite (shape_unused _ _ _ Hshape i t Hi) in Htid by lia. simpl in Htid. lia.
Qed.

Lemma wp_live_task_index tid (Q : nat → _ → Prop) (R : _ → _ → Prop) :
  (∀ i t, 0 < tid → tasks r !! i = Some t → (i < slots_used r)%nat → slot_wf i t →
     raw_tid t = tid → phase t ≠ Reaped → Q i r) →
  (∀ e, R e r) → wp (live_task_index tid) Q R r.
Proof.
  intros HQ HR. unfold live_task_index. wp_bind_result (require_positive_tid_Ok tid); [|done].
  wp_steps; [|done]. apply ok_or_Ok, find_live_task_Some in H0 as (t & ? & ? & ? & ? & ?).
  by eapply HQ.
Qed.

Lemma wp_task_at i t (Q : _ → _ → Prop) (R : _ → _ → Prop) :
  tasks r !! i = Some t → Q t r → wp (task_at i) Q R r.
Proof. intros. unfold task_at. wp_steps. by eapply wp_lift_index. Qed.

Lemma wp_running_task_index tid (Q : nat → _ → Prop) (R : _ → _ → Prop) :
  (∀ i t, 0 < tid → tasks r !! i = Some t → (i < slots_used r)%nat → slot_wf i t →
     raw_tid t = tid → phase t = Running → Q i r) →
  (∀ e, R e r) → wp (running_task_index tid) Q R r.
Proof.
  intros HQ HR. unfold running_task_index. apply wp_bind, wp_live_task_index; [|done].
  intros i t Hpos Hi Hlt Hwf Htid Hnr. apply wp_bind. eapply wp_task_at; [done|].
  wp_step; wp_steps; auto. by eapply HQ.
Qed.

Lemma wp_update_task i t f (Q : () → _ → Prop) (R : _ → _ → Prop) :
  tasks r !! i = Some t → Q () (with_tasks (<[i := f t]>) r) → wp (update_task i f) Q R r.
Proof. intros. unfold update_task. apply wp_bind. by eapply wp_task_at. Qed.

Lemma wp_pending_at k p (Q : _ → _ → Prop) (R : _ → _ → Prop) :
  pending_children r !! k = Some p → Q p r → wp (pending_at k) Q R r.
Proof. intros. unfold pending_at. wp_steps. by eapply wp_lift_index. Qed.

Lemma wp_write_pending k p q (Q : () → _ → Prop) (R : _ → _ → Prop) :
  pending_children r !! k = Some p →
  Q () (with_pending_children (<[k := q]>) r) → wp (write_pending k q) Q R r.
Proof. intros. unfold write_pending. apply wp_bind. by eapply wp_pending_at. Qed.
End Lookups.

(** ** What an accepted observation establishes *)

(** The fields no handler writes. *)
Definition frame (r r' : TracerTaskStateRecorderV1) : Prop :=
  poisoned r' = poisoned r ∧ counters r' = counters r
  ∧ next_transport_sequence r' = next_transport_sequence r.

Definition event_sequence (event : NormalizedTracerTaskEventV1) : Z :=
  match event with
  | Birth s _ _ _ _ | Exec s _ _ | SeccompEntry s _ _ | SyscallExit s _ _
  | PtraceExitEvent s _ _ _ | TerminalReap s _ _ => s
  end.

Record accepts (r : TracerTaskStateRecorderV1) (sequence : Z) (a : accepted)
    (r' : TracerTaskStateRecorderV1) : Prop := {
  accepts_core : core_wf r' a.2;
  accepts_settled : settled r';
  accepts_count : accepted_transition_count a.2 = accepted_transition_count (counters r) + 1;
  accepts_started : slots_used r' ≠ 0%nat;
  accepts_frame : frame r r';
  accepts_step : life_step_opt (abs r) a.1 = Some (abs r');
  accepts_sequence : ∀ event, a.1 = Some event → event_sequence event = sequence;
}.

(** ** Observations of one slot *)

Lemma abs_lookup r i t :
  tasks r !! i = Some t → (i < slots_used r)%nat → abs r !! i = Some (abs_task t).
Proof. intros Hi Hlt. unfold abs. by rewrite list_lookup_fmap, lookup_take_lt, Hi. Qed.

Lemma abs_running t :
  phase t = Running →
  abs_task t = {| life_group := thread_group_logical_task_id t;
                  life_execed := exec_seen_ever t;
                  life_now := Live (pending_syscall t) (child_ready_seen_for_pending t) |}.
Proof. intros Hrun. unfold abs_task, abs_status. by rewrite Hrun. Qed.

Lemma life_at_slot r i t id :
  tasks r !! i = Some t → (i < slots_used r)%nat → id = Z.of_nat i + 1 →
  life_at (abs r) id = Some (abs_task t).
Proof. intros Hi Hlt ->. by apply life_at_Some, abs_lookup. Qed.

Lemma abs_update r i t' :
  (i < slots_used r)%nat → abs (with_tasks (<[i := t']>) r) = <[i := abs_task t']> (abs r).
Proof. intros. unfold abs. cbn [with_tasks slots_used tasks].
  by rewrite take_insert_lt, list_fmap_insert. Qed.

(** The counters after an observation of slot [i] that turned [t] into [t']. *)
Lemma counts_update_slot slots pending used c kind (resolved : bool) i t t' :
  counts_wf slots pending used c → slots !! i = Some t → (i < used)%nat →
  one_if CountInitialBirth kind + one_if CountChildAnnouncement kind
    + one_if CountChildReady kind = 0 →
  Z.b2z (exec_seen_ever t') = Z.b2z (exec_seen_ever t) + one_if CountExec kind →
  Z.b2z (has_pending_syscall t') + one_if CountSyscallExit kind + Z.b2z resolved
    = Z.b2z (has_pending_syscall t) + one_if CountSeccompEntry kind →
  Z.b2z (is_exited t') = Z.b2z (is_exited t) + one_if CountPtraceExitEvent kind →
  Z.b2z (is_reaped t') = Z.b2z (is_reaped t) + one_if CountTerminalReap kind →
  Z.b2z resolved <= one_if CountPtraceExitEvent kind →
  counts_wf (<[i := t']> slots) pending used
    (if resolved then counters_no_return (counters_inc c kind) else counters_inc c kind).
Proof.
  intros [] Hi Hlt Hkind Hexec Hpend Hexit Hreap Hres.
  pose proof (count_insert_Z exec_seen_ever _ _ _ t' Hi).
  pose proof (count_insert_Z has_pending_syscall _ _ _ t' Hi).
  pose proof (count_insert_Z is_exited _ _ _ t' Hi).
  pose proof (count_insert_Z is_reaped _ _ _ t' Hi).
  destruct kind, resolved; cbn [one_if Z.b2z] in *; try lia;
    split; cbn [counters_inc counters_no_return one_if accepted_transition_count
      initial_birth_count child_announcement_count child_ready_count fork_birth_count
      vfork_birth_count clone_birth_count exec_count seccomp_entry_count syscall_exit_count
      no_return_resolution_count ptrace_exit_event_count terminal_reap_count]; lia.
Qed.

Lemma accepts_slot r sequence i t t' kind (resolved : bool) event :
  recorder_wf r → tasks r !! i = Some t → (i < slots_used r)%nat → slot_wf i t' →
  (raw_tid t' = raw_tid t ∨ raw_tid t' = 0) →
  (¬ awaits_child t ∧ ¬ awaits_child t' ∨ same_wait t t') →
  counts_wf (<[i := t']> (tasks r)) (pending_children r) (slots_used r)
    (if resolved then counters_no_return (counters_inc (counters r) kind)
     else counters_inc (counters r) kind) →
  life_step (abs r) event = Some (<[i := abs_task t']> (abs r)) →
  event_sequence event = sequence →
  accepts r sequence
    (Some event, if resolved then counters_no_return (counters_inc (counters r) kind)
                 else counters_inc (counters r) kind)
    (with_tasks (<[i := t']>) r).
Proof.
  intros [[Hshape Hcounts Hnext] Hsettled Hseq Hrange Hstart] Hi Hlt Hwf Htid Hwait Hc Hstep Hev.
  split; cbn [fst snd with_tasks slots_used].
  - split; [|done|done]. by apply (shape_update_slot Hshape i t).
  - done.
  - by destruct resolved.
  - lia.
  - done.
  - simpl. by rewrite Hstep, abs_update.
  - by intros ? [= <-].
Qed.

(** A slot that is not in a creation call waits for no child. *)
Lemma not_awaiting i t :
  slot_wf i t → (∀ nr, pending_syscall t = Some nr → is_creation_syscall nr = false) →
  pending_child_raw_tid t = 0.
Proof.
  intros Hwf Hno. destruct (Z.eq_dec (pending_child_raw_tid t) 0) as [|Hnz]; [done|].
  destruct (slot_child _ _ Hwf Hnz) as (_ & nr & Hnr & Hc). by rewrite (Hno nr Hnr) in Hc.
Qed.

Lemma cleared_not_awaiting t p : ¬ awaits_child (clear_pending t p).
Proof. by intros [? _]. Qed.

(** [accept_event] at the end of a handler. *)
Lemma wp_accept_event event kind (Q : _ → _ → Prop) (R : _ → _ → Prop) r :
  Q (Some event, counters_inc (counters r) kind) r → (∀ e, R e r) →
  wp (accept_event event kind) Q R r.
Proof.
  intros HQ HR. unfold accept_event. wp_steps; [|done]. by apply incremented_Ok in H as ->.
Qed.

(** Evaluates the counted predicates on a slot and its update. *)
Ltac indicators :=
  unfold has_pending_syscall, is_exited, is_reaped; cbn;
  repeat match goal with
  | H : phase ?t = _ |- context [phase ?t] => rewrite H
  | H : pending_syscall ?t = _ |- context [pending_syscall ?t] => rewrite H
  | H : exec_seen_ever ?t = _ |- context [exec_seen_ever ?t] => rewrite H
  end; cbn; lia.

Section SlotHandlers.
Context {r : TracerTaskStateRecorderV1}.
Hypothesis Hwf : recorder_wf r.
Let Hcore := wf_core _ Hwf.

Lemma observe_seccomp_entry_spec sequence tid nr :
  wp (observe_seccomp_entry sequence tid nr) (accepts r sequence) (λ _, frame r) r.
Proof.
  unfold observe_seccomp_entry. apply wp_bind, (wp_running_task_index Hcore); [|done].
  intros i t Hpos Hi Hlt Hslot Htid Hrun. apply wp_bind. eapply wp_task_at; [done|].
  wp_step; [by wp_steps|]. apply eq_None_not_Some in Heqb.
  apply wp_bind. eapply wp_update_task; [done|]. apply wp_accept_event; [|done].
  destruct (slot_idle _ _ Hslot Heqb) as (Hr & Hz & He). destruct Hslot as [Hid Hgrp Hph _ _ _ _].
  rewrite Hrun in Hph.
  apply (accepts_slot r sequence i t _ CountSeccompEntry false); try done.
  - split; cbn; rewrite ?Hrun; naive_solver.
  - by left.
  - left. split; [by intros []|apply cleared_not_awaiting].
  - eapply (counts_update_slot _ _ _ _ CountSeccompEntry false); try done.
    all: try apply Hcore; indicators.
  - cbn. unfold life_enter. rewrite (life_at_slot r i t) by done.
    rewrite !abs_running by done. cbn. by rewrite Hid, life_put_index, Heqb, Hr.
Qed.

(** The group members the code counts are those the monitor counts. *)
Lemma group_members_abs group :
  count (λ task, (0 <? raw_tid task) && negb (bool_decide (phase task = Reaped))
           && (thread_group_logical_task_id task =? group)) (take (slots_used r) (tasks r))
  = count (λ m, negb (is_gone m) && (life_group m =? group)) (abs r).
Proof.
  unfold abs. rewrite count_fmap. apply count_ext. intros i t [Hi Hlt]%lookup_take_Some.
  pose proof (slot_phase _ _ (shape_slot _ _ _ (core_shape _ _ Hcore) i t Hi Hlt)) as Hp.
  f_equal. unfold is_gone, abs_task, abs_status. cbn [life_now].
  destruct (phase t); [done|..]; simpl; [| |by rewrite andb_false_r].
  all: destruct Hp as [Hpos _]; by rewrite (proj2 (Z.ltb_lt _ _) Hpos).
Qed.

Lemma observe_exec_spec sequence tid former :
  wp (observe_exec sequence tid former) (accepts r sequence) (λ _, frame r) r.
Proof.
  unfold observe_exec. wp_bind_result (require_positive_tid_Ok former); [|done].
  wp_step; [by wp_steps|]. apply wp_bind, (wp_running_task_index Hcore); [|done].
  intros i t Hpos Hi Hlt Hslot Htid Hrun. apply wp_bind. eapply wp_task_at; [done|].
  apply wp_bind, wp_lift_result; [intros nr Hnr%ok_or_Ok|done].
  wp_step; [by wp_steps|]. wp_step; [by wp_steps|]. wp_step; wp_step; simpl.
  wp_step; [by wp_steps|]. rewrite group_members_abs in *.
  apply wp_bind. eapply wp_update_task; [done|]. apply wp_accept_event; [|done].
  destruct Hslot as [Hid Hgrp Hph Hidle Hchild Hready _]. rewrite Hrun in Hph.
  apply (accepts_slot r sequence i t _ CountExec false); try done.
  - split; cbn; rewrite ?Hrun; naive_solver.
  - by left.
  - by right.
  - eapply (counts_update_slot _ _ _ _ CountExec false); try done.
    all: try apply Hcore; indicators.
  - cbn. unfold life_exec. rewrite (life_at_slot r i t) by done.
    rewrite !abs_running by done. cbn. rewrite Hnr, Z.eqb_refl.
    rewrite Hid, life_put_index. repeat match goal with H : ?b = _ |- context [?b] => rewrite H end.
    done.
Qed.

(** A creation call only returns once its announced child is ready. *)
Lemma check_creation_result_Ok t result u :
  check_creation_result t result = Ok u → ¬ awaits_child t.
Proof.
  unfold check_creation_result, awaits_child. intros H [Hnz Hready]. rewrite Hready in H.
  rewrite (proj2 (Z.eqb_neq _ _) Hnz) in H. simpl in H. rewrite !andb_false_r, !andb_true_r in H.
  by destruct (1 <=? result).
Qed.

Lemma observe_syscall_exit_spec sequence tid result :
  wp (observe_syscall_exit sequence tid result) (accepts r sequence) (λ _, frame r) r.
Proof.
  unfold observe_syscall_exit. apply wp_bind, (wp_running_task_index Hcore); [|done].
  intros i t Hpos Hi Hlt Hslot Htid Hrun. apply wp_bind. eapply wp_task_at; [done|].
  apply wp_bind, wp_lift_result; [intros nr Hnr%ok_or_Ok|done].
  wp_step; [by wp_steps|]. wp_step; [by wp_steps|].
  apply wp_bind, (wp_mono _ (λ _ s, s = r) _ (λ _ s, s = r)); [by wp_steps| |by intros ?? ->].
  intros _ ? ->. apply wp_bind, (wp_mono _ (λ _ s, s = r ∧ ¬ awaits_child t) _ (λ _ s, s = r)).
  { wp_step; wp_steps; [split; [done|]|done|split; [done|]].
    - by eapply check_creation_result_Ok.
    - intros [Hnz _]. apply Hnz, (not_awaiting i t Hslot). naive_solver. }
  2: by intros ?? ->.
  intros _ ? [-> Hawait]. apply wp_bind. eapply wp_update_task; [done|].
  apply wp_accept_event; [|done].
  destruct Hslot as [Hid Hgrp Hph _ _ _ _]. rewrite Hrun in Hph.
  apply (accepts_slot r sequence i t _ CountSyscallExit false); try done.
  - split; cbn; rewrite ?Hrun; naive_solver.
  - by left.
  - left. split; [done|apply cleared_not_awaiting].
  - eapply (counts_update_slot _ _ _ _ CountSyscallExit false); try done.
    all: try apply Hcore; indicators.
  - cbn. unfold life_leave. rewrite (life_at_slot r i t) by done.
    rewrite !abs_running by done. cbn. rewrite Hnr, Z.eqb_refl, Heqb0, Hid, life_put_index. done.
Qed.

(** A termination is only observed outside a call or in an exit call. *)
Lemma resolve_no_return_Ok termination p resolved :
  resolve_no_return termination p = Ok resolved →
  exit_call termination resolved = Some p
  ∧ (∀ nr, p = Some nr → is_creation_syscall nr = false)
  ∧ bool_decide (is_Some resolved) = bool_decide (is_Some p).
Proof.
  unfold resolve_no_return. destruct termination, p as [nr|]; simpl; intros H; simplify_eq.
  - destruct (Z.eqb_spec nr TRACER_TASK_EXIT_NR_X86_64_V1) as [->|]; [naive_solver|].
    destruct (Z.eqb_spec nr TRACER_TASK_EXIT_GROUP_NR_X86_64_V1) as [->|]; naive_solver.
  - done.
Qed.

Lemma observe_ptrace_exit_spec sequence tid termination :
  wp (observe_ptrace_exit sequence tid termination) (accepts r sequence) (λ _, frame r) r.
Proof.
  unfold observe_ptrace_exit. wp_step; [by wp_steps|].
  apply wp_bind, (wp_live_task_index Hcore); [|done].
  intros i t Hpos Hi Hlt Hslot Htid Hnr. apply wp_bind. eapply wp_task_at; [done|].
  wp_step; try by wp_steps. rename Heqt0 into Hrun.
  apply wp_bind, wp_lift_result; [intros resolved Hres|done].
  apply resolve_no_return_Ok in Hres as (Hcall & Hnot & Hsome).
  pose proof (not_awaiting i t Hslot Hnot) as Hzero.
  apply wp_bind. eapply wp_update_task; [done|]. wp_step; wp_step; simpl.
  apply wp_bind, wp_lift_result; [intros c ->%incremented_Ok|done].
  apply wp_bind, (wp_mono _ (λ c' s, s = with_tasks (<[i := set_phase ExitObserved (raw_tid t)
      (Some termination) (clear_pending t None)]>) r
      ∧ c' = if bool_decide (is_Some resolved)
             then counters_no_return (counters_inc (counters r) CountPtraceExitEvent)
             else counters_inc (counters r) CountPtraceExitEvent) _ (λ _, frame r)); [| |done].
  { wp_step; [|by wp_step]. apply wp_lift_result; [|done].
    by intros c ->%with_no_return_resolution_Ok. }
  intros c s [-> ->]. wp_step.
  destruct Hslot as [Hid Hgrp Hph Hidle _ Hready _]. rewrite Hrun in Hph.
  assert (child_ready_seen_for_pending t = false) as Hnr'.
  { destruct (child_ready_seen_for_pending t); [|done]. by destruct Hready. }
  apply (accepts_slot r sequence i t _ CountPtraceExitEvent); try done.
  - split; cbn; try done. split_and!; [lia|done|]. by exists termination.
  - by left.
  - left. split; [by intros []|by intros [? _]].
  - rewrite Hsome. eapply counts_update_slot; try done.
    all: try apply Hcore; try indicators.
    + unfold has_pending_syscall. cbn. destruct (pending_syscall t); done.
    + change (one_if _ _) with 1. destruct (pending_syscall t); simpl; lia.
  - cbn. unfold life_exit. rewrite (life_at_slot r i t) by done.
    rewrite abs_running by done. cbn. rewrite Hnr', Heqb, Hcall.
    rewrite bool_decide_eq_true_2 by done. cbn. rewrite Hid, life_put_index. done.
Qed.

Lemma observe_terminal_reap_spec sequence tid termination :
  wp (observe_terminal_reap sequence tid termination) (accepts r sequence) (λ _, frame r) r.
Proof.
  unfold observe_terminal_reap. wp_step; [by wp_steps|].
  apply wp_bind, (wp_live_task_index Hcore); [|done].
  intros i t Hpos Hi Hlt Hslot Htid Hnr. apply wp_bind. eapply wp_task_at; [done|].
  wp_step; try by wp_steps. rename Heqt0 into Hexit.
  wp_step; [by wp_steps|]. apply wp_bind. eapply wp_update_task; [done|].
  apply wp_accept_event; [|done].
  pose proof (slot_phase _ _ Hslot) as Hph. rewrite Hexit in Hph.
  destruct Hph as (_ & Hidle & Hterm). pose proof (slot_idle _ _ Hslot Hidle) as (Hr & Hz & He).
  destruct Hslot as [Hid Hgrp _ _ _ _ _].
  apply (accepts_slot r sequence i t _ CountTerminalReap false); try done.
  - by right.
  - left. split; [by intros []|by intros [? _]].
  - eapply (counts_update_slot _ _ _ _ CountTerminalReap false); try done.
    all: try apply Hcore; indicators.
  - cbn. unfold life_reap. rewrite (life_at_slot r i t) by done.
    unfold abs_task, abs_status. cbn. rewrite Hexit, Heqb0. cbn.
    rewrite bool_decide_eq_true_2 by done. by rewrite Hid, life_put_index.
Qed.
End SlotHandlers.

(** * Births: the initial task and the correlation of announced children

    A child is born when both halves of its correlation have been seen, in
    either order: the parent's announcement and the child's initial stop. *)

(** ** Inserting a task *)

Definition fresh_slot (id group tid : Z) : TaskSlotV1 :=
  {| logical_task_id := id; thread_group_logical_task_id := group; raw_tid := tid;
     phase := Running; pending_syscall := None; child_ready_seen_for_pending := false;
     pending_child_raw_tid := 0; exec_event_seen_for_pending := false;
     exec_seen_ever := false; slot_termination := None |}.

(** The recorder after a task with [tid] was inserted into [group]. *)
Definition with_task (tid group : Z) (r : TracerTaskStateRecorderV1) :
    TracerTaskStateRecorderV1 :=
  let id := Z.of_nat (slots_used r) + 1 in
  with_slots_used (S (slots_used r)) (id + 1)
    (with_tasks (<[slots_used r := fresh_slot id group tid]>) r).

Lemma wp_insert_task {r c} tid inherited (Q : Z → _ → Prop) (R : _ → _ → Prop) :
  core_wf r c →
  (let id := Z.of_nat (slots_used r) + 1 in
   0 < tid → (∀ i t, tasks r !! i = Some t → raw_tid t ≠ tid) →
   tasks r !! slots_used r = Some TaskSlotV1_EMPTY →
   Q id (with_task tid (default id inherited) r)) →
  (∀ e, R e r) → wp (insert_task tid inherited) Q R r.
Proof.
  intros Hcore HQ HR. unfold insert_task.
  wp_bind_result (require_positive_tid_Ok tid); [|done]. rename H into Hpos.
  wp_step; wp_step; simpl. wp_step; [by wp_steps|]. wp_step; [by wp_steps|].
  apply eq_None_not_Some in Heqb.
  wp_step; [by wp_steps|]. apply wp_bind, wp_lift_result; [|done].
  intros next Hnext%ok_or_Ok. apply u32_checked_add_Some in Hnext as [-> _].
  pose proof (core_shape _ _ Hcore) as Hshape.
  destruct (lookup_lt_is_Some_2 (tasks r) (slots_used r)) as [t Ht].
  { rewrite (shape_tasks _ _ _ Hshape). lia. }
  rewrite (shape_unused _ _ _ Hshape _ _ Ht) in Ht by done.
  apply wp_bind. eapply wp_update_task; [done|]. wp_steps.
  rewrite (core_next_id _ _ Hcore). apply HQ; [done| |done].
  by apply (find_live_task_None Hcore).
Qed.

Lemma abs_with_task r tid group :
  (slots_used r < length (tasks r))%nat →
  abs (with_task tid group r) = abs r ++ [life_fresh group].
Proof.
  intros Hlt. unfold abs, with_task. cbn [with_slots_used with_tasks slots_used tasks].
  erewrite take_S_r by (by rewrite list_lookup_insert_eq).
  by rewrite take_insert_ge, fmap_app by lia.
Qed.

Lemma fresh_slot_wf used group tid :
  0 < tid → 1 <= group <= Z.of_nat used + 1 →
  slot_wf used (fresh_slot (Z.of_nat used + 1) group tid).
Proof. intros. split; cbn; naive_solver. Qed.

(** ** The initial birth *)

(** Nothing is correlated before the first task exists. *)
Lemma start_pending_empty r :
  recorder_wf r → slots_used r = 0%nat →
  ∀ k p, pending_children r !! k = Some p → p = PendingChildCorrelationV1_EMPTY.
Proof.
  intros [[Hshape Hcounts _] Hsettled _ _ Hstart] Hzero k p Hk. specialize (Hstart Hzero).
  destruct Hcounts. rewrite Hzero in *. simpl in *.
  assert (count is_announced (pending_children r) = 0%nat) as Ha by lia.
  assert (count ready_seen (pending_children r) = 0%nat) as Hr by lia.
  rewrite count_zero in Ha, Hr. specialize (Ha k p Hk). specialize (Hr k p Hk).
  destruct (shape_pending _ _ _ Hshape k p Hk) as [|(Hpos & _)]; [done|].
  specialize (Hsettled k p Hk (occupied_pos p Hpos)). rewrite Ha, Hr in Hsettled. done.
Qed.

Lemma shape_initial slots pending tid :
  shape_wf slots pending 0 → 0 < tid →
  (∀ k p, pending !! k = Some p → p = PendingChildCorrelationV1_EMPTY) →
  shape_wf (<[0%nat := fresh_slot 1 1 tid]> slots) pending 1.
Proof.
  intros [H1 H2 H3 H4 H5 H6 H7 H8 H9] Hpos Hempty.
  assert (∀ j u, <[0%nat := fresh_slot 1 1 tid]> slots !! j = Some u →
    (j = 0%nat ∧ u = fresh_slot 1 1 tid) ∨ (j ≠ 0%nat ∧ u = TaskSlotV1_EMPTY)) as Hcases.
  { intros j u Hj. lookup_cases Hj; [by left|right]. split; [done|]. eapply H4; [done|lia]. }
  split; rewrite ?length_insert; try done.
  - intros i t Hi ?. destruct (Hcases _ _ Hi) as [[-> ->]|[? _]]; [|lia].
    by apply (fresh_slot_wf 0).
  - intros i t Hi ?. destruct (Hcases _ _ Hi) as [[-> _]|[_ ->]]; [lia|done].
  - intros i j t u Hi Hj Hnz Heq.
    destruct (Hcases _ _ Hi) as [[-> ->]|[_ ->]], (Hcases _ _ Hj) as [[-> ->]|[_ ->]];
      cbn in *; done || lia.
  - intros k p Hk. left. by eapply Hempty.
  - intros i t Hi [Hnz _]. by destruct (Hcases _ _ Hi) as [[-> ->]|[_ ->]].
  - rewrite (proj2 (count_zero _ _)) by (intros k p Hk; by rewrite (Hempty k p Hk)).
    unfold TRACER_TASK_MAX_TASKS_V1. lia.
Qed.

Lemma counts_initial_birth slots pending c tid :
  counts_wf slots pending 0 c → slots !! 0%nat = Some TaskSlotV1_EMPTY →
  counts_wf (<[0%nat := fresh_slot 1 1 tid]> slots) pending 1
    (counters_inc c CountInitialBirth).
Proof.
  intros [] Hi. split; cbn [counters_inc one_if accepted_transition_count
      initial_birth_count child_announcement_count child_ready_count fork_birth_count
      vfork_birth_count clone_birth_count exec_count seccomp_entry_count syscall_exit_count
      no_return_resolution_count ptrace_exit_event_count terminal_reap_count];
    rewrite ?(count_insert_same _ _ _ _ _ Hi) by done; simpl in *; lia.
Qed.

Lemma observe_initial_birth_spec r sequence tid :
  recorder_wf r →
  wp (observe_initial_birth sequence tid) (accepts r sequence) (λ _, frame r) r.
Proof.
  intros Hwf. unfold observe_initial_birth. wp_step; wp_step; simpl.
  wp_step; [by wp_steps|]. pose proof (wf_core _ Hwf) as Hcore.
  apply wp_bind, (wp_insert_task _ _ _ _ Hcore); [|done]. intros id Hpos Hfree Hempty.
  apply wp_accept_event; [|done]. pose proof (start_pending_empty r Hwf Heqb) as Hnone.
  pose proof (lookup_lt_Some _ _ _ Hempty) as Hlen.
  assert (id = 1) as -> by (unfold id; lia). simpl default.
  split; cbn [fst snd].
  - destruct Hcore as [Hshape Hcounts _].
    split; unfold with_task; cbn [with_slots_used with_tasks tasks slots_used pending_children
      next_logical_task_id]; rewrite Heqb in *; simpl Z.add.
    + by apply shape_initial.
    + by apply counts_initial_birth.
    + done.
  - intros k p Hk. by rewrite (Hnone k p Hk).
  - done.
  - done.
  - done.
  - cbn [life_step_opt]. rewrite abs_with_task by done. unfold abs. rewrite Heqb. done.
  - by intros ? [= <-].
Qed.

(** ** Correlations *)

(** Every correlation but the [k]-th is settled. *)
Definition settled_but (k : nat) (r : TracerTaskStateRecorderV1) : Prop :=
  ∀ j p, j ≠ k → pending_children r !! j = Some p → is_occupied p = true →
    ready_seen p = negb (is_announced p).

(** A recorder whose [k]-th correlation is being completed. *)
Record correlating (r : TracerTaskStateRecorderV1) (c : TracerTaskCountersV1) (k : nat)
    (p : PendingChildCorrelationV1) : Prop := {
  corr_core : core_wf r c;
  corr_pending : pending_children r !! k = Some p;
  corr_occupied : is_occupied p = true;
  corr_others : settled_but k r;
}.

Lemma settled_with k r p :
  settled_but k r → pending_children r !! k = Some p →
  (is_occupied p = true → ready_seen p = negb (is_announced p)) → settled r.
Proof.
  intros Hothers Hk Hp j q Hj. destruct (decide (j = k)) as [->|Hne].
  - by simplify_eq.
  - by eapply Hothers.
Qed.

Lemma settled_but_write k r q :
  settled_but k r → settled_but k (with_pending_children (<[k := q]>) r).
Proof.
  intros H j p Hne Hj. cbn [with_pending_children pending_children] in Hj.
  rewrite list_lookup_insert_ne in Hj by done. by eapply H.
Qed.

Lemma accepts_from r r1 sequence a r' :
  frame r r1 → abs r1 = abs r → accepts r1 sequence a r' → accepts r sequence a r'.
Proof.
  intros (H1 & H2 & H3) Habs [Hc Hs Hn Hu (F1 & F2 & F3) Hstep Hseq].
  split; try done.
  - by rewrite <- H2.
  - split_and!; congruence.
  - by rewrite <- Habs.
Qed.

Lemma counts_update_pending slots pending used c kind k p q :
  counts_wf slots pending used c → pending !! k = Some p →
  one_if CountChildAnnouncement kind + one_if CountChildReady kind = 1 →
  Z.b2z (is_announced q) = Z.b2z (is_announced p) + one_if CountChildAnnouncement kind →
  Z.b2z (ready_seen q) = Z.b2z (ready_seen p) + one_if CountChildReady kind →
  counts_wf slots (<[k := q]> pending) used (counters_inc c kind).
Proof.
  intros [] Hk Hkind Hann Hready.
  pose proof (count_insert_Z is_announced _ _ _ q Hk).
  pose proof (count_insert_Z ready_seen _ _ _ q Hk).
  destruct kind; cbn [one_if] in *; try lia;
    split; cbn [counters_inc one_if accepted_transition_count
      initial_birth_count child_announcement_count child_ready_count fork_birth_count
      vfork_birth_count clone_birth_count exec_count seccomp_entry_count syscall_exit_count
      no_return_resolution_count ptrace_exit_event_count terminal_reap_count]; lia.
Qed.

(** A slot write that no counter looks at. *)
Lemma counts_same_slot slots pending used c i t t' :
  counts_wf slots pending used c → slots !! i = Some t →
  exec_seen_ever t = exec_seen_ever t' → has_pending_syscall t = has_pending_syscall t' →
  is_exited t = is_exited t' → is_reaped t = is_reaped t' →
  counts_wf (<[i := t']> slots) pending used c.
Proof.
  intros [] Hi H1 H2 H3 H4. split; try done; by rewrite (count_insert_same _ _ _ t).
Qed.

Lemma counts_same_pending slots pending used c k p q :
  counts_wf slots pending used c → pending !! k = Some p →
  is_announced p = is_announced q → ready_seen p = ready_seen q →
  counts_wf slots (<[k := q]> pending) used c.
Proof.
  intros [] Hk H1 H2. split; try done; by rewrite (count_insert_same _ _ _ p).
Qed.

(** The counters of a correlated birth. *)
Lemma counts_birth slots pending used c kind k p group tid :
  counts_wf slots pending used c → (0 < used)%nat →
  slots !! used = Some TaskSlotV1_EMPTY →
  pending !! k = Some p → is_announced p = true → ready_seen p = true →
  counts_wf (<[used := fresh_slot (Z.of_nat used + 1) group tid]> slots)
    (<[k := PendingChildCorrelationV1_EMPTY]> pending) (S used) (counters_birth c kind).
Proof.
  intros [] Hpos Hi Hk Hann Hready.
  pose proof (count_insert_Z is_announced _ _ _ PendingChildCorrelationV1_EMPTY Hk) as Ea.
  pose proof (count_insert_Z ready_seen _ _ _ PendingChildCorrelationV1_EMPTY Hk) as Er.
  rewrite Hann in Ea. rewrite Hready in Er. cbn [is_announced ready_seen announcement
    PendingChildCorrelationV1_EMPTY Z.b2z] in Ea, Er.
  split; cbn [counters_birth accepted_transition_count
      initial_birth_count child_announcement_count child_ready_count fork_birth_count
      vfork_birth_count clone_birth_count exec_count seccomp_entry_count syscall_exit_count
      no_return_resolution_count ptrace_exit_event_count terminal_reap_count];
    rewrite ?(count_insert_same _ _ _ _ _ Hi) by done; try lia.
  destruct kind; cbn [one_if_birth]; lia.
Qed.

Lemma set_child_ready_seen_wf i t :
  slot_wf i t → pending_child_raw_tid t ≠ 0 → slot_wf i (set_child_ready_seen t).
Proof.
  intros [Hid Hg Hp Hidle Hc Hr He] Hnz. split; cbn; try done.
  intros E. by destruct (Hidle E) as (_ & ? & _).
Qed.

(** The recorder after the birth that completes the [k]-th correlation. *)
Definition with_birth (k i : nat) (t : TaskSlotV1) (tid group : Z)
    (r : TracerTaskStateRecorderV1) : TracerTaskStateRecorderV1 :=
  with_pending_children (<[k := PendingChildCorrelationV1_EMPTY]>)
    (with_tasks (<[i := set_child_ready_seen t]>) (with_task tid group r)).

Lemma abs_with_birth k i t tid group r :
  (i < slots_used r < length (tasks r))%nat →
  abs (with_birth k i t tid group r)
  = <[i := abs_task (set_child_ready_seen t)]> (abs r) ++ [life_fresh group].
Proof.
  intros Hlt. unfold with_birth.
  change (abs (with_pending_children ?f ?s)) with (abs s).
  rewrite abs_update by (cbn; lia). rewrite abs_with_task by lia.
  rewrite insert_app_l; [done|]. unfold abs. rewrite length_fmap, length_take. lia.
Qed.

Section Birth.
Context {r : TracerTaskStateRecorderV1} {c : TracerTaskCountersV1} {k : nat}
  {p : PendingChildCorrelationV1} {ann : PendingChildAnnouncementV1} {t : TaskSlotV1}
  {group : Z}.
Hypothesis Hcorr : correlating r c k p.
Hypothesis Hann : announcement p = Some ann.
Hypothesis Hready : ready_seen p = true.
Hypothesis Hparent : tasks r !! parent_index ann = Some t.
Hypothesis Hfree : tasks r !! slots_used r = Some TaskSlotV1_EMPTY.
Hypothesis Hpos : 0 < pending_raw_tid p.
Hypothesis Hgroup : group = Z.of_nat (slots_used r) + 1
  ∨ announced_kind ann = ChildClone ∧ group = thread_group_logical_task_id t.

Let Hcore := corr_core _ _ _ _ Hcorr.
Let Hshape := core_shape _ _ Hcore.
Let i := parent_index ann.

Lemma birth_announcement : announcement_wf (tasks r) (pending_raw_tid p) ann.
Proof.
  destruct (shape_pending _ _ _ Hshape k p) as [E|(_ & _ & H)].
  - apply Hcorr.
  - rewrite E in Hann. discriminate Hann.
  - by apply H.
Qed.

Lemma birth_parent :
  phase t = Running ∧ pending_child_raw_tid t = pending_raw_tid p
  ∧ child_ready_seen_for_pending t = false
  ∧ creation_syscall_permits (pending_syscall t) (announced_kind ann) = true
  ∧ (announced_kind ann ≠ ChildClone → announced_group_relation ann = NewThreadGroup)
  ∧ (i < slots_used r)%nat ∧ slot_wf i t.
Proof.
  destruct birth_announcement as (parent & Hp & Hrun & Hrest).
  rewrite Hparent in Hp. injection Hp as <-.
  assert (i < slots_used r)%nat as Hlt.
  { destruct (decide (i < slots_used r)%nat); [done|].
    rewrite (shape_unused _ _ _ Hshape _ _ Hparent) in Hrun by (unfold i in *; lia). done. }
  destruct Hrest as (? & ? & ? & ?). split_and!; try done.
  by apply (shape_slot _ _ _ Hshape).
Qed.

Lemma birth_group_range : 1 <= group <= Z.of_nat (slots_used r) + 1.
Proof.
  destruct birth_parent as (_ & _ & _ & _ & _ & Hlt & Hslot).
  pose proof (slot_group _ _ Hslot). destruct Hgroup as [->|[_ ->]]; lia.
Qed.

Lemma with_birth_core :
  core_wf (with_birth k i t (pending_raw_tid p) group r) (counters_birth c (announced_kind ann)).
Proof.
  destruct birth_parent as (Hrun & Hchild & _ & _ & _ & Hlt & Hslot).
  pose proof (core_counts _ _ Hcore) as Hcounts.
  pose proof (corr_pending _ _ _ _ Hcorr) as Hk. pose proof (corr_occupied _ _ _ _ Hcorr) as Hocc.
  split; cbn [with_birth with_pending_children with_tasks with_task with_slots_used tasks
    pending_children slots_used next_logical_task_id].
  - apply (shape_birth Hshape k p i t ann); try done.
    + apply fresh_slot_wf; [done|apply birth_group_range].
    + apply set_child_ready_seen_wf; [done|lia].
  - apply (counts_same_slot _ _ _ _ i t); try done.
    + eapply counts_birth; try done; [lia|]. unfold is_announced. by rewrite Hann.
    + rewrite list_lookup_insert_ne; [done|unfold i in *; lia].
  - lia.
Qed.

Lemma with_birth_settled : settled (with_birth k i t (pending_raw_tid p) group r).
Proof.
  intros j q Hj Hq. unfold with_birth in Hj. cbn [with_pending_children pending_children] in Hj.
  lookup_cases Hj; [done|]. by eapply Hcorr.
Qed.

Lemma with_birth_step sequence :
  let id := Z.of_nat (slots_used r) + 1 in
  life_step (abs r) (Birth sequence id (Some (logical_task_id t)) group
                       (normalized (announced_kind ann)))
  = Some (abs (with_birth k i t (pending_raw_tid p) group r)).
Proof.
  intros id. destruct birth_parent as (Hrun & Hchild & Hnot & Hpermit & _ & Hlt & Hslot).
  pose proof (lookup_lt_Some _ _ _ Hfree). cbn [life_step]. unfold life_birth.
  assert (length (abs r) = slots_used r) as ->.
  { unfold abs. rewrite length_fmap, length_take. lia. }
  fold id. rewrite Z.eqb_refl. cbn [negb].
  replace (child_kind (normalized (announced_kind ann))) with (Some (announced_kind ann))
    by (by destruct (announced_kind ann)).
  rewrite (life_at_slot r i t) by (done || apply Hslot).
  cbn [mbind option_bind]. rewrite abs_running by done. cbn [life_now life_group].
  rewrite Hnot, Hpermit. replace (group_permitted _ _ _ _) with true.
  2: { unfold group_permitted. destruct Hgroup as [->|[-> ->]].
       - unfold id. by rewrite Z.eqb_refl.
       - rewrite Z.eqb_refl, orb_true_r. done. }
  cbn [andb]. rewrite abs_with_birth by lia. rewrite (slot_id _ _ Hslot), life_put_index.
  by rewrite (abs_running (set_child_ready_seen t)).
Qed.
End Birth.

Lemma finish_child_correlation_spec r c k p sequence :
  correlating r c k p → is_announced p || ready_seen p = true →
  accepted_transition_count c = accepted_transition_count (counters r) + 1 →
  slots_used r ≠ 0%nat →
  wp (finish_child_correlation sequence k c) (accepts r sequence) (λ _, frame r) r.
Proof.
  intros Hcorr Hhalf Hcount Hused. unfold finish_child_correlation. apply wp_bind.
  assert (∀ b : bool, ready_seen p = b → is_announced p = negb b →
    accepts r sequence (None, c) r) as Hsilent.
  { intros b Hb Ha. split; try done; [apply Hcorr|].
    eapply settled_with; [apply Hcorr..|]. rewrite Ha, Hb. by rewrite negb_involutive. }
  eapply wp_pending_at; [apply Hcorr|]. unfold is_announced in *.
  wp_step; [|wp_step; by apply (Hsilent true)]. rename p0 into ann, Heqo into Hann.
  wp_step; [wp_step; by apply (Hsilent false)|].
  destruct (birth_announcement Hcorr Hann) as (t & Ht & Hrest). apply wp_bind.
  eapply wp_task_at; [done|]. wp_step; [by wp_steps|]. wp_step; [by wp_steps|].
  apply wp_bind, (wp_insert_task _ _ _ _ (corr_core _ _ _ _ Hcorr)); [|done].
  intros id Hpos Hfree Hempty. destruct (birth_parent Hcorr Hann Ht)
    as (Hrun & Hchild & Hnot & Hpermit & Hrel & Hlt & Hslot).
  apply wp_bind, (wp_update_task _ t).
  { cbn. rewrite list_lookup_insert_ne; [done|lia]. }
  apply wp_bind, (wp_write_pending _ p); [apply Hcorr|].
  apply wp_bind, wp_lift_result; [intros c' ->%with_correlated_birth_Ok|done].
  wp_step. set (group := default id _).
  assert (group = id ∨ announced_kind ann = ChildClone ∧ group = thread_group_logical_task_id t)
    as Hgroup.
  { subst group. destruct (announced_group_relation ann) eqn:E; [by left|right].
    split; [|done]. destruct (decide (announced_kind ann = ChildClone)) as [|Hne]; [done|].
    by specialize (Hrel Hne). }
  split; try done.
  - by apply (with_birth_core Hcorr Hann Heqb Ht Hempty Hpos Hgroup).
  - by apply (with_birth_settled Hcorr).
  - by apply (with_birth_step Hcorr Hann Ht Hempty Hgroup).
  - by intros ? [= <-].
Qed.

(** ** The two halves of a correlation *)

(** The correlation of [tid], found or inserted; the recorder is otherwise the
    one the handler started from. *)
Lemma wp_pending_child_index_or_insert r tid (Q : nat → _ → Prop) (R : _ → _ → Prop) :
  recorder_wf r → 0 < tid → (∀ i t, tasks r !! i = Some t → raw_tid t ≠ tid) →
  (∀ k p f, pending_raw_tid p = tid →
     correlating (with_pending_children f r) (counters r) k p →
     Q k (with_pending_children f r)) →
  (∀ e, R e r) → wp (pending_child_index_or_insert tid) Q R r.
Proof.
  intros [Hcore Hsettled _ _ _] Hpos Hfree HQ HR. unfold pending_child_index_or_insert.
  pose proof (core_shape _ _ Hcore) as Hshape. pose proof (core_counts _ _ Hcore) as Hcounts.
  wp_step; wp_step; simpl. wp_step; [wp_step|].
  - apply position_Some in Heqo as [(p & Hk & E) _]. bool_to_prop.
    assert (r = with_pending_children id r) as Hr by (by destruct r).
    specialize (HQ n p id). rewrite <- Hr in HQ. apply HQ; [done|].
    split; [done|done|apply occupied_pos; lia|by intros ?? _; apply Hsettled].
  - rewrite position_None in Heqo. wp_step; [by wp_steps|].
    apply wp_bind, wp_lift_result; [|done]. intros k Hk%ok_or_Ok.
    apply position_Some in Hk as [(p & Hk & E) _]. bool_to_prop.
    destruct (shape_pending _ _ _ Hshape k p Hk) as [->|(? & _)]; [|lia].
    apply wp_bind. eapply wp_write_pending; [done|]. wp_step.
    eapply (HQ k {| pending_raw_tid := tid; announcement := None; ready_seen := false |}
      (<[k := _]>)); [done|].
    split.
    + split; cbn [with_pending_children tasks pending_children slots_used next_logical_task_id].
      * apply (shape_insert_pending Hshape); try done.
        -- intros j q Hj E'. specialize (Heqo j q Hj). simpl in Heqo. bool_to_prop. done.
        -- change (count is_occupied _) with
             (count (λ pending, negb (pending_raw_tid pending =? 0)) (pending_children r)).
           destruct (usize_checked_add _ _) eqn:E2; [|done].
           apply usize_checked_add_Some in E2. bool_to_prop. lia.
      * by eapply counts_same_pending.
      * apply Hcore.
    + cbn. apply list_lookup_insert_eq. by eapply lookup_lt_Some.
    + by apply occupied_pos.
    + apply settled_but_write. by intros ?? _; apply Hsettled.
Qed.

Lemma find_live_task_free {r c tid} :
  core_wf r c → 0 < tid → ¬ is_Some (find_live_task r tid) →
  ∀ i t, tasks r !! i = Some t → raw_tid t ≠ tid.
Proof. intros Hcore Hpos Hnone%eq_None_not_Some. by apply (find_live_task_None Hcore). Qed.

Lemma observe_child_ready_spec r sequence tid :
  recorder_wf r → slots_used r ≠ 0%nat →
  wp (observe_child_ready sequence tid) (accepts r sequence) (λ _, frame r) r.
Proof.
  intros Hwf Hused. unfold observe_child_ready.
  wp_bind_result (require_positive_tid_Ok tid); [|done]. rename H into Hpos.
  wp_step; wp_step; simpl. wp_step; [by wp_steps|].
  pose proof (find_live_task_free (wf_core _ Hwf) Hpos Heqb) as Hfree.
  apply wp_bind, (wp_pending_child_index_or_insert r tid); try done.
  intros k p f Htid [Hcore Hk Hocc Hothers]. apply wp_bind. eapply wp_pending_at; [done|].
  wp_step; [by wp_steps|]. apply wp_bind. eapply wp_write_pending; [done|].
  wp_step; wp_step; simpl. apply wp_bind, wp_lift_result; [intros c ->%incremented_Ok|done].
  set (q := {| ready_seen := true |}).
  set (r1 := with_pending_children _ _).
  apply (wp_mono _ (accepts r1 sequence) _ (λ _, frame r1));
    [|by intros ? ? Ha; eapply accepts_from, Ha|done].
  apply (finish_child_correlation_spec _ _ _ q); try done; [|by rewrite orb_true_r].
  destruct Hcore as [Hshape Hcounts Hid].
  split; cbn [r1 with_pending_children pending_children]; [split| | |].
  - by apply (shape_set_ready Hshape).
  - apply (counts_update_pending _ _ _ _ _ _ p); try done.
    + change (is_announced q) with (is_announced p). cbn [one_if]. lia.
    + by rewrite Heqb0.
  - done.
  - apply list_lookup_insert_eq. by eapply lookup_lt_Some.
  - done.
  - by apply settled_but_write.
Qed.

Lemma creation_permits_creation nr kind :
  creation_syscall_permits (Some nr) kind = true → is_creation_syscall nr = true.
Proof.
  unfold creation_syscall_permits, is_creation_syscall. intros H.
  destruct (nr =? TRACER_TASK_FORK_NR_X86_64_V1); [by rewrite orb_true_r|].
  destruct (nr =? TRACER_TASK_VFORK_NR_X86_64_V1); [by rewrite orb_true_r|].
  destruct (nr =? TRACER_TASK_CLONE_NR_X86_64_V1); [done|]. done.
Qed.

Lemma set_pending_child_wf i t nr tid :
  slot_wf i t → phase t = Running → pending_syscall t = Some nr → is_creation_syscall nr = true →
  0 < tid → slot_wf i (set_pending_child tid t).
Proof.
  intros [Hid Hg Hp Hidle Hc Hr He] Hrun Hnr Hcr Hpos. split; cbn; try done.
  - rewrite Hnr. done.
  - intros _. naive_solver.
  - lia.
Qed.

Lemma observe_child_announcement_spec r sequence parent_tid tid kind relation :
  recorder_wf r →
  wp (observe_child_announcement sequence parent_tid tid kind relation)
    (accepts r sequence) (λ _, frame r) r.
Proof.
  intros Hwf. unfold observe_child_announcement.
  wp_bind_result (require_positive_tid_Ok parent_tid); [|done]. rename H into Hppos.
  wp_bind_result (require_positive_tid_Ok tid); [|done]. rename H into Hpos.
  wp_step; [by wp_steps|]. wp_step; wp_step; simpl.
  apply wp_bind, wp_lift_result; [|done]. intros i Hi%ok_or_Ok.
  apply (find_live_task_Some (wf_core _ Hwf)) in Hi as (t & Hi & Hlt & Hslot & _ & _).
  apply wp_bind. eapply wp_task_at; [done|]. wp_step; [by wp_steps|].
  apply wp_bind, wp_lift_result; [|done]. intros nr Hnr%ok_or_Ok.
  do 4 (wp_step; [by wp_steps|]). rename Heqb0 into Hrun, Heqb1 into Hpermit, Heqb2 into Hzero.
  pose proof (find_live_task_free (wf_core _ Hwf) Hpos Heqb4) as Hfree.
  apply wp_bind, (wp_pending_child_index_or_insert r tid); try done.
  intros k p f Htid [[Hshape Hcounts Hid] Hk Hocc Hothers].
  apply wp_bind. eapply wp_pending_at; [done|].
  wp_step; [by wp_steps|]. apply eq_None_not_Some in Heqb0 as Hnone.
  apply wp_bind. eapply wp_write_pending; [done|]. apply wp_bind, (wp_update_task _ t); [done|].
  wp_step; wp_step; simpl. apply wp_bind, wp_lift_result; [intros c ->%incremented_Ok|done].
  set (ann := {| parent_index := i |}).
  set (q := {| pending_raw_tid := pending_raw_tid p; announcement := Some ann |}).
  set (r1 := with_tasks _ _).
  assert (frame r r1 ∧ abs r1 = abs r) as [Hframe Habs].
  { split; [done|]. subst r1. rewrite abs_update by done.
    rewrite list_insert_id; [done|]. by apply (abs_lookup r i t). }
  apply (wp_mono _ (accepts r1 sequence) _ (λ _, frame r1));
    [|by intros ? ? Ha; eapply accepts_from, Ha|done].
  assert (child_ready_seen_for_pending t = false) as Hready.
  { pose proof (slot_ready _ _ Hslot). destruct (child_ready_seen_for_pending t); [|done].
    naive_solver. }
  apply (finish_child_correlation_spec _ _ _ q); try done; [|cbn; lia].
  subst r1. split; [split; cbn [with_tasks with_pending_children tasks pending_children]|..];
    cbn [with_tasks with_pending_children pending_children].
  - rewrite <- Htid. apply (shape_announce Hshape); try done.
    + by rewrite Hnr.
    + cbn. destruct Heqb3 as [?|?]; bool_to_prop; naive_solver.
    + eapply set_pending_child_wf; try done; [by eapply creation_permits_creation|lia].
  - apply (counts_same_slot _ _ _ _ i t); try done.
    apply (counts_update_pending _ _ _ _ _ _ p); try done.
    + unfold is_announced. by rewrite Hnone.
    + change (ready_seen q) with (ready_seen p). cbn [one_if]. lia.
  - done.
  - apply list_lookup_insert_eq. by eapply lookup_lt_Some.
  - done.
  - by apply settled_but_write.
Qed.

(** ** All observations *)

Lemma dispatch_spec r sequence observation :
  recorder_wf r → (slots_used r ≠ 0%nat ∨ is_initial_birth observation = true) →
  wp (dispatch sequence observation) (accepts r sequence) (λ _, frame r) r.
Proof.
  intros Hwf Hstart. destruct observation; simpl.
  - by apply observe_initial_birth_spec.
  - by apply observe_child_announcement_spec.
  - apply observe_child_ready_spec; naive_solver.
  - by apply observe_exec_spec.
  - by apply observe_seccomp_entry_spec.
  - by apply observe_syscall_exit_spec.
  - by apply observe_ptrace_exit_spec.
  - by apply observe_terminal_reap_spec.
Qed.
