(* ===== verification/TaskTheorems.v ===== *)
(** * Correctness of the task lifecycle recorder

    The theorems about the public operations [observe] and [complete]: the
    invariant, the refinement of the abstract lifecycle by every run, permanent
    poisoning, and the exact condition of a complete shutdown. *)

From stdpp Require Import sorting.
From S2P Require Import Prelude Monad WaitStatus TaskState Lifecycle TaskInvariant TaskHandlers.
Open Scope Z_scope.

(** ** One observation *)

Section Observe.
Context {K : Type} `{NormalizedTracerTaskEventSinkV1 K}.
Implicit Types (r : TracerTaskStateRecorderV1) (k : K).

(** What an accepted observation did to the recorder and to its sink. *)
Record observed (r : TracerTaskStateRecorderV1) (k : K) (o : TracerTaskObservationV1)
    (event : option NormalizedTracerTaskEventV1) (r' : TracerTaskStateRecorderV1) (k' : K) :
    Prop := {
  observed_healthy : poisoned r = None ∧ poisoned r' = None;
  observed_wf : recorder_wf r';
  observed_started : slots_used r' ≠ 0%nat;
  observed_sequence : observation_sequence o = next_transport_sequence r
    ∧ next_transport_sequence r' = next_transport_sequence r + 1;
  observed_step : life_step_opt (abs r) event = Some (abs r');
  observed_event : ∀ e, event = Some e → event_sequence e = observation_sequence o;
  observed_sink : match event with Some e => emit k e = (Ok (), k') | None => k' = k end;
}.

(** A rejection names the reason the recorder is poisoned with; the sink was
    not called, or called once and refused the event. *)
Definition rejected (r : TracerTaskStateRecorderV1) (k : K)
    (e : TracerTaskExecuteOnlyReasonV1) (r' : TracerTaskStateRecorderV1) (k' : K) : Prop :=
  poisoned r' = Some e
  ∧ (∀ first, poisoned r = Some first → e = first ∧ r' = r ∧ k' = k)
  ∧ (k' = k ∨ ∃ event, emit k event = (Err (), k') ∧ e = TaskReason.SinkRejected).

Lemma wp_poison {A} reason (Q : A → _ → Prop) (R : _ → _ → Prop) r :
  poisoned r = None → R reason (with_poisoned (Some reason) r) → wp (poison reason) Q R r.
Proof. intros Hnone HR. unfold poison. wp_steps. by rewrite Hnone. Qed.

(** The rejections of a healthy recorder. *)
Lemma wp_reject {A} reason (Q : A → _ → Prop) r k r' k' :
  poisoned r = None → poisoned r' = None →
  (k' = k ∨ ∃ event, emit k event = (Err (), k') ∧ reason = TaskReason.SinkRejected) →
  wp (on_recorder (poison reason)) Q (λ e '(s, k''), rejected r k e s k'') (r', k').
Proof.
  intros Hr Hr' Hk. apply wp_on_fst, wp_poison; [done|]. split; [done|].
  split; [by rewrite Hr|done].
Qed.

Lemma observe_spec r k o :
  recorder_inv r →
  wp (observe o) (λ _ '(r', k'), ∃ event, observed r k o event r' k')
    (λ e '(r', k'), rejected r k e r' k') (r, k).
Proof.
  intros Hinv. unfold observe. apply wp_bind, wp_on_fst, wp_gets. simpl.
  destruct (poisoned r) as [reason|] eqn:Hp.
  { wp_step. split; [done|]. split; [naive_solver|by left]. }
  specialize (Hinv Hp). wp_step; [by apply wp_reject; auto|]. rename Heqb into Hseq.
  wp_step; [by apply wp_reject; auto|]. rename Heqb into Hstart.
  destruct (u64_checked_add _ _) as [next|] eqn:Hnext; [|by apply wp_reject; auto].
  apply u64_checked_add_Some in Hnext as [-> Hrange].
  apply wp_bind, wp_on_fst.
  pose proof (dispatch_spec r (observation_sequence o) o Hinv) as Hd.
  unfold or_poison. unfold wp at 1. unfold wp in Hd.
  destruct (dispatch (observation_sequence o) o r) as [[event c] r'|e r'|].
  2: { destruct Hd as (Hp' & _); [destruct Hstart; bool_to_prop; auto|].
       rewrite Hp in Hp'. unfold poison; simpl. rewrite Hp'. simpl.
       split; [done|]. split; [by rewrite Hp|by left]. }
  2: { apply Hd. destruct Hstart; bool_to_prop; auto. }
  destruct Hd as [Hcore Hset Hcount Hused (F1 & F2 & F3) Hstep Hev];
    [destruct Hstart; bool_to_prop; auto|]. simpl in *.
  apply wp_bind.
  eapply (wp_mono _ (λ (delivered : bool) '(s, k'), s = r' ∧
    if delivered then match event with Some e => emit k e = (Ok (), k') | None => k' = k end
    else ∃ e, emit k e = (Err (), k')) _ (λ _ _, False)).
  3: done.
  { destruct event as [e|]; [|by wp_step]. unfold wp, sink_emit.
    destruct (emit k e) as [[[]|[]] k'] eqn:E; simpl; eauto. }
  intros delivered [s k'] [-> Hdel]. destruct delivered; simpl negb; cbv iota.
  2: { apply wp_reject; [done|congruence|naive_solver]. }
  apply wp_on_fst, wp_modify. exists event.
  split; cbn [with_accepted poisoned next_transport_sequence slots_used]; try done.
  - split; congruence.
  - destruct Hinv as [_ _ Hs _ _]. split; cbn [with_accepted counters
      next_transport_sequence slots_used]; try done; [by destruct Hcore|lia].
Qed.

(** Once poisoned, always poisoned, with the first reason. *)
Lemma observe_poisoned r k o reason :
  poisoned r = Some reason → observe o (r, k) = Threw reason (r, k).
Proof.
  intros Hp. unfold observe, mbind, state_bind, on_fst, gets. simpl.
  by rewrite Hp.
Qed.

(** ** A run *)

Fixpoint observe_all (os : list TracerTaskObservationV1) :
    state_m (TracerTaskStateRecorderV1 * K) TracerTaskExecuteOnlyReasonV1 () :=
  match os with
  | [] => mret ()
  | o :: os => observe o;; observe_all os
  end.
End Observe.

(** The recorder and its log after a run that kept every event. *)
Record run_wf (r : TracerTaskStateRecorderV1) (log : list NormalizedTracerTaskEventV1) : Prop := {
  run_inv : recorder_wf r;
  run_healthy : poisoned r = None;
  run_replay : replay log = Some (abs r);
  run_ordered : StronglySorted Z.lt (event_sequence <$> log);
  run_bounded : Forall (λ e, 1 <= event_sequence e < next_transport_sequence r) log;
}.

Lemma run_wf_new : run_wf new [].
Proof. split; [apply new_wf|done|done|constructor|constructor]. Qed.

Lemma sorted_snoc (l : list Z) z :
  StronglySorted Z.lt l → Forall (λ y, y < z) l → StronglySorted Z.lt (l ++ [z]).
Proof.
  intros Hs Hl. induction Hs as [|y l Hs IH Hy]; simpl; [by repeat constructor|].
  inversion Hl; subst. constructor; [by apply IH|]. apply Forall_app. by repeat constructor.
Qed.

Lemma run_wf_observed r log o event r' log' :
  run_wf r log → observed r log o event r' log' → run_wf r' log'.
Proof.
  intros [Hinv Hp Hreplay Hsort Hbound] [[_ Hp'] Hwf _ [Hseq Hnext] Hstep Hev Hsink].
  destruct event as [e|]; simpl in *.
  - injection Hsink as <-. specialize (Hev e eq_refl).
    pose proof (wf_sequence _ Hinv) as Hs. destruct (wf_core _ Hinv) as [_ [] _].
    split; try done.
    + unfold replay in *. rewrite replay_from_snoc, Hreplay. done.
    + rewrite fmap_app. apply sorted_snoc; [done|]. apply Forall_fmap.
      eapply Forall_impl, Hbound. intros x Hx; cbn in *; lia.
    + apply Forall_app. split; [eapply Forall_impl, Hbound; intros x Hx; cbn in *; lia|].
      constructor; [lia|done].
  - subst log'. injection Hstep as Habs. split; try done.
    + by rewrite <- Habs.
    + eapply Forall_impl, Hbound. intros x Hx; cbn in *; lia.
Qed.

Lemma observe_all_spec os r log :
  run_wf r log →
  wp (observe_all os) (λ _ '(r', log'), run_wf r' log')
    (λ e '(r', log'), poisoned r' = Some e ∧ is_Some (replay log')) (r, log).
Proof.
  revert r log. induction os as [|o os IH]; intros r log Hrun; simpl; [done|].
  eapply wp_bind_with.
  - apply observe_spec. intros _. apply Hrun.
  - intros _ [r' log'] [event Ho]. apply IH. by eapply run_wf_observed.
  - intros e [r' log'] (Hp & _ & Hlog). split; [done|].
    destruct Hlog as [->|(event & Hemit & _)]; [|done]. rewrite (run_replay _ _ Hrun). by eexists.
Qed.

(** ** Completion *)

(** Everything that was born is gone and no correlation is open. *)
Definition drained (r : TracerTaskStateRecorderV1) : bool :=
  negb (slots_used r =? 0)%nat && negb (any (λ l, negb (is_gone l)) (abs r))
  && negb (any is_occupied (pending_children r)).

Lemma checked_sum_Some a l :
  Forall (λ z, 0 <= z) l → a + foldr Z.add 0 l <= U64_MAX →
  checked_sum a l = Some (a + foldr Z.add 0 l).
Proof.
  unfold checked_sum. intros Hl. revert a.
  induction Hl as [|z l Hz Hl IH]; intros a Hsum; simpl in *; [f_equal; lia|].
  assert (0 <= foldr Z.add 0 l) by (clear IH Hsum; induction Hl; simpl; lia).
  assert (u64_checked_add a z = Some (a + z)) as -> by (apply u64_checked_add_Some; lia).
  rewrite IH by lia. f_equal. lia.
Qed.

Section Complete.
Context {r : TracerTaskStateRecorderV1}.
Hypothesis Hwf : recorder_wf r.
Let Hshape := core_shape _ _ (wf_core _ Hwf).

Lemma is_gone_reaped i t :
  tasks r !! i = Some t → (i < slots_used r)%nat →
  is_gone (abs_task t) = true ↔ phase t = Reaped ∧ raw_tid t = 0.
Proof.
  intros Hi Hlt. pose proof (slot_phase _ _ (shape_slot _ _ _ Hshape i t Hi Hlt)) as Hp.
  unfold is_gone, abs_task, abs_status. simpl. destruct (phase t); naive_solver.
Qed.

(** The scans of [complete] look for what is not drained. *)
Lemma drained_scan :
  (slots_used r =? 0)%nat
  || any (λ task, negb (bool_decide (phase task = Reaped)) || negb (raw_tid task =? 0))
       (take (slots_used r) (tasks r))
  || any (λ pending, negb (pending_raw_tid pending =? 0)) (pending_children r)
  = negb (drained r).
Proof.
  unfold drained. rewrite !negb_andb, !negb_involutive. f_equal. f_equal.
  unfold abs. rewrite any_fmap. apply any_ext. intros i t [Hi Hlt]%lookup_take_Some.
  pose proof (is_gone_reaped i t Hi Hlt) as Hg.
  destruct (is_gone (abs_task t)); destruct Hg as [Hg1 Hg2].
  - destruct Hg1 as [-> ->]; done.
  - destruct (bool_decide_reflect (phase t = Reaped)); [|done].
    destruct (Z.eqb_spec (raw_tid t) 0); [|done]. naive_solver.
Qed.

(** On a drained recorder the counters of the slots are determined. *)
Lemma drained_counts :
  drained r = true →
  count is_exited (tasks r) = slots_used r ∧ count is_reaped (tasks r) = slots_used r
  ∧ count has_pending_syscall (tasks r) = 0%nat ∧ (count exec_seen_ever (tasks r) ≤ slots_used r)%nat
  ∧ count is_announced (pending_children r) = 0%nat ∧ count ready_seen (pending_children r) = 0%nat.
Proof.
  unfold drained. intros H. bool_to_prop. rewrite any_false in H0. rewrite any_false in H1.
  assert (length (take (slots_used r) (tasks r)) = slots_used r) as Hlen.
  { rewrite length_take. pose proof (shape_used_le Hshape).
    rewrite (shape_tasks _ _ _ Hshape). lia. }
  assert (∀ i t, take (slots_used r) (tasks r) !! i = Some t →
    phase t = Reaped ∧ pending_syscall t = None) as Hgone.
  { intros i t [Hi Hlt]%lookup_take_Some.
    pose proof (slot_phase _ _ (shape_slot _ _ _ Hshape i t Hi Hlt)) as Hp.
    specialize (H1 i _ (abs_lookup _ _ _ Hi Hlt)). simpl in H1. bool_to_prop.
    apply (is_gone_reaped i t Hi Hlt) in H1 as [E _]. rewrite E in Hp. naive_solver. }
  assert (∀ k p, pending_children r !! k = Some p → p = PendingChildCorrelationV1_EMPTY) as Hempty.
  { intros k p Hk. destruct (shape_pending _ _ _ Hshape k p Hk) as [|[Hpos _]]; [done|].
    specialize (H0 k p Hk). by rewrite occupied_pos in H0. }
  assert (∀ (p : TaskSlotV1 → bool), p TaskSlotV1_EMPTY = false →
    count p (tasks r) = count p (take (slots_used r) (tasks r))) as Htake.
  { intros p Hp. apply count_take. intros i t Hi Hge. by rewrite (shape_unused _ _ _ Hshape i t). }
  rewrite !Htake by done. split_and!.
  - rewrite count_all; [done|]. intros i t [E _]%Hgone. unfold is_exited. by rewrite E.
  - rewrite count_all; [done|]. intros i t [E _]%Hgone. unfold is_reaped. by rewrite E.
  - apply count_zero. intros i t [_ E]%Hgone. unfold has_pending_syscall. by rewrite E.
  - rewrite <- Hlen at 2. apply count_le_length.
  - apply count_zero. intros k p Hk. by rewrite (Hempty k p Hk).
  - apply count_zero. intros k p Hk. by rewrite (Hempty k p Hk).
Qed.

Lemma counters_in_range :
  checked_sum (initial_birth_count (counters r))
    [child_announcement_count (counters r); child_ready_count (counters r);
     exec_count (counters r); seccomp_entry_count (counters r);
     syscall_exit_count (counters r); ptrace_exit_event_count (counters r);
     terminal_reap_count (counters r)]
  = Some (accepted_transition_count (counters r))
  ∧ u64_checked_add (syscall_exit_count (counters r)) (no_return_resolution_count (counters r))
    = Some (syscall_exit_count (counters r) + no_return_resolution_count (counters r)).
Proof.
  pose proof (wf_sequence _ Hwf). pose proof (wf_sequence_range _ Hwf).
  destruct (core_counts _ _ (wf_core _ Hwf)). split.
  - rewrite checked_sum_Some; [f_equal; simpl; lia|repeat constructor; lia|simpl; lia].
  - apply u64_checked_add_Some. lia.
Qed.

Lemma complete_wf :
  poisoned r = None →
  complete r = if drained r
               then Ok {| task_count := Z.of_nat (slots_used r); summary_counters := counters r |}
               else Err TaskReason.IncompleteShutdown.
Proof.
  intros Hp. unfold complete. rewrite Hp.
  destruct counters_in_range as [-> ->]. cbn [ok_or mbind result_bind].
  rewrite drained_scan. destruct (drained r) eqn:Hd; [|done]. cbn [negb orb].
  destruct (drained_counts Hd) as (E1 & E2 & E3 & E4 & E5 & E6).
  destruct (core_counts _ _ (wf_core _ Hwf)). rewrite E1, E2, E3, E5, E6 in *.
  assert (slots_used r ≠ 0)%nat as Hused by (unfold drained in Hd; by bool_to_prop).
  pose proof (shape_used_le Hshape) as Hmax. unfold TRACER_TASK_MAX_TASKS_V1 in Hmax.
  rewrite checked_sum_Some by (repeat constructor; simpl; unfold U64_MAX; lia).
  replace (orb _ _) with false.
  - destruct (Z.ltb_spec U16_MAX (Z.of_nat (slots_used r))); [unfold U16_MAX in *; lia|done].
  - symmetry. rewrite !orb_false_iff, !negb_false_iff, !Z.eqb_eq, !Z.ltb_ge, bool_decide_eq_true.
    split_and!; try lia. f_equal. simpl. lia.
Qed.
End Complete.

(** The stream that leads to a drained recorder is balanced. *)
Lemma drained_balanced {r log} :
  recorder_wf r → replay log = Some (abs r) → drained r = true →
  Z.of_nat (count is_birth log) = Z.of_nat (slots_used r)
  ∧ count is_exit log = count is_birth log
  ∧ count is_reap log = count is_birth log
  ∧ count is_entry log = (count is_return log + count is_resolution log)%nat.
Proof.
  intros Hwf Hreplay Hd. apply balanced_replay in Hreplay as [Hb _ Hc He Hrp].
  assert (length (abs r) = slots_used r) as Hlen.
  { unfold abs. rewrite length_fmap, length_take.
    pose proof (shape_used_le (core_shape _ _ (wf_core _ Hwf))).
    rewrite (shape_tasks _ _ _ (core_shape _ _ (wf_core _ Hwf))). lia. }
  unfold drained in Hd. bool_to_prop. rewrite any_false in H1. rename H1 into Hno.
  assert (∀ i l, abs r !! i = Some l → is_gone l = true) as Hgone.
  { intros i l Hi. specialize (Hno i l Hi). simpl in Hno. by bool_to_prop. }
  assert (count is_dead (abs r) = length (abs r)) as Hdead.
  { apply count_all. intros i l Hl%Hgone. unfold is_gone, is_dead in *. by destruct (life_now l). }
  assert (count is_open (abs r) = 0%nat) as Hopen.
  { apply count_zero. intros i l Hl%Hgone. unfold is_gone, is_open in *. by destruct (life_now l). }
  pose proof (count_all is_gone (abs r) Hgone). lia.
Qed.

(** ** The theorems *)

(** C1. Every run of observations from a new recorder, whatever they are, ends
    without a panic; while it is accepted, the emitted stream is one the
    abstract lifecycle allows and leads to the recorder's own task table, its
    transport sequences strictly increase, and at most 256 tasks are ever born.
    A rejected run leaves a legal stream and a recorder poisoned with the
    reason it returned. *)
Theorem run_refines_lifecycle os :
  match observe_all os (new, []) with
  | Returned _ (r, log) =>
      recorder_wf r ∧ replay log = Some (abs r)
      ∧ StronglySorted Z.lt (event_sequence <$> log)
      ∧ (length (abs r) ≤ TRACER_TASK_MAX_TASKS_V1)%nat
  | Threw e (r, log) => poisoned r = Some e ∧ is_Some (replay log)
  | Panicked => False
  end.
Proof.
  pose proof (observe_all_spec os new [] run_wf_new) as Hrun. unfold wp in Hrun.
  destruct (observe_all os (new, [])) as [[] [r log]|e [r log]|]; [|done|done].
  destruct Hrun as [Hwf _ Hreplay Hsort _]. split_and!; try done.
  unfold abs. rewrite length_fmap, length_take.
  pose proof (shape_used_le (core_shape _ _ (wf_core _ Hwf))). lia.
Qed.

(** C3. One observation of a recorder that satisfies the invariant, with any
    sink: it never panics; accepted, it consumed exactly the next transport
    sequence, kept the invariant, delivered at most one event to the sink, and
    that event is a step of the abstract lifecycle; rejected, it returns the
    reason the recorder is now poisoned with, and the sink was untouched unless
    it was the sink that refused the event. *)
Theorem observe_invariant {K} `{NormalizedTracerTaskEventSinkV1 K} r (k : K) o :
  recorder_inv r →
  match observe o (r, k) with
  | Returned _ (r', k') => ∃ event, observed r k o event r' k'
  | Threw e (r', k') => rejected r k e r' k'
  | Panicked => False
  end.
Proof. apply observe_spec. Qed.

Lemma observe_invariant_witness :
  ∃ event r' k', observed new {| sink_capacity := 1; sink_log := [] |} (ObsInitialBirth 1 41) event r' k'.
Proof.
  pose proof (observe_invariant new {| sink_capacity := 1; sink_log := [] |} (ObsInitialBirth 1 41)
    (λ _, new_wf)) as H.
  destruct (observe (ObsInitialBirth 1 41) _) as [[] [r' k']|e [r' k']|] eqn:E.
  - destruct H as [event H]. by exists event, r', k'.
  - vm_compute in E. discriminate E.
  - destruct H.
Defined.

(** C40. Poisoning is permanent: after a run was rejected, whatever the sink,
    every later observation and the completion return the first reason again
    and change neither the recorder nor the sink. *)
Theorem poison_permanent {K} `{NormalizedTracerTaskEventSinkV1 K} os (k : K) e r k' :
  observe_all os (new, k) = Threw e (r, k') →
  complete r = Err e ∧ ∀ o rest, observe_all (o :: rest) (r, k') = Threw e (r, k').
Proof.
  intros Hrun. assert (poisoned r = Some e) as Hp.
  { cut (wp (observe_all os) (λ _ _, True) (λ e s, poisoned s.1 = Some e) (new, k)).
    { intros Hwp. by apply (wp_Threw _ _ _ _ _ _ Hwp Hrun). }
    clear Hrun. generalize new_wf. generalize new. revert k.
    induction os as [|o os IH]; intros k r0 Hwf; simpl; [done|].
    eapply wp_bind_with; [by apply observe_spec; intros _| |].
    - intros _ [r1 k1] [event Ho]. apply IH, Ho.
    - by intros e' [r1 k1] (? & _). }
  split; [unfold complete; by rewrite Hp|]. intros o rest. simpl.
  unfold mbind, state_bind. by rewrite (observe_poisoned r k' o e Hp).
Qed.

Lemma poison_permanent_witness :
  ∃ r (log : list NormalizedTracerTaskEventV1), complete r = Err TaskReason.ReapBeforePtraceExit
    ∧ ∀ o rest, observe_all (o :: rest) (r, log) = Threw TaskReason.ReapBeforePtraceExit (r, log).
Proof.
  destruct (observe_all [ObsInitialBirth 1 41; ObsTerminalReap 2 41 (Exited 0)]
    (new, [] : list NormalizedTracerTaskEventV1)) as [[] [r log]|e [r log]|] eqn:E.
  - vm_compute in E. discriminate E.
  - assert (e = TaskReason.ReapBeforePtraceExit) as -> by (vm_compute in E; congruence).
    exists r, log. exact (poison_permanent _ _ _ _ _ E).
  - vm_compute in E. discriminate E.
Defined.

(** Completion is exact: on a healthy recorder that satisfies the
    invariant it succeeds exactly when a task was born, every task is reaped
    and no child correlation is open, and otherwise it reports an incomplete
    shutdown. The counter cross-checks of the code never reject more, and no
    sum of theirs overflows. *)
Theorem complete_exact r :
  recorder_wf r → poisoned r = None →
  complete r = if drained r
               then Ok {| task_count := Z.of_nat (slots_used r); summary_counters := counters r |}
               else Err TaskReason.IncompleteShutdown.
Proof. apply complete_wf. Qed.

(** A root that forks, both tasks exiting through [exit_group]. *)
Definition fork_run : list TracerTaskObservationV1 :=
  [ObsInitialBirth 1 41; ObsSeccompEntry 2 41 TRACER_TASK_FORK_NR_X86_64_V1;
   ObsChildAnnouncement 3 41 42 ChildFork NewThreadGroup; ObsChildReady 4 42;
   ObsSyscallExit 5 41 42;
   ObsSeccompEntry 6 42 TRACER_TASK_EXIT_GROUP_NR_X86_64_V1;
   ObsPtraceExitEvent 7 42 (Exited 3); ObsTerminalReap 8 42 (Exited 3);
   ObsSeccompEntry 9 41 TRACER_TASK_EXIT_GROUP_NR_X86_64_V1;
   ObsPtraceExitEvent 10 41 (Exited 0); ObsTerminalReap 11 41 (Exited 0)].

Lemma complete_exact_witness :
  complete new = Err TaskReason.IncompleteShutdown
  ∧ ∃ r, complete r = Ok {| task_count := 2; summary_counters := counters r |}.
Proof.
  split; [exact (complete_exact new new_wf eq_refl)|].
  destruct (observe_all fork_run (new, [] : list NormalizedTracerTaskEventV1))
    as [[] [r log]|e s|] eqn:E; [|vm_compute in E; discriminate E..].
  pose proof (wp_Returned _ _ _ _ _ _ (observe_all_spec fork_run new [] run_wf_new) E)
    as [Hwf Hhealthy _ _ _].
  exists r. rewrite (complete_exact r Hwf Hhealthy).
  vm_compute in E. injection E as <- _. vm_compute. reflexivity.
Defined.

(** A run that completes emitted a balanced stream: as many births as
    exits as reaps, namely the reported task count, and every entered call was
    returned from or resolved by the exit that never returned. *)
Theorem completed_run_balanced os r log summary :
  observe_all os (new, []) = Returned () (r, log) → complete r = Ok summary →
  Z.of_nat (count is_birth log) = task_count summary
  ∧ count is_exit log = count is_birth log
  ∧ count is_reap log = count is_birth log
  ∧ count is_entry log = (count is_return log + count is_resolution log)%nat.
Proof.
  intros Hrun Hcomplete.
  pose proof (wp_Returned _ _ _ _ _ _ (observe_all_spec os new [] run_wf_new) Hrun) as Hr.
  simpl in Hr. destruct Hr as [Hwf Hhealthy Hreplay _ _].
  rewrite (complete_wf Hwf Hhealthy) in Hcomplete. destruct (drained r) eqn:Hd; [|done].
  injection Hcomplete as <-. by apply (drained_balanced Hwf).
Qed.

Lemma completed_run_balanced_witness :
  ∃ log : list NormalizedTracerTaskEventV1,
    Z.of_nat (count is_birth log) = 2 ∧ count is_exit log = count is_birth log
    ∧ count is_reap log = count is_birth log
    ∧ count is_entry log = (count is_return log + count is_resolution log)%nat.
Proof.
  destruct (observe_all fork_run (new, [] : list NormalizedTracerTaskEventV1))
    as [[] [r log]|e s|] eqn:E; [|vm_compute in E; discriminate E..].
  destruct (complete r) as [summary|] eqn:Hc;
    [|vm_compute in E; injection E as <- _; vm_compute in Hc; discriminate Hc].
  exists log. replace 2 with (task_count summary).
  - exact (completed_run_balanced _ _ _ _ E Hc).
  - vm_compute in E. injection E as <- _. vm_compute in Hc. injection Hc as <-. reflexivity.
Defined.

(** ** What the accepted observations say about raw TIDs *)

(** The handler inside an accepted observation. *)
Lemma observe_Returned {K} `{NormalizedTracerTaskEventSinkV1 K} o r (k : K) r' k' :
  observe o (r, k) = Returned () (r', k') →
  ∃ event c r1, dispatch (observation_sequence o) o r = Returned (event, c) r1
    ∧ r' = with_accepted c (next_transport_sequence r + 1) r1.
Proof.
  unfold observe, mbind, state_bind, on_fst, gets. simpl.
  destruct (poisoned r); [done|]. case_match; [done|]. case_match; [done|].
  destruct (u64_checked_add _ _) as [next|] eqn:Hnext; [|done].
  apply u64_checked_add_Some in Hnext as [-> _]. unfold or_poison.
  destruct (dispatch _ o r) as [[event c] r1|e r1|] eqn:Hd; [|done|done].
  intros Hrun. exists event, c, r1. split; [done|].
  destruct event as [event|]; simpl in Hrun.
  - unfold sink_emit in Hrun. destruct (emit k event) as [[[]|[]] k1]; simpl in Hrun;
      unfold modify in Hrun; simpl in Hrun; congruence.
  - unfold modify in Hrun; simpl in Hrun; congruence.
Qed.

(** An accepted terminal reap was for a live TID and frees it: afterwards
    no task owns that TID, so that the kernel may hand it out again. *)
Theorem reap_frees_tid {K} `{NormalizedTracerTaskEventSinkV1 K} r (k : K) s tid termination r' k' :
  recorder_wf r → observe (ObsTerminalReap s tid termination) (r, k) = Returned () (r', k') →
  contains_live_raw_tid r tid = true ∧ contains_live_raw_tid r' tid = false.
Proof.
  intros Hwf Hobs. pose proof (wf_core _ Hwf) as Hcore.
  apply observe_Returned in Hobs as (event & c & r1 & Hd & ->). simpl in Hd.
  cut (wp (observe_terminal_reap s tid termination) (λ _ r1, contains_live_raw_tid r tid = true
    ∧ contains_live_raw_tid r1 tid = false) (λ _ _, True) r).
  { intros Hwp. exact (wp_Returned _ _ _ _ _ _ Hwp Hd). }
  clear Hd. unfold observe_terminal_reap. wp_step; [by wp_steps|]. unfold live_task_index.
  wp_step. wp_bind_result (require_positive_tid_Ok tid); [|done]. rename H0 into Hpos.
  wp_step; wp_step. apply wp_lift_result; [|done].
  intros i Hlive%ok_or_Ok. simpl in Hlive.
  destruct (find_live_task_Some Hcore tid i Hlive) as (t & Hi & Hlt & Hslot & Htid & Hnr).
  apply wp_bind. eapply wp_task_at; [done|]. wp_step; try by wp_steps.
  wp_step; [by wp_steps|]. apply wp_bind. eapply wp_update_task; [done|].
  apply wp_accept_event; [|done]. unfold contains_live_raw_tid. split.
  { rewrite Hlive. done. }
  apply bool_decide_eq_false, eq_None_not_Some, position_None.
  intros j u [Hj Hjlt]%lookup_take_Some. cbn [with_tasks tasks slots_used] in Hj, Hjlt.
  unfold owns_tid. lookup_cases Hj; [by rewrite andb_false_r|].
  destruct (Z.eqb_spec (raw_tid u) tid) as [E|]; [|done].
  destruct (shape_tid _ _ _ (core_shape _ _ Hcore) j i u t Hj Hi); lia || congruence.
Qed.

Lemma reap_frees_tid_witness :
  ∃ (r r' : TracerTaskStateRecorderV1),
    contains_live_raw_tid r 42 = true ∧ contains_live_raw_tid r' 42 = false.
Proof.
  pose proof (observe_all_spec (take 7 fork_run) new [] run_wf_new) as Hrun. unfold wp in Hrun.
  destruct (observe_all (take 7 fork_run) (new, [] : list NormalizedTracerTaskEventV1))
    as [[] [r log]|e [r log]|] eqn:E; [|vm_compute in E; discriminate E|destruct Hrun].
  destruct (observe (ObsTerminalReap 8 42 (Exited 3)) (r, log)) as [[] [r' log']|e' [r' log']|]
    eqn:E'.
  - exists r, r'. exact (reap_frees_tid r log _ _ _ r' log' (run_inv _ _ Hrun) E').
  - vm_compute in E. injection E as <- <-. vm_compute in E'. discriminate E'.
  - vm_compute in E. injection E as <- <-. vm_compute in E'. discriminate E'.
Defined.

(** Clearing the pending call of the owner of a TID closes it for that TID. *)
Lemma pending_closed {r : TracerTaskStateRecorderV1} i t :
  shape_wf (tasks r) (pending_children r) (slots_used r) →
  tasks r !! i = Some t → 0 < raw_tid t →
  pending_syscall_number (with_tasks (<[i := clear_pending t None]>) r) (raw_tid t) = None.
Proof.
  intros Hshape Hi Hpos. unfold pending_syscall_number.
  destruct (find_live_task _ _) as [j|] eqn:Hlive; [|done]. simpl.
  destruct (_ !! j) as [u|] eqn:Hj; [|done]. simpl.
  apply position_Some in Hlive as [(u' & Hj' & Howns) _].
  apply lookup_take_Some in Hj' as [Hj' _]. cbn [with_tasks tasks] in Hj, Hj'.
  rewrite Hj in Hj'. injection Hj' as <-.
  lookup_cases Hj; [done|]. unfold owns_tid in Howns. bool_to_prop.
  destruct (shape_tid _ _ _ Hshape j i u t Hj Hi); lia || done.
Qed.

Lemma check_creation_result_cases t result u :
  check_creation_result t result = Ok u →
  (-4095 <= result <= -1 ∧ pending_child_raw_tid t = 0)
  ∨ (0 < result ∧ result = pending_child_raw_tid t ∧ child_ready_seen_for_pending t = true).
Proof.
  unfold check_creation_result.
  destruct (Z.leb_spec (-4095) result), (Z.leb_spec result (-1)), (Z.leb_spec 1 result),
    (Z.eqb_spec (pending_child_raw_tid t) 0), (child_ready_seen_for_pending t) eqn:Hready,
    (Z.eqb_spec result (pending_child_raw_tid t)); simpl; intros Hok; try discriminate Hok;
    (left; lia) || (right; split_and!; [lia|lia|done]).
Qed.

(** The result of a creation call is explained by the child: an accepted
    return from [fork], [vfork], [clone] or [clone3] is either an error with no
    child announced, or exactly the TID of the announced child, which has been
    born by then; and the call is closed. *)
Theorem creation_result_is_child {K} `{NormalizedTracerTaskEventSinkV1 K}
    r (k : K) s tid result i t nr r' k' :
  recorder_wf r → observe (ObsSyscallExit s tid result) (r, k) = Returned () (r', k') →
  find_live_task r tid = Some i → tasks r !! i = Some t →
  pending_syscall t = Some nr → is_creation_syscall nr = true →
  ((-4095 <= result <= -1 ∧ pending_child_raw_tid t = 0)
   ∨ (0 < result ∧ result = pending_child_raw_tid t ∧ child_ready_seen_for_pending t = true))
  ∧ pending_syscall_number r' tid = None.
Proof.
  intros Hwf Hobs Hlive Hi Hnr Hcr.
  apply observe_Returned in Hobs as (event & c & r1 & Hd & ->). simpl in Hd.
  cut (wp (observe_syscall_exit s tid result) (λ _ r1,
    ((-4095 <= result <= -1 ∧ pending_child_raw_tid t = 0)
     ∨ (0 < result ∧ result = pending_child_raw_tid t ∧ child_ready_seen_for_pending t = true))
    ∧ pending_syscall_number r1 tid = None) (λ _ _, True) r).
  { intros Hwp. exact (wp_Returned _ _ _ _ _ _ Hwp Hd). }
  clear Hd. pose proof (wf_core _ Hwf) as Hcore. pose proof (core_shape _ _ Hcore) as Hshape.
  destruct (find_live_task_Some Hcore tid i Hlive) as (t' & Hi' & _ & _ & Htid & _).
  simplify_eq. unfold observe_syscall_exit.
  apply wp_bind, (wp_running_task_index Hcore); [|done].
  intros j u Hpos Hj Hlt Hslot Htid Hrun.
  assert (j = i) as -> by (apply (shape_tid _ _ _ Hshape j i u t Hj Hi); lia || congruence).
  simplify_eq. apply wp_bind. eapply wp_task_at; [done|].
  apply wp_bind, wp_lift_result; [intros nr' E%ok_or_Ok|done]. simplify_eq.
  wp_step; [by wp_steps|]. wp_step; [by wp_steps|]. rewrite Hcr.
  apply wp_bind, (wp_mono _ (λ _ s, s = r) _ (λ _ _, True)); [by wp_steps| |done].
  intros _ ? ->. apply wp_bind, wp_lift_result; [|done]. intros [] Hcheck.
  apply wp_bind. eapply wp_update_task; [done|]. apply wp_accept_event; [|done]. split.
  - by eapply check_creation_result_cases.
  - by apply pending_closed.
Qed.

Lemma creation_result_is_child_witness :
  ∃ t : TaskSlotV1, 0 < 42 ∧ 42 = pending_child_raw_tid t ∧ child_ready_seen_for_pending t = true.
Proof.
  pose proof (observe_all_spec (take 4 fork_run) new [] run_wf_new) as Hrun. unfold wp in Hrun.
  destruct (observe_all (take 4 fork_run) (new, [] : list NormalizedTracerTaskEventV1))
    as [[] [r log]|e [r log]|] eqn:E; [|vm_compute in E; discriminate E|destruct Hrun].
  destruct (observe (ObsSyscallExit 5 41 42) (r, log)) as [[] [r' log']|e' [r' log']|] eqn:E';
    [|vm_compute in E; injection E as <- <-; vm_compute in E'; discriminate E'..].
  destruct (tasks r !! 0%nat) as [t|] eqn:Ht;
    [|vm_compute in E; injection E as <- <-; vm_compute in Ht; discriminate Ht].
  destruct (creation_result_is_child r log 5 41 42 0 t TRACER_TASK_FORK_NR_X86_64_V1 r' log'
    (run_inv _ _ Hrun) E') as [[[[_ H] _]|H] _].
  - vm_compute in E. injection E as <- <-. reflexivity.
  - exact Ht.
  - vm_compute in E. injection E as <- <-. vm_compute in Ht. injection Ht as <-. reflexivity.
  - reflexivity.
  - vm_compute in H. destruct H. reflexivity.
  - exists t. exact H.
Defined.
