(* ===== verification/Supervisor.v ===== *)
(** * The stop and response correlation planner

    [src/src/linux_pytest/tracer_supervisor_state.rs]: the planner that
    composes the decoders and the task recorder. Each kernel stop gets a fresh
    generation; every intent it issues is a token bound to one session, one
    task, one stop and one kind of exchange; at most one exchange is pending.
    The first rejection poisons the planner for good.

    Rust's tokens are linear (neither [Clone] nor [Copy]); here they are plain
    values, so the theorems about them also cover a token presented twice.

    Definitions only; [SupervisorInv] and [SupervisorTheorems] hold the
    proofs. *)

From S2P Require Import Prelude Monad Bytes WaitStatus TracerSeccomp EventMessage SyscallInfo.
From S2P Require Import TaskState ForkDecode.

Definition MAX_PENDING_CHILD_STOPS_V1 : nat := TRACER_TASK_MAX_TASKS_V1 - 1.
#[global] Arguments MAX_PENDING_CHILD_STOPS_V1 : simpl never.

Inductive TracerSupervisorSyscallInfoKindV1 := InfoSeccompEntry | InfoSyscallExit.
Inductive TracerSupervisorResumeRequestV1 := ResumeContinue | ResumeSyscall.
Inductive ResumeStepPositionV1 := OnlyOrChild | ParentPosition.

#[global] Instance TracerSupervisorSyscallInfoKindV1_eq_dec :
  EqDecision TracerSupervisorSyscallInfoKindV1.
Proof. solve_decision. Defined.
#[global] Instance TracerSupervisorResumeRequestV1_eq_dec :
  EqDecision TracerSupervisorResumeRequestV1.
Proof. solve_decision. Defined.
#[global] Instance ResumeStepPositionV1_eq_dec : EqDecision ResumeStepPositionV1.
Proof. solve_decision. Defined.

Record PendingResumeStepV1 := {
  step_brand : Z;
  step_tid : Z;
  step_generation : Z;
  step_request : TracerSupervisorResumeRequestV1;
}.

Inductive PendingResumeCursorV1 :=
| One (step : PendingResumeStepV1)
| ChildThenParent (child parent : PendingResumeStepV1)
| Parent (step : PendingResumeStepV1).

Definition current (self : PendingResumeCursorV1) :
    PendingResumeStepV1 * ResumeStepPositionV1 :=
  match self with
  | One step => (step, OnlyOrChild)
  | ChildThenParent child _ => (child, OnlyOrChild)
  | Parent step => (step, ParentPosition)
  end.

Definition advanced (self : PendingResumeCursorV1) : option PendingResumeCursorV1 :=
  match self with
  | One _ | Parent _ => None
  | ChildThenParent _ parent => Some (Parent parent)
  end.

(** ** Tokens and intents *)

Record TracerSupervisorEventMessageReadV1 := {
  message_brand : Z;
  message_tid : Z;
  message_generation : Z;
  message_event : LinuxPtraceEventV1;
}.

Record TracerSupervisorSyscallInfoReadV1 := {
  info_brand : Z;
  info_tid : Z;
  info_generation : Z;
  info_kind : TracerSupervisorSyscallInfoKindV1;
}.

Record StoppedSeccompTaskPermitV1 := {
  permit_brand : Z;
  permit_tid : Z;
  permit_generation : Z;
  permit_frame : DecodedSeccompSyscallInfoX8664V1;
}.

Record TracerSupervisorClone3ArgsReadV1 := {
  args_brand : Z;
  args_tid : Z;
  args_generation : Z;
  args_address : Z;
  args_byte_count : Z;
  args_frame : DecodedSeccompSyscallInfoX8664V1;
}.

Record TracerSupervisorResumeIntentV1 := {
  resume_brand : Z;
  resume_position : ResumeStepPositionV1;
  resume_tid : Z;
  resume_generation : Z;
  resume_request : TracerSupervisorResumeRequestV1;
}.

Inductive TracerSupervisorIntentV1 :=
| ReadEventMessage (token : TracerSupervisorEventMessageReadV1)
| ReadSyscallInfo (token : TracerSupervisorSyscallInfoReadV1)
| HoldStoppedSeccompTask (permit : StoppedSeccompTaskPermitV1)
| ReadClone3Args (token : TracerSupervisorClone3ArgsReadV1)
| Resume (intent : TracerSupervisorResumeIntentV1)
| WaitForNextStop.

Module SupReason.
Inductive TracerSupervisorExecuteOnlyReasonV1 :=
| InvalidRawTid | SessionBrandExhausted | UnknownRawTid | StopGenerationOverflow
| TransportSequenceOverflow | StopWhileExchangePending
| WaitStatusDecode (error : LinuxWaitStatusDecodeErrorV1)
| ContinuedStatusUnsupported | EventZeroStopUnsupported | EventStopContextAmbiguous
| ChildInitialStopCorrelationMissing | UnexpectedSyscallStop | UnexpectedPtraceEvent
| EventMessageResponseOutOfOrder | EventMessageCorrelationMismatch
| EventMessageDecode (error : LinuxPtraceEventMessageDecodeErrorV1)
| EventMessageShapeMismatch | SyscallInfoResponseOutOfOrder | SyscallInfoCorrelationMismatch
| SyscallInfoDecode (error : PtraceSyscallInfoDecodeErrorV1)
| SyscallInfoShapeMismatch | SeccompPermitResponseOutOfOrder
| SeccompPermitCorrelationMismatch | Clone3ArgsReadResponseOutOfOrder
| Clone3ArgsReadCorrelationMismatch | Clone3ArgsReadUnavailable
| ForkFamilyDecode (error : ForkFamilyDecodeErrorV1)
| PendingForkCapacityExceeded | DuplicatePendingFork | ForkEventMismatch
| DuplicatePendingChildStop | PendingChildStopCapacityExceeded
| ChildInitialStopCorrelationAmbiguous | ResumeConfirmationOutOfOrder
| ResumeCorrelationMismatch | IncompleteShutdown
| TaskState (error : TracerTaskExecuteOnlyReasonV1).

#[global] Instance TracerSupervisorExecuteOnlyReasonV1_eq_dec :
  EqDecision TracerSupervisorExecuteOnlyReasonV1.
Proof. solve_decision. Defined.
End SupReason.
Abbreviation TracerSupervisorExecuteOnlyReasonV1 := SupReason.TracerSupervisorExecuteOnlyReasonV1.

(** ** State *)

Inductive PendingExchangeV1 :=
| NoExchange
| EventMessageExchange (brand tid generation : Z) (event : LinuxPtraceEventV1)
| SyscallInfoExchange (brand tid generation : Z) (kind : TracerSupervisorSyscallInfoKindV1)
| SeccompPermitExchange (brand tid generation : Z)
| Clone3ArgsReadExchange (brand tid generation address byte_count : Z)
| ResumeExchange (brand : Z) (cursor : PendingResumeCursorV1).

Record PendingForkV1 := {
  fork_tid : Z;
  fork_event : LinuxPtraceEventV1;
  fork_observation : option ForkFamilyBirthObservationV1;
  held_child_raw_tid : Z;
  held_parent_stop_generation : Z;
}.

Definition PendingForkV1_EMPTY : PendingForkV1 :=
  {| fork_tid := 0; fork_event := EvFork; fork_observation := None;
     held_child_raw_tid := 0; held_parent_stop_generation := 0 |}.

Record PendingChildStopV1 := { child_stop_tid : Z; child_stop_generation : Z }.

Definition PendingChildStopV1_EMPTY : PendingChildStopV1 :=
  {| child_stop_tid := 0; child_stop_generation := 0 |}.

Record TracerSupervisorStateV1 := {
  session_brand : Z;
  task_state : TracerTaskStateRecorderV1;
  pending_forks : list PendingForkV1;
  pending_child_stops : list PendingChildStopV1;
  next_stop_generation : Z;
  sup_transport_sequence : Z;
  exchange : PendingExchangeV1;
  sup_poisoned : option TracerSupervisorExecuteOnlyReasonV1;
}.

Definition with_task_state (r : TracerTaskStateRecorderV1) (s : TracerSupervisorStateV1) :
    TracerSupervisorStateV1 :=
  {| session_brand := session_brand s; task_state := r; pending_forks := pending_forks s;
     pending_child_stops := pending_child_stops s;
     next_stop_generation := next_stop_generation s;
     sup_transport_sequence := sup_transport_sequence s; exchange := exchange s;
     sup_poisoned := sup_poisoned s |}.

Definition with_forks (f : list PendingForkV1 → list PendingForkV1)
    (s : TracerSupervisorStateV1) : TracerSupervisorStateV1 :=
  {| session_brand := session_brand s; task_state := task_state s;
     pending_forks := f (pending_forks s); pending_child_stops := pending_child_stops s;
     next_stop_generation := next_stop_generation s;
     sup_transport_sequence := sup_transport_sequence s; exchange := exchange s;
     sup_poisoned := sup_poisoned s |}.

Definition with_child_stops (f : list PendingChildStopV1 → list PendingChildStopV1)
    (s : TracerSupervisorStateV1) : TracerSupervisorStateV1 :=
  {| session_brand := session_brand s; task_state := task_state s;
     pending_forks := pending_forks s; pending_child_stops := f (pending_child_stops s);
     next_stop_generation := next_stop_generation s;
     sup_transport_sequence := sup_transport_sequence s; exchange := exchange s;
     sup_poisoned := sup_poisoned s |}.

Definition with_generation (g : Z) (s : TracerSupervisorStateV1) : TracerSupervisorStateV1 :=
  {| session_brand := session_brand s; task_state := task_state s;
     pending_forks := pending_forks s; pending_child_stops := pending_child_stops s;
     next_stop_generation := g; sup_transport_sequence := sup_transport_sequence s;
     exchange := exchange s; sup_poisoned := sup_poisoned s |}.

Definition with_sequence (n : Z) (s : TracerSupervisorStateV1) : TracerSupervisorStateV1 :=
  {| session_brand := session_brand s; task_state := task_state s;
     pending_forks := pending_forks s; pending_child_stops := pending_child_stops s;
     next_stop_generation := next_stop_generation s; sup_transport_sequence := n;
     exchange := exchange s; sup_poisoned := sup_poisoned s |}.

Definition with_exchange (x : PendingExchangeV1) (s : TracerSupervisorStateV1) :
    TracerSupervisorStateV1 :=
  {| session_brand := session_brand s; task_state := task_state s;
     pending_forks := pending_forks s; pending_child_stops := pending_child_stops s;
     next_stop_generation := next_stop_generation s;
     sup_transport_sequence := sup_transport_sequence s; exchange := x;
     sup_poisoned := sup_poisoned s |}.

Definition with_sup_poisoned (p : option TracerSupervisorExecuteOnlyReasonV1)
    (s : TracerSupervisorStateV1) : TracerSupervisorStateV1 :=
  {| session_brand := session_brand s; task_state := task_state s;
     pending_forks := pending_forks s; pending_child_stops := pending_child_stops s;
     next_stop_generation := next_stop_generation s;
     sup_transport_sequence := sup_transport_sequence s; exchange := exchange s;
     sup_poisoned := p |}.

(** ** Helpers on [&mut self] *)

Abbreviation supervisor_m :=
  (state_m TracerSupervisorStateV1 TracerSupervisorExecuteOnlyReasonV1).

Definition sup_poison {A} (reason : TracerSupervisorExecuteOnlyReasonV1) : supervisor_m A :=
  s ← gets id;
  let first := default reason (sup_poisoned s) in
  modify (with_sup_poisoned (Some first));;
  mthrow first.

Definition require_healthy : supervisor_m () :=
  s ← gets id;
  match sup_poisoned s with
  | Some reason => mthrow reason
  | None => mret ()
  end.

Definition allocate_stop_generation : supervisor_m Z :=
  s ← gets id;
  let generation := next_stop_generation s in
  match u64_checked_add generation 1 with
  | None => sup_poison SupReason.StopGenerationOverflow
  | Some next => modify (with_generation next);; mret generation
  end.

Definition allocate_transport_sequence : supervisor_m Z :=
  s ← gets id;
  let sequence := sup_transport_sequence s in
  match u64_checked_add sequence 1 with
  | None => sup_poison SupReason.TransportSequenceOverflow
  | Some next => modify (with_sequence next);; mret sequence
  end.

Definition pending_fork_index (s : TracerSupervisorStateV1) (tid : Z) : option nat :=
  position (λ pending, fork_tid pending =? tid) (pending_forks s).

Definition empty_pending_fork_index (s : TracerSupervisorStateV1) : option nat :=
  position (λ pending, fork_tid pending =? 0) (pending_forks s).

Definition awaiting_fork_event_count (s : TracerSupervisorStateV1) : nat :=
  count (λ pending, negb (fork_tid pending =? 0) && (held_child_raw_tid pending =? 0))
    (pending_forks s).

Definition pending_child_stop_count (s : TracerSupervisorStateV1) : nat :=
  count (λ pending, negb (child_stop_tid pending =? 0)) (pending_child_stops s).

Definition pending_child_stop_index (s : TracerSupervisorStateV1) (tid : Z) : option nat :=
  position (λ pending, child_stop_tid pending =? tid) (pending_child_stops s).

Definition empty_pending_child_stop_index (s : TracerSupervisorStateV1) : option nat :=
  pending_child_stop_index s 0.

(** [self.pending_forks[index]] and its write. *)
Definition fork_at (index : nat) : supervisor_m PendingForkV1 :=
  forks ← gets pending_forks; lift_index (forks !! index).

Definition write_fork (index : nat) (f : PendingForkV1 → PendingForkV1) : supervisor_m () :=
  p ← fork_at index; modify (with_forks (<[index := f p]>)).

Definition child_stop_at (index : nat) : supervisor_m PendingChildStopV1 :=
  stops ← gets pending_child_stops; lift_index (stops !! index).

Definition write_child_stop (index : nat) (p : PendingChildStopV1) : supervisor_m () :=
  child_stop_at index;; modify (with_child_stops (<[index := p]>)).

Definition remove_pending_fork (tid : Z) : supervisor_m () :=
  s ← gets id;
  match pending_fork_index s tid with
  | Some index => write_fork index (λ _, PendingForkV1_EMPTY)
  | None => mret ()
  end;;
  s ← gets id;
  if (awaiting_fork_event_count s <? pending_child_stop_count s)%nat
  then sup_poison SupReason.ChildInitialStopCorrelationAmbiguous
  else mret ().

Definition issue_event_message_read (tid generation : Z) (event : LinuxPtraceEventV1) :
    supervisor_m TracerSupervisorIntentV1 :=
  s ← gets id;
  modify (with_exchange (EventMessageExchange (session_brand s) tid generation event));;
  mret (ReadEventMessage {| message_brand := session_brand s; message_tid := tid;
                            message_generation := generation; message_event := event |}).

Definition issue_syscall_info_read (tid generation : Z)
    (kind : TracerSupervisorSyscallInfoKindV1) : supervisor_m TracerSupervisorIntentV1 :=
  s ← gets id;
  modify (with_exchange (SyscallInfoExchange (session_brand s) tid generation kind));;
  mret (ReadSyscallInfo {| info_brand := session_brand s; info_tid := tid;
                           info_generation := generation; info_kind := kind |}).

Definition resume_step (s : TracerSupervisorStateV1) (tid generation : Z)
    (request : TracerSupervisorResumeRequestV1) : PendingResumeStepV1 :=
  {| step_brand := session_brand s; step_tid := tid; step_generation := generation;
     step_request := request |}.

Definition resume_intent (cursor : PendingResumeCursorV1) : TracerSupervisorResumeIntentV1 :=
  let '(step, position) := current cursor in
  {| resume_brand := step_brand step; resume_position := position;
     resume_tid := step_tid step; resume_generation := step_generation step;
     resume_request := step_request step |}.

Definition issue_resume_cursor (cursor : PendingResumeCursorV1) :
    supervisor_m TracerSupervisorIntentV1 :=
  s ← gets id;
  modify (with_exchange (ResumeExchange (session_brand s) cursor));;
  mret (Resume (resume_intent cursor)).

Definition issue_one_resume (step : PendingResumeStepV1) :
    supervisor_m TracerSupervisorIntentV1 :=
  issue_resume_cursor (One step).

Definition issue_child_then_parent_resume (child parent : PendingResumeStepV1) :
    supervisor_m TracerSupervisorIntentV1 :=
  issue_resume_cursor (ChildThenParent child parent).

(** The tail of four operations:
    [let step = self.resume_step(..); Ok(self.issue_one_resume(step))]. *)
Definition resume_one (tid generation : Z) (request : TracerSupervisorResumeRequestV1) :
    supervisor_m TracerSupervisorIntentV1 :=
  s ← gets id;
  issue_one_resume (resume_step s tid generation request).

(** The tail of the two operations that correlate a birth: the child is
    continued first, then the parent to its syscall exit. *)
Definition resume_child_then_parent
    (child_tid child_generation parent_tid parent_generation : Z) :
    supervisor_m TracerSupervisorIntentV1 :=
  s ← gets id;
  let child_step := resume_step s child_tid child_generation ResumeContinue in
  let parent_step := resume_step s parent_tid parent_generation ResumeSyscall in
  issue_child_then_parent_resume child_step parent_step.

Definition validate_ptrace_event_for_task (tid : Z) (event : LinuxPtraceEventV1) :
    supervisor_m () :=
  s ← gets id;
  match event with
  | EvSeccomp =>
      if bool_decide (is_Some (pending_syscall_number (task_state s) tid))
      then sup_poison SupReason.UnexpectedPtraceEvent else mret ()
  | EvFork | EvVfork | EvClone =>
      match pending_fork_index s tid with
      | None => sup_poison SupReason.UnexpectedPtraceEvent
      | Some index =>
          pending ← fork_at index;
          if negb (held_child_raw_tid pending =? 0)
             || negb (bool_decide (fork_event pending = event))
          then sup_poison SupReason.ForkEventMismatch else mret ()
      end
  | EvExec =>
      match pending_syscall_number (task_state s) tid with
      | Some nr => if is_exec_syscall nr then mret ()
                   else sup_poison SupReason.UnexpectedPtraceEvent
      | None => sup_poison SupReason.UnexpectedPtraceEvent
      end
  | EvExit => mret ()
  end.

(** The [for event in [Fork, Vfork, Clone]] loop: the first event the decoder
    does not find mismatched decides. *)
Fixpoint decode_with_events (events : list LinuxPtraceEventV1) (syscall_number : Z)
    (arguments : list Z) (capture : Clone3ArgsCaptureV1) :
    fork_result (LinuxPtraceEventV1 * ForkFamilyBirthObservationV1) :=
  match events with
  | [] => Err PtraceEventMismatch
  | event :: events =>
      match decode_fork_family_entry_x86_64_v1 syscall_number arguments capture event with
      | Ok observation => Ok (event, observation)
      | Err PtraceEventMismatch => decode_with_events events syscall_number arguments capture
      | Err error => Err error
      end
  end.

Definition decode_pending_fork (syscall_number : Z) (arguments : list Z)
    (clone3_capture : option (Z * list Z)) :
    supervisor_m (option (LinuxPtraceEventV1 * ForkFamilyBirthObservationV1)) :=
  if negb (is_creation_syscall syscall_number) then mret None
  else
    let capture := match clone3_capture with
                   | Some (copied_byte_count, buffer) => Exact copied_byte_count buffer
                   | None => NotApplicable
                   end in
    match decode_with_events [EvFork; EvVfork; EvClone] syscall_number arguments capture with
    | Ok decoded => mret (Some decoded)
    | Err error => sup_poison (SupReason.ForkFamilyDecode error)
    end.

Definition confirm_resume_succeeded (intent : TracerSupervisorResumeIntentV1) :
    supervisor_m TracerSupervisorIntentV1 :=
  require_healthy;;
  s ← gets id;
  match exchange s with
  | ResumeExchange brand cursor =>
      let '(expected, position) := current cursor in
      if negb (brand =? session_brand s)
         || negb (step_brand expected =? brand)
         || negb (resume_brand intent =? brand)
         || negb (bool_decide (resume_position intent = position))
         || negb (resume_tid intent =? step_tid expected)
         || negb (resume_generation intent =? step_generation expected)
         || negb (bool_decide (resume_request intent = step_request expected))
      then sup_poison SupReason.ResumeCorrelationMismatch
      else
        match advanced cursor with
        | Some next_cursor =>
            modify (with_exchange (ResumeExchange brand next_cursor));;
            mret (Resume (resume_intent next_cursor))
        | None =>
            modify (with_exchange NoExchange);;
            mret WaitForNextStop
        end
  | _ => sup_poison SupReason.ResumeConfirmationOutOfOrder
  end.

Definition is_no_exchange (x : PendingExchangeV1) : bool :=
  match x with NoExchange => true | _ => false end.

Definition complete_modeled_state_v1 : supervisor_m TracerTaskCompletionSummaryV1 :=
  require_healthy;;
  s ← gets id;
  if negb (is_no_exchange (exchange s))
     || any (λ pending, negb (fork_tid pending =? 0)) (pending_forks s)
     || any (λ pending, negb (child_stop_tid pending =? 0)) (pending_child_stops s)
  then sup_poison SupReason.IncompleteShutdown
  else match complete (task_state s) with
       | Ok summary => mret summary
       | Err error => mthrow (SupReason.TaskState error)
       end.

(** ** Operations that deliver observations to the sink *)

Section Operations.
Context {K : Type} `{NormalizedTracerTaskEventSinkV1 K}.

Abbreviation sink_m :=
  (state_m (TracerSupervisorStateV1 * K) TracerSupervisorExecuteOnlyReasonV1).

Definition emit_task (observation : TracerTaskObservationV1) : sink_m () := λ '(s, k),
  match observe observation (task_state s, k) with
  | Returned _ (r, k') => Returned () (with_task_state r s, k')
  | Threw error (r, k') =>
      on_fst (sup_poison (SupReason.TaskState error)) (with_task_state r s, k')
  | Panicked => Panicked
  end.

(** [let sequence = self.allocate_transport_sequence()?; self.emit_task(..)?]. *)
Definition emit_next (observation : Z → TracerTaskObservationV1) : sink_m () :=
  sequence ← on_fst allocate_transport_sequence;
  emit_task (observation sequence).

Definition accept_fork_event_message (parent_tid generation : Z) (event : LinuxPtraceEventV1)
    (child_tid : Z) : sink_m TracerSupervisorIntentV1 :=
  s ← on_fst (gets id);
  match pending_fork_index s parent_tid with
  | None => on_fst (sup_poison SupReason.UnexpectedPtraceEvent)
  | Some parent_index =>
      pending ← on_fst (fork_at parent_index);
      match fork_observation pending with
      | None => on_fst (sup_poison SupReason.ForkEventMismatch)
      | Some observation =>
          if negb (bool_decide (fork_event pending = event))
             || negb (held_child_raw_tid pending =? 0) then
            on_fst (sup_poison SupReason.ForkEventMismatch)
          else if any (λ '(index, fork), negb (index =? parent_index)%nat
                         && (held_child_raw_tid fork =? child_tid))
                    (imap pair (pending_forks s)) then
            on_fst (sup_poison SupReason.ChildInitialStopCorrelationAmbiguous)
          else
            let pending_child_index := pending_child_stop_index s child_tid in
            if negb (bool_decide (is_Some pending_child_index))
               && (awaiting_fork_event_count s <=? pending_child_stop_count s)%nat then
              on_fst (sup_poison SupReason.ChildInitialStopCorrelationAmbiguous)
            else
              emit_next (λ sequence,
                ObsChildAnnouncement sequence parent_tid child_tid (birth_kind observation)
                  (birth_relation observation));;
              match pending_child_index with
              | Some child_index =>
                  stop ← on_fst (child_stop_at child_index);
                  on_fst (write_child_stop child_index PendingChildStopV1_EMPTY);;
                  on_fst (write_fork parent_index (λ _, PendingForkV1_EMPTY));;
                  on_fst (resume_child_then_parent child_tid
                            (child_stop_generation stop) parent_tid generation)
              | None =>
                  on_fst (write_fork parent_index (λ p,
                    {| fork_tid := fork_tid p; fork_event := fork_event p;
                       fork_observation := fork_observation p;
                       held_child_raw_tid := child_tid;
                       held_parent_stop_generation := generation |}));;
                  on_fst (modify (with_exchange NoExchange));;
                  mret WaitForNextStop
              end
      end
  end.

Definition accept_unannounced_child_initial_stop (child_tid generation : Z) :
    sink_m TracerSupervisorIntentV1 :=
  s ← on_fst (gets id);
  if bool_decide (is_Some (pending_child_stop_index s child_tid)) then
    on_fst (sup_poison SupReason.DuplicatePendingChildStop)
  else if (awaiting_fork_event_count s =? 0)%nat then
    on_fst (sup_poison SupReason.EventStopContextAmbiguous)
  else if (awaiting_fork_event_count s <=? pending_child_stop_count s)%nat then
    on_fst (sup_poison SupReason.ChildInitialStopCorrelationAmbiguous)
  else
    match empty_pending_child_stop_index s with
    | None => on_fst (sup_poison SupReason.PendingChildStopCapacityExceeded)
    | Some index =>
        emit_next (λ sequence, ObsChildReady sequence child_tid);;
        on_fst (write_child_stop index
                  {| child_stop_tid := child_tid; child_stop_generation := generation |});;
        mret WaitForNextStop
    end.

Definition accept_exact_child_initial_stop (child_tid generation : Z) :
    sink_m TracerSupervisorIntentV1 :=
  s ← on_fst (gets id);
  if negb (is_announced_child_awaiting_ready (task_state s) child_tid) then
    on_fst (sup_poison SupReason.EventStopContextAmbiguous)
  else
    match position (λ pending, held_child_raw_tid pending =? child_tid) (pending_forks s) with
    | None => on_fst (sup_poison SupReason.ChildInitialStopCorrelationMissing)
    | Some parent_index =>
        if any (λ pending, held_child_raw_tid pending =? child_tid)
             (drop (parent_index + 1) (pending_forks s)) then
          on_fst (sup_poison SupReason.ChildInitialStopCorrelationAmbiguous)
        else
          pending ← on_fst (fork_at parent_index);
          emit_next (λ sequence, ObsChildReady sequence child_tid);;
          on_fst (write_fork parent_index (λ _, PendingForkV1_EMPTY));;
          on_fst (resume_child_then_parent child_tid generation (fork_tid pending)
                    (held_parent_stop_generation pending))
    end.

(** [matches!(class, PtraceEventStopRequiringContext(c) if c.signal_shape == ..)]. *)
Definition is_initial_child_shape (class : LinuxWaitStatusClassV1) : bool :=
  match class with
  | PtraceEventStopRequiringContext candidate =>
      bool_decide (signal_shape candidate = TrapInitialChildOrInterrupt)
  | _ => false
  end.

Definition observe_wait (tid raw_status : Z) : sink_m TracerSupervisorIntentV1 :=
  on_fst require_healthy;;
  s ← on_fst (gets id);
  if negb (is_no_exchange (exchange s)) then
    on_fst (sup_poison SupReason.StopWhileExchangePending)
  else if tid <=? 0 then on_fst (sup_poison SupReason.InvalidRawTid)
  else
    match decode_linux_wait_status_x86_64_v1 raw_status with
    | Err error => on_fst (sup_poison (SupReason.WaitStatusDecode error))
    | Ok class =>
        let live_task := contains_live_raw_tid (task_state s) tid in
        let announced_child := is_announced_child_awaiting_ready (task_state s) tid in
        if negb (live_task || announced_child) then
          match class with
          | PtraceEventStopRequiringContext candidate =>
              if bool_decide (signal_shape candidate = TrapInitialChildOrInterrupt) then
                generation ← on_fst allocate_stop_generation;
                accept_unannounced_child_initial_stop tid generation
              else on_fst (sup_poison SupReason.EventStopContextAmbiguous)
          | _ => on_fst (sup_poison SupReason.UnknownRawTid)
          end
        else if announced_child && negb live_task && negb (is_initial_child_shape class) then
          on_fst (sup_poison SupReason.EventStopContextAmbiguous)
        else
          generation ← on_fst allocate_stop_generation;
          match class with
          | Final termination =>
              emit_next (λ sequence, ObsTerminalReap sequence tid termination);;
              on_fst (remove_pending_fork tid);;
              mret WaitForNextStop
          | SyscallEntryOrExitStop =>
              s ← on_fst (gets id);
              if bool_decide (pending_syscall_number (task_state s) tid = None) then
                on_fst (sup_poison SupReason.UnexpectedSyscallStop)
              else on_fst (issue_syscall_info_read tid generation InfoSyscallExit)
          | PtraceEvent event =>
              on_fst (validate_ptrace_event_for_task tid event);;
              on_fst (issue_event_message_read tid generation event)
          | PtraceEventStopRequiringContext candidate =>
              if negb (bool_decide (signal_shape candidate = TrapInitialChildOrInterrupt)) then
                on_fst (sup_poison SupReason.EventStopContextAmbiguous)
              else accept_exact_child_initial_stop tid generation
          | EventZeroStopRequiringSiginfo _ =>
              on_fst (sup_poison SupReason.EventZeroStopUnsupported)
          | Continued => on_fst (sup_poison SupReason.ContinuedStatusUnsupported)
          end
    end.

Definition accept_event_message (token : TracerSupervisorEventMessageReadV1) (bytes : list Z) :
    sink_m TracerSupervisorIntentV1 :=
  on_fst require_healthy;;
  s ← on_fst (gets id);
  match exchange s with
  | EventMessageExchange brand tid generation event =>
      if negb (brand =? session_brand s)
         || negb (message_brand token =? brand)
         || negb (message_tid token =? tid)
         || negb (message_generation token =? generation)
         || negb (bool_decide (message_event token = event))
      then on_fst (sup_poison SupReason.EventMessageCorrelationMismatch)
      else
        match decode_linux_ptrace_event_message_x86_64_v1 event bytes with
        | Err error => on_fst (sup_poison (SupReason.EventMessageDecode error))
        | Ok decoded =>
            match event, decoded with
            | EvSeccomp, SeccompTraceCookieSchemaMatched =>
                on_fst (issue_syscall_info_read tid generation InfoSeccompEntry)
            | (EvFork | EvVfork | EvClone), ChildTid child_tid =>
                accept_fork_event_message tid generation event (event_raw_tid child_tid)
            | EvExec, FormerTid former_tid =>
                emit_next (λ sequence, ObsExec sequence tid (event_raw_tid former_tid));;
                on_fst (resume_one tid generation ResumeSyscall)
            | EvExit, ExitTermination termination =>
                emit_next (λ sequence, ObsPtraceExitEvent sequence tid termination);;
                on_fst (remove_pending_fork tid);;
                on_fst (resume_one tid generation ResumeContinue)
            | _, _ => on_fst (sup_poison SupReason.EventMessageShapeMismatch)
            end
        end
  | _ => on_fst (sup_poison SupReason.EventMessageResponseOutOfOrder)
  end.

Definition accept_syscall_info (token : TracerSupervisorSyscallInfoReadV1)
    (returned_byte_count : nat) (buffer : list Z) : sink_m TracerSupervisorIntentV1 :=
  on_fst require_healthy;;
  s ← on_fst (gets id);
  match exchange s with
  | SyscallInfoExchange brand tid generation kind =>
      if negb (brand =? session_brand s)
         || negb (info_brand token =? brand)
         || negb (info_tid token =? tid)
         || negb (info_generation token =? generation)
         || negb (bool_decide (info_kind token = kind))
      then on_fst (sup_poison SupReason.SyscallInfoCorrelationMismatch)
      else
        match decode_ptrace_syscall_info_x86_64_v1 returned_byte_count buffer with
        | Err error => on_fst (sup_poison (SupReason.SyscallInfoDecode error))
        | Ok decoded =>
            match kind, decoded with
            | InfoSeccompEntry, DecodedSeccomp frame =>
                on_fst (modify (with_exchange
                  (SeccompPermitExchange (session_brand s) tid generation)));;
                mret (HoldStoppedSeccompTask
                  {| permit_brand := session_brand s; permit_tid := tid;
                     permit_generation := generation; permit_frame := frame |})
            | InfoSyscallExit, DecodedExit frame =>
                emit_next (λ sequence, ObsSyscallExit sequence tid (return_value frame));;
                on_fst (remove_pending_fork tid);;
                on_fst (resume_one tid generation ResumeContinue)
            | _, _ => on_fst (sup_poison SupReason.SyscallInfoShapeMismatch)
            end
        end
  | _ => on_fst (sup_poison SupReason.SyscallInfoResponseOutOfOrder)
  end.

Definition finish_stopped_seccomp_frame (tid generation : Z)
    (frame : DecodedSeccompSyscallInfoX8664V1) (clone3_capture : option (Z * list Z)) :
    sink_m TracerSupervisorIntentV1 :=
  fork ← on_fst (decode_pending_fork (syscall_number frame) (arguments frame) clone3_capture);
  pending_index ←
    match fork with
    | None => mret None
    | Some _ =>
        s ← on_fst (gets id);
        if bool_decide (is_Some (pending_fork_index s tid)) then
          on_fst (sup_poison SupReason.DuplicatePendingFork)
        else match empty_pending_fork_index s with
             | Some index => mret (Some index)
             | None => on_fst (sup_poison SupReason.PendingForkCapacityExceeded)
             end
    end;
  emit_next (λ sequence, ObsSeccompEntry sequence tid (syscall_number frame));;
  match pending_index, fork with
  | Some index, Some (event, observation) =>
      on_fst (write_fork index (λ _,
        {| fork_tid := tid; fork_event := event; fork_observation := Some observation;
           held_child_raw_tid := 0; held_parent_stop_generation := 0 |}))
  | _, _ => mret ()
  end;;
  on_fst (resume_one tid generation ResumeSyscall).

Definition consume_stopped_seccomp_permit (permit : StoppedSeccompTaskPermitV1) :
    sink_m TracerSupervisorIntentV1 :=
  on_fst require_healthy;;
  s ← on_fst (gets id);
  match exchange s with
  | SeccompPermitExchange brand tid generation =>
      if negb (brand =? session_brand s)
         || negb (permit_brand permit =? brand)
         || negb (permit_tid permit =? tid)
         || negb (permit_generation permit =? generation)
      then on_fst (sup_poison SupReason.SeccompPermitCorrelationMismatch)
      else if syscall_number (permit_frame permit) =? TRACER_TASK_CLONE3_NR_X86_64_V1 then
        match plan_clone3_args_read_x86_64_v1 (arguments (permit_frame permit)) with
        | Err error => on_fst (sup_poison (SupReason.ForkFamilyDecode error))
        | Ok read_spec =>
            on_fst (modify (with_exchange
              (Clone3ArgsReadExchange (session_brand s) tid generation
                 (read_address read_spec) (read_byte_count read_spec))));;
            mret (ReadClone3Args
              {| args_brand := session_brand s; args_tid := tid; args_generation := generation;
                 args_address := read_address read_spec;
                 args_byte_count := read_byte_count read_spec;
                 args_frame := permit_frame permit |})
        end
      else finish_stopped_seccomp_frame tid generation (permit_frame permit) None
  | _ => on_fst (sup_poison SupReason.SeccompPermitResponseOutOfOrder)
  end.

Definition accept_clone3_args_read (token : TracerSupervisorClone3ArgsReadV1)
    (capture : Clone3ArgsCaptureV1) : sink_m TracerSupervisorIntentV1 :=
  on_fst require_healthy;;
  s ← on_fst (gets id);
  match exchange s with
  | Clone3ArgsReadExchange brand tid generation address byte_count =>
      if negb (brand =? session_brand s)
         || negb (args_brand token =? brand)
         || negb (args_tid token =? tid)
         || negb (args_generation token =? generation)
         || negb (args_address token =? address)
         || negb (args_byte_count token =? byte_count)
         || negb (syscall_number (args_frame token) =? TRACER_TASK_CLONE3_NR_X86_64_V1)
         || negb (argument (arguments (args_frame token)) 0 =? address)
         || negb (argument (arguments (args_frame token)) 1 =? as_u64 byte_count)
      then on_fst (sup_poison SupReason.Clone3ArgsReadCorrelationMismatch)
      else
        match capture with
        | Exact copied_byte_count buffer =>
            finish_stopped_seccomp_frame tid generation (args_frame token)
              (Some (copied_byte_count, buffer))
        | Unavailable => on_fst (sup_poison SupReason.Clone3ArgsReadUnavailable)
        | NotApplicable =>
            on_fst (sup_poison (SupReason.ForkFamilyDecode UnexpectedClone3Capture))
        end
  | _ => on_fst (sup_poison SupReason.Clone3ArgsReadResponseOutOfOrder)
  end.

(** The process-wide [AtomicU64] of session brands is the state next to the
    sink; the increment is one atomic update. *)
Definition begin_modeled_state_v1 (initial_tid : Z) :
    state_m (Z * K) TracerSupervisorExecuteOnlyReasonV1 TracerSupervisorStateV1 := λ '(brand, k),
  if initial_tid <=? 0 then Threw SupReason.InvalidRawTid (brand, k)
  else
    match u64_checked_add brand 1 with
    | None => Threw SupReason.SessionBrandExhausted (brand, k)
    | Some next_brand =>
        match observe (ObsInitialBirth 1 initial_tid) (new, k) with
        | Returned _ (r, k') =>
            Returned
              {| session_brand := brand; task_state := r;
                 pending_forks := replicate TRACER_TASK_MAX_TASKS_V1 PendingForkV1_EMPTY;
                 pending_child_stops :=
                   replicate MAX_PENDING_CHILD_STOPS_V1 PendingChildStopV1_EMPTY;
                 next_stop_generation := 1; sup_transport_sequence := 2;
                 exchange := NoExchange; sup_poisoned := None |} (next_brand, k')
        | Threw error (_, k') => Threw (SupReason.TaskState error) (next_brand, k')
        | Panicked => Panicked
        end
    end.
End Operations.
