(* ===== verification/SupervisorInv.v ===== *)
(** * Invariant of the supervisor

    What holds of a planner between two calls, what one call may do to it, and
    the specifications of its private helpers. *)

From S2P Require Import Prelude Monad Bytes WaitStatus TracerSeccomp EventMessage SyscallInfo.
From S2P Require Import TaskState ForkDecode ForkSpec Lifecycle TaskInvariant TaskHandlers.
From S2P Require Import TaskTheorems Supervisor.

(** ** Open stops

    A stop is open from the wait that reported it until its resume is
    confirmed: it is the subject of the pending exchange, or it is parked, as a
    parent whose child has not stopped yet or as a child nobody announced. *)

Definition exchange_generations (x : PendingExchangeV1) : list Z :=
  match x with
  | NoExchange => []
  | EventMessageExchange _ _ g _ | SyscallInfoExchange _ _ g _ | SeccompPermitExchange _ _ g
  | Clone3ArgsReadExchange _ _ g _ _ => [g]
  | ResumeExchange _ (One step) | ResumeExchange _ (Parent step) => [step_generation step]
  | ResumeExchange _ (ChildThenParent child parent) =>
      [step_generation child; step_generation parent]
  end.

Definition parked_parent (g : Z) (p : PendingForkV1) : bool :=
  negb (held_child_raw_tid p =? 0) && (held_parent_stop_generation p =? g).
Definition parked_child (g : Z) (c : PendingChildStopV1) : bool :=
  negb (child_stop_tid c =? 0) && (child_stop_generation c =? g).

Definition open_count (g : Z) (s : TracerSupervisorStateV1) : nat :=
  (count (Z.eqb g) (exchange_generations (exchange s))
   + count (parked_parent g) (pending_forks s)
   + count (parked_child g) (pending_child_stops s))%nat.

(** ** The invariant *)

(** A remembered fork carries the birth its entry was decoded to. *)
Definition fork_wf (p : PendingForkV1) : Prop :=
  p = PendingForkV1_EMPTY
  ∨ (0 < fork_tid p ∧ ∃ o, fork_observation p = Some o
     ∧ fork_event p = event_of_kind (birth_kind o)
     ∧ (birth_kind o ≠ ChildClone → birth_relation o = NewThreadGroup)).

Definition step_branded (brand : Z) (step : PendingResumeStepV1) : Prop :=
  step_brand step = brand.

Definition exchange_branded (brand : Z) (x : PendingExchangeV1) : Prop :=
  match x with
  | NoExchange => True
  | EventMessageExchange b tid _ _ | SyscallInfoExchange b tid _ _ | SeccompPermitExchange b tid _
  | Clone3ArgsReadExchange b tid _ _ _ => b = brand ∧ 0 < tid
  | ResumeExchange b (One step) | ResumeExchange b (Parent step) =>
      b = brand ∧ step_branded brand step
  | ResumeExchange b (ChildThenParent child parent) =>
      b = brand ∧ step_branded brand child ∧ step_branded brand parent
  end.

Record sup_wf (s : TracerSupervisorStateV1) : Prop := {
  sup_healthy : sup_poisoned s = None;
  sup_task : recorder_wf (task_state s);
  sup_task_healthy : poisoned (task_state s) = None;
  sup_task_started : slots_used (task_state s) ≠ 0%nat;
  sup_sequence : sup_transport_sequence s = next_transport_sequence (task_state s);
  sup_forks_length : length (pending_forks s) = TRACER_TASK_MAX_TASKS_V1;
  sup_stops_length : length (pending_child_stops s) = MAX_PENDING_CHILD_STOPS_V1;
  sup_forks : ∀ i p, pending_forks s !! i = Some p → fork_wf p;
  sup_exchange : exchange_branded (session_brand s) (exchange s);
  sup_generation : 1 <= next_stop_generation s <= U64_MAX;
  sup_open_once : ∀ g, (open_count g s ≤ 1)%nat;
  sup_open_old : ∀ g, next_stop_generation s <= g → open_count g s = 0%nat;
}.

Definition sup_inv (s : TracerSupervisorStateV1) : Prop := sup_poisoned s = None → sup_wf s.

(** ** What one call does *)

(** The kind and generation of a pending read; later kinds rank higher. *)
Definition exchange_key (x : PendingExchangeV1) : option (Z * nat) :=
  match x with
  | EventMessageExchange _ _ g _ => Some (g, 1%nat)
  | SyscallInfoExchange _ _ g _ => Some (g, 2%nat)
  | SeccompPermitExchange _ _ g => Some (g, 3%nat)
  | Clone3ArgsReadExchange _ _ g _ _ => Some (g, 4%nat)
  | NoExchange | ResumeExchange _ _ => None
  end.

(** Generations only grow, a stop once closed stays closed, and a pending read
    is new or follows a lower-ranked one of the same stop. *)
Record sup_progress (s s' : TracerSupervisorStateV1) : Prop := {
  progress_brand : session_brand s' = session_brand s;
  progress_generation : next_stop_generation s <= next_stop_generation s';
  progress_open : ∀ g, g < next_stop_generation s → (open_count g s' ≤ open_count g s)%nat;
  progress_key : ∀ g n, exchange_key (exchange s') = Some (g, n) →
    next_stop_generation s <= g ∨ ∃ m, exchange_key (exchange s) = Some (g, m) ∧ (m < n)%nat;
}.

(** The pending exchange is the one the returned intent asks for. *)
Definition intent_pending (i : TracerSupervisorIntentV1) (s : TracerSupervisorStateV1) : Prop :=
  match i with
  | ReadEventMessage t =>
      exchange s = EventMessageExchange (message_brand t) (message_tid t)
        (message_generation t) (message_event t)
  | ReadSyscallInfo t =>
      exchange s = SyscallInfoExchange (info_brand t) (info_tid t) (info_generation t) (info_kind t)
  | HoldStoppedSeccompTask t =>
      exchange s = SeccompPermitExchange (permit_brand t) (permit_tid t) (permit_generation t)
  | ReadClone3Args t =>
      exchange s = Clone3ArgsReadExchange (args_brand t) (args_tid t) (args_generation t)
        (args_address t) (args_byte_count t)
  | Resume t => ∃ brand cursor, exchange s = ResumeExchange brand cursor ∧ t = resume_intent cursor
  | WaitForNextStop => exchange s = NoExchange
  end.

Section Calls.
Context {K : Type} `{NormalizedTracerTaskEventSinkV1 K}.
Implicit Types (s : TracerSupervisorStateV1) (k : K).

(** The recorder and the sink made at most one accepted observation. *)
Definition advances (r : TracerTaskStateRecorderV1) (k : K)
    (r' : TracerTaskStateRecorderV1) (k' : K) : Prop :=
  (r' = r ∧ k' = k) ∨ ∃ o event, observed r k o event r' k'.

Record call_ok (s : TracerSupervisorStateV1) (k : K) (i : TracerSupervisorIntentV1)
    (s' : TracerSupervisorStateV1) (k' : K) : Prop := {
  ok_wf : sup_wf s';
  ok_progress : sup_progress s s';
  ok_intent : intent_pending i s';
  ok_advances : advances (task_state s) k (task_state s') k';
}.

Definition call_rejected (s : TracerSupervisorStateV1) (k : K)
    (e : TracerSupervisorExecuteOnlyReasonV1) (s' : TracerSupervisorStateV1) (k' : K) : Prop :=
  sup_poisoned s' = Some e
  ∧ (advances (task_state s) k (task_state s') k'
     ∨ ∃ e', rejected (task_state s) k e' (task_state s') k').

Definition call_spec (m : state_m (TracerSupervisorStateV1 * K)
    TracerSupervisorExecuteOnlyReasonV1 TracerSupervisorIntentV1) s k : Prop :=
  wp m (λ i '(s', k'), call_ok s k i s' k') (λ e '(s', k'), call_rejected s k e s' k') (s, k).

(** ** Steps of the calls *)

Lemma wp_sup_poison {A} reason (Q : A → _ → Prop) (R : _ → _ → Prop) s :
  sup_poisoned s = None → R reason (with_sup_poisoned (Some reason) s) →
  wp (sup_poison reason) Q R s.
Proof. intros Hnone HR. unfold sup_poison. wp_steps. by rewrite Hnone. Qed.

(** A rejection that happens after the recorder has advanced to [r', k']. *)
Lemma wp_sup_reject {A} reason (Q : A → _ → Prop) s k s' k' :
  sup_poisoned s' = None → advances (task_state s) k (task_state s') k' →
  wp (on_fst (sup_poison reason)) Q (λ e '(s'', k''), call_rejected s k e s'' k'') (s', k').
Proof.
  intros Hp Hadv. apply wp_on_fst, wp_sup_poison; [done|]. split; [done|by left].
Qed.

Lemma advances_refl r k : advances r k r k.
Proof. by left. Qed.

Lemma wp_require_healthy (Q : () → _ → Prop) (R : _ → _ → Prop) s :
  sup_poisoned s = None → Q () s → wp require_healthy Q R s.
Proof. intros Hp HQ. unfold require_healthy. wp_step. wp_step. by rewrite Hp. Qed.

(** A fresh generation. *)
Lemma wp_allocate_stop_generation s k (Q : Z → _ → Prop) :
  sup_poisoned s = None →
  (next_stop_generation s < U64_MAX →
   Q (next_stop_generation s) (with_generation (next_stop_generation s + 1) s, k)) →
  wp (on_fst allocate_stop_generation) Q (λ e '(s', k'), call_rejected s k e s' k') (s, k).
Proof.
  intros Hp HQ. apply wp_on_fst. unfold allocate_stop_generation. wp_step. wp_step. simpl.
  destruct (u64_checked_add _ _) as [next|] eqn:E.
  - apply u64_checked_add_Some in E as [-> ?]. wp_steps. apply HQ. lia.
  - apply wp_sup_poison; [done|]. split; [done|by left; left].
Qed.

(** The observation of one accepted kernel fact, with the next sequence. *)
Lemma wp_emit_next (s0 : TracerSupervisorStateV1) (k0 : K) s k o (Q : () → _ → Prop) :
  sup_poisoned s = None → recorder_wf (task_state s) → poisoned (task_state s) = None →
  task_state s = task_state s0 → k = k0 →
  sup_transport_sequence s = next_transport_sequence (task_state s) →
  (∀ r' k', recorder_wf r' → poisoned r' = None → slots_used r' ≠ 0%nat →
     next_transport_sequence r' = next_transport_sequence (task_state s) + 1 →
     advances (task_state s0) k0 r' k' →
     Q () (with_task_state r' (with_sequence (sup_transport_sequence s + 1) s), k')) →
  wp (emit_next o) Q (λ e '(s', k'), call_rejected s0 k0 e s' k') (s, k).
Proof.
  intros Hp Hwf Hhealthy Hr -> Hseq HQ. unfold emit_next. apply wp_bind, wp_on_fst.
  unfold allocate_transport_sequence. wp_step. wp_step. simpl.
  destruct (u64_checked_add _ _) as [next|] eqn:E.
  2: { apply wp_sup_poison; [done|]. split; [done|]. left; left. by rewrite <- Hr. }
  apply u64_checked_add_Some in E as [-> _]. wp_step. wp_step. wp_step.
  unfold emit_task. unfold wp. cbn [task_state with_sequence].
  pose proof (observe_spec (task_state s) k0 (o (sup_transport_sequence s)) (λ _, Hwf)) as Ho.
  unfold wp in Ho. destruct (observe _ _) as [[] [r' k']|e [r' k']|].
  - destruct Ho as [event Ho]. destruct Ho eqn:Hd.
    apply HQ; try naive_solver. right. rewrite <- Hr. eauto.
  - unfold on_fst, sup_poison. simpl. rewrite Hp. simpl. split; [done|]. right. rewrite <- Hr. eauto.
  - done.
Qed.

(** A call succeeded if its final state is built like this from a well-formed
    one: the recorder advanced, and every stop open now was open before or is
    the fresh one. *)
Lemma call_ok_intro s k i s' k' :
  sup_wf s →
  sup_poisoned s' = None → session_brand s' = session_brand s →
  recorder_wf (task_state s') → poisoned (task_state s') = None →
  slots_used (task_state s') ≠ 0%nat →
  sup_transport_sequence s' = next_transport_sequence (task_state s') →
  length (pending_forks s') = TRACER_TASK_MAX_TASKS_V1 →
  length (pending_child_stops s') = MAX_PENDING_CHILD_STOPS_V1 →
  (∀ j p, pending_forks s' !! j = Some p → fork_wf p) →
  exchange_branded (session_brand s) (exchange s') →
  next_stop_generation s <= next_stop_generation s' <= U64_MAX →
  (∀ g, open_count g s' ≤ open_count g s
     + (if (next_stop_generation s <=? g)%Z && (g <? next_stop_generation s')%Z then 1 else 0))%nat →
  (∀ g n, exchange_key (exchange s') = Some (g, n) →
    next_stop_generation s <= g ∨ ∃ m, exchange_key (exchange s) = Some (g, m) ∧ (m < n)%nat) →
  intent_pending i s' → advances (task_state s) k (task_state s') k' →
  call_ok s k i s' k'.
Proof.
  intros [] Hp Hb Hr Hh Hu Hs Hfl Hsl Hf Hx Hg Hopen Hkey Hi Hadv.
  split; try done.
  - split; try done.
    + by rewrite Hb.
    + lia.
    + intros g. specialize (Hopen g). pose proof (sup_open_once0 g).
      destruct (Z.leb_spec (next_stop_generation s) g) as [Hge|Hlt].
      * rewrite sup_open_old0 in Hopen by done. simpl in Hopen. case_match; lia.
      * simpl in Hopen. lia.
    + intros g Hge. specialize (Hopen g). rewrite sup_open_old0 in Hopen by lia.
      rewrite (proj2 (Z.ltb_ge _ _) Hge), andb_false_r in Hopen. lia.
  - split; try done; [lia|]. intros g Hlt. specialize (Hopen g).
    rewrite (proj2 (Z.leb_gt _ _) Hlt) in Hopen. simpl in Hopen. lia.
Qed.

(** ** Clearing a remembered fork *)

Record forks_cleared (l l' : list PendingForkV1) : Prop := {
  cleared_length : length l' = length l;
  cleared_wf : (∀ i p, l !! i = Some p → fork_wf p) → ∀ i p, l' !! i = Some p → fork_wf p;
  cleared_parked : ∀ g, (count (parked_parent g) l' ≤ count (parked_parent g) l)%nat;
}.

Lemma forks_cleared_refl l : forks_cleared l l.
Proof. by split. Qed.

Lemma forks_cleared_at l i p : l !! i = Some p → forks_cleared l (<[i := PendingForkV1_EMPTY]> l).
Proof.
  intros Hi. split.
  - apply length_insert.
  - intros Hwf j q Hj. lookup_cases Hj; [by left|by eapply Hwf].
  - intros g. pose proof (count_insert (parked_parent g) l i p PendingForkV1_EMPTY Hi) as E.
    change (parked_parent g PendingForkV1_EMPTY) with false in E. simpl in E. case_match; lia.
Qed.

Lemma wp_fork_at s i p (Q : _ → _ → Prop) (R : _ → _ → Prop) :
  pending_forks s !! i = Some p → Q p s → wp (fork_at i) Q R s.
Proof. intros. unfold fork_at. wp_steps. by eapply wp_lift_index. Qed.

Lemma wp_write_fork s i p f (Q : () → _ → Prop) (R : _ → _ → Prop) :
  pending_forks s !! i = Some p → Q () (with_forks (<[i := f p]>) s) → wp (write_fork i f) Q R s.
Proof. intros. unfold write_fork. apply wp_bind. by eapply wp_fork_at. Qed.

Lemma wp_child_stop_at s i p (Q : _ → _ → Prop) (R : _ → _ → Prop) :
  pending_child_stops s !! i = Some p → Q p s → wp (child_stop_at i) Q R s.
Proof. intros. unfold child_stop_at. wp_steps. by eapply wp_lift_index. Qed.

Lemma wp_write_child_stop s i p q (Q : () → _ → Prop) (R : _ → _ → Prop) :
  pending_child_stops s !! i = Some p → Q () (with_child_stops (<[i := q]>) s) →
  wp (write_child_stop i q) Q R s.
Proof. intros. unfold write_child_stop. apply wp_bind. by eapply wp_child_stop_at. Qed.

Lemma wp_remove_pending_fork s0 k0 s k tid (Q : () → _ → Prop) :
  sup_poisoned s = None → advances (task_state s0) k0 (task_state s) k →
  (∀ l, forks_cleared (pending_forks s) l → Q () (with_forks (λ _, l) s, k)) →
  wp (on_fst (remove_pending_fork tid)) Q (λ e '(s', k'), call_rejected s0 k0 e s' k') (s, k).
Proof.
  intros Hp Hadv HQ. apply wp_on_fst. unfold remove_pending_fork. wp_step. wp_step. simpl.
  assert (∀ l, forks_cleared (pending_forks s) l →
    wp (s ← gets id; if (awaiting_fork_event_count s <? pending_child_stop_count s)%nat
        then sup_poison SupReason.ChildInitialStopCorrelationAmbiguous else mret ())
      (λ a s', Q a (s', k)) (λ e s', call_rejected s0 k0 e s' k) (with_forks (λ _, l) s)) as Hrest.
  { intros l Hl. wp_step. wp_step. wp_step; [|wp_step; by apply HQ].
    apply wp_sup_poison; [done|]. split; [done|by left]. }
  destruct (pending_fork_index s tid) as [i|] eqn:Hi.
  - apply position_Some in Hi as [(p & Hi & _) _]. apply wp_bind. eapply wp_write_fork; [done|].
    apply (Hrest (<[i := PendingForkV1_EMPTY]> (pending_forks s))). by eapply forks_cleared_at.
  - apply wp_bind, wp_ret. specialize (Hrest (pending_forks s) (forks_cleared_refl _)).
    by destruct s.
Qed.

(** ** Issuing a resume *)

Lemma wp_resume_one s k tid g request (Q : _ → _ → Prop) (R : _ → _ → Prop) :
  (let cursor := One (resume_step s tid g request) in
   Q (Resume (resume_intent cursor))
     (with_exchange (ResumeExchange (session_brand s) cursor) s, k)) →
  wp (on_fst (resume_one tid g request)) Q R (s, k).
Proof. intros HQ. apply wp_on_fst. unfold resume_one, issue_one_resume, issue_resume_cursor. by wp_steps. Qed.

Lemma wp_issue_child_then_parent s k ctid cg ptid pg (Q : _ → _ → Prop) (R : _ → _ → Prop) :
  (let cursor := ChildThenParent (resume_step s ctid cg ResumeContinue)
                   (resume_step s ptid pg ResumeSyscall) in
   Q (Resume (resume_intent cursor))
     (with_exchange (ResumeExchange (session_brand s) cursor) s, k)) →
  wp (on_fst (resume_child_then_parent ctid cg ptid pg)) Q R (s, k).
Proof.
  intros HQ. apply wp_on_fst. unfold resume_child_then_parent, issue_child_then_parent_resume, issue_resume_cursor.
  by wp_steps.
Qed.
End Calls.

#[export] Hint Resolve advances_refl : tracer.
