(* ===== verification/SupervisorCalls.v ===== *)
(** * The calls of the supervisor

    Every call on a well-formed planner satisfies [call_spec]: it never panics;
    accepted, it keeps the invariant, makes progress and returns the intent of
    the exchange that is now pending; rejected, it poisons the planner. *)

From S2P Require Import Prelude Monad Bytes WaitStatus TracerSeccomp EventMessage SyscallInfo.
From S2P Require Import TaskState ForkDecode ForkSpec Lifecycle TaskInvariant TaskHandlers.
From S2P Require Import TaskTheorems Supervisor SupervisorInv.

(** Unfolds the state updates and closes what the invariant already says. *)
Ltac sup_cbn :=
  cbn [with_task_state with_forks with_child_stops with_generation with_sequence with_exchange
    session_brand task_state pending_forks pending_child_stops next_stop_generation
    sup_transport_sequence exchange sup_poisoned].

Section CallSpecs.
Context {K : Type} `{NormalizedTracerTaskEventSinkV1 K}.
Context {s : TracerSupervisorStateV1} {k : K}.
Hypothesis Hwf : sup_wf s.

Ltac call_done :=
  apply (call_ok_intro s k _ _ _ Hwf); sup_cbn; try done; try apply Hwf;
  auto with tracer; try (pose proof (sup_generation _ Hwf); lia).

(** Compares the open stops before and after, given the pending exchange. *)
Ltac compare_open Hex := unfold open_count; sup_cbn; rewrite Hex; simpl; try lia.
Ltac budget Hex := let g := fresh "g" in intros g; compare_open Hex.

(** The planner is healthy, so a call reads its state and goes on. *)
Ltac enter :=
  unfold call_spec; apply wp_bind, wp_on_fst, wp_require_healthy; [apply Hwf|];
  apply wp_bind, wp_on_fst, wp_gets; cbv beta delta [id].

Ltac reject := apply (wp_sup_reject _ _ s); [apply Hwf|auto with tracer].

(** The bookkeeping of an accepted observation. *)
Ltac emit r' k' :=
  apply wp_bind, (wp_emit_next s k);
    [apply Hwf|apply Hwf|apply Hwf|reflexivity|reflexivity|apply Hwf|];
  intros r' k' Hr' Hh' Hu' Hseq' Hadv'.

Lemma sequence_next r' :
  next_transport_sequence r' = next_transport_sequence (task_state s) + 1 →
  sup_transport_sequence s + 1 = next_transport_sequence r'.
Proof. rewrite (sup_sequence _ Hwf). lia. Qed.

Lemma confirm_resume_spec intent : call_spec (on_fst (confirm_resume_succeeded intent)) s k.
Proof.
  unfold call_spec. apply wp_on_fst. unfold confirm_resume_succeeded.
  apply wp_bind, wp_require_healthy; [apply Hwf|]. apply wp_bind, wp_gets. cbv beta delta [id].
  pose proof (sup_exchange _ Hwf) as Hx.
  assert (∀ reason, wp (sup_poison reason) (λ i s', call_ok s k i s' k)
    (λ e s', call_rejected s k e s' k) s) as Hrej.
  { intros reason. apply wp_sup_poison; [apply Hwf|]. split; [done|]. left; auto with tracer. }
  destruct (exchange s) as [| | | | |brand cursor] eqn:Hex; try apply Hrej.
  destruct (current cursor) as [expected position] eqn:Hcur.
  wp_step; [apply Hrej|].
  destruct cursor as [step|child parent|step]; cbn [advanced]; wp_steps.
  - call_done. budget Hex.
  - call_done.
    + simpl in Hx. naive_solver.
    + budget Hex.
    + by eexists _, _.
  - call_done. budget Hex.
Qed.

Lemma accept_syscall_info_spec token n buffer : call_spec (accept_syscall_info token n buffer) s k.
Proof.
  unfold accept_syscall_info. enter. pose proof (sup_exchange _ Hwf) as Hx.
  destruct (exchange s) as [| |brand tid g kind| | |] eqn:Hex; try reject.
  destruct Hx as [Hb Htid]. wp_step; [reject|].
  destruct (decode_ptrace_syscall_info_x86_64_v1 n buffer) as [decoded|]; [|reject].
  destruct kind, decoded as [frame|frame]; try reject.
  - apply wp_bind, wp_on_fst. wp_step. wp_step. call_done.
    + budget Hex.
    + rewrite Hex. intros g' m [= <- <-]. right. exists 2%nat. split; [done|lia].
  - emit r' k'. apply wp_bind, (wp_remove_pending_fork s k); [apply Hwf|done|].
    intros l [Hlen Hl Hpark]. apply wp_resume_one. call_done.
    + by apply sequence_next.
    + rewrite Hlen. apply Hwf.
    + by apply Hl, Hwf.
    + budget Hex. specialize (Hpark g0). cbn in Hpark. lia.
    + by eexists _, _.
Qed.

(** What is remembered of a fork entry, proved against the decoder's contract. *)
Lemma decode_with_events_ok events nr arguments capture event o :
  decode_with_events events nr arguments capture = Ok (event, o) →
  event = event_of_kind (birth_kind o)
  ∧ (birth_kind o ≠ ChildClone → birth_relation o = NewThreadGroup).
Proof.
  induction events as [|e events IH]; simpl; [done|].
  destruct (decode_fork_family_entry_x86_64_v1 nr arguments capture e) as [o'|[]] eqn:E; try done.
  intros [= -> ->]. split; [by eapply decoder_event|by eapply decoder_relation].
Qed.

Lemma wp_decode_pending_fork nr arguments capture
    (Q : option (LinuxPtraceEventV1 * ForkFamilyBirthObservationV1) → _ → Prop) :
  (∀ fork, match fork with
     | None => True
     | Some (event, o) => event = event_of_kind (birth_kind o)
         ∧ (birth_kind o ≠ ChildClone → birth_relation o = NewThreadGroup)
     end → Q fork (s, k)) →
  wp (on_fst (decode_pending_fork nr arguments capture)) Q
    (λ e '(s', k'), call_rejected s k e s' k') (s, k).
Proof.
  intros HQ. unfold decode_pending_fork. case_match; [by apply wp_on_fst, wp_ret, HQ|].
  destruct (decode_with_events _ _ _ _) as [[event o]|error] eqn:E; [|reject].
  apply wp_on_fst, wp_ret, HQ. by eapply decode_with_events_ok.
Qed.

Lemma finish_stopped_seccomp_frame_spec tid g frame capture :
  exchange_generations (exchange s) = [g] → 0 < tid →
  call_spec (finish_stopped_seccomp_frame tid g frame capture) s k.
Proof.
  intros Hex Htid. unfold call_spec, finish_stopped_seccomp_frame.
  apply wp_bind, wp_decode_pending_fork. intros fork Hfork. apply wp_bind.
  apply (wp_mono _ (λ index '(s', k'), s' = s ∧ k' = k
    ∧ match index with Some i => pending_forks s !! i = Some PendingForkV1_EMPTY | None => True end)
    _ (λ e '(s', k'), call_rejected s k e s' k')); [| |done].
  { destruct fork as [[event o]|]; [|by wp_step]. apply wp_bind, wp_on_fst, wp_gets.
    cbv beta delta [id]. wp_step; [reject|].
    destruct (empty_pending_fork_index s) as [i|] eqn:Hi; [|reject]. wp_step. split_and!; try done.
    apply position_Some in Hi as [(p & Hi & Hz) _]. bool_to_prop.
    destruct (sup_forks _ Hwf i p Hi) as [->|[? _]]; [done|lia]. }
  intros index [s1 k1] (-> & -> & Hindex). emit r' k'. apply wp_bind.
  apply (wp_mono _ (λ _ '(s', k''), k'' = k' ∧ ∃ l, s' = with_forks (λ _, l)
      (with_task_state r' (with_sequence (sup_transport_sequence s + 1) s))
      ∧ forks_cleared (pending_forks s) l) _ (λ _ _, False)); [| |done].
  { destruct index as [i|], fork as [[event o]|]; try (wp_step; split; [done|];
      exists (pending_forks s); split; [done|apply forks_cleared_refl]).
    apply wp_on_fst. eapply wp_write_fork; [done|]. split; [done|].
    eexists. split; [reflexivity|]. split; [apply length_insert| |].
    - intros Hall j p Hj. lookup_cases Hj; [|by eapply Hall]. right. split; [done|].
      exists o. naive_solver.
    - intros g'. rewrite (count_insert_same _ _ _ PendingForkV1_EMPTY); done. }
  intros _ [s2 k2] (-> & l & -> & [Hlen Hl Hpark]). apply wp_resume_one. call_done.
  - by apply sequence_next.
  - rewrite Hlen. apply Hwf.
  - by apply Hl, Hwf.
  - budget Hex. specialize (Hpark g0). lia.
  - by eexists _, _.
Qed.

Lemma consume_stopped_seccomp_permit_spec permit :
  call_spec (consume_stopped_seccomp_permit permit) s k.
Proof.
  unfold consume_stopped_seccomp_permit. enter. pose proof (sup_exchange _ Hwf) as Hx.
  destruct (exchange s) as [| | |brand tid g| |] eqn:Hex; try reject.
  destruct Hx as [Hb Htid]. wp_step; [reject|]. wp_step.
  - destruct (plan_clone3_args_read_x86_64_v1 _) as [spec|]; [|reject].
    apply wp_bind, wp_on_fst. wp_step. wp_step. call_done.
    + budget Hex.
    + rewrite Hex. intros g' m [= <- <-]. right. exists 3%nat. split; [done|lia].
  - apply finish_stopped_seccomp_frame_spec; [by rewrite Hex|done].
Qed.

Lemma accept_clone3_args_read_spec token capture :
  call_spec (accept_clone3_args_read token capture) s k.
Proof.
  unfold accept_clone3_args_read. enter. pose proof (sup_exchange _ Hwf) as Hx.
  destruct (exchange s) as [| | | |brand tid g address bytes|] eqn:Hex; try reject.
  destruct Hx as [Hb Htid]. wp_step; [reject|]. destruct capture; try reject.
  apply finish_stopped_seccomp_frame_spec; [by rewrite Hex|done].
Qed.

(** A fork event: the parent is parked, or both sides are resumed. *)
Lemma accept_fork_event_message_spec tid g event child_tid :
  exchange_generations (exchange s) = [g] → 0 < child_tid →
  call_spec (accept_fork_event_message tid g event child_tid) s k.
Proof.
  intros Hex Hchild. unfold call_spec, accept_fork_event_message.
  apply wp_bind, wp_on_fst, wp_gets. cbv beta delta [id].
  destruct (pending_fork_index s tid) as [i|] eqn:Hi; [|reject].
  apply position_Some in Hi as [(p & Hi & _) _]. apply wp_bind, wp_on_fst.
  eapply wp_fork_at; [done|]. destruct (fork_observation p) as [o|] eqn:Ho; [|reject].
  wp_step; [reject|]. assert (held_child_raw_tid p = 0) as Hheld by done.
  wp_step; [reject|]. wp_step; [reject|].
  emit r' k'. destruct (pending_child_stop_index s child_tid) as [j|] eqn:Hj.
  - apply position_Some in Hj as [(c & Hj & Hc) _]. bool_to_prop.
    apply wp_bind, wp_on_fst. eapply wp_child_stop_at; [done|].
    apply wp_bind, wp_on_fst. eapply wp_write_child_stop; [done|].
    apply wp_bind, wp_on_fst. eapply wp_write_fork; [done|].
    apply wp_issue_child_then_parent. destruct (forks_cleared_at _ _ _ Hi) as [Hlen Hl Hpark].
    call_done.
    + by apply sequence_next.
    + rewrite Hlen. apply Hwf.
    + rewrite length_insert. apply Hwf.
    + by apply Hl, Hwf.
    + intros g'. specialize (Hpark g').
      pose proof (count_insert (parked_child g') _ j c PendingChildStopV1_EMPTY Hj) as E.
      unfold open_count. sup_cbn. rewrite Hex.
      change (parked_child g' PendingChildStopV1_EMPTY) with false in E.
      unfold parked_child at 2 in E. rewrite Hc, (proj2 (Z.eqb_neq _ _)) in E by lia.
      cbn [exchange_generations resume_step step_generation count]. simpl in E.
      rewrite (Z.eqb_sym g' (child_stop_generation c)). lia.
    + by eexists _, _.
  - apply wp_bind, wp_on_fst. eapply wp_write_fork; [done|].
    apply wp_bind, wp_on_fst, wp_modify. wp_step. bool_to_prop. call_done.
    + by apply sequence_next.
    + rewrite length_insert. apply Hwf.
    + intros j q Hq. lookup_cases Hq; [|by eapply Hwf].
      destruct (sup_forks _ Hwf i p Hi) as [->|Hp]; [done|right]. done.
    + intros g'. unfold open_count. sup_cbn. rewrite Hex.
      match goal with |- context [<[i := ?q]> _] =>
        pose proof (count_insert (parked_parent g') _ i p q Hi) as E end.
      unfold parked_parent at 2 4 in E. sup_cbn.
      cbn [held_child_raw_tid held_parent_stop_generation] in E.
      rewrite Hheld, (proj2 (Z.eqb_neq child_tid 0)) in E by lia. simpl in E |- *.
      rewrite (Z.eqb_sym g' g). lia.
Qed.

Lemma event_message_child_positive event bytes t :
  is_bytes bytes →
  decode_linux_ptrace_event_message_x86_64_v1 event bytes = Ok (ChildTid t) → 0 < event_raw_tid t.
Proof.
  intros Hb. pose proof (le_value_range _ Hb) as Hr.
  unfold decode_linux_ptrace_event_message_x86_64_v1. case_match; [done|].
  destruct event; unfold fmap, result_fmap; try done;
    [..|unfold EventMessage.decode_exit_v1; by destruct (decode_linux_wait_status_x86_64_v1 _) as [[]|]
       |unfold decode_seccomp_cookie_v1; by repeat case_match];
    destruct (decode_tid_v1 (le_value bytes)) as [u|] eqn:E; try done; intros [= <-];
    apply decode_tid_exact in E; lia.
Qed.

Lemma accept_event_message_spec token bytes :
  is_bytes bytes → call_spec (accept_event_message token bytes) s k.
Proof.
  intros Hbytes. unfold accept_event_message. enter. pose proof (sup_exchange _ Hwf) as Hx.
  destruct (exchange s) as [|brand tid g event| | | |] eqn:Hex; try reject.
  destruct Hx as [Hb Htid]. wp_step; [reject|].
  destruct (decode_linux_ptrace_event_message_x86_64_v1 event bytes) as [d|] eqn:Hd; [|reject].
  destruct event, d as [t|t|t|]; try reject.
  1-3: apply accept_fork_event_message_spec; [by rewrite Hex|by eapply event_message_child_positive].
  - emit r' k'. apply wp_resume_one. call_done.
    + by apply sequence_next.
    + budget Hex.
    + by eexists _, _.
  - emit r' k'. apply wp_bind, (wp_remove_pending_fork s k); [apply Hwf|done|].
    intros l [Hlen Hl Hpark]. apply wp_resume_one. call_done.
    + by apply sequence_next.
    + rewrite Hlen. apply Hwf.
    + by apply Hl, Hwf.
    + budget Hex. specialize (Hpark g0). cbn in Hpark. lia.
    + by eexists _, _.
  - apply wp_on_fst. unfold issue_syscall_info_read. wp_steps. call_done.
    + budget Hex.
    + rewrite Hex. intros g' m [= <- <-]. right. exists 1%nat. split; [done|lia].
Qed.

(** ** A new stop *)

(** The planner after the fresh generation of a stop was taken. *)
Let fresh := next_stop_generation s.
Let s1 := with_generation (fresh + 1) s.

Ltac fresh_done :=
  apply (call_ok_intro s k _ _ _ Hwf); unfold s1, fresh; sup_cbn; try done; try apply Hwf;
  auto with tracer; try (pose proof (sup_generation _ Hwf); lia).

(** The fresh generation is the only one that may be opened. *)
Lemma fresh_allowed g :
  (if (next_stop_generation s <=? g)%Z && (g <? next_stop_generation s + 1)%Z then 1 else 0)%nat
  = Nat.b2n (g =? next_stop_generation s).
Proof.
  destruct (Z.leb_spec (next_stop_generation s) g), (Z.ltb_spec g (next_stop_generation s + 1)),
    (Z.eqb_spec g (next_stop_generation s)); simpl; lia.
Qed.

Hypothesis Hidle : exchange s = NoExchange.
Hypothesis Hroom : fresh < U64_MAX.

Lemma accept_unannounced_spec tid :
  0 < tid → 
  wp (accept_unannounced_child_initial_stop tid fresh) (λ i '(s', k'), call_ok s k i s' k')
    (λ e '(s', k'), call_rejected s k e s' k') (s1, k).
Proof.
  intros Htid. unfold accept_unannounced_child_initial_stop.
  apply wp_bind, wp_on_fst, wp_gets. cbv beta delta [id].
  do 3 (wp_step; [reject|]).
  destruct (empty_pending_child_stop_index s1) as [j|] eqn:Hj; [|reject].
  apply position_Some in Hj as [(c & Hj & Hc) _]. bool_to_prop.
  emit r' k'. apply wp_bind, wp_on_fst. eapply wp_write_child_stop; [done|]. wp_step.
  fresh_done.
  - by apply sequence_next.
  - rewrite length_insert. apply Hwf.
  - intros g. rewrite fresh_allowed. unfold open_count. sup_cbn. rewrite Hidle.
    match goal with |- context [<[j := ?q]> _] =>
      pose proof (count_insert (parked_child g) _ j c q Hj) as E end.
    unfold parked_child at 2 4 in E. cbn [child_stop_tid child_stop_generation] in E.
    rewrite Hc, (proj2 (Z.eqb_neq tid 0)) in E by lia. simpl in E |- *.
    rewrite (Z.eqb_sym g). destruct (next_stop_generation s =? g); simpl; lia.
  - by rewrite Hidle.
Qed.

Lemma accept_exact_spec tid :
  0 < tid →
  wp (accept_exact_child_initial_stop tid fresh) (λ i '(s', k'), call_ok s k i s' k')
    (λ e '(s', k'), call_rejected s k e s' k') (s1, k).
Proof.
  intros Htid. unfold accept_exact_child_initial_stop.
  apply wp_bind, wp_on_fst, wp_gets. cbv beta delta [id]. wp_step; [reject|].
  destruct (position _ _) as [i|] eqn:Hi; [|reject].
  apply position_Some in Hi as [(p & Hi & Hheld) _]. bool_to_prop.
  change (pending_forks s1) with (pending_forks s) in Hi.
  wp_step; [reject|]. apply wp_bind, wp_on_fst. eapply wp_fork_at; [done|].
  emit r' k'. apply wp_bind, wp_on_fst. eapply wp_write_fork; [done|].
  apply wp_issue_child_then_parent.
  destruct (forks_cleared_at _ _ _ Hi) as [Hlen Hl _]. fresh_done.
  - by apply sequence_next.
  - rewrite Hlen. apply Hwf.
  - by apply Hl, Hwf.
  - intros g. rewrite fresh_allowed. unfold open_count. sup_cbn. rewrite Hidle.
    pose proof (count_insert (parked_parent g) _ i p PendingForkV1_EMPTY Hi) as E.
    change (parked_parent g PendingForkV1_EMPTY) with false in E.
    unfold parked_parent at 2 in E. rewrite Hheld, (proj2 (Z.eqb_neq _ _)) in E by lia.
    cbn [exchange_generations resume_step step_generation count]. simpl in E |- *.
    rewrite (Z.eqb_sym g (held_parent_stop_generation p)).
    destruct (g =? next_stop_generation s); simpl; lia.
  - by eexists _, _.
Qed.

Lemma validate_ptrace_event_spec tid event (Q : () → _ → Prop) :
  Q () (s1, k) →
  wp (on_fst (validate_ptrace_event_for_task tid event)) Q
    (λ e '(s', k'), call_rejected s k e s' k') (s1, k).
Proof.
  intros HQ.
  assert (∀ reason, wp (sup_poison reason) (λ u s', Q u (s', k))
    (λ e s', call_rejected s k e s' k) s1) as Hrej.
  { intros reason. apply wp_sup_poison; [apply Hwf|]. split; [done|]. left; auto with tracer. }
  apply wp_on_fst. unfold validate_ptrace_event_for_task. wp_step. wp_step. simpl.
  destruct event; try done.
  1-3: destruct (pending_fork_index s1 tid) as [i|] eqn:Hi; [|apply Hrej];
    apply position_Some in Hi as [(p & Hi & _) _]; apply wp_bind; eapply wp_fork_at; [done|];
    wp_step; [apply Hrej|done].
  - destruct (pending_syscall_number (task_state s) tid) as [nr|]; [|apply Hrej].
    wp_step; [done|apply Hrej].
  - wp_step; [apply Hrej|done].
Qed.

(** A stop of a task the planner knows. *)
Lemma known_stop_spec tid class :
  0 < tid →
  wp (match class with
      | Final termination =>
          emit_next (λ sequence, ObsTerminalReap sequence tid termination);;
          on_fst (remove_pending_fork tid);;
          mret WaitForNextStop
      | SyscallEntryOrExitStop =>
          s ← on_fst (gets id);
          if bool_decide (pending_syscall_number (task_state s) tid = None) then
            on_fst (sup_poison SupReason.UnexpectedSyscallStop)
          else on_fst (issue_syscall_info_read tid fresh InfoSyscallExit)
      | PtraceEvent event =>
          on_fst (validate_ptrace_event_for_task tid event);;
          on_fst (issue_event_message_read tid fresh event)
      | PtraceEventStopRequiringContext candidate =>
          if negb (bool_decide (signal_shape candidate = TrapInitialChildOrInterrupt)) then
            on_fst (sup_poison SupReason.EventStopContextAmbiguous)
          else accept_exact_child_initial_stop tid fresh
      | EventZeroStopRequiringSiginfo _ =>
          on_fst (sup_poison SupReason.EventZeroStopUnsupported)
      | Continued => on_fst (sup_poison SupReason.ContinuedStatusUnsupported)
      end) (λ i '(s', k'), call_ok s k i s' k') (λ e '(s', k'), call_rejected s k e s' k') (s1, k).
Proof.
  intros Htid. destruct class as [term| |event|cand|cand|]; try reject.
  - emit r' k'. apply wp_bind, (wp_remove_pending_fork s k); [apply Hwf|done|].
    intros l [Hlen Hl Hpark]. wp_step. fresh_done.
    + by apply sequence_next.
    + rewrite Hlen. apply Hwf.
    + by apply Hl, Hwf.
    + intros g. rewrite fresh_allowed. specialize (Hpark g). cbn in Hpark. compare_open Hidle.
    + by rewrite Hidle.
  - apply wp_bind, wp_on_fst, wp_gets. wp_step; [reject|].
    apply wp_on_fst. unfold issue_syscall_info_read. wp_steps. fresh_done.
    + intros g. rewrite fresh_allowed. compare_open Hidle. destruct (g =? next_stop_generation s); simpl; lia.
    + intros g n [= <- <-]. left. lia.
  - apply wp_bind, validate_ptrace_event_spec. apply wp_on_fst.
    unfold issue_event_message_read. wp_steps. fresh_done.
    + intros g. rewrite fresh_allowed. compare_open Hidle. destruct (g =? next_stop_generation s); simpl; lia.
    + intros g n [= <- <-]. left. lia.
  - wp_step; [reject|]. by apply accept_exact_spec.
Qed.
End CallSpecs.

Lemma observe_wait_spec {K} `{NormalizedTracerTaskEventSinkV1 K} (s : TracerSupervisorStateV1)
    (k : K) tid status :
  sup_wf s → call_spec (observe_wait tid status) s k.
Proof.
  intros Hwf. unfold call_spec, observe_wait.
  apply wp_bind, wp_on_fst, wp_require_healthy; [apply Hwf|].
  apply wp_bind, wp_on_fst, wp_gets; cbv beta delta [id].
  assert (∀ reason, wp (on_fst (sup_poison reason)) (λ i '(s', k'), call_ok s k i s' k')
    (λ e '(s', k'), call_rejected s k e s' k') (s, k)) as Hrej.
  { intros reason. apply (wp_sup_reject _ _ s); [apply Hwf|auto with tracer]. }
  wp_step; [apply Hrej|].
  assert (exchange s = NoExchange) as Hidle by (by destruct (exchange s)).
  wp_step; [apply Hrej|].
  destruct (decode_linux_wait_status_x86_64_v1 status) as [class|]; [|apply Hrej].
  wp_step.
  - destruct class as [| | |cand| |]; try apply Hrej. wp_step; [|apply Hrej].
    apply wp_bind, wp_allocate_stop_generation; [apply Hwf|]. intros Hroom.
    by apply accept_unannounced_spec.
  - clear Heqb1. wp_step; [apply Hrej|].
    apply wp_bind, wp_allocate_stop_generation; [apply Hwf|]. intros Hroom.
    by apply known_stop_spec.
Qed.
