(* ===== verification/SupervisorTheorems.v ===== *)
(** * Correctness of the supervisor

    Runs of arbitrary calls on the planner of [Supervisor], with any sink:
    invariant, absence of panics, permanent poisoning, single use of tokens,
    order of resumes, and the legality and balance of the emitted stream. *)

From stdpp Require Import relations.
From S2P Require Import Prelude Monad Bytes WaitStatus TracerSeccomp EventMessage SyscallInfo.
From S2P Require Import TaskState ForkDecode ForkSpec Lifecycle TaskInvariant TaskHandlers.
From S2P Require Import TaskTheorems Supervisor SupervisorInv SupervisorCalls.
Open Scope Z_scope.

(** ** Calls as data *)

Inductive sup_call :=
| CallWait (tid status : Z)
| CallMessage (token : TracerSupervisorEventMessageReadV1) (bytes : list Z)
| CallInfo (token : TracerSupervisorSyscallInfoReadV1) (count : nat) (buffer : list Z)
| CallPermit (permit : StoppedSeccompTaskPermitV1)
| CallClone3 (token : TracerSupervisorClone3ArgsReadV1) (capture : Clone3ArgsCaptureV1)
| CallResume (intent : TracerSupervisorResumeIntentV1).

(** The bytes of a message are bytes; nothing else is asked of the caller. *)
Definition call_input_wf (c : sup_call) : Prop :=
  match c with CallMessage _ bytes => is_bytes bytes | _ => True end.

Section Runs.
Context {K : Type} `{NormalizedTracerTaskEventSinkV1 K}.
Implicit Types (s : TracerSupervisorStateV1) (k : K).

Definition run_call (c : sup_call) :
    state_m (TracerSupervisorStateV1 * K) TracerSupervisorExecuteOnlyReasonV1
      TracerSupervisorIntentV1 :=
  match c with
  | CallWait tid status => observe_wait tid status
  | CallMessage token bytes => accept_event_message token bytes
  | CallInfo token count buffer => accept_syscall_info token count buffer
  | CallPermit permit => consume_stopped_seccomp_permit permit
  | CallClone3 token capture => accept_clone3_args_read token capture
  | CallResume intent => on_fst (confirm_resume_succeeded intent)
  end.

Lemma run_call_spec c s k : sup_wf s → call_input_wf c → call_spec (run_call c) s k.
Proof.
  intros Hwf Hin. destruct c; simpl in *.
  - by apply observe_wait_spec.
  - by apply accept_event_message_spec.
  - by apply accept_syscall_info_spec.
  - by apply consume_stopped_seccomp_permit_spec.
  - by apply accept_clone3_args_read_spec.
  - by apply confirm_resume_spec.
Qed.

(** A poisoned planner answers every call with its first reason. *)
Lemma run_call_poisoned c s k e : sup_poisoned s = Some e → run_call c (s, k) = Threw e (s, k).
Proof.
  intros Hp.
  assert (require_healthy s = Threw e s) as Hh.
  { unfold require_healthy, mbind, state_bind, gets. simpl. by rewrite Hp. }
  destruct c; simpl; unfold observe_wait, accept_event_message, accept_syscall_info,
    consume_stopped_seccomp_permit, accept_clone3_args_read, confirm_resume_succeeded;
    unfold mbind, state_bind, on_fst; by rewrite Hh.
Qed.

Fixpoint run_calls (cs : list sup_call) :
    state_m (TracerSupervisorStateV1 * K) TracerSupervisorExecuteOnlyReasonV1 () :=
  match cs with
  | [] => mret ()
  | c :: cs => run_call c;; run_calls cs
  end.

(** One accepted call. *)
Definition call_step (x y : TracerSupervisorStateV1 * K) : Prop :=
  ∃ c i, call_input_wf c ∧ run_call c x = Returned i y.

Lemma call_step_ok s k s' k' :
  sup_wf s → call_step (s, k) (s', k') → ∃ i, call_ok s k i s' k'.
Proof.
  intros Hwf (c & i & Hin & Hrun). exists i.
  exact (wp_Returned _ _ _ _ _ _ (run_call_spec c s k Hwf Hin) Hrun).
Qed.

(** ** Single use of tokens *)

(** The generation and rank of the exchange a read token answers. *)
Definition call_key (c : sup_call) : option (Z * nat) :=
  match c with
  | CallMessage t _ => Some (message_generation t, 1%nat)
  | CallInfo t _ _ => Some (info_generation t, 2%nat)
  | CallPermit t => Some (permit_generation t, 3%nat)
  | CallClone3 t _ => Some (args_generation t, 4%nat)
  | CallWait _ _ | CallResume _ => None
  end.

(** The two calls present a token of the same kind for the same stop. *)
Definition same_token (c c' : sup_call) : Prop :=
  match c, c' with
  | CallResume t, CallResume t' => resume_generation t' = resume_generation t
  | _, _ => call_key c = call_key c' ∧ call_key c ≠ None
  end.

Lemma run_call_key c s k i s' k' key :
  run_call c (s, k) = Returned i (s', k') → call_key c = Some key →
  exchange_key (exchange s) = Some key.
Proof.
  intros Hrun Hkey. destruct (sup_poisoned s) as [e|] eqn:Hp.
  { by rewrite (run_call_poisoned c s k e Hp) in Hrun. }
  assert (require_healthy s = Returned () s) as Hh.
  { unfold require_healthy, mbind, state_bind, gets. simpl. by rewrite Hp. }
  destruct c; simpl in Hkey; simplify_eq; simpl in Hrun;
    unfold accept_event_message, accept_syscall_info, consume_stopped_seccomp_permit,
      accept_clone3_args_read in Hrun;
    unfold mbind, state_bind, on_fst at 1 in Hrun; rewrite Hh in Hrun;
    unfold on_fst at 1, gets, id in Hrun;
    destruct (exchange s); try (unfold on_fst, sup_poison in Hrun; simpl in Hrun; done);
    (case_match; [unfold on_fst, sup_poison in Hrun; simpl in Hrun; done|]);
    bool_to_prop; simpl; congruence.
Qed.

Lemma confirm_closes intent s i s' :
  confirm_resume_succeeded intent s = Returned i s' →
  (open_count (resume_generation intent) s' + 1 ≤ open_count (resume_generation intent) s)%nat.
Proof.
  unfold confirm_resume_succeeded, require_healthy, mbind, state_bind, gets. simpl. intros Hrun.
  destruct (sup_poisoned s); [done|]. simpl in Hrun. unfold id in Hrun.
  destruct (exchange s) as [| | | | |brand cursor] eqn:Hex; try done.
  destruct cursor as [step|child parent|step]; simpl in Hrun;
    (case_match; [done|]); bool_to_prop; unfold modify in Hrun; simpl in Hrun;
    injection Hrun as _ <-; unfold open_count; rewrite Hex; simpl;
    match goal with H : resume_generation intent = _ |- _ => rewrite H end;
    rewrite Z.eqb_refl; lia.
Qed.

(** A stop that is closed, or a read of it that was answered, never returns. *)
Definition closed (g : Z) (s : TracerSupervisorStateV1) : Prop :=
  g < next_stop_generation s ∧ open_count g s = 0%nat.
Definition answered (g : Z) (n : nat) (s : TracerSupervisorStateV1) : Prop :=
  g < next_stop_generation s ∧ ∀ m, exchange_key (exchange s) = Some (g, m) → (n < m)%nat.

Lemma closed_progress g s s' : sup_progress s s' → closed g s → closed g s'.
Proof.
  intros [_ Hg Ho _] [Hlt Hz]. split; [lia|]. specialize (Ho g Hlt). lia.
Qed.

Lemma answered_progress g n s s' : sup_progress s s' → answered g n s → answered g n s'.
Proof.
  intros [_ Hg _ Hk] [Hlt Ha]. split; [lia|]. intros m Hm.
  destruct (Hk g m Hm) as [|(m' & Hm' & ?)]; [lia|]. specialize (Ha m' Hm'). lia.
Qed.

(** An invariant of accepted calls holds at the end of every run of them. *)
Lemma rtc_progress (P : TracerSupervisorStateV1 → Prop) x y :
  (∀ s s', sup_progress s s' → P s → P s') →
  rtc call_step x y → sup_wf x.1 → P x.1 → sup_wf y.1 ∧ P y.1.
Proof.
  intros Hpres. induction 1 as [[s k]|[s k] [s1 k1] [s2 k2] Hstep _ IH]; [done|].
  intros Hwf HP. destruct (call_step_ok s k s1 k1 Hwf Hstep) as [i [Hwf1 Hprog _ _]].
  apply IH; [done|]. by eapply Hpres.
Qed.

Lemma key_open s g n : exchange_key (exchange s) = Some (g, n) → (1 ≤ open_count g s)%nat.
Proof.
  unfold open_count. destruct (exchange s); simpl; try done; intros [= <- _];
    rewrite Z.eqb_refl; lia.
Qed.

(** An open stop has a generation that was allocated. *)
Lemma open_allocated s g : sup_wf s → (1 ≤ open_count g s)%nat → g < next_stop_generation s.
Proof.
  intros Hwf Ho. destruct (Z.lt_ge_cases g (next_stop_generation s)) as [|Hge]; [done|].
  rewrite (sup_open_old _ Hwf g Hge) in Ho. lia.
Qed.
End Runs.

(** ** Starting a session *)

Lemma begin_state_wf brand r :
  recorder_wf r → poisoned r = None → slots_used r ≠ 0%nat → next_transport_sequence r = 2 →
  sup_wf {| session_brand := brand; task_state := r;
            pending_forks := replicate TRACER_TASK_MAX_TASKS_V1 PendingForkV1_EMPTY;
            pending_child_stops := replicate MAX_PENDING_CHILD_STOPS_V1 PendingChildStopV1_EMPTY;
            next_stop_generation := 1; sup_transport_sequence := 2;
            exchange := NoExchange; sup_poisoned := None |}.
Proof.
  intros Hwf Hp Hu Hs. split; sup_cbn; rewrite ?length_replicate; try done.
  - intros i p Hi%lookup_replicate_eq. by left.
  - intros g. unfold open_count. sup_cbn. rewrite !count_replicate_false by done. simpl. lia.
Qed.

(** A new session takes the current brand and advances the counter; a failed
    one leaves the sink alone unless the sink refused the initial birth. *)
Lemma begin_spec {K} `{NormalizedTracerTaskEventSinkV1 K} tid brand (k : K) :
  wp (begin_modeled_state_v1 tid)
    (λ s '(brand', k'), sup_wf s ∧ session_brand s = brand ∧ brand' = brand + 1
       ∧ advances new k (task_state s) k')
    (λ _ '(brand', k'), brand <= brand'
       ∧ (k' = k ∨ ∃ event, emit k event = (Err (), k'))) (brand, k).
Proof.
  unfold begin_modeled_state_v1, wp. destruct (Z.leb_spec tid 0); [split; [lia|by left]|].
  destruct (u64_checked_add brand 1) as [next|] eqn:E; [|split; [lia|by left]].
  apply u64_checked_add_Some in E as [-> _].
  pose proof (observe_spec new k (ObsInitialBirth 1 tid) (λ _, new_wf)) as Ho. unfold wp in Ho.
  destruct (observe _ _) as [[] [r k']|e [r k']|]; [| |done].
  - destruct Ho as [event Ho]. split_and!; [|done|done|by right; eauto].
    destruct Ho as [[_ Hp] Hwf Hu [_ Hs] _ _ _]. by apply begin_state_wf.
  - destruct Ho as (_ & _ & Hk). split; [lia|]. destruct Hk as [->|(ev & ? & _)]; eauto.
Qed.

(** ** The theorems *)

(** C4. One call on a planner that satisfies the invariant, whatever the kernel
    answered and whatever token was presented: it never panics; accepted, the
    invariant holds again, the returned intent is the one of the exchange now
    pending, generations only grew, and at most one observation reached the
    recorder, with exactly the recorder's next sequence; rejected, the planner
    is poisoned with the returned reason. *)
Theorem supervisor_call_invariant {K} `{NormalizedTracerTaskEventSinkV1 K}
    c (s : TracerSupervisorStateV1) (k : K) :
  sup_wf s → call_input_wf c →
  match run_call c (s, k) with
  | Returned i (s', k') => call_ok s k i s' k'
  | Threw e (s', k') => call_rejected s k e s' k'
  | Panicked => False
  end.
Proof. intros Hwf Hin. exact (run_call_spec c s k Hwf Hin). Qed.

Lemma supervisor_call_invariant_witness :
  ∃ s i s' (k k' : list NormalizedTracerTaskEventV1), call_ok s k i s' k'.
Proof.
  pose proof (begin_spec 41 7 ([] : list NormalizedTracerTaskEventV1)) as Hb. unfold wp in Hb.
  destruct (begin_modeled_state_v1 41 (7, [] : list NormalizedTracerTaskEventV1))
    as [s [b k]|e s|] eqn:E; [|vm_compute in E; discriminate E|destruct Hb].
  destruct Hb as [Hwf _].
  pose proof (supervisor_call_invariant (CallWait 41 0x7057f) s k Hwf I) as H.
  destruct (run_call (CallWait 41 0x7057f) (s, k)) as [i [s' k']|e [s' k']|] eqn:E'.
  - exists s, i, s', k, k'. exact H.
  - vm_compute in E. injection E as <- _ <-. vm_compute in E'. discriminate E'.
  - destruct H.
Defined.

(** The first rejection of the planner is permanent: every later call, with
    any token, and the completion return the same reason and change nothing. *)
Theorem supervisor_poison_permanent {K} `{NormalizedTracerTaskEventSinkV1 K}
    c (s : TracerSupervisorStateV1) (k : K) e s' k' :
  sup_wf s → call_input_wf c → run_call c (s, k) = Threw e (s', k') →
  complete_modeled_state_v1 s' = Threw e s'
  ∧ ∀ c', run_call c' (s', k') = Threw e (s', k').
Proof.
  intros Hwf Hin Hrun.
  destruct (wp_Threw _ _ _ _ _ _ (run_call_spec c s k Hwf Hin) Hrun) as [Hp _].
  split; [|intros c'; by apply run_call_poisoned].
  unfold complete_modeled_state_v1, require_healthy, mbind, state_bind, gets. simpl. by rewrite Hp.
Qed.

(** A stop of a task nobody knows. *)
Lemma supervisor_poison_permanent_witness :
  ∃ (s' : TracerSupervisorStateV1) (k' : list NormalizedTracerTaskEventV1),
    ∀ c', run_call c' (s', k') = Threw SupReason.UnknownRawTid (s', k').
Proof.
  pose proof (begin_spec 41 7 ([] : list NormalizedTracerTaskEventV1)) as Hb. unfold wp in Hb.
  destruct (begin_modeled_state_v1 41 (7, [] : list NormalizedTracerTaskEventV1))
    as [s [b k]|e s|] eqn:E; [|vm_compute in E; discriminate E|destruct Hb].
  destruct Hb as [Hwf _].
  destruct (run_call (CallWait 42 0x7057f) (s, k)) as [i [s' k']|e [s' k']|] eqn:E'.
  - vm_compute in E. injection E as <- _ <-. vm_compute in E'. discriminate E'.
  - exists s', k'. replace SupReason.UnknownRawTid with e.
    + exact (proj2 (supervisor_poison_permanent (CallWait 42 0x7057f) s k e s' k' Hwf I E')).
    + vm_compute in E. injection E as <- _ <-. vm_compute in E'. congruence.
  - vm_compute in E. injection E as <- _ <-. vm_compute in E'. discriminate E'.
Defined.

(** C5. A token is good once: after a call that presented a token was accepted,
    no later call, after any number of other accepted calls, is accepted with a
    token of the same kind for the same stop, whatever data comes with it. *)
Theorem token_single_use {K} `{NormalizedTracerTaskEventSinkV1 K}
    c c' (s s1 s2 s3 : TracerSupervisorStateV1) (k k1 k2 k3 : K) i i' :
  sup_wf s → call_input_wf c → run_call c (s, k) = Returned i (s1, k1) →
  same_token c c' → rtc call_step (s1, k1) (s2, k2) →
  run_call c' (s2, k2) ≠ Returned i' (s3, k3).
Proof.
  intros Hwf Hin Hrun Hsame Hreach Hagain.
  destruct (wp_Returned _ _ _ _ _ _ (run_call_spec c s k Hwf Hin) Hrun) as [Hwf1 Hprog _ _].
  destruct (call_key c) as [[g n]|] eqn:Hkey.
  - assert (call_key c' = Some (g, n)) as Hkey'.
    { unfold same_token in Hsame. rewrite Hkey in Hsame. destruct c, c'; try done; by destruct Hsame. }
    pose proof (run_call_key c s k i s1 k1 (g, n) Hrun Hkey) as Hx.
    assert (answered g n s1) as Ha.
    { assert (g < next_stop_generation s) by (eapply open_allocated, key_open; done).
      split; [pose proof (progress_generation _ _ Hprog); lia|]. intros m Hm.
      destruct (progress_key _ _ Hprog g m Hm) as [|(m' & Hm' & ?)]; [lia|]. congruence. }
    destruct (rtc_progress (answered g n) _ _ (answered_progress g n) Hreach Hwf1 Ha) as [_ [_ Ha2]].
    pose proof (run_call_key c' s2 k2 i' s3 k3 (g, n) Hagain Hkey') as Hx2.
    specialize (Ha2 n Hx2). lia.
  - destruct c as [| | | | |t], c' as [| | | | |t']; try done; try (by destruct Hsame).
    simpl in Hsame, Hrun, Hagain. unfold on_fst in Hrun, Hagain.
    destruct (confirm_resume_succeeded t s) as [j s1'| |] eqn:E1; [|done|done].
    destruct (confirm_resume_succeeded t' s2) as [j' s3'| |] eqn:E2; [|done|done].
    injection Hrun as _ -> _. injection Hagain as _ -> _.
    pose proof (confirm_closes _ _ _ _ E1) as Hc1. pose proof (confirm_closes _ _ _ _ E2) as Hc2.
    pose proof (sup_open_once _ Hwf (resume_generation t)).
    assert (closed (resume_generation t) s1) as Hcl.
    { split; [|lia]. pose proof (progress_generation _ _ Hprog).
      pose proof (open_allocated s (resume_generation t) Hwf ltac:(lia)). lia. }
    destruct (rtc_progress (closed _) _ _ (closed_progress _) Hreach Hwf1 Hcl) as [_ [_ Hz]].
    simpl in Hz. rewrite Hsame in Hc2. lia.
Qed.

(** The planner after the seccomp message of its first stop was accepted. *)
Definition first_stop_token : TracerSupervisorEventMessageReadV1 :=
  {| message_brand := 7; message_tid := 41; message_generation := 1; message_event := EvSeccomp |}.

Definition first_message : list Z := [0x31; 0xa7; 0; 0; 0; 0; 0; 0].

Lemma token_single_use_witness :
  ∃ (s1 : TracerSupervisorStateV1) (k1 : list NormalizedTracerTaskEventV1),
    ∀ bytes i' s3 k3,
      run_call (CallMessage first_stop_token bytes) (s1, k1) ≠ Returned i' (s3, k3).
Proof.
  pose proof (begin_spec 41 7 ([] : list NormalizedTracerTaskEventV1)) as Hb. unfold wp in Hb.
  destruct (begin_modeled_state_v1 41 (7, [] : list NormalizedTracerTaskEventV1))
    as [s0 [b k0]|e s|] eqn:E; [|vm_compute in E; discriminate E|destruct Hb].
  destruct Hb as [Hwf0 _].
  pose proof (run_call_spec (CallWait 41 0x7057f) s0 k0 Hwf0 I) as Hw. unfold call_spec, wp in Hw.
  destruct (run_call (CallWait 41 0x7057f) (s0, k0)) as [i [s k]|e [s k]|] eqn:E0;
    [|vm_compute in E; injection E as <- _ <-; vm_compute in E0; discriminate E0|destruct Hw].
  destruct (run_call (CallMessage first_stop_token first_message) (s, k))
    as [j [s1 k1]|e [s1 k1]|] eqn:E1;
    [|vm_compute in E; injection E as <- _ <-; vm_compute in E0; injection E0 as _ <- <-;
      vm_compute in E1; discriminate E1..].
  exists s1, k1. intros bytes i' s3 k3.
  apply (token_single_use (CallMessage first_stop_token first_message)
    (CallMessage first_stop_token bytes) s s1 s1 s3 k k1 k1 k3 j i').
  - apply Hw.
  - repeat constructor; unfold is_u8; lia.
  - exact E1.
  - split; [reflexivity|discriminate].
  - apply rtc_refl.
Defined.




(** ** A scripted session: one task that calls [exit_group(0)] *)

Definition seccomp_info (nr : Z) : list Z :=
  [3; 0; 0; 0] ++ le_bytes 4 AUDIT_ARCH_X86_64_V1 ++ le_bytes 8 0x401000 ++ le_bytes 8 0x7ffe0000
  ++ le_bytes 8 nr ++ replicate 48 0 ++ le_bytes 4 TRACE_ALL_NATIVE_SECCOMP_COOKIE_V1.

Definition exit_group_frame : DecodedSeccompSyscallInfoX8664V1 :=
  {| seccomp_instruction_pointer := 0x401000; syscall_number := 231; arguments := replicate 6 0 |}.

Definition exit_session_calls : list sup_call :=
  [CallWait 41 0x7057f;
   CallMessage first_stop_token first_message;
   CallInfo {| info_brand := 7; info_tid := 41; info_generation := 1;
               info_kind := InfoSeccompEntry |} 84 (seccomp_info 231);
   CallPermit {| permit_brand := 7; permit_tid := 41; permit_generation := 1;
                 permit_frame := exit_group_frame |};
   CallResume {| resume_brand := 7; resume_position := OnlyOrChild; resume_tid := 41;
                 resume_generation := 1; resume_request := ResumeSyscall |};
   CallWait 41 0x6057f;
   CallMessage {| message_brand := 7; message_tid := 41; message_generation := 2;
                  message_event := EvExit |} [0; 0; 0; 0; 0; 0; 0; 0];
   CallResume {| resume_brand := 7; resume_position := OnlyOrChild; resume_tid := 41;
                 resume_generation := 2; resume_request := ResumeContinue |};
   CallWait 41 0].


Lemma exit_session_inputs : Forall call_input_wf exit_session_calls.
Proof. repeat constructor; unfold is_u8; lia. Qed.


(** ** Whole runs *)

(** The recorder of a planner and the log of its sink. *)
Lemma advances_run_wf r log r' log' : run_wf r log → advances r log r' log' → run_wf r' log'.
Proof. intros Hrun [[-> ->]|(o & event & Ho)]; [done|by eapply run_wf_observed]. Qed.

Lemma call_rejected_replay s log e s' log' :
  run_wf (task_state s) log → call_rejected s log e s' log' → is_Some (replay log').
Proof.
  intros Hrun [_ [Hadv|(e' & _ & _ & [->|(event & Hemit & _)])]].
  - rewrite (run_replay _ _ (advances_run_wf _ _ _ _ Hrun Hadv)). by eexists.
  - rewrite (run_replay _ _ Hrun). by eexists.
  - done.
Qed.

Lemma run_calls_spec cs s log :
  sup_wf s → run_wf (task_state s) log → Forall call_input_wf cs →
  wp (run_calls cs) (λ _ '(s', log'), sup_wf s' ∧ run_wf (task_state s') log')
    (λ e '(s', log'), sup_poisoned s' = Some e ∧ is_Some (replay log')) (s, log).
Proof.
  intros Hwf Hrun Hin. revert s log Hwf Hrun.
  induction Hin as [|c cs Hc _ IH]; intros s log Hwf Hrun; simpl; [done|].
  eapply wp_bind_with; [by apply run_call_spec| |].
  - intros i [s' log'] [Hwf' _ _ Hadv]. apply IH; [done|]. by eapply advances_run_wf.
  - intros e [s' log'] Hrej. split; [apply Hrej|]. by eapply call_rejected_replay.
Qed.

(** The completion of the planner, exactly. *)
Lemma complete_modeled_exact s :
  sup_wf s →
  complete_modeled_state_v1 s
  = if is_no_exchange (exchange s) && negb (any (λ p, negb (fork_tid p =? 0)) (pending_forks s))
       && negb (any (λ p, negb (child_stop_tid p =? 0)) (pending_child_stops s))
    then if drained (task_state s)
         then Returned {| task_count := Z.of_nat (slots_used (task_state s));
                          summary_counters := counters (task_state s) |} s
         else Threw (SupReason.TaskState TaskReason.IncompleteShutdown) s
    else Threw SupReason.IncompleteShutdown (with_sup_poisoned (Some SupReason.IncompleteShutdown) s).
Proof.
  intros Hwf. unfold complete_modeled_state_v1, require_healthy, mbind, state_bind, gets. simpl.
  rewrite (sup_healthy _ Hwf). unfold id, mret, state_ret.
  rewrite (complete_wf (sup_task _ Hwf) (sup_task_healthy _ Hwf)).
  destruct (is_no_exchange (exchange s)), (any _ (pending_forks s)),
    (any _ (pending_child_stops s)); simpl; try (unfold sup_poison; simpl; unfold mbind, state_bind,
      gets, modify, id; simpl; by rewrite (sup_healthy _ Hwf)).
  by destruct (drained (task_state s)).
Qed.

(** C2. End to end: start a session and feed the planner any sequence of wait
    statuses, answers and tokens. It never panics, and the stream it emits is
    always one the abstract lifecycle allows. If the planner then completes, the
    stream is balanced: every task that was born exited and was reaped, every
    call that was entered returned or was resolved by an exit, and the summary
    counts exactly the tasks born. *)
Theorem supervised_run_legal tid brand cs :
  Forall call_input_wf cs →
  match begin_modeled_state_v1 tid (brand, []) with
  | Returned s (_, log) =>
      match run_calls cs (s, log) with
      | Returned _ (s', log') =>
          replay log' = Some (abs (task_state s'))
          ∧ ∀ summary s'', complete_modeled_state_v1 s' = Returned summary s'' →
              Z.of_nat (count is_birth log') = task_count summary
              ∧ count is_exit log' = count is_birth log'
              ∧ count is_reap log' = count is_birth log'
              ∧ count is_entry log' = (count is_return log' + count is_resolution log')%nat
      | Threw e (s', log') => sup_poisoned s' = Some e ∧ is_Some (replay log')
      | Panicked => False
      end
  | Threw _ (_, log) => log = []
  | Panicked => False
  end.
Proof.
  intros Hin. pose proof (begin_spec tid brand ([] : list NormalizedTracerTaskEventV1)) as Hb.
  unfold wp in Hb.
  destruct (begin_modeled_state_v1 tid (brand, [])) as [s [b log]|e [b log]|]; [| |done].
  2: { destruct Hb as [_ [->|(event & ?)]]; done. }
  destruct Hb as (Hwf & _ & _ & Hadv).
  pose proof (run_calls_spec cs s log Hwf (advances_run_wf _ _ _ _ run_wf_new Hadv) Hin) as Hrun.
  unfold wp in Hrun. destruct (run_calls cs (s, log)) as [[] [s' log']|e [s' log']|]; [|done|done].
  destruct Hrun as [Hwf' Hr]. split; [apply Hr|]. intros summary s'' Hc.
  rewrite (complete_modeled_exact s' Hwf') in Hc. case_match; [|done].
  destruct (drained (task_state s')) eqn:Hd; [|done]. injection Hc as <- _.
  by apply (drained_balanced (sup_task _ Hwf') (run_replay _ _ Hr)).
Qed.

Lemma supervised_run_legal_witness :
  match begin_modeled_state_v1 41 (7, [] : list NormalizedTracerTaskEventV1) with
  | Returned s (_, log) =>
      match run_calls exit_session_calls (s, log) with
      | Returned _ (s', log') =>
          replay log' = Some (abs (task_state s'))
          ∧ ∃ summary, complete_modeled_state_v1 s' = Returned summary s' ∧ task_count summary = 1
      | _ => False
      end
  | _ => False
  end.
Proof.
  pose proof (supervised_run_legal 41 7 exit_session_calls exit_session_inputs) as Hrun.
  destruct (begin_modeled_state_v1 41 (7, [] : list NormalizedTracerTaskEventV1))
    as [s [b log]|e s|] eqn:E; [|vm_compute in E; discriminate E|destruct Hrun].
  destruct (run_calls exit_session_calls (s, log)) as [[] [s' log']|e s'|] eqn:E';
    [|vm_compute in E; injection E as <- _ <-; vm_compute in E'; discriminate E'|destruct Hrun].
  split; [exact (proj1 Hrun)|].
  vm_compute in E. injection E as <- _ <-. vm_compute in E'. injection E' as <- _.
  eexists. split; vm_compute; reflexivity.
Defined.

(** Completion of the planner is exact: it succeeds precisely when no
    exchange is pending, no fork entry or child stop is remembered, and the
    recorder is drained; the recorder's report is then its own. *)
Theorem supervisor_complete_exact s summary s' :
  sup_wf s →
  complete_modeled_state_v1 s = Returned summary s'
  ↔ exchange s = NoExchange
    ∧ (∀ i p, pending_forks s !! i = Some p → fork_tid p = 0)
    ∧ (∀ i c, pending_child_stops s !! i = Some c → child_stop_tid c = 0)
    ∧ drained (task_state s) = true ∧ s' = s
    ∧ summary = {| task_count := Z.of_nat (slots_used (task_state s));
                   summary_counters := counters (task_state s) |}.
Proof.
  intros Hwf. rewrite (complete_modeled_exact s Hwf).
  assert (∀ {A} (f : A → Z) l, any (λ x, negb (f x =? 0)) l = false
    ↔ ∀ i x, l !! i = Some x → f x = 0) as Hany.
  { intros A f l. rewrite any_false. split; intros Hl i x Hi; specialize (Hl i x Hi); simpl in *;
      [by bool_to_prop|by rewrite Hl]. }
  specialize (Hany _ fork_tid (pending_forks s)) as Hforks.
  specialize (Hany _ child_stop_tid (pending_child_stops s)) as Hstops.
  rewrite <- Hforks, <- Hstops. clear Hany Hforks Hstops.
  destruct (exchange s); simpl; try (split; [done|naive_solver]).
  destruct (any _ (pending_forks s)); simpl; [split; [done|naive_solver]|].
  destruct (any _ (pending_child_stops s)); simpl; [split; [done|naive_solver]|].
  destruct (drained (task_state s)); naive_solver.
Qed.

Lemma supervisor_complete_exact_witness :
  ∃ s : TracerSupervisorStateV1,
    sup_wf s ∧ ∀ summary s', complete_modeled_state_v1 s ≠ Returned summary s'.
Proof.
  pose proof (begin_spec 41 7 ([] : list NormalizedTracerTaskEventV1)) as Hb. unfold wp in Hb.
  destruct (begin_modeled_state_v1 41 (7, [] : list NormalizedTracerTaskEventV1))
    as [s [b k]|e s|] eqn:E; [|vm_compute in E; discriminate E|destruct Hb].
  destruct Hb as [Hwf _]. exists s. split; [exact Hwf|]. intros summary s' Hc.
  apply (supervisor_complete_exact s summary s' Hwf) in Hc as (_ & _ & _ & Hd & _).
  vm_compute in E. injection E as <- _ _. vm_compute in Hd. discriminate Hd.
Defined.

(** The session a token was issued for. *)
Definition call_brand (c : sup_call) : option Z :=
  match c with
  | CallMessage t _ => Some (message_brand t)
  | CallInfo t _ _ => Some (info_brand t)
  | CallPermit t => Some (permit_brand t)
  | CallClone3 t _ => Some (args_brand t)
  | CallResume t => Some (resume_brand t)
  | CallWait _ _ => None
  end.

Lemma confirm_brand intent s i s' :
  confirm_resume_succeeded intent s = Returned i s' → resume_brand intent = session_brand s.
Proof.
  unfold confirm_resume_succeeded, require_healthy, mbind, state_bind, gets. simpl. intros Hrun.
  destruct (sup_poisoned s); [done|]. simpl in Hrun. unfold id in Hrun.
  destruct (exchange s) as [| | | | |brand cursor]; try done.
  destruct (current cursor) as [step position]. case_match; [done|]. bool_to_prop. congruence.
Qed.

Lemma run_call_brand {K} `{NormalizedTracerTaskEventSinkV1 K} c s (k : K) i x b :
  run_call c (s, k) = Returned i x → call_brand c = Some b → b = session_brand s.
Proof.
  intros Hrun Hbrand. destruct (sup_poisoned s) as [e|] eqn:Hp.
  { by rewrite (run_call_poisoned c s k e Hp) in Hrun. }
  assert (require_healthy s = Returned () s) as Hh.
  { unfold require_healthy, mbind, state_bind, gets. simpl. by rewrite Hp. }
  destruct c; simpl in Hbrand; simplify_eq; simpl in Hrun.
  5: { unfold on_fst in Hrun. case_match eqn:Hc; simplify_eq. by eapply confirm_brand. }
  all: unfold accept_event_message, accept_syscall_info, consume_stopped_seccomp_permit,
      accept_clone3_args_read in Hrun;
    unfold mbind, state_bind, on_fst at 1 in Hrun; rewrite Hh in Hrun;
    unfold on_fst at 1, gets, id in Hrun;
    destruct (exchange s); try (unfold on_fst, sup_poison in Hrun; simpl in Hrun; done);
    (case_match; [unfold on_fst, sup_poison in Hrun; simpl in Hrun; done|]);
    bool_to_prop; congruence.
Qed.

(** C7. Sessions are separate: of two sessions started one after the other, the
    second never accepts a token of the first, however far it has run; it
    poisons itself instead. *)
Theorem foreign_token_rejected {K} `{NormalizedTracerTaskEventSinkV1 K}
    tid tid' brand brand1 brand2 s s' s2 (k k1 k2 k3 k4 : K) c :
  begin_modeled_state_v1 tid (brand, k) = Returned s (brand1, k1) →
  begin_modeled_state_v1 tid' (brand1, k2) = Returned s' (brand2, k3) →
  rtc call_step (s', k3) (s2, k4) →
  call_brand c = Some (session_brand s) → call_input_wf c →
  ∃ e s3 k5, run_call c (s2, k4) = Threw e (s3, k5) ∧ sup_poisoned s3 = Some e.
Proof.
  intros H1 H2 Hreach Hbrand Hin.
  pose proof (wp_Returned _ _ _ _ _ _ (begin_spec tid brand k) H1) as (_ & Hb1 & -> & _).
  pose proof (wp_Returned _ _ _ _ _ _ (begin_spec tid' (brand + 1) k2) H2) as (Hwf & Hb2 & _ & _).
  destruct (rtc_progress (λ s, session_brand s = brand + 1) _ _
    (λ a b Hab, eq_trans (progress_brand a b Hab)) Hreach Hwf Hb2) as [Hwf2 Hb3].
  pose proof (run_call_spec c s2 k4 Hwf2 Hin) as Hspec. unfold call_spec, wp in Hspec.
  destruct (run_call c (s2, k4)) as [i x|e [s3 k5]|] eqn:Hrun; [exfalso| |done].
  - pose proof (run_call_brand c s2 k4 i x _ Hrun Hbrand). simpl in Hb3. lia.
  - exists e, s3, k5. split; [done|]. apply Hspec.
Qed.

Lemma foreign_token_rejected_witness :
  ∃ (s2 s3 : TracerSupervisorStateV1) (k : list NormalizedTracerTaskEventV1) e k5,
    run_call (CallMessage first_stop_token first_message) (s2, k) = Threw e (s3, k5).
Proof.
  destruct (begin_modeled_state_v1 41 (7, [] : list NormalizedTracerTaskEventV1))
    as [s [b k]|e s|] eqn:E; [|vm_compute in E; discriminate E..].
  destruct (begin_modeled_state_v1 41 (b, [] : list NormalizedTracerTaskEventV1))
    as [s' [b' k']|e s'|] eqn:E';
    [|vm_compute in E; injection E as _ <- _; vm_compute in E'; discriminate E'..].
  destruct (foreign_token_rejected 41 41 7 b b' s s' s' [] k [] k' k'
    (CallMessage first_stop_token first_message) E E' (rtc_refl _ _)) as (e & s3 & k5 & H & _).
  - vm_compute in E. injection E as <- _ _. reflexivity.
  - repeat constructor; unfold is_u8; lia.
  - exists s', s3, k', e, k5. exact H.
Defined.
