(* ===== verification/RejectionCodes.v ===== *)
(** * Rejection codes

    [src/src/linux_pytest/tracer_supervisor_state.rs]: the fixed diagnostic
    string of every rejection of the planner and of the decoders and the
    recorder below it. *)

From stdpp Require Import strings.
From S2P Require Import Prelude Monad WaitStatus EventMessage SyscallInfo TaskState ForkDecode.
From S2P Require Import Supervisor.

Open Scope Z_scope.
#[local] Open Scope string_scope.

Definition wait_status_rejection_code_v1 (error : LinuxWaitStatusDecodeErrorV1) : string :=
  match error with
  | PtraceEventBitsOnNonStop => "supervisor_wait_ptrace_event_bits_on_non_stop"
  | CoreFlagWithoutSignal => "supervisor_wait_core_flag_without_signal"
  | ReservedContinuationEncoding => "supervisor_wait_reserved_continuation_encoding"
  | InvalidTerminationSignal _ => "supervisor_wait_invalid_termination_signal"
  | SignaledTerminationHasExitPayload => "supervisor_wait_signaled_termination_has_exit_payload"
  | CoreFlagForNonCoreDumpSignal _ => "supervisor_wait_core_flag_for_non_core_dump_signal"
  | InvalidEventZeroStopSignal _ => "supervisor_wait_invalid_event_zero_stop_signal"
  | PtraceEventSignalMismatch _ _ => "supervisor_wait_ptrace_event_signal_mismatch"
  | UnsupportedPtraceEventVforkDone => "supervisor_wait_unsupported_ptrace_event_vfork_done"
  | PtraceEventStopSignalMismatch _ => "supervisor_wait_ptrace_event_stop_signal_mismatch"
  | UnknownPtraceEvent _ => "supervisor_wait_unknown_ptrace_event"
  end.

Definition event_exit_message_rejection_code_v1 (error : LinuxWaitStatusDecodeErrorV1) : string :=
  match error with
  | PtraceEventBitsOnNonStop => "supervisor_event_message_exit_ptrace_event_bits_on_non_stop"
  | CoreFlagWithoutSignal => "supervisor_event_message_exit_core_flag_without_signal"
  | ReservedContinuationEncoding => "supervisor_event_message_exit_reserved_continuation_encoding"
  | InvalidTerminationSignal _ => "supervisor_event_message_exit_invalid_termination_signal"
  | SignaledTerminationHasExitPayload => "supervisor_event_message_exit_signaled_termination_has_exit_payload"
  | CoreFlagForNonCoreDumpSignal _ => "supervisor_event_message_exit_core_flag_for_non_core_dump_signal"
  | InvalidEventZeroStopSignal _ => "supervisor_event_message_exit_invalid_event_zero_stop_signal"
  | PtraceEventSignalMismatch _ _ => "supervisor_event_message_exit_ptrace_event_signal_mismatch"
  | UnsupportedPtraceEventVforkDone => "supervisor_event_message_exit_unsupported_ptrace_event_vfork_done"
  | PtraceEventStopSignalMismatch _ => "supervisor_event_message_exit_ptrace_event_stop_signal_mismatch"
  | UnknownPtraceEvent _ => "supervisor_event_message_exit_unknown_ptrace_event"
  end.

Definition event_message_rejection_code_v1 (error : LinuxPtraceEventMessageDecodeErrorV1) : string :=
  match error with
  | UpperWordNonzero => "supervisor_event_message_upper_word_nonzero"
  | TidZero => "supervisor_event_message_tid_zero"
  | TidExceedsLinuxX8664Limit => "supervisor_event_message_tid_exceeds_linux_x86_64_limit"
  | ExitMessageMalformed error => event_exit_message_rejection_code_v1 error
  | ExitMessageIsNotFinal => "supervisor_event_message_exit_not_final"
  | SeccompReservedBitsNonzero => "supervisor_event_message_seccomp_reserved_bits_nonzero"
  | SeccompTraceCookieSchemaMismatch => "supervisor_event_message_seccomp_cookie_mismatch"
  end.

Definition syscall_info_rejection_code_v1 (error : PtraceSyscallInfoDecodeErrorV1) : string :=
  match error with
  | UnsupportedReturnedByteCount => "supervisor_syscall_info_unsupported_returned_byte_count"
  | UnsupportedOperation => "supervisor_syscall_info_unsupported_operation"
  | ExitReturnedByteCountMismatch => "supervisor_syscall_info_exit_byte_count_mismatch"
  | SeccompReturnedByteCountMismatch => "supervisor_syscall_info_seccomp_byte_count_mismatch"
  | HeaderReservedByteNonzero => "supervisor_syscall_info_header_reserved_byte_nonzero"
  | HeaderFlagsNonzero => "supervisor_syscall_info_header_flags_nonzero"
  | ArchitectureMismatch => "supervisor_syscall_info_architecture_mismatch"
  | SeccompSyscallNumberDoesNotFitU32 => "supervisor_syscall_info_seccomp_number_does_not_fit_u32"
  | SeccompSyscallNumberUsesX32Abi => "supervisor_syscall_info_seccomp_number_uses_x32_abi"
  | SeccompSyscallNumberNotCanonicalNative => "supervisor_syscall_info_seccomp_number_not_canonical_native"
  | SeccompCookieMismatch => "supervisor_syscall_info_seccomp_cookie_mismatch"
  | ExitTailNonzero => "supervisor_syscall_info_exit_tail_nonzero"
  | ExitIsErrorInvalid => "supervisor_syscall_info_exit_is_error_invalid"
  | ExitResultShapeMismatch => "supervisor_syscall_info_exit_result_shape_mismatch"
  end.

Definition fork_family_rejection_code_v1 (error : ForkFamilyDecodeErrorV1) : string :=
  match error with
  | UnsupportedSyscall => "supervisor_fork_family_unsupported_syscall"
  | UnexpectedClone3Capture => "supervisor_fork_family_unexpected_clone3_capture"
  | Clone3ArgsUnavailable => "supervisor_fork_family_clone3_args_unavailable"
  | Clone3NullArgsPointer => "supervisor_fork_family_clone3_null_args_pointer"
  | Clone3DeclaredSizeTooSmall => "supervisor_fork_family_clone3_declared_size_too_small"
  | Clone3DeclaredSizeTooLarge => "supervisor_fork_family_clone3_declared_size_too_large"
  | Clone3DeclaredSizeAmbiguous => "supervisor_fork_family_clone3_declared_size_ambiguous"
  | Clone3CopiedByteCountMismatch => "supervisor_fork_family_clone3_copied_byte_count_mismatch"
  | Clone3UncopiedTailNonzero => "supervisor_fork_family_clone3_uncopied_tail_nonzero"
  | LegacyCloneHighFlagBitsNonzero => "supervisor_fork_family_legacy_clone_high_flag_bits_nonzero"
  | ExitSignalOutOfRange => "supervisor_fork_family_exit_signal_out_of_range"
  | Clone3SignalBitsInFlags => "supervisor_fork_family_clone3_signal_bits_in_flags"
  | TraceSuppressionFlag => "supervisor_fork_family_trace_suppression_flag"
  | ReservedCloneFlag => "supervisor_fork_family_reserved_clone_flag"
  | UnsupportedCloneFlags => "supervisor_fork_family_unsupported_clone_flags"
  | InvalidCloneFlagCombination => "supervisor_fork_family_invalid_clone_flag_combination"
  | SharedThreadGroupWithExitSignal => "supervisor_fork_family_shared_thread_group_with_exit_signal"
  | VforkSharedThreadGroupUnsupported => "supervisor_fork_family_vfork_shared_thread_group_unsupported"
  | LegacyCloneInactiveFieldNonzero => "supervisor_fork_family_legacy_clone_inactive_field_nonzero"
  | Clone3InactiveFieldNonzero => "supervisor_fork_family_clone3_inactive_field_nonzero"
  | Clone3ActiveFieldZero => "supervisor_fork_family_clone3_active_field_zero"
  | Clone3SetTidExternalReadUnsupported => "supervisor_fork_family_clone3_set_tid_external_read_unsupported"
  | Clone3FlagRequiresNewerVersion => "supervisor_fork_family_clone3_flag_requires_newer_version"
  | Clone3StackShapeInvalid => "supervisor_fork_family_clone3_stack_shape_invalid"
  | Clone3PidfdParentTidAlias => "supervisor_fork_family_clone3_pidfd_parent_tid_alias"
  | PtraceEventMismatch => "supervisor_fork_family_ptrace_event_mismatch"
  end.

Definition task_state_rejection_code_v1 (error : TracerTaskExecuteOnlyReasonV1) : string :=
  match error with
  | TaskReason.SequenceMismatch => "supervisor_task_sequence_mismatch"
  | TaskReason.CounterOverflow => "supervisor_task_counter_overflow"
  | TaskReason.InvalidRawTid => "supervisor_task_invalid_raw_tid"
  | TaskReason.UnknownRawTid => "supervisor_task_unknown_raw_tid"
  | TaskReason.DuplicateRawTid => "supervisor_task_duplicate_raw_tid"
  | TaskReason.InitialBirthRequired => "supervisor_task_initial_birth_required"
  | TaskReason.DuplicateInitialBirth => "supervisor_task_duplicate_initial_birth"
  | TaskReason.TaskCapacityExceeded => "supervisor_task_capacity_exceeded"
  | TaskReason.ParentNotRunning => "supervisor_task_parent_not_running"
  | TaskReason.SelfParentTid => "supervisor_task_self_parent_tid"
  | TaskReason.ChildAnnouncementWithoutEntry => "supervisor_task_child_announcement_without_entry"
  | TaskReason.ChildAnnouncementSyscallMismatch => "supervisor_task_child_announcement_syscall_mismatch"
  | TaskReason.DuplicateChildAnnouncement => "supervisor_task_duplicate_child_announcement"
  | TaskReason.DuplicateChildReady => "supervisor_task_duplicate_child_ready"
  | TaskReason.ChildNotReady => "supervisor_task_child_not_ready"
  | TaskReason.MissingChildAnnouncement => "supervisor_task_missing_child_announcement"
  | TaskReason.ChildResultMismatch => "supervisor_task_child_result_mismatch"
  | TaskReason.BirthGroupRelationMismatch => "supervisor_task_birth_group_relation_mismatch"
  | TaskReason.DuplicateExec => "supervisor_task_duplicate_exec"
  | TaskReason.ExecWithoutEntry => "supervisor_task_exec_without_entry"
  | TaskReason.ExecSyscallMismatch => "supervisor_task_exec_syscall_mismatch"
  | TaskReason.ExecTidReplacementUnsupported => "supervisor_task_exec_tid_replacement_unsupported"
  | TaskReason.ExecThreadTeardownUnsupported => "supervisor_task_exec_thread_teardown_unsupported"
  | TaskReason.DuplicateSeccompEntry => "supervisor_task_duplicate_seccomp_entry"
  | TaskReason.SyscallExitWithoutEntry => "supervisor_task_syscall_exit_without_entry"
  | TaskReason.SyscallRestartUnsupported => "supervisor_task_syscall_restart_unsupported"
  | TaskReason.NoReturnResolutionRequired => "supervisor_task_no_return_resolution_required"
  | TaskReason.MissingExecEvent => "supervisor_task_missing_exec_event"
  | TaskReason.ExecResultMismatch => "supervisor_task_exec_result_mismatch"
  | TaskReason.OutstandingSyscall => "supervisor_task_outstanding_syscall"
  | TaskReason.DuplicatePtraceExit => "supervisor_task_duplicate_ptrace_exit"
  | TaskReason.LateLifecycleEvent => "supervisor_task_late_lifecycle_event"
  | TaskReason.ReapBeforePtraceExit => "supervisor_task_reap_before_ptrace_exit"
  | TaskReason.InvalidTermination => "supervisor_task_invalid_termination"
  | TaskReason.TerminationMismatch => "supervisor_task_termination_mismatch"
  | TaskReason.SinkRejected => "supervisor_task_sink_rejected"
  | TaskReason.IncompleteShutdown => "supervisor_task_incomplete_shutdown"
  end.

Definition as_str (self : TracerSupervisorExecuteOnlyReasonV1) : string :=
  match self with
  | SupReason.InvalidRawTid => "supervisor_invalid_raw_tid"
  | SupReason.SessionBrandExhausted => "supervisor_session_brand_exhausted"
  | SupReason.UnknownRawTid => "supervisor_unknown_raw_tid"
  | SupReason.StopGenerationOverflow => "supervisor_stop_generation_overflow"
  | SupReason.TransportSequenceOverflow => "supervisor_transport_sequence_overflow"
  | SupReason.StopWhileExchangePending => "supervisor_stop_while_exchange_pending"
  | SupReason.WaitStatusDecode error => wait_status_rejection_code_v1 error
  | SupReason.ContinuedStatusUnsupported => "supervisor_continued_status_unsupported"
  | SupReason.EventZeroStopUnsupported => "supervisor_event_zero_stop_unsupported"
  | SupReason.EventStopContextAmbiguous => "supervisor_event_stop_context_ambiguous"
  | SupReason.ChildInitialStopCorrelationMissing => "supervisor_child_initial_stop_correlation_missing"
  | SupReason.UnexpectedSyscallStop => "supervisor_unexpected_syscall_stop"
  | SupReason.UnexpectedPtraceEvent => "supervisor_unexpected_ptrace_event"
  | SupReason.EventMessageResponseOutOfOrder => "supervisor_event_message_response_out_of_order"
  | SupReason.EventMessageCorrelationMismatch => "supervisor_event_message_correlation_mismatch"
  | SupReason.EventMessageDecode error => event_message_rejection_code_v1 error
  | SupReason.EventMessageShapeMismatch => "supervisor_event_message_shape_mismatch"
  | SupReason.SyscallInfoResponseOutOfOrder => "supervisor_syscall_info_response_out_of_order"
  | SupReason.SyscallInfoCorrelationMismatch => "supervisor_syscall_info_correlation_mismatch"
  | SupReason.SyscallInfoDecode error => syscall_info_rejection_code_v1 error
  | SupReason.SyscallInfoShapeMismatch => "supervisor_syscall_info_shape_mismatch"
  | SupReason.SeccompPermitResponseOutOfOrder => "supervisor_seccomp_permit_response_out_of_order"
  | SupReason.SeccompPermitCorrelationMismatch => "supervisor_seccomp_permit_correlation_mismatch"
  | SupReason.Clone3ArgsReadResponseOutOfOrder => "supervisor_clone3_args_read_response_out_of_order"
  | SupReason.Clone3ArgsReadCorrelationMismatch => "supervisor_clone3_args_read_correlation_mismatch"
  | SupReason.Clone3ArgsReadUnavailable => "supervisor_clone3_args_read_unavailable"
  | SupReason.ForkFamilyDecode error => fork_family_rejection_code_v1 error
  | SupReason.PendingForkCapacityExceeded => "supervisor_pending_fork_capacity_exceeded"
  | SupReason.DuplicatePendingFork => "supervisor_duplicate_pending_fork"
  | SupReason.ForkEventMismatch => "supervisor_fork_event_mismatch"
  | SupReason.DuplicatePendingChildStop => "supervisor_duplicate_pending_child_stop"
  | SupReason.PendingChildStopCapacityExceeded => "supervisor_pending_child_stop_capacity_exceeded"
  | SupReason.ChildInitialStopCorrelationAmbiguous => "supervisor_child_initial_stop_correlation_ambiguous"
  | SupReason.ResumeConfirmationOutOfOrder => "supervisor_resume_confirmation_out_of_order"
  | SupReason.ResumeCorrelationMismatch => "supervisor_resume_correlation_mismatch"
  | SupReason.IncompleteShutdown => "supervisor_incomplete_shutdown"
  | SupReason.TaskState error => task_state_rejection_code_v1 error
  end.

(** ** What a code says *)

(** A rejection without the status fields it may carry. *)
Definition erase_wait (e : LinuxWaitStatusDecodeErrorV1) : LinuxWaitStatusDecodeErrorV1 :=
  match e with
  | InvalidTerminationSignal _ => InvalidTerminationSignal 0
  | CoreFlagForNonCoreDumpSignal _ => CoreFlagForNonCoreDumpSignal 0
  | InvalidEventZeroStopSignal _ => InvalidEventZeroStopSignal 0
  | PtraceEventSignalMismatch _ _ => PtraceEventSignalMismatch 0 0
  | PtraceEventStopSignalMismatch _ => PtraceEventStopSignalMismatch 0
  | UnknownPtraceEvent _ => UnknownPtraceEvent 0
  | e => e
  end.

Definition erase_message (e : LinuxPtraceEventMessageDecodeErrorV1) :
    LinuxPtraceEventMessageDecodeErrorV1 :=
  match e with ExitMessageMalformed e => ExitMessageMalformed (erase_wait e) | e => e end.

Definition erase (e : TracerSupervisorExecuteOnlyReasonV1) : TracerSupervisorExecuteOnlyReasonV1 :=
  match e with
  | SupReason.WaitStatusDecode e => SupReason.WaitStatusDecode (erase_wait e)
  | SupReason.EventMessageDecode e => SupReason.EventMessageDecode (erase_message e)
  | e => e
  end.

(** Every rejection, once. *)
Definition wait_errors : list LinuxWaitStatusDecodeErrorV1 :=
  [PtraceEventBitsOnNonStop; CoreFlagWithoutSignal; ReservedContinuationEncoding;
   (InvalidTerminationSignal 0); SignaledTerminationHasExitPayload;
   (CoreFlagForNonCoreDumpSignal 0); (InvalidEventZeroStopSignal 0); (PtraceEventSignalMismatch
   0 0); UnsupportedPtraceEventVforkDone; (PtraceEventStopSignalMismatch 0); (UnknownPtraceEvent
   0)].

Definition message_errors : list LinuxPtraceEventMessageDecodeErrorV1 :=
  [UpperWordNonzero; TidZero; TidExceedsLinuxX8664Limit; ExitMessageIsNotFinal;
   SeccompReservedBitsNonzero; SeccompTraceCookieSchemaMismatch]
  ++ (ExitMessageMalformed <$> wait_errors).

Definition info_errors : list PtraceSyscallInfoDecodeErrorV1 :=
  [UnsupportedReturnedByteCount; UnsupportedOperation; ExitReturnedByteCountMismatch;
   SeccompReturnedByteCountMismatch; HeaderReservedByteNonzero; HeaderFlagsNonzero;
   ArchitectureMismatch; SeccompSyscallNumberDoesNotFitU32; SeccompSyscallNumberUsesX32Abi;
   SeccompSyscallNumberNotCanonicalNative; SeccompCookieMismatch; ExitTailNonzero;
   ExitIsErrorInvalid; ExitResultShapeMismatch].

Definition fork_errors : list ForkFamilyDecodeErrorV1 :=
  [UnsupportedSyscall; UnexpectedClone3Capture; Clone3ArgsUnavailable; Clone3NullArgsPointer;
   Clone3DeclaredSizeTooSmall; Clone3DeclaredSizeTooLarge; Clone3DeclaredSizeAmbiguous;
   Clone3CopiedByteCountMismatch; Clone3UncopiedTailNonzero; LegacyCloneHighFlagBitsNonzero;
   ExitSignalOutOfRange; Clone3SignalBitsInFlags; TraceSuppressionFlag; ReservedCloneFlag;
   UnsupportedCloneFlags; InvalidCloneFlagCombination; SharedThreadGroupWithExitSignal;
   VforkSharedThreadGroupUnsupported; LegacyCloneInactiveFieldNonzero;
   Clone3InactiveFieldNonzero; Clone3ActiveFieldZero; Clone3SetTidExternalReadUnsupported;
   Clone3FlagRequiresNewerVersion; Clone3StackShapeInvalid; Clone3PidfdParentTidAlias;
   PtraceEventMismatch].

Definition task_errors : list TracerTaskExecuteOnlyReasonV1 :=
  [TaskReason.SequenceMismatch; TaskReason.CounterOverflow; TaskReason.InvalidRawTid;
   TaskReason.UnknownRawTid; TaskReason.DuplicateRawTid; TaskReason.InitialBirthRequired;
   TaskReason.DuplicateInitialBirth; TaskReason.TaskCapacityExceeded;
   TaskReason.ParentNotRunning; TaskReason.SelfParentTid;
   TaskReason.ChildAnnouncementWithoutEntry; TaskReason.ChildAnnouncementSyscallMismatch;
   TaskReason.DuplicateChildAnnouncement; TaskReason.DuplicateChildReady;
   TaskReason.ChildNotReady; TaskReason.MissingChildAnnouncement;
   TaskReason.ChildResultMismatch; TaskReason.BirthGroupRelationMismatch;
   TaskReason.DuplicateExec; TaskReason.ExecWithoutEntry; TaskReason.ExecSyscallMismatch;
   TaskReason.ExecTidReplacementUnsupported; TaskReason.ExecThreadTeardownUnsupported;
   TaskReason.DuplicateSeccompEntry; TaskReason.SyscallExitWithoutEntry;
   TaskReason.SyscallRestartUnsupported; TaskReason.NoReturnResolutionRequired;
   TaskReason.MissingExecEvent; TaskReason.ExecResultMismatch; TaskReason.OutstandingSyscall;
   TaskReason.DuplicatePtraceExit; TaskReason.LateLifecycleEvent;
   TaskReason.ReapBeforePtraceExit; TaskReason.InvalidTermination;
   TaskReason.TerminationMismatch; TaskReason.SinkRejected; TaskReason.IncompleteShutdown].

Definition all_reasons : list TracerSupervisorExecuteOnlyReasonV1 :=
  [SupReason.InvalidRawTid; SupReason.SessionBrandExhausted; SupReason.UnknownRawTid;
   SupReason.StopGenerationOverflow; SupReason.TransportSequenceOverflow;
   SupReason.StopWhileExchangePending; SupReason.ContinuedStatusUnsupported;
   SupReason.EventZeroStopUnsupported; SupReason.EventStopContextAmbiguous;
   SupReason.ChildInitialStopCorrelationMissing; SupReason.UnexpectedSyscallStop;
   SupReason.UnexpectedPtraceEvent; SupReason.EventMessageResponseOutOfOrder;
   SupReason.EventMessageCorrelationMismatch; SupReason.EventMessageShapeMismatch;
   SupReason.SyscallInfoResponseOutOfOrder; SupReason.SyscallInfoCorrelationMismatch;
   SupReason.SyscallInfoShapeMismatch; SupReason.SeccompPermitResponseOutOfOrder;
   SupReason.SeccompPermitCorrelationMismatch; SupReason.Clone3ArgsReadResponseOutOfOrder;
   SupReason.Clone3ArgsReadCorrelationMismatch; SupReason.Clone3ArgsReadUnavailable;
   SupReason.PendingForkCapacityExceeded; SupReason.DuplicatePendingFork;
   SupReason.ForkEventMismatch; SupReason.DuplicatePendingChildStop;
   SupReason.PendingChildStopCapacityExceeded; SupReason.ChildInitialStopCorrelationAmbiguous;
   SupReason.ResumeConfirmationOutOfOrder; SupReason.ResumeCorrelationMismatch;
   SupReason.IncompleteShutdown]
  ++ (SupReason.WaitStatusDecode <$> wait_errors) ++ (SupReason.EventMessageDecode <$>
   message_errors)
  ++ (SupReason.SyscallInfoDecode <$> info_errors) ++ (SupReason.ForkFamilyDecode <$> fork_errors)
  ++ (SupReason.TaskState <$> task_errors).
Lemma erase_all e : erase e ∈ all_reasons.
Proof.
  apply (bool_decide_unpack _).
  destruct e as [| | | | | |[]| | | | | | | | |[| | |[]| | |]| | | |[]| | | | | | |[]| | | | | | | | | |[]];
    vm_compute; exact I.
Qed.

Lemma as_str_erase e : as_str (erase e) = as_str e.
Proof. destruct e as [| | | | | |[]| | | | | | | | |[| | |[]| | |]| | | | | | | | | | | | | | | | | | | | |]; done. Qed.

Lemma as_str_no_dup : NoDup (as_str <$> all_reasons).
Proof. apply (bool_decide_unpack _). vm_compute. exact I. Qed.

Lemma NoDup_fmap_inj {A B} (f : A → B) (l : list A) x y :
  NoDup (f <$> l) → x ∈ l → y ∈ l → f x = f y → x = y.
Proof.
  intros Hnd [i Hi]%list_elem_of_lookup [j Hj]%list_elem_of_lookup Heq.
  assert (i = j) as ->; [|congruence].
  eapply (NoDup_lookup _ i j); [exact Hnd|..]; rewrite list_lookup_fmap.
  - by rewrite Hi.
  - rewrite Hj. simpl. by rewrite Heq.
Qed.

(** The rejection codes are exact and data free: two rejections have the
    same code if and only if they are the same rejection up to the raw status
    fields they carry. *)
Theorem rejection_codes_exact e e' : as_str e = as_str e' ↔ erase e = erase e'.
Proof.
  rewrite <- (as_str_erase e), <- (as_str_erase e'). split.
  - apply (NoDup_fmap_inj as_str all_reasons); [apply as_str_no_dup|apply erase_all..].
  - by intros ->.
Qed.
