(* ===== verification/TraceProtocol.v ===== *)
(** * The fixed ptrace transport diagnostic

    [src/src/linux_pytest/trace_protocol.rs]: the incremental checker of one
    closed, four-event transcript (two seccomp stops, an exit event, a reap) of
    one task, and its fingerprint. *)

From S2P Require Import Prelude Monad Bytes WaitStatus.

Definition PTRACE_TRANSPORT_AUDIT_ARCH_X86_64_V1 : Z := 0xc000003e.
Definition PTRACE_TRANSPORT_GETPID_NR_X86_64_V1 : Z := 39.
Definition PTRACE_TRANSPORT_GETPPID_NR_X86_64_V1 : Z := 110.
Definition PTRACE_TRANSPORT_GETPID_COOKIE_V1 : Z := 0xa611.
Definition PTRACE_TRANSPORT_GETPPID_COOKIE_V1 : Z := 0xa612.
Definition PTRACE_TRANSPORT_EXACT_EVENT_COUNT_V1 : Z := 4.
Definition PTRACE_TRANSPORT_LOGICAL_TASK_ID_V1 : Z := 1.
Definition PTRACE_TRANSPORT_SECCOMP_STOP_COUNT_V1 : Z := 2.
Definition PTRACE_TRANSPORT_PTRACE_EXIT_EVENT_COUNT_V1 : Z := 1.
Definition PTRACE_TRANSPORT_TERMINAL_REAP_COUNT_V1 : Z := 1.

(** [b"again fixed ptrace transport diagnostic v1"]. *)
Definition PTRACE_TRANSPORT_PROTOCOL_DOMAIN_V1 : list Z :=
  [97; 103; 97; 105; 110; 32; 102; 105; 120; 101; 100; 32; 112; 116; 114; 97; 99; 101; 32; 116;
   114; 97; 110; 115; 112; 111; 114; 116; 32; 100; 105; 97; 103; 110; 111; 115; 116; 105; 99; 32;
   118; 49].

Definition PTRACE_TRANSPORT_PROTOCOL_FINGERPRINT_V1 : Z := 0xf4101836ef74bb4f.

Inductive FixedPtraceTransportEventV1 :=
| ProbeSeccompStop (tid architecture nr : Z) (arguments : list Z) (cookie : Z)
| ProbePtraceExitEvent (tid status : Z)
| ProbeTerminalReap (tid wait_status : Z).

Definition probe_event_tid (event : FixedPtraceTransportEventV1) : Z :=
  match event with
  | ProbeSeccompStop tid _ _ _ _ | ProbePtraceExitEvent tid _ | ProbeTerminalReap tid _ => tid
  end.

Inductive FixedPtraceTransportProtocolErrorV1 :=
| EventLimitExceeded | IncompleteSequence | NonPositiveRawTid | RawTidChanged
| UnexpectedEventKind | WrongArchitecture | WrongSyscallNumber | NonzeroSyscallArgument
| WrongSeccompCookie | WrongPtraceExitStatus | NonterminalReap | WrongTerminalReapStatus
| ProtocolFingerprintMismatch.

Record FixedPtraceTransportProbeRecorderV1 := {
  probe_tid : option Z;
  accepted_event_count : Z;
  protocol_fingerprint : Z;
}.

Abbreviation protocol_result := (result FixedPtraceTransportProtocolErrorV1).

Definition fingerprint_bytes_v1 (fingerprint : Z) (bytes : list Z) : Z :=
  fnv1a64_bytes fingerprint bytes.
Definition fingerprint_u8_v1 (fingerprint value : Z) : Z :=
  fingerprint_bytes_v1 fingerprint [value].
Definition fingerprint_u16_v1 (fingerprint value : Z) : Z :=
  fingerprint_bytes_v1 fingerprint (be_bytes 2 value).
Definition fingerprint_u32_v1 (fingerprint value : Z) : Z :=
  fingerprint_bytes_v1 fingerprint (be_bytes 4 value).
Definition fingerprint_u64_v1 (fingerprint value : Z) : Z :=
  fingerprint_bytes_v1 fingerprint (be_bytes 8 value).
Definition fingerprint_i64_v1 (fingerprint value : Z) : Z :=
  fingerprint_bytes_v1 fingerprint (be_bytes 8 value).

Module Probe.

Definition initialize : FixedPtraceTransportProbeRecorderV1 :=
  let fingerprint :=
    fingerprint_bytes_v1 FNV1A64_OFFSET_BASIS PTRACE_TRANSPORT_PROTOCOL_DOMAIN_V1 in
  {| probe_tid := None; accepted_event_count := 0;
     protocol_fingerprint :=
       fingerprint_u32_v1 fingerprint PTRACE_TRANSPORT_LOGICAL_TASK_ID_V1 |}.

(** The three event checks return the new fingerprint. *)
Definition observe_seccomp_stop_v1 (fingerprint : Z) (event : FixedPtraceTransportEventV1)
    (expected_syscall_number expected_cookie : Z) : protocol_result Z :=
  match event with
  | ProbeSeccompStop _ architecture nr arguments cookie =>
      if negb (architecture =? PTRACE_TRANSPORT_AUDIT_ARCH_X86_64_V1) then Err WrongArchitecture
      else if negb (nr =? expected_syscall_number) then Err WrongSyscallNumber
      else if negb (bool_decide (arguments = replicate 6 0)) then Err NonzeroSyscallArgument
      else if negb (cookie =? expected_cookie) then Err WrongSeccompCookie
      else
        let fingerprint := fingerprint_u8_v1 fingerprint 1 in
        let fingerprint := fingerprint_u32_v1 fingerprint architecture in
        let fingerprint := fingerprint_i64_v1 fingerprint nr in
        let fingerprint := foldl fingerprint_u64_v1 fingerprint arguments in
        Ok (fingerprint_u16_v1 fingerprint cookie)
  | _ => Err UnexpectedEventKind
  end.

Definition observe_ptrace_exit_event_v1 (fingerprint : Z)
    (event : FixedPtraceTransportEventV1) : protocol_result Z :=
  match event with
  | ProbePtraceExitEvent _ status =>
      if negb (status =? 0) then Err WrongPtraceExitStatus
      else Ok (fingerprint_u64_v1 (fingerprint_u8_v1 fingerprint 2) status)
  | _ => Err UnexpectedEventKind
  end.

Definition observe_terminal_reap_v1 (fingerprint : Z) (event : FixedPtraceTransportEventV1) :
    protocol_result Z :=
  match event with
  | ProbeTerminalReap _ wait_status =>
      if negb (raw_is_final wait_status) then Err NonterminalReap
      else if negb (wait_status =? raw_exited 0) then Err WrongTerminalReapStatus
      else Ok (fingerprint_u32_v1 (fingerprint_u8_v1 fingerprint 3) wait_status)
  | _ => Err UnexpectedEventKind
  end.

Definition observe (self : FixedPtraceTransportProbeRecorderV1)
    (event : FixedPtraceTransportEventV1) : protocol_result FixedPtraceTransportProbeRecorderV1 :=
  if PTRACE_TRANSPORT_EXACT_EVENT_COUNT_V1 <=? accepted_event_count self then
    Err EventLimitExceeded
  else
    let tid := probe_event_tid event in
    if tid <=? 0 then Err NonPositiveRawTid
    else
      let changed := match probe_tid self with
                     | None => false
                     | Some expected => negb (expected =? tid)
                     end in
      if changed then Err RawTidChanged
      else
        let fingerprint := protocol_fingerprint self in
        fingerprint ←
          (if accepted_event_count self =? 0 then
             observe_seccomp_stop_v1 fingerprint event
               PTRACE_TRANSPORT_GETPID_NR_X86_64_V1 PTRACE_TRANSPORT_GETPID_COOKIE_V1
           else if accepted_event_count self =? 1 then
             observe_seccomp_stop_v1 fingerprint event
               PTRACE_TRANSPORT_GETPPID_NR_X86_64_V1 PTRACE_TRANSPORT_GETPPID_COOKIE_V1
           else if accepted_event_count self =? 2 then
             observe_ptrace_exit_event_v1 fingerprint event
           else if accepted_event_count self =? 3 then
             observe_terminal_reap_v1 fingerprint event
           else Err EventLimitExceeded);
        Ok {| probe_tid := Some tid; accepted_event_count := accepted_event_count self + 1;
              protocol_fingerprint := fingerprint |}.

Record FixedPtraceTransportProbeSummaryV1 := {
  summary_logical_task_id : Z;
  summary_event_count : Z;
  summary_seccomp_stop_count : Z;
  summary_ptrace_exit_event_count : Z;
  summary_terminal_reap_count : Z;
  summary_protocol_fingerprint : Z;
}.

Definition complete (self : FixedPtraceTransportProbeRecorderV1) :
    protocol_result FixedPtraceTransportProbeSummaryV1 :=
  if negb (accepted_event_count self =? PTRACE_TRANSPORT_EXACT_EVENT_COUNT_V1) then
    Err IncompleteSequence
  else if negb (protocol_fingerprint self =? PTRACE_TRANSPORT_PROTOCOL_FINGERPRINT_V1) then
    Err ProtocolFingerprintMismatch
  else Ok {| summary_logical_task_id := PTRACE_TRANSPORT_LOGICAL_TASK_ID_V1;
             summary_event_count := PTRACE_TRANSPORT_EXACT_EVENT_COUNT_V1;
             summary_seccomp_stop_count := PTRACE_TRANSPORT_SECCOMP_STOP_COUNT_V1;
             summary_ptrace_exit_event_count := PTRACE_TRANSPORT_PTRACE_EXIT_EVENT_COUNT_V1;
             summary_terminal_reap_count := PTRACE_TRANSPORT_TERMINAL_REAP_COUNT_V1;
             summary_protocol_fingerprint := protocol_fingerprint self |}.

End Probe.

(** ** What the checker accepts *)

(** The one transcript of task [tid]. *)
Definition fixed_transcript (tid : Z) : list FixedPtraceTransportEventV1 :=
  [ProbeSeccompStop tid 0xc000003e 39 [0; 0; 0; 0; 0; 0] 0xa611;
   ProbeSeccompStop tid 0xc000003e 110 [0; 0; 0; 0; 0; 0] 0xa612;
   ProbePtraceExitEvent tid 0; ProbeTerminalReap tid 0].

(** A recorder fed one event after the other. *)
Definition observe_events (events : list FixedPtraceTransportEventV1) :
    protocol_result FixedPtraceTransportProbeRecorderV1 :=
  foldl (λ acc event, acc ≫= λ self, Probe.observe self event) (Ok Probe.initialize) events.

Definition check_transcript (events : list FixedPtraceTransportEventV1) :
    protocol_result Probe.FixedPtraceTransportProbeSummaryV1 :=
  observe_events events ≫= Probe.complete.

Definition fingerprint_after (n : nat) : Z :=
  match observe_events (take n (fixed_transcript 1)) with
  | Ok self => protocol_fingerprint self
  | Err _ => 0
  end.

(** The recorder after the first [n] events of the transcript. *)
Definition recorder_after (n : nat) (tid : Z) : FixedPtraceTransportProbeRecorderV1 :=
  {| probe_tid := if (n =? 0)%nat then None else Some tid;
     accepted_event_count := Z.of_nat n; protocol_fingerprint := fingerprint_after n |}.

Lemma seccomp_stop_exact fingerprint event nr cookie f :
  Probe.observe_seccomp_stop_v1 fingerprint event nr cookie = Ok f →
  event = ProbeSeccompStop (probe_event_tid event) 0xc000003e nr [0; 0; 0; 0; 0; 0] cookie
  ∧ f = fingerprint_u16_v1 (foldl fingerprint_u64_v1 (fingerprint_i64_v1 (fingerprint_u32_v1
          (fingerprint_u8_v1 fingerprint 1) 0xc000003e) nr) [0; 0; 0; 0; 0; 0]) cookie.
Proof.
  destruct event; simpl; try done. repeat case_match; try done. bool_to_prop.
  intros [= <-]. subst. done.
Qed.

Lemma ptrace_exit_event_exact fingerprint event f :
  Probe.observe_ptrace_exit_event_v1 fingerprint event = Ok f →
  event = ProbePtraceExitEvent (probe_event_tid event) 0
  ∧ f = fingerprint_u64_v1 (fingerprint_u8_v1 fingerprint 2) 0.
Proof. destruct event; simpl; try done. case_match; [done|]. bool_to_prop. by intros [= <-]; subst. Qed.

Lemma terminal_reap_exact fingerprint event f :
  Probe.observe_terminal_reap_v1 fingerprint event = Ok f →
  event = ProbeTerminalReap (probe_event_tid event) 0
  ∧ f = fingerprint_u32_v1 (fingerprint_u8_v1 fingerprint 3) 0.
Proof.
  destruct event; simpl; try done. do 2 (case_match; [done|]). bool_to_prop. by intros [= <-]; subst.
Qed.

Lemma recorder_after_intro n tid f :
  f = fingerprint_after (S n) →
  {| probe_tid := Some tid; accepted_event_count := Z.of_nat n + 1; protocol_fingerprint := f |}
  = recorder_after (S n) tid.
Proof.
  intros ->. unfold recorder_after. simpl. by replace (Z.of_nat n + 1) with (Z.of_nat (S n)) by lia.
Qed.

(** One accepted event continues the transcript of the task. *)
Lemma observe_transcript n tid event self :
  (n < 4)%nat →
  Probe.observe (recorder_after n tid) event = Ok self →
  ∃ tid', 0 < tid' ∧ (n ≠ 0%nat → tid' = tid)
    ∧ fixed_transcript tid' !! n = Some event ∧ self = recorder_after (S n) tid'.
Proof.
  intros Hn. unfold Probe.observe. case_match eqn:E0; [done|]. case_match eqn:Hpos; [done|].
  case_match eqn:Hchg; [done|]. intros Hok.
  apply result_bind_Ok in Hok as (f & Hf & [= <-]). bool_to_prop.
  assert (n ≠ 0%nat → probe_event_tid event = tid) as Hsame.
  { intros Hnz. unfold recorder_after in Hchg. simpl in Hchg.
    destruct (Nat.eqb_spec n 0); [done|]. by bool_to_prop. }
  exists (probe_event_tid event). split; [done|]. split; [done|].
  cut (fixed_transcript (probe_event_tid event) !! n = Some event ∧ f = fingerprint_after (S n)).
  { intros [He Hfp]. split; [done|]. by apply recorder_after_intro. }
  clear Hsame Hchg Hpos E0.
  destruct n as [|[|[|[|n]]]]; [..|lia].
  - apply seccomp_stop_exact in Hf as [He ->]. split; [by rewrite He at 2|].
    clear. vm_compute; reflexivity.
  - apply seccomp_stop_exact in Hf as [He ->]. split; [by rewrite He at 2|].
    clear. vm_compute; reflexivity.
  - apply ptrace_exit_event_exact in Hf as [He ->]. split; [by rewrite He at 2|].
    clear. vm_compute; reflexivity.
  - apply terminal_reap_exact in Hf as [He ->]. split; [by rewrite He at 2|].
    clear. vm_compute; reflexivity.
Qed.

(** No fifth event is accepted. *)
Lemma observe_after_four tid event : Probe.observe (recorder_after 4 tid) event = Err EventLimitExceeded.
Proof. done. Qed.

(** The transcript's own events are accepted. *)
Lemma observe_own_event n tid event :
  0 < tid → fixed_transcript tid !! n = Some event →
  Probe.observe (recorder_after n tid) event = Ok (recorder_after (S n) tid).
Proof.
  intros Hpos He.
  assert ((tid <=? 0) = false) as Hle by lia. assert ((tid =? tid) = true) as Heq by lia.
  assert (∀ (m : protocol_result Z), m = Ok (fingerprint_after (S n)) →
    (m ≫= λ f, Ok {| probe_tid := Some tid; accepted_event_count := Z.of_nat n + 1;
                     protocol_fingerprint := f |}) = Ok (recorder_after (S n) tid)) as Hstep.
  { intros m ->. rewrite <- (recorder_after_intro n tid _ eq_refl). reflexivity. }
  destruct n as [|[|[|[|n]]]]; simplify_eq/=; unfold Probe.observe;
    cbn [probe_event_tid probe_tid recorder_after accepted_event_count Nat.eqb]; rewrite Hle, ?Heq;
    apply Hstep; vm_compute; reflexivity.
Qed.

Lemma observe_events_snoc events event :
  observe_events (events ++ [event]) = observe_events events ≫= λ self, Probe.observe self event.
Proof. unfold observe_events. by rewrite foldl_app. Qed.

(** Every accepted sequence is a prefix of one task's transcript, and the
    recorder's state is a function of its length. *)
Lemma observe_events_prefix events self :
  observe_events events = Ok self →
  ∃ tid, 0 < tid ∧ (length events ≤ 4)%nat ∧ events = take (length events) (fixed_transcript tid)
    ∧ self = recorder_after (length events) tid.
Proof.
  revert self. induction events as [|event events IH] using rev_ind; intros self.
  - intros [= <-]. exists 1. split; [done|]. split; [simpl; lia|]. split; [done|]. reflexivity.
  - rewrite observe_events_snoc, length_app. intros (self' & Hpre & Hobs)%result_bind_Ok.
    destruct (IH _ Hpre) as (tid & Hpos & Hlen & Heq & ->).
    destruct (decide (length events = 4)%nat) as [H4|H4].
    { rewrite H4, observe_after_four in Hobs. done. }
    apply observe_transcript in Hobs as (tid' & Hpos' & Hsame & Hlook & ->); [|lia].
    exists tid'. replace (length events + length [event])%nat with (S (length events)) by (simpl; lia).
    split; [done|]. split; [lia|]. split; [|done].
    rewrite (take_S_r _ _ _ Hlook). f_equal.
    destruct (decide (length events = 0%nat)) as [H0|H0].
    + by rewrite H0 in *.
    + by rewrite Hsame.
Qed.

Lemma observe_own_prefix n tid :
  0 < tid → (n ≤ 4)%nat →
  observe_events (take n (fixed_transcript tid)) = Ok (recorder_after n tid).
Proof.
  intros Hpos. induction n as [|n IH]; intros Hn; [reflexivity|].
  destruct (lookup_lt_is_Some_2 (fixed_transcript tid) n) as [event He]; [simpl; lia|].
  rewrite (take_S_r _ _ _ He), observe_events_snoc, IH by lia. by apply observe_own_event.
Qed.

Lemma fingerprint_after_four : fingerprint_after 4 = PTRACE_TRANSPORT_PROTOCOL_FINGERPRINT_V1.
Proof. vm_compute. reflexivity. Qed.

(** The redacted summary a completed probe leaves. *)
Definition fixed_summary : Probe.FixedPtraceTransportProbeSummaryV1 :=
  Probe.Build_FixedPtraceTransportProbeSummaryV1 1 4 2 1 1 0xf4101836ef74bb4f.

Lemma complete_recorder_after n tid :
  Probe.complete (recorder_after n tid)
  = if (n =? 4)%nat then Ok fixed_summary else Err IncompleteSequence.
Proof.
  unfold Probe.complete. cbn [recorder_after accepted_event_count protocol_fingerprint].
  destruct (Nat.eqb_spec n 4) as [->|Hn].
  - rewrite fingerprint_after_four. reflexivity.
  - destruct (Z.eqb_spec (Z.of_nat n) PTRACE_TRANSPORT_EXACT_EVENT_COUNT_V1) as [E|]; [|done].
    unfold PTRACE_TRANSPORT_EXACT_EVENT_COUNT_V1 in E. lia.
Qed.

(** The errors of [complete] are never those of an observation. *)
Lemma observe_error self event :
  Probe.observe self event ≠ Err ProtocolFingerprintMismatch
  ∧ Probe.observe self event ≠ Err IncompleteSequence.
Proof.
  unfold Probe.observe, Probe.observe_seccomp_stop_v1, Probe.observe_ptrace_exit_event_v1,
    Probe.observe_terminal_reap_v1.
  destruct event; repeat (case_match; try done).
Qed.

Lemma observe_events_error events :
  observe_events events ≠ Err ProtocolFingerprintMismatch
  ∧ observe_events events ≠ Err IncompleteSequence.
Proof.
  induction events as [|event events IH] using rev_ind; [done|].
  rewrite observe_events_snoc. destruct (observe_events events) as [self|e].
  - apply observe_error.
  - destruct IH. split; intros [= ->]; done.
Qed.

(** The checker, fed any sequence of events, completes exactly on the
    closed transcript of one task with a positive id (two seccomp stops for
    [getpid] and [getppid] with zero arguments and their cookies, an exit
    event with status zero and the reap of a task that exited with zero), and
    then always with the same summary, whose fingerprint is the committed
    constant. *)
Theorem check_transcript_exact events summary :
  check_transcript events = Ok summary ↔
  (∃ tid, 0 < tid ∧ events = fixed_transcript tid) ∧ summary = fixed_summary.
Proof.
  unfold check_transcript. split.
  - intros (self & Hobs & Hc)%result_bind_Ok.
    apply observe_events_prefix in Hobs as (tid & Hpos & Hlen & Heq & ->).
    rewrite complete_recorder_after in Hc. case_match eqn:H4; [|done]. bool_to_prop.
    injection Hc as <-. split; [|done]. exists tid. by rewrite Heq, H4.
  - intros [(tid & Hpos & ->) ->].
    change (fixed_transcript tid) with (take 4 (fixed_transcript tid)).
    rewrite observe_own_prefix by (done || lia). apply complete_recorder_after.
Qed.

(** The fingerprint check is a tripwire that cannot fire: whatever the
    events, the checker never reports a mismatch, because a recorder that
    accepted four events has the committed fingerprint; and exactly the proper
    prefixes of a transcript are reported as incomplete. *)
Theorem fingerprint_never_mismatches events :
  check_transcript events ≠ Err ProtocolFingerprintMismatch
  ∧ (check_transcript events = Err IncompleteSequence ↔
     ∃ tid n, 0 < tid ∧ (n < 4)%nat ∧ events = take n (fixed_transcript tid)).
Proof.
  unfold check_transcript. destruct (observe_events events) as [self|e] eqn:Hobs; simpl.
  - pose proof (observe_events_prefix _ _ Hobs) as (tid & Hpos & Hlen & Heq & ->).
    rewrite complete_recorder_after. split; [by case_match|].
    destruct (Nat.eqb_spec (length events) 4) as [H4|H4].
    + split; [done|]. intros (tid' & n & _ & Hn & ->). rewrite length_take in H4. simpl in H4. lia.
    + split; [|done]. intros _. exists tid, (length events). split; [done|]. split; [lia|done].
  - destruct (observe_events_error events) as [Hfp Hinc]. rewrite Hobs in Hfp, Hinc.
    split; [by intros [= ->]|]. split; [by intros [= ->]|].
    intros (tid & n & Hpos & Hn & ->). rewrite observe_own_prefix in Hobs by (done || lia). done.
Qed.
