(* ===== verification/ExecuteOnlySeccomp.v ===== *)
(** * The execute-only workload filter

    [src/src/linux_pytest/execute_only_seccomp.rs]: the frozen seccomp program
    of the first execute-only workload, built from a table of system calls, its
    verifier, and the consistency check of an installation transcript. The
    keyed BLAKE3 digest is a parameter. *)

From stdpp Require Import strings.
From S2P Require Import Prelude Monad Bytes TracerSeccomp TraceProtocol.

Open Scope Z_scope.

Module Workload.

Definition SECCOMP_DATA_NR_OFFSET_V1 : Z := 0.
Definition SECCOMP_DATA_ARCH_OFFSET_V1 : Z := 4.
Definition BPF_LD_W_ABS_V1 : Z := 0x20.
Definition BPF_JMP_JEQ_K_V1 : Z := 0x15.
Definition BPF_JMP_JSET_K_V1 : Z := 0x45.
Definition BPF_RET_K_V1 : Z := 0x06.
Definition AUDIT_ARCH_X86_64_V1 : Z := 0xc000003e.
Definition X32_SYSCALL_BIT_V1 : Z := 0x40000000.
Definition SECCOMP_RET_KILL_PROCESS_V1 : Z := 0x80000000.
Definition SECCOMP_RET_TRACE_V1 : Z := 0x7ff00000.
Definition SECCOMP_RET_ACTION_FULL_V1 : Z := 0xffff0000.
Definition SECCOMP_RET_DATA_V1 : Z := 0x0000ffff.
Definition WORKLOAD_TRACE_COOKIE_V1 : Z := 0xb503.
Definition WORKLOAD_TRACE_RESULT_V1 : Z := Z.lor SECCOMP_RET_TRACE_V1 WORKLOAD_TRACE_COOKIE_V1.
Definition WORKLOAD_POLICY_DIGEST_DOMAIN_V1 : string :=
  "again linux pytest provisional workload seccomp program v1".

Definition RESERVED_SECCOMP_TRACE_COOKIES_V1 : list Z :=
  [WORKLOAD_TRACE_COOKIE_V1; trace_all_native_seccomp_cookie_spec_v1;
   PTRACE_TRANSPORT_GETPID_COOKIE_V1; PTRACE_TRANSPORT_GETPPID_COOKIE_V1].

(** The outer loop consumes the list, the inner one scans its rest. *)
Fixpoint trace_cookies_are_nonzero_and_unique_v1 (cookies : list Z) : bool :=
  match cookies with
  | [] => true
  | cookie :: rest =>
      if cookie =? 0 then false
      else if any (λ other, cookie =? other) rest then false
      else trace_cookies_are_nonzero_and_unique_v1 rest
  end.

Definition NR_RT_SIGRETURN_X86_64_V1 : Z := 15.
Definition NR_EXIT_X86_64_V1 : Z := 60.
Definition NR_EXIT_GROUP_X86_64_V1 : Z := 231.
Definition CONTROL_TRACE_SYSCALLS_V1 : list Z :=
  [NR_RT_SIGRETURN_X86_64_V1; NR_EXIT_X86_64_V1; NR_EXIT_GROUP_X86_64_V1].

Record TraceSyscallV1 := trace_syscall { number : Z; name : string }.

Definition TRACE_SYSCALLS_V1 : list TraceSyscallV1 :=
  [trace_syscall 0 "read"; trace_syscall 1 "write"; trace_syscall 2 "open";
   trace_syscall 3 "close"; trace_syscall 4 "stat"; trace_syscall 5 "fstat";
   trace_syscall 6 "lstat"; trace_syscall 7 "poll"; trace_syscall 8 "lseek";
   trace_syscall 9 "mmap"; trace_syscall 10 "mprotect"; trace_syscall 11 "munmap";
   trace_syscall 12 "brk"; trace_syscall 13 "rt_sigaction"; trace_syscall 14 "rt_sigprocmask";
   trace_syscall 16 "ioctl"; trace_syscall 17 "pread64"; trace_syscall 19 "readv";
   trace_syscall 20 "writev"; trace_syscall 21 "access"; trace_syscall 22 "pipe";
   trace_syscall 23 "select"; trace_syscall 24 "sched_yield"; trace_syscall 25 "mremap";
   trace_syscall 28 "madvise"; trace_syscall 32 "dup"; trace_syscall 33 "dup2";
   trace_syscall 35 "nanosleep"; trace_syscall 36 "getitimer"; trace_syscall 38 "setitimer";
   trace_syscall 39 "getpid"; trace_syscall 56 "clone"; trace_syscall 57 "fork";
   trace_syscall 58 "vfork"; trace_syscall 59 "execve"; trace_syscall 61 "wait4";
   trace_syscall 62 "kill"; trace_syscall 63 "uname"; trace_syscall 72 "fcntl";
   trace_syscall 73 "flock"; trace_syscall 74 "fsync"; trace_syscall 75 "fdatasync";
   trace_syscall 79 "getcwd"; trace_syscall 80 "chdir"; trace_syscall 81 "fchdir";
   trace_syscall 82 "rename"; trace_syscall 83 "mkdir"; trace_syscall 84 "rmdir";
   trace_syscall 87 "unlink"; trace_syscall 89 "readlink"; trace_syscall 90 "chmod";
   trace_syscall 91 "fchmod"; trace_syscall 95 "umask"; trace_syscall 96 "gettimeofday";
   trace_syscall 97 "getrlimit"; trace_syscall 98 "getrusage"; trace_syscall 99 "sysinfo";
   trace_syscall 100 "times"; trace_syscall 102 "getuid"; trace_syscall 104 "getgid";
   trace_syscall 107 "geteuid"; trace_syscall 108 "getegid"; trace_syscall 110 "getppid";
   trace_syscall 111 "getpgrp"; trace_syscall 115 "getgroups"; trace_syscall 131 "sigaltstack";
   trace_syscall 137 "statfs"; trace_syscall 138 "fstatfs"; trace_syscall 158 "arch_prctl";
   trace_syscall 186 "gettid"; trace_syscall 202 "futex"; trace_syscall 217 "getdents64";
   trace_syscall 218 "set_tid_address"; trace_syscall 228 "clock_gettime";
   trace_syscall 230 "clock_nanosleep"; trace_syscall 232 "epoll_wait";
   trace_syscall 233 "epoll_ctl"; trace_syscall 257 "openat"; trace_syscall 262 "newfstatat";
   trace_syscall 263 "unlinkat"; trace_syscall 264 "renameat"; trace_syscall 265 "linkat";
   trace_syscall 266 "symlinkat"; trace_syscall 267 "readlinkat"; trace_syscall 268 "fchmodat";
   trace_syscall 269 "faccessat"; trace_syscall 270 "pselect6"; trace_syscall 271 "ppoll";
   trace_syscall 273 "set_robust_list"; trace_syscall 280 "utimensat";
   trace_syscall 281 "epoll_pwait"; trace_syscall 291 "epoll_create1";
   trace_syscall 292 "dup3"; trace_syscall 293 "pipe2"; trace_syscall 302 "prlimit64";
   trace_syscall 316 "renameat2"; trace_syscall 318 "getrandom"; trace_syscall 322 "execveat";
   trace_syscall 332 "statx"; trace_syscall 334 "rseq"; trace_syscall 435 "clone3";
   trace_syscall 436 "close_range"; trace_syscall 437 "openat2";
   trace_syscall 439 "faccessat2"; trace_syscall 441 "epoll_pwait2"].

Definition WORKLOAD_FILTER_PREFIX_INSTRUCTIONS_V1 : nat := 6.
Definition WORKLOAD_FILTER_SUFFIX_INSTRUCTIONS_V1 : nat := length CONTROL_TRACE_SYSCALLS_V1 * 2 + 1.
Definition WORKLOAD_FILTER_INSTRUCTION_COUNT_V1 : nat :=
  WORKLOAD_FILTER_PREFIX_INSTRUCTIONS_V1 + length TRACE_SYSCALLS_V1 * 2
  + WORKLOAD_FILTER_SUFFIX_INSTRUCTIONS_V1.
Definition WORKLOAD_FILTER_CANONICAL_BYTE_COUNT_V1 : nat :=
  WORKLOAD_FILTER_INSTRUCTION_COUNT_V1 * 8.
Definition WORKLOAD_FILTER_FNV1A64_V1 : Z := 0xa45e17a150031340.
Definition WORKLOAD_FILTER_MAX_INSTRUCTIONS_V1 : nat := 256.

Record WorkloadSockFilterV1 := {
  code : Z;
  jump_true : Z;
  jump_false : Z;
  operand : Z;
}.

#[export] Instance WorkloadSockFilterV1_eq_dec : EqDecision WorkloadSockFilterV1.
Proof. solve_decision. Defined.

Definition ZERO_FILTER_V1 : WorkloadSockFilterV1 :=
  {| code := 0; jump_true := 0; jump_false := 0; operand := 0 |}.

Definition stmt_v1 (c k : Z) : WorkloadSockFilterV1 :=
  {| code := c; jump_true := 0; jump_false := 0; operand := k |}.

Definition jump_v1 (c k jt jf : Z) : WorkloadSockFilterV1 :=
  {| code := c; jump_true := jt; jump_false := jf; operand := k |}.

(** One turn of either table loop: the comparison and its return are written at
    [output_index], which advances by two. *)
Definition emit_case (st : list WorkloadSockFilterV1 * nat) (nr : Z) :
    list WorkloadSockFilterV1 * nat :=
  let '(output, output_index) := st in
  let output := <[output_index := jump_v1 BPF_JMP_JEQ_K_V1 nr 0 1]> output in
  let output := <[(output_index + 1)%nat := stmt_v1 BPF_RET_K_V1 WORKLOAD_TRACE_RESULT_V1]> output in
  (output, (output_index + 2)%nat).

Definition build_workload_filter_v1 : list WorkloadSockFilterV1 :=
  let output := replicate WORKLOAD_FILTER_INSTRUCTION_COUNT_V1 ZERO_FILTER_V1 in
  let output := <[0%nat := stmt_v1 BPF_LD_W_ABS_V1 SECCOMP_DATA_ARCH_OFFSET_V1]> output in
  let output := <[1%nat := jump_v1 BPF_JMP_JEQ_K_V1 AUDIT_ARCH_X86_64_V1 1 0]> output in
  let output := <[2%nat := stmt_v1 BPF_RET_K_V1 SECCOMP_RET_KILL_PROCESS_V1]> output in
  let output := <[3%nat := stmt_v1 BPF_LD_W_ABS_V1 SECCOMP_DATA_NR_OFFSET_V1]> output in
  let output := <[4%nat := jump_v1 BPF_JMP_JSET_K_V1 X32_SYSCALL_BIT_V1 0 1]> output in
  let output := <[5%nat := stmt_v1 BPF_RET_K_V1 SECCOMP_RET_KILL_PROCESS_V1]> output in
  let st := (output, WORKLOAD_FILTER_PREFIX_INSTRUCTIONS_V1) in
  let st := foldl emit_case st (number <$> TRACE_SYSCALLS_V1) in
  let '(output, output_index) := foldl emit_case st CONTROL_TRACE_SYSCALLS_V1 in
  <[output_index := stmt_v1 BPF_RET_K_V1 SECCOMP_RET_KILL_PROCESS_V1]> output.

Definition WORKLOAD_FILTER_V1 : list WorkloadSockFilterV1 := build_workload_filter_v1.

(** One pass of the byte loop: two bytes of the code, the jumps, four of the
    operand. *)
Definition instruction_bytes (i : WorkloadSockFilterV1) : list Z :=
  le_bytes 2 (code i) ++ [jump_true i; jump_false i] ++ le_bytes 4 (operand i).

Definition canonical_filter_bytes_v1 (program : list WorkloadSockFilterV1) : list Z :=
  program ≫= instruction_bytes.

Definition WORKLOAD_FILTER_CANONICAL_BYTES_V1 : list Z :=
  canonical_filter_bytes_v1 WORKLOAD_FILTER_V1.

(** ** The verifier *)

Inductive FilterVerificationRefusalV1 :=
| InstructionCount | InvalidOpcode | InvalidLoad | InvalidJump | InvalidReturn
| UnreachableInstruction | Fingerprint | ProgramMismatch.

Abbreviation filter_result := (result FilterVerificationRefusalV1).

(** One turn of [for jump in [jump_true, jump_false]]. *)
Definition mark_jump (len index : nat) (reachable : list bool) (jump : Z) :
    filter_result (list bool) :=
  match usize_checked_add index (1 + Z.to_nat jump) with
  | Some target =>
      if (index <? target)%nat && (target <? len)%nat then Ok (<[target := true]> reachable)
      else Err InvalidJump
  | None => Err InvalidJump
  end.

(** The body of the scan for a reachable instruction. *)
Definition check_instruction (len index : nat) (instruction : WorkloadSockFilterV1)
    (reachable : list bool) : filter_result (list bool) :=
  if code instruction =? BPF_LD_W_ABS_V1 then
    if negb (jump_true instruction =? 0) || negb (jump_false instruction =? 0)
       || negb ((operand instruction =? SECCOMP_DATA_NR_OFFSET_V1)
                || (operand instruction =? SECCOMP_DATA_ARCH_OFFSET_V1))
    then Err InvalidLoad
    else if (len <=? index + 1)%nat then Err InvalidJump
    else Ok (<[(index + 1)%nat := true]> reachable)
  else if (code instruction =? BPF_JMP_JEQ_K_V1) || (code instruction =? BPF_JMP_JSET_K_V1) then
    reachable ← mark_jump len index reachable (jump_true instruction);
    mark_jump len index reachable (jump_false instruction)
  else if code instruction =? BPF_RET_K_V1 then
    if negb (jump_true instruction =? 0) || negb (jump_false instruction =? 0)
       || negb ((operand instruction =? SECCOMP_RET_KILL_PROCESS_V1)
                || (operand instruction =? WORKLOAD_TRACE_RESULT_V1))
    then Err InvalidReturn
    else Ok reachable
  else Err InvalidOpcode.

(** The [while index < program.len()] loop; the flags array has 256 entries, so
    [reachable[index]] is in range for an admitted length. *)
Fixpoint scan_instructions (len : nat) (program : list WorkloadSockFilterV1) (index : nat)
    (reachable : list bool) : filter_result (list bool) :=
  match program with
  | [] => Ok reachable
  | instruction :: rest =>
      reachable ← (if default false (reachable !! index)
                   then check_instruction len index instruction reachable
                   else Ok reachable);
      scan_instructions len rest (S index) reachable
  end.

Definition verify_filter_v1 (program : list WorkloadSockFilterV1) : filter_result () :=
  if negb (length program =? WORKLOAD_FILTER_INSTRUCTION_COUNT_V1)%nat
     || (WORKLOAD_FILTER_MAX_INSTRUCTIONS_V1 <? length program)%nat
  then Err InstructionCount
  else
    reachable ← scan_instructions (length program) program 0
                  (<[0%nat := true]> (replicate WORKLOAD_FILTER_MAX_INSTRUCTIONS_V1 false));
    if any negb (take (length program) reachable) then Err UnreachableInstruction
    else if negb (fnv1a64_v1 (canonical_filter_bytes_v1 program) =? WORKLOAD_FILTER_FNV1A64_V1)
    then Err Fingerprint
    else if negb (bool_decide (program = WORKLOAD_FILTER_V1)) then Err ProgramMismatch
    else Ok ().

(** ** The installation transcript *)

Inductive WorkloadSeccompOperationV1 :=
| VerifySingleTask | ReadNoNewPrivileges | ReadInitialSeccompMode | InstallTsyncFilter
| PtraceReadbackCount | PtraceReadbackInstructions.

#[export] Instance WorkloadSeccompOperationV1_eq_dec : EqDecision WorkloadSeccompOperationV1.
Proof. solve_decision. Defined.

Definition WORKLOAD_SECCOMP_OPERATIONS_V1 : list WorkloadSeccompOperationV1 :=
  [VerifySingleTask; ReadNoNewPrivileges; ReadInitialSeccompMode; InstallTsyncFilter;
   PtraceReadbackCount; PtraceReadbackInstructions].

Definition SECCOMP_MODE_DISABLED_V1 : Z := 0.

Inductive InstalledWitnessRefusalV1 :=
| OperationSequence | TaskCount | NoNewPrivileges | InitialSeccompMode | InstallResult
| ReadbackCount | ClaimedPolicyDigest | Filter (refusal : FilterVerificationRefusalV1).

Record InstalledFilterEvidenceV1 := {
  completed_operations : list WorkloadSeccompOperationV1;
  task_count : Z;
  no_new_privileges : Z;
  initial_seccomp_mode : Z;
  install_result : Z;
  readback_count : nat;
  claimed_policy_digest : list Z;
  readback : list WorkloadSockFilterV1;
}.

Section Transcript.
(** [blake3::Hasher::new_derive_key(context)], fed a byte string and finalized. *)
Context (blake3_derive_key : string → list Z → list Z).

Definition workload_policy_digest_for_bytes_v1 (bytes : list Z) : list Z :=
  blake3_derive_key WORKLOAD_POLICY_DIGEST_DOMAIN_V1
    (le_bytes 8 (Z.of_nat (length bytes)) ++ bytes).

Definition workload_policy_digest_blake3_v1 : list Z :=
  workload_policy_digest_for_bytes_v1 WORKLOAD_FILTER_CANONICAL_BYTES_V1.

Definition verify_installed_transcript_v1 (evidence : InstalledFilterEvidenceV1) :
    result InstalledWitnessRefusalV1 () :=
  if negb (bool_decide (completed_operations evidence = WORKLOAD_SECCOMP_OPERATIONS_V1)) then
    Err OperationSequence
  else if negb (task_count evidence =? 1) then Err TaskCount
  else if negb (no_new_privileges evidence =? 1) then Err NoNewPrivileges
  else if negb (initial_seccomp_mode evidence =? SECCOMP_MODE_DISABLED_V1) then
    Err InitialSeccompMode
  else if negb (install_result evidence =? 0) then Err InstallResult
  else if negb (readback_count evidence =? WORKLOAD_FILTER_INSTRUCTION_COUNT_V1)%nat
          || negb (length (readback evidence) =? readback_count evidence)%nat then
    Err ReadbackCount
  else if negb (bool_decide (claimed_policy_digest evidence = workload_policy_digest_blake3_v1))
  then Err ClaimedPolicyDigest
  else match verify_filter_v1 (readback evidence) with
       | Err refusal => Err (Filter refusal)
       | Ok _ => Ok ()
       end.

(** The evidence the unit tests build for a program. *)
Definition valid_evidence_v1 (program : list WorkloadSockFilterV1) : InstalledFilterEvidenceV1 :=
  {| completed_operations := WORKLOAD_SECCOMP_OPERATIONS_V1; task_count := 1;
     no_new_privileges := 1; initial_seccomp_mode := SECCOMP_MODE_DISABLED_V1;
     install_result := 0; readback_count := WORKLOAD_FILTER_INSTRUCTION_COUNT_V1;
     claimed_policy_digest := workload_policy_digest_blake3_v1; readback := program |}.
End Transcript.

(** ** The reference evaluator and classification of the unit tests *)

Fixpoint evaluate_program (steps : nat) (program : list WorkloadSockFilterV1)
    (architecture syscall_number accumulator : Z) (program_counter : nat) : option Z :=
  match steps with
  | O => None
  | S steps =>
      instruction ← program !! program_counter;
      if code instruction =? BPF_LD_W_ABS_V1 then
        if operand instruction =? SECCOMP_DATA_ARCH_OFFSET_V1 then
          evaluate_program steps program architecture syscall_number
            architecture (program_counter + 1)
        else if operand instruction =? SECCOMP_DATA_NR_OFFSET_V1 then
          evaluate_program steps program architecture syscall_number
            syscall_number (program_counter + 1)
        else None
      else if code instruction =? BPF_JMP_JEQ_K_V1 then
        let jump := if accumulator =? operand instruction
                    then jump_true instruction else jump_false instruction in
        evaluate_program steps program architecture syscall_number accumulator
          (program_counter + (1 + Z.to_nat jump))
      else if code instruction =? BPF_JMP_JSET_K_V1 then
        let jump := if negb (Z.land accumulator (operand instruction) =? 0)
                    then jump_true instruction else jump_false instruction in
        evaluate_program steps program architecture syscall_number accumulator
          (program_counter + (1 + Z.to_nat jump))
      else if code instruction =? BPF_RET_K_V1 then Some (operand instruction)
      else None
  end.

Definition evaluate_filter_v1 (architecture syscall_number : Z) : option Z :=
  evaluate_program (S WORKLOAD_FILTER_INSTRUCTION_COUNT_V1) WORKLOAD_FILTER_V1
    architecture syscall_number 0 0.

Definition reference_classification_v1 (architecture syscall_number : Z) : Z :=
  if negb (architecture =? AUDIT_ARCH_X86_64_V1)
     || negb (Z.land syscall_number X32_SYSCALL_BIT_V1 =? 0)
  then SECCOMP_RET_KILL_PROCESS_V1
  else if any (λ entry, number entry =? syscall_number) TRACE_SYSCALLS_V1
  then WORKLOAD_TRACE_RESULT_V1
  else if any (λ nr, nr =? syscall_number) CONTROL_TRACE_SYSCALLS_V1
  then WORKLOAD_TRACE_RESULT_V1
  else SECCOMP_RET_KILL_PROCESS_V1.

(** ** The program decides every call *)

Definition case_of (nr : Z) : list WorkloadSockFilterV1 :=
  [jump_v1 BPF_JMP_JEQ_K_V1 nr 0 1; stmt_v1 BPF_RET_K_V1 WORKLOAD_TRACE_RESULT_V1].

Definition filter_prefix : list WorkloadSockFilterV1 :=
  [stmt_v1 BPF_LD_W_ABS_V1 SECCOMP_DATA_ARCH_OFFSET_V1;
   jump_v1 BPF_JMP_JEQ_K_V1 AUDIT_ARCH_X86_64_V1 1 0;
   stmt_v1 BPF_RET_K_V1 SECCOMP_RET_KILL_PROCESS_V1;
   stmt_v1 BPF_LD_W_ABS_V1 SECCOMP_DATA_NR_OFFSET_V1;
   jump_v1 BPF_JMP_JSET_K_V1 X32_SYSCALL_BIT_V1 0 1;
   stmt_v1 BPF_RET_K_V1 SECCOMP_RET_KILL_PROCESS_V1].

Definition traced_numbers : list Z := (number <$> TRACE_SYSCALLS_V1) ++ CONTROL_TRACE_SYSCALLS_V1.

(** The array the builder writes by index, as a list. *)
Lemma workload_filter_layout :
  WORKLOAD_FILTER_V1
  = filter_prefix ++ (traced_numbers ≫= case_of)
    ++ [stmt_v1 BPF_RET_K_V1 SECCOMP_RET_KILL_PROCESS_V1].
Proof. vm_compute. reflexivity. Qed.

Section Steps.
Context {program : list WorkloadSockFilterV1} {architecture nr accumulator : Z}.
Context {steps pc : nat}.

Lemma evaluate_load k :
  program !! pc = Some (stmt_v1 BPF_LD_W_ABS_V1 k) →
  k = SECCOMP_DATA_ARCH_OFFSET_V1 ∨ k = SECCOMP_DATA_NR_OFFSET_V1 →
  evaluate_program (S steps) program architecture nr accumulator pc
  = evaluate_program steps program architecture nr
      (if k =? SECCOMP_DATA_ARCH_OFFSET_V1 then architecture else nr) (pc + 1).
Proof. intros Hpc [-> | ->]; cbn [evaluate_program]; by rewrite Hpc. Qed.

Lemma evaluate_jeq k jt jf :
  program !! pc = Some (jump_v1 BPF_JMP_JEQ_K_V1 k jt jf) →
  evaluate_program (S steps) program architecture nr accumulator pc
  = evaluate_program steps program architecture nr accumulator
      (pc + (1 + Z.to_nat (if accumulator =? k then jt else jf))).
Proof. intros Hpc. cbn [evaluate_program]. by rewrite Hpc. Qed.

Lemma evaluate_jset k jt jf :
  program !! pc = Some (jump_v1 BPF_JMP_JSET_K_V1 k jt jf) →
  evaluate_program (S steps) program architecture nr accumulator pc
  = evaluate_program steps program architecture nr accumulator
      (pc + (1 + Z.to_nat (if negb (Z.land accumulator k =? 0) then jt else jf))).
Proof. intros Hpc. cbn [evaluate_program]. by rewrite Hpc. Qed.

Lemma evaluate_ret k :
  program !! pc = Some (stmt_v1 BPF_RET_K_V1 k) →
  evaluate_program (S steps) program architecture nr accumulator pc = Some k.
Proof. intros Hpc. cbn [evaluate_program]. by rewrite Hpc. Qed.
End Steps.

(** A chain of comparisons, entered at any place of a program. *)
Lemma evaluate_chain program architecture nr accumulator ns :
  ∀ steps i, (length ns + 2 ≤ steps)%nat →
  drop i program = (ns ≫= case_of) ++ [stmt_v1 BPF_RET_K_V1 SECCOMP_RET_KILL_PROCESS_V1] →
  evaluate_program steps program architecture nr accumulator i
  = Some (if any (λ n, n =? accumulator) ns then WORKLOAD_TRACE_RESULT_V1
          else SECCOMP_RET_KILL_PROCESS_V1).
Proof.
  induction ns as [|n ns IH]; intros [|steps] i Hsteps Hdrop; simpl in Hsteps; try lia.
  - apply evaluate_ret. rewrite <- (Nat.add_0_r i), <- lookup_drop, Hdrop. done.
  - assert (program !! i = Some (jump_v1 BPF_JMP_JEQ_K_V1 n 0 1)
      ∧ program !! (i + 1)%nat = Some (stmt_v1 BPF_RET_K_V1 WORKLOAD_TRACE_RESULT_V1)) as [Hi Hi1].
    { rewrite <- (Nat.add_0_r i) at 1. by rewrite <- !lookup_drop, Hdrop. }
    rewrite (evaluate_jeq _ _ _ Hi), (Z.eqb_sym accumulator n). simpl.
    destruct (n =? accumulator); simpl.
    + destruct steps as [|steps]; [lia|]. by apply evaluate_ret.
    + apply IH; [lia|]. change (i + (1 + Z.to_nat 1))%nat with (i + 2)%nat.
      rewrite <- drop_drop, Hdrop. done.
Qed.

(** The six instructions before the chain. *)
Lemma evaluate_prefix steps rest architecture nr :
  evaluate_program (5 + steps) (filter_prefix ++ rest) architecture nr 0 0
  = if negb (architecture =? AUDIT_ARCH_X86_64_V1) || negb (Z.land nr X32_SYSCALL_BIT_V1 =? 0)
    then Some SECCOMP_RET_KILL_PROCESS_V1
    else evaluate_program (1 + steps) (filter_prefix ++ rest) architecture nr nr 6.
Proof.
  change (5 + steps)%nat with (S (4 + steps)).
  rewrite (evaluate_load SECCOMP_DATA_ARCH_OFFSET_V1); [|reflexivity|by left].
  change (4 + steps)%nat with (S (3 + steps)).
  rewrite (evaluate_jeq AUDIT_ARCH_X86_64_V1 1 0); [|reflexivity].
  change (3 + steps)%nat with (S (2 + steps)).
  change (if SECCOMP_DATA_ARCH_OFFSET_V1 =? SECCOMP_DATA_ARCH_OFFSET_V1 then architecture else nr)
    with architecture.
  destruct (architecture =? AUDIT_ARCH_X86_64_V1); [|by apply evaluate_ret].
  rewrite (evaluate_load SECCOMP_DATA_NR_OFFSET_V1); [|reflexivity|by right].
  change (2 + steps)%nat with (S (1 + steps)).
  rewrite (evaluate_jset X32_SYSCALL_BIT_V1 0 1); [|reflexivity].
  change (if SECCOMP_DATA_NR_OFFSET_V1 =? SECCOMP_DATA_ARCH_OFFSET_V1 then architecture else nr)
    with nr.
  destruct (Z.land nr X32_SYSCALL_BIT_V1 =? 0); [reflexivity|]. by apply evaluate_ret.
Qed.

Lemma any_app {A} (p : A → bool) l k : any p (l ++ k) = any p l || any p k.
Proof. apply existsb_app. Qed.

(** The workload filter decides every system call as its reference
    classification says, on every architecture word and every syscall number
    and within the step bound: native x86_64 calls of the two tables are traced
    with the workload cookie, every other call kills the process, and none is
    allowed silently. *)
Theorem workload_filter_exact architecture syscall_number :
  evaluate_filter_v1 architecture syscall_number
  = Some (reference_classification_v1 architecture syscall_number).
Proof.
  unfold evaluate_filter_v1, reference_classification_v1. rewrite workload_filter_layout.
  change (S WORKLOAD_FILTER_INSTRUCTION_COUNT_V1) with (5 + 219)%nat. rewrite evaluate_prefix.
  case_match; [done|].
  rewrite (evaluate_chain _ _ _ _ traced_numbers); [|vm_compute; lia|reflexivity].
  unfold traced_numbers. rewrite any_app, any_fmap. by destruct (any _ _), (any _ _).
Qed.

(** ** The verifier *)

(** What the scan establishes of a reachable instruction. *)
Definition instruction_safe (len index : nat) (instruction : WorkloadSockFilterV1) : Prop :=
  let target jump := (index + (1 + Z.to_nat jump))%nat in
  (code instruction = BPF_LD_W_ABS_V1
   ∧ (operand instruction = SECCOMP_DATA_NR_OFFSET_V1
      ∨ operand instruction = SECCOMP_DATA_ARCH_OFFSET_V1)
   ∧ (index + 1 < len)%nat)
  ∨ ((code instruction = BPF_JMP_JEQ_K_V1 ∨ code instruction = BPF_JMP_JSET_K_V1)
     ∧ (target (jump_true instruction) < len)%nat ∧ (target (jump_false instruction) < len)%nat)
  ∨ (code instruction = BPF_RET_K_V1
     ∧ (operand instruction = SECCOMP_RET_KILL_PROCESS_V1
        ∨ operand instruction = WORKLOAD_TRACE_RESULT_V1)).

(** Only flags of later instructions are raised. *)
Definition raises_above (index : nat) (r r' : list bool) : Prop :=
  length r' = length r ∧ ∀ j, (j ≤ index)%nat → r' !! j = r !! j.

Lemma raises_above_insert index r target b :
  (index < target)%nat → raises_above index r (<[target := b]> r).
Proof.
  intros Hlt. split; [apply length_insert|]. intros j Hj. apply list_lookup_insert_ne. lia.
Qed.

Lemma mark_jump_Ok len index r jump r' :
  mark_jump len index r jump = Ok r' →
  (index + (1 + Z.to_nat jump) < len)%nat ∧ raises_above index r r'.
Proof.
  unfold mark_jump. destruct (usize_checked_add _ _) as [target|] eqn:Ht; [|done].
  apply usize_checked_add_Some in Ht as ->. case_match; [|done]. intros [= <-]. bool_to_prop.
  split; [done|]. by apply raises_above_insert.
Qed.

Lemma check_instruction_Ok len index instruction r r' :
  check_instruction len index instruction r = Ok r' →
  instruction_safe len index instruction ∧ raises_above index r r'.
Proof.
  unfold check_instruction, instruction_safe.
  destruct (code instruction =? BPF_LD_W_ABS_V1) eqn:Hld.
  { case_match eqn:Hf; [done|]. case_match; [done|]. intros [= <-]. bool_to_prop.
    split; [|apply raises_above_insert; lia]. left. split; [done|]. split; [|lia].
    match goal with H : _ ∨ _ |- _ => destruct H end; bool_to_prop; auto. }
  destruct (_ || _) eqn:Hjmp.
  { intros (r1 & [Ht Hr1]%mark_jump_Ok & [Hf Hr2]%mark_jump_Ok)%result_bind_Ok.
    apply orb_true_iff in Hjmp.
    split; [right; left; destruct Hjmp; bool_to_prop; auto|].
    destruct Hr1 as [Hl1 Hu1], Hr2 as [Hl2 Hu2]. split; [congruence|].
    intros j Hj. by rewrite Hu2, Hu1. }
  case_match eqn:Hret; [|done]. case_match eqn:Hf; [done|]. intros [= <-]. bool_to_prop.
  split; [|done]. right; right. split; [done|].
  match goal with H : _ ∨ _ |- _ => destruct H end; bool_to_prop; auto.
Qed.

Lemma scan_instructions_Ok len program index r r' :
  scan_instructions len program index r = Ok r' →
  raises_above index r r'
  ∧ ∀ k instruction, program !! k = Some instruction → r' !! (index + k)%nat = Some true →
      instruction_safe len (index + k) instruction.
Proof.
  revert index r; induction program as [|instruction program IH]; intros index r; simpl.
  { intros [= <-]. done. }
  intros (r1 & Hone & Hrest)%result_bind_Ok. destruct (IH _ _ Hrest) as [[Hl Hu] Hsafe].
  assert (raises_above index r r1
    ∧ (r1 !! index = Some true → instruction_safe len index instruction)) as [[Hl1 Hu1] Hone'].
  { destruct (default false (r !! index)) eqn:Hflag.
    - apply check_instruction_Ok in Hone as [??]. done.
    - injection Hone as <-. split; [done|]. intros E. by rewrite E in Hflag. }
  split.
  - split; [congruence|]. intros j Hj. by rewrite Hu, Hu1 by lia.
  - intros [|k] u Hk Hr; simplify_eq/=.
    + rewrite Nat.add_0_r in *. apply Hone'. by rewrite <- Hr, Hu by lia.
    + replace (index + S k)%nat with (S index + k)%nat in * by lia. by apply Hsafe.
Qed.

(** Safe instructions only jump forward and stay inside, so evaluation ends. *)
Lemma evaluate_safe program architecture nr :
  (∀ k instruction, program !! k = Some instruction →
     instruction_safe (length program) k instruction) →
  ∀ steps accumulator i, (i < length program)%nat → (length program - i ≤ steps)%nat →
  ∃ v, evaluate_program steps program architecture nr accumulator i = Some v
       ∧ (v = SECCOMP_RET_KILL_PROCESS_V1 ∨ v = WORKLOAD_TRACE_RESULT_V1).
Proof.
  intros Hsafe. induction steps as [|steps IH]; intros accumulator i Hi Hsteps; [lia|].
  destruct (lookup_lt_is_Some_2 program i Hi) as [instruction Hinstr].
  cbn [evaluate_program]. rewrite Hinstr. cbn [mbind option_bind].
  destruct (Hsafe _ _ Hinstr) as [(-> & Hop & Hlt)|[([-> | ->] & Ht & Hf)|(-> & Hop)]]; simpl.
  - destruct Hop as [-> | ->]; apply IH; lia.
  - case_match; apply IH; lia.
  - case_match; apply IH; lia.
  - eauto.
Qed.

Lemma mark_jump_Err len index r jump e : mark_jump len index r jump = Err e → e = InvalidJump.
Proof. unfold mark_jump. repeat case_match; naive_solver. Qed.

Lemma check_instruction_Err len index instruction r e :
  check_instruction len index instruction r = Err e → e ≠ Fingerprint ∧ e ≠ ProgramMismatch.
Proof.
  unfold check_instruction. destruct (code instruction =? BPF_LD_W_ABS_V1).
  { repeat case_match; by intros [= <-]. }
  destruct (_ || _); [|repeat case_match; by intros [= <-]].
  destruct (mark_jump _ _ r _) as [r1|e1] eqn:H1; simpl.
  - by intros ->%mark_jump_Err.
  - intros [= ->]. by apply mark_jump_Err in H1 as ->.
Qed.

Lemma scan_refusal len program index r e :
  e = Fingerprint ∨ e = ProgramMismatch → scan_instructions len program index r ≠ Err e.
Proof.
  intros He. revert index r. induction program as [|instruction program IH]; intros index r; [done|].
  simpl. destruct (if default false (r !! index) then _ else _) as [r1|e1] eqn:Hone; [apply IH|].
  intros [= ->]. destruct (default false (r !! index)); [|done].
  apply check_instruction_Err in Hone as [??]. naive_solver.
Qed.

Lemma verify_filter_scan program refusal_or :
  verify_filter_v1 program = refusal_or →
  refusal_or = Ok () ∨ refusal_or = Err Fingerprint ∨ refusal_or = Err ProgramMismatch →
  length program = WORKLOAD_FILTER_INSTRUCTION_COUNT_V1
  ∧ ∀ k instruction, program !! k = Some instruction →
      instruction_safe (length program) k instruction.
Proof.
  unfold verify_filter_v1. intros Hv Hpast.
  destruct (_ || _) eqn:Hlen; [naive_solver|]. bool_to_prop. split; [done|].
  destruct (scan_instructions _ _ _ _) as [r|e] eqn:Hscan; simpl in Hv.
  2: { exfalso. subst refusal_or. revert Hscan. apply scan_refusal. naive_solver. }
  destruct (any negb (take (length program) r)) eqn:Hall; [naive_solver|]. clear Hv.
  apply scan_instructions_Ok in Hscan as [[Hl _] Hsafe].
  intros k instruction Hk. apply (Hsafe k); [done|].
  pose proof (lookup_lt_Some _ _ _ Hk) as Hlt. rewrite length_insert, length_replicate in Hl.
  destruct (lookup_lt_is_Some_2 r k) as [b Hb]; [lia|].
  rewrite any_false in Hall. specialize (Hall k b). rewrite lookup_take_lt in Hall by done.
  simpl. rewrite Hb. f_equal. apply negb_false_iff. by apply Hall.
Qed.

(** The verifier's control-flow check is sound on its own: any program it
    does not refuse for its size, opcodes, loads, jumps, returns or dead code
    (so also one it later refuses for its fingerprint or contents) terminates
    on every input within its length, and only with the kill or the trace
    verdict; in particular no such program allows a call. *)
Theorem verify_filter_sound program architecture syscall_number :
  verify_filter_v1 program = Ok () ∨ verify_filter_v1 program = Err Fingerprint
  ∨ verify_filter_v1 program = Err ProgramMismatch →
  ∃ verdict,
    evaluate_program WORKLOAD_FILTER_INSTRUCTION_COUNT_V1 program architecture syscall_number 0 0
    = Some verdict
    ∧ (verdict = SECCOMP_RET_KILL_PROCESS_V1 ∨ verdict = WORKLOAD_TRACE_RESULT_V1).
Proof.
  intros Hpast. destruct (verify_filter_scan _ _ eq_refl Hpast) as [Hlen Hsafe].
  apply evaluate_safe; [done|rewrite Hlen; vm_compute; lia|lia].
Qed.

(** The frozen program whose first comparison names another call: safe, but not
    the frozen one. *)
Definition altered_filter : list WorkloadSockFilterV1 :=
  <[6%nat := jump_v1 BPF_JMP_JEQ_K_V1 1 0 1]> WORKLOAD_FILTER_V1.

Lemma verify_filter_sound_witness :
  ∃ verdict,
    evaluate_program WORKLOAD_FILTER_INSTRUCTION_COUNT_V1 altered_filter
      AUDIT_ARCH_X86_64_V1 0 0 0 = Some verdict
    ∧ (verdict = SECCOMP_RET_KILL_PROCESS_V1 ∨ verdict = WORKLOAD_TRACE_RESULT_V1).
Proof.
  apply (verify_filter_sound altered_filter AUDIT_ARCH_X86_64_V1 0).
  right; left. vm_compute. reflexivity.
Defined.

Lemma verify_filter_only program : verify_filter_v1 program = Ok () → program = WORKLOAD_FILTER_V1.
Proof.
  unfold verify_filter_v1. case_match; [done|]. intros (r & _ & Hv)%result_bind_Ok.
  repeat (case_match; [done|]). by bool_to_prop.
Qed.

Lemma verify_filter_accepts : verify_filter_v1 WORKLOAD_FILTER_V1 = Ok ().
Proof. vm_compute. reflexivity. Qed.

(** The verifier accepts exactly the frozen program: it refuses every other
    one, and none of its own checks refuses the frozen one. *)
Theorem verify_filter_exact program :
  verify_filter_v1 program = Ok () ↔ program = WORKLOAD_FILTER_V1.
Proof.
  split; [apply verify_filter_only|]. intros ->. apply verify_filter_accepts.
Qed.

(** A transcript is accepted exactly when it is the one transcript of the
    frozen plan: the six operations in order, one task, no new privileges,
    seccomp disabled before, a successful installation, the exact instruction
    count, the keyed digest of the frozen bytes, and the frozen program read
    back; whatever the digest function is. *)
Theorem installed_transcript_exact blake3_derive_key evidence :
  verify_installed_transcript_v1 blake3_derive_key evidence = Ok ()
  ↔ evidence = valid_evidence_v1 blake3_derive_key WORKLOAD_FILTER_V1.
Proof.
  unfold verify_installed_transcript_v1. split.
  - destruct evidence as [ops tasks nnp mode install count digest program]; simpl.
    repeat (case_match; [done|]). case_match eqn:Hv; [|done]. intros _. bool_to_prop. destruct a.
    assert (program = WORKLOAD_FILTER_V1) as -> by (by apply verify_filter_only).
    unfold valid_evidence_v1. congruence.
  - intros ->. cbn [valid_evidence_v1 completed_operations task_count no_new_privileges
      initial_seccomp_mode install_result readback_count claimed_policy_digest readback].
    rewrite !bool_decide_eq_true_2 by done. rewrite verify_filter_accepts.
    vm_compute. reflexivity.
Qed.

(** Trace cookies identify their protocol: the compile-time check holds
    exactly for lists of distinct nonzero cookies, and it holds for the cookies
    of the workload filter, the trace-all filter and the two diagnostic stops. *)
Theorem trace_cookies_distinct cookies :
  (trace_cookies_are_nonzero_and_unique_v1 cookies = true
   ↔ Forall (λ c, c ≠ 0) cookies ∧ NoDup cookies)
  ∧ trace_cookies_are_nonzero_and_unique_v1 RESERVED_SECCOMP_TRACE_COOKIES_V1 = true.
Proof.
  split; [|reflexivity]. induction cookies as [|c cookies IH]; simpl; [by split; [split; constructor|]|].
  rewrite list.Forall_cons, list.NoDup_cons.
  destruct (Z.eqb_spec c 0); [by split; [|naive_solver]|].
  destruct (any _ cookies) eqn:Hany.
  - split; [done|]. apply any_true in Hany as (i & x & Hi & ->%Z.eqb_eq).
    intros [_ [Hnot _]]. destruct Hnot. by eapply list_elem_of_lookup_2.
  - rewrite IH. rewrite any_false in Hany. split; [|naive_solver]. intros [Hnz Hnd].
    split_and!; try done. intros (i & Hi)%list_elem_of_lookup. specialize (Hany _ _ Hi).
    by rewrite Z.eqb_refl in Hany.
Qed.

End Workload.
