(* ===== verification/ContractTypes.v ===== *)
(** * Contract constants, errors and closed code spaces

    The constants of [src/src/linux_pytest.rs], the error type every canonical
    operation returns, the four closed reason-code enumerations (with the
    [as_str] and [from_u16] their macro generates) and the completeness
    dimensions with their bitmap. A [u16] discriminant is the [Z] that the cast
    [as u16] yields; a string constant is the list of its bytes. *)

From Stdlib Require Import String Ascii.
From S2P Require Import Prelude Monad Bytes.

(** The bytes of a string literal. *)
Definition bstr (s : string) : list Z :=
  (λ a, Z.of_nat (nat_of_ascii a)) <$> list_ascii_of_string s.
#[global] Arguments bstr s%_string.

(** [slice.len()] as a [usize]. *)
Definition len {A} (l : list A) : Z := Z.of_nat (length l).

Definition bytes_eqb (a b : list Z) : bool := bool_decide (a = b).

Definition LINUX_PYTEST_PROFILE_ID : list Z := bstr "linux-pytest-v1".
Definition EFFECT_IR_V2_SCHEMA : list Z := bstr "again.effect_ir.v2".
Definition EFFECT_IR_V2_REQUIRED_MASK : Z := 0x00000000ffffffff.
Definition EFFECT_IR_V2_COMPARISON_DOMAIN : list Z := bstr "again linux pytest effect comparison v1".
Definition EFFECT_IR_V2_COMPARISON_VIEW_DOMAIN : list Z := bstr "again linux pytest effect comparison view v1".
Definition EFFECT_IR_V2_COMPARISON_RULES_DOMAIN : list Z := bstr "again linux pytest effect comparison rules v1".
Definition EFFECT_IR_V2_WIRE_MAGIC : list Z := bstr "AGNCAN01".
Definition EFFECT_IR_V2_WIRE_VERSION : Z := 1.
Definition EFFECT_IR_V2_MAX_CANONICAL_BYTES : Z := 512 * 1024 * 1024.
Definition EFFECT_IR_V2_MAX_COLLECTION_ITEMS : Z := 10000000.
Definition LINUX_PYTEST_V1_MAX_TRACE_EVENTS : Z := 10000000.
Definition LINUX_PYTEST_V1_MAX_TRACE_BYTES : Z := 512 * 1024 * 1024.
Definition LINUX_PYTEST_V1_MAX_TASK_LIFETIMES : Z := 256.
Definition LINUX_PYTEST_V1_MAX_STREAM_BYTES : Z := 16 * 1024 * 1024.
Definition LINUX_PYTEST_V1_MAX_SELECTORS : Z := 4096.
Definition LINUX_PYTEST_SHAPE_V1_SCHEMA : list Z := bstr "again.linux-pytest.shape.v1".
Definition LINUX_PYTEST_V1_MAX_LOOKUP_CANDIDATES : Z := 64.
Definition HASH_FRAME_MAGIC : list Z := bstr "AGNHSH01".
Definition LEXICAL_SHAPE_DOMAIN : list Z := bstr "again linux pytest lexical shape v1".
Definition SHAPE_DOMAIN : list Z := bstr "again linux pytest shape v1".
Definition OBSERVATION_CLOSURE_DOMAIN : list Z := bstr "again linux pytest observation closure v1".
Definition REQUEST_DOMAIN : list Z := bstr "again linux pytest request v1".
Definition EXECUTABLE_CHAIN_DOMAIN : list Z := bstr "again linux pytest executable chain v1".
Definition PROFILE_DOMAIN : list Z := bstr "again linux pytest profile v1".
Definition WORKSPACE_IDENTITY_DOMAIN : list Z := bstr "again linux pytest workspace identity v1".
Definition CAS_OBJECT_DOMAIN : list Z := bstr "again linux pytest cas object v1".
Definition FILE_CONTENT_DOMAIN : list Z := bstr "again linux pytest file content v1".
Definition EFFECT_SHAPE_DOMAIN : list Z := bstr "again linux pytest effect shape v1".
Definition QUARANTINE_CLASS_DOMAIN : list Z := bstr "again linux pytest quarantine class v1".
Definition ENVIRONMENT_KEY_RELATIVE_PATH : list Z := bstr "keys/linux-pytest-environment-v1".
Definition ENVIRONMENT_DIGEST_DOMAIN : list Z := bstr "again linux pytest environment v1".
Definition ENVIRONMENT_NAMES_DIGEST_DOMAIN : list Z := bstr "again linux pytest environment names v1".
Definition ENVIRONMENT_KEY_ID_DOMAIN : list Z := bstr "again linux pytest environment key id v1".
Definition HARDLINK_GROUP_DOMAIN : list Z := bstr "again linux pytest hardlink group v1".
Definition REGULAR_NODE_DOMAIN : list Z := bstr "again linux pytest regular node v1".
Definition SYMLINK_NODE_DOMAIN : list Z := bstr "again linux pytest symlink node v1".
Definition DIRECTORY_NODE_DOMAIN : list Z := bstr "again linux pytest directory node v1".
Definition EXTERNAL_TREE_NODE_DOMAIN : list Z := bstr "again linux pytest external tree node v1".
Definition WORKSPACE_MERKLE_DOMAIN : list Z := bstr "again linux pytest workspace merkle v1".
Definition RUNTIME_MERKLE_DOMAIN : list Z := bstr "again linux pytest runtime merkle v1".

Inductive LinuxPytestContractError :=
| InvalidDigest
| InvalidCompletenessMasks
| SchemaProfileMismatch
| MalformedRecord
| MalformedLookupIdentity
| MalformedManifest
| CanonicalEncoding
| CanonicalDecoding
| ComparisonMismatch.

#[global] Instance LinuxPytestContractError_eq_dec : EqDecision LinuxPytestContractError.
Proof. solve_decision. Defined.

Abbreviation contract := (result LinuxPytestContractError).

(** [Err(error)?] on a failed test. *)
Definition ensure (b : bool) (e : LinuxPytestContractError) : contract () :=
  if b then Ok () else Err e.

Lemma ensure_Ok b e u : ensure b e = Ok u ↔ b = true.
Proof. destruct b, u; split; done. Qed.

Module RefusalCodes.
Inductive RefusalCode :=
| ProfileDisabled
| UnsupportedOs
| UnsupportedArchitecture
| KernelTupleNotEnabled
| RequiredKernelCapabilityMissing
| CwdNotWorkspaceRoot
| Argv0NotExact
| PytestPrefixNotExact
| SelectorMissing
| SelectorNonUtf8
| SelectorOptionLike
| SelectorMalformed
| SelectorPathEscape
| SelectorTargetMissing
| SelectorTargetType
| ForbiddenArgument
| ExecutableSymlinkEscape
| ExecutableRuntimeMismatch
| StdinTty
| StdinNonempty
| StdoutTty
| StderrTty
| EnvironmentMalformed
| LoaderInjectionEnvironment
| SnapshotRequiredObjectUnsupported
| SnapshotConstructionFailed
| UserNamespaceUnavailable
| RequiredNamespaceFailed
| MountRootFailed
| CloseRangeUnavailable
| SeccompUnavailable
| PtraceUnavailable
| LandlockUnavailable
| IsolationPreflightFailed.

Definition RefusalCode_as_u16 (c : RefusalCode) : Z :=
  match c with
  | ProfileDisabled => 1
  | UnsupportedOs => 2
  | UnsupportedArchitecture => 3
  | KernelTupleNotEnabled => 4
  | RequiredKernelCapabilityMissing => 5
  | CwdNotWorkspaceRoot => 0x0010
  | Argv0NotExact => 0x0011
  | PytestPrefixNotExact => 0x0012
  | SelectorMissing => 0x0013
  | SelectorNonUtf8 => 0x0014
  | SelectorOptionLike => 0x0015
  | SelectorMalformed => 0x0016
  | SelectorPathEscape => 0x0017
  | SelectorTargetMissing => 0x0018
  | SelectorTargetType => 0x0019
  | ForbiddenArgument => 0x001a
  | ExecutableSymlinkEscape => 0x001b
  | ExecutableRuntimeMismatch => 0x001c
  | StdinTty => 0x0020
  | StdinNonempty => 0x0021
  | StdoutTty => 0x0022
  | StderrTty => 0x0023
  | EnvironmentMalformed => 0x0030
  | LoaderInjectionEnvironment => 0x0031
  | SnapshotRequiredObjectUnsupported => 0x0040
  | SnapshotConstructionFailed => 0x0041
  | UserNamespaceUnavailable => 0x0050
  | RequiredNamespaceFailed => 0x0051
  | MountRootFailed => 0x0052
  | CloseRangeUnavailable => 0x0053
  | SeccompUnavailable => 0x0054
  | PtraceUnavailable => 0x0055
  | LandlockUnavailable => 0x0056
  | IsolationPreflightFailed => 0x0057
  end.

Definition RefusalCode_as_str (c : RefusalCode) : string :=
  match c with
  | ProfileDisabled => "profile_disabled"
  | UnsupportedOs => "unsupported_os"
  | UnsupportedArchitecture => "unsupported_architecture"
  | KernelTupleNotEnabled => "kernel_tuple_not_enabled"
  | RequiredKernelCapabilityMissing => "required_kernel_capability_missing"
  | CwdNotWorkspaceRoot => "cwd_not_workspace_root"
  | Argv0NotExact => "argv0_not_exact"
  | PytestPrefixNotExact => "pytest_prefix_not_exact"
  | SelectorMissing => "selector_missing"
  | SelectorNonUtf8 => "selector_non_utf8"
  | SelectorOptionLike => "selector_option_like"
  | SelectorMalformed => "selector_malformed"
  | SelectorPathEscape => "selector_path_escape"
  | SelectorTargetMissing => "selector_target_missing"
  | SelectorTargetType => "selector_target_type"
  | ForbiddenArgument => "forbidden_argument"
  | ExecutableSymlinkEscape => "executable_symlink_escape"
  | ExecutableRuntimeMismatch => "executable_runtime_mismatch"
  | StdinTty => "stdin_tty"
  | StdinNonempty => "stdin_nonempty"
  | StdoutTty => "stdout_tty"
  | StderrTty => "stderr_tty"
  | EnvironmentMalformed => "environment_malformed"
  | LoaderInjectionEnvironment => "loader_injection_environment"
  | SnapshotRequiredObjectUnsupported => "snapshot_required_object_unsupported"
  | SnapshotConstructionFailed => "snapshot_construction_failed"
  | UserNamespaceUnavailable => "user_namespace_unavailable"
  | RequiredNamespaceFailed => "required_namespace_failed"
  | MountRootFailed => "mount_root_failed"
  | CloseRangeUnavailable => "close_range_unavailable"
  | SeccompUnavailable => "seccomp_unavailable"
  | PtraceUnavailable => "ptrace_unavailable"
  | LandlockUnavailable => "landlock_unavailable"
  | IsolationPreflightFailed => "isolation_preflight_failed"
  end.

Definition RefusalCode_from_u16 (value : Z) : option RefusalCode :=
  if value =? 1 then Some ProfileDisabled
  else if value =? 2 then Some UnsupportedOs
  else if value =? 3 then Some UnsupportedArchitecture
  else if value =? 4 then Some KernelTupleNotEnabled
  else if value =? 5 then Some RequiredKernelCapabilityMissing
  else if value =? 0x0010 then Some CwdNotWorkspaceRoot
  else if value =? 0x0011 then Some Argv0NotExact
  else if value =? 0x0012 then Some PytestPrefixNotExact
  else if value =? 0x0013 then Some SelectorMissing
  else if value =? 0x0014 then Some SelectorNonUtf8
  else if value =? 0x0015 then Some SelectorOptionLike
  else if value =? 0x0016 then Some SelectorMalformed
  else if value =? 0x0017 then Some SelectorPathEscape
  else if value =? 0x0018 then Some SelectorTargetMissing
  else if value =? 0x0019 then Some SelectorTargetType
  else if value =? 0x001a then Some ForbiddenArgument
  else if value =? 0x001b then Some ExecutableSymlinkEscape
  else if value =? 0x001c then Some ExecutableRuntimeMismatch
  else if value =? 0x0020 then Some StdinTty
  else if value =? 0x0021 then Some StdinNonempty
  else if value =? 0x0022 then Some StdoutTty
  else if value =? 0x0023 then Some StderrTty
  else if value =? 0x0030 then Some EnvironmentMalformed
  else if value =? 0x0031 then Some LoaderInjectionEnvironment
  else if value =? 0x0040 then Some SnapshotRequiredObjectUnsupported
  else if value =? 0x0041 then Some SnapshotConstructionFailed
  else if value =? 0x0050 then Some UserNamespaceUnavailable
  else if value =? 0x0051 then Some RequiredNamespaceFailed
  else if value =? 0x0052 then Some MountRootFailed
  else if value =? 0x0053 then Some CloseRangeUnavailable
  else if value =? 0x0054 then Some SeccompUnavailable
  else if value =? 0x0055 then Some PtraceUnavailable
  else if value =? 0x0056 then Some LandlockUnavailable
  else if value =? 0x0057 then Some IsolationPreflightFailed
  else None.

#[global] Instance RefusalCode_eq_dec : EqDecision RefusalCode.
Proof. solve_decision. Defined.

Lemma RefusalCode_from_as_u16 c : RefusalCode_from_u16 (RefusalCode_as_u16 c) = Some c.
Proof. by destruct c. Qed.

Lemma RefusalCode_as_from_u16 value c : RefusalCode_from_u16 value = Some c → RefusalCode_as_u16 c = value.
Proof.
  unfold RefusalCode_from_u16.
  repeat match goal with |- (if ?b then _ else _) = _ → _ =>
    destruct b eqn:Heq; [apply Z.eqb_eq in Heq as ->; by intros [= <-]|clear Heq] end.
  done.
Qed.

Lemma RefusalCode_as_u16_range c : is_u16 (RefusalCode_as_u16 c).
Proof. by destruct c. Qed.
End RefusalCodes.
Abbreviation RefusalCode := RefusalCodes.RefusalCode.

Module ExecuteOnlyCodes.
Inductive ExecuteOnlyCode :=
| SourceMutatedDuringSnapshot
| SnapshotManifestUnstable
| UnsupportedSnapshotObject
| SparseLayoutLoss
| XattrLoss
| RuntimeClosureIncomplete
| DescendantExecUnsealed
| ExecutableMappingUnsupported
| SyscallUnknown
| TraceOperationUnsupported
| PathResolutionUnsupported
| MetadataSurfaceUnsupported
| SharedWritableMapping
| SplicePathUnsupported
| TimeSurfaceUnsupported
| EntropySurfaceUnsupported
| PidIdentitySurfaceUnsupported
| ConcurrentRunnableWorkload
| SchedulingSurfaceUnsupported
| AsynchronousSignal
| NetworkAttempt
| ExternalUnixSocketAttempt
| ExternalFdAcquired
| ForbiddenSyscallAttempt
| NamespaceEscapeAttempt
| MountEscapeAttempt
| ProcessIntrospectionAttempt
| RuntimeClosureViolation
| LandlockPolicyViolation
| FdHygieneViolation
| StdoutLimit
| StderrLimit
| DescendantTaskLimit
| TraceEventLimit
| TraceEncodingLimit
| WallTimeLimit
| SnapshotLimit
| BranchLimit
| ScratchLimit
| MemoryLimit
| OpenFileLimit
| PerFileLimit
| ForegroundNonzeroExit
| ForegroundSignaled
| TraceEventLost
| TraceEventMalformed
| TraceEventOutOfOrder
| TraceEventUnknown
| CounterOverflow
| DecoderDisagreement
| TracerRestart
| MissingFinalAck
| DescendantUnreaped
| EffectDiffMismatch
| FinalRootUnstable
| RecordEncodingFailure
| CaptureFailure
| CleanupIncomplete
| CasCorruption.

Definition ExecuteOnlyCode_as_u16 (c : ExecuteOnlyCode) : Z :=
  match c with
  | SourceMutatedDuringSnapshot => 0x1001
  | SnapshotManifestUnstable => 0x1002
  | UnsupportedSnapshotObject => 0x1003
  | SparseLayoutLoss => 0x1004
  | XattrLoss => 0x1005
  | RuntimeClosureIncomplete => 0x1010
  | DescendantExecUnsealed => 0x1011
  | ExecutableMappingUnsupported => 0x1012
  | SyscallUnknown => 0x1020
  | TraceOperationUnsupported => 0x1021
  | PathResolutionUnsupported => 0x1022
  | MetadataSurfaceUnsupported => 0x1023
  | SharedWritableMapping => 0x1024
  | SplicePathUnsupported => 0x1025
  | TimeSurfaceUnsupported => 0x1030
  | EntropySurfaceUnsupported => 0x1031
  | PidIdentitySurfaceUnsupported => 0x1032
  | ConcurrentRunnableWorkload => 0x1033
  | SchedulingSurfaceUnsupported => 0x1034
  | AsynchronousSignal => 0x1035
  | NetworkAttempt => 0x2001
  | ExternalUnixSocketAttempt => 0x2002
  | ExternalFdAcquired => 0x2003
  | ForbiddenSyscallAttempt => 0x2004
  | NamespaceEscapeAttempt => 0x2005
  | MountEscapeAttempt => 0x2006
  | ProcessIntrospectionAttempt => 0x2007
  | RuntimeClosureViolation => 0x2008
  | LandlockPolicyViolation => 0x2009
  | FdHygieneViolation => 0x200a
  | StdoutLimit => 0x3001
  | StderrLimit => 0x3002
  | DescendantTaskLimit => 0x3003
  | TraceEventLimit => 0x3004
  | TraceEncodingLimit => 0x3005
  | WallTimeLimit => 0x3006
  | SnapshotLimit => 0x3007
  | BranchLimit => 0x3008
  | ScratchLimit => 0x3009
  | MemoryLimit => 0x300a
  | OpenFileLimit => 0x300b
  | PerFileLimit => 0x300c
  | ForegroundNonzeroExit => 0x3010
  | ForegroundSignaled => 0x3011
  | TraceEventLost => 0x4001
  | TraceEventMalformed => 0x4002
  | TraceEventOutOfOrder => 0x4003
  | TraceEventUnknown => 0x4004
  | CounterOverflow => 0x4005
  | DecoderDisagreement => 0x4006
  | TracerRestart => 0x4007
  | MissingFinalAck => 0x4008
  | DescendantUnreaped => 0x4009
  | EffectDiffMismatch => 0x400a
  | FinalRootUnstable => 0x400b
  | RecordEncodingFailure => 0x400c
  | CaptureFailure => 0x400d
  | CleanupIncomplete => 0x400e
  | CasCorruption => 0x400f
  end.

Definition ExecuteOnlyCode_as_str (c : ExecuteOnlyCode) : string :=
  match c with
  | SourceMutatedDuringSnapshot => "source_mutated_during_snapshot"
  | SnapshotManifestUnstable => "snapshot_manifest_unstable"
  | UnsupportedSnapshotObject => "unsupported_snapshot_object"
  | SparseLayoutLoss => "sparse_layout_loss"
  | XattrLoss => "xattr_loss"
  | RuntimeClosureIncomplete => "runtime_closure_incomplete"
  | DescendantExecUnsealed => "descendant_exec_unsealed"
  | ExecutableMappingUnsupported => "executable_mapping_unsupported"
  | SyscallUnknown => "syscall_unknown"
  | TraceOperationUnsupported => "trace_operation_unsupported"
  | PathResolutionUnsupported => "path_resolution_unsupported"
  | MetadataSurfaceUnsupported => "metadata_surface_unsupported"
  | SharedWritableMapping => "shared_writable_mapping"
  | SplicePathUnsupported => "splice_path_unsupported"
  | TimeSurfaceUnsupported => "time_surface_unsupported"
  | EntropySurfaceUnsupported => "entropy_surface_unsupported"
  | PidIdentitySurfaceUnsupported => "pid_identity_surface_unsupported"
  | ConcurrentRunnableWorkload => "concurrent_runnable_workload"
  | SchedulingSurfaceUnsupported => "scheduling_surface_unsupported"
  | AsynchronousSignal => "asynchronous_signal"
  | NetworkAttempt => "network_attempt"
  | ExternalUnixSocketAttempt => "external_unix_socket_attempt"
  | ExternalFdAcquired => "external_fd_acquired"
  | ForbiddenSyscallAttempt => "forbidden_syscall_attempt"
  | NamespaceEscapeAttempt => "namespace_escape_attempt"
  | MountEscapeAttempt => "mount_escape_attempt"
  | ProcessIntrospectionAttempt => "process_introspection_attempt"
  | RuntimeClosureViolation => "runtime_closure_violation"
  | LandlockPolicyViolation => "landlock_policy_violation"
  | FdHygieneViolation => "fd_hygiene_violation"
  | StdoutLimit => "stdout_limit"
  | StderrLimit => "stderr_limit"
  | DescendantTaskLimit => "descendant_task_limit"
  | TraceEventLimit => "trace_event_limit"
  | TraceEncodingLimit => "trace_encoding_limit"
  | WallTimeLimit => "wall_time_limit"
  | SnapshotLimit => "snapshot_limit"
  | BranchLimit => "branch_limit"
  | ScratchLimit => "scratch_limit"
  | MemoryLimit => "memory_limit"
  | OpenFileLimit => "open_file_limit"
  | PerFileLimit => "per_file_limit"
  | ForegroundNonzeroExit => "foreground_nonzero_exit"
  | ForegroundSignaled => "foreground_signaled"
  | TraceEventLost => "trace_event_lost"
  | TraceEventMalformed => "trace_event_malformed"
  | TraceEventOutOfOrder => "trace_event_out_of_order"
  | TraceEventUnknown => "trace_event_unknown"
  | CounterOverflow => "counter_overflow"
  | DecoderDisagreement => "decoder_disagreement"
  | TracerRestart => "tracer_restart"
  | MissingFinalAck => "missing_final_ack"
  | DescendantUnreaped => "descendant_unreaped"
  | EffectDiffMismatch => "effect_diff_mismatch"
  | FinalRootUnstable => "final_root_unstable"
  | RecordEncodingFailure => "record_encoding_failure"
  | CaptureFailure => "capture_failure"
  | CleanupIncomplete => "cleanup_incomplete"
  | CasCorruption => "cas_corruption"
  end.

Definition ExecuteOnlyCode_from_u16 (value : Z) : option ExecuteOnlyCode :=
  if value =? 0x1001 then Some SourceMutatedDuringSnapshot
  else if value =? 0x1002 then Some SnapshotManifestUnstable
  else if value =? 0x1003 then Some UnsupportedSnapshotObject
  else if value =? 0x1004 then Some SparseLayoutLoss
  else if value =? 0x1005 then Some XattrLoss
  else if value =? 0x1010 then Some RuntimeClosureIncomplete
  else if value =? 0x1011 then Some DescendantExecUnsealed
  else if value =? 0x1012 then Some ExecutableMappingUnsupported
  else if value =? 0x1020 then Some SyscallUnknown
  else if value =? 0x1021 then Some TraceOperationUnsupported
  else if value =? 0x1022 then Some PathResolutionUnsupported
  else if value =? 0x1023 then Some MetadataSurfaceUnsupported
  else if value =? 0x1024 then Some SharedWritableMapping
  else if value =? 0x1025 then Some SplicePathUnsupported
  else if value =? 0x1030 then Some TimeSurfaceUnsupported
  else if value =? 0x1031 then Some EntropySurfaceUnsupported
  else if value =? 0x1032 then Some PidIdentitySurfaceUnsupported
  else if value =? 0x1033 then Some ConcurrentRunnableWorkload
  else if value =? 0x1034 then Some SchedulingSurfaceUnsupported
  else if value =? 0x1035 then Some AsynchronousSignal
  else if value =? 0x2001 then Some NetworkAttempt
  else if value =? 0x2002 then Some ExternalUnixSocketAttempt
  else if value =? 0x2003 then Some ExternalFdAcquired
  else if value =? 0x2004 then Some ForbiddenSyscallAttempt
  else if value =? 0x2005 then Some NamespaceEscapeAttempt
  else if value =? 0x2006 then Some MountEscapeAttempt
  else if value =? 0x2007 then Some ProcessIntrospectionAttempt
  else if value =? 0x2008 then Some RuntimeClosureViolation
  else if value =? 0x2009 then Some LandlockPolicyViolation
  else if value =? 0x200a then Some FdHygieneViolation
  else if value =? 0x3001 then Some StdoutLimit
  else if value =? 0x3002 then Some StderrLimit
  else if value =? 0x3003 then Some DescendantTaskLimit
  else if value =? 0x3004 then Some TraceEventLimit
  else if value =? 0x3005 then Some TraceEncodingLimit
  else if value =? 0x3006 then Some WallTimeLimit
  else if value =? 0x3007 then Some SnapshotLimit
  else if value =? 0x3008 then Some BranchLimit
  else if value =? 0x3009 then Some ScratchLimit
  else if value =? 0x300a then Some MemoryLimit
  else if value =? 0x300b then Some OpenFileLimit
  else if value =? 0x300c then Some PerFileLimit
  else if value =? 0x3010 then Some ForegroundNonzeroExit
  else if value =? 0x3011 then Some ForegroundSignaled
  else if value =? 0x4001 then Some TraceEventLost
  else if value =? 0x4002 then Some TraceEventMalformed
  else if value =? 0x4003 then Some TraceEventOutOfOrder
  else if value =? 0x4004 then Some TraceEventUnknown
  else if value =? 0x4005 then Some CounterOverflow
  else if value =? 0x4006 then Some DecoderDisagreement
  else if value =? 0x4007 then Some TracerRestart
  else if value =? 0x4008 then Some MissingFinalAck
  else if value =? 0x4009 then Some DescendantUnreaped
  else if value =? 0x400a then Some EffectDiffMismatch
  else if value =? 0x400b then Some FinalRootUnstable
  else if value =? 0x400c then Some RecordEncodingFailure
  else if value =? 0x400d then Some CaptureFailure
  else if value =? 0x400e then Some CleanupIncomplete
  else if value =? 0x400f then Some CasCorruption
  else None.

#[global] Instance ExecuteOnlyCode_eq_dec : EqDecision ExecuteOnlyCode.
Proof. solve_decision. Defined.

Lemma ExecuteOnlyCode_from_as_u16 c : ExecuteOnlyCode_from_u16 (ExecuteOnlyCode_as_u16 c) = Some c.
Proof. by destruct c. Qed.

Lemma ExecuteOnlyCode_as_from_u16 value c : ExecuteOnlyCode_from_u16 value = Some c → ExecuteOnlyCode_as_u16 c = value.
Proof.
  unfold ExecuteOnlyCode_from_u16.
  repeat match goal with |- (if ?b then _ else _) = _ → _ =>
    destruct b eqn:Heq; [apply Z.eqb_eq in Heq as ->; by intros [= <-]|clear Heq] end.
  done.
Qed.

Lemma ExecuteOnlyCode_as_u16_range c : is_u16 (ExecuteOnlyCode_as_u16 c).
Proof. by destruct c. Qed.
End ExecuteOnlyCodes.
Abbreviation ExecuteOnlyCode := ExecuteOnlyCodes.ExecuteOnlyCode.

Module ShadowTerminalCodes.
Inductive ShadowTerminalCode :=
| HandoffFailed
| PrimaryIneligible
| LeaseExpired
| WorkerCrashed
| ShadowLaunchFailed
| ShadowNonzeroExit
| ShadowSignaled
| ShadowIncomplete
| SemanticMismatch
| DurableRecordFailed
| PromotionCompareAndSwapLost
| ClassAlreadyQuarantined
| SupersededByPromotedPair.

Definition ShadowTerminalCode_as_u16 (c : ShadowTerminalCode) : Z :=
  match c with
  | HandoffFailed => 1
  | PrimaryIneligible => 2
  | LeaseExpired => 3
  | WorkerCrashed => 4
  | ShadowLaunchFailed => 5
  | ShadowNonzeroExit => 6
  | ShadowSignaled => 7
  | ShadowIncomplete => 8
  | SemanticMismatch => 9
  | DurableRecordFailed => 0x000a
  | PromotionCompareAndSwapLost => 0x000b
  | ClassAlreadyQuarantined => 0x000c
  | SupersededByPromotedPair => 0x000d
  end.

Definition ShadowTerminalCode_as_str (c : ShadowTerminalCode) : string :=
  match c with
  | HandoffFailed => "handoff_failed"
  | PrimaryIneligible => "primary_ineligible"
  | LeaseExpired => "lease_expired"
  | WorkerCrashed => "worker_crashed"
  | ShadowLaunchFailed => "shadow_launch_failed"
  | ShadowNonzeroExit => "shadow_nonzero_exit"
  | ShadowSignaled => "shadow_signaled"
  | ShadowIncomplete => "shadow_incomplete"
  | SemanticMismatch => "semantic_mismatch"
  | DurableRecordFailed => "durable_record_failed"
  | PromotionCompareAndSwapLost => "promotion_compare_and_swap_lost"
  | ClassAlreadyQuarantined => "class_already_quarantined"
  | SupersededByPromotedPair => "superseded_by_promoted_pair"
  end.

Definition ShadowTerminalCode_from_u16 (value : Z) : option ShadowTerminalCode :=
  if value =? 1 then Some HandoffFailed
  else if value =? 2 then Some PrimaryIneligible
  else if value =? 3 then Some LeaseExpired
  else if value =? 4 then Some WorkerCrashed
  else if value =? 5 then Some ShadowLaunchFailed
  else if value =? 6 then Some ShadowNonzeroExit
  else if value =? 7 then Some ShadowSignaled
  else if value =? 8 then Some ShadowIncomplete
  else if value =? 9 then Some SemanticMismatch
  else if value =? 0x000a then Some DurableRecordFailed
  else if value =? 0x000b then Some PromotionCompareAndSwapLost
  else if value =? 0x000c then Some ClassAlreadyQuarantined
  else if value =? 0x000d then Some SupersededByPromotedPair
  else None.

#[global] Instance ShadowTerminalCode_eq_dec : EqDecision ShadowTerminalCode.
Proof. solve_decision. Defined.

Lemma ShadowTerminalCode_from_as_u16 c : ShadowTerminalCode_from_u16 (ShadowTerminalCode_as_u16 c) = Some c.
Proof. by destruct c. Qed.

Lemma ShadowTerminalCode_as_from_u16 value c : ShadowTerminalCode_from_u16 value = Some c → ShadowTerminalCode_as_u16 c = value.
Proof.
  unfold ShadowTerminalCode_from_u16.
  repeat match goal with |- (if ?b then _ else _) = _ → _ =>
    destruct b eqn:Heq; [apply Z.eqb_eq in Heq as ->; by intros [= <-]|clear Heq] end.
  done.
Qed.

Lemma ShadowTerminalCode_as_u16_range c : is_u16 (ShadowTerminalCode_as_u16 c).
Proof. by destruct c. Qed.
End ShadowTerminalCodes.
Abbreviation ShadowTerminalCode := ShadowTerminalCodes.ShadowTerminalCode.

Module QuarantineCodes.
Inductive QuarantineCode :=
| ComparisonViewMismatch
| ProfileMismatch
| InvocationMismatch
| EnvironmentMismatch
| SnapshotRootMismatch
| PlatformPolicyMismatch
| TraceMaskMismatch
| TraceCounterMismatch
| ObservationMismatch
| AmbientMismatch
| OrderedEffectMismatch
| FinalWorkspaceRootMismatch
| StdoutMismatch
| StderrMismatch
| WaitStatusMismatch
| NoncanonicalRecord
| UnknownSchema
| UnknownBitmapBit
| ForgedCompleteMask
| RecordCasCorruption
| StreamCasCorruption
| SameRequestDifferentPair.

Definition QuarantineCode_as_u16 (c : QuarantineCode) : Z :=
  match c with
  | ComparisonViewMismatch => 1
  | ProfileMismatch => 2
  | InvocationMismatch => 3
  | EnvironmentMismatch => 4
  | SnapshotRootMismatch => 5
  | PlatformPolicyMismatch => 6
  | TraceMaskMismatch => 7
  | TraceCounterMismatch => 8
  | ObservationMismatch => 9
  | AmbientMismatch => 0x000a
  | OrderedEffectMismatch => 0x000b
  | FinalWorkspaceRootMismatch => 0x000c
  | StdoutMismatch => 0x000d
  | StderrMismatch => 0x000e
  | WaitStatusMismatch => 0x000f
  | NoncanonicalRecord => 0x0010
  | UnknownSchema => 0x0011
  | UnknownBitmapBit => 0x0012
  | ForgedCompleteMask => 0x0013
  | RecordCasCorruption => 0x0014
  | StreamCasCorruption => 0x0015
  | SameRequestDifferentPair => 0x0016
  end.

Definition QuarantineCode_as_str (c : QuarantineCode) : string :=
  match c with
  | ComparisonViewMismatch => "comparison_view_mismatch"
  | ProfileMismatch => "profile_mismatch"
  | InvocationMismatch => "invocation_mismatch"
  | EnvironmentMismatch => "environment_mismatch"
  | SnapshotRootMismatch => "snapshot_root_mismatch"
  | PlatformPolicyMismatch => "platform_policy_mismatch"
  | TraceMaskMismatch => "trace_mask_mismatch"
  | TraceCounterMismatch => "trace_counter_mismatch"
  | ObservationMismatch => "observation_mismatch"
  | AmbientMismatch => "ambient_mismatch"
  | OrderedEffectMismatch => "ordered_effect_mismatch"
  | FinalWorkspaceRootMismatch => "final_workspace_root_mismatch"
  | StdoutMismatch => "stdout_mismatch"
  | StderrMismatch => "stderr_mismatch"
  | WaitStatusMismatch => "wait_status_mismatch"
  | NoncanonicalRecord => "noncanonical_record"
  | UnknownSchema => "unknown_schema"
  | UnknownBitmapBit => "unknown_bitmap_bit"
  | ForgedCompleteMask => "forged_complete_mask"
  | RecordCasCorruption => "record_cas_corruption"
  | StreamCasCorruption => "stream_cas_corruption"
  | SameRequestDifferentPair => "same_request_different_pair"
  end.

Definition QuarantineCode_from_u16 (value : Z) : option QuarantineCode :=
  if value =? 1 then Some ComparisonViewMismatch
  else if value =? 2 then Some ProfileMismatch
  else if value =? 3 then Some InvocationMismatch
  else if value =? 4 then Some EnvironmentMismatch
  else if value =? 5 then Some SnapshotRootMismatch
  else if value =? 6 then Some PlatformPolicyMismatch
  else if value =? 7 then Some TraceMaskMismatch
  else if value =? 8 then Some TraceCounterMismatch
  else if value =? 9 then Some ObservationMismatch
  else if value =? 0x000a then Some AmbientMismatch
  else if value =? 0x000b then Some OrderedEffectMismatch
  else if value =? 0x000c then Some FinalWorkspaceRootMismatch
  else if value =? 0x000d then Some StdoutMismatch
  else if value =? 0x000e then Some StderrMismatch
  else if value =? 0x000f then Some WaitStatusMismatch
  else if value =? 0x0010 then Some NoncanonicalRecord
  else if value =? 0x0011 then Some UnknownSchema
  else if value =? 0x0012 then Some UnknownBitmapBit
  else if value =? 0x0013 then Some ForgedCompleteMask
  else if value =? 0x0014 then Some RecordCasCorruption
  else if value =? 0x0015 then Some StreamCasCorruption
  else if value =? 0x0016 then Some SameRequestDifferentPair
  else None.

#[global] Instance QuarantineCode_eq_dec : EqDecision QuarantineCode.
Proof. solve_decision. Defined.

Lemma QuarantineCode_from_as_u16 c : QuarantineCode_from_u16 (QuarantineCode_as_u16 c) = Some c.
Proof. by destruct c. Qed.

Lemma QuarantineCode_as_from_u16 value c : QuarantineCode_from_u16 value = Some c → QuarantineCode_as_u16 c = value.
Proof.
  unfold QuarantineCode_from_u16.
  repeat match goal with |- (if ?b then _ else _) = _ → _ =>
    destruct b eqn:Heq; [apply Z.eqb_eq in Heq as ->; by intros [= <-]|clear Heq] end.
  done.
Qed.

Lemma QuarantineCode_as_u16_range c : is_u16 (QuarantineCode_as_u16 c).
Proof. by destruct c. Qed.
End QuarantineCodes.
Abbreviation QuarantineCode := QuarantineCodes.QuarantineCode.

(** ** Completeness dimensions *)

Module Dimensions.
Inductive CompletenessDimensionV2 :=
| SealedSnapshot
| RuntimeClosure
| TmpfsMountRoot
| NamespaceSet
| FdHygiene
| DescendantLifecycle
| SeccompStream
| PathResolution
| FileContent
| FileMapping
| FileMetadata
| DirectoryMembership
| NegativeLookup
| SymlinkMagiclink
| ExecLibraryIdentity
| Environment
| Stdin
| Stdout
| Stderr
| FilesystemEffects
| FinalWorkspaceRoot
| NetworkIsolation
| IpcIsolation
| SignalsExitStatus
| LogicalTime
| LogicalRandom
| LogicalPidIdentity
| SingleRunnableSchedule
| LimitsCpuIdentity
| Landlock
| Cleanup
| TraceIntegrity.

Definition CompletenessDimensionV2_ALL : list CompletenessDimensionV2 :=
  [ SealedSnapshot;
    RuntimeClosure;
    TmpfsMountRoot;
    NamespaceSet;
    FdHygiene;
    DescendantLifecycle;
    SeccompStream;
    PathResolution;
    FileContent;
    FileMapping;
    FileMetadata;
    DirectoryMembership;
    NegativeLookup;
    SymlinkMagiclink;
    ExecLibraryIdentity;
    Environment;
    Stdin;
    Stdout;
    Stderr;
    FilesystemEffects;
    FinalWorkspaceRoot;
    NetworkIsolation;
    IpcIsolation;
    SignalsExitStatus;
    LogicalTime;
    LogicalRandom;
    LogicalPidIdentity;
    SingleRunnableSchedule;
    LimitsCpuIdentity;
    Landlock;
    Cleanup;
    TraceIntegrity ].

(** [self as u8]. *)
Definition CompletenessDimensionV2_as_u8 (d : CompletenessDimensionV2) : Z :=
  match d with
  | SealedSnapshot => 0
  | RuntimeClosure => 1
  | TmpfsMountRoot => 2
  | NamespaceSet => 3
  | FdHygiene => 4
  | DescendantLifecycle => 5
  | SeccompStream => 6
  | PathResolution => 7
  | FileContent => 8
  | FileMapping => 9
  | FileMetadata => 10
  | DirectoryMembership => 11
  | NegativeLookup => 12
  | SymlinkMagiclink => 13
  | ExecLibraryIdentity => 14
  | Environment => 15
  | Stdin => 16
  | Stdout => 17
  | Stderr => 18
  | FilesystemEffects => 19
  | FinalWorkspaceRoot => 20
  | NetworkIsolation => 21
  | IpcIsolation => 22
  | SignalsExitStatus => 23
  | LogicalTime => 24
  | LogicalRandom => 25
  | LogicalPidIdentity => 26
  | SingleRunnableSchedule => 27
  | LimitsCpuIdentity => 28
  | Landlock => 29
  | Cleanup => 30
  | TraceIntegrity => 31
  end.

#[global] Instance CompletenessDimensionV2_eq_dec : EqDecision CompletenessDimensionV2.
Proof. solve_decision. Defined.

Definition CompletenessDimensionV2_bit (d : CompletenessDimensionV2) : Z :=
  Z.shiftl 1 (CompletenessDimensionV2_as_u8 d).

Definition CompletenessDimensionV2_from_u8 (value : Z) : option CompletenessDimensionV2 :=
  if value <? len CompletenessDimensionV2_ALL
  then CompletenessDimensionV2_ALL !! Z.to_nat value
  else None.

Lemma CompletenessDimensionV2_from_as_u8 d :
  CompletenessDimensionV2_from_u8 (CompletenessDimensionV2_as_u8 d) = Some d.
Proof. by destruct d. Qed.

Lemma CompletenessDimensionV2_as_from_u8 value d :
  0 <= value → CompletenessDimensionV2_from_u8 value = Some d →
  CompletenessDimensionV2_as_u8 d = value.
Proof.
  intros Hv. unfold CompletenessDimensionV2_from_u8.
  destruct (Z.ltb_spec value (len CompletenessDimensionV2_ALL)) as [Hlt|]; [|done].
  change (len CompletenessDimensionV2_ALL) with 32 in Hlt.
  rewrite <- (Z2Nat.id value) at 2 by done. assert (Z.to_nat value < 32)%nat as Hn by lia.
  generalize dependent (Z.to_nat value). clear. intros n Hn Hd.
  do 32 (destruct n as [|n]; [by injection Hd as <-|]). lia.
Qed.

Lemma CompletenessDimensionV2_as_u8_range d : is_u8 (CompletenessDimensionV2_as_u8 d).
Proof. by destruct d. Qed.

(** ** [EffectBitmap], a [u64] of dimensions *)

Definition EffectBitmap_EMPTY : Z := 0.
Definition EffectBitmap_REQUIRED_V2 : Z := EFFECT_IR_V2_REQUIRED_MASK.

(** [!mask] on a [u64]. *)
Definition not_u64 (z : Z) : Z := Z.lxor U64_MAX z.

Definition EffectBitmap_contains (self : Z) (d : CompletenessDimensionV2) : bool :=
  negb (Z.land self (CompletenessDimensionV2_bit d) =? 0).

Definition EffectBitmap_insert (self : Z) (d : CompletenessDimensionV2) : Z :=
  Z.lor self (CompletenessDimensionV2_bit d).

Definition EffectBitmap_has_unknown_bits (self : Z) : bool :=
  negb (Z.land self (not_u64 EFFECT_IR_V2_REQUIRED_MASK) =? 0).
End Dimensions.
Abbreviation CompletenessDimensionV2 := Dimensions.CompletenessDimensionV2.
