(* ===== verification/Canonical.v ===== *)
(** * The canonical framing of [src/src/linux_pytest/canonical.rs]

    Objects, enumerations, lists and optional values as tagged, length-prefixed
    big-endian byte strings: the builder that writes them ([ObjectBuilder],
    [put_fields], [encode_list], [encode_optional], [encode_enum]), the checked
    length computations, and the parser that reads them back ([Cursor],
    [RawObject], [RawEnum], [decode_list], [decode_optional] and the exact-width
    scalars). A [usize] is a [Z] on a 64-bit target, so [u64::try_from] and
    [usize::try_from] fail only past [U64_MAX]; an allocation is taken to
    succeed. *)

From S2P Require Import Prelude Monad Bytes ContractTypes.

Definition be_value (l : list Z) : Z := le_value (reverse l).

(** [u64::try_from(length)] and [usize::try_from(length)]. *)
Definition try_width (max : Z) (e : LinuxPytestContractError) (n : Z) : contract Z :=
  if n <=? max then Ok n else Err e.

Definition FIELD_HEADER_BYTES : Z := 2 + 1 + 8.
Definition LIST_ITEM_HEADER_BYTES : Z := 8.

(** ** Wire types *)

Module Wire.
Inductive WireType :=
| U8 | U16 | U32 | U64 | I32 | I64 | Bool | Bytes | Utf8 | Object | List | Optional | Enum.

(** [wire_type as u8]. *)
Definition WireType_as_u8 (w : WireType) : Z :=
  match w with
  | U8 => 0x01 | U16 => 0x02 | U32 => 0x03 | U64 => 0x04 | I32 => 0x05 | I64 => 0x06
  | Bool => 0x07 | Bytes => 0x08 | Utf8 => 0x09 | Object => 0x0a | List => 0x0b
  | Optional => 0x0c | Enum => 0x0d
  end.

Definition WireType_from_u8 (value : Z) : option WireType :=
  match value with
  | 0x01 => Some U8
  | 0x02 => Some U16
  | 0x03 => Some U32
  | 0x04 => Some U64
  | 0x05 => Some I32
  | 0x06 => Some I64
  | 0x07 => Some Bool
  | 0x08 => Some Bytes
  | 0x09 => Some Utf8
  | 0x0a => Some Object
  | 0x0b => Some List
  | 0x0c => Some Optional
  | 0x0d => Some Enum
  | _ => None
  end.

#[global] Instance WireType_eq_dec : EqDecision WireType.
Proof. solve_decision. Defined.
End Wire.
Abbreviation WireType := Wire.WireType.

(** ** Encoding *)

Record Field := mkField {
  field_tag : Z;
  field_wire_type : WireType;
  field_payload : list Z;
}.

Record ObjectBuilder := mkBuilder {
  builder_type_id : Z;
  builder_fields : list Field;
}.

Definition enforce_size (bytes : list Z) : contract () :=
  if EFFECT_IR_V2_MAX_CANONICAL_BYTES <? len bytes then Err CanonicalEncoding else Ok ().

Fixpoint put_fields_from (previous : Z) (output : list Z) (fields : list Field) :
    contract (list Z) :=
  match fields with
  | [] => Ok output
  | field :: fields =>
    if field_tag field <=? previous then Err CanonicalEncoding
    else
      length ← try_width U64_MAX CanonicalEncoding (len (field_payload field));
      put_fields_from (field_tag field)
        (output ++ be_bytes 2 (field_tag field)
           ++ [Wire.WireType_as_u8 (field_wire_type field)]
           ++ be_bytes 8 length ++ field_payload field)
        fields
  end.

Definition put_fields (output : list Z) (fields : list Field) : contract (list Z) :=
  put_fields_from 0 output fields.

Fixpoint put_items (output : list Z) (items : list (list Z)) : contract (list Z) :=
  match items with
  | [] => Ok output
  | item :: items =>
    length ← try_width U64_MAX CanonicalEncoding (len item);
    put_items (output ++ be_bytes 8 length ++ item) items
  end.

Definition encode_list (items : list (list Z)) : contract (list Z) :=
  item_count ← try_width U64_MAX CanonicalEncoding (len items);
  if EFFECT_IR_V2_MAX_COLLECTION_ITEMS <? item_count then Err CanonicalEncoding
  else
    output ← put_items (be_bytes 8 item_count) items;
    _ ← enforce_size output;
    Ok output.

Definition encode_optional (value : option (list Z)) : contract (list Z) :=
  match value with
  | None => Ok [0]
  | Some value =>
    length ← try_width U64_MAX CanonicalEncoding (len value);
    let output := [1] ++ be_bytes 8 length ++ value in
    _ ← enforce_size output;
    Ok output
  end.

Definition encode_enum (variant : Z) (fields : list Field) : contract (list Z) :=
  if variant =? 0 then Err CanonicalEncoding
  else
    field_count ← try_width U16_MAX CanonicalEncoding (len fields);
    output ← put_fields (be_bytes 2 variant ++ be_bytes 2 field_count) fields;
    _ ← enforce_size output;
    Ok output.

Definition enum_field (tag : Z) (wire_type : WireType) (payload : list Z) : Field :=
  mkField tag wire_type payload.

Definition ObjectBuilder_new (type_id : Z) : ObjectBuilder := mkBuilder type_id [].

Definition last_tag_at_least (fields : list Field) (tag : Z) : bool :=
  match list.last fields with
  | Some previous => tag <=? field_tag previous
  | None => false
  end.

Definition ObjectBuilder_field (self : ObjectBuilder) (tag : Z) (wire_type : WireType)
    (payload : list Z) : contract ObjectBuilder :=
  if (tag =? 0) || last_tag_at_least (builder_fields self) tag || (U64_MAX <? len payload)
  then Err CanonicalEncoding
  else Ok (mkBuilder (builder_type_id self)
             (builder_fields self ++ [mkField tag wire_type payload])).

Definition ObjectBuilder_u16 (self : ObjectBuilder) (tag value : Z) : contract ObjectBuilder :=
  ObjectBuilder_field self tag Wire.U16 (be_bytes 2 value).

Definition ObjectBuilder_u32 (self : ObjectBuilder) (tag value : Z) : contract ObjectBuilder :=
  ObjectBuilder_field self tag Wire.U32 (be_bytes 4 value).

Definition ObjectBuilder_u64 (self : ObjectBuilder) (tag value : Z) : contract ObjectBuilder :=
  ObjectBuilder_field self tag Wire.U64 (be_bytes 8 value).

Definition ObjectBuilder_i64 (self : ObjectBuilder) (tag value : Z) : contract ObjectBuilder :=
  ObjectBuilder_field self tag Wire.I64 (be_bytes 8 value).

Definition ObjectBuilder_boolean (self : ObjectBuilder) (tag : Z) (value : bool) :
    contract ObjectBuilder :=
  ObjectBuilder_field self tag Wire.Bool [Z.b2z value].

Definition ObjectBuilder_bytes (self : ObjectBuilder) (tag : Z) (value : list Z) :
    contract ObjectBuilder :=
  ObjectBuilder_field self tag Wire.Bytes value.

Definition ObjectBuilder_utf8 (self : ObjectBuilder) (tag : Z) (value : list Z) :
    contract ObjectBuilder :=
  ObjectBuilder_field self tag Wire.Utf8 value.

Definition ObjectBuilder_object (self : ObjectBuilder) (tag : Z) (value : list Z) :
    contract ObjectBuilder :=
  ObjectBuilder_field self tag Wire.Object value.

Definition ObjectBuilder_list (self : ObjectBuilder) (tag : Z) (items : list (list Z)) :
    contract ObjectBuilder :=
  payload ← encode_list items; ObjectBuilder_field self tag Wire.List payload.

Definition ObjectBuilder_enumeration (self : ObjectBuilder) (tag variant : Z)
    (fields : list Field) : contract ObjectBuilder :=
  payload ← encode_enum variant fields; ObjectBuilder_field self tag Wire.Enum payload.

Definition ObjectBuilder_optional (self : ObjectBuilder) (tag : Z)
    (value : option (list Z)) : contract ObjectBuilder :=
  payload ← encode_optional value; ObjectBuilder_field self tag Wire.Optional payload.

Definition ObjectBuilder_finish_nested (self : ObjectBuilder) : contract (list Z) :=
  field_count ← try_width U16_MAX CanonicalEncoding (len (builder_fields self));
  output ← put_fields
    (be_bytes 2 (builder_type_id self) ++ be_bytes 2 EFFECT_IR_V2_WIRE_VERSION
       ++ be_bytes 2 field_count)
    (builder_fields self);
  _ ← enforce_size output;
  Ok output.

Definition ObjectBuilder_finish_top (self : ObjectBuilder) : contract (list Z) :=
  nested ← ObjectBuilder_finish_nested self;
  let output := EFFECT_IR_V2_WIRE_MAGIC ++ nested in
  _ ← enforce_size output;
  Ok output.

(** ** Checked lengths *)

Definition OBJECT_HEADER_BYTES : Z := 2 + 2 + 2.
Definition ENUM_HEADER_BYTES : Z := 2 + 2.
Definition LIST_HEADER_BYTES : Z := 8.
Definition OPTIONAL_ABSENT_BYTES : Z := 1.
Definition OPTIONAL_PRESENT_HEADER_BYTES : Z := 1 + 8.

Definition canonical_collection_count (count : Z) : contract Z :=
  count ← try_width U64_MAX CanonicalEncoding count;
  if EFFECT_IR_V2_MAX_COLLECTION_ITEMS <? count then Err CanonicalEncoding else Ok count.

Definition checked_canonical_add (left right : Z) : contract Z :=
  ok_or (u64_checked_add left right) CanonicalEncoding.

Definition checked_canonical_payload_length (length : Z) : contract Z :=
  length_u64 ← try_width U64_MAX CanonicalEncoding length;
  if EFFECT_IR_V2_MAX_CANONICAL_BYTES <? length_u64 then Err CanonicalEncoding else Ok length.

Definition checked_canonical_field_length (payload_length : Z) : contract Z :=
  length ← checked_canonical_add FIELD_HEADER_BYTES payload_length;
  checked_canonical_payload_length length.

(** The loop over the payload lengths of an object or an enumeration. *)
Fixpoint add_field_lengths (length : Z) (payload_lengths : list Z) : contract Z :=
  match payload_lengths with
  | [] => Ok length
  | payload_length :: payload_lengths =>
    field ← checked_canonical_field_length payload_length;
    length ← checked_canonical_add length field;
    add_field_lengths length payload_lengths
  end.

Definition checked_canonical_object_length (payload_lengths : list Z) : contract Z :=
  _ ← try_width U16_MAX CanonicalEncoding (len payload_lengths);
  length ← add_field_lengths OBJECT_HEADER_BYTES payload_lengths;
  checked_canonical_payload_length length.

Definition checked_canonical_enum_length (variant : Z) (payload_lengths : list Z) :
    contract Z :=
  if variant =? 0 then Err CanonicalEncoding
  else
    _ ← try_width U16_MAX CanonicalEncoding (len payload_lengths);
    length ← add_field_lengths ENUM_HEADER_BYTES payload_lengths;
    checked_canonical_payload_length length.

(** The loop over the item lengths; it counts the items it draws. *)
Fixpoint add_item_lengths (observed_count length : Z) (item_lengths : list (contract Z)) :
    contract (Z * Z) :=
  match item_lengths with
  | [] => Ok (observed_count, length)
  | item_length :: item_lengths =>
    observed_count ← ok_or (u64_checked_add observed_count 1) CanonicalEncoding;
    item_length ← item_length;
    length ← checked_canonical_add length LIST_ITEM_HEADER_BYTES;
    length ← checked_canonical_add length item_length;
    add_item_lengths observed_count length item_lengths
  end.

Definition checked_canonical_list_length (item_count : Z) (item_lengths : list (contract Z)) :
    contract Z :=
  _ ← canonical_collection_count item_count;
  '(observed_count, length) ← add_item_lengths 0 LIST_HEADER_BYTES item_lengths;
  if observed_count =? item_count then checked_canonical_payload_length length
  else Err CanonicalEncoding.

Definition checked_canonical_optional_length (payload_length : option Z) : contract Z :=
  match payload_length with
  | None => Ok OPTIONAL_ABSENT_BYTES
  | Some payload_length =>
    length ← checked_canonical_add OPTIONAL_PRESENT_HEADER_BYTES payload_length;
    checked_canonical_payload_length length
  end.

(** ** Decoding *)

Record Cursor := mkCursor {
  cursor_bytes : list Z;
  cursor_offset : Z;
}.

(** A method on [&mut Cursor]; every failure aborts the parse. *)
Definition cursor_m (A : Type) : Type := Cursor → contract (A * Cursor).

#[global] Instance cursor_ret : MRet cursor_m := λ A a c, Ok (a, c).
#[global] Instance cursor_bind : MBind cursor_m := λ A B f m c,
  match m c with Ok (a, c') => f a c' | Err e => Err e end.

Definition cursor_lift {A} (r : contract A) : cursor_m A := λ c,
  match r with Ok a => Ok (a, c) | Err e => Err e end.

Definition Cursor_new (bytes : list Z) : Cursor := mkCursor bytes 0.

Definition Cursor_take (length : Z) : cursor_m (list Z) := λ c,
  match u64_checked_add (cursor_offset c) length with
  | None => Err CanonicalDecoding
  | Some end_ =>
    if end_ <=? len (cursor_bytes c) then
      Ok (take (Z.to_nat length) (drop (Z.to_nat (cursor_offset c)) (cursor_bytes c)),
          mkCursor (cursor_bytes c) end_)
    else Err CanonicalDecoding
  end.

(** [<[u8; N]>::try_from(bytes)]. *)
Definition exact (n : nat) (bytes : list Z) : contract (list Z) :=
  if (length bytes =? n)%nat then Ok bytes else Err CanonicalDecoding.

Definition Cursor_u8 : cursor_m Z :=
  bytes ← Cursor_take 1; mret (default 0 (head bytes)).

Definition Cursor_u16 : cursor_m Z :=
  bytes ← Cursor_take 2; array ← cursor_lift (exact 2 bytes); mret (be_value array).

Definition Cursor_u64 : cursor_m Z :=
  bytes ← Cursor_take 8; array ← cursor_lift (exact 8 bytes); mret (be_value array).

Definition Cursor_finish : cursor_m () := λ c,
  if cursor_offset c =? len (cursor_bytes c) then Ok ((), c) else Err CanonicalDecoding.

Definition Cursor_remaining : cursor_m Z := λ c,
  Ok (len (cursor_bytes c) - cursor_offset c, c).

(** Runs a parse on a fresh cursor and drops the cursor. *)
Definition run_cursor {A} (m : cursor_m A) (bytes : list Z) : contract A :=
  match m (Cursor_new bytes) with Ok (a, _) => Ok a | Err e => Err e end.

Definition u64_checked_mul (a b : Z) : option Z :=
  if a * b <=? U64_MAX then Some (a * b) else None.

Definition require_minimum_framing (count bytes_per_item remaining : Z) : contract () :=
  match u64_checked_mul count bytes_per_item with
  | None => Err CanonicalDecoding
  | Some minimum => if remaining <? minimum then Err CanonicalDecoding else Ok ()
  end.

(** A [RawField] borrows its payload from the input; its value is a [Field]. *)
Abbreviation RawField := Field.

Record RawObject := mkRawObject {
  raw_object_type_id : Z;
  raw_object_fields : list RawField;
}.

Record RawEnum := mkRawEnum {
  raw_enum_variant : Z;
  raw_enum_fields : list RawField;
}.

Fixpoint parse_fields (count : nat) (previous : Z) (fields : list RawField) :
    cursor_m (list RawField) :=
  match count with
  | O => mret fields
  | S count =>
    tag ← Cursor_u16;
    code ← Cursor_u8;
    wire_type ← cursor_lift (ok_or (Wire.WireType_from_u8 code) CanonicalDecoding);
    length ← Cursor_u64;
    length ← cursor_lift (try_width U64_MAX CanonicalDecoding length);
    if (tag =? 0) || (tag <=? previous) then cursor_lift (Err CanonicalDecoding)
    else
      payload ← Cursor_take length;
      parse_fields count tag (fields ++ [mkField tag wire_type payload])
  end.

Definition RawObject_parse_nested (bytes : list Z) : contract RawObject :=
  run_cursor
    (type_id ← Cursor_u16;
     version ← Cursor_u16;
     if negb (version =? EFFECT_IR_V2_WIRE_VERSION) then cursor_lift (Err CanonicalDecoding)
     else
       count ← Cursor_u16;
       remaining ← Cursor_remaining;
       _ ← cursor_lift (require_minimum_framing count FIELD_HEADER_BYTES remaining);
       fields ← parse_fields (Z.to_nat count) 0 [];
       _ ← Cursor_finish;
       mret (mkRawObject type_id fields))
    bytes.

(** [bytes.strip_prefix(prefix)]. *)
Fixpoint strip_prefix (prefix bytes : list Z) : option (list Z) :=
  match prefix, bytes with
  | [], _ => Some bytes
  | p :: prefix, b :: bytes => if p =? b then strip_prefix prefix bytes else None
  | _ :: _, [] => None
  end.

Definition RawObject_parse_top (bytes : list Z) : contract RawObject :=
  _ ← enforce_size bytes;
  nested ← ok_or (strip_prefix EFFECT_IR_V2_WIRE_MAGIC bytes) CanonicalDecoding;
  RawObject_parse_nested nested.

(** [fields.iter().zip(expected).any(...)] negated, with the length test. *)
Definition fields_match (fields : list RawField) (expected : list (Z * WireType)) : bool :=
  (len fields =? len expected) &&
  negb (any (λ '(actual, (tag, wire_type)),
          negb (field_tag actual =? tag) || negb (bool_decide (field_wire_type actual = wire_type)))
        (zip fields expected)).

Definition RawObject_expect (self : RawObject) (type_id : Z)
    (expected : list (Z * WireType)) : contract () :=
  if negb (raw_object_type_id self =? type_id)
     || negb (fields_match (raw_object_fields self) expected)
  then Err CanonicalDecoding else Ok ().

(** [fields.iter().find(|field| field.tag == tag).map(|field| field.payload)]. *)
Fixpoint find_payload (fields : list RawField) (tag : Z) : option (list Z) :=
  match fields with
  | [] => None
  | field :: fields =>
    if field_tag field =? tag then Some (field_payload field) else find_payload fields tag
  end.

Definition RawObject_payload (self : RawObject) (tag : Z) : contract (list Z) :=
  ok_or (find_payload (raw_object_fields self) tag) CanonicalDecoding.

Definition RawEnum_parse (bytes : list Z) : contract RawEnum :=
  run_cursor
    (variant ← Cursor_u16;
     if variant =? 0 then cursor_lift (Err CanonicalDecoding)
     else
       count ← Cursor_u16;
       remaining ← Cursor_remaining;
       _ ← cursor_lift (require_minimum_framing count FIELD_HEADER_BYTES remaining);
       fields ← parse_fields (Z.to_nat count) 0 [];
       _ ← Cursor_finish;
       mret (mkRawEnum variant fields))
    bytes.

Definition RawEnum_expect (self : RawEnum) (variant : Z)
    (expected : list (Z * WireType)) : contract () :=
  if negb (raw_enum_variant self =? variant)
     || negb (fields_match (raw_enum_fields self) expected)
  then Err CanonicalDecoding else Ok ().

Definition RawEnum_payload (self : RawEnum) (tag : Z) : contract (list Z) :=
  ok_or (find_payload (raw_enum_fields self) tag) CanonicalDecoding.

Fixpoint parse_items (count : nat) (values : list (list Z)) : cursor_m (list (list Z)) :=
  match count with
  | O => mret values
  | S count =>
    length ← Cursor_u64;
    length ← cursor_lift (try_width U64_MAX CanonicalDecoding length);
    value ← Cursor_take length;
    parse_items count (values ++ [value])
  end.

Definition decode_list (bytes : list Z) : contract (list (list Z)) :=
  run_cursor
    (count ← Cursor_u64;
     if EFFECT_IR_V2_MAX_COLLECTION_ITEMS <? count then cursor_lift (Err CanonicalDecoding)
     else
       count ← cursor_lift (try_width U64_MAX CanonicalDecoding count);
       remaining ← Cursor_remaining;
       _ ← cursor_lift (require_minimum_framing count LIST_ITEM_HEADER_BYTES remaining);
       values ← parse_items (Z.to_nat count) [];
       _ ← Cursor_finish;
       mret values)
    bytes.

Definition decode_optional (bytes : list Z) : contract (option (list Z)) :=
  run_cursor
    (present ← Cursor_u8;
     if present =? 0 then (_ ← Cursor_finish; mret None)
     else if present =? 1 then
       length ← Cursor_u64;
       length ← cursor_lift (try_width U64_MAX CanonicalDecoding length);
       value ← Cursor_take length;
       _ ← Cursor_finish;
       mret (Some value)
     else cursor_lift (Err CanonicalDecoding))
    bytes.

Definition decode_u16 (bytes : list Z) : contract Z := be_value <$> exact 2 bytes.
Definition decode_u32 (bytes : list Z) : contract Z := be_value <$> exact 4 bytes.
Definition decode_u64 (bytes : list Z) : contract Z := be_value <$> exact 8 bytes.
Definition decode_i64 (bytes : list Z) : contract Z := (λ b, as_i64 (be_value b)) <$> exact 8 bytes.

Definition decode_bool (bytes : list Z) : contract bool :=
  array ← exact 1 bytes;
  match array with
  | [0] => Ok false
  | [1] => Ok true
  | _ => Err CanonicalDecoding
  end.

Definition decode_simple_enum (bytes : list Z) : contract Z :=
  value ← RawEnum_parse bytes;
  match raw_enum_fields value with
  | [] => Ok (raw_enum_variant value)
  | _ :: _ => Err CanonicalDecoding
  end.

(** [iter().map(f).collect::<Result<Vec<_>, _>>()]: the first error wins. *)
Fixpoint try_map {E A B} (f : A → result E B) (l : list A) : result E (list B) :=
  match l with
  | [] => Ok []
  | x :: l => y ← f x; ys ← try_map f l; Ok (y :: ys)
  end.

(** [option.map(f).transpose()]. *)
Definition try_option {E A B} (f : A → result E B) (o : option A) : result E (option B) :=
  match o with
  | None => Ok None
  | Some x => y ← f x; Ok (Some y)
  end.

(** Proofs unfold these by name. *)
#[global] Arguments ObjectBuilder_field : simpl never.
#[global] Arguments ObjectBuilder_finish_nested : simpl never.
#[global] Arguments ObjectBuilder_finish_top : simpl never.
#[global] Arguments encode_list : simpl never.
#[global] Arguments encode_enum : simpl never.
#[global] Arguments encode_optional : simpl never.
#[global] Arguments RawObject_parse_nested : simpl never.
#[global] Arguments RawObject_parse_top : simpl never.
#[global] Arguments RawObject_expect : simpl never.
#[global] Arguments RawEnum_parse : simpl never.
#[global] Arguments RawEnum_expect : simpl never.
#[global] Arguments decode_list : simpl never.
#[global] Arguments decode_optional : simpl never.
#[global] Arguments exact : simpl never.
#[global] Arguments decode_u16 : simpl never.
#[global] Arguments decode_u32 : simpl never.
#[global] Arguments decode_u64 : simpl never.
#[global] Arguments decode_i64 : simpl never.
#[global] Arguments decode_bool : simpl never.
#[global] Arguments decode_simple_enum : simpl never.
