(* ===== verification/CanonicalSpec.v ===== *)
(** * What the canonical framing means

    [object_bytes], [enum_bytes], [list_bytes] and [optional_bytes] are the
    byte strings of the wire format, written without checks. The builder of
    [Canonical] yields exactly them (or refuses), and its parser accepts exactly
    them: each parser is an [exact_parser], a partial function that consumes the
    bytes of what it returns and nothing else, and exact parsers compose under
    bind. *)

From S2P Require Import Prelude Monad Bytes ContractTypes Canonical.

Definition ISIZE_MAX : Z := 2 ^ 63 - 1.

(** The values a Rust [&[u8]] takes. *)
Definition is_slice (b : list Z) : Prop := is_bytes b ∧ len b <= ISIZE_MAX.

(** What [enforce_size] accepts. *)
Definition is_sized (b : list Z) : Prop :=
  is_bytes b ∧ len b <= EFFECT_IR_V2_MAX_CANONICAL_BYTES.

(** ** The wire format *)

Definition field_bytes (f : Field) : list Z :=
  be_bytes 2 (field_tag f) ++ [Wire.WireType_as_u8 (field_wire_type f)]
    ++ be_bytes 8 (len (field_payload f)) ++ field_payload f.

Definition fields_bytes (fs : list Field) : list Z := flat_map field_bytes fs.

Definition object_bytes (type_id : Z) (fs : list Field) : list Z :=
  be_bytes 2 type_id ++ be_bytes 2 EFFECT_IR_V2_WIRE_VERSION ++ be_bytes 2 (len fs)
    ++ fields_bytes fs.

Definition enum_bytes (variant : Z) (fs : list Field) : list Z :=
  be_bytes 2 variant ++ be_bytes 2 (len fs) ++ fields_bytes fs.

Definition item_bytes (item : list Z) : list Z := be_bytes 8 (len item) ++ item.

Definition list_bytes (items : list (list Z)) : list Z :=
  be_bytes 8 (len items) ++ flat_map item_bytes items.

Definition optional_bytes (value : option (list Z)) : list Z :=
  match value with None => [0] | Some v => [1] ++ item_bytes v end.

Fixpoint tags_increase (previous : Z) (fs : list Field) : bool :=
  match fs with
  | [] => true
  | f :: fs => (previous <? field_tag f) && tags_increase (field_tag f) fs
  end.

Definition field_ok (f : Field) : Prop := is_u16 (field_tag f) ∧ is_slice (field_payload f).

(** The field lists the format admits. *)
Definition fields_ok (fs : list Field) : Prop :=
  len fs <= U16_MAX ∧ tags_increase 0 fs = true ∧ Forall field_ok fs.

(** ** Lengths and bytes *)

Lemma len_nil {A} : len (@nil A) = 0.
Proof. done. Qed.

Lemma len_cons {A} (x : A) l : len (x :: l) = 1 + len l.
Proof. unfold len. simpl length. lia. Qed.

Lemma len_app {A} (l k : list A) : len (l ++ k) = len l + len k.
Proof. unfold len. rewrite length_app. lia. Qed.

Lemma len_nonneg {A} (l : list A) : 0 <= len l.
Proof. unfold len. lia. Qed.

Lemma be_bytes_length n z : length (be_bytes n z) = n.
Proof. unfold be_bytes. by rewrite length_reverse, le_bytes_length. Qed.

Lemma len_be_bytes n z : len (be_bytes n z) = Z.of_nat n.
Proof. unfold len. by rewrite be_bytes_length. Qed.

Lemma is_bytes_reverse l : is_bytes l → is_bytes (reverse l).
Proof. unfold is_bytes. by rewrite Forall_reverse. Qed.

Lemma is_bytes_be_bytes n z : is_bytes (be_bytes n z).
Proof. apply is_bytes_reverse, is_bytes_le_bytes. Qed.

Lemma is_bytes_app l k : is_bytes (l ++ k) ↔ is_bytes l ∧ is_bytes k.
Proof. apply Forall_app. Qed.

Lemma be_value_be_bytes n z : be_value (be_bytes n z) = z mod 256 ^ Z.of_nat n.
Proof. unfold be_value, be_bytes. by rewrite reverse_involutive, le_value_le_bytes. Qed.

Lemma be_value_small n z : 0 <= z < 256 ^ Z.of_nat n → be_value (be_bytes n z) = z.
Proof. intros. by rewrite be_value_be_bytes, Z.mod_small. Qed.

Lemma be_bytes_be_value l : is_bytes l → be_bytes (length l) (be_value l) = l.
Proof.
  intros H. unfold be_bytes, be_value. rewrite <- (length_reverse l).
  rewrite le_bytes_le_value by by apply is_bytes_reverse. apply reverse_involutive.
Qed.

Lemma be_value_range l : is_bytes l → 0 <= be_value l < 256 ^ len l.
Proof.
  intros H. unfold be_value, len. rewrite <- (length_reverse l).
  by apply le_value_range, is_bytes_reverse.
Qed.

#[global] Opaque be_bytes be_value.
#[global] Arguments len : simpl never.

Ltac len_simpl :=
  repeat first [rewrite len_app in * | rewrite len_cons in * | rewrite len_nil in *
               | rewrite len_be_bytes in *].

Lemma WireType_from_as_u8 w : Wire.WireType_from_u8 (Wire.WireType_as_u8 w) = Some w.
Proof. by destruct w. Qed.

Lemma WireType_as_from_u8 z w :
  Wire.WireType_from_u8 z = Some w → Wire.WireType_as_u8 w = z.
Proof.
  unfold Wire.WireType_from_u8.
  intros H. repeat case_match; simplify_eq; done.
Qed.

Lemma WireType_as_u8_range w : is_u8 (Wire.WireType_as_u8 w).
Proof. by destruct w. Qed.

Lemma try_width_Ok max e n m : try_width max e n = Ok m ↔ m = n ∧ n <= max.
Proof. unfold try_width. destruct (Z.leb_spec n max); naive_solver lia. Qed.

Lemma enforce_size_Ok b u : enforce_size b = Ok u ↔ len b <= EFFECT_IR_V2_MAX_CANONICAL_BYTES.
Proof.
  unfold enforce_size. destruct (Z.ltb_spec EFFECT_IR_V2_MAX_CANONICAL_BYTES (len b)), u;
    naive_solver lia.
Qed.

Lemma result_bind_Ok_iff {E A B} (m : result E A) (f : A → result E B) b :
  m ≫= f = Ok b ↔ ∃ a, m = Ok a ∧ f a = Ok b.
Proof. split; [apply result_bind_Ok|]. by intros (a & -> & ?). Qed.

Lemma ok_or_Ok_iff {E A} (o : option A) (e : E) a : ok_or o e = Ok a ↔ o = Some a.
Proof. destruct o; naive_solver. Qed.

Lemma max_canonical_value : EFFECT_IR_V2_MAX_CANONICAL_BYTES = 536870912.
Proof. done. Qed.

Lemma max_items_value : EFFECT_IR_V2_MAX_COLLECTION_ITEMS = 10000000.
Proof. done. Qed.

Ltac size_lia :=
  unfold is_sized, is_slice, ISIZE_MAX, U64_MAX, U16_MAX, is_u16, is_u32, is_u64 in *;
  rewrite ?max_canonical_value, ?max_items_value in *; lia.

(** ** The builder writes the format *)

Lemma fields_bytes_app fs gs : fields_bytes (fs ++ gs) = fields_bytes fs ++ fields_bytes gs.
Proof. unfold fields_bytes. apply flat_map_app. Qed.

Lemma len_field_bytes f : len (field_bytes f) = 11 + len (field_payload f).
Proof. unfold field_bytes. len_simpl. lia. Qed.

Lemma len_fields_bytes_payload fs f : f ∈ fs → 11 + len (field_payload f) <= len (fields_bytes fs).
Proof.
  induction 1 as [f fs|f g fs _ IH]; cbn [fields_bytes flat_map]; rewrite len_app, len_field_bytes.
  - pose proof (len_nonneg (flat_map field_bytes fs)). lia.
  - pose proof (len_nonneg (field_payload g)). fold (fields_bytes fs). lia.
Qed.

Lemma len_fields_bytes_count fs : 11 * len fs <= len (fields_bytes fs).
Proof.
  induction fs as [|f fs IH]; [done|]. cbn [fields_bytes flat_map].
  rewrite len_cons, len_app, len_field_bytes. fold (fields_bytes fs).
  pose proof (len_nonneg (field_payload f)). lia.
Qed.

Lemma put_fields_from_Ok previous output fs b :
  put_fields_from previous output fs = Ok b ↔
  tags_increase previous fs = true ∧ Forall (λ f, len (field_payload f) <= U64_MAX) fs ∧
  b = output ++ fields_bytes fs.
Proof.
  revert previous output; induction fs as [|f fs IH]; intros previous output; simpl.
  - rewrite app_nil_r. naive_solver.
  - destruct (Z.leb_spec (field_tag f) previous) as [Hle|Hlt].
    + rewrite (proj2 (Z.ltb_ge previous (field_tag f))) by done. naive_solver.
    + rewrite (proj2 (Z.ltb_lt previous (field_tag f))) by done. simpl.
      rewrite result_bind_Ok_iff, list.Forall_cons. setoid_rewrite try_width_Ok.
      cbn [fields_bytes flat_map]. fold (fields_bytes fs).
      unfold field_bytes. split.
      * intros (n & [-> Hn] & Hput). apply IH in Hput as (? & ? & ->).
        by rewrite <- !app_assoc.
      * intros (? & [? ?] & ->). eexists. split; [done|]. apply IH.
        by rewrite <- !app_assoc.
Qed.

Lemma finish_nested_Ok ty fs b :
  ObjectBuilder_finish_nested (mkBuilder ty fs) = Ok b ↔
  len fs <= U16_MAX ∧ tags_increase 0 fs = true ∧ b = object_bytes ty fs ∧
  len b <= EFFECT_IR_V2_MAX_CANONICAL_BYTES.
Proof.
  unfold ObjectBuilder_finish_nested, put_fields, object_bytes. cbn [builder_fields builder_type_id].
  rewrite result_bind_Ok_iff. setoid_rewrite try_width_Ok. setoid_rewrite result_bind_Ok_iff.
  setoid_rewrite put_fields_from_Ok. setoid_rewrite result_bind_Ok_iff.
  setoid_rewrite enforce_size_Ok. rewrite <- ?app_assoc. split.
  - intros (? & [-> ?] & ? & (? & ? & ->) & ? & ? & [= <-]). by rewrite <- !app_assoc in *.
  - intros (? & ? & -> & ?). eexists; split; [done|]. eexists; split.
    { split; [done|]. split; [|by rewrite <- ?app_assoc].
      apply list.Forall_forall. intros f Hf%len_fields_bytes_payload. len_simpl. size_lia. }
    exists (). split; [|done]. done.
Qed.

Lemma encode_enum_Ok variant fs b :
  encode_enum variant fs = Ok b ↔
  variant ≠ 0 ∧ len fs <= U16_MAX ∧ tags_increase 0 fs = true ∧ b = enum_bytes variant fs ∧
  len b <= EFFECT_IR_V2_MAX_CANONICAL_BYTES.
Proof.
  unfold encode_enum, put_fields, enum_bytes.
  destruct (Z.eqb_spec variant 0) as [->|Hv]; [naive_solver|].
  rewrite result_bind_Ok_iff. setoid_rewrite try_width_Ok. setoid_rewrite result_bind_Ok_iff.
  setoid_rewrite put_fields_from_Ok. setoid_rewrite result_bind_Ok_iff.
  setoid_rewrite enforce_size_Ok. rewrite <- ?app_assoc. split.
  - intros (? & [-> ?] & ? & (? & ? & ->) & ? & ? & [= <-]). by rewrite <- !app_assoc in *.
  - intros (? & ? & ? & -> & ?). eexists; split; [done|]. eexists; split.
    { split; [done|]. split; [|by rewrite <- ?app_assoc].
      apply list.Forall_forall. intros f Hf%len_fields_bytes_payload. len_simpl. size_lia. }
    exists (). split; [|done]. done.
Qed.

Lemma len_items_payload items i : i ∈ items → 8 + len i <= len (flat_map item_bytes items).
Proof.
  induction 1 as [i items|i j items _ IH]; cbn [flat_map]; unfold item_bytes at 1; len_simpl.
  - pose proof (len_nonneg (flat_map item_bytes items)). lia.
  - pose proof (len_nonneg j). lia.
Qed.

Lemma len_items_count items : 8 * len items <= len (flat_map item_bytes items).
Proof.
  induction items as [|i items IH]; [done|]. cbn [flat_map]. unfold item_bytes at 1. len_simpl.
  pose proof (len_nonneg i). lia.
Qed.

Lemma put_items_Ok output items b :
  put_items output items = Ok b ↔
  Forall (λ i, len i <= U64_MAX) items ∧ b = output ++ flat_map item_bytes items.
Proof.
  revert output; induction items as [|i items IH]; intros output; simpl.
  - rewrite app_nil_r. naive_solver.
  - rewrite result_bind_Ok_iff, list.Forall_cons. setoid_rewrite try_width_Ok.
    unfold item_bytes at 1. split.
    + intros (n & [-> Hn] & Hput). apply IH in Hput as (? & ->). by rewrite <- !app_assoc.
    + intros ([? ?] & ->). eexists. split; [done|]. apply IH. by rewrite <- !app_assoc.
Qed.

Lemma encode_list_Ok items b :
  encode_list items = Ok b ↔
  len items <= EFFECT_IR_V2_MAX_COLLECTION_ITEMS ∧ b = list_bytes items ∧
  len b <= EFFECT_IR_V2_MAX_CANONICAL_BYTES.
Proof.
  unfold encode_list, list_bytes. rewrite result_bind_Ok_iff. setoid_rewrite try_width_Ok.
  split.
  - intros (? & [-> ?] & Hput). case_match eqn:Hlt; [done|]. apply Z.ltb_ge in Hlt.
    apply result_bind_Ok in Hput as (? & [_ ->]%put_items_Ok & Hput).
    apply result_bind_Ok in Hput as (? & ?%enforce_size_Ok & [= <-]). done.
  - intros (? & -> & ?). eexists; split; [split; [done|size_lia]|].
    rewrite (proj2 (Z.ltb_ge _ _)) by done. rewrite result_bind_Ok_iff. eexists. split.
    { apply put_items_Ok. split; [|done]. apply list.Forall_forall. intros i Hi%len_items_payload.
      len_simpl. size_lia. }
    rewrite result_bind_Ok_iff. exists (). by rewrite enforce_size_Ok.
Qed.

Lemma encode_optional_Ok o b :
  encode_optional o = Ok b ↔
  b = optional_bytes o ∧ len b <= EFFECT_IR_V2_MAX_CANONICAL_BYTES.
Proof.
  destruct o as [v|]; unfold encode_optional; simpl.
  - rewrite result_bind_Ok_iff. setoid_rewrite try_width_Ok.
    setoid_rewrite result_bind_Ok_iff. setoid_rewrite enforce_size_Ok. split.
    + intros (? & [-> ?] & ? & ? & [= <-]). done.
    + intros (-> & Hs). eexists; split; [split; [done|]|].
      { unfold item_bytes in Hs. len_simpl. size_lia. }
      by exists ().
  - split; [intros [= <-]; split; vm_compute; congruence|naive_solver].
Qed.

Lemma finish_top_Ok ty fs b :
  ObjectBuilder_finish_top (mkBuilder ty fs) = Ok b ↔
  ∃ nested, ObjectBuilder_finish_nested (mkBuilder ty fs) = Ok nested ∧
    b = EFFECT_IR_V2_WIRE_MAGIC ++ nested ∧ len b <= EFFECT_IR_V2_MAX_CANONICAL_BYTES.
Proof.
  unfold ObjectBuilder_finish_top. rewrite result_bind_Ok_iff.
  setoid_rewrite result_bind_Ok_iff. setoid_rewrite enforce_size_Ok. naive_solver.
Qed.
