(* ===== verification/CanonicalParse.v ===== *)
(** * The canonical parser accepts exactly the format

    [exact_parser m R]: on a valid cursor, [m] returns [a] iff some prefix of
    the unread bytes is related to [a] by [R], and it advances past exactly that
    prefix. The relation composes under bind, so the specification of each
    parsing function is read off its code. *)

From S2P Require Import Prelude Monad Bytes ContractTypes Canonical CanonicalSpec.

Definition cursor_rest (c : Cursor) : list Z := drop (Z.to_nat (cursor_offset c)) (cursor_bytes c).

Definition cursor_ok (c : Cursor) : Prop :=
  is_slice (cursor_bytes c) ∧ 0 <= cursor_offset c <= len (cursor_bytes c).

Definition advance (c : Cursor) (n : Z) : Cursor := mkCursor (cursor_bytes c) (cursor_offset c + n).

Definition exact_parser {A} (m : cursor_m A) (R : A → list Z → Prop) : Prop :=
  ∀ c, cursor_ok c → ∀ a c',
    m c = Ok (a, c') ↔
    ∃ used rest, R a used ∧ cursor_rest c = used ++ rest ∧ c' = advance c (len used).

Lemma is_bytes_rest c : cursor_ok c → is_bytes (cursor_rest c).
Proof. intros [[Hb _] _]. by apply Forall_drop. Qed.

Lemma len_rest c : cursor_ok c → len (cursor_rest c) = len (cursor_bytes c) - cursor_offset c.
Proof. intros [_ Ho]. unfold cursor_rest, len in *. rewrite length_drop. lia. Qed.

Lemma advance_ok c used rest :
  cursor_ok c → cursor_rest c = used ++ rest → cursor_ok (advance c (len used)).
Proof.
  intros Hc Hr. pose proof (len_rest c Hc) as Hl. rewrite Hr, len_app in Hl.
  destruct Hc as [Hs Ho]. split; [done|]. simpl.
  pose proof (len_nonneg used). pose proof (len_nonneg rest). lia.
Qed.

Lemma advance_rest c used rest :
  cursor_ok c → cursor_rest c = used ++ rest → cursor_rest (advance c (len used)) = rest.
Proof.
  intros [_ Ho] Hr. unfold cursor_rest, advance in *. simpl.
  rewrite Z2Nat.inj_add by (pose proof (len_nonneg used); lia).
  rewrite <- drop_drop, Hr. unfold len. rewrite Nat2Z.id. apply drop_app_length.
Qed.

Lemma exact_ret {A} (a : A) : exact_parser (mret a) (λ x used, x = a ∧ used = []).
Proof.
  intros c Hc x c'. split.
  - intros [= <- <-]. exists [], (cursor_rest c). split; [done|]. split; [done|].
    destruct c; unfold advance; simpl. by rewrite len_nil, Z.add_0_r.
  - intros (used & rest & [-> ->] & _ & ->). destruct c; unfold advance; simpl.
    by rewrite len_nil, Z.add_0_r.
Qed.

Lemma exact_lift {A} (r : contract A) :
  exact_parser (cursor_lift r) (λ x used, r = Ok x ∧ used = []).
Proof.
  intros c Hc x c'. pose proof (exact_ret x c Hc x c') as Hret. unfold cursor_lift.
  destruct r as [a|e].
  - pose proof (exact_ret a c Hc x c') as Ha. unfold mret, cursor_ret in Ha.
    rewrite Ha. naive_solver.
  - naive_solver.
Qed.

Lemma exact_bind {A B} (m : cursor_m A) (k : A → cursor_m B) R Q :
  exact_parser m R → (∀ a u, R a u → exact_parser (k a) (Q a)) →
  exact_parser (m ≫= k) (λ b used, ∃ a u v, R a u ∧ Q a b v ∧ used = u ++ v).
Proof.
  intros Hm Hk c Hc b c'. unfold mbind, cursor_bind. split.
  - destruct (m c) as [[a c1]|e] eqn:Hmc; [|done]. intros Hkc.
    apply Hm in Hmc as (u & rest & Hu & Hr & ->); [|done].
    apply (Hk _ _ Hu) in Hkc as (v & rest' & Hv & Hr' & ->); [|by eapply advance_ok].
    rewrite (advance_rest c u rest) in Hr' by done.
    exists (u ++ v), rest'. split; [by exists a, u, v|]. split; [by rewrite Hr, Hr', app_assoc|].
    unfold advance. simpl. by rewrite len_app, Z.add_assoc.
  - intros (used & rest & (a & u & v & Hu & Hv & ->) & Hr & ->).
    rewrite <- app_assoc in Hr.
    rewrite (proj2 (Hm c Hc a (advance c (len u)))) by eauto.
    apply (Hk _ _ Hu); [by eapply advance_ok|]. exists v, rest. split; [done|].
    split; [by eapply advance_rest|]. unfold advance. simpl. by rewrite len_app, Z.add_assoc.
Qed.

Lemma exact_mono {A} (m : cursor_m A) R R' :
  exact_parser m R → (∀ a used, R a used ↔ R' a used) → exact_parser m R'.
Proof. intros Hm HR c Hc a c'. rewrite (Hm c Hc). by setoid_rewrite HR. Qed.

(** On the bytes of a cursor the relation may use that they are bytes. *)
Lemma exact_mono_bytes {A} (m : cursor_m A) R R' :
  exact_parser m R →
  (∀ a used, is_slice used → R a used ↔ R' a used) →
  exact_parser m R'.
Proof.
  intros Hm HR c Hc a c'. rewrite (Hm c Hc).
  assert (∀ used rest, cursor_rest c = used ++ rest → is_slice used) as Hs.
  { intros used rest Hr. pose proof (is_bytes_rest c Hc) as Hb. rewrite Hr, is_bytes_app in Hb.
    pose proof (len_rest c Hc) as Hl. rewrite Hr, len_app in Hl.
    pose proof (len_nonneg rest). destruct Hc as [[_ ?] ?]. split; [naive_solver|lia]. }
  split; intros (used & rest & Hu & Hr & ->); exists used, rest;
    (split; [apply HR; [by eapply Hs|done]|done]).
Qed.

Lemma exact_if {A} (b : bool) (m n : cursor_m A) R Q :
  exact_parser m R → exact_parser n Q →
  exact_parser (if b then m else n) (λ a used, if b then R a used else Q a used).
Proof. by destruct b. Qed.

(** ** The cursor's methods *)

Lemma exact_take n :
  0 <= n <= U64_MAX → exact_parser (Cursor_take n) (λ v used, used = v ∧ len v = n).
Proof.
  intros Hn c Hc v c'. unfold Cursor_take. pose proof (len_rest c Hc) as Hl.
  destruct Hc as [[Hb Hs] Ho]. split.
  - destruct (u64_checked_add _ _) as [e|] eqn:He; [|done].
    apply u64_checked_add_Some in He as [-> _].
    destruct (Z.leb_spec (cursor_offset c + n) (len (cursor_bytes c))) as [Hle|]; [|done].
    intros [= <- <-]. fold (cursor_rest c).
    assert (len (take (Z.to_nat n) (cursor_rest c)) = n) as Hlen.
    { unfold len in *. rewrite length_take. lia. }
    eexists _, (drop (Z.to_nat n) (cursor_rest c)). split; [by split|].
    split; [by rewrite take_drop|]. by rewrite Hlen.
  - intros (used & rest & [-> Hv] & Hr & ->).
    rewrite Hr, len_app in Hl. pose proof (len_nonneg rest).
    rewrite (proj2 (u64_checked_add_Some _ _ (cursor_offset c + n))) by size_lia.
    rewrite (proj2 (Z.leb_le _ _)) by lia. fold (cursor_rest c). rewrite Hr.
    unfold advance. rewrite Hv. repeat f_equal.
    rewrite <- Hv. unfold len. rewrite Nat2Z.id. apply take_app_length.
Qed.

Lemma exact_u8 : exact_parser Cursor_u8 (λ a used, used = [a] ∧ is_u8 a).
Proof.
  eapply exact_mono_bytes; [apply exact_bind; [by apply exact_take|intros v u _; apply exact_ret]|].
  intros a used [Hb _]. split.
  - intros (v & u & w & [-> Hl] & [-> ->] & ->). rewrite app_nil_r in *.
    destruct v as [|z [|? ?]]; unfold len in Hl; simpl in Hl; try lia.
    inversion_clear Hb. done.
  - intros [-> _]. by exists [a], [a], [].
Qed.

Lemma exact_Ok n b a : exact n b = Ok a ↔ a = b ∧ length b = n.
Proof. unfold exact. destruct (Nat.eqb_spec (length b) n); naive_solver. Qed.

Lemma exact_be n :
  (n ≤ 8)%nat →
  exact_parser (bytes ← Cursor_take (Z.of_nat n);
                array ← cursor_lift (exact n bytes); mret (be_value array))
    (λ a used, used = be_bytes n a ∧ 0 <= a < 256 ^ Z.of_nat n).
Proof.
  intros Hn. eapply exact_mono_bytes.
  { apply exact_bind; [apply exact_take; size_lia|]. intros v u _.
    apply exact_bind; [apply exact_lift|]. intros w u' _. apply exact_ret. }
  intros a used [Hb _]. split.
  - intros (v & u & w & [-> Hl] & (x & ? & ? & [Hx ->] & [-> ->] & ->) & ->).
    apply exact_Ok in Hx as [-> Hx]. simpl in *. rewrite app_nil_r in *.
    rewrite <- Hx. rewrite be_bytes_be_value by done. split; [done|].
    by apply be_value_range.
  - intros [-> Ha]. exists (be_bytes n a), (be_bytes n a), [].
    split; [by rewrite len_be_bytes|]. split; [|by rewrite app_nil_r].
    exists (be_bytes n a), [], []. rewrite exact_Ok, be_bytes_length. split; [done|].
    by rewrite be_value_small.
Qed.

Lemma exact_u16 : exact_parser Cursor_u16 (λ a used, used = be_bytes 2 a ∧ is_u16 a).
Proof. apply (exact_be 2). lia. Qed.

Lemma exact_u64 : exact_parser Cursor_u64 (λ a used, used = be_bytes 8 a ∧ is_u64 a).
Proof. apply (exact_be 8). lia. Qed.

(** A length prefix and the bytes it counts, the frame of every payload. *)
Definition take_prefixed : cursor_m (list Z) :=
  length ← Cursor_u64;
  length ← cursor_lift (try_width U64_MAX CanonicalDecoding length);
  Cursor_take length.

Lemma exact_prefixed :
  exact_parser take_prefixed (λ v used, used = item_bytes v ∧ len v <= U64_MAX).
Proof.
  eapply exact_mono.
  { apply exact_bind; [apply exact_u64|]. intros n u [_ Hn].
    apply exact_bind; [apply exact_lift|]. intros k u' Hk.
    apply exact_take. destruct Hk as [[-> ?]%try_width_Ok _]. size_lia. }
  intros v used. unfold item_bytes. split.
  - intros (n & ? & ? & [-> Hn] & (k & ? & ? & [[-> ?]%try_width_Ok ->] & [-> <-] & ->) & ->).
    done.
  - intros [-> Hv]. pose proof (len_nonneg v).
    exists (len v), (be_bytes 8 (len v)), v. split; [split; [done|size_lia]|]. split; [|done].
    exists (len v), [], v. by rewrite try_width_Ok.
Qed.

(** ** Fields *)

Lemma fields_bytes_cons f fs : fields_bytes (f :: fs) = field_bytes f ++ fields_bytes fs.
Proof. done. Qed.

Lemma exact_fields count previous acc :
  0 <= previous →
  exact_parser (parse_fields count previous acc)
    (λ fs used, ∃ gs, fs = acc ++ gs ∧ length gs = count ∧ used = fields_bytes gs ∧
       tags_increase previous gs = true ∧
       Forall (λ f, is_u16 (field_tag f) ∧ len (field_payload f) <= U64_MAX) gs).
Proof.
  revert previous acc; induction count as [|count IH]; intros previous acc Hp; cbn [parse_fields].
  { eapply exact_mono; [apply exact_ret|]. intros fs used. split.
    - intros [-> ->]. exists []. by rewrite app_nil_r.
    - intros (gs & -> & Hgs & -> & _). apply nil_length_inv in Hgs as ->. by rewrite app_nil_r. }
  eapply exact_mono.
  { apply exact_bind; [apply exact_u16|]. intros tag ? [_ Htag].
    apply exact_bind; [apply exact_u8|]. intros code ? _.
    apply exact_bind; [apply exact_lift|]. intros w ? _.
    apply exact_bind; [apply exact_u64|]. intros n ? [_ Hn].
    apply exact_bind; [apply exact_lift|]. intros k ? Hk.
    apply exact_if; [apply (exact_lift (Err CanonicalDecoding))|].
    apply exact_bind; [apply exact_take; destruct Hk as [[-> ?]%try_width_Ok _]; size_lia|].
    intros payload ? _.
    apply IH. destruct Htag; lia. }
  intros fs used. split.
  - intros (tag & ? & ? & [-> Htag] & (code & ? & ? & [-> _] & (w & ? & ? & [Hw ->] &
      (n & ? & ? & [-> Hn] & (k & ? & ? & [[-> ?]%try_width_Ok ->] & Hrest & ->) & ->) & ->) & ->) & ->).
    apply ok_or_Ok, WireType_as_from_u8 in Hw as <-.
    destruct ((tag =? 0) || (tag <=? previous)) eqn:Ht; [naive_solver|].
    destruct Hrest as (payload & ? & ? & [-> Hlen] & (gs & -> & <- & -> & Hinc & Hall) & ->).
    bool_to_prop. exists (mkField tag w payload :: gs). rewrite <- app_assoc. simpl.
    rewrite (proj2 (Z.ltb_lt _ _)) by done. split; [done|]. split; [done|].
    split; [by subst n|]. split; [done|]. constructor; [|done]. simpl. split; [done|lia].
  - intros (gs & -> & Hlen & -> & Hinc & Hall). destruct gs as [|[tag w payload] gs]; [done|].
    inversion_clear Hall as [|? ? [Htag Hpl] Hall']. simpl in *. apply andb_true_iff in Hinc as [Hlt Hinc].
    apply Z.ltb_lt in Hlt. pose proof (len_nonneg payload). unfold is_u16 in Htag.
    set (rest := be_bytes 8 (len payload) ++ payload ++ fields_bytes gs).
    exists tag, (be_bytes 2 tag), (Wire.WireType_as_u8 w :: rest). split; [by split|].
    split; [|done].
    exists (Wire.WireType_as_u8 w), [Wire.WireType_as_u8 w], rest.
    split; [split; [done|apply WireType_as_u8_range]|]. split; [|done].
    exists w, [], rest. rewrite WireType_from_as_u8. split; [done|]. split; [|done].
    exists (len payload), (be_bytes 8 (len payload)), (payload ++ fields_bytes gs).
    split; [split; [done|size_lia]|]. split; [|done].
    exists (len payload), [], (payload ++ fields_bytes gs). rewrite try_width_Ok.
    split; [done|]. split; [|done].
    rewrite (proj2 (Z.eqb_neq _ _)), (proj2 (Z.leb_gt _ _)) by lia. simpl.
    exists payload, payload, (fields_bytes gs). split; [done|]. split; [|done].
    exists gs. rewrite <- app_assoc. simpl. split; [done|]. split; [lia|done].
Qed.

Lemma exact_items count acc :
  exact_parser (parse_items count acc)
    (λ vs used, ∃ gs, vs = acc ++ gs ∧ length gs = count ∧ used = flat_map item_bytes gs ∧
       Forall (λ v, len v <= U64_MAX) gs).
Proof.
  revert acc; induction count as [|count IH]; intros acc; cbn [parse_items].
  { eapply exact_mono; [apply exact_ret|]. intros vs used. split.
    - intros [-> ->]. exists []. by rewrite app_nil_r.
    - intros (gs & -> & Hgs & -> & _). apply nil_length_inv in Hgs as ->. by rewrite app_nil_r. }
  eapply exact_mono.
  { apply exact_bind; [apply exact_u64|]. intros n ? [_ Hn].
    apply exact_bind; [apply exact_lift|]. intros k ? Hk.
    apply exact_bind; [apply exact_take; destruct Hk as [[-> ?]%try_width_Ok _]; size_lia|].
    intros payload ? _. apply IH. }
  intros vs used. split.
  - intros (n & ? & ? & [-> Hn] & (k & ? & ? & [[-> ?]%try_width_Ok ->] &
      (v & ? & ? & [-> Hv] & (gs & -> & <- & -> & Hall) & ->) & ->) & ->).
    exists (v :: gs). rewrite <- app_assoc. cbn [flat_map]. unfold item_bytes at 2.
    rewrite <- app_assoc, Hv. split; [done|]. split; [done|]. split; [done|].
    constructor; [lia|done].
  - intros (gs & -> & Hlen & -> & Hall). destruct gs as [|v gs]; [done|].
    inversion_clear Hall. pose proof (len_nonneg v).
    exists (len v), (be_bytes 8 (len v)), (v ++ flat_map item_bytes gs).
    split; [split; [done|size_lia]|].
    split; [|cbn [flat_map]; unfold item_bytes at 1; by rewrite <- app_assoc].
    exists (len v), [], (v ++ flat_map item_bytes gs). rewrite try_width_Ok.
    split; [done|]. split; [|done].
    exists v, v, (flat_map item_bytes gs). split; [done|]. split; [|done].
    exists gs. rewrite <- app_assoc. split; [done|]. split; [|done]. simpl in Hlen. lia.
Qed.

(** ** Parses that must consume their whole input *)

Definition exact_whole {A} (m : cursor_m A) (R : A → list Z → Prop) : Prop :=
  ∀ c, cursor_ok c → ∀ a,
    (∃ c', m c = Ok (a, c')) ↔ R a (cursor_rest c).

Lemma whole_bind {A B} (m : cursor_m A) (k : A → cursor_m B) R Q :
  exact_parser m R → (∀ a u, R a u → exact_whole (k a) (Q a)) →
  exact_whole (m ≫= k) (λ b used, ∃ a u v, R a u ∧ Q a b v ∧ used = u ++ v).
Proof.
  intros Hm Hk c Hc b. unfold mbind, cursor_bind. split.
  - intros [c' Hkc]. destruct (m c) as [[a c1]|e] eqn:Hmc; [|done].
    apply Hm in Hmc as (u & rest & Hu & Hr & ->); [|done].
    assert (R a u ∧ Q a b rest) by (split; [done|]; rewrite <- (advance_rest c u rest) by done;
      apply (Hk _ _ Hu); [by eapply advance_ok|eauto]).
    exists a, u, rest. naive_solver.
  - intros (a & u & v & Hu & Hv & Hr).
    rewrite (proj2 (Hm c Hc a (advance c (len u)))) by eauto.
    apply (Hk _ _ Hu); [by eapply advance_ok|]. by erewrite advance_rest.
Qed.

Lemma whole_finish {A} (x : A) :
  exact_whole (_ ← Cursor_finish; mret x) (λ a used, a = x ∧ used = []).
Proof.
  intros c Hc a. unfold mbind, cursor_bind, Cursor_finish, mret, cursor_ret.
  pose proof (len_rest c Hc) as Hl.
  assert (cursor_rest c = [] ↔ len (cursor_rest c) = 0) as Hnil.
  { split; [by intros ->|]. unfold len. intros H. apply nil_length_inv. lia. }
  destruct (Z.eqb_spec (cursor_offset c) (len (cursor_bytes c))) as [He|He].
  - split; [intros [? [= <- _]]|intros [-> _]; eauto]. split; [done|]. apply Hnil. lia.
  - split; [by intros [? ?]|]. intros [_ H%Hnil]. lia.
Qed.

Lemma whole_if {A} (b : bool) (m n : cursor_m A) R Q :
  exact_whole m R → (b = false → exact_whole n Q) →
  exact_whole (if b then m else n) (λ a used, if b then R a used else Q a used).
Proof. destruct b; auto. Qed.

Lemma whole_mono {A} (m : cursor_m A) R R' :
  exact_whole m R → (∀ a used, R a used ↔ R' a used) → exact_whole m R'.
Proof. intros Hm HR c Hc a. by rewrite (Hm c Hc), HR. Qed.

Lemma whole_err {A} e : exact_whole (cursor_lift (A:=A) (Err e)) (λ _ _, False).
Proof. intros c _ a. unfold cursor_lift. naive_solver. Qed.

(** The framing guard refuses only inputs the loop after it refuses too. *)
Lemma whole_guard {A} count per (m : cursor_m A) R :
  0 <= count * per <= U64_MAX →
  exact_whole m R → (∀ a used, R a used → count * per <= len used) →
  exact_whole (remaining ← Cursor_remaining;
               _ ← cursor_lift (require_minimum_framing count per remaining); m) R.
Proof.
  intros Hb Hm HR c Hc a. rewrite <- (Hm c Hc).
  unfold mbind, cursor_bind, Cursor_remaining, cursor_lift, require_minimum_framing, u64_checked_mul.
  rewrite (proj2 (Z.leb_le _ _)) by lia. rewrite <- len_rest by done.
  destruct (Z.ltb_spec (len (cursor_rest c)) (count * per)) as [Hlt|]; [|done].
  split; [by intros [? ?]|]. intros Hma%Hm; [|done]. apply HR in Hma. lia.
Qed.

Lemma run_cursor_Ok {A} (m : cursor_m A) R b a :
  is_slice b → exact_whole m R → run_cursor m b = Ok a ↔ R a b.
Proof.
  intros Hb Hm. unfold run_cursor.
  assert (cursor_ok (Cursor_new b)) as Hc.
  { split; [done|]. simpl. pose proof (len_nonneg b). lia. }
  pose proof (Hm _ Hc a) as H. unfold cursor_rest in H. simpl in H. rewrite drop_0 in H.
  rewrite <- H. destruct (m (Cursor_new b)) as [[a' c']|]; naive_solver.
Qed.

Lemma is_slice_app l k : is_slice (l ++ k) → is_slice l ∧ is_slice k.
Proof.
  intros [Hb Hl]. apply is_bytes_app in Hb as [? ?]. rewrite len_app in Hl.
  pose proof (len_nonneg l). pose proof (len_nonneg k). split; split; done || lia.
Qed.

Lemma fields_ok_intro fs :
  len fs <= U16_MAX → tags_increase 0 fs = true → Forall (λ f, is_u16 (field_tag f)) fs →
  is_slice (fields_bytes fs) → fields_ok fs.
Proof.
  intros Hl Ht Hu Hs. split; [done|]. split; [done|]. clear Hl Ht.
  induction Hu as [|f fs Hf _ IH]; [done|]. rewrite fields_bytes_cons in Hs.
  apply is_slice_app in Hs as [Hs1 Hs2]. constructor; [|by apply IH]. split; [done|].
  unfold field_bytes in Hs1. by repeat apply is_slice_app in Hs1 as [_ Hs1].
Qed.

Lemma fields_ok_weak fs :
  fields_ok fs →
  Forall (λ f, is_u16 (field_tag f) ∧ len (field_payload f) <= U64_MAX) fs.
Proof.
  intros (_ & _ & Hf). eapply list.Forall_impl; [done|]. intros f [? [? ?]].
  split; [done|size_lia].
Qed.

Lemma of_nat_count {A} (gs : list A) n :
  0 <= n → length gs = Z.to_nat n ↔ len gs = n.
Proof. unfold len. lia. Qed.

(** What the field loop of an object or an enumeration reads after its header. *)
Lemma whole_counted_fields {A} (f : list RawField → A) :
  exact_whole
    (count ← Cursor_u16;
     remaining ← Cursor_remaining;
     _ ← cursor_lift (require_minimum_framing count FIELD_HEADER_BYTES remaining);
     fields ← parse_fields (Z.to_nat count) 0 [];
     _ ← Cursor_finish;
     mret (f fields))
    (λ a used, ∃ fs, a = f fs ∧ used = be_bytes 2 (len fs) ++ fields_bytes fs ∧
       len fs <= U16_MAX ∧ tags_increase 0 fs = true ∧
       Forall (λ g, is_u16 (field_tag g) ∧ len (field_payload g) <= U64_MAX) fs).
Proof.
  eapply whole_mono.
  { apply whole_bind; [apply exact_u16|]. intros count ? [_ Hn].
    apply whole_guard; [unfold FIELD_HEADER_BYTES; size_lia| |].
    - apply whole_bind; [by apply exact_fields|]. intros fields ? _. apply whole_finish.
    - intros y used (fields & ? & ? & (gs & _ & Hgs & -> & _) & [_ ->] & ->).
      apply of_nat_count in Hgs; [|by destruct Hn]. rewrite app_nil_r.
      pose proof (len_fields_bytes_count gs). unfold FIELD_HEADER_BYTES. size_lia. }
  intros a used. split.
  - intros (n & ? & ? & [-> Hn] & (fields & ? & ? &
      (gs & -> & Hgs & -> & Hinc & Hall) & [-> ->] & ->) & ->).
    apply of_nat_count in Hgs; [|by destruct Hn]. subst n. rewrite app_nil_r.
    exists gs. split; [done|]. split; [done|]. split; [size_lia|done].
  - intros (fs & -> & -> & Hl & Hinc & Hall). pose proof (len_nonneg fs).
    exists (len fs), (be_bytes 2 (len fs)), (fields_bytes fs).
    split; [split; [done|size_lia]|]. split; [|done].
    exists fs, (fields_bytes fs), []. rewrite app_nil_r. split; [|done].
    exists fs. rewrite of_nat_count by done. done.
Qed.

Lemma fields_ok_iff fs :
  is_slice (fields_bytes fs) →
  fields_ok fs ↔ len fs <= U16_MAX ∧ tags_increase 0 fs = true ∧
    Forall (λ g, is_u16 (field_tag g) ∧ len (field_payload g) <= U64_MAX) fs.
Proof.
  intros Hs. split.
  - intros Hok. pose proof (fields_ok_weak _ Hok). destruct Hok as (? & ? & ?). done.
  - intros (? & ? & Hall). apply fields_ok_intro; [done..| |done].
    eapply list.Forall_impl; [done|]. naive_solver.
Qed.

Lemma parse_nested_Ok b ty fs :
  is_slice b →
  RawObject_parse_nested b = Ok (mkRawObject ty fs) ↔
  is_u16 ty ∧ fields_ok fs ∧ b = object_bytes ty fs.
Proof.
  intros Hb. unfold RawObject_parse_nested. rewrite run_cursor_Ok; [|done|].
  2: { apply whole_bind; [apply exact_u16|]. intros type_id ? _.
    apply whole_bind; [apply exact_u16|]. intros version ? _.
    apply whole_if; [apply whole_err|]. intros _. apply whole_counted_fields. }
  unfold object_bytes. split.
  - intros (t & ? & ? & [-> Ht] & (v & ? & ? & [-> _] & Hrest & ->) & ->).
    destruct (Z.eqb_spec v EFFECT_IR_V2_WIRE_VERSION) as [->|]; [|done]. simpl in Hrest.
    destruct Hrest as (gs & [= <- <-] & -> & Hw).
    split; [done|]. split; [|done]. repeat apply is_slice_app in Hb as [_ Hb].
    by apply fields_ok_iff.
  - intros (Ht & Hok & ->). exists ty, (be_bytes 2 ty). eexists. split; [done|]. split; [|done].
    exists EFFECT_IR_V2_WIRE_VERSION, (be_bytes 2 EFFECT_IR_V2_WIRE_VERSION). eexists.
    split; [done|]. split; [|done]. simpl. repeat apply is_slice_app in Hb as [_ Hb].
    apply fields_ok_iff in Hok; [|done]. by exists fs.
Qed.

Lemma parse_enum_Ok b variant fs :
  is_slice b →
  RawEnum_parse b = Ok (mkRawEnum variant fs) ↔
  is_u16 variant ∧ variant ≠ 0 ∧ fields_ok fs ∧ b = enum_bytes variant fs.
Proof.
  intros Hb. unfold RawEnum_parse. rewrite run_cursor_Ok; [|done|].
  2: { apply whole_bind; [apply exact_u16|]. intros v ? _.
    apply whole_if; [apply whole_err|]. intros _. apply whole_counted_fields. }
  unfold enum_bytes. split.
  - intros (v & ? & ? & [-> Hv] & Hrest & ->).
    destruct (Z.eqb_spec v 0) as [->|]; [done|].
    destruct Hrest as (gs & [= <- <-] & -> & Hw).
    split; [done|]. split; [done|]. split; [|done]. repeat apply is_slice_app in Hb as [_ Hb].
    by apply fields_ok_iff.
  - intros (Ht & Hne & Hok & ->). exists variant, (be_bytes 2 variant). eexists. split; [done|].
    split; [|done]. rewrite (proj2 (Z.eqb_neq _ _)) by done.
    repeat apply is_slice_app in Hb as [_ Hb]. apply fields_ok_iff in Hok; [|done]. by exists fs.
Qed.

Lemma decode_list_Ok b items :
  is_slice b →
  decode_list b = Ok items ↔
  len items <= EFFECT_IR_V2_MAX_COLLECTION_ITEMS ∧ b = list_bytes items.
Proof.
  intros Hb. unfold decode_list. rewrite run_cursor_Ok; [|done|].
  2: { apply whole_bind; [apply exact_u64|]. intros n ? [_ Hn].
    apply whole_if; [apply whole_err|]. intros Hmax%Z.ltb_ge.
    apply whole_bind; [apply exact_lift|]. intros k ? Hk.
    apply whole_guard.
    - destruct Hk as [[-> ?]%try_width_Ok _]. unfold LIST_ITEM_HEADER_BYTES. size_lia.
    - apply whole_bind; [apply exact_items|]. intros vs ? _. apply whole_finish.
    - destruct Hk as [[-> ?]%try_width_Ok _].
      intros a used (vs & ? & ? & (gs & _ & Hgs & -> & _) & [_ ->] & ->).
      apply of_nat_count in Hgs; [|by destruct Hn]. rewrite app_nil_r.
      pose proof (len_items_count gs). unfold LIST_ITEM_HEADER_BYTES. lia. }
  unfold list_bytes. split.
  - intros (n & ? & ? & [-> Hn] & Hrest & ->).
    destruct (Z.ltb_spec EFFECT_IR_V2_MAX_COLLECTION_ITEMS n) as [|Hmax]; [done|].
    destruct Hrest as (k & ? & ? & [[-> ?]%try_width_Ok ->] & (vs & ? & ? &
      (gs & -> & Hgs & -> & Hall) & [-> ->] & ->) & ->).
    apply of_nat_count in Hgs; [|by destruct Hn]. subst n. by rewrite app_nil_r.
  - intros (Hl & ->). pose proof (len_nonneg items).
    exists (len items), (be_bytes 8 (len items)), (flat_map item_bytes items).
    split; [split; [done|size_lia]|]. split; [|done].
    rewrite (proj2 (Z.ltb_ge _ _)) by done.
    exists (len items), [], (flat_map item_bytes items). rewrite try_width_Ok.
    split; [split; [size_lia|done]|]. split; [|done].
    exists items, (flat_map item_bytes items), []. rewrite app_nil_r. split; [|done].
    exists items. rewrite of_nat_count by done. split; [done|]. split; [done|]. split; [done|].
    apply is_slice_app in Hb as [_ Hb]. apply list.Forall_forall.
    intros i Hi%len_items_payload. size_lia.
Qed.

Lemma decode_optional_Ok b o :
  is_slice b → decode_optional b = Ok o ↔ b = optional_bytes o.
Proof.
  intros Hb. unfold decode_optional. rewrite run_cursor_Ok; [|done|].
  2: { apply whole_bind; [apply exact_u8|]. intros p ? _.
    apply whole_if; [apply whole_finish|]. intros _.
    apply whole_if; [|intros _; apply whole_err].
    apply whole_bind; [apply exact_u64|]. intros n ? [_ Hn].
    apply whole_bind; [apply exact_lift|]. intros k ? Hk.
    apply whole_bind; [apply exact_take; destruct Hk as [[-> ?]%try_width_Ok _]; size_lia|].
    intros v ? _. apply whole_finish. }
  split.
  - intros (p & ? & ? & [-> Hp] & Hrest & ->).
    destruct (Z.eqb_spec p 0) as [->|_]; [by destruct Hrest as [-> ->]|].
    destruct (Z.eqb_spec p 1) as [->|_]; [|done].
    destruct Hrest as (n & ? & ? & [-> Hn] & (k & ? & ? & [[-> ?]%try_width_Ok ->] &
      (v & ? & ? & [-> Hv] & [-> ->] & ->) & ->) & ->).
    rewrite app_nil_r. simpl. unfold item_bytes. by rewrite Hv.
  - intros ->. destruct o as [v|]; simpl in *; [|by exists 0, [0], []].
    pose proof (len_nonneg v). unfold item_bytes in *.
    exists 1, [1], (be_bytes 8 (len v) ++ v). split; [done|]. split; [|done]. simpl.
    exists (len v), (be_bytes 8 (len v)), v. change (1 :: ?l) with ([1] ++ l) in Hb.
    do 2 apply is_slice_app in Hb as [_ Hb].
    split; [split; [done|size_lia]|]. split; [|done].
    exists (len v), [], v. rewrite try_width_Ok. split; [split; [split; [done|size_lia]|done]|].
    split; [|done]. exists v, v, []. by rewrite app_nil_r.
Qed.
