(* ===== verification/CanonicalCodec.v ===== *)
(** * Codecs and their laws

    [Codec wf enc dec]: on the values [wf] of a type, [enc] and [dec] are
    inverse partial functions. [codec_complete]: what was encoded decodes to the
    same value; [codec_sound]: what decodes is the encoding of its value, so a
    value has one accepted byte string. The laws of a structure follow from
    those of its fields through [parse_built] and [parse_expected], which relate
    a finished builder to the parsed object with the same fields. *)

From S2P Require Import Prelude Monad Bytes ContractTypes Canonical CanonicalSpec CanonicalParse.

Class Codec {A} (wf : A → Prop) (enc : A → contract (list Z)) (dec : list Z → contract A) :
    Prop := {
  codec_bytes a b : wf a → enc a = Ok b → is_bytes b;
  codec_complete a b :
    wf a → enc a = Ok b → len b <= EFFECT_IR_V2_MAX_CANONICAL_BYTES → dec b = Ok a;
  codec_sound b a : is_sized b → dec b = Ok a → wf a ∧ enc a = Ok b;
}.

(** The laws as one equivalence between values and accepted byte strings. *)
Lemma codec_exact {A} (wf : A → Prop) enc dec `{!Codec wf enc dec} a b :
  wf a → is_sized b → enc a = Ok b ↔ dec b = Ok a.
Proof.
  intros Ha Hb. split.
  - intros H. by eapply codec_complete; [..|destruct Hb].
  - intros H. by apply codec_sound in H as [_ ?].
Qed.

Lemma sized_slice b : is_sized b → is_slice b.
Proof. intros [? ?]. split; [done|size_lia]. Qed.

Definition option_wf {A} (P : A → Prop) (o : option A) : Prop :=
  match o with Some a => P a | None => True end.

Lemma option_wf_intro {A} (P : A → Prop) o : (∀ a, o = Some a → P a) → option_wf P o.
Proof. destruct o; cbn; auto. Qed.

(** ** Scalars *)

Section be_codec.
Context (n : nat).

Lemma be_exact_complete z :
  0 <= z < 256 ^ Z.of_nat n → be_value <$> exact n (be_bytes n z) = Ok z.
Proof.
  intros Hz. rewrite (proj2 (exact_Ok n _ (be_bytes n z))) by (by rewrite be_bytes_length).
  cbn. by rewrite be_value_small.
Qed.

Lemma be_exact_sound b z :
  is_bytes b → be_value <$> exact n b = Ok z → 0 <= z < 256 ^ Z.of_nat n ∧ b = be_bytes n z.
Proof.
  intros Hb. unfold exact. destruct (Nat.eqb_spec (length b) n) as [<-|]; [|done].
  intros [= <-]. split; [by apply be_value_range|]. by rewrite be_bytes_be_value.
Qed.

Lemma be_codec :
  Codec (λ z, 0 <= z < 256 ^ Z.of_nat n) (λ z, Ok (be_bytes n z)) (λ b, be_value <$> exact n b).
Proof.
  split.
  - intros z b _ [= <-]. apply is_bytes_be_bytes.
  - intros z b Hz [= <-] _. by apply be_exact_complete.
  - intros b z [Hb _] [? ->]%be_exact_sound; done.
Qed.
End be_codec.

#[global] Instance u16_codec : Codec is_u16 (λ z, Ok (be_bytes 2 z)) decode_u16 := be_codec 2.
#[global] Instance u32_codec : Codec is_u32 (λ z, Ok (be_bytes 4 z)) decode_u32 := be_codec 4.
#[global] Instance u64_codec : Codec is_u64 (λ z, Ok (be_bytes 8 z)) decode_u64 := be_codec 8.

Lemma be_value_i64 z : is_i64 z → as_i64 (be_value (be_bytes 8 z)) = z.
Proof.
  intros Hz. rewrite be_value_be_bytes. change (256 ^ Z.of_nat 8) with (2 ^ 64).
  unfold as_i64, is_i64 in *. zdiv_lia.
Qed.

Lemma i64_codec : Codec is_i64 (λ z, Ok (be_bytes 8 z)) decode_i64.
Proof.
  split.
  - intros z b _ [= <-]. apply is_bytes_be_bytes.
  - intros z b Hz [= <-] _. unfold decode_i64.
    rewrite (proj2 (exact_Ok 8 _ (be_bytes 8 z))) by (by rewrite be_bytes_length).
    cbn. by rewrite be_value_i64.
  - intros b z [Hb _]. unfold decode_i64, exact.
    destruct (Nat.eqb_spec (length b) 8) as [Hl|]; [|done]. intros [= <-].
    pose proof (be_value_range b Hb) as Hr. unfold len in Hr. rewrite Hl in Hr.
    change (256 ^ Z.of_nat 8) with (2 ^ 64) in Hr. split.
    { unfold as_i64, is_i64. zdiv_lia. }
    f_equal. rewrite <- (be_bytes_be_value b Hb) at 2. rewrite Hl.
    apply (inj reverse). rewrite <- (be_bytes_be_value (be_bytes 8 (as_i64 (be_value b)))).
    2: apply is_bytes_be_bytes.
    rewrite be_bytes_length, be_value_be_bytes. do 2 f_equal.
    change (256 ^ Z.of_nat 8) with (2 ^ 64). unfold as_i64. zdiv_lia.
Qed.

(** A fixed-size array of bytes, and a byte vector of any length. *)
Lemma array_codec n : Codec (λ d, is_bytes d ∧ length d = n) Ok (exact n).
Proof.
  split.
  - by intros d b [? _] [= <-].
  - intros d b [? ?] [= <-] _. by apply exact_Ok.
  - intros b d [? _] [-> ?]%exact_Ok. done.
Qed.

#[global] Instance bytes_codec : Codec is_bytes Ok Ok.
Proof. split; [naive_solver..|]. intros b a [? _] [= <-]. done. Qed.

#[global] Instance bool_codec : Codec (λ _ : bool, True) (λ v, Ok [Z.b2z v]) decode_bool.
Proof.
  split.
  - intros [|] b _ [= <-]; by repeat constructor.
  - by intros [|] b _ [= <-] _.
  - intros b v [Hb _]. unfold decode_bool. intros (l & [-> Hl]%exact_Ok & H)%result_bind_Ok.
    destruct b as [|z [|? ?]]; try done. repeat case_match; simplify_eq; done.
Qed.

(** ** Lists and options *)

Lemma try_map_Forall2 {E A B} (f : A → result E B) l k :
  try_map f l = Ok k ↔ Forall2 (λ x y, f x = Ok y) l k.
Proof.
  revert k; induction l as [|x l IH]; intros k; simpl.
  - split; [by intros [= <-]|]. by inversion 1.
  - split.
    + intros (y & Hy & (ys & Hys & [= <-])%result_bind_Ok)%result_bind_Ok.
      constructor; [done|]. by apply IH.
    + inversion_clear 1 as [|? y ? ys Hy Hys]. rewrite Hy. cbn.
      by rewrite (proj2 (IH ys) Hys).
Qed.

Lemma is_sized_app l k : is_sized (l ++ k) → is_sized l ∧ is_sized k.
Proof.
  intros [Hb Hl]. apply is_bytes_app in Hb as [? ?]. rewrite len_app in Hl.
  pose proof (len_nonneg l). pose proof (len_nonneg k). split; split; done || lia.
Qed.

Lemma items_sized items : is_sized (flat_map item_bytes items) → Forall is_sized items.
Proof.
  induction items as [|i items IH]; [done|]. cbn [flat_map]. intros [Hi Hs]%is_sized_app.
  constructor; [|by apply IH]. unfold item_bytes in Hi. by apply is_sized_app in Hi as [_ ?].
Qed.

Lemma items_bytes items : Forall is_bytes items → is_bytes (flat_map item_bytes items).
Proof.
  induction 1 as [|i items Hi _ IH]; [constructor|]. cbn [flat_map]. rewrite is_bytes_app.
  split; [|done]. unfold item_bytes. rewrite is_bytes_app. split; [apply is_bytes_be_bytes|done].
Qed.

Section containers.
Context {A} (wf : A → Prop) (enc : A → contract (list Z)) (dec : list Z → contract A).
Context `{!Codec wf enc dec}.

Lemma try_map_bytes l items : Forall wf l → try_map enc l = Ok items → Forall is_bytes items.
Proof.
  rewrite try_map_Forall2. intros Hl H. revert Hl.
  induction H; inversion_clear 1; constructor; [by eapply codec_bytes|by auto].
Qed.

Lemma list_complete l items p :
  Forall wf l → try_map enc l = Ok items → encode_list items = Ok p →
  is_bytes p ∧ decode_list p = Ok items ∧ try_map dec items = Ok l.
Proof.
  intros Hl Hmap (Hc & -> & Hs)%encode_list_Ok.
  pose proof (try_map_bytes _ _ Hl Hmap) as Hb.
  assert (is_sized (list_bytes items)) as Hp.
  { split; [|done]. unfold list_bytes. rewrite is_bytes_app.
    split; [apply is_bytes_be_bytes|by apply items_bytes]. }
  split; [by destruct Hp|]. split; [apply decode_list_Ok; [by apply sized_slice|done]|].
  apply is_sized_app in Hp as [_ Hp%items_sized].
  rewrite try_map_Forall2 in Hmap. rewrite try_map_Forall2. clear Hc Hs Hb. revert Hl Hp.
  induction Hmap as [|x y l items Hxy _ IH]; intros Hl Hp; [constructor|].
  inversion_clear Hl. inversion_clear Hp as [|? ? [_ Hy]]. constructor; [|by apply IH].
  by eapply codec_complete.
Qed.

Lemma list_sound p items l :
  is_sized p → decode_list p = Ok items → try_map dec items = Ok l →
  Forall wf l ∧ try_map enc l = Ok items ∧ encode_list items = Ok p.
Proof.
  intros Hp (Hc & ->)%decode_list_Ok Hmap; [|by apply sized_slice].
  assert (encode_list items = Ok (list_bytes items)) as He.
  { apply encode_list_Ok. by destruct Hp. }
  unfold list_bytes in Hp. apply is_sized_app in Hp as [_ Hp%items_sized].
  rewrite try_map_Forall2 in Hmap. rewrite try_map_Forall2. clear Hc.
  assert (Forall wf l ∧ Forall2 (λ x y, enc x = Ok y) l items); [|naive_solver]. clear He.
  revert Hp. induction Hmap as [|y x items l Hyx _ IH]; inversion_clear 1; [done|].
  destruct IH as [? ?]; [done|]. apply codec_sound in Hyx as [? ?]; [|done]. by repeat constructor.
Qed.

Lemma optional_complete o v p :
  (∀ a, o = Some a → wf a) → try_option enc o = Ok v → encode_optional v = Ok p →
  is_bytes p ∧ decode_optional p = Ok v ∧ try_option dec v = Ok o.
Proof.
  intros Ho Hmap (-> & Hs)%encode_optional_Ok.
  assert (is_bytes (optional_bytes v)) as Hb.
  { destruct o as [a|]; cbn in Hmap; [|injection Hmap as <-; by repeat constructor].
    apply result_bind_Ok in Hmap as (b & He & [= <-]). cbn. constructor; [done|].
    unfold item_bytes. apply is_bytes_app. split; [apply is_bytes_be_bytes|].
    eapply codec_bytes; [by apply Ho|done]. }
  split; [done|]. split; [apply decode_optional_Ok; [apply sized_slice; by split|done]|].
  destruct o as [a|]; cbn in Hmap; [|by injection Hmap as <-].
  apply result_bind_Ok in Hmap as (b & He & [= <-]). cbn in *.
  rewrite (codec_complete a b); [done|by apply Ho|done|].
  unfold item_bytes in Hs. len_simpl. lia.
Qed.

Lemma optional_sound p v o :
  is_sized p → decode_optional p = Ok v → try_option dec v = Ok o →
  (∀ a, o = Some a → wf a) ∧ try_option enc o = Ok v ∧ encode_optional v = Ok p.
Proof.
  intros Hp ->%decode_optional_Ok Hmap; [|by apply sized_slice].
  assert (encode_optional v = Ok (optional_bytes v)) as He.
  { apply encode_optional_Ok. by destruct Hp. }
  rewrite He. destruct v as [b|]; cbn in Hmap; [|injection Hmap as <-; naive_solver].
  apply result_bind_Ok in Hmap as (a & Ha & [= <-]). cbn in Hp.
  change (1 :: item_bytes b) with ([1] ++ item_bytes b) in Hp.
  apply is_sized_app in Hp as [_ Hp]. unfold item_bytes in Hp. apply is_sized_app in Hp as [_ Hp].
  apply codec_sound in Ha as [? Hab]; [|done]. cbn. rewrite Hab. naive_solver.
Qed.
End containers.

Lemma try_map_Ok_id {E A} (l : list A) : try_map (E:=E) Ok l = Ok l.
Proof. induction l as [|x l IH]; [done|]. cbn. by rewrite IH. Qed.

(** ** Objects and enumerations *)

Lemma fields_bytes_bytes fs :
  Forall (λ f, is_bytes (field_payload f)) fs → is_bytes (fields_bytes fs).
Proof.
  induction 1 as [|f fs Hf _ IH]; [constructor|]. rewrite fields_bytes_cons, is_bytes_app.
  split; [|done]. unfold field_bytes. rewrite !is_bytes_app.
  split; [apply is_bytes_be_bytes|]. split; [repeat constructor; by destruct (WireType_as_u8_range (field_wire_type f))|].
  split; [apply is_bytes_be_bytes|done].
Qed.

Lemma fields_sized fs :
  is_sized (fields_bytes fs) → Forall (λ f, is_sized (field_payload f)) fs.
Proof.
  induction fs as [|f fs IH]; [done|]. rewrite fields_bytes_cons. intros [Hf Hs]%is_sized_app.
  constructor; [|by apply IH]. unfold field_bytes in Hf.
  by repeat apply is_sized_app in Hf as [_ Hf].
Qed.

Lemma fields_ok_sized fs :
  len fs <= U16_MAX → tags_increase 0 fs = true → Forall (λ f, is_u16 (field_tag f)) fs →
  Forall (λ f, is_sized (field_payload f)) fs → fields_ok fs.
Proof.
  intros ? ? Ht Hs. split; [done|]. split; [done|]. apply list.Forall_forall. intros f Hf.
  rewrite list.Forall_forall in Ht, Hs. split; [by apply Ht|]. by apply sized_slice, Hs.
Qed.

Lemma parse_built ty fs b :
  ObjectBuilder_finish_nested (mkBuilder ty fs) = Ok b →
  is_u16 ty → Forall (λ f, is_u16 (field_tag f) ∧ is_bytes (field_payload f)) fs →
  is_bytes b ∧ RawObject_parse_nested b = Ok (mkRawObject ty fs) ∧
  Forall (λ f, len (field_payload f) <= EFFECT_IR_V2_MAX_CANONICAL_BYTES) fs.
Proof.
  intros (Hl & Ht & -> & Hs)%finish_nested_Ok Hty [Hf Hb]%list.Forall_and.
  assert (is_sized (object_bytes ty fs)) as Hsz.
  { split; [|done]. unfold object_bytes. rewrite !is_bytes_app.
    split_and!; try apply is_bytes_be_bytes. by apply fields_bytes_bytes. }
  pose proof (sized_slice _ Hsz). split; [by destruct Hsz|].
  assert (Forall (λ f, is_sized (field_payload f)) fs) as Hfs.
  { apply fields_sized. unfold object_bytes in Hsz. by repeat apply is_sized_app in Hsz as [_ Hsz]. }
  split; [|eapply list.Forall_impl; [done|]; by intros f [_ ?]].
  apply parse_nested_Ok; [done|]. split; [done|]. split; [|done]. by apply fields_ok_sized.
Qed.

Lemma parse_enum_built variant fs b :
  encode_enum variant fs = Ok b →
  is_u16 variant → Forall (λ f, is_u16 (field_tag f) ∧ is_bytes (field_payload f)) fs →
  is_bytes b ∧ RawEnum_parse b = Ok (mkRawEnum variant fs) ∧
  Forall (λ f, len (field_payload f) <= EFFECT_IR_V2_MAX_CANONICAL_BYTES) fs.
Proof.
  intros (Hv & Hl & Ht & -> & Hs)%encode_enum_Ok Hty [Hf Hb]%list.Forall_and.
  assert (is_sized (enum_bytes variant fs)) as Hsz.
  { split; [|done]. unfold enum_bytes. rewrite !is_bytes_app.
    split_and!; try apply is_bytes_be_bytes. by apply fields_bytes_bytes. }
  pose proof (sized_slice _ Hsz). split; [by destruct Hsz|].
  assert (Forall (λ f, is_sized (field_payload f)) fs) as Hfs.
  { apply fields_sized. unfold enum_bytes in Hsz. by repeat apply is_sized_app in Hsz as [_ Hsz]. }
  split; [|eapply list.Forall_impl; [done|]; by intros f [_ ?]].
  apply parse_enum_Ok; [done|]. split_and!; try done. by apply fields_ok_sized.
Qed.

(** The fields with the tags and types of [shape] and the payloads [ps]. *)
Definition shaped (shape : list (Z * WireType)) (ps : list (list Z)) : list Field :=
  zip_with (λ '(t, w) p, mkField t w p) shape ps.

Definition shape_of (fs : list Field) : list (Z * WireType) :=
  (λ f, (field_tag f, field_wire_type f)) <$> fs.

Lemma fields_match_iff fs shape : fields_match fs shape = true ↔ shape_of fs = shape.
Proof.
  unfold fields_match, shape_of. revert shape.
  induction fs as [|f fs IH]; intros [|[t w] shape].
  - done.
  - rewrite len_cons, len_nil, (proj2 (Z.eqb_neq _ _)); [done|]. pose proof (len_nonneg shape). lia.
  - rewrite len_cons, len_nil, (proj2 (Z.eqb_neq _ _)); [done|]. pose proof (len_nonneg fs). lia.
  - specialize (IH shape). rewrite !len_cons.
    replace (1 + len fs =? 1 + len shape) with (len fs =? len shape)
      by (destruct (Z.eqb_spec (len fs) (len shape)), (Z.eqb_spec (1 + len fs) (1 + len shape)); lia).
    cbn. unfold any in IH.
    rewrite !negb_orb, !negb_involutive. rewrite andb_assoc, (andb_comm (len fs =? len shape)).
    rewrite <- andb_assoc, andb_true_iff, IH, andb_true_iff, Z.eqb_eq, bool_decide_eq_true.
    naive_solver.
Qed.

Lemma expect_shape ty fs shape :
  shape_of fs = shape → RawObject_expect (mkRawObject ty fs) ty shape = Ok ().
Proof.
  intros H%fields_match_iff. unfold RawObject_expect. cbn. by rewrite Z.eqb_refl, H.
Qed.

Lemma expect_enum_shape v fs shape :
  shape_of fs = shape → RawEnum_expect (mkRawEnum v fs) v shape = Ok ().
Proof.
  intros H%fields_match_iff. unfold RawEnum_expect. cbn. by rewrite Z.eqb_refl, H.
Qed.

Lemma shaped_shape_of fs : fs = shaped (shape_of fs) (field_payload <$> fs).
Proof. induction fs as [|[t w p] fs IH]; [done|]. cbn. unfold shaped in IH. by f_equal. Qed.

Lemma parse_expected b o ty shape u :
  is_sized b → RawObject_parse_nested b = Ok o → RawObject_expect o ty shape = Ok u →
  ∃ ps, length ps = length shape ∧ o = mkRawObject ty (shaped shape ps) ∧
    Forall is_sized ps ∧ ObjectBuilder_finish_nested (mkBuilder ty (shaped shape ps)) = Ok b.
Proof.
  intros Hb Hp He. destruct o as [ty' fs]. apply parse_nested_Ok in Hp; [|by apply sized_slice].
  destruct Hp as (Hty & (Hl & Ht & Hall) & ->). unfold RawObject_expect in He. cbn in He.
  case_match eqn:Hm; [done|]. bool_to_prop. rewrite fields_match_iff in *. subst ty' shape.
  exists (field_payload <$> fs). rewrite <- shaped_shape_of. split.
  { unfold shape_of. by rewrite !length_fmap. }
  split; [done|]. split.
  - apply list.Forall_fmap. unfold object_bytes in Hb. repeat apply is_sized_app in Hb as [_ Hb].
    by apply fields_sized.
  - apply finish_nested_Ok. by destruct Hb.
Qed.

Lemma parse_enum_expected b o variant shape u :
  is_sized b → RawEnum_parse b = Ok o → RawEnum_expect o variant shape = Ok u →
  ∃ ps, length ps = length shape ∧ o = mkRawEnum variant (shaped shape ps) ∧
    Forall is_sized ps ∧ encode_enum variant (shaped shape ps) = Ok b.
Proof.
  intros Hb Hp He. destruct o as [v' fs]. apply parse_enum_Ok in Hp; [|by apply sized_slice].
  destruct Hp as (Hty & Hne & (Hl & Ht & Hall) & ->). unfold RawEnum_expect in He. cbn in He.
  case_match eqn:Hm; [done|]. bool_to_prop. rewrite fields_match_iff in *. subst v' shape.
  exists (field_payload <$> fs). rewrite <- shaped_shape_of. split.
  { unfold shape_of. by rewrite !length_fmap. }
  split; [done|]. split.
  - apply list.Forall_fmap. unfold enum_bytes in Hb. repeat apply is_sized_app in Hb as [_ Hb].
    by apply fields_sized.
  - apply encode_enum_Ok. by destruct Hb.
Qed.

(** One field added to a builder. *)
Lemma builder_field_inv ty fs t w p o :
  ObjectBuilder_field (mkBuilder ty fs) t w p = Ok o → o = mkBuilder ty (fs ++ [mkField t w p]).
Proof. unfold ObjectBuilder_field. cbn. case_match; naive_solver. Qed.

Lemma builder_field_ok ty fs t w p :
  (t =? 0) || last_tag_at_least fs t = false → is_sized p →
  ObjectBuilder_field (mkBuilder ty fs) t w p = Ok (mkBuilder ty (fs ++ [mkField t w p])).
Proof.
  intros Ht [_ Hp]. unfold ObjectBuilder_field. cbn. rewrite Ht. cbn.
  rewrite (proj2 (Z.ltb_ge _ _)); [done|]. size_lia.
Qed.

Lemma top_inv ty fs b :
  ObjectBuilder_finish_top (mkBuilder ty fs) = Ok b →
  ∃ nested, b = EFFECT_IR_V2_WIRE_MAGIC ++ nested ∧
    ObjectBuilder_finish_nested (mkBuilder ty fs) = Ok nested ∧
    len b <= EFFECT_IR_V2_MAX_CANONICAL_BYTES.
Proof. rewrite finish_top_Ok. naive_solver. Qed.

Lemma strip_prefix_Some p l k : strip_prefix p l = Some k ↔ l = p ++ k.
Proof.
  revert l; induction p as [|x p IH]; intros l; cbn; [naive_solver|].
  destruct l as [|y l]; [naive_solver|]. destruct (Z.eqb_spec x y) as [->|]; [|naive_solver].
  rewrite IH. naive_solver.
Qed.

Lemma parse_top_Ok b o :
  RawObject_parse_top b = Ok o ↔
  ∃ nested, b = EFFECT_IR_V2_WIRE_MAGIC ++ nested ∧
    len b <= EFFECT_IR_V2_MAX_CANONICAL_BYTES ∧ RawObject_parse_nested nested = Ok o.
Proof.
  unfold RawObject_parse_top. split.
  - intros (? & Hs%enforce_size_Ok & (nested & ->%ok_or_Ok%strip_prefix_Some & ?)%result_bind_Ok)%result_bind_Ok.
    eauto.
  - intros (nested & -> & Hs & Hp). rewrite (proj2 (enforce_size_Ok _ ()) Hs). cbn [mbind result_bind].
    by rewrite (proj2 (strip_prefix_Some _ _ nested) eq_refl).
Qed.

Lemma magic_sized nested :
  is_bytes nested → len (EFFECT_IR_V2_WIRE_MAGIC ++ nested) <= EFFECT_IR_V2_MAX_CANONICAL_BYTES →
  is_sized (EFFECT_IR_V2_WIRE_MAGIC ++ nested).
Proof. intros. split; [|done]. apply is_bytes_app. split; [|done]. by repeat constructor. Qed.

Lemma parse_top_built ty fs b :
  ObjectBuilder_finish_top (mkBuilder ty fs) = Ok b →
  is_u16 ty → Forall (λ f, is_u16 (field_tag f) ∧ is_bytes (field_payload f)) fs →
  is_sized b ∧ RawObject_parse_top b = Ok (mkRawObject ty fs).
Proof.
  intros (nested & -> & Hn & Hl)%top_inv Hty Hf.
  destruct (parse_built _ _ _ Hn Hty Hf) as (Hb & Hp & _).
  split; [by apply magic_sized|]. apply parse_top_Ok. eauto.
Qed.

Lemma parse_top_expected b o ty shape u :
  is_sized b → RawObject_parse_top b = Ok o → RawObject_expect o ty shape = Ok u →
  ∃ ps, length ps = length shape ∧ o = mkRawObject ty (shaped shape ps) ∧
    Forall is_sized ps ∧ ObjectBuilder_finish_top (mkBuilder ty (shaped shape ps)) = Ok b.
Proof.
  intros Hb (nested & -> & Hl & Hp)%parse_top_Ok He. pose proof Hb as [_ Hn]%is_sized_app.
  destruct (parse_expected _ _ _ _ _ Hn Hp He) as (ps & ? & ? & ? & ?).
  exists ps. split_and!; [done..|]. apply finish_top_Ok. eauto.
Qed.

(** ** Nested structures

    Their encoders enforce the size bound themselves, so the laws take the form
    [NestedCodec]; every nested codec is a [Codec]. *)

Class NestedCodec {A} (wf : A → Prop) (enc : A → contract (list Z))
    (dec : list Z → contract A) : Prop := {
  nested_complete a b : wf a → enc a = Ok b → is_sized b ∧ dec b = Ok a;
  nested_sound b a : is_sized b → dec b = Ok a → wf a ∧ enc a = Ok b;
}.

#[global] Instance nested_codec {A} (wf : A → Prop) enc dec :
  NestedCodec wf enc dec → Codec wf enc dec.
Proof.
  intros [Hc Hs]. split; [|intros a b Ha Hb _; by destruct (Hc a b Ha Hb)|done].
  intros a b Ha Hb. by destruct (Hc a b Ha Hb) as [[? _] _].
Qed.

Lemma finish_nested_sized ty fs b :
  ObjectBuilder_finish_nested (mkBuilder ty fs) = Ok b → is_bytes b → is_sized b.
Proof. by intros (_ & _ & _ & ?)%finish_nested_Ok. Qed.

Lemma encode_enum_sized v fs b : encode_enum v fs = Ok b → is_bytes b → is_sized b.
Proof. by intros (_ & _ & _ & _ & ?)%encode_enum_Ok. Qed.

(** A field-less enumeration: [decode_simple_enum] reads back the variant. *)
Lemma simple_enum_complete v p :
  encode_enum v [] = Ok p → is_u16 v → is_sized p ∧ decode_simple_enum p = Ok v.
Proof.
  intros He Hv. destruct (parse_enum_built _ _ _ He Hv ltac:(constructor)) as (Hb & Hp & _).
  split; [by eapply encode_enum_sized|]. unfold decode_simple_enum. by rewrite Hp.
Qed.

Lemma simple_enum_sound p v :
  is_sized p → decode_simple_enum p = Ok v → encode_enum v [] = Ok p.
Proof.
  intros Hp (o & Ho & H)%result_bind_Ok. destruct o as [v' fs].
  apply parse_enum_Ok in Ho as (? & ? & (? & ? & _) & ->); [|by apply sized_slice].
  cbn in H. destruct fs; [|done]. injection H as <-. apply encode_enum_Ok. by destruct Hp.
Qed.

(** A field-less enumeration with its [as u16] and its decoder's match. *)
Class KindCodec {K} (as_u16 : K → Z) (dec : list Z → contract K) : Prop := {
  kind_complete k p : encode_enum (as_u16 k) [] = Ok p → is_sized p ∧ dec p = Ok k;
  kind_sound p k : is_sized p → dec p = Ok k → encode_enum (as_u16 k) [] = Ok p;
}.

Lemma kind_codec {K} (as_u16 : K → Z) (of_u16 : Z → contract K) :
  (∀ k, is_u16 (as_u16 k)) → (∀ k, of_u16 (as_u16 k) = Ok k) →
  (∀ z k, of_u16 z = Ok k → as_u16 k = z) →
  KindCodec as_u16 (λ b, variant ← decode_simple_enum b; of_u16 variant).
Proof.
  intros Hr Ho Hi. split.
  - intros k b He. destruct (simple_enum_complete _ _ He (Hr k)) as [? Hd].
    split; [done|]. rewrite Hd. apply Ho.
  - intros b k Hb (z & Hz & Hk)%result_bind_Ok.
    apply simple_enum_sound in Hz; [|done]. by rewrite (Hi z k).
Qed.

Section optional_map.
Context {A} (wf : A → Prop) (f : A → list Z) (dec : list Z → contract A).
Context `{!Codec wf (λ a, Ok (f a)) dec}.

Lemma try_option_map {E} (o : option A) : try_option (E:=E) (λ a, Ok (f a)) o = Ok (f <$> o).
Proof. by destruct o. Qed.

Lemma optional_map_complete o p :
  option_wf wf o → encode_optional (f <$> o) = Ok p →
  is_sized p ∧ decode_optional p = Ok (f <$> o) ∧ try_option dec (f <$> o) = Ok o.
Proof.
  intros Ho He. destruct (optional_complete wf (λ a, Ok (f a)) dec o (f <$> o) p) as (? & ? & ?);
    [by intros a ->|apply try_option_map|done|].
  split; [|done]. by apply encode_optional_Ok in He as [_ ?].
Qed.

Lemma optional_map_sound p v o :
  is_sized p → decode_optional p = Ok v → try_option dec v = Ok o →
  option_wf wf o ∧ v = f <$> o ∧ encode_optional v = Ok p.
Proof.
  intros Hp Hd Ht. destruct (optional_sound wf (λ a, Ok (f a)) dec p v o Hp Hd Ht) as (? & Hv & ?).
  rewrite try_option_map in Hv. injection Hv as ->. split; [|done]. destruct o; naive_solver.
Qed.
End optional_map.

Lemma decode_u16_be v : is_u16 v → decode_u16 (be_bytes 2 v) = Ok v.
Proof. apply (be_exact_complete 2). Qed.
Lemma decode_u32_be v : is_u32 v → decode_u32 (be_bytes 4 v) = Ok v.
Proof. apply (be_exact_complete 4). Qed.
Lemma decode_u64_be v : is_u64 v → decode_u64 (be_bytes 8 v) = Ok v.
Proof. apply (be_exact_complete 8). Qed.
Lemma decode_u16_inv b v : is_sized b → decode_u16 b = Ok v → is_u16 v ∧ b = be_bytes 2 v.
Proof. intros [? _]. by apply (be_exact_sound 2). Qed.
Lemma decode_u32_inv b v : is_sized b → decode_u32 b = Ok v → is_u32 v ∧ b = be_bytes 4 v.
Proof. intros [? _]. by apply (be_exact_sound 4). Qed.
Lemma decode_u64_inv b v : is_sized b → decode_u64 b = Ok v → is_u64 v ∧ b = be_bytes 8 v.
Proof. intros [? _]. by apply (be_exact_sound 8). Qed.

Lemma bool_bytes b : is_bytes [Z.b2z b].
Proof. constructor; [by destruct b|constructor]. Qed.

Lemma decode_bool_be b : decode_bool [Z.b2z b] = Ok b.
Proof. by destruct b. Qed.

Lemma decode_bool_inv p b : is_sized p → decode_bool p = Ok b → p = [Z.b2z b].
Proof. intros Hp Hd. destruct (codec_sound (enc:=λ b, Ok [Z.b2z b]) _ _ Hp Hd) as [_ H]. by injection H. Qed.

Lemma exact_inv n b v :
  is_sized b → exact n b = Ok v → v = b ∧ (is_bytes b ∧ length b = n).
Proof. intros [? _] [-> ?]%exact_Ok. done. Qed.

Lemma exact_id n b : length b = n → exact n b = Ok b.
Proof. intros. by apply exact_Ok. Qed.

Lemma be_bytes_sized n z : (n ≤ 8)%nat → is_sized (be_bytes n z).
Proof. intros. split; [apply is_bytes_be_bytes|]. rewrite len_be_bytes. size_lia. Qed.

Lemma raw_list_complete items p :
  Forall is_bytes items → encode_list items = Ok p → is_sized p ∧ decode_list p = Ok items.
Proof.
  intros Hl He. destruct (list_complete is_bytes Ok Ok items items p) as (? & ? & _);
    [done|apply try_map_Ok_id|done|]. apply encode_list_Ok in He as (_ & _ & ?). done.
Qed.

Lemma raw_list_sound p items :
  is_sized p → decode_list p = Ok items → Forall is_bytes items ∧ encode_list items = Ok p.
Proof.
  intros Hp Hd. destruct (list_sound is_bytes Ok Ok p items items) as (? & _ & ?);
    [done|done|apply try_map_Ok_id|done].
Qed.

(** ** Automation for structures *)

Lemma bind_Ok {E A B} (a : A) (f : A → result E B) : Ok a ≫= f = f a.
Proof. done. Qed.

(** Steps of one family of codecs; each family extends them. *)
Ltac bytes_extra := fail.
Ltac dec_extra := fail.
Ltac sound_extra E := fail.
Ltac pose_extra := fail.
Ltac build_extra := fail.

Ltac unfold_builder :=
  unfold ObjectBuilder_u16, ObjectBuilder_u32, ObjectBuilder_u64, ObjectBuilder_i64,
    ObjectBuilder_boolean, ObjectBuilder_bytes, ObjectBuilder_utf8, ObjectBuilder_object,
    ObjectBuilder_list, ObjectBuilder_enumeration, ObjectBuilder_optional, ObjectBuilder_new,
    enum_field in *.

(** Runs one builder operation known to have succeeded. *)
Ltac builder_inv E :=
  lazymatch type of E with
  | ObjectBuilder_field _ _ _ _ = Ok _ => apply builder_field_inv in E; subst
  | mbind (λ payload, ObjectBuilder_field _ _ _ payload) _ = Ok _ =>
      let p := fresh "p" in let Ep := fresh "Ep" in
      apply result_bind_Ok in E as (p & Ep & E); apply builder_field_inv in E; subst
  | @eq (contract ()) _ (Ok ?u) => destruct u
  | _ => idtac
  end.

Ltac enc_inv H :=
  repeat
    lazymatch type of H with
    | mbind _ _ = Ok _ =>
        let x := fresh "x" in let E := fresh "E" in
        apply result_bind_Ok in H as (x & E & H); builder_inv E
    end;
  cbn [app] in *.

(** What the success of each sub-encoder says of its payload. *)
Ltac pose_complete :=
  repeat match goal with
  | _ => pose_extra
  | E : encode_list ?items = Ok ?p, M : try_map ?enc ?l = Ok ?items |- _ =>
      let C := fresh "C" in let inst := constr:(_ : Codec _ enc _) in
      destruct (@list_complete _ _ _ _ inst l items p ltac:(assumption) M E) as (? & ? & C);
      pose proof (proj2 (proj2 (proj1 (encode_list_Ok items p) E))); clear E M
  | E : encode_list ?items = Ok ?p |- _ =>
      destruct (raw_list_complete items p ltac:(assumption) E) as [? ?]; clear E
  | E : encode_optional ?v = Ok ?p, M : try_option ?enc ?o = Ok ?v |- _ =>
      let C := fresh "C" in let inst := constr:(_ : Codec _ enc _) in
      destruct (@optional_complete _ _ _ _ inst o v p ltac:(by intros ? ->) M E) as (? & ? & C);
      pose proof (proj2 (proj1 (encode_optional_Ok v p) E)); clear E M
  | E : encode_optional (?f <$> ?o) = Ok ?p |- _ =>
      let inst := constr:(_ : Codec _ (λ a, Ok (f a)) _) in
      destruct (@optional_map_complete _ _ _ _ inst o p ltac:(first [assumption | by destruct o]) E)
        as (? & ? & ?); clear E
  | E : encode_enum (?f ?k) [] = Ok ?p |- _ =>
      destruct (kind_complete k p E) as [? ?]; clear E
  | E : @eq (contract (list Z)) (?enc ?v) (Ok ?p) |- _ =>
      let inst := constr:(_ : NestedCodec _ enc _) in
      destruct (@nested_complete _ _ _ _ inst v p ltac:(assumption) E) as [? ?]; clear E
  end.

(** The bytes of a payload. *)
Ltac solve_bytes :=
  lazymatch goal with
  | |- is_bytes (be_bytes _ _) => apply is_bytes_be_bytes
  | H : is_sized ?p |- is_bytes ?p => apply H
  | |- is_bytes ?p =>
      first [assumption | bytes_extra | match goal with H : _ ?p |- _ => exact (proj1 H) end]
  end.

Ltac solve_fields :=
  repeat (apply Forall_cons_2 || apply Forall_nil_2); cbn [field_tag field_payload];
  (split; [by vm_compute|solve_bytes]).

Ltac solve_length := match goal with H : _ ?p |- length ?p = _ => exact (proj2 H) end.

(** Rewrites with what is known of the payloads until the decoder returns. *)
Ltac dec_step :=
  first
    [ rewrite decode_u64_be by done | rewrite decode_u32_be by done
    | rewrite decode_u16_be by done
    | match goal with |- context [exact ?n ?p] => rewrite (exact_id n p) by solve_length end
    | dec_extra
    | match goal with H : ?d ?p = Ok _ |- context [?d ?p] => rewrite H end ];
  rewrite ?bind_Ok.

Ltac dec_run :=
  cbn [RawObject_payload RawEnum_payload find_payload raw_object_fields
       raw_enum_fields raw_enum_variant field_tag field_payload ok_or Z.eqb Pos.eqb];
  rewrite ?bind_Ok; repeat dec_step.

Ltac open_payloads ps Hlen Hsz :=
  cbn in Hlen;
  repeat (destruct ps as [|? ps]; [discriminate Hlen|injection Hlen as Hlen]);
  destruct ps; [|discriminate Hlen]; clear Hlen;
  cbn [shaped zip_with] in *;
  repeat match type of Hsz with
  | Forall _ (_ :: _) => let h := fresh "Hs" in
      apply Forall_cons_1 in Hsz as [h Hsz]
  end; clear Hsz.

(** Splits a parsed object with the expected fields into its payloads. *)
Ltac open_object H Hb :=
  let o := fresh "o" in let Ho := fresh "Ho" in let u := fresh "u" in let He := fresh "He" in
  let ps := fresh "ps" in let Hlen := fresh "Hlen" in let Hsz := fresh "Hsz" in
  let Hfin := fresh "Hfin" in
  apply result_bind_Ok in H as (o & Ho & H);
  apply result_bind_Ok in H as (u & He & H);
  destruct (parse_expected _ _ _ _ _ Hb Ho He) as (ps & Hlen & -> & Hsz & Hfin);
  clear Ho He; open_payloads ps Hlen Hsz;
  cbn [RawObject_payload find_payload raw_object_fields field_tag field_payload ok_or
       Z.eqb Pos.eqb] in H.

Ltac open_top H Hb :=
  let o := fresh "o" in let Ho := fresh "Ho" in let u := fresh "u" in let He := fresh "He" in
  let ps := fresh "ps" in let Hlen := fresh "Hlen" in let Hsz := fresh "Hsz" in
  let Hfin := fresh "Hfin" in
  apply result_bind_Ok in H as (o & Ho & H);
  apply result_bind_Ok in H as (u & He & H);
  destruct (parse_top_expected _ _ _ _ _ Hb Ho He) as (ps & Hlen & -> & Hsz & Hfin);
  clear Ho He; open_payloads ps Hlen Hsz;
  cbn [RawObject_payload find_payload raw_object_fields field_tag field_payload ok_or
       Z.eqb Pos.eqb] in H.

Ltac open_enum Ho H Hb :=
  let u := fresh "u" in let He := fresh "He" in
  let ps := fresh "ps" in let Hlen := fresh "Hlen" in let Hsz := fresh "Hsz" in
  let Hfs := fresh "Hfs" in let Hfin := fresh "Hfin" in
  apply result_bind_Ok in H as (u & He & H);
  destruct (parse_enum_expected _ _ _ _ _ Hb Ho He) as (ps & Hlen & Hfs & Hsz & Hfin);
  clear Ho He; injection Hfs as ->; open_payloads ps Hlen Hsz;
  cbn [RawEnum_payload find_payload raw_enum_fields field_tag field_payload ok_or
       Z.eqb Pos.eqb] in H.

(** What one step of a decoder that returned says of its payload. *)
Ltac step_sound E :=
  first
    [ lazymatch type of E with @eq (contract ()) _ (Ok ?u) => destruct u end
    | injection E as <-
    | sound_extra E
    | apply exact_inv in E as [-> ?]; [|assumption]
    | apply decode_u64_inv in E as [? ->]; [|assumption]
    | apply decode_u32_inv in E as [? ->]; [|assumption]
    | apply decode_u16_inv in E as [? ->]; [|assumption]
    | apply nested_sound in E as [? E]; [|assumption]; cbv beta in E
    | apply kind_sound in E; [|assumption]
    | lazymatch type of E with
      | try_map ?dec ?items = Ok ?l =>
          match goal with D : decode_list ?p = Ok items |- _ =>
            let inst := constr:(_ : Codec _ _ dec) in
            destruct (@list_sound _ _ _ _ inst p items l ltac:(assumption) D E) as (? & ? & ?);
            clear D E end
      | try_option ?dec ?v = Ok ?o =>
          match goal with D : decode_optional ?p = Ok v |- _ =>
            first [ let inst := constr:(_ : NestedCodec _ _ dec) in
                    destruct (@optional_sound _ _ _ _ (nested_codec _ _ _ inst) p v o
                                ltac:(assumption) D E) as (? & ? & ?)
                  | let inst := constr:(_ : Codec _ (λ a, Ok (_ a)) dec) in
                    destruct (@optional_map_sound _ _ _ _ inst p v o ltac:(assumption) D E)
                      as (? & -> & ?) ];
            clear D E end
      end
    | idtac ].

Ltac dec_inv H :=
  repeat
    lazymatch type of H with
    | mbind _ _ = Ok _ =>
        let x := fresh "v" in let E := fresh "D" in
        apply result_bind_Ok in H as (x & E & H); step_sound E
    end;
  repeat match goal with
  | D : decode_list ?p = Ok ?items |- _ =>
      destruct (raw_list_sound p items ltac:(assumption) D) as [? ?]; clear D
  end.

Ltac solve_sized := first [assumption | apply be_bytes_sized; lia].

(** Runs the builder on payloads of bounded size. *)
Ltac build_step :=
  first
    [ rewrite builder_field_ok; [|reflexivity|solve_sized]
    | build_extra
    | match goal with H : ?e ?v = Ok _ |- context [?e ?v] => rewrite H end ];
  rewrite ?bind_Ok; cbn [app].

Ltac solve_wf :=
  repeat match goal with |- _ ∧ _ => split end;
  first [match goal with H : ?P |- ?P => exact H end
        | match goal with H : is_sized ?p |- is_bytes ?p => exact (proj1 H) end
        | match goal with
          H : is_bytes ?p ∧ _ |- ?wf ?p => exact H end
        | match goal with |- option_wf _ _ => apply option_wf_intro; assumption end | done].

(** [NestedCodec] of an object: both directions. *)
Ltac object_complete_with open_wf enc dec :=
  let a := fresh "a" in let b := fresh "b" in let Hwf := fresh "Hwf" in let H := fresh "H" in
  intros a b Hwf H; destruct a; open_wf Hwf; cbn in Hwf; destruct_and? Hwf;
  unfold enc in H; unfold_builder; cbn in H; enc_inv H; pose_complete;
  let Hfin := fresh "Hfin" in pose proof H as Hfin;
  apply parse_built in H as (? & H & _); [|by vm_compute|solve_fields];
  split; [by eapply finish_nested_sized|]; unfold dec; rewrite H, bind_Ok;
  rewrite expect_shape by done; rewrite ?bind_Ok; dec_run; done.

Ltac object_complete wf enc dec :=
  object_complete_with ltac:(fun H => unfold wf in H) enc dec.

Ltac object_sound_with open_goal enc dec :=
  let a := fresh "a" in let b := fresh "b" in let Hb := fresh "Hb" in let H := fresh "H" in
  intros b a Hb H; unfold dec in H; open_object H Hb; dec_inv H;
  injection H as <-; split; [open_goal (); cbn; solve_wf|];
  unfold enc; unfold_builder; cbn; rewrite ?bind_Ok; repeat build_step; done.

Ltac object_sound wf enc dec := object_sound_with ltac:(fun _ => unfold wf) enc dec.

Ltac object_codec wf enc dec := split; [object_complete wf enc dec | object_sound wf enc dec].

(** Encodings determine values. *)
Section injective.
Context {A} (wf : A → Prop) (enc : A → contract (list Z)) (dec : list Z → contract A).
Context `{!NestedCodec wf enc dec}.

Lemma nested_inj a a' p : wf a → wf a' → enc a = Ok p → enc a' = Ok p → a = a'.
Proof.
  intros Ha Ha' E E'. destruct (nested_complete a p Ha E) as [_ D].
  destruct (nested_complete a' p Ha' E') as [_ D']. congruence.
Qed.

Lemma nested_list_inj l l' items items' p :
  Forall wf l → Forall wf l' → try_map enc l = Ok items → try_map enc l' = Ok items' →
  encode_list items = Ok p → encode_list items' = Ok p → l = l'.
Proof.
  intros Hl Hl' M M' E E'.
  destruct (list_complete wf enc dec l items p Hl M E) as (_ & D & C).
  destruct (list_complete wf enc dec l' items' p Hl' M' E') as (_ & D' & C').
  congruence.
Qed.
End injective.
