(* ===== verification/RecordTypes.v ===== *)
(** * The data of an effect record

    The structures of [src/src/linux_pytest.rs] that the canonical codec writes:
    blob references, invocations, environments, snapshots, platforms, traces,
    observations, ambient events, effects, results, lookup shapes, observation
    closures and the record itself. Digests ([[u8; 32]]), identifiers
    ([[u8; 16]]), byte vectors and strings are lists of bytes; a field-less
    enumeration has its [as u16] discriminant as a function. The [_wf]
    predicates say which values the Rust types hold. *)

From S2P Require Import Prelude Monad Bytes ContractTypes Canonical CanonicalSpec CanonicalParse.
From S2P Require Import CanonicalCodec.

(** The Rust array types. *)
Definition is_digest (d : list Z) : Prop := is_bytes d ∧ length d = 32%nat.
Definition is_id (d : list Z) : Prop := is_bytes d ∧ length d = 16%nat.

Definition digest_is_zero (d : list Z) : bool := bytes_eqb d (replicate 32 0).
Definition id_is_nil (d : list Z) : bool := bytes_eqb d (replicate 16 0).

Record BlobRefV2 := mkBlobRef { blob_digest : list Z; blob_byte_count : Z }.

Record PytestSelectorV1 := mkSelector {
  selector_raw : list Z;
  selector_path : list Z;
  selector_nodes : list (list Z);
}.

Record EnvironmentBindingV1 := mkEnvironment {
  environment_key_id : list Z;
  environment_digest : list Z;
  environment_names_digest : list Z;
  environment_entry_count : Z;
  environment_policy_digest : list Z;
}.

Inductive StdinProfileV1 := ClosedEof | EmptyNonTtyEof.

Definition StdinProfileV1_as_u16 (s : StdinProfileV1) : Z :=
  match s with ClosedEof => 1 | EmptyNonTtyEof => 2 end.

Record PytestInvocationIdentityV1 := mkInvocation {
  invocation_argv : list (list Z);
  invocation_cwd : list Z;
  invocation_selectors : list PytestSelectorV1;
  invocation_stdin_profile : StdinProfileV1;
}.

Record SealedSnapshotIdentityV2 := mkSnapshot {
  snapshot_id : list Z;
  snapshot_workspace_root : list Z;
  snapshot_runtime_root : list Z;
  snapshot_manifest_blob : BlobRefV2;
  snapshot_profile_digest : list Z;
}.

Inductive ArchitectureV1 := X86_64.

Definition ArchitectureV1_as_u16 (a : ArchitectureV1) : Z := match a with X86_64 => 1 end.

Record NamespaceIdsV1 := mkNamespaceIds {
  ns_user : Z; ns_mount : Z; ns_pid : Z; ns_network : Z; ns_uts : Z; ns_ipc : Z;
}.

Record PolicyDigestsV1 := mkPolicyDigests {
  policy_seccomp : list Z;
  policy_landlock : list Z;
  policy_namespace : list Z;
  policy_tracer_runtime : list Z;
  policy_ambient_broker : list Z;
  policy_limits : list Z;
  policy_environment : list Z;
  policy_selector_grammar : list Z;
  policy_runtime_closure : list Z;
  policy_codec : list Z;
}.

Record PlatformIdentityV2 := mkPlatform {
  platform_architecture : ArchitectureV1;
  platform_kernel_release : list Z;
  platform_capability_digest : list Z;
  platform_namespace_ids : NamespaceIdsV1;
  platform_namespace_policy_digest : list Z;
  platform_policy_digests : PolicyDigestsV1;
}.

Record TraceCountersV1 := mkTraceCounters {
  tc_final_sequence : Z;
  tc_event_count : Z;
  tc_syscall_event_count : Z;
  tc_seccomp_trace_count : Z;
  tc_ptrace_event_count : Z;
  tc_trace_encoded_bytes : Z;
  tc_task_birth_count : Z;
  tc_task_exec_count : Z;
  tc_task_exit_count : Z;
  tc_task_reap_count : Z;
  tc_observation_count : Z;
  tc_ambient_event_count : Z;
  tc_ordered_effect_count : Z;
  tc_denied_operation_count : Z;
  tc_unsupported_operation_count : Z;
  tc_decoder_error_count : Z;
  tc_lost_event_count : Z;
  tc_final_ack_count : Z;
}.

Module TracePhases.
Inductive TracePhaseV1 := Snapshot | Isolation | Trace | Finalize | Capture | Cleanup.

Definition TracePhaseV1_as_u16 (p : TracePhaseV1) : Z :=
  match p with
  | Snapshot => 1 | Isolation => 2 | Trace => 3 | Finalize => 4 | Capture => 5 | Cleanup => 6
  end.
End TracePhases.
Abbreviation TracePhaseV1 := TracePhases.TracePhaseV1.

Record FirstFailureV1 := mkFirstFailure {
  failure_dimension : CompletenessDimensionV2;
  failure_reason : ExecuteOnlyCode;
  failure_phase : TracePhaseV1;
  failure_event_sequence : option Z;
  failure_logical_task_id : option Z;
}.

Record TraceCompletenessV2 := mkTrace {
  trace_required : Z;
  trace_complete : Z;
  trace_unsupported : Z;
  trace_violation : Z;
  trace_counters : TraceCountersV1;
  trace_first_failure : option FirstFailureV1;
}.

Module ObservationKinds.
Inductive ObservationKindV2 :=
| File | Directory | AbsentPath | Symlink | Executable | Mapping | Metadata.

Definition ObservationKindV2_as_u16 (k : ObservationKindV2) : Z :=
  match k with
  | File => 1 | Directory => 2 | AbsentPath => 3 | Symlink => 4 | Executable => 5
  | Mapping => 6 | Metadata => 7
  end.

#[global] Instance ObservationKindV2_eq_dec : EqDecision ObservationKindV2.
Proof. solve_decision. Defined.
End ObservationKinds.
Abbreviation ObservationKindV2 := ObservationKinds.ObservationKindV2.

Module ObservationDetails.
Inductive ObservationDetailV1 :=
| File (content_digest : list Z) (byte_count : Z)
| Directory (membership_digest : list Z) (entry_count : Z)
| AbsentPath (parent_membership_digest missing_component : list Z)
| Symlink (target : list Z)
| Executable (node_digest chain_digest : list Z)
| Mapping (content_digest : list Z) (offset length protection flags : Z)
| Metadata (field_mask : Z) (value_digest : list Z).

#[global] Instance ObservationDetailV1_eq_dec : EqDecision ObservationDetailV1.
Proof. solve_decision. Defined.

Definition ObservationDetailV1_wf (d : ObservationDetailV1) : Prop :=
  match d with
  | File c n => is_digest c ∧ is_u64 n
  | Directory m n => is_digest m ∧ is_u64 n
  | AbsentPath p m => is_digest p ∧ is_bytes m
  | Symlink t => is_bytes t
  | Executable n c => is_digest n ∧ is_digest c
  | Mapping c o l p f => is_digest c ∧ is_u64 o ∧ is_u64 l ∧ is_u32 p ∧ is_u32 f
  | Metadata m v => is_u64 m ∧ is_digest v
  end.
End ObservationDetails.
Abbreviation ObservationDetailV1 := ObservationDetails.ObservationDetailV1.

Record ObservationV2 := mkObservation {
  observation_sequence : Z;
  observation_logical_task_id : Z;
  observation_kind : ObservationKindV2;
  observation_sandbox_subject : list Z;
  observation_canonical_detail : ObservationDetailV1;
}.

Record ObservationDependencyV1 := mkDependency {
  dependency_key : list Z;
  dependency_kind : ObservationKindV2;
  dependency_subject : list Z;
  dependency_current_value : BlobRefV2;
}.

Record ObservationClosureV1 := mkClosure { closure_dependencies : list ObservationDependencyV1 }.

Module AmbientKinds.
Inductive AmbientKindV2 := LogicalTime | LogicalRandom | LogicalPid | Sleep | Signal.

Definition AmbientKindV2_as_u16 (k : AmbientKindV2) : Z :=
  match k with
  | LogicalTime => 1 | LogicalRandom => 2 | LogicalPid => 3 | Sleep => 4 | Signal => 5
  end.
End AmbientKinds.
Abbreviation AmbientKindV2 := AmbientKinds.AmbientKindV2.

Record AmbientEventV2 := mkAmbient {
  ambient_sequence : Z;
  ambient_logical_task_id : Z;
  ambient_kind : AmbientKindV2;
  ambient_canonical_detail : BlobRefV2;
}.

Module EffectKinds.
Inductive EffectKindV2 :=
| Write | Truncate | Metadata | Link | Rename | Unlink | Mkdir | Rmdir | WritableMapping.

Definition EffectKindV2_as_u16 (k : EffectKindV2) : Z :=
  match k with
  | Write => 1 | Truncate => 2 | Metadata => 3 | Link => 4 | Rename => 5 | Unlink => 6
  | Mkdir => 7 | Rmdir => 8 | WritableMapping => 9
  end.
End EffectKinds.
Abbreviation EffectKindV2 := EffectKinds.EffectKindV2.

Record OrderedEffectV2 := mkEffect {
  effect_sequence : Z;
  effect_logical_task_id : Z;
  effect_kind : EffectKindV2;
  effect_sandbox_subject : list Z;
  effect_canonical_detail : BlobRefV2;
}.

Module StreamCaptures.
Inductive StreamCaptureV2 :=
| Complete (blob : BlobRefV2)
| Exceeded (observed_bytes : Z)
| Incomplete (observed_bytes : Z) (reason : ExecuteOnlyCode).

Definition complete_blob (s : StreamCaptureV2) : option BlobRefV2 :=
  match s with
  | Complete blob => Some blob
  | Exceeded _ | Incomplete _ _ => None
  end.
End StreamCaptures.
Abbreviation StreamCaptureV2 := StreamCaptures.StreamCaptureV2.

Record EffectResultV2 := mkResult {
  result_stdout : StreamCaptureV2;
  result_stderr : StreamCaptureV2;
  result_raw_linux_wait_status : Z;
}.

Inductive EffectRecordDispositionV2 := ExecutedOnly | PrimaryCandidate | ShadowCandidate.

Definition EffectRecordDispositionV2_as_u16 (d : EffectRecordDispositionV2) : Z :=
  match d with ExecutedOnly => 1 | PrimaryCandidate => 2 | ShadowCandidate => 3 end.

Record ShapeV1 := mkShape {
  shape_schema : list Z;
  shape_profile_id : list Z;
  shape_profile_digest : list Z;
  shape_workspace_identity : list Z;
  shape_invocation : PytestInvocationIdentityV1;
  shape_environment : EnvironmentBindingV1;
  shape_resolved_selector_targets : list (list Z);
  shape_executable_chain_digest : list Z;
  shape_executable_chain_witness : list Z;
  shape_runtime_root : list Z;
  shape_architecture : ArchitectureV1;
  shape_capability_digest : list Z;
  shape_namespace_policy_digest : list Z;
  shape_policy_digests : PolicyDigestsV1;
}.

Record EffectRecordV2 := mkRecord {
  record_schema : list Z;
  record_id : list Z;
  record_profile_id : list Z;
  record_profile_digest : list Z;
  record_shape_key : list Z;
  record_request_key : list Z;
  record_invocation : PytestInvocationIdentityV1;
  record_workspace_identity : list Z;
  record_environment : EnvironmentBindingV1;
  record_sealed_snapshot : SealedSnapshotIdentityV2;
  record_platform : PlatformIdentityV2;
  record_trace : TraceCompletenessV2;
  record_observations : list ObservationV2;
  record_ambient_events : list AmbientEventV2;
  record_ordered_effects : list OrderedEffectV2;
  record_final_workspace_root : list Z;
  record_result : EffectResultV2;
  record_disposition : EffectRecordDispositionV2;
  record_disposition_reason : option ExecuteOnlyCode;
  record_primary_record_id : option (list Z);
  record_created_monotonic_ns : Z;
  record_shape : ShapeV1;
  record_observation_closure : ObservationClosureV1;
}.

(** ** Decidable equality *)

#[global] Instance BlobRefV2_eq_dec : EqDecision BlobRefV2.
Proof. solve_decision. Defined.
#[global] Instance PytestSelectorV1_eq_dec : EqDecision PytestSelectorV1.
Proof. solve_decision. Defined.
#[global] Instance EnvironmentBindingV1_eq_dec : EqDecision EnvironmentBindingV1.
Proof. solve_decision. Defined.
#[global] Instance StdinProfileV1_eq_dec : EqDecision StdinProfileV1.
Proof. solve_decision. Defined.
#[global] Instance PytestInvocationIdentityV1_eq_dec : EqDecision PytestInvocationIdentityV1.
Proof. solve_decision. Defined.
#[global] Instance SealedSnapshotIdentityV2_eq_dec : EqDecision SealedSnapshotIdentityV2.
Proof. solve_decision. Defined.
#[global] Instance ArchitectureV1_eq_dec : EqDecision ArchitectureV1.
Proof. solve_decision. Defined.
#[global] Instance PolicyDigestsV1_eq_dec : EqDecision PolicyDigestsV1.
Proof. solve_decision. Defined.
#[global] Instance ObservationDependencyV1_eq_dec : EqDecision ObservationDependencyV1.
Proof. solve_decision. Defined.
#[global] Instance ObservationClosureV1_eq_dec : EqDecision ObservationClosureV1.
Proof. solve_decision. Defined.
#[global] Instance EffectRecordDispositionV2_eq_dec : EqDecision EffectRecordDispositionV2.
Proof. solve_decision. Defined.

(** ** The values the Rust types hold *)

Definition BlobRefV2_wf (v : BlobRefV2) : Prop :=
  is_digest (blob_digest v) ∧ is_u64 (blob_byte_count v).

Definition PytestSelectorV1_wf (v : PytestSelectorV1) : Prop :=
  is_bytes (selector_raw v) ∧ is_bytes (selector_path v) ∧ Forall is_bytes (selector_nodes v).

Definition EnvironmentBindingV1_wf (v : EnvironmentBindingV1) : Prop :=
  is_digest (environment_key_id v) ∧ is_digest (environment_digest v) ∧
  is_digest (environment_names_digest v) ∧ is_u32 (environment_entry_count v) ∧
  is_digest (environment_policy_digest v).

Definition PytestInvocationIdentityV1_wf (v : PytestInvocationIdentityV1) : Prop :=
  Forall is_bytes (invocation_argv v) ∧ is_bytes (invocation_cwd v) ∧
  Forall PytestSelectorV1_wf (invocation_selectors v).

Definition SealedSnapshotIdentityV2_wf (v : SealedSnapshotIdentityV2) : Prop :=
  is_id (snapshot_id v) ∧ is_digest (snapshot_workspace_root v) ∧
  is_digest (snapshot_runtime_root v) ∧ BlobRefV2_wf (snapshot_manifest_blob v) ∧
  is_digest (snapshot_profile_digest v).

Definition NamespaceIdsV1_wf (v : NamespaceIdsV1) : Prop :=
  is_u64 (ns_user v) ∧ is_u64 (ns_mount v) ∧ is_u64 (ns_pid v) ∧ is_u64 (ns_network v) ∧
  is_u64 (ns_uts v) ∧ is_u64 (ns_ipc v).

Definition PolicyDigestsV1_wf (v : PolicyDigestsV1) : Prop :=
  is_digest (policy_seccomp v) ∧ is_digest (policy_landlock v) ∧
  is_digest (policy_namespace v) ∧ is_digest (policy_tracer_runtime v) ∧
  is_digest (policy_ambient_broker v) ∧ is_digest (policy_limits v) ∧
  is_digest (policy_environment v) ∧ is_digest (policy_selector_grammar v) ∧
  is_digest (policy_runtime_closure v) ∧ is_digest (policy_codec v).

Definition PlatformIdentityV2_wf (v : PlatformIdentityV2) : Prop :=
  is_bytes (platform_kernel_release v) ∧ is_digest (platform_capability_digest v) ∧
  NamespaceIdsV1_wf (platform_namespace_ids v) ∧
  is_digest (platform_namespace_policy_digest v) ∧
  PolicyDigestsV1_wf (platform_policy_digests v).

Definition TraceCountersV1_wf (v : TraceCountersV1) : Prop :=
  is_u64 (tc_final_sequence v) ∧ is_u64 (tc_event_count v) ∧
  is_u64 (tc_syscall_event_count v) ∧ is_u64 (tc_seccomp_trace_count v) ∧
  is_u64 (tc_ptrace_event_count v) ∧ is_u64 (tc_trace_encoded_bytes v) ∧
  is_u64 (tc_task_birth_count v) ∧ is_u64 (tc_task_exec_count v) ∧
  is_u64 (tc_task_exit_count v) ∧ is_u64 (tc_task_reap_count v) ∧
  is_u64 (tc_observation_count v) ∧ is_u64 (tc_ambient_event_count v) ∧
  is_u64 (tc_ordered_effect_count v) ∧ is_u64 (tc_denied_operation_count v) ∧
  is_u64 (tc_unsupported_operation_count v) ∧ is_u64 (tc_decoder_error_count v) ∧
  is_u64 (tc_lost_event_count v) ∧ is_u64 (tc_final_ack_count v).

Definition FirstFailureV1_wf (v : FirstFailureV1) : Prop :=
  option_wf is_u64 (failure_event_sequence v) ∧ option_wf is_u32 (failure_logical_task_id v).

Definition TraceCompletenessV2_wf (v : TraceCompletenessV2) : Prop :=
  is_u64 (trace_required v) ∧ is_u64 (trace_complete v) ∧ is_u64 (trace_unsupported v) ∧
  is_u64 (trace_violation v) ∧ TraceCountersV1_wf (trace_counters v) ∧
  option_wf FirstFailureV1_wf (trace_first_failure v).

Definition AmbientEventV2_wf (v : AmbientEventV2) : Prop :=
  is_u64 (ambient_sequence v) ∧ is_u32 (ambient_logical_task_id v) ∧
  BlobRefV2_wf (ambient_canonical_detail v).

Definition StreamCaptureV2_wf (v : StreamCaptureV2) : Prop :=
  match v with
  | StreamCaptures.Complete blob => BlobRefV2_wf blob
  | StreamCaptures.Exceeded n => is_u64 n
  | StreamCaptures.Incomplete n _ => is_u64 n
  end.

Definition EffectResultV2_wf (v : EffectResultV2) : Prop :=
  StreamCaptureV2_wf (result_stdout v) ∧ StreamCaptureV2_wf (result_stderr v) ∧
  is_u32 (result_raw_linux_wait_status v).
