(* ===== verification/Paths.v ===== *)
(** * Sandbox paths, selectors and invocations

    The path predicates and joins of [src/src/linux_pytest.rs], the pytest
    selector grammar, the exact invocation form, and the lexical resolution of a
    symlink target of [src/src/linux_pytest/identity.rs]. Slices are split the
    way [slice::split] and [str::split] do: an empty slice has one empty part. *)

From Stdlib Require Import String.
From S2P Require Import Prelude Monad Bytes ContractTypes Canonical CanonicalSpec.
From S2P Require Import CanonicalCodec RecordTypes.

Definition SLASH : Z := 47.
Definition DOT : list Z := bstr ".".
Definition DOTDOT : list Z := bstr "..".

(** ** Slices and strings *)

(** [slice.split(|byte| *byte == separator)]. *)
Fixpoint split_on (separator : Z) (l : list Z) : list (list Z) :=
  match l with
  | [] => [[]]
  | b :: l =>
    if b =? separator then [] :: split_on separator l
    else match split_on separator l with
         | part :: parts => (b :: part) :: parts
         | [] => [[b]]
         end
  end.

(** [str.split("::")]; ':' is 58. *)
Fixpoint split_colons (l : list Z) : list (list Z) :=
  match l with
  | [] => [[]]
  | b :: t =>
    let push :=
      match split_colons t with
      | part :: parts => (b :: part) :: parts
      | [] => [[b]]
      end in
    match t with
    | c :: rest => if (b =? 58) && (c =? 58) then [] :: split_colons rest else push
    | [] => push
    end
  end.

Definition contains (byte : Z) (l : list Z) : bool := any (λ b, b =? byte) l.

Lemma contains_iff b l : contains b l = true ↔ b ∈ l.
Proof.
  unfold contains, any. induction l as [|x l IH]; cbn.
  - split; [done|by inversion 1].
  - rewrite orb_true_iff, IH, Z.eqb_eq, elem_of_cons. naive_solver.
Qed.

Definition starts_with (prefix l : list Z) : bool :=
  match strip_prefix prefix l with Some _ => true | None => false end.

Definition ends_with (suffix l : list Z) : bool := starts_with (reverse suffix) (reverse l).

Definition is_continuation (b : Z) : bool := (0x80 <=? b) && (b <=? 0xbf).

(** [std::str::from_utf8(bytes).is_ok()]: the well-formed sequences of UTF-8. *)
Fixpoint valid_utf8 (l : list Z) : bool :=
  match l with
  | [] => true
  | b :: l1 =>
    if b <=? 0x7f then valid_utf8 l1
    else match l1 with
    | [] => false
    | c :: l2 =>
      if (0xc2 <=? b) && (b <=? 0xdf) then is_continuation c && valid_utf8 l2
      else match l2 with
      | [] => false
      | d :: l3 =>
        if b =? 0xe0 then (0xa0 <=? c) && (c <=? 0xbf) && is_continuation d && valid_utf8 l3
        else if b =? 0xed then (0x80 <=? c) && (c <=? 0x9f) && is_continuation d && valid_utf8 l3
        else if (0xe1 <=? b) && (b <=? 0xef) then
          is_continuation c && is_continuation d && valid_utf8 l3
        else match l3 with
        | [] => false
        | e :: l4 =>
          (if b =? 0xf0 then (0x90 <=? c) && (c <=? 0xbf)
           else if b =? 0xf4 then (0x80 <=? c) && (c <=? 0x8f)
           else (0xf1 <=? b) && (b <=? 0xf3) && is_continuation c)
          && is_continuation d && is_continuation e && valid_utf8 l4
        end
      end
    end
  end.

Definition from_utf8 (bytes : list Z) : contract (list Z) :=
  if valid_utf8 bytes then Ok bytes else Err CanonicalDecoding.

(** ** Paths *)

(** [!component.is_empty() && component != b"." && component != b".."]. *)
Definition plain_component (component : list Z) : bool :=
  negb (bytes_eqb component []) && negb (bytes_eqb component DOT)
  && negb (bytes_eqb component DOTDOT).

Definition valid_sandbox_path_bytes (subject : list Z) : bool :=
  match subject with
  | first :: rest =>
    if negb (first =? SLASH) || contains 0 subject then false
    else if bytes_eqb subject [SLASH] then true
    else negb (ends_with [SLASH] subject) && forallb plain_component (split_on SLASH rest)
  | [] => false
  end.

Definition SandboxPath_new (bytes : list Z) : contract (list Z) :=
  if negb (valid_sandbox_path_bytes bytes) then Err MalformedRecord else Ok bytes.

Definition sandbox_path_is_ancestor (parent child : list Z) : bool :=
  match strip_prefix parent child with
  | Some suffix => starts_with [SLASH] suffix
  | None => false
  end.

Definition sandbox_path_is_within (root candidate : list Z) : bool :=
  bytes_eqb candidate root || sandbox_path_is_ancestor root candidate.

Definition PROFILE_OWNED : list (list Z) :=
  [bstr "/tmp"; bstr "/run"; bstr "/home/again"; bstr "/proc"; bstr "/dev"].

Definition runtime_mount_is_reserved (path : list Z) : bool :=
  if bytes_eqb path (bstr "/") || bytes_eqb path (bstr "/workspace") then true
  else any (λ root, sandbox_path_is_within root path) PROFILE_OWNED.

Definition valid_manifest_relative_path (path : list Z) : bool :=
  match path with
  | [] => true
  | _ :: _ =>
    negb (starts_with [SLASH] path) && negb (ends_with [SLASH] path) && negb (contains 0 path)
    && forallb plain_component (split_on SLASH path)
  end.

Definition valid_basename (name : list Z) : bool :=
  negb (bytes_eqb name []) && negb (bytes_eqb name DOT) && negb (bytes_eqb name DOTDOT)
  && negb (contains 0 name) && negb (contains SLASH name).

Definition join_relative (parent child : list Z) : list Z :=
  match parent with [] => child | _ :: _ => parent ++ [SLASH] ++ child end.

Definition join_sandbox_relative (mount relative : list Z) : list Z :=
  match relative with [] => mount | _ :: _ => mount ++ [SLASH] ++ relative end.

(** [path.iter().rposition(|byte| *byte == b'/')], then [path[..=end]]. *)
Fixpoint through_last_slash (path : list Z) : option (list Z) :=
  match path with
  | [] => None
  | b :: path =>
    match through_last_slash path with
    | Some prefix => Some (b :: prefix)
    | None => if b =? SLASH then Some [b] else None
    end
  end.

(** The loop over the components; the stack is kept with its top first. *)
Fixpoint normalize_components (stack : list (list Z)) (components : list (list Z)) :
    option (list (list Z)) :=
  match components with
  | [] => Some stack
  | component :: components =>
    if bytes_eqb component [] || bytes_eqb component DOT then
      normalize_components stack components
    else if bytes_eqb component DOTDOT then
      match stack with
      | [] => None
      | _ :: stack => normalize_components stack components
      end
    else normalize_components (component :: stack) components
  end.

(** The components with a slash between them. *)
Fixpoint join_components (components : list (list Z)) : list Z :=
  match components with
  | [] => []
  | [component] => component
  | component :: components => component ++ [SLASH] ++ join_components components
  end.

Definition resolved_symlink_target (path target : list Z) : option (list Z) :=
  combined ←
    (if starts_with [SLASH] target then Some target
     else prefix ← through_last_slash path; Some (prefix ++ target));
  if negb (starts_with [SLASH] combined) || contains 0 combined then None
  else
    stack ← normalize_components [] (split_on SLASH (tail combined));
    Some (SLASH :: join_components (reverse stack)).

(** ** Selectors *)

Definition reconstructed_raw (self : PytestSelectorV1) : list Z :=
  foldl (λ raw node, raw ++ bstr "::" ++ node) (selector_path self) (selector_nodes self).

Definition PytestSelectorV1_parse (raw : list Z) : result RefusalCode PytestSelectorV1 :=
  if negb (valid_utf8 raw) then Err RefusalCodes.SelectorNonUtf8
  else if bytes_eqb raw [] then Err RefusalCodes.SelectorMalformed
  else match split_colons raw with
  | [] => Err RefusalCodes.SelectorMalformed
  | path :: parts =>
    if bytes_eqb path [] then Err RefusalCodes.SelectorMalformed
    else if starts_with (bstr "-") path then Err RefusalCodes.SelectorOptionLike
    else if starts_with (bstr "@") path then Err RefusalCodes.ForbiddenArgument
    else if starts_with [SLASH] path || ends_with [SLASH] path
            || any (λ component, negb (plain_component component)) (split_on SLASH path)
    then Err RefusalCodes.SelectorPathEscape
    else
      nodes ← try_map (λ node, if bytes_eqb node [] then Err RefusalCodes.SelectorMalformed
                               else Ok node) parts;
      let selector := mkSelector raw path nodes in
      if bytes_eqb (reconstructed_raw selector) raw then Ok selector
      else Err RefusalCodes.SelectorMalformed
  end.

(** [PytestSelectorV1::parse(argument).is_ok_and(|parsed| parsed == selector)]. *)
Definition parses_to (argument : list Z) (selector : PytestSelectorV1) : bool :=
  match PytestSelectorV1_parse argument with
  | Ok parsed => bool_decide (parsed = selector)
  | Err _ => false
  end.

Definition valid_pytest_invocation (invocation : PytestInvocationIdentityV1) : bool :=
  let argv := invocation_argv invocation in
  let selectors := invocation_selectors invocation in
  (len argv =? 4 + len selectors) && (5 <=? len argv)
  && (len selectors <=? LINUX_PYTEST_V1_MAX_SELECTORS)
  && bool_decide (argv !! 0%nat = Some (bstr ".venv/bin/python"))
  && bool_decide (argv !! 1%nat = Some (bstr "-I"))
  && bool_decide (argv !! 2%nat = Some (bstr "-m"))
  && bool_decide (argv !! 3%nat = Some (bstr "pytest"))
  && bytes_eqb (invocation_cwd invocation) (bstr ".")
  && negb (len selectors =? 0)
  && forallb (λ argument, negb (bytes_eqb argument []) && negb (contains 0 argument)) argv
  && forallb (λ '(argument, selector), parses_to argument selector) (zip (drop 4 argv) selectors).

(** ** Paths as values of [SandboxPath]: its only constructor is [new] *)

Definition is_sandbox_path (p : list Z) : Prop :=
  is_bytes p ∧ valid_sandbox_path_bytes p = true.

Definition ObservationV2_wf (v : ObservationV2) : Prop :=
  is_u64 (observation_sequence v) ∧ is_u32 (observation_logical_task_id v) ∧
  is_sandbox_path (observation_sandbox_subject v) ∧
  ObservationDetails.ObservationDetailV1_wf (observation_canonical_detail v).

Definition OrderedEffectV2_wf (v : OrderedEffectV2) : Prop :=
  is_u64 (effect_sequence v) ∧ is_u32 (effect_logical_task_id v) ∧
  is_sandbox_path (effect_sandbox_subject v) ∧ BlobRefV2_wf (effect_canonical_detail v).

Definition ObservationDependencyV1_wf (v : ObservationDependencyV1) : Prop :=
  is_bytes (dependency_key v) ∧ is_sandbox_path (dependency_subject v) ∧
  BlobRefV2_wf (dependency_current_value v).

Definition ObservationClosureV1_wf (v : ObservationClosureV1) : Prop :=
  Forall ObservationDependencyV1_wf (closure_dependencies v).

Definition is_string (s : list Z) : Prop := is_bytes s ∧ valid_utf8 s = true.

Definition ShapeV1_wf (v : ShapeV1) : Prop :=
  is_string (shape_schema v) ∧ is_string (shape_profile_id v) ∧
  is_digest (shape_profile_digest v) ∧ is_digest (shape_workspace_identity v) ∧
  PytestInvocationIdentityV1_wf (shape_invocation v) ∧
  EnvironmentBindingV1_wf (shape_environment v) ∧
  Forall is_sandbox_path (shape_resolved_selector_targets v) ∧
  is_digest (shape_executable_chain_digest v) ∧ is_bytes (shape_executable_chain_witness v) ∧
  is_digest (shape_runtime_root v) ∧ is_digest (shape_capability_digest v) ∧
  is_digest (shape_namespace_policy_digest v) ∧ PolicyDigestsV1_wf (shape_policy_digests v).

Definition EffectRecordV2_wf (v : EffectRecordV2) : Prop :=
  is_string (record_schema v) ∧ is_id (record_id v) ∧ is_string (record_profile_id v) ∧
  is_digest (record_profile_digest v) ∧ is_digest (record_shape_key v) ∧
  is_digest (record_request_key v) ∧ PytestInvocationIdentityV1_wf (record_invocation v) ∧
  is_digest (record_workspace_identity v) ∧ EnvironmentBindingV1_wf (record_environment v) ∧
  SealedSnapshotIdentityV2_wf (record_sealed_snapshot v) ∧
  PlatformIdentityV2_wf (record_platform v) ∧ TraceCompletenessV2_wf (record_trace v) ∧
  Forall ObservationV2_wf (record_observations v) ∧
  Forall AmbientEventV2_wf (record_ambient_events v) ∧
  Forall OrderedEffectV2_wf (record_ordered_effects v) ∧
  is_digest (record_final_workspace_root v) ∧ EffectResultV2_wf (record_result v) ∧
  option_wf is_id (record_primary_record_id v) ∧ is_u64 (record_created_monotonic_ns v) ∧
  ShapeV1_wf (record_shape v) ∧ ObservationClosureV1_wf (record_observation_closure v).
