(* ===== verification/RecordValidation.v ===== *)
(** * Validation of the parts of an effect record

    The checks of [src/src/linux_pytest.rs] that need no hashing: completeness
    masks and counters of a trace, observation details and the dependency keys
    they project to, normalization of an observation closure, namespace
    identities, stream captures, the union of trace events and the derived
    execute-only reason. [BTreeSet::insert] is a membership test on the sequences
    accepted so far; [sort_by] is a stable sort. *)

From Stdlib Require Import String.
From S2P Require Import Prelude Monad Bytes WaitStatus ContractTypes Canonical CanonicalSpec.
From S2P Require Import RecordTypes Paths.
Import Dimensions.

(** ** Traces *)

Definition failure_inconsistent (self : TraceCompletenessV2) (failure : FirstFailureV1) : bool :=
  negb (EffectBitmap_contains (trace_required self) (failure_dimension failure))
  || EffectBitmap_contains (trace_complete self) (failure_dimension failure)
  || match failure_event_sequence failure with
     | Some sequence => (sequence =? 0) || (tc_final_sequence (trace_counters self) <? sequence)
     | None => false
     end
  || match failure_logical_task_id failure with
     | Some task => (task =? 0) || (tc_task_birth_count (trace_counters self) <? task)
     | None => false
     end.

Definition TraceCompletenessV2_validate (self : TraceCompletenessV2) : contract () :=
  let counters := trace_counters self in
  if negb (trace_required self =? EffectBitmap_REQUIRED_V2)
     || EffectBitmap_has_unknown_bits (trace_required self)
     || EffectBitmap_has_unknown_bits (trace_complete self)
     || EffectBitmap_has_unknown_bits (trace_unsupported self)
     || EffectBitmap_has_unknown_bits (trace_violation self)
     || negb (Z.land (trace_complete self) (not_u64 (trace_required self)) =? 0)
     || negb (Z.land (trace_unsupported self) (not_u64 (trace_required self)) =? 0)
     || negb (Z.land (trace_violation self) (not_u64 (trace_required self)) =? 0)
     || negb (Z.land (trace_complete self) (trace_unsupported self) =? 0)
     || negb (Z.land (trace_complete self) (trace_violation self) =? 0)
     || match trace_first_failure self with
        | Some failure => failure_inconsistent self failure
        | None => false
        end
     || (negb (trace_complete self =? trace_required self)
         || negb (trace_unsupported self =? EffectBitmap_EMPTY)
         || negb (trace_violation self =? EffectBitmap_EMPTY))
        && match trace_first_failure self with Some _ => false | None => true end
     || (LINUX_PYTEST_V1_MAX_TRACE_EVENTS <? tc_final_sequence counters)
     || (LINUX_PYTEST_V1_MAX_TRACE_EVENTS <? tc_event_count counters)
     || (LINUX_PYTEST_V1_MAX_TRACE_EVENTS <? tc_syscall_event_count counters)
     || (tc_syscall_event_count counters <? tc_seccomp_trace_count counters)
     || (LINUX_PYTEST_V1_MAX_TRACE_EVENTS <? tc_ptrace_event_count counters)
     || (LINUX_PYTEST_V1_MAX_TRACE_BYTES <? tc_trace_encoded_bytes counters)
     || (LINUX_PYTEST_V1_MAX_TASK_LIFETIMES <? tc_task_birth_count counters)
     || (tc_task_birth_count counters <? tc_task_exec_count counters)
     || (tc_task_birth_count counters <? tc_task_exit_count counters)
     || (tc_task_exit_count counters <? tc_task_reap_count counters)
     || (1 <? tc_final_ack_count counters)
  then Err InvalidCompletenessMasks else Ok ().

Definition TraceCompletenessV2_candidate_complete (self : TraceCompletenessV2) : bool :=
  let counters := trace_counters self in
  let expected_ptrace_event_count :=
    count ← u64_checked_add (tc_task_birth_count counters) (tc_task_exec_count counters);
    u64_checked_add count (tc_task_exit_count counters) in
  is_ok (TraceCompletenessV2_validate self)
  && (trace_required self =? EffectBitmap_REQUIRED_V2)
  && (trace_complete self =? trace_required self)
  && (trace_unsupported self =? EffectBitmap_EMPTY)
  && (trace_violation self =? EffectBitmap_EMPTY)
  && (tc_final_sequence counters =? tc_event_count counters)
  && negb (tc_event_count counters =? 0)
  && (tc_syscall_event_count counters =? tc_event_count counters)
  && (tc_seccomp_trace_count counters =? tc_syscall_event_count counters)
  && bool_decide (Some (tc_ptrace_event_count counters) = expected_ptrace_event_count)
  && (tc_event_count counters <=? tc_trace_encoded_bytes counters)
  && negb (tc_task_birth_count counters =? 0)
  && negb (tc_task_exec_count counters =? 0)
  && (tc_task_birth_count counters =? tc_task_exit_count counters)
  && (tc_task_exit_count counters =? tc_task_reap_count counters)
  && (tc_denied_operation_count counters =? 0)
  && (tc_unsupported_operation_count counters =? 0)
  && (tc_decoder_error_count counters =? 0)
  && (tc_lost_event_count counters =? 0)
  && (tc_final_ack_count counters =? 1)
  && match trace_first_failure self with None => true | Some _ => false end.

(** ** Observation details *)

Module Details.
Import ObservationDetails.

Definition ObservationDetailV1_kind (self : ObservationDetailV1) : ObservationKindV2 :=
  match self with
  | File _ _ => ObservationKinds.File
  | Directory _ _ => ObservationKinds.Directory
  | AbsentPath _ _ => ObservationKinds.AbsentPath
  | Symlink _ => ObservationKinds.Symlink
  | Executable _ _ => ObservationKinds.Executable
  | Mapping _ _ _ _ _ => ObservationKinds.Mapping
  | Metadata _ _ => ObservationKinds.Metadata
  end.

Definition ObservationDetailV1_validate (self : ObservationDetailV1) : contract () :=
  let valid :=
    match self with
    | File content_digest _ => negb (digest_is_zero content_digest)
    | Directory membership_digest _ => negb (digest_is_zero membership_digest)
    | AbsentPath parent_membership_digest missing_component =>
      negb (digest_is_zero parent_membership_digest) && valid_basename missing_component
    | Symlink target =>
      negb (bytes_eqb target []) && negb (contains 0 target)
      && (len target <=? EFFECT_IR_V2_MAX_CANONICAL_BYTES)
    | Executable node_digest chain_digest =>
      negb (digest_is_zero node_digest) && negb (digest_is_zero chain_digest)
    | Mapping content_digest offset length _ _ =>
      negb (digest_is_zero content_digest) && negb (length =? 0)
      && match u64_checked_add offset length with Some _ => true | None => false end
    | Metadata field_mask value_digest =>
      negb (field_mask =? 0) && (Z.land field_mask (not_u64 0x01ff) =? 0)
      && negb (digest_is_zero value_digest)
    end in
  if valid then Ok () else Err MalformedRecord.

Definition fixed_dependency_key (kind : ObservationKindV2) : option (list Z) :=
  match kind with
  | ObservationKinds.File => Some (bstr "bytes")
  | ObservationKinds.Directory => Some (bstr "members")
  | ObservationKinds.AbsentPath => Some (bstr "absent")
  | ObservationKinds.Symlink => Some (bstr "target")
  | ObservationKinds.Executable => Some (bstr "executable")
  | ObservationKinds.Mapping | ObservationKinds.Metadata => None
  end.

(** The [unreachable!] arm is the last one: every other kind has a fixed key. *)
Definition ObservationDetailV1_dependency_key (self : ObservationDetailV1) : list Z :=
  match fixed_dependency_key (ObservationDetailV1_kind self) with
  | Some fixed => fixed
  | None =>
    match self with
    | Mapping _ offset length protection flags =>
      bstr "mapping-v1" ++ be_bytes 8 offset ++ be_bytes 8 length
        ++ be_bytes 4 protection ++ be_bytes 4 flags
    | Metadata field_mask _ => bstr "metadata-v1" ++ be_bytes 8 field_mask
    | _ => []
    end
  end.
End Details.

Definition valid_observation_dependency_key (kind : ObservationKindV2) (key : list Z) : bool :=
  match Details.fixed_dependency_key kind with
  | Some fixed => bytes_eqb key fixed
  | None =>
    match kind with
    | ObservationKinds.Mapping =>
      starts_with (bstr "mapping-v1") key && (len key =? 10 + 8 + 8 + 4 + 4)
    | ObservationKinds.Metadata =>
      if negb (starts_with (bstr "metadata-v1") key) || negb (len key =? 11 + 8) then false
      else
        let mask := be_value (drop 11 key) in
        negb (mask =? 0) && (Z.land mask (not_u64 0x01ff) =? 0)
    | _ => false
    end
  end.

(** ** Observation closures *)

(** [<[u8]>::cmp]: lexicographic. *)
Fixpoint bytes_compare (a b : list Z) : comparison :=
  match a, b with
  | [], [] => Eq
  | [], _ :: _ => Lt
  | _ :: _, [] => Gt
  | x :: a, y :: b => match x ?= y with Eq => bytes_compare a b | o => o end
  end.

Definition then_with (o p : comparison) : comparison :=
  match o with Eq => p | _ => o end.

Definition compare_dependency_identity (left right : ObservationDependencyV1) : comparison :=
  then_with
    (then_with
       (ObservationKinds.ObservationKindV2_as_u16 (dependency_kind left)
          ?= ObservationKinds.ObservationKindV2_as_u16 (dependency_kind right))
       (bytes_compare (dependency_subject left) (dependency_subject right)))
    (bytes_compare (dependency_key left) (dependency_key right)).

(** A stable sort: an element goes before the first element it is not greater than. *)
Fixpoint stable_insert {A} (compare : A → A → comparison) (x : A) (l : list A) : list A :=
  match l with
  | [] => [x]
  | y :: l =>
    match compare x y with
    | Gt => y :: stable_insert compare x l
    | _ => x :: y :: l
    end
  end.

Fixpoint stable_sort {A} (compare : A → A → comparison) (l : list A) : list A :=
  match l with
  | [] => []
  | x :: l => stable_insert compare x (stable_sort compare l)
  end.

(** [windows(2).any(p)]. *)
Fixpoint windows_any {A} (p : A → A → bool) (l : list A) : bool :=
  match l with
  | x :: ((y :: _) as l') => p x y || windows_any p l'
  | _ => false
  end.

Definition ObservationClosureV1_validate (self : ObservationClosureV1) : contract () :=
  let dependencies := closure_dependencies self in
  if (len dependencies =? 0)
     || windows_any
          (λ a b, match compare_dependency_identity a b with Lt => false | _ => true end)
          dependencies
     || any
          (λ dependency,
             negb (valid_sandbox_path_bytes (dependency_subject dependency))
             || negb (valid_observation_dependency_key
                        (dependency_kind dependency) (dependency_key dependency))
             || digest_is_zero (blob_digest (dependency_current_value dependency))
             || (EFFECT_IR_V2_MAX_CANONICAL_BYTES
                   <? blob_byte_count (dependency_current_value dependency)))
          dependencies
  then Err MalformedLookupIdentity else Ok ().

(** The loop that merges equal neighbours; [normalized] is kept in order. *)
Fixpoint merge_dependencies (normalized dependencies : list ObservationDependencyV1) :
    contract (list ObservationDependencyV1) :=
  match dependencies with
  | [] => Ok normalized
  | dependency :: dependencies =>
    match list.last normalized with
    | Some previous =>
      match compare_dependency_identity previous dependency with
      | Eq =>
        if bool_decide (previous = dependency) then merge_dependencies normalized dependencies
        else Err MalformedLookupIdentity
      | _ => merge_dependencies (normalized ++ [dependency]) dependencies
      end
    | None => merge_dependencies (normalized ++ [dependency]) dependencies
    end
  end.

Definition ObservationClosureV1_new (dependencies : list ObservationDependencyV1) :
    contract ObservationClosureV1 :=
  normalized ← merge_dependencies [] (stable_sort compare_dependency_identity dependencies);
  let value := mkClosure normalized in
  _ ← ObservationClosureV1_validate value;
  Ok value.

(** ** Records *)

Definition valid_namespace_ids (ids : NamespaceIdsV1) : bool :=
  let values := [ns_user ids; ns_mount ids; ns_pid ids; ns_network ids; ns_uts ids; ns_ipc ids] in
  forallb (λ value, negb (value =? 0)) values
  && (length (remove_dups values) =? length values)%nat.

Definition valid_stream (stream : StreamCaptureV2) : bool :=
  match stream with
  | StreamCaptures.Complete blob =>
    negb (digest_is_zero (blob_digest blob))
    && (blob_byte_count blob <=? LINUX_PYTEST_V1_MAX_STREAM_BYTES)
  | StreamCaptures.Exceeded observed_bytes => LINUX_PYTEST_V1_MAX_STREAM_BYTES <? observed_bytes
  | StreamCaptures.Incomplete observed_bytes _ =>
    observed_bytes <=? LINUX_PYTEST_V1_MAX_STREAM_BYTES
  end.

Definition valid_result_capture (result : EffectResultV2) : bool :=
  valid_stream (result_stdout result) && valid_stream (result_stderr result).

Fixpoint strictly_increasing_from (previous : option Z) (values : list Z) : bool :=
  match values with
  | [] => true
  | value :: values =>
    if match previous with Some prior => value <=? prior | None => false end then false
    else strictly_increasing_from (Some value) values
  end.

Definition strictly_increasing (values : list Z) : bool := strictly_increasing_from None values.

(** One event as [accept] sees it: its sequence, its task and whether its detail
    is valid. *)
Definition union_event : Type := Z * Z * bool.

(** The three [all] passes run [accept] over the events in order and share the
    set of sequences. *)
Fixpoint accept_all (final_sequence task_birth_count : Z) (sequences : list Z)
    (events : list union_event) : bool :=
  match events with
  | [] => true
  | (sequence, task, detail_valid) :: events =>
    negb (sequence =? 0) && (sequence <=? final_sequence)
    && negb (task =? 0) && (task <=? task_birth_count)
    && detail_valid && negb (contains sequence sequences)
    && accept_all final_sequence task_birth_count (sequence :: sequences) events
  end.

Definition detail_blob_valid (blob : BlobRefV2) : bool :=
  negb (digest_is_zero (blob_digest blob))
  && (blob_byte_count blob <=? EFFECT_IR_V2_MAX_CANONICAL_BYTES).

Definition observation_event (event : ObservationV2) : union_event :=
  (observation_sequence event, observation_logical_task_id event,
   bool_decide (observation_kind event
                = Details.ObservationDetailV1_kind (observation_canonical_detail event))
   && is_ok (Details.ObservationDetailV1_validate (observation_canonical_detail event))).

Definition ambient_event (event : AmbientEventV2) : union_event :=
  (ambient_sequence event, ambient_logical_task_id event,
   detail_blob_valid (ambient_canonical_detail event)).

Definition effect_event (event : OrderedEffectV2) : union_event :=
  (effect_sequence event, effect_logical_task_id event,
   detail_blob_valid (effect_canonical_detail event)).

Definition valid_trace_event_union (record : EffectRecordV2) : bool :=
  let counters := trace_counters (record_trace record) in
  match count ← u64_checked_add (len (record_observations record))
                  (len (record_ambient_events record));
        u64_checked_add count (len (record_ordered_effects record)) with
  | None => false
  | Some semantic_count =>
    if (semantic_count =? 0) || (tc_event_count counters <? semantic_count) then false
    else
      accept_all (tc_final_sequence counters) (tc_task_birth_count counters) []
        ((observation_event <$> record_observations record)
         ++ (ambient_event <$> record_ambient_events record)
         ++ (effect_event <$> record_ordered_effects record))
  end.

Definition stream_reason (limit : ExecuteOnlyCode) (stream : StreamCaptureV2) :
    option ExecuteOnlyCode :=
  match stream with
  | StreamCaptures.Exceeded _ => Some limit
  | StreamCaptures.Incomplete _ reason => Some reason
  | StreamCaptures.Complete _ => None
  end.

Definition derived_execute_only_reason (record : EffectRecordV2) : option ExecuteOnlyCode :=
  match trace_first_failure (record_trace record) with
  | Some failure => Some (failure_reason failure)
  | None =>
    match stream_reason ExecuteOnlyCodes.StdoutLimit (result_stdout (record_result record)) with
    | Some reason => Some reason
    | None =>
      match stream_reason ExecuteOnlyCodes.StderrLimit (result_stderr (record_result record)) with
      | Some reason => Some reason
      | None =>
        let status := result_raw_linux_wait_status (record_result record) in
        match raw_terminating_signal status with
        | Some _ => Some ExecuteOnlyCodes.ForegroundSignaled
        | None =>
          match raw_exit_code status with
          | Some code =>
            if negb (code =? 0) then Some ExecuteOnlyCodes.ForegroundNonzeroExit else None
          | None => None
          end
        end
      end
    end
  end.

Definition has_complete_success_result (self : EffectRecordV2) : bool :=
  TraceCompletenessV2_candidate_complete (record_trace self)
  && match StreamCaptures.complete_blob (result_stdout (record_result self)) with
     | Some _ => true | None => false end
  && match StreamCaptures.complete_blob (result_stderr (record_result self)) with
     | Some _ => true | None => false end
  && raw_is_success (result_raw_linux_wait_status (record_result self)).

(** Proofs unfold these by name. *)
#[global] Arguments TraceCompletenessV2_validate : simpl never.
#[global] Arguments Details.ObservationDetailV1_validate : simpl never.
#[global] Arguments ObservationClosureV1_validate : simpl never.
#[global] Arguments valid_trace_event_union : simpl never.
