(* ===== verification/RecordCodec.v ===== *)
(** * The canonical codec of the parts of an effect record

    [encode_*] and [decode_*] of [src/src/linux_pytest/canonical.rs] for every
    structure nested in a record, field by field as the source writes and reads
    them. *)

From S2P Require Import Prelude Monad Bytes ContractTypes Canonical CanonicalSpec.
From S2P Require Import RecordTypes Paths RecordValidation.
Import Wire Dimensions.

Definition TYPE_EFFECT_RECORD : Z := 0x0001.
Definition TYPE_INVOCATION : Z := 0x0002.
Definition TYPE_SELECTOR : Z := 0x0003.
Definition TYPE_ENVIRONMENT : Z := 0x0004.
Definition TYPE_SNAPSHOT : Z := 0x0005.
Definition TYPE_PLATFORM : Z := 0x0006.
Definition TYPE_NAMESPACE_IDS : Z := 0x0007.
Definition TYPE_POLICY_DIGESTS : Z := 0x0008.
Definition TYPE_TRACE : Z := 0x0009.
Definition TYPE_TRACE_COUNTERS : Z := 0x000a.
Definition TYPE_FIRST_FAILURE : Z := 0x000b.
Definition TYPE_OBSERVATION : Z := 0x000c.
Definition TYPE_AMBIENT_EVENT : Z := 0x000d.
Definition TYPE_ORDERED_EFFECT : Z := 0x000e.
Definition TYPE_BLOB_REF : Z := 0x000f.
Definition TYPE_RESULT : Z := 0x0010.
Definition TYPE_COMPARISON_VIEW : Z := 0x0011.
Definition TYPE_SHAPE : Z := 0x0012.
Definition TYPE_OBSERVATION_CLOSURE : Z := 0x0013.
Definition TYPE_OBSERVATION_DEPENDENCY : Z := 0x0014.
Definition TYPE_COMPARISON_SNAPSHOT : Z := 0x0015.
Definition TYPE_COMPARISON_PLATFORM : Z := 0x0016.
Definition TYPE_COMPARISON_RULES : Z := 0x0017.
Definition TYPE_OBSERVATION_DETAIL : Z := 0x0018.

(** ** Encoding *)

Definition encode_blob (value : BlobRefV2) : contract (list Z) :=
  let object := ObjectBuilder_new TYPE_BLOB_REF in
  object ← ObjectBuilder_bytes object 1 (blob_digest value);
  object ← ObjectBuilder_u64 object 2 (blob_byte_count value);
  ObjectBuilder_finish_nested object.

Definition encode_selector (value : PytestSelectorV1) : contract (list Z) :=
  let object := ObjectBuilder_new TYPE_SELECTOR in
  object ← ObjectBuilder_bytes object 1 (selector_raw value);
  object ← ObjectBuilder_bytes object 2 (selector_path value);
  object ← ObjectBuilder_list object 3 (selector_nodes value);
  ObjectBuilder_finish_nested object.

Definition encode_invocation (value : PytestInvocationIdentityV1) : contract (list Z) :=
  let object := ObjectBuilder_new TYPE_INVOCATION in
  object ← ObjectBuilder_list object 1 (invocation_argv value);
  object ← ObjectBuilder_bytes object 2 (invocation_cwd value);
  selectors ← try_map encode_selector (invocation_selectors value);
  object ← ObjectBuilder_list object 3 selectors;
  object ← ObjectBuilder_enumeration object 4
    (StdinProfileV1_as_u16 (invocation_stdin_profile value)) [];
  ObjectBuilder_finish_nested object.

Definition encode_environment (value : EnvironmentBindingV1) : contract (list Z) :=
  let object := ObjectBuilder_new TYPE_ENVIRONMENT in
  object ← ObjectBuilder_bytes object 1 (environment_key_id value);
  object ← ObjectBuilder_bytes object 2 (environment_digest value);
  object ← ObjectBuilder_bytes object 3 (environment_names_digest value);
  object ← ObjectBuilder_u32 object 4 (environment_entry_count value);
  object ← ObjectBuilder_bytes object 5 (environment_policy_digest value);
  ObjectBuilder_finish_nested object.

Definition encode_snapshot (value : SealedSnapshotIdentityV2) : contract (list Z) :=
  let object := ObjectBuilder_new TYPE_SNAPSHOT in
  object ← ObjectBuilder_bytes object 1 (snapshot_id value);
  object ← ObjectBuilder_bytes object 2 (snapshot_workspace_root value);
  object ← ObjectBuilder_bytes object 3 (snapshot_runtime_root value);
  blob ← encode_blob (snapshot_manifest_blob value);
  object ← ObjectBuilder_object object 4 blob;
  object ← ObjectBuilder_bytes object 5 (snapshot_profile_digest value);
  ObjectBuilder_finish_nested object.

Definition encode_namespace_ids (value : NamespaceIdsV1) : contract (list Z) :=
  let object := ObjectBuilder_new TYPE_NAMESPACE_IDS in
  object ← ObjectBuilder_u64 object 1 (ns_user value);
  object ← ObjectBuilder_u64 object 2 (ns_mount value);
  object ← ObjectBuilder_u64 object 3 (ns_pid value);
  object ← ObjectBuilder_u64 object 4 (ns_network value);
  object ← ObjectBuilder_u64 object 5 (ns_uts value);
  object ← ObjectBuilder_u64 object 6 (ns_ipc value);
  ObjectBuilder_finish_nested object.

Definition encode_policy_digests (value : PolicyDigestsV1) : contract (list Z) :=
  let object := ObjectBuilder_new TYPE_POLICY_DIGESTS in
  object ← ObjectBuilder_bytes object 1 (policy_seccomp value);
  object ← ObjectBuilder_bytes object 2 (policy_landlock value);
  object ← ObjectBuilder_bytes object 3 (policy_namespace value);
  object ← ObjectBuilder_bytes object 4 (policy_tracer_runtime value);
  object ← ObjectBuilder_bytes object 5 (policy_ambient_broker value);
  object ← ObjectBuilder_bytes object 6 (policy_limits value);
  object ← ObjectBuilder_bytes object 7 (policy_environment value);
  object ← ObjectBuilder_bytes object 8 (policy_selector_grammar value);
  object ← ObjectBuilder_bytes object 9 (policy_runtime_closure value);
  object ← ObjectBuilder_bytes object 10 (policy_codec value);
  ObjectBuilder_finish_nested object.

Definition encode_platform (value : PlatformIdentityV2) : contract (list Z) :=
  let object := ObjectBuilder_new TYPE_PLATFORM in
  object ← ObjectBuilder_enumeration object 1
    (ArchitectureV1_as_u16 (platform_architecture value)) [];
  object ← ObjectBuilder_bytes object 2 (platform_kernel_release value);
  object ← ObjectBuilder_bytes object 3 (platform_capability_digest value);
  namespace_ids ← encode_namespace_ids (platform_namespace_ids value);
  object ← ObjectBuilder_object object 4 namespace_ids;
  object ← ObjectBuilder_bytes object 5 (platform_namespace_policy_digest value);
  policy_digests ← encode_policy_digests (platform_policy_digests value);
  object ← ObjectBuilder_object object 6 policy_digests;
  ObjectBuilder_finish_nested object.

Definition encode_trace_counters (value : TraceCountersV1) : contract (list Z) :=
  let object := ObjectBuilder_new TYPE_TRACE_COUNTERS in
  object ← ObjectBuilder_u64 object 1 (tc_final_sequence value);
  object ← ObjectBuilder_u64 object 2 (tc_event_count value);
  object ← ObjectBuilder_u64 object 3 (tc_syscall_event_count value);
  object ← ObjectBuilder_u64 object 4 (tc_seccomp_trace_count value);
  object ← ObjectBuilder_u64 object 5 (tc_ptrace_event_count value);
  object ← ObjectBuilder_u64 object 6 (tc_trace_encoded_bytes value);
  object ← ObjectBuilder_u64 object 7 (tc_task_birth_count value);
  object ← ObjectBuilder_u64 object 8 (tc_task_exec_count value);
  object ← ObjectBuilder_u64 object 9 (tc_task_exit_count value);
  object ← ObjectBuilder_u64 object 10 (tc_task_reap_count value);
  object ← ObjectBuilder_u64 object 11 (tc_observation_count value);
  object ← ObjectBuilder_u64 object 12 (tc_ambient_event_count value);
  object ← ObjectBuilder_u64 object 13 (tc_ordered_effect_count value);
  object ← ObjectBuilder_u64 object 14 (tc_denied_operation_count value);
  object ← ObjectBuilder_u64 object 15 (tc_unsupported_operation_count value);
  object ← ObjectBuilder_u64 object 16 (tc_decoder_error_count value);
  object ← ObjectBuilder_u64 object 17 (tc_lost_event_count value);
  object ← ObjectBuilder_u64 object 18 (tc_final_ack_count value);
  ObjectBuilder_finish_nested object.

Definition encode_first_failure (value : FirstFailureV1) : contract (list Z) :=
  let object := ObjectBuilder_new TYPE_FIRST_FAILURE in
  object ← ObjectBuilder_field object 1 U8
    [CompletenessDimensionV2_as_u8 (failure_dimension value)];
  object ← ObjectBuilder_u16 object 2
    (ExecuteOnlyCodes.ExecuteOnlyCode_as_u16 (failure_reason value));
  object ← ObjectBuilder_enumeration object 3
    (TracePhases.TracePhaseV1_as_u16 (failure_phase value)) [];
  object ← ObjectBuilder_optional object 4 (be_bytes 8 <$> failure_event_sequence value);
  object ← ObjectBuilder_optional object 5 (be_bytes 4 <$> failure_logical_task_id value);
  ObjectBuilder_finish_nested object.

Definition encode_trace (value : TraceCompletenessV2) : contract (list Z) :=
  let object := ObjectBuilder_new TYPE_TRACE in
  object ← ObjectBuilder_u64 object 1 (trace_required value);
  object ← ObjectBuilder_u64 object 2 (trace_complete value);
  object ← ObjectBuilder_u64 object 3 (trace_unsupported value);
  object ← ObjectBuilder_u64 object 4 (trace_violation value);
  counters ← encode_trace_counters (trace_counters value);
  object ← ObjectBuilder_object object 5 counters;
  first_failure ← try_option encode_first_failure (trace_first_failure value);
  object ← ObjectBuilder_optional object 6 first_failure;
  ObjectBuilder_finish_nested object.

(** The variant and the fields an observation detail is written as. *)
Definition detail_fields (value : ObservationDetailV1) : Z * list Field :=
  match value with
  | ObservationDetails.File content_digest byte_count =>
    (1, [enum_field 1 Bytes content_digest; enum_field 2 U64 (be_bytes 8 byte_count)])
  | ObservationDetails.Directory membership_digest entry_count =>
    (2, [enum_field 1 Bytes membership_digest; enum_field 2 U64 (be_bytes 8 entry_count)])
  | ObservationDetails.AbsentPath parent_membership_digest missing_component =>
    (3, [enum_field 1 Bytes parent_membership_digest; enum_field 2 Bytes missing_component])
  | ObservationDetails.Symlink target => (4, [enum_field 1 Bytes target])
  | ObservationDetails.Executable node_digest chain_digest =>
    (5, [enum_field 1 Bytes node_digest; enum_field 2 Bytes chain_digest])
  | ObservationDetails.Mapping content_digest offset length protection flags =>
    (6, [enum_field 1 Bytes content_digest; enum_field 2 U64 (be_bytes 8 offset);
         enum_field 3 U64 (be_bytes 8 length); enum_field 4 U32 (be_bytes 4 protection);
         enum_field 5 U32 (be_bytes 4 flags)])
  | ObservationDetails.Metadata field_mask value_digest =>
    (7, [enum_field 1 U64 (be_bytes 8 field_mask); enum_field 2 Bytes value_digest])
  end.

Definition encode_observation_detail (value : ObservationDetailV1) (top : bool) :
    contract (list Z) :=
  _ ← Details.ObservationDetailV1_validate value;
  let '(variant, fields) := detail_fields value in
  let object := ObjectBuilder_new TYPE_OBSERVATION_DETAIL in
  object ← ObjectBuilder_enumeration object 1 variant fields;
  if top then ObjectBuilder_finish_top object else ObjectBuilder_finish_nested object.

Definition encode_observation_detail_top (value : ObservationDetailV1) : contract (list Z) :=
  encode_observation_detail value true.

Definition encode_observation (value : ObservationV2) : contract (list Z) :=
  let object := ObjectBuilder_new TYPE_OBSERVATION in
  object ← ObjectBuilder_u64 object 1 (observation_sequence value);
  object ← ObjectBuilder_u32 object 2 (observation_logical_task_id value);
  object ← ObjectBuilder_enumeration object 3
    (ObservationKinds.ObservationKindV2_as_u16 (observation_kind value)) [];
  object ← ObjectBuilder_bytes object 4 (observation_sandbox_subject value);
  detail ← encode_observation_detail (observation_canonical_detail value) false;
  object ← ObjectBuilder_object object 5 detail;
  ObjectBuilder_finish_nested object.

Definition encode_ambient (value : AmbientEventV2) : contract (list Z) :=
  let object := ObjectBuilder_new TYPE_AMBIENT_EVENT in
  object ← ObjectBuilder_u64 object 1 (ambient_sequence value);
  object ← ObjectBuilder_u32 object 2 (ambient_logical_task_id value);
  object ← ObjectBuilder_enumeration object 3
    (AmbientKinds.AmbientKindV2_as_u16 (ambient_kind value)) [];
  detail ← encode_blob (ambient_canonical_detail value);
  object ← ObjectBuilder_object object 4 detail;
  ObjectBuilder_finish_nested object.

Definition encode_effect (value : OrderedEffectV2) : contract (list Z) :=
  let object := ObjectBuilder_new TYPE_ORDERED_EFFECT in
  object ← ObjectBuilder_u64 object 1 (effect_sequence value);
  object ← ObjectBuilder_u32 object 2 (effect_logical_task_id value);
  object ← ObjectBuilder_enumeration object 3
    (EffectKinds.EffectKindV2_as_u16 (effect_kind value)) [];
  object ← ObjectBuilder_bytes object 4 (effect_sandbox_subject value);
  detail ← encode_blob (effect_canonical_detail value);
  object ← ObjectBuilder_object object 5 detail;
  ObjectBuilder_finish_nested object.

Definition encode_stream (value : StreamCaptureV2) : contract (list Z) :=
  match value with
  | StreamCaptures.Complete blob =>
    blob ← encode_blob blob; encode_enum 1 [enum_field 1 Object blob]
  | StreamCaptures.Exceeded observed_bytes =>
    encode_enum 2 [enum_field 1 U64 (be_bytes 8 observed_bytes)]
  | StreamCaptures.Incomplete observed_bytes reason =>
    encode_enum 3
      [enum_field 1 U64 (be_bytes 8 observed_bytes);
       enum_field 2 U16 (be_bytes 2 (ExecuteOnlyCodes.ExecuteOnlyCode_as_u16 reason))]
  end.

Definition encode_result (value : EffectResultV2) : contract (list Z) :=
  let object := ObjectBuilder_new TYPE_RESULT in
  stdout ← encode_stream (result_stdout value);
  object ← ObjectBuilder_field object 1 Enum stdout;
  stderr ← encode_stream (result_stderr value);
  object ← ObjectBuilder_field object 2 Enum stderr;
  object ← ObjectBuilder_u32 object 3 (result_raw_linux_wait_status value);
  ObjectBuilder_finish_nested object.

Definition encode_observation_dependency (value : ObservationDependencyV1) :
    contract (list Z) :=
  let object := ObjectBuilder_new TYPE_OBSERVATION_DEPENDENCY in
  object ← ObjectBuilder_bytes object 1 (dependency_key value);
  object ← ObjectBuilder_enumeration object 2
    (ObservationKinds.ObservationKindV2_as_u16 (dependency_kind value)) [];
  object ← ObjectBuilder_bytes object 3 (dependency_subject value);
  blob ← encode_blob (dependency_current_value value);
  object ← ObjectBuilder_object object 4 blob;
  ObjectBuilder_finish_nested object.

(** ** Decoding *)

Definition decode_blob (bytes : list Z) : contract BlobRefV2 :=
  object ← RawObject_parse_nested bytes;
  _ ← RawObject_expect object TYPE_BLOB_REF [(1, Bytes); (2, U64)];
  p1 ← RawObject_payload object 1; digest ← exact 32 p1;
  p2 ← RawObject_payload object 2; byte_count ← decode_u64 p2;
  Ok (mkBlobRef digest byte_count).

Definition decode_selector (bytes : list Z) : contract PytestSelectorV1 :=
  object ← RawObject_parse_nested bytes;
  _ ← RawObject_expect object TYPE_SELECTOR [(1, Bytes); (2, Bytes); (3, List)];
  raw ← RawObject_payload object 1;
  path ← RawObject_payload object 2;
  p3 ← RawObject_payload object 3; nodes ← decode_list p3;
  Ok (mkSelector raw path nodes).

Definition decode_stdin_profile (bytes : list Z) : contract StdinProfileV1 :=
  variant ← decode_simple_enum bytes;
  match variant with
  | 1 => Ok ClosedEof
  | 2 => Ok EmptyNonTtyEof
  | _ => Err CanonicalDecoding
  end.

Definition decode_invocation (bytes : list Z) : contract PytestInvocationIdentityV1 :=
  object ← RawObject_parse_nested bytes;
  _ ← RawObject_expect object TYPE_INVOCATION [(1, List); (2, Bytes); (3, List); (4, Enum)];
  p4 ← RawObject_payload object 4; stdin_profile ← decode_stdin_profile p4;
  p1 ← RawObject_payload object 1; argv ← decode_list p1;
  cwd ← RawObject_payload object 2;
  p3 ← RawObject_payload object 3; items ← decode_list p3;
  selectors ← try_map decode_selector items;
  Ok (mkInvocation argv cwd selectors stdin_profile).

Definition decode_environment (bytes : list Z) : contract EnvironmentBindingV1 :=
  object ← RawObject_parse_nested bytes;
  _ ← RawObject_expect object TYPE_ENVIRONMENT
        [(1, Bytes); (2, Bytes); (3, Bytes); (4, U32); (5, Bytes)];
  p1 ← RawObject_payload object 1; key_id ← exact 32 p1;
  p2 ← RawObject_payload object 2; digest ← exact 32 p2;
  p3 ← RawObject_payload object 3; names_digest ← exact 32 p3;
  p4 ← RawObject_payload object 4; entry_count ← decode_u32 p4;
  p5 ← RawObject_payload object 5; policy_digest ← exact 32 p5;
  Ok (mkEnvironment key_id digest names_digest entry_count policy_digest).

Definition decode_snapshot (bytes : list Z) : contract SealedSnapshotIdentityV2 :=
  object ← RawObject_parse_nested bytes;
  _ ← RawObject_expect object TYPE_SNAPSHOT
        [(1, Bytes); (2, Bytes); (3, Bytes); (4, Object); (5, Bytes)];
  p1 ← RawObject_payload object 1; id ← exact 16 p1;
  p2 ← RawObject_payload object 2; workspace_root ← exact 32 p2;
  p3 ← RawObject_payload object 3; runtime_root ← exact 32 p3;
  p4 ← RawObject_payload object 4; manifest_blob ← decode_blob p4;
  p5 ← RawObject_payload object 5; profile_digest ← exact 32 p5;
  Ok (mkSnapshot id workspace_root runtime_root manifest_blob profile_digest).

Definition decode_namespace_ids (bytes : list Z) : contract NamespaceIdsV1 :=
  object ← RawObject_parse_nested bytes;
  _ ← RawObject_expect object TYPE_NAMESPACE_IDS
        [(1, U64); (2, U64); (3, U64); (4, U64); (5, U64); (6, U64)];
  p1 ← RawObject_payload object 1; user ← decode_u64 p1;
  p2 ← RawObject_payload object 2; mount ← decode_u64 p2;
  p3 ← RawObject_payload object 3; pid ← decode_u64 p3;
  p4 ← RawObject_payload object 4; network ← decode_u64 p4;
  p5 ← RawObject_payload object 5; uts ← decode_u64 p5;
  p6 ← RawObject_payload object 6; ipc ← decode_u64 p6;
  Ok (mkNamespaceIds user mount pid network uts ipc).

Definition decode_policy_digests (bytes : list Z) : contract PolicyDigestsV1 :=
  object ← RawObject_parse_nested bytes;
  _ ← RawObject_expect object TYPE_POLICY_DIGESTS
        [(1, Bytes); (2, Bytes); (3, Bytes); (4, Bytes); (5, Bytes);
         (6, Bytes); (7, Bytes); (8, Bytes); (9, Bytes); (10, Bytes)];
  p1 ← RawObject_payload object 1; seccomp ← exact 32 p1;
  p2 ← RawObject_payload object 2; landlock ← exact 32 p2;
  p3 ← RawObject_payload object 3; namespace ← exact 32 p3;
  p4 ← RawObject_payload object 4; tracer_runtime ← exact 32 p4;
  p5 ← RawObject_payload object 5; ambient_broker ← exact 32 p5;
  p6 ← RawObject_payload object 6; limits ← exact 32 p6;
  p7 ← RawObject_payload object 7; environment ← exact 32 p7;
  p8 ← RawObject_payload object 8; selector_grammar ← exact 32 p8;
  p9 ← RawObject_payload object 9; runtime_closure ← exact 32 p9;
  p10 ← RawObject_payload object 10; codec ← exact 32 p10;
  Ok (mkPolicyDigests seccomp landlock namespace tracer_runtime ambient_broker limits
        environment selector_grammar runtime_closure codec).

Definition decode_architecture (bytes : list Z) : contract ArchitectureV1 :=
  variant ← decode_simple_enum bytes;
  match variant with
  | 1 => Ok X86_64
  | _ => Err CanonicalDecoding
  end.

Definition decode_platform (bytes : list Z) : contract PlatformIdentityV2 :=
  object ← RawObject_parse_nested bytes;
  _ ← RawObject_expect object TYPE_PLATFORM
        [(1, Enum); (2, Bytes); (3, Bytes); (4, Object); (5, Bytes); (6, Object)];
  p1 ← RawObject_payload object 1; architecture ← decode_architecture p1;
  kernel_release ← RawObject_payload object 2;
  p3 ← RawObject_payload object 3; capability_digest ← exact 32 p3;
  p4 ← RawObject_payload object 4; namespace_ids ← decode_namespace_ids p4;
  p5 ← RawObject_payload object 5; namespace_policy_digest ← exact 32 p5;
  p6 ← RawObject_payload object 6; policy_digests ← decode_policy_digests p6;
  Ok (mkPlatform architecture kernel_release capability_digest namespace_ids
        namespace_policy_digest policy_digests).

(** [(1..=18).map(|tag| (tag, WireType::U64))]. *)
Definition trace_counters_expected : list (Z * WireType) :=
  (λ tag, (Z.of_nat tag, U64)) <$> seq 1 18.

Definition decode_trace_counters (bytes : list Z) : contract TraceCountersV1 :=
  object ← RawObject_parse_nested bytes;
  _ ← RawObject_expect object TYPE_TRACE_COUNTERS trace_counters_expected;
  p1 ← RawObject_payload object 1; final_sequence ← decode_u64 p1;
  p2 ← RawObject_payload object 2; event_count ← decode_u64 p2;
  p3 ← RawObject_payload object 3; syscall_event_count ← decode_u64 p3;
  p4 ← RawObject_payload object 4; seccomp_trace_count ← decode_u64 p4;
  p5 ← RawObject_payload object 5; ptrace_event_count ← decode_u64 p5;
  p6 ← RawObject_payload object 6; trace_encoded_bytes ← decode_u64 p6;
  p7 ← RawObject_payload object 7; task_birth_count ← decode_u64 p7;
  p8 ← RawObject_payload object 8; task_exec_count ← decode_u64 p8;
  p9 ← RawObject_payload object 9; task_exit_count ← decode_u64 p9;
  p10 ← RawObject_payload object 10; task_reap_count ← decode_u64 p10;
  p11 ← RawObject_payload object 11; observation_count ← decode_u64 p11;
  p12 ← RawObject_payload object 12; ambient_event_count ← decode_u64 p12;
  p13 ← RawObject_payload object 13; ordered_effect_count ← decode_u64 p13;
  p14 ← RawObject_payload object 14; denied_operation_count ← decode_u64 p14;
  p15 ← RawObject_payload object 15; unsupported_operation_count ← decode_u64 p15;
  p16 ← RawObject_payload object 16; decoder_error_count ← decode_u64 p16;
  p17 ← RawObject_payload object 17; lost_event_count ← decode_u64 p17;
  p18 ← RawObject_payload object 18; final_ack_count ← decode_u64 p18;
  Ok (mkTraceCounters final_sequence event_count syscall_event_count seccomp_trace_count
        ptrace_event_count trace_encoded_bytes task_birth_count task_exec_count
        task_exit_count task_reap_count observation_count ambient_event_count
        ordered_effect_count denied_operation_count unsupported_operation_count
        decoder_error_count lost_event_count final_ack_count).

Definition decode_dimension (bytes : list Z) : contract CompletenessDimensionV2 :=
  array ← exact 1 bytes;
  ok_or (CompletenessDimensionV2_from_u8 (default 0 (head array))) CanonicalDecoding.

Definition decode_execute_only_code (bytes : list Z) : contract ExecuteOnlyCode :=
  code ← decode_u16 bytes;
  ok_or (ExecuteOnlyCodes.ExecuteOnlyCode_from_u16 code) CanonicalDecoding.

Definition decode_phase (bytes : list Z) : contract TracePhaseV1 :=
  variant ← decode_simple_enum bytes;
  match variant with
  | 1 => Ok TracePhases.Snapshot
  | 2 => Ok TracePhases.Isolation
  | 3 => Ok TracePhases.Trace
  | 4 => Ok TracePhases.Finalize
  | 5 => Ok TracePhases.Capture
  | 6 => Ok TracePhases.Cleanup
  | _ => Err CanonicalDecoding
  end.

Definition decode_first_failure (bytes : list Z) : contract FirstFailureV1 :=
  object ← RawObject_parse_nested bytes;
  _ ← RawObject_expect object TYPE_FIRST_FAILURE
        [(1, U8); (2, U16); (3, Enum); (4, Optional); (5, Optional)];
  p1 ← RawObject_payload object 1; dimension ← decode_dimension p1;
  p2 ← RawObject_payload object 2; reason ← decode_execute_only_code p2;
  p3 ← RawObject_payload object 3; phase ← decode_phase p3;
  p4 ← RawObject_payload object 4; o4 ← decode_optional p4;
  event_sequence ← try_option decode_u64 o4;
  p5 ← RawObject_payload object 5; o5 ← decode_optional p5;
  logical_task_id ← try_option decode_u32 o5;
  Ok (mkFirstFailure dimension reason phase event_sequence logical_task_id).

Definition decode_trace (bytes : list Z) : contract TraceCompletenessV2 :=
  object ← RawObject_parse_nested bytes;
  _ ← RawObject_expect object TYPE_TRACE
        [(1, U64); (2, U64); (3, U64); (4, U64); (5, Object); (6, Optional)];
  p1 ← RawObject_payload object 1; required ← decode_u64 p1;
  p2 ← RawObject_payload object 2; complete ← decode_u64 p2;
  p3 ← RawObject_payload object 3; unsupported ← decode_u64 p3;
  p4 ← RawObject_payload object 4; violation ← decode_u64 p4;
  p5 ← RawObject_payload object 5; counters ← decode_trace_counters p5;
  p6 ← RawObject_payload object 6; o6 ← decode_optional p6;
  first_failure ← try_option decode_first_failure o6;
  let value := mkTrace required complete unsupported violation counters first_failure in
  _ ← TraceCompletenessV2_validate value;
  Ok value.

(** The detail a parsed enumeration stands for. *)
Definition decode_detail_enum (value : RawEnum) : contract ObservationDetailV1 :=
  match raw_enum_variant value with
  | 1 =>
    _ ← RawEnum_expect value 1 [(1, Bytes); (2, U64)];
    p1 ← RawEnum_payload value 1; content_digest ← exact 32 p1;
    p2 ← RawEnum_payload value 2; byte_count ← decode_u64 p2;
    Ok (ObservationDetails.File content_digest byte_count)
  | 2 =>
    _ ← RawEnum_expect value 2 [(1, Bytes); (2, U64)];
    p1 ← RawEnum_payload value 1; membership_digest ← exact 32 p1;
    p2 ← RawEnum_payload value 2; entry_count ← decode_u64 p2;
    Ok (ObservationDetails.Directory membership_digest entry_count)
  | 3 =>
    _ ← RawEnum_expect value 3 [(1, Bytes); (2, Bytes)];
    p1 ← RawEnum_payload value 1; parent_membership_digest ← exact 32 p1;
    missing_component ← RawEnum_payload value 2;
    Ok (ObservationDetails.AbsentPath parent_membership_digest missing_component)
  | 4 =>
    _ ← RawEnum_expect value 4 [(1, Bytes)];
    target ← RawEnum_payload value 1;
    Ok (ObservationDetails.Symlink target)
  | 5 =>
    _ ← RawEnum_expect value 5 [(1, Bytes); (2, Bytes)];
    p1 ← RawEnum_payload value 1; node_digest ← exact 32 p1;
    p2 ← RawEnum_payload value 2; chain_digest ← exact 32 p2;
    Ok (ObservationDetails.Executable node_digest chain_digest)
  | 6 =>
    _ ← RawEnum_expect value 6 [(1, Bytes); (2, U64); (3, U64); (4, U32); (5, U32)];
    p1 ← RawEnum_payload value 1; content_digest ← exact 32 p1;
    p2 ← RawEnum_payload value 2; offset ← decode_u64 p2;
    p3 ← RawEnum_payload value 3; length ← decode_u64 p3;
    p4 ← RawEnum_payload value 4; protection ← decode_u32 p4;
    p5 ← RawEnum_payload value 5; flags ← decode_u32 p5;
    Ok (ObservationDetails.Mapping content_digest offset length protection flags)
  | 7 =>
    _ ← RawEnum_expect value 7 [(1, U64); (2, Bytes)];
    p1 ← RawEnum_payload value 1; field_mask ← decode_u64 p1;
    p2 ← RawEnum_payload value 2; value_digest ← exact 32 p2;
    Ok (ObservationDetails.Metadata field_mask value_digest)
  | _ => Err CanonicalDecoding
  end.

(** [if reencoded != bytes { return Err(CanonicalDecoding) }]. *)
Definition require_reencoding (reencoded : contract (list Z)) (bytes : list Z) : contract () :=
  encoded ← reencoded;
  if bytes_eqb encoded bytes then Ok () else Err CanonicalDecoding.

Definition decode_observation_detail (bytes : list Z) : contract ObservationDetailV1 :=
  object ← RawObject_parse_nested bytes;
  _ ← RawObject_expect object TYPE_OBSERVATION_DETAIL [(1, Enum)];
  p1 ← RawObject_payload object 1; value ← RawEnum_parse p1;
  detail ← decode_detail_enum value;
  _ ← Details.ObservationDetailV1_validate detail;
  _ ← require_reencoding (encode_observation_detail detail false) bytes;
  Ok detail.

Definition decode_observation_detail_top (bytes : list Z) : contract ObservationDetailV1 :=
  _ ← enforce_size bytes;
  nested ← ok_or (strip_prefix EFFECT_IR_V2_WIRE_MAGIC bytes) CanonicalDecoding;
  detail ← decode_observation_detail nested;
  _ ← require_reencoding (encode_observation_detail_top detail) bytes;
  Ok detail.

Definition decode_observation_kind (bytes : list Z) : contract ObservationKindV2 :=
  variant ← decode_simple_enum bytes;
  match variant with
  | 1 => Ok ObservationKinds.File
  | 2 => Ok ObservationKinds.Directory
  | 3 => Ok ObservationKinds.AbsentPath
  | 4 => Ok ObservationKinds.Symlink
  | 5 => Ok ObservationKinds.Executable
  | 6 => Ok ObservationKinds.Mapping
  | 7 => Ok ObservationKinds.Metadata
  | _ => Err CanonicalDecoding
  end.

Definition decode_observation (bytes : list Z) : contract ObservationV2 :=
  object ← RawObject_parse_nested bytes;
  _ ← RawObject_expect object TYPE_OBSERVATION
        [(1, U64); (2, U32); (3, Enum); (4, Bytes); (5, Object)];
  p3 ← RawObject_payload object 3; kind ← decode_observation_kind p3;
  p1 ← RawObject_payload object 1; sequence ← decode_u64 p1;
  p2 ← RawObject_payload object 2; logical_task_id ← decode_u32 p2;
  p4 ← RawObject_payload object 4; sandbox_subject ← SandboxPath_new p4;
  p5 ← RawObject_payload object 5; canonical_detail ← decode_observation_detail p5;
  Ok (mkObservation sequence logical_task_id kind sandbox_subject canonical_detail).

Definition decode_ambient_kind (bytes : list Z) : contract AmbientKindV2 :=
  variant ← decode_simple_enum bytes;
  match variant with
  | 1 => Ok AmbientKinds.LogicalTime
  | 2 => Ok AmbientKinds.LogicalRandom
  | 3 => Ok AmbientKinds.LogicalPid
  | 4 => Ok AmbientKinds.Sleep
  | 5 => Ok AmbientKinds.Signal
  | _ => Err CanonicalDecoding
  end.

Definition decode_ambient (bytes : list Z) : contract AmbientEventV2 :=
  object ← RawObject_parse_nested bytes;
  _ ← RawObject_expect object TYPE_AMBIENT_EVENT
        [(1, U64); (2, U32); (3, Enum); (4, Object)];
  p3 ← RawObject_payload object 3; kind ← decode_ambient_kind p3;
  p1 ← RawObject_payload object 1; sequence ← decode_u64 p1;
  p2 ← RawObject_payload object 2; logical_task_id ← decode_u32 p2;
  p4 ← RawObject_payload object 4; canonical_detail ← decode_blob p4;
  Ok (mkAmbient sequence logical_task_id kind canonical_detail).

Definition decode_effect_kind (bytes : list Z) : contract EffectKindV2 :=
  variant ← decode_simple_enum bytes;
  match variant with
  | 1 => Ok EffectKinds.Write
  | 2 => Ok EffectKinds.Truncate
  | 3 => Ok EffectKinds.Metadata
  | 4 => Ok EffectKinds.Link
  | 5 => Ok EffectKinds.Rename
  | 6 => Ok EffectKinds.Unlink
  | 7 => Ok EffectKinds.Mkdir
  | 8 => Ok EffectKinds.Rmdir
  | 9 => Ok EffectKinds.WritableMapping
  | _ => Err CanonicalDecoding
  end.

Definition decode_effect (bytes : list Z) : contract OrderedEffectV2 :=
  object ← RawObject_parse_nested bytes;
  _ ← RawObject_expect object TYPE_ORDERED_EFFECT
        [(1, U64); (2, U32); (3, Enum); (4, Bytes); (5, Object)];
  p3 ← RawObject_payload object 3; kind ← decode_effect_kind p3;
  p1 ← RawObject_payload object 1; sequence ← decode_u64 p1;
  p2 ← RawObject_payload object 2; logical_task_id ← decode_u32 p2;
  p4 ← RawObject_payload object 4; sandbox_subject ← SandboxPath_new p4;
  p5 ← RawObject_payload object 5; canonical_detail ← decode_blob p5;
  Ok (mkEffect sequence logical_task_id kind sandbox_subject canonical_detail).

Definition decode_stream (bytes : list Z) : contract StreamCaptureV2 :=
  value ← RawEnum_parse bytes;
  match raw_enum_variant value with
  | 1 =>
    _ ← RawEnum_expect value 1 [(1, Object)];
    p1 ← RawEnum_payload value 1; blob ← decode_blob p1;
    Ok (StreamCaptures.Complete blob)
  | 2 =>
    _ ← RawEnum_expect value 2 [(1, U64)];
    p1 ← RawEnum_payload value 1; observed_bytes ← decode_u64 p1;
    Ok (StreamCaptures.Exceeded observed_bytes)
  | 3 =>
    _ ← RawEnum_expect value 3 [(1, U64); (2, U16)];
    p1 ← RawEnum_payload value 1; observed_bytes ← decode_u64 p1;
    p2 ← RawEnum_payload value 2; reason ← decode_execute_only_code p2;
    Ok (StreamCaptures.Incomplete observed_bytes reason)
  | _ => Err CanonicalDecoding
  end.

Definition decode_result (bytes : list Z) : contract EffectResultV2 :=
  object ← RawObject_parse_nested bytes;
  _ ← RawObject_expect object TYPE_RESULT [(1, Enum); (2, Enum); (3, U32)];
  p1 ← RawObject_payload object 1; stdout ← decode_stream p1;
  p2 ← RawObject_payload object 2; stderr ← decode_stream p2;
  p3 ← RawObject_payload object 3; status ← decode_u32 p3;
  Ok (mkResult stdout stderr status).

(** [SandboxPath::new(...).map_err(|_| CanonicalDecoding)]. *)
Definition decode_sandbox_path (bytes : list Z) : contract (list Z) :=
  match SandboxPath_new bytes with Ok path => Ok path | Err _ => Err CanonicalDecoding end.

Definition decode_observation_dependency (bytes : list Z) : contract ObservationDependencyV1 :=
  object ← RawObject_parse_nested bytes;
  _ ← RawObject_expect object TYPE_OBSERVATION_DEPENDENCY
        [(1, Bytes); (2, Enum); (3, Bytes); (4, Object)];
  key ← RawObject_payload object 1;
  p2 ← RawObject_payload object 2; kind ← decode_observation_kind p2;
  p3 ← RawObject_payload object 3; subject ← decode_sandbox_path p3;
  p4 ← RawObject_payload object 4; current_value ← decode_blob p4;
  Ok (mkDependency key kind subject current_value).

(** Proofs unfold these by name. *)
#[global] Arguments encode_blob : simpl never.
#[global] Arguments encode_selector : simpl never.
#[global] Arguments encode_invocation : simpl never.
#[global] Arguments encode_environment : simpl never.
#[global] Arguments encode_snapshot : simpl never.
#[global] Arguments encode_namespace_ids : simpl never.
#[global] Arguments encode_policy_digests : simpl never.
#[global] Arguments encode_platform : simpl never.
#[global] Arguments encode_trace_counters : simpl never.
#[global] Arguments encode_first_failure : simpl never.
#[global] Arguments encode_trace : simpl never.
#[global] Arguments encode_observation_detail : simpl never.
#[global] Arguments encode_observation_detail_top : simpl never.
#[global] Arguments encode_observation : simpl never.
#[global] Arguments encode_ambient : simpl never.
#[global] Arguments encode_effect : simpl never.
#[global] Arguments encode_stream : simpl never.
#[global] Arguments encode_result : simpl never.
#[global] Arguments encode_observation_dependency : simpl never.
#[global] Arguments decode_blob : simpl never.
#[global] Arguments decode_selector : simpl never.
#[global] Arguments decode_stdin_profile : simpl never.
#[global] Arguments decode_invocation : simpl never.
#[global] Arguments decode_environment : simpl never.
#[global] Arguments decode_snapshot : simpl never.
#[global] Arguments decode_namespace_ids : simpl never.
#[global] Arguments decode_policy_digests : simpl never.
#[global] Arguments decode_architecture : simpl never.
#[global] Arguments decode_platform : simpl never.
#[global] Arguments decode_trace_counters : simpl never.
#[global] Arguments decode_dimension : simpl never.
#[global] Arguments decode_execute_only_code : simpl never.
#[global] Arguments decode_phase : simpl never.
#[global] Arguments decode_first_failure : simpl never.
#[global] Arguments decode_trace : simpl never.
#[global] Arguments decode_detail_enum : simpl never.
#[global] Arguments decode_observation_detail : simpl never.
#[global] Arguments decode_observation_detail_top : simpl never.
#[global] Arguments decode_observation_kind : simpl never.
#[global] Arguments decode_observation : simpl never.
#[global] Arguments decode_ambient_kind : simpl never.
#[global] Arguments decode_ambient : simpl never.
#[global] Arguments decode_effect_kind : simpl never.
#[global] Arguments decode_effect : simpl never.
#[global] Arguments decode_stream : simpl never.
#[global] Arguments decode_result : simpl never.
#[global] Arguments decode_sandbox_path : simpl never.
#[global] Arguments decode_observation_dependency : simpl never.
