(* ===== verification/RecordRoundTrip.v ===== *)
(** * The parts of a record round trip

    Instances of [NestedCodec] and [KindCodec] for every structure nested in an
    effect record: what is encoded decodes to the same value, and what decodes
    re-encodes to the same bytes. *)

From S2P Require Import Prelude Monad Bytes ContractTypes Canonical CanonicalSpec CanonicalParse.
From S2P Require Import CanonicalCodec RecordTypes Paths RecordValidation RecordCodec.
Import Wire Dimensions.

(** ** Enumerations *)

Ltac kind_instance :=
  apply kind_codec;
  [ by intros [] | by intros []
  | let z := fresh "z" in let k := fresh "k" in
    let H := fresh "H" in
    intros z k; destruct k; repeat case_match; intros H; first [discriminate H | done] ].

#[global] Instance stdin_profile_kind : KindCodec StdinProfileV1_as_u16 decode_stdin_profile.
Proof. kind_instance. Qed.
#[global] Instance architecture_kind : KindCodec ArchitectureV1_as_u16 decode_architecture.
Proof. kind_instance. Qed.
#[global] Instance phase_kind : KindCodec TracePhases.TracePhaseV1_as_u16 decode_phase.
Proof. kind_instance. Qed.
#[global] Instance observation_kind_kind :
  KindCodec ObservationKinds.ObservationKindV2_as_u16 decode_observation_kind.
Proof. kind_instance. Qed.
#[global] Instance ambient_kind_kind :
  KindCodec AmbientKinds.AmbientKindV2_as_u16 decode_ambient_kind.
Proof. kind_instance. Qed.
#[global] Instance effect_kind_kind : KindCodec EffectKinds.EffectKindV2_as_u16 decode_effect_kind.
Proof. kind_instance. Qed.

(** ** Codes, dimensions, paths and strings *)

Lemma decode_code_be c :
  decode_execute_only_code (be_bytes 2 (ExecuteOnlyCodes.ExecuteOnlyCode_as_u16 c)) = Ok c.
Proof.
  unfold decode_execute_only_code.
  rewrite decode_u16_be by apply ExecuteOnlyCodes.ExecuteOnlyCode_as_u16_range.
  rewrite bind_Ok. by rewrite ExecuteOnlyCodes.ExecuteOnlyCode_from_as_u16.
Qed.

Lemma decode_code_inv b c :
  is_sized b → decode_execute_only_code b = Ok c →
  b = be_bytes 2 (ExecuteOnlyCodes.ExecuteOnlyCode_as_u16 c).
Proof.
  intros Hb (z & Hz & Hc)%result_bind_Ok. apply decode_u16_inv in Hz as [_ ->]; [|done].
  apply ok_or_Ok, ExecuteOnlyCodes.ExecuteOnlyCode_as_from_u16 in Hc. by rewrite Hc.
Qed.

#[global] Instance code_codec :
  Codec (λ _, True) (λ c, Ok (be_bytes 2 (ExecuteOnlyCodes.ExecuteOnlyCode_as_u16 c)))
    decode_execute_only_code.
Proof.
  split.
  - intros c b _ [= <-]. apply is_bytes_be_bytes.
  - intros c b _ [= <-] _. apply decode_code_be.
  - intros b c Hb ->%decode_code_inv; done.
Qed.

Lemma decode_dimension_as d : decode_dimension [CompletenessDimensionV2_as_u8 d] = Ok d.
Proof. unfold decode_dimension, exact. cbn. by rewrite CompletenessDimensionV2_from_as_u8. Qed.

Lemma decode_dimension_inv b d :
  is_sized b → decode_dimension b = Ok d → b = [CompletenessDimensionV2_as_u8 d].
Proof.
  intros [Hb _] (l & [-> Hl]%exact_Ok & Hd)%result_bind_Ok.
  destruct b as [|z [|? ?]]; try done. apply ok_or_Ok, CompletenessDimensionV2_as_from_u8 in Hd.
  - by rewrite Hd.
  - apply Forall_cons_1 in Hb as [[? _] _]. done.
Qed.

Lemma dimension_bytes d : is_bytes [CompletenessDimensionV2_as_u8 d].
Proof. repeat constructor; by destruct (CompletenessDimensionV2_as_u8_range d). Qed.

Lemma SandboxPath_new_ok p : is_sandbox_path p → SandboxPath_new p = Ok p.
Proof. intros [_ H]. unfold SandboxPath_new. by rewrite H. Qed.

Lemma SandboxPath_new_inv p v :
  is_sized p → SandboxPath_new p = Ok v → v = p ∧ is_sandbox_path p.
Proof.
  intros [? _]. unfold SandboxPath_new. destruct (valid_sandbox_path_bytes p) eqn:E; [|done].
  by intros [= <-].
Qed.

Lemma decode_sandbox_path_ok p : is_sandbox_path p → decode_sandbox_path p = Ok p.
Proof. intros H. unfold decode_sandbox_path. by rewrite SandboxPath_new_ok. Qed.

Lemma decode_sandbox_path_inv p v :
  is_sized p → decode_sandbox_path p = Ok v → v = p ∧ is_sandbox_path p.
Proof.
  intros Hp. unfold decode_sandbox_path. destruct (SandboxPath_new p) eqn:E; [|done].
  intros [= <-]. by apply SandboxPath_new_inv.
Qed.

#[global] Instance sandbox_path_codec : Codec is_sandbox_path Ok decode_sandbox_path.
Proof.
  split.
  - by intros p b [? _] [= <-].
  - intros p b Hp [= <-] _. by apply decode_sandbox_path_ok.
  - intros b p Hb [-> ?]%decode_sandbox_path_inv; done.
Qed.

Lemma from_utf8_ok s : is_string s → from_utf8 s = Ok s.
Proof. intros [_ H]. unfold from_utf8. by rewrite H. Qed.

Lemma from_utf8_inv p v : is_sized p → from_utf8 p = Ok v → v = p ∧ is_string p.
Proof. intros [? _]. unfold from_utf8. destruct (valid_utf8 p) eqn:E; [|done]. by intros [= <-]. Qed.

Ltac bytes_extra ::= apply dimension_bytes.

Ltac dec_extra ::=
  first [ rewrite decode_code_be | rewrite decode_dimension_as
        | rewrite SandboxPath_new_ok by assumption
        | rewrite decode_sandbox_path_ok by assumption
        | rewrite from_utf8_ok by assumption ].

Ltac sound_extra E ::=
  first [ apply decode_code_inv in E as ->; [|assumption]
        | apply decode_dimension_inv in E as ->; [|assumption]
        | apply SandboxPath_new_inv in E as [-> ?]; [|assumption]
        | apply decode_sandbox_path_inv in E as [-> ?]; [|assumption]
        | apply from_utf8_inv in E as [-> ?]; [|assumption] ].

(** ** Objects *)

#[global] Instance blob_codec : NestedCodec BlobRefV2_wf encode_blob decode_blob.
Proof. object_codec BlobRefV2_wf encode_blob decode_blob. Qed.

#[global] Instance selector_codec :
  NestedCodec PytestSelectorV1_wf encode_selector decode_selector.
Proof. object_codec PytestSelectorV1_wf encode_selector decode_selector. Qed.

#[global] Instance invocation_codec :
  NestedCodec PytestInvocationIdentityV1_wf encode_invocation decode_invocation.
Proof. object_codec PytestInvocationIdentityV1_wf encode_invocation decode_invocation. Qed.

#[global] Instance environment_codec :
  NestedCodec EnvironmentBindingV1_wf encode_environment decode_environment.
Proof. object_codec EnvironmentBindingV1_wf encode_environment decode_environment. Qed.

#[global] Instance snapshot_codec :
  NestedCodec SealedSnapshotIdentityV2_wf encode_snapshot decode_snapshot.
Proof. object_codec SealedSnapshotIdentityV2_wf encode_snapshot decode_snapshot. Qed.

#[global] Instance namespace_ids_codec :
  NestedCodec NamespaceIdsV1_wf encode_namespace_ids decode_namespace_ids.
Proof. object_codec NamespaceIdsV1_wf encode_namespace_ids decode_namespace_ids. Qed.

#[global] Instance policy_digests_codec :
  NestedCodec PolicyDigestsV1_wf encode_policy_digests decode_policy_digests.
Proof. object_codec PolicyDigestsV1_wf encode_policy_digests decode_policy_digests. Qed.

#[global] Instance platform_codec :
  NestedCodec PlatformIdentityV2_wf encode_platform decode_platform.
Proof. object_codec PlatformIdentityV2_wf encode_platform decode_platform. Qed.

#[global] Instance trace_counters_codec :
  NestedCodec TraceCountersV1_wf encode_trace_counters decode_trace_counters.
Proof. object_codec TraceCountersV1_wf encode_trace_counters decode_trace_counters. Qed.

#[global] Instance first_failure_codec :
  NestedCodec FirstFailureV1_wf encode_first_failure decode_first_failure.
Proof. object_codec FirstFailureV1_wf encode_first_failure decode_first_failure. Qed.

(** A trace is decoded only when its masks and counters are consistent. *)
Definition valid_trace (t : TraceCompletenessV2) : Prop :=
  TraceCompletenessV2_wf t ∧ TraceCompletenessV2_validate t = Ok ().

#[global] Instance trace_codec : NestedCodec valid_trace encode_trace decode_trace.
Proof.
  split.
  - object_complete_with ltac:(fun H => unfold valid_trace, TraceCompletenessV2_wf in H)
      encode_trace decode_trace.
  - object_sound_with ltac:(fun _ => unfold valid_trace, TraceCompletenessV2_wf)
      encode_trace decode_trace.
Qed.


(** ** Enumerations with fields *)

(** Case analysis of the variant a decoder matches on. *)
Ltac split_variant H :=
  repeat match type of H with
  | context [match ?z with _ => _ end] => is_var z; destruct z
  end; try discriminate H.

Ltac enum_complete Ep :=
  let Hs := fresh "Hs" in pose proof Ep as Hs;
  apply parse_enum_built in Ep as (? & Ep & _); [|by vm_compute|solve_fields];
  apply encode_enum_sized in Hs; [|assumption].

Ltac run_enum :=
  cbn [raw_enum_variant]; rewrite expect_enum_shape by done; rewrite ?bind_Ok; dec_run.

#[global] Instance stream_codec : NestedCodec StreamCaptureV2_wf encode_stream decode_stream.
Proof.
  split.
  - intros [blob|n|n reason] b Hwf H; unfold StreamCaptureV2_wf in Hwf; unfold encode_stream in H;
      unfold enum_field in H; enc_inv H; pose_complete; enum_complete H;
      (split; [done|]); unfold decode_stream; rewrite H, bind_Ok; run_enum; done.
  - intros b a Hb H. unfold decode_stream in H. apply result_bind_Ok in H as ([v fs] & Ho & H).
    cbn [raw_enum_variant] in H. split_variant H; open_enum Ho H Hb; dec_inv H; injection H as <-;
      (split; [done|]); unfold encode_stream, enum_field; repeat build_step; done.
Qed.

Definition encode_detail (d : ObservationDetailV1) : contract (list Z) :=
  encode_observation_detail d false.

(** A detail is encoded and decoded only when it is valid. *)
Definition valid_detail (d : ObservationDetailV1) : Prop :=
  ObservationDetails.ObservationDetailV1_wf d ∧ Details.ObservationDetailV1_validate d = Ok ().

Lemma detail_fields_decode d v fs b :
  ObservationDetails.ObservationDetailV1_wf d → detail_fields d = (v, fs) →
  encode_enum v fs = Ok b →
  is_sized b ∧ ∃ e, RawEnum_parse b = Ok e ∧ decode_detail_enum e = Ok d.
Proof.
  intros Hwf Hd H.
  destruct d; cbn in Hwf; destruct_and? Hwf; cbn in Hd; injection Hd as <- <-;
    unfold enum_field in H; enum_complete H; (split; [done|]); eexists; (split; [exact H|]);
    unfold decode_detail_enum; run_enum; done.
Qed.

Lemma decode_detail_fields b e d :
  is_sized b → RawEnum_parse b = Ok e → decode_detail_enum e = Ok d →
  ObservationDetails.ObservationDetailV1_wf d ∧
  encode_enum (detail_fields d).1 (detail_fields d).2 = Ok b.
Proof.
  intros Hb Ho H. destruct e as [v fs]. unfold decode_detail_enum in H. cbn [raw_enum_variant] in H.
  split_variant H; open_enum Ho H Hb; dec_inv H; injection H as <-; cbn; unfold enum_field;
    (split; [solve_wf|done]).
Qed.

Lemma require_reencoding_Ok r b u : require_reencoding r b = Ok u ↔ r = Ok b.
Proof.
  unfold require_reencoding, bytes_eqb. destruct r as [e|], u; [|done]. rewrite bind_Ok.
  case_bool_decide; naive_solver.
Qed.

#[global] Instance detail_codec :
  NestedCodec valid_detail encode_detail decode_observation_detail.
Proof.
  split.
  - intros d b [Hwf Hv] H. pose proof H as Henc. unfold encode_detail, encode_observation_detail in H.
    rewrite Hv, bind_Ok in H. destruct (detail_fields d) as [v fs] eqn:Hd.
    unfold_builder. enc_inv H.
    destruct (detail_fields_decode d v fs _ Hwf Hd Ep) as (Hsp & e & He & Hde).
    pose proof H as Hfin. apply parse_built in H as (Hb & H & _); [|by vm_compute|solve_fields].
    split; [by eapply finish_nested_sized|]. unfold decode_observation_detail. rewrite H, bind_Ok.
    rewrite expect_shape by done. rewrite bind_Ok. dec_run.
    by rewrite (proj2 (require_reencoding_Ok _ b ())).
  - intros b d Hb H. unfold decode_observation_detail in H. open_object H Hb.
    apply result_bind_Ok in H as (? & [= <-] & H).
    apply result_bind_Ok in H as (e & He & H). apply result_bind_Ok in H as (d' & Hd & H).
    apply result_bind_Ok in H as ([] & Hv & H). apply result_bind_Ok in H as (u' & Hr & H).
    injection H as <-. apply require_reencoding_Ok in Hr.
    destruct (decode_detail_fields _ _ _ Hs He Hd) as [? _]. done.
Qed.

Ltac pose_extra ::=
  match goal with
  | E : encode_observation_detail ?d false = Ok ?p |- _ =>
      destruct (@nested_complete _ _ _ _ detail_codec d p ltac:(split; assumption) E) as [? ?];
      clear E
  end.

Ltac build_extra ::=
  match goal with
  | H : encode_detail ?d = Ok ?p |- context [encode_observation_detail ?d false] =>
      change (encode_observation_detail d false) with (encode_detail d); rewrite H
  end.

(** An observation is encoded and decoded only with a valid detail. *)
Definition valid_observation (o : ObservationV2) : Prop :=
  is_u64 (observation_sequence o) ∧ is_u32 (observation_logical_task_id o) ∧
  is_sandbox_path (observation_sandbox_subject o) ∧ valid_detail (observation_canonical_detail o).

#[global] Instance observation_codec :
  NestedCodec valid_observation encode_observation decode_observation.
Proof.
  split.
  - object_complete_with ltac:(fun H => unfold valid_observation, valid_detail in H)
      encode_observation decode_observation.
  - object_sound valid_observation encode_observation decode_observation.
Qed.

#[global] Instance ambient_codec : NestedCodec AmbientEventV2_wf encode_ambient decode_ambient.
Proof. object_codec AmbientEventV2_wf encode_ambient decode_ambient. Qed.

#[global] Instance effect_codec : NestedCodec OrderedEffectV2_wf encode_effect decode_effect.
Proof. object_codec OrderedEffectV2_wf encode_effect decode_effect. Qed.

#[global] Instance result_codec : NestedCodec EffectResultV2_wf encode_result decode_result.
Proof. object_codec EffectResultV2_wf encode_result decode_result. Qed.

#[global] Instance dependency_codec :
  NestedCodec ObservationDependencyV1_wf encode_observation_dependency
    decode_observation_dependency.
Proof.
  object_codec ObservationDependencyV1_wf encode_observation_dependency
    decode_observation_dependency.
Qed.
