(* ===== verification/Digest.v ===== *)
(** * Hash framing and digests

    [Blake3Digest] of [src/src/linux_pytest.rs]: the tagged, length-prefixed
    frame every identity is hashed under, hexadecimal text, and the streaming
    file-content hasher. BLAKE3 itself is a parameter, the class [Blake3]: the
    digest of a message under a derive-key context, and [Blake3Hash], the plain
    hash; [Blake3Ok] and [Blake3HashOk] are the documented fact that a digest is
    32 bytes long. The assertion of [derive_tagged] that tags
    increase is [tags_strictly_increase]. *)

From Stdlib Require Import String.
From S2P Require Import Prelude Monad Bytes ContractTypes Canonical CanonicalSpec CanonicalParse.
From S2P Require Import CanonicalCodec RecordTypes.

(** [Hasher::new_derive_key(context)], updated with [message] and finalized. *)
Class Blake3 := blake3_derive_key : list Z → list Z → list Z.

Class Blake3Ok `{Blake3} : Prop :=
  blake3_is_digest context message : is_digest (blake3_derive_key context message).

(** [blake3::hash]. *)
Class Blake3Hash := blake3_hash : list Z → list Z.
Class Blake3HashOk `{Blake3Hash} : Prop := blake3_hash_digest m : is_digest (blake3_hash m).

Definition hash_field (field : Z * list Z) : list Z :=
  be_bytes 2 (field.1) ++ be_bytes 8 (len (field.2)) ++ field.2.

Definition hash_frame (fields : list (Z * list Z)) : list Z :=
  HASH_FRAME_MAGIC ++ be_bytes 4 (len fields) ++ flat_map hash_field fields.

Fixpoint tags_strictly_increase (fields : list (Z * list Z)) : bool :=
  match fields with
  | f :: ((g :: _) as rest) => (f.1 <? g.1) && tags_strictly_increase rest
  | _ => true
  end.

Fixpoint enumerate_from (tag : Z) (fields : list (list Z)) : list (Z * list Z) :=
  match fields with
  | [] => []
  | field :: fields => (tag, field) :: enumerate_from (tag + 1) fields
  end.

Definition HEX_DIGITS : list Z := bstr "0123456789abcdef".

Definition hex_nibble (byte : Z) : contract Z :=
  if (48 <=? byte) && (byte <=? 57) then Ok (byte - 48)
  else if (97 <=? byte) && (byte <=? 102) then Ok (byte - 97 + 10)
  else Err InvalidDigest.

Definition is_ascii_hexdigit (byte : Z) : bool :=
  ((48 <=? byte) && (byte <=? 57)) || ((97 <=? byte) && (byte <=? 102))
  || ((65 <=? byte) && (byte <=? 70)).

Definition is_ascii_uppercase (byte : Z) : bool := (65 <=? byte) && (byte <=? 90).

(** [chunks_exact(2)] with [hex_nibble(chunk[0])? << 4 | hex_nibble(chunk[1])?]. *)
Fixpoint parse_hex_pairs (text : list Z) : contract (list Z) :=
  match text with
  | high :: low :: text =>
    h ← hex_nibble high; l ← hex_nibble low;
    rest ← parse_hex_pairs text;
    Ok (Z.lor (as_u8 (Z.shiftl h 4)) l :: rest)
  | _ => Ok []
  end.

Definition Blake3Digest_parse (value : list Z) : contract (list Z) :=
  if negb (len value =? 64) || negb (forallb is_ascii_hexdigit value) then Err InvalidDigest
  else if any is_ascii_uppercase value then Err InvalidDigest
  else parse_hex_pairs value.

(** [write!(..., "{byte:02x}")] for every byte. *)
Definition Blake3Digest_to_hex (digest : list Z) : list Z :=
  flat_map (λ byte, [default 0 (HEX_DIGITS !! Z.to_nat (byte / 16));
                     default 0 (HEX_DIGITS !! Z.to_nat (byte mod 16))]) digest.

Section digest.
Context `{Blake3}.

Definition Blake3Digest_derive_tagged (domain : list Z) (fields : list (Z * list Z)) : list Z :=
  blake3_derive_key domain (hash_frame fields).

Definition Blake3Digest_derive (domain : list Z) (fields : list (list Z)) : list Z :=
  Blake3Digest_derive_tagged domain (enumerate_from 1 fields).
End digest.

(** ** The streaming file-content hasher *)

(** [hasher] is the message fed to the hasher so far. *)
Record FileContentHasherV1 := mkFileContentHasher {
  fch_hasher : list Z;
  fch_remaining : option Z;
}.

Definition FileContentHasherV1_new (logical_size : Z) : FileContentHasherV1 :=
  mkFileContentHasher
    (HASH_FRAME_MAGIC ++ be_bytes 4 1 ++ be_bytes 2 1 ++ be_bytes 8 logical_size)
    (Some logical_size).

Definition FileContentHasherV1_update (self : FileContentHasherV1) (bytes : list Z) :
    bool * FileContentHasherV1 :=
  let poisoned := mkFileContentHasher (fch_hasher self) None in
  if U64_MAX <? len bytes then (false, poisoned)
  else match fch_remaining self with
  | None => (false, self)
  | Some remaining =>
    if remaining <? len bytes then (false, poisoned)
    else (true, mkFileContentHasher (fch_hasher self ++ bytes) (Some (remaining - len bytes)))
  end.

Definition FileContentHasherV1_finish `{Blake3} (self : FileContentHasherV1) : option (list Z) :=
  if bool_decide (fch_remaining self = Some 0)
  then Some (blake3_derive_key FILE_CONTENT_DOMAIN (fch_hasher self))
  else None.

(** A sequence of updates, whatever they return. *)
Definition file_content_updates (self : FileContentHasherV1) (chunks : list (list Z)) :
    FileContentHasherV1 :=
  foldl (λ self chunk, (FileContentHasherV1_update self chunk).2) self chunks.

(** ** The frame determines the fields *)

Definition hash_field_ok (f : Z * list Z) : Prop := is_u16 (f.1) ∧ is_slice (f.2).

Lemma be_bytes_inj n x y :
  0 <= x < 256 ^ Z.of_nat n → 0 <= y < 256 ^ Z.of_nat n → be_bytes n x = be_bytes n y → x = y.
Proof. intros Hx Hy H. rewrite <- (be_value_small n x), <- (be_value_small n y), H; done. Qed.

Lemma be_bytes_app_inj n x y l k :
  0 <= x < 256 ^ Z.of_nat n → 0 <= y < 256 ^ Z.of_nat n →
  be_bytes n x ++ l = be_bytes n y ++ k → x = y ∧ l = k.
Proof.
  intros Hx Hy H. apply app_inj_1 in H as [H ->]; [|by rewrite !be_bytes_length].
  split; [|done]. by eapply be_bytes_inj.
Qed.

Lemma slice_len_u64 l : is_slice l → 0 <= len l < 256 ^ Z.of_nat 8.
Proof. intros [_ H]. pose proof (len_nonneg l). change (256 ^ Z.of_nat 8) with (2 ^ 64). size_lia. Qed.

Lemma hash_field_app_inj f g l k :
  hash_field_ok f → hash_field_ok g → hash_field f ++ l = hash_field g ++ k → f = g ∧ l = k.
Proof.
  destruct f as [t f], g as [s g]. intros [? ?] [? ?]. unfold hash_field. cbn [fst snd] in *.
  rewrite <- !app_assoc. intros [-> Hr]%be_bytes_app_inj; [|done..].
  apply be_bytes_app_inj in Hr as [Hl Hr]; [|by apply slice_len_u64..].
  apply app_inj_1 in Hr as [-> ->]; [done|]. unfold len in Hl. lia.
Qed.

Lemma hash_fields_inj fs gs :
  Forall hash_field_ok fs → Forall hash_field_ok gs → length fs = length gs →
  flat_map hash_field fs = flat_map hash_field gs → fs = gs.
Proof.
  intros Hf. revert gs. induction Hf as [|f fs Hf _ IH]; intros [|g gs] Hg; try done.
  inversion_clear Hg. cbn. intros [= Hl] [-> Hr]%hash_field_app_inj; [|done..].
  f_equal. by apply IH.
Qed.

(** ** Hexadecimal *)

Lemma hex_digit_nibble n :
  0 <= n < 16 → hex_nibble (default 0 (HEX_DIGITS !! Z.to_nat n)) = Ok n.
Proof.
  intros H. assert (n = 0 ∨ n = 1 ∨ n = 2 ∨ n = 3 ∨ n = 4 ∨ n = 5 ∨ n = 6 ∨ n = 7 ∨ n = 8 ∨
    n = 9 ∨ n = 10 ∨ n = 11 ∨ n = 12 ∨ n = 13 ∨ n = 14 ∨ n = 15) as Hn by lia.
  by destruct_or? Hn; subst.
Qed.

Lemma hex_digit_class n :
  0 <= n < 16 →
  is_ascii_hexdigit (default 0 (HEX_DIGITS !! Z.to_nat n)) = true ∧
  is_ascii_uppercase (default 0 (HEX_DIGITS !! Z.to_nat n)) = false.
Proof.
  intros H. assert (n = 0 ∨ n = 1 ∨ n = 2 ∨ n = 3 ∨ n = 4 ∨ n = 5 ∨ n = 6 ∨ n = 7 ∨ n = 8 ∨
    n = 9 ∨ n = 10 ∨ n = 11 ∨ n = 12 ∨ n = 13 ∨ n = 14 ∨ n = 15) as Hn by lia.
  by destruct_or? Hn; subst.
Qed.

Lemma byte_nibbles b : is_u8 b → 0 <= b / 16 < 16 ∧ 0 <= b mod 16 < 16.
Proof. unfold is_u8. zdiv_lia. Qed.

Lemma byte_of_nibbles b : is_u8 b → Z.lor (as_u8 (Z.shiftl (b / 16) 4)) (b mod 16) = b.
Proof.
  intros Hb. pose proof (byte_nibbles b Hb) as [? ?].
  rewrite Z.shiftl_mul_pow2, as_u8_id by (unfold is_u8; lia).
  apply Z.bits_inj'; intros i Hi. rewrite Z.lor_spec.
  change 16 with (2 ^ 4). rewrite <- Z.shiftl_mul_pow2, Z.shiftl_spec by lia.
  rewrite <- Z.shiftr_div_pow2 by lia.
  destruct (Z.ltb_spec i 4).
  - rewrite Z.testbit_neg_r, Z.mod_pow2_bits_low by lia. done.
  - rewrite Z.shiftr_spec, Z.mod_pow2_bits_high, orb_false_r by lia. f_equal. lia.
Qed.

Lemma parse_hex_to_hex d : is_bytes d → parse_hex_pairs (Blake3Digest_to_hex d) = Ok d.
Proof.
  induction 1 as [|b d Hb _ IH]; [done|].
  change (Blake3Digest_to_hex (b :: d)) with
    (default 0 (HEX_DIGITS !! Z.to_nat (b / 16)) :: default 0 (HEX_DIGITS !! Z.to_nat (b mod 16))
       :: Blake3Digest_to_hex d).
  destruct (byte_nibbles b Hb). cbn [parse_hex_pairs]. rewrite !hex_digit_nibble by done.
  rewrite !bind_Ok, IH, bind_Ok. by rewrite byte_of_nibbles.
Qed.

Lemma to_hex_class d :
  is_bytes d → forallb is_ascii_hexdigit (Blake3Digest_to_hex d) = true ∧
    any is_ascii_uppercase (Blake3Digest_to_hex d) = false.
Proof.
  induction 1 as [|b d Hb _ [IH1 IH2]]; [done|].
  destruct (byte_nibbles b Hb) as [H1 H2].
  destruct (hex_digit_class _ H1), (hex_digit_class _ H2).
  unfold Blake3Digest_to_hex, any in *. cbn [flat_map app forallb existsb].
  rewrite H, H0, H3, H4. done.
Qed.

Lemma len_to_hex d : len (Blake3Digest_to_hex d) = 2 * len d.
Proof.
  induction d as [|b d IH]; [done|]. unfold Blake3Digest_to_hex in *. cbn [flat_map app].
  rewrite !len_cons, IH. lia.
Qed.

(** ** Streaming *)

Lemma file_updates_poisoned self chunks :
  fch_remaining self = None → fch_remaining (file_content_updates self chunks) = None.
Proof.
  unfold file_content_updates. revert self.
  induction chunks as [|c chunks IH]; intros self Hn; [done|]. cbn. apply IH.
  unfold FileContentHasherV1_update. rewrite Hn. case_match; [done|]. cbn. done.
Qed.

Lemma file_updates_run self chunks n :
  fch_remaining self = Some n → 0 <= n <= U64_MAX →
  file_content_updates self chunks =
    mkFileContentHasher (fch_hasher self ++ concat chunks) (Some (n - len (concat chunks))) ∧
    len (concat chunks) <= n
  ∨ n < len (concat chunks) ∧ fch_remaining (file_content_updates self chunks) = None.
Proof.
  revert self n; induction chunks as [|c chunks IH]; intros self n Hr Hn.
  { left. unfold file_content_updates. cbn. rewrite app_nil_r, len_nil, Z.sub_0_r.
    split; [|lia]. destruct self; cbn in *. by subst. }
  cbn [concat]. rewrite len_app. pose proof (len_nonneg c). pose proof (len_nonneg (concat chunks)).
  change (file_content_updates self (c :: chunks)) with
    (file_content_updates (FileContentHasherV1_update self c).2 chunks).
  unfold FileContentHasherV1_update. rewrite Hr.
  destruct (Z.ltb_spec U64_MAX (len c)).
  { right. split; [lia|]. by apply file_updates_poisoned. }
  destruct (Z.ltb_spec n (len c)).
  { right. split; [lia|]. by apply file_updates_poisoned. }
  cbn [snd].
  destruct (IH (mkFileContentHasher (fch_hasher self ++ c) (Some (n - len c))) (n - len c))
    as [[-> ?]|[? ->]]; [done|lia| |].
  - left. cbn. rewrite <- app_assoc. split; [|lia]. do 2 f_equal. lia.
  - right. split; [lia|done].
Qed.

(** Hashing a file in chunks gives the digest of the whole content under
    the tagged frame exactly when the chunks add up to the declared size, however
    the content was cut; otherwise the hasher yields nothing. *)
Theorem file_content_hash_exact `{Blake3} (logical_size : Z) (chunks : list (list Z)) :
  is_u64 logical_size →
  FileContentHasherV1_finish
    (file_content_updates (FileContentHasherV1_new logical_size) chunks) =
  (if len (concat chunks) =? logical_size
   then Some (Blake3Digest_derive FILE_CONTENT_DOMAIN [concat chunks]) else None).
Proof.
  intros Hn. unfold FileContentHasherV1_finish.
  destruct (file_updates_run (FileContentHasherV1_new logical_size) chunks logical_size)
    as [[-> Hl]|[Hl ->]]; [done|unfold is_u64 in Hn; size_lia| |].
  - cbn [fch_remaining fch_hasher FileContentHasherV1_new].
    destruct (Z.eqb_spec (len (concat chunks)) logical_size) as [<-|Hne].
    + rewrite Z.sub_diag, bool_decide_true by done. unfold Blake3Digest_derive, Blake3Digest_derive_tagged.
      cbn [enumerate_from]. unfold hash_frame. cbn [flat_map]. unfold hash_field. cbn [fst snd].
      rewrite app_nil_r, <- !app_assoc. done.
    + rewrite bool_decide_false; [done|]. intros [= ?]. lia.
  - rewrite bool_decide_false by done. by rewrite (proj2 (Z.eqb_neq _ _)) by lia.
Qed.

Lemma file_content_hash_exact_witness :
  FileContentHasherV1_finish (H:=λ _ message, message)
    (file_content_updates (FileContentHasherV1_new 3) [[1]; []; [2; 3]]) =
  Some (Blake3Digest_derive (H:=λ _ message, message) FILE_CONTENT_DOMAIN [[1; 2; 3]]).
Proof.
  rewrite file_content_hash_exact by (split; vm_compute; congruence). reflexivity.
Defined.
