(* ===== verification/IdentityWire.v ===== *)
(** * The framing of [src/src/linux_pytest/identity.rs]

    The identity module carries its own copy of the canonical framing. Where the
    copy is the code of [Canonical] line for line ([put_fields], [encode_enum],
    [enforce_size], [Cursor], [RawObject::expect], [RawObject::payload],
    [decode_list] and the exact-width scalars) the definitions of [Canonical]
    are used. What differs has its own definition here, with the prefix [id_]:
    ten wire types instead of thirteen, a [field] that does not test the payload
    length, [parse_top] with its own error, [RawEnum::expect] without a variant.
    The second half shows that the copy agrees with the original. *)

From S2P Require Import Prelude Monad Bytes ContractTypes Canonical CanonicalSpec CanonicalParse.
From S2P Require Import CanonicalCodec RecordTypes Paths RecordValidation RecordCodec.
From S2P Require Import RecordRoundTrip.
Import Wire.

(** The ten wire types, as values of the thirteen of [Canonical]. *)
Definition id_WireType_from_u8 (value : Z) : option WireType :=
  match value with
  | 0x01 => Some U8
  | 0x02 => Some U16
  | 0x03 => Some U32
  | 0x04 => Some U64
  | 0x07 => Some Bool
  | 0x08 => Some Bytes
  | 0x09 => Some Utf8
  | 0x0a => Some Object
  | 0x0b => Some List
  | 0x0d => Some Enum
  | _ => None
  end.

(** ** Encoding *)

Definition id_encode_list (values : list (list Z)) : contract (list Z) :=
  if EFFECT_IR_V2_MAX_COLLECTION_ITEMS <? len values then Err CanonicalEncoding
  else
    output ← put_items (be_bytes 8 (len values)) values;
    _ ← enforce_size output;
    Ok output.

Definition id_ObjectBuilder_field (self : ObjectBuilder) (tag : Z) (wire_type : WireType)
    (payload : list Z) : contract ObjectBuilder :=
  if (tag =? 0) || last_tag_at_least (builder_fields self) tag then Err CanonicalEncoding
  else Ok (mkBuilder (builder_type_id self)
             (builder_fields self ++ [mkField tag wire_type payload])).

Definition id_ObjectBuilder_u16 (self : ObjectBuilder) (tag value : Z) :
    contract ObjectBuilder :=
  id_ObjectBuilder_field self tag U16 (be_bytes 2 value).

Definition id_ObjectBuilder_u32 (self : ObjectBuilder) (tag value : Z) :
    contract ObjectBuilder :=
  id_ObjectBuilder_field self tag U32 (be_bytes 4 value).

Definition id_ObjectBuilder_u64 (self : ObjectBuilder) (tag value : Z) :
    contract ObjectBuilder :=
  id_ObjectBuilder_field self tag U64 (be_bytes 8 value).

Definition id_ObjectBuilder_boolean (self : ObjectBuilder) (tag : Z) (value : bool) :
    contract ObjectBuilder :=
  id_ObjectBuilder_field self tag Bool [Z.b2z value].

Definition id_ObjectBuilder_bytes (self : ObjectBuilder) (tag : Z) (value : list Z) :
    contract ObjectBuilder :=
  id_ObjectBuilder_field self tag Bytes value.

Definition id_ObjectBuilder_utf8 (self : ObjectBuilder) (tag : Z) (value : list Z) :
    contract ObjectBuilder :=
  id_ObjectBuilder_field self tag Utf8 value.

Definition id_ObjectBuilder_object (self : ObjectBuilder) (tag : Z) (value : list Z) :
    contract ObjectBuilder :=
  id_ObjectBuilder_field self tag Object value.

Definition id_ObjectBuilder_list (self : ObjectBuilder) (tag : Z) (values : list (list Z)) :
    contract ObjectBuilder :=
  payload ← id_encode_list values; id_ObjectBuilder_field self tag List payload.

Definition id_ObjectBuilder_enumeration (self : ObjectBuilder) (tag variant : Z)
    (fields : list Field) : contract ObjectBuilder :=
  payload ← encode_enum variant fields; id_ObjectBuilder_field self tag Enum payload.

(** ** Decoding *)

Fixpoint id_parse_fields (count : nat) (previous : Z) (fields : list RawField) :
    cursor_m (list RawField) :=
  match count with
  | O => mret fields
  | S count =>
    tag ← Cursor_u16;
    code ← Cursor_u8;
    wire_type ← cursor_lift (ok_or (id_WireType_from_u8 code) CanonicalDecoding);
    length ← Cursor_u64;
    length ← cursor_lift (try_width U64_MAX CanonicalDecoding length);
    if (tag =? 0) || (tag <=? previous) then cursor_lift (Err CanonicalDecoding)
    else
      payload ← Cursor_take length;
      id_parse_fields count tag (fields ++ [mkField tag wire_type payload])
  end.

Definition id_RawObject_parse_nested (bytes : list Z) : contract RawObject :=
  run_cursor
    (type_id ← Cursor_u16;
     version ← Cursor_u16;
     if negb (version =? EFFECT_IR_V2_WIRE_VERSION) then cursor_lift (Err CanonicalDecoding)
     else
       count ← Cursor_u16;
       remaining ← Cursor_remaining;
       _ ← cursor_lift (require_minimum_framing count FIELD_HEADER_BYTES remaining);
       fields ← id_parse_fields (Z.to_nat count) 0 [];
       _ ← Cursor_finish;
       mret (mkRawObject type_id fields))
    bytes.

Definition id_RawObject_parse_top (bytes : list Z) : contract RawObject :=
  _ ← match enforce_size bytes with Ok u => Ok u | Err _ => Err CanonicalDecoding end;
  nested ← ok_or (strip_prefix EFFECT_IR_V2_WIRE_MAGIC bytes) CanonicalDecoding;
  id_RawObject_parse_nested nested.

Definition id_RawEnum_parse (bytes : list Z) : contract RawEnum :=
  run_cursor
    (variant ← Cursor_u16;
     if variant =? 0 then cursor_lift (Err CanonicalDecoding)
     else
       count ← Cursor_u16;
       remaining ← Cursor_remaining;
       _ ← cursor_lift (require_minimum_framing count FIELD_HEADER_BYTES remaining);
       fields ← id_parse_fields (Z.to_nat count) 0 [];
       _ ← Cursor_finish;
       mret (mkRawEnum variant fields))
    bytes.

Definition id_RawEnum_expect (self : RawEnum) (expected : list (Z * WireType)) : contract () :=
  if negb (fields_match (raw_enum_fields self) expected) then Err CanonicalDecoding else Ok ().

Definition id_RawEnum_expect_no_fields (self : RawEnum) : contract () :=
  id_RawEnum_expect self [].

Definition decode_u8 (bytes : list Z) : contract Z :=
  array ← exact 1 bytes; Ok (default 0 (head array)).

Definition expect_u16 (bytes : list Z) (expected : Z) : contract () :=
  value ← decode_u16 bytes;
  if negb (value =? expected) then Err CanonicalDecoding else Ok ().

Definition expect_u64 (bytes : list Z) (expected : Z) : contract () :=
  value ← decode_u64 bytes;
  if negb (value =? expected) then Err CanonicalDecoding else Ok ().

(** [std::str::from_utf8(bytes).ok() != Some(expected)]. *)
Definition expect_utf8 (bytes expected : list Z) : contract () :=
  if valid_utf8 bytes && bytes_eqb bytes expected then Ok () else Err CanonicalDecoding.

Definition require_exact_reencoding (original encoded : list Z) : contract () :=
  if negb (bytes_eqb original encoded) then Err CanonicalDecoding else Ok ().

(** Proofs unfold these by name. *)
#[global] Arguments id_ObjectBuilder_field : simpl never.
#[global] Arguments id_encode_list : simpl never.
#[global] Arguments id_RawObject_parse_nested : simpl never.
#[global] Arguments id_RawObject_parse_top : simpl never.
#[global] Arguments id_RawEnum_parse : simpl never.
#[global] Arguments id_RawEnum_expect : simpl never.
#[global] Arguments decode_u8 : simpl never.
#[global] Arguments expect_u16 : simpl never.
#[global] Arguments expect_u64 : simpl never.
#[global] Arguments expect_utf8 : simpl never.
#[global] Arguments require_exact_reencoding : simpl never.

(** ** The copy agrees with the original *)

(** The wire types the identity module knows. *)
Definition id_wire (w : WireType) : bool :=
  match w with I32 | I64 | Optional => false | _ => true end.

Definition id_fields (fs : list Field) : bool := forallb (λ f, id_wire (field_wire_type f)) fs.

Lemma id_WireType_from_u8_spec code :
  id_WireType_from_u8 code =
    match WireType_from_u8 code with
    | Some w => if id_wire w then Some w else None
    | None => None
    end.
Proof. unfold id_WireType_from_u8, WireType_from_u8. by repeat case_match; simplify_eq. Qed.

(** Every failure of the parse is [CanonicalDecoding]. *)
Definition decoding_only {A} (m : cursor_m A) : Prop :=
  ∀ c e, m c = Err e → e = CanonicalDecoding.

Lemma decoding_only_bind {A B} (m : cursor_m A) (k : A → cursor_m B) :
  decoding_only m → (∀ a, decoding_only (k a)) → decoding_only (m ≫= k).
Proof.
  intros Hm Hk c e. unfold mbind, cursor_bind. destruct (m c) as [[a c']|e'] eqn:E.
  - apply Hk.
  - intros [= <-]. by eapply Hm.
Qed.

Lemma decoding_only_lift {A} (r : contract A) :
  (∀ e, r = Err e → e = CanonicalDecoding) → decoding_only (cursor_lift r).
Proof. intros Hr c e. unfold cursor_lift. destruct r; [done|]. intros [= <-]. by apply Hr. Qed.

Lemma decoding_only_ret {A} (a : A) : decoding_only (mret a).
Proof. by intros c e. Qed.

Lemma decoding_only_take n : decoding_only (Cursor_take n).
Proof. intros c e. unfold Cursor_take. repeat case_match; congruence. Qed.

Lemma decoding_only_exact n b e : exact n b = Err e → e = CanonicalDecoding.
Proof. unfold exact. case_match; congruence. Qed.

Lemma decoding_only_width max n e :
  try_width max CanonicalDecoding n = Err e → e = CanonicalDecoding.
Proof. unfold try_width. case_match; congruence. Qed.

Lemma decoding_only_ok_or {A} (o : option A) e :
  ok_or o CanonicalDecoding = Err e → e = CanonicalDecoding.
Proof. destruct o; cbn; congruence. Qed.

Ltac decoding_only :=
  repeat first
    [ apply decoding_only_ret | apply decoding_only_take
    | apply decoding_only_bind; [|intros ?]
    | apply decoding_only_lift; intros ?;
      first [apply decoding_only_exact | apply decoding_only_width | apply decoding_only_ok_or
            | by intros [= <-]]
    | progress unfold Cursor_u16, Cursor_u8, Cursor_u64 ].

Lemma decoding_only_fields n previous acc : decoding_only (parse_fields n previous acc).
Proof.
  revert previous acc; induction n as [|n IH]; intros previous acc; cbn [parse_fields];
    [apply decoding_only_ret|].
  decoding_only. case_match; decoding_only. apply IH.
Qed.

Lemma cursor_bind_Ok {A B} (m : cursor_m A) (k : A → cursor_m B) c b c' :
  (m ≫= k) c = Ok (b, c') → ∃ a c1, m c = Ok (a, c1) ∧ k a c1 = Ok (b, c').
Proof. unfold mbind, cursor_bind. destruct (m c) as [[a c1]|]; [eauto|done]. Qed.

Lemma parse_fields_keeps n previous acc c fs c' :
  parse_fields n previous acc c = Ok (fs, c') → ∃ gs, fs = acc ++ gs.
Proof.
  revert previous acc c. induction n as [|n IH]; intros previous acc c; cbn [parse_fields].
  { intros [= <- _]. exists []. by rewrite app_nil_r. }
  intros (tag & ? & _ & H)%cursor_bind_Ok. apply cursor_bind_Ok in H as (code & ? & _ & H).
  apply cursor_bind_Ok in H as (w & ? & _ & H). apply cursor_bind_Ok in H as (l & ? & _ & H).
  apply cursor_bind_Ok in H as (l' & ? & _ & H). case_match; [done|].
  apply cursor_bind_Ok in H as (payload & ? & _ & [gs ->]%IH).
  exists (mkField tag w payload :: gs). by rewrite <- app_assoc.
Qed.

Definition id_only (fs : list Field) : contract (list Field) :=
  if id_fields fs then Ok fs else Err CanonicalDecoding.

Lemma id_fields_app fs gs : id_fields (fs ++ gs) = id_fields fs && id_fields gs.
Proof. apply forallb_app. Qed.

Lemma refused_fields n previous acc c :
  id_fields acc = false →
  (fs ← parse_fields n previous acc; cursor_lift (id_only fs)) c = Err CanonicalDecoding.
Proof.
  intros Hacc. unfold mbind, cursor_bind.
  destruct (parse_fields n previous acc c) as [[fs c']|e] eqn:E.
  - apply parse_fields_keeps in E as [gs ->]. unfold id_only. by rewrite id_fields_app, Hacc.
  - by rewrite (decoding_only_fields _ _ _ _ _ E).
Qed.

Lemma id_parse_fields_eq n previous acc c :
  id_fields acc = true →
  id_parse_fields n previous acc c =
    (fs ← parse_fields n previous acc; cursor_lift (id_only fs)) c.
Proof.
  revert previous acc c; induction n as [|n IH]; intros previous acc c Hacc.
  { cbn. unfold mbind, cursor_bind, mret, cursor_ret, id_only. by rewrite Hacc. }
  cbn [parse_fields id_parse_fields]. unfold mbind, cursor_bind.
  destruct (Cursor_u16 c) as [[tag c1]|]; [|done].
  destruct (Cursor_u8 c1) as [[code c2]|]; [|done].
  rewrite id_WireType_from_u8_spec. destruct (WireType_from_u8 code) as [w|]; [|done].
  destruct (id_wire w) eqn:Hw; cbn [ok_or];
    change (cursor_lift (Ok w) c2) with (Ok (E:=LinuxPytestContractError) (w, c2)); cbv beta iota.
  - destruct (Cursor_u64 c2) as [[l c3]|]; [|done].
    destruct (try_width U64_MAX CanonicalDecoding l) as [l'|]; [|done].
    change (cursor_lift (Ok l') c3) with (Ok (E:=LinuxPytestContractError) (l', c3)).
    cbv beta iota. destruct ((tag =? 0) || (tag <=? previous)); [done|]. destruct (Cursor_take l' c3) as [[payload c4]|]; [|done].
    apply IH. rewrite id_fields_app, Hacc. cbn. by rewrite Hw.
  - destruct (Cursor_u64 c2) as [[l c3]|e] eqn:E.
    2: { f_equal. symmetry. revert E. by assert (decoding_only Cursor_u64) as Hd by decoding_only; apply Hd. }
    destruct (try_width U64_MAX CanonicalDecoding l) as [l'|e] eqn:E1.
    2: { by rewrite (decoding_only_width _ _ _ E1). }
    change (cursor_lift (Ok l') c3) with (Ok (E:=LinuxPytestContractError) (l', c3)).
    cbv beta iota. destruct ((tag =? 0) || (tag <=? previous)); [done|].
    destruct (Cursor_take l' c3) as [[payload c4]|e] eqn:E2.
    2: { by rewrite (decoding_only_take _ _ _ E2). }
    symmetry. apply refused_fields. rewrite id_fields_app, Hacc. cbn. by rewrite Hw.
Qed.

(** The field loop and the end of an object or an enumeration. *)
Lemma id_counted_eq {A} (f : list RawField → A) n c :
  (fields ← id_parse_fields n 0 []; _ ← Cursor_finish; mret (f fields)) c =
    match (fields ← parse_fields n 0 []; _ ← Cursor_finish; mret fields) c with
    | Ok (fs, c') => if id_fields fs then Ok (f fs, c') else Err CanonicalDecoding
    | Err e => Err e
    end.
Proof.
  unfold mbind at 1 3, cursor_bind. rewrite id_parse_fields_eq by done.
  unfold mbind, cursor_bind. destruct (parse_fields n 0 [] c) as [[fs c']|]; [|done].
  unfold id_only, Cursor_finish. destruct (id_fields fs) eqn:Hfs.
  - change (cursor_lift (Ok fs) c') with (Ok (E:=LinuxPytestContractError) (fs, c')). cbv beta iota.
    destruct (cursor_offset c' =? len (cursor_bytes c')); [|done].
    change (mret (M:=cursor_m) fs c') with (Ok (E:=LinuxPytestContractError) (fs, c')). cbv beta iota.
    by rewrite Hfs.
  - change (cursor_lift (A:=list Field) (Err CanonicalDecoding) c') with
      (Err (A:=list Field * Cursor) CanonicalDecoding). cbv beta iota.
    destruct (cursor_offset c' =? len (cursor_bytes c')); [|done].
    change (mret (M:=cursor_m) fs c') with (Ok (E:=LinuxPytestContractError) (fs, c')). cbv beta iota.
    by rewrite Hfs.
Qed.

Lemma counted_map {A} (f : list RawField → A) n c :
  (fields ← parse_fields n 0 []; _ ← Cursor_finish; mret (f fields)) c =
    match (fields ← parse_fields n 0 []; _ ← Cursor_finish; mret fields) c with
    | Ok (fs, c') => Ok (f fs, c')
    | Err e => Err e
    end.
Proof.
  unfold mbind, cursor_bind. destruct (parse_fields n 0 [] c) as [[fs c']|]; [|done].
  unfold Cursor_finish. by destruct (cursor_offset c' =? len (cursor_bytes c')).
Qed.

Definition id_object (o : RawObject) : contract RawObject :=
  if id_fields (raw_object_fields o) then Ok o else Err CanonicalDecoding.

Definition id_enum (o : RawEnum) : contract RawEnum :=
  if id_fields (raw_enum_fields o) then Ok o else Err CanonicalDecoding.

Lemma cursor_bind_step {A B} (m : cursor_m A) (k : A → cursor_m B) c :
  (m ≫= k) c = match m c with Ok (a, c') => k a c' | Err e => Err e end.
Proof. done. Qed.

(** Runs the next step of both parses, which is the same. *)
Ltac same_step :=
  rewrite !cursor_bind_step;
  match goal with
  | |- match match ?m with _ => _ end with _ => _ end = _ =>
      let a := fresh "a" in let c := fresh "c" in destruct m as [[a c]|]; [|done]
  end.

Lemma id_parse_nested_eq b :
  id_RawObject_parse_nested b = RawObject_parse_nested b ≫= id_object.
Proof.
  unfold id_RawObject_parse_nested, RawObject_parse_nested, run_cursor.
  do 2 same_step. destruct (negb _); [done|]. do 3 same_step.
  rewrite id_counted_eq, (counted_map (mkRawObject a)).
  destruct ((fields ← parse_fields _ 0 []; _ ← Cursor_finish; mret fields) c3) as [[fs c']|]; [|done].
  rewrite bind_Ok. unfold id_object. cbn [raw_object_fields]. by destruct (id_fields fs).
Qed.

Lemma id_RawEnum_parse_eq b : id_RawEnum_parse b = RawEnum_parse b ≫= id_enum.
Proof.
  unfold id_RawEnum_parse, RawEnum_parse, run_cursor.
  same_step. destruct (_ =? 0); [done|]. do 3 same_step.
  rewrite id_counted_eq, (counted_map (mkRawEnum a)).
  destruct ((fields ← parse_fields _ 0 []; _ ← Cursor_finish; mret fields) c2) as [[fs c']|]; [|done].
  rewrite bind_Ok. unfold id_enum. cbn [raw_enum_fields]. by destruct (id_fields fs).
Qed.

(** Fields that have an expected shape of the ten types. *)
Lemma shape_id_fields fs shape :
  forallb (λ p, id_wire (snd p)) shape = true → fields_match fs shape = true →
  id_fields fs = true.
Proof.
  intros Hw <-%fields_match_iff. unfold shape_of, id_fields in *. revert Hw.
  induction fs as [|f fs IH]; [done|]. cbn. rewrite !andb_true_iff. intros [-> ?]. by rewrite IH.
Qed.

(** An object with the expected fields is read alike by both parsers. *)
Lemma id_expect_eq {A} (o : RawObject) ty shape (k : RawObject → contract A) :
  forallb (λ p, id_wire (snd p)) shape = true →
  (o ← id_object o; _ ← RawObject_expect o ty shape; k o) =
  (_ ← RawObject_expect o ty shape; k o).
Proof.
  intros Hw. unfold id_object. destruct (id_fields (raw_object_fields o)) eqn:Hf; [done|].
  unfold RawObject_expect. destruct (fields_match _ _) eqn:Hm.
  - by rewrite (shape_id_fields _ _ Hw Hm) in Hf.
  - by rewrite orb_true_r.
Qed.

Lemma result_bind_assoc {E A B C} (m : result E A) (f : A → result E B) (g : B → result E C) :
  (m ≫= f) ≫= g = m ≫= λ a, f a ≫= g.
Proof. by destruct m. Qed.

Lemma id_parse_nested_expect {A} b ty shape (k : RawObject → contract A) :
  forallb (λ p, id_wire (snd p)) shape = true →
  (o ← id_RawObject_parse_nested b; _ ← RawObject_expect o ty shape; k o) =
  (o ← RawObject_parse_nested b; _ ← RawObject_expect o ty shape; k o).
Proof.
  intros Hw. rewrite id_parse_nested_eq, result_bind_assoc.
  destruct (RawObject_parse_nested b) as [o|]; [|done]. rewrite !bind_Ok. by apply id_expect_eq.
Qed.

Lemma id_parse_top_expect {A} b ty shape (k : RawObject → contract A) :
  len b <= EFFECT_IR_V2_MAX_CANONICAL_BYTES →
  forallb (λ p, id_wire (snd p)) shape = true →
  (o ← id_RawObject_parse_top b; _ ← RawObject_expect o ty shape; k o) =
  (o ← RawObject_parse_top b; _ ← RawObject_expect o ty shape; k o).
Proof.
  intros Hl%(enforce_size_Ok b ()) Hw. unfold id_RawObject_parse_top, RawObject_parse_top.
  rewrite Hl, !bind_Ok. destruct (ok_or _ _) as [nested|]; [|done]. rewrite !bind_Ok.
  by apply id_parse_nested_expect.
Qed.

Lemma id_parse_top_oversize b :
  EFFECT_IR_V2_MAX_CANONICAL_BYTES < len b → id_RawObject_parse_top b = Err CanonicalDecoding.
Proof.
  intros Hl. unfold id_RawObject_parse_top, enforce_size. by rewrite (proj2 (Z.ltb_lt _ _) Hl).
Qed.

Lemma id_RawEnum_parse_Ok b o :
  id_RawEnum_parse b = Ok o ↔ RawEnum_parse b = Ok o ∧ id_fields (raw_enum_fields o) = true.
Proof.
  rewrite id_RawEnum_parse_eq, result_bind_Ok_iff. unfold id_enum. split.
  - intros (o' & Ho & H). case_match; [|done]. by injection H as <-.
  - intros [Ho Hf]. exists o. by rewrite Hf.
Qed.

Lemma id_RawEnum_expect_eq o shape :
  id_RawEnum_expect o shape = RawEnum_expect o (raw_enum_variant o) shape.
Proof. unfold id_RawEnum_expect, RawEnum_expect. by rewrite Z.eqb_refl. Qed.

Lemma id_encode_list_eq items : id_encode_list items = encode_list items.
Proof.
  unfold id_encode_list, encode_list, try_width.
  destruct (Z.leb_spec (len items) U64_MAX); [done|].
  rewrite (proj2 (Z.ltb_lt _ _)); [done|]. size_lia.
Qed.

Lemma id_field_inv ty fs t w p o :
  id_ObjectBuilder_field (mkBuilder ty fs) t w p = Ok o →
  o = mkBuilder ty (fs ++ [mkField t w p]).
Proof. unfold id_ObjectBuilder_field. cbn. case_match; naive_solver. Qed.

Lemma id_field_ok ty fs t w p :
  (t =? 0) || last_tag_at_least fs t = false →
  id_ObjectBuilder_field (mkBuilder ty fs) t w p = Ok (mkBuilder ty (fs ++ [mkField t w p])).
Proof. intros Ht. unfold id_ObjectBuilder_field. cbn. by rewrite Ht. Qed.

Lemma require_exact_Ok b e u : require_exact_reencoding b e = Ok u ↔ b = e.
Proof.
  unfold require_exact_reencoding, bytes_eqb. destruct u. case_bool_decide; naive_solver.
Qed.

Lemma expect_utf8_Ok b s u : expect_utf8 b s = Ok u ↔ b = s ∧ valid_utf8 s = true.
Proof.
  unfold expect_utf8, bytes_eqb. destruct u. case_bool_decide as E.
  - subst. rewrite andb_true_r. case_match; naive_solver.
  - rewrite andb_false_r. naive_solver.
Qed.

Lemma expect_u64_Ok b n u :
  is_bytes b → is_u64 n → expect_u64 b n = Ok u ↔ b = be_bytes 8 n.
Proof.
  intros Hb Hn. unfold expect_u64. destruct u. split.
  - intros (v & [Hv ->]%(be_exact_sound 8) & H)%result_bind_Ok; [|done].
    destruct (Z.eqb_spec v n) as [->|]; done.
  - intros ->. rewrite decode_u64_be, bind_Ok by done. by rewrite Z.eqb_refl.
Qed.

Lemma expect_u16_Ok b n u :
  is_bytes b → is_u16 n → expect_u16 b n = Ok u ↔ b = be_bytes 2 n.
Proof.
  intros Hb Hn. unfold expect_u16. destruct u. split.
  - intros (v & [Hv ->]%(be_exact_sound 2) & H)%result_bind_Ok; [|done].
    destruct (Z.eqb_spec v n) as [->|]; done.
  - intros ->. rewrite decode_u16_be, bind_Ok by done. by rewrite Z.eqb_refl.
Qed.

(** The automation of [CanonicalCodec] on the identity builder. *)
Ltac unfold_builder ::=
  unfold ObjectBuilder_u16, ObjectBuilder_u32, ObjectBuilder_u64, ObjectBuilder_i64,
    ObjectBuilder_boolean, ObjectBuilder_bytes, ObjectBuilder_utf8, ObjectBuilder_object,
    ObjectBuilder_list, ObjectBuilder_enumeration, ObjectBuilder_optional, ObjectBuilder_new,
    id_ObjectBuilder_u16, id_ObjectBuilder_u32, id_ObjectBuilder_u64, id_ObjectBuilder_boolean,
    id_ObjectBuilder_bytes, id_ObjectBuilder_utf8, id_ObjectBuilder_object,
    id_ObjectBuilder_list, id_ObjectBuilder_enumeration, enum_field in *.

Ltac builder_inv E ::=
  lazymatch type of E with
  | ObjectBuilder_field _ _ _ _ = Ok _ => apply builder_field_inv in E; subst
  | id_ObjectBuilder_field _ _ _ _ = Ok _ => apply id_field_inv in E; subst
  | mbind (λ payload, ObjectBuilder_field _ _ _ payload) _ = Ok _ =>
      let p := fresh "p" in let Ep := fresh "Ep" in
      apply result_bind_Ok in E as (p & Ep & E); apply builder_field_inv in E; subst
  | mbind (λ payload, id_ObjectBuilder_field _ _ _ payload) _ = Ok _ =>
      let p := fresh "p" in let Ep := fresh "Ep" in
      apply result_bind_Ok in E as (p & Ep & E); apply id_field_inv in E; subst;
      rewrite ?id_encode_list_eq in Ep
  | @eq (contract ()) _ (Ok ?u) => destruct u
  | _ => idtac
  end.
