(* ===== verification/Identity.v ===== *)
(** * Identities of the Linux pytest profile

    The committed identities of [src/src/linux_pytest/identity.rs]: profile and
    workspace commitments, lexical shapes, executable chains, effect shapes and
    quarantine classes, each with its validation, its canonical bytes and its
    strict decoder. A digest is a BLAKE3 hash under a fixed domain, so it takes
    the [Blake3] operation of [Digest]. The constructors that start from a
    validated record are in [RecordTop]. *)

From Stdlib Require Import String.
From S2P Require Import Prelude Monad Bytes WaitStatus ContractTypes Canonical CanonicalSpec.
From S2P Require Import CanonicalParse CanonicalCodec RecordTypes Paths RecordValidation.
From S2P Require Import RecordCodec RecordRoundTrip Digest IdentityWire.
Import Wire.

Definition TYPE_PROFILE_COMMITMENT : Z := 0x0030.
Definition TYPE_WORKSPACE_IDENTITY_COMMITMENT : Z := 0x0031.
Definition TYPE_LEXICAL_SHAPE : Z := 0x0032.
Definition TYPE_EXECUTABLE_CHAIN : Z := 0x0033.
Definition TYPE_EXECUTABLE_HOP : Z := 0x0034.
Definition TYPE_EFFECT_SHAPE : Z := 0x0035.
Definition TYPE_OBSERVATION_LAYOUT : Z := 0x0036.
Definition TYPE_AMBIENT_LAYOUT : Z := 0x0037.
Definition TYPE_ORDERED_EFFECT_LAYOUT : Z := 0x0038.
Definition TYPE_QUARANTINE_CLASS : Z := 0x0039.

Definition PROFILE_COMMITMENT_V1_SCHEMA : list Z :=
  bstr "again.linux-pytest.profile-commitment.v1".
Definition WORKSPACE_IDENTITY_V1_SCHEMA : list Z := bstr "again.workspace-identity.v1".
Definition LEXICAL_SHAPE_V1_SCHEMA : list Z := bstr "again.linux-pytest.lexical-shape.v1".
Definition EXECUTABLE_CHAIN_V1_SCHEMA : list Z := bstr "again.linux-pytest.executable-chain.v1".
Definition EFFECT_SHAPE_V1_SCHEMA : list Z := bstr "again.linux-pytest.effect-shape.v1".
Definition QUARANTINE_CLASS_V1_SCHEMA : list Z := bstr "again.linux-pytest.quarantine-class.v1".

Definition MAX_EXECUTABLE_CHAIN_HOPS : Z := 40.

(** ** Profile commitments *)

Record ProfileCommitmentV1 := mkProfile { profile_policy_digests : PolicyDigestsV1 }.

Definition policy_digest_values (value : PolicyDigestsV1) : list (list Z) :=
  [policy_seccomp value; policy_landlock value; policy_namespace value;
   policy_tracer_runtime value; policy_ambient_broker value; policy_limits value;
   policy_environment value; policy_selector_grammar value; policy_runtime_closure value;
   policy_codec value].

Definition ProfileCommitmentV1_validate (self : ProfileCommitmentV1) : contract () :=
  if any digest_is_zero (policy_digest_values (profile_policy_digests self))
  then Err MalformedLookupIdentity else Ok ().

Definition from_compiled_policy_digests (policy_digests : PolicyDigestsV1) :
    contract ProfileCommitmentV1 :=
  let value := mkProfile policy_digests in
  _ ← ProfileCommitmentV1_validate value;
  Ok value.

(** The loop over the enumerated digests; [tag] is the index of the next one. *)
Fixpoint put_policy_digests (object : ObjectBuilder) (tag : Z) (digests : list (list Z)) :
    contract ObjectBuilder :=
  match digests with
  | [] => Ok object
  | digest :: digests =>
    number ← try_width U16_MAX CanonicalEncoding (tag + 1);
    object ← id_ObjectBuilder_bytes object number digest;
    put_policy_digests object (tag + 1) digests
  end.

Definition id_encode_policy_digests (value : PolicyDigestsV1) : contract (list Z) :=
  object ← put_policy_digests (ObjectBuilder_new 0x0008) 0 (policy_digest_values value);
  ObjectBuilder_finish_nested object.

Definition id_decode_policy_digests (bytes : list Z) : contract PolicyDigestsV1 :=
  object ← id_RawObject_parse_nested bytes;
  _ ← RawObject_expect object 0x0008
        [(1, Bytes); (2, Bytes); (3, Bytes); (4, Bytes); (5, Bytes); (6, Bytes); (7, Bytes);
         (8, Bytes); (9, Bytes); (10, Bytes)];
  p1 ← RawObject_payload object 1; seccomp ← exact 32 p1;
  p2 ← RawObject_payload object 2; landlock ← exact 32 p2;
  p3 ← RawObject_payload object 3; namespace ← exact 32 p3;
  p4 ← RawObject_payload object 4; tracer_runtime ← exact 32 p4;
  p5 ← RawObject_payload object 5; ambient_broker ← exact 32 p5;
  p6 ← RawObject_payload object 6; limits ← exact 32 p6;
  p7 ← RawObject_payload object 7; environment ← exact 32 p7;
  p8 ← RawObject_payload object 8; selector_grammar ← exact 32 p8;
  p9 ← RawObject_payload object 9; runtime_closure ← exact 32 p9;
  p10 ← RawObject_payload object 10; codec ← exact 32 p10;
  Ok (mkPolicyDigests seccomp landlock namespace tracer_runtime ambient_broker limits
        environment selector_grammar runtime_closure codec).

Definition encode_profile_commitment (value : ProfileCommitmentV1) (top : bool) :
    contract (list Z) :=
  let object := ObjectBuilder_new TYPE_PROFILE_COMMITMENT in
  object ← id_ObjectBuilder_utf8 object 1 PROFILE_COMMITMENT_V1_SCHEMA;
  object ← id_ObjectBuilder_utf8 object 2 LINUX_PYTEST_PROFILE_ID;
  object ← id_ObjectBuilder_utf8 object 3 EFFECT_IR_V2_SCHEMA;
  object ← id_ObjectBuilder_utf8 object 4 LINUX_PYTEST_SHAPE_V1_SCHEMA;
  object ← id_ObjectBuilder_u64 object 5 EFFECT_IR_V2_REQUIRED_MASK;
  object ← id_ObjectBuilder_bytes object 6 EFFECT_IR_V2_WIRE_MAGIC;
  object ← id_ObjectBuilder_u16 object 7 EFFECT_IR_V2_WIRE_VERSION;
  object ← id_ObjectBuilder_u64 object 8 EFFECT_IR_V2_MAX_CANONICAL_BYTES;
  object ← id_ObjectBuilder_u16 object 9 LINUX_PYTEST_V1_MAX_LOOKUP_CANDIDATES;
  policies ← id_encode_policy_digests (profile_policy_digests value);
  object ← id_ObjectBuilder_object object 10 policies;
  if top then ObjectBuilder_finish_top object else ObjectBuilder_finish_nested object.

Definition ProfileCommitmentV1_canonical_bytes (self : ProfileCommitmentV1) :
    contract (list Z) :=
  _ ← ProfileCommitmentV1_validate self;
  encode_profile_commitment self true.

Definition ProfileCommitmentV1_from_canonical_bytes (bytes : list Z) :
    contract ProfileCommitmentV1 :=
  object ← id_RawObject_parse_top bytes;
  _ ← RawObject_expect object TYPE_PROFILE_COMMITMENT
        [(1, Utf8); (2, Utf8); (3, Utf8); (4, Utf8); (5, U64); (6, Bytes); (7, U16); (8, U64);
         (9, U16); (10, Object)];
  p1 ← RawObject_payload object 1; _ ← expect_utf8 p1 PROFILE_COMMITMENT_V1_SCHEMA;
  p2 ← RawObject_payload object 2; _ ← expect_utf8 p2 LINUX_PYTEST_PROFILE_ID;
  p3 ← RawObject_payload object 3; _ ← expect_utf8 p3 EFFECT_IR_V2_SCHEMA;
  p4 ← RawObject_payload object 4; _ ← expect_utf8 p4 LINUX_PYTEST_SHAPE_V1_SCHEMA;
  p5 ← RawObject_payload object 5; _ ← expect_u64 p5 EFFECT_IR_V2_REQUIRED_MASK;
  p6 ← RawObject_payload object 6;
  _ ← ensure (bytes_eqb p6 EFFECT_IR_V2_WIRE_MAGIC) CanonicalDecoding;
  p7 ← RawObject_payload object 7; _ ← expect_u16 p7 EFFECT_IR_V2_WIRE_VERSION;
  p8 ← RawObject_payload object 8; _ ← expect_u64 p8 EFFECT_IR_V2_MAX_CANONICAL_BYTES;
  p9 ← RawObject_payload object 9; _ ← expect_u16 p9 LINUX_PYTEST_V1_MAX_LOOKUP_CANDIDATES;
  p10 ← RawObject_payload object 10; policy_digests ← id_decode_policy_digests p10;
  let value := mkProfile policy_digests in
  _ ← ProfileCommitmentV1_validate value;
  encoded ← ProfileCommitmentV1_canonical_bytes value;
  _ ← require_exact_reencoding bytes encoded;
  Ok value.

(** ** Workspace identity commitments *)

Record WorkspaceIdentityCommitmentV1 := mkWorkspaceCommitment { workspace_stable_id : list Z }.

Definition WorkspaceIdentityCommitmentV1_enroll (stable_id : list Z) :
    contract WorkspaceIdentityCommitmentV1 :=
  if bytes_eqb stable_id (replicate 32 0) then Err MalformedLookupIdentity
  else Ok (mkWorkspaceCommitment stable_id).

Definition WorkspaceIdentityCommitmentV1_canonical_bytes
    (self : WorkspaceIdentityCommitmentV1) : contract (list Z) :=
  if bytes_eqb (workspace_stable_id self) (replicate 32 0) then Err MalformedLookupIdentity
  else
    let object := ObjectBuilder_new TYPE_WORKSPACE_IDENTITY_COMMITMENT in
    object ← id_ObjectBuilder_utf8 object 1 WORKSPACE_IDENTITY_V1_SCHEMA;
    object ← id_ObjectBuilder_bytes object 2 (workspace_stable_id self);
    ObjectBuilder_finish_top object.

Definition WorkspaceIdentityCommitmentV1_from_canonical_bytes (bytes : list Z) :
    contract WorkspaceIdentityCommitmentV1 :=
  object ← id_RawObject_parse_top bytes;
  _ ← RawObject_expect object TYPE_WORKSPACE_IDENTITY_COMMITMENT [(1, Utf8); (2, Bytes)];
  p1 ← RawObject_payload object 1; _ ← expect_utf8 p1 WORKSPACE_IDENTITY_V1_SCHEMA;
  p2 ← RawObject_payload object 2; stable_id ← exact 32 p2;
  value ← WorkspaceIdentityCommitmentV1_enroll stable_id;
  encoded ← WorkspaceIdentityCommitmentV1_canonical_bytes value;
  _ ← require_exact_reencoding bytes encoded;
  Ok value.

(** ** The nested structures of the identity module's own codec *)

Definition id_encode_selector (value : PytestSelectorV1) : contract (list Z) :=
  if negb (parses_to (selector_raw value) value) then Err MalformedLookupIdentity
  else
    let object := ObjectBuilder_new 0x0003 in
    object ← id_ObjectBuilder_bytes object 1 (selector_raw value);
    object ← id_ObjectBuilder_bytes object 2 (selector_path value);
    object ← id_ObjectBuilder_list object 3 (selector_nodes value);
    ObjectBuilder_finish_nested object.

Definition id_decode_selector (bytes : list Z) : contract PytestSelectorV1 :=
  object ← id_RawObject_parse_nested bytes;
  _ ← RawObject_expect object 0x0003 [(1, Bytes); (2, Bytes); (3, List)];
  p1 ← RawObject_payload object 1;
  value ← match PytestSelectorV1_parse p1 with Ok v => Ok v | Err _ => Err CanonicalDecoding end;
  p3 ← RawObject_payload object 3; nodes ← decode_list p3;
  p2 ← RawObject_payload object 2;
  if negb (bytes_eqb (selector_path value) p2) || negb (bool_decide (selector_nodes value = nodes))
  then Err CanonicalDecoding
  else
    encoded ← id_encode_selector value;
    if negb (bytes_eqb encoded bytes) then Err CanonicalDecoding else Ok value.

Definition id_encode_invocation (value : PytestInvocationIdentityV1) : contract (list Z) :=
  if negb (valid_pytest_invocation value) then Err MalformedLookupIdentity
  else
    let object := ObjectBuilder_new 0x0002 in
    object ← id_ObjectBuilder_list object 1 (invocation_argv value);
    object ← id_ObjectBuilder_bytes object 2 (invocation_cwd value);
    selectors ← try_map id_encode_selector (invocation_selectors value);
    object ← id_ObjectBuilder_list object 3 selectors;
    object ← id_ObjectBuilder_enumeration object 4
               (StdinProfileV1_as_u16 (invocation_stdin_profile value)) [];
    ObjectBuilder_finish_nested object.

(** [RawEnum::parse], [expect_no_fields] and the variant. *)
Definition id_decode_simple_enum (bytes : list Z) : contract Z :=
  value ← id_RawEnum_parse bytes;
  _ ← id_RawEnum_expect_no_fields value;
  Ok (raw_enum_variant value).

Definition id_decode_invocation (bytes : list Z) : contract PytestInvocationIdentityV1 :=
  object ← id_RawObject_parse_nested bytes;
  _ ← RawObject_expect object 0x0002 [(1, List); (2, Bytes); (3, List); (4, Enum)];
  p4 ← RawObject_payload object 4; stdin ← id_decode_simple_enum p4;
  stdin_profile ← match stdin with
                  | 1 => Ok ClosedEof
                  | 2 => Ok EmptyNonTtyEof
                  | _ => Err CanonicalDecoding
                  end;
  p1 ← RawObject_payload object 1; argv ← decode_list p1;
  cwd ← RawObject_payload object 2;
  p3 ← RawObject_payload object 3; raw_selectors ← decode_list p3;
  selectors ← try_map id_decode_selector raw_selectors;
  let invocation := mkInvocation argv cwd selectors stdin_profile in
  if negb (valid_pytest_invocation invocation) then Err CanonicalDecoding
  else
    encoded ← id_encode_invocation invocation;
    if negb (bytes_eqb encoded bytes) then Err CanonicalDecoding else Ok invocation.

Definition id_encode_environment (value : EnvironmentBindingV1) : contract (list Z) :=
  let object := ObjectBuilder_new 0x0004 in
  object ← id_ObjectBuilder_bytes object 1 (environment_key_id value);
  object ← id_ObjectBuilder_bytes object 2 (environment_digest value);
  object ← id_ObjectBuilder_bytes object 3 (environment_names_digest value);
  object ← id_ObjectBuilder_u32 object 4 (environment_entry_count value);
  object ← id_ObjectBuilder_bytes object 5 (environment_policy_digest value);
  ObjectBuilder_finish_nested object.

Definition id_decode_environment (bytes : list Z) : contract EnvironmentBindingV1 :=
  object ← id_RawObject_parse_nested bytes;
  _ ← RawObject_expect object 0x0004 [(1, Bytes); (2, Bytes); (3, Bytes); (4, U32); (5, Bytes)];
  p1 ← RawObject_payload object 1; key_id ← exact 32 p1;
  p2 ← RawObject_payload object 2; digest ← exact 32 p2;
  p3 ← RawObject_payload object 3; names_digest ← exact 32 p3;
  p4 ← RawObject_payload object 4; entry_count ← decode_u32 p4;
  p5 ← RawObject_payload object 5; policy_digest ← exact 32 p5;
  let value := mkEnvironment key_id digest names_digest entry_count policy_digest in
  encoded ← id_encode_environment value;
  if negb (bytes_eqb encoded bytes) then Err CanonicalDecoding else Ok value.

(** ** Executable chains *)

Module Hops.
Inductive ExecutableHopResolutionV1 :=
| Symlink (raw_target next_path : list Z)
| TerminalRegular.
End Hops.
Abbreviation ExecutableHopResolutionV1 := Hops.ExecutableHopResolutionV1.

Record ExecutableHopV1 := mkHop {
  hop_path : list Z;
  hop_node_digest : list Z;
  hop_resolution : ExecutableHopResolutionV1;
}.

Definition ExecutableHopV1_validate (self : ExecutableHopV1) : contract () :=
  if digest_is_zero (hop_node_digest self) || negb (valid_sandbox_path_bytes (hop_path self))
  then Err MalformedLookupIdentity
  else match hop_resolution self with
  | Hops.Symlink raw_target next_path =>
    if bytes_eqb raw_target [] || contains 0 raw_target
       || negb (valid_sandbox_path_bytes next_path)
       || negb (bool_decide
                  (resolved_symlink_target (hop_path self) raw_target = Some next_path))
    then Err MalformedLookupIdentity else Ok ()
  | Hops.TerminalRegular => Ok ()
  end.

Definition ExecutableHopV1_symlink (path node_digest raw_target next_path : list Z) :
    contract ExecutableHopV1 :=
  let value := mkHop path node_digest (Hops.Symlink raw_target next_path) in
  _ ← ExecutableHopV1_validate value;
  Ok value.

Definition ExecutableHopV1_terminal_regular (path node_digest : list Z) :
    contract ExecutableHopV1 :=
  let value := mkHop path node_digest Hops.TerminalRegular in
  _ ← ExecutableHopV1_validate value;
  Ok value.

Record ExecutableChainV1 := mkChain {
  chain_requested_path : list Z;
  chain_hops : list ExecutableHopV1;
}.

(** The loop over the hops; [seen] holds the paths before the current hop, and
    the hops after it are the rest of the list. *)
Fixpoint validate_hops (seen : list (list Z)) (hops : list ExecutableHopV1) : contract () :=
  match hops with
  | [] => Ok ()
  | hop :: rest =>
    _ ← ExecutableHopV1_validate hop;
    if bool_decide (hop_path hop ∈ seen) then Err MalformedLookupIdentity
    else match hop_resolution hop with
    | Hops.Symlink _ next_path =>
      if negb (bool_decide (hop_path <$> head rest = Some next_path))
      then Err MalformedLookupIdentity
      else validate_hops (hop_path hop :: seen) rest
    | Hops.TerminalRegular =>
      match rest with
      | [] => validate_hops (hop_path hop :: seen) rest
      | _ :: _ => Err MalformedLookupIdentity
      end
    end
  end.

Definition is_terminal (resolution : ExecutableHopResolutionV1) : bool :=
  match resolution with Hops.TerminalRegular => true | Hops.Symlink _ _ => false end.

Definition ExecutableChainV1_validate (self : ExecutableChainV1) : contract () :=
  if negb (valid_sandbox_path_bytes (chain_requested_path self))
     || (len (chain_hops self) =? 0)
     || (MAX_EXECUTABLE_CHAIN_HOPS <? len (chain_hops self))
     || negb (bool_decide (hop_path <$> head (chain_hops self) = Some (chain_requested_path self)))
     || negb (match list.last (chain_hops self) with
              | Some hop => is_terminal (hop_resolution hop)
              | None => false
              end)
  then Err MalformedLookupIdentity
  else validate_hops [] (chain_hops self).

Definition ExecutableChainV1_new (requested_path : list Z) (hops : list ExecutableHopV1) :
    contract ExecutableChainV1 :=
  let value := mkChain requested_path hops in
  _ ← ExecutableChainV1_validate value;
  Ok value.

Definition validate_requested_by (self : ExecutableChainV1)
    (invocation : PytestInvocationIdentityV1) : contract () :=
  if negb (valid_pytest_invocation invocation)
     || negb (bytes_eqb (invocation_cwd invocation) (bstr "."))
     || negb (bool_decide (head (invocation_argv invocation) = Some (bstr ".venv/bin/python")))
     || negb (bytes_eqb (chain_requested_path self) (bstr "/workspace/.venv/bin/python"))
  then Err MalformedLookupIdentity else Ok ().

Definition encode_executable_hop (value : ExecutableHopV1) : contract (list Z) :=
  _ ← ExecutableHopV1_validate value;
  let object := ObjectBuilder_new TYPE_EXECUTABLE_HOP in
  object ← id_ObjectBuilder_bytes object 1 (hop_path value);
  object ← id_ObjectBuilder_bytes object 2 (hop_node_digest value);
  object ← match hop_resolution value with
           | Hops.Symlink raw_target next_path =>
             id_ObjectBuilder_enumeration object 3 1
               [enum_field 1 Bytes raw_target; enum_field 2 Bytes next_path]
           | Hops.TerminalRegular => id_ObjectBuilder_enumeration object 3 2 []
           end;
  ObjectBuilder_finish_nested object.

Definition decode_executable_hop (bytes : list Z) : contract ExecutableHopV1 :=
  object ← id_RawObject_parse_nested bytes;
  _ ← RawObject_expect object TYPE_EXECUTABLE_HOP [(1, Bytes); (2, Bytes); (3, Enum)];
  p1 ← RawObject_payload object 1; path ← SandboxPath_new p1;
  p2 ← RawObject_payload object 2; node_digest ← exact 32 p2;
  p3 ← RawObject_payload object 3; resolution ← id_RawEnum_parse p3;
  value ← match raw_enum_variant resolution with
          | 1 =>
            _ ← id_RawEnum_expect resolution [(1, Bytes); (2, Bytes)];
            raw_target ← RawEnum_payload resolution 1;
            e2 ← RawEnum_payload resolution 2; next_path ← SandboxPath_new e2;
            ExecutableHopV1_symlink path node_digest raw_target next_path
          | 2 =>
            _ ← id_RawEnum_expect_no_fields resolution;
            ExecutableHopV1_terminal_regular path node_digest
          | _ => Err CanonicalDecoding
          end;
  encoded ← encode_executable_hop value;
  if negb (bytes_eqb encoded bytes) then Err CanonicalDecoding else Ok value.

Definition ExecutableChainV1_canonical_bytes (self : ExecutableChainV1) : contract (list Z) :=
  _ ← ExecutableChainV1_validate self;
  let object := ObjectBuilder_new TYPE_EXECUTABLE_CHAIN in
  object ← id_ObjectBuilder_utf8 object 1 EXECUTABLE_CHAIN_V1_SCHEMA;
  object ← id_ObjectBuilder_bytes object 2 (chain_requested_path self);
  hops ← try_map encode_executable_hop (chain_hops self);
  object ← id_ObjectBuilder_list object 3 hops;
  ObjectBuilder_finish_top object.

Definition ExecutableChainV1_from_canonical_bytes (bytes : list Z) :
    contract ExecutableChainV1 :=
  object ← id_RawObject_parse_top bytes;
  _ ← RawObject_expect object TYPE_EXECUTABLE_CHAIN [(1, Utf8); (2, Bytes); (3, List)];
  p1 ← RawObject_payload object 1; _ ← expect_utf8 p1 EXECUTABLE_CHAIN_V1_SCHEMA;
  p2 ← RawObject_payload object 2; requested_path ← SandboxPath_new p2;
  p3 ← RawObject_payload object 3; raw_hops ← decode_list p3;
  hops ← try_map decode_executable_hop raw_hops;
  value ← ExecutableChainV1_new requested_path hops;
  encoded ← ExecutableChainV1_canonical_bytes value;
  _ ← require_exact_reencoding bytes encoded;
  Ok value.

(** ** Lexical shapes *)

Record LexicalShapeV1 := mkLexicalShape {
  lexical_profile_digest : list Z;
  lexical_workspace_identity : list Z;
  lexical_invocation : PytestInvocationIdentityV1;
  lexical_environment : EnvironmentBindingV1;
}.

Definition LexicalShapeV1_validate (self : LexicalShapeV1) : contract () :=
  let environment := lexical_environment self in
  if digest_is_zero (lexical_profile_digest self)
     || digest_is_zero (lexical_workspace_identity self)
     || negb (valid_pytest_invocation (lexical_invocation self))
     || digest_is_zero (environment_key_id environment)
     || digest_is_zero (environment_digest environment)
     || digest_is_zero (environment_names_digest environment)
     || digest_is_zero (environment_policy_digest environment)
     || (environment_entry_count environment =? 0)
  then Err MalformedLookupIdentity else Ok ().

Definition LexicalShapeV1_canonical_bytes (self : LexicalShapeV1) : contract (list Z) :=
  _ ← LexicalShapeV1_validate self;
  let object := ObjectBuilder_new TYPE_LEXICAL_SHAPE in
  object ← id_ObjectBuilder_utf8 object 1 LEXICAL_SHAPE_V1_SCHEMA;
  object ← id_ObjectBuilder_utf8 object 2 LINUX_PYTEST_PROFILE_ID;
  object ← id_ObjectBuilder_bytes object 3 (lexical_profile_digest self);
  object ← id_ObjectBuilder_bytes object 4 (lexical_workspace_identity self);
  invocation ← id_encode_invocation (lexical_invocation self);
  object ← id_ObjectBuilder_object object 5 invocation;
  environment ← id_encode_environment (lexical_environment self);
  object ← id_ObjectBuilder_object object 6 environment;
  ObjectBuilder_finish_top object.

Definition LexicalShapeV1_from_canonical_bytes (bytes : list Z) : contract LexicalShapeV1 :=
  object ← id_RawObject_parse_top bytes;
  _ ← RawObject_expect object TYPE_LEXICAL_SHAPE
        [(1, Utf8); (2, Utf8); (3, Bytes); (4, Bytes); (5, Object); (6, Object)];
  p1 ← RawObject_payload object 1; _ ← expect_utf8 p1 LEXICAL_SHAPE_V1_SCHEMA;
  p2 ← RawObject_payload object 2; _ ← expect_utf8 p2 LINUX_PYTEST_PROFILE_ID;
  p3 ← RawObject_payload object 3; profile_digest ← exact 32 p3;
  p4 ← RawObject_payload object 4; workspace_identity ← exact 32 p4;
  p5 ← RawObject_payload object 5; invocation ← id_decode_invocation p5;
  p6 ← RawObject_payload object 6; environment ← id_decode_environment p6;
  let value := mkLexicalShape profile_digest workspace_identity invocation environment in
  _ ← LexicalShapeV1_validate value;
  encoded ← LexicalShapeV1_canonical_bytes value;
  _ ← require_exact_reencoding bytes encoded;
  Ok value.

(** ** Quarantine classes *)

Record QuarantineClassV1 := mkQuarantineClass {
  class_profile_digest : list Z;
  class_workspace_identity : list Z;
  class_shape_key : list Z;
  class_request_key : list Z;
}.

Definition from_checked_parts (profile_digest workspace_identity shape_key request_key : list Z) :
    contract QuarantineClassV1 :=
  if digest_is_zero profile_digest || digest_is_zero workspace_identity
     || digest_is_zero shape_key || digest_is_zero request_key
  then Err MalformedLookupIdentity
  else Ok (mkQuarantineClass profile_digest workspace_identity shape_key request_key).

Definition QuarantineClassV1_canonical_bytes (self : QuarantineClassV1) : contract (list Z) :=
  _ ← from_checked_parts (class_profile_digest self) (class_workspace_identity self)
        (class_shape_key self) (class_request_key self);
  let object := ObjectBuilder_new TYPE_QUARANTINE_CLASS in
  object ← id_ObjectBuilder_utf8 object 1 QUARANTINE_CLASS_V1_SCHEMA;
  object ← id_ObjectBuilder_bytes object 2 (class_profile_digest self);
  object ← id_ObjectBuilder_bytes object 3 (class_workspace_identity self);
  object ← id_ObjectBuilder_bytes object 4 (class_shape_key self);
  object ← id_ObjectBuilder_bytes object 5 (class_request_key self);
  ObjectBuilder_finish_top object.

Definition QuarantineClassV1_from_canonical_bytes (bytes : list Z) :
    contract QuarantineClassV1 :=
  object ← id_RawObject_parse_top bytes;
  _ ← RawObject_expect object TYPE_QUARANTINE_CLASS
        [(1, Utf8); (2, Bytes); (3, Bytes); (4, Bytes); (5, Bytes)];
  p1 ← RawObject_payload object 1; _ ← expect_utf8 p1 QUARANTINE_CLASS_V1_SCHEMA;
  p2 ← RawObject_payload object 2; profile_digest ← exact 32 p2;
  p3 ← RawObject_payload object 3; workspace_identity ← exact 32 p3;
  p4 ← RawObject_payload object 4; shape_key ← exact 32 p4;
  p5 ← RawObject_payload object 5; request_key ← exact 32 p5;
  value ← from_checked_parts profile_digest workspace_identity shape_key request_key;
  encoded ← QuarantineClassV1_canonical_bytes value;
  _ ← require_exact_reencoding bytes encoded;
  Ok value.

(** ** Effect shapes *)

Module StreamStates.
Inductive StreamStateClassV1 := Complete | Exceeded | Incomplete (reason : ExecuteOnlyCode).
End StreamStates.
Abbreviation StreamStateClassV1 := StreamStates.StreamStateClassV1.

Module WaitClasses.
Inductive WaitClassV1 := Success | Exited (code : Z) | Signaled (signal : Z) (core_dumped : bool).
End WaitClasses.
Abbreviation WaitClassV1 := WaitClasses.WaitClassV1.

Record ObservationLayoutV1 := mkObservationLayout {
  observation_layout_sequence : Z;
  observation_layout_logical_task_id : Z;
  observation_layout_kind : ObservationKindV2;
  observation_layout_subject : list Z;
}.

Record AmbientLayoutV1 := mkAmbientLayout {
  ambient_layout_sequence : Z;
  ambient_layout_logical_task_id : Z;
  ambient_layout_kind : AmbientKindV2;
}.

Record OrderedEffectLayoutV1 := mkEffectLayout {
  effect_layout_sequence : Z;
  effect_layout_logical_task_id : Z;
  effect_layout_kind : EffectKindV2;
  effect_layout_subject : list Z;
}.

Record EffectShapeV1 := mkEffectShape {
  effect_shape_profile_digest : list Z;
  effect_shape_observations : list ObservationLayoutV1;
  effect_shape_ambient_events : list AmbientLayoutV1;
  effect_shape_ordered_effects : list OrderedEffectLayoutV1;
  effect_shape_stdout : StreamStateClassV1;
  effect_shape_stderr : StreamStateClassV1;
  effect_shape_wait : WaitClassV1;
  effect_shape_final_workspace_changed : bool;
}.

(** One pass of [all]: the events in order, the set of sequences shared by the
    three passes. An event is its sequence, its task and whether its subject is
    valid; the pass returns the set and stops at the first refusal. *)
Fixpoint layouts_valid (sequences : list Z) (events : list union_event) : bool * list Z :=
  match events with
  | [] => (true, sequences)
  | (sequence, task, subject_valid) :: events =>
    if negb (sequence =? 0) && negb (task =? 0) && subject_valid
    then if contains sequence sequences then (false, sequences)
         else layouts_valid (sequence :: sequences) events
    else (false, sequences)
  end.

Definition observation_layout_event (event : ObservationLayoutV1) : union_event :=
  (observation_layout_sequence event, observation_layout_logical_task_id event,
   valid_sandbox_path_bytes (observation_layout_subject event)).

Definition ambient_layout_event (event : AmbientLayoutV1) : union_event :=
  (ambient_layout_sequence event, ambient_layout_logical_task_id event, true).

Definition effect_layout_event (event : OrderedEffectLayoutV1) : union_event :=
  (effect_layout_sequence event, effect_layout_logical_task_id event,
   valid_sandbox_path_bytes (effect_layout_subject event)).

Definition EffectShapeV1_validate (self : EffectShapeV1) : contract () :=
  let observations := effect_shape_observations self in
  let ambient_events := effect_shape_ambient_events self in
  let ordered_effects := effect_shape_ordered_effects self in
  if digest_is_zero (effect_shape_profile_digest self)
     || (EFFECT_IR_V2_MAX_COLLECTION_ITEMS <? len observations)
     || (EFFECT_IR_V2_MAX_COLLECTION_ITEMS <? len ambient_events)
     || (EFFECT_IR_V2_MAX_COLLECTION_ITEMS <? len ordered_effects)
  then Err MalformedRecord
  else
    let '(observations_valid, sequences) :=
      layouts_valid [] (observation_layout_event <$> observations) in
    let '(ambient_valid, sequences) :=
      layouts_valid sequences (ambient_layout_event <$> ambient_events) in
    let '(effects_valid, sequences) :=
      layouts_valid sequences (effect_layout_event <$> ordered_effects) in
    if negb observations_valid || negb ambient_valid || negb effects_valid
       || negb (strictly_increasing (observation_layout_sequence <$> observations))
       || negb (strictly_increasing (ambient_layout_sequence <$> ambient_events))
       || negb (strictly_increasing (effect_layout_sequence <$> ordered_effects))
    then Err MalformedRecord else Ok ().

Definition stream_state_class (value : StreamCaptureV2) : StreamStateClassV1 :=
  match value with
  | StreamCaptures.Complete _ => StreamStates.Complete
  | StreamCaptures.Exceeded _ => StreamStates.Exceeded
  | StreamCaptures.Incomplete _ reason => StreamStates.Incomplete reason
  end.

Definition wait_class (value : Z) : contract WaitClassV1 :=
  termination ← ok_or (raw_termination value) MalformedRecord;
  match termination with
  | Exited code => if code =? 0 then Ok WaitClasses.Success else Ok (WaitClasses.Exited code)
  | Signaled signal core_dumped => Ok (WaitClasses.Signaled signal core_dumped)
  end.

Definition encode_observation_layout (value : ObservationLayoutV1) : contract (list Z) :=
  let object := ObjectBuilder_new TYPE_OBSERVATION_LAYOUT in
  object ← id_ObjectBuilder_u64 object 1 (observation_layout_sequence value);
  object ← id_ObjectBuilder_u32 object 2 (observation_layout_logical_task_id value);
  object ← id_ObjectBuilder_enumeration object 3
             (ObservationKinds.ObservationKindV2_as_u16 (observation_layout_kind value)) [];
  object ← id_ObjectBuilder_bytes object 4 (observation_layout_subject value);
  ObjectBuilder_finish_nested object.

Definition encode_ambient_layout (value : AmbientLayoutV1) : contract (list Z) :=
  let object := ObjectBuilder_new TYPE_AMBIENT_LAYOUT in
  object ← id_ObjectBuilder_u64 object 1 (ambient_layout_sequence value);
  object ← id_ObjectBuilder_u32 object 2 (ambient_layout_logical_task_id value);
  object ← id_ObjectBuilder_enumeration object 3
             (AmbientKinds.AmbientKindV2_as_u16 (ambient_layout_kind value)) [];
  ObjectBuilder_finish_nested object.

Definition encode_ordered_effect_layout (value : OrderedEffectLayoutV1) : contract (list Z) :=
  let object := ObjectBuilder_new TYPE_ORDERED_EFFECT_LAYOUT in
  object ← id_ObjectBuilder_u64 object 1 (effect_layout_sequence value);
  object ← id_ObjectBuilder_u32 object 2 (effect_layout_logical_task_id value);
  object ← id_ObjectBuilder_enumeration object 3
             (EffectKinds.EffectKindV2_as_u16 (effect_layout_kind value)) [];
  object ← id_ObjectBuilder_bytes object 4 (effect_layout_subject value);
  ObjectBuilder_finish_nested object.

Definition encode_stream_state (object : ObjectBuilder) (tag : Z) (value : StreamStateClassV1) :
    contract ObjectBuilder :=
  match value with
  | StreamStates.Complete => id_ObjectBuilder_enumeration object tag 1 []
  | StreamStates.Exceeded => id_ObjectBuilder_enumeration object tag 2 []
  | StreamStates.Incomplete reason =>
    id_ObjectBuilder_enumeration object tag 3
      [enum_field 1 U16 (be_bytes 2 (ExecuteOnlyCodes.ExecuteOnlyCode_as_u16 reason))]
  end.

Definition encode_wait_class (object : ObjectBuilder) (tag : Z) (value : WaitClassV1) :
    contract ObjectBuilder :=
  match value with
  | WaitClasses.Success => id_ObjectBuilder_enumeration object tag 1 []
  | WaitClasses.Exited code => id_ObjectBuilder_enumeration object tag 2 [enum_field 1 U8 [code]]
  | WaitClasses.Signaled signal core_dumped =>
    id_ObjectBuilder_enumeration object tag 3
      [enum_field 1 U8 [signal]; enum_field 2 Bool [Z.b2z core_dumped]]
  end.

Definition encode_effect_shape (value : EffectShapeV1) (top : bool) : contract (list Z) :=
  let object := ObjectBuilder_new TYPE_EFFECT_SHAPE in
  object ← id_ObjectBuilder_utf8 object 1 EFFECT_SHAPE_V1_SCHEMA;
  object ← id_ObjectBuilder_bytes object 2 (effect_shape_profile_digest value);
  observations ← try_map encode_observation_layout (effect_shape_observations value);
  object ← id_ObjectBuilder_list object 3 observations;
  ambient_events ← try_map encode_ambient_layout (effect_shape_ambient_events value);
  object ← id_ObjectBuilder_list object 4 ambient_events;
  ordered_effects ← try_map encode_ordered_effect_layout (effect_shape_ordered_effects value);
  object ← id_ObjectBuilder_list object 5 ordered_effects;
  object ← encode_stream_state object 6 (effect_shape_stdout value);
  object ← encode_stream_state object 7 (effect_shape_stderr value);
  object ← encode_wait_class object 8 (effect_shape_wait value);
  object ← id_ObjectBuilder_boolean object 9 (effect_shape_final_workspace_changed value);
  if top then ObjectBuilder_finish_top object else ObjectBuilder_finish_nested object.

Definition id_decode_observation_kind (value : Z) : contract ObservationKindV2 :=
  match value with
  | 1 => Ok ObservationKinds.File
  | 2 => Ok ObservationKinds.Directory
  | 3 => Ok ObservationKinds.AbsentPath
  | 4 => Ok ObservationKinds.Symlink
  | 5 => Ok ObservationKinds.Executable
  | 6 => Ok ObservationKinds.Mapping
  | 7 => Ok ObservationKinds.Metadata
  | _ => Err CanonicalDecoding
  end.

Definition id_decode_ambient_kind (value : Z) : contract AmbientKindV2 :=
  match value with
  | 1 => Ok AmbientKinds.LogicalTime
  | 2 => Ok AmbientKinds.LogicalRandom
  | 3 => Ok AmbientKinds.LogicalPid
  | 4 => Ok AmbientKinds.Sleep
  | 5 => Ok AmbientKinds.Signal
  | _ => Err CanonicalDecoding
  end.

Definition id_decode_effect_kind (value : Z) : contract EffectKindV2 :=
  match value with
  | 1 => Ok EffectKinds.Write
  | 2 => Ok EffectKinds.Truncate
  | 3 => Ok EffectKinds.Metadata
  | 4 => Ok EffectKinds.Link
  | 5 => Ok EffectKinds.Rename
  | 6 => Ok EffectKinds.Unlink
  | 7 => Ok EffectKinds.Mkdir
  | 8 => Ok EffectKinds.Rmdir
  | 9 => Ok EffectKinds.WritableMapping
  | _ => Err CanonicalDecoding
  end.

Definition decode_observation_layout (bytes : list Z) : contract ObservationLayoutV1 :=
  object ← id_RawObject_parse_nested bytes;
  _ ← RawObject_expect object TYPE_OBSERVATION_LAYOUT [(1, U64); (2, U32); (3, Enum); (4, Bytes)];
  p3 ← RawObject_payload object 3; variant ← id_decode_simple_enum p3;
  p1 ← RawObject_payload object 1; sequence ← decode_u64 p1;
  p2 ← RawObject_payload object 2; logical_task_id ← decode_u32 p2;
  kind ← id_decode_observation_kind variant;
  p4 ← RawObject_payload object 4; subject ← SandboxPath_new p4;
  let value := mkObservationLayout sequence logical_task_id kind subject in
  encoded ← encode_observation_layout value;
  if negb (bytes_eqb encoded bytes) then Err CanonicalDecoding else Ok value.

Definition decode_ambient_layout (bytes : list Z) : contract AmbientLayoutV1 :=
  object ← id_RawObject_parse_nested bytes;
  _ ← RawObject_expect object TYPE_AMBIENT_LAYOUT [(1, U64); (2, U32); (3, Enum)];
  p3 ← RawObject_payload object 3; variant ← id_decode_simple_enum p3;
  p1 ← RawObject_payload object 1; sequence ← decode_u64 p1;
  p2 ← RawObject_payload object 2; logical_task_id ← decode_u32 p2;
  kind ← id_decode_ambient_kind variant;
  let value := mkAmbientLayout sequence logical_task_id kind in
  encoded ← encode_ambient_layout value;
  if negb (bytes_eqb encoded bytes) then Err CanonicalDecoding else Ok value.

Definition decode_ordered_effect_layout (bytes : list Z) : contract OrderedEffectLayoutV1 :=
  object ← id_RawObject_parse_nested bytes;
  _ ← RawObject_expect object TYPE_ORDERED_EFFECT_LAYOUT
        [(1, U64); (2, U32); (3, Enum); (4, Bytes)];
  p3 ← RawObject_payload object 3; variant ← id_decode_simple_enum p3;
  p1 ← RawObject_payload object 1; sequence ← decode_u64 p1;
  p2 ← RawObject_payload object 2; logical_task_id ← decode_u32 p2;
  kind ← id_decode_effect_kind variant;
  p4 ← RawObject_payload object 4; subject ← SandboxPath_new p4;
  let value := mkEffectLayout sequence logical_task_id kind subject in
  encoded ← encode_ordered_effect_layout value;
  if negb (bytes_eqb encoded bytes) then Err CanonicalDecoding else Ok value.

Definition decode_stream_state (bytes : list Z) : contract StreamStateClassV1 :=
  value ← id_RawEnum_parse bytes;
  match raw_enum_variant value with
  | 1 => _ ← id_RawEnum_expect_no_fields value; Ok StreamStates.Complete
  | 2 => _ ← id_RawEnum_expect_no_fields value; Ok StreamStates.Exceeded
  | 3 =>
    _ ← id_RawEnum_expect value [(1, U16)];
    p1 ← RawEnum_payload value 1; reason ← decode_execute_only_code p1;
    Ok (StreamStates.Incomplete reason)
  | _ => Err CanonicalDecoding
  end.

Definition decode_wait_class (bytes : list Z) : contract WaitClassV1 :=
  value ← id_RawEnum_parse bytes;
  match raw_enum_variant value with
  | 1 => _ ← id_RawEnum_expect_no_fields value; Ok WaitClasses.Success
  | 2 =>
    _ ← id_RawEnum_expect value [(1, U8)];
    p1 ← RawEnum_payload value 1; code ← decode_u8 p1;
    Ok (WaitClasses.Exited code)
  | 3 =>
    _ ← id_RawEnum_expect value [(1, U8); (2, Bool)];
    p1 ← RawEnum_payload value 1; signal ← decode_u8 p1;
    if negb ((1 <=? signal) && (signal <=? 64)) then Err CanonicalDecoding
    else
      p2 ← RawEnum_payload value 2; core_dumped ← decode_bool p2;
      Ok (WaitClasses.Signaled signal core_dumped)
  | _ => Err CanonicalDecoding
  end.

Definition EffectShapeV1_canonical_bytes (self : EffectShapeV1) : contract (list Z) :=
  _ ← EffectShapeV1_validate self;
  encode_effect_shape self true.

Definition EffectShapeV1_from_canonical_bytes (bytes : list Z) : contract EffectShapeV1 :=
  object ← id_RawObject_parse_top bytes;
  _ ← RawObject_expect object TYPE_EFFECT_SHAPE
        [(1, Utf8); (2, Bytes); (3, List); (4, List); (5, List); (6, Enum); (7, Enum);
         (8, Enum); (9, Bool)];
  p1 ← RawObject_payload object 1; _ ← expect_utf8 p1 EFFECT_SHAPE_V1_SCHEMA;
  p2 ← RawObject_payload object 2; profile_digest ← exact 32 p2;
  p3 ← RawObject_payload object 3; raw_observations ← decode_list p3;
  observations ← try_map decode_observation_layout raw_observations;
  p4 ← RawObject_payload object 4; raw_ambient ← decode_list p4;
  ambient_events ← try_map decode_ambient_layout raw_ambient;
  p5 ← RawObject_payload object 5; raw_effects ← decode_list p5;
  ordered_effects ← try_map decode_ordered_effect_layout raw_effects;
  p6 ← RawObject_payload object 6; stdout ← decode_stream_state p6;
  p7 ← RawObject_payload object 7; stderr ← decode_stream_state p7;
  p8 ← RawObject_payload object 8; wait ← decode_wait_class p8;
  p9 ← RawObject_payload object 9; final_workspace_changed ← decode_bool p9;
  let value := mkEffectShape profile_digest observations ambient_events ordered_effects
                 stdout stderr wait final_workspace_changed in
  _ ← EffectShapeV1_validate value;
  encoded ← EffectShapeV1_canonical_bytes value;
  _ ← require_exact_reencoding bytes encoded;
  Ok value.

(** ** Digests *)

Section digests.
Context `{Blake3}.

Definition ProfileCommitmentV1_digest (self : ProfileCommitmentV1) : contract (list Z) :=
  canonical ← ProfileCommitmentV1_canonical_bytes self;
  Ok (Blake3Digest_derive_tagged PROFILE_DOMAIN [(1, canonical)]).

Definition WorkspaceIdentityCommitmentV1_identity (self : WorkspaceIdentityCommitmentV1) :
    contract (list Z) :=
  canonical ← WorkspaceIdentityCommitmentV1_canonical_bytes self;
  Ok (Blake3Digest_derive_tagged WORKSPACE_IDENTITY_DOMAIN [(1, canonical)]).

Definition ExecutableChainV1_digest (self : ExecutableChainV1) : contract (list Z) :=
  canonical ← ExecutableChainV1_canonical_bytes self;
  Ok (Blake3Digest_derive_tagged EXECUTABLE_CHAIN_DOMAIN [(1, canonical)]).

Definition LexicalShapeV1_key (self : LexicalShapeV1) : contract (list Z) :=
  canonical ← LexicalShapeV1_canonical_bytes self;
  Ok (Blake3Digest_derive_tagged LEXICAL_SHAPE_DOMAIN [(1, canonical)]).

Definition EffectShapeV1_digest (self : EffectShapeV1) : contract (list Z) :=
  canonical ← EffectShapeV1_canonical_bytes self;
  Ok (Blake3Digest_derive_tagged EFFECT_SHAPE_DOMAIN [(1, canonical)]).

Definition QuarantineClassV1_key (self : QuarantineClassV1) : contract (list Z) :=
  canonical ← QuarantineClassV1_canonical_bytes self;
  Ok (Blake3Digest_derive_tagged QUARANTINE_CLASS_DOMAIN [(1, canonical)]).

Definition LexicalShapeV1_new (profile : ProfileCommitmentV1)
    (workspace : WorkspaceIdentityCommitmentV1) (invocation : PytestInvocationIdentityV1)
    (environment : EnvironmentBindingV1) : contract LexicalShapeV1 :=
  profile_digest ← ProfileCommitmentV1_digest profile;
  workspace_identity ← WorkspaceIdentityCommitmentV1_identity workspace;
  let value := mkLexicalShape profile_digest workspace_identity invocation environment in
  _ ← LexicalShapeV1_validate value;
  if negb (bytes_eqb (environment_policy_digest (lexical_environment value))
             (policy_environment (profile_policy_digests profile)))
  then Err MalformedLookupIdentity else Ok value.

(** The digests are computed left to right and only as far as the disjunction
    needs them. *)
Definition LexicalShapeV1_validate_against (self : LexicalShapeV1)
    (profile : ProfileCommitmentV1) (workspace : WorkspaceIdentityCommitmentV1)
    (current_environment_key : list Z) : contract () :=
  _ ← LexicalShapeV1_validate self;
  profile_digest ← ProfileCommitmentV1_digest profile;
  if negb (bytes_eqb (lexical_profile_digest self) profile_digest)
  then Err MalformedLookupIdentity
  else
    workspace_identity ← WorkspaceIdentityCommitmentV1_identity workspace;
    if negb (bytes_eqb (lexical_workspace_identity self) workspace_identity)
       || negb (bytes_eqb (environment_policy_digest (lexical_environment self))
                  (policy_environment (profile_policy_digests profile)))
       || negb (bytes_eqb (environment_key_id (lexical_environment self))
                  current_environment_key)
    then Err MalformedLookupIdentity else Ok ().
End digests.

(** Proofs unfold these by name. *)
#[global] Arguments bstr : simpl never.
#[global] Arguments ProfileCommitmentV1_validate : simpl never.
#[global] Arguments id_encode_policy_digests : simpl never.
#[global] Arguments id_decode_policy_digests : simpl never.
#[global] Arguments encode_profile_commitment : simpl never.
#[global] Arguments ProfileCommitmentV1_canonical_bytes : simpl never.
#[global] Arguments ProfileCommitmentV1_from_canonical_bytes : simpl never.
#[global] Arguments WorkspaceIdentityCommitmentV1_enroll : simpl never.
#[global] Arguments WorkspaceIdentityCommitmentV1_canonical_bytes : simpl never.
#[global] Arguments WorkspaceIdentityCommitmentV1_from_canonical_bytes : simpl never.
#[global] Arguments id_encode_selector : simpl never.
#[global] Arguments id_decode_selector : simpl never.
#[global] Arguments id_encode_invocation : simpl never.
#[global] Arguments id_decode_simple_enum : simpl never.
#[global] Arguments id_decode_invocation : simpl never.
#[global] Arguments id_encode_environment : simpl never.
#[global] Arguments id_decode_environment : simpl never.
#[global] Arguments ExecutableHopV1_validate : simpl never.
#[global] Arguments ExecutableHopV1_symlink : simpl never.
#[global] Arguments ExecutableHopV1_terminal_regular : simpl never.
#[global] Arguments ExecutableChainV1_validate : simpl never.
#[global] Arguments ExecutableChainV1_new : simpl never.
#[global] Arguments encode_executable_hop : simpl never.
#[global] Arguments decode_executable_hop : simpl never.
#[global] Arguments ExecutableChainV1_canonical_bytes : simpl never.
#[global] Arguments ExecutableChainV1_from_canonical_bytes : simpl never.
#[global] Arguments LexicalShapeV1_validate : simpl never.
#[global] Arguments LexicalShapeV1_canonical_bytes : simpl never.
#[global] Arguments LexicalShapeV1_from_canonical_bytes : simpl never.
#[global] Arguments from_checked_parts : simpl never.
#[global] Arguments QuarantineClassV1_canonical_bytes : simpl never.
#[global] Arguments QuarantineClassV1_from_canonical_bytes : simpl never.
#[global] Arguments EffectShapeV1_validate : simpl never.
#[global] Arguments wait_class : simpl never.
#[global] Arguments encode_observation_layout : simpl never.
#[global] Arguments encode_ambient_layout : simpl never.
#[global] Arguments encode_ordered_effect_layout : simpl never.
#[global] Arguments encode_stream_state : simpl never.
#[global] Arguments encode_wait_class : simpl never.
#[global] Arguments encode_effect_shape : simpl never.
#[global] Arguments id_decode_observation_kind : simpl never.
#[global] Arguments id_decode_ambient_kind : simpl never.
#[global] Arguments id_decode_effect_kind : simpl never.
#[global] Arguments decode_observation_layout : simpl never.
#[global] Arguments decode_ambient_layout : simpl never.
#[global] Arguments decode_ordered_effect_layout : simpl never.
#[global] Arguments decode_stream_state : simpl never.
#[global] Arguments decode_wait_class : simpl never.
#[global] Arguments EffectShapeV1_canonical_bytes : simpl never.
#[global] Arguments EffectShapeV1_from_canonical_bytes : simpl never.
#[global] Arguments ProfileCommitmentV1_digest : simpl never.
#[global] Arguments WorkspaceIdentityCommitmentV1_identity : simpl never.
#[global] Arguments ExecutableChainV1_digest : simpl never.
#[global] Arguments LexicalShapeV1_key : simpl never.
#[global] Arguments EffectShapeV1_digest : simpl never.
#[global] Arguments QuarantineClassV1_key : simpl never.
#[global] Arguments LexicalShapeV1_new : simpl never.
