(* ===== verification/IdentityRoundTrip.v ===== *)
(** * Identities round trip

    Every identity of [Identity] and every structure nested in one is a
    [NestedCodec]: a valid value has one byte string, and the decoder accepts
    exactly the byte strings of valid values. *)

From S2P Require Import Prelude Monad Bytes WaitStatus ContractTypes Canonical CanonicalSpec.
From S2P Require Import CanonicalParse CanonicalCodec RecordTypes Paths RecordValidation.
From S2P Require Import RecordCodec RecordRoundTrip Digest IdentityWire Identity.
Import Wire.

Lemma bytes_eqb_refl b : bytes_eqb b b = true.
Proof. unfold bytes_eqb. by rewrite bool_decide_true. Qed.

Lemma bytes_eqb_eq a b : bytes_eqb a b = true ↔ a = b.
Proof. apply bool_decide_eq_true. Qed.

Lemma expect_utf8_same s : valid_utf8 s = true → expect_utf8 s s = Ok ().
Proof. intros. by apply expect_utf8_Ok. Qed.

Lemma expect_u64_same n : is_u64 n → expect_u64 (be_bytes 8 n) n = Ok ().
Proof. intros. apply expect_u64_Ok; [apply is_bytes_be_bytes|done..]. Qed.

Lemma expect_u16_same n : is_u16 n → expect_u16 (be_bytes 2 n) n = Ok ().
Proof. intros. apply expect_u16_Ok; [apply is_bytes_be_bytes|done..]. Qed.

Lemma require_exact_same b : require_exact_reencoding b b = Ok ().
Proof. by apply require_exact_Ok. Qed.

Lemma decode_u8_ok z : decode_u8 [z] = Ok z.
Proof. done. Qed.

Lemma decode_u8_inv b z : is_sized b → decode_u8 b = Ok z → is_u8 z ∧ b = [z].
Proof.
  intros [Hb _] (l & [-> Hl]%exact_Ok & [= <-])%result_bind_Ok.
  destruct b as [|x [|? ?]]; try done. cbn. by apply Forall_cons_1 in Hb as [? _].
Qed.

Lemma is_bytes_check l : forallb (λ b, (0 <=? b) && (b <? 256)) l = true → is_bytes l.
Proof.
  induction l as [|b l IH]; [constructor|]. cbn. rewrite !andb_true_iff. intros [[? ?] ?].
  constructor; [unfold is_u8; lia|by apply IH].
Qed.

(** The literal bytes of a constant field. *)
Ltac literal_bytes := apply is_bytes_check; vm_compute; reflexivity.

Ltac bytes_extra ::= first [apply dimension_bytes | literal_bytes].

Ltac dec_extra ::=
  first [ rewrite decode_code_be | rewrite decode_dimension_as
        | rewrite SandboxPath_new_ok by assumption
        | rewrite decode_sandbox_path_ok by assumption
        | rewrite from_utf8_ok by assumption
        | rewrite expect_utf8_same by reflexivity
        | rewrite expect_u64_same by (vm_compute; split; congruence)
        | rewrite expect_u16_same by (vm_compute; split; congruence)
        | rewrite decode_u8_ok
        | rewrite bytes_eqb_refl; cbn [negb ensure]
        | rewrite require_exact_same ].

Ltac sound_extra E ::=
  first [ apply decode_code_inv in E as ->; [|assumption]
        | apply decode_dimension_inv in E as ->; [|assumption]
        | apply SandboxPath_new_inv in E as [-> ?]; [|assumption]
        | apply decode_sandbox_path_inv in E as [-> ?]; [|assumption]
        | apply from_utf8_inv in E as [-> ?]; [|assumption]
        | apply decode_u8_inv in E as [? ->]; [|assumption] ].

(** The builder of an identity has run; its object decodes. *)
Ltac id_complete_with open_wf open_enc dec :=
  let a := fresh "a" in let b := fresh "b" in let Hwf := fresh "Hwf" in let H := fresh "H" in
  let Henc := fresh "Henc" in let Hfin := fresh "Hfin" in
  intros a b Hwf H; pose proof H as Henc; destruct a; open_wf Hwf; cbn in Hwf; destruct_and? Hwf;
  open_enc H; unfold_builder; cbn in H; enc_inv H; pose_complete;
  pose proof H as Hfin;
  first
    [ apply parse_built in H as (? & H & _); [|by vm_compute|solve_fields];
      split; [by eapply finish_nested_sized|]; unfold dec;
      rewrite id_parse_nested_expect by done
    | clear Hfin; apply parse_top_built in H as (Hfin & H); [|by vm_compute|solve_fields];
      split; [exact Hfin|]; unfold dec;
      rewrite id_parse_top_expect by first [exact (proj2 Hfin) | done] ];
  rewrite H, bind_Ok; rewrite expect_shape by done; rewrite ?bind_Ok; dec_run; done.

(** What a decoder with a re-encoding check returned. *)
Ltac reencoded H :=
  try match type of H with
  | (if negb (bytes_eqb ?e ?b) then _ else _) = _ =>
      let E := fresh "E" in
      destruct (bytes_eqb e b) eqn:E; [apply bytes_eqb_eq in E as ->|discriminate H]; cbn in H
  end;
  try match goal with
  | E : require_exact_reencoding _ _ = Ok _ |- _ => apply require_exact_Ok in E as <-
  end;
  injection H as <-.

Ltac id_sound_with open_goal dec :=
  let a := fresh "a" in let b := fresh "b" in let Hb := fresh "Hb" in let H := fresh "H" in
  intros b a Hb H; unfold dec in H;
  first
    [ rewrite id_parse_nested_expect in H by done; open_object H Hb
    | rewrite id_parse_top_expect in H by first [exact (proj2 Hb) | done]; open_top H Hb ];
  dec_inv H; reencoded H; split; [open_goal (); cbn; solve_wf|assumption].

(** ** Nested structures *)

#[global] Instance id_environment_codec :
  NestedCodec EnvironmentBindingV1_wf id_encode_environment id_decode_environment.
Proof.
  split.
  - id_complete_with ltac:(fun H => unfold EnvironmentBindingV1_wf in H)
      ltac:(fun H => unfold id_encode_environment in H) id_decode_environment.
  - id_sound_with ltac:(fun _ => unfold EnvironmentBindingV1_wf) id_decode_environment.
Qed.

Definition valid_workspace_commitment (w : WorkspaceIdentityCommitmentV1) : Prop :=
  is_digest (workspace_stable_id w) ∧ digest_is_zero (workspace_stable_id w) = false.

#[global] Instance workspace_commitment_codec :
  NestedCodec valid_workspace_commitment WorkspaceIdentityCommitmentV1_canonical_bytes
    WorkspaceIdentityCommitmentV1_from_canonical_bytes.
Proof.
  split.
  - intros [id] b [Hid Hz] H. pose proof H as Henc.
    unfold WorkspaceIdentityCommitmentV1_canonical_bytes in H. cbn [workspace_stable_id] in Hid, Hz, H.
    unfold digest_is_zero in Hz. rewrite Hz in H. unfold_builder. cbn in H. enc_inv H.
    apply parse_top_built in H as (Hs & H); [|by vm_compute|solve_fields].
    split; [done|]. unfold WorkspaceIdentityCommitmentV1_from_canonical_bytes.
    rewrite id_parse_top_expect by first [exact (proj2 Hs)|done].
    rewrite H, bind_Ok, expect_shape by done. rewrite bind_Ok. dec_run.
    unfold WorkspaceIdentityCommitmentV1_enroll. rewrite Hz, bind_Ok. dec_run. done.
  - intros b a Hb H. unfold WorkspaceIdentityCommitmentV1_from_canonical_bytes in H.
    rewrite id_parse_top_expect in H by first [exact (proj2 Hb) | done]. open_top H Hb.
    dec_inv H. reencoded H.
    match goal with E : WorkspaceIdentityCommitmentV1_enroll _ = Ok _ |- _ =>
      unfold WorkspaceIdentityCommitmentV1_enroll in E; case_match; [done|];
      injection E as <- end.
    done.
Qed.

(** The loop over the digests adds one field per digest. *)
Lemma put_policy_digests_Ok ty fs tag ds o :
  put_policy_digests (mkBuilder ty fs) tag ds = Ok o →
  o = mkBuilder ty (fs ++ imap (λ i d, mkField (tag + 1 + Z.of_nat i) Bytes d) ds).
Proof.
  revert fs tag; induction ds as [|d ds IH]; intros fs tag; cbn [put_policy_digests imap].
  { intros [= <-]. by rewrite app_nil_r. }
  intros (n & [-> _]%try_width_Ok & (o' & ->%id_field_inv & ->%IH)%result_bind_Ok)%result_bind_Ok.
  rewrite <- app_assoc. do 2 f_equal. cbn. f_equal; [f_equal; lia|].
  apply imap_ext. intros i x _. cbn. f_equal. lia.
Qed.

Lemma put_policy_digests_put ty fs tag ds :
  0 <= tag → tag + len ds <= U16_MAX → Forall (λ f, field_tag f <= tag) fs →
  put_policy_digests (mkBuilder ty fs) tag ds =
    Ok (mkBuilder ty (fs ++ imap (λ i d, mkField (tag + 1 + Z.of_nat i) Bytes d) ds)).
Proof.
  revert fs tag; induction ds as [|d ds IH]; intros fs tag Ht Hl Hfs; cbn [put_policy_digests imap].
  { by rewrite app_nil_r. }
  rewrite len_cons in Hl. pose proof (len_nonneg ds). rewrite (proj2 (try_width_Ok _ _ _ (tag + 1))) by lia.
  rewrite bind_Ok. unfold id_ObjectBuilder_bytes. rewrite id_field_ok.
  2: { rewrite (proj2 (Z.eqb_neq _ _)) by lia. unfold last_tag_at_least.
    destruct (list.last fs) as [f|] eqn:E; [|done]. apply last_Some_elem_of in E.
    rewrite list.Forall_forall in Hfs. apply Hfs in E. cbn. lia. }
  rewrite bind_Ok, IH; [|lia..|].
  - rewrite <- app_assoc. do 3 f_equal. cbn. f_equal; [f_equal; lia|].
    apply imap_ext. intros i x _. cbn. f_equal. lia.
  - apply Forall_app. split; [|constructor; [cbn; lia|constructor]].
    eapply list.Forall_impl; [done|]. cbn. lia.
Qed.

#[global] Instance id_policy_digests_codec :
  NestedCodec PolicyDigestsV1_wf id_encode_policy_digests id_decode_policy_digests.
Proof.
  split.
  - intros a b Hwf H. destruct a. unfold PolicyDigestsV1_wf in Hwf. cbn in Hwf. destruct_and? Hwf.
    unfold id_encode_policy_digests, ObjectBuilder_new in H.
    apply result_bind_Ok in H as (o & ->%put_policy_digests_Ok & H). cbn in H.
    repeat match type of H with context [0 + 1 + Z.of_nat ?n] =>
      let v := eval vm_compute in (0 + 1 + Z.of_nat n) in
      change (0 + 1 + Z.of_nat n) with v in H end.
    pose proof H as Hfin. apply parse_built in H as (? & H & _); [|by vm_compute|solve_fields].
    split; [by eapply finish_nested_sized|]. unfold id_decode_policy_digests.
    rewrite id_parse_nested_expect, H, bind_Ok by done. rewrite expect_shape by done.
    rewrite ?bind_Ok. dec_run. done.
  - intros b a Hb H. unfold id_decode_policy_digests in H.
    rewrite id_parse_nested_expect in H by done. open_object H Hb. dec_inv H. injection H as <-.
    split; [unfold PolicyDigestsV1_wf; cbn; solve_wf|]. unfold id_encode_policy_digests, ObjectBuilder_new.
    rewrite put_policy_digests_put; [|done..|constructor]. done.
Qed.

Definition valid_profile (p : ProfileCommitmentV1) : Prop :=
  PolicyDigestsV1_wf (profile_policy_digests p) ∧ ProfileCommitmentV1_validate p = Ok ().

#[global] Instance profile_codec :
  NestedCodec valid_profile ProfileCommitmentV1_canonical_bytes
    ProfileCommitmentV1_from_canonical_bytes.
Proof.
  split.
  - id_complete_with
      ltac:(fun H => unfold valid_profile in H)
      ltac:(fun H => unfold ProfileCommitmentV1_canonical_bytes, encode_profile_commitment in H)
      ProfileCommitmentV1_from_canonical_bytes.
  - id_sound_with ltac:(fun _ => unfold valid_profile)
      ProfileCommitmentV1_from_canonical_bytes.
Qed.

Definition valid_quarantine_class (q : QuarantineClassV1) : Prop :=
  is_digest (class_profile_digest q) ∧ is_digest (class_workspace_identity q) ∧
  is_digest (class_shape_key q) ∧ is_digest (class_request_key q) ∧
  from_checked_parts (class_profile_digest q) (class_workspace_identity q)
    (class_shape_key q) (class_request_key q) = Ok q.

Lemma from_checked_parts_Ok a b c d q :
  from_checked_parts a b c d = Ok q → q = mkQuarantineClass a b c d.
Proof. unfold from_checked_parts. case_match; congruence. Qed.

Ltac pose_extra ::=
  match goal with E : from_checked_parts _ _ _ _ = Ok ?q |- _ =>
    is_var q; pose proof (from_checked_parts_Ok _ _ _ _ _ E); subst q; clear E end.

#[global] Instance quarantine_class_codec :
  NestedCodec valid_quarantine_class QuarantineClassV1_canonical_bytes
    QuarantineClassV1_from_canonical_bytes.
Proof.
  split.
  - id_complete_with ltac:(fun H => unfold valid_quarantine_class in H)
      ltac:(fun H => unfold QuarantineClassV1_canonical_bytes in H)
      QuarantineClassV1_from_canonical_bytes.
  - intros b a Hb H. unfold QuarantineClassV1_from_canonical_bytes in H.
    rewrite id_parse_top_expect in H by first [exact (proj2 Hb) | done]. open_top H Hb.
    dec_inv H. reencoded H.
    match goal with E : from_checked_parts _ _ _ _ = Ok _ |- _ =>
      pose proof (from_checked_parts_Ok _ _ _ _ _ E); subst end.
    split; [unfold valid_quarantine_class; cbn; solve_wf|assumption].
Qed.

(** ** Enumerations *)

Lemma id_simple_enum_eq b : id_decode_simple_enum b = decode_simple_enum b.
Proof.
  unfold id_decode_simple_enum, decode_simple_enum. rewrite id_RawEnum_parse_eq, result_bind_assoc.
  destruct (RawEnum_parse b) as [[v fs]|]; [|done]. rewrite !bind_Ok.
  unfold id_enum, id_RawEnum_expect_no_fields, id_RawEnum_expect. cbn [raw_enum_fields].
  destruct fs as [|f fs]; [done|]. by destruct (id_fields (f :: fs)).
Qed.

Lemma id_kind_complete {K} (as_u16 : K → Z) (of_u16 : Z → contract K)
    `{!KindCodec as_u16 (λ b, variant ← decode_simple_enum b; of_u16 variant)} k p :
  encode_enum (as_u16 k) [] = Ok p →
  is_sized p ∧ ∃ v, id_decode_simple_enum p = Ok v ∧ of_u16 v = Ok k.
Proof.
  intros [Hp H]%kind_complete. split; [done|]. apply result_bind_Ok in H as (v & Hv & ?).
  exists v. by rewrite id_simple_enum_eq.
Qed.

Ltac id_kind as_u16 of_u16 :=
  match goal with E : encode_enum (as_u16 ?k) [] = Ok ?p |- _ =>
    let v := fresh "v" in let Hv := fresh "Hv" in let Hk := fresh "Hk" in
    destruct (id_kind_complete as_u16 of_u16 k p E) as (? & v & Hv & Hk); clear E end.

#[global] Instance id_observation_kind_kind :
  KindCodec ObservationKinds.ObservationKindV2_as_u16
    (λ b, variant ← decode_simple_enum b; id_decode_observation_kind variant).
Proof. apply observation_kind_kind. Qed.
#[global] Instance id_ambient_kind_kind :
  KindCodec AmbientKinds.AmbientKindV2_as_u16
    (λ b, variant ← decode_simple_enum b; id_decode_ambient_kind variant).
Proof. apply ambient_kind_kind. Qed.
#[global] Instance id_effect_kind_kind :
  KindCodec EffectKinds.EffectKindV2_as_u16
    (λ b, variant ← decode_simple_enum b; id_decode_effect_kind variant).
Proof. apply effect_kind_kind. Qed.

Definition ObservationLayoutV1_wf (v : ObservationLayoutV1) : Prop :=
  is_u64 (observation_layout_sequence v) ∧ is_u32 (observation_layout_logical_task_id v) ∧
  is_sandbox_path (observation_layout_subject v).

Definition AmbientLayoutV1_wf (v : AmbientLayoutV1) : Prop :=
  is_u64 (ambient_layout_sequence v) ∧ is_u32 (ambient_layout_logical_task_id v).

Definition OrderedEffectLayoutV1_wf (v : OrderedEffectLayoutV1) : Prop :=
  is_u64 (effect_layout_sequence v) ∧ is_u32 (effect_layout_logical_task_id v) ∧
  is_sandbox_path (effect_layout_subject v).

Ltac pose_extra ::=
  first
    [ id_kind ObservationKinds.ObservationKindV2_as_u16 id_decode_observation_kind
    | id_kind AmbientKinds.AmbientKindV2_as_u16 id_decode_ambient_kind
    | id_kind EffectKinds.EffectKindV2_as_u16 id_decode_effect_kind ].

#[global] Instance observation_layout_codec :
  NestedCodec ObservationLayoutV1_wf encode_observation_layout decode_observation_layout.
Proof.
  split.
  - id_complete_with ltac:(fun H => unfold ObservationLayoutV1_wf in H)
      ltac:(fun H => unfold encode_observation_layout in H) decode_observation_layout.
  - id_sound_with ltac:(fun _ => unfold ObservationLayoutV1_wf) decode_observation_layout.
Qed.

#[global] Instance ambient_layout_codec :
  NestedCodec AmbientLayoutV1_wf encode_ambient_layout decode_ambient_layout.
Proof.
  split.
  - id_complete_with ltac:(fun H => unfold AmbientLayoutV1_wf in H)
      ltac:(fun H => unfold encode_ambient_layout in H) decode_ambient_layout.
  - id_sound_with ltac:(fun _ => unfold AmbientLayoutV1_wf) decode_ambient_layout.
Qed.

#[global] Instance effect_layout_codec :
  NestedCodec OrderedEffectLayoutV1_wf encode_ordered_effect_layout
    decode_ordered_effect_layout.
Proof.
  split.
  - id_complete_with ltac:(fun H => unfold OrderedEffectLayoutV1_wf in H)
      ltac:(fun H => unfold encode_ordered_effect_layout in H) decode_ordered_effect_layout.
  - id_sound_with ltac:(fun _ => unfold OrderedEffectLayoutV1_wf) decode_ordered_effect_layout.
Qed.

(** ** Selectors and invocations *)

Lemma parses_to_iff argument s :
  parses_to argument s = true ↔ PytestSelectorV1_parse argument = Ok s.
Proof.
  unfold parses_to. destruct (PytestSelectorV1_parse argument) as [v|]; [|done].
  rewrite bool_decide_eq_true. split; [by intros ->|by intros [= <-]].
Qed.

Lemma parse_selector_raw argument s : PytestSelectorV1_parse argument = Ok s → selector_raw s = argument.
Proof.
  unfold PytestSelectorV1_parse. intros H.
  repeat match type of H with
  | (if ?b then _ else _) = _ => destruct b; [discriminate H|]
  | match ?l with [] => _ | _ :: _ => _ end = _ => destruct l; [discriminate H|]
  end.
  apply result_bind_Ok in H as (nodes & _ & H). case_match; [|discriminate H].
  by injection H as <-.
Qed.

Definition valid_selector (s : PytestSelectorV1) : Prop :=
  PytestSelectorV1_wf s ∧ PytestSelectorV1_parse (selector_raw s) = Ok s.

Lemma invocation_selectors_parse inv :
  valid_pytest_invocation inv = true →
  Forall (λ s, PytestSelectorV1_parse (selector_raw s) = Ok s) (invocation_selectors inv).
Proof.
  unfold valid_pytest_invocation. rewrite !andb_true_iff.
  intros [[[[[[[[[[Hlen%Z.eqb_eq _] _] _] _] _] _] _] _] _] Hz].
  assert (length (drop 4 (invocation_argv inv)) = length (invocation_selectors inv)) as Hl.
  { rewrite length_drop. unfold len in Hlen. lia. }
  revert Hl Hz. generalize (drop 4 (invocation_argv inv)) as args. clear.
  induction (invocation_selectors inv) as [|s ss IH]; intros [|a args] Hl Hz; try done.
  cbn in Hz. apply andb_true_iff in Hz as [Ha%parses_to_iff Hz]. constructor.
  - pose proof (parse_selector_raw _ _ Ha) as <-. done.
  - apply (IH args); [|done]. by injection Hl.
Qed.

#[global] Instance id_selector_codec :
  NestedCodec valid_selector id_encode_selector id_decode_selector.
Proof.
  split.
  - intros a b [Hwf Hp] H. pose proof H as Henc. unfold id_encode_selector in H.
    rewrite (proj2 (parses_to_iff _ _) Hp) in H. cbn [negb] in H. destruct a. cbn in Hp.
    unfold PytestSelectorV1_wf in Hwf. cbn in Hwf. destruct_and? Hwf. unfold_builder. cbn in H.
    enc_inv H. pose_complete. pose proof H as Hfin.
    apply parse_built in H as (? & H & _); [|by vm_compute|solve_fields].
    split; [by eapply finish_nested_sized|]. unfold id_decode_selector.
    rewrite id_parse_nested_expect, H, bind_Ok by done. rewrite expect_shape by done.
    rewrite ?bind_Ok. dec_run. by rewrite bool_decide_true.
  - intros b a Hb H. unfold id_decode_selector in H. rewrite id_parse_nested_expect in H by done.
    open_object H Hb. apply result_bind_Ok in H as (? & [= <-] & H).
    apply result_bind_Ok in H as (s & Hs' & H).
    apply result_bind_Ok in H as (? & [= <-] & H). apply result_bind_Ok in H as (nodes & Hn & H).
    apply result_bind_Ok in H as (? & [= <-] & H).
    destruct (PytestSelectorV1_parse l) as [s'|] eqn:Hp; [|done]. injection Hs' as ->.
    case_match eqn:Hc; [done|]. apply orb_false_iff in Hc as [Hpath Hnodes].
    apply negb_false_iff, bytes_eqb_eq in Hpath. apply negb_false_iff, bool_decide_eq_true in Hnodes.
    apply raw_list_sound in Hn as [Hn _]; [|done].
    apply result_bind_Ok in H as (e & He & H). reencoded H. split; [|done]. split.
    + unfold PytestSelectorV1_wf. rewrite (parse_selector_raw _ _ Hp), Hpath, Hnodes. solve_wf.
    + by rewrite (parse_selector_raw _ _ Hp).
Qed.

Definition valid_invocation (i : PytestInvocationIdentityV1) : Prop :=
  PytestInvocationIdentityV1_wf i ∧ valid_pytest_invocation i = true.

Definition of_stdin_variant (v : Z) : contract StdinProfileV1 :=
  match v with 1 => Ok ClosedEof | 2 => Ok EmptyNonTtyEof | _ => Err CanonicalDecoding end.

#[global] Instance id_stdin_kind :
  KindCodec StdinProfileV1_as_u16 (λ b, variant ← decode_simple_enum b; of_stdin_variant variant).
Proof. apply stdin_profile_kind. Qed.

#[global] Instance id_invocation_codec :
  NestedCodec valid_invocation id_encode_invocation id_decode_invocation.
Proof.
  split.
  - intros a b [Hwf Hv] H. pose proof H as Henc. unfold id_encode_invocation in H.
    rewrite Hv in H. cbn [negb] in H. pose proof (invocation_selectors_parse _ Hv) as Hsel.
    destruct a as [argv cwd selectors stdin]. unfold PytestInvocationIdentityV1_wf in Hwf.
    cbn in Hwf, Hsel. destruct Hwf as (Hargv & Hcwd & Hselwf).
    assert (Forall valid_selector selectors) by (apply list.Forall_and; done).
    clear Hselwf Hsel. unfold_builder. cbn in H. enc_inv H.
    id_kind StdinProfileV1_as_u16 of_stdin_variant. pose_complete. pose proof H as Hfin.
    apply parse_built in H as (? & H & _); [|by vm_compute|solve_fields].
    split; [by eapply finish_nested_sized|]. unfold id_decode_invocation.
    rewrite id_parse_nested_expect, H, bind_Ok by done. rewrite expect_shape by done.
    rewrite ?bind_Ok. dec_run. fold (of_stdin_variant v). rewrite Hk, bind_Ok. dec_run.
    by rewrite Hv.
  - intros b a Hb H. unfold id_decode_invocation in H. rewrite id_parse_nested_expect in H by done.
    open_object H Hb. dec_inv H. case_match eqn:Hv; [done|]. apply negb_false_iff in Hv.
    apply result_bind_Ok in H as (e & He & H). reencoded H. split; [|done]. split; [|done].
    unfold PytestInvocationIdentityV1_wf. cbn. split_and!; [done|by destruct Hs0|].
    eapply list.Forall_impl; [eassumption|]. by intros s [? _].
Qed.

(** ** Executable chains *)

Definition ExecutableHopV1_wf (h : ExecutableHopV1) : Prop :=
  is_sandbox_path (hop_path h) ∧ is_digest (hop_node_digest h) ∧
  match hop_resolution h with
  | Hops.Symlink raw_target next_path => is_bytes raw_target ∧ is_sandbox_path next_path
  | Hops.TerminalRegular => True
  end.

Definition valid_hop (h : ExecutableHopV1) : Prop :=
  ExecutableHopV1_wf h ∧ ExecutableHopV1_validate h = Ok ().

Lemma id_enum_built variant fs b :
  encode_enum variant fs = Ok b → is_u16 variant → id_fields fs = true →
  Forall (λ f, is_u16 (field_tag f) ∧ is_bytes (field_payload f)) fs →
  is_sized b ∧ id_RawEnum_parse b = Ok (mkRawEnum variant fs).
Proof.
  intros He Hv Hid Hf. destruct (parse_enum_built _ _ _ He Hv Hf) as (Hb & Hp & _).
  split; [by eapply encode_enum_sized|]. by apply id_RawEnum_parse_Ok.
Qed.

Lemma id_expect_shape v fs shape :
  shape_of fs = shape → id_RawEnum_expect (mkRawEnum v fs) shape = Ok ().
Proof. intros. rewrite id_RawEnum_expect_eq. by apply expect_enum_shape. Qed.

(** An enumeration payload built by the encoder is read back. *)
Ltac id_enum_complete Ep :=
  apply id_enum_built in Ep as [? Ep]; [|by vm_compute|reflexivity|solve_fields].

Ltac hop_complete :=
  intros b [Hwf Hv] H; pose proof H as Henc; unfold encode_executable_hop in H;
  unfold ExecutableHopV1_wf in Hwf;
  rewrite Hv, bind_Ok in H; cbn in Hwf, H; destruct_and? Hwf; unfold_builder; cbn in H; enc_inv H;
  match goal with E : encode_enum _ _ = Ok _ |- _ => id_enum_complete E end;
  pose proof H as Hfin; apply parse_built in H as (? & H & _); [|by vm_compute|solve_fields];
  (split; [by eapply finish_nested_sized|]); unfold decode_executable_hop;
  rewrite id_parse_nested_expect, H, bind_Ok, expect_shape, bind_Ok by done; dec_run;
  cbn [raw_enum_variant];
  unfold id_RawEnum_expect_no_fields, ExecutableHopV1_symlink, ExecutableHopV1_terminal_regular;
  rewrite id_expect_shape, bind_Ok by done; dec_run; done.

#[global] Instance hop_codec : NestedCodec valid_hop encode_executable_hop decode_executable_hop.
Proof.
  split.
  - intros [path digest [target next|]]; hop_complete.
  - intros b a Hb H. unfold decode_executable_hop in H. rewrite id_parse_nested_expect in H by done.
    open_object H Hb.
    apply result_bind_Ok in H as (? & [= <-] & H).
    apply result_bind_Ok in H as (path & [-> Hpath]%SandboxPath_new_inv & H); [|done].
    apply result_bind_Ok in H as (? & [= <-] & H).
    apply result_bind_Ok in H as (digest & [-> Hdigest]%exact_inv & H); [|done].
    apply result_bind_Ok in H as (? & [= <-] & H).
    apply result_bind_Ok in H as ([v fs] & [Ho _]%id_RawEnum_parse_Ok & H).
    apply result_bind_Ok in H as (hop & Hhop & H).
    apply result_bind_Ok in H as (e & He & H). reencoded H. split; [|done].
    cbn [raw_enum_variant] in Hhop. unfold id_RawEnum_expect_no_fields in Hhop.
    rewrite ?id_RawEnum_expect_eq in Hhop. cbn [raw_enum_variant] in Hhop.
    split_variant Hhop; open_enum Ho Hhop Hs1; dec_inv Hhop;
      unfold ExecutableHopV1_symlink, ExecutableHopV1_terminal_regular in Hhop; dec_inv Hhop;
      injection Hhop as <-; (split; [|done]); unfold ExecutableHopV1_wf; cbn; solve_wf.
Qed.

Definition valid_chain (c : ExecutableChainV1) : Prop :=
  is_sandbox_path (chain_requested_path c) ∧ Forall ExecutableHopV1_wf (chain_hops c) ∧
  ExecutableChainV1_validate c = Ok ().

Lemma validate_hops_each seen hops :
  validate_hops seen hops = Ok () → Forall (λ h, ExecutableHopV1_validate h = Ok ()) hops.
Proof.
  revert seen; induction hops as [|h hops IH]; intros seen; [constructor|]. cbn [validate_hops].
  intros ([] & Hh & H)%result_bind_Ok. constructor; [done|].
  case_bool_decide; [done|]. destruct (hop_resolution h) as [target next|].
  - case_match; [done|]. by eapply IH.
  - destruct hops; [|done]. constructor.
Qed.

Lemma chain_hops_validate c :
  ExecutableChainV1_validate c = Ok () →
  Forall (λ h, ExecutableHopV1_validate h = Ok ()) (chain_hops c).
Proof. unfold ExecutableChainV1_validate. case_match; [done|]. apply validate_hops_each. Qed.

#[global] Instance chain_codec :
  NestedCodec valid_chain ExecutableChainV1_canonical_bytes
    ExecutableChainV1_from_canonical_bytes.
Proof.
  split.
  - intros a b (Hpath & Hwf & Hv) H. pose proof H as Henc. pose proof (chain_hops_validate _ Hv).
    assert (Forall valid_hop (chain_hops a)) by by apply list.Forall_and.
    unfold ExecutableChainV1_canonical_bytes in H. rewrite Hv, bind_Ok in H. destruct a as [path hops].
    cbn in *. unfold_builder. cbn in H. enc_inv H. pose_complete.
    apply parse_top_built in H as (Hs & H); [|by vm_compute|solve_fields]. split; [done|].
    unfold ExecutableChainV1_from_canonical_bytes.
    rewrite id_parse_top_expect by first [exact (proj2 Hs)|done].
    rewrite H, bind_Ok, expect_shape, bind_Ok by done. dec_run.
    unfold ExecutableChainV1_new. rewrite Hv, !bind_Ok. dec_run. done.
  - intros b a Hb H. unfold ExecutableChainV1_from_canonical_bytes in H.
    rewrite id_parse_top_expect in H by first [exact (proj2 Hb) | done]. open_top H Hb.
    dec_inv H. reencoded H.
    match goal with E : ExecutableChainV1_new _ _ = Ok _ |- _ =>
      unfold ExecutableChainV1_new in E; apply result_bind_Ok in E as ([] & Hv & [= <-]) end.
    split; [|done]. split; [done|]. split; [|done]. cbn.
    eapply list.Forall_impl; [eassumption|]. by intros h [? _].
Qed.

(** ** Lexical shapes *)

Definition valid_lexical_shape (s : LexicalShapeV1) : Prop :=
  is_digest (lexical_profile_digest s) ∧ is_digest (lexical_workspace_identity s) ∧
  PytestInvocationIdentityV1_wf (lexical_invocation s) ∧
  EnvironmentBindingV1_wf (lexical_environment s) ∧ LexicalShapeV1_validate s = Ok ().

Lemma lexical_invocation_valid s :
  LexicalShapeV1_validate s = Ok () → valid_pytest_invocation (lexical_invocation s) = true.
Proof.
  unfold LexicalShapeV1_validate. destruct (valid_pytest_invocation _); [done|].
  cbn. by rewrite !orb_true_r.
Qed.

#[global] Instance lexical_shape_codec :
  NestedCodec valid_lexical_shape LexicalShapeV1_canonical_bytes
    LexicalShapeV1_from_canonical_bytes.
Proof.
  split.
  - intros a b (Hp & Hw & Hi & He & Hv) H. pose proof H as Henc.
    assert (valid_invocation (lexical_invocation a)) by (split; [done|by apply lexical_invocation_valid]).
    unfold LexicalShapeV1_canonical_bytes in H. rewrite Hv, bind_Ok in H. destruct a.
    cbn in *. unfold_builder. cbn in H. enc_inv H. pose_complete.
    apply parse_top_built in H as (Hs & H); [|by vm_compute|solve_fields]. split; [done|].
    unfold LexicalShapeV1_from_canonical_bytes.
    rewrite id_parse_top_expect by first [exact (proj2 Hs)|done].
    rewrite H, bind_Ok, expect_shape, bind_Ok by done. dec_run. done.
  - intros b a Hb H. unfold LexicalShapeV1_from_canonical_bytes in H.
    rewrite id_parse_top_expect in H by first [exact (proj2 Hb) | done]. open_top H Hb.
    dec_inv H. reencoded H. split; [|done].
    match goal with E : valid_invocation _ |- _ => destruct E as [? _] end.
    unfold valid_lexical_shape. cbn. solve_wf.
Qed.

(** ** Effect shapes *)

Definition stream_state_payload (value : StreamStateClassV1) : contract (list Z) :=
  match value with
  | StreamStates.Complete => encode_enum 1 []
  | StreamStates.Exceeded => encode_enum 2 []
  | StreamStates.Incomplete reason =>
    encode_enum 3 [mkField 1 U16 (be_bytes 2 (ExecuteOnlyCodes.ExecuteOnlyCode_as_u16 reason))]
  end.

Lemma encode_stream_state_eq o tag v :
  encode_stream_state o tag v =
    (payload ← stream_state_payload v; id_ObjectBuilder_field o tag Enum payload).
Proof. by destruct v. Qed.

Definition WaitClassV1_wf (v : WaitClassV1) : Prop :=
  match v with
  | WaitClasses.Success => True
  | WaitClasses.Exited code => is_u8 code
  | WaitClasses.Signaled signal _ => 1 <= signal <= 64
  end.

Definition wait_class_payload (value : WaitClassV1) : contract (list Z) :=
  match value with
  | WaitClasses.Success => encode_enum 1 []
  | WaitClasses.Exited code => encode_enum 2 [mkField 1 U8 [code]]
  | WaitClasses.Signaled signal core_dumped =>
    encode_enum 3 [mkField 1 U8 [signal]; mkField 2 Bool [Z.b2z core_dumped]]
  end.

Lemma encode_wait_class_eq o tag v :
  encode_wait_class o tag v =
    (payload ← wait_class_payload v; id_ObjectBuilder_field o tag Enum payload).
Proof. by destruct v. Qed.

Lemma u8_bytes z : is_u8 z → is_bytes [z].
Proof. intros. constructor; [done|constructor]. Qed.

Ltac bytes_extra ::=
  first [apply bool_bytes | apply u8_bytes; (assumption || (unfold is_u8; lia)) | literal_bytes].

Ltac id_run_enum H :=
  rewrite H, bind_Ok; cbn [raw_enum_variant]; unfold id_RawEnum_expect_no_fields;
  rewrite id_expect_shape, bind_Ok by done; dec_run; rewrite ?decode_bool_be, ?bind_Ok.

Ltac open_id_enum H Hb :=
  let v := fresh "v" in let fs := fresh "fs" in let Ho := fresh "Ho" in
  apply result_bind_Ok in H as ([v fs] & [Ho _]%id_RawEnum_parse_Ok & H);
  cbn [raw_enum_variant] in H; unfold id_RawEnum_expect_no_fields in H;
  rewrite ?id_RawEnum_expect_eq in H; cbn [raw_enum_variant] in H;
  split_variant H; open_enum Ho H Hb.

#[global] Instance stream_state_codec :
  NestedCodec (λ _, True) stream_state_payload decode_stream_state.
Proof.
  split.
  - intros [| |reason] b _ H; cbn in H; id_enum_complete H; (split; [done|]);
      unfold decode_stream_state; id_run_enum H; done.
  - intros b a Hb H. unfold decode_stream_state in H. open_id_enum H Hb; dec_inv H;
      injection H as <-; done.
Qed.

#[global] Instance wait_class_codec :
  NestedCodec WaitClassV1_wf wait_class_payload decode_wait_class.
Proof.
  split.
  - intros [|code|signal core] b Hwf H; cbn in Hwf, H; id_enum_complete H; (split; [done|]);
      unfold decode_wait_class; id_run_enum H; [done..|].
    rewrite (proj2 (Z.leb_le 1 signal)), (proj2 (Z.leb_le signal 64)) by lia. done.
  - intros b a Hb H. unfold decode_wait_class in H. open_id_enum H Hb; dec_inv H.
    2,3: by injection H as <-.
    case_match eqn:Hr; [done|]. apply negb_false_iff, andb_true_iff in Hr as [?%Z.leb_le ?%Z.leb_le].
    apply result_bind_Ok in H as (? & [= <-] & H).
    apply result_bind_Ok in H as (core & ->%decode_bool_inv & H); [|done]. injection H as <-.
    split; [by split|done].
Qed.

Ltac enum_field_inv E :=
  let p := fresh "p" in let Ep := fresh "Ep" in
  apply result_bind_Ok in E as (p & Ep & E); apply id_field_inv in E; subst.

Ltac builder_inv E ::=
  lazymatch type of E with
  | ObjectBuilder_field _ _ _ _ = Ok _ => apply builder_field_inv in E; subst
  | id_ObjectBuilder_field _ _ _ _ = Ok _ => apply id_field_inv in E; subst
  | mbind (λ payload, ObjectBuilder_field _ _ _ payload) _ = Ok _ =>
      let p := fresh "p" in let Ep := fresh "Ep" in
      apply result_bind_Ok in E as (p & Ep & E); apply builder_field_inv in E; subst
  | encode_stream_state _ _ _ = Ok _ => rewrite encode_stream_state_eq in E; enum_field_inv E
  | encode_wait_class _ _ _ = Ok _ => rewrite encode_wait_class_eq in E; enum_field_inv E
  | mbind (λ payload, id_ObjectBuilder_field _ _ _ payload) _ = Ok _ =>
      let p := fresh "p" in let Ep := fresh "Ep" in
      apply result_bind_Ok in E as (p & Ep & E); apply id_field_inv in E; subst;
      rewrite ?id_encode_list_eq in Ep
  | @eq (contract ()) _ (Ok ?u) => destruct u
  | _ => idtac
  end.

Ltac pose_extra ::=
  match goal with E : stream_state_payload ?v = Ok ?p |- _ =>
    destruct (nested_complete (wf:=λ _, True) v p I E) as [? ?]; clear E end.

Definition valid_effect_shape (s : EffectShapeV1) : Prop :=
  is_digest (effect_shape_profile_digest s) ∧
  Forall ObservationLayoutV1_wf (effect_shape_observations s) ∧
  Forall AmbientLayoutV1_wf (effect_shape_ambient_events s) ∧
  Forall OrderedEffectLayoutV1_wf (effect_shape_ordered_effects s) ∧
  WaitClassV1_wf (effect_shape_wait s) ∧ EffectShapeV1_validate s = Ok ().

#[global] Instance effect_shape_codec :
  NestedCodec valid_effect_shape EffectShapeV1_canonical_bytes
    EffectShapeV1_from_canonical_bytes.
Proof.
  split.
  - intros a b (Hp & Ho & Ha & He & Hw & Hv) H. pose proof H as Henc.
    unfold EffectShapeV1_canonical_bytes in H. rewrite Hv, bind_Ok in H. unfold encode_effect_shape in H.
    destruct a. cbn in *. unfold_builder. cbn in H. enc_inv H. pose_complete.
    apply parse_top_built in H as (Hs & H); [|by vm_compute|solve_fields]. split; [done|].
    unfold EffectShapeV1_from_canonical_bytes.
    rewrite id_parse_top_expect by first [exact (proj2 Hs)|done].
    rewrite H, bind_Ok, expect_shape, bind_Ok by done. dec_run. rewrite decode_bool_be, bind_Ok.
    dec_run. done.
  - intros b a Hb H. unfold EffectShapeV1_from_canonical_bytes in H.
    rewrite id_parse_top_expect in H by first [exact (proj2 Hb) | done]. open_top H Hb.
    dec_inv H. reencoded H. split; [|done]. unfold valid_effect_shape. cbn. solve_wf.
Qed.
