(* ===== verification/RecordTop.v ===== *)
(** * Effect records, lookup shapes and observation closures

    The top-level objects of [src/src/linux_pytest.rs] and
    [src/src/linux_pytest/canonical.rs]: validation with its derived digests
    and keys, canonical bytes and strict decoding, the semantic comparison view
    of a record and the digest of a compared pair, and the identities derived
    from a validated record. A record is checked against what it commits to:
    its shape, its observation closure, both keys and its disposition. *)

From Stdlib Require Import String.
From Stdlib Require Import Sorting.Sorted.
From S2P Require Import Prelude Monad Bytes WaitStatus ContractTypes Canonical CanonicalSpec.
From S2P Require Import CanonicalParse CanonicalCodec RecordTypes Paths RecordValidation.
From S2P Require Import RecordCodec RecordRoundTrip Digest IdentityWire Identity.
From S2P Require Import IdentityRoundTrip.
Import Wire.

Definition COMPARISON_RULE_VERSION : list Z := bstr "comparison-view-v1".

Definition COMPARISON_EXCLUSIONS : list (list Z) :=
  [bstr "record_id"; bstr "snapshot_id"; bstr "namespace_ids"; bstr "disposition";
   bstr "disposition_reason"; bstr "primary_record_id"; bstr "comparison_digest";
   bstr "created_monotonic_ns"; bstr "outer_host_pid"; bstr "duration"].

(** [u64::try_from(items.len()).ok() == Some(count)]. *)
Definition count_is {A} (items : list A) (count : Z) : bool :=
  (len items <=? U64_MAX) && (len items =? count).

Section record.
Context `{Blake3}.

(** ** Observation closures *)

Definition ObservationDetailV1_current_value (self : ObservationDetailV1) : contract BlobRefV2 :=
  _ ← Details.ObservationDetailV1_validate self;
  bytes ← encode_observation_detail_top self;
  byte_count ← try_width U64_MAX CanonicalEncoding (len bytes);
  Ok (mkBlobRef (Blake3Digest_derive CAS_OBJECT_DOMAIN [bytes]) byte_count).

Definition observation_dependency (observation : ObservationV2) :
    contract ObservationDependencyV1 :=
  let detail := observation_canonical_detail observation in
  if negb (bool_decide (observation_kind observation = Details.ObservationDetailV1_kind detail))
  then Err MalformedRecord
  else
    current_value ← ObservationDetailV1_current_value detail;
    Ok (mkDependency (Details.ObservationDetailV1_dependency_key detail)
          (observation_kind observation) (observation_sandbox_subject observation)
          current_value).

Definition ObservationClosureV1_from_observations (observations : list ObservationV2) :
    contract ObservationClosureV1 :=
  dependencies ← try_map observation_dependency observations;
  ObservationClosureV1_new dependencies.

Definition encode_observation_closure (value : ObservationClosureV1) : contract (list Z) :=
  let object := ObjectBuilder_new TYPE_OBSERVATION_CLOSURE in
  dependencies ← try_map encode_observation_dependency (closure_dependencies value);
  object ← ObjectBuilder_list object 1 dependencies;
  ObjectBuilder_finish_top object.

Definition ObservationClosureV1_canonical_bytes (self : ObservationClosureV1) :
    contract (list Z) :=
  _ ← ObservationClosureV1_validate self;
  encode_observation_closure self.

Definition decode_observation_closure (bytes : list Z) : contract ObservationClosureV1 :=
  object ← RawObject_parse_top bytes;
  _ ← RawObject_expect object TYPE_OBSERVATION_CLOSURE [(1, List)];
  p1 ← RawObject_payload object 1; items ← decode_list p1;
  dependencies ← try_map decode_observation_dependency items;
  value ← ObservationClosureV1_new dependencies;
  _ ← require_reencoding (encode_observation_closure value) bytes;
  Ok value.

Definition ObservationClosureV1_digest (self : ObservationClosureV1) : contract (list Z) :=
  encoded ← ObservationClosureV1_canonical_bytes self;
  Ok (Blake3Digest_derive_tagged OBSERVATION_CLOSURE_DOMAIN [(1, encoded)]).

(** ** Lookup shapes *)

Definition ShapeV1_executable_chain (self : ShapeV1) : contract ExecutableChainV1 :=
  ExecutableChainV1_from_canonical_bytes (shape_executable_chain_witness self).

(** The disjunction stops at its first true test, so the profile digest is
    computed only when the tests before it are false. *)
Definition ShapeV1_validate (self : ShapeV1) : contract () :=
  profile ← from_compiled_policy_digests (shape_policy_digests self);
  let environment := shape_environment self in
  if negb (bytes_eqb (shape_schema self) LINUX_PYTEST_SHAPE_V1_SCHEMA)
     || negb (bytes_eqb (shape_profile_id self) LINUX_PYTEST_PROFILE_ID)
     || digest_is_zero (shape_profile_digest self)
  then Err MalformedLookupIdentity
  else
    profile_digest ← ProfileCommitmentV1_digest profile;
    if negb (bytes_eqb (shape_profile_digest self) profile_digest)
       || digest_is_zero (shape_workspace_identity self)
       || negb (valid_pytest_invocation (shape_invocation self))
       || digest_is_zero (environment_key_id environment)
       || digest_is_zero (environment_digest environment)
       || digest_is_zero (environment_names_digest environment)
       || (environment_entry_count environment =? 0)
       || negb (bytes_eqb (environment_policy_digest environment)
                  (policy_environment (shape_policy_digests self)))
       || negb (len (shape_resolved_selector_targets self)
                  =? len (invocation_selectors (shape_invocation self)))
       || any (λ target, negb (valid_sandbox_path_bytes target)
                         || negb (sandbox_path_is_within (bstr "/workspace") target))
            (shape_resolved_selector_targets self)
       || digest_is_zero (shape_executable_chain_digest self)
       || digest_is_zero (shape_runtime_root self)
       || digest_is_zero (shape_capability_digest self)
       || digest_is_zero (shape_namespace_policy_digest self)
    then Err MalformedLookupIdentity
    else
      executable_chain ← ShapeV1_executable_chain self;
      _ ← validate_requested_by executable_chain (shape_invocation self);
      chain_digest ← ExecutableChainV1_digest executable_chain;
      if negb (bytes_eqb chain_digest (shape_executable_chain_digest self))
      then Err MalformedLookupIdentity else Ok ().

Definition encode_shape (value : ShapeV1) : contract (list Z) :=
  let object := ObjectBuilder_new TYPE_SHAPE in
  object ← ObjectBuilder_utf8 object 1 (shape_schema value);
  object ← ObjectBuilder_utf8 object 2 (shape_profile_id value);
  object ← ObjectBuilder_bytes object 3 (shape_profile_digest value);
  object ← ObjectBuilder_bytes object 4 (shape_workspace_identity value);
  invocation ← encode_invocation (shape_invocation value);
  object ← ObjectBuilder_object object 5 invocation;
  environment ← encode_environment (shape_environment value);
  object ← ObjectBuilder_object object 6 environment;
  object ← ObjectBuilder_list object 7 (shape_resolved_selector_targets value);
  object ← ObjectBuilder_bytes object 8 (shape_executable_chain_digest value);
  object ← ObjectBuilder_bytes object 9 (shape_runtime_root value);
  object ← ObjectBuilder_enumeration object 10
             (ArchitectureV1_as_u16 (shape_architecture value)) [];
  object ← ObjectBuilder_bytes object 11 (shape_capability_digest value);
  object ← ObjectBuilder_bytes object 12 (shape_namespace_policy_digest value);
  policies ← encode_policy_digests (shape_policy_digests value);
  object ← ObjectBuilder_object object 13 policies;
  object ← ObjectBuilder_bytes object 14 (shape_executable_chain_witness value);
  ObjectBuilder_finish_top object.

Definition decode_shape (bytes : list Z) : contract ShapeV1 :=
  object ← RawObject_parse_top bytes;
  _ ← RawObject_expect object TYPE_SHAPE
        [(1, Utf8); (2, Utf8); (3, Bytes); (4, Bytes); (5, Object); (6, Object); (7, List);
         (8, Bytes); (9, Bytes); (10, Enum); (11, Bytes); (12, Bytes); (13, Object); (14, Bytes)];
  p1 ← RawObject_payload object 1; schema ← from_utf8 p1;
  p2 ← RawObject_payload object 2; profile_id ← from_utf8 p2;
  p3 ← RawObject_payload object 3; profile_digest ← exact 32 p3;
  p4 ← RawObject_payload object 4; workspace_identity ← exact 32 p4;
  p5 ← RawObject_payload object 5; invocation ← decode_invocation p5;
  p6 ← RawObject_payload object 6; environment ← decode_environment p6;
  p7 ← RawObject_payload object 7; targets ← decode_list p7;
  resolved_selector_targets ← try_map decode_sandbox_path targets;
  p8 ← RawObject_payload object 8; executable_chain_digest ← exact 32 p8;
  p9 ← RawObject_payload object 9; runtime_root ← exact 32 p9;
  p10 ← RawObject_payload object 10; architecture ← decode_architecture p10;
  p11 ← RawObject_payload object 11; capability_digest ← exact 32 p11;
  p12 ← RawObject_payload object 12; namespace_policy_digest ← exact 32 p12;
  p13 ← RawObject_payload object 13; policy_digests ← decode_policy_digests p13;
  executable_chain_witness ← RawObject_payload object 14;
  let value := mkShape schema profile_id profile_digest workspace_identity invocation
                 environment resolved_selector_targets executable_chain_digest
                 executable_chain_witness runtime_root architecture capability_digest
                 namespace_policy_digest policy_digests in
  _ ← ShapeV1_validate value;
  _ ← require_reencoding (encode_shape value) bytes;
  Ok value.

Definition ShapeV1_canonical_bytes (self : ShapeV1) : contract (list Z) :=
  _ ← ShapeV1_validate self;
  encode_shape self.

Definition ShapeV1_key (self : ShapeV1) : contract (list Z) :=
  encoded ← ShapeV1_canonical_bytes self;
  Ok (Blake3Digest_derive_tagged SHAPE_DOMAIN [(1, encoded)]).

Definition ShapeV1_request_key (self : ShapeV1) (closure : ObservationClosureV1) :
    contract (list Z) :=
  _ ← ShapeV1_validate self;
  shape_key ← ShapeV1_key self;
  closure_digest ← ObservationClosureV1_digest closure;
  Ok (Blake3Digest_derive_tagged REQUEST_DOMAIN
        [(1, shape_schema self); (2, shape_profile_id self); (3, shape_profile_digest self);
         (4, shape_key); (5, closure_digest)]).

(** ** Effect records *)

(** The disjunction after the keys have been derived. *)
Definition record_malformed (self : EffectRecordV2) (derived_closure : ObservationClosureV1)
    (derived_shape_key derived_request_key : list Z) : bool :=
  let shape := record_shape self in
  let snapshot := record_sealed_snapshot self in
  let platform := record_platform self in
  let counters := trace_counters (record_trace self) in
  negb (valid_pytest_invocation (record_invocation self))
  || negb (bytes_eqb (record_shape_key self) derived_shape_key)
  || negb (bytes_eqb (record_request_key self) derived_request_key)
  || negb (bool_decide (record_observation_closure self = derived_closure))
  || negb (bytes_eqb (shape_profile_id shape) (record_profile_id self))
  || negb (bytes_eqb (shape_profile_digest shape) (record_profile_digest self))
  || negb (bool_decide (shape_invocation shape = record_invocation self))
  || negb (bytes_eqb (shape_workspace_identity shape) (record_workspace_identity self))
  || negb (bool_decide (shape_environment shape = record_environment self))
  || negb (bytes_eqb (shape_runtime_root shape) (snapshot_runtime_root snapshot))
  || negb (bool_decide (shape_architecture shape = platform_architecture platform))
  || negb (bytes_eqb (shape_capability_digest shape) (platform_capability_digest platform))
  || negb (bytes_eqb (shape_namespace_policy_digest shape)
             (platform_namespace_policy_digest platform))
  || negb (bool_decide (shape_policy_digests shape = platform_policy_digests platform))
  || negb (bytes_eqb (snapshot_profile_digest snapshot) (record_profile_digest self))
  || negb (bytes_eqb (environment_policy_digest (record_environment self))
             (policy_environment (platform_policy_digests platform)))
  || digest_is_zero (blob_digest (snapshot_manifest_blob snapshot))
  || (EFFECT_IR_V2_MAX_CANONICAL_BYTES <? blob_byte_count (snapshot_manifest_blob snapshot))
  || bytes_eqb (platform_kernel_release platform) []
  || contains 0 (platform_kernel_release platform)
  || negb (valid_namespace_ids (platform_namespace_ids platform))
  || negb (valid_trace_event_union self)
  || negb (strictly_increasing (observation_sequence <$> record_observations self))
  || negb (strictly_increasing (ambient_sequence <$> record_ambient_events self))
  || negb (strictly_increasing (effect_sequence <$> record_ordered_effects self))
  || negb (count_is (record_observations self) (tc_observation_count counters))
  || negb (count_is (record_ambient_events self) (tc_ambient_event_count counters))
  || negb (count_is (record_ordered_effects self) (tc_ordered_effect_count counters))
  || any (λ item, negb (valid_sandbox_path_bytes (observation_sandbox_subject item)))
       (record_observations self)
  || any (λ item, negb (valid_sandbox_path_bytes (effect_sandbox_subject item)))
       (record_ordered_effects self)
  || negb (valid_result_capture (record_result self))
  || negb (raw_is_final (result_raw_linux_wait_status (record_result self))).

Definition is_candidate (disposition : EffectRecordDispositionV2) : bool :=
  match disposition with
  | PrimaryCandidate | ShadowCandidate => true
  | ExecutedOnly => false
  end.

(** The match on the disposition. *)
Definition disposition_malformed (self : EffectRecordV2) : bool :=
  let no_reason := bool_decide (record_disposition_reason self = None) in
  let no_primary := bool_decide (record_primary_record_id self = None) in
  match record_disposition self with
  | ExecutedOnly =>
    negb (bool_decide (record_disposition_reason self = derived_execute_only_reason self))
    || no_reason || negb no_primary
  | PrimaryCandidate => negb no_reason || negb no_primary
  | ShadowCandidate =>
    negb no_reason
    || match record_primary_record_id self with
       | None => true
       | Some primary => id_is_nil primary || bytes_eqb primary (record_id self)
       end
  end.

Definition EffectRecordV2_validate (self : EffectRecordV2) : contract () :=
  if negb (bytes_eqb (record_schema self) EFFECT_IR_V2_SCHEMA)
     || negb (bytes_eqb (record_profile_id self) LINUX_PYTEST_PROFILE_ID)
     || id_is_nil (record_id self)
     || id_is_nil (snapshot_id (record_sealed_snapshot self))
  then Err SchemaProfileMismatch
  else
    _ ← TraceCompletenessV2_validate (record_trace self);
    _ ← ShapeV1_validate (record_shape self);
    _ ← ObservationClosureV1_validate (record_observation_closure self);
    derived_closure ← ObservationClosureV1_from_observations (record_observations self);
    derived_shape_key ← ShapeV1_key (record_shape self);
    derived_request_key ← ShapeV1_request_key (record_shape self) derived_closure;
    if record_malformed self derived_closure derived_shape_key derived_request_key
    then Err MalformedRecord
    else if is_candidate (record_disposition self) && negb (has_complete_success_result self)
    then Err InvalidCompletenessMasks
    else if disposition_malformed self then Err MalformedRecord
    else Ok ().

Definition is_complete_candidate (self : EffectRecordV2) : bool :=
  is_ok (EffectRecordV2_validate self) && is_candidate (record_disposition self)
  && has_complete_success_result self.

Definition encode_record (value : EffectRecordV2) : contract (list Z) :=
  let object := ObjectBuilder_new TYPE_EFFECT_RECORD in
  object ← ObjectBuilder_utf8 object 1 (record_schema value);
  object ← ObjectBuilder_bytes object 2 (record_id value);
  object ← ObjectBuilder_utf8 object 3 (record_profile_id value);
  object ← ObjectBuilder_bytes object 4 (record_profile_digest value);
  object ← ObjectBuilder_bytes object 5 (record_shape_key value);
  object ← ObjectBuilder_bytes object 6 (record_request_key value);
  invocation ← encode_invocation (record_invocation value);
  object ← ObjectBuilder_object object 7 invocation;
  object ← ObjectBuilder_bytes object 8 (record_workspace_identity value);
  environment ← encode_environment (record_environment value);
  object ← ObjectBuilder_object object 9 environment;
  snapshot ← encode_snapshot (record_sealed_snapshot value);
  object ← ObjectBuilder_object object 10 snapshot;
  platform ← encode_platform (record_platform value);
  object ← ObjectBuilder_object object 11 platform;
  trace ← encode_trace (record_trace value);
  object ← ObjectBuilder_object object 12 trace;
  observations ← try_map encode_observation (record_observations value);
  object ← ObjectBuilder_list object 13 observations;
  ambient_events ← try_map encode_ambient (record_ambient_events value);
  object ← ObjectBuilder_list object 14 ambient_events;
  ordered_effects ← try_map encode_effect (record_ordered_effects value);
  object ← ObjectBuilder_list object 15 ordered_effects;
  object ← ObjectBuilder_bytes object 16 (record_final_workspace_root value);
  result ← encode_result (record_result value);
  object ← ObjectBuilder_object object 17 result;
  object ← ObjectBuilder_enumeration object 18
             (EffectRecordDispositionV2_as_u16 (record_disposition value)) [];
  object ← ObjectBuilder_optional object 19
             ((λ reason, be_bytes 2 (ExecuteOnlyCodes.ExecuteOnlyCode_as_u16 reason))
                <$> record_disposition_reason value);
  object ← ObjectBuilder_optional object 20 (record_primary_record_id value);
  object ← ObjectBuilder_optional object 21 None;
  object ← ObjectBuilder_u64 object 22 (record_created_monotonic_ns value);
  shape ← ShapeV1_canonical_bytes (record_shape value);
  object ← ObjectBuilder_bytes object 23 shape;
  closure ← ObservationClosureV1_canonical_bytes (record_observation_closure value);
  object ← ObjectBuilder_bytes object 24 closure;
  ObjectBuilder_finish_top object.

Definition decode_disposition (bytes : list Z) : contract EffectRecordDispositionV2 :=
  variant ← decode_simple_enum bytes;
  match variant with
  | 1 => Ok ExecutedOnly
  | 2 => Ok PrimaryCandidate
  | 3 => Ok ShadowCandidate
  | _ => Err CanonicalDecoding
  end.

Definition decode_record (bytes : list Z) : contract EffectRecordV2 :=
  object ← RawObject_parse_top bytes;
  _ ← RawObject_expect object TYPE_EFFECT_RECORD
        [(1, Utf8); (2, Bytes); (3, Utf8); (4, Bytes); (5, Bytes); (6, Bytes); (7, Object);
         (8, Bytes); (9, Object); (10, Object); (11, Object); (12, Object); (13, List);
         (14, List); (15, List); (16, Bytes); (17, Object); (18, Enum); (19, Optional);
         (20, Optional); (21, Optional); (22, U64); (23, Bytes); (24, Bytes)];
  p18 ← RawObject_payload object 18; disposition ← decode_disposition p18;
  p19 ← RawObject_payload object 19; o19 ← decode_optional p19;
  disposition_reason ← try_option decode_execute_only_code o19;
  p20 ← RawObject_payload object 20; o20 ← decode_optional p20;
  primary_record_id ← try_option (exact 16) o20;
  p21 ← RawObject_payload object 21; o21 ← decode_optional p21;
  _ ← ensure (bool_decide (o21 = None)) CanonicalDecoding;
  p1 ← RawObject_payload object 1; schema ← from_utf8 p1;
  p2 ← RawObject_payload object 2; id ← exact 16 p2;
  p3 ← RawObject_payload object 3; profile_id ← from_utf8 p3;
  p4 ← RawObject_payload object 4; profile_digest ← exact 32 p4;
  p5 ← RawObject_payload object 5; shape_key ← exact 32 p5;
  p6 ← RawObject_payload object 6; request_key ← exact 32 p6;
  p7 ← RawObject_payload object 7; invocation ← decode_invocation p7;
  p8 ← RawObject_payload object 8; workspace_identity ← exact 32 p8;
  p9 ← RawObject_payload object 9; environment ← decode_environment p9;
  p10 ← RawObject_payload object 10; sealed_snapshot ← decode_snapshot p10;
  p11 ← RawObject_payload object 11; platform ← decode_platform p11;
  p12 ← RawObject_payload object 12; trace ← decode_trace p12;
  p13 ← RawObject_payload object 13; l13 ← decode_list p13;
  observations ← try_map decode_observation l13;
  p14 ← RawObject_payload object 14; l14 ← decode_list p14;
  ambient_events ← try_map decode_ambient l14;
  p15 ← RawObject_payload object 15; l15 ← decode_list p15;
  ordered_effects ← try_map decode_effect l15;
  p16 ← RawObject_payload object 16; final_workspace_root ← exact 32 p16;
  p17 ← RawObject_payload object 17; result ← decode_result p17;
  p22 ← RawObject_payload object 22; created_monotonic_ns ← decode_u64 p22;
  p23 ← RawObject_payload object 23; shape ← decode_shape p23;
  p24 ← RawObject_payload object 24; observation_closure ← decode_observation_closure p24;
  let value := mkRecord schema id profile_id profile_digest shape_key request_key invocation
                 workspace_identity environment sealed_snapshot platform trace observations
                 ambient_events ordered_effects final_workspace_root result disposition
                 disposition_reason primary_record_id created_monotonic_ns shape
                 observation_closure in
  _ ← EffectRecordV2_validate value;
  _ ← require_reencoding (encode_record value) bytes;
  Ok value.

Definition EffectRecordV2_canonical_bytes (self : EffectRecordV2) : contract (list Z) :=
  _ ← EffectRecordV2_validate self;
  encode_record self.

(** ** Records with their bytes *)

Record CanonicalEffectRecordV2 := mkCanonicalRecord {
  canonical_record : EffectRecordV2;
  canonical_record_bytes : list Z;
  canonical_record_blob : BlobRefV2;
}.

Definition CanonicalEffectRecordV2_from_record (record : EffectRecordV2) :
    contract CanonicalEffectRecordV2 :=
  canonical_bytes ← EffectRecordV2_canonical_bytes record;
  byte_count ← try_width U64_MAX CanonicalEncoding (len canonical_bytes);
  Ok (mkCanonicalRecord record canonical_bytes
        (mkBlobRef (Blake3Digest_derive CAS_OBJECT_DOMAIN [canonical_bytes]) byte_count)).

Definition CanonicalEffectRecordV2_from_canonical_bytes (bytes : list Z) :
    contract CanonicalEffectRecordV2 :=
  record ← decode_record bytes;
  value ← CanonicalEffectRecordV2_from_record record;
  if negb (bytes_eqb (canonical_record_bytes value) bytes) then Err CanonicalDecoding
  else Ok value.
End record.

(** ** The semantic comparison of two records *)

Record ComparisonSnapshotV1 := mkComparisonSnapshot {
  cs_workspace_root : list Z;
  cs_runtime_root : list Z;
  cs_manifest_blob : BlobRefV2;
  cs_profile_digest : list Z;
}.

Record ComparisonPlatformV1 := mkComparisonPlatform {
  cp_architecture : ArchitectureV1;
  cp_kernel_release : list Z;
  cp_capability_digest : list Z;
  cp_namespace_policy_digest : list Z;
  cp_policy_digests : PolicyDigestsV1;
}.

Record ComparisonViewV1 := mkComparisonView {
  cv_schema : list Z;
  cv_profile_id : list Z;
  cv_profile_digest : list Z;
  cv_shape_key : list Z;
  cv_request_key : list Z;
  cv_invocation : PytestInvocationIdentityV1;
  cv_workspace_identity : list Z;
  cv_environment : EnvironmentBindingV1;
  cv_sealed_snapshot : ComparisonSnapshotV1;
  cv_platform : ComparisonPlatformV1;
  cv_trace : TraceCompletenessV2;
  cv_observations : list ObservationV2;
  cv_ambient_events : list AmbientEventV2;
  cv_ordered_effects : list OrderedEffectV2;
  cv_final_workspace_root : list Z;
  cv_result : EffectResultV2;
  cv_shape : ShapeV1;
  cv_observation_closure : ObservationClosureV1;
}.

Definition comparison_view (self : EffectRecordV2) : ComparisonViewV1 :=
  let snapshot := record_sealed_snapshot self in
  let platform := record_platform self in
  mkComparisonView (record_schema self) (record_profile_id self) (record_profile_digest self)
    (record_shape_key self) (record_request_key self) (record_invocation self)
    (record_workspace_identity self) (record_environment self)
    (mkComparisonSnapshot (snapshot_workspace_root snapshot) (snapshot_runtime_root snapshot)
       (snapshot_manifest_blob snapshot) (snapshot_profile_digest snapshot))
    (mkComparisonPlatform (platform_architecture platform) (platform_kernel_release platform)
       (platform_capability_digest platform) (platform_namespace_policy_digest platform)
       (platform_policy_digests platform))
    (record_trace self) (record_observations self) (record_ambient_events self)
    (record_ordered_effects self) (record_final_workspace_root self) (record_result self)
    (record_shape self) (record_observation_closure self).

Definition encode_comparison_snapshot (value : ComparisonSnapshotV1) : contract (list Z) :=
  let object := ObjectBuilder_new TYPE_COMPARISON_SNAPSHOT in
  object ← ObjectBuilder_bytes object 1 (cs_workspace_root value);
  object ← ObjectBuilder_bytes object 2 (cs_runtime_root value);
  blob ← encode_blob (cs_manifest_blob value);
  object ← ObjectBuilder_object object 3 blob;
  object ← ObjectBuilder_bytes object 4 (cs_profile_digest value);
  ObjectBuilder_finish_nested object.

Definition encode_comparison_platform (value : ComparisonPlatformV1) : contract (list Z) :=
  let object := ObjectBuilder_new TYPE_COMPARISON_PLATFORM in
  object ← ObjectBuilder_enumeration object 1
             (ArchitectureV1_as_u16 (cp_architecture value)) [];
  object ← ObjectBuilder_bytes object 2 (cp_kernel_release value);
  object ← ObjectBuilder_bytes object 3 (cp_capability_digest value);
  object ← ObjectBuilder_bytes object 4 (cp_namespace_policy_digest value);
  policies ← encode_policy_digests (cp_policy_digests value);
  object ← ObjectBuilder_object object 5 policies;
  ObjectBuilder_finish_nested object.

Definition comparison_rules_bytes : contract (list Z) :=
  let object := ObjectBuilder_new TYPE_COMPARISON_RULES in
  object ← ObjectBuilder_bytes object 1 COMPARISON_RULE_VERSION;
  object ← ObjectBuilder_list object 2 COMPARISON_EXCLUSIONS;
  ObjectBuilder_finish_top object.

Section comparison.
Context `{Blake3}.

Definition encode_comparison_view (value : ComparisonViewV1) : contract (list Z) :=
  let object := ObjectBuilder_new TYPE_COMPARISON_VIEW in
  object ← ObjectBuilder_utf8 object 1 (cv_schema value);
  object ← ObjectBuilder_utf8 object 2 (cv_profile_id value);
  object ← ObjectBuilder_bytes object 3 (cv_profile_digest value);
  object ← ObjectBuilder_bytes object 4 (cv_shape_key value);
  object ← ObjectBuilder_bytes object 5 (cv_request_key value);
  invocation ← encode_invocation (cv_invocation value);
  object ← ObjectBuilder_object object 6 invocation;
  object ← ObjectBuilder_bytes object 7 (cv_workspace_identity value);
  environment ← encode_environment (cv_environment value);
  object ← ObjectBuilder_object object 8 environment;
  snapshot ← encode_comparison_snapshot (cv_sealed_snapshot value);
  object ← ObjectBuilder_object object 9 snapshot;
  platform ← encode_comparison_platform (cv_platform value);
  object ← ObjectBuilder_object object 10 platform;
  trace ← encode_trace (cv_trace value);
  object ← ObjectBuilder_object object 11 trace;
  observations ← try_map encode_observation (cv_observations value);
  object ← ObjectBuilder_list object 12 observations;
  ambient_events ← try_map encode_ambient (cv_ambient_events value);
  object ← ObjectBuilder_list object 13 ambient_events;
  ordered_effects ← try_map encode_effect (cv_ordered_effects value);
  object ← ObjectBuilder_list object 14 ordered_effects;
  object ← ObjectBuilder_bytes object 15 (cv_final_workspace_root value);
  result ← encode_result (cv_result value);
  object ← ObjectBuilder_object object 16 result;
  shape ← ShapeV1_canonical_bytes (cv_shape value);
  object ← ObjectBuilder_bytes object 17 shape;
  closure ← ObservationClosureV1_canonical_bytes (cv_observation_closure value);
  object ← ObjectBuilder_bytes object 18 closure;
  ObjectBuilder_finish_top object.

Definition comparison_view_bytes (self : EffectRecordV2) : contract (list Z) :=
  _ ← EffectRecordV2_validate self;
  encode_comparison_view (comparison_view self).

Definition comparison_view_digest (self : EffectRecordV2) : contract (list Z) :=
  encoded ← comparison_view_bytes self;
  Ok (Blake3Digest_derive EFFECT_IR_V2_COMPARISON_VIEW_DOMAIN [encoded]).

(** The verified candidates enter only through their canonical records. *)
Definition pair_comparison_digest (primary shadow : CanonicalEffectRecordV2) :
    contract (list Z) :=
  let primary_record := canonical_record primary in
  let shadow_record := canonical_record shadow in
  let primary_blob := blob_digest (canonical_record_blob primary) in
  let shadow_blob := blob_digest (canonical_record_blob shadow) in
  if negb (bool_decide (record_disposition primary_record = PrimaryCandidate))
     || negb (bool_decide (record_disposition shadow_record = ShadowCandidate))
     || negb (is_complete_candidate primary_record)
     || negb (is_complete_candidate shadow_record)
     || bytes_eqb (record_id primary_record) (record_id shadow_record)
     || negb (bool_decide (record_primary_record_id shadow_record
                           = Some (record_id primary_record)))
     || bytes_eqb primary_blob shadow_blob
  then Err ComparisonMismatch
  else
    primary_view ← comparison_view_bytes primary_record;
    shadow_view ← comparison_view_bytes shadow_record;
    if negb (bytes_eqb primary_view shadow_view) then Err ComparisonMismatch
    else
      rules ← comparison_rules_bytes;
      let rules_digest := Blake3Digest_derive EFFECT_IR_V2_COMPARISON_RULES_DOMAIN [rules] in
      let view_digest :=
        Blake3Digest_derive EFFECT_IR_V2_COMPARISON_VIEW_DOMAIN [primary_view] in
      Ok (Blake3Digest_derive_tagged EFFECT_IR_V2_COMPARISON_DOMAIN
            [(1, rules_digest); (2, primary_blob); (3, shadow_blob); (4, view_digest);
             (5, view_digest)]).

(** ** Identities derived from a record *)

Definition EffectShapeV1_from_record (record : EffectRecordV2) : contract EffectShapeV1 :=
  _ ← EffectRecordV2_validate record;
  wait ← wait_class (result_raw_linux_wait_status (record_result record));
  let value :=
    mkEffectShape (record_profile_digest record)
      ((λ event, mkObservationLayout (observation_sequence event)
          (observation_logical_task_id event) (observation_kind event)
          (observation_sandbox_subject event)) <$> record_observations record)
      ((λ event, mkAmbientLayout (ambient_sequence event) (ambient_logical_task_id event)
          (ambient_kind event)) <$> record_ambient_events record)
      ((λ event, mkEffectLayout (effect_sequence event) (effect_logical_task_id event)
          (effect_kind event) (effect_sandbox_subject event)) <$> record_ordered_effects record)
      (stream_state_class (result_stdout (record_result record)))
      (stream_state_class (result_stderr (record_result record)))
      wait
      (negb (bytes_eqb (record_final_workspace_root record)
               (snapshot_workspace_root (record_sealed_snapshot record)))) in
  _ ← EffectShapeV1_validate value;
  Ok value.

Definition QuarantineClassV1_from_record (record : EffectRecordV2) : contract QuarantineClassV1 :=
  _ ← EffectRecordV2_validate record;
  derived_shape_key ← ShapeV1_key (record_shape record);
  derived_request_key ← ShapeV1_request_key (record_shape record)
                          (record_observation_closure record);
  if negb (bytes_eqb derived_shape_key (record_shape_key record))
     || negb (bytes_eqb derived_request_key (record_request_key record))
  then Err MalformedLookupIdentity
  else from_checked_parts (record_profile_digest record) (record_workspace_identity record)
         derived_shape_key derived_request_key.
End comparison.

(** Proofs unfold these by name. *)
#[global] Arguments ObservationClosureV1_new : simpl never.
#[global] Arguments encode_observation_closure : simpl never.
#[global] Arguments ObservationClosureV1_canonical_bytes : simpl never.
#[global] Arguments decode_observation_closure : simpl never.
#[global] Arguments ShapeV1_validate {_} : simpl never.
#[global] Arguments encode_shape : simpl never.
#[global] Arguments decode_shape {_} : simpl never.
#[global] Arguments ShapeV1_canonical_bytes {_} : simpl never.
#[global] Arguments EffectRecordV2_validate {_} : simpl never.
#[global] Arguments encode_record {_} : simpl never.
#[global] Arguments decode_record {_} : simpl never.
#[global] Arguments EffectRecordV2_canonical_bytes {_} : simpl never.
#[global] Arguments decode_disposition : simpl never.
#[global] Arguments encode_comparison_snapshot : simpl never.
#[global] Arguments encode_comparison_platform : simpl never.
#[global] Arguments encode_comparison_view {_} : simpl never.
#[global] Arguments record_malformed : simpl never.
#[global] Arguments disposition_malformed : simpl never.

(** * Records, shapes and closures round trip

    [NestedCodec] instances for the three top-level objects: a valid closure,
    shape or record has exactly one canonical byte string, and the decoder
    accepts exactly the canonical byte strings of valid values. Normalization of
    a closure is what makes the decoder's [ObservationClosureV1::new] the
    identity on what was encoded. *)

(** ** Normalization *)

Definition strictly_before (a b : ObservationDependencyV1) : Prop :=
  compare_dependency_identity a b = Lt.

Lemma windows_Sorted l :
  windows_any (λ a b, match compare_dependency_identity a b with Lt => false | _ => true end) l
    = false ↔ Sorted strictly_before l.
Proof.
  induction l as [|x [|y l] IH].
  - split; [constructor|done].
  - split; [repeat constructor|done].
  - change (windows_any ?p (x :: y :: l)) with (p x y || windows_any p (y :: l)).
    rewrite orb_false_iff, IH. split.
    + intros [Hxy Hl]. constructor; [done|]. constructor. unfold strictly_before.
      by case_match.
    + inversion_clear 1 as [|? ? Hl Hx]. inversion_clear Hx as [|? ? Hxy]. by rewrite Hxy.
Qed.

Lemma stable_sort_sorted l :
  Sorted strictly_before l → stable_sort compare_dependency_identity l = l.
Proof.
  induction 1 as [|x l Hs IH Hx]; [done|]. cbn. rewrite IH.
  destruct Hx as [|y l Hxy]; [done|]. cbn. by rewrite Hxy.
Qed.

Lemma merge_sorted acc l :
  Sorted strictly_before (acc ++ l) → merge_dependencies acc l = Ok (acc ++ l).
Proof.
  revert acc; induction l as [|x l IH]; intros acc Hs; cbn [merge_dependencies].
  { by rewrite app_nil_r. }
  assert (merge_dependencies (acc ++ [x]) l = Ok (acc ++ x :: l)) as Hrec.
  { rewrite IH by by rewrite <- app_assoc. by rewrite <- app_assoc. }
  destruct (list.last acc) as [y|] eqn:Hl; [|done].
  apply last_Some in Hl as [acc' ->]. rewrite <- app_assoc in Hs.
  assert (strictly_before y x) as Hyx.
  { clear - Hs. induction acc' as [|z acc' IH]; cbn in Hs.
    - inversion_clear Hs as [|? ? _ Hx]. by inversion_clear Hx.
    - inversion_clear Hs. by apply IH. }
  by rewrite Hyx.
Qed.

Lemma closure_validate_sorted c :
  ObservationClosureV1_validate c = Ok () → Sorted strictly_before (closure_dependencies c).
Proof.
  unfold ObservationClosureV1_validate. case_match eqn:E; [done|]. intros _.
  rewrite !orb_false_iff in E. destruct E as [[_ E] _]. by apply windows_Sorted.
Qed.

Lemma closure_new_valid c :
  ObservationClosureV1_validate c = Ok () →
  ObservationClosureV1_new (closure_dependencies c) = Ok c.
Proof.
  intros Hv. pose proof (closure_validate_sorted c Hv) as Hs. unfold ObservationClosureV1_new.
  rewrite stable_sort_sorted, (merge_sorted [] _) by done. rewrite bind_Ok. destruct c. cbn.
  by rewrite Hv.
Qed.

Lemma stable_insert_elem {A} (cmp : A → A → comparison) x l : stable_insert cmp x l ≡ₚ x :: l.
Proof.
  induction l as [|y l IH]; [done|]. cbn. case_match; [done..|]. rewrite IH. constructor.
Qed.

Lemma stable_sort_Permutation {A} (cmp : A → A → comparison) l : stable_sort cmp l ≡ₚ l.
Proof. induction l as [|x l IH]; [done|]. cbn. by rewrite stable_insert_elem, IH. Qed.

Lemma merge_incl acc l r :
  merge_dependencies acc l = Ok r → ∀ d, d ∈ r → d ∈ acc ∨ d ∈ l.
Proof.
  revert acc; induction l as [|x l IH]; intros acc; cbn [merge_dependencies].
  { intros [= <-]. auto. }
  assert (∀ d, merge_dependencies (acc ++ [x]) l = Ok r → d ∈ r → d ∈ acc ∨ d ∈ x :: l) as Hpush.
  { intros d Hm Hd. destruct (IH _ Hm d Hd) as [Ha|]; [|by right; right].
    apply elem_of_app in Ha as [|Hx]; [by left|]. right. by apply list_elem_of_singleton in Hx as ->; left. }
  intros H d Hd. destruct (list.last acc) as [y|]; [|by apply Hpush].
  destruct (compare_dependency_identity y x); [|by apply Hpush..].
  case_bool_decide; [|done]. destruct (IH _ H d Hd); [by left|by right; right].
Qed.

Lemma closure_new_Ok ds c :
  ObservationClosureV1_new ds = Ok c →
  ObservationClosureV1_validate c = Ok () ∧ ∀ d, d ∈ closure_dependencies c → d ∈ ds.
Proof.
  unfold ObservationClosureV1_new.
  intros (l & Hm & ([] & Hv & [= <-])%result_bind_Ok)%result_bind_Ok. split; [done|].
  intros d Hd. destruct (merge_incl _ _ _ Hm d Hd) as [Hn|Hs]; [by inversion Hn|].
  by rewrite stable_sort_Permutation in Hs.
Qed.

(** ** Closures *)

Ltac pose_extra ::= fail.

Definition valid_closure (c : ObservationClosureV1) : Prop :=
  ObservationClosureV1_wf c ∧ ObservationClosureV1_validate c = Ok ().

#[global] Instance closure_codec :
  NestedCodec valid_closure ObservationClosureV1_canonical_bytes decode_observation_closure.
Proof.
  split.
  - intros a b [Hwf Hv] H. unfold ObservationClosureV1_canonical_bytes in H.
    rewrite Hv, bind_Ok in H. pose proof H as Henc. pose proof (closure_new_valid _ Hv) as Hnew.
    destruct a as [ds]. unfold ObservationClosureV1_wf in Hwf. cbn in Hwf, Hnew.
    unfold encode_observation_closure in H. unfold_builder. cbn in H. enc_inv H. pose_complete.
    apply parse_top_built in H as (Hs & H); [|by vm_compute|solve_fields]. split; [done|].
    unfold decode_observation_closure. rewrite H, bind_Ok, expect_shape, bind_Ok by done. dec_run.
    by rewrite (proj2 (require_reencoding_Ok _ b ())).
  - intros b a Hb H. unfold decode_observation_closure in H. open_top H Hb. dec_inv H.
    injection H as <-.
    destruct (closure_new_Ok _ _ D) as [Hv Hin]. apply require_reencoding_Ok in D0. split.
    + split; [|done]. unfold ObservationClosureV1_wf. apply list.Forall_forall. intros d Hd.
      rewrite list.Forall_forall in H0. by apply H0, Hin.
    + unfold ObservationClosureV1_canonical_bytes. by rewrite Hv.
Qed.

(** ** Shapes *)

Lemma path_list_complete ps p :
  Forall is_sandbox_path ps → encode_list ps = Ok p →
  is_sized p ∧ decode_list p = Ok ps ∧ try_map decode_sandbox_path ps = Ok ps.
Proof.
  intros Hps He. destruct (list_complete is_sandbox_path Ok decode_sandbox_path ps ps p) as (? & ? & ?);
    [done|apply try_map_Ok_id|done|]. apply encode_list_Ok in He as (_ & _ & ?). done.
Qed.

Ltac pose_extra ::=
  match goal with E : encode_list ?ps = Ok ?p, Hps : Forall is_sandbox_path ?ps |- _ =>
    destruct (path_list_complete ps p Hps E) as (? & ? & ?); clear E end.

Section top.
Context `{Blake3}.

Definition valid_shape (s : ShapeV1) : Prop := ShapeV1_wf s ∧ ShapeV1_validate s = Ok ().

#[global] Instance shape_codec : NestedCodec valid_shape ShapeV1_canonical_bytes decode_shape.
Proof.
  split.
  - intros a b [Hwf Hv] H'. unfold ShapeV1_canonical_bytes in H'. rewrite Hv, bind_Ok in H'.
    pose proof H' as Henc. destruct a. unfold ShapeV1_wf in Hwf. cbn in Hwf. destruct_and? Hwf.
    unfold encode_shape in H'. unfold_builder. cbn in H'. enc_inv H'. pose_complete.
    apply parse_top_built in H' as (Hs & H'); [|by vm_compute|solve_fields]. split; [done|].
    unfold decode_shape. rewrite H', bind_Ok, expect_shape, bind_Ok by done. dec_run.
    by rewrite (proj2 (require_reencoding_Ok _ b ())).
  - intros b a Hb H'. unfold decode_shape in H'. open_top H' Hb. dec_inv H'. injection H' as <-.
    match goal with D : require_reencoding _ _ = Ok _ |- _ => apply require_reencoding_Ok in D end.
    split; [split; [unfold ShapeV1_wf; cbn; solve_wf|done]|].
    unfold ShapeV1_canonical_bytes. match goal with D : ShapeV1_validate _ = Ok () |- _ =>
      by rewrite D end.
Qed.

(** ** Records *)

(** What a successful validation has checked, in order. *)
Record record_checks (r : EffectRecordV2) (closure : ObservationClosureV1)
    (shape_key request_key : list Z) : Prop := {
  check_schema : record_schema r = EFFECT_IR_V2_SCHEMA;
  check_profile_id : record_profile_id r = LINUX_PYTEST_PROFILE_ID;
  check_record_id : id_is_nil (record_id r) = false;
  check_snapshot_id : id_is_nil (snapshot_id (record_sealed_snapshot r)) = false;
  check_trace : TraceCompletenessV2_validate (record_trace r) = Ok ();
  check_shape : ShapeV1_validate (record_shape r) = Ok ();
  check_closure : ObservationClosureV1_validate (record_observation_closure r) = Ok ();
  check_observations :
    ObservationClosureV1_from_observations (record_observations r) = Ok closure;
  check_shape_key : ShapeV1_key (record_shape r) = Ok shape_key;
  check_request_key : ShapeV1_request_key (record_shape r) closure = Ok request_key;
  check_fields : record_malformed r closure shape_key request_key = false;
  check_candidate :
    is_candidate (record_disposition r) = true → has_complete_success_result r = true;
  check_disposition : disposition_malformed r = false;
}.

Lemma record_validate_Ok r :
  EffectRecordV2_validate r = Ok () ↔
  ∃ closure shape_key request_key, record_checks r closure shape_key request_key.
Proof.
  unfold EffectRecordV2_validate. split.
  - case_match eqn:E; [done|]. rewrite !orb_false_iff, !negb_false_iff, !bytes_eqb_eq in E.
    destruct E as [[[? ?] ?] ?].
    intros ([] & ? & ([] & ? & ([] & ? & (c & ? & (sk & ? & (rk & ? & H')%result_bind_Ok)
      %result_bind_Ok)%result_bind_Ok)%result_bind_Ok)%result_bind_Ok)%result_bind_Ok.
    exists c, sk, rk. destruct (record_malformed r c sk rk) eqn:?; [done|].
    destruct (is_candidate (record_disposition r) && negb (has_complete_success_result r)) eqn:Hc;
      [done|]. destruct (disposition_malformed r) eqn:?; [done|].
    split; try done. intros Hd. rewrite Hd in Hc. by apply negb_false_iff in Hc.
  - intros (c & sk & rk & []).
    rewrite check_schema0, check_profile_id0, check_record_id0, check_snapshot_id0, !bytes_eqb_refl.
    cbn [negb orb]. rewrite check_trace0, bind_Ok, check_shape0, bind_Ok, check_closure0, bind_Ok.
    rewrite check_observations0, bind_Ok, check_shape_key0, bind_Ok, check_request_key0, bind_Ok.
    rewrite check_fields0, check_disposition0.
    destruct (is_candidate (record_disposition r)); [|done]. by rewrite check_candidate0.
Qed.

Lemma from_observations_details observations c :
  ObservationClosureV1_from_observations observations = Ok c →
  Forall (λ o, Details.ObservationDetailV1_validate (observation_canonical_detail o) = Ok ())
    observations.
Proof.
  intros (ds & Hm%try_map_Forall2 & _)%result_bind_Ok. revert Hm.
  induction 1 as [|o d observations ds Ho _ IH]; constructor; [|done].
  unfold observation_dependency in Ho. case_match; [done|].
  apply result_bind_Ok in Ho as (v & ([] & ? & _)%result_bind_Ok & _). done.
Qed.

Definition valid_record (r : EffectRecordV2) : Prop :=
  EffectRecordV2_wf r ∧ EffectRecordV2_validate r = Ok ().

Lemma record_observations_valid r :
  valid_record r → Forall valid_observation (record_observations r).
Proof.
  intros [Hwf (c & sk & rk & Hr)%record_validate_Ok].
  pose proof (from_observations_details _ _ (check_observations _ _ _ _ Hr)) as Hd.
  assert (Forall ObservationV2_wf (record_observations r)) as Ho by (unfold EffectRecordV2_wf in Hwf; tauto).
  apply list.Forall_forall. intros o Hin. rewrite list.Forall_forall in Hd, Ho.
  specialize (Hd o Hin). destruct (Ho o Hin) as (? & ? & ? & ?). by split_and!.
Qed.

#[global] Instance disposition_kind :
  KindCodec EffectRecordDispositionV2_as_u16 decode_disposition.
Proof. kind_instance. Qed.

#[global] Instance id_codec : Codec is_id Ok (exact 16).
Proof.
  split.
  - by intros a b [? _] [= <-].
  - intros a b [_ ?] [= <-] _. by apply exact_Ok.
  - intros b a Hb [-> ?]%exact_inv; done.
Qed.

Lemma id_option_complete o p :
  option_wf is_id o → encode_optional o = Ok p →
  is_sized p ∧ decode_optional p = Ok o ∧ try_option (exact 16) o = Ok o.
Proof.
  intros Ho He.
  destruct (optional_complete is_id Ok (exact 16) o o p) as (? & ? & ?);
    [by intros a ->|by destruct o|done|]. split; [|done]. by apply encode_optional_Ok in He as [_ ?].
Qed.

Lemma none_complete p :
  encode_optional None = Ok p → is_sized p ∧ decode_optional p = Ok None.
Proof.
  intros He. destruct (id_option_complete None p I He) as (? & ? & _). done.
Qed.

Ltac pose_extra ::=
  match goal with
  | E : encode_optional None = Ok ?p |- _ =>
      destruct (none_complete p E) as (? & ?); clear E
  | E : encode_optional ?o = Ok ?p |- _ =>
      is_var o; destruct (id_option_complete o p ltac:(assumption) E) as (? & ? & ?); clear E
  end.

#[global] Instance record_codec :
  NestedCodec valid_record EffectRecordV2_canonical_bytes decode_record.
Proof.
  split.
  - intros a b Hr H'. pose proof (record_observations_valid _ Hr) as Hobs.
    destruct Hr as [Hwf Hv]. pose proof Hv as (c & sk & rk & Hc)%record_validate_Ok.
    pose proof (check_trace _ _ _ _ Hc) as Ht. pose proof (check_shape _ _ _ _ Hc) as Hsh.
    pose proof (check_closure _ _ _ _ Hc) as Hcl. clear Hc.
    unfold EffectRecordV2_canonical_bytes in H'. rewrite Hv, bind_Ok in H'. pose proof H' as Henc.
    destruct a. unfold EffectRecordV2_wf in Hwf. cbn in Hwf, Hobs, Ht, Hsh, Hcl. destruct_and? Hwf.
    assert (valid_trace record_trace) by by split.
    assert (valid_shape record_shape) by by split.
    assert (valid_closure record_observation_closure) by by split.
    unfold encode_record in H'. unfold_builder. cbn in H'. enc_inv H'.
    pose_complete.
    apply parse_top_built in H' as (Hs & H'); [|by vm_compute|solve_fields]. split; [done|].
    unfold decode_record. rewrite H', bind_Ok, expect_shape, bind_Ok by done. dec_run.
    by rewrite (proj2 (require_reencoding_Ok _ b ())).
  - intros b a Hb H'. unfold decode_record in H'. open_top H' Hb. dec_inv H'. injection H' as <-.
    match goal with D : require_reencoding _ _ = Ok _ |- _ => apply require_reencoding_Ok in D end.
    assert (option_wf is_id v3).
    { apply option_wf_intro. by destruct (optional_sound is_id Ok (exact 16) l18 v2 v3) as [? _]. }
    repeat match goal with
    | E : valid_trace _ |- _ => destruct E as [? _]
    | E : valid_shape _ |- _ => destruct E as [? _]
    | E : valid_closure _ |- _ => destruct E as [? _]
    end.
    assert (Forall ObservationV2_wf v11).
    { eapply list.Forall_impl; [eassumption|]. intros o (? & ? & ? & ? & _). by split_and!. }
    split; [split; [unfold EffectRecordV2_wf; cbn; solve_wf|assumption]|].
    unfold EffectRecordV2_canonical_bytes. match goal with D : EffectRecordV2_validate _ = Ok () |- _ =>
      by rewrite D end.
Qed.
End top.
