(* ===== verification/Sample.v ===== *)
(** * A concrete record

    A toy hash with 32-byte outputs and, under it, a primary candidate and a
    shadow candidate of one run, complete and mutually linked. They show that
    the hypotheses of the record theorems hold together. *)

From Stdlib Require Import String.
From S2P Require Import Prelude Monad Bytes WaitStatus ContractTypes Canonical CanonicalSpec.
From S2P Require Import CanonicalCodec RecordTypes Paths RecordValidation RecordCodec Digest.
From S2P Require Import IdentityWire Identity IdentityRoundTrip RecordTop.

Definition value_or {A} (fallback : A) (r : contract A) : A :=
  match r with Ok a => a | Err _ => fallback end.

(** The checksum of the message in the first byte, the rest constant. *)
#[global] Instance sample_hash : Blake3 := λ _ message,
  1 + foldl Z.add 0 message mod 251 :: replicate 31 1.

#[global] Instance sample_hash_ok : Blake3Ok.
Proof.
  intros context message. split; [|done]. unfold blake3_derive_key, sample_hash.
  constructor; [|by apply Forall_replicate].
  pose proof (Z.mod_pos_bound (foldl Z.add 0 message) 251). unfold is_u8. lia.
Qed.

Module Sample.
Definition digest (n : Z) : list Z := replicate 32 n.
Definition id (n : Z) : list Z := replicate 16 n.

Definition policies : PolicyDigestsV1 :=
  mkPolicyDigests (digest 1) (digest 2) (digest 3) (digest 4) (digest 5) (digest 6) (digest 7)
    (digest 8) (digest 9) (digest 10).

Definition python : list Z := bstr "/workspace/.venv/bin/python".

Definition chain : ExecutableChainV1 :=
  mkChain python
    [mkHop python (digest 11) (Hops.Symlink (bstr "../../lib/python3") (bstr "/workspace/lib/python3"));
     mkHop (bstr "/workspace/lib/python3") (digest 12) Hops.TerminalRegular].

Definition selector : PytestSelectorV1 :=
  mkSelector (bstr "tests/test_a.py::test_one") (bstr "tests/test_a.py") [bstr "test_one"].

Definition invocation : PytestInvocationIdentityV1 :=
  mkInvocation
    [bstr ".venv/bin/python"; bstr "-I"; bstr "-m"; bstr "pytest";
     bstr "tests/test_a.py::test_one"]
    (bstr ".") [selector] ClosedEof.

Definition environment : EnvironmentBindingV1 :=
  mkEnvironment (digest 13) (digest 14) (digest 15) 2 (digest 7).

Definition profile_digest : list Z :=
  value_or [] (ProfileCommitmentV1_digest (mkProfile policies)).

Definition shape : ShapeV1 :=
  mkShape LINUX_PYTEST_SHAPE_V1_SCHEMA LINUX_PYTEST_PROFILE_ID profile_digest (digest 16)
    invocation environment [bstr "/workspace/tests/test_a.py"]
    (value_or [] (ExecutableChainV1_digest chain))
    (value_or [] (ExecutableChainV1_canonical_bytes chain))
    (digest 17) X86_64 (digest 18) (digest 19) policies.

Definition observation : ObservationV2 :=
  mkObservation 1 1 ObservationKinds.File (bstr "/workspace/tests/test_a.py")
    (ObservationDetails.File (digest 20) 100).

Definition closure : ObservationClosureV1 :=
  value_or (mkClosure []) (ObservationClosureV1_from_observations [observation]).

Definition counters : TraceCountersV1 :=
  mkTraceCounters 1 1 1 1 3 1 1 1 1 1 1 0 0 0 0 0 0 1.

Definition trace : TraceCompletenessV2 :=
  mkTrace EFFECT_IR_V2_REQUIRED_MASK EFFECT_IR_V2_REQUIRED_MASK 0 0 counters None.

Definition result : EffectResultV2 :=
  mkResult (StreamCaptures.Complete (mkBlobRef (digest 21) 10))
    (StreamCaptures.Complete (mkBlobRef (digest 22) 0)) 0.

Definition record (id snapshot : list Z) (namespaces : Z)
    (disposition : EffectRecordDispositionV2) (primary : option (list Z)) (created : Z) :
    EffectRecordV2 :=
  mkRecord EFFECT_IR_V2_SCHEMA id LINUX_PYTEST_PROFILE_ID profile_digest
    (value_or [] (ShapeV1_key shape)) (value_or [] (ShapeV1_request_key shape closure))
    invocation (digest 16) environment
    (mkSnapshot snapshot (digest 23) (digest 17) (mkBlobRef (digest 24) 1000) profile_digest)
    (mkPlatform X86_64 (bstr "6.8.0") (digest 18)
       (mkNamespaceIds namespaces (namespaces + 1) (namespaces + 2) (namespaces + 3)
          (namespaces + 4) (namespaces + 5))
       (digest 19) policies)
    trace [observation] [] [] (digest 23) result disposition None primary created shape closure.

Definition primary : EffectRecordV2 := record (id 1) (id 2) 4026531836 PrimaryCandidate None 5.
Definition shadow : EffectRecordV2 :=
  record (id 3) (id 4) 4026532000 ShadowCandidate (Some (id 1)) 9.

Definition primary_bytes : list Z := value_or [] (EffectRecordV2_canonical_bytes primary).
Definition shadow_bytes : list Z := value_or [] (EffectRecordV2_canonical_bytes shadow).

Lemma primary_encodes : EffectRecordV2_canonical_bytes primary = Ok primary_bytes.
Proof. vm_compute. reflexivity. Qed.

Lemma primary_valid : EffectRecordV2_validate primary = Ok ().
Proof. vm_compute. reflexivity. Qed.

(** What decodes is well typed. *)
Lemma decoded_wf b r :
  forallb (λ b, (0 <=? b) && (b <? 256)) b = true →
  (len b <=? EFFECT_IR_V2_MAX_CANONICAL_BYTES) = true → decode_record b = Ok r →
  EffectRecordV2_wf r ∧ is_bytes b.
Proof.
  intros Hb%is_bytes_check Hl%Z.leb_le Hd.
  destruct (nested_sound (wf:=valid_record) b r (conj Hb Hl) Hd) as [[Hw _] _].
  exact (conj Hw Hb).
Qed.

Lemma primary_wf : EffectRecordV2_wf primary ∧ is_bytes primary_bytes.
Proof. apply decoded_wf; vm_compute; reflexivity. Qed.

Lemma shadow_wf : EffectRecordV2_wf shadow ∧ is_bytes shadow_bytes.
Proof. apply decoded_wf; vm_compute; reflexivity. Qed.

(** The two records with their bytes and blobs. *)
Definition canonical (r : EffectRecordV2) : CanonicalEffectRecordV2 :=
  value_or (mkCanonicalRecord r [] (mkBlobRef [] 0)) (CanonicalEffectRecordV2_from_record r).
End Sample.
