(* ===== verification/RecordTheorems.v ===== *)
(** * Effect records and their closures

    [ObservationClosureV1::new] sorts and merges its dependencies: its result is
    the one valid closure with the same set of dependencies, and it refuses
    when there is none. The comparison is a total order on identities. The second
    part holds the theorems on effect records. *)

From Stdlib Require Import String Sorting.Sorted.
From stdpp Require Import sorting.
From S2P Require Import Prelude Monad Bytes WaitStatus ContractTypes Canonical CanonicalSpec.
From S2P Require Import CanonicalParse CanonicalCodec RecordTypes Paths RecordValidation.
From S2P Require Import RecordCodec RecordRoundTrip Digest IdentityWire Identity.
From S2P Require Import IdentityRoundTrip RecordTop Sample.

(** ** The order *)

Lemma bytes_compare_opp a b : bytes_compare b a = CompOpp (bytes_compare a b).
Proof.
  revert b; induction a as [|x a IH]; intros [|y b]; cbn; try done.
  rewrite (Z.compare_antisym x y). destruct (x ?= y); cbn; auto.
Qed.

Lemma bytes_compare_eq a b : bytes_compare a b = Eq ↔ a = b.
Proof.
  revert b; induction a as [|x a IH]; intros [|y b]; cbn; try done.
  destruct (Z.compare_spec x y) as [->|?|?].
  - rewrite IH. naive_solver.
  - split; [done|]. intros [= ? ?]. lia.
  - split; [done|]. intros [= ? ?]. lia.
Qed.

Lemma bytes_compare_lt_trans a b c :
  bytes_compare a b = Lt → bytes_compare b c = Lt → bytes_compare a c = Lt.
Proof.
  revert b c; induction a as [|x a IH]; intros [|y b] [|z c]; cbn; try done.
  destruct (Z.compare_spec x y) as [->|?|?]; try done; destruct (Z.compare_spec y z) as [->|?|?]; try done.
  - apply IH.
  - intros _ _. by rewrite (proj2 (Z.compare_lt_iff x z)) by lia.
  - intros _ _. by rewrite (proj2 (Z.compare_lt_iff x z)) by lia.
Qed.

Lemma then_with_opp o p o' p' : o' = CompOpp o → p' = CompOpp p →
  then_with o' p' = CompOpp (then_with o p).
Proof. intros -> ->. by destruct o. Qed.

Abbreviation cmp := compare_dependency_identity.
Abbreviation kind_code d := (ObservationKinds.ObservationKindV2_as_u16 (dependency_kind d)).

Lemma cmp_opp a b : cmp b a = CompOpp (cmp a b).
Proof.
  unfold compare_dependency_identity. repeat apply then_with_opp;
    [apply Z.compare_antisym|apply bytes_compare_opp..].
Qed.

Lemma cmp_lt_iff a b :
  cmp a b = Lt ↔
  kind_code a < kind_code b ∨
  kind_code a = kind_code b ∧ (bytes_compare (dependency_subject a) (dependency_subject b) = Lt ∨
    dependency_subject a = dependency_subject b ∧
    bytes_compare (dependency_key a) (dependency_key b) = Lt).
Proof.
  unfold compare_dependency_identity.
  destruct (Z.compare_spec (kind_code a) (kind_code b)) as [->|?|?]; cbn; [|naive_solver lia..].
  destruct (bytes_compare (dependency_subject a) (dependency_subject b)) eqn:E; cbn.
  - apply bytes_compare_eq in E. naive_solver lia.
  - naive_solver.
  - split; [done|]. intros [?|[_ [?|[Hs _]]]]; [lia|done|].
    by rewrite (proj2 (bytes_compare_eq _ _) Hs) in E.
Qed.

Lemma strictly_before_trans a b c :
  strictly_before a b → strictly_before b c → strictly_before a c.
Proof.
  unfold strictly_before. rewrite !cmp_lt_iff.
  intros [?|[Ek1 [?|[Es1 ?]]]] [?|[Ek2 [?|[Es2 ?]]]]; try (left; lia); right;
    (split; [lia|]).
  - left. by eapply bytes_compare_lt_trans.
  - left. by rewrite <- Es2.
  - left. by rewrite Es1.
  - right. split; [congruence|]. by eapply bytes_compare_lt_trans.
Qed.

#[global] Instance strictly_before_transitive : Transitive strictly_before.
Proof. intros a b c. apply strictly_before_trans. Qed.

Lemma cmp_refl a : cmp a a = Eq.
Proof. pose proof (cmp_opp a a) as H. by destruct (cmp a a). Qed.

#[global] Instance strictly_before_antisymm : AntiSymm (=) strictly_before.
Proof. intros a b H H'. unfold strictly_before in *. rewrite cmp_opp, H in H'. done. Qed.

(** Weak order. *)
Definition not_after (a b : ObservationDependencyV1) : Prop := cmp a b ≠ Gt.

Lemma cmp_eq_iff a b :
  cmp a b = Eq ↔ dependency_kind a = dependency_kind b ∧
    dependency_subject a = dependency_subject b ∧ dependency_key a = dependency_key b.
Proof.
  unfold compare_dependency_identity. split.
  - destruct (Z.compare_spec (kind_code a) (kind_code b)) as [Hk|?|?]; cbn; [|done..].
    destruct (bytes_compare (dependency_subject a) (dependency_subject b)) eqn:Es; cbn; [|done..].
    intros Ek%bytes_compare_eq. apply bytes_compare_eq in Es. split; [|done].
    destruct (dependency_kind a), (dependency_kind b); done.
  - intros (-> & -> & ->). rewrite Z.compare_refl, !(proj2 (bytes_compare_eq _ _)); done.
Qed.

Lemma not_after_trans a b c : not_after a b → not_after b c → not_after a c.
Proof.
  unfold not_after. intros Hab Hbc Hac.
  destruct (cmp a b) eqn:Eab; [|clear Hab|done].
  - apply cmp_eq_iff in Eab. apply Hbc. rewrite <- Hac. unfold compare_dependency_identity.
    by destruct Eab as (-> & -> & ->).
  - destruct (cmp b c) eqn:Ebc; [|clear Hbc|done].
    + apply cmp_eq_iff in Ebc. assert (cmp a c = Lt) as Hlt; [|congruence].
      rewrite <- Eab. unfold compare_dependency_identity. by destruct Ebc as (-> & -> & ->).
    + by rewrite (strictly_before_trans a b c) in Hac.
Qed.

(** ** The sort *)

Lemma stable_insert_sorted x l :
  StronglySorted not_after l → StronglySorted not_after (stable_insert cmp x l).
Proof.
  induction 1 as [|y l Hs IH Hy]; cbn; [repeat constructor|].
  destruct (cmp x y) eqn:E.
  1,2: constructor; [by constructor|]; assert (not_after x y) by (unfold not_after; congruence);
    constructor; [done|]; eapply list.Forall_impl; [exact Hy|]; intros z; by apply not_after_trans.
  constructor; [done|]. rewrite stable_insert_elem. constructor; [|done].
  unfold not_after. by rewrite cmp_opp, E.
Qed.

Lemma stable_sort_ordered l : StronglySorted not_after (stable_sort cmp l).
Proof. induction l as [|x l IH]; cbn; [constructor|]. by apply stable_insert_sorted. Qed.

(** ** The merge *)

Lemma Sorted_snoc acc x :
  Sorted strictly_before acc → (∀ y, list.last acc = Some y → strictly_before y x) →
  Sorted strictly_before (acc ++ [x]).
Proof.
  induction 1 as [|z acc Hs IH Hz]; intros Hl; cbn; [repeat constructor|].
  constructor.
  - apply IH. intros y Hy. apply Hl. by rewrite last_cons, Hy.
  - destruct acc as [|w acc]; cbn; constructor; [by apply Hl|]. by inversion Hz.
Qed.

Lemma merge_keeps acc l r :
  merge_dependencies acc l = Ok r → ∀ d, d ∈ acc ∨ d ∈ l → d ∈ r.
Proof.
  revert acc; induction l as [|x l IH]; intros acc; cbn [merge_dependencies].
  { intros [= <-] d [?|Hd]; [done|by inversion Hd]. }
  assert (∀ d, merge_dependencies (acc ++ [x]) l = Ok r → d ∈ acc ∨ d ∈ x :: l → d ∈ r) as Hpush.
  { intros d Hm Hd. apply (IH _ Hm). rewrite elem_of_app, list_elem_of_singleton.
    rewrite elem_of_cons in Hd. tauto. }
  intros H d Hd. destruct (list.last acc) as [y|] eqn:Hl; [|by apply Hpush].
  destruct (cmp y x); [|by apply Hpush..].
  case_bool_decide as Hyx; [|done]. apply (IH _ H). rewrite elem_of_cons in Hd.
  destruct Hd as [?|[->|?]]; [by left| |by right]. subst. left.
  apply last_Some_elem_of in Hl. done.
Qed.

Lemma merge_succeeds acc l :
  Sorted strictly_before acc → StronglySorted not_after l →
  (∀ y, list.last acc = Some y → Forall (not_after y) l) →
  (∀ a b, a ∈ acc ++ l → b ∈ acc ++ l → cmp a b = Eq → a = b) →
  ∃ r, merge_dependencies acc l = Ok r ∧ Sorted strictly_before r.
Proof.
  revert acc; induction l as [|x l IH]; intros acc Hacc Hl Hlast Huniq; cbn [merge_dependencies].
  { eauto. }
  inversion_clear Hl as [|? ? Hl' Hx].
  assert ((∀ y, list.last acc = Some y → strictly_before y x) →
    ∃ r, merge_dependencies (acc ++ [x]) l = Ok r ∧ Sorted strictly_before r) as Hpush.
  { intros Hb. apply IH; [by apply Sorted_snoc|done| |].
    - intros y. rewrite last_snoc. intros [= <-]. done.
    - intros a b. rewrite <- app_assoc. apply Huniq. }
  destruct (list.last acc) as [y|] eqn:Hla; [|by apply Hpush].
  specialize (Hlast y eq_refl). apply Forall_cons_1 in Hlast as [Hyx Hyl].
  destruct (cmp y x) eqn:E; [| |done].
  - rewrite bool_decide_true.
    + apply IH; [done|done|intros ? Hy; rewrite Hla in Hy; by injection Hy as <-|]. intros a b Ha Hb. apply Huniq;
      rewrite elem_of_app, elem_of_cons in *; tauto.
    + apply last_Some_elem_of in Hla. apply Huniq; [|rewrite elem_of_app, elem_of_cons; tauto|done].
      rewrite elem_of_app. by left.
  - apply Hpush. by intros ? [= <-].
Qed.

Lemma sorted_NoDup l : Sorted strictly_before l → NoDup l.
Proof.
  intros Hs. apply Sorted_StronglySorted in Hs; [|apply strictly_before_transitive].
  induction Hs as [|x l _ IH Hx]; constructor; [|done].
  intros Hin. rewrite list.Forall_forall in Hx. apply Hx in Hin.
  unfold strictly_before in Hin. by rewrite cmp_refl in Hin.
Qed.

Lemma sorted_unique l k :
  Sorted strictly_before l → Sorted strictly_before k → (∀ d, d ∈ l ↔ d ∈ k) → l = k.
Proof.
  intros Hl Hk He. apply (Sorted_unique strictly_before); [done..|].
  apply NoDup_Permutation; [by apply sorted_NoDup..|done].
Qed.

Lemma sorted_identity_unique l a b :
  Sorted strictly_before l → a ∈ l → b ∈ l → cmp a b = Eq → a = b.
Proof.
  intros Hs%Sorted_StronglySorted; [|apply strictly_before_transitive].
  induction Hs as [|x l _ IH Hx]; intros Ha Hb E; [by inversion Ha|].
  rewrite list.Forall_forall in Hx. unfold strictly_before in Hx.
  apply elem_of_cons in Ha as [->|Ha], Hb as [->|Hb]; [done| | |by apply IH].
  - by rewrite (Hx b Hb) in E.
  - by rewrite cmp_opp, (Hx a Ha) in E.
Qed.

Lemma closure_new_elements ds c :
  ObservationClosureV1_new ds = Ok c →
  ObservationClosureV1_validate c = Ok () ∧ ∀ d, d ∈ closure_dependencies c ↔ d ∈ ds.
Proof.
  intros H. destruct (closure_new_Ok _ _ H) as [Hv Hin]. split; [done|].
  intros d. split; [apply Hin|]. intros Hd. unfold ObservationClosureV1_new in H.
  apply result_bind_Ok in H as (l & Hm & ([] & _ & [= <-])%result_bind_Ok).
  apply (merge_keeps _ _ _ Hm). right. by rewrite stable_sort_Permutation.
Qed.

(** Normalizing a list of dependencies yields the closure [c] exactly when
    [c] is valid (strictly sorted by identity, every dependency well formed) and
    has the same dependencies, in any order and with any repetition. So the
    closure does not depend on the order of observations, and two values for one
    identity are refused. *)
Theorem closure_new_exact (ds : list ObservationDependencyV1) (c : ObservationClosureV1) :
  ObservationClosureV1_new ds = Ok c ↔
  ObservationClosureV1_validate c = Ok () ∧ ∀ d, d ∈ closure_dependencies c ↔ d ∈ ds.
Proof.
  split; [apply closure_new_elements|].
  intros [Hv Hin]. pose proof (closure_validate_sorted c Hv) as Hs.
  assert (∀ d, d ∈ stable_sort cmp ds ↔ d ∈ closure_dependencies c) as Hset
    by (intros d; by rewrite stable_sort_Permutation, Hin).
  destruct (merge_succeeds [] (stable_sort cmp ds)) as (r & Hm & Hr);
    [constructor|apply stable_sort_ordered|done| |].
  { intros a b Ha%Hset Hb%Hset. by apply (sorted_identity_unique (closure_dependencies c)). }
  assert (r = closure_dependencies c) as ->.
  { apply sorted_unique; [done..|]. intros d. rewrite <- Hset. split.
    - intros Hd. by destruct (merge_incl _ _ _ Hm d Hd) as [Hn|]; [inversion Hn|].
    - intros Hd. apply (merge_keeps _ _ _ Hm). by right. }
  unfold ObservationClosureV1_new. rewrite Hm. cbn. destruct c as [deps]. cbn in *. by rewrite Hv.
Qed.

(** * Theorems on effect records

    Canonical bytes, what an accepted record guarantees, and what equality of
    two comparison views means. *)

Import Wire.

(** ** Canonical bytes *)

(** A decoder that starts with [RawObject::parse_top] accepts no oversize input. *)
Lemma parse_top_sized {A} b (k : RawObject → contract A) a :
  is_bytes b → (o ← RawObject_parse_top b; k o) = Ok a → is_sized b.
Proof. intros Hb (o & (nested & _ & Hl & _)%parse_top_Ok & _)%result_bind_Ok. done. Qed.

(** C10. The canonical bytes of a record and the strict decoder are inverse: a
    record has the canonical bytes [b] exactly when [b] decodes to that record.
    So an accepted byte string is the only one for its record. *)
Theorem record_bytes_exact `{Blake3} (r : EffectRecordV2) (b : list Z) :
  EffectRecordV2_wf r → is_bytes b →
  EffectRecordV2_canonical_bytes r = Ok b ↔ decode_record b = Ok r.
Proof.
  intros Hwf Hb. split.
  - intros Henc. pose proof Henc as ([] & Hv & _)%result_bind_Ok.
    by destruct (nested_complete (wf:=valid_record) r b (conj Hwf Hv) Henc).
  - intros Hdec. assert (is_sized b) by exact (parse_top_sized b _ r Hb Hdec).
    by destruct (nested_sound (wf:=valid_record) b r).
Qed.

Lemma record_bytes_exact_witness :
  EffectRecordV2_canonical_bytes Sample.primary = Ok Sample.primary_bytes ∧
  decode_record Sample.primary_bytes = Ok Sample.primary.
Proof.
  destruct Sample.primary_wf as [Hwf Hb]. split; [exact Sample.primary_encodes|].
  apply (record_bytes_exact Sample.primary Sample.primary_bytes Hwf Hb).
  exact Sample.primary_encodes.
Defined.

(** C13. Whatever bytes it is given, the record decoder returns only values the
    Rust types hold (integers in their width, digests of 32 bytes, identifiers
    of 16, valid paths and UTF-8 strings) that pass validation, from at most 512
    MiB of input. *)
Theorem decoded_record_well_typed `{Blake3} (b : list Z) (r : EffectRecordV2) :
  is_bytes b → decode_record b = Ok r →
  EffectRecordV2_wf r ∧ EffectRecordV2_validate r = Ok () ∧
  len b <= EFFECT_IR_V2_MAX_CANONICAL_BYTES.
Proof.
  intros Hb Hdec. assert (is_sized b) as Hs by exact (parse_top_sized b _ r Hb Hdec).
  destruct (nested_sound (wf:=valid_record) b r Hs Hdec) as [[? ?] _]. by destruct Hs.
Qed.

Lemma decoded_record_well_typed_witness :
  EffectRecordV2_wf Sample.primary ∧ EffectRecordV2_validate Sample.primary = Ok () ∧
  len Sample.primary_bytes <= EFFECT_IR_V2_MAX_CANONICAL_BYTES.
Proof.
  apply decoded_record_well_typed.
  - apply Sample.primary_wf.
  - vm_compute. reflexivity.
Defined.

(** ** What an accepted record guarantees *)

(** One event the union accepts. *)
Definition event_ok (final_sequence births : Z) (e : union_event) : Prop :=
  e.1.1 ≠ 0 ∧ e.1.1 <= final_sequence ∧ e.1.2 ≠ 0 ∧ e.1.2 <= births ∧ e.2 = true.

Lemma accept_all_iff final_sequence births sequences events :
  accept_all final_sequence births sequences events = true ↔
  Forall (event_ok final_sequence births) events ∧
  NoDup ((λ e : union_event, e.1.1) <$> events) ∧
  ∀ s, s ∈ (λ e : union_event, e.1.1) <$> events → s ∉ sequences.
Proof.
  revert sequences; induction events as [|[[s t] v] events IH]; intros sequences; cbn.
  { split; [|done]. intros _. split; [constructor|]. split; [constructor|]. intros s Hs. inversion Hs. }
  rewrite !andb_true_iff, !negb_true_iff, !Z.eqb_neq, !Z.leb_le, IH, <- not_true_iff_false.
  rewrite contains_iff, list.Forall_cons, list.NoDup_cons. unfold event_ok at 2. cbn.
  setoid_rewrite elem_of_cons. split.
  - intros [[[[[[? ?] ?] ?] ?] Hs] (? & ? & Hd)]. split; [done|]. split.
    + split; [|done]. intros Hin. apply (Hd s Hin). by left.
    + intros x [->|Hx]; [done|]. intros ?. by apply (Hd x Hx); right.
  - intros ([(? & ? & ? & ? & ?) ?] & [Hs ?] & Hd). split_and!; try done.
    + apply Hd. by left.
    + intros x Hx [->|Hin]; [done|]. apply (Hd x); [by right|done].
Qed.

Lemma strictly_increasing_from_iff previous values :
  strictly_increasing_from previous values = true →
  (∀ p, previous = Some p → Forall (λ v, p < v) values) ∧ Sorted Z.lt values.
Proof.
  revert previous; induction values as [|v values IH]; intros previous; cbn.
  { intros _. split; [intros; constructor|constructor]. }
  case_match eqn:E; [done|]. intros [Hp Hs]%IH. specialize (Hp v eq_refl). split.
  - intros p ->. apply Z.leb_gt in E. constructor; [done|].
    eapply list.Forall_impl; [exact Hp|]. cbn. lia.
  - constructor; [done|]. destruct values; constructor. by apply Forall_cons_1 in Hp as [? _].
Qed.

Definition record_sequences (r : EffectRecordV2) : list Z :=
  (observation_sequence <$> record_observations r) ++
  (ambient_sequence <$> record_ambient_events r) ++
  (effect_sequence <$> record_ordered_effects r).

Definition record_tasks (r : EffectRecordV2) : list Z :=
  (observation_logical_task_id <$> record_observations r) ++
  (ambient_logical_task_id <$> record_ambient_events r) ++
  (effect_logical_task_id <$> record_ordered_effects r).

(** The tests of [record_malformed] the theorems below use. *)
Lemma record_fields_ok r c sk rk :
  record_malformed r c sk rk = false →
  record_observation_closure r = c ∧ record_shape_key r = sk ∧ record_request_key r = rk ∧
  valid_trace_event_union r = true ∧
  strictly_increasing (observation_sequence <$> record_observations r) = true ∧
  strictly_increasing (ambient_sequence <$> record_ambient_events r) = true ∧
  strictly_increasing (effect_sequence <$> record_ordered_effects r) = true.
Proof.
  unfold record_malformed. intros Hm. rewrite !orb_false_iff, !negb_false_iff in Hm.
  rewrite !bytes_eqb_eq, !bool_decide_eq_true in Hm. tauto.
Qed.

Lemma union_spec r :
  valid_trace_event_union r = true →
  1 <= len (record_sequences r) <= tc_event_count (trace_counters (record_trace r)) ∧
  NoDup (record_sequences r) ∧
  Forall (λ s, s ≠ 0 ∧ s <= tc_final_sequence (trace_counters (record_trace r)))
    (record_sequences r) ∧
  Forall (λ t, t ≠ 0 ∧ t <= tc_task_birth_count (trace_counters (record_trace r)))
    (record_tasks r).
Proof.
  unfold valid_trace_event_union. destruct (_ ≫= _) as [n|] eqn:En; [|done].
  apply bind_Some in En as (m & [-> _]%u64_checked_add_Some & [-> _]%u64_checked_add_Some).
  case_match eqn:E; [done|]. apply orb_false_iff in E as [E1%Z.eqb_neq E2%Z.ltb_ge].
  intros (Hall & Hnd & _)%accept_all_iff. unfold record_sequences, record_tasks.
  rewrite !fmap_app, <- !list_fmap_compose in Hnd. rewrite !len_app.
  assert (∀ {A B} (f : A → B) l, len (f <$> l) = len l) as Hlen
    by (intros; unfold len; by rewrite length_fmap).
  rewrite !Hlen. pose proof (len_nonneg (record_observations r)).
  pose proof (len_nonneg (record_ambient_events r)). pose proof (len_nonneg (record_ordered_effects r)).
  split; [lia|]. split; [exact Hnd|].
  rewrite !Forall_app, !list.Forall_fmap in *.
  destruct Hall as (Ho & Ha & He).
  split; (split_and!; (eapply list.Forall_impl; [eassumption|]);
    intros x (? & ? & ? & ? & _); by split).
Qed.

Lemma trace_bounds t :
  TraceCompletenessV2_validate t = Ok () →
  tc_event_count (trace_counters t) <= LINUX_PYTEST_V1_MAX_TRACE_EVENTS ∧
  tc_task_birth_count (trace_counters t) <= LINUX_PYTEST_V1_MAX_TASK_LIFETIMES.
Proof.
  unfold TraceCompletenessV2_validate. case_match eqn:E; [done|]. intros _.
  rewrite !orb_false_iff, !Z.ltb_ge in E. tauto.
Qed.


Lemma record_events_nonneg r :
  EffectRecordV2_wf r →
  Forall (λ s, 0 <= s) (record_sequences r) ∧ Forall (λ t, 0 <= t) (record_tasks r).
Proof.
  intros Hwf. unfold EffectRecordV2_wf in Hwf.
  destruct Hwf as (_ & _ & _ & _ & _ & _ & _ & _ & _ & _ & _ & _ & Ho & Ha & He & _).
  unfold record_sequences, record_tasks. rewrite !Forall_app, !list.Forall_fmap.
  split_and!; (eapply list.Forall_impl; [eassumption|]); intros x Hx;
    destruct Hx as ([? _] & [? _] & _); done.
Qed.

(** The closure of a list of observations holds the dependency of each one. *)
Lemma from_observations_elements `{Blake3} observations c :
  ObservationClosureV1_from_observations observations = Ok c →
  ∀ d, d ∈ closure_dependencies c ↔ ∃ o, o ∈ observations ∧ observation_dependency o = Ok d.
Proof.
  intros (ds & Hm%try_map_Forall2 & [_ Hc]%closure_new_elements)%result_bind_Ok d. rewrite Hc. clear Hc.
  induction Hm as [|o d' os ds Ho _ IH].
  - split; [by inversion 1|]. intros (? & Hn & _). by inversion Hn.
  - rewrite elem_of_cons, IH. setoid_rewrite elem_of_cons. split.
    + intros [->|(x & ? & ?)]; eauto.
    + intros (x & [->|?] & Hx); [|eauto]. left. congruence.
Qed.

(** C11. In a record that passes validation every event of the three lists has
    its own sequence number, between 1 and the final sequence, and a task
    between 1 and the number of births (at most 256); there is at least one
    event and at most ten million; each list is in trace order; and the
    observation closure holds exactly the dependencies its own observations
    project to. *)
Theorem accepted_record_events `{Blake3} (r : EffectRecordV2) :
  EffectRecordV2_wf r → EffectRecordV2_validate r = Ok () →
  let counters := trace_counters (record_trace r) in
  NoDup (record_sequences r) ∧
  Forall (λ s, 1 <= s <= tc_final_sequence counters) (record_sequences r) ∧
  Forall (λ t, 1 <= t <= LINUX_PYTEST_V1_MAX_TASK_LIFETIMES) (record_tasks r) ∧
  1 <= len (record_sequences r) <= LINUX_PYTEST_V1_MAX_TRACE_EVENTS ∧
  Sorted Z.lt (observation_sequence <$> record_observations r) ∧
  Sorted Z.lt (ambient_sequence <$> record_ambient_events r) ∧
  Sorted Z.lt (effect_sequence <$> record_ordered_effects r) ∧
  ∀ d, d ∈ closure_dependencies (record_observation_closure r) ↔
    ∃ o, o ∈ record_observations r ∧ observation_dependency o = Ok d.
Proof.
  intros Hwf (c & sk & rk & Hc)%record_validate_Ok counters.
  destruct (record_fields_ok _ _ _ _ (check_fields _ _ _ _ Hc)) as (Hcl & _ & _ & Hu & So & Sa & Se).
  destruct (union_spec r Hu) as (Hn & Hnd & Hseq & Htask).
  destruct (trace_bounds _ (check_trace _ _ _ _ Hc)) as [He Hb].
  assert (Forall (λ s, 0 <= s) (record_sequences r) ∧ Forall (λ t, 0 <= t) (record_tasks r))
    as [Hs0 Ht0] by by apply record_events_nonneg.
  split_and!; try (by eapply strictly_increasing_from_iff); try (by destruct Hn); try done.
  - apply list.Forall_forall. intros s Hs. rewrite list.Forall_forall in Hseq, Hs0.
    specialize (Hseq s Hs). specialize (Hs0 s Hs). cbn in *. unfold counters. lia.
  - apply list.Forall_forall. intros t Ht. rewrite list.Forall_forall in Htask, Ht0.
    specialize (Htask t Ht). specialize (Ht0 t Ht). cbn in *. lia.
  - lia.
  - rewrite Hcl. apply from_observations_elements, Hc.
Qed.

Lemma accepted_record_events_witness :
  NoDup (record_sequences Sample.primary) ∧ Forall (λ s, 1 <= s <= 1) (record_sequences Sample.primary).
Proof.
  destruct (accepted_record_events Sample.primary (proj1 Sample.primary_wf) Sample.primary_valid)
    as (Hnd & Hseq & _).
  exact (conj Hnd Hseq).
Defined.

(** What a complete trace has counted. *)
Definition trace_balanced (t : TraceCompletenessV2) : Prop :=
  let c := trace_counters t in
  trace_complete t = Dimensions.EffectBitmap_REQUIRED_V2 ∧ trace_unsupported t = 0 ∧
  trace_violation t = 0 ∧ trace_first_failure t = None ∧
  tc_final_sequence c = tc_event_count c ∧ tc_seccomp_trace_count c = tc_event_count c ∧
  tc_ptrace_event_count c = tc_task_birth_count c + tc_task_exec_count c + tc_task_exit_count c ∧
  tc_task_birth_count c ≠ 0 ∧ tc_task_exit_count c = tc_task_birth_count c ∧
  tc_task_reap_count c = tc_task_birth_count c ∧
  tc_denied_operation_count c = 0 ∧ tc_unsupported_operation_count c = 0 ∧
  tc_decoder_error_count c = 0 ∧ tc_lost_event_count c = 0 ∧ tc_final_ack_count c = 1.

Lemma candidate_complete_balanced t :
  TraceCompletenessV2_candidate_complete t = true → trace_balanced t.
Proof.
  unfold TraceCompletenessV2_candidate_complete, trace_balanced.
  rewrite !andb_true_iff, !negb_true_iff, !Z.eqb_eq, !Z.eqb_neq, bool_decide_eq_true.
  intros Hc. destruct_and! Hc.
  match goal with E : Some _ = _ ≫= _ |- _ =>
    symmetry in E; apply bind_Some in E as (m & [-> _]%u64_checked_add_Some & [E _]%u64_checked_add_Some) end.
  assert (trace_first_failure t = None) by by case_match.
  split_and!; try congruence; unfold Dimensions.EffectBitmap_EMPTY in *; congruence.
Qed.

(** The result of a run that can be reused. *)
Definition successful_result (result : EffectResultV2) : Prop :=
  (∃ out err, result_stdout result = StreamCaptures.Complete out ∧
     result_stderr result = StreamCaptures.Complete err ∧
     blob_byte_count out <= LINUX_PYTEST_V1_MAX_STREAM_BYTES ∧
     blob_byte_count err <= LINUX_PYTEST_V1_MAX_STREAM_BYTES) ∧
  raw_termination (result_raw_linux_wait_status result) = Some (Exited 0).

Lemma complete_success_spec r :
  has_complete_success_result r = true → valid_result_capture (record_result r) = true →
  trace_balanced (record_trace r) ∧ successful_result (record_result r).
Proof.
  unfold has_complete_success_result, valid_result_capture, successful_result.
  rewrite !andb_true_iff. intros [[[Ht%candidate_complete_balanced Ho] He] Hs] [Vo Ve].
  split; [done|]. split.
  - destruct (result_stdout (record_result r)) as [out| |]; [|done..].
    destruct (result_stderr (record_result r)) as [err| |]; [|done..].
    unfold valid_stream in Vo, Ve. rewrite andb_true_iff, Z.leb_le in Vo, Ve.
    exists out, err. tauto.
  - unfold raw_is_success in Hs. repeat case_match; try done. by apply Z.eqb_eq in Hs as ->.
Qed.

(** Which records validation admits under each disposition. A candidate,
    primary or shadow, is a run whose root process exited with code 0 with both
    streams captured whole, every completeness dimension established, nothing
    denied, unsupported, lost or undecoded, and as many exits and reaps as
    births; it has no reason, and a shadow names a primary other than itself.
    Every other record is executed-only and carries the reason derived from its
    first failure. *)
Theorem disposition_exact `{Blake3} (r : EffectRecordV2) :
  EffectRecordV2_validate r = Ok () →
  match record_disposition r with
  | ExecutedOnly =>
    is_Some (record_disposition_reason r) ∧
    record_disposition_reason r = derived_execute_only_reason r ∧
    record_primary_record_id r = None
  | PrimaryCandidate =>
    trace_balanced (record_trace r) ∧ successful_result (record_result r) ∧
    record_disposition_reason r = None ∧ record_primary_record_id r = None
  | ShadowCandidate =>
    trace_balanced (record_trace r) ∧ successful_result (record_result r) ∧
    record_disposition_reason r = None ∧
    ∃ primary, record_primary_record_id r = Some primary ∧ primary ≠ record_id r ∧
      id_is_nil primary = false
  end.
Proof.
  intros (c & sk & rk & Hc)%record_validate_Ok.
  pose proof (check_candidate _ _ _ _ Hc) as Hs. pose proof (check_disposition _ _ _ _ Hc) as Hd.
  pose proof (check_fields _ _ _ _ Hc) as Hf. unfold record_malformed in Hf.
  rewrite !orb_false_iff, !negb_false_iff in Hf.
  assert (valid_result_capture (record_result r) = true) as Hv by tauto. clear Hf.
  unfold disposition_malformed in Hd. destruct (record_disposition r); cbn in Hs.
  - rewrite !orb_false_iff, negb_false_iff, bool_decide_eq_true, bool_decide_eq_false in Hd.
    destruct Hd as [[Hr Hn] Hp]. rewrite negb_false_iff, bool_decide_eq_true in Hp.
    split; [|done]. by apply not_eq_None_Some.
  - rewrite !orb_false_iff, !negb_false_iff, !bool_decide_eq_true in Hd.
    destruct (complete_success_spec r (Hs eq_refl) Hv). tauto.
  - rewrite !orb_false_iff, !negb_false_iff, !bool_decide_eq_true in Hd. destruct Hd as [? Hp].
    destruct (complete_success_spec r (Hs eq_refl) Hv). split_and!; try done.
    destruct (record_primary_record_id r) as [primary|]; [|done].
    apply orb_false_iff in Hp as [? Hp]. exists primary. split_and!; try done.
    intros ->. by rewrite bytes_eqb_refl in Hp.
Qed.

Lemma disposition_exact_witness :
  trace_balanced (record_trace Sample.primary) ∧ successful_result (record_result Sample.primary).
Proof.
  destruct (disposition_exact Sample.primary Sample.primary_valid) as (Ht & Hr & _).
  exact (conj Ht Hr).
Defined.
