(* ===== verification/ComparisonTheorems.v ===== *)
(** * Comparing a primary and a shadow record

    The comparison view is encoded and never decoded, so what equality of two
    encodings means is injectivity of the encoder, shown from the parser: both
    encodings parse, to the same fields, and every part's encoder is injective. *)

From Stdlib Require Import String.
From S2P Require Import Prelude Monad Bytes WaitStatus ContractTypes Canonical CanonicalSpec.
From S2P Require Import CanonicalParse CanonicalCodec RecordTypes Paths RecordValidation.
From S2P Require Import RecordCodec RecordRoundTrip Digest IdentityWire Identity.
From S2P Require Import IdentityRoundTrip RecordTop Sample.
Import Wire.

(** Equal encodings of parts are encodings of equal parts. *)
Ltac part_inj :=
  match goal with
  | E : encode_list ?i = Ok ?p, E' : encode_list ?i' = Ok ?p,
    M : try_map ?enc ?l = Ok ?i, M' : try_map ?enc ?l' = Ok ?i' |- _ =>
      assert (l = l') by
        (let inst := constr:(_ : NestedCodec _ enc _) in
         exact (@nested_list_inj _ _ _ _ inst l l' i i' p ltac:(assumption) ltac:(assumption)
                  M M' E E'));
      subst; clear E E' M M'
  | E : @eq (contract (list Z)) (?enc ?a) (Ok ?p),
    E' : @eq (contract (list Z)) (?enc ?a') (Ok ?p) |- _ =>
      assert (a = a') by
        (let inst := constr:(_ : NestedCodec _ enc _) in
         exact (@nested_inj _ _ _ _ inst a a' p ltac:(assumption) ltac:(assumption) E E'));
      subst; clear E E'
  end.

Definition ComparisonSnapshotV1_wf (v : ComparisonSnapshotV1) : Prop :=
  is_digest (cs_workspace_root v) ∧ is_digest (cs_runtime_root v) ∧
  BlobRefV2_wf (cs_manifest_blob v) ∧ is_digest (cs_profile_digest v).

Definition ComparisonPlatformV1_wf (v : ComparisonPlatformV1) : Prop :=
  is_bytes (cp_kernel_release v) ∧ is_digest (cp_capability_digest v) ∧
  is_digest (cp_namespace_policy_digest v) ∧ PolicyDigestsV1_wf (cp_policy_digests v).

(** ** The builder is injective *)

Lemma field_bytes_app_inj f g l k :
  is_u16 (field_tag f) → is_u16 (field_tag g) →
  len (field_payload f) <= U64_MAX → len (field_payload g) <= U64_MAX →
  field_bytes f ++ l = field_bytes g ++ k → f = g ∧ l = k.
Proof.
  destruct f as [t w p], g as [t' w' p']. unfold field_bytes.
  cbn [field_tag field_wire_type field_payload]. intros ? ? ? ?.
  rewrite <- !app_assoc. intros [-> Hr]%be_bytes_app_inj; [|done..].
  apply (app_inj_1 [_] [_]) in Hr as [Hw Hr]; [|done]. injection Hw as Hw.
  assert (w = w') as -> by (apply (f_equal Wire.WireType_from_u8) in Hw;
    rewrite !WireType_from_as_u8 in Hw; congruence).
  pose proof (len_nonneg p). pose proof (len_nonneg p').
  apply be_bytes_app_inj in Hr as [Hl Hr]; [|change (256 ^ Z.of_nat 8) with (2 ^ 64); size_lia..].
  apply app_inj_1 in Hr as [-> ->]; [done|]. unfold len in Hl. lia.
Qed.

Lemma fields_bytes_inj fs gs :
  Forall (λ f, is_u16 (field_tag f)) fs → Forall (λ f, is_u16 (field_tag f)) gs →
  len (fields_bytes fs) <= U64_MAX → len (fields_bytes gs) <= U64_MAX →
  length fs = length gs → fields_bytes fs = fields_bytes gs → fs = gs.
Proof.
  intros Hf. revert gs. induction Hf as [|f fs Hf _ IH]; intros [|g gs] Hg; try done.
  inversion_clear Hg. rewrite !fields_bytes_cons, !len_app, !len_field_bytes.
  intros Hl Hl' [= Hn] Hb. pose proof (len_nonneg (fields_bytes fs)).
  pose proof (len_nonneg (fields_bytes gs)). pose proof (len_nonneg (field_payload f)).
  pose proof (len_nonneg (field_payload g)).
  apply field_bytes_app_inj in Hb as [-> Hb]; [|done|done|lia..].
  f_equal. apply IH; try done; lia.
Qed.

Lemma finish_nested_inj ty fs gs b :
  Forall (λ f, is_u16 (field_tag f)) fs → Forall (λ f, is_u16 (field_tag f)) gs →
  ObjectBuilder_finish_nested (mkBuilder ty fs) = Ok b →
  ObjectBuilder_finish_nested (mkBuilder ty gs) = Ok b → fs = gs.
Proof.
  intros Hf Hg (Hn & _ & -> & Hs)%finish_nested_Ok (Hn' & _ & Hb & _)%finish_nested_Ok.
  unfold object_bytes in *. pose proof Hb as Hb'. apply app_inv_head in Hb. apply app_inv_head in Hb.
  pose proof (len_nonneg fs). pose proof (len_nonneg gs).
  apply be_bytes_app_inj in Hb as [Hl Hb];
    [|change (256 ^ Z.of_nat 2) with (2 ^ 16); size_lia..].
  assert (len (fields_bytes fs) <= U64_MAX) by (len_simpl; size_lia).
  apply fields_bytes_inj; [done..| | |done]; [by rewrite <- Hb|]. unfold len in Hl. lia.
Qed.

Lemma finish_top_inj ty fs gs b :
  Forall (λ f, is_u16 (field_tag f)) fs → Forall (λ f, is_u16 (field_tag f)) gs →
  ObjectBuilder_finish_top (mkBuilder ty fs) = Ok b →
  ObjectBuilder_finish_top (mkBuilder ty gs) = Ok b → fs = gs.
Proof.
  intros Hf Hg (n & -> & Hn & _)%top_inv (n' & Hb & Hn' & _)%top_inv.
  apply app_inv_head in Hb as ->. by eapply finish_nested_inj.
Qed.

(** The payloads of two builders with the same bytes are the same. *)
Ltac same_fields Hv Hw :=
  let Hf := fresh "Hf" in
  first [ pose proof (λ H1 H2, finish_nested_inj _ _ _ _ H1 H2 Hv Hw) as Hf
        | pose proof (λ H1 H2, finish_top_inj _ _ _ _ H1 H2 Hv Hw) as Hf ];
  specialize (Hf ltac:(repeat constructor; by vm_compute) ltac:(repeat constructor; by vm_compute));
  clear Hv Hw; injection Hf; clear Hf; intros; subst.

Lemma comparison_snapshot_inj v w p :
  ComparisonSnapshotV1_wf v → ComparisonSnapshotV1_wf w →
  encode_comparison_snapshot v = Ok p → encode_comparison_snapshot w = Ok p → v = w.
Proof.
  destruct v, w. unfold ComparisonSnapshotV1_wf, encode_comparison_snapshot. cbn.
  intros (? & ? & ? & ?) (? & ? & ? & ?) Hv Hw. unfold_builder. cbn in *. enc_inv Hv. enc_inv Hw.
  same_fields Hv Hw. repeat part_inj. done.
Qed.

Lemma comparison_platform_inj v w p :
  ComparisonPlatformV1_wf v → ComparisonPlatformV1_wf w →
  encode_comparison_platform v = Ok p → encode_comparison_platform w = Ok p → v = w.
Proof.
  destruct v as [[]], w as [[]]. unfold ComparisonPlatformV1_wf, encode_comparison_platform. cbn.
  intros (? & ? & ? & ?) (? & ? & ? & ?) Hv Hw. unfold_builder. cbn in *. enc_inv Hv. enc_inv Hw.
  same_fields Hv Hw. repeat part_inj. done.
Qed.

Section view.
Context `{Blake3}.

(** What a view of a valid record holds. *)
Definition valid_view (v : ComparisonViewV1) : Prop :=
  PytestInvocationIdentityV1_wf (cv_invocation v) ∧ EnvironmentBindingV1_wf (cv_environment v) ∧
  ComparisonSnapshotV1_wf (cv_sealed_snapshot v) ∧ ComparisonPlatformV1_wf (cv_platform v) ∧
  valid_trace (cv_trace v) ∧ Forall valid_observation (cv_observations v) ∧
  Forall AmbientEventV2_wf (cv_ambient_events v) ∧
  Forall OrderedEffectV2_wf (cv_ordered_effects v) ∧ EffectResultV2_wf (cv_result v) ∧
  valid_shape (cv_shape v) ∧ valid_closure (cv_observation_closure v).

Lemma comparison_view_valid r : valid_record r → valid_view (comparison_view r).
Proof.
  intros Hr. pose proof (record_observations_valid r Hr). destruct Hr as [Hwf Hv].
  apply record_validate_Ok in Hv as (c & sk & rk & Hc).
  pose proof (check_trace _ _ _ _ Hc). pose proof (check_shape _ _ _ _ Hc).
  pose proof (check_closure _ _ _ _ Hc). unfold EffectRecordV2_wf in Hwf.
  unfold valid_view, ComparisonSnapshotV1_wf, ComparisonPlatformV1_wf. cbn.
  unfold SealedSnapshotIdentityV2_wf, PlatformIdentityV2_wf in Hwf. split_and!; try tauto.
  all: split; [tauto|done].
Qed.

Lemma encode_view_inj v w b :
  valid_view v → valid_view w →
  encode_comparison_view v = Ok b → encode_comparison_view w = Ok b → v = w.
Proof.
  destruct v, w. unfold valid_view, encode_comparison_view. cbn.
  intros (? & ? & ? & ? & ? & ? & ? & ? & ? & ? & ?) (? & ? & ? & ? & ? & ? & ? & ? & ? & ? & ?) Hv Hw.
  unfold_builder. cbn in *. enc_inv Hv. enc_inv Hw. same_fields Hv Hw. repeat part_inj.
  repeat match goal with
  | E : encode_comparison_snapshot ?v = Ok ?p, E' : encode_comparison_snapshot ?w = Ok ?p |- _ =>
      assert (v = w) by (by apply (comparison_snapshot_inj v w p)); subst; clear E E'
  | E : encode_comparison_platform ?v = Ok ?p, E' : encode_comparison_platform ?w = Ok ?p |- _ =>
      assert (v = w) by (by apply (comparison_platform_inj v w p)); subst; clear E E'
  end.
  done.
Qed.
End view.

Lemma complete_candidate_iff `{Blake3} r :
  is_complete_candidate r = true ↔
  EffectRecordV2_validate r = Ok () ∧ is_candidate (record_disposition r) = true.
Proof.
  unfold is_complete_candidate. rewrite !andb_true_iff. split.
  - intros [[Hv ?] _]. destruct (EffectRecordV2_validate r) as [[]|]; done.
  - intros [Hv Hc]. rewrite Hv. apply record_validate_Ok in Hv as (c & sk & rk & Hr).
    split; [done|]. by apply (check_candidate _ _ _ _ Hr).
Qed.

Lemma shadow_primary_differs `{Blake3} r primary :
  EffectRecordV2_validate r = Ok () → record_disposition r = ShadowCandidate →
  record_primary_record_id r = Some primary → primary ≠ record_id r.
Proof.
  intros (c & sk & rk & Hr)%record_validate_Ok Hd Hp ->.
  pose proof (check_disposition _ _ _ _ Hr) as Hm. unfold disposition_malformed in Hm.
  rewrite Hd, Hp, bytes_eqb_refl, !orb_true_r in Hm. done.
Qed.

(** The tests before the views are computed. *)
Definition linked_candidates `{Blake3} (p s : CanonicalEffectRecordV2) : Prop :=
  record_disposition (canonical_record p) = PrimaryCandidate ∧
  record_disposition (canonical_record s) = ShadowCandidate ∧
  EffectRecordV2_validate (canonical_record p) = Ok () ∧
  EffectRecordV2_validate (canonical_record s) = Ok () ∧
  record_primary_record_id (canonical_record s) = Some (record_id (canonical_record p)) ∧
  blob_digest (canonical_record_blob p) ≠ blob_digest (canonical_record_blob s).

Lemma linked_tests `{Blake3} p s :
  negb (bool_decide (record_disposition (canonical_record p) = PrimaryCandidate))
  || negb (bool_decide (record_disposition (canonical_record s) = ShadowCandidate))
  || negb (is_complete_candidate (canonical_record p))
  || negb (is_complete_candidate (canonical_record s))
  || bytes_eqb (record_id (canonical_record p)) (record_id (canonical_record s))
  || negb (bool_decide (record_primary_record_id (canonical_record s)
                        = Some (record_id (canonical_record p))))
  || bytes_eqb (blob_digest (canonical_record_blob p)) (blob_digest (canonical_record_blob s))
  = false ↔ linked_candidates p s.
Proof.
  unfold linked_candidates. rewrite !orb_false_iff, !negb_false_iff, !bool_decide_eq_true.
  rewrite !complete_candidate_iff. unfold bytes_eqb. rewrite !bool_decide_eq_false. split; [tauto|].
  intros (Hp & Hs & Vp & Vs & Hl & Hb). split_and!; try done.
  - by rewrite Hp.
  - by rewrite Hs.
  - by apply shadow_primary_differs.
Qed.

Lemma pair_comparison_iff `{Blake3} (p s : CanonicalEffectRecordV2) (d : list Z) :
  EffectRecordV2_wf (canonical_record p) → EffectRecordV2_wf (canonical_record s) →
  pair_comparison_digest p s = Ok d ↔
  linked_candidates p s ∧
  comparison_view (canonical_record p) = comparison_view (canonical_record s) ∧
  ∃ view rules, encode_comparison_view (comparison_view (canonical_record p)) = Ok view ∧
    comparison_rules_bytes = Ok rules ∧
    d = let view_digest := Blake3Digest_derive EFFECT_IR_V2_COMPARISON_VIEW_DOMAIN [view] in
        Blake3Digest_derive_tagged EFFECT_IR_V2_COMPARISON_DOMAIN
          [(1, Blake3Digest_derive EFFECT_IR_V2_COMPARISON_RULES_DOMAIN [rules]);
           (2, blob_digest (canonical_record_blob p));
           (3, blob_digest (canonical_record_blob s)); (4, view_digest); (5, view_digest)].
Proof.
  intros Wp Ws. unfold pair_comparison_digest. cbv zeta.
  pose proof (linked_tests p s) as Ht. destruct (_ || bytes_eqb (blob_digest _) _).
  { split; [done|]. intros [Hl _]. by apply Ht in Hl. }
  assert (linked_candidates p s) as Hl by by apply Ht. clear Ht. pose proof Hl as (_ & _ & Vp & Vs & _).
  unfold comparison_view_bytes. rewrite Vp, Vs, !bind_Ok. split.
  - intros (pv & Ep & (sv & Es & Hd)%result_bind_Ok)%result_bind_Ok.
    destruct (bytes_eqb pv sv) eqn:E; [|done]. apply bytes_eqb_eq in E as <-.
    apply result_bind_Ok in Hd as (rules & Er & [= <-]). split; [done|]. split; [|eauto].
    eapply encode_view_inj; [by apply comparison_view_valid..|done|done].
  - intros (_ & Hv & view & rules & Ep & Er & ->). rewrite <- Hv, Ep, !bind_Ok, bytes_eqb_refl.
    cbn [negb]. by rewrite Er.
Qed.

(** C12. The pair digest exists exactly for a primary and a shadow candidate
    that validate, are linked by the primary's id, have different record blobs
    and agree on everything outside the exclusion list: schema, profile, keys,
    invocation, workspace, environment, snapshot roots and manifest, platform
    policies, trace, events, final root, result, shape and closure. The digest
    then commits to the rules, both records and the common view. *)
Theorem pair_comparison_exact `{Blake3} (p s : CanonicalEffectRecordV2) (d : list Z) :
  EffectRecordV2_wf (canonical_record p) → EffectRecordV2_wf (canonical_record s) →
  pair_comparison_digest p s = Ok d ↔
  linked_candidates p s ∧
  comparison_view (canonical_record p) = comparison_view (canonical_record s) ∧
  ∃ view rules, encode_comparison_view (comparison_view (canonical_record p)) = Ok view ∧
    comparison_rules_bytes = Ok rules ∧
    d = let view_digest := Blake3Digest_derive EFFECT_IR_V2_COMPARISON_VIEW_DOMAIN [view] in
        Blake3Digest_derive_tagged EFFECT_IR_V2_COMPARISON_DOMAIN
          [(1, Blake3Digest_derive EFFECT_IR_V2_COMPARISON_RULES_DOMAIN [rules]);
           (2, blob_digest (canonical_record_blob p));
           (3, blob_digest (canonical_record_blob s)); (4, view_digest); (5, view_digest)].
Proof. apply pair_comparison_iff. Qed.

Lemma pair_comparison_exact_witness :
  comparison_view Sample.primary = comparison_view Sample.shadow ∧
  linked_candidates (Sample.canonical Sample.primary) (Sample.canonical Sample.shadow).
Proof.
  assert (pair_comparison_digest (Sample.canonical Sample.primary) (Sample.canonical Sample.shadow)
    = Ok (value_or [] (pair_comparison_digest (Sample.canonical Sample.primary)
                         (Sample.canonical Sample.shadow)))) as Hd by (vm_compute; reflexivity).
  assert (canonical_record (Sample.canonical Sample.primary) = Sample.primary) as Hp
    by (vm_compute; reflexivity).
  assert (canonical_record (Sample.canonical Sample.shadow) = Sample.shadow) as Hs
    by (vm_compute; reflexivity).
  apply pair_comparison_exact in Hd as (Hl & Hv & _).
  - rewrite Hp, Hs in Hv. exact (conj Hv Hl).
  - rewrite Hp. exact (proj1 Sample.primary_wf).
  - rewrite Hs. exact (proj1 Sample.shadow_wf).
Defined.
