(* ===== verification/IdentityTheorems.v ===== *)
(** * Theorems on the framing and the identities

    The builder and the parser of the canonical framing are inverse, the
    identity module's copy of the parser agrees with it, every identity has one
    byte string, and a valid executable chain is a lexical resolution. *)

From Stdlib Require Import String.
From S2P Require Import Prelude Monad Bytes WaitStatus ContractTypes Canonical CanonicalSpec.
From S2P Require Import CanonicalParse CanonicalCodec RecordTypes Paths RecordValidation.
From S2P Require Import RecordCodec RecordRoundTrip Digest IdentityWire Identity.
From S2P Require Import IdentityRoundTrip RecordTop Sample.
Import Wire.

(** ** Framing *)

Lemma fields_ok_payloads fs : fields_ok fs → Forall field_ok fs.
Proof. by intros (_ & _ & ?). Qed.

(** Within the size bound the parser of each container accepts exactly what
    its builder writes, and returns what the builder was given: objects and
    enumerations with their tagged fields, lists and optional values. *)
Theorem framing_exact (b : list Z) :
  is_sized b →
  (∀ type_id fields, is_u16 type_id → Forall field_ok fields →
     RawObject_parse_nested b = Ok (mkRawObject type_id fields) ↔
     ObjectBuilder_finish_nested (mkBuilder type_id fields) = Ok b) ∧
  (∀ variant fields, is_u16 variant → Forall field_ok fields →
     RawEnum_parse b = Ok (mkRawEnum variant fields) ↔ encode_enum variant fields = Ok b) ∧
  (∀ items, decode_list b = Ok items ↔ encode_list items = Ok b) ∧
  (∀ value, decode_optional b = Ok value ↔ encode_optional value = Ok b).
Proof.
  intros Hb. pose proof (sized_slice b Hb) as Hs. destruct Hb as [_ Hl]. split_and!.
  - intros ty fs Hty Hf. rewrite parse_nested_Ok, finish_nested_Ok by done. unfold fields_ok.
    split; [tauto|]. intros (? & ? & -> & ?). tauto.
  - intros v fs Hv Hf. rewrite parse_enum_Ok, encode_enum_Ok by done. unfold fields_ok.
    split; [tauto|]. intros (? & ? & ? & -> & ?). tauto.
  - intros items. rewrite decode_list_Ok, encode_list_Ok by done. tauto.
  - intros o. rewrite decode_optional_Ok, encode_optional_Ok by done. tauto.
Qed.

Lemma framing_exact_witness :
  decode_list (list_bytes [[1; 2]; []]) = Ok [[1; 2]; []] ∧
  encode_list [[1; 2]; []] = Ok (list_bytes [[1; 2]; []]).
Proof.
  assert (encode_list [[1; 2]; []] = Ok (list_bytes [[1; 2]; []])) as He by (vm_compute; reflexivity).
  split; [|exact He].
  assert (is_sized (list_bytes [[1; 2]; []])) as Hs
    by (split; [apply is_bytes_check; vm_compute; reflexivity|vm_compute; congruence]).
  apply (framing_exact _ Hs). exact He.
Defined.

(** The identity module's own parser is the canonical one restricted to its
    ten wire types: on every input it returns the same object or enumeration when
    all fields have one of these types, and the decoding error otherwise. *)
Theorem identity_framing_agrees (b : list Z) :
  id_RawObject_parse_nested b =
    (o ← RawObject_parse_nested b;
     if forallb (λ f, bool_decide (field_wire_type f ∉ [I32; I64; Optional])) (raw_object_fields o)
     then Ok o else Err CanonicalDecoding) ∧
  id_RawEnum_parse b =
    (o ← RawEnum_parse b;
     if forallb (λ f, bool_decide (field_wire_type f ∉ [I32; I64; Optional])) (raw_enum_fields o)
     then Ok o else Err CanonicalDecoding) ∧
  id_encode_list [b] = encode_list [b].
Proof.
  assert (∀ fs, forallb (λ f, bool_decide (field_wire_type f ∉ [I32; I64; Optional])) fs
    = id_fields fs) as Hf.
  { intros fs. induction fs as [|[t w p] fs IH]; [done|]. cbn. rewrite IH. f_equal. by destruct w. }
  rewrite id_parse_nested_eq, id_RawEnum_parse_eq, id_encode_list_eq. split_and!; [| |done].
  - destruct (RawObject_parse_nested b) as [o|]; [|done]. rewrite !bind_Ok, Hf. done.
  - destruct (RawEnum_parse b) as [o|]; [|done]. rewrite !bind_Ok, Hf. done.
Qed.

(** ** Canonical bytes of identities *)

(** From the laws of a codec whose encoder validates first. *)
Lemma exact_of_codec {A} (wf valid : A → Prop) enc dec `{!NestedCodec valid enc dec} (b : list Z) :
  (∀ a, wf a → enc a = Ok b → valid a) → (∀ a, dec b = Ok a → is_sized b) →
  ∀ a, wf a → enc a = Ok b ↔ dec b = Ok a.
Proof.
  intros Hv Hs a Ha. split.
  - intros He. by destruct (nested_complete a b (Hv a Ha He) He).
  - intros Hd. by destruct (nested_sound b a (Hs a Hd) Hd).
Qed.

Lemma id_top_sized {A} b (k : RawObject → contract A) a :
  is_bytes b → (o ← id_RawObject_parse_top b; k o) = Ok a → is_sized b.
Proof.
  intros Hb (o & Ho & _)%result_bind_Ok. split; [done|].
  destruct (Z.le_gt_cases (len b) EFFECT_IR_V2_MAX_CANONICAL_BYTES) as [|Hl]; [done|].
  rewrite id_parse_top_oversize in Ho by done. done.
Qed.

Definition WorkspaceIdentityCommitmentV1_wf (v : WorkspaceIdentityCommitmentV1) : Prop :=
  is_digest (workspace_stable_id v).

Definition LexicalShapeV1_wf (v : LexicalShapeV1) : Prop :=
  is_digest (lexical_profile_digest v) ∧ is_digest (lexical_workspace_identity v) ∧
  PytestInvocationIdentityV1_wf (lexical_invocation v) ∧
  EnvironmentBindingV1_wf (lexical_environment v).

Definition ExecutableChainV1_wf (v : ExecutableChainV1) : Prop :=
  is_sandbox_path (chain_requested_path v) ∧ Forall ExecutableHopV1_wf (chain_hops v).

Definition EffectShapeV1_wf (v : EffectShapeV1) : Prop :=
  is_digest (effect_shape_profile_digest v) ∧
  Forall ObservationLayoutV1_wf (effect_shape_observations v) ∧
  Forall AmbientLayoutV1_wf (effect_shape_ambient_events v) ∧
  Forall OrderedEffectLayoutV1_wf (effect_shape_ordered_effects v) ∧
  WaitClassV1_wf (effect_shape_wait v).

Definition QuarantineClassV1_wf (v : QuarantineClassV1) : Prop :=
  is_digest (class_profile_digest v) ∧ is_digest (class_workspace_identity v) ∧
  is_digest (class_shape_key v) ∧ is_digest (class_request_key v).

(** C14. Every identity is committed to by one byte string: its canonical bytes
    are [b] exactly when [b] decodes to it, for profile and workspace
    commitments, lexical shapes, executable chains, effect shapes, quarantine
    classes, lookup shapes and observation closures. *)
Theorem identity_bytes_exact `{Blake3} (b : list Z) :
  is_bytes b →
  (∀ v, PolicyDigestsV1_wf (profile_policy_digests v) →
     ProfileCommitmentV1_canonical_bytes v = Ok b ↔
     ProfileCommitmentV1_from_canonical_bytes b = Ok v) ∧
  (∀ v, WorkspaceIdentityCommitmentV1_wf v →
     WorkspaceIdentityCommitmentV1_canonical_bytes v = Ok b ↔
     WorkspaceIdentityCommitmentV1_from_canonical_bytes b = Ok v) ∧
  (∀ v, LexicalShapeV1_wf v →
     LexicalShapeV1_canonical_bytes v = Ok b ↔ LexicalShapeV1_from_canonical_bytes b = Ok v) ∧
  (∀ v, ExecutableChainV1_wf v →
     ExecutableChainV1_canonical_bytes v = Ok b ↔
     ExecutableChainV1_from_canonical_bytes b = Ok v) ∧
  (∀ v, EffectShapeV1_wf v →
     EffectShapeV1_canonical_bytes v = Ok b ↔ EffectShapeV1_from_canonical_bytes b = Ok v) ∧
  (∀ v, QuarantineClassV1_wf v →
     QuarantineClassV1_canonical_bytes v = Ok b ↔
     QuarantineClassV1_from_canonical_bytes b = Ok v) ∧
  (∀ v, ShapeV1_wf v → ShapeV1_canonical_bytes v = Ok b ↔ decode_shape b = Ok v) ∧
  (∀ v, ObservationClosureV1_wf v →
     ObservationClosureV1_canonical_bytes v = Ok b ↔ decode_observation_closure b = Ok v).
Proof.
  intros Hb. split_and!.
  - apply (exact_of_codec _ valid_profile); [apply _|..].
    + intros a Ha ([] & Hv & _)%result_bind_Ok. by split.
    + intros a Hd. exact (id_top_sized b _ a Hb Hd).
  - apply (exact_of_codec _ valid_workspace_commitment); [apply _|..].
    + intros a Ha He. split; [done|]. unfold WorkspaceIdentityCommitmentV1_canonical_bytes in He.
      unfold digest_is_zero. by destruct (bytes_eqb _ _).
    + intros a Hd. exact (id_top_sized b _ a Hb Hd).
  - apply (exact_of_codec _ valid_lexical_shape); [apply _|..].
    + intros a (? & ? & ? & ?) ([] & Hv & _)%result_bind_Ok. by split_and!.
    + intros a Hd. exact (id_top_sized b _ a Hb Hd).
  - apply (exact_of_codec _ valid_chain); [apply _|..].
    + intros a [? ?] ([] & Hv & _)%result_bind_Ok. by split_and!.
    + intros a Hd. exact (id_top_sized b _ a Hb Hd).
  - apply (exact_of_codec _ valid_effect_shape); [apply _|..].
    + intros a (? & ? & ? & ? & ?) ([] & Hv & _)%result_bind_Ok. by split_and!.
    + intros a Hd. exact (id_top_sized b _ a Hb Hd).
  - apply (exact_of_codec _ valid_quarantine_class); [apply _|..].
    + intros a (? & ? & ? & ?) (q & Hv & _)%result_bind_Ok.
      pose proof (from_checked_parts_Ok _ _ _ _ _ Hv) as ->. destruct a. by split_and!.
    + intros a Hd. exact (id_top_sized b _ a Hb Hd).
  - apply (exact_of_codec _ valid_shape); [apply _|..].
    + intros a Ha ([] & Hv & _)%result_bind_Ok. by split.
    + intros a (o & (n & _ & Hl & _)%parse_top_Ok & _)%result_bind_Ok. done.
  - apply (exact_of_codec _ valid_closure); [apply _|..].
    + intros a Ha ([] & Hv & _)%result_bind_Ok. by split.
    + intros a (o & (n & _ & Hl & _)%parse_top_Ok & _)%result_bind_Ok. done.
Qed.

Ltac sample_wf :=
  repeat split; first [apply is_bytes_check; vm_compute; reflexivity|vm_compute; reflexivity
                      |vm_compute; congruence].

Lemma identity_bytes_exact_witness :
  ∃ b, ExecutableChainV1_canonical_bytes Sample.chain = Ok b ∧
       ExecutableChainV1_from_canonical_bytes b = Ok Sample.chain.
Proof.
  set (b := value_or [] (ExecutableChainV1_canonical_bytes Sample.chain)).
  assert (is_bytes b) as Hb by (apply is_bytes_check; vm_compute; reflexivity).
  assert (ExecutableChainV1_canonical_bytes Sample.chain = Ok b) as He
    by (vm_compute; reflexivity).
  assert (ExecutableChainV1_wf Sample.chain) as Hw.
  { split; [sample_wf|]. repeat apply list.Forall_cons_2; [| |apply list.Forall_nil_2];
      repeat split; sample_wf. }
  exists b. split; [exact He|].
  exact (proj1 (proj1 (proj2 (proj2 (proj2 (identity_bytes_exact b Hb)))) Sample.chain Hw) He).
Defined.

(** ** Executable chains *)

(** [resolves path hops]: following symbolic links from [path] visits [hops] and
    ends at a regular file. *)
Inductive resolves : list Z → list ExecutableHopV1 → Prop :=
| resolves_regular path digest :
    resolves path [mkHop path digest Hops.TerminalRegular]
| resolves_link path digest target next rest :
    target ≠ [] → 0 ∉ target → resolved_symlink_target path target = Some next →
    resolves next rest →
    resolves path (mkHop path digest (Hops.Symlink target next) :: rest).

Definition hop_admissible (hop : ExecutableHopV1) : Prop :=
  valid_sandbox_path_bytes (hop_path hop) = true ∧ digest_is_zero (hop_node_digest hop) = false.

Lemma resolves_head path hops :
  resolves path hops → ∃ hop rest, hops = hop :: rest ∧ hop_path hop = path.
Proof. destruct 1; by repeat eexists. Qed.

Lemma resolves_last path hops :
  resolves path hops → ∃ hop, list.last hops = Some hop ∧ is_terminal (hop_resolution hop) = true.
Proof.
  induction 1 as [|path d target next rest _ _ _ Hr (hop & Hl & Ht)]; [by eexists|].
  exists hop. split; [|done]. by destruct rest.
Qed.

Lemma hop_validate_link path d target next :
  ExecutableHopV1_validate (mkHop path d (Hops.Symlink target next)) = Ok () ↔
  hop_admissible (mkHop path d (Hops.Symlink target next)) ∧ target ≠ [] ∧ (0 ∉ target) ∧
  valid_sandbox_path_bytes next = true ∧ resolved_symlink_target path target = Some next.
Proof.
  unfold ExecutableHopV1_validate, hop_admissible. cbn [hop_path hop_node_digest hop_resolution].
  rewrite <- contains_iff.
  destruct (digest_is_zero d), (valid_sandbox_path_bytes path), (contains 0 target),
    (valid_sandbox_path_bytes next), target; cbn; repeat case_bool_decide; naive_solver.
Qed.

Lemma hop_validate_regular path d :
  ExecutableHopV1_validate (mkHop path d Hops.TerminalRegular) = Ok () ↔
  hop_admissible (mkHop path d Hops.TerminalRegular).
Proof.
  unfold ExecutableHopV1_validate, hop_admissible. cbn [hop_path hop_node_digest hop_resolution].
  destruct (digest_is_zero d), (valid_sandbox_path_bytes path); cbn; naive_solver.
Qed.

#[local] Arguments ExecutableHopV1_validate : simpl never.

Lemma validate_hops_exact hop rest seen :
  validate_hops seen (hop :: rest) = Ok () ↔
  resolves (hop_path hop) (hop :: rest) ∧ Forall hop_admissible (hop :: rest) ∧
  NoDup (hop_path <$> hop :: rest) ∧ (∀ p, p ∈ hop_path <$> hop :: rest → p ∉ seen).
Proof.
  revert hop seen. induction rest as [|hop' rest IH]; intros [path d [target next|]] seen.
  - split; [|by intros (H & _); inversion H as [|? ? ? ? ? ? ? ? Hr]; inversion Hr].
    cbn [validate_hops]. intros (? & _ & H)%result_bind_Ok. case_bool_decide; [done|].
    cbn in H. by case_bool_decide.
  - cbn [validate_hops fmap list_fmap hop_path hop_resolution].
    rewrite list.Forall_singleton, <- hop_validate_regular.
    setoid_rewrite list_elem_of_singleton. split.
    + intros ([] & Hh & H)%result_bind_Ok. case_bool_decide; [done|].
      split_and!; [constructor|done|apply NoDup_singleton|by intros ? ->].
    + intros (_ & Hh & _ & Hs). rewrite Hh, bind_Ok. rewrite bool_decide_false by by apply Hs. done.
  - cbn [validate_hops fmap list_fmap hop_path hop_resolution head option_fmap option_map].
    split.
    + intros ([] & Hh & H)%result_bind_Ok. apply hop_validate_link in Hh as (Ha & Ht & H0 & _ & Hr).
      case_bool_decide as Hseen; [done|]. case_bool_decide as Hn; [|done]. cbn [negb] in H.
      injection Hn as Hn. apply IH in H as (Hres & Hf & Hnd & Hdisj). rewrite Hn in Hres.
      split_and!; [by econstructor|by constructor| |].
      * apply list.NoDup_cons. split; [|done]. intros Hin. by apply (Hdisj path Hin); left.
      * intros p [->|Hin]%elem_of_cons; [done|]. intros Hp. apply (Hdisj p Hin). by right.
    + intros (Hres & Hf & Hnd & Hdisj). apply list.Forall_cons in Hf as [Ha Hf].
      apply list.NoDup_cons in Hnd as [Hnin Hnd]. inversion Hres as [|? ? ? ? ? Ht H0 Hr Hres']; subst.
      destruct (resolves_head _ _ Hres') as (? & ? & [= -> ->] & <-).
      rewrite (proj2 (hop_validate_link _ _ _ _)), bind_Ok.
      * rewrite bool_decide_false by (apply Hdisj; left). rewrite bool_decide_true by done.
        apply IH. split_and!; [done..|]. intros p Hin [->|Hp]%elem_of_cons; [done|].
        apply (Hdisj p); [by right|done].
      * apply list.Forall_cons in Hf as [[Hv _] _]. done.
  - split; [|by intros (H & _); inversion H].
    cbn [validate_hops]. intros (? & _ & H)%result_bind_Ok. by case_bool_decide.
Qed.

(** An executable chain is valid exactly when its hops are the lexical
    resolution of the requested path: each symbolic link leads to the next hop,
    the last hop is a regular file, no path occurs twice, there are at most
    forty hops, and every hop has a sandbox path and a nonzero node digest. *)
Theorem executable_chain_exact (c : ExecutableChainV1) :
  ExecutableChainV1_validate c = Ok () ↔
  resolves (chain_requested_path c) (chain_hops c) ∧ Forall hop_admissible (chain_hops c) ∧
  NoDup (hop_path <$> chain_hops c) ∧ len (chain_hops c) ≤ MAX_EXECUTABLE_CHAIN_HOPS.
Proof.
  destruct c as [path hops]. unfold ExecutableChainV1_validate.
  cbn [chain_requested_path chain_hops]. destruct hops as [|hop rest].
  { rewrite orb_true_r. cbn [orb]. split; [done|]. intros (H & _). inversion H. }
  pose proof (validate_hops_exact hop rest []) as Hv. cbn [head fmap option_fmap option_map] in *.
  set (hops := hop :: rest) in *. split.
  - case_match eqn:E; [done|]. repeat (apply orb_false_iff in E as [E ?]).
    intros (Hr & ? & ? & _)%Hv. match goal with H : negb (bool_decide _) = false |- _ =>
      apply negb_false_iff, bool_decide_eq_true in H; injection H as H; rewrite H in Hr end.
    split_and!; [done..|]. lia.
  - intros (Hr & Hf & Hnd & Hl). destruct (resolves_last _ _ Hr) as (z & Hlast & Ht).
    destruct (resolves_head _ _ Hr) as (? & ? & [= <- <-] & <-).
    rewrite Hlast, Ht, bool_decide_true by done. apply list.Forall_cons in Hf as Hf'.
    rewrite (proj1 (proj1 Hf')). replace (_ <? len hops) with false by lia.
    assert ((len hops =? 0) = false) as -> by done. cbn [negb orb].
    apply Hv. split_and!; [done..|]. intros p _. apply not_elem_of_nil.
Qed.
