(* ===== verification/ManifestTypes.v ===== *)
(** * The data of a snapshot manifest

    The manifest structures of [src/src/linux_pytest.rs]: a tree is a list of
    entries with relative paths, each with its metadata, a payload of one of
    four kinds, an optional hard-link group and its node digest. The borrowed
    projections of [src/src/linux_pytest/canonical.rs] have the same fields and
    are modelled by the same records. The [_wf] predicates say which values the
    Rust types hold. *)

From Stdlib Require Import String.
From S2P Require Import Prelude Monad Bytes ContractTypes Canonical CanonicalSpec CanonicalParse.
From S2P Require Import CanonicalCodec RecordTypes Paths RecordValidation.

Definition SNAPSHOT_MANIFEST_V1_SCHEMA : list Z :=
  bstr "again.linux-pytest.snapshot-manifest.v1".

Module TreeRoles.
Inductive TreeRoleV1 := Workspace | Runtime.

#[export] Instance TreeRoleV1_eq_dec : EqDecision TreeRoleV1.
Proof. solve_decision. Defined.

Definition TreeRoleV1_as_u16 (role : TreeRoleV1) : Z :=
  match role with Workspace => 1 | Runtime => 2 end.
End TreeRoles.
Export (hints) TreeRoles.
Abbreviation TreeRoleV1 := TreeRoles.TreeRoleV1.

Module EntryKinds.
Inductive ManifestEntryKindV1 := Directory | Regular | Symlink | ExternalTree.

#[export] Instance ManifestEntryKindV1_eq_dec : EqDecision ManifestEntryKindV1.
Proof. solve_decision. Defined.

Definition ManifestEntryKindV1_as_u16 (kind : ManifestEntryKindV1) : Z :=
  match kind with Directory => 1 | Regular => 2 | Symlink => 3 | ExternalTree => 4 end.
End EntryKinds.
Export (hints) EntryKinds.
Abbreviation ManifestEntryKindV1 := EntryKinds.ManifestEntryKindV1.

Record TimespecV1 := mkTimespec { timespec_seconds : Z; timespec_nanoseconds : Z }.

Record XattrV1 := mkXattr { xattr_name : list Z; xattr_value : list Z }.

Record MetadataV1 := mkMetadata {
  metadata_mode : Z;
  metadata_logical_uid : Z;
  metadata_logical_gid : Z;
  metadata_size : Z;
  metadata_nlink : Z;
  metadata_atime : TimespecV1;
  metadata_mtime : TimespecV1;
  metadata_ctime : TimespecV1;
  metadata_btime : option TimespecV1;
  metadata_xattrs : list XattrV1;
}.

Record ExtentV1 := mkExtent { extent_offset : Z; extent_length : Z }.

Record ChildCommitmentV1 := mkChild {
  child_name : list Z;
  child_kind : ManifestEntryKindV1;
  child_node_digest : list Z;
}.

Module Payloads.
Inductive ManifestPayloadV1 :=
| Directory (children : list ChildCommitmentV1)
| Regular (content_digest : list Z) (data_extents : list ExtentV1)
| Symlink (target : list Z)
| ExternalTree (tree_role : TreeRoleV1) (target_root : list Z) (readonly : bool).

Definition ManifestPayloadV1_kind (self : ManifestPayloadV1) : ManifestEntryKindV1 :=
  match self with
  | Directory _ => EntryKinds.Directory
  | Regular _ _ => EntryKinds.Regular
  | Symlink _ => EntryKinds.Symlink
  | ExternalTree _ _ _ => EntryKinds.ExternalTree
  end.
End Payloads.
Abbreviation ManifestPayloadV1 := Payloads.ManifestPayloadV1.
Abbreviation ManifestPayloadV1_kind := Payloads.ManifestPayloadV1_kind.

Record ManifestEntryV1 := mkEntry {
  entry_relative_path : list Z;
  entry_metadata : MetadataV1;
  entry_payload : ManifestPayloadV1;
  entry_hardlink_group : option (list Z);
  entry_node_digest : list Z;
}.

Record TreeManifestV1 := mkTree {
  tree_mount_path : list Z;
  tree_role : TreeRoleV1;
  tree_entries : list ManifestEntryV1;
  tree_root_digest : list Z;
}.

Record SnapshotManifestV1 := mkManifest {
  manifest_schema : list Z;
  manifest_profile_digest : list Z;
  manifest_workspace_identity : list Z;
  manifest_workspace_tree : TreeManifestV1;
  manifest_runtime_trees : list TreeManifestV1;
  manifest_workspace_root : list Z;
  manifest_runtime_root : list Z;
}.

(** ** Metadata *)

Definition NANOS_PER_SECOND : Z := 1000000000.

(** [left >= right] on byte strings. *)
Definition bytes_ge (left right : list Z) : bool :=
  match bytes_compare left right with Lt => false | _ => true end.

Definition metadata_times (self : MetadataV1) : list TimespecV1 :=
  [metadata_atime self; metadata_mtime self; metadata_ctime self]
    ++ match metadata_btime self with Some time => [time] | None => [] end.

Definition MetadataV1_validate (self : MetadataV1) : contract () :=
  if (metadata_nlink self =? 0)
     || any (λ time, NANOS_PER_SECOND <=? timespec_nanoseconds time) (metadata_times self)
     || windows_any (λ left right, bytes_ge (xattr_name left) (xattr_name right))
          (metadata_xattrs self)
     || any (λ xattr, bytes_eqb (xattr_name xattr) [] || contains 0 (xattr_name xattr))
          (metadata_xattrs self)
  then Err MalformedManifest else Ok ().

(** ** The values of the Rust types *)

Definition TimespecV1_wf (v : TimespecV1) : Prop :=
  is_i64 (timespec_seconds v) ∧ is_u32 (timespec_nanoseconds v).

Definition XattrV1_wf (v : XattrV1) : Prop := is_bytes (xattr_name v) ∧ is_bytes (xattr_value v).

Definition MetadataV1_wf (v : MetadataV1) : Prop :=
  is_u32 (metadata_mode v) ∧ is_u32 (metadata_logical_uid v) ∧ is_u32 (metadata_logical_gid v) ∧
  is_u64 (metadata_size v) ∧ is_u64 (metadata_nlink v) ∧ TimespecV1_wf (metadata_atime v) ∧
  TimespecV1_wf (metadata_mtime v) ∧ TimespecV1_wf (metadata_ctime v) ∧
  option_wf TimespecV1_wf (metadata_btime v) ∧ Forall XattrV1_wf (metadata_xattrs v).

Definition ExtentV1_wf (v : ExtentV1) : Prop := is_u64 (extent_offset v) ∧ is_u64 (extent_length v).

Definition ChildCommitmentV1_wf (v : ChildCommitmentV1) : Prop :=
  is_bytes (child_name v) ∧ is_digest (child_node_digest v).

Definition ManifestPayloadV1_wf (v : ManifestPayloadV1) : Prop :=
  match v with
  | Payloads.Directory children => Forall ChildCommitmentV1_wf children
  | Payloads.Regular content_digest data_extents =>
    is_digest content_digest ∧ Forall ExtentV1_wf data_extents
  | Payloads.Symlink target => is_bytes target
  | Payloads.ExternalTree _ target_root _ => is_digest target_root
  end.

Definition ManifestEntryV1_wf (v : ManifestEntryV1) : Prop :=
  is_bytes (entry_relative_path v) ∧ MetadataV1_wf (entry_metadata v) ∧
  ManifestPayloadV1_wf (entry_payload v) ∧ option_wf is_digest (entry_hardlink_group v) ∧
  is_digest (entry_node_digest v).

Definition TreeManifestV1_wf (v : TreeManifestV1) : Prop :=
  is_sandbox_path (tree_mount_path v) ∧ Forall ManifestEntryV1_wf (tree_entries v) ∧
  is_digest (tree_root_digest v).

Definition SnapshotManifestV1_wf (v : SnapshotManifestV1) : Prop :=
  is_string (manifest_schema v) ∧ is_digest (manifest_profile_digest v) ∧
  is_digest (manifest_workspace_identity v) ∧ TreeManifestV1_wf (manifest_workspace_tree v) ∧
  Forall TreeManifestV1_wf (manifest_runtime_trees v) ∧ is_digest (manifest_workspace_root v) ∧
  is_digest (manifest_runtime_root v).

(** A symbolic link's target is a byte slice. *)
Definition payload_slices (payload : ManifestPayloadV1) : Prop :=
  match payload with
  | Payloads.Symlink target => len target <= ISIZE_MAX
  | _ => True
  end.
