(* ===== verification/ManifestWriter.v ===== *)
(** * The streaming writer of canonical manifests

    [src/src/linux_pytest/canonical.rs] writes a manifest tree straight into a
    byte sink, field by field, with every length computed before the bytes it
    announces. The sink trait is the class [ManifestCanonicalByteSinkV1]; a
    method on [&mut S] is a [method]: it returns a value or an error and in both
    cases the sink. The vector sink collects the bytes up to a length fixed in
    advance, the hasher sink feeds them to a hash. *)

From S2P Require Import Prelude Monad Bytes ContractTypes Canonical CanonicalSpec CanonicalParse.
From S2P Require Import CanonicalCodec RecordTypes Paths RecordValidation RecordCodec Digest.
From S2P Require Import ManifestTypes.
Import Wire.

Definition TYPE_SNAPSHOT_MANIFEST : Z := 0x0020.
Definition TYPE_TREE_MANIFEST : Z := 0x0021.
Definition TYPE_MANIFEST_ENTRY : Z := 0x0022.
Definition TYPE_METADATA : Z := 0x0023.
Definition TYPE_TIMESPEC : Z := 0x0024.
Definition TYPE_XATTR : Z := 0x0025.
Definition TYPE_EXTENT : Z := 0x0026.
Definition TYPE_CHILD_COMMITMENT : Z := 0x0027.
Definition TYPE_RUNTIME_MOUNT : Z := 0x0028.

(** ** Methods *)

Definition method (S E A : Type) : Type := S → result E A * S.

#[global] Instance method_ret S E : MRet (method S E) := λ A a s, (Ok a, s).
#[global] Instance method_bind S E : MBind (method S E) := λ A B f m s,
  match m s with
  | (Ok a, s') => f a s'
  | (Err e, s') => (Err e, s')
  end.

(** [for value in values { f(value)?; }]. *)
Fixpoint for_each {S E A} (f : A → method S E ()) (values : list A) : method S E () :=
  match values with
  | [] => mret ()
  | value :: values => f value;; for_each f values
  end.

(** ** Sinks and the writer *)

Class ManifestCanonicalByteSinkV1 (S E : Type) := try_extend_canonical : list Z → method S E ().

Inductive ManifestCanonicalWriteErrorV1 (E : Type) :=
| Canonical (error : LinuxPytestContractError)
| Sink (error : E).
Arguments Canonical {_} _.
Arguments Sink {_} _.

Record ManifestCanonicalWriterV1 (S : Type) := mkWriter { writer_sink : S; writer_written : Z }.
Arguments mkWriter {_} _ _.
Arguments writer_sink {_} _.
Arguments writer_written {_} _.

Section writer.
Context {S E : Type} `{!ManifestCanonicalByteSinkV1 S E}.

Abbreviation writer_m :=
  (method (ManifestCanonicalWriterV1 S) (ManifestCanonicalWriteErrorV1 E)).

(** [?] on a canonical error inside the writer. *)
Definition canonical {A} (r : contract A) : writer_m A := λ w,
  match r with Ok a => (Ok a, w) | Err e => (Err (Canonical e), w) end.

Definition writer_bytes (bytes : list Z) : writer_m () := λ w,
  match u64_checked_add (writer_written w) (len bytes) with
  | None => (Err (Canonical CanonicalEncoding), w)
  | Some next =>
    match try_extend_canonical bytes (writer_sink w) with
    | (Ok _, sink) => (Ok (), mkWriter sink next)
    | (Err error, sink) => (Err (Sink error), mkWriter sink (writer_written w))
    end
  end.

Definition object_header (type_id field_count : Z) : writer_m () :=
  writer_bytes (be_bytes 2 type_id);;
  writer_bytes (be_bytes 2 EFFECT_IR_V2_WIRE_VERSION);;
  writer_bytes (be_bytes 2 field_count).

Definition enum_header (variant field_count : Z) : writer_m () :=
  if variant =? 0 then canonical (Err CanonicalEncoding)
  else
    writer_bytes (be_bytes 2 variant);;
    writer_bytes (be_bytes 2 field_count).

Definition field_header (tag : Z) (wire_type : WireType) (payload_length : Z) : writer_m () :=
  if tag =? 0 then canonical (Err CanonicalEncoding)
  else
    payload_length ← canonical (try_width U64_MAX CanonicalEncoding payload_length);
    writer_bytes (be_bytes 2 tag);;
    writer_bytes [WireType_as_u8 wire_type];;
    writer_bytes (be_bytes 8 payload_length).

Definition list_header (item_count : Z) : writer_m () :=
  item_count ← canonical (canonical_collection_count item_count);
  writer_bytes (be_bytes 8 item_count).

Definition list_item_header (item_length : Z) : writer_m () :=
  item_length ← canonical (try_width U64_MAX CanonicalEncoding item_length);
  writer_bytes (be_bytes 8 item_length).
End writer.

(** ** The vector sink *)

Record ManifestCanonicalVecSinkV1 := mkVecSink { vec_bytes : list Z; vec_exact_length : Z }.

(** The reservation of the vector is assumed to succeed. *)
Definition ManifestCanonicalVecSinkV1_new (exact_length : Z) :
    contract ManifestCanonicalVecSinkV1 :=
  _ ← checked_canonical_payload_length exact_length;
  Ok (mkVecSink [] exact_length).

Definition ManifestCanonicalVecSinkV1_finish (self : ManifestCanonicalVecSinkV1) :
    contract (list Z) :=
  if negb (len (vec_bytes self) =? vec_exact_length self) then Err CanonicalEncoding
  else Ok (vec_bytes self).

Definition vec_try_extend_canonical (bytes : list Z) :
    method ManifestCanonicalVecSinkV1 LinuxPytestContractError () := λ self,
  match u64_checked_add (len (vec_bytes self)) (len bytes) with
  | None => (Err CanonicalEncoding, self)
  | Some next_length =>
    if vec_exact_length self <? next_length then (Err CanonicalEncoding, self)
    else (Ok (), mkVecSink (vec_bytes self ++ bytes) (vec_exact_length self))
  end.

#[global] Instance vec_sink :
  ManifestCanonicalByteSinkV1 ManifestCanonicalVecSinkV1 LinuxPytestContractError :=
  vec_try_extend_canonical.

Definition encode_manifest_canonical_vec (exact_length : Z)
    (write : method (ManifestCanonicalWriterV1 ManifestCanonicalVecSinkV1)
               (ManifestCanonicalWriteErrorV1 LinuxPytestContractError) ()) :
    contract (list Z) :=
  sink ← ManifestCanonicalVecSinkV1_new exact_length;
  match write (mkWriter sink 0) with
  | (Ok _, writer) => ManifestCanonicalVecSinkV1_finish (writer_sink writer)
  | (Err (Canonical error | Sink error), _) => Err error
  end.

(** ** The hasher sink *)

(** [blake3::Hasher]: the key context and the bytes it was updated with. *)
Record Hasher := mkHasher { hasher_context : list Z; hasher_input : list Z }.

Definition Hasher_update (bytes : list Z) (self : Hasher) : Hasher :=
  mkHasher (hasher_context self) (hasher_input self ++ bytes).

Definition Hasher_finalize `{Blake3} (self : Hasher) : list Z :=
  blake3_derive_key (hasher_context self) (hasher_input self).

Definition hasher_try_extend_canonical (bytes : list Z) : method Hasher Empty_set () := λ self,
  (Ok (), Hasher_update bytes self).

#[global] Instance hasher_sink : ManifestCanonicalByteSinkV1 Hasher Empty_set :=
  hasher_try_extend_canonical.

(** Runs a writer on a hasher and returns the hasher. *)
Definition map_infallible_manifest_write
    (write : method (ManifestCanonicalWriterV1 Hasher)
               (ManifestCanonicalWriteErrorV1 Empty_set) ())
    (hasher : Hasher) : contract Hasher :=
  match write (mkWriter hasher 0) with
  | (Ok _, writer) => Ok (writer_sink writer)
  | (Err (Canonical error), _) => Err error
  | (Err (Sink error), _) => match error with end
  end.
