(* ===== verification/ManifestStream.v ===== *)
(** * Lengths and writers of manifest structures

    The exact-length functions and the writers of
    [src/src/linux_pytest/canonical.rs], from timespecs to whole trees, and the
    entry point that checks the length it announced against what it wrote. *)

From S2P Require Import Prelude Monad Bytes ContractTypes Canonical CanonicalSpec CanonicalParse.
From S2P Require Import CanonicalCodec RecordTypes Paths RecordValidation RecordCodec Digest.
From S2P Require Import ManifestTypes ManifestWriter.
Import Wire TreeRoles EntryKinds.

(** ** Exact lengths *)

Definition manifest_timespec_canonical_length : contract Z :=
  checked_canonical_object_length [8; 4].

Definition manifest_xattr_canonical_length (value : XattrV1) : contract Z :=
  checked_canonical_object_length [len (xattr_name value); len (xattr_value value)].

Definition manifest_xattr_list_canonical_length (values : list XattrV1) : contract Z :=
  checked_canonical_list_length (len values) (manifest_xattr_canonical_length <$> values).

Definition manifest_metadata_projection_canonical_length (value : MetadataV1) : contract Z :=
  timespec ← manifest_timespec_canonical_length;
  btime ← checked_canonical_optional_length ((λ _, timespec) <$> metadata_btime value);
  xattrs ← manifest_xattr_list_canonical_length (metadata_xattrs value);
  checked_canonical_object_length [4; 4; 4; 8; 8; timespec; timespec; timespec; btime; xattrs].

Definition manifest_metadata_canonical_length (value : MetadataV1) : contract Z :=
  manifest_metadata_projection_canonical_length value.

Definition manifest_extent_canonical_length : contract Z :=
  checked_canonical_object_length [8; 8].

Definition manifest_extent_list_canonical_length (values : list ExtentV1) : contract Z :=
  extent ← manifest_extent_canonical_length;
  checked_canonical_list_length (len values) ((λ _, Ok extent) <$> values).

Definition manifest_child_canonical_length (value : ChildCommitmentV1) : contract Z :=
  kind ← checked_canonical_enum_length (ManifestEntryKindV1_as_u16 (child_kind value)) [];
  checked_canonical_object_length [len (child_name value); kind; len (child_node_digest value)].

Definition manifest_child_list_canonical_length (values : list ChildCommitmentV1) : contract Z :=
  checked_canonical_list_length (len values) (manifest_child_canonical_length <$> values).

Definition manifest_payload_projection_canonical_length (value : ManifestPayloadV1) : contract Z :=
  match value with
  | Payloads.Directory children =>
    children ← manifest_child_list_canonical_length children;
    checked_canonical_enum_length (ManifestEntryKindV1_as_u16 Directory) [children]
  | Payloads.Regular content_digest data_extents =>
    extents ← manifest_extent_list_canonical_length data_extents;
    checked_canonical_enum_length (ManifestEntryKindV1_as_u16 Regular)
      [len content_digest; extents]
  | Payloads.Symlink target =>
    checked_canonical_enum_length (ManifestEntryKindV1_as_u16 Symlink) [len target]
  | Payloads.ExternalTree tree_role target_root _ =>
    role ← checked_canonical_enum_length (TreeRoleV1_as_u16 tree_role) [];
    checked_canonical_enum_length (ManifestEntryKindV1_as_u16 ExternalTree)
      [role; len target_root; 1]
  end.

Definition manifest_entry_projection_canonical_length (value : ManifestEntryV1) : contract Z :=
  kind ← checked_canonical_enum_length
           (ManifestEntryKindV1_as_u16 (ManifestPayloadV1_kind (entry_payload value))) [];
  metadata ← manifest_metadata_projection_canonical_length (entry_metadata value);
  payload ← manifest_payload_projection_canonical_length (entry_payload value);
  hardlink ← checked_canonical_optional_length
               ((λ digest, len digest) <$> entry_hardlink_group value);
  checked_canonical_object_length
    [len (entry_relative_path value); kind; metadata; payload; hardlink;
     len (entry_node_digest value)].

Definition manifest_entry_projection_list_canonical_length (values : list ManifestEntryV1) :
    contract Z :=
  checked_canonical_list_length (len values)
    (manifest_entry_projection_canonical_length <$> values).

Definition checked_tree_manifest_projection_canonical_length_v1 (mount_path : list Z)
    (tree_role : TreeRoleV1) (entries : list ManifestEntryV1) (root_digest : list Z) :
    contract Z :=
  role ← checked_canonical_enum_length (TreeRoleV1_as_u16 tree_role) [];
  entries ← manifest_entry_projection_list_canonical_length entries;
  checked_canonical_object_length [len mount_path; role; entries; len root_digest].

Definition checked_tree_manifest_canonical_length_v1 (value : TreeManifestV1) : contract Z :=
  role ← checked_canonical_enum_length (TreeRoleV1_as_u16 (tree_role value)) [];
  entries ← manifest_entry_projection_list_canonical_length (tree_entries value);
  checked_canonical_object_length
    [len (tree_mount_path value); role; entries; len (tree_root_digest value)].

Definition manifest_raw_path_list_canonical_length (values : list (list Z)) : contract Z :=
  checked_canonical_list_length (len values) ((λ value, Ok (len value)) <$> values).

(** ** Writers *)

Section writers.
Context {S E : Type} `{!ManifestCanonicalByteSinkV1 S E}.

Abbreviation writer_m :=
  (method (ManifestCanonicalWriterV1 S) (ManifestCanonicalWriteErrorV1 E)).

Definition write_manifest_timespec (value : TimespecV1) : writer_m () :=
  object_header TYPE_TIMESPEC 2;;
  field_header 1 I64 8;;
  writer_bytes (be_bytes 8 (timespec_seconds value));;
  field_header 2 U32 4;;
  writer_bytes (be_bytes 4 (timespec_nanoseconds value)).

Definition write_manifest_xattr (value : XattrV1) : writer_m () :=
  object_header TYPE_XATTR 2;;
  field_header 1 Bytes (len (xattr_name value));;
  writer_bytes (xattr_name value);;
  field_header 2 Bytes (len (xattr_value value));;
  writer_bytes (xattr_value value).

Definition write_manifest_xattr_list (values : list XattrV1) : writer_m () :=
  list_header (len values);;
  for_each (λ value,
    length ← canonical (manifest_xattr_canonical_length value);
    list_item_header length;;
    write_manifest_xattr value) values.

Definition write_manifest_metadata_projection (value : MetadataV1) : writer_m () :=
  timespec ← canonical manifest_timespec_canonical_length;
  btime ← canonical (checked_canonical_optional_length ((λ _, timespec) <$> metadata_btime value));
  xattrs ← canonical (manifest_xattr_list_canonical_length (metadata_xattrs value));
  object_header TYPE_METADATA 10;;
  field_header 1 U32 4;;
  writer_bytes (be_bytes 4 (metadata_mode value));;
  field_header 2 U32 4;;
  writer_bytes (be_bytes 4 (metadata_logical_uid value));;
  field_header 3 U32 4;;
  writer_bytes (be_bytes 4 (metadata_logical_gid value));;
  field_header 4 U64 8;;
  writer_bytes (be_bytes 8 (metadata_size value));;
  field_header 5 U64 8;;
  writer_bytes (be_bytes 8 (metadata_nlink value));;
  field_header 6 Object timespec;;
  write_manifest_timespec (metadata_atime value);;
  field_header 7 Object timespec;;
  write_manifest_timespec (metadata_mtime value);;
  field_header 8 Object timespec;;
  write_manifest_timespec (metadata_ctime value);;
  field_header 9 Optional btime;;
  match metadata_btime value with
  | None => writer_bytes [0]
  | Some value =>
    writer_bytes [1];;
    length ← canonical (try_width U64_MAX CanonicalEncoding timespec);
    writer_bytes (be_bytes 8 length);;
    write_manifest_timespec value
  end;;
  field_header 10 List xattrs;;
  write_manifest_xattr_list (metadata_xattrs value).

Definition write_manifest_metadata (value : MetadataV1) : writer_m () :=
  write_manifest_metadata_projection value.

Definition write_manifest_extent (value : ExtentV1) : writer_m () :=
  object_header TYPE_EXTENT 2;;
  field_header 1 U64 8;;
  writer_bytes (be_bytes 8 (extent_offset value));;
  field_header 2 U64 8;;
  writer_bytes (be_bytes 8 (extent_length value)).

Definition write_manifest_extent_list (values : list ExtentV1) : writer_m () :=
  item_length ← canonical manifest_extent_canonical_length;
  list_header (len values);;
  for_each (λ value,
    list_item_header item_length;;
    write_manifest_extent value) values.

Definition write_manifest_child (value : ChildCommitmentV1) : writer_m () :=
  kind ← canonical (checked_canonical_enum_length
                      (ManifestEntryKindV1_as_u16 (child_kind value)) []);
  object_header TYPE_CHILD_COMMITMENT 3;;
  field_header 1 Bytes (len (child_name value));;
  writer_bytes (child_name value);;
  field_header 2 Enum kind;;
  enum_header (ManifestEntryKindV1_as_u16 (child_kind value)) 0;;
  field_header 3 Bytes (len (child_node_digest value));;
  writer_bytes (child_node_digest value).

Definition write_manifest_child_list (values : list ChildCommitmentV1) : writer_m () :=
  list_header (len values);;
  for_each (λ value,
    length ← canonical (manifest_child_canonical_length value);
    list_item_header length;;
    write_manifest_child value) values.

Definition write_manifest_payload_projection (value : ManifestPayloadV1) : writer_m () :=
  match value with
  | Payloads.Directory children =>
    children_length ← canonical (manifest_child_list_canonical_length children);
    enum_header (ManifestEntryKindV1_as_u16 Directory) 1;;
    field_header 1 List children_length;;
    write_manifest_child_list children
  | Payloads.Regular content_digest data_extents =>
    extents_length ← canonical (manifest_extent_list_canonical_length data_extents);
    enum_header (ManifestEntryKindV1_as_u16 Regular) 2;;
    field_header 1 Bytes (len content_digest);;
    writer_bytes content_digest;;
    field_header 2 List extents_length;;
    write_manifest_extent_list data_extents
  | Payloads.Symlink target =>
    enum_header (ManifestEntryKindV1_as_u16 Symlink) 1;;
    field_header 1 Bytes (len target);;
    writer_bytes target
  | Payloads.ExternalTree tree_role target_root readonly =>
    role ← canonical (checked_canonical_enum_length (TreeRoleV1_as_u16 tree_role) []);
    enum_header (ManifestEntryKindV1_as_u16 ExternalTree) 3;;
    field_header 1 Enum role;;
    enum_header (TreeRoleV1_as_u16 tree_role) 0;;
    field_header 2 Bytes (len target_root);;
    writer_bytes target_root;;
    field_header 3 Bool 1;;
    writer_bytes [Z.b2z readonly]
  end.

Definition write_manifest_entry_projection (value : ManifestEntryV1) : writer_m () :=
  let kind_code := ManifestEntryKindV1_as_u16 (ManifestPayloadV1_kind (entry_payload value)) in
  kind ← canonical (checked_canonical_enum_length kind_code []);
  metadata ← canonical (manifest_metadata_projection_canonical_length (entry_metadata value));
  payload ← canonical (manifest_payload_projection_canonical_length (entry_payload value));
  hardlink ← canonical (checked_canonical_optional_length
                          ((λ digest, len digest) <$> entry_hardlink_group value));
  object_header TYPE_MANIFEST_ENTRY 6;;
  field_header 1 Bytes (len (entry_relative_path value));;
  writer_bytes (entry_relative_path value);;
  field_header 2 Enum kind;;
  enum_header kind_code 0;;
  field_header 3 Object metadata;;
  write_manifest_metadata_projection (entry_metadata value);;
  field_header 4 Enum payload;;
  write_manifest_payload_projection (entry_payload value);;
  field_header 5 Optional hardlink;;
  match entry_hardlink_group value with
  | None => writer_bytes [0]
  | Some digest =>
    writer_bytes [1];;
    length ← canonical (try_width U64_MAX CanonicalEncoding (len digest));
    writer_bytes (be_bytes 8 length);;
    writer_bytes digest
  end;;
  field_header 6 Bytes (len (entry_node_digest value));;
  writer_bytes (entry_node_digest value).

Definition write_manifest_entry_projection_list (values : list ManifestEntryV1) : writer_m () :=
  list_header (len values);;
  for_each (λ value,
    length ← canonical (manifest_entry_projection_canonical_length value);
    list_item_header length;;
    write_manifest_entry_projection value) values.

Definition write_tree_manifest_projection_canonical_inner (mount_path : list Z)
    (tree_role : TreeRoleV1) (entries : list ManifestEntryV1) (root_digest : list Z) :
    writer_m () :=
  role ← canonical (checked_canonical_enum_length (TreeRoleV1_as_u16 tree_role) []);
  entries_length ← canonical (manifest_entry_projection_list_canonical_length entries);
  object_header TYPE_TREE_MANIFEST 4;;
  field_header 1 Bytes (len mount_path);;
  writer_bytes mount_path;;
  field_header 2 Enum role;;
  enum_header (TreeRoleV1_as_u16 tree_role) 0;;
  field_header 3 List entries_length;;
  write_manifest_entry_projection_list entries;;
  field_header 4 Bytes (len root_digest);;
  writer_bytes root_digest.

Definition write_tree_manifest_canonical_inner (value : TreeManifestV1) : writer_m () :=
  write_tree_manifest_projection_canonical_inner (tree_mount_path value) (tree_role value)
    (tree_entries value) (tree_root_digest value).

(** The writer of raw paths, as a list of byte strings. *)
Definition write_manifest_raw_path_list (values : list (list Z)) : writer_m () :=
  list_header (len values);;
  for_each (λ value,
    list_item_header (len value);;
    writer_bytes value) values.

(** Checks the length first, writes, and compares; the result carries the sink. *)
Definition write_tree_manifest_projection_canonical_v1 (mount_path : list Z)
    (tree_role : TreeRoleV1) (entries : list ManifestEntryV1) (root_digest : list Z) :
    method S (ManifestCanonicalWriteErrorV1 E) Z := λ sink,
  match checked_tree_manifest_projection_canonical_length_v1 mount_path tree_role entries
          root_digest with
  | Err error => (Err (Canonical error), sink)
  | Ok length =>
    match write_tree_manifest_projection_canonical_inner mount_path tree_role entries root_digest
            (mkWriter sink 0) with
    | (Err error, writer) => (Err error, writer_sink writer)
    | (Ok _, writer) =>
      if negb (writer_written writer =? length)
      then (Err (Canonical CanonicalEncoding), writer_sink writer)
      else (Ok (writer_written writer), writer_sink writer)
    end
  end.
End writers.

(** ** Encoders over the vector sink *)

Definition encode_metadata (value : MetadataV1) : contract (list Z) :=
  length ← manifest_metadata_canonical_length value;
  encode_manifest_canonical_vec length (write_manifest_metadata value).

Definition encode_tree (value : TreeManifestV1) : contract (list Z) :=
  length ← checked_tree_manifest_canonical_length_v1 value;
  encode_manifest_canonical_vec length (write_tree_manifest_canonical_inner value).

Definition encode_metadata_for_hash (value : MetadataV1) : contract (list Z) :=
  encode_metadata value.

Definition encode_extents_for_hash (values : list ExtentV1) : contract (list Z) :=
  length ← manifest_extent_list_canonical_length values;
  encode_manifest_canonical_vec length (write_manifest_extent_list values).

Definition encode_children_for_hash (values : list ChildCommitmentV1) : contract (list Z) :=
  length ← manifest_child_list_canonical_length values;
  encode_manifest_canonical_vec length (write_manifest_child_list values).

Definition encode_paths_for_hash (values : list (list Z)) : contract (list Z) :=
  length ← manifest_raw_path_list_canonical_length values;
  encode_manifest_canonical_vec length (write_manifest_raw_path_list values).

Definition encode_runtime_mount (value : TreeManifestV1) : contract (list Z) :=
  let object := ObjectBuilder_new TYPE_RUNTIME_MOUNT in
  object ← ObjectBuilder_bytes object 1 (tree_mount_path value);
  object ← ObjectBuilder_bytes object 2 (tree_root_digest value);
  ObjectBuilder_finish_nested object.

Definition encode_runtime_forest_for_hash (values : list TreeManifestV1) : contract (list Z) :=
  mounts ← try_map encode_runtime_mount values;
  encode_list mounts.

Definition encode_snapshot_manifest (value : SnapshotManifestV1) : contract (list Z) :=
  let object := ObjectBuilder_new TYPE_SNAPSHOT_MANIFEST in
  object ← ObjectBuilder_utf8 object 1 (manifest_schema value);
  object ← ObjectBuilder_bytes object 2 (manifest_profile_digest value);
  object ← ObjectBuilder_bytes object 3 (manifest_workspace_identity value);
  workspace_tree ← encode_tree (manifest_workspace_tree value);
  object ← ObjectBuilder_object object 4 workspace_tree;
  runtime_trees ← try_map encode_tree (manifest_runtime_trees value);
  object ← ObjectBuilder_list object 5 runtime_trees;
  object ← ObjectBuilder_bytes object 6 (manifest_workspace_root value);
  object ← ObjectBuilder_bytes object 7 (manifest_runtime_root value);
  ObjectBuilder_finish_top object.
