(* ===== verification/StreamLaws.v ===== *)
(** * Laws of lengths and writers

    [writes m b]: for any sink, the writer [m] hands over chunks whose
    concatenation is [b], in order, and stops where the sink refuses one.
    The exact-length functions are related to the builders of the framing: both
    fail with the same error, and otherwise the length is that of the bytes. *)

From S2P Require Import Prelude Monad Bytes ContractTypes Canonical CanonicalSpec CanonicalParse.
From S2P Require Import CanonicalCodec RecordTypes Digest ManifestTypes ManifestWriter.
Import Wire.

(** ** Chunks *)

Section writes.
Context {S E : Type} `{!ManifestCanonicalByteSinkV1 S E}.

Abbreviation writer_m :=
  (method (ManifestCanonicalWriterV1 S) (ManifestCanonicalWriteErrorV1 E)).

Definition write_chunks (chunks : list (list Z)) : writer_m () := for_each writer_bytes chunks.

Definition writes (m : writer_m ()) (b : list Z) : Prop :=
  ∃ chunks, concat chunks = b ∧
    ∀ w, writer_written w + len b <= U64_MAX → m w = write_chunks chunks w.

Lemma write_chunks_app c1 c2 w :
  write_chunks (c1 ++ c2) w = (write_chunks c1;; write_chunks c2) w.
Proof.
  revert w; induction c1 as [|c c1 IH]; intros w; [done|]. cbn. unfold mbind, method_bind.
  destruct (writer_bytes c w) as [[?|?] w']; [|done]. apply IH.
Qed.

Lemma write_chunks_written chunks w u w' :
  write_chunks chunks w = (Ok u, w') → writer_written w' = writer_written w + len (concat chunks).
Proof.
  revert w; induction chunks as [|c chunks IH]; intros w; cbn.
  - intros [= _ <-]. rewrite len_nil. lia.
  - unfold mbind, method_bind. destruct (writer_bytes c w) as [[[]|?] w1] eqn:E1; [|done].
    intros ->%IH. unfold writer_bytes in E1. rewrite len_app.
    destruct (u64_checked_add _ _) as [next|] eqn:Hn; [|done].
    apply u64_checked_add_Some in Hn as [-> _].
    destruct (try_extend_canonical _ _) as [[?|?] ?]; simplify_eq. cbn. lia.
Qed.

Lemma writes_eq m b b' : writes m b → b = b' → writes m b'.
Proof. by intros ? <-. Qed.

Lemma writes_bytes b : writes (writer_bytes b) b.
Proof.
  exists [b]. split; [apply app_nil_r|]. intros w _. cbn. unfold mbind, method_bind.
  by destruct (writer_bytes b w) as [[[]|?] ?].
Qed.

Lemma writes_ret : writes (mret ()) [].
Proof. by exists []. Qed.

Lemma writes_bind m k b1 b2 : writes m b1 → writes k b2 → writes (m;; k) (b1 ++ b2).
Proof.
  intros (c1 & <- & H1) (c2 & <- & H2). exists (c1 ++ c2). split; [apply concat_app|].
  intros w Hw. rewrite len_app in Hw. pose proof (len_nonneg (concat c2)).
  rewrite write_chunks_app. unfold mbind, method_bind. rewrite H1 by lia.
  destruct (write_chunks c1 w) as [[u|?] w'] eqn:Ec; [|done].
  apply write_chunks_written in Ec. apply H2. lia.
Qed.

Lemma writes_canonical {A} (r : contract A) a (k : A → writer_m ()) b :
  r = Ok a → writes (k a) b → writes (canonical r ≫= k) b.
Proof. by intros ->. Qed.

Lemma writes_object_header ty n :
  writes (object_header ty n)
    (be_bytes 2 ty ++ be_bytes 2 EFFECT_IR_V2_WIRE_VERSION ++ be_bytes 2 n).
Proof. repeat apply writes_bind; apply writes_bytes. Qed.

Lemma writes_enum_header v n :
  v ≠ 0 → writes (enum_header v n) (be_bytes 2 v ++ be_bytes 2 n).
Proof.
  intros Hv. unfold enum_header. rewrite (proj2 (Z.eqb_neq _ _)) by done.
  apply writes_bind; apply writes_bytes.
Qed.

Lemma writes_field_header t w n :
  t ≠ 0 → n <= U64_MAX →
  writes (field_header t w n) (be_bytes 2 t ++ [WireType_as_u8 w] ++ be_bytes 8 n).
Proof.
  intros Ht Hn. unfold field_header. rewrite (proj2 (Z.eqb_neq _ _)) by done.
  eapply writes_canonical; [by apply try_width_Ok|].
  repeat apply writes_bind; apply writes_bytes.
Qed.

Lemma writes_list_header n :
  n <= EFFECT_IR_V2_MAX_COLLECTION_ITEMS → writes (list_header n) (be_bytes 8 n).
Proof.
  intros Hn. eapply writes_canonical; [|apply writes_bytes]. unfold canonical_collection_count.
  rewrite (proj2 (try_width_Ok _ _ _ n)) by (split; [done|size_lia]). rewrite bind_Ok.
  by rewrite (proj2 (Z.ltb_ge _ _)).
Qed.

Lemma writes_list_item_header n : n <= U64_MAX → writes (list_item_header n) (be_bytes 8 n).
Proof. intros Hn. eapply writes_canonical; [by apply try_width_Ok|apply writes_bytes]. Qed.

Lemma writes_for_each {A} (f : A → writer_m ()) values bs :
  Forall2 (λ x b, writes (f x) b) values bs → writes (for_each f values) (concat bs).
Proof.
  induction 1 as [|x b values bs Hx _ IH]; [apply writes_ret|]. cbn. by apply writes_bind.
Qed.

(** A field: its header and the writer of its payload. *)
Lemma writes_field t w n p m fs k :
  t ≠ 0 → n = len p → len p <= U64_MAX → writes m p → writes k (fields_bytes fs) →
  writes (field_header t w n;; m;; k) (fields_bytes (mkField t w p :: fs)).
Proof.
  intros Ht -> Hp Hm Hk.
  eapply writes_eq; [apply writes_bind; [by apply writes_field_header|by apply writes_bind]|].
  unfold fields_bytes. cbn [flat_map]. unfold field_bytes at 2. cbn. by rewrite <- !app_assoc.
Qed.

Lemma writes_last_field t w n p m :
  t ≠ 0 → n = len p → len p <= U64_MAX → writes m p →
  writes (field_header t w n;; m) (fields_bytes [mkField t w p]).
Proof.
  intros Ht -> Hp Hm. eapply writes_eq; [apply writes_bind; [by apply writes_field_header|done]|].
  unfold fields_bytes. cbn [flat_map]. unfold field_bytes. cbn. by rewrite app_nil_r, <- !app_assoc.
Qed.

Lemma writes_object ty n fs k :
  n = len fs → writes k (fields_bytes fs) → writes (object_header ty n;; k) (object_bytes ty fs).
Proof.
  intros -> Hk. eapply writes_eq; [apply writes_bind; [apply writes_object_header|done]|].
  unfold object_bytes. by rewrite <- !app_assoc.
Qed.

Lemma writes_enum v n fs k :
  v ≠ 0 → n = len fs → writes k (fields_bytes fs) →
  writes (enum_header v n;; k) (enum_bytes v fs).
Proof.
  intros Hv -> Hk. eapply writes_eq; [apply writes_bind; [by apply writes_enum_header|done]|].
  unfold enum_bytes. by rewrite <- !app_assoc.
Qed.

Lemma writes_simple_enum v : v ≠ 0 → writes (enum_header v 0) (enum_bytes v []).
Proof.
  intros Hv. eapply writes_eq; [by apply writes_enum_header|]. unfold enum_bytes. cbn.
  by rewrite app_nil_r.
Qed.

(** Items of a list, each with its length. *)
Lemma writes_items {A} (f : A → writer_m ()) values items :
  len items <= EFFECT_IR_V2_MAX_COLLECTION_ITEMS →
  Forall2 (λ x i, writes (f x) (item_bytes i)) values items →
  writes (list_header (len values);; for_each f values) (list_bytes items).
Proof.
  intros Hl H. unfold list_bytes. apply Forall2_length in H as Hlen.
  assert (len values = len items) as -> by (unfold len; congruence).
  apply writes_bind; [by apply writes_list_header|]. rewrite flat_map_concat_map.
  apply writes_for_each. change (map item_bytes items) with (item_bytes <$> items).
  by apply Forall2_fmap_r.
Qed.
End writes.

(** ** Errors of encoders *)

Definition only_encoding {A} (r : contract A) : Prop := ∀ e, r = Err e → e = CanonicalEncoding.

Lemma only_Ok {A} (a : A) : only_encoding (Ok a).
Proof. done. Qed.

Lemma only_Err {A} : only_encoding (A:=A) (Err CanonicalEncoding).
Proof. by intros e [= <-]. Qed.

Lemma only_bind {A B} (r : contract A) (k : A → contract B) :
  only_encoding r → (∀ a, only_encoding (k a)) → only_encoding (r ≫= k).
Proof. intros Hr Hk. destruct r as [a|e]; [apply Hk|]. intros e' [= <-]. by apply Hr. Qed.

Lemma only_fmap {A B} (f : A → B) (r : contract A) : only_encoding r → only_encoding (f <$> r).
Proof. intros Hr. destruct r as [a|e]; [apply only_Ok|]. intros e' [= <-]. by apply Hr. Qed.

Lemma only_try_width max n : only_encoding (try_width max CanonicalEncoding n).
Proof. unfold try_width. case_match; [apply only_Ok|apply only_Err]. Qed.

Lemma only_add a b : only_encoding (checked_canonical_add a b).
Proof. unfold checked_canonical_add. destruct (u64_checked_add a b); [apply only_Ok|apply only_Err]. Qed.

Lemma only_payload n : only_encoding (checked_canonical_payload_length n).
Proof.
  apply only_bind; [apply only_try_width|]. intros m. case_match; [apply only_Err|apply only_Ok].
Qed.

Lemma only_add_fields n ps : only_encoding (add_field_lengths n ps).
Proof.
  revert n; induction ps as [|p ps IH]; intros n; [apply only_Ok|]. cbn.
  apply only_bind; [|intros ?; apply only_bind; [apply only_add|done]].
  apply only_bind; [apply only_add|intros; apply only_payload].
Qed.

Lemma only_add_items c n ls :
  Forall only_encoding ls → only_encoding (add_item_lengths c n ls).
Proof.
  intros H; revert c n; induction H as [|l ls Hl _ IH]; intros c n; [apply only_Ok|]. cbn.
  apply only_bind.
  { destruct (u64_checked_add c 1); [apply only_Ok|apply only_Err]. }
  intros ?. apply only_bind; [done|]. intros ?. apply only_bind; [apply only_add|]. intros ?.
  apply only_bind; [apply only_add|]. intros ?. apply IH.
Qed.

Lemma only_object ps : only_encoding (checked_canonical_object_length ps).
Proof.
  apply only_bind; [apply only_try_width|]. intros _.
  apply only_bind; [apply only_add_fields|intros; apply only_payload].
Qed.

Lemma only_enum v ps : only_encoding (checked_canonical_enum_length v ps).
Proof.
  unfold checked_canonical_enum_length. case_match; [apply only_Err|].
  apply only_bind; [apply only_try_width|]. intros _.
  apply only_bind; [apply only_add_fields|intros; apply only_payload].
Qed.

Lemma only_list n ls : Forall only_encoding ls → only_encoding (checked_canonical_list_length n ls).
Proof.
  intros Hls. apply only_bind.
  - apply only_bind; [apply only_try_width|]. intros ?. case_match; [apply only_Err|apply only_Ok].
  - intros _. apply only_bind; [by apply only_add_items|]. intros [c m].
    case_match; [apply only_payload|apply only_Err].
Qed.

Lemma only_optional o : only_encoding (checked_canonical_optional_length o).
Proof.
  destruct o; [|apply only_Ok]. apply only_bind; [apply only_add|intros; apply only_payload].
Qed.

Lemma only_field o t w p : only_encoding (ObjectBuilder_field o t w p).
Proof. unfold ObjectBuilder_field. case_match; [apply only_Err|apply only_Ok]. Qed.

Lemma only_size b : only_encoding (enforce_size b).
Proof. unfold enforce_size. case_match; [apply only_Err|apply only_Ok]. Qed.

Lemma only_put_fields previous output fs : only_encoding (put_fields_from previous output fs).
Proof.
  revert previous output; induction fs as [|f fs IH]; intros previous output; [apply only_Ok|].
  cbn. case_match; [apply only_Err|]. apply only_bind; [apply only_try_width|auto].
Qed.

Lemma only_finish_nested o : only_encoding (ObjectBuilder_finish_nested o).
Proof.
  unfold ObjectBuilder_finish_nested, put_fields.
  repeat first [apply only_bind; [|intros ?] | apply only_try_width | apply only_put_fields
               | apply only_size | apply only_Ok].
Qed.

Lemma only_encode_enum v fs : only_encoding (encode_enum v fs).
Proof.
  unfold encode_enum, put_fields. case_match; [apply only_Err|].
  repeat first [apply only_bind; [|intros ?] | apply only_try_width | apply only_put_fields
               | apply only_size | apply only_Ok].
Qed.

Lemma only_put_items output items : only_encoding (put_items output items).
Proof.
  revert output; induction items as [|i items IH]; intros output; [apply only_Ok|]. cbn.
  apply only_bind; [apply only_try_width|auto].
Qed.

Lemma only_encode_list items : only_encoding (encode_list items).
Proof.
  unfold encode_list. apply only_bind; [apply only_try_width|]. intros ?.
  case_match; [apply only_Err|].
  repeat first [apply only_bind; [|intros ?] | apply only_put_items | apply only_size | apply only_Ok].
Qed.

Lemma only_encode_optional o : only_encoding (encode_optional o).
Proof.
  unfold encode_optional. destruct o;
  repeat first [apply only_bind; [|intros ?] | apply only_try_width | apply only_size | apply only_Ok].
Qed.

Lemma only_try_map {A B} (f : A → contract B) l :
  (∀ x, only_encoding (f x)) → only_encoding (try_map f l).
Proof.
  intros Hf. induction l as [|x l IH]; [apply only_Ok|]. cbn.
  apply only_bind; [apply Hf|]. intros ?. apply only_bind; [done|]. intros. apply only_Ok.
Qed.

Lemma only_try_option {A B} (f : A → contract B) o :
  (∀ x, only_encoding (f x)) → only_encoding (try_option f o).
Proof. intros Hf. destruct o; [|apply only_Ok]. apply only_bind; [apply Hf|]. intros. apply only_Ok. Qed.

Create HintDb only.
#[export] Hint Resolve only_Ok only_Err only_field only_finish_nested only_encode_enum
  only_encode_list only_encode_optional only_try_map only_try_option only_object only_enum
  only_optional : only.

Ltac term_head t := lazymatch t with ?f _ => term_head f | _ => t end.

Ltac solve_only :=
  repeat first
    [ solve [auto with only]
    | lazymatch goal with
      | |- only_encoding (mbind _ _) => apply only_bind; [|intros ?]
      | |- only_encoding (fmap _ _) => apply only_fmap
      | |- only_encoding (match _ with _ => _ end) => case_match
      | |- only_encoding ?r => let f := term_head r in unfold f; cbv zeta beta
      end ].

(** ** Lengths are those of the bytes *)

Fixpoint fields_length (ps : list Z) : Z :=
  match ps with [] => 0 | p :: ps => 11 + p + fields_length ps end.

Lemma len_fields_bytes fs : len (fields_bytes fs) = fields_length (len ∘ field_payload <$> fs).
Proof.
  induction fs as [|f fs IH]; [done|]. rewrite fields_bytes_cons, len_app, len_field_bytes, IH.
  done.
Qed.

Lemma fields_length_nonneg ps : Forall (λ p, 0 <= p) ps → 0 <= fields_length ps.
Proof. induction 1; cbn; lia. Qed.

Lemma payload_length_Ok n m :
  checked_canonical_payload_length n = Ok m ↔ m = n ∧ n <= EFFECT_IR_V2_MAX_CANONICAL_BYTES.
Proof.
  unfold checked_canonical_payload_length, try_width.
  destruct (Z.leb_spec n U64_MAX); [rewrite bind_Ok|].
  - destruct (Z.ltb_spec EFFECT_IR_V2_MAX_CANONICAL_BYTES n); naive_solver lia.
  - split; [done|]. intros [_ ?]. exfalso. size_lia.
Qed.

Lemma canonical_add_Ok a b c :
  checked_canonical_add a b = Ok c ↔ c = a + b ∧ a + b <= U64_MAX.
Proof. unfold checked_canonical_add. rewrite ok_or_Ok_iff. apply u64_checked_add_Some. Qed.

Lemma add_field_lengths_Ok n ps m :
  0 <= n → Forall (λ p, 0 <= p) ps → n + fields_length ps <= EFFECT_IR_V2_MAX_CANONICAL_BYTES →
  add_field_lengths n ps = Ok m ↔ m = n + fields_length ps.
Proof.
  intros Hn Hps; revert n Hn; induction Hps as [|p ps Hp Hps IH]; intros n Hn Hle; cbn in *.
  { rewrite Z.add_0_r. naive_solver. }
  pose proof (fields_length_nonneg ps Hps). unfold checked_canonical_field_length.
  rewrite (proj2 (canonical_add_Ok _ _ (11 + p))) by (split; [done|unfold FIELD_HEADER_BYTES; size_lia]).
  rewrite bind_Ok, (proj2 (payload_length_Ok _ (11 + p))) by (split; [done|lia]).
  rewrite bind_Ok, (proj2 (canonical_add_Ok _ _ (n + (11 + p)))) by (split; [done|size_lia]).
  rewrite bind_Ok, IH by lia. split; lia.
Qed.

Lemma add_field_lengths_bound n ps m :
  Forall (λ p, 0 <= p) ps → add_field_lengths n ps = Ok m → m = n + fields_length ps.
Proof.
  intros Hps; revert n; induction Hps as [|p ps Hp Hps IH]; intros n; cbn.
  { intros [= <-]. lia. }
  unfold checked_canonical_field_length.
  intros (f & (g & [-> _]%canonical_add_Ok & [-> _]%payload_length_Ok)%result_bind_Ok & H)%result_bind_Ok.
  apply result_bind_Ok in H as (l & [-> _]%canonical_add_Ok & ->%IH).
  unfold FIELD_HEADER_BYTES. lia.
Qed.

(** The lengths of an object or an enumeration with a header of [h] bytes. *)
Lemma fields_lengths_Ok h ps n :
  0 <= h → Forall (λ p, 0 <= p) ps →
  (length ← add_field_lengths h ps; checked_canonical_payload_length length) = Ok n ↔
  n = h + fields_length ps ∧ n <= EFFECT_IR_V2_MAX_CANONICAL_BYTES.
Proof.
  intros Hh Hps. split.
  - intros (m & ->%add_field_lengths_bound & [-> ?]%payload_length_Ok)%result_bind_Ok; done.
  - intros [-> Hl]. rewrite (proj2 (add_field_lengths_Ok h ps _ Hh Hps Hl) eq_refl), bind_Ok.
    by apply payload_length_Ok.
Qed.

Lemma payload_lengths_nonneg fs : Forall (λ p, 0 <= p) (len ∘ field_payload <$> fs).
Proof. apply list.Forall_fmap, list.Forall_true. intros f. apply len_nonneg. Qed.

Lemma fmap_len_fields (fs : list Field) : len (len ∘ field_payload <$> fs) = len fs.
Proof. unfold len at 1 3. by rewrite length_fmap. Qed.

Lemma object_length_exact ty fs n :
  tags_increase 0 fs = true →
  checked_canonical_object_length (len ∘ field_payload <$> fs) = Ok n ↔
  ∃ b, ObjectBuilder_finish_nested (mkBuilder ty fs) = Ok b ∧ n = len b.
Proof.
  intros Ht. unfold checked_canonical_object_length. rewrite fmap_len_fields.
  assert (len (object_bytes ty fs) = OBJECT_HEADER_BYTES + fields_length (len ∘ field_payload <$> fs))
    as Hlen by (unfold object_bytes; len_simpl; rewrite len_fields_bytes; unfold OBJECT_HEADER_BYTES; lia).
  setoid_rewrite finish_nested_Ok. unfold try_width.
  destruct (Z.leb_spec (len fs) U16_MAX); [rewrite bind_Ok|].
  - rewrite fields_lengths_Ok by first [done|apply payload_lengths_nonneg]. naive_solver lia.
  - split; [done|]. intros (b & (? & _) & _). lia.
Qed.

Lemma enum_length_exact v fs n :
  tags_increase 0 fs = true →
  checked_canonical_enum_length v (len ∘ field_payload <$> fs) = Ok n ↔
  ∃ b, encode_enum v fs = Ok b ∧ n = len b.
Proof.
  intros Ht. unfold checked_canonical_enum_length. rewrite fmap_len_fields.
  assert (len (enum_bytes v fs) = ENUM_HEADER_BYTES + fields_length (len ∘ field_payload <$> fs))
    as Hlen by (unfold enum_bytes; len_simpl; rewrite len_fields_bytes; unfold ENUM_HEADER_BYTES; lia).
  setoid_rewrite encode_enum_Ok. destruct (Z.eqb_spec v 0) as [->|Hv].
  { split; [done|]. naive_solver. }
  unfold try_width. destruct (Z.leb_spec (len fs) U16_MAX); [rewrite bind_Ok|].
  - rewrite fields_lengths_Ok by first [done|apply payload_lengths_nonneg]. naive_solver lia.
  - split; [done|]. intros (b & (_ & ? & _) & _). lia.
Qed.

Lemma optional_length_exact o n :
  checked_canonical_optional_length (len <$> o) = Ok n ↔
  ∃ b, encode_optional o = Ok b ∧ n = len b.
Proof.
  setoid_rewrite encode_optional_Ok. destruct o as [v|]; cbn.
  - rewrite result_bind_Ok_iff. setoid_rewrite canonical_add_Ok. setoid_rewrite payload_length_Ok.
    unfold OPTIONAL_PRESENT_HEADER_BYTES. pose proof (len_nonneg v).
    assert (len (1 :: item_bytes v) = 9 + len v) as Hl by (unfold item_bytes; len_simpl; lia).
    split.
    + intros (m & [-> ?] & -> & ?). exists (1 :: item_bytes v). rewrite Hl. by repeat split.
    + intros (b & [-> Hb] & ->). rewrite Hl in *. exists (9 + len v). repeat split; size_lia.
  - unfold OPTIONAL_ABSENT_BYTES. split.
    + intros [= <-]. by exists [0].
    + by intros (b & [-> _] & ->).
Qed.

Lemma len_items_cons i items :
  len (flat_map item_bytes (i :: items)) = 8 + len i + len (flat_map item_bytes items).
Proof. cbn [flat_map]. unfold item_bytes at 1. len_simpl. lia. Qed.

Lemma add_item_lengths_Ok {A} (f : A → contract Z) (g : A → contract (list Z)) values c n r :
  (∀ x, f x = len <$> g x) → 0 <= c <= U64_MAX → 0 <= n <= U64_MAX →
  add_item_lengths c n (f <$> values) = Ok r ↔
  ∃ items, try_map g values = Ok items ∧
    r = (c + len items, n + len (flat_map item_bytes items)) ∧
    c + len items <= U64_MAX ∧ n + len (flat_map item_bytes items) <= U64_MAX.
Proof.
  intros Hf. revert c n. induction values as [|x values IH]; intros c n Hc Hn.
  { cbn. split; [intros [= <-]; exists []|intros (items & [= <-] & -> & _)];
      rewrite ?len_nil, ?Z.add_0_r; naive_solver lia. }
  rewrite fmap_cons. cbn [add_item_lengths try_map]. rewrite Hf.
  destruct (g x) as [i|e]; cbn [fmap result_fmap].
  2: { split; [by intros (? & _ & ?)%result_bind_Ok|by intros (? & ? & _)]. }
  rewrite !bind_Ok. pose proof (len_nonneg i) as Hi. unfold LIST_ITEM_HEADER_BYTES. split.
  - intros (c' & [-> ?]%ok_or_Ok_iff%u64_checked_add_Some & Hk)%result_bind_Ok.
    apply result_bind_Ok in Hk as (? & [= <-] & Hk).
    apply result_bind_Ok in Hk as (n1 & [-> ?]%canonical_add_Ok & Hk).
    apply result_bind_Ok in Hk as (n2 & [-> ?]%canonical_add_Ok & Hk).
    apply IH in Hk as (items & Hm & -> & ? & ?); [|lia..]. exists (i :: items). rewrite Hm, bind_Ok.
    rewrite len_items_cons, len_cons. split_and!; [done|f_equal; lia|lia..].
  - intros (? & (items & Hm & [= <-])%result_bind_Ok & -> & Hl & Hs).
    rewrite len_items_cons, len_cons in *.
    pose proof (len_nonneg items). pose proof (len_nonneg (flat_map item_bytes items)).
    rewrite (proj2 (ok_or_Ok_iff _ _ (c + 1))), !bind_Ok by (apply u64_checked_add_Some; lia).
    rewrite (proj2 (canonical_add_Ok _ _ (n + 8))), bind_Ok by lia.
    rewrite (proj2 (canonical_add_Ok _ _ (n + 8 + len i))), bind_Ok by lia.
    apply IH; [lia..|]. exists items. split_and!; [done|f_equal; lia|lia..].
Qed.

(** The length of a list is that of its encoding, when this holds of the items. *)
Lemma list_length_exact {A} (f : A → contract Z) (g : A → contract (list Z)) values n :
  (∀ x, f x = len <$> g x) →
  checked_canonical_list_length (len values) (f <$> values) = Ok n ↔
  ∃ items b, try_map g values = Ok items ∧ encode_list items = Ok b ∧ n = len b.
Proof.
  intros Hf. unfold checked_canonical_list_length, canonical_collection_count.
  assert (∀ items, try_map g values = Ok items → len items = len values) as Hlen.
  { intros items H%try_map_Forall2%Forall2_length. unfold len. congruence. }
  assert (∀ items, len (list_bytes items) = LIST_HEADER_BYTES + len (flat_map item_bytes items))
    as Hb by (intros; unfold list_bytes; len_simpl; done).
  setoid_rewrite encode_list_Ok. split.
  - intros (c & (? & [-> _]%try_width_Ok & Hc)%result_bind_Ok & H)%result_bind_Ok.
    destruct (Z.ltb_spec EFFECT_IR_V2_MAX_COLLECTION_ITEMS (len values)); [done|].
    apply result_bind_Ok in H as ([o l] & Hi & H).
    apply add_item_lengths_Ok with (g:=g) in Hi as (items & Hm & [= -> ->] & _); [|done..].
    rewrite Z.add_0_l, (Hlen _ Hm), Z.eqb_refl in H. apply payload_length_Ok in H as [-> ?].
    exists items, (list_bytes items). rewrite Hb, (Hlen _ Hm). done.
  - intros (items & b & Hm & (Hc & -> & Hs) & ->). rewrite (Hlen _ Hm) in Hc. rewrite Hb in *.
    rewrite (proj2 (try_width_Ok _ _ _ (len values))), bind_Ok by (split; [done|size_lia]).
    rewrite (proj2 (Z.ltb_ge _ _)), bind_Ok by done.
    rewrite (proj2 (add_item_lengths_Ok f g values 0 LIST_HEADER_BYTES
                     (0 + len items, LIST_HEADER_BYTES + len (flat_map item_bytes items)) Hf
                     ltac:(done) ltac:(done))), bind_Ok.
    + rewrite Z.add_0_l, (Hlen _ Hm), Z.eqb_refl. by apply payload_length_Ok.
    + exists items. rewrite (Hlen _ Hm). split_and!; [done|done|size_lia|size_lia].
Qed.

(** ** A length and an encoding that agree *)

Lemma length_of_encoding (l : contract Z) (r : contract (list Z)) :
  only_encoding l → only_encoding r → (∀ n, l = Ok n ↔ ∃ b, r = Ok b ∧ n = len b) →
  l = len <$> r.
Proof.
  intros Hl Hr H. destruct r as [b|e]; cbn.
  - apply H. eauto.
  - destruct l as [n|e']; [|by rewrite (Hl e'), (Hr e)]. destruct (proj1 (H n) eq_refl) as (? & ? & _).
    done.
Qed.

Lemma object_length_of_encoding ty fs :
  tags_increase 0 fs = true →
  checked_canonical_object_length (len ∘ field_payload <$> fs)
  = len <$> ObjectBuilder_finish_nested (mkBuilder ty fs).
Proof.
  intros Ht. apply length_of_encoding; [auto with only..|]. intros n. by apply object_length_exact.
Qed.

Lemma enum_length_of_encoding v fs :
  tags_increase 0 fs = true →
  checked_canonical_enum_length v (len ∘ field_payload <$> fs) = len <$> encode_enum v fs.
Proof.
  intros Ht. apply length_of_encoding; [auto with only..|]. intros n. by apply enum_length_exact.
Qed.

Lemma optional_length_of_encoding o :
  checked_canonical_optional_length (len <$> o) = len <$> encode_optional o.
Proof. apply length_of_encoding; [auto with only..|]. apply optional_length_exact. Qed.

(** Both sides fail when a common part fails. *)
Lemma length_bind (r : contract (list Z)) (f : Z → contract Z) (g : list Z → contract (list Z)) :
  (∀ b, r = Ok b → f (len b) = len <$> g b) → (len <$> r) ≫= f = len <$> (r ≫= g).
Proof. destruct r as [b|e]; [|done]. intros H. by apply H. Qed.

Lemma list_length_of_encoding {A} (f : A → contract Z) (g : A → contract (list Z)) values :
  (∀ x, f x = len <$> g x) → (∀ x, only_encoding (g x)) →
  checked_canonical_list_length (len values) (f <$> values) =
  len <$> (items ← try_map g values; encode_list items).
Proof.
  intros Hf Hg. apply length_of_encoding.
  - apply only_list, list.Forall_fmap, list.Forall_true. intros x. cbn. rewrite Hf.
    apply only_fmap, Hg.
  - apply only_bind; [by apply only_try_map|auto with only].
  - intros n. rewrite (list_length_exact f g) by done. split.
    + intros (items & b & Hm & He & ->). exists b. by rewrite Hm.
    + intros (b & (items & Hm & He)%result_bind_Ok & ->). eauto.
Qed.

(** A list writer follows its item writer. *)
Lemma list_writes {S E A} `{!ManifestCanonicalByteSinkV1 S E}
    (g : A → contract (list Z)) (m : A → method (ManifestCanonicalWriterV1 S)
      (ManifestCanonicalWriteErrorV1 E) ()) values items b :
  (∀ x i, g x = Ok i → writes (m x) (item_bytes i)) →
  try_map g values = Ok items → encode_list items = Ok b →
  writes (list_header (len values);; for_each m values) b.
Proof.
  intros Hm Hi%try_map_Forall2 (Hc & -> & _)%encode_list_Ok. apply writes_items; [done|].
  clear Hc. induction Hi; constructor; auto.
Qed.

Lemma list_item_writes {S E} `{!ManifestCanonicalByteSinkV1 S E} (l : contract Z)
    (m : method (ManifestCanonicalWriterV1 S) (ManifestCanonicalWriteErrorV1 E) ()) i :
  l = Ok (len i) → len i <= U64_MAX → writes m i →
  writes (length ← canonical l; list_item_header length;; m) (item_bytes i).
Proof.
  intros Hl Hi Hm. eapply writes_canonical; [exact Hl|].
  apply writes_bind; [by apply writes_list_item_header|done].
Qed.

(** ** The vector sink *)

Lemma vec_chunks chunks w :
  writer_written w = len (vec_bytes (writer_sink w)) →
  len (vec_bytes (writer_sink w)) + len (concat chunks) <= vec_exact_length (writer_sink w) →
  vec_exact_length (writer_sink w) <= U64_MAX →
  write_chunks chunks w =
    (Ok (), mkWriter (mkVecSink (vec_bytes (writer_sink w) ++ concat chunks)
                        (vec_exact_length (writer_sink w)))
              (writer_written w + len (concat chunks))).
Proof.
  unfold write_chunks. revert w; induction chunks as [|c chunks IH]; intros [[bytes exact] written] Hw Hl Hm; cbn in *.
  { by rewrite app_nil_r, Z.add_0_r. }
  rewrite len_app in *. pose proof (len_nonneg (concat chunks)).
  unfold mbind, method_bind, writer_bytes, try_extend_canonical, vec_sink, vec_try_extend_canonical.
  cbn. rewrite (proj2 (u64_checked_add_Some _ _ (written + len c))) by lia.
  rewrite (proj2 (u64_checked_add_Some _ _ (len bytes + len c))) by lia.
  rewrite (proj2 (Z.ltb_ge _ _)) by lia. rewrite IH; cbn; rewrite ?len_app; try lia.
  rewrite <- app_assoc, Z.add_assoc. done.
Qed.

(** Encoding through the vector sink is the reference encoding. *)
Lemma vec_exact (l : contract Z) (r : contract (list Z)) write :
  l = len <$> r → (∀ b, r = Ok b → writes write b ∧ len b <= EFFECT_IR_V2_MAX_CANONICAL_BYTES) →
  (length ← l; encode_manifest_canonical_vec length write) = r.
Proof.
  intros -> Hr. destruct r as [b|e]; [|done]. destruct (Hr b eq_refl) as [(chunks & <- & Hw) Hl].
  cbn. unfold encode_manifest_canonical_vec, ManifestCanonicalVecSinkV1_new.
  rewrite (proj2 (payload_length_Ok _ _) (conj eq_refl Hl)), !bind_Ok.
  rewrite Hw by (cbn; size_lia). rewrite vec_chunks; cbn; [|done|rewrite len_nil; lia|size_lia].
  unfold ManifestCanonicalVecSinkV1_finish. cbn. by rewrite Z.eqb_refl.
Qed.

(** ** The hasher sink *)

Lemma hasher_chunks chunks w :
  writer_written w + len (concat chunks) <= U64_MAX → 
  write_chunks chunks w =
    (Ok (), mkWriter (Hasher_update (concat chunks) (writer_sink w))
              (writer_written w + len (concat chunks))).
Proof.
  unfold write_chunks. revert w; induction chunks as [|c chunks IH]; intros [[context input] written] Hw; cbn in *.
  { unfold Hasher_update. cbn. by rewrite app_nil_r, Z.add_0_r. }
  rewrite len_app in *. pose proof (len_nonneg (concat chunks)).
  unfold mbind, method_bind, writer_bytes, try_extend_canonical, hasher_sink,
    hasher_try_extend_canonical. cbn.
  rewrite (proj2 (u64_checked_add_Some _ _ (written + len c))) by lia.
  rewrite IH by (cbn; lia). cbn. unfold Hasher_update. cbn. by rewrite <- app_assoc, Z.add_assoc.
Qed.

Lemma hasher_exact write b hasher :
  writes write b → len b <= U64_MAX →
  map_infallible_manifest_write write hasher = Ok (Hasher_update b hasher).
Proof.
  intros (chunks & <- & Hw) Hl. unfold map_infallible_manifest_write.
  rewrite Hw by (cbn; lia). by rewrite hasher_chunks by (cbn; lia).
Qed.
