(* ===== verification/ManifestReference.v ===== *)
(** * The streaming encoders equal the reference encoders

    The tests of [src/src/linux_pytest/canonical.rs] keep encoders of the
    manifest structures that build every object in memory. The exact lengths,
    the writers and the encoders over the vector sink agree with them on every
    value, errors included. *)

From S2P Require Import Prelude Monad Bytes ContractTypes Canonical CanonicalSpec CanonicalParse.
From S2P Require Import CanonicalCodec RecordTypes Paths RecordValidation RecordCodec Digest.
From S2P Require Import ManifestTypes ManifestWriter ManifestStream StreamLaws.
Import Wire TreeRoles EntryKinds.

(** ** Reference encoders *)

Definition reference_encode_timespec (value : TimespecV1) : contract (list Z) :=
  let object := ObjectBuilder_new TYPE_TIMESPEC in
  object ← ObjectBuilder_i64 object 1 (timespec_seconds value);
  object ← ObjectBuilder_u32 object 2 (timespec_nanoseconds value);
  ObjectBuilder_finish_nested object.

Definition reference_encode_xattr (value : XattrV1) : contract (list Z) :=
  let object := ObjectBuilder_new TYPE_XATTR in
  object ← ObjectBuilder_bytes object 1 (xattr_name value);
  object ← ObjectBuilder_bytes object 2 (xattr_value value);
  ObjectBuilder_finish_nested object.

Definition reference_encode_metadata (value : MetadataV1) : contract (list Z) :=
  let object := ObjectBuilder_new TYPE_METADATA in
  object ← ObjectBuilder_u32 object 1 (metadata_mode value);
  object ← ObjectBuilder_u32 object 2 (metadata_logical_uid value);
  object ← ObjectBuilder_u32 object 3 (metadata_logical_gid value);
  object ← ObjectBuilder_u64 object 4 (metadata_size value);
  object ← ObjectBuilder_u64 object 5 (metadata_nlink value);
  atime ← reference_encode_timespec (metadata_atime value);
  object ← ObjectBuilder_object object 6 atime;
  mtime ← reference_encode_timespec (metadata_mtime value);
  object ← ObjectBuilder_object object 7 mtime;
  ctime ← reference_encode_timespec (metadata_ctime value);
  object ← ObjectBuilder_object object 8 ctime;
  btime ← try_option reference_encode_timespec (metadata_btime value);
  object ← ObjectBuilder_optional object 9 btime;
  xattrs ← try_map reference_encode_xattr (metadata_xattrs value);
  object ← ObjectBuilder_list object 10 xattrs;
  ObjectBuilder_finish_nested object.

Definition reference_encode_extent (value : ExtentV1) : contract (list Z) :=
  let object := ObjectBuilder_new TYPE_EXTENT in
  object ← ObjectBuilder_u64 object 1 (extent_offset value);
  object ← ObjectBuilder_u64 object 2 (extent_length value);
  ObjectBuilder_finish_nested object.

Definition reference_encode_child (value : ChildCommitmentV1) : contract (list Z) :=
  let object := ObjectBuilder_new TYPE_CHILD_COMMITMENT in
  object ← ObjectBuilder_bytes object 1 (child_name value);
  object ← ObjectBuilder_enumeration object 2 (ManifestEntryKindV1_as_u16 (child_kind value)) [];
  object ← ObjectBuilder_bytes object 3 (child_node_digest value);
  ObjectBuilder_finish_nested object.

Definition reference_encode_payload (value : ManifestPayloadV1) : contract (list Z) :=
  match value with
  | Payloads.Directory children =>
    children ← try_map reference_encode_child children;
    children ← encode_list children;
    encode_enum (ManifestEntryKindV1_as_u16 Directory) [enum_field 1 List children]
  | Payloads.Regular content_digest data_extents =>
    extents ← try_map reference_encode_extent data_extents;
    extents ← encode_list extents;
    encode_enum (ManifestEntryKindV1_as_u16 Regular)
      [enum_field 1 Bytes content_digest; enum_field 2 List extents]
  | Payloads.Symlink target =>
    encode_enum (ManifestEntryKindV1_as_u16 Symlink) [enum_field 1 Bytes target]
  | Payloads.ExternalTree tree_role target_root readonly =>
    role ← encode_enum (TreeRoleV1_as_u16 tree_role) [];
    encode_enum (ManifestEntryKindV1_as_u16 ExternalTree)
      [enum_field 1 Enum role; enum_field 2 Bytes target_root;
       enum_field 3 Bool [Z.b2z readonly]]
  end.

Definition reference_encode_entry (value : ManifestEntryV1) : contract (list Z) :=
  let object := ObjectBuilder_new TYPE_MANIFEST_ENTRY in
  object ← ObjectBuilder_bytes object 1 (entry_relative_path value);
  object ← ObjectBuilder_enumeration object 2
             (ManifestEntryKindV1_as_u16 (ManifestPayloadV1_kind (entry_payload value))) [];
  metadata ← reference_encode_metadata (entry_metadata value);
  object ← ObjectBuilder_object object 3 metadata;
  payload ← reference_encode_payload (entry_payload value);
  object ← ObjectBuilder_field object 4 Enum payload;
  object ← ObjectBuilder_optional object 5 (entry_hardlink_group value);
  object ← ObjectBuilder_bytes object 6 (entry_node_digest value);
  ObjectBuilder_finish_nested object.

Definition reference_encode_tree (value : TreeManifestV1) : contract (list Z) :=
  let object := ObjectBuilder_new TYPE_TREE_MANIFEST in
  object ← ObjectBuilder_bytes object 1 (tree_mount_path value);
  object ← ObjectBuilder_enumeration object 2 (TreeRoleV1_as_u16 (tree_role value)) [];
  entries ← try_map reference_encode_entry (tree_entries value);
  object ← ObjectBuilder_list object 3 entries;
  object ← ObjectBuilder_bytes object 4 (tree_root_digest value);
  ObjectBuilder_finish_nested object.

(** ** Objects with known payloads *)

Lemma builder_field_len ty fs t w p :
  (t =? 0) || last_tag_at_least fs t = false → len p <= U64_MAX →
  ObjectBuilder_field (mkBuilder ty fs) t w p = Ok (mkBuilder ty (fs ++ [mkField t w p])).
Proof.
  intros Ht Hp. unfold ObjectBuilder_field. cbn. rewrite Ht. cbn.
  by rewrite (proj2 (Z.ltb_ge _ _)).
Qed.

Lemma finish_nested_payloads ty fs b :
  ObjectBuilder_finish_nested (mkBuilder ty fs) = Ok b →
  Forall (λ f, len (field_payload f) <= U64_MAX) fs.
Proof.
  intros (_ & _ & -> & Hl)%finish_nested_Ok. apply list.Forall_forall. intros f Hf.
  apply len_fields_bytes_payload in Hf. unfold object_bytes in Hl. len_simpl. size_lia.
Qed.

Lemma encode_enum_payloads v fs b :
  encode_enum v fs = Ok b → Forall (λ f, len (field_payload f) <= U64_MAX) fs.
Proof.
  intros (_ & _ & _ & -> & Hl)%encode_enum_Ok. apply list.Forall_forall. intros f Hf.
  apply len_fields_bytes_payload in Hf. unfold enum_bytes in Hl. len_simpl. size_lia.
Qed.

(** Opens the bounds on the payloads of a finished object or enumeration. *)
Ltac open_bounds H :=
  repeat (let h := fresh "Hp" in apply list.Forall_cons in H as [h H]; cbn [field_payload] in h);
  clear H.

Ltac pose_bounds H :=
  let Hb := fresh "Hb" in
  first [pose proof (finish_nested_payloads _ _ _ H) as Hb
        |pose proof (encode_enum_payloads _ _ _ H) as Hb]; open_bounds Hb.

(** Runs a builder whose payloads are known and short. *)
Ltac run_builder :=
  unfold_builder; rewrite ?bind_Ok;
  repeat (first
    [ rewrite builder_field_len; [|reflexivity|assumption]
    | match goal with H : ?e = Ok _ |- context [?e] => rewrite H end ];
    rewrite ?bind_Ok; cbn [app]).

(** Opens a builder run that succeeded. *)
Ltac open_ref H := unfold_builder; cbn [ObjectBuilder_new] in H; enc_inv H.

(** One direction each: the fields a reference encoder finishes with. *)
Ltac reference_Ok enc :=
  unfold enc; split; intros H; [open_ref H; eauto 12|]; destruct_and? H;
  match goal with H : ObjectBuilder_finish_nested _ = Ok _ |- _ => pose_bounds H end;
  run_builder; done.

(** The length of an object from the lengths of its payloads. *)
Ltac object_length Hok :=
  apply length_of_encoding; [solve_only|solve_only|]; intros n; setoid_rewrite Hok;
  match goal with |- _ ↔ ∃ b, ObjectBuilder_finish_nested (mkBuilder ?ty ?fs) = Ok b ∧ _ =>
    exact (object_length_exact ty fs n eq_refl) end.

(** The fields of an object or an enumeration, one after the other. *)
Ltac write_fields :=
  repeat first
    [ apply writes_last_field; [done|done||(rewrite ?len_be_bytes; done)|done||size_lia|]
    | apply writes_field; [done|done||(rewrite ?len_be_bytes; done)|done||size_lia| |] ];
  try apply writes_bytes.

Ltac write_object H :=
  pose_bounds H; apply finish_nested_Ok in H as (_ & _ & -> & _);
  apply writes_object; [done|write_fields].

(** ** Timespecs, attributes and extents *)

Definition timespec_fields (v : TimespecV1) : list Field :=
  [mkField 1 I64 (be_bytes 8 (timespec_seconds v));
   mkField 2 U32 (be_bytes 4 (timespec_nanoseconds v))].

Lemma reference_timespec_Ok v b :
  reference_encode_timespec v = Ok b ↔
  ObjectBuilder_finish_nested (mkBuilder TYPE_TIMESPEC (timespec_fields v)) = Ok b.
Proof. unfold timespec_fields. reference_Ok reference_encode_timespec. Qed.

Lemma timespec_length v :
  manifest_timespec_canonical_length = len <$> reference_encode_timespec v.
Proof. object_length (reference_timespec_Ok v). Qed.

Definition xattr_fields (v : XattrV1) : list Field :=
  [mkField 1 Bytes (xattr_name v); mkField 2 Bytes (xattr_value v)].

Lemma reference_xattr_Ok v b :
  reference_encode_xattr v = Ok b ↔
  ObjectBuilder_finish_nested (mkBuilder TYPE_XATTR (xattr_fields v)) = Ok b.
Proof. unfold xattr_fields. reference_Ok reference_encode_xattr. Qed.

Lemma xattr_length v : manifest_xattr_canonical_length v = len <$> reference_encode_xattr v.
Proof. object_length (reference_xattr_Ok v). Qed.

Definition extent_fields (v : ExtentV1) : list Field :=
  [mkField 1 U64 (be_bytes 8 (extent_offset v)); mkField 2 U64 (be_bytes 8 (extent_length v))].

Lemma reference_extent_Ok v b :
  reference_encode_extent v = Ok b ↔
  ObjectBuilder_finish_nested (mkBuilder TYPE_EXTENT (extent_fields v)) = Ok b.
Proof. unfold extent_fields. reference_Ok reference_encode_extent. Qed.

Lemma extent_length_exact v : manifest_extent_canonical_length = len <$> reference_encode_extent v.
Proof. object_length (reference_extent_Ok v). Qed.

Lemma only_timespec v : only_encoding (reference_encode_timespec v).
Proof. solve_only. Qed.
Lemma only_xattr v : only_encoding (reference_encode_xattr v).
Proof. solve_only. Qed.
Lemma only_extent v : only_encoding (reference_encode_extent v).
Proof. solve_only. Qed.
#[export] Hint Resolve only_timespec only_xattr only_extent : only.

Section simple_writers.
Context {S E : Type} `{!ManifestCanonicalByteSinkV1 S E}.

Lemma timespec_writes v b :
  reference_encode_timespec v = Ok b → writes (S:=S) (E:=E) (write_manifest_timespec v) b.
Proof. intros H%reference_timespec_Ok. unfold timespec_fields in H. write_object H. Qed.

Lemma xattr_writes v b :
  reference_encode_xattr v = Ok b → writes (S:=S) (E:=E) (write_manifest_xattr v) b.
Proof. intros H%reference_xattr_Ok. unfold xattr_fields in H. write_object H. Qed.

Lemma extent_writes v b :
  reference_encode_extent v = Ok b → writes (S:=S) (E:=E) (write_manifest_extent v) b.
Proof. intros H%reference_extent_Ok. unfold extent_fields in H. write_object H. Qed.
End simple_writers.

(** ** Lists of attributes and extents *)

Definition reference_encode_list {A} (g : A → contract (list Z)) (values : list A) :
    contract (list Z) :=
  items ← try_map g values;
  encode_list items.

Lemma reference_list_Ok {A} (g : A → contract (list Z)) values b :
  reference_encode_list g values = Ok b ↔
  ∃ items, try_map g values = Ok items ∧ encode_list items = Ok b.
Proof. apply result_bind_Ok_iff. Qed.

Lemma only_reference_list {A} (g : A → contract (list Z)) values :
  (∀ x, only_encoding (g x)) → only_encoding (reference_encode_list g values).
Proof. intros. solve_only. Qed.
#[export] Hint Resolve only_reference_list : only.

Lemma finish_nested_size ty fs b :
  ObjectBuilder_finish_nested (mkBuilder ty fs) = Ok b → len b <= EFFECT_IR_V2_MAX_CANONICAL_BYTES.
Proof. by intros (_ & _ & _ & ?)%finish_nested_Ok. Qed.

Lemma xattr_list_length values :
  manifest_xattr_list_canonical_length values
  = len <$> reference_encode_list reference_encode_xattr values.
Proof. apply list_length_of_encoding; [apply xattr_length|auto with only]. Qed.

Lemma extent_list_length values :
  manifest_extent_list_canonical_length values
  = len <$> reference_encode_list reference_encode_extent values.
Proof.
  unfold manifest_extent_list_canonical_length.
  assert (∃ n, manifest_extent_canonical_length = Ok n) as [n Hn] by (vm_compute; eauto).
  rewrite Hn, bind_Ok. apply list_length_of_encoding; [|auto with only].
  intros x. by rewrite <- extent_length_exact.
Qed.

Section list_writers.
Context {S E : Type} `{!ManifestCanonicalByteSinkV1 S E}.

(** The writer of a list whose items have exact lengths. *)
Lemma reference_list_writes {A} (f : A → contract Z) (g : A → contract (list Z))
    (m : A → method (ManifestCanonicalWriterV1 S) (ManifestCanonicalWriteErrorV1 E) ()) values b :
  (∀ x, f x = len <$> g x) → (∀ x i, g x = Ok i → writes (m x) i) →
  (∀ x i, g x = Ok i → len i <= EFFECT_IR_V2_MAX_CANONICAL_BYTES) →
  reference_encode_list g values = Ok b →
  writes (list_header (len values);;
          for_each (λ x, length ← canonical (f x); list_item_header length;; m x) values) b.
Proof.
  intros Hf Hm Hs (items & Hi & He)%reference_list_Ok. eapply list_writes; [|exact Hi|exact He].
  intros x i Hx. pose proof (Hs x i Hx).
  apply list_item_writes; [by rewrite Hf, Hx|size_lia|by apply Hm].
Qed.

Lemma xattr_list_writes values b :
  reference_encode_list reference_encode_xattr values = Ok b →
  writes (S:=S) (E:=E) (write_manifest_xattr_list values) b.
Proof.
  apply reference_list_writes; [apply xattr_length|apply xattr_writes|].
  intros x i ?%reference_xattr_Ok. by eapply finish_nested_size.
Qed.

Lemma extent_list_writes values b :
  reference_encode_list reference_encode_extent values = Ok b →
  writes (S:=S) (E:=E) (write_manifest_extent_list values) b.
Proof.
  intros H. assert (∃ n, manifest_extent_canonical_length = Ok n) as [n Hn] by (vm_compute; eauto).
  eapply writes_canonical; [exact Hn|]. apply reference_list_Ok in H as (items & Hi & He).
  eapply list_writes; [|exact Hi|exact He]. intros x i Hx.
  assert (n = len i) as ->.
  { pose proof (extent_length_exact x) as Hl. rewrite Hn, Hx in Hl. by injection Hl. }
  pose proof Hx as Hb%reference_extent_Ok%finish_nested_size.
  apply writes_bind; [apply writes_list_item_header; size_lia|by apply extent_writes].
Qed.
End list_writers.

(** ** Metadata *)

Definition metadata_fields (v : MetadataV1) (atime mtime ctime btime xattrs : list Z) : list Field :=
  [mkField 1 U32 (be_bytes 4 (metadata_mode v));
   mkField 2 U32 (be_bytes 4 (metadata_logical_uid v));
   mkField 3 U32 (be_bytes 4 (metadata_logical_gid v));
   mkField 4 U64 (be_bytes 8 (metadata_size v));
   mkField 5 U64 (be_bytes 8 (metadata_nlink v));
   mkField 6 Object atime; mkField 7 Object mtime; mkField 8 Object ctime;
   mkField 9 Optional btime; mkField 10 List xattrs].

Lemma reference_metadata_Ok v b :
  reference_encode_metadata v = Ok b ↔
  ∃ a m c bt pbt xs, reference_encode_timespec (metadata_atime v) = Ok a ∧
    reference_encode_timespec (metadata_mtime v) = Ok m ∧
    reference_encode_timespec (metadata_ctime v) = Ok c ∧
    try_option reference_encode_timespec (metadata_btime v) = Ok bt ∧
    encode_optional bt = Ok pbt ∧
    reference_encode_list reference_encode_xattr (metadata_xattrs v) = Ok xs ∧
    ObjectBuilder_finish_nested (mkBuilder TYPE_METADATA (metadata_fields v a m c pbt xs)) = Ok b.
Proof.
  unfold metadata_fields, reference_encode_metadata. split.
  - intros H. open_ref H. do 6 eexists.
    split_and!; [eassumption..|apply reference_list_Ok; eauto|exact H].
  - intros (a & m & c & bt & pbt & xs & Ha & Hm & Hc & Ho & Hp & (items & Hi & Hx)%reference_list_Ok & H).
    pose_bounds H. run_builder. done.
Qed.

(** The payload of an optional value with an exact length. *)
Lemma option_length {A} (g : A → contract (list Z)) (n : Z) o bt :
  (∀ x i, g x = Ok i → len i = n) → try_option g o = Ok bt → (λ _, n) <$> o = len <$> bt.
Proof.
  intros Hg H. destruct o as [x|]; cbn in *; [|by injection H as <-].
  apply result_bind_Ok in H as (i & Hi & [= <-]). cbn. by rewrite (Hg x i).
Qed.

Lemma timespec_sized v b :
  reference_encode_timespec v = Ok b → len b <= EFFECT_IR_V2_MAX_CANONICAL_BYTES.
Proof. intros H%reference_timespec_Ok. exact (finish_nested_size _ _ _ H). Qed.

Lemma only_metadata v : only_encoding (reference_encode_metadata v).
Proof. solve_only. Qed.
#[export] Hint Resolve only_metadata : only.

(** The fixed length of a timespec. *)
Lemma timespec_total : ∃ n, manifest_timespec_canonical_length = Ok n ∧
  ∀ v, ∃ b, reference_encode_timespec v = Ok b ∧ len b = n.
Proof.
  assert (∃ n, manifest_timespec_canonical_length = Ok n) as [n Hn] by (vm_compute; eauto).
  exists n. split; [done|]. intros v. pose proof (timespec_length v) as Hl. rewrite Hn in Hl.
  destruct (reference_encode_timespec v) as [b|]; [|done]. injection Hl as ->. eauto.
Qed.

Lemma metadata_length v :
  manifest_metadata_projection_canonical_length v = len <$> reference_encode_metadata v.
Proof.
  destruct timespec_total as (n & Hn & Ht).
  assert (∀ x i, reference_encode_timespec x = Ok i → len i = n) as Hu.
  { intros x i Hx. destruct (Ht x) as (b & Hb & <-). congruence. }
  apply length_of_encoding.
  - unfold manifest_metadata_projection_canonical_length. rewrite xattr_list_length.
    assert (only_encoding (reference_encode_list reference_encode_xattr (metadata_xattrs v)))
      as Ho by auto with only. rewrite Hn, bind_Ok. apply only_bind; [auto with only|]. intros ?.
    apply only_bind; [|auto with only].
    by apply only_fmap.
  - auto with only.
  - intros k. unfold manifest_metadata_projection_canonical_length. rewrite Hn, bind_Ok.
    destruct (Ht (metadata_atime v)) as (a & Ha & Ea). destruct (Ht (metadata_mtime v)) as (m & Hm & Em).
    destruct (Ht (metadata_ctime v)) as (c & Hc & Ec).
    assert (∃ bt, try_option reference_encode_timespec (metadata_btime v) = Ok bt) as [bt Hbt].
    { destruct (metadata_btime v) as [t|]; [|cbn; eauto]. destruct (Ht t) as (x & Hx & _).
      cbn. rewrite Hx. cbn. eauto. }
    rewrite (option_length _ n _ bt Hu Hbt), xattr_list_length.
    setoid_rewrite reference_metadata_Ok. split.
    + intros (lo & Hlo & (lx & Hlx & Hobj)%result_bind_Ok)%result_bind_Ok.
      apply optional_length_exact in Hlo as (pbt & Hp & ->).
      destruct (reference_encode_list _ _) as [xs|] eqn:Hx; [|done]. injection Hlx as <-.
      destruct (proj1 (object_length_exact TYPE_METADATA (metadata_fields v a m c pbt xs) k eq_refl))
        as (b & Hb & ->); [cbn; by rewrite Ea, Em, Ec|]. exists b. split; [|done]. eauto 14.
    + intros (b & (a' & m' & c' & bt' & pbt & xs & Ha' & Hm' & Hc' & Hbt' & Hp & Hx & Hf) & ->).
      assert (a' = a) as -> by congruence. assert (m' = m) as -> by congruence.
      assert (c' = c) as -> by congruence. assert (bt' = bt) as -> by congruence.
      rewrite (proj2 (optional_length_exact bt (len pbt))), bind_Ok by eauto.
      rewrite Hx. cbn [fmap result_fmap]. rewrite bind_Ok.
      pose proof (proj2 (object_length_exact TYPE_METADATA (metadata_fields v a m c pbt xs) (len b) eq_refl))
        as Hok. cbn in Hok. rewrite Ea, Em, Ec in Hok. apply Hok. eauto.
Qed.

(** The writer of an optional value. *)
Lemma optional_writes {S E A} `{!ManifestCanonicalByteSinkV1 S E} (g : A → contract (list Z))
    (m : A → method (ManifestCanonicalWriterV1 S) (ManifestCanonicalWriteErrorV1 E) ())
    (n : A → Z) o bt b :
  (∀ x i, g x = Ok i → writes (m x) i ∧ n x = len i) →
  try_option g o = Ok bt → encode_optional bt = Ok b →
  writes match o with
         | None => writer_bytes [0]
         | Some x =>
           writer_bytes [1];;
           length ← canonical (try_width U64_MAX CanonicalEncoding (n x));
           writer_bytes (be_bytes 8 length);; m x
         end b.
Proof.
  intros Hg Ho [-> Hs]%encode_optional_Ok. destruct o as [x|]; cbn in Ho.
  2: { injection Ho as <-. apply writes_bytes. }
  apply result_bind_Ok in Ho as (i & Hi & [= <-]). destruct (Hg x i Hi) as [Hw ->].
  cbn [optional_bytes] in *. apply writes_bind; [apply writes_bytes|].
  eapply writes_canonical; [apply try_width_Ok; split; [done|]|].
  { unfold item_bytes in Hs. len_simpl. size_lia. }
  apply writes_bind; [apply writes_bytes|done].
Qed.

Lemma metadata_writes {S E} `{!ManifestCanonicalByteSinkV1 S E} v b :
  reference_encode_metadata v = Ok b →
  writes (S:=S) (E:=E) (write_manifest_metadata_projection v) b.
Proof.
  intros (a & m & c & bt & pbt & xs & Ha & Hm & Hc & Ho & Hp & Hx & H)%reference_metadata_Ok.
  destruct timespec_total as (n & Hn & Ht).
  assert (∀ x i, reference_encode_timespec x = Ok i → n = len i) as Hu.
  { intros x i Hi. destruct (Ht x) as (? & ? & <-). congruence. }
  eapply writes_canonical; [exact Hn|]. eapply writes_canonical.
  { rewrite (option_length _ n _ bt) by first [eassumption|symmetry; by eapply Hu].
    apply optional_length_exact. eauto. }
  eapply writes_canonical; [by rewrite xattr_list_length, Hx|].
  apply Hu in Ha as Ea. apply Hu in Hm as Em. apply Hu in Hc as Ec.
  unfold metadata_fields in H. write_object H; try by apply timespec_writes.
  - eapply (optional_writes _ _ (λ _, n)); [|eassumption..].
    intros x i Hi. split; [by apply timespec_writes|by eapply Hu].
  - by apply xattr_list_writes.
Qed.

(** ** Children and payloads *)

Lemma simple_enum_length v : checked_canonical_enum_length v [] = len <$> encode_enum v [].
Proof. exact (enum_length_of_encoding v [] eq_refl). Qed.

Lemma simple_enum_writes {S E} `{!ManifestCanonicalByteSinkV1 S E} v b :
  encode_enum v [] = Ok b → writes (S:=S) (E:=E) (enum_header v 0) b.
Proof. intros (Hv & _ & _ & -> & _)%encode_enum_Ok. by apply writes_simple_enum. Qed.

Definition child_fields (v : ChildCommitmentV1) (kind : list Z) : list Field :=
  [mkField 1 Bytes (child_name v); mkField 2 Enum kind; mkField 3 Bytes (child_node_digest v)].

Lemma reference_child_Ok v b :
  reference_encode_child v = Ok b ↔
  ∃ k, encode_enum (ManifestEntryKindV1_as_u16 (child_kind v)) [] = Ok k ∧
    ObjectBuilder_finish_nested (mkBuilder TYPE_CHILD_COMMITMENT (child_fields v k)) = Ok b.
Proof.
  unfold child_fields, reference_encode_child. split.
  - intros H. open_ref H. eauto.
  - intros (k & Hk & H). pose_bounds H. run_builder. done.
Qed.

Lemma only_child v : only_encoding (reference_encode_child v).
Proof. solve_only. Qed.
#[export] Hint Resolve only_child : only.

Lemma child_length v : manifest_child_canonical_length v = len <$> reference_encode_child v.
Proof.
  apply length_of_encoding; [solve_only|solve_only|]. intros n. setoid_rewrite reference_child_Ok.
  unfold manifest_child_canonical_length. rewrite simple_enum_length.
  destruct (encode_enum _ _) as [k|e] eqn:Hk; cbn [fmap result_fmap].
  - rewrite bind_Ok.
    rewrite (object_length_exact TYPE_CHILD_COMMITMENT (child_fields v k) n eq_refl). naive_solver.
  - split; [done|]. naive_solver.
Qed.

Lemma child_writes {S E} `{!ManifestCanonicalByteSinkV1 S E} v b :
  reference_encode_child v = Ok b → writes (S:=S) (E:=E) (write_manifest_child v) b.
Proof.
  intros (k & Hk & H)%reference_child_Ok.
  eapply writes_canonical; [by rewrite simple_enum_length, Hk|]. unfold child_fields in H.
  write_object H. by apply simple_enum_writes.
Qed.

Lemma child_list_length values :
  manifest_child_list_canonical_length values
  = len <$> reference_encode_list reference_encode_child values.
Proof. apply list_length_of_encoding; [apply child_length|auto with only]. Qed.

Lemma child_list_writes {S E} `{!ManifestCanonicalByteSinkV1 S E} values b :
  reference_encode_list reference_encode_child values = Ok b →
  writes (S:=S) (E:=E) (write_manifest_child_list values) b.
Proof.
  apply reference_list_writes; [apply child_length|apply child_writes|].
  intros x i (k & _ & H)%reference_child_Ok. exact (finish_nested_size _ _ _ H).
Qed.

Definition payload_fields (v : ManifestPayloadV1) (inner : list Z) : list Field :=
  match v with
  | Payloads.Directory _ => [mkField 1 List inner]
  | Payloads.Regular content_digest _ => [mkField 1 Bytes content_digest; mkField 2 List inner]
  | Payloads.Symlink target => [mkField 1 Bytes target]
  | Payloads.ExternalTree _ target_root readonly =>
    [mkField 1 Enum inner; mkField 2 Bytes target_root; mkField 3 Bool [Z.b2z readonly]]
  end.

(** The nested part of a payload: children, extents or the role. *)
Definition payload_inner (v : ManifestPayloadV1) : contract (list Z) :=
  match v with
  | Payloads.Directory children => reference_encode_list reference_encode_child children
  | Payloads.Regular _ extents => reference_encode_list reference_encode_extent extents
  | Payloads.Symlink _ => Ok []
  | Payloads.ExternalTree role _ _ => encode_enum (TreeRoleV1_as_u16 role) []
  end.

Lemma reference_payload_eq v :
  reference_encode_payload v =
  (inner ← payload_inner v;
   encode_enum (ManifestEntryKindV1_as_u16 (ManifestPayloadV1_kind v)) (payload_fields v inner)).
Proof.
  destruct v as [children|content extents|target|role root readonly]; cbn; try done.
  - unfold reference_encode_list. by destruct (try_map _ children).
  - unfold reference_encode_list. by destruct (try_map _ extents).
Qed.

Lemma only_payload_encoding v : only_encoding (reference_encode_payload v).
Proof. solve_only. Qed.
#[export] Hint Resolve only_payload_encoding : only.

Lemma payload_length v :
  manifest_payload_projection_canonical_length v = len <$> reference_encode_payload v.
Proof.
  rewrite reference_payload_eq. destruct v as [children|content extents|target|role root readonly];
    cbn [manifest_payload_projection_canonical_length payload_inner].
  - rewrite child_list_length. apply length_bind. intros b _.
    exact (enum_length_of_encoding _ (payload_fields (Payloads.Directory children) b) eq_refl).
  - rewrite extent_list_length. apply length_bind. intros b _.
    exact (enum_length_of_encoding _ (payload_fields (Payloads.Regular content extents) b) eq_refl).
  - exact (enum_length_of_encoding _ (payload_fields (Payloads.Symlink target) []) eq_refl).
  - rewrite simple_enum_length. apply length_bind. intros b _.
    exact (enum_length_of_encoding _ (payload_fields (Payloads.ExternalTree role root readonly) b) eq_refl).
Qed.

Ltac write_enum H :=
  pose_bounds H; apply encode_enum_Ok in H as (_ & _ & _ & -> & _);
  apply writes_enum; [done|done|write_fields].

Lemma payload_writes {S E} `{!ManifestCanonicalByteSinkV1 S E} v b :
  reference_encode_payload v = Ok b →
  writes (S:=S) (E:=E) (write_manifest_payload_projection v) b.
Proof.
  rewrite reference_payload_eq. intros (inner & Hi & H)%result_bind_Ok.
  destruct v as [children|content extents|target|role root readonly];
    cbn [payload_inner payload_fields ManifestPayloadV1_kind write_manifest_payload_projection] in *.
  - eapply writes_canonical; [by rewrite child_list_length, Hi|]. write_enum H.
    by apply child_list_writes.
  - eapply writes_canonical; [by rewrite extent_list_length, Hi|]. write_enum H.
    by apply extent_list_writes.
  - write_enum H.
  - eapply writes_canonical; [by rewrite simple_enum_length, Hi|]. write_enum H.
    by apply simple_enum_writes.
Qed.

(** ** Entries and trees *)

Definition entry_fields (v : ManifestEntryV1) (kind metadata payload hardlink : list Z) :
    list Field :=
  [mkField 1 Bytes (entry_relative_path v); mkField 2 Enum kind; mkField 3 Object metadata;
   mkField 4 Enum payload; mkField 5 Optional hardlink; mkField 6 Bytes (entry_node_digest v)].

Abbreviation entry_kind_code v :=
  (ManifestEntryKindV1_as_u16 (ManifestPayloadV1_kind (entry_payload v))).

Lemma reference_entry_Ok v b :
  reference_encode_entry v = Ok b ↔
  ∃ k m p h, encode_enum (entry_kind_code v) [] = Ok k ∧
    reference_encode_metadata (entry_metadata v) = Ok m ∧
    reference_encode_payload (entry_payload v) = Ok p ∧
    encode_optional (entry_hardlink_group v) = Ok h ∧
    ObjectBuilder_finish_nested (mkBuilder TYPE_MANIFEST_ENTRY (entry_fields v k m p h)) = Ok b.
Proof.
  unfold entry_fields, reference_encode_entry. split.
  - intros H. open_ref H. do 4 eexists. split_and!; [eassumption..|exact H].
  - intros (k & m & p & h & Hk & Hm & Hp & Hh & H). pose_bounds H. run_builder. done.
Qed.

Lemma only_entry v : only_encoding (reference_encode_entry v).
Proof. solve_only. Qed.
#[export] Hint Resolve only_entry : only.

Lemma only_entry_length v : only_encoding (manifest_entry_projection_canonical_length v).
Proof.
  unfold manifest_entry_projection_canonical_length. rewrite metadata_length, payload_length.
  solve_only.
Qed.

Lemma entry_length v :
  manifest_entry_projection_canonical_length v = len <$> reference_encode_entry v.
Proof.
  apply length_of_encoding; [apply only_entry_length|auto with only|]. intros n.
  setoid_rewrite reference_entry_Ok. unfold manifest_entry_projection_canonical_length.
  rewrite simple_enum_length, metadata_length, payload_length.
  change (λ digest : list Z, len digest) with (len (A:=Z)). rewrite optional_length_of_encoding.
  destruct (encode_enum _ _) as [k|] eqn:Hk; [|split; [done|naive_solver]].
  destruct (reference_encode_metadata _) as [m|] eqn:Hm; [|split; [done|naive_solver]].
  destruct (reference_encode_payload _) as [p|] eqn:Hp; [|split; [done|naive_solver]].
  destruct (encode_optional _) as [h|] eqn:Hh; [|split; [done|naive_solver]].
  cbn [fmap result_fmap]. rewrite !bind_Ok.
  rewrite (object_length_exact TYPE_MANIFEST_ENTRY (entry_fields v k m p h) n eq_refl).
  split; [intros (b & ? & ->); exists b; split; [by exists k, m, p, h|done]|].
  intros (b & (k' & m' & p' & h' & [= <-] & [= <-] & [= <-] & [= <-] & ?) & ->). eauto.
Qed.

Lemma try_option_id (o : option (list Z)) : try_option (E:=LinuxPytestContractError) Ok o = Ok o.
Proof. by destruct o. Qed.

Lemma entry_writes {S E} `{!ManifestCanonicalByteSinkV1 S E} v b :
  reference_encode_entry v = Ok b →
  writes (S:=S) (E:=E) (write_manifest_entry_projection v) b.
Proof.
  intros (k & m & p & h & Hk & Hm & Hp & Hh & H)%reference_entry_Ok.
  unfold write_manifest_entry_projection. cbv zeta.
  eapply writes_canonical; [by rewrite simple_enum_length, Hk|].
  eapply writes_canonical; [by rewrite metadata_length, Hm|].
  eapply writes_canonical; [by rewrite payload_length, Hp|].
  eapply writes_canonical.
  { change (λ digest : list Z, len digest) with (len (A:=Z)).
    by rewrite optional_length_of_encoding, Hh. }
  unfold entry_fields in H. write_object H.
  - by apply simple_enum_writes.
  - by apply metadata_writes.
  - by apply payload_writes.
  - eapply (optional_writes Ok writer_bytes len); [|apply try_option_id|exact Hh].
    intros x i [= <-]. split; [apply writes_bytes|done].
Qed.

Lemma entry_list_length values :
  manifest_entry_projection_list_canonical_length values
  = len <$> reference_encode_list reference_encode_entry values.
Proof. apply list_length_of_encoding; [apply entry_length|auto with only]. Qed.

Lemma entry_list_writes {S E} `{!ManifestCanonicalByteSinkV1 S E} values b :
  reference_encode_list reference_encode_entry values = Ok b →
  writes (S:=S) (E:=E) (write_manifest_entry_projection_list values) b.
Proof.
  apply reference_list_writes; [apply entry_length|apply entry_writes|].
  intros x i (? & ? & ? & ? & _ & _ & _ & _ & H)%reference_entry_Ok.
  exact (finish_nested_size _ _ _ H).
Qed.

Definition tree_fields (v : TreeManifestV1) (role entries : list Z) : list Field :=
  [mkField 1 Bytes (tree_mount_path v); mkField 2 Enum role; mkField 3 List entries;
   mkField 4 Bytes (tree_root_digest v)].

Lemma reference_tree_Ok v b :
  reference_encode_tree v = Ok b ↔
  ∃ r es, encode_enum (TreeRoleV1_as_u16 (tree_role v)) [] = Ok r ∧
    reference_encode_list reference_encode_entry (tree_entries v) = Ok es ∧
    ObjectBuilder_finish_nested (mkBuilder TYPE_TREE_MANIFEST (tree_fields v r es)) = Ok b.
Proof.
  unfold tree_fields, reference_encode_tree. split.
  - intros H. open_ref H. do 2 eexists.
    split_and!; [eassumption|apply reference_list_Ok; eauto|exact H].
  - intros (r & es & Hr & (items & Hi & He)%reference_list_Ok & H). pose_bounds H. run_builder. done.
Qed.

Lemma only_tree v : only_encoding (reference_encode_tree v).
Proof. solve_only. Qed.

Lemma tree_length v : checked_tree_manifest_canonical_length_v1 v = len <$> reference_encode_tree v.
Proof.
  apply length_of_encoding; [|apply only_tree|].
  { unfold checked_tree_manifest_canonical_length_v1. rewrite entry_list_length.
    solve_only. }
  intros n. setoid_rewrite reference_tree_Ok. unfold checked_tree_manifest_canonical_length_v1.
  rewrite simple_enum_length, entry_list_length.
  destruct (encode_enum _ _) as [r|] eqn:Hr; [|split; [done|naive_solver]].
  destruct (reference_encode_list _ _) as [es|] eqn:He; [|split; [done|naive_solver]].
  cbn [fmap result_fmap]. rewrite !bind_Ok.
  rewrite (object_length_exact TYPE_TREE_MANIFEST (tree_fields v r es) n eq_refl).
  split; [intros (b & ? & ->); exists b; split; [by exists r, es|done]|].
  intros (b & (r' & es' & [= <-] & [= <-] & ?) & ->). eauto.
Qed.

Lemma tree_writes {S E} `{!ManifestCanonicalByteSinkV1 S E} v b :
  reference_encode_tree v = Ok b →
  writes (S:=S) (E:=E) (write_tree_manifest_canonical_inner v) b.
Proof.
  intros (r & es & Hr & He & H)%reference_tree_Ok.
  eapply writes_canonical; [by rewrite simple_enum_length, Hr|].
  eapply writes_canonical; [by rewrite entry_list_length, He|].
  unfold tree_fields in H. write_object H; [by apply simple_enum_writes|by apply entry_list_writes].
Qed.

(** ** Encoders *)

Lemma encode_list_size items b :
  encode_list items = Ok b → len b <= EFFECT_IR_V2_MAX_CANONICAL_BYTES.
Proof. by intros (_ & _ & ?)%encode_list_Ok. Qed.

Lemma encode_metadata_eq v : encode_metadata v = reference_encode_metadata v.
Proof.
  apply vec_exact; [apply metadata_length|]. intros b H. split; [by apply metadata_writes|].
  apply reference_metadata_Ok in H as (? & ? & ? & ? & ? & ? & _ & _ & _ & _ & _ & _ & H).
  exact (finish_nested_size _ _ _ H).
Qed.

Lemma encode_extents_eq v :
  encode_extents_for_hash v = reference_encode_list reference_encode_extent v.
Proof.
  apply vec_exact; [apply extent_list_length|]. intros b H. split; [by apply extent_list_writes|].
  apply reference_list_Ok in H as (? & _ & ?). by eapply encode_list_size.
Qed.

Lemma encode_children_eq v :
  encode_children_for_hash v = reference_encode_list reference_encode_child v.
Proof.
  apply vec_exact; [apply child_list_length|]. intros b H. split; [by apply child_list_writes|].
  apply reference_list_Ok in H as (? & _ & ?). by eapply encode_list_size.
Qed.

Lemma raw_path_list_length v : manifest_raw_path_list_canonical_length v = len <$> encode_list v.
Proof.
  pose proof (list_length_of_encoding (λ p, Ok (len p)) Ok v ltac:(done) ltac:(auto with only)) as H.
  by rewrite try_map_Ok_id in H.
Qed.

Lemma raw_path_list_writes {S E} `{!ManifestCanonicalByteSinkV1 S E} v b :
  encode_list v = Ok b → writes (S:=S) (E:=E) (write_manifest_raw_path_list v) b.
Proof.
  intros (Hc & -> & Hs)%encode_list_Ok. apply writes_items; [done|].
  apply Forall_Forall2_diag, list.Forall_forall. intros p Hp%len_items_payload.
  unfold list_bytes in Hs. len_simpl.
  apply writes_bind; [apply writes_list_item_header; size_lia|apply writes_bytes].
Qed.

Lemma encode_paths_eq v : encode_paths_for_hash v = encode_list v.
Proof.
  apply vec_exact; [apply raw_path_list_length|]. intros b H.
  split; [by apply raw_path_list_writes|by eapply encode_list_size].
Qed.

Lemma encode_tree_eq v : encode_tree v = reference_encode_tree v.
Proof.
  apply vec_exact; [apply tree_length|]. intros b H. split; [by apply tree_writes|].
  apply reference_tree_Ok in H as (? & ? & _ & _ & H). exact (finish_nested_size _ _ _ H).
Qed.
