(* ===== verification/ManifestDigest.v ===== *)
(** * Node digests of manifest entries

    The digest of a manifest node is computed twice in the sources: from
    encoded parts ([compute_manifest_node_digest] of [src/src/linux_pytest.rs])
    and by streaming the parts into one hasher with every length announced
    first ([src/src/linux_pytest/canonical.rs]). Both are modelled here, with
    the streaming digest of a hard-link group. *)

From S2P Require Import Prelude Monad Bytes ContractTypes Canonical CanonicalSpec CanonicalParse.
From S2P Require Import CanonicalCodec RecordTypes Paths RecordValidation RecordCodec Digest.
From S2P Require Import ManifestTypes ManifestWriter ManifestStream StreamLaws ManifestReference.
Import TreeRoles.

Section digests.
Context `{Blake3}.

(** ** From encoded parts *)

Definition encode_optional_digest (value : option (list Z)) : list Z :=
  match value with
  | None => [0]
  | Some value => [1] ++ be_bytes 8 32 ++ value
  end.

Definition compute_manifest_node_digest (metadata : MetadataV1) (payload : ManifestPayloadV1)
    (hardlink_group : option (list Z)) : contract (list Z) :=
  metadata ← encode_metadata_for_hash metadata;
  let hardlink := encode_optional_digest hardlink_group in
  match payload with
  | Payloads.Directory children =>
    if bool_decide (is_Some hardlink_group) then Err MalformedManifest
    else
      children ← encode_children_for_hash children;
      Ok (Blake3Digest_derive_tagged DIRECTORY_NODE_DOMAIN [(1, metadata); (2, children)])
  | Payloads.Regular content_digest data_extents =>
    extents ← encode_extents_for_hash data_extents;
    Ok (Blake3Digest_derive_tagged REGULAR_NODE_DOMAIN
          [(1, metadata); (2, content_digest); (3, extents); (4, hardlink)])
  | Payloads.Symlink target =>
    Ok (Blake3Digest_derive_tagged SYMLINK_NODE_DOMAIN
          [(1, metadata); (2, target); (3, hardlink)])
  | Payloads.ExternalTree tree_role target_root readonly =>
    if negb readonly || negb (bool_decide (tree_role = Runtime))
       || bool_decide (is_Some hardlink_group)
    then Err MalformedManifest
    else
      let role := be_bytes 2 (TreeRoleV1_as_u16 tree_role) in
      Ok (Blake3Digest_derive_tagged EXTERNAL_TREE_NODE_DOMAIN
            [(1, metadata); (2, role); (3, target_root); (4, [1])])
  end.

Definition with_computed_node_digest (relative_path : list Z) (metadata : MetadataV1)
    (payload : ManifestPayloadV1) (hardlink_group : option (list Z)) :
    contract ManifestEntryV1 :=
  node_digest ← compute_manifest_node_digest metadata payload hardlink_group;
  Ok (mkEntry relative_path metadata payload hardlink_group node_digest).

Definition computed_node_digest (self : ManifestEntryV1) : contract (list Z) :=
  compute_manifest_node_digest (entry_metadata self) (entry_payload self)
    (entry_hardlink_group self).

(** ** Streaming *)

Record ManifestTaggedDigestV1 := mkTaggedDigest {
  tagged_hasher : Hasher;
  tagged_declared_field_count : Z;
  tagged_written_field_count : Z;
  tagged_previous_tag : Z;
}.

Definition ManifestTaggedDigestV1_new (domain : list Z) (declared_field_count : Z) :
    ManifestTaggedDigestV1 :=
  mkTaggedDigest
    (Hasher_update (be_bytes 4 declared_field_count)
       (Hasher_update HASH_FRAME_MAGIC (mkHasher domain [])))
    declared_field_count 0 0.

Definition ManifestTaggedDigestV1_field_header (self : ManifestTaggedDigestV1) (tag length : Z) :
    contract ManifestTaggedDigestV1 :=
  if (tag =? 0) || (tag <=? tagged_previous_tag self)
     || (tagged_declared_field_count self <=? tagged_written_field_count self)
  then Err CanonicalEncoding
  else
    length ← try_width U64_MAX CanonicalEncoding length;
    Ok (mkTaggedDigest
          (Hasher_update (be_bytes 8 length) (Hasher_update (be_bytes 2 tag) (tagged_hasher self)))
          (tagged_declared_field_count self) (tagged_written_field_count self + 1) tag).

(** The hasher replaced: [&mut digest.hasher]. *)
Definition with_hasher (self : ManifestTaggedDigestV1) (hasher : Hasher) :
    ManifestTaggedDigestV1 :=
  mkTaggedDigest hasher (tagged_declared_field_count self) (tagged_written_field_count self)
    (tagged_previous_tag self).

Definition ManifestTaggedDigestV1_bytes (self : ManifestTaggedDigestV1) (bytes : list Z) :
    ManifestTaggedDigestV1 :=
  with_hasher self (Hasher_update bytes (tagged_hasher self)).

Definition ManifestTaggedDigestV1_finish (self : ManifestTaggedDigestV1) : contract (list Z) :=
  if negb (tagged_written_field_count self =? tagged_declared_field_count self)
  then Err CanonicalEncoding else Ok (Hasher_finalize (tagged_hasher self)).

Definition write_optional_hardlink_digest (digest : ManifestTaggedDigestV1)
    (hardlink_group : option (list Z)) : ManifestTaggedDigestV1 :=
  match hardlink_group with
  | None => ManifestTaggedDigestV1_bytes digest [0]
  | Some hardlink_group =>
    let digest := ManifestTaggedDigestV1_bytes digest [1] in
    let digest := ManifestTaggedDigestV1_bytes digest (be_bytes 8 32) in
    ManifestTaggedDigestV1_bytes digest hardlink_group
  end.

(** Streams a structure into the hasher of the digest. *)
Definition stream_to_hasher (digest : ManifestTaggedDigestV1)
    (write : method (ManifestCanonicalWriterV1 Hasher)
               (ManifestCanonicalWriteErrorV1 Empty_set) ()) :
    contract ManifestTaggedDigestV1 :=
  hasher ← map_infallible_manifest_write write (tagged_hasher digest);
  Ok (with_hasher digest hasher).

Definition write_manifest_metadata_projection_to_hasher (digest : ManifestTaggedDigestV1)
    (value : MetadataV1) : contract ManifestTaggedDigestV1 :=
  stream_to_hasher digest (write_manifest_metadata_projection value).

Definition write_manifest_children_to_hasher (digest : ManifestTaggedDigestV1)
    (values : list ChildCommitmentV1) : contract ManifestTaggedDigestV1 :=
  stream_to_hasher digest (write_manifest_child_list values).

Definition write_manifest_extents_to_hasher (digest : ManifestTaggedDigestV1)
    (values : list ExtentV1) : contract ManifestTaggedDigestV1 :=
  stream_to_hasher digest (write_manifest_extent_list values).

Definition node_field_count (payload : ManifestPayloadV1) : Z :=
  match payload with
  | Payloads.Directory _ => 2
  | Payloads.Regular _ _ => 4
  | Payloads.Symlink _ => 3
  | Payloads.ExternalTree _ _ _ => 4
  end.

Definition node_domain (payload : ManifestPayloadV1) : list Z :=
  match payload with
  | Payloads.Directory _ => DIRECTORY_NODE_DOMAIN
  | Payloads.Regular _ _ => REGULAR_NODE_DOMAIN
  | Payloads.Symlink _ => SYMLINK_NODE_DOMAIN
  | Payloads.ExternalTree _ _ _ => EXTERNAL_TREE_NODE_DOMAIN
  end.

Definition hardlink_length (hardlink_group : option (list Z)) : Z :=
  match hardlink_group with Some _ => 41 | None => 1 end.

Definition derive_manifest_node_digest_projection_streaming_v1 (metadata : MetadataV1)
    (payload : ManifestPayloadV1) (hardlink_group : option (list Z)) : contract (list Z) :=
  metadata_length ← manifest_metadata_projection_canonical_length metadata;
  let digest := ManifestTaggedDigestV1_new (node_domain payload) (node_field_count payload) in
  digest ← ManifestTaggedDigestV1_field_header digest 1 metadata_length;
  digest ← write_manifest_metadata_projection_to_hasher digest metadata;
  digest ←
    match payload with
    | Payloads.Directory children =>
      if bool_decide (is_Some hardlink_group) then Err MalformedManifest
      else
        children_length ← manifest_child_list_canonical_length children;
        digest ← ManifestTaggedDigestV1_field_header digest 2 children_length;
        write_manifest_children_to_hasher digest children
    | Payloads.Regular content_digest data_extents =>
      extents_length ← manifest_extent_list_canonical_length data_extents;
      digest ← ManifestTaggedDigestV1_field_header digest 2 (len content_digest);
      let digest := ManifestTaggedDigestV1_bytes digest content_digest in
      digest ← ManifestTaggedDigestV1_field_header digest 3 extents_length;
      digest ← write_manifest_extents_to_hasher digest data_extents;
      digest ← ManifestTaggedDigestV1_field_header digest 4 (hardlink_length hardlink_group);
      Ok (write_optional_hardlink_digest digest hardlink_group)
    | Payloads.Symlink target =>
      digest ← ManifestTaggedDigestV1_field_header digest 2 (len target);
      let digest := ManifestTaggedDigestV1_bytes digest target in
      digest ← ManifestTaggedDigestV1_field_header digest 3 (hardlink_length hardlink_group);
      Ok (write_optional_hardlink_digest digest hardlink_group)
    | Payloads.ExternalTree tree_role target_root readonly =>
      if negb readonly || negb (bool_decide (tree_role = Runtime))
         || bool_decide (is_Some hardlink_group)
      then Err MalformedManifest
      else
        digest ← ManifestTaggedDigestV1_field_header digest 2 2;
        let digest :=
          ManifestTaggedDigestV1_bytes digest (be_bytes 2 (TreeRoleV1_as_u16 tree_role)) in
        digest ← ManifestTaggedDigestV1_field_header digest 3 (len target_root);
        let digest := ManifestTaggedDigestV1_bytes digest target_root in
        digest ← ManifestTaggedDigestV1_field_header digest 4 1;
        Ok (ManifestTaggedDigestV1_bytes digest [1])
    end;
  ManifestTaggedDigestV1_finish digest.

Definition derive_hardlink_group_digest_streaming_v1 (values : list (list Z)) :
    contract (list Z) :=
  _ ← canonical_collection_count (len values);
  if len values <? 2 then Err MalformedManifest
  else if windows_any bytes_ge values then Err MalformedManifest
  else
    paths_length ← manifest_raw_path_list_canonical_length values;
    let digest := ManifestTaggedDigestV1_new HARDLINK_GROUP_DOMAIN 1 in
    digest ← ManifestTaggedDigestV1_field_header digest 1 paths_length;
    digest ← stream_to_hasher digest (write_manifest_raw_path_list values);
    ManifestTaggedDigestV1_finish digest.

(** ** The two digests agree *)

(** A digest with the frame of [fields] written, of [count] declared fields. *)
Definition framed (domain : list Z) (count : Z) (fields : list (Z * list Z)) (tag : Z) :
    ManifestTaggedDigestV1 :=
  mkTaggedDigest
    (mkHasher domain (HASH_FRAME_MAGIC ++ be_bytes 4 count ++ flat_map hash_field fields))
    count (len fields) tag.

(** The same with the header of one more field. *)
Definition announced (domain : list Z) (count : Z) (fields : list (Z * list Z)) (tag length : Z) :
    ManifestTaggedDigestV1 :=
  mkTaggedDigest
    (mkHasher domain
       (HASH_FRAME_MAGIC ++ be_bytes 4 count ++ flat_map hash_field fields
          ++ be_bytes 2 tag ++ be_bytes 8 length))
    count (len fields + 1) tag.

Lemma tagged_new domain count : ManifestTaggedDigestV1_new domain count = framed domain count [] 0.
Proof. done. Qed.

Lemma tagged_header domain count fields prev tag length :
  tag ≠ 0 → prev < tag → len fields < count → length <= U64_MAX →
  ManifestTaggedDigestV1_field_header (framed domain count fields prev) tag length
  = Ok (announced domain count fields tag length).
Proof.
  intros Ht Hp Hc Hl. unfold ManifestTaggedDigestV1_field_header. cbn.
  rewrite (proj2 (Z.eqb_neq _ _)), (proj2 (Z.leb_gt tag _)), (proj2 (Z.leb_gt count _)) by done.
  cbn. rewrite (proj2 (try_width_Ok _ _ _ length)), bind_Ok by done.
  unfold announced, Hasher_update. cbn. by rewrite <- !app_assoc.
Qed.

Lemma announced_bytes domain count fields tag p :
  ManifestTaggedDigestV1_bytes (announced domain count fields tag (len p)) p
  = framed domain count (fields ++ [(tag, p)]) tag.
Proof.
  unfold ManifestTaggedDigestV1_bytes, with_hasher, framed, Hasher_update. cbn. f_equal.
  - f_equal. rewrite flat_map_app. cbn. unfold hash_field at 3. cbn.
    by rewrite app_nil_r, <- !app_assoc.
  - by rewrite len_app.
Qed.

Lemma announced_stream domain count fields tag write p :
  writes write p → len p <= U64_MAX →
  stream_to_hasher (announced domain count fields tag (len p)) write
  = Ok (framed domain count (fields ++ [(tag, p)]) tag).
Proof.
  intros Hw Hl. unfold stream_to_hasher. rewrite (hasher_exact _ p), bind_Ok by done.
  by rewrite <- announced_bytes.
Qed.

Lemma announced_hardlink domain count fields tag hardlink_group :
  option_wf is_digest hardlink_group →
  write_optional_hardlink_digest
    (announced domain count fields tag (hardlink_length hardlink_group)) hardlink_group
  = framed domain count (fields ++ [(tag, encode_optional_digest hardlink_group)]) tag.
Proof.
  intros Hd. rewrite <- announced_bytes. destruct hardlink_group as [d|]; [|done].
  destruct Hd as [_ Hd].
  assert (len (encode_optional_digest (Some d)) = 41) as ->
    by (cbn; len_simpl; unfold len; rewrite Hd; done).
  unfold write_optional_hardlink_digest, ManifestTaggedDigestV1_bytes, with_hasher, Hasher_update.
  cbn [tagged_hasher hasher_context hasher_input announced encode_optional_digest].
  by rewrite <- !app_assoc.
Qed.

Lemma framed_finish domain fields tag :
  ManifestTaggedDigestV1_finish (framed domain (len fields) fields tag)
  = Ok (Blake3Digest_derive_tagged domain fields).
Proof. unfold ManifestTaggedDigestV1_finish. cbn. by rewrite Z.eqb_refl. Qed.

(** A part with its length, its writer and its reference encoding. *)
Lemma announced_part domain count fields prev tag l r write {A} (k : _ → contract A) :
  tag ≠ 0 → prev < tag → len fields < count → l = len <$> r →
  (∀ b, r = Ok b → writes write b ∧ len b <= EFFECT_IR_V2_MAX_CANONICAL_BYTES) →
  (length ← l;
   digest ← ManifestTaggedDigestV1_field_header (framed domain count fields prev) tag length;
   digest ← stream_to_hasher digest write; k digest)
  = (b ← r; k (framed domain count (fields ++ [(tag, b)]) tag)).
Proof.
  intros Ht Hp Hc -> Hr. destruct r as [b|e]; [|done]. destruct (Hr b eq_refl) as [Hw Hl].
  cbn [fmap result_fmap]. rewrite !bind_Ok, tagged_header, bind_Ok by first [done|size_lia].
  rewrite announced_stream by first [done|size_lia]. done.
Qed.

Lemma metadata_part v b :
  reference_encode_metadata v = Ok b →
  writes (S:=Hasher) (E:=Empty_set) (write_manifest_metadata_projection v) b ∧
  len b <= EFFECT_IR_V2_MAX_CANONICAL_BYTES.
Proof.
  intros Hb. split; [by apply metadata_writes|].
  apply reference_metadata_Ok in Hb as (? & ? & ? & ? & ? & ? & _ & _ & _ & _ & _ & _ & Hb).
  exact (finish_nested_size _ _ _ Hb).
Qed.

Lemma list_part {A} (g : A → contract (list Z)) values write b :
  (∀ b, reference_encode_list g values = Ok b → writes (S:=Hasher) (E:=Empty_set) write b) →
  reference_encode_list g values = Ok b →
  writes write b ∧ len b <= EFFECT_IR_V2_MAX_CANONICAL_BYTES.
Proof.
  intros Hw Hb. split; [by apply Hw|]. apply reference_list_Ok in Hb as (? & _ & Hb).
  by eapply encode_list_size.
Qed.
End digests.
