(* ===== verification/ManifestStreamTheorems.v ===== *)
(** * Theorems on the streaming writer and the streaming digests *)

From Stdlib Require Import String.
From S2P Require Import Prelude Monad Bytes ContractTypes Canonical CanonicalSpec CanonicalParse.
From S2P Require Import CanonicalCodec RecordTypes Paths RecordValidation RecordCodec Digest.
From S2P Require Import Sample ManifestTypes ManifestWriter ManifestStream StreamLaws.
From S2P Require Import ManifestReference ManifestDigest.
Import TreeRoles.

(** ** The writer *)

(** What a sink sees: the chunks in order, up to the first it refuses. *)
Fixpoint feed {S E} `{!ManifestCanonicalByteSinkV1 S E} (chunks : list (list Z)) (sink : S) :
    result E () * S :=
  match chunks with
  | [] => (Ok (), sink)
  | chunk :: chunks =>
    match try_extend_canonical chunk sink with
    | (Ok _, sink) => feed chunks sink
    | (Err error, sink) => (Err error, sink)
    end
  end.

Lemma write_chunks_feed {S E} `{!ManifestCanonicalByteSinkV1 S E} chunks sink written :
  0 <= written → written + len (concat chunks) <= U64_MAX →
  ∃ w, write_chunks (S:=S) (E:=E) chunks (mkWriter sink written) = w ∧
    writer_sink (w.2) = (feed chunks sink).2 ∧
    match (feed chunks sink).1 with
    | Ok _ => w.1 = Ok () ∧ writer_written (w.2) = written + len (concat chunks)
    | Err error => w.1 = Err (Sink error)
    end.
Proof.
  unfold write_chunks. revert sink written.
  induction chunks as [|c chunks IH]; intros sink written Hw Hl; cbn in *.
  { eexists. split; [done|]. cbn. rewrite len_nil, Z.add_0_r. done. }
  rewrite len_app in *. pose proof (len_nonneg (concat chunks)). pose proof (len_nonneg c).
  unfold mbind, method_bind, writer_bytes. cbn.
  rewrite (proj2 (u64_checked_add_Some _ _ (written + len c))) by lia.
  destruct (try_extend_canonical c sink) as [[[]|error] sink']; cbn; [|by eexists].
  destruct (IH sink' (written + len c)) as (w & Ew & Es & Er); [lia..|].
  exists w. rewrite Z.add_assoc. done.
Qed.

(** C19. The streaming writer of a tree equals the reference encoder, for every
    sink: when the reference fails the writer returns its error and has not
    touched the sink; otherwise the sink is fed, in order and until it refuses,
    chunks that concatenate to the reference bytes, and on success the writer
    returns their number. *)
Theorem tree_writer_exact {S E} `{!ManifestCanonicalByteSinkV1 S E} (tree : TreeManifestV1)
    (sink : S) :
  match reference_encode_tree tree with
  | Err error =>
    write_tree_manifest_projection_canonical_v1 (E:=E) (tree_mount_path tree) (tree_role tree)
      (tree_entries tree) (tree_root_digest tree) sink = (Err (Canonical error), sink)
  | Ok bytes =>
    ∃ chunks, concat chunks = bytes ∧
      write_tree_manifest_projection_canonical_v1 (E:=E) (tree_mount_path tree) (tree_role tree)
        (tree_entries tree) (tree_root_digest tree) sink =
      match feed chunks sink with
      | (Ok _, sink) => (Ok (len bytes), sink)
      | (Err error, sink) => (Err (Sink error), sink)
      end
  end.
Proof.
  unfold write_tree_manifest_projection_canonical_v1.
  change (checked_tree_manifest_projection_canonical_length_v1 _ _ _ _)
    with (checked_tree_manifest_canonical_length_v1 tree).
  change (write_tree_manifest_projection_canonical_inner _ _ _ _)
    with (write_tree_manifest_canonical_inner (S:=S) (E:=E) tree).
  rewrite tree_length. destruct (reference_encode_tree tree) as [b|e] eqn:Hb; [|done].
  cbn [fmap result_fmap]. pose proof Hb as (? & ? & _ & _ & Hs%finish_nested_size)%reference_tree_Ok.
  destruct (tree_writes (S:=S) (E:=E) tree b Hb) as (chunks & <- & Hw).
  exists chunks. split; [done|]. rewrite Hw by (cbn; size_lia).
  destruct (write_chunks_feed (S:=S) (E:=E) chunks sink 0) as (w & -> & Es & Er); [done|size_lia|].
  destruct w as [r w], (feed chunks sink) as [[[]|error] sink']; cbn in *; subst; [|done].
  destruct Er as [-> ->]. by rewrite Z.add_0_l, Z.eqb_refl.
Qed.

(** ** Node digests *)

Lemma digest_fits d : is_digest d → len d <= U64_MAX.
Proof. intros [_ Hd]. unfold len. rewrite Hd. done. Qed.

Lemma announced_bytes_of domain count fields tag n p :
  n = len p →
  ManifestTaggedDigestV1_bytes (announced domain count fields tag n) p
  = framed domain count (fields ++ [(tag, p)]) tag.
Proof. intros ->. apply announced_bytes. Qed.

(** Runs a tagged digest field by field. *)
Ltac tagged_run :=
  repeat (rewrite ?bind_Ok;
    first [ rewrite tagged_header; [|done|done|done|first [done|size_lia]]
          | rewrite announced_stream; [|done|size_lia]
          | rewrite announced_hardlink by done
          | rewrite announced_bytes_of; [|rewrite ?len_be_bytes; done] ]; cbn [app]);
  rewrite ?bind_Ok; try apply framed_finish.

(** The streaming node digest equals the digest of the encoded parts, for
    every entry of the Rust types, errors included. *)
Theorem streaming_node_digest_exact `{Blake3} (metadata : MetadataV1)
    (payload : ManifestPayloadV1) (hardlink_group : option (list Z)) :
  ManifestPayloadV1_wf payload → payload_slices payload → option_wf is_digest hardlink_group →
  derive_manifest_node_digest_projection_streaming_v1 metadata payload hardlink_group
  = compute_manifest_node_digest metadata payload hardlink_group.
Proof.
  intros Hp Hs Hh. unfold derive_manifest_node_digest_projection_streaming_v1,
    compute_manifest_node_digest, encode_metadata_for_hash. rewrite tagged_new, encode_metadata_eq.
  cbv zeta. unfold write_manifest_metadata_projection_to_hasher.
  rewrite (announced_part _ _ [] 0 1 _ (reference_encode_metadata metadata));
    [|done|done|by destruct payload|apply metadata_length|apply metadata_part].
  destruct (reference_encode_metadata metadata) as [m|e]; [|done]. rewrite !bind_Ok.
  assert (hardlink_length hardlink_group <= U64_MAX) by by destruct hardlink_group.
  destruct payload as [children|content extents|target|role root readonly]; cbn [app];
    cbn [node_field_count node_domain].
  - case_bool_decide; [done|]. unfold write_manifest_children_to_hasher.
    rewrite encode_children_eq, child_list_length.
    destruct (reference_encode_list _ children) as [cs|] eqn:Hc; [|done].
    destruct (list_part _ _ _ cs (child_list_writes children) Hc) as [Hw Hl].
    cbn [fmap result_fmap]. tagged_run.
  - unfold write_manifest_extents_to_hasher. rewrite encode_extents_eq, extent_list_length.
    destruct (reference_encode_list _ extents) as [es|] eqn:He; [|done].
    destruct (list_part _ _ _ es (extent_list_writes extents) He) as [Hw Hl].
    destruct Hp as [Hp%digest_fits _]. cbn [fmap result_fmap]. tagged_run.
  - cbn in Hs. tagged_run.
  - destruct (_ || _); [done|]. cbn in Hp. apply digest_fits in Hp. tagged_run.
Qed.

Lemma streaming_node_digest_exact_witness :
  let metadata := mkMetadata 33188 1 2 3 2 (mkTimespec 4 5) (mkTimespec 6 7) (mkTimespec 8 9)
                    None [] in
  let payload := Payloads.Regular (replicate 32 7) [mkExtent 0 3] in
  derive_manifest_node_digest_projection_streaming_v1 metadata payload (Some (replicate 32 9))
  = compute_manifest_node_digest metadata payload (Some (replicate 32 9)).
Proof.
  intros metadata payload. apply (streaming_node_digest_exact metadata payload).
  - split; [split; [repeat constructor|]|repeat constructor]; done.
  - exact I.
  - split; [repeat constructor|]; done.
Defined.

(** The streaming digest of a hard-link group is that of the path list. *)
Lemma streaming_hardlink_digest_eq `{Blake3} (values : list (list Z)) :
  2 <= len values → windows_any bytes_ge values = false →
  derive_hardlink_group_digest_streaming_v1 values =
  (encoded ← encode_paths_for_hash values;
   Ok (Blake3Digest_derive HARDLINK_GROUP_DOMAIN [encoded])).
Proof.
  intros Hn Hw. unfold derive_hardlink_group_digest_streaming_v1.
  rewrite (proj2 (Z.ltb_ge _ _)), Hw, encode_paths_eq, raw_path_list_length, tagged_new by done.
  destruct (encode_list values) as [b|e] eqn:Hb.
  - pose proof Hb as (Hc & _ & Hs)%encode_list_Ok.
    unfold canonical_collection_count. rewrite (proj2 (try_width_Ok _ _ _ (len values))), bind_Ok
      by (split; [done|size_lia]). rewrite (proj2 (Z.ltb_ge _ _)), !bind_Ok by done.
    pose proof (raw_path_list_writes (S:=Hasher) (E:=Empty_set) values b Hb).
    cbn [fmap result_fmap]. tagged_run.
  - rewrite (only_encode_list values e Hb). destruct (canonical_collection_count _) as [c|e'] eqn:E;
      [done|]. cbn. f_equal. revert E. unfold canonical_collection_count.
    intros E. assert (only_encoding (canonical_collection_count (len values))) as Ho.
    { apply only_bind; [apply only_try_width|]. intros ?. case_match; [apply only_Err|apply only_Ok]. }
    by apply Ho.
Qed.
