(* ===== verification/ManifestValidation.v ===== *)
(** * Validation of manifests

    [TreeManifestV1::validate] and [SnapshotManifestV1::validate] of
    [src/src/linux_pytest.rs]: every node digest is recomputed, every directory
    commits to the kind and digest of its children, every entry but the root is
    named by one parent, hard-link groups are complete, and the forest of
    runtime trees matches the external-tree entries of the workspace. A
    [BTreeMap] is a list searched by its key, a [BTreeSet] a list without
    repetition. *)

From Stdlib Require Import String.
From S2P Require Import Prelude Monad Bytes ContractTypes Canonical CanonicalSpec CanonicalParse.
From S2P Require Import CanonicalCodec RecordTypes Paths RecordValidation RecordCodec Digest.
From S2P Require Import ManifestTypes ManifestWriter ManifestStream StreamLaws.
From S2P Require Import ManifestReference ManifestDigest.
Import TreeRoles.

(** ** One tree *)

Definition S_IFMT : Z := 0xf000.
Definition S_IFDIR : Z := 0x4000.
Definition S_IFREG : Z := 0x8000.
Definition S_IFLNK : Z := 0xa000.

(** The entry with a given path; paths are distinct when this is used. *)
Fixpoint by_path (entries : list ManifestEntryV1) (path : list Z) : option ManifestEntryV1 :=
  match entries with
  | [] => None
  | entry :: entries =>
    if bytes_eqb (entry_relative_path entry) path then Some entry else by_path entries path
  end.

Definition expected_file_type (payload : ManifestPayloadV1) : Z :=
  match payload with
  | Payloads.Directory _ | Payloads.ExternalTree _ _ _ => S_IFDIR
  | Payloads.Regular _ _ => S_IFREG
  | Payloads.Symlink _ => S_IFLNK
  end.

(** The loop over the children of a directory; [linked] is [linked_from_parent]. *)
Fixpoint link_children (entries : list ManifestEntryV1) (parent : list Z)
    (linked : list (list Z)) (children : list ChildCommitmentV1) : contract (list (list Z)) :=
  match children with
  | [] => Ok linked
  | child :: children =>
    let child_path := join_relative parent (child_name child) in
    match by_path entries child_path with
    | None => Err MalformedManifest
    | Some target =>
      if negb (bool_decide (ManifestPayloadV1_kind (entry_payload target) = child_kind child))
         || negb (bytes_eqb (entry_node_digest target) (child_node_digest child))
         || bool_decide (child_path ∈ linked)
      then Err MalformedManifest
      else link_children entries parent (child_path :: linked) children
    end
  end.

(** The loop over the extents of a regular file. *)
Fixpoint validate_extents (size end_ : Z) (extents : list ExtentV1) : contract () :=
  match extents with
  | [] => Ok ()
  | extent :: extents =>
    next ← ok_or (u64_checked_add (extent_offset extent) (extent_length extent)) MalformedManifest;
    if (extent_length extent =? 0) || (extent_offset extent <? end_) || (size <? next)
    then Err MalformedManifest
    else validate_extents size next extents
  end.

(** [entry(group).or_default().push(path)] on a map ordered by its key. *)
Fixpoint push_member (group path : list Z) (members : list (list Z * list (list Z))) :
    list (list Z * list (list Z)) :=
  match members with
  | [] => [(group, [path])]
  | (key, paths) :: members =>
    match bytes_compare group key with
    | Lt => (group, [path]) :: (key, paths) :: members
    | Eq => (key, paths ++ [path]) :: members
    | Gt => (key, paths) :: push_member group path members
    end
  end.

Definition can_be_hardlinked (payload : ManifestPayloadV1) : bool :=
  match payload with
  | Payloads.Directory _ | Payloads.ExternalTree _ _ _ => false
  | Payloads.Regular _ _ | Payloads.Symlink _ => true
  end.

Section validation.
Context `{Blake3}.

(** The match on the payload of one entry. *)
Definition validate_payload (tree_role : TreeRoleV1) (entries : list ManifestEntryV1)
    (linked : list (list Z)) (entry : ManifestEntryV1) : contract (list (list Z)) :=
  match entry_payload entry with
  | Payloads.Directory children =>
    if windows_any (λ left right, bytes_ge (child_name left) (child_name right)) children
       || any (λ child, negb (valid_basename (child_name child))) children
    then Err MalformedManifest
    else link_children entries (entry_relative_path entry) linked children
  | Payloads.Regular _ data_extents =>
    _ ← validate_extents (metadata_size (entry_metadata entry)) 0 data_extents;
    Ok linked
  | Payloads.Symlink target =>
    if bytes_eqb target [] || contains 0 target
       || negb ((len target <=? U64_MAX) && (len target =? metadata_size (entry_metadata entry)))
    then Err MalformedManifest else Ok linked
  | Payloads.ExternalTree _ _ _ =>
    if negb (bool_decide (tree_role = Workspace)) then Err MalformedManifest else Ok linked
  end.

(** The hard-link part of one entry. *)
Definition validate_hardlink (members : list (list Z * list (list Z))) (entry : ManifestEntryV1) :
    contract (list (list Z * list (list Z))) :=
  match entry_hardlink_group entry with
  | Some group =>
    if negb (can_be_hardlinked (entry_payload entry)) || (metadata_nlink (entry_metadata entry) <? 2)
    then Err MalformedManifest
    else Ok (push_member group (entry_relative_path entry) members)
  | None =>
    if can_be_hardlinked (entry_payload entry)
       && negb (metadata_nlink (entry_metadata entry) =? 1)
    then Err MalformedManifest else Ok members
  end.

(** The body of the loop over the entries. *)
Definition validate_entry (tree_role : TreeRoleV1) (entries : list ManifestEntryV1)
    (state : list (list Z) * list (list Z * list (list Z))) (entry : ManifestEntryV1) :
    contract (list (list Z) * list (list Z * list (list Z))) :=
  let '(linked, members) := state in
  if negb (valid_manifest_relative_path (entry_relative_path entry)) then Err MalformedManifest
  else
    _ ← MetadataV1_validate (entry_metadata entry);
    if negb (Z.land (metadata_mode (entry_metadata entry)) S_IFMT
             =? expected_file_type (entry_payload entry))
    then Err MalformedManifest
    else
      computed ← computed_node_digest entry;
      if negb (bytes_eqb computed (entry_node_digest entry)) then Err MalformedManifest
      else
        linked ← validate_payload tree_role entries linked entry;
        members ← validate_hardlink members entry;
        Ok (linked, members).

Fixpoint validate_entries (tree_role : TreeRoleV1) (entries : list ManifestEntryV1)
    (state : list (list Z) * list (list Z * list (list Z))) (rest : list ManifestEntryV1) :
    contract (list (list Z) * list (list Z * list (list Z))) :=
  match rest with
  | [] => Ok state
  | entry :: rest =>
    state ← validate_entry tree_role entries state entry;
    validate_entries tree_role entries state rest
  end.

(** One hard-link group: its members agree, are complete and hash to it. *)
Definition validate_group (entries : list ManifestEntryV1) (group : list Z)
    (members : list (list Z)) : contract () :=
  let members := stable_sort bytes_compare members in
  first ← ok_or (path ← head members; by_path entries path) MalformedManifest;
  let nlink := metadata_nlink (entry_metadata first) in
  if negb ((len members <=? U64_MAX) && (len members =? nlink))
     || any (λ path,
               match by_path entries path with
               | None => true
               | Some entry =>
                 negb (metadata_nlink (entry_metadata entry) =? nlink)
                 || negb (bool_decide (ManifestPayloadV1_kind (entry_payload entry)
                                       = ManifestPayloadV1_kind (entry_payload first)))
                 || negb (bytes_eqb (entry_node_digest entry) (entry_node_digest first))
               end) members
  then Err MalformedManifest
  else
    encoded ← encode_paths_for_hash members;
    if negb (bytes_eqb (Blake3Digest_derive HARDLINK_GROUP_DOMAIN [encoded]) group)
    then Err MalformedManifest else Ok ().

Fixpoint validate_groups (entries : list ManifestEntryV1)
    (groups : list (list Z * list (list Z))) : contract () :=
  match groups with
  | [] => Ok ()
  | (group, members) :: groups =>
    _ ← validate_group entries group members;
    validate_groups entries groups
  end.

Definition is_directory (payload : ManifestPayloadV1) : bool :=
  match payload with Payloads.Directory _ => true | _ => false end.

Definition TreeManifestV1_validate (self : TreeManifestV1) : contract () :=
  match tree_entries self with
  | [] => Err MalformedManifest
  | root :: _ =>
    if negb (bytes_eqb (entry_relative_path root) [])
       || windows_any (λ left right,
            bytes_ge (entry_relative_path left) (entry_relative_path right)) (tree_entries self)
       || negb (is_directory (entry_payload root))
    then Err MalformedManifest
    else
      '(linked, members) ←
        validate_entries (tree_role self) (tree_entries self) ([], []) (tree_entries self);
      if negb (len linked + 1 =? len (tree_entries self))
         || any (λ path, bool_decide (by_path (tree_entries self) path = None)) linked
      then Err MalformedManifest
      else
        _ ← validate_groups (tree_entries self) members;
        if negb (bytes_eqb (tree_root_digest self) (entry_node_digest root))
        then Err MalformedManifest else Ok ()
  end.

(** ** The snapshot *)

Definition count_where {A} (p : A → bool) (l : list A) : Z := len (List.filter p l).

(** An external-tree entry of the workspace and a runtime tree that match. *)
Definition external_matches (workspace : TreeManifestV1) (entry : ManifestEntryV1)
    (tree : TreeManifestV1) : bool :=
  match entry_payload entry with
  | Payloads.ExternalTree role target_root readonly =>
    bytes_eqb (join_sandbox_relative (tree_mount_path workspace) (entry_relative_path entry))
      (tree_mount_path tree)
    && bytes_eqb (tree_root_digest tree) target_root
    && bool_decide (tree_role tree = role) && readonly
  | _ => false
  end.

Definition is_external (payload : ManifestPayloadV1) : bool :=
  match payload with Payloads.ExternalTree _ _ _ => true | _ => false end.

(** The loop over the entries of the workspace tree. *)
Definition external_entries_unmatched (self : SnapshotManifestV1) : bool :=
  any (λ entry,
         is_external (entry_payload entry)
         && negb (count_where (external_matches (manifest_workspace_tree self) entry)
                    (manifest_runtime_trees self) =? 1))
    (tree_entries (manifest_workspace_tree self)).

(** The loop over the runtime trees mounted in the workspace. *)
Definition workspace_mounts_unmatched (self : SnapshotManifestV1) : bool :=
  any (λ runtime,
         starts_with (bstr "/workspace/") (tree_mount_path runtime)
         && negb (count_where
                    (λ entry, external_matches (manifest_workspace_tree self) entry runtime)
                    (tree_entries (manifest_workspace_tree self)) =? 1))
    (manifest_runtime_trees self).

Definition manifest_shape_malformed (self : SnapshotManifestV1) : bool :=
  let workspace := manifest_workspace_tree self in
  negb (bytes_eqb (manifest_schema self) SNAPSHOT_MANIFEST_V1_SCHEMA)
  || negb (bool_decide (tree_role workspace = Workspace))
  || negb (bytes_eqb (tree_mount_path workspace) (bstr "/workspace"))
  || negb (valid_sandbox_path_bytes (tree_mount_path workspace))
  || bool_decide (manifest_runtime_trees self = [])
  || any (λ tree, negb (bool_decide (tree_role tree = Runtime))
                  || negb (valid_sandbox_path_bytes (tree_mount_path tree))
                  || runtime_mount_is_reserved (tree_mount_path tree))
       (manifest_runtime_trees self)
  || windows_any (λ left right,
       bytes_ge (tree_mount_path left) (tree_mount_path right)
       || sandbox_path_is_ancestor (tree_mount_path left) (tree_mount_path right))
       (manifest_runtime_trees self).

Fixpoint validate_trees (trees : list TreeManifestV1) : contract () :=
  match trees with
  | [] => Ok ()
  | tree :: trees => _ ← TreeManifestV1_validate tree; validate_trees trees
  end.

Definition SnapshotManifestV1_validate (self : SnapshotManifestV1) : contract () :=
  if manifest_shape_malformed self then Err MalformedManifest
  else
    _ ← TreeManifestV1_validate (manifest_workspace_tree self);
    _ ← validate_trees (manifest_runtime_trees self);
    let workspace_root :=
      Blake3Digest_derive WORKSPACE_MERKLE_DOMAIN
        [tree_root_digest (manifest_workspace_tree self)] in
    runtime_forest ← encode_runtime_forest_for_hash (manifest_runtime_trees self);
    let runtime_root := Blake3Digest_derive RUNTIME_MERKLE_DOMAIN [runtime_forest] in
    if negb (bytes_eqb (manifest_workspace_root self) workspace_root)
       || negb (bytes_eqb (manifest_runtime_root self) runtime_root)
    then Err MalformedManifest
    else if external_entries_unmatched self then Err MalformedManifest
    else if workspace_mounts_unmatched self then Err MalformedManifest
    else Ok ().

Definition SnapshotManifestV1_canonical_bytes (self : SnapshotManifestV1) : contract (list Z) :=
  _ ← SnapshotManifestV1_validate self;
  encode_snapshot_manifest self.
End validation.
