(* ===== verification/ManifestCodec.v ===== *)
(** * Decoding of manifests, and its laws

    The strict decoders of [src/src/linux_pytest/canonical.rs] for manifests,
    and the proof that encoding and decoding are inverse for every structure.
    The laws are stated with the reference encoders, which the streaming
    encoders equal. *)

From S2P Require Import Prelude Monad Bytes ContractTypes Canonical CanonicalSpec CanonicalParse.
From S2P Require Import CanonicalCodec RecordTypes Paths RecordValidation RecordCodec.
From S2P Require Import RecordRoundTrip Digest ManifestTypes ManifestWriter ManifestStream.
From S2P Require Import StreamLaws ManifestReference ManifestDigest ManifestValidation.
Import Wire TreeRoles EntryKinds.

(** ** Decoders *)

Definition decode_tree_role (bytes : list Z) : contract TreeRoleV1 :=
  variant ← decode_simple_enum bytes;
  match variant with
  | 1 => Ok Workspace
  | 2 => Ok Runtime
  | _ => Err CanonicalDecoding
  end.

Definition decode_manifest_entry_kind (bytes : list Z) : contract ManifestEntryKindV1 :=
  variant ← decode_simple_enum bytes;
  match variant with
  | 1 => Ok Directory
  | 2 => Ok Regular
  | 3 => Ok Symlink
  | 4 => Ok ExternalTree
  | _ => Err CanonicalDecoding
  end.

Definition decode_timespec (bytes : list Z) : contract TimespecV1 :=
  object ← RawObject_parse_nested bytes;
  _ ← RawObject_expect object TYPE_TIMESPEC [(1, I64); (2, U32)];
  p1 ← RawObject_payload object 1; seconds ← decode_i64 p1;
  p2 ← RawObject_payload object 2; nanoseconds ← decode_u32 p2;
  Ok (mkTimespec seconds nanoseconds).

Definition decode_xattr (bytes : list Z) : contract XattrV1 :=
  object ← RawObject_parse_nested bytes;
  _ ← RawObject_expect object TYPE_XATTR [(1, Bytes); (2, Bytes)];
  name ← RawObject_payload object 1;
  value ← RawObject_payload object 2;
  Ok (mkXattr name value).

Definition decode_metadata (bytes : list Z) : contract MetadataV1 :=
  object ← RawObject_parse_nested bytes;
  _ ← RawObject_expect object TYPE_METADATA
        [(1, U32); (2, U32); (3, U32); (4, U64); (5, U64); (6, Object); (7, Object); (8, Object);
         (9, Optional); (10, List)];
  p1 ← RawObject_payload object 1; mode ← decode_u32 p1;
  p2 ← RawObject_payload object 2; logical_uid ← decode_u32 p2;
  p3 ← RawObject_payload object 3; logical_gid ← decode_u32 p3;
  p4 ← RawObject_payload object 4; size ← decode_u64 p4;
  p5 ← RawObject_payload object 5; nlink ← decode_u64 p5;
  p6 ← RawObject_payload object 6; atime ← decode_timespec p6;
  p7 ← RawObject_payload object 7; mtime ← decode_timespec p7;
  p8 ← RawObject_payload object 8; ctime ← decode_timespec p8;
  p9 ← RawObject_payload object 9; o9 ← decode_optional p9; btime ← try_option decode_timespec o9;
  p10 ← RawObject_payload object 10; l10 ← decode_list p10; xattrs ← try_map decode_xattr l10;
  Ok (mkMetadata mode logical_uid logical_gid size nlink atime mtime ctime btime xattrs).

Definition decode_extent (bytes : list Z) : contract ExtentV1 :=
  object ← RawObject_parse_nested bytes;
  _ ← RawObject_expect object TYPE_EXTENT [(1, U64); (2, U64)];
  p1 ← RawObject_payload object 1; offset ← decode_u64 p1;
  p2 ← RawObject_payload object 2; length ← decode_u64 p2;
  Ok (mkExtent offset length).

Definition decode_child (bytes : list Z) : contract ChildCommitmentV1 :=
  object ← RawObject_parse_nested bytes;
  _ ← RawObject_expect object TYPE_CHILD_COMMITMENT [(1, Bytes); (2, Enum); (3, Bytes)];
  name ← RawObject_payload object 1;
  p2 ← RawObject_payload object 2; kind ← decode_manifest_entry_kind p2;
  p3 ← RawObject_payload object 3; node_digest ← exact 32 p3;
  Ok (mkChild name kind node_digest).

Definition decode_manifest_payload (bytes : list Z) : contract ManifestPayloadV1 :=
  value ← RawEnum_parse bytes;
  match raw_enum_variant value with
  | 1 =>
    _ ← RawEnum_expect value 1 [(1, List)];
    p1 ← RawEnum_payload value 1; l1 ← decode_list p1; children ← try_map decode_child l1;
    Ok (Payloads.Directory children)
  | 2 =>
    _ ← RawEnum_expect value 2 [(1, Bytes); (2, List)];
    p1 ← RawEnum_payload value 1; content_digest ← exact 32 p1;
    p2 ← RawEnum_payload value 2; l2 ← decode_list p2; data_extents ← try_map decode_extent l2;
    Ok (Payloads.Regular content_digest data_extents)
  | 3 =>
    _ ← RawEnum_expect value 3 [(1, Bytes)];
    target ← RawEnum_payload value 1;
    Ok (Payloads.Symlink target)
  | 4 =>
    _ ← RawEnum_expect value 4 [(1, Enum); (2, Bytes); (3, Bool)];
    p1 ← RawEnum_payload value 1; tree_role ← decode_tree_role p1;
    p2 ← RawEnum_payload value 2; target_root ← exact 32 p2;
    p3 ← RawEnum_payload value 3; readonly ← decode_bool p3;
    Ok (Payloads.ExternalTree tree_role target_root readonly)
  | _ => Err CanonicalDecoding
  end.

Definition decode_manifest_entry (bytes : list Z) : contract ManifestEntryV1 :=
  object ← RawObject_parse_nested bytes;
  _ ← RawObject_expect object TYPE_MANIFEST_ENTRY
        [(1, Bytes); (2, Enum); (3, Object); (4, Enum); (5, Optional); (6, Bytes)];
  p2 ← RawObject_payload object 2; declared_kind ← decode_manifest_entry_kind p2;
  p4 ← RawObject_payload object 4; payload ← decode_manifest_payload p4;
  _ ← ensure (bool_decide (declared_kind = ManifestPayloadV1_kind payload)) CanonicalDecoding;
  relative_path ← RawObject_payload object 1;
  p3 ← RawObject_payload object 3; metadata ← decode_metadata p3;
  p5 ← RawObject_payload object 5; o5 ← decode_optional p5;
  hardlink_group ← try_option (exact 32) o5;
  p6 ← RawObject_payload object 6; node_digest ← exact 32 p6;
  Ok (mkEntry relative_path metadata payload hardlink_group node_digest).

Definition decode_tree (bytes : list Z) : contract TreeManifestV1 :=
  object ← RawObject_parse_nested bytes;
  _ ← RawObject_expect object TYPE_TREE_MANIFEST [(1, Bytes); (2, Enum); (3, List); (4, Bytes)];
  p1 ← RawObject_payload object 1; mount_path ← decode_sandbox_path p1;
  p2 ← RawObject_payload object 2; tree_role ← decode_tree_role p2;
  p3 ← RawObject_payload object 3; l3 ← decode_list p3;
  entries ← try_map decode_manifest_entry l3;
  p4 ← RawObject_payload object 4; root_digest ← exact 32 p4;
  Ok (mkTree mount_path tree_role entries root_digest).

Definition decode_snapshot_manifest `{Blake3} (bytes : list Z) : contract SnapshotManifestV1 :=
  object ← RawObject_parse_top bytes;
  _ ← RawObject_expect object TYPE_SNAPSHOT_MANIFEST
        [(1, Utf8); (2, Bytes); (3, Bytes); (4, Object); (5, List); (6, Bytes); (7, Bytes)];
  p1 ← RawObject_payload object 1; schema ← from_utf8 p1;
  p2 ← RawObject_payload object 2; profile_digest ← exact 32 p2;
  p3 ← RawObject_payload object 3; workspace_identity ← exact 32 p3;
  p4 ← RawObject_payload object 4; workspace_tree ← decode_tree p4;
  p5 ← RawObject_payload object 5; l5 ← decode_list p5; runtime_trees ← try_map decode_tree l5;
  p6 ← RawObject_payload object 6; workspace_root ← exact 32 p6;
  p7 ← RawObject_payload object 7; runtime_root ← exact 32 p7;
  let value := mkManifest schema profile_digest workspace_identity workspace_tree runtime_trees
                 workspace_root runtime_root in
  _ ← SnapshotManifestV1_validate value;
  _ ← require_reencoding (encode_snapshot_manifest value) bytes;
  Ok value.

(** ** Laws *)

Lemma decode_i64_be v : is_i64 v → decode_i64 (be_bytes 8 v) = Ok v.
Proof.
  intros Hv. apply (codec_complete (Codec:=i64_codec) v); [done..|]. rewrite len_be_bytes. done.
Qed.

Lemma decode_i64_inv b v : is_sized b → decode_i64 b = Ok v → is_i64 v ∧ b = be_bytes 8 v.
Proof.
  intros Hb Hd. destruct (codec_sound (Codec:=i64_codec) b v Hb Hd) as [? [= <-]]. done.
Qed.

#[global] Instance tree_role_kind : KindCodec TreeRoleV1_as_u16 decode_tree_role.
Proof. kind_instance. Qed.
#[global] Instance entry_kind_kind : KindCodec ManifestEntryKindV1_as_u16 decode_manifest_entry_kind.
Proof. kind_instance. Qed.

Ltac bytes_extra ::= apply bool_bytes.

Ltac dec_extra ::=
  first [ rewrite decode_i64_be by assumption | rewrite decode_bool_be
        | rewrite decode_sandbox_path_ok by assumption
        | rewrite from_utf8_ok by assumption ].

Ltac sound_extra E ::=
  first [ apply decode_i64_inv in E as [? ->]; [|assumption]
        | apply decode_bool_inv in E as ->; [|assumption]
        | apply decode_sandbox_path_inv in E as [-> ?]; [|assumption]
        | apply from_utf8_inv in E as [-> ?]; [|assumption] ].

Ltac pose_extra ::= fail.
Ltac build_extra ::= fail.

#[global] Instance timespec_codec :
  NestedCodec TimespecV1_wf reference_encode_timespec decode_timespec.
Proof. object_codec TimespecV1_wf reference_encode_timespec decode_timespec. Qed.

#[global] Instance xattr_codec : NestedCodec XattrV1_wf reference_encode_xattr decode_xattr.
Proof. object_codec XattrV1_wf reference_encode_xattr decode_xattr. Qed.

#[global] Instance metadata_codec :
  NestedCodec MetadataV1_wf reference_encode_metadata decode_metadata.
Proof. object_codec MetadataV1_wf reference_encode_metadata decode_metadata. Qed.

#[global] Instance extent_codec : NestedCodec ExtentV1_wf reference_encode_extent decode_extent.
Proof. object_codec ExtentV1_wf reference_encode_extent decode_extent. Qed.

#[global] Instance child_codec :
  NestedCodec ChildCommitmentV1_wf reference_encode_child decode_child.
Proof. object_codec ChildCommitmentV1_wf reference_encode_child decode_child. Qed.

#[global] Instance payload_codec :
  NestedCodec ManifestPayloadV1_wf reference_encode_payload decode_manifest_payload.
Proof.
  split.
  - intros [children|content extents|target|role root readonly] b Hwf H;
      cbn in Hwf; destruct_and? Hwf; unfold reference_encode_payload in H;
      unfold enum_field in H; enc_inv H; pose_complete; enum_complete H;
      (split; [done|]); unfold decode_manifest_payload; rewrite H, bind_Ok; run_enum; done.
  - intros b a Hb H. unfold decode_manifest_payload in H.
    apply result_bind_Ok in H as ([v fs] & Ho & H).
    cbn [raw_enum_variant] in H. split_variant H; open_enum Ho H Hb; dec_inv H; injection H as <-;
      (split; [cbn; solve_wf|]); unfold reference_encode_payload, enum_field; repeat build_step; done.
Qed.

Lemma digest_option_complete o p :
  option_wf is_digest o → encode_optional o = Ok p →
  is_sized p ∧ decode_optional p = Ok o ∧ try_option (exact 32) o = Ok o.
Proof.
  intros Ho He. assert (Codec is_digest Ok (exact 32)) by apply array_codec.
  destruct (optional_complete is_digest Ok (exact 32) o o p) as (? & ? & ?);
    [by intros a ->|by destruct o|done|]. split; [|done]. by apply encode_optional_Ok in He as [_ ?].
Qed.

Lemma digest_option_sound p v o :
  is_sized p → decode_optional p = Ok v → try_option (exact 32) v = Ok o →
  option_wf is_digest o ∧ encode_optional o = Ok p.
Proof.
  intros Hp Hd Ht. assert (Codec is_digest Ok (exact 32)) by apply array_codec.
  destruct (optional_sound is_digest Ok (exact 32) p v o Hp Hd Ht) as (Hw & Hv & He).
  rewrite try_option_id in Hv. injection Hv as ->. split; [by apply option_wf_intro|done].
Qed.

#[global] Instance entry_codec :
  NestedCodec ManifestEntryV1_wf reference_encode_entry decode_manifest_entry.
Proof.
  split.
  - intros a b Hwf H. destruct a as [path metadata payload group digest].
    unfold ManifestEntryV1_wf in Hwf. cbn in Hwf. destruct_and? Hwf.
    unfold reference_encode_entry in H. unfold_builder. cbn in H. enc_inv H.
    match goal with E : encode_optional group = Ok ?p |- _ =>
      destruct (digest_option_complete group p ltac:(assumption) E) as (? & ? & ?); clear E end.
    pose_complete. pose proof H as Hfin.
    apply parse_built in H as (? & H & _); [|by vm_compute|solve_fields].
    split; [by eapply finish_nested_sized|]. unfold decode_manifest_entry. rewrite H, bind_Ok.
    rewrite expect_shape by done. rewrite bind_Ok. dec_run.
    rewrite (proj2 (ensure_Ok _ _ ())), bind_Ok by by rewrite bool_decide_true. dec_run. done.
  - intros b a Hb H. unfold decode_manifest_entry in H. open_object H Hb. dec_inv H.
    injection H as <-.
    match goal with D : ensure _ _ = Ok _ |- _ =>
      apply ensure_Ok, bool_decide_eq_true in D; subst end.
    match goal with D : decode_optional ?p = Ok ?v, T : try_option _ ?v = Ok ?o |- _ =>
      destruct (digest_option_sound p v o ltac:(assumption) D T) as [? ?]; clear D T end.
    split; [unfold ManifestEntryV1_wf; cbn; solve_wf|].
    unfold reference_encode_entry. unfold_builder. cbn. rewrite ?bind_Ok. repeat build_step. done.
Qed.

#[global] Instance tree_codec : NestedCodec TreeManifestV1_wf reference_encode_tree decode_tree.
Proof. object_codec TreeManifestV1_wf reference_encode_tree decode_tree. Qed.

(** The streaming encoder of trees has the same laws. *)
#[global] Instance tree_stream_codec : NestedCodec TreeManifestV1_wf encode_tree decode_tree.
Proof.
  split; intros a b; rewrite encode_tree_eq; [apply nested_complete|apply nested_sound].
Qed.

Definition valid_manifest `{Blake3} (v : SnapshotManifestV1) : Prop :=
  SnapshotManifestV1_wf v ∧ SnapshotManifestV1_validate v = Ok ().

#[global] Arguments SnapshotManifestV1_validate : simpl never.
#[global] Arguments encode_snapshot_manifest : simpl never.

#[global] Instance manifest_codec `{Blake3} :
  NestedCodec valid_manifest SnapshotManifestV1_canonical_bytes decode_snapshot_manifest.
Proof.
  split.
  - intros a b [Hwf Hv] H'. unfold SnapshotManifestV1_canonical_bytes in H'.
    rewrite Hv, bind_Ok in H'. pose proof H' as Henc. destruct a.
    unfold SnapshotManifestV1_wf in Hwf. cbn in Hwf. destruct_and? Hwf.
    unfold encode_snapshot_manifest in H'. unfold_builder. cbn in H'. enc_inv H'. pose_complete.
    apply parse_top_built in H' as (Hs & H'); [|by vm_compute|solve_fields]. split; [done|].
    unfold decode_snapshot_manifest. rewrite H', bind_Ok, expect_shape, bind_Ok by done. dec_run.
    by rewrite (proj2 (require_reencoding_Ok _ b ())).
  - intros b a Hb H'. unfold decode_snapshot_manifest in H'. open_top H' Hb. dec_inv H'.
    injection H' as <-.
    match goal with D : require_reencoding _ _ = Ok _ |- _ => apply require_reencoding_Ok in D end.
    match goal with D : SnapshotManifestV1_validate _ = Ok () |- _ =>
      split; [split; [unfold SnapshotManifestV1_wf; cbn; solve_wf|exact D]|];
      unfold SnapshotManifestV1_canonical_bytes; by rewrite D end.
Qed.
