(* ===== verification/TreeSpec.v ===== *)
(** * What a valid tree is

    A declarative reading of [TreeManifestV1::validate] of
    [src/src/linux_pytest.rs]: [valid_tree] says which trees are valid without
    the sets and maps that the validator fills as it runs, and the lemmas relate
    each loop of the validator to its part of the definition. *)

From Stdlib Require Import Sorting.Sorted.
From stdpp Require Import sorting.
From S2P Require Import Prelude Monad Bytes ContractTypes Canonical CanonicalSpec CanonicalParse.
From S2P Require Import CanonicalCodec RecordTypes Paths RecordValidation RecordCodec Digest.
From S2P Require Import IdentityRoundTrip RecordTop RecordTheorems ManifestTypes ManifestWriter.
From S2P Require Import ManifestStream StreamLaws ManifestReference ManifestDigest.
From S2P Require Import ManifestValidation.
Import TreeRoles.

(** ** The definition *)

Definition bytes_lt (a b : list Z) : Prop := bytes_compare a b = Lt.

Abbreviation path := entry_relative_path.
Abbreviation kind e := (ManifestPayloadV1_kind (entry_payload e)).

(** The paths an entry names as its children. *)
Definition child_paths (e : ManifestEntryV1) : list (list Z) :=
  match entry_payload e with
  | Payloads.Directory children => (λ c, join_relative (path e) (child_name c)) <$> children
  | _ => []
  end.

(** The commitment of a child holds the kind and the digest of its entry. *)
Definition commitment_ok (entries : list ManifestEntryV1) (parent : list Z)
    (c : ChildCommitmentV1) : Prop :=
  ∃ e, e ∈ entries ∧ path e = join_relative parent (child_name c) ∧
    kind e = child_kind c ∧ entry_node_digest e = child_node_digest c.

(** Data extents are not empty, ordered and disjoint, from [from] up to [size]. *)
Inductive extents_within (size : Z) : Z → list ExtentV1 → Prop :=
| extents_nil from : extents_within size from []
| extents_cons from x l :
    from <= extent_offset x → 0 < extent_length x →
    extent_offset x + extent_length x <= size →
    extents_within size (extent_offset x + extent_length x) l →
    extents_within size from (x :: l).

Definition payload_ok (t : TreeManifestV1) (e : ManifestEntryV1) : Prop :=
  match entry_payload e with
  | Payloads.Directory children =>
    StronglySorted (λ a b, bytes_lt (child_name a) (child_name b)) children ∧
    Forall (λ c, valid_basename (child_name c) = true) children ∧
    Forall (commitment_ok (tree_entries t) (path e)) children
  | Payloads.Regular _ extents => extents_within (metadata_size (entry_metadata e)) 0 extents
  | Payloads.Symlink target =>
    target ≠ [] ∧ (0 ∉ target) ∧ len target = metadata_size (entry_metadata e)
  | Payloads.ExternalTree _ _ _ => tree_role t = Workspace
  end.

Definition hardlink_ok (e : ManifestEntryV1) : Prop :=
  match entry_hardlink_group e with
  | Some _ => can_be_hardlinked (entry_payload e) = true ∧ 2 <= metadata_nlink (entry_metadata e)
  | None => can_be_hardlinked (entry_payload e) = true → metadata_nlink (entry_metadata e) = 1
  end.

(** The entries of a hard-link group, in the order of the tree. *)
Definition members_of (entries : list ManifestEntryV1) (group : list Z) : list ManifestEntryV1 :=
  filter (λ e, entry_hardlink_group e = Some group) entries.

(** The lengths of the vectors of a tree. *)
Definition tree_slices (t : TreeManifestV1) : Prop :=
  len (tree_entries t) <= ISIZE_MAX ∧ Forall (λ e, payload_slices (entry_payload e)) (tree_entries t).

Section spec.
Context `{Blake3}.

Record valid_entry (t : TreeManifestV1) (e : ManifestEntryV1) : Prop := {
  ve_path : valid_manifest_relative_path (path e) = true;
  ve_metadata : MetadataV1_validate (entry_metadata e) = Ok ();
  ve_type : Z.land (metadata_mode (entry_metadata e)) S_IFMT = expected_file_type (entry_payload e);
  ve_digest : computed_node_digest e = Ok (entry_node_digest e);
  ve_payload : payload_ok t e;
  ve_hardlink : hardlink_ok e;
}.

(** The members of a group are as many as each of them has links, agree on
    kind and digest, and their paths hash to the group. *)
Definition group_complete (entries : list ManifestEntryV1) (group : list Z) : Prop :=
  let members := members_of entries group in
  (∀ e, e ∈ members →
     metadata_nlink (entry_metadata e) = len members ∧
     ∀ e', e' ∈ members → kind e' = kind e ∧ entry_node_digest e' = entry_node_digest e) ∧
  ∃ encoded, encode_paths_for_hash (path <$> members) = Ok encoded ∧
    Blake3Digest_derive HARDLINK_GROUP_DOMAIN [encoded] = group.

Record valid_tree (t : TreeManifestV1) : Prop := {
  vt_root : ∃ root rest, tree_entries t = root :: rest ∧ path root = [] ∧
              kind root = EntryKinds.Directory ∧ entry_node_digest root = tree_root_digest t;
  vt_sorted : StronglySorted (λ a b, bytes_lt (path a) (path b)) (tree_entries t);
  vt_entries : Forall (valid_entry t) (tree_entries t);
  vt_parents : flat_map child_paths (tree_entries t) ≡ₚ tail (path <$> tree_entries t);
  vt_groups : ∀ e group, e ∈ tree_entries t → entry_hardlink_group e = Some group →
                group_complete (tree_entries t) group;
}.
End spec.

(** ** Order *)

Lemma bytes_ge_false a b : bytes_ge a b = false ↔ bytes_lt a b.
Proof. unfold bytes_ge, bytes_lt. by case_match. Qed.

#[global] Instance bytes_lt_trans : Transitive bytes_lt.
Proof. intros a b c. apply bytes_compare_lt_trans. Qed.

Lemma bytes_lt_irrefl a : ~ bytes_lt a a.
Proof. unfold bytes_lt. by rewrite (proj2 (bytes_compare_eq a a)). Qed.

Lemma windows_any_Sorted {A} (p : A → A → bool) (R : A → A → Prop) l :
  (∀ a b, p a b = false ↔ R a b) → windows_any p l = false ↔ Sorted R l.
Proof.
  intros HR. induction l as [|x [|y l] IH].
  - split; [constructor|done].
  - split; [repeat constructor|done].
  - change (windows_any ?p (x :: y :: l)) with (p x y || windows_any p (y :: l)).
    rewrite orb_false_iff, IH, HR. split.
    + intros [Hxy Hl]. constructor; [done|]. by constructor.
    + inversion_clear 1 as [|? ? Hl Hx]. by inversion_clear Hx.
Qed.

Lemma windows_sorted {A} (key : A → list Z) l :
  windows_any (λ a b, bytes_ge (key a) (key b)) l = false ↔
  StronglySorted (λ a b, bytes_lt (key a) (key b)) l.
Proof.
  rewrite (windows_any_Sorted _ (λ a b, bytes_lt (key a) (key b))) by (intros; apply bytes_ge_false).
  split; [|apply StronglySorted_Sorted].
  apply Sorted_StronglySorted. intros a b c. apply bytes_lt_trans.
Qed.

Lemma sorted_keys {A} (key : A → list Z) l :
  StronglySorted (λ a b, bytes_lt (key a) (key b)) l ↔ StronglySorted bytes_lt (key <$> l).
Proof.
  induction l as [|x l IH]; [split; constructor|]. cbn.
  assert (Forall (bytes_lt (key x)) (key <$> l) ↔ Forall (λ b, bytes_lt (key x) (key b)) l) as Hx
    by apply list.Forall_fmap.
  split; inversion_clear 1; constructor; tauto.
Qed.

Lemma sorted_lt_NoDup l : StronglySorted bytes_lt l → NoDup l.
Proof.
  induction 1 as [|x l _ IH Hx]; constructor; [|done].
  intros Hin. rewrite list.Forall_forall in Hx. by apply (bytes_lt_irrefl x), Hx.
Qed.

Lemma sorted_lt_stable_sort l : StronglySorted bytes_lt l → stable_sort bytes_compare l = l.
Proof.
  induction 1 as [|x l _ IH Hx]; [done|]. cbn. rewrite IH.
  destruct Hx as [|y l Hxy]; [done|]. cbn. by rewrite Hxy.
Qed.

Lemma sorted_lt_filter {A} (key : A → list Z) (P : A → Prop) `{!∀ x, Decision (P x)} l :
  StronglySorted (λ a b, bytes_lt (key a) (key b)) l →
  StronglySorted (λ a b, bytes_lt (key a) (key b)) (filter P l).
Proof.
  induction 1 as [|x l _ IH Hx]; [constructor|]. rewrite filter_cons. case_decide; [|done].
  constructor; [done|]. rewrite list.Forall_forall in *.
  intros y [_ Hy]%list_elem_of_filter. by apply Hx.
Qed.

(** ** The entry with a path *)

Lemma by_path_Some entries p e : by_path entries p = Some e → e ∈ entries ∧ path e = p.
Proof.
  induction entries as [|x entries IH]; [done|]. cbn. destruct (bytes_eqb _ p) eqn:Hp.
  - apply bytes_eqb_eq in Hp. intros [= <-]. split; [left|done].
  - intros [? ?]%IH. split; [by right|done].
Qed.

Lemma by_path_elem entries e :
  NoDup (path <$> entries) → e ∈ entries → by_path entries (path e) = Some e.
Proof.
  induction entries as [|x entries IH]; [by intros _ ?%not_elem_of_nil|].
  cbn. intros [Hx Hn]%list.NoDup_cons [->|He]%elem_of_cons.
  - by rewrite (proj2 (bytes_eqb_eq _ _)).
  - destruct (bytes_eqb (path x) (path e)) eqn:Hp; [|by apply IH].
    apply bytes_eqb_eq in Hp. destruct Hx. rewrite Hp. by apply list_elem_of_fmap_2.
Qed.

Lemma by_path_None entries p : by_path entries p = None ↔ (p ∉ path <$> entries).
Proof.
  induction entries as [|x entries IH]; cbn.
  { split; [|done]. intros _ ?%not_elem_of_nil. done. }
  rewrite not_elem_of_cons, <- IH. destruct (bytes_eqb _ p) eqn:Hp.
  - apply bytes_eqb_eq in Hp. naive_solver.
  - assert (path x ≠ p) by (intros ?%bytes_eqb_eq; congruence). naive_solver.
Qed.

Lemma entry_of_path entries e e' :
  NoDup (path <$> entries) → e ∈ entries → e' ∈ entries → path e = path e' → e = e'.
Proof.
  intros Hn He He' Hp. apply (by_path_elem _ _ Hn) in He, He'. rewrite Hp in He. congruence.
Qed.

(** ** The loops *)

Lemma link_children_Ok entries parent linked children linked' :
  NoDup (path <$> entries) → NoDup linked →
  link_children entries parent linked children = Ok linked' ↔
  let paths := (λ c, join_relative parent (child_name c)) <$> children in
  linked' = reverse paths ++ linked ∧ NoDup linked' ∧
  Forall (commitment_ok entries parent) children.
Proof.
  intros Hn. revert linked. induction children as [|c children IH]; intros linked Hl.
  { cbn. split; [intros [= <-]; by repeat constructor|by intros (-> & _)]. }
  cbn [link_children]. cbv zeta. set (p := join_relative parent (child_name c)).
  cbn [fmap list_fmap]. fold p. rewrite reverse_cons, <- app_assoc. cbn [app].
  rewrite list.Forall_cons.
  assert (commitment_ok entries parent c ↔
    ∃ e, by_path entries p = Some e ∧ kind e = child_kind c ∧
      entry_node_digest e = child_node_digest c) as ->.
  { split; [intros (e & He & Hp & ?)|intros (e & [? ?]%by_path_Some & ?)]; exists e; [|done].
    split; [|done]. unfold p. rewrite <- Hp. by apply by_path_elem. }
  destruct (by_path entries p) as [e|]; [|by split; [|intros (_ & _ & (? & [=] & _) & _)]].
  case_match eqn:Hc.
  - split; [done|]. intros (-> & Hd & (? & [= <-] & Hk & Hg) & _). exfalso.
    rewrite bool_decide_true, (proj2 (bytes_eqb_eq _ _)) in Hc by done. cbn in Hc.
    apply bool_decide_eq_true in Hc. apply list.NoDup_app in Hd as (_ & _ & [? _]%list.NoDup_cons). done.
  - apply orb_false_iff in Hc as [[Hk Hg]%orb_false_iff Hp].
    apply negb_false_iff in Hk, Hg. apply bool_decide_eq_true in Hk. apply bytes_eqb_eq in Hg.
    apply bool_decide_eq_false in Hp. rewrite (IH (p :: linked)) by by constructor. cbv zeta.
    split; [intros (? & ? & ?); repeat (split; [done|]); eauto|intros (? & ? & _ & ?); done].
Qed.

Lemma validate_extents_Ok size from extents :
  0 <= size <= U64_MAX → Forall ExtentV1_wf extents →
  validate_extents size from extents = Ok () ↔ extents_within size from extents.
Proof.
  intros Hs Hw. revert from. induction Hw as [|x l [Ho Hl] _ IH]; intros from; cbn.
  { split; [constructor|done]. }
  unfold is_u64 in *.
  destruct (u64_checked_add _ _) as [next|] eqn:Hn; cbn.
  - apply u64_checked_add_Some in Hn as [-> ?].
    destruct (Z.eqb_spec (extent_length x) 0), (Z.ltb_spec (extent_offset x) from),
      (Z.ltb_spec size (extent_offset x + extent_length x)); cbn;
      try (split; [done|]; inversion_clear 1; lia).
    rewrite IH. split; [intros ?; constructor; [lia..|done]|by inversion_clear 1].
  - apply u64_checked_add_None in Hn. split; [done|]. inversion_clear 1. lia.
Qed.

Section loops.
Context `{Blake3}.

Lemma validate_payload_Ok t linked e linked' :
  NoDup (path <$> tree_entries t) → NoDup linked → ManifestEntryV1_wf e →
  payload_slices (entry_payload e) →
  validate_payload (tree_role t) (tree_entries t) linked e = Ok linked' ↔
  linked' = reverse (child_paths e) ++ linked ∧ NoDup linked' ∧ payload_ok t e.
Proof.
  intros Hn Hl (_ & Hm & Hp & _) Ht. unfold validate_payload, child_paths, payload_ok.
  assert (0 <= metadata_size (entry_metadata e) <= U64_MAX) as Hs.
  { unfold MetadataV1_wf, is_u64 in Hm. unfold U64_MAX. lia. }
  destruct (entry_payload e) as [children|content extents|target|role root readonly].
  - case_match eqn:Hc.
    + split; [done|]. intros (_ & _ & Hs1%windows_sorted & Hb & _). rewrite Hs1 in Hc. cbn in Hc.
      apply any_true in Hc as (i & c & Hc & Hv). rewrite Forall_lookup in Hb.
      by rewrite (Hb i c Hc) in Hv.
    + apply orb_false_iff in Hc as [Hs1%windows_sorted Hb]. rewrite link_children_Ok by done.
      assert (Forall (λ c, valid_basename (child_name c) = true) children).
      { apply Forall_lookup. intros i c Hc. rewrite any_false in Hb. specialize (Hb i c Hc).
        by apply negb_false_iff in Hb. }
      naive_solver.
  - destruct (validate_extents _ 0 extents) as [[]|] eqn:He; cbn.
    + apply validate_extents_Ok in He; [|done|by destruct Hp]. naive_solver.
    + split; [done|]. intros (_ & _ & Hx). apply validate_extents_Ok in Hx; [|done|by destruct Hp].
      congruence.
  - cbn in Ht. case_match eqn:Hc.
    + split; [done|]. intros (_ & _ & Hx & Hz & Hsz). exfalso. rewrite Hsz, Z.eqb_refl in Hc.
      rewrite (proj2 (Z.leb_le _ _)) in Hc by size_lia. cbn in Hc. rewrite orb_false_r in Hc.
      apply orb_true_iff in Hc as [->%bytes_eqb_eq|?%contains_iff]; done.
    + apply orb_false_iff in Hc as [[Hx Hz]%orb_false_iff Hsz].
      apply negb_false_iff, andb_true_iff in Hsz as [_ Hsz%Z.eqb_eq].
      assert (target ≠ []) by (intros ->; done).
      assert (0 ∉ target) by (intros ?%contains_iff; congruence). naive_solver.
  - case_bool_decide; cbn; naive_solver.
Qed.

(** The groups after one more entry. *)
Definition add_member (members : list (list Z * list (list Z))) (e : ManifestEntryV1) :=
  match entry_hardlink_group e with
  | Some group => push_member group (path e) members
  | None => members
  end.

Lemma validate_hardlink_Ok members e members' :
  validate_hardlink members e = Ok members' ↔
  hardlink_ok e ∧ members' = add_member members e.
Proof.
  unfold validate_hardlink, hardlink_ok, add_member. destruct (entry_hardlink_group e) as [g|].
  - destruct (can_be_hardlinked _); cbn; [|naive_solver].
    destruct (Z.ltb_spec (metadata_nlink (entry_metadata e)) 2); [|naive_solver].
    split; [done|lia].
  - destruct (can_be_hardlinked _); cbn; [|naive_solver].
    destruct (Z.eqb_spec (metadata_nlink (entry_metadata e)) 1); naive_solver.
Qed.

Lemma validate_entry_Ok t linked members e linked' members' :
  NoDup (path <$> tree_entries t) → NoDup linked → ManifestEntryV1_wf e →
  payload_slices (entry_payload e) →
  validate_entry (tree_role t) (tree_entries t) (linked, members) e = Ok (linked', members') ↔
  valid_entry t e ∧ linked' = reverse (child_paths e) ++ linked ∧ NoDup linked' ∧
  members' = add_member members e.
Proof.
  intros Hn Hl Hw Ht. unfold validate_entry. split.
  - destruct (valid_manifest_relative_path _) eqn:Hp; [|done]. cbn [negb].
    intros ([] & Hm & He)%result_bind_Ok. revert He. case_match eqn:Hf; [done|].
    apply negb_false_iff, Z.eqb_eq in Hf. intros (d & Hd & He)%result_bind_Ok.
    destruct (bytes_eqb d _) eqn:Hb; [|done]. apply bytes_eqb_eq in Hb as ->. cbn [negb] in He.
    apply result_bind_Ok in He as (l & Hv & He). apply result_bind_Ok in He as (m & Hh & [= -> ->]).
    apply validate_payload_Ok in Hv as (-> & ? & ?); [|done..].
    apply validate_hardlink_Ok in Hh as (? & ->). repeat split; done.
  - intros ([Hp Hm He Hd Hv Hh] & -> & Hnd & ->).
    rewrite Hp, Hm. cbn [negb]. rewrite bind_Ok, He, Z.eqb_refl. cbn [negb]. rewrite Hd, bind_Ok.
    rewrite (proj2 (bytes_eqb_eq _ _)) by done. cbn [negb].
    rewrite (proj2 (validate_payload_Ok t linked e _ Hn Hl Hw Ht)), bind_Ok by done.
    by rewrite (proj2 (validate_hardlink_Ok members e (add_member members e))).
Qed.

Lemma validate_entries_Ok t rest linked members linked' members' :
  NoDup (path <$> tree_entries t) → NoDup linked → Forall ManifestEntryV1_wf rest →
  Forall (λ e, payload_slices (entry_payload e)) rest →
  validate_entries (tree_role t) (tree_entries t) (linked, members) rest = Ok (linked', members') ↔
  Forall (valid_entry t) rest ∧ linked' = reverse (flat_map child_paths rest) ++ linked ∧
  NoDup linked' ∧ members' = foldl add_member members rest.
Proof.
  intros Hn Hl Hw. revert linked members Hl.
  induction Hw as [|e rest He Hw IH]; intros linked members Hl Ht; cbn [validate_entries flat_map foldl].
  { split; [intros [= <- <-]; by repeat constructor|by intros (_ & -> & _ & ->)]. }
  apply list.Forall_cons in Ht as [Hte Ht].
  rewrite list.Forall_cons, reverse_app, <- app_assoc. split.
  - intros ([l m] & Hv & Hr)%result_bind_Ok.
    apply validate_entry_Ok in Hv as (? & -> & ? & ->); [|done..].
    apply IH in Hr as (? & ? & ? & ?); done.
  - intros ([Hv Hr] & -> & Hnd & ->).
    assert (NoDup (reverse (child_paths e) ++ linked)) by (by apply list.NoDup_app in Hnd as (_ & _ & ?)).
    assert (validate_entry (tree_role t) (tree_entries t) (linked, members) e
      = Ok (reverse (child_paths e) ++ linked, add_member members e)) as ->
      by by apply validate_entry_Ok.
    rewrite bind_Ok. by apply IH.
Qed.
End loops.

(** ** Hard-link groups *)

Fixpoint group_paths (m : list (list Z * list (list Z))) (g : list Z) : list (list Z) :=
  match m with
  | [] => []
  | (k, ps) :: m => if decide (k = g) then ps else group_paths m g
  end.

Abbreviation keys_sorted := (StronglySorted (λ a b : list Z * list (list Z), bytes_lt (a.1) (b.1))).

Lemma push_member_lower k g p m :
  bytes_lt k g → Forall (λ x, bytes_lt k (x.1)) m → Forall (λ x, bytes_lt k (x.1)) (push_member g p m).
Proof.
  intros Hk. induction 1 as [|[k' ps] m Hk' Hm IH]; cbn; [by repeat constructor|].
  case_match; by repeat constructor.
Qed.

Lemma push_member_sorted g p m : keys_sorted m → keys_sorted (push_member g p m).
Proof.
  induction 1 as [|[k ps] m Hs IH Hm]; cbn; [by repeat constructor|].
  case_match eqn:Hc.
  - by constructor.
  - repeat constructor; [done..|]. eapply list.Forall_impl; [exact Hm|]. intros x. by apply bytes_lt_trans.
  - constructor; [done|]. apply push_member_lower; [|done].
    unfold bytes_lt. cbn. rewrite bytes_compare_opp, Hc. done.
Qed.

Lemma push_member_nonempty g p m :
  Forall (λ x, x.2 ≠ []) m → Forall (λ x, x.2 ≠ []) (push_member g p m).
Proof.
  induction 1 as [|[k ps] m Hk Hm IH]; cbn; [by repeat constructor|].
  case_match; repeat constructor; try done. cbn in *. by destruct ps.
Qed.

Lemma group_paths_lower g m : Forall (λ x, bytes_lt g (x.1)) m → group_paths m g = [].
Proof.
  induction 1 as [|[k ps] m Hk _ IH]; [done|]. cbn in *. case_decide; [|done].
  subst. by apply bytes_lt_irrefl in Hk.
Qed.

Lemma push_member_paths g p m g' :
  keys_sorted m →
  group_paths (push_member g p m) g' =
  if decide (g = g') then group_paths m g' ++ [p] else group_paths m g'.
Proof.
  induction 1 as [|[k ps] m Hs IH Hm]; cbn; [by repeat case_decide|].
  destruct (bytes_compare g k) eqn:Hc; cbn.
  - apply bytes_compare_eq in Hc as ->. by repeat case_decide.
  - assert (g ≠ k) by (intros ->; by apply bytes_lt_irrefl in Hc).
    repeat case_decide; subst; try done.
    rewrite group_paths_lower; [done|]. eapply list.Forall_impl; [exact Hm|].
    intros x. by apply bytes_lt_trans.
  - rewrite IH. assert (g ≠ k) by (intros ->; by rewrite (proj2 (bytes_compare_eq k k)) in Hc).
    repeat case_decide; by subst.
Qed.

Lemma group_paths_elem m g ps : keys_sorted m → (g, ps) ∈ m → group_paths m g = ps.
Proof.
  induction 1 as [|[k qs] m Hs IH Hm]; [by intros ?%not_elem_of_nil|].
  cbn. intros [[= -> ->]|Hin]%elem_of_cons; [by case_decide|]. case_decide; [|by apply IH].
  subst. rewrite list.Forall_forall in Hm. by apply Hm, bytes_lt_irrefl in Hin.
Qed.

Lemma group_paths_nonempty m g : group_paths m g ≠ [] → (g, group_paths m g) ∈ m.
Proof.
  induction m as [|[k ps] m IH]; [done|]. cbn. case_decide; [subst; left|right; auto].
Qed.

Lemma members_of_snoc es e g :
  members_of (es ++ [e]) g = members_of es g ++ (if decide (entry_hardlink_group e = Some g) then [e] else []).
Proof. unfold members_of. rewrite list.filter_app, filter_cons, filter_nil. done. Qed.

Lemma collected_groups es :
  let m := foldl add_member [] es in
  keys_sorted m ∧ Forall (λ x, x.2 ≠ []) m ∧ ∀ g, group_paths m g = path <$> members_of es g.
Proof.
  cbv zeta. induction es as [|e es (Hs & Hn & Hg)] using rev_ind; [by repeat constructor|].
  rewrite foldl_app. cbn. unfold add_member. destruct (entry_hardlink_group e) as [g|] eqn:He.
  - split; [by apply push_member_sorted|]. split; [by apply push_member_nonempty|].
    intros g'. rewrite push_member_paths, members_of_snoc, fmap_app, Hg, He by done.
    destruct (decide (g = g')) as [->|Hne].
    + by rewrite decide_True.
    + rewrite decide_False by congruence. cbn. by rewrite app_nil_r.
  - repeat (split; [done|]). intros g'. rewrite members_of_snoc, Hg, He. cbn. by rewrite app_nil_r.
Qed.

Section groups.
Context `{Blake3}.

Lemma members_of_sorted entries g :
  StronglySorted (λ a b, bytes_lt (path a) (path b)) entries →
  StronglySorted bytes_lt (path <$> members_of entries g).
Proof. intros Hs. apply (sorted_keys path). by apply sorted_lt_filter. Qed.

Lemma members_of_elem entries g e :
  e ∈ members_of entries g ↔ entry_hardlink_group e = Some g ∧ e ∈ entries.
Proof. unfold members_of. by rewrite list_elem_of_filter. Qed.

(** No member disagrees with the first. *)
Lemma members_agree entries members first :
  (∀ e, e ∈ members → by_path entries (path e) = Some e) →
  let nlink := metadata_nlink (entry_metadata first) in
  any (λ x,
         match by_path entries (path x) with
         | None => true
         | Some entry =>
           negb (metadata_nlink (entry_metadata entry) =? nlink)
           || negb (bool_decide (kind entry = kind first))
           || negb (bytes_eqb (entry_node_digest entry) (entry_node_digest first))
         end) members = false ↔
  ∀ e, e ∈ members →
    metadata_nlink (entry_metadata e) = nlink ∧ kind e = kind first ∧
    entry_node_digest e = entry_node_digest first.
Proof.
  intros Hby. cbv zeta. rewrite any_false. split.
  - intros Ha e He. pose proof He as [i Hi]%list_elem_of_lookup. specialize (Ha i e Hi).
    rewrite Hby in Ha by done.
    apply orb_false_iff in Ha as [[?%negb_false_iff%Z.eqb_eq ?%negb_false_iff]%orb_false_iff
      ?%negb_false_iff%bytes_eqb_eq]. by rewrite bool_decide_eq_true in *.
  - intros Ha i e Hi%list_elem_of_lookup_2. rewrite Hby by done.
    destruct (Ha e Hi) as (-> & -> & ->). rewrite Z.eqb_refl, bool_decide_true, bytes_eqb_refl; done.
Qed.

Lemma validate_group_Ok entries g :
  StronglySorted (λ a b, bytes_lt (path a) (path b)) entries → members_of entries g ≠ [] →
  len entries <= U64_MAX →
  validate_group entries g (path <$> members_of entries g) = Ok () ↔ group_complete entries g.
Proof.
  intros Hs Hne Hlen. unfold validate_group, group_complete. cbv zeta.
  rewrite sorted_lt_stable_sort by by apply members_of_sorted.
  assert (∀ e, e ∈ members_of entries g → by_path entries (path e) = Some e) as Hby.
  { intros e [_ He]%members_of_elem. apply by_path_elem; [|done]. by apply sorted_lt_NoDup, (sorted_keys path). }
  assert (len (members_of entries g) <= U64_MAX) as Hl.
  { assert (length (members_of entries g) ≤ length entries)%nat by apply list.length_filter. unfold len in *. lia. }
  destruct (members_of entries g) as [|first rest] eqn:Hm; [done|].
  rewrite <- Hm in *. clear Hne.
  assert (first ∈ members_of entries g) as Hf by (rewrite Hm; left).
  assert (head (path <$> members_of entries g) = Some (path first)) as -> by by rewrite Hm.
  cbn [mbind option_bind]. rewrite Hby by done. cbn [ok_or]. rewrite bind_Ok.
  assert (len (path <$> members_of entries g) = len (members_of entries g)) as ->
    by (unfold len; by rewrite length_fmap).
  rewrite (proj2 (Z.leb_le _ _)), andb_true_l by done. rewrite any_fmap.
  pose proof (members_agree entries (members_of entries g) first Hby) as Hany. cbv zeta in Hany.
  set (bad := λ x, match by_path entries (path x) with Some _ => _ | None => true end) in *.
  destruct (Z.eqb_spec (len (members_of entries g)) (metadata_nlink (entry_metadata first)))
    as [Hn|Hn]; cbn [negb orb].
  2: { split; [done|]. intros [Ha _]. destruct Hn. symmetry. by apply Ha. }
  destruct (any bad _) eqn:Hb.
  { split; [done|]. intros [Ha _]. cut (true = false); [done|]. apply Hany.
    intros e He. destruct (Ha e He) as [? _], (Ha first Hf) as [? Hk]. split; [congruence|]. by apply Hk. }
  apply proj1 in Hany. specialize (Hany eq_refl). clear Hb. rename Hany into Hb.
  destruct (encode_paths_for_hash _) as [encoded|].
  - rewrite bind_Ok. destruct (bytes_eqb _ g) eqn:Hg; cbn [negb].
    + apply bytes_eqb_eq in Hg. split; [|done]. intros _. split; [|eauto].
      intros e He. destruct (Hb e He) as (? & ? & ?). split; [congruence|]. intros e' He'.
      destruct (Hb e' He') as (? & ? & ?). split; congruence.
    + split; [done|]. intros [_ (? & [= <-] & Hg')]. apply bytes_eqb_eq in Hg'. congruence.
  - split; [done|]. by intros [_ (? & ? & _)].
Qed.

Lemma validate_groups_Ok entries groups :
  validate_groups entries groups = Ok () ↔
  Forall (λ x, validate_group entries (x.1) (x.2) = Ok ()) groups.
Proof.
  induction groups as [|[g ms] groups IH]; cbn; [by split; [constructor|]|].
  rewrite list.Forall_cons, <- IH. cbn. split.
  - by intros ([] & ? & ?)%result_bind_Ok.
  - by intros [-> ?].
Qed.

Lemma collected_groups_Ok entries :
  StronglySorted (λ a b, bytes_lt (path a) (path b)) entries → len entries <= U64_MAX →
  validate_groups entries (foldl add_member [] entries) = Ok () ↔
  ∀ e g, e ∈ entries → entry_hardlink_group e = Some g → group_complete entries g.
Proof.
  intros Hs Hl. rewrite validate_groups_Ok, list.Forall_forall.
  destruct (collected_groups entries) as (Hk & Hn & Hg). cbv zeta in *. split.
  - intros Hv e g He Hgr. assert (e ∈ members_of entries g) as Hm by by apply members_of_elem.
    assert (members_of entries g ≠ []) by (intros Hx; rewrite Hx in Hm; by apply not_elem_of_nil in Hm).
    apply validate_group_Ok; [done..|]. rewrite <- Hg. apply (Hv (g, _)).
    apply group_paths_nonempty. rewrite Hg. by destruct (members_of entries g).
  - intros Hc [g ps] Hin. rewrite list.Forall_forall in Hn. specialize (Hn _ Hin). cbn in *.
    pose proof (group_paths_elem _ _ _ Hk Hin) as Hp. rewrite Hg in Hp. subst ps.
    assert (members_of entries g ≠ []) as Hne by (intros Hx; by rewrite Hx in Hn).
    apply validate_group_Ok; [done..|]. destruct (members_of entries g) as [|e es] eqn:Hm; [done|].
    assert (e ∈ members_of entries g) as [? ?]%members_of_elem by (rewrite Hm; left). by eapply Hc.
Qed.
End groups.

(** ** Parents *)

Lemma join_relative_nonempty parent name : name ≠ [] → join_relative parent name ≠ [].
Proof. by destruct parent. Qed.

Lemma valid_basename_nonempty name : valid_basename name = true → name ≠ [].
Proof. by intros Hv ->. Qed.

Lemma child_paths_elem t e p :
  payload_ok t e → p ∈ child_paths e →
  ∃ children c, entry_payload e = Payloads.Directory children ∧ c ∈ children ∧
    p = join_relative (path e) (child_name c) ∧ child_name c ≠ [] ∧
    commitment_ok (tree_entries t) (path e) c.
Proof.
  unfold payload_ok, child_paths. destruct (entry_payload e) as [children| | |];
    [|by intros _ ?%not_elem_of_nil..].
  intros (_ & Hb & Hc) (c & -> & Hin)%list_elem_of_fmap. rewrite list.Forall_forall in Hb, Hc.
  exists children, c. split_and!; try done; [|by apply Hc].
  by apply valid_basename_nonempty, Hb.
Qed.

(** With every child naming an entry, counting the names is enough. *)
Lemma linked_all (t : TreeManifestV1) linked :
  (∃ root rest, tree_entries t = root :: rest ∧ path root = []) →
  NoDup (path <$> tree_entries t) → ([] ∉ linked) →
  (∀ p, p ∈ linked → p ∈ path <$> tree_entries t) →
  NoDup linked ∧ len linked + 1 = len (tree_entries t) ↔
  linked ≡ₚ tail (path <$> tree_entries t).
Proof.
  intros (root & rest & He & Hr) Hn Hnil Hin. rewrite He in *. cbn in *. rewrite Hr in *.
  apply list.NoDup_cons in Hn as [Hx Hn]. rewrite len_cons. split.
  - intros [Hnd Hl]. apply submseteq_length_Permutation.
    + apply NoDup_submseteq; [done|]. intros p Hp. pose proof (Hin p Hp) as [->|?]%elem_of_cons; done.
    + rewrite length_fmap. unfold len in Hl. lia.
  - intros Hp. split; [by rewrite Hp|]. apply Permutation_length in Hp. rewrite length_fmap in Hp.
    unfold len. lia.
Qed.

(** ** The whole validator *)

Section validate.
Context `{Blake3}.

Lemma linked_named t :
  Forall (valid_entry t) (tree_entries t) →
  ([] ∉ flat_map child_paths (tree_entries t)) ∧
  ∀ p, p ∈ flat_map child_paths (tree_entries t) → p ∈ path <$> tree_entries t.
Proof.
  intros Hv. rewrite list.Forall_forall in Hv.
  assert (∀ p, p ∈ flat_map child_paths (tree_entries t) →
    p ≠ [] ∧ p ∈ path <$> tree_entries t) as Hp.
  { intros p (e & He%list_elem_of_In & Hp%list_elem_of_In)%list_elem_of_In%in_flat_map.
    destruct (child_paths_elem t e p (ve_payload _ _ (Hv e He)) Hp)
      as (children & c & _ & _ & -> & Hn & x & Hx & Hpx & _).
    split; [by apply join_relative_nonempty|]. rewrite <- Hpx. by apply list_elem_of_fmap_2. }
  split; [intros []%Hp; done|intros p []%Hp; done].
Qed.

Lemma root_checks t root rest :
  tree_entries t = root :: rest →
  (negb (bytes_eqb (entry_relative_path root) [])
   || windows_any (λ left right,
        bytes_ge (entry_relative_path left) (entry_relative_path right)) (tree_entries t)
   || negb (is_directory (entry_payload root))) = false ↔
  path root = [] ∧ kind root = EntryKinds.Directory ∧
  StronglySorted (λ a b, bytes_lt (path a) (path b)) (tree_entries t).
Proof.
  intros _. rewrite !orb_false_iff, !negb_false_iff, bytes_eqb_eq, windows_sorted.
  assert (is_directory (entry_payload root) = true ↔ kind root = EntryKinds.Directory) as ->
    by by destruct (entry_payload root).
  tauto.
Qed.

Lemma entries_checked t linked members :
  NoDup (path <$> tree_entries t) → Forall ManifestEntryV1_wf (tree_entries t) →
  Forall (λ e, payload_slices (entry_payload e)) (tree_entries t) →
  validate_entries (tree_role t) (tree_entries t) ([], []) (tree_entries t) = Ok (linked, members) ↔
  Forall (valid_entry t) (tree_entries t) ∧
  linked = reverse (flat_map child_paths (tree_entries t)) ∧ NoDup linked ∧
  members = foldl add_member [] (tree_entries t).
Proof. intros Hn Hw Hs. rewrite validate_entries_Ok by (done || constructor). by rewrite app_nil_r. Qed.

Lemma tree_validate_iff t :
  TreeManifestV1_wf t → tree_slices t → TreeManifestV1_validate t = Ok () ↔ valid_tree t.
Proof.
  intros (_ & Hw & _) [Hlen Hsl].
  assert (len (tree_entries t) <= U64_MAX) as Hlen' by size_lia. unfold TreeManifestV1_validate.
  destruct (tree_entries t) as [|root rest] eqn:He.
  { split; [done|]. intros [(? & ? & ? & _)]. congruence. }
  rewrite <- He in *. pose proof (root_checks t root rest He) as Hroot.
  case_match eqn:Hc.
  { split; [done|]. intros [(? & ? & Hx & ? & ? & _) ? _ _ _]. exfalso.
    rewrite He in Hx. injection Hx as <- <-.
    enough (true = false) by done. by apply Hroot. }
  destruct Hroot as [Hroot _]. destruct (Hroot eq_refl) as (Hrp & Hrk & Hs).
  pose proof (sorted_lt_NoDup _ (proj1 (sorted_keys path _) Hs)) as Hn.
  pose proof (λ l m, entries_checked t l m Hn Hw Hsl) as Hve.
  assert (∃ root rest, tree_entries t = root :: rest ∧ path root = []) as Hex by eauto.
  split.
  - intros ([linked members] & Hv & Hk)%result_bind_Ok. apply Hve in Hv as (Hv & -> & Hnd & ->).
    destruct (linked_named t Hv) as [Hnil Hin]. revert Hk. case_match eqn:Hl; [done|].
    apply orb_false_iff in Hl as [Hl%negb_false_iff%Z.eqb_eq _].
    intros ([] & Hg & Hd)%result_bind_Ok. revert Hd. case_match eqn:Hd; [done|].
    apply negb_false_iff, bytes_eqb_eq in Hd. intros _. split; try done.
    + exists root, rest. done.
    + apply linked_all; try done. unfold len in *. rewrite length_reverse in Hl.
      split; [by apply (NoDup_Permutation_proper _ _ (reverse_Permutation _))|done].
    + by apply collected_groups_Ok.
  - intros [(? & ? & Hx & _ & _ & Hd) _ Hv Hp Hg]. rewrite He in Hx. injection Hx as <- <-.
    destruct (linked_named t Hv) as [Hnil Hin].
    apply linked_all in Hp as [Hnd Hl]; [|done..].
    rewrite (proj2 (Hve (reverse (flat_map child_paths (tree_entries t)))
      (foldl add_member [] (tree_entries t)))) by (split_and!; [done..|by rewrite reverse_Permutation|done]).
    rewrite bind_Ok. assert ((len (reverse (flat_map child_paths (tree_entries t))) + 1 =?
      len (tree_entries t)) = true) as -> by (unfold len in *; rewrite length_reverse; by apply Z.eqb_eq).
    cbn [negb orb]. rewrite (proj2 (any_false _ _)).
    + rewrite (proj2 (collected_groups_Ok _ Hs Hlen')), bind_Ok by done.
      by rewrite (proj2 (bytes_eqb_eq _ _)).
    + intros i p Hi%list_elem_of_lookup_2. apply bool_decide_eq_false. rewrite by_path_None.
      intros Hout. apply Hout, Hin. by rewrite <- elem_of_reverse.
Qed.
End validate.
