(* ===== verification/TreeBinding.v ===== *)
(** * A concrete manifest, and what tree roots bind

    Under the toy hash of the sample record: a workspace tree with a file, a
    symbolic link, a pair of hard links in a directory and an external tree,
    and the runtime trees it refers to. *)

From Stdlib Require Import String Sorting.Sorted.
From stdpp Require Import sorting.
From S2P Require Import Prelude Monad Bytes ContractTypes Canonical CanonicalSpec CanonicalParse.
From S2P Require Import CanonicalCodec RecordTypes Paths RecordValidation RecordCodec.
From S2P Require Import RecordRoundTrip Digest IdentityRoundTrip RecordTop Sample RecordTheorems.
From S2P Require Import ManifestTypes ManifestWriter ManifestStream StreamLaws ManifestReference.
From S2P Require Import ManifestDigest ManifestValidation ManifestCodec TreeSpec.
Import TreeRoles.

Module ManifestSample.
Definition metadata (mode size nlink : Z) : MetadataV1 :=
  mkMetadata mode 1000 1000 size nlink (mkTimespec 1 0) (mkTimespec 2 999999999) (mkTimespec (-3) 0)
    None [mkXattr (bstr "user.a") [1]; mkXattr (bstr "user.b") []].

Definition node (path : list Z) (m : MetadataV1) (p : ManifestPayloadV1) (g : option (list Z)) :
    ManifestEntryV1 :=
  value_or (mkEntry path m p g []) (with_computed_node_digest path m p g).

Definition child (name : list Z) (e : ManifestEntryV1) : ChildCommitmentV1 :=
  mkChild name (ManifestPayloadV1_kind (entry_payload e)) (entry_node_digest e).

Definition directory (path : list Z) (children : list ChildCommitmentV1) : ManifestEntryV1 :=
  node path (metadata 0x41ed 4096 2) (Payloads.Directory children) None.

Definition group : list Z :=
  match encode_paths_for_hash [bstr "d/x"; bstr "d/y"] with
  | Ok encoded => Blake3Digest_derive HARDLINK_GROUP_DOMAIN [encoded]
  | Err _ => []
  end.

Definition linked (path : list Z) : ManifestEntryV1 :=
  node path (metadata 0x81a4 20 2)
    (Payloads.Regular (Sample.digest 5) [mkExtent 0 4; mkExtent 8 12]) (Some group).

Definition file : ManifestEntryV1 :=
  node (bstr "a") (metadata 0x81a4 10 1) (Payloads.Regular (Sample.digest 6) [mkExtent 0 10]) None.
Definition symlink : ManifestEntryV1 :=
  node (bstr "l") (metadata 0xa1ff 3 1) (Payloads.Symlink (bstr "d/x")) None.
Definition dir_d : ManifestEntryV1 :=
  directory (bstr "d") [child (bstr "x") (linked (bstr "d/x")); child (bstr "y") (linked (bstr "d/y"))].

(** A tree with one entry, its root. *)
Definition empty_tree (mount : list Z) : TreeManifestV1 :=
  mkTree mount Runtime [directory [] []] (entry_node_digest (directory [] [])).

Definition venv_tree : TreeManifestV1 := empty_tree (bstr "/workspace/v").
Definition venv : ManifestEntryV1 :=
  node (bstr "v") (metadata 0x41ed 4096 2)
    (Payloads.ExternalTree Runtime (tree_root_digest venv_tree) true) None.

Definition root : ManifestEntryV1 :=
  directory [] [child (bstr "a") file; child (bstr "d") dir_d; child (bstr "l") symlink;
                child (bstr "v") venv].

Definition workspace : TreeManifestV1 :=
  mkTree (bstr "/workspace") Workspace
    [root; file; dir_d; linked (bstr "d/x"); linked (bstr "d/y"); symlink; venv]
    (entry_node_digest root).

Definition manifest (runtimes : list TreeManifestV1) : SnapshotManifestV1 :=
  mkManifest SNAPSHOT_MANIFEST_V1_SCHEMA (Sample.digest 1) (Sample.digest 2) workspace runtimes
    (Blake3Digest_derive WORKSPACE_MERKLE_DOMAIN [tree_root_digest workspace])
    (Blake3Digest_derive RUNTIME_MERKLE_DOMAIN
       [value_or [] (encode_runtime_forest_for_hash runtimes)]).

Definition sample : SnapshotManifestV1 := manifest [empty_tree (bstr "/usr"); venv_tree].
Definition sample_bytes : list Z := value_or [] (SnapshotManifestV1_canonical_bytes sample).

(** What decodes is well typed. *)
Lemma decoded_manifest_wf b m :
  forallb (λ b, (0 <=? b) && (b <? 256)) b = true →
  (len b <=? EFFECT_IR_V2_MAX_CANONICAL_BYTES) = true → decode_snapshot_manifest b = Ok m →
  SnapshotManifestV1_wf m ∧ is_bytes b.
Proof.
  intros Hb%is_bytes_check Hl%Z.leb_le Hd.
  destruct (nested_sound (wf:=valid_manifest) b m (conj Hb Hl) Hd) as [[Hw _] _].
  exact (conj Hw Hb).
Qed.

Lemma sample_valid : SnapshotManifestV1_validate sample = Ok ().
Proof. vm_compute. reflexivity. Qed.

Lemma sample_wf : SnapshotManifestV1_wf sample ∧ is_bytes sample_bytes.
Proof. apply decoded_manifest_wf; vm_compute; reflexivity. Qed.
End ManifestSample.

(** * The root digest of a tree determines the tree

    A node digest is the hash of a message that determines the metadata, the
    payload and the hard-link group of its entry, and a directory's payload holds
    the digests of its children. So two valid trees with the same root digest
    have the same entries, unless two of their nodes collide. *)

(** ** The message of a node *)

(** The domain and the fields a node digest is derived from. *)
Definition node_fields (e : ManifestEntryV1) : option (list Z * list (Z * list Z)) :=
  match reference_encode_metadata (entry_metadata e) with
  | Err _ => None
  | Ok metadata =>
    let hardlink := encode_optional_digest (entry_hardlink_group e) in
    match entry_payload e, entry_hardlink_group e with
    | Payloads.Directory children, None =>
      match reference_encode_list reference_encode_child children with
      | Ok children => Some (DIRECTORY_NODE_DOMAIN, [(1, metadata); (2, children)])
      | Err _ => None
      end
    | Payloads.Regular content extents, _ =>
      match reference_encode_list reference_encode_extent extents with
      | Ok extents =>
        Some (REGULAR_NODE_DOMAIN, [(1, metadata); (2, content); (3, extents); (4, hardlink)])
      | Err _ => None
      end
    | Payloads.Symlink target, _ =>
      Some (SYMLINK_NODE_DOMAIN, [(1, metadata); (2, target); (3, hardlink)])
    | Payloads.ExternalTree Runtime root true, None =>
      Some (EXTERNAL_TREE_NODE_DOMAIN, [(1, metadata); (2, be_bytes 2 2); (3, root); (4, [1])])
    | _, _ => None
    end
  end.

Lemma computed_node_digest_fields `{Blake3} e d :
  computed_node_digest e = Ok d →
  ∃ domain fields, node_fields e = Some (domain, fields) ∧
    d = blake3_derive_key domain (hash_frame fields).
Proof.
  unfold computed_node_digest, compute_manifest_node_digest, node_fields, encode_metadata_for_hash.
  rewrite encode_metadata_eq. destruct (reference_encode_metadata _) as [m|]; [|done]. rewrite bind_Ok.
  destruct (entry_payload e) as [children|content extents|target|role root readonly].
  - case_bool_decide as Hg; [done|]. rewrite encode_children_eq.
    destruct (entry_hardlink_group e); [by destruct Hg|].
    destruct (reference_encode_list _ _); [|done]. intros [= <-]. eauto.
  - rewrite encode_extents_eq. destruct (reference_encode_list _ _); [|done]. intros [= <-]. eauto.
  - intros [= <-]. eauto.
  - destruct readonly, role; try done. cbn. destruct (entry_hardlink_group e); [done|].
    intros [= <-]. eauto.
Qed.

(** ** Encodings determine values *)

Lemma list_inj {A} (wf : A → Prop) enc dec `{!NestedCodec wf enc dec} l l' b :
  Forall wf l → Forall wf l' → reference_encode_list enc l = Ok b →
  reference_encode_list enc l' = Ok b → l = l'.
Proof.
  intros Hl Hl' (i & Hi & Hb)%reference_list_Ok (i' & Hi' & Hb')%reference_list_Ok.
  destruct (list_complete wf enc dec l i b) as (_ & ? & ?); [done..|].
  destruct (list_complete wf enc dec l' i' b) as (_ & ? & ?); [done..|]. congruence.
Qed.

Lemma optional_digest_inj g g' :
  encode_optional_digest g = encode_optional_digest g' → g = g'.
Proof.
  destruct g, g'; try done. unfold encode_optional_digest. intros Heq.
  f_equal. by do 2 apply app_inv_head in Heq.
Qed.

Lemma reference_list_slice {A} (wf : A → Prop) enc dec `{!NestedCodec wf enc dec} l b :
  Forall wf l → reference_encode_list enc l = Ok b → is_slice b.
Proof.
  intros Hl (i & Hi & Hb)%reference_list_Ok. apply sized_slice.
  split; [by destruct (list_complete wf enc dec l i b)|]. by eapply encode_list_size.
Qed.

Lemma digest_slice d : is_digest d → is_slice d.
Proof. intros [? Hd]. split; [done|]. unfold len. rewrite Hd. done. Qed.

Lemma optional_digest_slice g : option_wf is_digest g → is_slice (encode_optional_digest g).
Proof.
  destruct g as [d|]; [|by repeat constructor]. cbn. intros [Hb Hd]. split.
  - constructor; [done|]. apply Forall_app. split; [apply is_bytes_be_bytes|done].
  - unfold len. rewrite length_cons, length_app, be_bytes_length, Hd. done.
Qed.

(** ** The message determines the node *)

Definition sliced_entry (e : ManifestEntryV1) : Prop :=
  ManifestEntryV1_wf e ∧ payload_slices (entry_payload e).

Lemma node_fields_ok e domain fields :
  sliced_entry e → node_fields e = Some (domain, fields) → Forall hash_field_ok fields.
Proof.
  intros [(_ & Hm & Hp & Hg & _) Hs]. unfold node_fields.
  destruct (reference_encode_metadata _) as [m|] eqn:Em; [|done].
  assert (is_slice m) by (apply sized_slice; by destruct (nested_complete _ _ Hm Em)).
  pose proof (optional_digest_slice _ Hg) as Hh.
  assert (∀ n (x : list Z), is_u16 n → is_slice x → hash_field_ok (n, x)) as Hok by by split.
  destruct (entry_payload e) as [children|content extents|target|role root readonly]; cbn in Hp, Hs.
  - destruct (entry_hardlink_group e); [done|].
    destruct (reference_encode_list _ _) as [b|] eqn:Eb; [|done].
    apply (reference_list_slice ChildCommitmentV1_wf _ decode_child) in Eb; [|done].
    intros [= <- <-]. repeat (constructor; [by apply Hok|]). constructor.
  - destruct (reference_encode_list _ _) as [b|] eqn:Eb; [|done]. destruct Hp as [Hc He].
    apply (reference_list_slice ExtentV1_wf _ decode_extent) in Eb; [|done].
    apply digest_slice in Hc. intros [= <- <-]. repeat (constructor; [by apply Hok|]). constructor.
  - intros [= <- <-]. repeat (constructor; [by apply Hok|]). constructor.
  - destruct role, readonly, (entry_hardlink_group e); try done. apply digest_slice in Hp.
    assert (is_slice (be_bytes 2 2)) by (apply sized_slice, be_bytes_sized; lia).
    assert (is_slice [1]) by (split; [by repeat constructor|done]).
    intros [= <- <-]. repeat (constructor; [by apply Hok|]). constructor.
Qed.

Lemma node_fields_inj e e' domain fields :
  sliced_entry e → sliced_entry e' →
  node_fields e = Some (domain, fields) → node_fields e' = Some (domain, fields) →
  entry_metadata e = entry_metadata e' ∧ entry_payload e = entry_payload e' ∧
  entry_hardlink_group e = entry_hardlink_group e'.
Proof.
  intros [(_ & Hm & Hp & Hg & _) _] [(_ & Hm' & Hp' & Hg' & _) _]. unfold node_fields.
  destruct (reference_encode_metadata (entry_metadata e)) as [m|] eqn:Em; [|done].
  destruct (reference_encode_metadata (entry_metadata e')) as [m'|] eqn:Em'; [|done].
  assert (m = m' → entry_metadata e = entry_metadata e') as Hmm
    by (intros <-; by eapply (nested_inj MetadataV1_wf _ decode_metadata)).
  destruct (entry_payload e) as [children|content extents|target|role root readonly],
    (entry_payload e') as [children'|content' extents'|target'|role' root' readonly'];
    cbn in Hp, Hp'; repeat case_match; try done; intros [= <- <-] Heq;
    first [ discriminate Heq | vm_compute in Heq; discriminate Heq
          | injection Heq; intros; subst ]; split_and!;
    first [ by auto | by apply optional_digest_inj | idtac ].
  all: f_equal; try done.
  - by eapply (list_inj ChildCommitmentV1_wf _ decode_child).
  - destruct Hp, Hp'. by eapply (list_inj ExtentV1_wf _ decode_extent).
Qed.

Lemma node_fields_count e domain fields : node_fields e = Some (domain, fields) → len fields < 2 ^ 32.
Proof. unfold node_fields. repeat case_match; try done; by intros [= <- <-]. Qed.

Lemma hash_frame_inj fs gs :
  Forall hash_field_ok fs → Forall hash_field_ok gs → len fs < 2 ^ 32 → len gs < 2 ^ 32 →
  hash_frame fs = hash_frame gs → fs = gs.
Proof.
  intros Hf Hg Hfl Hgl Heq%app_inv_head. pose proof (len_nonneg fs). pose proof (len_nonneg gs).
  apply be_bytes_app_inj in Heq as [Hl Heq]; [|by split..].
  apply hash_fields_inj in Heq; [done..|]. unfold len in Hl. lia.
Qed.

(** ** Binding *)

Section binding.
Context `{Blake3}.

(** No node of one tree and node of the other have different messages with the
    same hash. *)
Definition no_collision (t t' : TreeManifestV1) : Prop :=
  ∀ e e' domain fields domain' fields',
    e ∈ tree_entries t → e' ∈ tree_entries t' →
    node_fields e = Some (domain, fields) → node_fields e' = Some (domain', fields') →
    blake3_derive_key domain (hash_frame fields) = blake3_derive_key domain' (hash_frame fields') →
    domain = domain' ∧ hash_frame fields = hash_frame fields'.

Lemma no_collision_sym t t' : no_collision t t' → no_collision t' t.
Proof.
  intros Hc e e' d f d' f' He He' Hf Hf' Heq.
  destruct (Hc e' e d' f' d f) as [? ?]; [done..|]. done.
Qed.

Lemma tree_sliced t e :
  TreeManifestV1_wf t → tree_slices t → e ∈ tree_entries t → sliced_entry e.
Proof.
  intros (_ & Hw & _) [_ Hs] He. rewrite list.Forall_forall in Hw, Hs. split; auto.
Qed.

Context (t t' : TreeManifestV1).
Context (Hw : TreeManifestV1_wf t) (Hw' : TreeManifestV1_wf t').
Context (Hs : tree_slices t) (Hs' : tree_slices t').
Context (Hv : valid_tree t) (Hv' : valid_tree t').
Context (Hcol : no_collision t t').

Lemma same_node e e' :
  e ∈ tree_entries t → e' ∈ tree_entries t' → path e = path e' →
  entry_node_digest e = entry_node_digest e' → e = e'.
Proof.
  intros He He' Hp Hd.
  pose proof (tree_sliced _ _ Hw Hs He) as Hse. pose proof (tree_sliced _ _ Hw' Hs' He') as Hse'.
  destruct Hv as [_ _ Hve _ _], Hv' as [_ _ Hve' _ _]. rewrite list.Forall_forall in Hve, Hve'.
  destruct (computed_node_digest_fields _ _ (ve_digest _ _ (Hve e He))) as (d & f & Hf & Hh).
  destruct (computed_node_digest_fields _ _ (ve_digest _ _ (Hve' e' He'))) as (d' & f' & Hf' & Hh').
  destruct (Hcol e e' d f d' f') as [-> Hfr]; [done..|congruence|].
  apply (hash_frame_inj _ _ (node_fields_ok _ _ _ Hse Hf) (node_fields_ok _ _ _ Hse' Hf')
    (node_fields_count _ _ _ Hf) (node_fields_count _ _ _ Hf')) in Hfr as ->.
  destruct (node_fields_inj e e' d' f') as (? & ? & ?); [done..|].
  destruct e, e'; cbn in *; congruence.
Qed.

Lemma entry_parent e :
  e ∈ tree_entries t → path e ≠ [] →
  ∃ parent children c, parent ∈ tree_entries t ∧
    entry_payload parent = Payloads.Directory children ∧ c ∈ children ∧
    path e = join_relative (path parent) (child_name c) ∧ child_name c ≠ [] ∧
    entry_node_digest e = child_node_digest c.
Proof.
  intros He Hne. destruct Hv as [(root & rest & Hr & Hrp & _) Hso Hve Hpa _].
  assert (path e ∈ flat_map child_paths (tree_entries t)) as Hin.
  { rewrite Hpa, Hr. rewrite Hr in He. apply elem_of_cons in He as [->|He]; [done|].
    cbn. by apply list_elem_of_fmap_2. }
  apply list_elem_of_In, in_flat_map in Hin as (p & Hp%list_elem_of_In & Hc%list_elem_of_In).
  rewrite list.Forall_forall in Hve.
  destruct (child_paths_elem t p _ (ve_payload _ _ (Hve p Hp)) Hc)
    as (children & c & Hch & Hcin & Hpath & Hn & x & Hx & Hxp & _ & Hd).
  exists p, children, c. split_and!; try done.
  assert (x = e) as ->; [|done]. apply (entry_of_path (tree_entries t)); [|done..|congruence].
  by apply sorted_lt_NoDup, (sorted_keys path).
Qed.

Lemma join_relative_longer parent name :
  name ≠ [] → (length parent < length (join_relative parent name))%nat.
Proof.
  destruct parent as [|x parent], name; try done; cbn; [lia|]. rewrite length_app. cbn. lia.
Qed.

Lemma bound_entry n e :
  tree_root_digest t = tree_root_digest t' → (length (path e) < n)%nat →
  e ∈ tree_entries t → e ∈ tree_entries t'.
Proof.
  intros Hroot. revert e. induction n as [|n IH]; [lia|]. intros e Hn He.
  destruct (decide (path e = [])) as [Hnil|Hne].
  - destruct Hv as [(root & rest & Hr & Hrp & _ & Hrd) Hso _ _ _].
    destruct Hv' as [(root' & rest' & Hr' & Hrp' & _ & Hrd') _ _ _ _].
    assert (e = root) as ->.
    { apply (entry_of_path (tree_entries t)); [|done|rewrite Hr; left|congruence].
      by apply sorted_lt_NoDup, (sorted_keys path). }
    assert (root' ∈ tree_entries t') by (rewrite Hr'; left).
    rewrite (same_node root root'); [done|done..|congruence|congruence].
  - destruct (entry_parent e He Hne) as (p & children & c & Hp & Hpl & Hc & Hpath & Hcn & Hd).
    apply IH in Hp.
    2: { pose proof (join_relative_longer (path p) _ Hcn). rewrite <- Hpath in *. lia. }
    destruct Hv' as [_ _ Hve' _ _]. rewrite list.Forall_forall in Hve'.
    pose proof (ve_payload _ _ (Hve' p Hp)) as Hpo. unfold payload_ok in Hpo. rewrite Hpl in Hpo.
    destruct Hpo as (_ & _ & Hco). rewrite list.Forall_forall in Hco.
    destruct (Hco c Hc) as (e' & He' & Hp' & _ & Hd').
    rewrite (same_node e e'); [done|done..|congruence|congruence].
Qed.
End binding.

Lemma sorted_entries_unique l k :
  StronglySorted (λ a b, bytes_lt (path a) (path b)) l →
  StronglySorted (λ a b, bytes_lt (path a) (path b)) k → (∀ e, e ∈ l ↔ e ∈ k) → l = k.
Proof.
  intros Hl Hk Heq.
  apply (StronglySorted_unique_strong (λ a b, bytes_lt (path a) (path b))); [|done..|].
  - intros a b _ _ Hab Hba. exfalso. apply (bytes_lt_irrefl (path a)). by etrans.
  - apply NoDup_Permutation; [..|done]; apply (list.NoDup_fmap_1 path), sorted_lt_NoDup;
      by apply (sorted_keys path).
Qed.

(** An executable form of [no_collision]. *)
Definition collides `{Blake3} (e e' : ManifestEntryV1) : bool :=
  match node_fields e, node_fields e' with
  | Some (domain, fields), Some (domain', fields') =>
    bytes_eqb (blake3_derive_key domain (hash_frame fields))
      (blake3_derive_key domain' (hash_frame fields'))
    && negb (bytes_eqb domain domain' && bytes_eqb (hash_frame fields) (hash_frame fields'))
  | _, _ => false
  end.

Lemma no_collision_check `{Blake3} t t' :
  any (λ e, any (collides e) (tree_entries t')) (tree_entries t) = false → no_collision t t'.
Proof.
  intros Ha e e' d f d' f' [i Hi]%list_elem_of_lookup [j Hj]%list_elem_of_lookup Hf Hf' Heq.
  rewrite any_false in Ha. specialize (Ha i e Hi). rewrite any_false in Ha. specialize (Ha j e' Hj).
  unfold collides in Ha. rewrite Hf, Hf', (proj2 (bytes_eqb_eq _ _) Heq) in Ha.
  apply negb_false_iff, andb_true_iff in Ha as [?%bytes_eqb_eq ?%bytes_eqb_eq]. done.
Qed.
