(* ===== verification/ManifestTheorems.v ===== *)
(** * Theorems on snapshot manifests

    The validator accepts exactly the valid trees, the bytes of a manifest and
    the manifest determine each other, the mounts of an accepted manifest are in
    order, and the root digest of a tree determines its entries. *)

From Stdlib Require Import String Sorting.Sorted.
From stdpp Require Import sorting.
From S2P Require Import Prelude Monad Bytes ContractTypes Canonical CanonicalSpec CanonicalParse.
From S2P Require Import CanonicalCodec RecordTypes Paths RecordValidation RecordCodec.
From S2P Require Import RecordRoundTrip Digest IdentityRoundTrip RecordTop Sample RecordTheorems.
From S2P Require Import ManifestTypes ManifestWriter ManifestStream StreamLaws ManifestReference.
From S2P Require Import ManifestDigest ManifestValidation ManifestCodec TreeSpec TreeBinding.
Import TreeRoles.

(** ** Validation *)

(** C15. The validator of trees accepts a tree exactly when the tree is valid:
    its root is a directory with the empty path and the tree's digest, paths
    strictly increase, every entry is well formed and carries the digest of its
    content, every directory commits to the kind and digest of the entries it
    names, every entry but the root is named exactly once, and every hard-link
    group is complete. *)
Theorem tree_validate_exact `{Blake3} (t : TreeManifestV1) :
  TreeManifestV1_wf t → tree_slices t → TreeManifestV1_validate t = Ok () ↔ valid_tree t.
Proof. apply tree_validate_iff. Qed.

Lemma tree_slices_check t :
  ((len (tree_entries t) <=? ISIZE_MAX)
   && forallb (λ e, match entry_payload e with
                    | Payloads.Symlink target => len target <=? ISIZE_MAX
                    | _ => true
                    end) (tree_entries t)) = true →
  tree_slices t.
Proof.
  intros [Hl%Z.leb_le He]%andb_true_iff. split; [done|]. rewrite List.forallb_forall in He.
  apply list.Forall_forall. intros e Hin%list_elem_of_In. specialize (He e Hin).
  unfold payload_slices. destruct (entry_payload e); try done. by apply Z.leb_le.
Qed.

Lemma workspace_facts :
  TreeManifestV1_wf ManifestSample.workspace ∧ tree_slices ManifestSample.workspace ∧
  TreeManifestV1_validate ManifestSample.workspace = Ok ().
Proof.
  split; [|split; [apply tree_slices_check|]; vm_compute; reflexivity].
  destruct ManifestSample.sample_wf as [(_ & _ & _ & Hw & _) _]. exact Hw.
Qed.

Lemma tree_validate_exact_witness : valid_tree ManifestSample.workspace.
Proof.
  destruct workspace_facts as (Hw & Hs & Hv).
  exact (proj1 (tree_validate_exact ManifestSample.workspace Hw Hs) Hv).
Defined.

(** ** Bytes *)

(** C17. The canonical bytes of a manifest and the strict decoder are inverse: a
    manifest has the canonical bytes [b] exactly when [b] decodes to it. *)
Theorem manifest_bytes_exact `{Blake3} (m : SnapshotManifestV1) (b : list Z) :
  SnapshotManifestV1_wf m → is_bytes b →
  SnapshotManifestV1_canonical_bytes m = Ok b ↔ decode_snapshot_manifest b = Ok m.
Proof.
  intros Hwf Hb. split.
  - intros Henc. pose proof Henc as ([] & Hv & _)%result_bind_Ok.
    by destruct (nested_complete (wf:=valid_manifest) m b (conj Hwf Hv) Henc).
  - intros Hdec. assert (is_sized b) by exact (parse_top_sized b _ m Hb Hdec).
    by destruct (nested_sound (wf:=valid_manifest) b m).
Qed.

Lemma manifest_bytes_exact_witness :
  decode_snapshot_manifest ManifestSample.sample_bytes = Ok ManifestSample.sample.
Proof.
  destruct ManifestSample.sample_wf as [Hwf Hb].
  apply (manifest_bytes_exact ManifestSample.sample ManifestSample.sample_bytes Hwf Hb).
  vm_compute. reflexivity.
Defined.

(** ** Mounts *)

(** A path strictly under another. *)
Definition inside (outer inner : list Z) : Prop := ∃ rest, inner = outer ++ SLASH :: rest.

Definition reserved_mount (p : list Z) : Prop :=
  p = bstr "/" ∨ p = bstr "/workspace" ∨ ∃ owned, owned ∈ PROFILE_OWNED ∧ (p = owned ∨ inside owned p).

(** The workspace is at its place, and there are runtime trees, each at a valid and
    free path, in the strict order of their paths, none directly before one
    inside it. *)
Record well_mounted (m : SnapshotManifestV1) : Prop := {
  wm_schema : manifest_schema m = SNAPSHOT_MANIFEST_V1_SCHEMA;
  wm_workspace : tree_role (manifest_workspace_tree m) = Workspace ∧
    tree_mount_path (manifest_workspace_tree m) = bstr "/workspace";
  wm_runtime : manifest_runtime_trees m ≠ [];
  wm_each t : t ∈ manifest_runtime_trees m → tree_role t = Runtime ∧
    valid_sandbox_path_bytes (tree_mount_path t) = true ∧ ¬ reserved_mount (tree_mount_path t);
  wm_order : Sorted (λ l r, bytes_lt (tree_mount_path l) (tree_mount_path r) ∧
    ¬ inside (tree_mount_path l) (tree_mount_path r)) (manifest_runtime_trees m);
}.

Lemma ancestor_iff outer inner : sandbox_path_is_ancestor outer inner = true ↔ inside outer inner.
Proof.
  unfold sandbox_path_is_ancestor, inside. split.
  - destruct (strip_prefix outer inner) as [[|x rest]|] eqn:Hs; [done| |done].
    apply strip_prefix_Some in Hs as ->. intros Hx. exists rest. revert Hx.
    unfold starts_with. cbn [strip_prefix]. by destruct (Z.eqb_spec SLASH x) as [<-|].
  - intros [rest ->]. assert (strip_prefix outer (outer ++ SLASH :: rest) = Some (SLASH :: rest)) as ->
      by by apply strip_prefix_Some. done.
Qed.

Lemma reserved_iff p : runtime_mount_is_reserved p = true ↔ reserved_mount p.
Proof.
  unfold runtime_mount_is_reserved, reserved_mount.
  destruct (bytes_eqb p (bstr "/") || bytes_eqb p (bstr "/workspace")) eqn:He.
  - apply orb_true_iff in He. rewrite !bytes_eqb_eq in He. tauto.
  - apply not_true_iff_false in He. rewrite orb_true_iff, !bytes_eqb_eq in He. rewrite any_true. split.
    + intros (j & owned & Ho%list_elem_of_lookup_2 & Hw). right. right. exists owned. split; [done|].
      unfold sandbox_path_is_within in Hw. by rewrite orb_true_iff, bytes_eqb_eq, ancestor_iff in Hw.
    + intros [|[|(owned & [j Hj]%list_elem_of_lookup & Hw)]]; [tauto..|]. exists j, owned. split; [done|].
      unfold sandbox_path_is_within. by rewrite orb_true_iff, bytes_eqb_eq, ancestor_iff.
Qed.

Lemma not_true_iff (b : bool) (P : Prop) : (b = true ↔ P) → b = false ↔ ¬ P.
Proof. intros <-. by rewrite not_true_iff_false. Qed.

Lemma shape_iff m : manifest_shape_malformed m = false ↔ well_mounted m.
Proof.
  unfold manifest_shape_malformed. cbv zeta.
  rewrite !orb_false_iff, !negb_false_iff, !bool_decide_eq_true, bool_decide_eq_false, !bytes_eqb_eq, any_false.
  rewrite (windows_any_Sorted _ (λ l r, bytes_lt (tree_mount_path l) (tree_mount_path r) ∧
    ¬ inside (tree_mount_path l) (tree_mount_path r))).
  2: { intros l r. rewrite orb_false_iff, bytes_ge_false, (not_true_iff _ _ (ancestor_iff _ _)). done. }
  split.
  - intros [[[[[[Hs Hr] Hm] _] Hn] He] Ho]. split; [done|done|done| |done].
    intros t [j Hj]%list_elem_of_lookup. specialize (He j t Hj).
    rewrite !orb_false_iff, !negb_false_iff, bool_decide_eq_true, (not_true_iff _ _ (reserved_iff _)) in He.
    tauto.
  - intros [Hs [Hr Hm] Hn He Ho]. split_and!; try done; [by rewrite Hm|].
    intros j t Hj%list_elem_of_lookup_2%He.
    rewrite !orb_false_iff, !negb_false_iff, bool_decide_eq_true, (not_true_iff _ _ (reserved_iff _)). tauto.
Qed.

Lemma inside_lt outer inner : inside outer inner → bytes_lt outer inner.
Proof.
  intros [rest ->]. unfold bytes_lt. induction outer as [|x outer IH]; [done|]. cbn. by rewrite Z.compare_refl.
Qed.

Lemma Sorted_weaken {A} (R S : A → A → Prop) l : (∀ x y, R x y → S x y) → Sorted R l → Sorted S l.
Proof. intros HR. induction 1 as [|x l _ IH Hx]; constructor; [done|]. destruct Hx; constructor; auto. Qed.

(** A tree inside another one comes later, and not next: the next one is between. *)
Lemma nested_between m l r : well_mounted m →
  l ∈ manifest_runtime_trees m → r ∈ manifest_runtime_trees m →
  inside (tree_mount_path l) (tree_mount_path r) →
  ∃ mid, mid ∈ manifest_runtime_trees m ∧ bytes_lt (tree_mount_path l) (tree_mount_path mid) ∧
    bytes_lt (tree_mount_path mid) (tree_mount_path r) ∧
    ¬ inside (tree_mount_path l) (tree_mount_path mid).
Proof.
  intros [_ _ _ _ Ho] Hl Hr Hi. pose proof (inside_lt _ _ Hi) as Hlt. revert Ho Hl Hr.
  assert (∀ x y ts, Sorted (λ l r, bytes_lt (tree_mount_path l) (tree_mount_path r) ∧
    ¬ inside (tree_mount_path l) (tree_mount_path r)) (x :: ts) → y ∈ ts →
    bytes_lt (tree_mount_path x) (tree_mount_path y)) as Hfirst.
  { intros x y ts Hs Hy.
    apply (Sorted_weaken _ (λ l r, bytes_lt (tree_mount_path l) (tree_mount_path r))) in Hs; [|by intros ?? []].
    apply Sorted_StronglySorted in Hs; [|intros ???; apply bytes_lt_trans].
    inversion_clear Hs as [|? ? _ Hall]. rewrite list.Forall_forall in Hall. by apply Hall. }
  induction (manifest_runtime_trees m) as [|x ts IH]; [by intros _ ?%elem_of_nil|].
  intros Hs Hl Hr. pose proof Hs as Hs0. inversion_clear Hs as [|? ? Hts Hx].
  apply elem_of_cons in Hl as [->|Hl]; apply elem_of_cons in Hr as [->|Hr].
  - by destruct (bytes_lt_irrefl (tree_mount_path x)).
  - destruct ts as [|y ts]; [by apply elem_of_nil in Hr|]. inversion_clear Hx as [|? ? [Hlt' Hn]].
    exists y. split; [right; left|]. split; [done|]. split; [|done].
    apply elem_of_cons in Hr as [->|Hr]; [done|]. by eapply Hfirst.
  - destruct (bytes_lt_irrefl (tree_mount_path x)). eapply bytes_lt_trans; [by eapply Hfirst|done].
  - destruct (IH Hts Hl Hr) as (mid & ? & ?). exists mid. split; [by right|done].
Qed.

(** C18. The mounts of an accepted manifest. The validator's first test passes
    exactly for the well mounted manifests, and fails the others: the runtime
    trees are at valid, free paths in strict order, and of two neighbours the
    second is never inside the first. Only neighbours are compared, so a tree may
    still be mounted inside another one, but only when a third mount sorts
    strictly between them and is not itself inside the outer one; and such a
    manifest is accepted: [/usr], [/usr-x] and [/usr/lib]. *)
Theorem nested_mounts_accepted :
  (∀ `{Blake3} m, SnapshotManifestV1_validate m = Ok () → well_mounted m) ∧
  (∀ m, well_mounted m → manifest_shape_malformed m = false) ∧
  (∀ `{Blake3} m, ¬ well_mounted m → SnapshotManifestV1_validate m = Err MalformedManifest) ∧
  (∀ m l r, well_mounted m → l ∈ manifest_runtime_trees m → r ∈ manifest_runtime_trees m →
     inside (tree_mount_path l) (tree_mount_path r) →
     ∃ mid, mid ∈ manifest_runtime_trees m ∧ bytes_lt (tree_mount_path l) (tree_mount_path mid) ∧
       bytes_lt (tree_mount_path mid) (tree_mount_path r) ∧
       ¬ inside (tree_mount_path l) (tree_mount_path mid)) ∧
  (∃ m l r, SnapshotManifestV1_validate m = Ok () ∧
     l ∈ manifest_runtime_trees m ∧ r ∈ manifest_runtime_trees m ∧
     inside (tree_mount_path l) (tree_mount_path r)).
Proof.
  split.
  { intros ? m. unfold SnapshotManifestV1_validate. destruct (manifest_shape_malformed m) eqn:He; [done|].
    intros _. by apply shape_iff. }
  split; [intros m; apply shape_iff|]. split.
  { intros ? m Hn. unfold SnapshotManifestV1_validate. rewrite <- shape_iff in Hn.
    by apply not_false_iff_true in Hn as ->. }
  split; [exact nested_between|].
  exists (ManifestSample.manifest
            [ManifestSample.empty_tree (bstr "/usr"); ManifestSample.empty_tree (bstr "/usr-x");
             ManifestSample.empty_tree (bstr "/usr/lib"); ManifestSample.venv_tree]),
    (ManifestSample.empty_tree (bstr "/usr")), (ManifestSample.empty_tree (bstr "/usr/lib")).
  split; [vm_compute; reflexivity|]. split; [left|]. split; [right; right; left|].
  by exists (bstr "lib").
Qed.

(** Applied to the sample manifest, whose neighbours are not nested, and to one
    with a tree directly after the one it is inside. *)
Lemma nested_mounts_accepted_witness :
  well_mounted ManifestSample.sample ∧
  SnapshotManifestV1_validate (ManifestSample.manifest
    [ManifestSample.empty_tree (bstr "/usr"); ManifestSample.empty_tree (bstr "/usr/lib");
     ManifestSample.venv_tree]) = Err MalformedManifest.
Proof.
  destruct nested_mounts_accepted as (Hv & _ & He & _). split; [apply (Hv sample_hash); vm_compute; reflexivity|].
  apply (He sample_hash). intros [_ _ _ _ Ho]. inversion_clear Ho as [|? ? _ Hx]. inversion_clear Hx as [|? ? [_ Hn]].
  apply Hn. by exists (bstr "lib").
Defined.

(** ** Binding *)

(** C16. The root digest binds the whole tree: two valid trees with the same
    root digest have the same entries (paths, metadata, contents, links and
    digests), unless a node of one and a node of the other collide. *)
Theorem tree_root_binds_entries `{Blake3} (t t' : TreeManifestV1) :
  TreeManifestV1_wf t → TreeManifestV1_wf t' → tree_slices t → tree_slices t' →
  TreeManifestV1_validate t = Ok () → TreeManifestV1_validate t' = Ok () →
  no_collision t t' → tree_root_digest t = tree_root_digest t' →
  tree_entries t = tree_entries t'.
Proof.
  intros Hw Hw' Hs Hs' Hv%tree_validate_iff Hv'%tree_validate_iff Hc Hr; [|done..].
  pose proof (no_collision_sym _ _ Hc) as Hc'.
  apply sorted_entries_unique; [apply Hv|apply Hv'|].
  intros e. split; eapply (bound_entry _ _); eauto.
Qed.

Lemma tree_root_binds_entries_witness :
  tree_entries ManifestSample.workspace =
  tree_entries (mkTree (bstr "/elsewhere") Workspace (tree_entries ManifestSample.workspace)
                  (tree_root_digest ManifestSample.workspace)).
Proof.
  destruct workspace_facts as (Hw & Hs & Hv). apply tree_root_binds_entries.
  - exact Hw.
  - destruct Hw as (_ & Hw & Hd). split; [|exact (conj Hw Hd)].
    split; [apply is_bytes_check|]; vm_compute; reflexivity.
  - exact Hs.
  - exact Hs.
  - exact Hv.
  - vm_compute. reflexivity.
  - apply no_collision_check. vm_compute. reflexivity.
  - reflexivity.
Defined.
