(* ===== verification/Promotion.v ===== *)
(** * Verified candidates and promotion

    The types of [src/src/linux_pytest.rs] that carry authority from a decoded
    record to a promoted pair: a manifest with its bytes, a sealed snapshot, a
    prepared invocation, a candidate record checked against its manifest, a
    shadow job, a promoted pair and a lookup result. With them, the check of an
    executable chain against a manifest of [src/src/linux_pytest/identity.rs].
    Descriptors are their numbers and the environment is its entries. *)

From Stdlib Require Import String.
From S2P Require Import Prelude Monad Bytes ContractTypes Canonical CanonicalSpec CanonicalParse.
From S2P Require Import CanonicalCodec RecordTypes Paths RecordValidation RecordCodec Digest.
From S2P Require Import IdentityWire Identity RecordTop.
From S2P Require Import ManifestTypes ManifestWriter ManifestStream StreamLaws.
From S2P Require Import ManifestReference ManifestDigest ManifestValidation ManifestCodec.

#[global] Instance ShapeV1_eq_dec : EqDecision ShapeV1.
Proof. solve_decision. Defined.

(** ** Executable chains and manifests *)

(** The relative path of [path] below a mount. *)
Definition relative_to (mount path : list Z) : option (list Z) :=
  if bytes_eqb path mount then Some []
  else suffix ← strip_prefix mount path; strip_prefix [SLASH] suffix.

(** The entry of one tree at a sandbox path, with the length of its mount. The
    manifest is validated before, so that the entries are sorted and the binary
    search finds the entry with the path. *)
Definition tree_entry_at (path : list Z) (tree : TreeManifestV1) : option (Z * ManifestEntryV1) :=
  relative ← relative_to (tree_mount_path tree) path;
  entry ← by_path (tree_entries tree) relative;
  Some (len (tree_mount_path tree), entry).

(** [max_by_key], which returns the last of several maxima. *)
Fixpoint max_by_mount (best : option (Z * ManifestEntryV1)) (l : list (Z * ManifestEntryV1)) :
    option (Z * ManifestEntryV1) :=
  match l with
  | [] => best
  | x :: l =>
    match best with
    | Some y => max_by_mount (if y.1 <=? x.1 then Some x else Some y) l
    | None => max_by_mount (Some x) l
    end
  end.

Definition manifest_entry_for_sandbox_path (manifest : SnapshotManifestV1) (path : list Z) :
    option ManifestEntryV1 :=
  snd <$> max_by_mount None
    (omap (tree_entry_at path) (manifest_workspace_tree manifest :: manifest_runtime_trees manifest)).

Section promotion.
Context `{Blake3}.

(** One hop: its entry has its digest and the payload its resolution says. *)
Definition validate_hop_entry (manifest : SnapshotManifestV1) (hop : ExecutableHopV1) : contract () :=
  entry ← ok_or (manifest_entry_for_sandbox_path manifest (hop_path hop)) MalformedLookupIdentity;
  if negb (bytes_eqb (entry_node_digest entry) (hop_node_digest hop))
  then Err MalformedLookupIdentity
  else match hop_resolution hop, entry_payload entry with
  | Hops.Symlink raw_target _, Payloads.Symlink target =>
    if bytes_eqb raw_target target then Ok () else Err MalformedLookupIdentity
  | Hops.TerminalRegular, Payloads.Regular _ _ => Ok ()
  | _, _ => Err MalformedLookupIdentity
  end.

Fixpoint validate_hop_entries (manifest : SnapshotManifestV1) (hops : list ExecutableHopV1) :
    contract () :=
  match hops with
  | [] => Ok ()
  | hop :: hops => _ ← validate_hop_entry manifest hop; validate_hop_entries manifest hops
  end.

Definition validate_against_manifest (self : ExecutableChainV1) (manifest : SnapshotManifestV1) :
    contract () :=
  _ ← ExecutableChainV1_validate self;
  _ ← SnapshotManifestV1_validate manifest;
  validate_hop_entries manifest (chain_hops self).

(** ** Snapshots *)

Record VerifiedSnapshotManifestV1 := mkVerifiedManifest {
  verified_manifest : SnapshotManifestV1;
  verified_canonical_bytes : list Z;
  verified_blob : BlobRefV2;
}.

Definition VerifiedSnapshotManifestV1_from_manifest (manifest : SnapshotManifestV1) :
    contract VerifiedSnapshotManifestV1 :=
  canonical_bytes ← SnapshotManifestV1_canonical_bytes manifest;
  byte_count ← try_width U64_MAX CanonicalEncoding (len canonical_bytes);
  Ok (mkVerifiedManifest manifest canonical_bytes
        (mkBlobRef (Blake3Digest_derive CAS_OBJECT_DOMAIN [canonical_bytes]) byte_count)).

Definition VerifiedSnapshotManifestV1_from_canonical_bytes (bytes : list Z) :
    contract VerifiedSnapshotManifestV1 :=
  manifest ← decode_snapshot_manifest bytes;
  value ← VerifiedSnapshotManifestV1_from_manifest manifest;
  if negb (bytes_eqb (verified_canonical_bytes value) bytes) then Err CanonicalDecoding
  else Ok value.

Definition matches_identity (self : VerifiedSnapshotManifestV1)
    (identity : SealedSnapshotIdentityV2) : bool :=
  bool_decide (verified_blob self = snapshot_manifest_blob identity)
  && bytes_eqb (manifest_workspace_root (verified_manifest self)) (snapshot_workspace_root identity)
  && bytes_eqb (manifest_runtime_root (verified_manifest self)) (snapshot_runtime_root identity)
  && bytes_eqb (manifest_profile_digest (verified_manifest self)) (snapshot_profile_digest identity).

Record SealedSnapshot := mkSealedSnapshot {
  sealed_identity : SealedSnapshotIdentityV2;
  sealed_manifest : VerifiedSnapshotManifestV1;
  sealed_workspace_dir : Z;
  sealed_runtime_dir : Z;
}.

Definition from_owned_directories (identity : SealedSnapshotIdentityV2)
    (manifest : VerifiedSnapshotManifestV1) (workspace_dir runtime_dir : Z) :
    contract SealedSnapshot :=
  if id_is_nil (snapshot_id identity) || negb (matches_identity manifest identity)
  then Err MalformedManifest
  else Ok (mkSealedSnapshot identity manifest workspace_dir runtime_dir).

Record AdmittedPytest := mkAdmitted {
  admitted_invocation : PytestInvocationIdentityV1;
  admitted_workspace_root : list Z;
  admitted_shape : ShapeV1;
  admitted_shape_key : list Z;
  admitted_environment : list (list Z * list Z);
}.

Record PreparedPytest := mkPrepared {
  prepared_snapshot : SealedSnapshot;
  prepared_admitted : AdmittedPytest;
}.

Definition PreparedPytest_new (snapshot : SealedSnapshot) (admitted : AdmittedPytest) :
    contract PreparedPytest :=
  let shape := admitted_shape admitted in
  let manifest := verified_manifest (sealed_manifest snapshot) in
  _ ← ShapeV1_validate shape;
  executable_chain ← ShapeV1_executable_chain shape;
  if negb (bool_decide (admitted_invocation admitted = shape_invocation shape))
  then Err MalformedLookupIdentity
  else
    key ← ShapeV1_key shape;
    if negb (bytes_eqb (admitted_shape_key admitted) key)
       || negb (bytes_eqb (shape_runtime_root shape) (snapshot_runtime_root (sealed_identity snapshot)))
       || negb (bytes_eqb (shape_profile_digest shape)
                  (snapshot_profile_digest (sealed_identity snapshot)))
       || negb (bytes_eqb (shape_workspace_identity shape) (manifest_workspace_identity manifest))
    then Err MalformedLookupIdentity
    else
      _ ← validate_against_manifest executable_chain manifest;
      Ok (mkPrepared snapshot admitted).

(** ** Candidates *)

Record VerifiedCandidateRecordV2 := mkVerifiedCandidate {
  candidate_canonical : CanonicalEffectRecordV2;
  candidate_manifest : VerifiedSnapshotManifestV1;
}.

Definition candidate_record (self : VerifiedCandidateRecordV2) : EffectRecordV2 :=
  canonical_record (candidate_canonical self).

Definition VerifiedCandidateRecordV2_new (canonical : CanonicalEffectRecordV2)
    (manifest : VerifiedSnapshotManifestV1) : contract VerifiedCandidateRecordV2 :=
  let record := canonical_record canonical in
  let snapshot := record_sealed_snapshot record in
  let manifest_value := verified_manifest manifest in
  executable_chain ← ShapeV1_executable_chain (record_shape record);
  if negb (is_complete_candidate record)
     || negb (matches_identity manifest snapshot)
     || negb (bytes_eqb (manifest_workspace_identity manifest_value) (record_workspace_identity record))
     || negb (bytes_eqb (manifest_profile_digest manifest_value) (record_profile_digest record))
     || negb (bytes_eqb (manifest_workspace_root manifest_value) (snapshot_workspace_root snapshot))
     || negb (bytes_eqb (manifest_runtime_root manifest_value) (snapshot_runtime_root snapshot))
  then Err MalformedRecord
  else
    _ ← validate_against_manifest executable_chain manifest_value;
    Ok (mkVerifiedCandidate canonical manifest).

Definition VerifiedCandidateRecordV2_from_canonical_bytes (record_bytes manifest_bytes : list Z) :
    contract VerifiedCandidateRecordV2 :=
  record ← CanonicalEffectRecordV2_from_canonical_bytes record_bytes;
  manifest ← VerifiedSnapshotManifestV1_from_canonical_bytes manifest_bytes;
  VerifiedCandidateRecordV2_new record manifest.

Inductive TraceExecutionMode := Foreground | Shadow (primary_record_id : list Z).

Inductive VerifiedExecutionRecordV2 :=
| VerifiedExecutedOnly (record : CanonicalEffectRecordV2)
| VerifiedCandidate (record : VerifiedCandidateRecordV2).

Definition bind_candidate (prepared : PreparedPytest) (canonical : CanonicalEffectRecordV2) :
    contract VerifiedExecutionRecordV2 :=
  manifest ← VerifiedSnapshotManifestV1_from_canonical_bytes
               (verified_canonical_bytes (sealed_manifest (prepared_snapshot prepared)));
  candidate ← VerifiedCandidateRecordV2_new canonical manifest;
  Ok (VerifiedCandidate candidate).

Definition VerifiedExecutionRecordV2_bind (prepared : PreparedPytest) (mode : TraceExecutionMode)
    (canonical : CanonicalEffectRecordV2) : contract VerifiedExecutionRecordV2 :=
  let record := canonical_record canonical in
  let admitted := prepared_admitted prepared in
  if negb (bool_decide (record_shape record = admitted_shape admitted))
     || negb (bytes_eqb (record_shape_key record) (admitted_shape_key admitted))
     || negb (bool_decide (record_invocation record = admitted_invocation admitted))
     || negb (bool_decide (record_sealed_snapshot record
                           = sealed_identity (prepared_snapshot prepared)))
  then Err MalformedRecord
  else match mode, record_disposition record with
  | Foreground, ExecutedOnly => Ok (VerifiedExecutedOnly canonical)
  | Foreground, PrimaryCandidate => bind_candidate prepared canonical
  | Shadow primary_record_id, ShadowCandidate =>
    if bool_decide (record_primary_record_id record = Some primary_record_id)
    then bind_candidate prepared canonical else Err MalformedRecord
  | _, _ => Err MalformedRecord
  end.

Definition VerifiedExecutionRecordV2_record (self : VerifiedExecutionRecordV2) : EffectRecordV2 :=
  match self with
  | VerifiedExecutedOnly record => canonical_record record
  | VerifiedCandidate record => candidate_record record
  end.

Definition VerifiedExecutionRecordV2_candidate (self : VerifiedExecutionRecordV2) :
    option VerifiedCandidateRecordV2 :=
  match self with
  | VerifiedExecutedOnly _ => None
  | VerifiedCandidate record => Some record
  end.

(** ** Shadow jobs *)

Record ShadowJobV2 := mkShadowJob {
  job_id : list Z;
  job_primary_record_id : list Z;
  job_shape_key : list Z;
  job_request_key : list Z;
  job_snapshot_identity : SealedSnapshotIdentityV2;
}.

Definition ShadowJobV2_new (id : list Z) (primary : VerifiedCandidateRecordV2) :
    contract ShadowJobV2 :=
  let record := candidate_record primary in
  if negb (bool_decide (record_disposition record = PrimaryCandidate))
     || negb (is_complete_candidate record) || id_is_nil id
  then Err MalformedRecord
  else Ok (mkShadowJob id (record_id record) (record_shape_key record) (record_request_key record)
             (record_sealed_snapshot record)).

Record ShadowEnvelopeV2 := mkEnvelope {
  envelope_job : ShadowJobV2;
  envelope_prepared : PreparedPytest;
}.

Definition ShadowEnvelopeV2_new (job : ShadowJobV2) (prepared : PreparedPytest) :
    contract ShadowEnvelopeV2 :=
  if negb (bytes_eqb (job_shape_key job) (admitted_shape_key (prepared_admitted prepared)))
     || negb (bool_decide (job_snapshot_identity job = sealed_identity (prepared_snapshot prepared)))
  then Err MalformedLookupIdentity
  else Ok (mkEnvelope job prepared).

(** ** Promotion *)

Record PromotedPairV2 := mkPromotedPair {
  pair_shape_key : list Z;
  pair_request_key : list Z;
  pair_primary_record_id : list Z;
  pair_shadow_record_id : list Z;
  pair_primary_record_blob : BlobRefV2;
  pair_shadow_record_blob : BlobRefV2;
  pair_comparison : list Z;
  pair_class_key : list Z;
  pair_promoted_monotonic_ns : Z;
}.

#[global] Instance PromotedPairV2_eq_dec : EqDecision PromotedPairV2.
Proof. solve_decision. Defined.

Definition PromotedPairV2_new (primary shadow : VerifiedCandidateRecordV2)
    (promoted_monotonic_ns : Z) : contract PromotedPairV2 :=
  comparison_digest ← pair_comparison_digest (candidate_canonical primary)
                        (candidate_canonical shadow);
  let primary_record := candidate_record primary in
  let shadow_record := candidate_record shadow in
  if (promoted_monotonic_ns =? 0)
     || (promoted_monotonic_ns <? record_created_monotonic_ns primary_record)
     || (promoted_monotonic_ns <? record_created_monotonic_ns shadow_record)
  then Err MalformedLookupIdentity
  else
    class ← QuarantineClassV1_from_record primary_record;
    class_key ← QuarantineClassV1_key class;
    Ok (mkPromotedPair (record_shape_key primary_record) (record_request_key primary_record)
          (record_id primary_record) (record_id shadow_record)
          (canonical_record_blob (candidate_canonical primary))
          (canonical_record_blob (candidate_canonical shadow))
          comparison_digest class_key promoted_monotonic_ns).

Record PromotedCandidateV2 := mkPromotedCandidate {
  promoted_pair : PromotedPairV2;
  promoted_primary : VerifiedCandidateRecordV2;
  promoted_shadow : VerifiedCandidateRecordV2;
}.

Definition PromotedCandidateV2_new (pair : PromotedPairV2)
    (primary shadow : VerifiedCandidateRecordV2) : contract PromotedCandidateV2 :=
  derived ← PromotedPairV2_new primary shadow (pair_promoted_monotonic_ns pair);
  if negb (bool_decide (derived = pair)) then Err ComparisonMismatch
  else Ok (mkPromotedCandidate pair primary shadow).
End promotion.

(** [BTreeSet::insert]: the set after, or nothing when the element was there. *)
Definition insert_new (x : list Z) (set : list (list Z)) : option (list (list Z)) :=
  if bool_decide (x ∈ set) then None else Some (x :: set).

(** The loop over the candidates of a lookup. *)
Fixpoint distinct_candidates (shape_key : list Z) (request_keys record_ids : list (list Z))
    (candidates : list PromotedCandidateV2) : bool :=
  match candidates with
  | [] => true
  | candidate :: candidates =>
    let pair := promoted_pair candidate in
    if negb (bytes_eqb (pair_shape_key pair) shape_key) then false
    else match insert_new (pair_request_key pair) request_keys with
    | None => false
    | Some request_keys =>
      match insert_new (pair_primary_record_id pair) record_ids with
      | None => false
      | Some record_ids =>
        match insert_new (pair_shadow_record_id pair) record_ids with
        | None => false
        | Some record_ids => distinct_candidates shape_key request_keys record_ids candidates
        end
      end
    end
  end.

(** Neighbours out of order: newest first, then by request key. *)
Definition out_of_order (left right : PromotedPairV2) : bool :=
  (pair_promoted_monotonic_ns left <? pair_promoted_monotonic_ns right)
  || ((pair_promoted_monotonic_ns left =? pair_promoted_monotonic_ns right)
      && bytes_ge (pair_request_key left) (pair_request_key right)).

(** The lookup holds its candidates. *)
Definition PromotedLookupV2_new (shape_key : list Z) (candidates : list PromotedCandidateV2) :
    contract (list PromotedCandidateV2) :=
  if LINUX_PYTEST_V1_MAX_LOOKUP_CANDIDATES <? len candidates then Err MalformedLookupIdentity
  else if negb (distinct_candidates shape_key [] [] candidates) then Err MalformedLookupIdentity
  else if windows_any (λ left right, out_of_order (promoted_pair left) (promoted_pair right))
            candidates
  then Err MalformedLookupIdentity
  else Ok candidates.
