(* ===== verification/PromotionTheorems.v ===== *)
(** * Theorems on candidates and promotion

    A manifest whose workspace mounts a virtual environment with the python of
    the sample invocation, and a primary and a shadow record over it, under the
    toy hash; then the theorems. *)

From Stdlib Require Import String Sorting.Sorted.
From stdpp Require Import sets sorting.
From S2P Require Import Prelude Monad Bytes ContractTypes Canonical CanonicalSpec CanonicalParse.
From S2P Require Import CanonicalCodec RecordTypes Paths RecordValidation RecordCodec.
From S2P Require Import RecordRoundTrip Digest IdentityWire Identity IdentityRoundTrip RecordTop.
From S2P Require Import Sample RecordTheorems ComparisonTheorems ManifestTypes ManifestWriter.
From S2P Require Import ManifestStream StreamLaws ManifestReference ManifestDigest.
From S2P Require Import ManifestValidation ManifestCodec TreeSpec TreeBinding Promotion.
Import TreeRoles.

Module PromotionSample.
Import ManifestSample.

Definition python_entry : ManifestEntryV1 :=
  node (bstr "bin/python") (metadata 0x81ed 10 1) (Payloads.Regular (Sample.digest 6) [mkExtent 0 10])
    None.
Definition bin_entry : ManifestEntryV1 := directory (bstr "bin") [child (bstr "python") python_entry].
Definition venv_root : ManifestEntryV1 := directory [] [child (bstr "bin") bin_entry].
Definition venv : TreeManifestV1 :=
  mkTree (bstr "/workspace/.venv") Runtime [venv_root; bin_entry; python_entry]
    (entry_node_digest venv_root).

Definition venv_entry : ManifestEntryV1 :=
  node (bstr ".venv") (metadata 0x41ed 4096 2)
    (Payloads.ExternalTree Runtime (tree_root_digest venv) true) None.
Definition workspace_root : ManifestEntryV1 := directory [] [child (bstr ".venv") venv_entry].
Definition workspace : TreeManifestV1 :=
  mkTree (bstr "/workspace") Workspace [workspace_root; venv_entry] (entry_node_digest workspace_root).

Definition manifest : SnapshotManifestV1 :=
  mkManifest SNAPSHOT_MANIFEST_V1_SCHEMA Sample.profile_digest (Sample.digest 16) workspace [venv]
    (Blake3Digest_derive WORKSPACE_MERKLE_DOMAIN [tree_root_digest workspace])
    (Blake3Digest_derive RUNTIME_MERKLE_DOMAIN
       [value_or [] (encode_runtime_forest_for_hash [venv])]).

Definition manifest_bytes : list Z := value_or [] (SnapshotManifestV1_canonical_bytes manifest).

Definition chain : ExecutableChainV1 :=
  mkChain Sample.python [mkHop Sample.python (entry_node_digest python_entry) Hops.TerminalRegular].

Definition shape : ShapeV1 :=
  mkShape LINUX_PYTEST_SHAPE_V1_SCHEMA LINUX_PYTEST_PROFILE_ID Sample.profile_digest
    (Sample.digest 16) Sample.invocation Sample.environment [bstr "/workspace/tests/test_a.py"]
    (value_or [] (ExecutableChainV1_digest chain))
    (value_or [] (ExecutableChainV1_canonical_bytes chain))
    (manifest_runtime_root manifest) X86_64 (Sample.digest 18) (Sample.digest 19) Sample.policies.

Definition record (id snapshot : list Z) (namespaces : Z)
    (disposition : EffectRecordDispositionV2) (primary : option (list Z)) (created : Z) :
    EffectRecordV2 :=
  mkRecord EFFECT_IR_V2_SCHEMA id LINUX_PYTEST_PROFILE_ID Sample.profile_digest
    (value_or [] (ShapeV1_key shape)) (value_or [] (ShapeV1_request_key shape Sample.closure))
    Sample.invocation (Sample.digest 16) Sample.environment
    (mkSnapshot snapshot (manifest_workspace_root manifest) (manifest_runtime_root manifest)
       (mkBlobRef (Blake3Digest_derive CAS_OBJECT_DOMAIN [manifest_bytes]) (len manifest_bytes))
       Sample.profile_digest)
    (mkPlatform X86_64 (bstr "6.8.0") (Sample.digest 18)
       (mkNamespaceIds namespaces (namespaces + 1) (namespaces + 2) (namespaces + 3)
          (namespaces + 4) (namespaces + 5))
       (Sample.digest 19) Sample.policies)
    Sample.trace [Sample.observation] [] [] (manifest_workspace_root manifest) Sample.result
    disposition None primary created shape Sample.closure.

Definition primary_bytes : list Z :=
  value_or [] (EffectRecordV2_canonical_bytes
    (record (Sample.id 1) (Sample.id 2) 4026531836 PrimaryCandidate None 5)).
Definition shadow_bytes : list Z :=
  value_or [] (EffectRecordV2_canonical_bytes
    (record (Sample.id 3) (Sample.id 4) 4026532000 ShadowCandidate (Some (Sample.id 1)) 9)).

Definition is_ok {A} (r : contract A) : bool := match r with Ok _ => true | Err _ => false end.

Lemma is_ok_Ok {A} (r : contract A) : is_ok r = true → ∃ a, r = Ok a.
Proof. destruct r; [eauto|done]. Qed.

Lemma bytes_facts : is_bytes primary_bytes ∧ is_bytes shadow_bytes ∧ is_bytes manifest_bytes.
Proof. split; [|split]; apply is_bytes_check; vm_compute; reflexivity. Qed.

(** Both records are verified candidates, and they can be promoted. *)
Lemma promoted :
  ∃ p s pair,
    VerifiedCandidateRecordV2_from_canonical_bytes primary_bytes manifest_bytes = Ok p ∧
    VerifiedCandidateRecordV2_from_canonical_bytes shadow_bytes manifest_bytes = Ok s ∧
    PromotedPairV2_new p s 11 = Ok pair.
Proof.
  destruct (is_ok_Ok (
    p ← VerifiedCandidateRecordV2_from_canonical_bytes primary_bytes manifest_bytes;
    s ← VerifiedCandidateRecordV2_from_canonical_bytes shadow_bytes manifest_bytes;
    PromotedPairV2_new p s 11)) as [pair Hpair]; [vm_compute; reflexivity|].
  apply result_bind_Ok in Hpair as (p & Hp & Hpair). apply result_bind_Ok in Hpair as (s & Hs & Hpair).
  exists p, s, pair. exact (conj Hp (conj Hs Hpair)).
Qed.
End PromotionSample.

(** * Theorems

    The composition of the record codec, the manifest codec, the identities and
    the comparison: what a verified candidate, a promoted pair and a lookup
    result stand for. *)

(** ** Lookup results *)

(** Newest promotion first, then by request key. *)
Definition listed_before (left right : PromotedCandidateV2) : Prop :=
  let l := promoted_pair left in let r := promoted_pair right in
  pair_promoted_monotonic_ns r < pair_promoted_monotonic_ns l ∨
  pair_promoted_monotonic_ns l = pair_promoted_monotonic_ns r ∧
  bytes_lt (pair_request_key l) (pair_request_key r).

(** The records a candidate refers to. *)
Definition record_ids_of (c : PromotedCandidateV2) : list (list Z) :=
  [pair_primary_record_id (promoted_pair c); pair_shadow_record_id (promoted_pair c)].

Abbreviation request_key_of c := (pair_request_key (promoted_pair c)).

Lemma out_of_order_false l r :
  out_of_order (promoted_pair l) (promoted_pair r) = false ↔ listed_before l r.
Proof.
  unfold out_of_order, listed_before. cbv zeta. rewrite orb_false_iff, andb_false_iff, bytes_ge_false.
  rewrite Z.ltb_ge, Z.eqb_neq.
  destruct (Z.eq_dec (pair_promoted_monotonic_ns (promoted_pair l))
              (pair_promoted_monotonic_ns (promoted_pair r))); intuition lia.
Qed.

#[local] Instance listed_before_trans : Transitive listed_before.
Proof.
  intros a b c. unfold listed_before. cbv zeta. intros [?|[? ?]] [?|[? ?]]; try (left; lia).
  right. split; [lia|]. by etrans.
Qed.

Lemma insert_new_NoDup {x set} {l : list (list Z)} :
  NoDup (x :: l ++ set) → insert_new x set = Some (x :: set) ∧ NoDup (l ++ x :: set).
Proof.
  intros Hn. split; [|by rewrite <- Permutation_middle].
  unfold insert_new. rewrite bool_decide_false; [done|]. intros Hin.
  apply list.NoDup_cons in Hn as [Hx _]. apply Hx, elem_of_app. by right.
Qed.

Lemma insert_new_Some x set set' : insert_new x set = Some set' → set' = x :: set.
Proof. unfold insert_new. case_bool_decide; congruence. Qed.

Lemma distinct_candidates_iff key rks ids l :
  NoDup rks → NoDup ids →
  distinct_candidates key rks ids l = true ↔
  Forall (λ c, pair_shape_key (promoted_pair c) = key) l ∧
  NoDup (((λ c, request_key_of c) <$> l) ++ rks) ∧ NoDup (flat_map record_ids_of l ++ ids).
Proof.
  revert rks ids. induction l as [|c l IH]; intros rks ids Hr Hi.
  { cbn. split; [by repeat constructor|done]. }
  cbn [distinct_candidates flat_map fmap list_fmap record_ids_of app]. cbv zeta.
  rewrite list.Forall_cons. destruct (bytes_eqb _ key) eqn:Hk; cbn [negb].
  2: { split; [done|]. intros ([Hx _] & _). apply bytes_eqb_eq in Hx. congruence. }
  apply bytes_eqb_eq in Hk. split.
  - intros Hd. case_match eqn:E1; [|done]. case_match eqn:E2; [|done]. case_match eqn:E3; [|done].
    repeat match goal with E : insert_new ?x ?s = Some _ |- _ =>
      assert (x ∉ s) by (revert E; unfold insert_new; by case_bool_decide);
      apply insert_new_Some in E as -> end.
    apply IH in Hd as (? & Hr' & Hi'); [|by constructor|by repeat constructor].
    split; [done|]. split; [by rewrite Permutation_middle|].
    revert Hi'. apply NoDup_Permutation_proper. rewrite <- !Permutation_middle. apply perm_swap.
  - intros ([_ Hf] & Hr' & Hi'). destruct (insert_new_NoDup Hr') as [-> Hr''].
    destruct (insert_new_NoDup (l:=_ :: flat_map record_ids_of l) Hi') as [-> Hi1].
    destruct (insert_new_NoDup Hi1) as [-> Hi2].
    apply IH; [by apply list.NoDup_app in Hr'' as (_ & _ & ?)|by apply list.NoDup_app in Hi2 as (_ & _ & ?)|done].
Qed.

(** A lookup result is accepted exactly when it holds at most 64
    candidates, all of the requested shape, with distinct request keys and with
    all primary and shadow records distinct, in strictly decreasing order of
    promotion time with request keys breaking ties; it then holds exactly the
    candidates given. *)
Theorem promoted_lookup_exact (shape_key : list Z) (l r : list PromotedCandidateV2) :
  PromotedLookupV2_new shape_key l = Ok r ↔
  r = l ∧ len l <= 64 ∧ Forall (λ c, pair_shape_key (promoted_pair c) = shape_key) l ∧
  NoDup ((λ c, request_key_of c) <$> l) ∧ NoDup (flat_map record_ids_of l) ∧
  StronglySorted listed_before l.
Proof.
  unfold PromotedLookupV2_new, LINUX_PYTEST_V1_MAX_LOOKUP_CANDIDATES.
  assert (StronglySorted listed_before l ↔
    windows_any (λ left right, out_of_order (promoted_pair left) (promoted_pair right)) l = false) as ->.
  { rewrite (windows_any_Sorted _ listed_before) by apply out_of_order_false.
    split; [apply StronglySorted_Sorted|apply Sorted_StronglySorted, _]. }
  pose proof (distinct_candidates_iff shape_key [] [] l (NoDup_nil_2) (NoDup_nil_2)) as Hd.
  rewrite !app_nil_r in Hd.
  destruct (Z.ltb_spec 64 (len l)); [split; [done|lia]|].
  destruct (distinct_candidates _ _ _ _); cbn [negb].
  2: { split; [done|]. intros (_ & _ & ? & ? & ? & _). enough (false = true) by done. apply Hd.
       done. }
  apply proj1 in Hd. destruct (Hd eq_refl) as (? & ? & ?).
  destruct (windows_any _ l); [split; [done|]; by intros (_ & _ & _ & _ & _ & ?)|].
  split; [by intros [= <-]|by intros [-> _]].
Qed.

(** ** Entries at sandbox paths *)

Definition manifest_trees (m : SnapshotManifestV1) : list TreeManifestV1 :=
  manifest_workspace_tree m :: manifest_runtime_trees m.

(** [e] is the entry of the tree at the sandbox path [p]. *)
Definition entry_at (t : TreeManifestV1) (p : list Z) (e : ManifestEntryV1) : Prop :=
  e ∈ tree_entries t ∧
  (p = tree_mount_path t ∧ path e = [] ∨ p = tree_mount_path t ++ [SLASH] ++ path e).

Lemma relative_to_Some mount p r :
  relative_to mount p = Some r ↔ p = mount ∧ r = [] ∨ p = mount ++ [SLASH] ++ r.
Proof.
  unfold relative_to. destruct (bytes_eqb p mount) eqn:He.
  - apply bytes_eqb_eq in He as ->. split; [intros [= <-]; by left|].
    intros [[_ ->]|Hp]; [done|]. apply (f_equal length) in Hp. rewrite !length_app in Hp. cbn in Hp. lia.
  - assert (p ≠ mount) as Hne by (intros ?%bytes_eqb_eq; congruence). split.
    + destruct (strip_prefix mount p) as [s|] eqn:Hs; [|done]. apply strip_prefix_Some in Hs as ->.
      cbn. intros ->%(strip_prefix_Some [SLASH]). by right.
    + intros [[-> _]| ->]; [done|]. rewrite (proj2 (strip_prefix_Some mount _ ([SLASH] ++ r))) by done.
      by apply strip_prefix_Some.
Qed.

Lemma tree_entry_at_Some p t n e :
  NoDup (path <$> tree_entries t) →
  tree_entry_at p t = Some (n, e) ↔ n = len (tree_mount_path t) ∧ entry_at t p e.
Proof.
  intros Hn. unfold tree_entry_at, entry_at. destruct (relative_to _ p) as [r|] eqn:Hr.
  - cbn. pose proof (proj1 (relative_to_Some _ _ _) Hr) as Hp.
    assert (∀ e, p = tree_mount_path t ∧ path e = [] ∨ p = tree_mount_path t ++ [SLASH] ++ path e →
      path e = r) as Hu by (intros x Hx%relative_to_Some; congruence).
    split.
    + destruct (by_path _ r) as [e'|] eqn:Hb; [|done]. cbn. intros [= <- <-].
      apply by_path_Some in Hb as [? <-]. done.
    + intros (-> & He & Hx). rewrite <- (Hu e Hx), by_path_elem by done. done.
  - split; [done|]. intros (_ & _ & Hx%relative_to_Some). congruence.
Qed.

Lemma max_by_mount_Some best l r :
  max_by_mount best l = Some r → (best = Some r ∨ r ∈ l) ∧ ∀ x, best = Some x ∨ x ∈ l → x.1 <= r.1.
Proof.
  revert best. induction l as [|y l IH]; intros best; cbn.
  { intros ->. split; [by left|]. intros x [[= ->]|?%not_elem_of_nil]; done. }
  setoid_rewrite elem_of_cons. intros Hm.
  assert (∃ b, max_by_mount (Some b) l = Some r ∧ (best = Some b ∨ b = y) ∧ y.1 <= b.1 ∧
    ∀ x, best = Some x → x.1 <= b.1) as (b & Hb & Hwhich & Hy & Hbest).
  { destruct best as [x|]; [|exists y; split_and!; [done|by right|lia|done]].
    destruct (Z.leb_spec (x.1) (y.1)); [exists y|exists x]; (split_and!; [done|auto|lia|]);
      intros ? [= <-]; lia. }
  apply IH in Hb as [Hin Hall]. split.
  - destruct Hin as [[= ->]|?]; [|by right; right]. destruct Hwhich as [?| ->]; auto.
  - assert (b.1 <= r.1) by (apply Hall; by left).
    intros x [Hx|[->|Hx]]; [specialize (Hbest x Hx); lia|lia|]. apply Hall. by right.
Qed.

Lemma max_by_mount_None best l : max_by_mount best l = None → best = None ∧ l = [].
Proof.
  revert best. induction l as [|y l IH]; intros best; cbn; [done|].
  destruct best; [case_match|]; intros [??]%IH; done.
Qed.

Lemma tree_validate_sorted `{Blake3} t :
  TreeManifestV1_validate t = Ok () →
  StronglySorted (λ a b, bytes_lt (path a) (path b)) (tree_entries t).
Proof.
  unfold TreeManifestV1_validate. destruct (tree_entries t) as [|root rest] eqn:He; [done|].
  rewrite <- He. case_match eqn:Hc; [done|]. intros _. by apply (root_checks t root rest He) in Hc as (_ & _ & ?).
Qed.

Lemma validate_trees_Ok `{Blake3} l :
  validate_trees l = Ok () → Forall (λ t, TreeManifestV1_validate t = Ok ()) l.
Proof.
  induction l as [|t l IH]; [constructor|]. cbn. intros ([] & ? & ?)%result_bind_Ok. constructor; auto.
Qed.

(** What validation says of the trees and mounts. *)
Lemma manifest_validate_trees `{Blake3} m :
  SnapshotManifestV1_validate m = Ok () →
  Forall (λ t, NoDup (path <$> tree_entries t)) (manifest_trees m) ∧
  NoDup (tree_mount_path <$> manifest_trees m).
Proof.
  unfold SnapshotManifestV1_validate. case_match eqn:Hs; [done|].
  intros ([] & Hw & ([] & Hr%validate_trees_Ok & _)%result_bind_Ok)%result_bind_Ok.
  unfold manifest_shape_malformed in Hs. rewrite !orb_false_iff in Hs.
  destruct Hs as [[[[[[_ _] Hm] _] _] Hres] Hsort]. apply negb_false_iff, bytes_eqb_eq in Hm.
  assert (∀ t, TreeManifestV1_validate t = Ok () → NoDup (path <$> tree_entries t)) as Hnd
    by (intros t Ht%tree_validate_sorted; by apply sorted_lt_NoDup, (sorted_keys path)).
  split; [constructor; [by apply Hnd|]; by eapply list.Forall_impl|].
  cbn. apply list.NoDup_cons. split.
  - intros (t & Ht & Hin)%list_elem_of_fmap. apply list_elem_of_lookup in Hin as [i Hi].
    rewrite any_false in Hres. specialize (Hres i t Hi). rewrite <- Ht, Hm in Hres.
    by rewrite orb_true_r in Hres.
  - apply sorted_lt_NoDup, (sorted_keys tree_mount_path).
    apply Sorted_StronglySorted; [intros ???; apply bytes_lt_trans|].
    eapply windows_any_Sorted with (p := λ a b, bytes_ge (tree_mount_path a) (tree_mount_path b));
      [intros; apply bytes_ge_false|].
    revert Hsort. generalize (manifest_runtime_trees m). intros l.
    induction l as [|x [|y l] IH]; [done..|]. cbn [windows_any].
    rewrite !orb_false_iff. intros [[? _] ?]. auto.
Qed.

Lemma entry_at_mount t p e : entry_at t p e → ∃ rest, p = tree_mount_path t ++ rest.
Proof. intros [_ [[-> _]| ->]]; [exists []; by rewrite app_nil_r|eauto]. Qed.

Lemma fmap_NoDup_inj {A B} (f : A → B) l x y :
  NoDup (f <$> l) → x ∈ l → y ∈ l → f x = f y → x = y.
Proof.
  intros Hn [i Hi]%list_elem_of_lookup [j Hj]%list_elem_of_lookup Hf.
  assert (i = j) as ->; [|congruence].
  eapply NoDup_lookup; [exact Hn|rewrite list_lookup_fmap, Hi; done|].
  rewrite list_lookup_fmap, Hj, Hf. done.
Qed.

(** At one path the mounts of the trees that have an entry differ in length. *)
Lemma entry_at_unique m p t t' e e' :
  Forall (λ t, NoDup (path <$> tree_entries t)) (manifest_trees m) →
  NoDup (tree_mount_path <$> manifest_trees m) →
  t ∈ manifest_trees m → t' ∈ manifest_trees m → entry_at t p e → entry_at t' p e' →
  len (tree_mount_path t') = len (tree_mount_path t) → t' = t ∧ e' = e.
Proof.
  intros Hn Hm Ht Ht' He He' Hl. rewrite list.Forall_forall in Hn.
  destruct (entry_at_mount t p e He) as [r Hr], (entry_at_mount t' p e' He') as [r' Hr'].
  assert (t' = t) as ->.
  { apply (fmap_NoDup_inj tree_mount_path (manifest_trees m)); [done..|].
    rewrite Hr in Hr'. apply app_inj_1 in Hr' as [? _]; [done|]. unfold len in Hl. lia. }
  split; [done|]. pose proof (Hn t Ht) as Hnt.
  assert (Some (len (tree_mount_path t), e') = Some (len (tree_mount_path t), e)); [|congruence].
  rewrite <- (proj2 (tree_entry_at_Some p t _ e Hnt)) by done.
  by rewrite <- (proj2 (tree_entry_at_Some p t _ e' Hnt)).
Qed.

(** The entry a valid manifest has at a sandbox path is the one of the tree
    with the longest mount among the trees that have an entry there: at most
    one tree qualifies, and the lookup returns nothing exactly when no tree has
    an entry at the path. *)
Theorem manifest_entry_exact `{Blake3} (m : SnapshotManifestV1) (p : list Z)
    (r : option ManifestEntryV1) :
  SnapshotManifestV1_validate m = Ok () →
  manifest_entry_for_sandbox_path m p = r ↔
  match r with
  | Some e => ∃ t, t ∈ manifest_trees m ∧ entry_at t p e ∧
      ∀ t' e', t' ∈ manifest_trees m → entry_at t' p e' →
        t' = t ∧ e' = e ∨ len (tree_mount_path t') < len (tree_mount_path t)
  | None => ∀ t e, t ∈ manifest_trees m → ¬ entry_at t p e
  end.
Proof.
  intros [Hn Hm]%manifest_validate_trees.
  unfold manifest_entry_for_sandbox_path. change (_ :: manifest_runtime_trees m) with (manifest_trees m).
  assert (∀ n e, (n, e) ∈ omap (tree_entry_at p) (manifest_trees m) ↔
    ∃ t, t ∈ manifest_trees m ∧ n = len (tree_mount_path t) ∧ entry_at t p e) as Hin.
  { intros n e. rewrite list_elem_of_omap. rewrite list.Forall_forall in Hn.
    split; intros (t & Ht & He); exists t; (split; [done|]); by apply tree_entry_at_Some; [apply Hn|]. }
  destruct (max_by_mount None _) as [[n e]|] eqn:Hmax; cbn.
  - apply max_by_mount_Some in Hmax as [[?|Hmem] Hall]; [done|].
    apply Hin in Hmem as (t & Ht & -> & He).
    assert (∀ t' e', t' ∈ manifest_trees m → entry_at t' p e' →
      t' = t ∧ e' = e ∨ len (tree_mount_path t') < len (tree_mount_path t)) as Hmaxi.
    { intros t' e' Ht' He'. assert (len (tree_mount_path t') <= len (tree_mount_path t)).
      { apply (Hall (len (tree_mount_path t'), e')). right. apply Hin. eauto. }
      destruct (Z.eq_dec (len (tree_mount_path t')) (len (tree_mount_path t))); [left|right; lia].
      by eapply entry_at_unique. }
    split; [intros <-; eauto|]. destruct r as [e'|].
    + intros (t' & Ht' & He' & Hall'). f_equal.
      destruct (Hall' t e Ht He) as [[-> ->]|?]; [done|].
      destruct (Hmaxi t' e' Ht' He') as [[-> ->]|?]; [done|lia].
    + intros Hno. by destruct (Hno t e Ht).
  - apply max_by_mount_None in Hmax as [_ Hmax]. rewrite Hmax in Hin.
    assert (∀ t e, t ∈ manifest_trees m → ¬ entry_at t p e) as Hno.
    { intros t e Ht He. apply (not_elem_of_nil (len (tree_mount_path t), e)). apply Hin. eauto. }
    split; [by intros <-|]. destruct r as [e|]; [|done].
    intros (t & Ht & He & _). by destruct (Hno t e Ht).
Qed.

Lemma manifest_entry_exact_witness :
  ∃ t, t ∈ manifest_trees PromotionSample.manifest ∧
    entry_at t Sample.python PromotionSample.python_entry.
Proof.
  assert (SnapshotManifestV1_validate PromotionSample.manifest = Ok ()) as Hv by (vm_compute; reflexivity).
  assert (manifest_entry_for_sandbox_path PromotionSample.manifest Sample.python
    = Some PromotionSample.python_entry) as He by (vm_compute; reflexivity).
  destruct (proj1 (manifest_entry_exact PromotionSample.manifest Sample.python _ Hv) He)
    as (t & Ht & Hat & _).
  exists t. exact (conj Ht Hat).
Defined.

(** ** Candidates *)

(** The reference to an object of the content store. *)
Definition cas_blob `{Blake3} (bytes : list Z) : BlobRefV2 :=
  mkBlobRef (Blake3Digest_derive CAS_OBJECT_DOMAIN [bytes]) (len bytes).

(** A hop of an executable chain as the manifest has it. *)
Definition hop_in_manifest (m : SnapshotManifestV1) (hop : ExecutableHopV1) : Prop :=
  ∃ e, manifest_entry_for_sandbox_path m (hop_path hop) = Some e ∧
    entry_node_digest e = hop_node_digest hop ∧
    match hop_resolution hop with
    | Hops.Symlink raw_target _ => entry_payload e = Payloads.Symlink raw_target
    | Hops.TerminalRegular => kind e = EntryKinds.Regular
    end.

Lemma validate_hop_entry_Ok m hop : validate_hop_entry m hop = Ok () ↔ hop_in_manifest m hop.
Proof.
  unfold validate_hop_entry, hop_in_manifest.
  destruct (manifest_entry_for_sandbox_path m (hop_path hop)) as [e|]; cbn [ok_or].
  2: { split; [done|]. by intros (? & ? & _). }
  rewrite bind_Ok. destruct (bytes_eqb _ _) eqn:Hd; cbn [negb].
  2: { split; [done|]. intros (? & [= <-] & Hx%bytes_eqb_eq & _). congruence. }
  apply bytes_eqb_eq in Hd.
  destruct (hop_resolution hop) as [raw next|], (entry_payload e) eqn:He; cbn;
    try (split; [done|]; intros (? & [= <-] & _ & Hx); rewrite He in Hx; done).
  - destruct (bytes_eqb raw target) eqn:Hb.
    + apply bytes_eqb_eq in Hb as ->. split; [by eauto|done].
    + split; [done|]. intros (? & [= <-] & _ & Hx). rewrite He in Hx. injection Hx as ->.
      by rewrite bytes_eqb_refl in Hb.
  - split; [|done]. intros _. exists e. by rewrite He.
Qed.

Lemma validate_hop_entries_Ok m hops :
  validate_hop_entries m hops = Ok () ↔ Forall (hop_in_manifest m) hops.
Proof.
  induction hops as [|h hops IH]; cbn; [by split; [constructor|]|].
  rewrite list.Forall_cons, <- IH, <- validate_hop_entry_Ok. split.
  - by intros ([] & ? & ?)%result_bind_Ok.
  - by intros [-> ?].
Qed.

Section candidates.
Context `{Blake3}.

Lemma chain_decoded_valid s chain :
  ShapeV1_executable_chain s = Ok chain → ExecutableChainV1_validate chain = Ok ().
Proof.
  unfold ShapeV1_executable_chain, ExecutableChainV1_from_canonical_bytes. intros Hd.
  repeat apply result_bind_Ok in Hd as (? & ? & Hd). injection Hd as <-.
  match goal with E : ExecutableChainV1_canonical_bytes _ = Ok _ |- _ =>
    unfold ExecutableChainV1_canonical_bytes in E; by apply result_bind_Ok in E as ([] & ? & _) end.
Qed.

Lemma record_from_bytes rb c :
  is_bytes rb →
  CanonicalEffectRecordV2_from_canonical_bytes rb = Ok c ↔
  ∃ r, decode_record rb = Ok r ∧ c = mkCanonicalRecord r rb (cas_blob rb).
Proof.
  intros Hb. unfold CanonicalEffectRecordV2_from_canonical_bytes, CanonicalEffectRecordV2_from_record.
  assert (∀ r, decode_record rb = Ok r →
    EffectRecordV2_canonical_bytes r = Ok rb ∧ len rb <= EFFECT_IR_V2_MAX_CANONICAL_BYTES) as Hd.
  { intros r Hr. assert (is_sized rb) as Hs by exact (parse_top_sized rb _ r Hb Hr).
    destruct (nested_sound (wf:=valid_record) rb r Hs Hr) as [_ ?]. by destruct Hs. }
  destruct (decode_record rb) as [r|]; [|split; [done|by intros (? & ? & _)]].
  destruct (Hd r eq_refl) as [He Hl]. rewrite bind_Ok, He, bind_Ok.
  rewrite (proj2 (try_width_Ok _ _ _ (len rb))), !bind_Ok by (split; [done|size_lia]).
  cbn [canonical_record_bytes]. rewrite bytes_eqb_refl. cbn [negb]. split.
  - intros [= <-]. eauto.
  - by intros (? & [= <-] & ->).
Qed.

Lemma manifest_from_bytes mb c :
  is_bytes mb →
  VerifiedSnapshotManifestV1_from_canonical_bytes mb = Ok c ↔
  ∃ m, decode_snapshot_manifest mb = Ok m ∧ c = mkVerifiedManifest m mb (cas_blob mb).
Proof.
  intros Hb. unfold VerifiedSnapshotManifestV1_from_canonical_bytes,
    VerifiedSnapshotManifestV1_from_manifest.
  assert (∀ m, decode_snapshot_manifest mb = Ok m →
    SnapshotManifestV1_canonical_bytes m = Ok mb ∧ len mb <= EFFECT_IR_V2_MAX_CANONICAL_BYTES) as Hd.
  { intros m Hm. assert (is_sized mb) as Hs by exact (parse_top_sized mb _ m Hb Hm).
    destruct (nested_sound (wf:=valid_manifest) mb m Hs Hm) as [_ ?]. by destruct Hs. }
  destruct (decode_snapshot_manifest mb) as [m|]; [|split; [done|by intros (? & ? & _)]].
  destruct (Hd m eq_refl) as [He Hl]. rewrite bind_Ok, He, bind_Ok.
  rewrite (proj2 (try_width_Ok _ _ _ (len mb))), !bind_Ok by (split; [done|size_lia]).
  cbn [verified_canonical_bytes]. rewrite bytes_eqb_refl. cbn [negb]. split.
  - intros [= <-]. eauto.
  - by intros (? & [= <-] & ->).
Qed.

(** What a record and its manifest share. *)
Record candidate_matches (r : EffectRecordV2) (m : SnapshotManifestV1) (blob : BlobRefV2) : Prop := {
  cm_disposition : record_disposition r ≠ ExecutedOnly;
  cm_blob : snapshot_manifest_blob (record_sealed_snapshot r) = blob;
  cm_workspace_root : snapshot_workspace_root (record_sealed_snapshot r) = manifest_workspace_root m;
  cm_runtime_root : snapshot_runtime_root (record_sealed_snapshot r) = manifest_runtime_root m;
  cm_snapshot_profile : snapshot_profile_digest (record_sealed_snapshot r) = manifest_profile_digest m;
  cm_profile : record_profile_digest r = manifest_profile_digest m;
  cm_workspace : record_workspace_identity r = manifest_workspace_identity m;
}.

Lemma candidate_new_Ok r rb m mb c :
  EffectRecordV2_validate r = Ok () → SnapshotManifestV1_validate m = Ok () →
  VerifiedCandidateRecordV2_new (mkCanonicalRecord r rb (cas_blob rb))
    (mkVerifiedManifest m mb (cas_blob mb)) = Ok c ↔
  c = mkVerifiedCandidate (mkCanonicalRecord r rb (cas_blob rb)) (mkVerifiedManifest m mb (cas_blob mb)) ∧
  candidate_matches r m (cas_blob mb) ∧
  ∃ chain, ShapeV1_executable_chain (record_shape r) = Ok chain ∧
    Forall (hop_in_manifest m) (chain_hops chain).
Proof.
  intros Hr Hm. unfold VerifiedCandidateRecordV2_new, matches_identity.
  cbn [canonical_record verified_manifest verified_blob]. cbv zeta.
  destruct (ShapeV1_executable_chain (record_shape r)) as [chain|] eqn:Hc.
  2: { split; [done|]. by intros (_ & _ & ? & ? & _). }
  rewrite bind_Ok. case_match eqn:Hcond.
  - split; [done|]. intros (_ & [Hd Hb Hw Hrt Hp Hp' Hwi] & _). exfalso. revert Hcond.
    rewrite Hb, Hw, Hrt, Hp, Hp', Hwi. rewrite (proj2 (complete_candidate_iff r)), !bytes_eqb_refl, bool_decide_true.
    + done.
    + done.
    + split; [done|]. by destruct (record_disposition r).
  - rewrite !orb_false_iff, !negb_false_iff, !andb_true_iff, !bytes_eqb_eq, bool_decide_eq_true,
      complete_candidate_iff in Hcond.
    destruct Hcond as [[[[[[_ Hd] [[[Hb Hw] Hrt] Hsp]] Hwi] Hp] _] _].
    unfold validate_against_manifest. rewrite (chain_decoded_valid _ _ Hc), Hm, !bind_Ok.
    assert (candidate_matches r m (cas_blob mb)).
    { constructor; try done. intros Hx. by rewrite Hx in Hd. }
    destruct (validate_hop_entries m (chain_hops chain)) as [[]|] eqn:Hv; cbn.
    + apply validate_hop_entries_Ok in Hv. split; [intros [= <-]; eauto|by intros (-> & _)].
    + split; [done|]. intros (_ & _ & ? & [= <-] & Hf). apply validate_hop_entries_Ok in Hf. congruence.
Qed.
End candidates.

Lemma verified_candidate_iff `{Blake3} (record_bytes manifest_bytes : list Z)
    (c : VerifiedCandidateRecordV2) :
  is_bytes record_bytes → is_bytes manifest_bytes →
  VerifiedCandidateRecordV2_from_canonical_bytes record_bytes manifest_bytes = Ok c ↔
  ∃ r m chain,
    decode_record record_bytes = Ok r ∧ decode_snapshot_manifest manifest_bytes = Ok m ∧
    c = mkVerifiedCandidate (mkCanonicalRecord r record_bytes (cas_blob record_bytes))
          (mkVerifiedManifest m manifest_bytes (cas_blob manifest_bytes)) ∧
    candidate_matches r m (cas_blob manifest_bytes) ∧
    ShapeV1_executable_chain (record_shape r) = Ok chain ∧
    Forall (hop_in_manifest m) (chain_hops chain).
Proof.
  intros Hrb Hmb. unfold VerifiedCandidateRecordV2_from_canonical_bytes.
  assert (∀ r m, decode_record record_bytes = Ok r → decode_snapshot_manifest manifest_bytes = Ok m →
    EffectRecordV2_validate r = Ok () ∧ SnapshotManifestV1_validate m = Ok ()) as Hv.
  { intros r m Hr Hm.
    destruct (nested_sound (wf:=valid_record) _ _ (parse_top_sized _ _ _ Hrb Hr) Hr) as [[_ ?] _].
    destruct (nested_sound (wf:=valid_manifest) _ _ (parse_top_sized _ _ _ Hmb Hm) Hm) as [[_ ?] _].
    done. }
  split.
  - intros (cr & Hcr & (cm & Hcm & Hn)%result_bind_Ok)%result_bind_Ok.
    apply record_from_bytes in Hcr as (r & Hr & ->); [|done].
    apply manifest_from_bytes in Hcm as (m & Hm & ->); [|done].
    destruct (Hv r m Hr Hm). apply candidate_new_Ok in Hn as (? & ? & chain & ? & ?); [|done..].
    exists r, m, chain. done.
  - intros (r & m & chain & Hr & Hm & -> & Hmatch & Hc & Hf). destruct (Hv r m Hr Hm).
    rewrite (proj2 (record_from_bytes _ (mkCanonicalRecord r _ _) Hrb)), bind_Ok by eauto.
    rewrite (proj2 (manifest_from_bytes _ (mkVerifiedManifest m _ _) Hmb)), bind_Ok by eauto.
    apply candidate_new_Ok; [done..|]. eauto.
Qed.

(** A record and a manifest given as bytes become a verified candidate
    exactly when both decode, the record is a candidate, its snapshot names the
    manifest by the digest and length of its bytes and has its roots, profile
    and workspace, and every hop of the record's executable chain is the entry
    the manifest has at that path, with that digest and that link target. *)
Theorem verified_candidate_exact `{Blake3} (record_bytes manifest_bytes : list Z)
    (c : VerifiedCandidateRecordV2) :
  is_bytes record_bytes → is_bytes manifest_bytes →
  VerifiedCandidateRecordV2_from_canonical_bytes record_bytes manifest_bytes = Ok c ↔
  ∃ r m chain,
    decode_record record_bytes = Ok r ∧ decode_snapshot_manifest manifest_bytes = Ok m ∧
    c = mkVerifiedCandidate (mkCanonicalRecord r record_bytes (cas_blob record_bytes))
          (mkVerifiedManifest m manifest_bytes (cas_blob manifest_bytes)) ∧
    candidate_matches r m (cas_blob manifest_bytes) ∧
    ShapeV1_executable_chain (record_shape r) = Ok chain ∧
    Forall (hop_in_manifest m) (chain_hops chain).
Proof. apply verified_candidate_iff. Qed.

Lemma verified_candidate_exact_witness :
  ∃ r m chain, decode_record PromotionSample.primary_bytes = Ok r ∧
    decode_snapshot_manifest PromotionSample.manifest_bytes = Ok m ∧
    ShapeV1_executable_chain (record_shape r) = Ok chain ∧
    Forall (hop_in_manifest m) (chain_hops chain).
Proof.
  destruct PromotionSample.promoted as (p & _ & _ & Hp & _).
  destruct PromotionSample.bytes_facts as (Hpb & _ & Hmb).
  apply (verified_candidate_exact _ _ _ Hpb Hmb) in Hp as (r & m & chain & Hr & Hm & _ & _ & Hc & Hf).
  exists r, m, chain. exact (conj Hr (conj Hm (conj Hc Hf))).
Defined.

(** ** Promotion *)

Lemma promoted_pair_Ok `{Blake3} p s ns pair :
  PromotedPairV2_new p s ns = Ok pair →
  pair_promoted_monotonic_ns pair = ns ∧ 0 ≠ ns ∧
  record_created_monotonic_ns (candidate_record p) <= ns ∧
  record_created_monotonic_ns (candidate_record s) <= ns ∧
  pair_primary_record_id pair = record_id (candidate_record p) ∧
  pair_shadow_record_id pair = record_id (candidate_record s) ∧
  pair_shape_key pair = record_shape_key (candidate_record p) ∧
  pair_request_key pair = record_request_key (candidate_record p) ∧
  pair_comparison_digest (candidate_canonical p) (candidate_canonical s) = Ok (pair_comparison pair).
Proof.
  unfold PromotedPairV2_new. intros (d & Hd & Hp)%result_bind_Ok. revert Hp. case_match eqn:Ht; [done|].
  intros (class & _ & (key & _ & [= <-])%result_bind_Ok)%result_bind_Ok. cbn.
  rewrite !orb_false_iff, Z.eqb_neq, !Z.ltb_ge in Ht. split_and!; try done; lia.
Qed.

(** C20. Promotion pairs two runs of one thing: when two candidates read from
    bytes form a promoted pair, their records differ in identity, agree on
    everything compared, carry the pair's keys, and were recorded over the same
    manifest, unless the two manifests' bytes collide. The pair is not older
    than either record. *)
Theorem promoted_pair_same_run `{Blake3} (rb mb rb' mb' : list Z)
    (p s : VerifiedCandidateRecordV2) (ns : Z) (pair : PromotedPairV2) :
  is_bytes rb → is_bytes mb → is_bytes rb' → is_bytes mb' →
  VerifiedCandidateRecordV2_from_canonical_bytes rb mb = Ok p →
  VerifiedCandidateRecordV2_from_canonical_bytes rb' mb' = Ok s →
  PromotedPairV2_new p s ns = Ok pair →
  (cas_blob mb = cas_blob mb' → mb = mb') →
  verified_manifest (candidate_manifest p) = verified_manifest (candidate_manifest s) ∧
  comparison_view (candidate_record p) = comparison_view (candidate_record s) ∧
  record_disposition (candidate_record p) = PrimaryCandidate ∧
  record_disposition (candidate_record s) = ShadowCandidate ∧
  record_primary_record_id (candidate_record s) = Some (pair_primary_record_id pair) ∧
  pair_primary_record_id pair ≠ pair_shadow_record_id pair ∧
  pair_shape_key pair = record_shape_key (candidate_record s) ∧
  pair_request_key pair = record_request_key (candidate_record s) ∧
  record_created_monotonic_ns (candidate_record p) <= ns ∧
  record_created_monotonic_ns (candidate_record s) <= ns.
Proof.
  intros Hrb Hmb Hrb' Hmb' Hp Hs Hpair Hcol.
  apply verified_candidate_iff in Hp as (r & m & _ & Hr & Hm & -> & Hmatch & _); [|done..].
  apply verified_candidate_iff in Hs as (r' & m' & _ & Hr' & Hm' & -> & Hmatch' & _); [|done..].
  pose proof Hpair as (_ & _ & ? & ? & -> & -> & -> & -> & Hd)%promoted_pair_Ok.
  destruct (nested_sound (wf:=valid_record) _ _ (parse_top_sized _ _ _ Hrb Hr) Hr) as [[Hw _] _].
  destruct (nested_sound (wf:=valid_record) _ _ (parse_top_sized _ _ _ Hrb' Hr') Hr') as [[Hw' _] _].
  apply pair_comparison_iff in Hd as ((Hdp & Hds & _ & Vs & Hl & _) & Hview & _); [|done..].
  cbn in *. pose proof (shadow_primary_differs _ _ Vs Hds Hl) as Hne.
  assert (cas_blob mb = cas_blob mb') as Hblob.
  { rewrite <- (cm_blob _ _ _ Hmatch), <- (cm_blob _ _ _ Hmatch').
    exact (f_equal (λ v, cs_manifest_blob (cv_sealed_snapshot v)) Hview). }
  rewrite <- (Hcol Hblob) in Hm'. assert (m = m') as -> by congruence.
  split_and!; try done.
  - exact (f_equal cv_shape_key Hview).
  - exact (f_equal cv_request_key Hview).
Qed.

Lemma promoted_pair_same_run_witness :
  ∃ p s, comparison_view (candidate_record p) = comparison_view (candidate_record s) ∧
    verified_manifest (candidate_manifest p) = verified_manifest (candidate_manifest s).
Proof.
  destruct PromotionSample.promoted as (p & s & pair & Hp & Hs & Hpair).
  destruct PromotionSample.bytes_facts as (Hpb & Hsb & Hmb).
  destruct (promoted_pair_same_run _ _ _ _ p s 11 pair Hpb Hmb Hsb Hmb Hp Hs Hpair (λ _, eq_refl))
    as (Hm & Hv & _).
  exists p, s. exact (conj Hv Hm).
Defined.
