(* ===== verification/PathModel.v ===== *)
(** * Unix paths of the Rust standard library

    What the sources use of [std::path] on Unix: a path is its bytes, its
    components skip empty parts and every dot but a leading one. The result of
    [strip_prefix] is given by its components, the only part of it the callers
    look at. *)

From Stdlib Require Import String.
From S2P Require Import Prelude Monad Bytes ContractTypes Canonical CanonicalSpec CanonicalCodec.
From S2P Require Import RecordTypes Paths.

Module Components.
Inductive Component := RootDir | CurDir | ParentDir | Normal (name : list Z).

#[export] Instance Component_eq_dec : EqDecision Component.
Proof. solve_decision. Defined.
End Components.
Export (hints) Components.
Abbreviation Component := Components.Component.
Import Components.

(** A part between slashes that is not the first of a relative path. *)
Definition body_component (part : list Z) : option Component :=
  if bytes_eqb part [] || bytes_eqb part DOT then None
  else if bytes_eqb part DOTDOT then Some ParentDir
  else Some (Normal part).

Definition is_absolute (path : list Z) : bool := starts_with [SLASH] path.

Definition components (path : list Z) : list Component :=
  if is_absolute path then RootDir :: omap body_component (split_on SLASH path)
  else match split_on SLASH path with
  | first :: rest =>
    (if bytes_eqb first DOT then [CurDir] else option_list (body_component first))
      ++ omap body_component rest
  | [] => []
  end.

(** [Path::file_name]. *)
Definition file_name (path : list Z) : option (list Z) :=
  match list.last (components path) with
  | Some (Normal name) => Some name
  | _ => None
  end.

(** [Path::join]. *)
Definition path_join (path other : list Z) : list Z :=
  if is_absolute other then other
  else if bytes_eqb path [] || ends_with [SLASH] path then path ++ other
  else path ++ [SLASH] ++ other.

Fixpoint strip_components (base path : list Component) : option (list Component) :=
  match base, path with
  | [], _ => Some path
  | b :: base, c :: path => if bool_decide (b = c) then strip_components base path else None
  | _ :: _, [] => None
  end.

(** [path.starts_with(base)]. *)
Definition path_starts_with (base path : list Z) : bool :=
  bool_decide (is_Some (strip_components (components base) (components path))).

(** The components of [rest.join(value)], for the components of a relative
    path [rest]: a dot in front of [value] is not leading after a join. *)
Definition joined_components (rest : list Component) (value : list Z) : list Component :=
  if is_absolute value then components value
  else match rest, components value with
  | _ :: _, CurDir :: tail => rest ++ tail
  | _, parts => rest ++ parts
  end.

Definition normal_name (c : Component) : option (list Z) :=
  match c with Normal name => Some name | _ => None end.

(** ** Facts *)

Lemma strip_components_Some base path rest :
  strip_components base path = Some rest ↔ path = base ++ rest.
Proof.
  revert path; induction base as [|b base IH]; intros [|c path]; cbn; try (by naive_solver).
  case_bool_decide; subst; [|naive_solver]. rewrite IH. naive_solver.
Qed.

Lemma path_starts_with_iff base path :
  path_starts_with base path = true ↔ ∃ rest, components path = components base ++ rest.
Proof.
  unfold path_starts_with. rewrite bool_decide_eq_true. unfold is_Some.
  by setoid_rewrite strip_components_Some.
Qed.

Lemma body_component_normal part c :
  body_component part = Some c → c = ParentDir ∨ c = Normal part ∧ plain_component part = true.
Proof.
  unfold body_component, plain_component. destruct (bytes_eqb part []), (bytes_eqb part DOT),
    (bytes_eqb part DOTDOT); naive_solver.
Qed.

(** Splitting gives parts without the separator. *)
Lemma split_on_parts separator l : Forall (λ part, separator ∉ part) (split_on separator l).
Proof.
  induction l as [|b l IH]; cbn; [by repeat constructor; apply not_elem_of_nil|].
  destruct (Z.eqb_spec b separator).
  - constructor; [apply not_elem_of_nil|done].
  - destruct (split_on separator l) as [|part parts]; inversion_clear IH; constructor; try done;
      apply not_elem_of_cons; (split; [done|]); try done. apply not_elem_of_nil.
Qed.

(** A name of a component is a plain name without a slash. *)
Definition component_name (name : list Z) : Prop := plain_component name = true ∧ (SLASH ∉ name).

Lemma components_names path name : Normal name ∈ components path → component_name name.
Proof.
  pose proof (split_on_parts SLASH path) as Hp. rewrite list.Forall_forall in Hp.
  assert (∀ part, part ∈ split_on SLASH path → body_component part = Some (Normal name) →
    component_name name) as Hb.
  { intros part Hin [?|[[= ->] ?]]%body_component_normal; [done|]. split; [done|by apply Hp]. }
  unfold components. destruct (is_absolute path).
  - intros [?|(part & ? & ?)%list_elem_of_omap]%elem_of_cons; [done|eauto].
  - destruct (split_on SLASH path) as [|first rest]; [by intros ?%not_elem_of_nil|].
    intros [Hf|(part & ? & ?)%list_elem_of_omap]%elem_of_app.
    + destruct (bytes_eqb first DOT); [by apply list_elem_of_singleton in Hf|].
      destruct (body_component first) as [c|] eqn:Hc; [|by apply not_elem_of_nil in Hf].
      apply list_elem_of_singleton in Hf as <-. apply (Hb first); [left|done].
    + apply (Hb part); [by right|done].
Qed.

(** Splitting undoes joining. *)
Lemma split_on_ne separator l : split_on separator l ≠ [].
Proof.
  destruct l as [|b l]; [done|]. cbn. destruct (b =? separator); [done|]. by destruct (split_on separator l).
Qed.

Lemma split_on_app separator l rest :
  split_on separator (l ++ separator :: rest) = split_on separator l ++ split_on separator rest.
Proof.
  induction l as [|b l IH]; cbn; [by rewrite Z.eqb_refl|]. rewrite IH.
  destruct (b =? separator); [done|]. pose proof (split_on_ne separator l).
  by destruct (split_on separator l).
Qed.

Lemma split_on_single separator part : (separator ∉ part) → split_on separator part = [part].
Proof.
  induction part as [|b part IH]; cbn; [done|].
  rewrite not_elem_of_cons. intros [Hb Hn]. rewrite (proj2 (Z.eqb_neq b separator)) by congruence.
  by rewrite IH.
Qed.

Lemma split_on_cons separator part rest : (separator ∉ part) →
  split_on separator (part ++ separator :: rest) = part :: split_on separator rest.
Proof. intros Hp. by rewrite split_on_app, split_on_single. Qed.

Lemma split_join names :
  names ≠ [] → Forall component_name names → split_on SLASH (join_components names) = names.
Proof.
  intros Hne Hf. induction Hf as [|name names [_ Hs] Hf IH]; [done|].
  destruct names as [|n names]; [by apply split_on_single|].
  change (join_components (name :: n :: names)) with (name ++ [SLASH] ++ join_components (n :: names)).
  cbn [app]. rewrite split_on_cons by done. by rewrite IH.
Qed.

Lemma body_component_plain name :
  component_name name → body_component name = Some (Normal name) ∧ bytes_eqb name DOT = false.
Proof.
  intros [Hp _]. unfold plain_component in Hp. rewrite !andb_true_iff, !negb_true_iff in Hp.
  destruct Hp as [[Hn Hd] Hdd]. unfold body_component. by rewrite Hn, Hd, Hdd.
Qed.

Lemma ends_with_single b l : ends_with [b] l = true → ∃ l', l = l' ++ [b].
Proof.
  unfold ends_with, starts_with. destruct l as [|x l _] using rev_ind; [done|].
  rewrite reverse_snoc. cbn. destruct (Z.eqb_spec b x) as [<-|]; [by eexists|done].
Qed.

(** The components of a directory's entry. *)
Lemma components_entry directory name : directory ≠ [] → component_name name →
  components (path_join directory name) = components directory ++ [Normal name].
Proof.
  intros Hd Hn. pose proof (body_component_plain name Hn) as [Hb _].
  assert (∃ d, (d = directory ∨ directory = d ++ [SLASH]) ∧ path_join directory name = d ++ SLASH :: name)
    as (d & Hdir & ->).
  { unfold path_join. replace (is_absolute name) with false.
    - destruct (bytes_eqb directory []) eqn:He; [by destruct directory|]. cbn [orb].
      destruct (ends_with [SLASH] directory) eqn:Hs; [|by exists directory; auto].
      apply ends_with_single in Hs as [d ->]. exists d. rewrite <- app_assoc. auto.
    - destruct Hn as [_ Hs]. destruct name as [|b name]; [done|].
      apply not_elem_of_cons in Hs as [Hs _]. unfold is_absolute, starts_with. cbn [strip_prefix].
      by rewrite (proj2 (Z.eqb_neq SLASH b)). }
  assert (is_absolute (d ++ SLASH :: name) = is_absolute directory) as Ha.
  { unfold is_absolute, starts_with. destruct Hdir as [->| ->].
    - destruct directory as [|b directory]; [done|]. cbn [app strip_prefix]. by destruct (SLASH =? b).
    - destruct d as [|b d]; [done|]. cbn [app strip_prefix]. by destruct (SLASH =? b). }
  assert (omap body_component (split_on SLASH (d ++ SLASH :: name))
    = omap body_component (split_on SLASH directory) ++ [Normal name]) as Ho.
  { rewrite split_on_app, omap_app, (split_on_single SLASH name) by apply Hn. csimpl. rewrite Hb.
    destruct Hdir as [->| ->]; [done|]. by rewrite split_on_app, omap_app, app_nil_r. }
  unfold components. rewrite Ha. destruct (is_absolute directory); [by rewrite Ho|].
  revert Ho. rewrite split_on_app, (split_on_single SLASH name) by apply Hn.
  assert (split_on SLASH directory = split_on SLASH d ∨ split_on SLASH directory = split_on SLASH d ++ [[]])
    as Hs by (destruct Hdir as [->| ->]; [by left|right; by rewrite split_on_app]).
  pose proof (split_on_ne SLASH d). destruct (split_on SLASH d) as [|first rest]; [done|]. intros _.
  destruct Hs as [-> | ->]; cbn [app]; rewrite <- app_assoc, !omap_app; csimpl; rewrite Hb;
    by rewrite ?app_nil_r.
Qed.
