(* ===== verification/Policy.v ===== *)
(** * The admission policy for commands

    [src/src/policy.rs]: which raw commands of the shell tool may be answered
    from the cache, and which part of the workspace their result depends on. A
    string is its UTF-8 bytes. The file system is a parameter, as one
    classification sees it; so is the word splitting of the crate
    [shell_words]. *)

From Stdlib Require Import String.
From S2P Require Import Prelude Monad Bytes ContractTypes Canonical CanonicalSpec CanonicalCodec.
From S2P Require Import RecordTypes Paths RecordValidation PathModel.
Import Components.

(** ** Parameters *)

(** What [std::fs] answers: [canonicalize], whether [symlink_metadata] succeeds
    on a symbolic link, and [is_dir]. *)
Class FileSystem := {
  canonicalize : list Z → option (list Z);
  is_symlink : list Z → bool;
  is_dir : list Z → bool;
}.

(** [shell_words::split]. *)
Class ShellWords := shell_words_split : list Z → option (list (list Z)).

(** ** Strings *)

Definition one_of (options : list string) (s : list Z) : bool :=
  existsb (λ o, bytes_eqb s (bstr o)) options.

(** [str::contains] of a set of ASCII characters. *)
Definition contains_any (set : string) (s : list Z) : bool :=
  any (λ b, contains b s) (bstr set).

Fixpoint contains_infix (needle s : list Z) : bool :=
  starts_with needle s
  || match s with [] => false | _ :: s => contains_infix needle s end.

(** The rest of a string after one character with the property [White_Space]. *)
Definition whitespace_prefix (s : list Z) : option (list Z) :=
  match s with
  | 0xc2 :: b :: s => if (b =? 0x85) || (b =? 0xa0) then Some s else None
  | 0xe1 :: 0x9a :: 0x80 :: s => Some s
  | 0xe2 :: 0x80 :: b :: s =>
    if (0x80 <=? b) && (b <=? 0x8a) || (b =? 0xa8) || (b =? 0xa9) || (b =? 0xaf)
    then Some s else None
  | 0xe2 :: 0x81 :: 0x9f :: s => Some s
  | 0xe3 :: 0x80 :: 0x80 :: s => Some s
  | b :: s => if (9 <=? b) && (b <=? 13) || (b =? 32) then Some s else None
  | [] => None
  end.

(** [s.trim().is_empty()]; every round consumes a byte. *)
Fixpoint blank (fuel : nat) (s : list Z) : bool :=
  match s, fuel with
  | [], _ => true
  | _, O => false
  | _, S fuel => match whitespace_prefix s with Some s => blank fuel s | None => false end
  end.

Definition trim_is_empty (s : list Z) : bool := blank (length s) s.

Definition DASH : list Z := bstr "-".

Definition starts_with_dash (s : list Z) : bool := starts_with DASH s.

(** ** Decisions *)

Module Reasons.
Inductive ReasonCode :=
| EmptyCommand | Newline | ShellComposition | ShellExpansion | GlobExpansion | ParseError
| AlreadyWrapped | ShellResolutionAmbiguous | TtyDependent | StdinDependent | AbsolutePath
| OutsideWorkspace | ExcludedRuntimePath | UnsupportedPath | MissingOperand | UnsafeFlag
| UnsafeGitSubcommand | NetworkCommand | MutatingCommand | UnsupportedCommand.

#[export] Instance ReasonCode_eq_dec : EqDecision ReasonCode.
Proof. solve_decision. Defined.

Definition ReasonCode_as_str (self : ReasonCode) : string :=
  match self with
  | EmptyCommand => "EMPTY_COMMAND"
  | Newline => "NEWLINE"
  | ShellComposition => "SHELL_COMPOSITION"
  | ShellExpansion => "SHELL_EXPANSION"
  | GlobExpansion => "GLOB_EXPANSION"
  | ParseError => "PARSE_ERROR"
  | AlreadyWrapped => "ALREADY_WRAPPED"
  | ShellResolutionAmbiguous => "SHELL_RESOLUTION_AMBIGUOUS"
  | TtyDependent => "TTY_DEPENDENT"
  | StdinDependent => "STDIN_DEPENDENT"
  | AbsolutePath => "ABSOLUTE_PATH"
  | OutsideWorkspace => "OUTSIDE_WORKSPACE"
  | ExcludedRuntimePath => "EXCLUDED_RUNTIME_PATH"
  | UnsupportedPath => "UNSUPPORTED_PATH"
  | MissingOperand => "MISSING_OPERAND"
  | UnsafeFlag => "UNSAFE_FLAG"
  | UnsafeGitSubcommand => "UNSAFE_GIT_SUBCOMMAND"
  | NetworkCommand => "NETWORK_COMMAND"
  | MutatingCommand => "MUTATING_COMMAND"
  | UnsupportedCommand => "UNSUPPORTED_COMMAND"
  end.
End Reasons.
Export (hints) Reasons.
Abbreviation ReasonCode := Reasons.ReasonCode.
Import Reasons.

Inductive AccessScope :=
| IdentityOnly
| ContentPath (path : list Z)
| RecursiveContentTree (path : list Z)
| DirectoryListing (path : list Z)
| WholeWorkspace.

(** The scopes of an access plan. *)
Record AccessPlan := mkAccessPlan { scopes : list AccessScope }.

Module Decisions.
Inductive Decision :=
| ExactReuse (argv : list (list Z)) (access_plan : AccessPlan)
| PassThrough (reason : ReasonCode)
| BypassNoStore (reason : ReasonCode).

Definition reason (self : Decision) : option ReasonCode :=
  match self with
  | ExactReuse _ _ => None
  | PassThrough reason | BypassNoStore reason => Some reason
  end.

Definition argv (self : Decision) : option (list (list Z)) :=
  match self with ExactReuse argv _ => Some argv | _ => None end.

Definition access_plan (self : Decision) : option AccessPlan :=
  match self with ExactReuse _ access_plan => Some access_plan | _ => None end.
End Decisions.
Abbreviation Decision := Decisions.Decision.

Record PolicyContext := mkPolicyContext {
  workspace : list Z;
  cwd : list Z;
  stdin_is_tty : bool;
  stdout_is_tty : bool;
  require_explicit_executable : bool;
}.

Definition PolicyContext_new (workspace cwd : list Z) : PolicyContext :=
  mkPolicyContext workspace cwd false false false.

Definition pass (reason : ReasonCode) : Decision := Decisions.PassThrough reason.
Definition bypass (reason : ReasonCode) : Decision := Decisions.BypassNoStore reason.

Definition reject_shell_syntax (raw : list Z) : option ReasonCode :=
  if contains_any ";|&<>" raw || contains_infix [92; 10] raw then Some ShellComposition
  else if contains_any "$`~(){}" raw then Some ShellExpansion
  else if contains_any "*?[]" raw then Some GlobExpansion
  else None.

Definition is_network_command (command : list Z) : bool :=
  one_of ["curl"; "wget"; "ssh"; "scp"; "sftp"; "rsync"; "nc"; "ncat"; "netcat"; "ping"; "telnet";
          "ftp"; "dig"; "nslookup"]%string command.

Definition is_mutating_command (command : list Z) : bool :=
  one_of ["rm"; "mv"; "cp"; "mkdir"; "rmdir"; "touch"; "tee"; "chmod"; "chown"; "ln"; "install";
          "sed"; "perl"; "python"; "python3"; "node"; "npm"; "pnpm"; "yarn"; "pip"; "pip3"; "cargo";
          "make"; "bash"; "sh"; "zsh"; "sudo"; "doas"]%string command.

(** ** Options *)

Module FileOptionKinds.
Inductive FileOptions := None | HeadTail | Wc | Ls.

#[export] Instance FileOptions_eq_dec : EqDecision FileOptions.
Proof. solve_decision. Defined.
End FileOptionKinds.
Export (hints) FileOptionKinds.
Abbreviation FileOptions := FileOptionKinds.FileOptions.

Definition is_ls (options : FileOptions) : bool := bool_decide (options = FileOptionKinds.Ls).
Definition is_head_tail (options : FileOptions) : bool :=
  bool_decide (options = FileOptionKinds.HeadTail).

Definition classify_pwd (argv : list (list Z)) : result ReasonCode AccessPlan :=
  match argv with
  | [_; argument] =>
    if bytes_eqb argument (bstr "-P") then Ok (mkAccessPlan [IdentityOnly]) else Err UnsafeFlag
  | _ => Err UnsafeFlag
  end.

(** [flag[1..].chars().all(...)] over ASCII characters. *)
Definition all_in (set : string) (s : list Z) : bool := forallb (λ b, contains b (bstr set)) s.

Definition safe_ls_flag (flag : list Z) : bool :=
  one_of ["-a"; "-A"; "-d"; "-F"; "-r"; "-S"; "-t"; "-1"; "--all"; "--almost-all"; "--directory";
          "--classify"; "--reverse"; "--sort=name"; "--sort=time"; "--sort=size"; "--time=mtime";
          "--color=never"]%string flag
  || (starts_with_dash flag && (2 <? len flag) && all_in "aAdFrSt1" (tail flag)).

(** The options of [ls]: the loops stop at the first operand. *)
Fixpoint ls_flags (arguments : list (list Z)) : list (list Z) :=
  match arguments with
  | [] => []
  | value :: arguments =>
    if bytes_eqb value (bstr "--") || negb (starts_with_dash value) || bytes_eqb value DASH
    then [] else value :: ls_flags arguments
  end.

Definition ls_explicitly_disables_color (argv : list (list Z)) : bool :=
  any (λ value, bytes_eqb value (bstr "--color=never")) (ls_flags (tail argv)).

Definition short_flags_contain (set : string) (flag : list Z) : bool :=
  starts_with_dash flag && negb (starts_with (bstr "--") flag) && contains_any set (tail flag).

Definition ls_option_mix_supported (argv : list (list Z)) : bool :=
  let flags := ls_flags (tail argv) in
  let includes_dot_and_dotdot :=
    any (λ flag, bytes_eqb flag (bstr "-a") || bytes_eqb flag (bstr "--all")
                 || short_flags_contain "a" flag) flags in
  let metadata_sort :=
    any (λ flag, one_of ["-t"; "-S"; "--sort=time"; "--sort=size"]%string flag
                 || short_flags_contain "tS" flag) flags in
  negb (includes_dot_and_dotdot && metadata_sort).

Definition is_digit (b : Z) : bool := (48 <=? b) && (b <=? 57).

Definition short_count (flag : list Z) : bool :=
  match flag with
  | dash :: letter :: digits =>
    (2 <? len flag) && (dash =? 45) && ((letter =? 110) || (letter =? 99)) && forallb is_digit digits
  | _ => false
  end.

(** The arguments after the option [flag :: rest]. *)
Definition consume_safe_file_option (flag : list Z) (rest : list (list Z)) (options : FileOptions) :
    result ReasonCode (list (list Z)) :=
  let safe :=
    match options with
    | FileOptionKinds.None => false
    | FileOptionKinds.HeadTail => one_of ["-q"; "-v"]%string flag
    | FileOptionKinds.Wc =>
      one_of ["-c"; "-m"; "-l"; "-w"; "-L"; "--bytes"; "--chars"; "--lines"; "--words";
              "--max-line-length"]%string flag
    | FileOptionKinds.Ls => safe_ls_flag flag
    end in
  if safe then Ok rest
  else if is_head_tail options && one_of ["-n"; "-c"; "--lines"; "--bytes"]%string flag then
    match rest with
    | [] => Err UnsafeFlag
    | value :: rest =>
      if bytes_eqb value DASH || starts_with_dash value || bytes_eqb value []
      then Err UnsafeFlag else Ok rest
    end
  else if is_head_tail options
          && (starts_with (bstr "--lines=") flag || starts_with (bstr "--bytes=") flag
              || short_count flag)
  then Ok rest
  else Err UnsafeFlag.

Definition safe_search_flag (flag : list Z) (is_rg : bool) : bool :=
  one_of ["-i"; "-n"; "-H"; "-v"; "-w"; "-x"; "-F"; "--fixed-strings"; "--ignore-case";
          "--line-number"; "--with-filename"; "--no-filename"; "--invert-match"; "--word-regexp";
          "--line-regexp"]%string flag
  || (negb is_rg && one_of ["-E"; "-h"]%string flag)
  || (is_rg && one_of ["--no-ignore"; "--no-messages"; "--count"; "-c"; "--sort=path"]%string flag).

(** ** Paths *)

Definition first_normal_component_is_git (parts : list Component) : bool :=
  match list_find (λ c, c ≠ CurDir) parts with
  | Some (_, Normal name) => bytes_eqb name (bstr ".git")
  | _ => false
  end.

Fixpoint git_lock_after (parts : list (list Z)) : bool :=
  match parts with
  | [] => false
  | part :: parts =>
    if bytes_eqb part (bstr ".git") then any (ends_with (bstr ".lock")) parts
    else git_lock_after parts
  end.

Definition is_excluded_runtime_path (path : list Z) : bool :=
  let parts := omap normal_name (components path) in
  any (λ part, bytes_eqb part (bstr ".again")) parts
  || windows_any (λ left right, bytes_eqb left (bstr ".git") && bytes_eqb right (bstr "logs")) parts
  || git_lock_after parts.

Definition leaves (c : Component) : bool :=
  match c with ParentDir | RootDir => true | CurDir | Normal _ => false end.

Section policy.
Context `{FileSystem, ShellWords}.

Definition normalize_existing_or_absolute (path : list Z) : option (list Z) :=
  if is_absolute path then Some (default path (canonicalize path)) else None.

Definition cwd_is_in_workspace (context : PolicyContext) : bool :=
  match normalize_existing_or_absolute (workspace context),
        normalize_existing_or_absolute (cwd context) with
  | Some workspace, Some cwd => path_starts_with workspace cwd
  | _, _ => false
  end.

Definition validate_path (value : list Z) (context : PolicyContext) : result ReasonCode () :=
  if bytes_eqb value [] then Err UnsupportedPath
  else if bytes_eqb value DASH then Err StdinDependent
  else if is_absolute value then Err AbsolutePath
  else if any leaves (components value) then Err OutsideWorkspace
  else if is_excluded_runtime_path value then Err ExcludedRuntimePath
  else match canonicalize (path_join (cwd context) value) with
  | None => Ok ()
  | Some resolved =>
    workspace ← ok_or (normalize_existing_or_absolute (workspace context)) OutsideWorkspace;
    if negb (path_starts_with workspace resolved) then Err OutsideWorkspace else Ok ()
  end.

(** The names of the components, or an error at one that leaves the directory. *)
Fixpoint normal_names (parts : list Component) : result ReasonCode (list (list Z)) :=
  match parts with
  | [] => Ok []
  | CurDir :: parts => normal_names parts
  | Normal name :: parts => names ← normal_names parts; Ok (name :: names)
  | (ParentDir | RootDir) :: _ => Err OutsideWorkspace
  end.

Definition workspace_relative_path (value : list Z) (context : PolicyContext) :
    result ReasonCode (list Z) :=
  _ ← validate_path value context;
  workspace ← ok_or (normalize_existing_or_absolute (workspace context)) OutsideWorkspace;
  cwd ← ok_or (normalize_existing_or_absolute (cwd context)) OutsideWorkspace;
  cwd_relative ← ok_or (strip_components (components workspace) (components cwd)) OutsideWorkspace;
  names ← normal_names (joined_components cwd_relative value);
  match names with
  | [] => Ok DOT
  | _ :: _ => Ok (join_components names)
  end.

(** ** Commands *)

Definition file_scope (options : FileOptions) (path : list Z) : AccessScope :=
  if is_ls options then DirectoryListing path else ContentPath path.

(** The loop over the arguments; [fuel] bounds its rounds by their number. *)
Fixpoint classify_file_arguments (fuel : nat) (is_tail : bool) (options : FileOptions)
    (context : PolicyContext) (arguments : list (list Z)) (operands : Z) (options_done : bool)
    (acc : list AccessScope) : result ReasonCode (Z * list AccessScope) :=
  match arguments, fuel with
  | [], _ => Ok (operands, acc)
  | _, O => Err UnsafeFlag
  | item :: rest, S fuel =>
    if negb options_done && bytes_eqb item (bstr "--") then
      classify_file_arguments fuel is_tail options context rest operands true acc
    else if bytes_eqb item DASH then Err StdinDependent
    else if is_head_tail options && is_tail && negb options_done && (operands =? 0)
            && starts_with (bstr "+") item
    then Err UnsafeFlag
    else if negb options_done && starts_with_dash item then
      rest ← consume_safe_file_option item rest options;
      classify_file_arguments fuel is_tail options context rest operands options_done acc
    else
      _ ← validate_path item context;
      if is_ls options && is_symlink (path_join (cwd context) item) then Err UnsupportedPath
      else
        path ← workspace_relative_path item context;
        classify_file_arguments fuel is_tail options context rest (operands + 1) true
          (acc ++ [file_scope options path])
  end.

Definition classify_files (argv : list (list Z)) (options : FileOptions) (require_file : bool)
    (context : PolicyContext) : result ReasonCode AccessPlan :=
  if is_ls options && (negb (ls_explicitly_disables_color argv) || negb (ls_option_mix_supported argv))
  then Err UnsafeFlag
  else
    let is_tail := match head argv with Some program => ends_with (bstr "tail") program | None => false end in
    '(operands, found) ←
      classify_file_arguments (length argv) is_tail options context (tail argv) 0 false [];
    if require_file && (operands =? 0) then Err StdinDependent
    else if is_ls options && (operands =? 0) then
      path ← workspace_relative_path DOT context;
      Ok (mkAccessPlan (found ++ [DirectoryListing path]))
    else Ok (mkAccessPlan found).

Definition recursive_rg_directory_targets_git (spelling : list Z) (relative : list Z)
    (context : PolicyContext) : bool :=
  if first_normal_component_is_git (components relative) then true
  else match canonicalize (workspace context) with
  | None => true
  | Some workspace =>
    match canonicalize (path_join (cwd context) spelling) with
    | None => false
    | Some canonical =>
      match strip_components (components workspace) (components canonical) with
      | Some parts => first_normal_component_is_git parts
      | None => false
      end
    end
  end.

(** The options before the pattern: what follows them, and the flags
    [no_ignore], [sort_path] and [options_done]. *)
Fixpoint search_options (is_rg no_ignore sort_path : bool) (arguments : list (list Z)) :
    result ReasonCode (list (list Z) * (bool * bool * bool)) :=
  match arguments with
  | [] => Ok ([], (no_ignore, sort_path, false))
  | item :: rest =>
    if bytes_eqb item (bstr "--") then Ok (rest, (no_ignore, sort_path, true))
    else if starts_with_dash item then
      if safe_search_flag item is_rg then
        search_options is_rg (no_ignore || bytes_eqb item (bstr "--no-ignore"))
          (sort_path || bytes_eqb item (bstr "--sort=path")) rest
      else Err UnsafeFlag
    else Ok (arguments, (no_ignore, sort_path, false))
  end.

Definition search_scope (is_rg : bool) (path : list Z) : AccessScope :=
  if is_rg then RecursiveContentTree path else ContentPath path.

Fixpoint search_operands (is_rg options_done : bool) (context : PolicyContext)
    (operands : list (list Z)) : result ReasonCode (list AccessScope) :=
  match operands with
  | [] => Ok []
  | item :: operands =>
    if negb options_done && starts_with_dash item then Err UnsafeFlag
    else
      _ ← validate_path item context;
      let operand_is_directory := is_dir (path_join (cwd context) item) in
      path ← workspace_relative_path item context;
      if is_rg && operand_is_directory && recursive_rg_directory_targets_git item path context
      then Err UnsupportedPath
      else
        found ← search_operands is_rg options_done context operands;
        Ok (search_scope is_rg path :: found)
  end.

Definition classify_search (argv : list (list Z)) (is_rg : bool) (context : PolicyContext) :
    result ReasonCode AccessPlan :=
  '(arguments, (no_ignore, sort_path, options_done)) ←
    search_options is_rg false false (tail argv);
  match arguments with
  | [] => Err MissingOperand
  | pattern :: operands =>
    if bytes_eqb pattern DASH then Err StdinDependent
    else
      found ← search_operands is_rg options_done context operands;
      if bool_decide (operands = []) then Err StdinDependent
      else if is_rg && (negb no_ignore || negb sort_path) then Err UnsafeFlag
      else Ok (mkAccessPlan found)
  end.

(** The name of the program, or the decision when it cannot be told. *)
Definition program_name (first : list Z) (context : PolicyContext) : result ReasonCode (list Z) :=
  if require_explicit_executable context then
    if negb (is_absolute first) then Err ShellResolutionAmbiguous
    else match file_name first with
    | Some name => if bytes_eqb name [] then Err ShellResolutionAmbiguous else Ok name
    | None => Err ShellResolutionAmbiguous
    end
  else if is_absolute first then Err AbsolutePath
  else Ok first.

(** The match on the program. *)
Definition classify_program (program : list Z) (argv : list (list Z)) (context : PolicyContext) :
    option (result ReasonCode AccessPlan) :=
  if bytes_eqb program (bstr "cat") then
    Some (classify_files argv FileOptionKinds.None true context)
  else if one_of ["head"; "tail"]%string program then
    Some (classify_files argv FileOptionKinds.HeadTail true context)
  else if bytes_eqb program (bstr "wc") then
    Some (classify_files argv FileOptionKinds.Wc true context)
  else if bytes_eqb program (bstr "ls") then
    Some (classify_files argv FileOptionKinds.Ls false context)
  else if bytes_eqb program (bstr "pwd") then Some (classify_pwd argv)
  else if bytes_eqb program (bstr "rg") then Some (classify_search argv true context)
  else if bytes_eqb program (bstr "grep") then Some (classify_search argv false context)
  else None.

Definition classify (raw : list Z) (context : PolicyContext) : Decision :=
  if trim_is_empty raw then pass EmptyCommand
  else if contains 10 raw || contains 13 raw then bypass Newline
  else if stdin_is_tty context || stdout_is_tty context then bypass TtyDependent
  else match reject_shell_syntax raw with
  | Some reason => bypass reason
  | None =>
    match shell_words_split raw with
    | None => pass ParseError
    | Some [] => pass EmptyCommand
    | Some ((first :: _) as argv) =>
      if bytes_eqb first (bstr "again") || ends_with (bstr "/again") first then bypass AlreadyWrapped
      else match program_name first context with
      | Err reason => bypass reason
      | Ok program =>
        if negb (cwd_is_in_workspace context) then bypass OutsideWorkspace
        else if is_network_command program then bypass NetworkCommand
        else if is_mutating_command program then bypass MutatingCommand
        else match classify_program program argv context with
        | None => pass UnsupportedCommand
        | Some (Ok access_plan) => Decisions.ExactReuse argv access_plan
        | Some (Err reason) => bypass reason
        end
      end
    end
  end.
End policy.
