(* ===== verification/PolicyTheorems.v ===== *)
(** * Theorems on the admission policy

    The plan of an admitted command names exactly its operands, read by the
    grammar of the tool, and every path it names stays inside the workspace. *)

From Stdlib Require Import String.
From S2P Require Import Prelude Monad Bytes ContractTypes Canonical CanonicalSpec CanonicalCodec.
From S2P Require Import RecordTypes Paths RecordValidation IdentityRoundTrip PathModel Policy.
Import Components Reasons.

(** ** Paths inside the workspace *)

(** A path of an access plan: the dot, or plain names with slashes between. *)
Definition confined (p : list Z) : Prop :=
  p = DOT ∨ ∃ names, names ≠ [] ∧ Forall component_name names ∧ p = join_components names.

Lemma normal_names_Ok parts names :
  normal_names parts = Ok names ↔
  Forall (λ c, leaves c = false) parts ∧ names = omap normal_name parts.
Proof.
  revert names. induction parts as [|[| | |name] parts IH]; intros names; cbn.
  - split; [by intros [= <-]|by intros [_ ->]].
  - split; [done|]. by intros [[? _]%list.Forall_cons _].
  - rewrite IH, list.Forall_cons. naive_solver.
  - split; [done|]. by intros [[? _]%list.Forall_cons _].
  - rewrite list.Forall_cons. destruct (normal_names parts) as [ns|] eqn:Hn; cbn.
    + destruct (proj1 (IH ns) eq_refl) as [? ->]. naive_solver.
    + split; [done|]. intros [[_ Hf] _]. specialize (IH (omap normal_name parts)). naive_solver.
Qed.

(** The components of a confined path are its names. *)
Lemma components_join names :
  names ≠ [] → Forall component_name names →
  components (join_components names) = Normal <$> names ∧ is_absolute (join_components names) = false.
Proof.
  intros Hne Hf. assert (is_absolute (join_components names) = false) as Ha.
  { destruct Hf as [|name names [Hp Hs] Hf]; [done|]. unfold is_absolute, starts_with.
    assert (∃ b name', name = b :: name' ∧ b ≠ SLASH) as (b & name' & -> & Hb).
    { destruct name as [|b name']; [done|]. exists b, name'. split; [done|].
      intros ->. apply Hs. left. }
    assert (∃ tl, join_components ((b :: name') :: names) = b :: tl) as [tl ->]
      by (destruct names; eexists; reflexivity).
    cbn [strip_prefix]. by rewrite (proj2 (Z.eqb_neq SLASH b)) by congruence. }
  split; [|done]. unfold components. rewrite Ha, split_join by done.
  assert (∀ l, Forall component_name l → omap body_component l = Normal <$> l) as Hom.
  { intros l. induction 1 as [|x l Hx _ IH]; [done|]. cbn.
    destruct (body_component_plain x Hx) as [-> _]. by rewrite IH. }
  destruct Hf as [|name names Hname Hf]; [done|].
  destruct (body_component_plain name Hname) as [Hb Hd]. rewrite Hd, Hb, Hom by done. done.
Qed.

Section paths.
Context `{FileSystem, ShellWords}.

(** The names of the directory the command runs in, below the workspace. *)
Definition cwd_names (context : PolicyContext) (names : list (list Z)) : Prop :=
  ∃ workspace' cwd' rest,
    normalize_existing_or_absolute (workspace context) = Some workspace' ∧
    normalize_existing_or_absolute (cwd context) = Some cwd' ∧
    components cwd' = components workspace' ++ rest ∧
    Forall (λ c, leaves c = false) rest ∧ names = omap normal_name rest.

(** What [validate_path] accepts. *)
Definition path_ok (value : list Z) (context : PolicyContext) : Prop :=
  value ≠ [] ∧ value ≠ DASH ∧ is_absolute value = false ∧
  Forall (λ c, leaves c = false) (components value) ∧ is_excluded_runtime_path value = false ∧
  ∀ resolved, canonicalize (path_join (cwd context) value) = Some resolved →
    ∃ workspace', normalize_existing_or_absolute (workspace context) = Some workspace' ∧
      path_starts_with workspace' resolved = true.

Lemma any_leaves parts : any leaves parts = false ↔ Forall (λ c, leaves c = false) parts.
Proof. by rewrite any_false, Forall_lookup. Qed.

Lemma bytes_neq a b : bytes_eqb a b = false ↔ a ≠ b.
Proof. unfold bytes_eqb. apply bool_decide_eq_false. Qed.

Lemma validate_path_Ok value context : validate_path value context = Ok () ↔ path_ok value context.
Proof.
  unfold validate_path, path_ok.
  destruct (bytes_eqb value []) eqn:E1; [apply bytes_eqb_eq in E1; naive_solver|].
  destruct (bytes_eqb value DASH) eqn:E2; [apply bytes_eqb_eq in E2; naive_solver|].
  apply bytes_neq in E1, E2. destruct (is_absolute value); [naive_solver|].
  pose proof (any_leaves (components value)) as Hl.
  destruct (any leaves _); [split; [done|]; intros (_ & _ & _ & ?%Hl & _); done|].
  apply proj1 in Hl. specialize (Hl eq_refl).
  destruct (is_excluded_runtime_path value); [naive_solver|].
  destruct (canonicalize _) as [resolved|]; [|naive_solver].
  destruct (normalize_existing_or_absolute (workspace context)) as [w|]; cbn [ok_or].
  2: { split; [done|]. intros (_ & _ & _ & _ & _ & Hr). by destruct (Hr resolved eq_refl) as (? & ? & _). }
  rewrite bind_Ok. destruct (path_starts_with w resolved) eqn:Hs; cbn [negb].
  - split; [|done]. intros _. split_and!; try done. intros ? [= <-]. eauto.
  - split; [done|]. intros (_ & _ & _ & _ & _ & Hr). destruct (Hr resolved eq_refl) as (? & [= <-] & ?).
    congruence.
Qed.

(** Joining onto the directory keeps the names. *)
Lemma joined_names rest value :
  is_absolute value = false →
  Forall (λ c, leaves c = false) (joined_components rest value) ↔
  Forall (λ c, leaves c = false) rest ∧ Forall (λ c, leaves c = false) (components value).
Proof.
  intros Ha. unfold joined_components. rewrite Ha.
  destruct rest as [|r rest]; [destruct (components value) as [|[] ?]; naive_solver|].
  destruct (components value) as [|[] parts]; rewrite list.Forall_app; [done..| |done|done].
  rewrite !(list.Forall_cons _ CurDir). naive_solver.
Qed.

Lemma joined_names_eq rest value :
  is_absolute value = false →
  omap normal_name (joined_components rest value)
  = omap normal_name rest ++ omap normal_name (components value).
Proof.
  intros Ha. unfold joined_components. rewrite Ha.
  destruct rest as [|r rest]; [by destruct (components value) as [|[] ?]|].
  destruct (components value) as [|[] parts]; by rewrite omap_app.
Qed.

(** A path relative to the workspace is the names of the directory followed by
    the names of the operand. *)
Lemma workspace_relative_path_Ok value context p :
  workspace_relative_path value context = Ok p ↔
  path_ok value context ∧
  ∃ names, cwd_names context names ∧
    p = match names ++ omap normal_name (components value) with
        | [] => DOT
        | all => join_components all
        end.
Proof.
  unfold workspace_relative_path, cwd_names. split.
  - intros ([] & Hv%validate_path_Ok & Hw)%result_bind_Ok. pose proof Hv as (_ & _ & Ha & _).
    apply result_bind_Ok in Hw as (w & Hw & Hc). apply ok_or_Ok in Hw.
    apply result_bind_Ok in Hc as (c & Hc & Hs). apply ok_or_Ok in Hc.
    apply result_bind_Ok in Hs as (rest & Hs & Hn).
    apply ok_or_Ok, strip_components_Some in Hs.
    apply result_bind_Ok in Hn as (names & Hn & Hp).
    apply normal_names_Ok in Hn as [Hl ->]. apply joined_names in Hl as [Hl _]; [|done].
    split; [done|]. exists (omap normal_name rest). split; [naive_solver|].
    rewrite joined_names_eq in Hp by done.
    destruct (omap normal_name rest ++ omap normal_name (components value)); congruence.
  - intros [Hv (names & (w & c & rest & Hw & Hc & Hs & Hl & ->) & ->)].
    rewrite (proj2 (validate_path_Ok value context) Hv), bind_Ok, Hw. cbn [ok_or]. rewrite bind_Ok, Hc.
    cbn [ok_or]. rewrite bind_Ok, (proj2 (strip_components_Some _ _ rest) Hs). cbn [ok_or].
    destruct Hv as (_ & _ & Ha & Hvl & _). rewrite bind_Ok, <- joined_names_eq by done.
    rewrite (proj2 (normal_names_Ok (joined_components rest value) _)), bind_Ok
      by (split; [by apply joined_names|done]).
    by destruct (omap _ _).
Qed.

Lemma omap_names path : Forall component_name (omap normal_name (components path)).
Proof.
  apply list.Forall_forall. intros name (c & Hc & Hn)%list_elem_of_omap.
  destruct c; try done. injection Hn as <-. by eapply components_names.
Qed.

Lemma relative_path_confined value context p :
  workspace_relative_path value context = Ok p → confined p.
Proof.
  intros (_ & names & (w & c & rest & _ & _ & Hs & _ & ->) & ->)%workspace_relative_path_Ok.
  destruct (omap normal_name rest ++ omap normal_name (components value)) as [|n l] eqn:Hn; [by left|].
  right. exists (n :: l). split; [done|]. split; [|done]. rewrite <- Hn.
  apply list.Forall_app. split; [|apply omap_names].
  pose proof (omap_names c) as Hc. rewrite Hs, omap_app, list.Forall_app in Hc. by destruct Hc.
Qed.
End paths.

(** ** File tools *)

(** How the arguments of a file tool are read: options up to [--] or to the
    first operand, and then operands only. *)
Inductive file_arguments (is_tail : bool) (options : FileOptions) :
    list (list Z) → list (list Z) → Prop :=
| no_arguments : file_arguments is_tail options [] []
| after_dashes operands : file_arguments is_tail options (bstr "--" :: operands) operands
| after_flag flag rest rest' operands :
    flag ≠ bstr "--" → flag ≠ DASH → starts_with_dash flag = true →
    consume_safe_file_option flag rest options = Ok rest' →
    file_arguments is_tail options rest' operands →
    file_arguments is_tail options (flag :: rest) operands
| from_operand item rest :
    starts_with_dash item = false →
    (is_head_tail options && is_tail && starts_with (bstr "+") item) = false →
    file_arguments is_tail options (item :: rest) (item :: rest).

Section files.
Context `{FileSystem, ShellWords}.

Definition file_operand (options : FileOptions) (context : PolicyContext) (item p : list Z) : Prop :=
  workspace_relative_path item context = Ok p ∧
  (is_ls options = true → is_symlink (path_join (cwd context) item) = false).

Lemma relative_path_valid item context p :
  workspace_relative_path item context = Ok p →
  validate_path item context = Ok () ∧ bytes_eqb item DASH = false.
Proof.
  intros [Hv _]%workspace_relative_path_Ok. split; [by apply validate_path_Ok|].
  apply bytes_neq. by destruct Hv as (_ & ? & _).
Qed.

(** Once the options are over every argument is an operand. *)
Lemma operands_only fuel is_tail options context arguments n acc r :
  (length arguments ≤ fuel)%nat →
  classify_file_arguments fuel is_tail options context arguments n true acc = Ok r ↔
  ∃ paths, Forall2 (file_operand options context) arguments paths ∧
    r = (n + len arguments, acc ++ (file_scope options <$> paths)).
Proof.
  revert fuel n acc r. induction arguments as [|item arguments IH]; intros [|fuel] n acc r Hf; cbn in Hf;
    try lia; cbn [classify_file_arguments].
  1,2: split; [intros [= <-]; exists []; rewrite len_nil, Z.add_0_r, app_nil_r; by split; [constructor|]|];
    intros (paths & Hp & ->); inversion_clear Hp; by rewrite len_nil, Z.add_0_r, app_nil_r.
  cbn [negb andb]. rewrite andb_false_r. cbn [andb].
  split.
  - destruct (bytes_eqb item DASH); [done|]. intros ([] & Hv & Hr)%result_bind_Ok.
    destruct (is_ls options && is_symlink _) eqn:Hs; [done|].
    apply result_bind_Ok in Hr as (p & Hp & Hr). apply IH in Hr as (paths & Hf2 & ->); [|lia].
    exists (p :: paths). split.
    + constructor; [|done]. split; [done|]. intros Hl. by rewrite Hl in Hs.
    + rewrite len_cons, <- app_assoc. cbn. f_equal. lia.
  - intros (paths & Hf2 & ->). inversion_clear Hf2 as [|? p ? paths' [Hp Hs] Hf2'].
    destruct (relative_path_valid _ _ _ Hp) as [Hv ->]. rewrite Hv, bind_Ok.
    assert (is_ls options && is_symlink (path_join (cwd context) item) = false) as ->.
    { destruct (is_ls options); [|done]. by rewrite Hs. }
    rewrite Hp, bind_Ok. apply IH; [lia|]. exists paths'. split; [done|].
    rewrite len_cons, <- app_assoc. cbn. f_equal. lia.
Qed.

Lemma consume_shorter flag rest options rest' :
  consume_safe_file_option flag rest options = Ok rest' → (length rest' ≤ length rest)%nat.
Proof.
  unfold consume_safe_file_option. repeat case_match; intros; simplify_eq/=; lia.
Qed.

Lemma dash_not_plus item : starts_with_dash item = true → starts_with (bstr "+") item = false.
Proof.
  unfold starts_with_dash, starts_with. change (bstr "+") with [43]. change DASH with [45].
  destruct item as [|b item]; [done|]. cbn [strip_prefix].
  destruct (Z.eqb_spec 45 b) as [<-|]; done.
Qed.

Lemma arguments_Ok fuel is_tail options context arguments r :
  (length arguments ≤ fuel)%nat →
  classify_file_arguments fuel is_tail options context arguments 0 false [] = Ok r ↔
  ∃ operands paths, file_arguments is_tail options arguments operands ∧
    Forall2 (file_operand options context) operands paths ∧
    r = (len operands, file_scope options <$> paths).
Proof.
  revert arguments r. induction fuel as [|fuel IH]; intros [|item rest] r Hf; cbn in Hf; try lia;
    cbn [classify_file_arguments].
  1,2: split; [intros [= <-]; exists [], []; by repeat constructor|];
    intros (operands & paths & Ha & Hp & ->); inversion Ha; subst; by inversion_clear Hp.
  cbn [negb andb]. destruct (bytes_eqb item (bstr "--")) eqn:E1.
  { apply bytes_eqb_eq in E1 as ->. rewrite operands_only by lia. cbn [app]. rewrite Z.add_0_l. split.
    - intros (paths & ? & ->). exists rest, paths. split; [constructor|done].
    - intros (operands & paths & Ha & ? & ->). inversion Ha; subst; try done. by exists paths. }
  apply bytes_neq in E1. destruct (bytes_eqb item DASH) eqn:E2.
  { apply bytes_eqb_eq in E2 as ->. split; [done|].
    intros (operands & paths & Ha & _ & _). inversion Ha; subst; done. }
  change (0 =? 0) with true. rewrite !andb_true_r.
  destruct (is_head_tail options && is_tail && starts_with (bstr "+") item) eqn:E3.
  { split; [done|]. intros (operands & paths & Ha & _ & _).
    inversion Ha as [| |flag ? ? ? _ _ Hd|item' ? Hd Hp]; subst; [done| |congruence].
    rewrite !andb_true_iff in E3. destruct E3 as [_ E3]. by rewrite dash_not_plus in E3. }
  destruct (starts_with_dash item) eqn:E4.
  - split.
    + intros (rest' & Hc & Hr)%result_bind_Ok. apply IH in Hr as (operands & paths & ? & ? & ->);
        [|apply consume_shorter in Hc; lia].
      exists operands, paths. split; [|done]. apply bytes_neq in E2. by eapply after_flag.
    + intros (operands & paths & Ha & Hp & ->).
      inversion Ha as [| |flag ? rest' ? _ _ _ Hc Hrest|item' ? Hd]; subst; [done| |congruence].
      rewrite Hc, bind_Ok. apply IH; [apply consume_shorter in Hc; lia|eauto].
  - assert (classify_file_arguments (S fuel) is_tail options context (item :: rest) 0 true [] = Ok r ↔
      ∃ operands paths, file_arguments is_tail options (item :: rest) operands ∧
        Forall2 (file_operand options context) operands paths ∧
        r = (len operands, file_scope options <$> paths)) as Hop.
    { rewrite operands_only by (cbn; lia). rewrite Z.add_0_l. cbn [app]. split.
      - intros (paths & ? & ->). exists (item :: rest), paths. split; [by constructor|done].
      - intros (operands & paths & Ha & ? & ->). inversion Ha; subst; try congruence. by exists paths. }
    cbn [classify_file_arguments negb andb] in Hop.
    rewrite andb_false_r in Hop. cbn [andb] in Hop. by rewrite E2 in Hop.
Qed.

Lemma ls_checks options argv :
  is_ls options && (negb (ls_explicitly_disables_color argv) || negb (ls_option_mix_supported argv))
    = false ↔
  (is_ls options = true →
   ls_explicitly_disables_color argv = true ∧ ls_option_mix_supported argv = true).
Proof.
  destruct (is_ls options), (ls_explicitly_disables_color argv), (ls_option_mix_supported argv); cbn;
    naive_solver.
Qed.
End files.

Lemma file_plan_iff `{FileSystem, ShellWords} (program : list Z) (arguments : list (list Z))
    (options : FileOptions) (require_file : bool) (context : PolicyContext) (plan : AccessPlan) :
  classify_files (program :: arguments) options require_file context = Ok plan ↔
  (is_ls options = true →
   ls_explicitly_disables_color (program :: arguments) = true ∧
   ls_option_mix_supported (program :: arguments) = true) ∧
  ∃ operands paths,
    file_arguments (ends_with (bstr "tail") program) options arguments operands ∧
    Forall2 (file_operand options context) operands paths ∧
    if bool_decide (operands = []) then
      require_file = false ∧
      if is_ls options
      then ∃ p, workspace_relative_path DOT context = Ok p ∧ scopes plan = [DirectoryListing p]
      else scopes plan = []
    else scopes plan = file_scope options <$> paths.
Proof.
  unfold classify_files. rewrite <- ls_checks.
  destruct (_ && _) eqn:Hls; [naive_solver|]. cbn [head tail].
  assert (∀ (ops : list (list Z)), (len ops =? 0) = bool_decide (ops = [])) as Hlen.
  { intros ops. case_bool_decide as Hx; [by subst|]. apply Z.eqb_neq. destruct ops; [done|].
    rewrite len_cons. pose proof (len_nonneg ops). lia. }
  split.
  - intros ([n found] & Ha & Hp)%result_bind_Ok. split; [done|].
    apply arguments_Ok in Ha as (operands & paths & Ha & Hf & [= -> ->]); [|cbn; lia].
    exists operands, paths. split; [done|]. split; [done|]. rewrite Hlen in Hp.
    destruct (bool_decide (operands = [])) eqn:Ho.
    + apply bool_decide_eq_true in Ho as ->. inversion Hf; subst. cbn in Hp.
      destruct require_file; [done|]. split; [done|]. destruct (is_ls options); cbn in Hp.
      * apply result_bind_Ok in Hp as (p & Hp & [= <-]). eauto.
      * by injection Hp as <-.
    + rewrite !andb_false_r in Hp. by injection Hp as <-.
  - intros [_ (operands & paths & Ha & Hf & Hp)].
    rewrite (proj2 (arguments_Ok (length (program :: arguments)) _ options context arguments
      (len operands, file_scope options <$> paths) ltac:(cbn; lia))), bind_Ok by eauto.
    rewrite Hlen. destruct (bool_decide (operands = [])) eqn:Ho.
    + apply bool_decide_eq_true in Ho as ->. inversion Hf; subst. destruct Hp as [-> Hp]. cbn.
      destruct (is_ls options), plan as [sc]; cbn in *; [|by subst].
      destruct Hp as (p & -> & ->). done.
    + rewrite !andb_false_r. destruct plan. cbn in Hp. by subst.
Qed.

(** The plan of a file tool ([cat], [head], [tail], [wc], [ls]) is exact:
    it is granted exactly when the arguments read as options the tool's list
    allows followed by operands that are valid workspace paths (for [ls]: not
    symbolic links, colours disabled, no metadata sort of the parent entries),
    and then it has one scope per operand, in order, for the operand's path
    relative to the workspace; [ls] without operands lists the directory it
    runs in, the other tools need an operand. *)
Theorem file_plan_exact `{FileSystem, ShellWords} (program : list Z) (arguments : list (list Z))
    (options : FileOptions) (require_file : bool) (context : PolicyContext) (plan : AccessPlan) :
  classify_files (program :: arguments) options require_file context = Ok plan ↔
  (is_ls options = true →
   ls_explicitly_disables_color (program :: arguments) = true ∧
   ls_option_mix_supported (program :: arguments) = true) ∧
  ∃ operands paths,
    file_arguments (ends_with (bstr "tail") program) options arguments operands ∧
    Forall2 (file_operand options context) operands paths ∧
    if bool_decide (operands = []) then
      require_file = false ∧
      if is_ls options
      then ∃ p, workspace_relative_path DOT context = Ok p ∧ scopes plan = [DirectoryListing p]
      else scopes plan = []
    else scopes plan = file_scope options <$> paths.
Proof. apply file_plan_iff. Qed.

(** ** Search tools *)

(** How the arguments of [rg] and [grep] are read: flags, the pattern, then
    operands; [explicit] when [--] came before the pattern. *)
Inductive search_arguments (is_rg : bool) :
    list (list Z) → list (list Z) → list Z → list (list Z) → bool → Prop :=
| search_flag flag arguments flags pattern operands explicit :
    flag ≠ bstr "--" → starts_with_dash flag = true → safe_search_flag flag is_rg = true →
    search_arguments is_rg arguments flags pattern operands explicit →
    search_arguments is_rg (flag :: arguments) (flag :: flags) pattern operands explicit
| search_dashes pattern operands :
    search_arguments is_rg (bstr "--" :: pattern :: operands) [] pattern operands true
| search_pattern pattern operands :
    starts_with_dash pattern = false →
    search_arguments is_rg (pattern :: operands) [] pattern operands false.

Section search.
Context `{FileSystem, ShellWords}.

Definition has (flag : string) (flags : list (list Z)) : bool :=
  any (λ f, bytes_eqb f (bstr flag)) flags.

Lemma dashes_start : starts_with_dash (bstr "--") = true.
Proof. done. Qed.

Lemma search_options_Ok is_rg ni sp arguments pattern operands ni' sp' explicit :
  search_options is_rg ni sp arguments = Ok (pattern :: operands, (ni', sp', explicit)) ↔
  ∃ flags, search_arguments is_rg arguments flags pattern operands explicit ∧
    ni' = ni || has "--no-ignore" flags ∧ sp' = sp || has "--sort=path" flags.
Proof.
  revert ni sp. induction arguments as [|item rest IH]; intros ni sp; cbn [search_options].
  { split; [done|]. intros (flags & Ha & _). inversion Ha. }
  destruct (bytes_eqb item (bstr "--")) eqn:E1.
  { apply bytes_eqb_eq in E1 as ->. split.
    - intros [= -> <- <- <-]. exists []. rewrite !orb_false_r. split; [constructor|done].
    - intros (flags & Ha & -> & ->). inversion Ha; subst; [done| |done]. by rewrite !orb_false_r. }
  apply bytes_neq in E1. destruct (starts_with_dash item) eqn:E2.
  - destruct (safe_search_flag item is_rg) eqn:E3.
    2: { split; [done|]. intros (flags & Ha & _). inversion Ha; subst; congruence. }
    rewrite IH. split.
    + intros (flags & Ha & -> & ->). exists (item :: flags). split; [by constructor|].
      unfold has, any. cbn [existsb]. by rewrite !orb_assoc.
    + intros (flags & Ha & -> & ->). inversion Ha as [? ? flags'| |]; subst; [|done|congruence].
      exists flags'. split; [done|]. unfold has, any. cbn [existsb]. by rewrite !orb_assoc.
  - split.
    + intros [= -> -> <- <- <-]. exists []. rewrite !orb_false_r. split; [by constructor|done].
    + intros (flags & Ha & -> & ->). inversion Ha; subst; [congruence|done|]. by rewrite !orb_false_r.
Qed.

Definition search_operand (is_rg explicit : bool) (context : PolicyContext) (item p : list Z) : Prop :=
  (explicit = false → starts_with_dash item = false) ∧
  workspace_relative_path item context = Ok p ∧
  (is_rg = true → is_dir (path_join (cwd context) item) = true →
   recursive_rg_directory_targets_git item p context = false).

Lemma search_operands_Ok is_rg explicit context operands found :
  search_operands is_rg explicit context operands = Ok found ↔
  ∃ paths, Forall2 (search_operand is_rg explicit context) operands paths ∧
    found = search_scope is_rg <$> paths.
Proof.
  revert found. induction operands as [|item operands IH]; intros found; cbn [search_operands].
  { split; [intros [= <-]; exists []; by split; [constructor|]|].
    intros (paths & Hp & ->). by inversion_clear Hp. }
  split.
  - destruct (negb explicit && starts_with_dash item) eqn:E1; [done|].
    intros ([] & Hv & Hr)%result_bind_Ok. apply result_bind_Ok in Hr as (p & Hp & Hr). revert Hr.
    case_match eqn:E2; [done|]. intros (found' & Hf & [= <-])%result_bind_Ok.
    apply IH in Hf as (paths & Hf & ->). exists (p :: paths). split; [|done]. constructor; [|done].
    split_and!; [intros ->; by rewrite andb_true_l in E1|done|].
    intros -> Hd. by rewrite Hd in E2.
  - intros (paths & Hf & ->). inversion_clear Hf as [|? p ? paths' (Hd & Hp & Hg) Hf'].
    assert (negb explicit && starts_with_dash item = false) as ->
      by (destruct explicit; [done|]; by apply Hd).
    destruct (relative_path_valid _ _ _ Hp) as [-> _]. rewrite bind_Ok, Hp, bind_Ok.
    assert (is_rg && is_dir (path_join (cwd context) item) &&
      recursive_rg_directory_targets_git item p context = false) as ->.
    { destruct is_rg; [|done]. cbn. destruct (is_dir _); [|done]. by apply Hg. }
    rewrite (proj2 (IH (search_scope is_rg <$> paths'))) by eauto. done.
Qed.
End search.

Lemma search_plan_iff `{FileSystem, ShellWords} (program : list Z) (arguments : list (list Z))
    (is_rg : bool) (context : PolicyContext) (plan : AccessPlan) :
  classify_search (program :: arguments) is_rg context = Ok plan ↔
  ∃ flags pattern operands explicit paths,
    search_arguments is_rg arguments flags pattern operands explicit ∧
    pattern ≠ DASH ∧ operands ≠ [] ∧
    Forall2 (search_operand is_rg explicit context) operands paths ∧
    (is_rg = true → has "--no-ignore" flags = true ∧ has "--sort=path" flags = true) ∧
    scopes plan = search_scope is_rg <$> paths.
Proof.
  unfold classify_search. cbn [tail]. split.
  - intros ([args [[ni sp] explicit]] & Ho & Hr)%result_bind_Ok.
    destruct args as [|pattern operands]; [done|].
    apply search_options_Ok in Ho as (flags & Ha & -> & ->).
    destruct (bytes_eqb pattern DASH) eqn:E1; [done|]. apply bytes_neq in E1.
    apply result_bind_Ok in Hr as (found & Hf & Hr). revert Hr. case_bool_decide as Hne; [done|].
    case_match eqn:E2; [done|]. intros [= <-].
    apply search_operands_Ok in Hf as (paths & Hf & ->).
    exists flags, pattern, operands, explicit, paths. split_and!; try done.
    intros ->. cbn in E2. apply orb_false_iff in E2 as [?%negb_false_iff ?%negb_false_iff]. done.
  - intros (flags & pattern & operands & explicit & paths & Ha & Hp & Hne & Hf & Hrg & Hs).
    rewrite (proj2 (search_options_Ok is_rg false false arguments pattern operands
      (has "--no-ignore" flags) (has "--sort=path" flags) explicit)), bind_Ok by eauto.
    rewrite (proj2 (bytes_neq pattern DASH)) by done.
    rewrite (proj2 (search_operands_Ok is_rg explicit context operands (search_scope is_rg <$> paths))),
      bind_Ok by eauto.
    rewrite bool_decide_false by done.
    assert (is_rg && (negb (has "--no-ignore" flags) || negb (has "--sort=path" flags)) = false) as ->.
    { destruct is_rg; [|done]. by destruct Hrg as [-> ->]. }
    destruct plan. cbn in Hs. by subst.
Qed.

(** The plan of a search tool ([rg], [grep]) is exact: it is granted
    exactly when the arguments read as allowed flags, a pattern other than the
    dash and at least one operand, where operands are valid workspace paths
    that start with a dash only after [--] and, for [rg], directories outside
    [.git]; [rg] must also be told to ignore no files and to sort by path. The
    plan has one scope per operand, in order. *)
Theorem search_plan_exact `{FileSystem, ShellWords} (program : list Z) (arguments : list (list Z))
    (is_rg : bool) (context : PolicyContext) (plan : AccessPlan) :
  classify_search (program :: arguments) is_rg context = Ok plan ↔
  ∃ flags pattern operands explicit paths,
    search_arguments is_rg arguments flags pattern operands explicit ∧
    pattern ≠ DASH ∧ operands ≠ [] ∧
    Forall2 (search_operand is_rg explicit context) operands paths ∧
    (is_rg = true → has "--no-ignore" flags = true ∧ has "--sort=path" flags = true) ∧
    scopes plan = search_scope is_rg <$> paths.
Proof. apply search_plan_iff. Qed.

(** ** Admission *)

Section admission.
Context `{FileSystem, ShellWords}.

(** The eight tools, all of which only read. *)
Definition read_only_tools : list (list Z) :=
  bstr <$> ["cat"; "head"; "tail"; "wc"; "ls"; "pwd"; "rg"; "grep"]%string.

(** The characters with a meaning to the shell, and line ends. *)
Definition shell_characters : list Z := bstr ";|&<>$`~(){}*?[]" ++ [10; 13].

(** A scope of a plan: an operand (or the current directory) that is a valid
    workspace path, by its plain name below the workspace. *)
Definition scope_sound (argv : list (list Z)) (context : PolicyContext) (scope : AccessScope) : Prop :=
  match scope with
  | IdentityOnly => True
  | ContentPath p | RecursiveContentTree p | DirectoryListing p =>
    ∃ item, (item ∈ argv ∨ item = DOT) ∧ path_ok item context ∧
      workspace_relative_path item context = Ok p ∧ confined p
  | WholeWorkspace => False
  end.

Lemma path_scope_sound (argv : list (list Z)) context item p :
  item ∈ argv ∨ item = DOT → workspace_relative_path item context = Ok p →
  ∃ item, (item ∈ argv ∨ item = DOT) ∧ path_ok item context ∧
    workspace_relative_path item context = Ok p ∧ confined p.
Proof.
  intros Hin Hp. exists item. split_and!; [done| |done|by eapply relative_path_confined].
  by apply workspace_relative_path_Ok in Hp as [? _].
Qed.

Lemma file_arguments_incl is_tail options arguments operands x :
  file_arguments is_tail options arguments operands → x ∈ operands → x ∈ arguments.
Proof.
  intros Ha. induction Ha as [|operands|flag rest rest' operands _ _ _ Hc _ IH|]; try done.
  - intros ?. by right.
  - intros Hx%IH. right. revert Hc. unfold consume_safe_file_option.
    repeat case_match; intros; simplify_eq; try done. by right.
Qed.

Lemma search_arguments_incl is_rg arguments flags pattern operands explicit x :
  search_arguments is_rg arguments flags pattern operands explicit → x ∈ operands → x ∈ arguments.
Proof. induction 1; intros ?; [right; auto|do 2 right|right]; done. Qed.

Lemma file_scopes_sound argv context options require_file plan :
  argv ≠ [] → (is_ls options = true ∨ require_file = true) →
  classify_files argv options require_file context = Ok plan →
  scopes plan ≠ [] ∧ Forall (scope_sound argv context) (scopes plan).
Proof.
  destruct argv as [|program arguments]; [done|]. intros _ Hreq.
  intros (_ & operands & paths & Ha & Hf & Hs)%file_plan_iff. case_bool_decide as Ho.
  - destruct Hs as [Hr Hs]. destruct Hreq as [Hl|?]; [|congruence]. rewrite Hl in Hs.
    destruct Hs as (p & Hp & ->). split; [done|]. repeat constructor.
    eapply path_scope_sound; [by right|done].
  - rewrite Hs. split; [by destruct Hf|]. rewrite list.Forall_fmap.
    apply list.Forall_forall. intros p [i Hi]%list_elem_of_lookup.
    destruct (Forall2_lookup_r _ _ _ _ _ Hf Hi) as (item & Hitem%list_elem_of_lookup_2 & Hp & _).
    assert (item ∈ program :: arguments) by (right; by eapply file_arguments_incl).
    unfold file_scope, compose. destruct (is_ls options); (eapply path_scope_sound; [by left|done]).
Qed.

Lemma search_scopes_sound argv context is_rg plan :
  argv ≠ [] → classify_search argv is_rg context = Ok plan →
  scopes plan ≠ [] ∧ Forall (scope_sound argv context) (scopes plan).
Proof.
  destruct argv as [|program arguments]; [done|]. intros _.
  intros (flags & pattern & operands & explicit & paths & Ha & _ & Hne & Hf & _ & ->)%search_plan_iff.
  split; [by destruct Hf|]. rewrite list.Forall_fmap.
  apply list.Forall_forall. intros p [i Hi]%list_elem_of_lookup.
  destruct (Forall2_lookup_r _ _ _ _ _ Hf Hi) as (item & Hitem%list_elem_of_lookup_2 & _ & Hp & _).
  assert (item ∈ program :: arguments) by (right; by eapply search_arguments_incl).
  unfold search_scope, compose. destruct is_rg; (eapply path_scope_sound; [by left|done]).
Qed.

Ltac tool_listed := apply (bool_decide_unpack _); vm_compute; exact I.

Lemma program_scopes_sound program argv context plan :
  argv ≠ [] → classify_program program argv context = Some (Ok plan) →
  program ∈ read_only_tools ∧ scopes plan ≠ [] ∧ Forall (scope_sound argv context) (scopes plan).
Proof.
  intros Hne. unfold classify_program.
  destruct (bytes_eqb program (bstr "cat")) eqn:E1.
  { apply bytes_eqb_eq in E1 as ->. intros [= Hp]. split; [by tool_listed|].
    exact (file_scopes_sound _ _ _ _ _ Hne (or_intror eq_refl) Hp). }
  destruct (one_of ["head"; "tail"]%string program) eqn:E2.
  { intros [= Hp]. split; [|exact (file_scopes_sound _ _ _ _ _ Hne (or_intror eq_refl) Hp)].
    unfold one_of in E2. cbn [existsb] in E2. rewrite orb_false_r in E2.
    apply orb_true_iff in E2 as [->%bytes_eqb_eq| ->%bytes_eqb_eq]; by tool_listed. }
  destruct (bytes_eqb program (bstr "wc")) eqn:E3.
  { apply bytes_eqb_eq in E3 as ->. intros [= Hp]. split; [by tool_listed|].
    exact (file_scopes_sound _ _ _ _ _ Hne (or_intror eq_refl) Hp). }
  destruct (bytes_eqb program (bstr "ls")) eqn:E4.
  { apply bytes_eqb_eq in E4 as ->. intros [= Hp]. split; [by tool_listed|].
    exact (file_scopes_sound _ _ FileOptionKinds.Ls _ _ Hne (or_introl eq_refl) Hp). }
  destruct (bytes_eqb program (bstr "pwd")) eqn:E5.
  { apply bytes_eqb_eq in E5 as ->. intros [= Hp]. split; [by tool_listed|].
    unfold classify_pwd in Hp. destruct argv as [|? [|? []]]; try done. case_match; [|done].
    injection Hp as <-. split; [done|]. by repeat constructor. }
  destruct (bytes_eqb program (bstr "rg")) eqn:E6.
  { apply bytes_eqb_eq in E6 as ->. intros [= Hp]. split; [by tool_listed|].
    exact (search_scopes_sound _ _ _ _ Hne Hp). }
  destruct (bytes_eqb program (bstr "grep")) eqn:E7; [|done].
  apply bytes_eqb_eq in E7 as ->. intros [= Hp]. split; [by tool_listed|].
  exact (search_scopes_sound _ _ _ _ Hne Hp).
Qed.

Lemma shell_free raw :
  reject_shell_syntax raw = None → contains 10 raw || contains 13 raw = false →
  Forall (λ b, b ∉ shell_characters) raw.
Proof.
  unfold reject_shell_syntax. intros Hs [H10 H13]%orb_false_iff.
  destruct (contains_any ";|&<>" raw || contains_infix _ raw) eqn:E1; [done|].
  apply orb_false_iff in E1 as [E1 _]. destruct (contains_any "$`~(){}" raw) eqn:E2; [done|].
  destruct (contains_any "*?[]" raw) eqn:E3; [done|]. clear Hs.
  assert (∀ set b, contains_any set raw = false → b ∈ raw → (b ∉ bstr set)) as Hany.
  { intros set b Hc Hb Hin. unfold contains_any in Hc. rewrite any_false in Hc.
    apply list_elem_of_lookup in Hin as [i Hi]. specialize (Hc i b Hi).
    apply (contains_iff b raw) in Hb. congruence. }
  apply list.Forall_forall. intros b Hb Hin. unfold shell_characters in Hin.
  change (bstr ";|&<>$`~(){}*?[]") with (bstr ";|&<>" ++ bstr "$`~(){}" ++ bstr "*?[]") in Hin.
  rewrite !elem_of_app, elem_of_cons, list_elem_of_singleton in Hin.
  destruct Hin as [[Hin|[Hin|Hin]]|[->| ->]].
  - exact (Hany _ _ E1 Hb Hin).
  - exact (Hany _ _ E2 Hb Hin).
  - exact (Hany _ _ E3 Hb Hin).
  - apply contains_iff in Hb. congruence.
  - apply contains_iff in Hb. congruence.
Qed.
End admission.

(** C21. A command is answered from the cache only when its raw text has no
    character with a meaning to the shell and no line end, no terminal is
    attached, its words name one of the eight read-only tools (never a network
    or mutating command), the directory is inside the workspace, and its plan
    is not empty and names only operands that are valid workspace paths, none
    of which leaves the workspace by its spelling or, where it exists, by its
    resolution. *)
Theorem exact_reuse_safe `{FileSystem, ShellWords} (raw : list Z) (context : PolicyContext)
    (argv : list (list Z)) (plan : AccessPlan) :
  classify raw context = Decisions.ExactReuse argv plan →
  Forall (λ b, b ∉ shell_characters) raw ∧
  stdin_is_tty context = false ∧ stdout_is_tty context = false ∧
  shell_words_split raw = Some argv ∧
  (∃ first program, head argv = Some first ∧ program_name first context = Ok program ∧
     program ∈ read_only_tools ∧ is_network_command program = false ∧
     is_mutating_command program = false) ∧
  cwd_is_in_workspace context = true ∧
  scopes plan ≠ [] ∧ Forall (scope_sound argv context) (scopes plan).
Proof.
  unfold classify. destruct (trim_is_empty raw); [done|].
  destruct (contains 10 raw || contains 13 raw) eqn:E1; [done|].
  destruct (stdin_is_tty context || stdout_is_tty context) eqn:E2; [done|].
  apply orb_false_iff in E2 as [-> ->].
  destruct (reject_shell_syntax raw) eqn:E3; [done|].
  destruct (shell_words_split raw) as [[|first rest]|] eqn:E4; try done.
  destruct (_ || ends_with _ first); [done|].
  destruct (program_name first context) as [program|] eqn:E5; [|done].
  destruct (cwd_is_in_workspace context); [|done]. cbn [negb].
  destruct (is_network_command program) eqn:E6; [done|].
  destruct (is_mutating_command program) eqn:E7; [done|].
  destruct (classify_program program (first :: rest) context) as [[p|]|] eqn:E8; [|done..].
  intros [= <- <-]. apply program_scopes_sound in E8 as (? & ? & ?); [|done].
  split; [by apply shell_free|]. split_and!; try done. by exists first, program.
Qed.

(** A file system without links, where only paths below [/w] exist, and words
    between spaces. *)
Definition sample_files : FileSystem := {|
  canonicalize path := if starts_with (bstr "/w") path then Some path else None;
  is_symlink _ := false;
  is_dir path := ends_with (bstr "src") path;
|}.

Definition sample_words : ShellWords := λ raw, Some (List.filter (λ w, negb (bytes_eqb w [])) (split_on 32 raw)).

Definition sample_context : PolicyContext := PolicyContext_new (bstr "/w") (bstr "/w/crate").

Lemma exact_reuse_safe_witness :
  let argv := [bstr "rg"; bstr "--no-ignore"; bstr "--sort=path"; bstr "needle"; bstr "src"; bstr "./a/b"] in
  Forall (scope_sound (H:=sample_files) argv sample_context)
    [RecursiveContentTree (bstr "crate/src"); RecursiveContentTree (bstr "crate/a/b")].
Proof.
  destruct (exact_reuse_safe (H:=sample_files) (H0:=sample_words)
    (bstr "rg --no-ignore --sort=path needle src ./a/b") sample_context _ _ ltac:(vm_compute; reflexivity))
    as (_ & _ & _ & _ & _ & _ & _ & Hs).
  exact Hs.
Defined.
