(* ===== verification/Text.v ===== *)
(** * Text and ordered containers of the standard library

    Strings are their UTF-8 bytes. [chars] decodes them, [is_control] and
    [is_whitespace] are the Unicode categories [char] has. A [BTreeMap] is a
    finite map and a [BTreeSet] a finite set; [entries] and [keys_in_order] are
    their iterators, in byte order of the keys. [binary_search] is the search
    of slices. The second part holds the ASCII classes and the searches of
    slices that the scanners use. *)

From Stdlib Require Import String Sorting.Sorted.
From stdpp Require Import gmap sorting.
From S2P Require Import Prelude Monad Bytes ContractTypes Canonical CanonicalSpec CanonicalParse.
From S2P Require Import CanonicalCodec RecordTypes Paths RecordValidation RecordCodec Digest.
From S2P Require Import IdentityWire Identity RecordTop RecordTheorems ManifestTypes.
From S2P Require Import ManifestDigest ManifestValidation TreeSpec.

(** ** Characters *)

Definition continuation (value byte : Z) : Z := Z.lor (Z.shiftl value 6) (Z.land byte 0x3f).

(** [str::chars] on a valid string. *)
Fixpoint chars (s : list Z) : list Z :=
  match s with
  | [] => []
  | b0 :: s1 =>
    if b0 <? 0x80 then b0 :: chars s1
    else match s1 with
    | [] => []
    | b1 :: s2 =>
      if b0 <? 0xe0 then continuation (Z.land b0 0x1f) b1 :: chars s2
      else match s2 with
      | [] => []
      | b2 :: s3 =>
        let two := continuation (continuation (Z.land b0 0x0f) b1) b2 in
        if b0 <? 0xf0 then two :: chars s3
        else match s3 with
        | [] => []
        | b3 :: s4 =>
          continuation (continuation (continuation (Z.land b0 0x07) b1) b2) b3 :: chars s4
        end
      end
    end
  end.

(** [char::is_control]: the category Cc. *)
Definition is_control (c : Z) : bool := (c <=? 0x1f) || ((0x7f <=? c) && (c <=? 0x9f)).

(** [char::is_whitespace]: the property [White_Space]. *)
Definition is_whitespace (c : Z) : bool :=
  ((9 <=? c) && (c <=? 13)) || (c =? 0x20) || (c =? 0x85) || (c =? 0xa0) || (c =? 0x1680)
  || ((0x2000 <=? c) && (c <=? 0x200a)) || (c =? 0x2028) || (c =? 0x2029) || (c =? 0x202f)
  || (c =? 0x205f) || (c =? 0x3000).

(** [str::is_ascii]. *)
Definition is_ascii (s : list Z) : bool := forallb (λ b, b <? 0x80) s.

(** ** Ordered maps and sets *)

(** [BTreeMap::iter]. *)
Definition entries {A} (m : gmap (list Z) A) : list (list Z * A) :=
  stable_sort (λ x y, bytes_compare (x.1) (y.1)) (map_to_list m).

(** [BTreeSet::iter]. *)
Definition keys_in_order (s : gset (list Z)) : list (list Z) :=
  stable_sort bytes_compare (elements s).

(** [slice.windows(2).all(|pair| less(&pair[0], &pair[1]))]. *)
Definition windows_all {A} (less : A → A → bool) (l : list A) : bool :=
  negb (windows_any (λ x y, negb (less x y)) l).

(** ** Binary search *)

(** The loop of [slice::binary_search_by]: [size] elements from [base] on may
    still hold the target; [fuel] bounds the rounds. *)
Fixpoint search_loop {A} (f : A → comparison) (l : list A) (fuel base size : nat) : nat :=
  match fuel with
  | O => base
  | S fuel =>
    if (1 <? size)%nat then
      let half := (size / 2)%nat in
      let mid := (base + half)%nat in
      let base := match l !! mid with
                  | Some x => match f x with Gt => base | _ => mid end
                  | None => base
                  end in
      search_loop f l fuel base (size - half)
    else base
  end.

(** [slice.binary_search_by(f).is_ok()]. *)
Definition binary_search {A} (f : A → comparison) (l : list A) : bool :=
  match l !! search_loop f l (length l) 0 (length l) with
  | Some x => match f x with Eq => true | _ => false end
  | None => false
  end.

(** ** Laws *)

Lemma elem_of_entries {A} (m : gmap (list Z) A) k a : (k, a) ∈ entries m ↔ m !! k = Some a.
Proof. unfold entries. by rewrite stable_sort_Permutation, elem_of_map_to_list. Qed.

Lemma elem_of_keys_in_order (s : gset (list Z)) k : k ∈ keys_in_order s ↔ k ∈ s.
Proof. unfold keys_in_order. by rewrite stable_sort_Permutation, elem_of_elements. Qed.

Lemma len_keys_in_order (s : gset (list Z)) : len (keys_in_order s) = Z.of_nat (size s).
Proof. unfold len, keys_in_order. by rewrite stable_sort_Permutation. Qed.

Lemma len_entries {A} (m : gmap (list Z) A) : len (entries m) = Z.of_nat (size m).
Proof.
  unfold len, entries. rewrite stable_sort_Permutation. by rewrite length_map_to_list.
Qed.

Lemma bytes_lt_total a b : bytes_lt a b ∨ a = b ∨ bytes_lt b a.
Proof.
  unfold bytes_lt. pose proof (bytes_compare_opp a b) as Ho. destruct (bytes_compare a b) eqn:E.
  - right; left. by apply bytes_compare_eq.
  - by left.
  - right; right. by rewrite Ho.
Qed.

Lemma insert_by_key_sorted {A} (key : A → list Z) x l :
  key x ∉ (key <$> l) → StronglySorted (λ a b, bytes_lt (key a) (key b)) l →
  StronglySorted (λ a b, bytes_lt (key a) (key b))
    (stable_insert (λ a b, bytes_compare (key a) (key b)) x l).
Proof.
  induction l as [|y l IH]; intros Hx Hl; [by repeat constructor|]. cbn.
  rewrite fmap_cons, not_elem_of_cons in Hx. destruct Hx as [Hxy Hx].
  inversion_clear Hl as [|? ? Hs Hy].
  destruct (bytes_lt_total (key x) (key y)) as [Hlt|[?|Hgt]]; [|done|].
  - unfold bytes_lt in Hlt. rewrite Hlt. constructor; [by constructor|]. constructor; [done|].
    eapply list.Forall_impl; [done|]. intros z Hz. by trans (key y).
  - assert (bytes_compare (key x) (key y) = Gt) as -> by (rewrite bytes_compare_opp, Hgt; done).
    constructor; [by apply IH|]. rewrite stable_insert_elem. by constructor.
Qed.

Lemma sort_by_key_sorted {A} (key : A → list Z) l :
  NoDup (key <$> l) →
  StronglySorted (λ a b, bytes_lt (key a) (key b))
    (stable_sort (λ a b, bytes_compare (key a) (key b)) l).
Proof.
  induction l as [|x l IH]; [constructor|]. rewrite fmap_cons. intros [Hx Hl]%list.NoDup_cons. cbn.
  apply insert_by_key_sorted; [|by apply IH]. by rewrite stable_sort_Permutation.
Qed.

Lemma entries_sorted {A} (m : gmap (list Z) A) :
  StronglySorted (λ a b, bytes_lt (a.1) (b.1)) (entries m).
Proof. apply sort_by_key_sorted, NoDup_fst_map_to_list. Qed.

Lemma keys_sorted (s : gset (list Z)) : StronglySorted bytes_lt (keys_in_order s).
Proof. apply (sort_by_key_sorted id). rewrite list_fmap_id. apply NoDup_elements. Qed.

Lemma windows_all_sorted {A} (key : A → list Z) l :
  windows_all (λ a b, match bytes_compare (key a) (key b) with Lt => true | _ => false end) l = true ↔
  StronglySorted (λ a b, bytes_lt (key a) (key b)) l.
Proof.
  unfold windows_all. rewrite negb_true_iff, <- windows_sorted.
  assert (∀ a b, negb match bytes_compare (key a) (key b) with Lt => true | _ => false end
                 = bytes_ge (key a) (key b)) as He by (intros a b; unfold bytes_ge; by case_match).
  enough (∀ (p q : A → A → bool), (∀ a b, p a b = q a b) → windows_any p l = windows_any q l) as Hw
    by (by rewrite (Hw _ _ He)).
  intros p q Hpq. induction l as [|x [|y l] IH]; try done.
  change (windows_any ?p (x :: y :: l)) with (p x y || windows_any p (y :: l)). by rewrite Hpq, IH.
Qed.

(** ** Binary search finds exactly the members of a sorted list *)

Section search.
Context {A : Type} (f : A → comparison) (l : list A).
(** Once [f] says that an element is too large, it says so of all later ones,
    and every element before one that is not too large is too small. *)
Hypothesis later_greater : ∀ i j x y,
  l !! i = Some x → l !! j = Some y → (i < j)%nat → f x = Gt → f y = Gt.
Hypothesis earlier_less : ∀ i j x y,
  l !! i = Some x → l !! j = Some y → (i < j)%nat → f y ≠ Gt → f x = Lt.

Lemma search_loop_target fuel base size i x :
  (size <= fuel)%nat → (base + size <= length l)%nat → (base <= i < base + size)%nat →
  l !! i = Some x → f x = Eq → search_loop f l fuel base size = i.
Proof.
  revert base size; induction fuel as [|fuel IH]; intros base size Hf Hl Hi Hx He; [lia|].
  cbn [search_loop]. destruct (Nat.ltb_spec 1 size) as [Hs|Hs]; [|lia].
  pose proof (Nat.div_lt size 2 ltac:(lia) ltac:(lia)).
  pose proof (Nat.Div0.mul_div_le size 2).
  assert (1 <= size / 2)%nat by (apply Nat.div_le_lower_bound; lia).
  destruct (l !! (base + size / 2)%nat) as [y|] eqn:Hy;
    [|apply lookup_ge_None in Hy; lia].
  destruct (decide (f y = Gt)) as [Hg|Hg].
  - rewrite Hg. apply IH; try done; try lia. split; [lia|].
    destruct (decide (i < base + size / 2)%nat) as [?|Hn]; [lia|].
    destruct (decide (i = base + size / 2)%nat) as [->|?]; [congruence|].
    assert (f x = Gt) by (eapply later_greater; [exact Hy|exact Hx|lia|done]). congruence.
  - replace (match f y with Gt => base | _ => _ end) with (base + size / 2)%nat by by destruct (f y).
    apply IH; try done; try lia. split; [|lia].
    destruct (decide (base + size / 2 <= i)%nat) as [?|Hn]; [done|].
    assert (f x = Lt) by (eapply earlier_less; [exact Hx|exact Hy|lia|done]). congruence.
Qed.

Lemma binary_search_iff : binary_search f l = true ↔ ∃ x, x ∈ l ∧ f x = Eq.
Proof.
  unfold binary_search. split.
  - destruct (l !! _) as [x|] eqn:Hx; [|done]. destruct (f x) eqn:He; try done. intros _.
    exists x. split; [by eapply list_elem_of_lookup_2|done].
  - intros (x & [i Hi]%list_elem_of_lookup & He).
    assert (i < length l)%nat by by eapply lookup_lt_Some.
    by rewrite (search_loop_target _ 0 _ i x), Hi, He by (try done; lia).
Qed.
End search.

Lemma sorted_lookup l :
  StronglySorted bytes_lt l →
  ∀ i j x y, l !! i = Some x → l !! j = Some y → (i < j)%nat → bytes_lt x y.
Proof.
  induction 1 as [|z l _ IH Hz]; [done|]. rewrite list.Forall_forall in Hz.
  intros [|i] [|j] x y Hi Hj Hij; cbn in *; [lia| |lia|].
  - injection Hi as <-. by eapply Hz, list_elem_of_lookup_2.
  - eapply IH; [done..|lia].
Qed.

Lemma binary_search_sorted d l :
  StronglySorted bytes_lt l → binary_search (λ x, bytes_compare x d) l = true ↔ d ∈ l.
Proof.
  intros Hs. pose proof (sorted_lookup l Hs) as Ho. rewrite binary_search_iff.
  - split; [intros (x & Hx & He%bytes_compare_eq); by subst|].
    intros Hd. exists d. split; [done|by apply bytes_compare_eq].
  - intros i j x y Hi Hj Hlt Hg. specialize (Ho i j x y Hi Hj Hlt).
    assert (bytes_lt d x) as Hd by (unfold bytes_lt; rewrite bytes_compare_opp, Hg; done).
    assert (bytes_lt d y) as Hd' by by trans x. unfold bytes_lt in Hd'.
    by rewrite bytes_compare_opp, Hd'.
  - intros i j x y Hi Hj Hlt Hg. specialize (Ho i j x y Hi Hj Hlt).
    destruct (bytes_lt_total y d) as [?|[->|Hd]]; [exact (bytes_lt_trans x y d Ho ltac:(done))|done|].
    unfold bytes_lt in Hd. by rewrite bytes_compare_opp, Hd in Hg.
Qed.

(** * Scanning text

    What the scanners use of [u8], [str] and slices: ASCII classes, lower case,
    trimming, splitting and joining, runs of bytes, positions of a substring and
    the ordered set of an arbitrary type. Each search is characterized by the
    decomposition of the text it finds. *)

(** ** Classes of bytes *)

Definition is_ascii_digit (byte : Z) : bool := (48 <=? byte) && (byte <=? 57).
Definition is_ascii_lowercase (byte : Z) : bool := (97 <=? byte) && (byte <=? 122).
Definition is_ascii_alphabetic (byte : Z) : bool := is_ascii_lowercase byte || is_ascii_uppercase byte.
Definition is_ascii_alnum (byte : Z) : bool := is_ascii_alphabetic byte || is_ascii_digit byte.

(** [u8::is_ascii_whitespace]: space, tab, line feed, form feed, carriage return. *)
Definition is_ascii_whitespace (byte : Z) : bool :=
  (byte =? 32) || (byte =? 9) || (byte =? 10) || (byte =? 12) || (byte =? 13).

Definition lower_byte (byte : Z) : Z := if is_ascii_uppercase byte then byte + 32 else byte.
Definition to_ascii_lowercase (text : list Z) : list Z := lower_byte <$> text.

(** ** Strings *)

Definition is_among (bytes : list Z) (byte : Z) : bool := contains byte bytes.

(** [str::trim_start_matches] and [trim_matches] with a set of characters. *)
Fixpoint trim_start_matches (bytes : list Z) (text : list Z) : list Z :=
  match text with
  | [] => []
  | b :: rest => if is_among bytes b then trim_start_matches bytes rest else text
  end.

Definition trim_matches (bytes text : list Z) : list Z :=
  reverse (trim_start_matches bytes (reverse (trim_start_matches bytes text))).

(** [str::split_once] with a character. *)
Fixpoint split_once (separator : Z) (text : list Z) : option (list Z * list Z) :=
  match text with
  | [] => None
  | b :: rest =>
    if b =? separator then Some ([], rest)
    else '(before, after) ← split_once separator rest; Some (b :: before, after)
  end.

(** [str::replace] of a character by a character. *)
Definition replace_byte (old new : Z) (text : list Z) : list Z :=
  (λ b, if b =? old then new else b) <$> text.

(** [str::split] with a set of characters. *)
Fixpoint split_any (separators text : list Z) : list (list Z) :=
  match text with
  | [] => [[]]
  | b :: rest =>
    if is_among separators b then [] :: split_any separators rest
    else match split_any separators rest with
         | part :: parts => (b :: part) :: parts
         | [] => [[b]]
         end
  end.

(** [slice.join(separator)]. *)
Fixpoint join_with (separator : Z) (parts : list (list Z)) : list Z :=
  match parts with
  | [] => []
  | [part] => part
  | part :: parts => part ++ separator :: join_with separator parts
  end.

(** ** Runs *)

(** [iter().take_while(p).count()]. *)
Fixpoint run_length (p : Z → bool) (bytes : list Z) : nat :=
  match bytes with
  | b :: bytes => if p b then S (run_length p bytes) else O
  | [] => O
  end.

(** [while cursor < bytes.len() && p(bytes[cursor]) { cursor += 1 }]. *)
Definition advance (p : Z → bool) (bytes : list Z) (cursor : nat) : nat :=
  (cursor + run_length p (drop cursor bytes))%nat.

(** ** Ordered sets

    A [BTreeSet] of an ordered type is the list its iterator gives; inserting an
    equal element keeps the old one. *)
Fixpoint btree_insert {A} (compare : A → A → comparison) (x : A) (set : list A) : list A :=
  match set with
  | [] => [x]
  | y :: rest =>
    match compare x y with
    | Lt => x :: set
    | Eq => set
    | Gt => y :: btree_insert compare x rest
    end
  end.

(** The order of [Vec<String>]. *)
Fixpoint list_compare {A} (compare : A → A → comparison) (a b : list A) : comparison :=
  match a, b with
  | [], [] => Eq
  | [], _ :: _ => Lt
  | _ :: _, [] => Gt
  | x :: a, y :: b => match compare x y with Eq => list_compare compare a b | o => o end
  end.

(** ** Laws *)

Lemma is_among_true bytes b : is_among bytes b = true ↔ b ∈ bytes.
Proof. apply contains_iff. Qed.

Lemma is_among_false bytes b : is_among bytes b = false ↔ (b ∉ bytes).
Proof. by rewrite <- is_among_true, not_true_iff_false. Qed.

Lemma length_to_ascii_lowercase text : length (to_ascii_lowercase text) = length text.
Proof. apply length_fmap. Qed.

Lemma to_ascii_lowercase_app a b :
  to_ascii_lowercase (a ++ b) = to_ascii_lowercase a ++ to_ascii_lowercase b.
Proof. apply fmap_app. Qed.

(** A decomposition of the lower case text is one of the text. *)
Lemma to_ascii_lowercase_app_inv text a b :
  to_ascii_lowercase text = a ++ b →
  ∃ a' b', text = a' ++ b' ∧ to_ascii_lowercase a' = a ∧ to_ascii_lowercase b' = b.
Proof.
  intros Ht. exists (take (length a) text), (drop (length a) text). rewrite take_drop.
  unfold to_ascii_lowercase in *. rewrite fmap_take, fmap_drop, Ht.
  rewrite take_app_length, drop_app_length. done.
Qed.

Lemma run_length_app p a b : Forall (λ x, p x = true) a → (∀ x, head b = Some x → p x = false) →
  run_length p (a ++ b) = length a.
Proof.
  intros Ha Hb. induction Ha as [|x a Hx _ IH]; simpl.
  - destruct b as [|x b]; simpl; [done|]. by rewrite (Hb x eq_refl).
  - by rewrite Hx, IH.
Qed.

(** A list is a run and a rest that does not continue it. *)
Lemma run_length_split p l (n := run_length p l) :
  Forall (λ x, p x = true) (take n l) ∧ (∀ x, head (drop n l) = Some x → p x = false) ∧ (n <= length l)%nat.
Proof.
  unfold n. induction l as [|x l IH]; simpl; [split_and!; [constructor|done|lia]|].
  destruct (p x) eqn:Hx; simpl.
  - destruct IH as (Ht & Hd & Hl). split_and!; [by constructor|done|lia].
  - split_and!; [constructor| |lia]. by intros y [= <-].
Qed.

Lemma run_length_ge p l n : (n <= run_length p l)%nat ↔
  ∃ a b, l = a ++ b ∧ Forall (λ x, p x = true) a ∧ length a = n.
Proof.
  split.
  - intros Hn. destruct (run_length_split p l) as (Ht & _ & Hl).
    exists (take n l), (drop n l). rewrite take_drop. split; [done|]. split; [|rewrite length_take; lia].
    apply list.Forall_forall. intros x [i Hi]%list_elem_of_lookup.
    apply lookup_take_Some in Hi as [Hi Hlt].
    rewrite list.Forall_forall in Ht. apply Ht. apply list_elem_of_lookup. exists i.
    apply lookup_take_Some. split; [done|lia].
  - intros (a & b & -> & Ha & <-). induction Ha as [|x a Hx _ IH]; simpl; [lia|]. rewrite Hx. lia.
Qed.

Lemma split_once_Some separator text before after :
  split_once separator text = Some (before, after) ↔
  text = before ++ separator :: after ∧ (separator ∉ before).
Proof.
  revert before after. induction text as [|b text IH]; intros before after; simpl.
  - split; [done|]. intros [Ht _]. by destruct before.
  - destruct (Z.eqb_spec b separator) as [->|Hne].
    + split; [intros [= <- <-]; split; [done|apply not_elem_of_nil]|].
      intros [Ht Hn]. destruct before as [|x before]; [naive_solver|].
      injection Ht as <- _. by apply not_elem_of_cons in Hn as [? _].
    + destruct (split_once separator text) as [[x y]|]; simpl.
      * destruct (IH x y) as [Hf _]. specialize (Hf eq_refl) as [-> Hn]. split.
        -- intros [= <- <-]. split; [done|]. by apply not_elem_of_cons.
        -- intros [Ht Hb]. destruct before as [|z before]; [simpl in Ht; congruence|].
           injection Ht as <- Ht. apply not_elem_of_cons in Hb as [_ Hb].
           pose proof (proj2 (IH before after) (conj Ht Hb)) as [= -> ->]. done.
      * split; [done|]. intros [Ht Hb]. destruct before as [|z before]; [simpl in Ht; congruence|].
        injection Ht as <- Ht. apply not_elem_of_cons in Hb as [_ Hb].
        by pose proof (proj2 (IH before after) (conj Ht Hb)).
Qed.
