(* ===== verification/Team.v ===== *)
(** * Signed results of the shared cache

    [src/src/team.rs]: digests and their hexadecimal form, the manifest of a
    shared result, the bytes its signature authenticates, its validation and
    [verify_candidate]. A [String] is its UTF-8 bytes, a [Digest] its 32 bytes,
    a [BTreeMap] a finite map and a [BTreeSet] a finite set. The serde
    implementations are not modelled. *)

From Stdlib Require Import String.
From stdpp Require Import gmap.
From S2P Require Import Prelude Monad Bytes ContractTypes Canonical CanonicalSpec CanonicalParse.
From S2P Require Import CanonicalCodec RecordTypes Paths Digest Text.

Definition REMOTE_CACHE_SCHEMA_VERSION : Z := 1.
Definition SIGNATURE_ENVELOPE_SCHEMA_VERSION : Z := 1.
Definition MAX_BLOB_SIZE : Z := 16 * 1024 * 1024.
Definition MAX_MANIFEST_LIFETIME_SECONDS : Z := 30 * 24 * 60 * 60.
Definition MAX_JSON_SAFE_INTEGER : Z := Z.shiftl 1 53 - 1.
Definition ED25519_SIGNATURE_SIZE : Z := 64.
Definition SIGNING_DOMAIN : list Z := bstr "again.remote-cache.manifest.v1".

(** ** Digests *)

Module DigestErrors.
Inductive DigestError := Length | Hex | Uppercase.
End DigestErrors.
Import DigestErrors.

(** [None] is the unreachable arm. *)
Definition team_hex_nibble (byte : Z) : option Z :=
  if (48 <=? byte) && (byte <=? 57) then Some (byte - 48)
  else if (97 <=? byte) && (byte <=? 102) then Some (byte - 97 + 10)
  else None.

Fixpoint decode_pairs (encoded : list Z) : option (list Z) :=
  match encoded with
  | high :: low :: encoded =>
    h ← team_hex_nibble high; l ← team_hex_nibble low;
    rest ← decode_pairs encoded;
    Some (Z.lor (as_u8 (Z.shiftl h 4)) l :: rest)
  | _ => Some []
  end.

(** [None] is a panic. *)
Definition Digest_from_hex (value : list Z) : option (result DigestError (list Z)) :=
  if negb (len value =? 64) then Some (Err Length)
  else if negb (forallb is_ascii_hexdigit value) then Some (Err Hex)
  else if any is_ascii_uppercase value then Some (Err Uppercase)
  else bytes ← decode_pairs value; Some (Ok bytes).

Definition Digest_to_hex (self : list Z) : list Z :=
  flat_map (λ byte, [default 0 (HEX_DIGITS !! Z.to_nat (Z.shiftr byte 4));
                     default 0 (HEX_DIGITS !! Z.to_nat (Z.land byte 0x0f))]) self.

(** ** The manifest *)

Record BlobRef := mkBlobRef {
  blob_digest : list Z;
  size_bytes : Z;
}.

Inductive PrivacyClass := Public | Internal | Confidential | Secret.
Inductive Shareability := LocalOnly | Tenant | Repository.
Inductive SignatureAlgorithm := Ed25519.

#[export] Instance PrivacyClass_eq_dec : EqDecision PrivacyClass.
Proof. solve_decision. Defined.
#[export] Instance Shareability_eq_dec : EqDecision Shareability.
Proof. solve_decision. Defined.
#[export] Instance SignatureAlgorithm_eq_dec : EqDecision SignatureAlgorithm.
Proof. solve_decision. Defined.

Record PrivacyMetadata := mkPrivacy {
  classification : PrivacyClass;
  shareability : Shareability;
  secret_tainted : bool;
}.

Record SignatureEnvelope := mkEnvelope {
  envelope_schema_version : Z;
  envelope_algorithm : SignatureAlgorithm;
  envelope_key_id : list Z;
  envelope_signature : list Z;
}.

Record RemoteCacheManifest := mkManifest {
  remote_schema_version : Z;
  remote_record_id : list Z;
  remote_tenant_id : list Z;
  remote_repository_id : list Z;
  remote_request_key : list Z;
  remote_policy_digest : list Z;
  remote_execution_profile_digest : list Z;
  remote_platform_digest : list Z;
  remote_image_digest : list Z;
  remote_stdout : BlobRef;
  remote_stderr : BlobRef;
  remote_producer_id : list Z;
  remote_created_at : Z;
  remote_expires_at : Z;
  remote_privacy : PrivacyMetadata;
  remote_signature : option SignatureEnvelope;
}.

(** ** The signed bytes *)

Definition put_u8 (value : Z) : list Z := [value].
Definition put_u16 (value : Z) : list Z := le_bytes 2 value.
Definition put_u64 (value : Z) : list Z := le_bytes 8 value.
Definition put_bytes (value : list Z) : list Z := put_u64 (len value) ++ value.
Definition put_string (value : list Z) : list Z := put_bytes value.
Definition put_digest (value : list Z) : list Z := put_bytes value.
Definition put_blob (value : BlobRef) : list Z :=
  put_digest (blob_digest value) ++ put_u64 (size_bytes value).

Definition privacy_class_tag (value : PrivacyClass) : Z :=
  match value with Public => 1 | Internal => 2 | Confidential => 3 | Secret => 4 end.

Definition shareability_tag (value : Shareability) : Z :=
  match value with LocalOnly => 1 | Tenant => 2 | Repository => 3 end.

Definition signature_algorithm_tag (value : SignatureAlgorithm) : Z :=
  match value with Ed25519 => 1 end.

Definition put_envelope (signature : option SignatureEnvelope) : list Z :=
  match signature with
  | Some signature =>
    put_u8 1 ++ put_u16 (envelope_schema_version signature) ++
    put_u8 (signature_algorithm_tag (envelope_algorithm signature)) ++
    put_string (envelope_key_id signature)
  | None => put_u8 0
  end.

Definition manifest_signing_bytes (self : RemoteCacheManifest) : list Z :=
  put_bytes SIGNING_DOMAIN ++
  put_u16 (remote_schema_version self) ++
  put_string (remote_record_id self) ++
  put_string (remote_tenant_id self) ++
  put_string (remote_repository_id self) ++
  put_digest (remote_request_key self) ++
  put_digest (remote_policy_digest self) ++
  put_digest (remote_execution_profile_digest self) ++
  put_digest (remote_platform_digest self) ++
  put_digest (remote_image_digest self) ++
  put_blob (remote_stdout self) ++
  put_blob (remote_stderr self) ++
  put_string (remote_producer_id self) ++
  put_u64 (remote_created_at self) ++
  put_u64 (remote_expires_at self) ++
  put_u8 (privacy_class_tag (classification (remote_privacy self))) ++
  put_u8 (shareability_tag (shareability (remote_privacy self))) ++
  put_u8 (Z.b2z (secret_tainted (remote_privacy self))) ++
  put_envelope (remote_signature self).

(** ** Validation *)

Module VerificationErrors.
Inductive VerificationError :=
| UnknownSchemaVersion | UnknownSignatureSchemaVersion | UnsupportedSignatureAlgorithm | Unsigned
| InvalidIdentifier (field : string) | InvalidBlobSize | InvalidSignatureSize | TimestampOutOfRange
| InvalidLifetime | Expired | CreatedInFuture | RevokedKey | UntrustedProducer | RevokedRecord
| TenantMismatch | RepositoryMismatch | RequestKeyMismatch | PolicyMismatch
| ExecutionProfileMismatch | PlatformMismatch | ImageMismatch | Unshareable
| UnencryptedConfidential | SecretTainted | InvalidSignature.
End VerificationErrors.

Definition team_validate_identifier (value : list Z) : result () () :=
  if bool_decide (value = []) || (256 <? len value)
     || any (λ c, is_control c || is_whitespace c) (chars value)
  then Err () else Ok ().

(** [Result::map_err]. *)
Definition map_err {E F A} (f : E → F) (r : result E A) : result F A :=
  match r with Ok a => Ok a | Err e => Err (f e) end.

Section validation.
Import VerificationErrors.

Definition validate_blob (blob : BlobRef) : result VerificationError () :=
  if MAX_BLOB_SIZE <? size_bytes blob then Err InvalidBlobSize else Ok ().

Definition named_identifier (value : list Z) (name : string) : result VerificationError () :=
  map_err (λ _, InvalidIdentifier name) (team_validate_identifier value).

Definition validate_for_signing (self : RemoteCacheManifest) : result VerificationError () :=
  if negb (remote_schema_version self =? REMOTE_CACHE_SCHEMA_VERSION) then Err UnknownSchemaVersion
  else
    _ ← named_identifier (remote_record_id self) "record_id";
    _ ← named_identifier (remote_tenant_id self) "tenant_id";
    _ ← named_identifier (remote_repository_id self) "repository_id";
    _ ← named_identifier (remote_producer_id self) "producer_id";
    _ ← validate_blob (remote_stdout self);
    _ ← validate_blob (remote_stderr self);
    if (MAX_JSON_SAFE_INTEGER <? remote_created_at self)
       || (MAX_JSON_SAFE_INTEGER <? remote_expires_at self) then Err TimestampOutOfRange
    else if (remote_expires_at self <=? remote_created_at self)
       || (MAX_MANIFEST_LIFETIME_SECONDS <? remote_expires_at self - remote_created_at self)
    then Err InvalidLifetime
    else if bool_decide (classification (remote_privacy self) = Confidential)
    then Err UnencryptedConfidential
    else if secret_tainted (remote_privacy self)
       || bool_decide (classification (remote_privacy self) = Secret)
    then Err SecretTainted
    else if bool_decide (shareability (remote_privacy self) = LocalOnly) then Err Unshareable
    else
      signature ← ok_or (remote_signature self) Unsigned;
      if negb (envelope_schema_version signature =? SIGNATURE_ENVELOPE_SCHEMA_VERSION)
      then Err UnknownSignatureSchemaVersion
      else named_identifier (envelope_key_id signature) "signature.key_id".

Definition validate_wire (self : RemoteCacheManifest) : result VerificationError () :=
  _ ← validate_for_signing self;
  signature ← ok_or (remote_signature self) Unsigned;
  if negb (len (envelope_signature signature) =? ED25519_SIGNATURE_SIZE)
  then Err InvalidSignatureSize else Ok ().
End validation.

(** ** Verification *)

Record VerificationContext := mkContext {
  context_tenant_id : list Z;
  context_repository_id : list Z;
  context_request_key : list Z;
  context_policy_digest : list Z;
  context_execution_profile_digest : list Z;
  context_platform_digest : list Z;
  context_image_digest : list Z;
  context_now : Z;
  trusted_producer_keys : gmap (list Z) (list Z);
  context_revoked_key_ids : gset (list Z);
  context_revoked_record_ids : gset (list Z);
}.

(** The result of verification; the field is private to the module. *)
Record VerifiedCandidate := mkVerified { verified_remote : RemoteCacheManifest }.

(** The trait [SignatureVerifier]. *)
Class SignatureVerifier (V : Type) :=
  verify : V → SignatureAlgorithm → list Z → list Z → list Z → list Z → bool.

Section verification.
Import VerificationErrors.
Context {V : Type} `{!SignatureVerifier V}.

Definition verify_candidate (manifest : RemoteCacheManifest) (expected : VerificationContext)
    (verifier : V) : result VerificationError VerifiedCandidate :=
  _ ← validate_wire manifest;
  _ ← named_identifier (context_tenant_id expected) "expected.tenant_id";
  _ ← named_identifier (context_repository_id expected) "expected.repository_id";
  if negb (bytes_eqb (remote_tenant_id manifest) (context_tenant_id expected))
  then Err TenantMismatch
  else if negb (bytes_eqb (remote_repository_id manifest) (context_repository_id expected))
  then Err RepositoryMismatch
  else if negb (bytes_eqb (remote_request_key manifest) (context_request_key expected))
  then Err RequestKeyMismatch
  else if negb (bytes_eqb (remote_policy_digest manifest) (context_policy_digest expected))
  then Err PolicyMismatch
  else if negb (bytes_eqb (remote_execution_profile_digest manifest)
                  (context_execution_profile_digest expected))
  then Err ExecutionProfileMismatch
  else if negb (bytes_eqb (remote_platform_digest manifest) (context_platform_digest expected))
  then Err PlatformMismatch
  else if negb (bytes_eqb (remote_image_digest manifest) (context_image_digest expected))
  then Err ImageMismatch
  else if context_now expected <? remote_created_at manifest then Err CreatedInFuture
  else if remote_expires_at manifest <=? context_now expected then Err Expired
  else if bool_decide (remote_record_id manifest ∈ context_revoked_record_ids expected)
  then Err RevokedRecord
  else
    signature ← ok_or (remote_signature manifest) Unsigned;
    if bool_decide (envelope_key_id signature ∈ context_revoked_key_ids expected)
    then Err RevokedKey
    else if negb (bool_decide (trusted_producer_keys expected !! envelope_key_id signature
                               = Some (remote_producer_id manifest)))
    then Err UntrustedProducer
    else if negb (verify verifier (envelope_algorithm signature) (envelope_key_id signature)
                    (remote_producer_id manifest) (manifest_signing_bytes manifest)
                    (envelope_signature signature))
    then Err InvalidSignature
    else Ok (mkVerified manifest).
End verification.
