(* ===== verification/TeamCrypto.v ===== *)
(** * Ed25519 keys of producers

    [src/src/team_crypto.rs]: the signer with its key and producer identities,
    and the verifier keyring. The curve arithmetic of ed25519-dalek is a
    parameter, the class [Ed25519Dalek]; [Ed25519DalekOk] holds the documented
    facts used: a verifying key derived from a secret is well formed, signatures
    are 64 bytes long, and a signature verifies under the key that made it. A
    [VerifyingKey] is its 32 bytes, which is also how two of them are compared. *)

From Stdlib Require Import String.
From stdpp Require Import gmap.
From S2P Require Import Prelude Monad Bytes ContractTypes Canonical CanonicalSpec CanonicalParse.
From S2P Require Import CanonicalCodec RecordTypes Paths Digest Text Team.

Class Ed25519Dalek := {
  (** [VerifyingKey::from_bytes(..).is_ok()]. *)
  is_verifying_key : list Z → bool;
  (** [VerifyingKey::verify_strict(..).is_ok()]: key, message, signature. *)
  verify_strict : list Z → list Z → list Z → bool;
  (** [SigningKey::verifying_key]. *)
  verifying_key_of : list Z → list Z;
  (** [SigningKey::sign]: secret, message. *)
  sign : list Z → list Z → list Z;
}.

Class Ed25519DalekOk `{Ed25519Dalek} : Prop := {
  verifying_key_valid secret : len secret = 32 →
    len (verifying_key_of secret) = 32 ∧ is_verifying_key (verifying_key_of secret) = true;
  sign_length secret message : len secret = 32 → len (sign secret message) = 64;
  sign_verifies secret message : len secret = 32 →
    verify_strict (verifying_key_of secret) message (sign secret message) = true;
}.

Definition ED25519_SECRET_KEY_BYTES : Z := 32.
Definition ED25519_PUBLIC_KEY_BYTES : Z := 32.

Module CryptoErrors.
Inductive CryptoError :=
| InvalidIdentifier (field : string) | InvalidSecretKeyLength | InvalidPublicKeyLength
| InvalidPublicKey | ProducerMismatch | KeyMismatch | KeyIdCollision
| InvalidManifest (error : VerificationErrors.VerificationError).
End CryptoErrors.
Import CryptoErrors.

Definition crypto_validate_identifier (value : list Z) (field : string) : result CryptoError () :=
  if bool_decide (value = []) || (256 <? len value)
     || any (λ c, is_control c || is_whitespace c) (chars value)
  then Err (InvalidIdentifier field) else Ok ().

(** ** Signing *)

Record Ed25519Signer := mkSigner {
  signer_key_id : list Z;
  signer_producer_id : list Z;
  signing_key : list Z;
}.

Definition Ed25519Signer_from_secret_key (key_id producer_id secret_key : list Z) :
    result CryptoError Ed25519Signer :=
  _ ← crypto_validate_identifier key_id "key_id";
  _ ← crypto_validate_identifier producer_id "producer_id";
  if negb (len secret_key =? ED25519_SECRET_KEY_BYTES) then Err InvalidSecretKeyLength
  else Ok (mkSigner key_id producer_id secret_key).

Definition with_signature (m : RemoteCacheManifest) (signature : option SignatureEnvelope) :
    RemoteCacheManifest :=
  {| remote_schema_version := remote_schema_version m;
     remote_record_id := remote_record_id m;
     remote_tenant_id := remote_tenant_id m;
     remote_repository_id := remote_repository_id m;
     remote_request_key := remote_request_key m;
     remote_policy_digest := remote_policy_digest m;
     remote_execution_profile_digest := remote_execution_profile_digest m;
     remote_platform_digest := remote_platform_digest m;
     remote_image_digest := remote_image_digest m;
     remote_stdout := remote_stdout m;
     remote_stderr := remote_stderr m;
     remote_producer_id := remote_producer_id m;
     remote_created_at := remote_created_at m;
     remote_expires_at := remote_expires_at m;
     remote_privacy := remote_privacy m;
     remote_signature := signature |}.

Section crypto.
Context `{Ed25519Dalek}.

Definition signer_public_key_bytes (self : Ed25519Signer) : list Z :=
  verifying_key_of (signing_key self).

Definition sign_protocol_message (self : Ed25519Signer) (message : list Z) : list Z :=
  sign (signing_key self) message.

(** The signed manifest; on an error the caller's manifest is unchanged. *)
Definition sign_manifest (self : Ed25519Signer) (manifest : RemoteCacheManifest) :
    result CryptoError RemoteCacheManifest :=
  if negb (bytes_eqb (remote_producer_id manifest) (signer_producer_id self))
  then Err ProducerMismatch
  else if match remote_signature manifest with
          | Some signature => negb (bytes_eqb (envelope_key_id signature) (signer_key_id self))
          | None => false
          end
  then Err KeyMismatch
  else
    let envelope := mkEnvelope SIGNATURE_ENVELOPE_SCHEMA_VERSION Ed25519 (signer_key_id self) in
    let candidate := with_signature manifest (Some (envelope (replicate 64 0))) in
    _ ← map_err InvalidManifest (validate_for_signing candidate);
    let signature := sign (signing_key self) (manifest_signing_bytes candidate) in
    Ok (with_signature manifest (Some (envelope signature))).

(** ** Verifying *)

Record Ed25519Verifier := mkVerifier { verifier_keys : gmap (list Z) (list Z * list Z) }.

Definition Ed25519Verifier_new : Ed25519Verifier := mkVerifier ∅.

(** The keyring afterwards; on an error it is unchanged. *)
Definition insert_public_key (self : Ed25519Verifier) (key_id producer_id public_key : list Z) :
    result CryptoError Ed25519Verifier :=
  _ ← crypto_validate_identifier key_id "key_id";
  _ ← crypto_validate_identifier producer_id "producer_id";
  if negb (len public_key =? ED25519_PUBLIC_KEY_BYTES) then Err InvalidPublicKeyLength
  else if negb (is_verifying_key public_key) then Err InvalidPublicKey
  else match verifier_keys self !! key_id with
  | Some (existing_producer, existing_key) =>
    if bytes_eqb existing_producer producer_id && bytes_eqb existing_key public_key
    then Ok self else Err KeyIdCollision
  | None => Ok (mkVerifier (<[key_id := (producer_id, public_key)]> (verifier_keys self)))
  end.

Definition Ed25519Verifier_from_public_key (key_id producer_id public_key : list Z) :
    result CryptoError Ed25519Verifier :=
  insert_public_key Ed25519Verifier_new key_id producer_id public_key.

Definition producer_for_key (self : Ed25519Verifier) (key_id : list Z) : option (list Z) :=
  fst <$> verifier_keys self !! key_id.

Definition Ed25519Verifier_verify (self : Ed25519Verifier) (algorithm : SignatureAlgorithm)
    (key_id producer_id signing_bytes signature : list Z) : bool :=
  if negb (bool_decide (algorithm = Ed25519)) || negb (len signature =? ED25519_SIGNATURE_SIZE)
  then false
  else match verifier_keys self !! key_id with
  | None => false
  | Some (owner, key) =>
    if negb (bytes_eqb owner producer_id) then false
    else verify_strict key signing_bytes signature
  end.

#[export] Instance Ed25519Verifier_SignatureVerifier : SignatureVerifier Ed25519Verifier :=
  Ed25519Verifier_verify.
End crypto.
