(* ===== verification/TrustBundle.v ===== *)
(** * Trust bundles

    [src/src/trust_bundle.rs]: the bundle the root signs (which producer keys
    are active, which keys and records are revoked, which policies, profiles,
    platforms and images are allowed), the tracker that keeps what was accepted
    for every scope, its checkpoints, and the capability a verified bundle
    gives. The tracker is the state of [state_m]; the [expect] in
    [digest_bytes] is a panic. The URL parser of reqwest is a parameter, the
    class [UrlParser], and the plain BLAKE3 hash another, [Blake3Hash]. *)

From Stdlib Require Import String.
From stdpp Require Import gmap.
From S2P Require Import Prelude Monad Bytes ContractTypes Canonical CanonicalSpec CanonicalParse.
From S2P Require Import CanonicalCodec RecordTypes Paths RecordValidation Digest Text Team TeamCrypto.

(** ** Parameters *)

(** [reqwest::Url]: the parts the code asks for. *)
Record ParsedUrl := mkUrl {
  url_scheme : list Z;
  url_host : option (list Z);
  url_username : list Z;
  url_password : option (list Z);
  url_path : list Z;
  url_query : option (list Z);
  url_fragment : option (list Z);
  url_origin : list Z;
}.

Class UrlParser := url_parse : list Z → option ParsedUrl.

(** ** Data *)

Definition TRUST_BUNDLE_SCHEMA_VERSION : Z := 1.
Definition TRUST_CHECKPOINT_SCHEMA_VERSION : Z := 1.
Definition TRUST_CHECKPOINT_NAMESPACE : list Z := bstr "again.trust-checkpoint.v1".
Definition MAX_TRUST_BUNDLE_LIFETIME_SECONDS : Z := 5 * 60.
Definition MAX_TRUST_BUNDLE_FUTURE_SKEW_SECONDS : Z := 30.
Definition MAX_TRUST_BUNDLE_ENTRIES_PER_SET : Z := 4096.
Definition TRUST_BUNDLE_SIGNING_DOMAIN : list Z := bstr "again.trust-bundle.v1".
Definition ED25519_PUBLIC_KEY_SIZE : Z := 32.

Record ProducerKeyBindingV1 := mkBinding {
  binding_key_id : list Z;
  binding_producer_id : list Z;
  binding_public_key : list Z;
}.

Record TrustBundleV1 := mkBundle {
  bundle_schema_version : Z;
  bundle_root_key_id : list Z;
  bundle_tenant_id : list Z;
  bundle_repository_id : list Z;
  bundle_generation_id : list Z;
  bundle_endpoint_origin : list Z;
  bundle_epoch : Z;
  bundle_issued_at : Z;
  bundle_expires_at : Z;
  active_producer_keys : list ProducerKeyBindingV1;
  bundle_revoked_key_ids : list (list Z);
  bundle_revoked_record_ids : list (list Z);
  allowed_policy_digests : list (list Z);
  allowed_execution_profile_digests : list (list Z);
  allowed_platform_digests : list (list Z);
  allowed_image_digests : list (list Z);
  bundle_signature : list Z;
}.

Record TrustCheckpointV1 := mkCheckpoint {
  checkpoint_schema_version : Z;
  checkpoint_namespace : list Z;
  checkpoint_root_key_id : list Z;
  checkpoint_root_public_key : list Z;
  checkpoint_tenant_id : list Z;
  checkpoint_repository_id : list Z;
  checkpoint_generation_id : list Z;
  checkpoint_endpoint_origin : list Z;
  highest_epoch : Z;
  same_epoch_digest : list Z;
  checkpoint_historical_key_bindings : list ProducerKeyBindingV1;
  checkpoint_revoked_key_ids : list (list Z);
  checkpoint_revoked_record_ids : list (list Z);
}.

Record PinnedRootKey := mkRoot {
  root_key_id : list Z;
  root_verifying_key : list Z;
}.

Record ExpectedTrustBundle := mkExpected {
  expected_tenant_id : list Z;
  expected_repository_id : list Z;
  expected_generation_id : list Z;
  expected_endpoint_origin : list Z;
}.

Record TrustBoundRequest := mkRequest {
  request_request_key : list Z;
  request_policy_digest : list Z;
  request_execution_profile_digest : list Z;
  request_platform_digest : list Z;
  request_image_digest : list Z;
}.

Record TrustScope := mkScope {
  scope_tenant_id : list Z;
  scope_repository_id : list Z;
  scope_generation_id : list Z;
  scope_endpoint_origin : list Z;
}.

#[export] Instance TrustScope_eq_dec : EqDecision TrustScope.
Proof. solve_decision. Defined.

Definition scope_parts (s : TrustScope) : list (list Z) :=
  [scope_tenant_id s; scope_repository_id s; scope_generation_id s; scope_endpoint_origin s].

Definition scope_of_parts (l : list (list Z)) : option TrustScope :=
  match l with [t; r; g; o] => Some (mkScope t r g o) | _ => None end.

#[export] Instance TrustScope_countable : Countable TrustScope.
Proof. refine (inj_countable scope_parts scope_of_parts _). by intros []. Defined.

Record AcceptedEpoch := mkAccepted {
  accepted_epoch : Z;
  canonical_signing_digest : list Z;
  historical_key_bindings : gmap (list Z) (list Z * list Z);
  accepted_revoked_key_ids : gset (list Z);
  accepted_revoked_record_ids : gset (list Z);
}.

Record TrustEpochTracker := mkTracker { accepted : gmap TrustScope AcceptedEpoch }.

Record VerifiedTrustBundle := mkVerifiedBundle {
  verified_bundle : TrustBundleV1;
  verified_trusted_producer_keys : gmap (list Z) (list Z);
  verified_revoked_key_ids : gset (list Z);
  verified_revoked_record_ids : gset (list Z);
  producer_verifier : Ed25519Verifier;
}.

Module TrustErrors.
Inductive TrustBundleError :=
| UnknownSchemaVersion | InvalidIdentifier (field : string) | InvalidEndpointOrigin | InvalidEpoch
| EpochOutOfRange | TimestampOutOfRange | InvalidLifetime | IssuedInFuture | Expired
| RootKeyMismatch | InvalidRootPublicKey | InvalidSignatureSize | InvalidSignature | TenantMismatch
| RepositoryMismatch | InvalidGenerationId | GenerationMismatch | EndpointOriginMismatch
| TooManyEntries (field : string) | UnsortedOrDuplicate (field : string)
| InvalidProducerPublicKey | ActiveKeyRevoked | EpochRollback | DivergentEpoch | KeyRebinding
| KeyRevocationRollback | RecordRevocationRollback | PolicyDigestNotAllowed
| ExecutionProfileDigestNotAllowed | PlatformDigestNotAllowed | ImageDigestNotAllowed
| UnknownCheckpointSchemaVersion | CheckpointNamespaceMismatch | CheckpointScopeMismatch
| CheckpointRootMismatch | HistoricalKeyBindingRollback.
End TrustErrors.
Import TrustErrors.

Abbreviation trust := (result TrustBundleError).

(** ** The signed bytes *)

Definition put_count (count : Z) : list Z := put_u64 count.

Definition put_strings (values : list (list Z)) : list Z :=
  put_count (len values) ++ flat_map put_string values.

Definition put_digests (values : list (list Z)) : list Z :=
  put_count (len values) ++ flat_map put_bytes values.

Definition put_binding (binding : ProducerKeyBindingV1) : list Z :=
  put_string (binding_key_id binding) ++ put_string (binding_producer_id binding) ++
  put_bytes (binding_public_key binding).

Definition bundle_signing_bytes (self : TrustBundleV1) : list Z :=
  put_bytes TRUST_BUNDLE_SIGNING_DOMAIN ++
  put_u16 (bundle_schema_version self) ++
  put_string (bundle_root_key_id self) ++
  put_string (bundle_tenant_id self) ++
  put_string (bundle_repository_id self) ++
  put_string (bundle_generation_id self) ++
  put_string (bundle_endpoint_origin self) ++
  put_u64 (bundle_epoch self) ++
  put_u64 (bundle_issued_at self) ++
  put_u64 (bundle_expires_at self) ++
  put_count (len (active_producer_keys self)) ++
  flat_map put_binding (active_producer_keys self) ++
  put_strings (bundle_revoked_key_ids self) ++
  put_strings (bundle_revoked_record_ids self) ++
  put_digests (allowed_policy_digests self) ++
  put_digests (allowed_execution_profile_digests self) ++
  put_digests (allowed_platform_digests self) ++
  put_digests (allowed_image_digests self).

(** [None] is the panic of [expect]. *)
Definition digest_bytes `{Blake3Hash} (bytes : list Z) : option (list Z) :=
  match Digest_from_hex (Digest_to_hex (blake3_hash bytes)) with
  | Some (Ok digest) => Some digest
  | _ => None
  end.

(** ** Shape *)

Definition validate_identifier (value : list Z) (field : string) : trust () :=
  if bool_decide (value = []) || (256 <? len value)
     || any (λ c, is_control c || is_whitespace c) (chars value)
  then Err (InvalidIdentifier field) else Ok ().

Definition validate_generation_id (value : list Z) : trust () :=
  if negb (len value =? 32)
     || any (λ byte, negb (is_ascii_hexdigit byte) || is_ascii_uppercase byte) value
  then Err InvalidGenerationId else Ok ().

Definition check_count (field : string) (count : Z) : trust () :=
  if MAX_TRUST_BUNDLE_ENTRIES_PER_SET <? count then Err (TooManyEntries field) else Ok ().

Definition strictly_sorted_by {A} (less : A → A → bool) (values : list A) : bool :=
  windows_all less values.

Definition bytes_less (left right : list Z) : bool :=
  match bytes_compare left right with Lt => true | _ => false end.

(** [for value in values { f(value)?; }]. *)
Fixpoint try_for_each {A} (f : A → trust ()) (values : list A) : trust () :=
  match values with
  | [] => Ok ()
  | value :: values => _ ← f value; try_for_each f values
  end.

Definition validate_identifier_list (field : string) (values : list (list Z)) : trust () :=
  _ ← check_count field (len values);
  _ ← try_for_each (λ value, validate_identifier value field) values;
  if negb (strictly_sorted_by bytes_less values) then Err (UnsortedOrDuplicate field) else Ok ().

Definition validate_digest_list (field : string) (values : list (list Z)) : trust () :=
  _ ← check_count field (len values);
  if negb (strictly_sorted_by bytes_less values) then Err (UnsortedOrDuplicate field) else Ok ().

Definition contains_digest (values : list (list Z)) (expected : list Z) : bool :=
  binary_search (λ candidate, bytes_compare candidate expected) values.

Definition validate_freshness (bundle : TrustBundleV1) (now_unix_seconds : Z) : trust () :=
  if Z.min (now_unix_seconds + MAX_TRUST_BUNDLE_FUTURE_SKEW_SECONDS) U64_MAX
     <? bundle_issued_at bundle
  then Err IssuedInFuture
  else if bundle_expires_at bundle <=? now_unix_seconds then Err Expired else Ok ().

Section shape.
Context `{Ed25519Dalek, UrlParser}.

Definition validate_endpoint_origin (value : list Z) : trust () :=
  if (2048 <? len value) || negb (is_ascii value) then Err InvalidEndpointOrigin
  else
    parsed ← ok_or (url_parse value) InvalidEndpointOrigin;
    if negb (bytes_eqb (url_scheme parsed) (bstr "https"))
       || bool_decide (url_host parsed = None)
       || negb (bool_decide (url_username parsed = []))
       || bool_decide (is_Some (url_password parsed))
       || negb (bytes_eqb (url_path parsed) (bstr "/"))
       || bool_decide (is_Some (url_query parsed))
       || bool_decide (is_Some (url_fragment parsed))
       || negb (bytes_eqb (url_origin parsed) value)
    then Err InvalidEndpointOrigin else Ok ().

(** One binding of a list: its identifiers and its key. *)
Definition validate_binding (key_field producer_field : string) (binding : ProducerKeyBindingV1) :
    trust () :=
  _ ← validate_identifier (binding_key_id binding) key_field;
  _ ← validate_identifier (binding_producer_id binding) producer_field;
  if negb (is_verifying_key (binding_public_key binding)) then Err InvalidProducerPublicKey
  else Ok ().

Definition binding_less (left right : ProducerKeyBindingV1) : bool :=
  bytes_less (binding_key_id left) (binding_key_id right).

Definition validate_wire_shape (bundle : TrustBundleV1) : trust () :=
  if negb (bundle_schema_version bundle =? TRUST_BUNDLE_SCHEMA_VERSION)
  then Err UnknownSchemaVersion
  else
    _ ← validate_identifier (bundle_root_key_id bundle) "root_key_id";
    _ ← validate_identifier (bundle_tenant_id bundle) "tenant_id";
    _ ← validate_identifier (bundle_repository_id bundle) "repository_id";
    _ ← validate_generation_id (bundle_generation_id bundle);
    _ ← validate_endpoint_origin (bundle_endpoint_origin bundle);
    if bundle_epoch bundle =? 0 then Err InvalidEpoch
    else if MAX_JSON_SAFE_INTEGER <? bundle_epoch bundle then Err EpochOutOfRange
    else if (MAX_JSON_SAFE_INTEGER <? bundle_issued_at bundle)
       || (MAX_JSON_SAFE_INTEGER <? bundle_expires_at bundle) then Err TimestampOutOfRange
    else if (bundle_expires_at bundle <=? bundle_issued_at bundle)
       || (MAX_TRUST_BUNDLE_LIFETIME_SECONDS <? bundle_expires_at bundle - bundle_issued_at bundle)
    then Err InvalidLifetime
    else if negb (len (bundle_signature bundle) =? ED25519_SIGNATURE_SIZE)
    then Err InvalidSignatureSize
    else
      _ ← check_count "active_producer_keys" (len (active_producer_keys bundle));
      _ ← try_for_each
            (validate_binding "active_producer_keys.key_id" "active_producer_keys.producer_id")
            (active_producer_keys bundle);
      if negb (strictly_sorted_by binding_less (active_producer_keys bundle))
      then Err (UnsortedOrDuplicate "active_producer_keys")
      else
        _ ← validate_identifier_list "revoked_key_ids" (bundle_revoked_key_ids bundle);
        _ ← validate_identifier_list "revoked_record_ids" (bundle_revoked_record_ids bundle);
        _ ← validate_digest_list "allowed_policy_digests" (allowed_policy_digests bundle);
        _ ← validate_digest_list "allowed_execution_profile_digests"
              (allowed_execution_profile_digests bundle);
        _ ← validate_digest_list "allowed_platform_digests" (allowed_platform_digests bundle);
        _ ← validate_digest_list "allowed_image_digests" (allowed_image_digests bundle);
        let revoked := list_to_set (bundle_revoked_key_ids bundle) : gset (list Z) in
        if any (λ binding, bool_decide (binding_key_id binding ∈ revoked))
             (active_producer_keys bundle)
        then Err ActiveKeyRevoked else Ok ().

Definition PinnedRootKey_from_public_key (key_id public_key : list Z) : trust PinnedRootKey :=
  _ ← validate_identifier key_id "pinned_root_key_id";
  if negb (len public_key =? ED25519_PUBLIC_KEY_SIZE) then Err InvalidRootPublicKey
  else if negb (is_verifying_key public_key) then Err InvalidRootPublicKey
  else Ok (mkRoot key_id public_key).

Definition root_public_key_bytes (self : PinnedRootKey) : list Z := root_verifying_key self.

Definition validate_expected (expected : ExpectedTrustBundle) : trust () :=
  _ ← validate_identifier (expected_tenant_id expected) "expected.tenant_id";
  _ ← validate_identifier (expected_repository_id expected) "expected.repository_id";
  _ ← validate_generation_id (expected_generation_id expected);
  validate_endpoint_origin (expected_endpoint_origin expected).
End shape.

Definition expected_scope (expected : ExpectedTrustBundle) : TrustScope :=
  mkScope (expected_tenant_id expected) (expected_repository_id expected)
    (expected_generation_id expected) (expected_endpoint_origin expected).

Definition bundle_scope (bundle : TrustBundleV1) : TrustScope :=
  mkScope (bundle_tenant_id bundle) (bundle_repository_id bundle)
    (bundle_generation_id bundle) (bundle_endpoint_origin bundle).

(** [.map(|binding| (key_id, (producer_id, public_key))).collect()]: a later
    binding of a key replaces an earlier one. *)
Definition collect_bindings (bindings : list ProducerKeyBindingV1) :
    gmap (list Z) (list Z * list Z) :=
  foldl (λ m b, <[binding_key_id b := (binding_producer_id b, binding_public_key b)]> m) ∅ bindings.

(** ** The tracker *)

Definition TrustEpochTracker_new : TrustEpochTracker := mkTracker ∅.

Definition highest_accepted_epoch (self : TrustEpochTracker)
    (tenant_id repository_id generation_id endpoint_origin : list Z) : option Z :=
  accepted_epoch <$> accepted self !! mkScope tenant_id repository_id generation_id endpoint_origin.

Definition insert_accepted (scope : TrustScope) (state : AcceptedEpoch) (self : TrustEpochTracker) :
    TrustEpochTracker := mkTracker (<[scope := state]> (accepted self)).

(** The loop over the active bindings of a newer bundle, in key order. *)
Fixpoint check_active_bindings (previous : AcceptedEpoch)
    (active : list (list Z * (list Z * list Z))) : trust () :=
  match active with
  | [] => Ok ()
  | (key_id, binding) :: active =>
    if match historical_key_bindings previous !! key_id with
       | Some historical => negb (bool_decide (historical = binding))
       | None => false
       end
    then Err KeyRebinding
    else if bool_decide (key_id ∈ accepted_revoked_key_ids previous)
    then Err KeyRevocationRollback
    else check_active_bindings previous active
  end.

Definition check_previous (previous : AcceptedEpoch) (bundle : TrustBundleV1)
    (canonical_digest : list Z) (active_bindings : gmap (list Z) (list Z * list Z))
    (revoked_key_ids revoked_record_ids : gset (list Z)) : trust () :=
  if bundle_epoch bundle <? accepted_epoch previous then Err EpochRollback
  else if bundle_epoch bundle =? accepted_epoch previous then
    if negb (bytes_eqb canonical_digest (canonical_signing_digest previous))
    then Err DivergentEpoch else Ok ()
  else
    _ ← check_active_bindings previous (entries active_bindings);
    if negb (bool_decide (accepted_revoked_key_ids previous ⊆ revoked_key_ids))
    then Err KeyRevocationRollback
    else if negb (bool_decide (accepted_revoked_record_ids previous ⊆ revoked_record_ids))
    then Err RecordRevocationRollback
    else Ok ().

(** The loop over the historical bindings of the earlier state, in key order. *)
Fixpoint check_historical (candidate : AcceptedEpoch)
    (historical : list (list Z * (list Z * list Z))) : trust () :=
  match historical with
  | [] => Ok ()
  | (key_id, binding) :: historical =>
    match historical_key_bindings candidate !! key_id with
    | Some candidate_binding =>
      if bool_decide (candidate_binding = binding) then check_historical candidate historical
      else Err KeyRebinding
    | None => Err HistoricalKeyBindingRollback
    end
  end.

Definition validate_monotonic_state (previous candidate : AcceptedEpoch) : trust () :=
  if accepted_epoch candidate <? accepted_epoch previous then Err EpochRollback
  else if (accepted_epoch candidate =? accepted_epoch previous)
     && negb (bytes_eqb (canonical_signing_digest candidate) (canonical_signing_digest previous))
  then Err DivergentEpoch
  else
    _ ← check_historical candidate (entries (historical_key_bindings previous));
    if negb (bool_decide (accepted_revoked_key_ids previous ⊆ accepted_revoked_key_ids candidate))
    then Err KeyRevocationRollback
    else if negb (bool_decide (accepted_revoked_record_ids previous
                               ⊆ accepted_revoked_record_ids candidate))
    then Err RecordRevocationRollback
    else Ok ().

Section tracker.
Context `{Ed25519Dalek, UrlParser}.

Definition export_checkpoint (self : TrustEpochTracker) (expected : ExpectedTrustBundle)
    (pinned_root : PinnedRootKey) : trust (option TrustCheckpointV1) :=
  _ ← validate_expected expected;
  let scope := expected_scope expected in
  match accepted self !! scope with
  | None => Ok None
  | Some state =>
    Ok (Some {|
      checkpoint_schema_version := TRUST_CHECKPOINT_SCHEMA_VERSION;
      checkpoint_namespace := TRUST_CHECKPOINT_NAMESPACE;
      checkpoint_root_key_id := root_key_id pinned_root;
      checkpoint_root_public_key := root_public_key_bytes pinned_root;
      checkpoint_tenant_id := scope_tenant_id scope;
      checkpoint_repository_id := scope_repository_id scope;
      checkpoint_generation_id := scope_generation_id scope;
      checkpoint_endpoint_origin := scope_endpoint_origin scope;
      highest_epoch := accepted_epoch state;
      same_epoch_digest := canonical_signing_digest state;
      checkpoint_historical_key_bindings :=
        (λ '(key_id, (producer_id, public_key)), mkBinding key_id producer_id public_key)
          <$> entries (historical_key_bindings state);
      checkpoint_revoked_key_ids := keys_in_order (accepted_revoked_key_ids state);
      checkpoint_revoked_record_ids := keys_in_order (accepted_revoked_record_ids state) |})
  end.

Definition validate_checkpoint (checkpoint : TrustCheckpointV1) (expected : ExpectedTrustBundle)
    (pinned_root : PinnedRootKey) : trust (TrustScope * AcceptedEpoch) :=
  if negb (checkpoint_schema_version checkpoint =? TRUST_CHECKPOINT_SCHEMA_VERSION)
  then Err UnknownCheckpointSchemaVersion
  else if negb (bytes_eqb (checkpoint_namespace checkpoint) TRUST_CHECKPOINT_NAMESPACE)
  then Err CheckpointNamespaceMismatch
  else
    _ ← validate_expected expected;
    _ ← validate_identifier (checkpoint_root_key_id checkpoint) "checkpoint.root_key_id";
    _ ← validate_identifier (checkpoint_tenant_id checkpoint) "checkpoint.tenant_id";
    _ ← validate_identifier (checkpoint_repository_id checkpoint) "checkpoint.repository_id";
    _ ← validate_generation_id (checkpoint_generation_id checkpoint);
    _ ← validate_endpoint_origin (checkpoint_endpoint_origin checkpoint);
    if negb (is_verifying_key (checkpoint_root_public_key checkpoint))
    then Err InvalidRootPublicKey
    else if negb (bytes_eqb (checkpoint_root_key_id checkpoint) (root_key_id pinned_root))
       || negb (bytes_eqb (checkpoint_root_public_key checkpoint)
                  (root_public_key_bytes pinned_root))
    then Err CheckpointRootMismatch
    else if negb (bytes_eqb (checkpoint_tenant_id checkpoint) (expected_tenant_id expected))
       || negb (bytes_eqb (checkpoint_repository_id checkpoint) (expected_repository_id expected))
       || negb (bytes_eqb (checkpoint_generation_id checkpoint) (expected_generation_id expected))
       || negb (bytes_eqb (checkpoint_endpoint_origin checkpoint)
                  (expected_endpoint_origin expected))
    then Err CheckpointScopeMismatch
    else if highest_epoch checkpoint =? 0 then Err InvalidEpoch
    else if MAX_JSON_SAFE_INTEGER <? highest_epoch checkpoint then Err EpochOutOfRange
    else
      _ ← check_count "checkpoint.historical_key_bindings"
            (len (checkpoint_historical_key_bindings checkpoint));
      _ ← try_for_each
            (validate_binding "checkpoint.historical_key_bindings.key_id"
               "checkpoint.historical_key_bindings.producer_id")
            (checkpoint_historical_key_bindings checkpoint);
      if negb (strictly_sorted_by binding_less (checkpoint_historical_key_bindings checkpoint))
      then Err (UnsortedOrDuplicate "checkpoint.historical_key_bindings")
      else
        _ ← validate_identifier_list "checkpoint.revoked_key_ids"
              (checkpoint_revoked_key_ids checkpoint);
        _ ← validate_identifier_list "checkpoint.revoked_record_ids"
              (checkpoint_revoked_record_ids checkpoint);
        Ok (mkScope (checkpoint_tenant_id checkpoint) (checkpoint_repository_id checkpoint)
              (checkpoint_generation_id checkpoint) (checkpoint_endpoint_origin checkpoint),
            {| accepted_epoch := highest_epoch checkpoint;
               canonical_signing_digest := same_epoch_digest checkpoint;
               historical_key_bindings :=
                 collect_bindings (checkpoint_historical_key_bindings checkpoint);
               accepted_revoked_key_ids := list_to_set (checkpoint_revoked_key_ids checkpoint);
               accepted_revoked_record_ids :=
                 list_to_set (checkpoint_revoked_record_ids checkpoint) |}).

Definition restore_checkpoint (checkpoint : TrustCheckpointV1) (expected : ExpectedTrustBundle)
    (pinned_root : PinnedRootKey) : state_m TrustEpochTracker TrustBundleError () :=
  '(scope, restored) ← lift_result (validate_checkpoint checkpoint expected pinned_root);
  previous ← gets (λ self, accepted self !! scope);
  _ ← match previous with
      | Some previous => lift_result (validate_monotonic_state previous restored)
      | None => mret ()
      end;
  modify (insert_accepted scope restored).

(** The loop that fills the keyring and the producer map. *)
Fixpoint trusted_keys (verifier : Ed25519Verifier) (trusted : gmap (list Z) (list Z))
    (bindings : list ProducerKeyBindingV1) : trust (Ed25519Verifier * gmap (list Z) (list Z)) :=
  match bindings with
  | [] => Ok (verifier, trusted)
  | binding :: bindings =>
    verifier ← map_err (λ _, InvalidProducerPublicKey)
                 (insert_public_key verifier (binding_key_id binding)
                    (binding_producer_id binding) (binding_public_key binding));
    trusted_keys verifier
      (<[binding_key_id binding := binding_producer_id binding]> trusted) bindings
  end.

Definition verify_trust_bundle `{Blake3Hash} (bundle : TrustBundleV1)
    (expected : ExpectedTrustBundle) (pinned_root : PinnedRootKey) (now_unix_seconds : Z) :
    state_m TrustEpochTracker TrustBundleError VerifiedTrustBundle :=
  _ ← lift_result (validate_wire_shape bundle);
  _ ← lift_result (validate_expected expected);
  if negb (bytes_eqb (bundle_root_key_id bundle) (root_key_id pinned_root))
  then mthrow RootKeyMismatch
  else
    let canonical := bundle_signing_bytes bundle in
    canonical_digest ← lift_index (digest_bytes canonical);
    if negb (len (bundle_signature bundle) =? ED25519_SIGNATURE_SIZE)
    then mthrow InvalidSignatureSize
    else if negb (verify_strict (root_verifying_key pinned_root) canonical (bundle_signature bundle))
    then mthrow InvalidSignature
    else if negb (bytes_eqb (bundle_tenant_id bundle) (expected_tenant_id expected))
    then mthrow TenantMismatch
    else if negb (bytes_eqb (bundle_repository_id bundle) (expected_repository_id expected))
    then mthrow RepositoryMismatch
    else if negb (bytes_eqb (bundle_generation_id bundle) (expected_generation_id expected))
    then mthrow GenerationMismatch
    else if negb (bytes_eqb (bundle_endpoint_origin bundle) (expected_endpoint_origin expected))
    then mthrow EndpointOriginMismatch
    else
      _ ← lift_result (validate_freshness bundle now_unix_seconds);
      let scope := bundle_scope bundle in
      let active_bindings := collect_bindings (active_producer_keys bundle) in
      let revoked_key_ids := list_to_set (bundle_revoked_key_ids bundle) in
      let revoked_record_ids := list_to_set (bundle_revoked_record_ids bundle) in
      previous ← gets (λ self, accepted self !! scope);
      _ ← match previous with
          | Some previous =>
            lift_result (check_previous previous bundle canonical_digest active_bindings
                           revoked_key_ids revoked_record_ids)
          | None => mret ()
          end;
      '(verifier, trusted) ←
        lift_result (trusted_keys Ed25519Verifier_new ∅ (active_producer_keys bundle));
      let historical :=
        match previous with Some previous => historical_key_bindings previous | None => ∅ end in
      _ ← modify (insert_accepted scope
            {| accepted_epoch := bundle_epoch bundle;
               canonical_signing_digest := canonical_digest;
               (* [extend]: the new binding of a key replaces the old one *)
               historical_key_bindings := active_bindings ∪ historical;
               accepted_revoked_key_ids := revoked_key_ids;
               accepted_revoked_record_ids := revoked_record_ids |});
      mret (mkVerifiedBundle bundle trusted revoked_key_ids revoked_record_ids verifier).
End tracker.

(** ** The capability of a verified bundle *)

Definition verification_context (self : VerifiedTrustBundle) (request : TrustBoundRequest)
    (now_unix_seconds : Z) : trust VerificationContext :=
  let bundle := verified_bundle self in
  _ ← validate_freshness bundle now_unix_seconds;
  if negb (contains_digest (allowed_policy_digests bundle) (request_policy_digest request))
  then Err PolicyDigestNotAllowed
  else if negb (contains_digest (allowed_execution_profile_digests bundle)
                  (request_execution_profile_digest request))
  then Err ExecutionProfileDigestNotAllowed
  else if negb (contains_digest (allowed_platform_digests bundle) (request_platform_digest request))
  then Err PlatformDigestNotAllowed
  else if negb (contains_digest (allowed_image_digests bundle) (request_image_digest request))
  then Err ImageDigestNotAllowed
  else Ok {|
    context_tenant_id := bundle_tenant_id bundle;
    context_repository_id := bundle_repository_id bundle;
    context_request_key := request_request_key request;
    context_policy_digest := request_policy_digest request;
    context_execution_profile_digest := request_execution_profile_digest request;
    context_platform_digest := request_platform_digest request;
    context_image_digest := request_image_digest request;
    context_now := now_unix_seconds;
    trusted_producer_keys := verified_trusted_producer_keys self;
    context_revoked_key_ids := verified_revoked_key_ids self;
    context_revoked_record_ids := verified_revoked_record_ids self |}.
