(* ===== verification/TeamLaws.v ===== *)
(** * Laws of the shared-cache model

    Length-prefixed fields determine their content, digests survive their
    hexadecimal form, and each validator is the conjunction of its checks; the
    second part holds the laws of [TrustBundle], the third the histories of a
    trust tracker. *)

From Stdlib Require Import String Sorting.Sorted.
From stdpp Require Import gmap sorting.
From S2P Require Import Prelude Monad Bytes ContractTypes Canonical CanonicalSpec CanonicalParse.
From S2P Require Import CanonicalCodec RecordTypes Paths RecordValidation Digest.
From S2P Require Import IdentityRoundTrip TreeSpec Text Team TeamCrypto TrustBundle.

(** ** Typing *)

Definition is_text (s : list Z) : Prop := is_string s ∧ is_slice s.

Definition BlobRef_wf (b : BlobRef) : Prop := is_digest (blob_digest b) ∧ is_u64 (size_bytes b).

Definition SignatureEnvelope_wf (e : SignatureEnvelope) : Prop :=
  is_u16 (envelope_schema_version e) ∧ is_text (envelope_key_id e) ∧
  is_slice (envelope_signature e).

Definition RemoteCacheManifest_wf (m : RemoteCacheManifest) : Prop :=
  is_u16 (remote_schema_version m) ∧ is_text (remote_record_id m) ∧ is_text (remote_tenant_id m) ∧
  is_text (remote_repository_id m) ∧ is_digest (remote_request_key m) ∧
  is_digest (remote_policy_digest m) ∧ is_digest (remote_execution_profile_digest m) ∧
  is_digest (remote_platform_digest m) ∧ is_digest (remote_image_digest m) ∧
  BlobRef_wf (remote_stdout m) ∧ BlobRef_wf (remote_stderr m) ∧ is_text (remote_producer_id m) ∧
  is_u64 (remote_created_at m) ∧ is_u64 (remote_expires_at m) ∧
  option_wf SignatureEnvelope_wf (remote_signature m).

Definition ProducerKeyBindingV1_wf (b : ProducerKeyBindingV1) : Prop :=
  is_text (binding_key_id b) ∧ is_text (binding_producer_id b) ∧ is_digest (binding_public_key b).

Definition wf_list {A} (wf : A → Prop) (l : list A) : Prop := Forall wf l ∧ len l <= ISIZE_MAX.

Definition TrustBundleV1_wf (b : TrustBundleV1) : Prop :=
  is_u16 (bundle_schema_version b) ∧ is_text (bundle_root_key_id b) ∧
  is_text (bundle_tenant_id b) ∧ is_text (bundle_repository_id b) ∧
  is_text (bundle_generation_id b) ∧ is_text (bundle_endpoint_origin b) ∧
  is_u64 (bundle_epoch b) ∧ is_u64 (bundle_issued_at b) ∧ is_u64 (bundle_expires_at b) ∧
  wf_list ProducerKeyBindingV1_wf (active_producer_keys b) ∧
  wf_list is_text (bundle_revoked_key_ids b) ∧ wf_list is_text (bundle_revoked_record_ids b) ∧
  wf_list is_digest (allowed_policy_digests b) ∧
  wf_list is_digest (allowed_execution_profile_digests b) ∧
  wf_list is_digest (allowed_platform_digests b) ∧ wf_list is_digest (allowed_image_digests b).

(** ** Fields determine their content

    [prefix_code wf f]: the bytes [f] writes for a value of the type end where
    the value ends, and two values never share them. *)
Definition prefix_code {A} (wf : A → Prop) (f : A → list Z) : Prop :=
  ∀ a b l k, wf a → wf b → f a ++ l = f b ++ k → a = b ∧ l = k.

Lemma le_bytes_prefix n : prefix_code (λ z, 0 <= z < 256 ^ Z.of_nat n) (le_bytes n).
Proof.
  intros x y l k Hx Hy H. apply app_inj_1 in H as [H ->]; [|by rewrite !le_bytes_length].
  split; [|done]. apply (f_equal le_value) in H. rewrite !le_value_le_bytes in H.
  by rewrite !Z.mod_small in H by done.
Qed.

Lemma put_u16_prefix : prefix_code is_u16 put_u16.
Proof. exact (le_bytes_prefix 2). Qed.

Lemma put_u64_prefix : prefix_code is_u64 put_u64.
Proof. exact (le_bytes_prefix 8). Qed.

Lemma put_u8_prefix : prefix_code (λ _, True) put_u8.
Proof. intros a b l k _ _ [= -> ->]. done. Qed.

Lemma put_bytes_prefix : prefix_code is_slice put_bytes.
Proof.
  intros a b l k Ha Hb. unfold put_bytes. rewrite <- !app_assoc. intros H.
  apply (le_bytes_prefix 8) in H as [Hl H]; [|by apply slice_len_u64..].
  apply app_inj_1 in H as [-> ->]; [done|]. unfold len in Hl. lia.
Qed.

Lemma binding_digest_slice d : is_digest d → is_slice d.
Proof. intros [Hb Hl]. split; [done|]. unfold len. rewrite Hl. size_lia. Qed.

Lemma prefix_weaken {A} (wf wf' : A → Prop) f :
  (∀ a, wf a → wf' a) → prefix_code wf' f → prefix_code wf f.
Proof. intros Hw Hf a b l k Ha Hb. apply Hf; auto. Qed.

Lemma put_text_prefix : prefix_code is_text put_string.
Proof. eapply prefix_weaken; [|apply put_bytes_prefix]. by intros a []. Qed.

Lemma put_digest_prefix : prefix_code is_digest put_digest.
Proof. eapply prefix_weaken; [|apply put_bytes_prefix]. apply binding_digest_slice. Qed.

Lemma flat_map_prefix {A} (wf : A → Prop) f as_ bs l k :
  prefix_code wf f → Forall wf as_ → Forall wf bs → length as_ = length bs →
  flat_map f as_ ++ l = flat_map f bs ++ k → as_ = bs ∧ l = k.
Proof.
  intros Hf Ha. revert bs. induction Ha as [|a as_ Ha _ IH]; intros [|b bs] Hb Hl; try done.
  inversion_clear Hb. cbn. rewrite <- !app_assoc. intros [-> He]%Hf; [|done..].
  apply IH in He as [-> ->]; [done|done|]. by injection Hl.
Qed.

Lemma counted_prefix {A} (wf : A → Prop) f :
  prefix_code wf f → prefix_code (wf_list wf) (λ l, put_count (len l) ++ flat_map f l).
Proof.
  intros Hf a b l k [Ha Hla] [Hb Hlb]. cbn beta. rewrite <- !app_assoc. intros H.
  pose proof (len_nonneg a). pose proof (len_nonneg b).
  apply put_u64_prefix in H as [Hl H]; [|unfold is_u64; size_lia..].
  eapply flat_map_prefix; [done..| |done]. unfold len in Hl. lia.
Qed.

Lemma put_strings_prefix : prefix_code (wf_list is_text) put_strings.
Proof. apply counted_prefix, put_text_prefix. Qed.

Lemma put_digests_prefix : prefix_code (wf_list is_digest) put_digests.
Proof. apply counted_prefix, put_digest_prefix. Qed.

Lemma put_binding_prefix : prefix_code ProducerKeyBindingV1_wf put_binding.
Proof.
  intros [] [] l k (?&?&?) (?&?&?). unfold put_binding. cbn in *. rewrite <- !app_assoc.
  intros [-> [-> [-> ->]%put_digest_prefix]%put_text_prefix]%put_text_prefix; done.
Qed.

Lemma put_blob_prefix : prefix_code BlobRef_wf put_blob.
Proof.
  intros [] [] l k [??] [??]. unfold put_blob. cbn in *. rewrite <- !app_assoc.
  intros [-> [-> ->]%put_u64_prefix]%put_digest_prefix; done.
Qed.

(** ** Signed bytes *)

#[local] Arguments put_u8 : simpl never.
#[local] Arguments put_u16 : simpl never.
#[local] Arguments put_u64 : simpl never.
#[local] Arguments put_bytes : simpl never.
#[local] Arguments put_string : simpl never.
#[local] Arguments put_count : simpl never.

(** Peels one field off both sides of an equation of signed bytes. *)
Ltac peel lem :=
  match goal with Heq : _ ++ _ = _ ++ _ |- _ => apply lem in Heq as [? Heq]; [|done..] end.

Definition envelope_header (e : SignatureEnvelope) : Z * SignatureAlgorithm * list Z :=
  (envelope_schema_version e, envelope_algorithm e, envelope_key_id e).

Lemma put_envelope_prefix e e' :
  option_wf SignatureEnvelope_wf e → option_wf SignatureEnvelope_wf e' →
  put_envelope e = put_envelope e' →
  envelope_header <$> e = envelope_header <$> e'.
Proof.
  unfold envelope_header.
  destruct e as [[v [] k s]|], e' as [[v' [] k' s']|]; cbn; try done.
  intros (?&?&?) (?&?&?) Heq. cbn in *. peel put_u8_prefix. peel put_u16_prefix. peel put_u8_prefix.
  rewrite <- (app_nil_r (put_string k)), <- (app_nil_r (put_string k')) in Heq.
  peel put_text_prefix. congruence.
Qed.

Lemma privacy_class_tag_inj c c' : privacy_class_tag c = privacy_class_tag c' → c = c'.
Proof. by destruct c, c'. Qed.

Lemma shareability_tag_inj c c' : shareability_tag c = shareability_tag c' → c = c'.
Proof. by destruct c, c'. Qed.

(** Everything the signature covers: all fields but the signature itself. *)
Definition signed_part (m : RemoteCacheManifest) : RemoteCacheManifest :=
  with_signature m
    ((λ e, mkEnvelope (envelope_schema_version e) (envelope_algorithm e) (envelope_key_id e) [])
       <$> remote_signature m).

Lemma signed_part_eq m m' :
  with_signature m None = with_signature m' None →
  envelope_header <$> remote_signature m = envelope_header <$> remote_signature m' →
  signed_part m = signed_part m'.
Proof.
  assert (∀ m, signed_part m = with_signature (with_signature m None)
    ((λ '(v, a, k), mkEnvelope v a k []) <$> (envelope_header <$> remote_signature m))) as Hp
    by (intros n; unfold signed_part; by destruct (remote_signature n)).
  intros Hm He. by rewrite !Hp, Hm, He.
Qed.

Lemma manifest_signing_bytes_inj m m' :
  RemoteCacheManifest_wf m → RemoteCacheManifest_wf m' →
  manifest_signing_bytes m = manifest_signing_bytes m' → signed_part m = signed_part m'.
Proof.
  destruct m as [??????????????[???]?], m' as [??????????????[???]?].
  intros (?&?&?&?&?&?&?&?&?&?&?&?&?&?&?) (?&?&?&?&?&?&?&?&?&?&?&?&?&?&?).
  unfold manifest_signing_bytes. cbn in *. intros Heq. apply app_inv_head in Heq.
  peel put_u16_prefix. do 3 peel put_text_prefix. do 5 peel put_digest_prefix.
  do 2 peel put_blob_prefix. peel put_text_prefix. do 2 peel put_u64_prefix.
  do 3 peel put_u8_prefix.
  apply put_envelope_prefix in Heq; [|done..].
  apply signed_part_eq; [|done]. unfold with_signature. cbn. f_equal; try done.
  by f_equal; [apply privacy_class_tag_inj|apply shareability_tag_inj|apply Z.b2z_inj].
Qed.

Definition unsigned_bundle (b : TrustBundleV1) : TrustBundleV1 :=
  {| bundle_schema_version := bundle_schema_version b;
     bundle_root_key_id := bundle_root_key_id b;
     bundle_tenant_id := bundle_tenant_id b;
     bundle_repository_id := bundle_repository_id b;
     bundle_generation_id := bundle_generation_id b;
     bundle_endpoint_origin := bundle_endpoint_origin b;
     bundle_epoch := bundle_epoch b;
     bundle_issued_at := bundle_issued_at b;
     bundle_expires_at := bundle_expires_at b;
     active_producer_keys := active_producer_keys b;
     bundle_revoked_key_ids := bundle_revoked_key_ids b;
     bundle_revoked_record_ids := bundle_revoked_record_ids b;
     allowed_policy_digests := allowed_policy_digests b;
     allowed_execution_profile_digests := allowed_execution_profile_digests b;
     allowed_platform_digests := allowed_platform_digests b;
     allowed_image_digests := allowed_image_digests b;
     bundle_signature := [] |}.

Lemma bundle_signing_bytes_inj b b' :
  TrustBundleV1_wf b → TrustBundleV1_wf b' →
  bundle_signing_bytes b = bundle_signing_bytes b' → unsigned_bundle b = unsigned_bundle b'.
Proof.
  destruct b, b'.
  intros (?&?&?&?&?&?&?&?&?&?&?&?&?&?&?&?) (?&?&?&?&?&?&?&?&?&?&?&?&?&?&?&?).
  unfold bundle_signing_bytes, unsigned_bundle. cbn in *. intros Heq. apply app_inv_head in Heq.
  peel put_u16_prefix. do 5 peel put_text_prefix. do 3 peel put_u64_prefix.
  rewrite !(app_assoc (put_count _)) in Heq.
  peel (counted_prefix _ _ put_binding_prefix). do 2 peel put_strings_prefix.
  do 3 peel put_digests_prefix.
  apply (f_equal (λ l, l ++ [])) in Heq. peel put_digests_prefix.
  by f_equal.
Qed.

Lemma signing_domains_differ m b : manifest_signing_bytes m ≠ bundle_signing_bytes b.
Proof. unfold manifest_signing_bytes, bundle_signing_bytes. intros H. by inversion H. Qed.

(** ** Digests and hexadecimal *)

Lemma Digest_to_hex_eq d : is_bytes d → Digest_to_hex d = Blake3Digest_to_hex d.
Proof.
  induction 1 as [|b d Hb _ IH]; [done|]. unfold Digest_to_hex, Blake3Digest_to_hex in *.
  cbn [flat_map]. rewrite IH, Z.shiftr_div_pow2 by lia.
  change 0x0f with (Z.ones 4). by rewrite Z.land_ones by lia.
Qed.

Lemma decode_pairs_eq s :
  decode_pairs s = match parse_hex_pairs s with Ok d => Some d | Err _ => None end.
Proof.
  assert (∀ b, team_hex_nibble b = match hex_nibble b with Ok n => Some n | Err _ => None end) as Hn
    by (intros; unfold team_hex_nibble, hex_nibble; by repeat case_match).
  revert s. fix IH 1. intros [|h [|l s]]; [done..|]. cbn. rewrite !Hn, (IH s).
  destruct (hex_nibble h), (hex_nibble l), (parse_hex_pairs s); done.
Qed.

Lemma Digest_from_to_hex d : is_digest d → Digest_from_hex (Digest_to_hex d) = Some (Ok d).
Proof.
  intros [Hb Hl]. rewrite Digest_to_hex_eq by done. unfold Digest_from_hex.
  rewrite len_to_hex. unfold len. rewrite Hl. destruct (to_hex_class d Hb) as [-> ->]. cbn.
  by rewrite decode_pairs_eq, parse_hex_to_hex.
Qed.

Lemma digest_bytes_eq `{Blake3HashOk} m : digest_bytes m = Some (blake3_hash m).
Proof. unfold digest_bytes. by rewrite Digest_from_to_hex by apply blake3_hash_digest. Qed.

(** ** Checks *)

Lemma unit_bind_Ok {E B} (m : result E ()) (k : result E B) b :
  (_ ← m; k) = Ok b ↔ m = Ok () ∧ k = Ok b.
Proof. destruct m as [[]|]; cbn; naive_solver. Qed.

Lemma guard_Ok {E B} (c : bool) (e : E) (k : result E B) b :
  (if c then Err e else k) = Ok b ↔ c = false ∧ k = Ok b.
Proof. destruct c; naive_solver. Qed.

Lemma unit_Ok {E} : Ok () = (Ok () : result E ()) ↔ True.
Proof. done. Qed.

Lemma negb_bytes_eqb a b : negb (bytes_eqb a b) = false ↔ a = b.
Proof. by rewrite negb_false_iff, bytes_eqb_eq. Qed.

Create Rewrite HintDb checks.
(** The tests of a guard that did not fire, as propositions. *)
#[global] Hint Rewrite @unit_bind_Ok @guard_Ok @unit_Ok @ok_or_Ok_iff orb_false_iff andb_false_iff
  negb_false_iff bool_decide_eq_true bool_decide_eq_false Z.ltb_ge Z.leb_gt Z.eqb_eq Z.eqb_neq
  bytes_eqb_eq : checks.

(** A name the protocols accept. *)
Definition identifier (s : list Z) : Prop :=
  s ≠ [] ∧ len s <= 256 ∧
  Forall (λ c, is_control c = false ∧ is_whitespace c = false) (chars s).

Lemma identifier_iff s :
  bool_decide (s = []) || (256 <? len s)
    || any (λ c, is_control c || is_whitespace c) (chars s) = false ↔ identifier s.
Proof.
  autorewrite with checks. rewrite any_false. unfold identifier.
  assert ((∀ i c, chars s !! i = Some c → is_control c || is_whitespace c = false) ↔
          Forall (λ c, is_control c = false ∧ is_whitespace c = false) (chars s)) as ->; [|tauto].
  rewrite Forall_lookup. by split; intros Hc i c Hi; apply orb_false_iff, (Hc i c Hi).
Qed.

Lemma validate_identifier_Ok s field : validate_identifier s field = Ok () ↔ identifier s.
Proof. unfold validate_identifier. rewrite guard_Ok, unit_Ok, identifier_iff. tauto. Qed.

Lemma crypto_validate_identifier_Ok s field :
  crypto_validate_identifier s field = Ok () ↔ identifier s.
Proof. unfold crypto_validate_identifier. rewrite guard_Ok, unit_Ok, identifier_iff. tauto. Qed.

Lemma named_identifier_Ok s name : named_identifier s name = Ok () ↔ identifier s.
Proof.
  unfold named_identifier, team_validate_identifier. rewrite <- identifier_iff.
  by destruct (_ || any _ _).
Qed.
#[global] Hint Rewrite validate_identifier_Ok crypto_validate_identifier_Ok named_identifier_Ok : checks.

(** ** Manifests *)

(** A manifest that may be signed, with its envelope. *)
Record shareable (m : RemoteCacheManifest) (e : SignatureEnvelope) : Prop := {
  sh_schema : remote_schema_version m = 1;
  sh_record : identifier (remote_record_id m);
  sh_tenant : identifier (remote_tenant_id m);
  sh_repository : identifier (remote_repository_id m);
  sh_producer : identifier (remote_producer_id m);
  sh_blobs : size_bytes (remote_stdout m) <= 16 * 2 ^ 20 ∧ size_bytes (remote_stderr m) <= 16 * 2 ^ 20;
  sh_interval : remote_created_at m < remote_expires_at m <= 2 ^ 53 - 1;
  sh_lifetime : remote_expires_at m - remote_created_at m <= 30 * 86400;
  sh_class : classification (remote_privacy m) = Public ∨
             classification (remote_privacy m) = Internal;
  sh_untainted : secret_tainted (remote_privacy m) = false;
  sh_scope : shareability (remote_privacy m) ≠ LocalOnly;
  sh_envelope : remote_signature m = Some e;
  sh_envelope_schema : envelope_schema_version e = 1;
  sh_key : identifier (envelope_key_id e);
}.

Lemma validate_for_signing_iff m :
  validate_for_signing m = Ok () ↔ ∃ e, shareable m e.
Proof.
  unfold validate_for_signing, validate_blob. autorewrite with checks.
  rewrite result_bind_Ok_iff. setoid_rewrite ok_or_Ok_iff. autorewrite with checks.
  setoid_rewrite guard_Ok. setoid_rewrite named_identifier_Ok.
  setoid_rewrite negb_false_iff. setoid_rewrite Z.eqb_eq.
  change MAX_BLOB_SIZE with (16 * 2 ^ 20). change MAX_JSON_SAFE_INTEGER with (2 ^ 53 - 1).
  change MAX_MANIFEST_LIFETIME_SECONDS with (30 * 86400). split.
  - intros (?&?&?&?&?&(?&_)&(?&_)&(?&?)&(?&?)&?&(?&?)&?&e&?&?&?). exists e.
    split; try done. destruct (classification _); naive_solver.
  - intros [e [? ? ? ? ? [? ?] ? ? Hc ? ? ? ? ?]]. split_and!; try done; try lia;
      try (destruct Hc as [-> | ->]; done). eauto.
Qed.

Lemma validate_wire_iff m :
  validate_wire m = Ok () ↔ ∃ e, shareable m e ∧ len (envelope_signature e) = 64.
Proof.
  unfold validate_wire. rewrite unit_bind_Ok, validate_for_signing_iff, result_bind_Ok_iff.
  setoid_rewrite ok_or_Ok_iff. setoid_rewrite guard_Ok. setoid_rewrite negb_false_iff.
  setoid_rewrite Z.eqb_eq. change ED25519_SIGNATURE_SIZE with 64. split.
  - intros [[e He] (e' & He' & ? & _)]. exists e. split; [done|].
    pose proof (sh_envelope _ _ He). congruence.
  - intros (e & He & ?). pose proof (sh_envelope _ _ He). eauto 8.
Qed.

(** A manifest the context asks for and whose signer it trusts. *)
Record authorized (c : VerificationContext) (m : RemoteCacheManifest) (e : SignatureEnvelope) :
    Prop := {
  au_tenant : remote_tenant_id m = context_tenant_id c;
  au_repository : remote_repository_id m = context_repository_id c;
  au_request : remote_request_key m = context_request_key c;
  au_policy : remote_policy_digest m = context_policy_digest c;
  au_profile : remote_execution_profile_digest m = context_execution_profile_digest c;
  au_platform : remote_platform_digest m = context_platform_digest c;
  au_image : remote_image_digest m = context_image_digest c;
  au_fresh : remote_created_at m <= context_now c < remote_expires_at m;
  au_record : remote_record_id m ∉ context_revoked_record_ids c;
  au_key : envelope_key_id e ∉ context_revoked_key_ids c;
  au_producer : trusted_producer_keys c !! envelope_key_id e = Some (remote_producer_id m);
}.

Lemma verify_candidate_iff `{SignatureVerifier V} m c (v : V) r :
  verify_candidate m c v = Ok r ↔
  r = mkVerified m ∧ ∃ e, shareable m e ∧ len (envelope_signature e) = 64 ∧ authorized c m e ∧
    verify v (envelope_algorithm e) (envelope_key_id e) (remote_producer_id m)
      (manifest_signing_bytes m) (envelope_signature e) = true.
Proof.
  unfold verify_candidate. autorewrite with checks. rewrite validate_wire_iff, result_bind_Ok_iff.
  setoid_rewrite ok_or_Ok_iff. split.
  - intros ((e & He & Hl) & _ & _ & ?&?&?&?&?&?&?&?&?&?& e' & He' & Hr).
    autorewrite with checks in Hr. destruct Hr as (? & ? & ? & [= <-]). split; [done|]. pose proof (sh_envelope _ _ He). simplify_eq.
    exists e'. done.
  - intros (-> & e & He & Hl & [] & Hv). pose proof (sh_envelope _ _ He).
    pose proof (sh_tenant _ _ He). pose proof (sh_repository _ _ He).
    split_and!; try (congruence || lia || done); [eauto|]. exists e.
    autorewrite with checks. done.
Qed.

(** * Laws of trust bundles

    What a valid bundle is, what the tracker records of one, and the order in
    which its states may follow each other. *)

Import TrustErrors.

(** ** Shape *)

Definition generation (s : list Z) : Prop :=
  len s = 32 ∧ Forall (λ b, is_ascii_hexdigit b = true ∧ is_ascii_uppercase b = false) s.

Lemma validate_generation_id_Ok s : validate_generation_id s = Ok () ↔ generation s.
Proof.
  unfold validate_generation_id, generation. autorewrite with checks. rewrite any_false, Forall_lookup.
  enough ((∀ i b, s !! i = Some b → negb (is_ascii_hexdigit b) || is_ascii_uppercase b = false) ↔
    ∀ i b, s !! i = Some b → is_ascii_hexdigit b = true ∧ is_ascii_uppercase b = false) by tauto.
  by split; intros Hs i b Hi; specialize (Hs i b Hi); rewrite orb_false_iff, negb_false_iff in *.
Qed.
#[global] Hint Rewrite validate_generation_id_Ok : checks.

(** At most 4096 values, strictly increasing by their key. *)
Definition ascending {A} (key : A → list Z) (l : list A) : Prop :=
  len l <= 4096 ∧ StronglySorted (λ a b, bytes_lt (key a) (key b)) l.

Lemma check_count_Ok field n : check_count field n = Ok () ↔ n <= 4096.
Proof.
  unfold check_count, MAX_TRUST_BUNDLE_ENTRIES_PER_SET. autorewrite with checks. tauto.
Qed.

Lemma try_for_each_Ok {A} (f : A → trust ()) l :
  try_for_each f l = Ok () ↔ Forall (λ a, f a = Ok ()) l.
Proof.
  induction l as [|a l IH]; cbn; [split; [constructor|done]|].
  rewrite unit_bind_Ok, IH, list.Forall_cons. done.
Qed.

Lemma sorted_bytes l :
  negb (strictly_sorted_by bytes_less l) = false ↔ StronglySorted bytes_lt l.
Proof. rewrite negb_false_iff. apply (windows_all_sorted id). Qed.

Lemma sorted_bindings l :
  negb (strictly_sorted_by binding_less l) = false ↔
  StronglySorted (λ a b, bytes_lt (binding_key_id a) (binding_key_id b)) l.
Proof. rewrite negb_false_iff. apply (windows_all_sorted binding_key_id). Qed.

Lemma validate_identifier_list_Ok field l :
  validate_identifier_list field l = Ok () ↔ ascending id l ∧ Forall identifier l.
Proof.
  unfold validate_identifier_list. rewrite !unit_bind_Ok, guard_Ok, check_count_Ok, sorted_bytes,
    try_for_each_Ok. setoid_rewrite validate_identifier_Ok. unfold ascending. tauto.
Qed.

Lemma validate_digest_list_Ok field l : validate_digest_list field l = Ok () ↔ ascending id l.
Proof.
  unfold validate_digest_list. rewrite !unit_bind_Ok, guard_Ok, check_count_Ok, sorted_bytes.
  unfold ascending. tauto.
Qed.
#[global] Hint Rewrite check_count_Ok @try_for_each_Ok sorted_bindings validate_identifier_list_Ok
  validate_digest_list_Ok : checks.

Section shape.
Context `{Ed25519Dalek, UrlParser}.

Definition canonical_origin (s : list Z) : Prop := validate_endpoint_origin s = Ok ().

Definition valid_binding (b : ProducerKeyBindingV1) : Prop :=
  identifier (binding_key_id b) ∧ identifier (binding_producer_id b) ∧
  is_verifying_key (binding_public_key b) = true.

Lemma validate_binding_Ok f g b : validate_binding f g b = Ok () ↔ valid_binding b.
Proof. unfold validate_binding, valid_binding. autorewrite with checks. tauto. Qed.

(** A bundle of the right shape. *)
Record valid_bundle (b : TrustBundleV1) : Prop := {
  vb_schema : bundle_schema_version b = 1;
  vb_root : identifier (bundle_root_key_id b);
  vb_tenant : identifier (bundle_tenant_id b);
  vb_repository : identifier (bundle_repository_id b);
  vb_generation : generation (bundle_generation_id b);
  vb_origin : canonical_origin (bundle_endpoint_origin b);
  vb_epoch : bundle_epoch b ≠ 0 ∧ bundle_epoch b <= 2 ^ 53 - 1;
  vb_interval : bundle_issued_at b < bundle_expires_at b <= 2 ^ 53 - 1;
  vb_lifetime : bundle_expires_at b - bundle_issued_at b <= 300;
  vb_signature : len (bundle_signature b) = 64;
  vb_active : ascending binding_key_id (active_producer_keys b) ∧
              Forall valid_binding (active_producer_keys b);
  vb_revoked_keys : ascending id (bundle_revoked_key_ids b) ∧
                    Forall identifier (bundle_revoked_key_ids b);
  vb_revoked_records : ascending id (bundle_revoked_record_ids b) ∧
                       Forall identifier (bundle_revoked_record_ids b);
  vb_digests : Forall (ascending id)
    [allowed_policy_digests b; allowed_execution_profile_digests b; allowed_platform_digests b;
     allowed_image_digests b];
  vb_disjoint : Forall (λ k, binding_key_id k ∉ bundle_revoked_key_ids b) (active_producer_keys b);
}.

Lemma active_not_revoked b :
  any (λ k, bool_decide (binding_key_id k ∈ (list_to_set (bundle_revoked_key_ids b) : gset (list Z))))
    (active_producer_keys b) = false ↔
  Forall (λ k, binding_key_id k ∉ bundle_revoked_key_ids b) (active_producer_keys b).
Proof.
  rewrite any_false, Forall_lookup.
  by split; intros Hk i k Hi; specialize (Hk i k Hi);
    rewrite bool_decide_eq_false, elem_of_list_to_set in *.
Qed.

Lemma validate_wire_shape_iff b : validate_wire_shape b = Ok () ↔ valid_bundle b.
Proof.
  unfold validate_wire_shape. autorewrite with checks. setoid_rewrite validate_binding_Ok.
  rewrite active_not_revoked.
  change MAX_JSON_SAFE_INTEGER with (2 ^ 53 - 1). change MAX_TRUST_BUNDLE_LIFETIME_SECONDS with 300.
  split.
  - intros (?&?&?&?&?&?&?&?&(?&?)&(?&?)&?&?&?&?&?&?&?&?&?&?&?&_).
    split; try done. by rewrite !list.Forall_cons, list.Forall_nil.
  - intros [? ? ? ? ? ? [? ?] ? ? ? [[? ?] ?] [? ?] [? ?] Hd ?].
    apply list.Forall_cons in Hd as [? Hd]. apply list.Forall_cons in Hd as [? Hd].
    apply list.Forall_cons in Hd as [? Hd]. apply list.Forall_cons in Hd as [? _].
    split_and!; try done; lia.
Qed.

Definition valid_expected (e : ExpectedTrustBundle) : Prop :=
  identifier (expected_tenant_id e) ∧ identifier (expected_repository_id e) ∧
  generation (expected_generation_id e) ∧ canonical_origin (expected_endpoint_origin e).

Lemma validate_expected_iff e : validate_expected e = Ok () ↔ valid_expected e.
Proof. unfold validate_expected, valid_expected, canonical_origin. by autorewrite with checks. Qed.
End shape.

Definition fresh_at (b : TrustBundleV1) (now : Z) : Prop :=
  bundle_issued_at b <= now + 30 ∧ now < bundle_expires_at b.

Lemma validate_freshness_iff b now :
  is_u64 (bundle_issued_at b) → validate_freshness b now = Ok () ↔ fresh_at b now.
Proof.
  intros [_ Hi]. unfold validate_freshness, fresh_at. autorewrite with checks.
  change MAX_TRUST_BUNDLE_FUTURE_SKEW_SECONDS with 30. change U64_MAX with (2 ^ 64 - 1).
  split; [intros (? & ? & _)|intros [? ?]]; split_and?; lia.
Qed.

(** ** Bindings *)

(** Bindings with distinct keys. *)
Abbreviation distinct_keys l := (NoDup (binding_key_id <$> l)).

Definition binding_value (b : ProducerKeyBindingV1) : list Z * list Z :=
  (binding_producer_id b, binding_public_key b).

Lemma ascending_distinct l : ascending binding_key_id l → distinct_keys l.
Proof. intros [_ Hs]. exact (sorted_lt_NoDup _ (proj1 (sorted_keys _ _) Hs)). Qed.

Lemma collect_bindings_acc l m :
  foldl (λ m b, <[binding_key_id b := (binding_producer_id b, binding_public_key b)]> m) m l =
  collect_bindings l ∪ m.
Proof.
  unfold collect_bindings. revert m. induction l as [|b l IH] using rev_ind; intros m; cbn.
  - by rewrite (left_id_L ∅ (∪)).
  - rewrite !foldl_app. cbn. by rewrite IH, insert_union_l.
Qed.

Lemma collect_bindings_lookup l b :
  distinct_keys l → b ∈ l → collect_bindings l !! binding_key_id b = Some (binding_value b).
Proof.
  unfold collect_bindings. induction l as [|c l IH] using rev_ind; [intros _ []%elem_of_nil|].
  rewrite fmap_app, foldl_app. cbn. intros (Hl & Hd & _)%list.NoDup_app Hb.
  apply elem_of_app in Hb as [Hb| ->%list_elem_of_singleton]; [|by rewrite lookup_insert_eq].
  rewrite lookup_insert_ne; [by apply IH|]. intros Hk. eapply Hd; [by apply list_elem_of_fmap_2|].
  rewrite Hk. by apply list_elem_of_singleton.
Qed.

Lemma collect_bindings_elem l k v :
  collect_bindings l !! k = Some v → ∃ b, b ∈ l ∧ k = binding_key_id b ∧ v = binding_value b.
Proof.
  unfold collect_bindings. induction l as [|c l IH] using rev_ind; [done|].
  rewrite foldl_app. cbn. intros [[<- <-]|[_ Hk]]%lookup_insert_Some.
  - exists c. split; [apply elem_of_app; right; by apply list_elem_of_singleton|done].
  - destruct (IH Hk) as (b & Hb & ?). exists b. split; [apply elem_of_app; by left|done].
Qed.

Lemma collect_entries (m : gmap (list Z) (list Z * list Z)) :
  collect_bindings ((λ '(k, (p, v)), mkBinding k p v) <$> entries m) = m.
Proof.
  set (f := λ '(k, (p, v)), mkBinding k p v).
  assert (∀ k v, mkBinding k v.1 v.2 ∈ f <$> entries m ↔ m !! k = Some v) as Hin.
  { intros k [p v]. rewrite <- elem_of_entries, list_elem_of_fmap. split.
    - by intros ([k' [p' v']] & [= -> -> ->] & He).
    - intros He. by exists (k, (p, v)). }
  assert (distinct_keys (f <$> entries m)) as Hd.
  { rewrite <- list_fmap_compose. rewrite (list_fmap_ext _ fst).
    - exact (sorted_lt_NoDup _ (proj1 (sorted_keys fst _) (entries_sorted m))).
    - by intros i [k [p v]] _. }
  apply map_eq. intros k. destruct (m !! k) as [v|] eqn:Hk.
  - destruct v. apply Hin in Hk. exact (collect_bindings_lookup _ _ Hd Hk).
  - apply eq_None_not_Some. intros [v ([k' p v'] & Hb & -> & ->)%collect_bindings_elem].
    apply (Hin k' (p, v')) in Hb. cbn in Hk. congruence.
Qed.

Lemma set_of_keys (s : gset (list Z)) : list_to_set (keys_in_order s) = s.
Proof. apply set_eq. intros k. by rewrite elem_of_list_to_set, elem_of_keys_in_order. Qed.

(** ** The keyring of a valid bundle *)

Section keyring.
Context `{Ed25519Dalek}.

Lemma trusted_keys_Ok l v t :
  Forall (λ b, valid_binding b ∧ is_digest (binding_public_key b)) l → distinct_keys l →
  (∀ b, b ∈ l → verifier_keys v !! binding_key_id b = None) →
  trusted_keys v t l =
    Ok (mkVerifier (collect_bindings l ∪ verifier_keys v), (fst <$> collect_bindings l) ∪ t).
Proof.
  intros Hl. revert v t. induction Hl as [|b l [(Hk & Hp & Hv) [_ Hd]] _ IH]; intros v t Hn Hf.
  - cbn. rewrite fmap_empty, !(left_id_L ∅ (∪)). by destruct v.
  - cbn [trusted_keys]. apply list.NoDup_cons in Hn as [Hbl Hn]. unfold insert_public_key.
    rewrite (proj2 (crypto_validate_identifier_Ok _ _) Hk),
      (proj2 (crypto_validate_identifier_Ok _ _) Hp), !bind_Ok.
    unfold ED25519_PUBLIC_KEY_BYTES, len. rewrite Hd, Hv, Hf by apply list_elem_of_here.
    cbn [negb Z.of_nat Z.eqb map_err]. change (Z.of_nat 32 =? 32) with true. cbn [negb map_err].
    rewrite bind_Ok, IH; [|done|].
    + f_equal. f_equal; [f_equal|]; unfold collect_bindings at 2; cbn [foldl];
        rewrite collect_bindings_acc; cbn [verifier_keys].
      * by rewrite insert_union_singleton_l, (assoc_L (∪)), insert_empty.
      * rewrite map_fmap_union, <- (assoc_L (∪)). f_equal.
        by rewrite fmap_insert, fmap_empty, insert_empty, insert_union_singleton_l.
    + intros c Hc. cbn. rewrite lookup_insert_ne; [apply Hf; by right|].
      intros Heq. apply Hbl. rewrite Heq. by apply list_elem_of_fmap_2.
Qed.
End keyring.

(** ** Order of states *)

(** A later state of a scope keeps all that an earlier one decided. *)
Record grows (s s' : AcceptedEpoch) : Prop := {
  gr_epoch : accepted_epoch s <= accepted_epoch s';
  gr_digest : accepted_epoch s = accepted_epoch s' →
              canonical_signing_digest s = canonical_signing_digest s';
  gr_bindings : historical_key_bindings s ⊆ historical_key_bindings s';
  gr_keys : accepted_revoked_key_ids s ⊆ accepted_revoked_key_ids s';
  gr_records : accepted_revoked_record_ids s ⊆ accepted_revoked_record_ids s';
}.

#[global] Instance grows_preorder : PreOrder grows.
Proof.
  split; [by intros s; split|]. intros s1 s2 s3 [E1 D1 B1 K1 R1] [E2 D2 B2 K2 R2].
  split; [lia| |by etrans..]. intros He. rewrite D1, D2 by lia. done.
Qed.

Lemma check_historical_Ok c l :
  check_historical c l = Ok () ↔
  Forall (λ '(k, v), historical_key_bindings c !! k = Some v) l.
Proof.
  induction l as [|[k v] l IH]; cbn; [split; [constructor|done]|]. rewrite list.Forall_cons, <- IH.
  destruct (historical_key_bindings c !! k) as [v'|]; [|naive_solver].
  case_bool_decide; naive_solver.
Qed.

Lemma validate_monotonic_state_iff s s' : validate_monotonic_state s s' = Ok () ↔ grows s s'.
Proof.
  unfold validate_monotonic_state. autorewrite with checks. rewrite check_historical_Ok.
  assert (Forall (λ '(k, v), historical_key_bindings s' !! k = Some v)
    (entries (historical_key_bindings s)) ↔ historical_key_bindings s ⊆ historical_key_bindings s') as ->.
  { rewrite map_subseteq_spec, list.Forall_forall. split.
    - intros Hf k v Hk%elem_of_entries. exact (Hf _ Hk).
    - intros Hf [k v] Hk%elem_of_entries. by apply Hf. }
  split.
  - intros (? & Hd & ? & ? & ? & _). split; try done. destruct Hd; [intros ?; lia|by intros _].
  - intros [? Hd ? ? ?]. split_and!; try done.
    destruct (decide (accepted_epoch s' = accepted_epoch s)); [right|by left].
    symmetry. apply Hd. lia.
Qed.

Lemma check_active_Ok s l :
  check_active_bindings s l = Ok () ↔
  Forall (λ '(k, v), (∀ v', historical_key_bindings s !! k = Some v' → v' = v) ∧
                     k ∉ accepted_revoked_key_ids s) l.
Proof.
  induction l as [|[k v] l IH]; cbn; [split; [constructor|done]|]. rewrite list.Forall_cons, <- IH.
  rewrite !guard_Ok, bool_decide_eq_false.
  destruct (historical_key_bindings s !! k) as [v'|]; [|naive_solver].
  rewrite negb_false_iff, bool_decide_eq_true. naive_solver.
Qed.

(** ** Methods of the tracker *)

Lemma lift_bind_Returned {S E A B} (r : result E A) (k : A → state_m S E B) s b s' :
  (lift_result r ≫= k) s = Returned b s' ↔ ∃ a, r = Ok a ∧ k a s = Returned b s'.
Proof. unfold mbind, state_bind, lift_result. destruct r; naive_solver. Qed.

Lemma unit_lift_Returned {S E B} (r : result E ()) (k : state_m S E B) s b s' :
  (_ ← lift_result r; k) s = Returned b s' ↔ r = Ok () ∧ k s = Returned b s'.
Proof. rewrite lift_bind_Returned. split; [intros ([] & ?); done|intros ?; by exists ()]. Qed.

Lemma guard_Returned {S E B} (c : bool) (e : E) (k : state_m S E B) s b s' :
  (if c then mthrow e else k) s = Returned b s' ↔ c = false ∧ k s = Returned b s'.
Proof. destruct c; naive_solver. Qed.

#[global] Hint Rewrite @unit_lift_Returned @guard_Returned : checks.

Section verify.
Context `{Ed25519Dalek, UrlParser, Blake3HashOk}.

Definition signing_digest (b : TrustBundleV1) : list Z := blake3_hash (bundle_signing_bytes b).

(** The bundle may follow the state: it is newer, keeps every revocation and
    uses no key that is revoked or bound otherwise, or it is the same bundle. *)
Definition may_follow (s : AcceptedEpoch) (b : TrustBundleV1) : Prop :=
  accepted_epoch s = bundle_epoch b ∧ canonical_signing_digest s = signing_digest b ∨
  accepted_epoch s < bundle_epoch b ∧
  (∀ k, k ∈ active_producer_keys b → (binding_key_id k ∉ accepted_revoked_key_ids s) ∧
     ∀ v, historical_key_bindings s !! binding_key_id k = Some v → v = binding_value k) ∧
  accepted_revoked_key_ids s ⊆ list_to_set (bundle_revoked_key_ids b) ∧
  accepted_revoked_record_ids s ⊆ list_to_set (bundle_revoked_record_ids b).

(** The state of the scope after the bundle. *)
Definition state_after (previous : option AcceptedEpoch) (b : TrustBundleV1) : AcceptedEpoch := {|
  accepted_epoch := bundle_epoch b;
  canonical_signing_digest := signing_digest b;
  historical_key_bindings := collect_bindings (active_producer_keys b) ∪
    match previous with Some s => historical_key_bindings s | None => ∅ end;
  accepted_revoked_key_ids := list_to_set (bundle_revoked_key_ids b);
  accepted_revoked_record_ids := list_to_set (bundle_revoked_record_ids b) |}.

(** What the verified bundle hands out. *)
Definition capability (b : TrustBundleV1) : VerifiedTrustBundle := {|
  verified_bundle := b;
  verified_trusted_producer_keys := fst <$> collect_bindings (active_producer_keys b);
  verified_revoked_key_ids := list_to_set (bundle_revoked_key_ids b);
  verified_revoked_record_ids := list_to_set (bundle_revoked_record_ids b);
  producer_verifier := mkVerifier (collect_bindings (active_producer_keys b)) |}.

Lemma check_previous_iff s b :
  distinct_keys (active_producer_keys b) →
  check_previous s b (signing_digest b) (collect_bindings (active_producer_keys b))
    (list_to_set (bundle_revoked_key_ids b)) (list_to_set (bundle_revoked_record_ids b)) = Ok () ↔
  may_follow s b.
Proof.
  intros Hd. unfold check_previous, may_follow. rewrite guard_Ok, Z.ltb_ge.
  destruct (Z.eqb_spec (bundle_epoch b) (accepted_epoch s)) as [Heq|Hne].
  - autorewrite with checks. split; [intros (? & ? & _); left; done|].
    intros [[? ?]|[? _]]; [split_and!; done || lia|lia].
  - autorewrite with checks. rewrite check_active_Ok, list.Forall_forall. split.
    + intros (? & Ha & ? & ? & _). right. split_and!; try done; [lia|]. intros k Hk.
      apply (collect_bindings_lookup _ _ Hd), elem_of_entries in Hk.
      by destruct (Ha _ Hk).
    + intros [[? _]|(? & Ha & ? & ?)]; [lia|]. split_and!; try done; [lia|].
      intros [k v] (c & Hc & -> & ->)%elem_of_entries%collect_bindings_elem.
      by destruct (Ha c Hc).
Qed.

Lemma bundle_keys b :
  TrustBundleV1_wf b → valid_bundle b →
  trusted_keys Ed25519Verifier_new ∅ (active_producer_keys b) =
    Ok (mkVerifier (collect_bindings (active_producer_keys b)),
        fst <$> collect_bindings (active_producer_keys b)).
Proof.
  intros (_&_&_&_&_&_&_&_&_&[Hw _]&_) Hv. destruct (vb_active _ Hv) as [Ha Hb].
  rewrite trusted_keys_Ok; [unfold Ed25519Verifier_new; cbn; by rewrite !(right_id_L ∅ (∪))| |by apply ascending_distinct|done].
  rewrite list.Forall_forall in *. intros k Hk. split; [by apply Hb|]. by destruct (Hw k Hk) as (_&_&?).
Qed.

Lemma scope_eq (b : TrustBundleV1) e :
  bundle_scope b = expected_scope e ↔
  bundle_tenant_id b = expected_tenant_id e ∧ bundle_repository_id b = expected_repository_id e ∧
  bundle_generation_id b = expected_generation_id e ∧
  bundle_endpoint_origin b = expected_endpoint_origin e.
Proof.
  unfold bundle_scope, expected_scope. split; [by intros [= -> -> -> ->]|].
  by intros (-> & -> & -> & ->).
Qed.

(** The end of [verify_trust_bundle], once everything is checked. *)
Lemma accept_iff b previous t v t' :
  TrustBundleV1_wf b → valid_bundle b →
  ('(verifier, trusted) ←
     lift_result (trusted_keys Ed25519Verifier_new ∅ (active_producer_keys b));
   _ ← modify (insert_accepted (bundle_scope b) (state_after previous b));
   mret (mkVerifiedBundle b trusted (list_to_set (bundle_revoked_key_ids b))
           (list_to_set (bundle_revoked_record_ids b)) verifier)) t
  = (Returned v t' : outcome _ TrustBundleError _) ↔
  v = capability b ∧ t' = insert_accepted (bundle_scope b) (state_after previous b) t.
Proof.
  intros Hw Hv. rewrite bundle_keys by done. unfold mbind, state_bind. cbn.
  split; [by intros [= <- <-]|by intros [-> ->]].
Qed.

Lemma verify_trust_bundle_iff b e root now t v t' :
  TrustBundleV1_wf b →
  verify_trust_bundle b e root now t = Returned v t' ↔
  valid_bundle b ∧ valid_expected e ∧ bundle_root_key_id b = root_key_id root ∧
  verify_strict (root_verifying_key root) (bundle_signing_bytes b) (bundle_signature b) = true ∧
  bundle_scope b = expected_scope e ∧ fresh_at b now ∧
  (∀ s, accepted t !! bundle_scope b = Some s → may_follow s b) ∧
  v = capability b ∧
  t' = insert_accepted (bundle_scope b) (state_after (accepted t !! bundle_scope b) b) t.
Proof.
  intros Hw. unfold verify_trust_bundle. autorewrite with checks.
  rewrite digest_bytes_eq, validate_wire_shape_iff, validate_expected_iff. unfold mbind at 1, state_bind at 1.
  cbn [lift_index]. autorewrite with checks. rewrite validate_freshness_iff by apply Hw.
  unfold mbind at 1, state_bind at 1. cbn [gets]. rewrite scope_eq.
  pose proof (λ Hv, accept_iff b (accepted t !! bundle_scope b) t v t' Hw Hv) as Ha.
  unfold state_after in Ha at 1. change (blake3_hash (bundle_signing_bytes b)) with (signing_digest b).
  assert (valid_bundle b → distinct_keys (active_producer_keys b)) as Hd
    by (intros [? _]%vb_active; by apply ascending_distinct).
  destruct (accepted t !! bundle_scope b) as [s|].
  - rewrite unit_lift_Returned. split.
    + intros (Hv & He & Hr & _ & Hs & ? & ? & ? & ? & Hf & Hc & Ht). apply Ha in Ht as [? ?]; [|done].
      apply check_previous_iff in Hc; [|by apply Hd]. split_and!; try done. by intros ? [= <-].
    + intros (Hv & He & Hr & Hs & (? & ? & ? & ?) & Hf & Hc & Ht). apply Ha in Ht; [|done].
      split_and!; try done; [by apply vb_signature|]. apply check_previous_iff; [by apply Hd|by apply Hc].
  - unfold mbind at 1, state_bind at 1. cbn [mret state_ret]. split.
    + intros (Hv & He & Hr & _ & Hs & ? & ? & ? & ? & Hf & Ht). apply Ha in Ht as [? ?]; [|done].
      split_and!; try done.
    + intros (Hv & He & Hr & Hs & (? & ? & ? & ?) & Hf & Hc & Ht). apply Ha in Ht; [|done].
      split_and!; try done. by apply vb_signature.
Qed.
End verify.

(** ** Contexts *)

Section contexts.
Context `{Ed25519Dalek, UrlParser}.

(** The digests of the request are allowed by the bundle. *)
Definition allows (b : TrustBundleV1) (r : TrustBoundRequest) : Prop :=
  request_policy_digest r ∈ allowed_policy_digests b ∧
  request_execution_profile_digest r ∈ allowed_execution_profile_digests b ∧
  request_platform_digest r ∈ allowed_platform_digests b ∧
  request_image_digest r ∈ allowed_image_digests b.

Definition context_of (b : TrustBundleV1) (r : TrustBoundRequest) (now : Z) : VerificationContext := {|
  context_tenant_id := bundle_tenant_id b;
  context_repository_id := bundle_repository_id b;
  context_request_key := request_request_key r;
  context_policy_digest := request_policy_digest r;
  context_execution_profile_digest := request_execution_profile_digest r;
  context_platform_digest := request_platform_digest r;
  context_image_digest := request_image_digest r;
  context_now := now;
  trusted_producer_keys := fst <$> collect_bindings (active_producer_keys b);
  context_revoked_key_ids := list_to_set (bundle_revoked_key_ids b);
  context_revoked_record_ids := list_to_set (bundle_revoked_record_ids b) |}.

Lemma verification_context_iff b r now c :
  TrustBundleV1_wf b → valid_bundle b →
  verification_context (capability b) r now = Ok c ↔
  fresh_at b now ∧ allows b r ∧ c = context_of b r now.
Proof.
  intros Hw Hv. unfold verification_context, contains_digest, allows. autorewrite with checks.
  cbn [capability verified_bundle]. rewrite validate_freshness_iff by apply Hw.
  pose proof (vb_digests _ Hv) as Hd. rewrite !list.Forall_cons in Hd.
  destruct Hd as ([_ Hp] & [_ Hx] & [_ Hf] & [_ Hi] & _).
  rewrite !(binary_search_sorted _ _) by done. split.
  - by intros (? & ? & ? & ? & ? & [= <-]).
  - by intros (? & (? & ? & ? & ?) & ->).
Qed.
End contexts.

(** * Histories of a trust tracker

    The trackers a client can reach: it starts with an empty one, verifies
    bundles, and restores checkpoints that a tracker of the same root exported
    before. [explained] is the invariant of every state such a tracker holds. *)

Section history.
Context `{Ed25519Dalek, UrlParser, Blake3HashOk}.
Context (root : PinnedRootKey) (seen : TrustBundleV1 → Prop).

(** ** Checkpoints *)

(** The checkpoint of a state. *)
Definition checkpoint_of (scope : TrustScope) (s : AcceptedEpoch) : TrustCheckpointV1 := {|
  checkpoint_schema_version := TRUST_CHECKPOINT_SCHEMA_VERSION;
  checkpoint_namespace := TRUST_CHECKPOINT_NAMESPACE;
  checkpoint_root_key_id := root_key_id root;
  checkpoint_root_public_key := root_verifying_key root;
  checkpoint_tenant_id := scope_tenant_id scope;
  checkpoint_repository_id := scope_repository_id scope;
  checkpoint_generation_id := scope_generation_id scope;
  checkpoint_endpoint_origin := scope_endpoint_origin scope;
  highest_epoch := accepted_epoch s;
  same_epoch_digest := canonical_signing_digest s;
  checkpoint_historical_key_bindings :=
    (λ '(k, (p, v)), mkBinding k p v) <$> entries (historical_key_bindings s);
  checkpoint_revoked_key_ids := keys_in_order (accepted_revoked_key_ids s);
  checkpoint_revoked_record_ids := keys_in_order (accepted_revoked_record_ids s) |}.

Lemma export_checkpoint_iff t e c :
  export_checkpoint t e root = Ok (Some c) ↔
  valid_expected e ∧ ∃ s, accepted t !! expected_scope e = Some s ∧ c = checkpoint_of (expected_scope e) s.
Proof.
  unfold export_checkpoint. rewrite unit_bind_Ok, validate_expected_iff.
  destruct (accepted t !! expected_scope e) as [s|]; [|naive_solver].
  split; [intros [? [= <-]]; eauto|]. by intros [? (? & [= <-] & ->)].
Qed.

(** A root key the client can have pinned. *)
Definition pinned : Prop :=
  identifier (root_key_id root) ∧ is_verifying_key (root_verifying_key root) = true.

(** A state all of whose names are identifiers and whose keys are keys. *)
Record valid_state (s : AcceptedEpoch) : Prop := {
  vs_epoch : accepted_epoch s ≠ 0 ∧ accepted_epoch s <= 2 ^ 53 - 1;
  vs_bindings : ∀ k v, historical_key_bindings s !! k = Some v →
                  valid_binding (mkBinding k (v.1) (v.2));
  vs_keys : ∀ k, k ∈ accepted_revoked_key_ids s → identifier k;
  vs_records : ∀ k, k ∈ accepted_revoked_record_ids s → identifier k;
  vs_keys_size : Z.of_nat (size (accepted_revoked_key_ids s)) <= 4096;
  vs_records_size : Z.of_nat (size (accepted_revoked_record_ids s)) <= 4096;
}.

(** What checking the checkpoint of a state yields: the state. *)
Lemma validate_checkpoint_of e scope s r :
  validate_checkpoint (checkpoint_of scope s) e root = Ok r → r = (scope, s) ∧ scope = expected_scope e.
Proof.
  unfold validate_checkpoint. autorewrite with checks. cbn [checkpoint_of].
  intros (_&_&_&_&_&_&_&_&_&_&Hs&_&_&_&_&_&_&_&Hr). revert Hr. cbn.
  rewrite collect_entries, !set_of_keys. intros [= <-]. cbn in Hs.
  destruct Hs as [[[? ?] ?] ?]. unfold expected_scope. destruct scope, s; cbn in *.
  split; congruence.
Qed.

Lemma validate_checkpoint_iff e scope s r :
  valid_state s → pinned →
  validate_checkpoint (checkpoint_of scope s) e root = Ok r ↔
  valid_expected e ∧ scope = expected_scope e ∧
  Z.of_nat (size (historical_key_bindings s)) <= 4096 ∧ r = (scope, s).
Proof.
  intros [[? ?] Hb Hk Hr ? ?] [Hid Hkey]. split.
  - intros Hc. destruct (validate_checkpoint_of _ _ _ _ Hc) as [-> ->]. revert Hc.
    unfold validate_checkpoint. autorewrite with checks. rewrite validate_expected_iff.
    intros (_&_&?&_&_&_&_&_&_&_&_&_&_&Hl&_). split_and!; try done. revert Hl. cbn.
    rewrite <- len_entries. unfold len. by rewrite length_fmap.
  - intros (He & -> & Hl & ->). unfold validate_checkpoint. autorewrite with checks.
    rewrite validate_expected_iff. pose proof He as (? & ? & ? & ?). cbn.
    rewrite collect_entries, !set_of_keys. unfold ascending. rewrite !len_keys_in_order.
    split_and!; try done.
    + rewrite <- len_entries in Hl. unfold len in *. by rewrite length_fmap.
    + apply list.Forall_fmap, list.Forall_forall. intros [k [p v]] Hkv%elem_of_entries.
      apply validate_binding_Ok. exact (Hb k (p, v) Hkv).
    + apply (sorted_keys binding_key_id). rewrite <- list_fmap_compose, (list_fmap_ext _ fst).
      * exact (proj1 (sorted_keys fst _) (entries_sorted _)).
      * by intros i [k [p v]] _.
    + apply keys_sorted.
    + apply list.Forall_forall. intros k Hin%elem_of_keys_in_order. by apply Hk.
    + apply keys_sorted.
    + apply list.Forall_forall. intros k Hin%elem_of_keys_in_order. by apply Hr.
    + unfold expected_scope. by destruct s.
Qed.

Lemma restore_checkpoint_iff c e t t' u :
  restore_checkpoint c e root t = Returned u t' ↔
  ∃ scope s, validate_checkpoint c e root = Ok (scope, s) ∧
    (∀ p, accepted t !! scope = Some p → grows p s) ∧ t' = insert_accepted scope s t.
Proof.
  unfold restore_checkpoint. rewrite lift_bind_Returned. destruct u. split.
  - intros ([scope s] & Hv & Ht). exists scope, s. split; [done|]. revert Ht.
    unfold mbind at 1, state_bind at 1. cbn [gets].
    destruct (accepted t !! scope) as [p|].
    + rewrite unit_lift_Returned, validate_monotonic_state_iff. intros [Hg [= <-]].
      split; [by intros ? [= <-]|done].
    + intros [= <-]. done.
  - intros (scope & s & Hv & Hg & ->). exists (scope, s). split; [done|].
    unfold mbind at 1, state_bind at 1. cbn [gets].
    destruct (accepted t !! scope) as [p|]; [|done].
    rewrite unit_lift_Returned, validate_monotonic_state_iff. split; [by apply Hg|done].
Qed.

(** ** Reachable trackers *)

Inductive tracked : TrustEpochTracker → Prop :=
| tracked_new : tracked TrustEpochTracker_new
| tracked_verify t b e now v t' :
    tracked t → seen b → verify_trust_bundle b e root now t = Returned v t' → tracked t'
| tracked_restore t s c e e' u t' :
    tracked t → tracked s → export_checkpoint s e root = Ok (Some c) →
    restore_checkpoint c e' root t = Returned u t' → tracked t'.

(** One accepted call on a tracker. *)
Inductive step (t t' : TrustEpochTracker) : Prop :=
| step_verify b e now v :
    seen b → verify_trust_bundle b e root now t = Returned v t' → step t t'
| step_restore s c e e' u :
    tracked s → export_checkpoint s e root = Ok (Some c) →
    restore_checkpoint c e' root t = Returned u t' → step t t'.

Lemma tracked_step t t' : tracked t → step t t' → tracked t'.
Proof.
  intros Ht [b e now v Hb Hv|s c e e' u Hs Hc Hr].
  - exact (tracked_verify _ _ _ _ _ _ Ht Hb Hv).
  - exact (tracked_restore _ _ _ _ _ _ _ Ht Hs Hc Hr).
Qed.

Hypothesis seen_wf : ∀ b, seen b → TrustBundleV1_wf b.

(** A state is explained by the last bundle accepted for its scope. *)
Record explained (scope : TrustScope) (s : AcceptedEpoch) : Prop := {
  ex_state : valid_state s;
  ex_bundle : ∃ b, seen b ∧ valid_bundle b ∧ bundle_scope b = scope ∧
    accepted_epoch s = bundle_epoch b ∧ canonical_signing_digest s = signing_digest b ∧
    collect_bindings (active_producer_keys b) ⊆ historical_key_bindings s ∧
    accepted_revoked_key_ids s = list_to_set (bundle_revoked_key_ids b) ∧
    accepted_revoked_record_ids s = list_to_set (bundle_revoked_record_ids b);
}.

Lemma size_of_list l : Z.of_nat (size (list_to_set l : gset (list Z))) <= len l.
Proof.
  unfold len. apply Nat2Z.inj_le. unfold size, set_size. cbn. apply submseteq_length.
  apply NoDup_submseteq; [apply NoDup_elements|]. intros k. by rewrite elem_of_elements, elem_of_list_to_set.
Qed.

Lemma state_after_valid b previous :
  TrustBundleV1_wf b → valid_bundle b →
  (∀ s, previous = Some s → valid_state s) → valid_state (state_after previous b).
Proof.
  intros _ Hv Hp. pose proof (vb_epoch _ Hv) as ?.
  destruct (vb_active _ Hv) as [_ Ha], (vb_revoked_keys _ Hv) as [[Hkl _] Hk],
    (vb_revoked_records _ Hv) as [[Hrl _] Hr].
  rewrite list.Forall_forall in Ha. rewrite list.Forall_forall in Hk, Hr.
  split; cbn; [done| |set_solver..| |].
  - intros k v [Hl|[_ Hl]]%lookup_union_Some_raw.
    + apply collect_bindings_elem in Hl as ([? ? ?] & Hin & -> & ->). by apply Ha in Hin.
    + destruct previous as [s|]; [|done]. by eapply vs_bindings; [apply Hp|].
  - pose proof (size_of_list (bundle_revoked_key_ids b)). lia.
  - pose proof (size_of_list (bundle_revoked_record_ids b)). lia.
Qed.

Lemma tracked_explained t :
  tracked t → ∀ scope s, accepted t !! scope = Some s → explained scope s.
Proof.
  induction 1 as [|t b e now v t' Ht IH Hb Hv|t s c e e' u t' Ht IH Hs IHs Hc Hr]; [done|..].
  - apply verify_trust_bundle_iff in Hv as (Hv & _ & _ & _ & _ & _ & _ & _ & ->); [|by apply seen_wf].
    intros scope s. cbn. intros [[<- <-]|[_ Hl]]%lookup_insert_Some; [|by apply IH].
    split; [|by exists b; split_and!; try done; apply map_union_subseteq_l].
    apply state_after_valid; [by apply seen_wf|done|]. intros s Hs. by apply (IH _ _ Hs).
  - apply restore_checkpoint_iff in Hr as (scope & s' & Hv & _ & ->).
    apply export_checkpoint_iff in Hc as (_ & s0 & Hs0 & ->).
    apply validate_checkpoint_of in Hv as [[= -> ->] _].
    intros sc s1. cbn. intros [[<- <-]|[_ Hl]]%lookup_insert_Some; [by apply IHs|by apply IH].
Qed.

(** No two of the bundles seen collide. *)
Hypothesis collision_free : ∀ b b',
  seen b → seen b' → signing_digest b = signing_digest b' →
  bundle_signing_bytes b = bundle_signing_bytes b'.

Lemma same_bundle b b' :
  seen b → seen b' → signing_digest b = signing_digest b' → unsigned_bundle b = unsigned_bundle b'.
Proof. intros. apply bundle_signing_bytes_inj; auto. Qed.

(** An accepted bundle extends the state of its scope. *)
Lemma accepted_grows s b :
  explained (bundle_scope b) s → seen b → valid_bundle b → may_follow s b →
  grows s (state_after (Some s) b).
Proof.
  intros [_ (b0 & Hb0 & _ & _ & He0 & Hd0 & Ha0 & Hk0 & Hr0)] Hb Hv [[He Hd]|(He & Ha & Hk & Hr)].
  - assert (unsigned_bundle b0 = unsigned_bundle b) as Hu by (apply same_bundle; congruence).
    injection Hu as _ _ _ _ _ _ Hep _ _ Hact Hrk Hrr _ _ _ _.
    split; cbn; [lia|done| |by rewrite Hk0, Hrk|by rewrite Hr0, Hrr].
    rewrite <- Hact. apply map_subseteq_spec. intros k v Hl.
    destruct (collect_bindings (active_producer_keys b0) !! k) as [v'|] eqn:Hc.
    + rewrite (lookup_union_Some_l _ _ _ _ Hc). f_equal.
      pose proof (lookup_weaken _ _ _ _ Hc Ha0). congruence.
    + by rewrite lookup_union_r.
  - split; cbn; [lia|intros; lia| |done..]. apply map_subseteq_spec. intros k v Hl.
    destruct (collect_bindings (active_producer_keys b) !! k) as [v'|] eqn:Hc.
    + rewrite (lookup_union_Some_l _ _ _ _ Hc). f_equal.
      apply collect_bindings_elem in Hc as (c & Hin & -> & ->). symmetry. by apply (Ha c Hin).
    + by rewrite lookup_union_r.
Qed.

Lemma step_grows t t' scope s :
  tracked t → step t t' → accepted t !! scope = Some s →
  ∃ s', accepted t' !! scope = Some s' ∧ grows s s'.
Proof.
  intros Ht Hs Hl. destruct Hs as [b e now v Hb Hv|s0 c e e' u Hs0 Hc Hr].
  - apply verify_trust_bundle_iff in Hv as (Hv & _ & _ & _ & _ & _ & Hf & _ & ->); [|by apply seen_wf].
    destruct (decide (bundle_scope b = scope)) as [<-|Hne].
    + eexists. cbn. rewrite lookup_insert_eq, Hl. split; [done|].
      apply accepted_grows; [by eapply tracked_explained|done|done|by apply Hf].
    + exists s. cbn. by rewrite lookup_insert_ne.
  - apply restore_checkpoint_iff in Hr as (sc & s1 & Hv & Hg & ->).
    destruct (decide (sc = scope)) as [->|Hne].
    + exists s1. cbn. rewrite lookup_insert_eq. split; [done|by apply Hg].
    + exists s. cbn. by rewrite lookup_insert_ne.
Qed.

Lemma steps_grow t t' :
  tracked t → rtc step t t' →
  tracked t' ∧ ∀ scope s, accepted t !! scope = Some s →
    ∃ s', accepted t' !! scope = Some s' ∧ grows s s'.
Proof.
  intros Ht Hs. induction Hs as [t|t t1 t' Hs _ IH]; [split; [done|]; intros; by eexists|].
  destruct (IH (tracked_step _ _ Ht Hs)) as [Ht' Hg]. split; [done|]. intros scope s Hl.
  destruct (step_grows _ _ _ _ Ht Hs Hl) as (s1 & Hl1 & ?).
  destruct (Hg _ _ Hl1) as (s' & ? & ?). exists s'. split; [done|]. by etrans.
Qed.
End history.
