(* ===== verification/TrustSample.v ===== *)
(** * A shared-cache session

    Concrete parameters (a toy signature scheme, hash and URL parser that obey
    the laws assumed of the real ones), a root, three bundles of consecutive
    epochs and a signed result; the theorems about histories are applied to it. *)

From Stdlib Require Import String.
From stdpp Require Import gmap.
From S2P Require Import Prelude Monad Bytes ContractTypes Canonical CanonicalSpec CanonicalParse.
From S2P Require Import CanonicalCodec RecordTypes Paths RecordValidation Digest.
From S2P Require Import IdentityRoundTrip Text Team TeamCrypto TrustBundle TeamLaws.

Module TrustSample.

(** A signature is the key followed by the first bytes of the message. *)
Definition toy_sign (key message : list Z) : list Z := key ++ take 32 (message ++ replicate 32 0).

#[export] Instance toy_ed25519 : Ed25519Dalek := {
  is_verifying_key key := len key =? 32;
  verify_strict key message signature := bytes_eqb signature (toy_sign key message);
  verifying_key_of secret := secret;
  sign := toy_sign;
}.

#[export] Instance toy_ed25519_ok : Ed25519DalekOk.
Proof.
  split; cbn.
  - intros secret Hs. by rewrite Hs.
  - intros secret message Hs. unfold toy_sign, len in *. rewrite length_app, length_take, length_app,
      length_replicate. lia.
  - intros secret message _. apply bytes_eqb_refl.
Qed.

#[export] Instance toy_blake3 : Blake3Hash := λ message,
  le_bytes 32 (len message).

#[export] Instance toy_blake3_ok : Blake3HashOk.
Proof. intros m. split; [apply is_bytes_le_bytes|apply le_bytes_length]. Qed.

#[export] Instance toy_url : UrlParser := λ value,
  Some (mkUrl (bstr "https") (Some value) [] None (bstr "/") None None value).

Definition root_secret : list Z := replicate 32 9.
Definition producer_secret : list Z := replicate 32 7.
Definition digest_of (n : Z) : list Z := replicate 32 n.

Definition root : PinnedRootKey := mkRoot (bstr "root-key-1") root_secret.

Definition binding (n : string) (key : list Z) : ProducerKeyBindingV1 :=
  mkBinding (bstr n) (bstr "producer-a") key.

(** A bundle of an epoch, signed by the root. *)
Definition bundle (epoch : Z) (keys : list ProducerKeyBindingV1) (revoked : list string) :
    TrustBundleV1 :=
  let unsigned signature := {|
    bundle_schema_version := 1; bundle_root_key_id := bstr "root-key-1";
    bundle_tenant_id := bstr "tenant-a"; bundle_repository_id := bstr "repo-a";
    bundle_generation_id := bstr "0123456789abcdef0123456789abcdef";
    bundle_endpoint_origin := bstr "https://cache.example.test";
    bundle_epoch := epoch; bundle_issued_at := 100; bundle_expires_at := 200;
    active_producer_keys := keys; bundle_revoked_key_ids := bstr <$> revoked;
    bundle_revoked_record_ids := [bstr "revoked-record-1"];
    allowed_policy_digests := [digest_of 1]; allowed_execution_profile_digests := [digest_of 2];
    allowed_platform_digests := [digest_of 3]; allowed_image_digests := [digest_of 4];
    bundle_signature := signature |} in
  unsigned (toy_sign root_secret (bundle_signing_bytes (unsigned []))).

Definition bundle1 : TrustBundleV1 :=
  bundle 1 [binding "producer-key-1" producer_secret] ["revoked-key-1"]%string.
Definition bundle2 : TrustBundleV1 :=
  bundle 2 [binding "producer-key-2" producer_secret] ["producer-key-1"; "revoked-key-1"]%string.
(** The revoked key of epoch 2 is active again. *)
Definition bundle3 : TrustBundleV1 :=
  bundle 3 [binding "producer-key-1" producer_secret] ["revoked-key-1"]%string.

Definition expected : ExpectedTrustBundle :=
  mkExpected (bstr "tenant-a") (bstr "repo-a") (bstr "0123456789abcdef0123456789abcdef")
    (bstr "https://cache.example.test").

Definition request : TrustBoundRequest :=
  mkRequest (digest_of 0) (digest_of 1) (digest_of 2) (digest_of 3) (digest_of 4).

(** The tracker after the first one and the first two bundles. *)
Definition tracker1 : TrustEpochTracker :=
  insert_accepted (bundle_scope bundle1) (state_after None bundle1) TrustEpochTracker_new.
Definition tracker2 : TrustEpochTracker :=
  insert_accepted (bundle_scope bundle2) (state_after (accepted tracker1 !! bundle_scope bundle2) bundle2)
    tracker1.

(** A result signed by the producer of epoch 2. *)
Definition signer : Ed25519Signer :=
  mkSigner (bstr "producer-key-2") (bstr "producer-a") producer_secret.

Definition unsigned_manifest : RemoteCacheManifest := {|
  remote_schema_version := 1; remote_record_id := bstr "record-1";
  remote_tenant_id := bstr "tenant-a"; remote_repository_id := bstr "repo-a";
  remote_request_key := digest_of 0; remote_policy_digest := digest_of 1;
  remote_execution_profile_digest := digest_of 2; remote_platform_digest := digest_of 3;
  remote_image_digest := digest_of 4;
  remote_stdout := mkBlobRef (digest_of 5) 10; remote_stderr := mkBlobRef (digest_of 6) 0;
  remote_producer_id := bstr "producer-a"; remote_created_at := 120; remote_expires_at := 1000;
  remote_privacy := mkPrivacy Internal Repository false; remote_signature := None |}.

Definition manifest : RemoteCacheManifest :=
  match sign_manifest signer unsigned_manifest with Ok m => m | Err _ => unsigned_manifest end.

Definition seen (b : TrustBundleV1) : Prop := b = bundle1 ∨ b = bundle2.

(** Facts about texts and bundles, decided. *)
Lemma text_check s :
  forallb (λ b, (0 <=? b) && (b <? 128)) s && (len s <=? ISIZE_MAX) = true → is_text s.
Proof.
  intros [Hb Hl%Z.leb_le]%andb_true_iff. rewrite List.forallb_forall in Hb.
  assert (is_bytes s) as Hs.
  { apply list.Forall_forall. intros b Hin%list_elem_of_In. specialize (Hb b Hin). unfold is_u8.
    bool_to_prop. lia. }
  split; [split; [done|]|by split]. clear Hl Hs. induction s as [|b s IH]; [done|]. cbn.
  assert ((b <=? 127) = true) as -> by (specialize (Hb b (or_introl eq_refl)); bool_to_prop; lia).
  apply IH. intros c Hc. apply Hb. by right.
Qed.

Lemma bundles_wf b : seen b → TrustBundleV1_wf b.
Proof.
  assert (∀ n, is_u8 n → is_digest (digest_of n)) as Hd.
  { intros n Hn. split; [by apply list.Forall_replicate|apply length_replicate]. }
  assert (∀ n, is_u8 n → wf_list is_digest [digest_of n]) as Hds.
  { intros n Hn. split; [by apply list.Forall_singleton, Hd|done]. }
  assert (∀ s, is_text (bstr s) → ProducerKeyBindingV1_wf (binding s producer_secret)) as Hb.
  { intros s Hs. split_and!; [done|by apply text_check|by apply (Hd 7)]. }
  assert (∀ e s r, is_u64 e → is_text (bstr s) → wf_list is_text (bstr <$> r) →
    TrustBundleV1_wf (bundle e [binding s producer_secret] r)) as Hall.
  { intros e s r He Hs Hr. unfold TrustBundleV1_wf. cbn [bundle bundle_schema_version].
    split_and!; try done; try (by apply text_check); try (by apply Hds).
    - split; [by apply list.Forall_singleton, Hb|done].
    - split; [by apply list.Forall_singleton, text_check|done]. }
  intros [-> | ->]; apply Hall; try done; try (by apply text_check).
  - split; [|done]. by repeat (apply list.Forall_cons; split); [apply text_check|].
  - split; [|done]. cbn. rewrite !list.Forall_cons, list.Forall_nil. by split_and!; try apply text_check.
Qed.

Lemma first_verified :
  verify_trust_bundle bundle1 expected root 150 TrustEpochTracker_new =
  Returned (capability bundle1) tracker1.
Proof.
  apply verify_trust_bundle_iff; [by apply bundles_wf; left|]. split_and!; try done.
  - apply validate_wire_shape_iff. vm_compute. reflexivity.
  - apply validate_expected_iff. vm_compute. reflexivity.
Qed.

Lemma second_verified :
  verify_trust_bundle bundle2 expected root 150 tracker1 = Returned (capability bundle2) tracker2.
Proof.
  apply verify_trust_bundle_iff; [by apply bundles_wf; right|]. split_and!; try done.
  - apply validate_wire_shape_iff. vm_compute. reflexivity.
  - apply validate_expected_iff. vm_compute. reflexivity.
  - intros s. cbn [tracker1 insert_accepted accepted]. change (bundle_scope bundle2) with (bundle_scope bundle1).
    rewrite lookup_insert_eq. intros [= <-]. right. cbn [state_after accepted_epoch].
    split_and!; [done| |set_solver|done]. intros k ->%list_elem_of_singleton.
    split; [unfold state_after; cbn [accepted_revoked_key_ids]; rewrite elem_of_list_to_set; by intros ?%list_elem_of_singleton|].
    intros v Hv. exfalso. revert Hv. unfold state_after. cbn [historical_key_bindings].
    rewrite (right_id_L ∅ (∪)). by intros (c & ->%list_elem_of_singleton & ? & _)%collect_bindings_elem.
Qed.

Lemma manifest_signed : sign_manifest signer unsigned_manifest = Ok manifest.
Proof. vm_compute. reflexivity. Qed.

Lemma manifest_wf : RemoteCacheManifest_wf manifest.
Proof.
  assert (∀ n, is_u8 n → is_digest (digest_of n)) as Hd.
  { intros n Hn. split; [by apply list.Forall_replicate|apply length_replicate]. }
  assert (is_bytes (sign producer_secret (manifest_signing_bytes manifest))) as Hs
    by (apply is_bytes_check; vm_compute; reflexivity).
  split_and!; try done; try (by apply text_check); try (by apply Hd).
  - split; [by apply Hd|done].
  - split; [by apply Hd|done].
  - split_and!; [done|by apply text_check|]. split; [exact Hs|]. vm_compute. discriminate.
Qed.

(** The context of bundle 2 for the request. *)
Definition context : VerificationContext := {|
  context_tenant_id := bstr "tenant-a"; context_repository_id := bstr "repo-a";
  context_request_key := digest_of 0; context_policy_digest := digest_of 1;
  context_execution_profile_digest := digest_of 2; context_platform_digest := digest_of 3;
  context_image_digest := digest_of 4; context_now := 150;
  trusted_producer_keys := verified_trusted_producer_keys (capability bundle2);
  context_revoked_key_ids := verified_revoked_key_ids (capability bundle2);
  context_revoked_record_ids := verified_revoked_record_ids (capability bundle2) |}.

Lemma context_derived : verification_context (capability bundle2) request 150 = Ok context.
Proof. reflexivity. Qed.

Lemma manifest_accepted :
  verify_candidate manifest context (producer_verifier (capability bundle2)) =
  Ok (mkVerified manifest).
Proof.
  assert (collect_bindings (active_producer_keys bundle2) !! bstr "producer-key-2" =
    Some (bstr "producer-a", producer_secret)) as Hk by (vm_compute; reflexivity).
  assert (∃ e, remote_signature manifest = Some e ∧ shareable manifest e) as (e & He & Hs).
  { destruct (proj1 (validate_for_signing_iff manifest)) as [e He]; [vm_compute; reflexivity|].
    exists e. split; [by apply sh_envelope|done]. }
  apply verify_candidate_iff. split; [done|]. exists e. injection He as <-.
  split_and!; [done|done| |].
  - split; [done..| | |].
    + unfold context, capability. cbn [context_revoked_record_ids verified_revoked_record_ids].
      rewrite elem_of_list_to_set. apply (bool_decide_unpack _). vm_compute. exact I.
    + unfold context, capability. cbn [context_revoked_key_ids verified_revoked_key_ids].
      rewrite elem_of_list_to_set. apply (bool_decide_unpack _). vm_compute. exact I.
    + unfold context, capability. cbn [trusted_producer_keys verified_trusted_producer_keys].
      change (envelope_key_id _) with (bstr "producer-key-2"). by rewrite lookup_fmap, Hk.
  - unfold verify, Ed25519Verifier_SignatureVerifier, Ed25519Verifier_verify.
    unfold capability. cbn [producer_verifier verifier_keys].
    change (envelope_key_id _) with (bstr "producer-key-2"). rewrite Hk. vm_compute. reflexivity.
Qed.

End TrustSample.
