(* ===== verification/TrustTheorems.v ===== *)
(** * Theorems about the shared cache

    Signatures cover everything they should, verification accepts exactly what
    the bundle allows, the tracker never forgets, and a result that passes the
    whole chain was signed by a producer no accepted bundle has revoked. *)

From Stdlib Require Import String Sorting.Sorted.
From stdpp Require Import gmap.
From S2P Require Import Prelude Monad Bytes ContractTypes Canonical CanonicalSpec CanonicalParse.
From S2P Require Import CanonicalCodec RecordTypes Paths RecordValidation Digest.
From S2P Require Import IdentityRoundTrip TreeSpec Text Team TeamCrypto TrustBundle TeamLaws.
From S2P Require Import TrustSample.

#[local] Existing Instances TrustSample.toy_ed25519 TrustSample.toy_ed25519_ok
  TrustSample.toy_blake3 TrustSample.toy_blake3_ok TrustSample.toy_url.

(** ** Signed bytes *)

Lemma signing_bytes_part m : manifest_signing_bytes (signed_part m) = manifest_signing_bytes m.
Proof. unfold signed_part, manifest_signing_bytes. cbn. by destruct (remote_signature m) as [[]|]. Qed.

(** The signed bytes determine what is signed and nothing else: two manifests
    have the same signed bytes exactly when they agree on everything but the
    signature, so do two trust bundles, and no manifest has the signed bytes of
    a bundle. *)
Theorem signed_bytes_bind (m m' : RemoteCacheManifest) (b b' : TrustBundleV1) :
  RemoteCacheManifest_wf m → RemoteCacheManifest_wf m' → TrustBundleV1_wf b → TrustBundleV1_wf b' →
  (manifest_signing_bytes m = manifest_signing_bytes m' ↔ signed_part m = signed_part m') ∧
  (bundle_signing_bytes b = bundle_signing_bytes b' ↔ unsigned_bundle b = unsigned_bundle b') ∧
  manifest_signing_bytes m ≠ bundle_signing_bytes b.
Proof.
  intros Hm Hm' Hb Hb'. split_and!; [split..|apply signing_domains_differ].
  - by apply manifest_signing_bytes_inj.
  - intros He. by rewrite <- signing_bytes_part, He, signing_bytes_part.
  - by apply bundle_signing_bytes_inj.
  - intros He. by apply (f_equal bundle_signing_bytes) in He.
Qed.

Lemma signed_bytes_bind_witness :
  manifest_signing_bytes TrustSample.manifest ≠ bundle_signing_bytes TrustSample.bundle1.
Proof.
  destruct (signed_bytes_bind TrustSample.manifest TrustSample.manifest TrustSample.bundle1
    TrustSample.bundle2 TrustSample.manifest_wf TrustSample.manifest_wf
    (TrustSample.bundles_wf _ (or_introl eq_refl)) (TrustSample.bundles_wf _ (or_intror eq_refl)))
    as (_ & _ & Hne). exact Hne.
Defined.

(** ** Candidates *)

(** A candidate is accepted exactly when its manifest is shareable (version,
    identifiers, sizes, lifetime, privacy), carries a signature of 64 bytes, is
    what the context asks for, is neither expired nor from the future, its
    record and key are not revoked, its key is authorized for its producer, and
    the verifier accepts the signature over the signed bytes. *)
Theorem verify_candidate_exact {V} `{!SignatureVerifier V} (m : RemoteCacheManifest)
    (c : VerificationContext) (v : V) (r : VerifiedCandidate) :
  verify_candidate m c v = Ok r ↔
  r = mkVerified m ∧ ∃ e, shareable m e ∧ len (envelope_signature e) = 64 ∧ authorized c m e ∧
    verify v (envelope_algorithm e) (envelope_key_id e) (remote_producer_id m)
      (manifest_signing_bytes m) (envelope_signature e) = true.
Proof. apply verify_candidate_iff. Qed.

Section signing.
Context `{Ed25519DalekOk}.

Lemma from_secret_key_Ok kid pid secret s :
  Ed25519Signer_from_secret_key kid pid secret = Ok s ↔
  identifier kid ∧ identifier pid ∧ len secret = 32 ∧ s = mkSigner kid pid secret.
Proof.
  unfold Ed25519Signer_from_secret_key. autorewrite with checks.
  change ED25519_SECRET_KEY_BYTES with 32. naive_solver.
Qed.

Lemma sign_manifest_Ok s m m' :
  sign_manifest s m = Ok m' →
  remote_producer_id m = signer_producer_id s ∧ with_signature m' None = with_signature m None ∧
  ∃ e, shareable m' e ∧ envelope_key_id e = signer_key_id s ∧
    envelope_signature e = sign (signing_key s) (manifest_signing_bytes m').
Proof.
  unfold sign_manifest. autorewrite with checks. intros (Hp & _ & Hv & [= <-]).
  set (signed := sign _ _). split; [done|]. split; [done|]. destruct (validate_for_signing _) as [[]|] eqn:Hs; [|done].
  apply validate_for_signing_iff in Hs as [e He]. pose proof (sh_envelope _ _ He) as [= <-].
  exists (mkEnvelope 1 Ed25519 (signer_key_id s) signed). split; [|done]. destruct He. by split.
Qed.
End signing.

(** Signing and verifying fit together: a manifest that a signer signed differs
    from the given one in its signature only, and against the keyring of the
    signer's public key it is accepted exactly in the contexts that authorize
    it. *)
Theorem signed_manifest_verifies `{Ed25519DalekOk} (kid pid secret : list Z) (s : Ed25519Signer)
    (m m' : RemoteCacheManifest) :
  Ed25519Signer_from_secret_key kid pid secret = Ok s → sign_manifest s m = Ok m' →
  with_signature m' None = with_signature m None ∧
  ∃ v e, Ed25519Verifier_from_public_key kid pid (signer_public_key_bytes s) = Ok v ∧
    remote_signature m' = Some e ∧
    ∀ c, verify_candidate m' c v = Ok (mkVerified m') ↔ authorized c m' e.
Proof.
  intros (Hk & Hp & Hl & ->)%from_secret_key_Ok (Hpm & Hu & e & He & Hke & Hse)%sign_manifest_Ok.
  split; [done|]. cbn in *. destruct (verifying_key_valid secret Hl) as [Hvl Hvk].
  exists (mkVerifier {[kid := (pid, verifying_key_of secret)]}), e.
  split_and!; [|by apply sh_envelope|].
  - unfold Ed25519Verifier_from_public_key, insert_public_key, signer_public_key_bytes. cbn.
    autorewrite with checks. split_and!; [done..| |]; [by rewrite Hvk|]. done.
  - intros c. rewrite verify_candidate_iff. assert (remote_producer_id m' = pid) as Hpid
      by (apply (f_equal remote_producer_id) in Hu; by cbn in Hu; congruence).
    assert (verify (mkVerifier {[kid := (pid, verifying_key_of secret)]}) (envelope_algorithm e)
      (envelope_key_id e) (remote_producer_id m') (manifest_signing_bytes m') (envelope_signature e)
      = true) as Hv.
    { unfold verify, Ed25519Verifier_SignatureVerifier, Ed25519Verifier_verify. rewrite Hke, Hse, Hpid.
      cbn. rewrite sign_length, lookup_singleton_eq, bytes_eqb_refl by done.
      destruct (envelope_algorithm e). by apply sign_verifies. }
    rewrite Hse in *. split.
    + intros (_ & e' & He' & _ & Ha & _). pose proof (sh_envelope _ _ He).
      pose proof (sh_envelope _ _ He'). congruence.
    + intros Ha. split; [done|]. exists e. rewrite Hse, sign_length by done. done.
Qed.

Lemma signed_manifest_verifies_witness :
  ∃ v e, Ed25519Verifier_from_public_key (bstr "producer-key-2") (bstr "producer-a")
           TrustSample.producer_secret = Ok v ∧
    remote_signature TrustSample.manifest = Some e.
Proof.
  destruct (signed_manifest_verifies (bstr "producer-key-2") (bstr "producer-a")
    TrustSample.producer_secret TrustSample.signer TrustSample.unsigned_manifest
    TrustSample.manifest) as (_ & v & e & Hv & He & _).
  - vm_compute. reflexivity.
  - exact TrustSample.manifest_signed.
  - exists v, e. exact (conj Hv He).
Defined.

(** ** Bundles *)

Lemma verify_unchanged `{Ed25519Dalek, UrlParser, Blake3HashOk} b e root now t :
  wp (verify_trust_bundle b e root now) (λ _ _, True) (λ _ t', t' = t) t.
Proof.
  unfold verify_trust_bundle. rewrite digest_bytes_eq. wp_steps; try done.
  all: try (eapply wp_lift_index; [done|]; wp_steps; try done).
  all: repeat (case_match || wp_steps || done).
Qed.

(** Verification of a bundle is exact: it is accepted exactly when it is well
    formed, names the pinned root and is signed by it, has the expected scope,
    is fresh, and may follow what the tracker holds for the scope; the tracker
    then holds the new state of that scope and the caller gets the bundle's own
    keys and revocations. Otherwise nothing changes, and nothing panics. *)
Theorem verify_trust_bundle_exact `{Ed25519Dalek, UrlParser, Blake3HashOk} (b : TrustBundleV1)
    (e : ExpectedTrustBundle) (root : PinnedRootKey) (now : Z) (t : TrustEpochTracker) :
  TrustBundleV1_wf b →
  let accepts :=
    valid_bundle b ∧ valid_expected e ∧ bundle_root_key_id b = root_key_id root ∧
    verify_strict (root_verifying_key root) (bundle_signing_bytes b) (bundle_signature b) = true ∧
    bundle_scope b = expected_scope e ∧ fresh_at b now ∧
    ∀ s, accepted t !! bundle_scope b = Some s → may_follow s b in
  match verify_trust_bundle b e root now t with
  | Returned v t' =>
    accepts ∧ v = capability b ∧
    t' = insert_accepted (bundle_scope b) (state_after (accepted t !! bundle_scope b) b) t
  | Threw _ t' => ¬ accepts ∧ t' = t
  | Panicked => False
  end.
Proof.
  intros Hw accepts. pose proof (verify_unchanged b e root now t) as Hu. unfold wp in Hu.
  pose proof (λ v t', verify_trust_bundle_iff b e root now t v t' Hw) as Hv.
  destruct (verify_trust_bundle b e root now t) as [v t'|error t'|]; [|split|done].
  - destruct (proj1 (Hv v t') eq_refl) as (? & ? & ? & ? & ? & ? & ? & ? & ?).
    by split_and!.
  - intros (? & ? & ? & ? & ? & ? & ?). specialize (Hv (capability b)
      (insert_accepted (bundle_scope b) (state_after (accepted t !! bundle_scope b) b) t)).
    discriminate (proj2 Hv). done.
  - done.
Qed.

Lemma verify_trust_bundle_exact_witness :
  accepted TrustSample.tracker1 !! bundle_scope TrustSample.bundle1 =
  Some (state_after None TrustSample.bundle1).
Proof.
  pose proof (verify_trust_bundle_exact TrustSample.bundle1 TrustSample.expected TrustSample.root
    150 TrustEpochTracker_new (TrustSample.bundles_wf _ (or_introl eq_refl))) as Hv.
  rewrite TrustSample.first_verified in Hv. destruct Hv as (_ & _ & Ht). rewrite Ht.
  apply lookup_insert_eq.
Defined.

Section sample.
Lemma sample_collision_free b b' :
  TrustSample.seen b → TrustSample.seen b' → signing_digest b = signing_digest b' →
  bundle_signing_bytes b = bundle_signing_bytes b'.
Proof.
  assert (signing_digest TrustSample.bundle1 ≠ signing_digest TrustSample.bundle2) as Hne.
  { apply (bool_decide_unpack _). vm_compute. exact I. }
  intros [-> | ->] [-> | ->] Hd;
    [reflexivity|exact (False_ind _ (Hne Hd))|exact (False_ind _ (Hne (eq_sym Hd)))|reflexivity].
Qed.

Lemma sample_tracked1 : tracked TrustSample.root TrustSample.seen TrustSample.tracker1.
Proof.
  eapply tracked_verify; [apply tracked_new| |apply TrustSample.first_verified]. by left.
Qed.

Lemma sample_step : step TrustSample.root TrustSample.seen TrustSample.tracker1 TrustSample.tracker2.
Proof. eapply step_verify; [|apply TrustSample.second_verified]. by right. Qed.
End sample.

(** C27. Trust never rolls back: whatever bundles a client verifies and whatever
    checkpoints of its own it restores, the epoch of every scope never
    decreases, one epoch never has two contents, no producer key is ever bound
    to another producer or another key, and no revocation of a key or a record
    is ever forgotten, unless two of the bundles collide. *)
Theorem trust_never_rolls_back `{Ed25519Dalek, UrlParser, Blake3HashOk} (root : PinnedRootKey)
    (seen : TrustBundleV1 → Prop) (t t' : TrustEpochTracker) (scope : TrustScope)
    (s : AcceptedEpoch) :
  (∀ b, seen b → TrustBundleV1_wf b) →
  (∀ b b', seen b → seen b' → signing_digest b = signing_digest b' →
     bundle_signing_bytes b = bundle_signing_bytes b') →
  tracked root seen t → rtc (step root seen) t t' → accepted t !! scope = Some s →
  ∃ s', accepted t' !! scope = Some s' ∧
    accepted_epoch s <= accepted_epoch s' ∧
    (accepted_epoch s = accepted_epoch s' →
       canonical_signing_digest s = canonical_signing_digest s') ∧
    historical_key_bindings s ⊆ historical_key_bindings s' ∧
    accepted_revoked_key_ids s ⊆ accepted_revoked_key_ids s' ∧
    accepted_revoked_record_ids s ⊆ accepted_revoked_record_ids s'.
Proof.
  intros Hw Hc Ht Hs Hl. destruct (steps_grow root seen Hw Hc t t' Ht Hs) as [_ Hg].
  destruct (Hg _ _ Hl) as (s' & Hl' & []). by exists s'.
Qed.

Lemma trust_never_rolls_back_witness :
  ∃ s', accepted TrustSample.tracker2 !! bundle_scope TrustSample.bundle1 = Some s' ∧
    bundle_epoch TrustSample.bundle1 <= accepted_epoch s'.
Proof.
  destruct (trust_never_rolls_back TrustSample.root TrustSample.seen TrustSample.tracker1
    TrustSample.tracker2 (bundle_scope TrustSample.bundle1) (state_after None TrustSample.bundle1)
    TrustSample.bundles_wf sample_collision_free sample_tracked1
    (rtc_once _ _ sample_step) (lookup_insert_eq _ _ _)) as (s' & Hl & He & _).
  exists s'. exact (conj Hl He).
Defined.

(** ** The whole chain *)

Section chain.
Context `{Ed25519Dalek, UrlParser}.

(** What a context derived from a verified bundle allows. *)
Lemma verification_context_Ok b r now c :
  TrustBundleV1_wf b → valid_bundle b →
  verification_context (capability b) r now = Ok c →
  fresh_at b now ∧ context_now c = now ∧
  context_tenant_id c = bundle_tenant_id b ∧ context_repository_id c = bundle_repository_id b ∧
  context_request_key c = request_request_key r ∧
  context_policy_digest c ∈ allowed_policy_digests b ∧
  context_execution_profile_digest c ∈ allowed_execution_profile_digests b ∧
  context_platform_digest c ∈ allowed_platform_digests b ∧
  context_image_digest c ∈ allowed_image_digests b ∧
  trusted_producer_keys c = fst <$> collect_bindings (active_producer_keys b) ∧
  context_revoked_key_ids c = list_to_set (bundle_revoked_key_ids b) ∧
  context_revoked_record_ids c = list_to_set (bundle_revoked_record_ids b).
Proof.
  intros Hw Hv. rewrite verification_context_iff by done. intros (? & (? & ? & ? & ?) & ->). done.
Qed.
End chain.

(** C28. A result that passes the whole chain is authorized: when a client that has
    reached some tracker verifies a bundle, derives a context from it and
    accepts a manifest with it, the manifest is signed under an active key of
    the bundle, bound to the manifest's producer; neither the key nor the
    record is revoked by the bundle or by anything ever accepted for the scope,
    and the key was never bound to anything else there; the manifest answers
    the request, for the tenant and repository expected and digests the bundle
    allows; manifest and bundle are fresh. *)
Theorem shared_result_authorized `{Ed25519Dalek, UrlParser, Blake3HashOk} (root : PinnedRootKey)
    (seen : TrustBundleV1 → Prop) (t0 t t' : TrustEpochTracker) (b : TrustBundleV1)
    (e : ExpectedTrustBundle) (now now' : Z) (v : VerifiedTrustBundle) (r : TrustBoundRequest)
    (c : VerificationContext) (m : RemoteCacheManifest) (x : VerifiedCandidate) :
  (∀ b, seen b → TrustBundleV1_wf b) →
  (∀ b b', seen b → seen b' → signing_digest b = signing_digest b' →
     bundle_signing_bytes b = bundle_signing_bytes b') →
  tracked root seen t0 → rtc (step root seen) t0 t → seen b →
  verify_trust_bundle b e root now t = Returned v t' →
  verification_context v r now' = Ok c →
  verify_candidate m c (producer_verifier v) = Ok x →
  ∃ env k, remote_signature m = Some env ∧ k ∈ active_producer_keys b ∧
    binding_key_id k = envelope_key_id env ∧ binding_producer_id k = remote_producer_id m ∧
    verify_strict (binding_public_key k) (manifest_signing_bytes m) (envelope_signature env) = true ∧
    (envelope_key_id env ∉ bundle_revoked_key_ids b) ∧
    (remote_record_id m ∉ bundle_revoked_record_ids b) ∧
    (∀ s, accepted t0 !! bundle_scope b = Some s →
       (envelope_key_id env ∉ accepted_revoked_key_ids s) ∧
       (remote_record_id m ∉ accepted_revoked_record_ids s) ∧
       ∀ w, historical_key_bindings s !! envelope_key_id env = Some w → w = binding_value k) ∧
    remote_request_key m = request_request_key r ∧
    remote_tenant_id m = expected_tenant_id e ∧ remote_repository_id m = expected_repository_id e ∧
    remote_policy_digest m ∈ allowed_policy_digests b ∧
    remote_execution_profile_digest m ∈ allowed_execution_profile_digests b ∧
    remote_platform_digest m ∈ allowed_platform_digests b ∧
    remote_image_digest m ∈ allowed_image_digests b ∧
    remote_created_at m <= now' < remote_expires_at m ∧ fresh_at b now'.
Proof.
  intros Hw Hcol Ht0 Hs Hb Hv Hc Hm. destruct (steps_grow root seen Hw Hcol t0 t Ht0 Hs) as [Ht Hg].
  pose proof (step_grows root seen Hw Hcol t t' (bundle_scope b)) as Hstep.
  pose proof (step_verify root seen t t' b e now v Hb Hv) as Hst.
  apply verify_trust_bundle_iff in Hv as (Hvb & _ & _ & _ & Hsc & _ & _ & -> & ->); [|by apply Hw].
  apply scope_eq in Hsc as (Hten & Hrep & _ & _).
  apply verification_context_Ok in Hc
    as (Hfr & Hnow & Htc & Hrc & Hreq & Hp & Hx & Hf & Hi & Htk & Hrk & Hrr); [|by apply Hw|done].
  apply verify_candidate_iff in Hm as (-> & env & Hsh & _ & Ha & Hver).
  destruct Ha as [a1 a2 a3 a4 a5 a6 a7 a8 Hrec Hkey Hprod].
  rewrite Hrr, elem_of_list_to_set in Hrec. rewrite Hrk, elem_of_list_to_set in Hkey.
  rewrite Htk, lookup_fmap in Hprod.
  destruct (collect_bindings (active_producer_keys b) !! envelope_key_id env) as [w|] eqn:Hcb; [|done].
  pose proof Hcb as (k & Hk & Hkid & ->)%collect_bindings_elem. injection Hprod as Hprod.
  exists env, k. split_and!; try congruence; try done; [by apply sh_envelope| | |lia..].
  - revert Hver. unfold verify, Ed25519Verifier_SignatureVerifier, Ed25519Verifier_verify.
    cbn [capability producer_verifier verifier_keys]. rewrite Hcb.
    case_match; [done|]. unfold binding_value. by case_match.
  - intros s Hl. destruct (Hg _ _ Hl) as (s1 & Hl1 & Hg1).
    destruct (Hstep s1 Ht Hst Hl1) as (s2 & Hl2 & Hg2). cbn in Hl2.
    rewrite lookup_insert_eq in Hl2. injection Hl2 as <-.
    assert (grows s (state_after (accepted t !! bundle_scope b) b)) as [_ _ Hbi Hke Hre] by by etrans.
    cbn in Hbi, Hke, Hre. split_and!; [set_solver..|].
    intros w Hlw. eapply lookup_weaken in Hlw; [|done].
    rewrite (lookup_union_Some_l _ _ _ _ Hcb) in Hlw. by injection Hlw.
Qed.

Lemma shared_result_authorized_witness :
  ∃ env, remote_signature TrustSample.manifest = Some env ∧
    (envelope_key_id env ∉ accepted_revoked_key_ids (state_after None TrustSample.bundle1)).
Proof.
  destruct (shared_result_authorized TrustSample.root TrustSample.seen TrustSample.tracker1
    TrustSample.tracker1 TrustSample.tracker2 TrustSample.bundle2 TrustSample.expected 150 150
    (capability TrustSample.bundle2) TrustSample.request TrustSample.context TrustSample.manifest
    (mkVerified TrustSample.manifest) TrustSample.bundles_wf sample_collision_free sample_tracked1
    (rtc_refl _ _) (or_intror eq_refl) TrustSample.second_verified TrustSample.context_derived
    TrustSample.manifest_accepted)
    as (env & k & He & _ & _ & _ & _ & _ & _ & Hs & _).
  exists env. split; [exact He|].
  exact (proj1 (Hs (state_after None TrustSample.bundle1) (lookup_insert_eq _ _ _))).
Defined.

(** ** Checkpoints *)

(** C29. An exported checkpoint restores exactly the state it was taken from, into a
    new tracker, as long as the scope has at most 4096 historical keys; with
    more of them it is refused, although every single bundle was accepted. *)
Theorem checkpoint_restores_exact `{Ed25519Dalek, UrlParser, Blake3HashOk} (kid pk : list Z)
    (root : PinnedRootKey) (seen : TrustBundleV1 → Prop) (t t' : TrustEpochTracker)
    (e : ExpectedTrustBundle) (c : TrustCheckpointV1) :
  (∀ b, seen b → TrustBundleV1_wf b) →
  PinnedRootKey_from_public_key kid pk = Ok root →
  tracked root seen t → export_checkpoint t e root = Ok (Some c) →
  ∃ s, accepted t !! expected_scope e = Some s ∧
    (restore_checkpoint c e root TrustEpochTracker_new = Returned () t' ↔
     Z.of_nat (size (historical_key_bindings s)) <= 4096 ∧
     t' = mkTracker {[expected_scope e := s]}).
Proof.
  intros Hw Hr Ht (He & s & Hs & ->)%export_checkpoint_iff. exists s. split; [done|].
  revert Hr. unfold PinnedRootKey_from_public_key. autorewrite with checks.
  intros (Hid & _ & Hkey & [= <-]). set (root := mkRoot kid pk) in *.
  assert (valid_state s) as Hv
    by exact (ex_state seen _ s (tracked_explained root seen Hw t Ht _ s Hs)).
  rewrite restore_checkpoint_iff. split.
  - intros (sc & s' & Hc & _ & ->). apply validate_checkpoint_iff in Hc as (_ & _ & ? & [= -> ->]);
      [done..|by split].
  - intros [Hl ->]. exists (expected_scope e), s. split; [|done].
    apply validate_checkpoint_iff; [done|by split|done].
Qed.

Lemma checkpoint_restores_exact_witness :
  ∃ c s, export_checkpoint TrustSample.tracker1 TrustSample.expected TrustSample.root = Ok (Some c) ∧
    accepted TrustSample.tracker1 !! expected_scope TrustSample.expected = Some s.
Proof.
  assert (export_checkpoint TrustSample.tracker1 TrustSample.expected TrustSample.root =
    Ok (Some (checkpoint_of TrustSample.root (expected_scope TrustSample.expected)
                (state_after None TrustSample.bundle1)))) as Hx.
  { apply export_checkpoint_iff. split.
    - apply validate_expected_iff. vm_compute. reflexivity.
    - eexists. split; [apply lookup_insert_eq|reflexivity]. }
  assert (PinnedRootKey_from_public_key (bstr "root-key-1") TrustSample.root_secret =
    Ok TrustSample.root) as Hr by (vm_compute; reflexivity).
  destruct (checkpoint_restores_exact (bstr "root-key-1") TrustSample.root_secret TrustSample.root
    TrustSample.seen TrustSample.tracker1 TrustSample.tracker1 TrustSample.expected _
    TrustSample.bundles_wf Hr sample_tracked1 Hx) as (s & Hs & _).
  exists (checkpoint_of TrustSample.root (expected_scope TrustSample.expected)
    (state_after None TrustSample.bundle1)), s. exact (conj Hx Hs).
Defined.
