(* ===== verification/GatewayProtocol.v ===== *)
(** * Calls, policies and contexts of the agent gateway

    The parts of [src/src/agent_gateway/protocol.rs] that routing depends on:
    the validated call envelope and its digest, capability classes, action
    contexts, dependency sets and tool policies. The canonical JSON encoder is a
    parameter, the class [CanonicalJson], because it runs over serde's data
    model; arguments are their canonical bytes. *)

From Stdlib Require Import String.
From stdpp Require Import gmap.
From S2P Require Import Prelude Monad Bytes ContractTypes Canonical CanonicalSpec CanonicalParse.
From S2P Require Import CanonicalCodec RecordTypes Paths Digest Text Team.

Definition GATEWAY_TOOL_CALL_SCHEMA_VERSION : Z := 1.
Definition TOOL_POLICY_SCHEMA_VERSION_V1 : Z := 1.
Definition MAX_TOOL_POLICY_IDENTIFIER_BYTES_V1 : Z := 128.
Definition MAX_TOOL_POLICY_DEPENDENCIES_V1 : Z := 64.
Definition MAX_COMMAND_ARGUMENTS_V1 : Z := 256.
Definition MAX_COMMAND_ARGUMENT_BYTES_V1 : Z := 16 * 1024.
Definition MAX_COMPLETE_STREAM_BYTES_V1 : Z := 64 * 1024 * 1024.
Definition REQUEST_DIGEST_DOMAIN : list Z := bstr "again.agent-gateway.request.v1" ++ [0].
Definition MAX_IDENTITY_BYTES_V1 : Z := 256.
Definition MAX_DIGEST_ALGORITHM_BYTES_V1 : Z := 32.
Definition MAX_DIGEST_VALUE_BYTES_V1 : Z := 256.

Module ProtocolErrors.
Inductive CanonicalJsonError :=
| InputTooLarge | EncodedTooLarge | DepthLimitExceeded | NodeLimitExceeded | DuplicateKey | Malformed.
Inductive GatewayProtocolError :=
| UnsupportedSchemaVersion | InvalidField | MalformedEnvelope | CanonicalJson (e : CanonicalJsonError).
End ProtocolErrors.
Import ProtocolErrors.

Module PolicyRefusals.
Inductive ToolPolicyRefusalV1 :=
| UnsupportedSchema | InvalidIdentifier | InvalidDependency | DuplicateDependency
| IncompleteDependencies | InvalidFreshnessValidator | UnexpectedFreshnessValidator
| InvalidCommandInvocation | IncompleteStreams | StreamBoundExceeded.
End PolicyRefusals.
Import PolicyRefusals.

(** ** Identities *)

Record ProviderIdentityV1 := mkProvider { provider_id : list Z; provider_version : list Z }.
Record ModelIdentityV1 := mkModel { model_id : list Z; model_version : list Z }.
Record ToolIdentityV1 := mkTool { tool_id : list Z; tool_version : list Z }.
Record WorkspaceIdentityV1 := mkWorkspace { workspace_id : list Z; workspace_cwd : list Z }.
Record AgentCallIdentityV1 := mkAgentCall {
  agent_id : list Z;
  session_id : list Z;
  turn_id : list Z;
  agent_call_id : list Z;
}.
Record TaskIdentityV1 := mkTask { task_id : list Z; task_version : list Z }.

Record DigestReferenceV1 := mkDigestReference {
  digest_algorithm : list Z;
  digest_value : list Z;
}.

Record StateDigestReferenceV1 := mkStateReference {
  state_schema_version : Z;
  state_repository : DigestReferenceV1;
  state_environment : DigestReferenceV1;
}.

Module States.
Inductive RepositoryEnvironmentStateV1 :=
| Known (reference : StateDigestReferenceV1)
| Unknown.
End States.

Module Permissions.
Inductive PermissionClass := Preapproved | RequiresApproval | Denied.
End Permissions.

Module Effects.
Inductive EffectClass :=
| SnapshotRead | FreshnessBoundRead | DeterministicCompute | Mutation | ExternalSideEffect | Unknown.
#[global] Instance EffectClass_eq_dec : EqDecision EffectClass.
Proof. solve_decision. Defined.
End Effects.

Module Freshness.
Inductive FreshnessRequirementV1 :=
| Snapshot | MaxAgeMillis (maximum : Z) | RequireRevalidation.
#[global] Instance FreshnessRequirementV1_eq_dec : EqDecision FreshnessRequirementV1.
Proof. solve_decision. Defined.
End Freshness.

Module Presentations.
Inductive PresentationMode :=
| Exact | DeterministicExcerpt | CompactReference | FullRetrievalRequired.
End Presentations.

(** The closed effect vocabulary of an untrusted adapter. *)
Module AdapterEffects.
Inductive GatewayEffectClassV1 :=
| Pure | WorkspaceRead | ExternalRead | WorkspaceWrite | ExternalWrite | Privileged | Unknown.

Definition GatewayEffectClassV1_ALL : list GatewayEffectClassV1 :=
  [Pure; WorkspaceRead; ExternalRead; WorkspaceWrite; ExternalWrite; Privileged; Unknown].

Definition GatewayEffectClassV1_as_str (self : GatewayEffectClassV1) : list Z :=
  match self with
  | Pure => bstr "pure"
  | WorkspaceRead => bstr "workspace_read"
  | ExternalRead => bstr "external_read"
  | WorkspaceWrite => bstr "workspace_write"
  | ExternalWrite => bstr "external_write"
  | Privileged => bstr "privileged"
  | Unknown => bstr "unknown"
  end.

Definition supports_deterministic_validation (self : GatewayEffectClassV1) : bool :=
  match self with Pure | WorkspaceRead => true | _ => false end.

Definition requires_fresh_execution (self : GatewayEffectClassV1) : bool :=
  match self with
  | ExternalRead | WorkspaceWrite | ExternalWrite | Privileged => true
  | _ => false
  end.

Definition is_unknown (self : GatewayEffectClassV1) : bool :=
  match self with Unknown => true | _ => false end.

Definition GatewayEffectClassV1_parse (value : list Z) : option GatewayEffectClassV1 :=
  head (List.filter (λ candidate, bytes_eqb (GatewayEffectClassV1_as_str candidate) value)
          GatewayEffectClassV1_ALL).
End AdapterEffects.

(** ** Field validation *)

(** [u8::is_ascii_graphic], [is_ascii_alphanumeric]. *)
Definition is_ascii_graphic (byte : Z) : bool := (33 <=? byte) && (byte <=? 126).
Definition is_ascii_alphanumeric (byte : Z) : bool :=
  ((48 <=? byte) && (byte <=? 57)) || ((65 <=? byte) && (byte <=? 90))
  || ((97 <=? byte) && (byte <=? 122)).

Definition validate_identity (value : list Z) : result GatewayProtocolError () :=
  if bool_decide (value = []) || (MAX_IDENTITY_BYTES_V1 <? len value)
     || negb (forallb is_ascii_graphic value)
  then Err InvalidField else Ok ().

Definition validate_digest (digest : DigestReferenceV1) : result GatewayProtocolError () :=
  if bool_decide (digest_algorithm digest = [])
     || (MAX_DIGEST_ALGORITHM_BYTES_V1 <? len (digest_algorithm digest))
     || negb (forallb (λ byte, is_ascii_alphanumeric byte || (byte =? 45) || (byte =? 95))
                (digest_algorithm digest))
     || bool_decide (digest_value digest = [])
     || (MAX_DIGEST_VALUE_BYTES_V1 <? len (digest_value digest))
     || negb (forallb is_ascii_graphic (digest_value digest))
  then Err InvalidField else Ok ().

Definition DigestReferenceV1_new (algorithm value : list Z) :
    result GatewayProtocolError DigestReferenceV1 :=
  let digest := mkDigestReference algorithm value in
  _ ← validate_digest digest; Ok digest.

Definition validate_bounded (self : DigestReferenceV1) : result GatewayProtocolError () :=
  validate_digest self.

Definition validate_tool_policy_identifier_v1 (value : list Z) : result ToolPolicyRefusalV1 () :=
  if bool_decide (value = []) || (MAX_TOOL_POLICY_IDENTIFIER_BYTES_V1 <? len value)
     || negb (forallb is_ascii_graphic value)
  then Err InvalidIdentifier else Ok ().

(** ** Calls *)

Record GatewayToolCallInputV1 := mkCallInput {
  input_schema_version : Z;
  input_provider : ProviderIdentityV1;
  input_model : ModelIdentityV1;
  input_tool : ToolIdentityV1;
  input_arguments : list Z;
  input_workspace : WorkspaceIdentityV1;
  input_call : AgentCallIdentityV1;
  input_task : option TaskIdentityV1;
  input_state : States.RepositoryEnvironmentStateV1;
  input_permission_class : Permissions.PermissionClass;
  input_effect_class : Effects.EffectClass;
  input_freshness : Freshness.FreshnessRequirementV1;
  input_presentation : Presentations.PresentationMode;
}.

(** A validated call: its fields and its canonical bytes. *)
Record GatewayToolCallV1 := mkCall {
  call_input : GatewayToolCallInputV1;
  canonical_argument_bytes : list Z;
  call_canonical_bytes : list Z;
}.

(** [canonicalize_serializable(&call, ENVELOPE_LIMITS)]. *)
Class CanonicalJson := canonical_json : GatewayToolCallInputV1 → result CanonicalJsonError (list Z).

Definition validate_input (input : GatewayToolCallInputV1) : result GatewayProtocolError () :=
  if negb (input_schema_version input =? GATEWAY_TOOL_CALL_SCHEMA_VERSION)
  then Err UnsupportedSchemaVersion
  else
    _ ← validate_identity (provider_id (input_provider input));
    _ ← validate_identity (provider_version (input_provider input));
    _ ← validate_identity (model_id (input_model input));
    _ ← validate_identity (model_version (input_model input));
    _ ← validate_identity (tool_id (input_tool input));
    _ ← validate_identity (tool_version (input_tool input));
    _ ← validate_identity (workspace_id (input_workspace input));
    _ ← validate_identity (workspace_cwd (input_workspace input));
    _ ← validate_identity (agent_id (input_call input));
    _ ← validate_identity (session_id (input_call input));
    _ ← validate_identity (turn_id (input_call input));
    _ ← validate_identity (agent_call_id (input_call input));
    _ ← match input_task input with
        | Some task => _ ← validate_identity (task_id task); validate_identity (task_version task)
        | None => Ok ()
        end;
    match input_state input with
    | States.Known reference =>
      if negb (state_schema_version reference =? GATEWAY_TOOL_CALL_SCHEMA_VERSION)
      then Err UnsupportedSchemaVersion
      else
        _ ← validate_digest (state_repository reference);
        validate_digest (state_environment reference)
    | States.Unknown => Ok ()
    end.

Definition GatewayToolCallV1_from_input `{CanonicalJson} (input : GatewayToolCallInputV1) :
    result GatewayProtocolError GatewayToolCallV1 :=
  _ ← validate_input input;
  bytes ← map_err ProtocolErrors.CanonicalJson (canonical_json input);
  Ok (mkCall input (input_arguments input) bytes).

Definition call_tool (self : GatewayToolCallV1) : list Z := tool_id (input_tool (call_input self)).
Definition call_state (self : GatewayToolCallV1) : States.RepositoryEnvironmentStateV1 :=
  input_state (call_input self).
Definition call_permission_class (self : GatewayToolCallV1) : Permissions.PermissionClass :=
  input_permission_class (call_input self).
Definition call_effect_class (self : GatewayToolCallV1) : Effects.EffectClass :=
  input_effect_class (call_input self).
Definition call_freshness (self : GatewayToolCallV1) : Freshness.FreshnessRequirementV1 :=
  input_freshness (call_input self).

Definition domain_digest `{Blake3Hash} (domain payload : list Z) : list Z :=
  blake3_hash (domain ++ be_bytes 8 (len payload) ++ payload).

(** A [RequestDigestV1] is its hexadecimal text. *)
Definition call_request_digest `{Blake3Hash} (self : GatewayToolCallV1) : list Z :=
  Digest_to_hex (blake3_hash (REQUEST_DIGEST_DOMAIN ++ be_bytes 8 (len (call_canonical_bytes self))
                                ++ call_canonical_bytes self)).

Definition call_digest `{Blake3Hash} (self : GatewayToolCallV1) : list Z :=
  domain_digest REQUEST_DIGEST_DOMAIN (call_canonical_bytes self).

(** ** Capabilities and contexts *)

Module Capabilities.
Inductive ToolCapabilityClassV1 :=
| ExactStateBoundRead | DeterministicCommand | FreshnessBoundRead | NonReusableRead | Mutation
| CredentialOperation | Communication | Deployment | Payment | Interactive | Unknown.
#[global] Instance ToolCapabilityClassV1_eq_dec : EqDecision ToolCapabilityClassV1.
Proof. solve_decision. Defined.

Definition may_consider_reuse (self : ToolCapabilityClassV1) : bool :=
  match self with ExactStateBoundRead | DeterministicCommand => true | _ => false end.

Definition must_bypass_storage (self : ToolCapabilityClassV1) : bool :=
  match self with
  | Mutation | CredentialOperation | Communication | Deployment | Payment | Interactive
  | Unknown => true
  | _ => false
  end.
End Capabilities.
Import Capabilities.

Module Contexts.
Inductive ToolInteractionModeV1 := Batch | Interactive | Watch | Repl.
Inductive ToolStdinModeV1 := Closed | DeclaredDigest | Inherited | Unknown.
End Contexts.

Record CommandInvocationV1 := mkCommand { command_argv : list (list Z) }.

(** The running total of the arguments, each with its terminator; usize is 64
    bits. *)
Fixpoint argument_bytes (total : Z) (argv : list (list Z)) : result ToolPolicyRefusalV1 Z :=
  match argv with
  | [] => Ok total
  | argument :: argv =>
    if bool_decide (argument = []) || contains 0 argument then Err InvalidCommandInvocation
    else
      total ← ok_or (u64_checked_add total (len argument)) InvalidCommandInvocation;
      total ← ok_or (u64_checked_add total 1) InvalidCommandInvocation;
      argument_bytes total argv
  end.

Definition CommandInvocationV1_new (argv : list (list Z)) :
    result ToolPolicyRefusalV1 CommandInvocationV1 :=
  if bool_decide (argv = []) || (MAX_COMMAND_ARGUMENTS_V1 <? len argv)
  then Err InvalidCommandInvocation
  else
    total_bytes ← argument_bytes 0 argv;
    if MAX_COMMAND_ARGUMENT_BYTES_V1 <? total_bytes then Err InvalidCommandInvocation
    else Ok (mkCommand argv).

Record UniversalActionContextV1 := mkActionContext {
  context_interaction : Contexts.ToolInteractionModeV1;
  context_stdin : Contexts.ToolStdinModeV1;
  context_command : option CommandInvocationV1;
}.

Definition batch_without_stdin : UniversalActionContextV1 :=
  mkActionContext Contexts.Batch Contexts.Closed None.

Definition requires_uncached_passthrough (self : UniversalActionContextV1) : bool :=
  negb match context_interaction self with Contexts.Batch => true | _ => false end
  || negb match context_stdin self with Contexts.Closed => true | _ => false end.

Record CompleteToolStreamsV1 := mkStreams {
  streams_status : Z;
  streams_stdout : list Z;
  streams_stderr : list Z;
}.

Definition CompleteToolStreamsV1_new (status : Z) (stdout stderr : list Z)
    (stdout_complete stderr_complete : bool) : result ToolPolicyRefusalV1 CompleteToolStreamsV1 :=
  if negb stdout_complete || negb stderr_complete then Err IncompleteStreams
  else if (MAX_COMPLETE_STREAM_BYTES_V1 <? len stdout) || (MAX_COMPLETE_STREAM_BYTES_V1 <? len stderr)
  then Err StreamBoundExceeded
  else Ok (mkStreams status stdout stderr).

(** ** Dependencies and policies *)

Module DependencyKinds.
Inductive ToolDependencyKindV1 :=
| RepositoryPath | RepositoryTree | GitState | Executable | Toolchain | Environment | Configuration
| Lockfile | ExternalResource.
#[global] Instance ToolDependencyKindV1_eq_dec : EqDecision ToolDependencyKindV1.
Proof. solve_decision. Defined.
End DependencyKinds.

Record ToolDependencyBindingV1 := mkDependency {
  dependency_tool_kind : DependencyKinds.ToolDependencyKindV1;
  dependency_name : list Z;
  dependency_digest : DigestReferenceV1;
}.

Definition ToolDependencyBindingV1_new (kind : DependencyKinds.ToolDependencyKindV1)
    (name : list Z) (digest : DigestReferenceV1) :
    result ToolPolicyRefusalV1 ToolDependencyBindingV1 :=
  _ ← validate_tool_policy_identifier_v1 name;
  _ ← map_err (λ _, InvalidDependency) (validate_bounded digest);
  Ok (mkDependency kind name digest).

Module Dependencies.
Inductive ToolDependencySetV1 :=
| ExplicitlyNone
| Bound (dependencies : list ToolDependencyBindingV1).
End Dependencies.

(** The loop of [bound]; [identities] are those inserted so far. *)
Fixpoint check_dependencies (identities : list (DependencyKinds.ToolDependencyKindV1 * list Z))
    (dependencies : list ToolDependencyBindingV1) : result ToolPolicyRefusalV1 () :=
  match dependencies with
  | [] => Ok ()
  | dependency :: dependencies =>
    _ ← validate_tool_policy_identifier_v1 (dependency_name dependency);
    _ ← map_err (λ _, InvalidDependency) (validate_bounded (dependency_digest dependency));
    let identity := (dependency_tool_kind dependency, dependency_name dependency) in
    if bool_decide (identity ∈ identities) then Err DuplicateDependency
    else check_dependencies (identity :: identities) dependencies
  end.

Definition ToolDependencySetV1_bound (dependencies : list ToolDependencyBindingV1) :
    result ToolPolicyRefusalV1 Dependencies.ToolDependencySetV1 :=
  if bool_decide (dependencies = []) || (MAX_TOOL_POLICY_DEPENDENCIES_V1 <? len dependencies)
  then Err InvalidDependency
  else
    _ ← check_dependencies [] dependencies;
    Ok (Dependencies.Bound dependencies).

Definition set_dependencies (self : Dependencies.ToolDependencySetV1) :
    list ToolDependencyBindingV1 :=
  match self with
  | Dependencies.ExplicitlyNone => []
  | Dependencies.Bound dependencies => dependencies
  end.

Record ExternalFreshnessValidatorV1 := mkValidator {
  validator_id : list Z;
  validator_version : list Z;
  implementation_digest : DigestReferenceV1;
}.

Definition ExternalFreshnessValidatorV1_new (id version : list Z)
    (implementation_digest : DigestReferenceV1) :
    result ToolPolicyRefusalV1 ExternalFreshnessValidatorV1 :=
  _ ← validate_tool_policy_identifier_v1 id;
  _ ← validate_tool_policy_identifier_v1 version;
  _ ← map_err (λ _, InvalidFreshnessValidator) (validate_bounded implementation_digest);
  Ok (mkValidator id version implementation_digest).

Module Dispositions.
Inductive ToolPolicyDispositionV1 := Allow | Deny.
End Dispositions.

Record UniversalToolPolicyV1 := mkToolPolicy {
  policy_schema_version : Z;
  policy_id : list Z;
  policy_version : list Z;
  policy_capability : ToolCapabilityClassV1;
  policy_dependencies : Dependencies.ToolDependencySetV1;
  policy_freshness_validator : option ExternalFreshnessValidatorV1;
  policy_disposition : Dispositions.ToolPolicyDispositionV1;
}.

Definition UniversalToolPolicyV1_new (schema_version : Z) (id version : list Z)
    (capability : ToolCapabilityClassV1) (dependencies : Dependencies.ToolDependencySetV1)
    (freshness_validator : option ExternalFreshnessValidatorV1)
    (disposition : Dispositions.ToolPolicyDispositionV1) :
    result ToolPolicyRefusalV1 UniversalToolPolicyV1 :=
  if negb (schema_version =? TOOL_POLICY_SCHEMA_VERSION_V1) then Err UnsupportedSchema
  else
    _ ← validate_tool_policy_identifier_v1 id;
    _ ← validate_tool_policy_identifier_v1 version;
    if bool_decide (capability = ExactStateBoundRead)
       && match set_dependencies dependencies with [] => true | _ => false end
    then Err IncompleteDependencies
    else if match freshness_validator with Some _ => true | None => false end
       && negb (bool_decide (capability = FreshnessBoundRead))
    then Err UnexpectedFreshnessValidator
    else Ok (mkToolPolicy schema_version id version capability dependencies freshness_validator
               disposition).
