(* ===== verification/ProfileRegistry.v ===== *)
(** * The sealed profile registry

    [src/src/agent_gateway/profile_registry.rs] with its [pytest], [adapters]
    and [lifecycle] modules: the built-in contracts, the recognizers of command
    lines, the classification of a call and the lifecycle of a profile. The
    [expect]s of the classifier are panics, [None]. *)

From Stdlib Require Import String.
From S2P Require Import Prelude Monad Bytes ContractTypes Canonical CanonicalSpec CanonicalParse.
From S2P Require Import CanonicalCodec RecordTypes Paths Digest Text Team GatewayProtocol.
Import Capabilities.

Definition REGISTRY_SCHEMA_VERSION_V1 : Z := 1.

(** ** Adapters *)

Record AdapterSetV1 := mkAdapters {
  canonicalization : list Z;
  dependency_effect_plan : list Z;
  executable_runtime_binding : list Z;
  coordination : list Z;
  cas : list Z;
  quarantine : list Z;
  accounting : list Z;
}.

Definition QUALIFIED_READ_ADAPTERS_V1 : AdapterSetV1 :=
  mkAdapters (bstr "gateway-canonical-request-v1") (bstr "descriptor-read-plan-v1")
    (bstr "workspace-runtime-binding-v1") (bstr "sqlite-lease-coordinator-v1")
    (bstr "immutable-complete-stream-cas-v1") (bstr "exact-divergence-quarantine-v1")
    (bstr "gateway-route-accounting-v1").

Definition CONTRACT_ONLY_ADAPTERS_V1 : AdapterSetV1 :=
  mkAdapters (bstr "contract-only-canonicalization-v1")
    (bstr "unimplemented-dependency-effect-plan-v1") (bstr "unimplemented-runtime-binding-v1")
    (bstr "disabled-coordination-v1") (bstr "disabled-cas-v1") (bstr "disabled-quarantine-v1")
    (bstr "passthrough-accounting-v1").

Definition adapter_contract_digest_v1 `{Blake3Hash} (adapters : AdapterSetV1) : list Z :=
  blake3_hash (bstr "again.agent-gateway.profile-adapters.v1" ++ [0] ++
    flat_map (λ value, be_bytes 8 (len value) ++ value)
      [canonicalization adapters; dependency_effect_plan adapters;
       executable_runtime_binding adapters; coordination adapters; cas adapters;
       quarantine adapters; accounting adapters]).

(** ** Contracts *)

Module Families.
Inductive ProfileFamilyV1 :=
| RepositoryRead | GitRead | Pytest | Rust | TypeScript | Python | Go | Build.
End Families.

Module Qualifications.
Inductive ProfileQualificationV1 := QualifiedExactRead | ContractOnly.
End Qualifications.

Record ProfileIdentityV1 := mkProfileIdentity { profile_id : list Z; profile_version : list Z }.

Record ProfileContractV1 := mkContract {
  contract_identity : ProfileIdentityV1;
  contract_family : Families.ProfileFamilyV1;
  contract_qualification : Qualifications.ProfileQualificationV1;
  contract_capability : ToolCapabilityClassV1;
  contract_adapters : AdapterSetV1;
}.

Definition qualified_contract (id version : list Z) (family : Families.ProfileFamilyV1) :
    ProfileContractV1 :=
  mkContract (mkProfileIdentity id version) family Qualifications.QualifiedExactRead
    ExactStateBoundRead QUALIFIED_READ_ADAPTERS_V1.

Definition placeholder_contract (id version : list Z) (family : Families.ProfileFamilyV1) :
    ProfileContractV1 :=
  mkContract (mkProfileIdentity id version) family Qualifications.ContractOnly
    DeterministicCommand CONTRACT_ONLY_ADAPTERS_V1.

Definition PROFILE_CONTRACTS_V1 : list ProfileContractV1 := [
  qualified_contract (bstr "again.profile.repository-read") (bstr "1") Families.RepositoryRead;
  qualified_contract (bstr "again.profile.git-read") (bstr "1") Families.GitRead;
  placeholder_contract (bstr "again.profile.pytest") (bstr "contract-1") Families.Pytest;
  placeholder_contract (bstr "again.profile.rust") (bstr "contract-1") Families.Rust;
  placeholder_contract (bstr "again.profile.typescript") (bstr "contract-1") Families.TypeScript;
  placeholder_contract (bstr "again.profile.python") (bstr "contract-1") Families.Python;
  placeholder_contract (bstr "again.profile.go") (bstr "contract-1") Families.Go;
  placeholder_contract (bstr "again.profile.build") (bstr "contract-1") Families.Build].

Module Statuses.
Inductive ProfileSelectionStatusV1 :=
| Qualified | ContractOnly | Unprofiled | DangerousInvalidConfiguration.
End Statuses.

Record ClassifiedUniversalActionV1 := mkClassified {
  classified_policy : UniversalToolPolicyV1;
  classified_profile : option ProfileContractV1;
  classified_status : Statuses.ProfileSelectionStatusV1;
}.

Definition is_reuse_qualified (self : ClassifiedUniversalActionV1) : bool :=
  match classified_status self with Statuses.Qualified => true | _ => false end.

(** ** Names *)

Definition is_one_of (names : list string) (tool : list Z) : bool :=
  any (λ name, bytes_eqb (bstr name) tool) names.

Definition REPOSITORY_READS : list string :=
  ["repo.read"; "repo.search"; "repo.list"; "repo.tree"; "repo.stat"; "repo.glob";
   "repo.references"; "repo.manifest"]%string.
Definition GIT_READS : list string :=
  ["git.status"; "git.diff"; "git.log"; "git.show"; "git.blame"]%string.

Definition qualified_read_profile (tool : list Z) : option ProfileContractV1 :=
  if is_one_of REPOSITORY_READS tool then PROFILE_CONTRACTS_V1 !! 0%nat
  else if is_one_of GIT_READS tool then PROFILE_CONTRACTS_V1 !! 1%nat
  else None.

Definition restrictive_named_class (tool : list Z) : option ToolCapabilityClassV1 :=
  if is_one_of ["browser.screenshot"; "browser.open"; "web.fetch"; "process.inspect"]%string tool
  then Some NonReusableRead
  else if is_one_of ["auth.login"; "credential.read"; "secret.read"; "token.create"]%string tool
  then Some CredentialOperation
  else if is_one_of ["chat.send"; "email.send"; "issue.comment"; "issue.create"; "pr.create"]%string
            tool
  then Some Communication
  else if is_one_of ["deploy.start"; "release.publish"; "service.restart"]%string tool
  then Some Deployment
  else if is_one_of ["billing.charge"; "payment.create"; "payment.refund"]%string tool
  then Some Payment
  else None.

(** ** Command lines *)

Definition MAX_SELECTOR_BYTES_V1 : Z := 4096.

Definition valid_node_component_v1 (component : list Z) : bool :=
  negb (bool_decide (component = []))
  && forallb (λ byte, is_ascii_alphanumeric byte || (byte =? 95) || (byte =? 91) || (byte =? 93)
                      || (byte =? 45) || (byte =? 46)) component.

Definition valid_relative_path_v1 (path : list Z) : bool :=
  forallb (λ component,
    negb (bool_decide (component = [])) && negb (bytes_eqb component (bstr "."))
    && negb (bytes_eqb component (bstr ".."))
    && forallb (λ byte, is_ascii_alphanumeric byte || (byte =? 95) || (byte =? 45) || (byte =? 46))
         component) (split_on SLASH path).

Definition valid_selector_v1 (selector : list Z) : bool :=
  if bool_decide (selector = []) || (MAX_SELECTOR_BYTES_V1 <? len selector)
     || (starts_with [45] selector || starts_with [47] selector || starts_with [92] selector)
     || (contains 0 selector || contains 13 selector || contains 10 selector || contains 92 selector)
  then false
  else match split_colons selector with
  | [] => false
  | path :: components =>
    if negb (ends_with (bstr ".py") path) || negb (valid_relative_path_v1 path) then false
    else forallb valid_node_component_v1 components
  end.

Definition is_frozen_pytest_contract_v1 (argv : list (list Z)) : bool :=
  match argv with
  | [python; isolated; module; pytest; selector] =>
    bytes_eqb python (bstr ".venv/bin/python") && bytes_eqb isolated (bstr "-I")
    && bytes_eqb module (bstr "-m") && bytes_eqb pytest (bstr "pytest")
    && valid_selector_v1 selector
  | _ => false
  end.

(** [matches!(argv, [words, ..])], and the same with a nonempty word next. *)
Fixpoint matches_prefix (words : list string) (argv : list (list Z)) : bool :=
  match words, argv with
  | [], _ => true
  | word :: words, argument :: argv => bytes_eqb argument (bstr word) && matches_prefix words argv
  | _, [] => false
  end.

Definition matches_exactly (words : list string) (argv : list (list Z)) : bool :=
  matches_prefix words argv && (len argv =? len words).

Definition matches_then_word (words : list string) (argv : list (list Z)) : bool :=
  matches_prefix words argv
  && match drop (length words) argv with
     | argument :: _ => negb (bool_decide (argument = []))
     | [] => false
     end.

Definition is_rust_contract (argv : list (list Z)) : bool :=
  matches_prefix ["cargo"; "check"]%string argv
  || matches_then_word ["cargo"; "test"]%string argv
  || matches_prefix ["cargo"; "clippy"]%string argv
  || matches_exactly ["cargo"; "fmt"; "--all"; "--"; "--check"]%string argv
  || matches_exactly ["cargo"; "fmt"; "--all"; "--check"]%string argv.

Definition is_typescript_contract (argv : list (list Z)) : bool :=
  matches_prefix ["tsc"; "--noEmit"]%string argv
  || matches_prefix ["npx"; "tsc"; "--noEmit"]%string argv
  || (matches_then_word ["jest"; "run"]%string argv
      || matches_then_word ["vitest"; "run"]%string argv)
  || matches_prefix ["eslint"; "--no-fix"]%string argv.

Definition is_python_contract (argv : list (list Z)) : bool :=
  matches_prefix ["ruff"; "check"]%string argv || matches_then_word ["mypy"]%string argv.

Definition is_go_contract (argv : list (list Z)) : bool :=
  matches_then_word ["go"; "test"]%string argv || matches_then_word ["go"; "vet"]%string argv.

Definition is_build_contract (argv : list (list Z)) : bool :=
  matches_prefix ["cargo"; "build"]%string argv
  || matches_then_word ["go"; "build"]%string argv
  || (matches_prefix ["npm"; "run"; "build"]%string argv
      || matches_prefix ["pnpm"; "run"; "build"]%string argv
      || matches_prefix ["yarn"; "run"; "build"]%string argv).

Definition command_contract (argv : list (list Z)) : option ProfileContractV1 :=
  if is_frozen_pytest_contract_v1 argv then PROFILE_CONTRACTS_V1 !! 2%nat
  else if is_rust_contract argv then PROFILE_CONTRACTS_V1 !! 3%nat
  else if is_typescript_contract argv then PROFILE_CONTRACTS_V1 !! 4%nat
  else if is_python_contract argv then PROFILE_CONTRACTS_V1 !! 5%nat
  else if is_go_contract argv then PROFILE_CONTRACTS_V1 !! 6%nat
  else if is_build_contract argv then PROFILE_CONTRACTS_V1 !! 7%nat
  else None.

(** ** Classification *)

(** [Result::expect]. *)
Definition expect {E A} (r : result E A) : option A :=
  match r with Ok a => Some a | Err _ => None end.

Definition registry_policy (id version : list Z) (capability : ToolCapabilityClassV1)
    (dependencies : Dependencies.ToolDependencySetV1)
    (disposition : Dispositions.ToolPolicyDispositionV1) : option UniversalToolPolicyV1 :=
  expect (UniversalToolPolicyV1_new REGISTRY_SCHEMA_VERSION_V1 id version capability dependencies
            None disposition).

Definition unprofiled_policy (capability : ToolCapabilityClassV1) :
    option ClassifiedUniversalActionV1 :=
  policy ← registry_policy (bstr "again.profile.unprofiled") (bstr "1") capability
             Dependencies.ExplicitlyNone Dispositions.Allow;
  Some (mkClassified policy None Statuses.Unprofiled).

Definition invalid_configuration_policy : option ClassifiedUniversalActionV1 :=
  policy ← registry_policy (bstr "again.profile.invalid-configuration") (bstr "1") Unknown
             Dependencies.ExplicitlyNone Dispositions.Deny;
  Some (mkClassified policy None Statuses.DangerousInvalidConfiguration).

(** The policy of a qualified read of a known state. *)
Definition qualified_policy (profile : ProfileContractV1) (reference : StateDigestReferenceV1) :
    option ClassifiedUniversalActionV1 :=
  repository ← expect (ToolDependencyBindingV1_new DependencyKinds.RepositoryTree
                 (bstr "sealed-repository-state") (state_repository reference));
  environment ← expect (ToolDependencyBindingV1_new DependencyKinds.Environment
                  (bstr "sealed-environment-state") (state_environment reference));
  dependencies ← expect (ToolDependencySetV1_bound [repository; environment]);
  policy ← registry_policy (profile_id (contract_identity profile))
             (profile_version (contract_identity profile)) ExactStateBoundRead dependencies
             Dispositions.Allow;
  Some (mkClassified policy (Some profile) Statuses.Qualified).

(** The capability of a call no profile names. *)
Definition effect_capability (effect : Effects.EffectClass) : ToolCapabilityClassV1 :=
  match effect with
  | Effects.FreshnessBoundRead => FreshnessBoundRead
  | Effects.Mutation => Mutation
  | Effects.SnapshotRead | Effects.DeterministicCompute => Unknown
  | Effects.ExternalSideEffect | Effects.Unknown => Unknown
  end.

Definition classify_command (call : GatewayToolCallV1) (context : UniversalActionContextV1) :
    option ClassifiedUniversalActionV1 :=
  match context_command context ≫= λ command, command_contract (command_argv command) with
  | Some profile =>
    policy ← registry_policy (profile_id (contract_identity profile))
               (profile_version (contract_identity profile)) DeterministicCommand
               Dependencies.ExplicitlyNone Dispositions.Allow;
    Some (mkClassified policy (Some profile) Statuses.ContractOnly)
  | None => unprofiled_policy (effect_capability (call_effect_class call))
  end.

Definition SealedProfileRegistryV1_classify (call : GatewayToolCallV1)
    (context : UniversalActionContextV1) : option ClassifiedUniversalActionV1 :=
  if requires_uncached_passthrough context then unprofiled_policy Interactive
  else match qualified_read_profile (call_tool call) with
  | Some profile =>
    if negb (bool_decide (call_effect_class call = Effects.SnapshotRead))
       || negb (bool_decide (call_freshness call = Freshness.Snapshot))
    then invalid_configuration_policy
    else match call_state call with
    | States.Known reference => qualified_policy profile reference
    | States.Unknown => invalid_configuration_policy
    end
  | None =>
    match restrictive_named_class (call_tool call) with
    | Some capability => unprofiled_policy capability
    | None =>
      match call_effect_class call with
      | Effects.Mutation => unprofiled_policy Mutation
      | Effects.FreshnessBoundRead => unprofiled_policy FreshnessBoundRead
      | _ => classify_command call context
      end
    end
  end.

(** ** Lifecycle *)

Module Lifecycles.
Inductive ProfileLifecycleStageV1 :=
| ExecuteOnly | Candidate | IndependentShadow | Promoted | FreshlyValidatedHit.
Inductive ProfileLifecycleTransitionV1 :=
| CompleteCandidate | CompleteIndependentShadow | PromoteExactAgreement | FreshlyValidate.
Inductive ProfileLifecycleRefusalV1 := InvalidTransition.

Record ProfileLifecycleV1 := mkLifecycle { stage : ProfileLifecycleStageV1 }.

Definition ProfileLifecycleV1_execute_only : ProfileLifecycleV1 := mkLifecycle ExecuteOnly.

Definition ProfileLifecycleV1_transition (self : ProfileLifecycleV1)
    (transition : ProfileLifecycleTransitionV1) :
    result ProfileLifecycleRefusalV1 ProfileLifecycleV1 :=
  match stage self, transition with
  | ExecuteOnly, CompleteCandidate => Ok (mkLifecycle Candidate)
  | Candidate, CompleteIndependentShadow => Ok (mkLifecycle IndependentShadow)
  | IndependentShadow, PromoteExactAgreement => Ok (mkLifecycle Promoted)
  | Promoted, FreshlyValidate => Ok (mkLifecycle FreshlyValidatedHit)
  | _, _ => Err InvalidTransition
  end.
End Lifecycles.
