(* ===== verification/GatewayRouter.v ===== *)
(** * Routing

    [src/src/agent_gateway/router.rs] and the two store proofs of
    [src/src/store.rs] it consumes. A proof has a [Cell] that the first use
    sets: a method that reads a proof through a shared reference returns the
    proof as it is afterwards, and routing returns the candidates with it. *)

From Stdlib Require Import String.
From S2P Require Import Prelude Monad Bytes ContractTypes Canonical CanonicalSpec CanonicalParse.
From S2P Require Import CanonicalCodec RecordTypes Paths Digest Text Team GatewayProtocol.
From S2P Require Import ProfileRegistry.
Import Capabilities.

Definition MAX_ORIGIN_IDENTIFIER_BYTES_V1 : Z := 128.

Module Decisions.
Inductive GatewayDecision :=
| ServeExact | ServeDeterministicCoverage | JoinInflight | ValidateSemanticCandidate | Execute
| ExecuteNonReplayable | RequireApproval | Refuse.
#[global] Instance GatewayDecision_eq_dec : EqDecision GatewayDecision.
Proof. solve_decision. Defined.
End Decisions.

Module Universal.
Inductive UniversalGatewayDecisionV1 :=
| ReusePromotedResult | ReuseExact | ReuseDeterministicCoverage | JoinInflight | ExecuteAndObserve
| PassthroughWithoutStorage | RefuseByPolicy | RefuseDangerousInvalidConfiguration.
#[global] Instance UniversalGatewayDecisionV1_eq_dec : EqDecision UniversalGatewayDecisionV1.
Proof. solve_decision. Defined.
End Universal.

(** ** The value gate *)

Module Values.
Inductive ReuseValueModelV1 :=
| Unknown
| Measured (native_execution_micros lookup_micros validation_micros materialization_micros
            minimum_savings_micros : Z).

Definition has_positive_value (self : ReuseValueModelV1) : bool :=
  match self with
  | Unknown => false
  | Measured native lookup validation materialization minimum =>
    match u64_checked_add lookup validation with
    | None => false
    | Some cost =>
      match u64_checked_add cost materialization with
      | None => false
      | Some cost =>
        match u64_checked_add cost minimum with
        | None => false
        | Some required => required <=? native
        end
      end
    end
  end.
End Values.
Import Values.

(** ** Metrics *)

Module Metrics.
Inductive UniversalGatewayMetricEventV1 :=
| Route | Miss | Join | Candidate | Promotion | Invalidation | Quarantine
| Bytes (bytes : Z) | MeasuredTimeMicros (micros : Z).

Record UniversalGatewayMetricsV1 := mkMetrics {
  routes : Z; misses : Z; joins : Z; candidates : Z; promotions : Z; invalidations : Z;
  quarantines : Z; bytes : Z; measured_time_micros : Z;
}.

Definition default_metrics : UniversalGatewayMetricsV1 := mkMetrics 0 0 0 0 0 0 0 0 0.

(** The counter an event selects: its value, and the metrics with another one. *)
Definition counter (self : UniversalGatewayMetricsV1) (event : UniversalGatewayMetricEventV1) :
    Z * (Z → UniversalGatewayMetricsV1) :=
  let '(mkMetrics r m j c p i q b t) := self in
  match event with
  | Route => (r, λ x, mkMetrics x m j c p i q b t)
  | Miss => (m, λ x, mkMetrics r x j c p i q b t)
  | Join => (j, λ x, mkMetrics r m x c p i q b t)
  | Candidate => (c, λ x, mkMetrics r m j x p i q b t)
  | Promotion => (p, λ x, mkMetrics r m j c x i q b t)
  | Invalidation => (i, λ x, mkMetrics r m j c p x q b t)
  | Quarantine => (q, λ x, mkMetrics r m j c p i x b t)
  | Bytes _ => (b, λ x, mkMetrics r m j c p i q x t)
  | MeasuredTimeMicros _ => (t, λ x, mkMetrics r m j c p i q b x)
  end.

Definition amount (event : UniversalGatewayMetricEventV1) : Z :=
  match event with Bytes bytes | MeasuredTimeMicros bytes => bytes | _ => 1 end.

Inductive UniversalGatewayMetricOverflowV1 := MetricOverflow.

Definition record (event : UniversalGatewayMetricEventV1) :
    state_m UniversalGatewayMetricsV1 UniversalGatewayMetricOverflowV1 () :=
  '(value, set) ← gets (λ self, counter self event);
  value ← lift_result (ok_or (u64_checked_add value (amount event)) MetricOverflow);
  modify (λ _, set value).
End Metrics.

(** ** Requests of untrusted adapters *)

Module Adapter.
Inductive GatewayCandidateKindV1 := Exact | Deterministic | Semantic | Ai.
Inductive GatewayCandidateRequestV1 := ExecuteFresh | DeterministicValidation | Reuse.

Definition GatewayCandidateKindV1_ALL : list GatewayCandidateKindV1 :=
  [Exact; Deterministic; Semantic; Ai].
Definition GatewayCandidateRequestV1_ALL : list GatewayCandidateRequestV1 :=
  [ExecuteFresh; DeterministicValidation; Reuse].

Inductive GatewayRouteRefusalV1 :=
| UnknownEffect | CandidateMayOnlyRequestValidation | EffectNotDeterministicallyValidatable
| DirectReuseForbidden.

Definition GatewayRouteRefusalV1_code (self : GatewayRouteRefusalV1) : list Z :=
  match self with
  | UnknownEffect => bstr "unknown_effect"
  | CandidateMayOnlyRequestValidation => bstr "candidate_may_only_request_validation"
  | EffectNotDeterministicallyValidatable => bstr "effect_not_deterministically_validatable"
  | DirectReuseForbidden => bstr "direct_reuse_forbidden"
  end.

Inductive GatewayRouteDecisionV1 :=
| DecideExecuteFresh | RequireDeterministicValidation | Reject (refusal : GatewayRouteRefusalV1).

Definition grants_reuse (self : GatewayRouteDecisionV1) : bool := false.
Definition executes_tool (self : GatewayRouteDecisionV1) : bool :=
  match self with DecideExecuteFresh => true | _ => false end.

(** The call's effect is all the function reads of it. *)
Definition route_gateway_candidate_v1 (effect : AdapterEffects.GatewayEffectClassV1)
    (candidate : GatewayCandidateKindV1) (request : GatewayCandidateRequestV1) :
    GatewayRouteDecisionV1 :=
  if AdapterEffects.is_unknown effect then Reject UnknownEffect
  else if match candidate with Semantic | Ai => true | _ => false end
     && match request with DeterministicValidation => false | _ => true end
  then Reject CandidateMayOnlyRequestValidation
  else match request with
  | ExecuteFresh => DecideExecuteFresh
  | DeterministicValidation =>
    if AdapterEffects.supports_deterministic_validation effect then RequireDeterministicValidation
    else Reject EffectNotDeterministicallyValidatable
  | Reuse => Reject DirectReuseForbidden
  end.
End Adapter.

(** ** Candidates *)

Module Origins.
Inductive VerifiedCandidateOriginV1 :=
| DeterministicCoverage (rule_id rule_version source_request_digest : list Z)
    (source_result_digest validator_digest : DigestReferenceV1)
| SemanticOrAiGenerated (provider_id model_id model_version : list Z).

Definition is_coverage (origin : VerifiedCandidateOriginV1) : bool :=
  match origin with DeterministicCoverage _ _ _ _ _ => true | _ => false end.
End Origins.
Import Origins.

Module Evidence.
Inductive CandidateFreshnessV1 := ExactSnapshot | AgeMillis (age : Z) | Revalidated.
#[global] Instance CandidateFreshnessV1_eq_dec : EqDecision CandidateFreshnessV1.
Proof. solve_decision. Defined.
Inductive CandidateEvidenceRefusalV1 := Identifier | DigestRefused.
End Evidence.
Import Evidence.

Record ReuseCandidateV1 := mkCandidate {
  candidate_request_digest : list Z;
  candidate_result_digest : DigestReferenceV1;
  candidate_origin : VerifiedCandidateOriginV1;
  candidate_freshness : CandidateFreshnessV1;
}.

Definition validate_origin_identifier (value : list Z) : result CandidateEvidenceRefusalV1 () :=
  if bool_decide (value = []) || (MAX_ORIGIN_IDENTIFIER_BYTES_V1 <? len value)
     || negb (forallb is_ascii_graphic value)
  then Err Identifier else Ok ().

Definition semantic_or_ai_candidate (request_digest : list Z) (result_digest : DigestReferenceV1)
    (provider_id model_id model_version : list Z) (freshness : CandidateFreshnessV1) :
    result CandidateEvidenceRefusalV1 ReuseCandidateV1 :=
  _ ← validate_origin_identifier provider_id;
  _ ← validate_origin_identifier model_id;
  _ ← validate_origin_identifier model_version;
  _ ← map_err (λ _, DigestRefused) (validate_bounded result_digest);
  Ok (mkCandidate request_digest result_digest
        (SemanticOrAiGenerated provider_id model_id model_version) freshness).

Record VerifiedCoverageEvidenceV1 := mkEvidence {
  evidence_request_digest : list Z;
  evidence_result_digest : DigestReferenceV1;
  evidence_freshness : CandidateFreshnessV1;
  evidence_rule_id : list Z;
  evidence_rule_version : list Z;
  evidence_source_request_digest : list Z;
  evidence_source_result_digest : DigestReferenceV1;
  evidence_validator_digest : DigestReferenceV1;
}.

Definition issue_coverage_candidate_v1 (evidence : VerifiedCoverageEvidenceV1) :
    result CandidateEvidenceRefusalV1 ReuseCandidateV1 :=
  _ ← validate_origin_identifier (evidence_rule_id evidence);
  _ ← validate_origin_identifier (evidence_rule_version evidence);
  _ ← map_err (λ _, DigestRefused) (validate_bounded (evidence_result_digest evidence));
  _ ← map_err (λ _, DigestRefused) (validate_bounded (evidence_source_result_digest evidence));
  _ ← map_err (λ _, DigestRefused) (validate_bounded (evidence_validator_digest evidence));
  Ok (mkCandidate (evidence_request_digest evidence) (evidence_result_digest evidence)
        (DeterministicCoverage (evidence_rule_id evidence) (evidence_rule_version evidence)
           (evidence_source_request_digest evidence) (evidence_source_result_digest evidence)
           (evidence_validator_digest evidence))
        (evidence_freshness evidence)).

(** ** Store proofs *)

Record StoreExactResultProofV1 := mkExactProof {
  exact_used : bool;
  exact_request_digest : list Z;
  exact_binding_digest : list Z;
  exact_state_digest : list Z;
  exact_policy_digest : list Z;
  exact_dependency_digest : list Z;
  exact_effect : Effects.EffectClass;
  exact_freshness : Freshness.FreshnessRequirementV1;
  exact_lifecycle_generation : Z;
  exact_observed_generation : Z;
  exact_execution_started_ms : Z;
  exact_observed_at_ms : Z;
  exact_gateway_result_id : list Z;
  exact_store_record_digest : list Z;
}.

Record StoreInflightJoinProofV1 := mkJoinProof {
  join_used : bool;
  join_request_digest : list Z;
  join_binding_digest : list Z;
  join_state_digest : list Z;
  join_policy_digest : list Z;
  join_dependency_digest : list Z;
  join_effect : Effects.EffectClass;
  join_freshness : Freshness.FreshnessRequirementV1;
  join_lifecycle_generation : Z;
  join_observed_generation : Z;
  join_execution_started_ms : Z;
  join_observed_at_ms : Z;
  join_lease_id : list Z;
  join_lease_record_digest : list Z;
}.

Definition valid_digest_v1 (value : list Z) : bool :=
  (len value =? 64)
  && forallb (λ byte, ((48 <=? byte) && (byte <=? 57)) || ((97 <=? byte) && (byte <=? 102))) value.

Definition freshness_requirement_holds_v1 (requirement : Freshness.FreshnessRequirementV1)
    (execution_started_ms observed_at_ms : Z) : bool :=
  if observed_at_ms <? execution_started_ms then false
  else
    let age := observed_at_ms - execution_started_ms in
    match requirement with
    | Freshness.Snapshot => true
    | Freshness.MaxAgeMillis maximum => age <=? maximum
    | Freshness.RequireRevalidation => false
    end.

(** [self.used.replace(true)], as an update of the proof. *)
Definition use_exact (p : StoreExactResultProofV1) : StoreExactResultProofV1 :=
  mkExactProof true (exact_request_digest p) (exact_binding_digest p) (exact_state_digest p)
    (exact_policy_digest p) (exact_dependency_digest p) (exact_effect p) (exact_freshness p)
    (exact_lifecycle_generation p) (exact_observed_generation p) (exact_execution_started_ms p)
    (exact_observed_at_ms p) (exact_gateway_result_id p) (exact_store_record_digest p).

Definition use_join (p : StoreInflightJoinProofV1) : StoreInflightJoinProofV1 :=
  mkJoinProof true (join_request_digest p) (join_binding_digest p) (join_state_digest p)
    (join_policy_digest p) (join_dependency_digest p) (join_effect p) (join_freshness p)
    (join_lifecycle_generation p) (join_observed_generation p) (join_execution_started_ms p)
    (join_observed_at_ms p) (join_lease_id p) (join_lease_record_digest p).

Definition proof_invariants_hold_v1 (self : StoreExactResultProofV1) : bool :=
  negb (exact_lifecycle_generation self =? 0)
  && (exact_lifecycle_generation self =? exact_observed_generation self)
  && (exact_execution_started_ms self <=? exact_observed_at_ms self)
  && valid_digest_v1 (exact_binding_digest self)
  && valid_digest_v1 (exact_state_digest self)
  && valid_digest_v1 (exact_policy_digest self)
  && valid_digest_v1 (exact_dependency_digest self)
  && valid_digest_v1 (exact_gateway_result_id self)
  && valid_digest_v1 (exact_store_record_digest self).

Section routing.
Context `{Blake3Hash}.

Definition exact_authorizes_router_call_v1 (self : StoreExactResultProofV1)
    (call : GatewayToolCallV1) : bool * StoreExactResultProofV1 :=
  (negb (exact_used self)
   && proof_invariants_hold_v1 self
   && bytes_eqb (exact_request_digest self) (call_request_digest call)
   && bool_decide (exact_effect self = call_effect_class call)
   && bool_decide (exact_freshness self = call_freshness call)
   && freshness_requirement_holds_v1 (exact_freshness self) (exact_execution_started_ms self)
        (exact_observed_at_ms self),
   use_exact self).

Definition join_authorizes_router_call_v1 (self : StoreInflightJoinProofV1)
    (call : GatewayToolCallV1) : bool * StoreInflightJoinProofV1 :=
  (negb (join_used self)
   && negb (join_lifecycle_generation self =? 0)
   && (join_lifecycle_generation self =? join_observed_generation self)
   && (join_execution_started_ms self <=? join_observed_at_ms self)
   && valid_digest_v1 (join_binding_digest self)
   && valid_digest_v1 (join_state_digest self)
   && valid_digest_v1 (join_policy_digest self)
   && valid_digest_v1 (join_dependency_digest self)
   && valid_digest_v1 (join_lease_record_digest self)
   && bytes_eqb (join_request_digest self) (call_request_digest call)
   && bool_decide (join_effect self = call_effect_class call)
   && bool_decide (join_freshness self = call_freshness call)
   && freshness_requirement_holds_v1 (join_freshness self) (join_execution_started_ms self)
        (join_observed_at_ms self),
   use_join self).

(** ** Routing *)

Record RoutingCandidatesV1 := mkRouting {
  store_exact : option StoreExactResultProofV1;
  deterministic_coverage : option ReuseCandidateV1;
  store_inflight : option StoreInflightJoinProofV1;
  semantic : option ReuseCandidateV1;
}.

Definition no_candidates : RoutingCandidatesV1 := mkRouting None None None None.

Definition with_semantic_candidate (self : RoutingCandidatesV1) (candidate : ReuseCandidateV1) :
    RoutingCandidatesV1 :=
  if is_coverage (candidate_origin candidate) then self
  else mkRouting (store_exact self) (deterministic_coverage self) (store_inflight self)
         (Some candidate).

Definition with_store_exact_proof (self : RoutingCandidatesV1) (proof : StoreExactResultProofV1) :
    RoutingCandidatesV1 :=
  mkRouting (Some proof) (deterministic_coverage self) (store_inflight self) (semantic self).

Definition with_coverage (self : RoutingCandidatesV1) (candidate : ReuseCandidateV1) :
    RoutingCandidatesV1 :=
  if is_coverage (candidate_origin candidate)
  then mkRouting (store_exact self) (Some candidate) (store_inflight self) (semantic self)
  else self.

Definition with_store_inflight_proof (self : RoutingCandidatesV1)
    (proof : StoreInflightJoinProofV1) : RoutingCandidatesV1 :=
  mkRouting (store_exact self) (deterministic_coverage self) (Some proof) (semantic self).

Definition freshness_satisfies (requirement : Freshness.FreshnessRequirementV1)
    (evidence : CandidateFreshnessV1) : bool :=
  match requirement with
  | Freshness.Snapshot => bool_decide (evidence = ExactSnapshot)
  | Freshness.MaxAgeMillis maximum =>
    match evidence with
    | AgeMillis age => age <=? maximum
    | Revalidated => true
    | ExactSnapshot => false
    end
  | Freshness.RequireRevalidation => bool_decide (evidence = Revalidated)
  end.

(** The two proofs, consulted. *)
Definition consult_exact (call : GatewayToolCallV1) (candidates : RoutingCandidatesV1) :
    bool * RoutingCandidatesV1 :=
  match store_exact candidates with
  | None => (false, candidates)
  | Some proof =>
    let '(authorized, proof) := exact_authorizes_router_call_v1 proof call in
    (authorized, mkRouting (Some proof) (deterministic_coverage candidates)
                   (store_inflight candidates) (semantic candidates))
  end.

Definition consult_inflight (call : GatewayToolCallV1) (candidates : RoutingCandidatesV1) :
    bool * RoutingCandidatesV1 :=
  match store_inflight candidates with
  | None => (false, candidates)
  | Some proof =>
    let '(authorized, proof) := join_authorizes_router_call_v1 proof call in
    (authorized, mkRouting (store_exact candidates) (deterministic_coverage candidates)
                   (Some proof) (semantic candidates))
  end.

Definition coverage_applies (call : GatewayToolCallV1) (candidates : RoutingCandidatesV1) : bool :=
  match deterministic_coverage candidates with
  | None => false
  | Some candidate =>
    bytes_eqb (candidate_request_digest candidate) (call_request_digest call)
    && is_coverage (candidate_origin candidate)
    && freshness_satisfies (call_freshness call) (candidate_freshness candidate)
  end.

Import Decisions.

Definition route (call : GatewayToolCallV1) (candidates : RoutingCandidatesV1) :
    GatewayDecision * RoutingCandidatesV1 :=
  match call_permission_class call with
  | Permissions.Denied => (Refuse, candidates)
  | Permissions.RequiresApproval => (RequireApproval, candidates)
  | Permissions.Preapproved =>
    match call_effect_class call with
    | Effects.Mutation | Effects.ExternalSideEffect | Effects.Unknown =>
      (ExecuteNonReplayable, candidates)
    | Effects.SnapshotRead | Effects.FreshnessBoundRead | Effects.DeterministicCompute =>
      match call_state call with
      | States.Unknown => (Execute, candidates)
      | States.Known _ =>
        let '(exact, candidates) := consult_exact call candidates in
        if exact then (ServeExact, candidates)
        else if coverage_applies call candidates then (ServeDeterministicCoverage, candidates)
        else
          let '(join, candidates) := consult_inflight call candidates in
          if join then (JoinInflight, candidates)
          else match semantic candidates with
          | Some _ => (ValidateSemanticCandidate, candidates)
          | None => (Execute, candidates)
          end
      end
    end
  end.

Definition is_denied (policy : UniversalToolPolicyV1) : bool :=
  match policy_disposition policy with Dispositions.Deny => true | Dispositions.Allow => false end.

Definition route_with_tool_policy_v1 (call : GatewayToolCallV1) (candidates : RoutingCandidatesV1)
    (policy : UniversalToolPolicyV1) :
    Universal.UniversalGatewayDecisionV1 * RoutingCandidatesV1 :=
  let '(routed, candidates) := route call candidates in
  let decision :=
    if is_denied policy || match routed with RequireApproval | Refuse => true | _ => false end
    then Universal.RefuseByPolicy
    else if must_bypass_storage (policy_capability policy) then Universal.PassthroughWithoutStorage
    else match policy_capability policy with
    | ExactStateBoundRead | DeterministicCommand =>
      match routed with
      | ServeExact => Universal.ReuseExact
      | ServeDeterministicCoverage => Universal.ReuseDeterministicCoverage
      | JoinInflight => Universal.JoinInflight
      | Execute | ValidateSemanticCandidate | ExecuteNonReplayable => Universal.ExecuteAndObserve
      | RequireApproval | Refuse => Universal.RefuseByPolicy
      end
    | FreshnessBoundRead | NonReusableRead => Universal.ExecuteAndObserve
    | Mutation | CredentialOperation | Communication | Deployment | Payment | Interactive
    | Capabilities.Unknown => Universal.PassthroughWithoutStorage
    end in
  (decision, candidates).

Definition classify_action_v1 (call : GatewayToolCallV1) (context : UniversalActionContextV1) :
    option ClassifiedUniversalActionV1 := SealedProfileRegistryV1_classify call context.

Definition is_preapproved (call : GatewayToolCallV1) : bool :=
  match call_permission_class call with Permissions.Preapproved => true | _ => false end.

(** The last match: what a status makes of the policy's decision. *)
Definition decide_status (classification : ClassifiedUniversalActionV1)
    (policy_decision : Universal.UniversalGatewayDecisionV1) : Universal.UniversalGatewayDecisionV1 :=
  match classified_status classification with
  | Statuses.DangerousInvalidConfiguration => Universal.RefuseDangerousInvalidConfiguration
  | Statuses.ContractOnly => Universal.PassthroughWithoutStorage
  | Statuses.Unprofiled =>
    match policy_capability (classified_policy classification) with
    | FreshnessBoundRead => Universal.ExecuteAndObserve
    | _ => Universal.PassthroughWithoutStorage
    end
  | Statuses.Qualified =>
    match policy_decision with
    | Universal.ReuseExact | Universal.ReuseDeterministicCoverage => Universal.ReusePromotedResult
    | Universal.JoinInflight => Universal.JoinInflight
    | Universal.ExecuteAndObserve => Universal.ExecuteAndObserve
    | Universal.PassthroughWithoutStorage => Universal.PassthroughWithoutStorage
    | Universal.RefuseByPolicy => Universal.RefuseByPolicy
    | Universal.ReusePromotedResult | Universal.RefuseDangerousInvalidConfiguration =>
      Universal.RefuseDangerousInvalidConfiguration
    end
  end.

(** [None] is a panic of the classifier. *)
Definition route_automatically_v1 (call : GatewayToolCallV1) (candidates : RoutingCandidatesV1)
    (context : UniversalActionContextV1) (value : ReuseValueModelV1) :
    option (Universal.UniversalGatewayDecisionV1 * RoutingCandidatesV1) :=
  classification ← classify_action_v1 call context;
  match classified_status classification with
  | Statuses.DangerousInvalidConfiguration =>
    Some (Universal.RefuseDangerousInvalidConfiguration, candidates)
  | _ =>
    if negb (is_preapproved call) then Some (Universal.RefuseByPolicy, candidates)
    else if is_reuse_qualified classification && negb (has_positive_value value)
    then Some (Universal.PassthroughWithoutStorage, candidates)
    else
      let '(policy_decision, candidates) :=
        route_with_tool_policy_v1 call candidates (classified_policy classification) in
      match policy_decision with
      | Universal.RefuseByPolicy => Some (policy_decision, candidates)
      | _ => Some (decide_status classification policy_decision, candidates)
      end
  end.
End routing.
