(* ===== verification/GatewayTheorems.v ===== *)
(** * Properties of routing

    When the automatic route reuses a result, when it leaves the store alone,
    that a store proof is good for one consultation, and that the metrics are the
    exact totals of their events. *)

From Stdlib Require Import String.
From S2P Require Import Prelude Monad Bytes ContractTypes Canonical CanonicalSpec CanonicalParse.
From S2P Require Import CanonicalCodec RecordTypes Paths Digest IdentityRoundTrip Text Team TeamLaws.
From S2P Require Import GatewayProtocol ProfileRegistry GatewayRouter.
Import Capabilities Values Decisions.

(** ** The value gate *)

Definition u64_fields (value : ReuseValueModelV1) : Prop :=
  match value with
  | Values.Unknown => True
  | Measured native lookup validation materialization minimum =>
    Forall is_u64 [native; lookup; validation; materialization; minimum]
  end.

Definition pays (value : ReuseValueModelV1) : Prop :=
  match value with
  | Values.Unknown => False
  | Measured native lookup validation materialization minimum =>
    lookup + validation + materialization + minimum <= native
  end.

Lemma has_positive_value_iff value : u64_fields value → has_positive_value value = true ↔ pays value.
Proof.
  destruct value as [|native lookup validation materialization minimum]; simpl; [done|].
  rewrite !list.Forall_cons. unfold is_u64, u64_checked_add, U64_MAX. intros Hw.
  repeat (case_match; simplify_eq);
    repeat match goal with Hb : (_ <=? _) = _ |- _ => revert Hb end;
    rewrite ?Z.leb_le, ?Z.leb_gt; intros; split; intros; try done; try lia.
Qed.

(** ** What a proof covers *)

Record exact_covers `{Blake3Hash} (p : StoreExactResultProofV1) (call : GatewayToolCallV1) : Prop := {
  covers_unused : exact_used p = false;
  covers_generation : exact_lifecycle_generation p ≠ 0 ∧
    exact_lifecycle_generation p = exact_observed_generation p;
  covers_order : exact_execution_started_ms p <= exact_observed_at_ms p;
  covers_digests : Forall (λ d, valid_digest_v1 d = true)
    [exact_binding_digest p; exact_state_digest p; exact_policy_digest p;
     exact_dependency_digest p; exact_gateway_result_id p; exact_store_record_digest p];
  covers_request : exact_request_digest p = call_request_digest call;
  covers_effect : exact_effect p = call_effect_class call;
  covers_freshness : exact_freshness p = call_freshness call;
  covers_age : match call_freshness call with
    | Freshness.Snapshot => True
    | Freshness.MaxAgeMillis maximum =>
      exact_observed_at_ms p - exact_execution_started_ms p <= maximum
    | Freshness.RequireRevalidation => False
    end;
}.

Lemma freshness_requirement_holds_iff r started observed : started <= observed →
  freshness_requirement_holds_v1 r started observed = true ↔
  match r with
  | Freshness.Snapshot => True
  | Freshness.MaxAgeMillis maximum => observed - started <= maximum
  | Freshness.RequireRevalidation => False
  end.
Proof.
  intros Ho. unfold freshness_requirement_holds_v1. rewrite (proj2 (Z.ltb_ge _ _)) by done.
  destruct r; [done| |done]. apply Z.leb_le.
Qed.

Lemma exact_authorizes_iff `{Blake3Hash} p call :
  fst (exact_authorizes_router_call_v1 p call) = true ↔ exact_covers p call.
Proof.
  unfold exact_authorizes_router_call_v1, proof_invariants_hold_v1. simpl.
  rewrite !andb_true_iff, !negb_true_iff, Z.eqb_neq, Z.eqb_eq, Z.leb_le, bytes_eqb_eq,
    !bool_decide_eq_true. split.
  - intros Hc. destruct_and! Hc.
    match goal with Hf : exact_freshness p = _, Ha : freshness_requirement_holds_v1 _ _ _ = true |- _ =>
      rewrite Hf in Ha; apply freshness_requirement_holds_iff in Ha; [|done] end.
    constructor; rewrite ?list.Forall_cons; by auto.
  - intros [? [] ? Hd ? ? Hf Ha]. rewrite !list.Forall_cons in Hd. destruct_and! Hd.
    rewrite Hf, freshness_requirement_holds_iff by done. done.
Qed.

Record join_covers `{Blake3Hash} (p : StoreInflightJoinProofV1) (call : GatewayToolCallV1) : Prop := {
  joins_unused : join_used p = false;
  joins_generation : join_lifecycle_generation p ≠ 0 ∧
    join_lifecycle_generation p = join_observed_generation p;
  joins_order : join_execution_started_ms p <= join_observed_at_ms p;
  joins_digests : Forall (λ d, valid_digest_v1 d = true)
    [join_binding_digest p; join_state_digest p; join_policy_digest p;
     join_dependency_digest p; join_lease_record_digest p];
  joins_request : join_request_digest p = call_request_digest call;
  joins_effect : join_effect p = call_effect_class call;
  joins_freshness : join_freshness p = call_freshness call;
  joins_age : match call_freshness call with
    | Freshness.Snapshot => True
    | Freshness.MaxAgeMillis maximum =>
      join_observed_at_ms p - join_execution_started_ms p <= maximum
    | Freshness.RequireRevalidation => False
    end;
}.

Lemma join_authorizes_iff `{Blake3Hash} p call :
  fst (join_authorizes_router_call_v1 p call) = true ↔ join_covers p call.
Proof.
  unfold join_authorizes_router_call_v1. simpl.
  rewrite !andb_true_iff, !negb_true_iff, Z.eqb_neq, Z.eqb_eq, Z.leb_le, bytes_eqb_eq,
    !bool_decide_eq_true. split.
  - intros Hc. destruct_and! Hc.
    match goal with Hf : join_freshness p = _, Ha : freshness_requirement_holds_v1 _ _ _ = true |- _ =>
      rewrite Hf in Ha; apply freshness_requirement_holds_iff in Ha; [|done] end.
    constructor; rewrite ?list.Forall_cons; by auto.
  - intros [? [] ? Hd ? ? Hf Ha]. rewrite !list.Forall_cons in Hd. destruct_and! Hd.
    rewrite Hf, freshness_requirement_holds_iff by done. done.
Qed.

Lemma consult_inflight_true `{Blake3Hash} call candidates :
  fst (consult_inflight call candidates) = true ↔
  ∃ p, store_inflight candidates = Some p ∧ join_covers p call.
Proof.
  unfold consult_inflight. destruct (store_inflight candidates) as [p|]; [|naive_solver].
  change (fst (join_authorizes_router_call_v1 p call) = true ↔ ∃ q, Some p = Some q ∧ join_covers q call).
  rewrite join_authorizes_iff. naive_solver.
Qed.

Lemma consult_exact_true `{Blake3Hash} call candidates :
  fst (consult_exact call candidates) = true ↔
  ∃ p, store_exact candidates = Some p ∧ exact_covers p call.
Proof.
  unfold consult_exact. destruct (store_exact candidates) as [p|]; [|naive_solver].
  change (fst (exact_authorizes_router_call_v1 p call) = true ↔ ∃ q, Some p = Some q ∧ exact_covers q call).
  rewrite exact_authorizes_iff. naive_solver.
Qed.

Definition coverage_covers `{Blake3Hash} (c : ReuseCandidateV1) (call : GatewayToolCallV1) : Prop :=
  candidate_request_digest c = call_request_digest call ∧
  Origins.is_coverage (candidate_origin c) = true ∧
  freshness_satisfies (call_freshness call) (candidate_freshness c) = true.

Lemma coverage_applies_iff `{Blake3Hash} call candidates :
  coverage_applies call candidates = true ↔
  ∃ c, deterministic_coverage candidates = Some c ∧ coverage_covers c call.
Proof.
  unfold coverage_applies, coverage_covers. destruct (deterministic_coverage candidates) as [c|]; [|naive_solver].
  rewrite !andb_true_iff, bytes_eqb_eq. naive_solver.
Qed.

(** The coverage candidate is the same after the exact proof was consulted. *)
Lemma consult_exact_coverage `{Blake3Hash} call candidates :
  coverage_applies call (snd (consult_exact call candidates)) = coverage_applies call candidates.
Proof. unfold consult_exact, coverage_applies. by destruct (store_exact candidates). Qed.

(** ** What the registry makes of a call *)

Definition names_read (call : GatewayToolCallV1) : bool :=
  is_one_of (REPOSITORY_READS ++ GIT_READS) (call_tool call).

Definition in_batch (context : UniversalActionContextV1) : Prop :=
  context_interaction context = Contexts.Batch ∧ context_stdin context = Contexts.Closed.

Definition reads_snapshot (call : GatewayToolCallV1) : Prop :=
  call_effect_class call = Effects.SnapshotRead ∧ call_freshness call = Freshness.Snapshot ∧
  call_state call ≠ States.Unknown.

(** The digests of a known state are bounded. *)
Definition bounded_state (call : GatewayToolCallV1) : Prop :=
  ∀ reference, call_state call = States.Known reference →
    validate_bounded (state_repository reference) = Ok () ∧
    validate_bounded (state_environment reference) = Ok ().

Lemma from_input_bounded `{CanonicalJson} input call :
  GatewayToolCallV1_from_input input = Ok call → bounded_state call.
Proof.
  intros (? & Hv & (bytes & _ & [= <-])%result_bind_Ok)%result_bind_Ok reference Hs.
  unfold call_state in Hs. simpl in Hs. unfold validate_input in Hv.
  destruct (negb _); [done|].
  repeat apply result_bind_Ok in Hv as (? & _ & Hv). rewrite Hs in Hv.
  destruct (negb _); [done|]. apply result_bind_Ok in Hv as ([] & Hr & He).
  unfold validate_bounded. rewrite Hr, He. by destruct x.
Qed.

Lemma passthrough_iff context : requires_uncached_passthrough context = false ↔ in_batch context.
Proof.
  unfold requires_uncached_passthrough, in_batch.
  destruct (context_interaction context), (context_stdin context); naive_solver.
Qed.

Lemma is_one_of_app names others tool :
  is_one_of (names ++ others) tool = is_one_of names tool || is_one_of others tool.
Proof. unfold is_one_of, any. apply existsb_app. Qed.

(** The two profiles a read may have. *)
Definition read_profile (profile : ProfileContractV1) : Prop :=
  PROFILE_CONTRACTS_V1 !! 0%nat = Some profile ∨ PROFILE_CONTRACTS_V1 !! 1%nat = Some profile.

Lemma qualified_read_profile_case call :
  (∃ profile, names_read call = true ∧ qualified_read_profile (call_tool call) = Some profile ∧
              read_profile profile) ∨
  (names_read call = false ∧ qualified_read_profile (call_tool call) = None).
Proof.
  unfold names_read, qualified_read_profile, read_profile. rewrite is_one_of_app.
  destruct (is_one_of REPOSITORY_READS (call_tool call));
    [left; eexists; split_and!; [done|reflexivity|by left]|].
  destruct (is_one_of GIT_READS (call_tool call));
    [left; eexists; split_and!; [done|reflexivity|by right]|by right].
Qed.

(** A policy without dependencies is one of a capability that needs none. *)
Definition allowed_as (capability : ToolCapabilityClassV1) (policy : UniversalToolPolicyV1) : Prop :=
  policy_capability policy = capability ∧ is_denied policy = false.

Lemma unprofiled_policy_Some capability : capability ≠ ExactStateBoundRead →
  ∃ policy, unprofiled_policy capability = Some (mkClassified policy None Statuses.Unprofiled) ∧
            allowed_as capability policy.
Proof.
  intros Hc. destruct capability; [done|..]; (eexists; split; [reflexivity|by split]).
Qed.

Lemma binding_new_Ok kind name digest :
  validate_tool_policy_identifier_v1 name = Ok () → validate_bounded digest = Ok () →
  ToolDependencyBindingV1_new kind name digest = Ok (mkDependency kind name digest).
Proof. intros Hn Hd. unfold ToolDependencyBindingV1_new. by rewrite Hn, Hd. Qed.

Lemma sealed_dependencies_Ok reference (bindings := [
    mkDependency DependencyKinds.RepositoryTree (bstr "sealed-repository-state")
      (state_repository reference);
    mkDependency DependencyKinds.Environment (bstr "sealed-environment-state")
      (state_environment reference)]) :
  validate_bounded (state_repository reference) = Ok () →
  validate_bounded (state_environment reference) = Ok () →
  ToolDependencySetV1_bound bindings = Ok (Dependencies.Bound bindings).
Proof.
  intros Hr He. unfold ToolDependencySetV1_bound, check_dependencies, bindings.
  cbn -[validate_bounded]. rewrite Hr. cbn -[validate_bounded]. rewrite He. reflexivity.
Qed.

Lemma qualified_policy_Some profile reference : read_profile profile →
  validate_bounded (state_repository reference) = Ok () →
  validate_bounded (state_environment reference) = Ok () →
  ∃ policy, qualified_policy profile reference =
              Some (mkClassified policy (Some profile) Statuses.Qualified) ∧
            allowed_as ExactStateBoundRead policy.
Proof.
  intros Hp Hr He. unfold qualified_policy. rewrite !binding_new_Ok by done.
  cbn [expect option_bind mbind]. rewrite sealed_dependencies_Ok by done.
  destruct Hp as [[= <-]|[= <-]]; (eexists; split; [reflexivity|by split]).
Qed.

(** The call is one of the sealed reads, in a batch, of a known snapshot. *)
Definition sealed_read (call : GatewayToolCallV1) (context : UniversalActionContextV1) : Prop :=
  names_read call = true ∧ in_batch context ∧ reads_snapshot call.

Inductive classified (call : GatewayToolCallV1) (context : UniversalActionContextV1) :
    ClassifiedUniversalActionV1 → Prop :=
| classified_read policy profile :
  sealed_read call context → allowed_as ExactStateBoundRead policy →
  classified call context (mkClassified policy (Some profile) Statuses.Qualified)
| classified_invalid policy :
  names_read call = true → in_batch context → (¬ reads_snapshot call) →
  classified call context (mkClassified policy None Statuses.DangerousInvalidConfiguration)
| classified_contract policy profile :
  (¬ (names_read call = true ∧ in_batch context)) → is_denied policy = false →
  classified call context (mkClassified policy (Some profile) Statuses.ContractOnly)
| classified_unprofiled policy capability :
  (¬ (names_read call = true ∧ in_batch context)) → allowed_as capability policy →
  (capability = FreshnessBoundRead → call_effect_class call = Effects.FreshnessBoundRead) →
  classified call context (mkClassified policy None Statuses.Unprofiled).

Lemma classified_as_unprofiled call context capability :
  (¬ (names_read call = true ∧ in_batch context)) → capability ≠ ExactStateBoundRead →
  (capability = FreshnessBoundRead → call_effect_class call = Effects.FreshnessBoundRead) →
  ∃ c, unprofiled_policy capability = Some c ∧ classified call context c.
Proof.
  intros Hn Hc Hf. destruct (unprofiled_policy_Some capability Hc) as (policy & -> & Ha).
  eexists. split; [done|]. by eapply classified_unprofiled.
Qed.

Lemma classified_as_invalid call context :
  names_read call = true → in_batch context → (¬ reads_snapshot call) →
  ∃ c, invalid_configuration_policy = Some c ∧ classified call context c.
Proof. intros. eexists. split; [reflexivity|]. by apply classified_invalid. Qed.

Lemma restrictive_named_class_Some tool capability : restrictive_named_class tool = Some capability →
  capability ≠ ExactStateBoundRead ∧ capability ≠ FreshnessBoundRead.
Proof. unfold restrictive_named_class. repeat case_match; naive_solver. Qed.

Lemma command_contract_Some argv profile : command_contract argv = Some profile →
  profile ∈ PROFILE_CONTRACTS_V1.
Proof.
  unfold command_contract. repeat (case_match; [by eapply list_elem_of_lookup_2|]). done.
Qed.

Lemma contract_policy_Some profile : profile ∈ PROFILE_CONTRACTS_V1 →
  ∃ policy, registry_policy (profile_id (contract_identity profile))
              (profile_version (contract_identity profile)) DeterministicCommand
              Dependencies.ExplicitlyNone Dispositions.Allow = Some policy ∧
            is_denied policy = false.
Proof.
  unfold PROFILE_CONTRACTS_V1. rewrite !elem_of_cons. intros Hp.
  destruct_or! Hp; [subst; eexists; split; reflexivity..|by apply not_elem_of_nil in Hp].
Qed.

Lemma classified_command call context : (¬ (names_read call = true ∧ in_batch context)) →
  ∃ c, classify_command call context = Some c ∧ classified call context c.
Proof.
  intros Hn. unfold classify_command. case_match eqn:Hc.
  - destruct (context_command context) as [command|]; [|done].
    destruct (contract_policy_Some p) as (policy & -> & Hd); [by eapply command_contract_Some|].
    eexists. split; [reflexivity|]. by apply classified_contract.
  - apply classified_as_unprofiled; [done|..]; by destruct (call_effect_class call).
Qed.

Lemma classify_action_total call context : bounded_state call →
  ∃ c, classify_action_v1 call context = Some c ∧ classified call context c.
Proof.
  intros Hb. unfold classify_action_v1, SealedProfileRegistryV1_classify.
  destruct (requires_uncached_passthrough context) eqn:Hp.
  { apply classified_as_unprofiled; [|done..]. intros (_ & Hi%passthrough_iff). congruence. }
  apply passthrough_iff in Hp.
  destruct (qualified_read_profile_case call) as [(profile & Hn & -> & Hr)|[Hn ->]].
  - rewrite <- negb_andb. destruct (_ && _) eqn:He; simpl.
    + apply andb_true_iff in He as [He%bool_decide_eq_true Hf%bool_decide_eq_true].
      destruct (call_state call) as [reference|] eqn:Hs.
      * destruct (Hb _ Hs) as [Hrepo Henv].
        destruct (qualified_policy_Some profile reference Hr Hrepo Henv) as (policy & -> & Ha).
        eexists. split; [done|]. apply classified_read; [|done]. split_and!; [done..|]. split_and!; congruence.
      * apply classified_as_invalid; [done..|]. intros (_ & _ & ?). congruence.
    + apply classified_as_invalid; [done..|]. intros (He' & Hf' & _).
      rewrite !bool_decide_true in He by done. done.
  - assert (¬ (names_read call = true ∧ in_batch context)) as Hnot by (intros [? _]; congruence).
    destruct (restrictive_named_class (call_tool call)) as [capability|] eqn:Hc.
    + apply restrictive_named_class_Some in Hc as [? ?]. by apply classified_as_unprofiled.
    + destruct (call_effect_class call) eqn:He; try by apply classified_command.
      all: by apply classified_as_unprofiled; rewrite ?He.
Qed.

(** ** The decisions *)

(** A proof or a coverage candidate that answers the call. *)
Definition answered `{Blake3Hash} (call : GatewayToolCallV1) (candidates : RoutingCandidatesV1) : Prop :=
  (∃ p, store_exact candidates = Some p ∧ exact_covers p call) ∨
  (∃ c, deterministic_coverage candidates = Some c ∧ coverage_covers c call).

Lemma is_preapproved_iff call :
  is_preapproved call = true ↔ call_permission_class call = Permissions.Preapproved.
Proof. unfold is_preapproved. by destruct (call_permission_class call). Qed.

Lemma route_read_serves `{Blake3Hash} call candidates (routed := fst (route call candidates)) :
  is_preapproved call = true → reads_snapshot call →
  (routed ≠ RequireApproval ∧ routed ≠ Refuse) ∧
  (routed = ServeExact ∨ routed = ServeDeterministicCoverage ↔ answered call candidates).
Proof.
  intros Hp%is_preapproved_iff (He & _ & Hs). unfold routed, route. rewrite Hp, He.
  destruct (call_state call); [|done].
  unfold answered. rewrite <- consult_exact_true, <- coverage_applies_iff, <- consult_exact_coverage.
  destruct (consult_exact call candidates) as [[] after]; simpl; [naive_solver|].
  destruct (coverage_applies call after); simpl; [naive_solver|].
  destruct (consult_inflight call after) as [[] later]; simpl; [naive_solver|].
  destruct (semantic later); simpl; naive_solver.
Qed.

Lemma policy_decision_read `{Blake3Hash} call candidates policy : allowed_as ExactStateBoundRead policy →
  is_preapproved call = true → reads_snapshot call →
  let decision := fst (route_with_tool_policy_v1 call candidates policy) in
  (decision ∉ [Universal.RefuseByPolicy; Universal.ReusePromotedResult;
               Universal.RefuseDangerousInvalidConfiguration]) ∧
  (decision = Universal.ReuseExact ∨ decision = Universal.ReuseDeterministicCoverage ↔
   answered call candidates).
Proof.
  intros [Hc Hd] Hp Hr. destruct (route_read_serves call candidates Hp Hr) as [[] Hs].
  unfold route_with_tool_policy_v1. rewrite Hd, Hc, <- Hs.
  destruct (route call candidates) as [[] after]; simpl in *; try done;
    rewrite !elem_of_cons, elem_of_nil; naive_solver.
Qed.

(** With a status other than [Qualified] nothing is reused, whatever the policy says. *)
Lemma unqualified_decision classification decision :
  is_reuse_qualified classification = false →
  classified_status classification ≠ Statuses.DangerousInvalidConfiguration →
  decide_status classification decision ∈
    [Universal.ExecuteAndObserve; Universal.PassthroughWithoutStorage].
Proof.
  unfold is_reuse_qualified, decide_status. rewrite !elem_of_cons.
  destruct (classified_status classification); try done; [auto|].
  destruct (policy_capability _); auto.
Qed.

Lemma qualified_decision profile policy decision :
  decision ∉ [Universal.RefuseByPolicy; Universal.ReusePromotedResult;
              Universal.RefuseDangerousInvalidConfiguration] →
  let final := decide_status (mkClassified policy profile Statuses.Qualified) decision in
  final ≠ Universal.RefuseDangerousInvalidConfiguration ∧
  (final = Universal.ReusePromotedResult ↔
   decision = Universal.ReuseExact ∨ decision = Universal.ReuseDeterministicCoverage).
Proof. rewrite !elem_of_cons. destruct decision; naive_solver. Qed.

(** Automatic routing after the classifier. *)
Definition route_classified `{Blake3Hash} (call : GatewayToolCallV1) (candidates : RoutingCandidatesV1)
    (classification : ClassifiedUniversalActionV1) : Universal.UniversalGatewayDecisionV1 * RoutingCandidatesV1 :=
  let '(decision, after) := route_with_tool_policy_v1 call candidates (classified_policy classification) in
  (match decision with
   | Universal.RefuseByPolicy => decision
   | _ => decide_status classification decision
   end, after).

Lemma route_automatically_eq `{Blake3Hash} call candidates context value classification :
  classify_action_v1 call context = Some classification →
  route_automatically_v1 call candidates context value = Some
    (match classified_status classification with
     | Statuses.DangerousInvalidConfiguration =>
       (Universal.RefuseDangerousInvalidConfiguration, candidates)
     | _ =>
       if negb (is_preapproved call) then (Universal.RefuseByPolicy, candidates)
       else if is_reuse_qualified classification && negb (has_positive_value value)
       then (Universal.PassthroughWithoutStorage, candidates)
       else route_classified call candidates classification
     end).
Proof.
  intros Hc. unfold route_automatically_v1, route_classified. rewrite Hc. cbn [mbind option_bind].
  destruct (route_with_tool_policy_v1 _ _ _) as [[] after], (classified_status classification),
    (negb (is_preapproved call)),
    (is_reuse_qualified classification && negb (has_positive_value value)); reflexivity.
Qed.

Lemma route_classified_read `{Blake3Hash} call candidates policy profile :
  allowed_as ExactStateBoundRead policy → is_preapproved call = true → reads_snapshot call →
  let final := fst (route_classified call candidates (mkClassified policy profile Statuses.Qualified)) in
  final ≠ Universal.RefuseDangerousInvalidConfiguration ∧
  (final = Universal.ReusePromotedResult ↔ answered call candidates).
Proof.
  intros Ha Hp Hr. destruct (policy_decision_read call candidates policy Ha Hp Hr) as [Hn Hs].
  destruct (qualified_decision profile policy _ Hn) as [Hd Hq]. unfold route_classified. cbn [classified_policy].
  destruct (route_with_tool_policy_v1 call candidates policy) as [decision after]. cbn [fst] in *.
  rewrite !elem_of_cons in Hn. rewrite <- Hs, <- Hq. destruct decision; naive_solver.
Qed.

Lemma route_classified_other `{Blake3Hash} call candidates classification :
  is_reuse_qualified classification = false →
  classified_status classification ≠ Statuses.DangerousInvalidConfiguration →
  fst (route_classified call candidates classification) ∈
    [Universal.RefuseByPolicy; Universal.ExecuteAndObserve; Universal.PassthroughWithoutStorage].
Proof.
  intros Hq Hd. unfold route_classified.
  destruct (route_with_tool_policy_v1 _ _ _) as [decision after]. cbn [fst].
  pose proof (unqualified_decision classification decision Hq Hd) as Hin.
  rewrite !elem_of_cons in *. destruct decision; tauto.
Qed.

Lemma unqualified_never_reuses `{Blake3Hash} call candidates classification :
  is_reuse_qualified classification = false →
  classified_status classification ≠ Statuses.DangerousInvalidConfiguration →
  let decision := fst (if negb (is_preapproved call) then (Universal.RefuseByPolicy, candidates)
                       else route_classified call candidates classification) in
  decision ≠ Universal.ReusePromotedResult ∧
  decision ≠ Universal.RefuseDangerousInvalidConfiguration.
Proof.
  intros Hq Hd. pose proof (route_classified_other call candidates _ Hq Hd) as Ho.
  destruct (negb (is_preapproved call)); [done|]. rewrite !elem_of_cons, elem_of_nil in Ho.
  split; intros He; rewrite He in Ho; by destruct_or! Ho.
Qed.

(** C36. Automatic routing of an accepted call returns a decision (the classifier's
    [expect]s hold), it reuses a stored result exactly when the call is one of
    the sealed reads, made in a batch of a known snapshot, preapproved, its
    measured costs with the required savings are at most the native cost, as
    integers, and an unused exact proof or a coverage candidate answers the call;
    and it refuses the configuration as dangerous exactly when a sealed read is
    made in a batch without the snapshot it needs. *)
Theorem automatic_reuse_exact `{CanonicalJson, Blake3Hash} input call candidates context value :
  GatewayToolCallV1_from_input input = Ok call → u64_fields value →
  ∃ decision after,
    route_automatically_v1 call candidates context value = Some (decision, after) ∧
    (decision = Universal.ReusePromotedResult ↔
       sealed_read call context ∧ is_preapproved call = true ∧ pays value ∧
       answered call candidates) ∧
    (decision = Universal.RefuseDangerousInvalidConfiguration ↔
       names_read call = true ∧ in_batch context ∧ ¬ reads_snapshot call).
Proof.
  intros Hb%from_input_bounded Hu. pose proof (has_positive_value_iff value Hu) as Hv.
  destruct (classify_action_total call context Hb) as (c & Hc & Hk).
  rewrite (route_automatically_eq _ _ _ _ _ Hc). do 2 eexists. split; [by rewrite <- surjective_pairing|].
  destruct Hk as [policy profile Hr Ha|policy Hn Hi Hr|policy profile Hr Hd|policy capability Hr Ha _];
    unfold sealed_read in *; cbn [classified_status is_reuse_qualified]; [| naive_solver |..].
  - destruct (is_preapproved call) eqn:Hp; [|naive_solver].
    destruct (route_classified_read call candidates policy (Some profile) Ha Hp (proj2 (proj2 Hr))) as [Hd <-].
    destruct (has_positive_value value); naive_solver.
  - rewrite andb_false_l. destruct (unqualified_never_reuses call candidates
      (mkClassified policy (Some profile) Statuses.ContractOnly) eq_refl ltac:(done)); tauto.
  - rewrite andb_false_l. destruct (unqualified_never_reuses call candidates
      (mkClassified policy None Statuses.Unprofiled) eq_refl ltac:(done)); tauto.
Qed.

Section sequences.
Context `{Blake3Hash}.

(** A call that looks at the candidates: preapproved, replayable, of a known state. *)
Definition consults (call : GatewayToolCallV1) : Prop :=
  call_permission_class call = Permissions.Preapproved ∧
  (call_effect_class call ∉ [Effects.Mutation; Effects.ExternalSideEffect; Effects.Unknown]) ∧
  call_state call ≠ States.Unknown.

#[global] Instance consults_dec call : Decision (consults call).
Proof.
  unfold consults. destruct (call_permission_class call); [|right; naive_solver..].
  destruct (call_state call); [|right; naive_solver].
  destruct (decide (call_effect_class call ∈
    [Effects.Mutation; Effects.ExternalSideEffect; Effects.Unknown])); [right|left]; naive_solver.
Defined.

Lemma route_without_consulting call candidates : ¬ consults call →
  snd (route call candidates) = candidates ∧
  fst (route call candidates) ∈ [Refuse; RequireApproval; ExecuteNonReplayable; Execute].
Proof.
  unfold consults, route. rewrite !elem_of_cons, elem_of_nil. intros Hn.
  destruct (call_permission_class call); [|simpl; tauto..].
  destruct (call_effect_class call); [..|simpl; tauto|simpl; tauto|simpl; tauto];
    (destruct (call_state call); [|simpl; tauto]); exfalso; apply Hn; split_and!; naive_solver.
Qed.

Lemma route_consulting call candidates : consults call →
  route call candidates =
  (let '(exact, candidates) := consult_exact call candidates in
   if exact then (ServeExact, candidates)
   else if coverage_applies call candidates then (ServeDeterministicCoverage, candidates)
   else
     let '(join, candidates) := consult_inflight call candidates in
     if join then (JoinInflight, candidates)
     else match semantic candidates with
     | Some _ => (ValidateSemanticCandidate, candidates)
     | None => (Execute, candidates)
     end).
Proof.
  unfold consults, route. rewrite !elem_of_cons, elem_of_nil. intros (-> & He & Hs).
  destruct (call_state call); [|done]. by destruct (call_effect_class call); try tauto.
Qed.

Definition exact_spent (candidates : RoutingCandidatesV1) : Prop :=
  ∀ p, store_exact candidates = Some p → exact_used p = true.

Definition join_spent (candidates : RoutingCandidatesV1) : Prop :=
  ∀ p, store_inflight candidates = Some p → join_used p = true.

Lemma consult_exact_after call candidates (after := snd (consult_exact call candidates)) :
  exact_spent after ∧ store_inflight after = store_inflight candidates.
Proof.
  unfold after, consult_exact, exact_spent. destruct (store_exact candidates) as [p|] eqn:Hp; simpl.
  - split; [|done]. by intros q [= <-].
  - split; [|done]. intros q. by rewrite Hp.
Qed.

Lemma consult_inflight_after call candidates (after := snd (consult_inflight call candidates)) :
  join_spent after ∧ store_exact after = store_exact candidates.
Proof.
  unfold after, consult_inflight, join_spent. destruct (store_inflight candidates) as [p|] eqn:Hp; simpl.
  - split; [|done]. by intros q [= <-].
  - split; [|done]. intros q. by rewrite Hp.
Qed.

Lemma consult_inflight_spent call candidates :
  join_spent candidates → fst (consult_inflight call candidates) = false.
Proof.
  unfold consult_inflight, join_spent. destruct (store_inflight candidates) as [p|]; [|done].
  intros Hs. unfold join_authorizes_router_call_v1. simpl. by rewrite (Hs p eq_refl).
Qed.

(** Every consultation spends the exact proof, whatever it decides; a joined
    call spends the join proof. *)
Lemma route_spends call candidates (after := snd (route call candidates)) :
  (consults call → exact_spent after) ∧
  (exact_spent candidates → exact_spent after ∧ fst (route call candidates) ≠ ServeExact) ∧
  (join_spent candidates → join_spent after ∧ fst (route call candidates) ≠ JoinInflight) ∧
  (fst (route call candidates) = JoinInflight → join_spent after).
Proof.
  unfold after. destruct (decide (consults call)) as [Hc|Hc].
  2: { destruct (route_without_consulting call candidates Hc) as [-> Hd].
       rewrite !elem_of_cons, elem_of_nil in Hd.
       assert (fst (route call candidates) ≠ ServeExact ∧ fst (route call candidates) ≠ JoinInflight)
         by (split; intros He; rewrite He in Hd; by destruct_or! Hd). tauto. }
  rewrite (route_consulting call candidates Hc).
  pose proof (consult_exact_true call candidates) as Hx.
  destruct (consult_exact_after call candidates) as [Hs Hj].
  destruct (consult_exact call candidates) as [exact c]. cbn [fst snd] in Hx, Hs, Hj.
  assert (join_spent candidates → join_spent c) as Hjs by (unfold join_spent; by rewrite Hj).
  destruct exact.
  { simpl. split; [done|]. split; [|split; [auto|done]]. intros Hsp. exfalso.
    destruct (proj1 Hx eq_refl) as (p & Hp & Hcov). specialize (Hsp p Hp).
    rewrite (covers_unused _ _ Hcov) in Hsp. done. }
  destruct (coverage_applies call c); [simpl; split_and!; intros; auto; done|].
  pose proof (consult_inflight_spent call c) as Hf.
  destruct (consult_inflight_after call c) as [Hi He].
  destruct (consult_inflight call c) as [join d]. cbn [fst snd] in Hf, Hi, He.
  assert (exact_spent d) as Hes by (unfold exact_spent; by rewrite He).
  destruct join; [simpl; split_and!; intros Hsp; auto; specialize (Hf (Hjs Hsp)); done|].
  destruct (semantic d); simpl; split_and!; intros; by auto.
Qed.

(** A sequence of calls routed against the same candidates, which hold the
    proofs' cells. *)
Fixpoint route_all (calls : list GatewayToolCallV1) (candidates : RoutingCandidatesV1) :
    list GatewayDecision :=
  match calls with
  | [] => []
  | call :: calls =>
    let '(decision, candidates) := route call candidates in decision :: route_all calls candidates
  end.

Lemma route_all_cons call calls candidates : route_all (call :: calls) candidates =
  fst (route call candidates) :: route_all calls (snd (route call candidates)).
Proof. simpl. by destruct (route call candidates). Qed.

Lemma route_all_exact_spent calls candidates :
  exact_spent candidates → ServeExact ∉ route_all calls candidates.
Proof.
  revert candidates. induction calls as [|call calls IH]; intros candidates Hs; [apply not_elem_of_nil|].
  rewrite route_all_cons, not_elem_of_cons.
  destruct (proj1 (proj2 (route_spends call candidates)) Hs) as [Ha Hd]. auto.
Qed.

Lemma route_all_join_spent calls candidates :
  join_spent candidates → JoinInflight ∉ route_all calls candidates.
Proof.
  revert candidates. induction calls as [|call calls IH]; intros candidates Hs; [apply not_elem_of_nil|].
  rewrite route_all_cons, not_elem_of_cons.
  destruct (proj1 (proj2 (proj2 (route_spends call candidates))) Hs) as [Ha Hd]. auto.
Qed.

(** What each of the two decisions takes, and what is left when another was taken. *)
Lemma route_serves_iff call candidates : fst (route call candidates) = ServeExact ↔
  consults call ∧ ∃ p, store_exact candidates = Some p ∧ exact_covers p call.
Proof.
  destruct (decide (consults call)) as [Hc|Hc].
  - rewrite (route_consulting call candidates Hc), <- consult_exact_true.
    destruct (consult_exact call candidates) as [[] c]; [naive_solver|].
    destruct (coverage_applies call c); [naive_solver|]. destruct (consult_inflight call c) as [[] d]; [naive_solver|].
    destruct (semantic d); naive_solver.
  - destruct (route_without_consulting call candidates Hc) as [_ Hd].
    rewrite !elem_of_cons, elem_of_nil in Hd. split; [|tauto]. intros He. rewrite He in Hd. by destruct_or! Hd.
Qed.

Lemma route_joins_iff call candidates : fst (route call candidates) = JoinInflight ↔
  consults call ∧ (¬ answered call candidates) ∧
  ∃ p, store_inflight candidates = Some p ∧ join_covers p call.
Proof.
  destruct (decide (consults call)) as [Hc|Hc].
  - rewrite (route_consulting call candidates Hc). unfold answered.
    rewrite <- consult_exact_true, <- coverage_applies_iff, <- consult_exact_coverage.
    destruct (consult_exact_after call candidates) as [_ Hj].
    destruct (consult_exact call candidates) as [[] c]; [naive_solver|]. cbn [fst snd] in *.
    rewrite <- Hj, <- consult_inflight_true.
    destruct (coverage_applies call c); [naive_solver|]. destruct (consult_inflight call c) as [[] d]; [naive_solver|].
    destruct (semantic d); naive_solver.
  - destruct (route_without_consulting call candidates Hc) as [_ Hd].
    rewrite !elem_of_cons, elem_of_nil in Hd. split; [|tauto]. intros He. rewrite He in Hd. by destruct_or! Hd.
Qed.

Lemma route_offers call candidates : consults call →
  fst (route call candidates) = ServeExact ∨ fst (route call candidates) = ServeDeterministicCoverage ∨
  join_spent (snd (route call candidates)).
Proof.
  intros Hc. rewrite (route_consulting call candidates Hc).
  destruct (consult_exact call candidates) as [[] c]; [by left|].
  destruct (coverage_applies call c); [by right; left|].
  pose proof (proj1 (consult_inflight_after call c)) as Hs. right. right.
  destruct (consult_inflight call c) as [[] d]; [done|]. by destruct (semantic d).
Qed.

Lemma route_keeps_join call candidates :
  join_spent (snd (route call candidates)) ∨
  store_inflight (snd (route call candidates)) = store_inflight candidates.
Proof.
  destruct (decide (consults call)) as [Hc|Hc].
  2: { right. by destruct (route_without_consulting call candidates Hc) as [-> _]. }
  destruct (route_offers call candidates Hc) as [He|[He|Hs]]; [..|by left]; right; revert He;
    rewrite (route_consulting call candidates Hc); destruct (consult_exact_after call candidates) as [_ Hj];
    destruct (consult_exact call candidates) as [[] c]; try done;
    (destruct (coverage_applies call c); [done|]); destruct (consult_inflight call c) as [[] d]; try done;
    by destruct (semantic d).
Qed.

Lemma route_all_joins_once calls candidates i j :
  route_all calls candidates !! i = Some JoinInflight →
  route_all calls candidates !! j = Some JoinInflight → i = j.
Proof.
  revert candidates i j. induction calls as [|call calls IH]; intros candidates i j; [done|].
  rewrite route_all_cons. destruct (route_spends call candidates) as (_ & _ & _ & Hj).
  destruct i as [|i], j as [|j]; simpl; [done|..]; intros Hi Hk.
  - injection Hi as Hi. by apply list_elem_of_lookup_2, route_all_join_spent in Hk; [|auto].
  - injection Hk as Hk. by apply list_elem_of_lookup_2, route_all_join_spent in Hi; [|auto].
  - f_equal. by eapply IH.
Qed.

Lemma route_all_serves calls candidates i :
  route_all calls candidates !! i = Some ServeExact ↔
  ∃ call p, calls !! i = Some call ∧ consults call ∧
    store_exact candidates = Some p ∧ exact_covers p call ∧
    ∀ j earlier, (j < i)%nat → calls !! j = Some earlier → ¬ consults earlier.
Proof.
  revert candidates i. induction calls as [|first calls IH]; intros candidates i; [simpl; naive_solver|].
  rewrite route_all_cons. destruct i as [|i]; cbn [lookup list_lookup].
  - transitivity (fst (route first candidates) = ServeExact); 
      [split; [by intros [= ->]|by intros ->]|]. rewrite route_serves_iff. split.
    + intros (Hc & p & Hp & Hcov). exists first, p. split_and!; try done. lia.
    + intros (call & p & [= ->] & Hc & Hp & Hcov & _). eauto.
  - destruct (decide (consults first)) as [Hc|Hc].
    + split; [|intros (_ & _ & _ & _ & _ & _ & Hn); by destruct (Hn 0%nat first ltac:(lia) eq_refl)].
      intros Hs. exfalso. apply list_elem_of_lookup_2 in Hs. revert Hs. apply route_all_exact_spent.
      by apply (proj1 (route_spends first candidates)).
    + destruct (route_without_consulting first candidates Hc) as [-> _]. rewrite IH.
      split; intros (call & p & Hi & Hcall & Hp & Hcov & Hn); exists call, p; split_and!; try done.
      * intros [|j] earlier Hj He; simpl in He; [by simplify_eq|]. apply (Hn j); [lia|done].
      * intros j earlier Hj He. apply (Hn (S j)); [lia|done].
Qed.

Lemma route_all_joins calls candidates i :
  route_all calls candidates !! i = Some JoinInflight →
  ∃ call p, calls !! i = Some call ∧ consults call ∧
    store_inflight candidates = Some p ∧ join_covers p call ∧
    ∀ j earlier, (j < i)%nat → calls !! j = Some earlier → consults earlier →
      route_all calls candidates !! j = Some ServeExact ∨
      route_all calls candidates !! j = Some ServeDeterministicCoverage.
Proof.
  revert candidates i. induction calls as [|first calls IH]; intros candidates i; [done|].
  rewrite route_all_cons. destruct i as [|i]; cbn [lookup list_lookup].
  - intros [= (Hc & _ & p & Hp & Hcov)%route_joins_iff]. exists first, p. split_and!; try done. lia.
  - intros Hj. assert (¬ join_spent (snd (route first candidates))) as Hns.
    { intros Hs. by apply list_elem_of_lookup_2, route_all_join_spent in Hj. }
    destruct (IH _ _ Hj) as (call & p & Hi & Hc & Hp & Hcov & Hn).
    destruct (route_keeps_join first candidates) as [?|Hk]; [done|]. rewrite Hk in Hp.
    exists call, p. split; [done|]. split; [done|]. split; [done|]. split; [done|].
    intros [|j] earlier Hlt He Hce; simpl in He |- *.
    + injection He as ->. destruct (route_offers earlier candidates Hce) as [->|[->|?]]; auto; done.
    + apply (Hn j earlier); [lia|done..].
Qed.
End sequences.

(** C37. Over any sequence of calls routed against the same candidates, the exact
    proof is served exactly to a consulting call that it covers and before which
    no call of the sequence consulted the candidates: every consultation spends
    it, whether it authorizes or not, so it is served at most once. At most one
    call joins the execution in flight: one that the unused join proof covers,
    that neither the exact proof nor the coverage answers, and before which every
    consulting call was served by one of those two; any other consultation spends
    the join proof. *)
Theorem proof_serves_once `{Blake3Hash} calls candidates (decisions := route_all calls candidates) :
  (∀ i, decisions !! i = Some ServeExact ↔
     ∃ call p, calls !! i = Some call ∧ consults call ∧
       store_exact candidates = Some p ∧ exact_covers p call ∧
       ∀ j earlier, (j < i)%nat → calls !! j = Some earlier → ¬ consults earlier) ∧
  (∀ i j, decisions !! i = Some ServeExact → decisions !! j = Some ServeExact → i = j) ∧
  (∀ i, decisions !! i = Some JoinInflight →
     ∃ call p, calls !! i = Some call ∧ consults call ∧
       store_inflight candidates = Some p ∧ join_covers p call ∧
       ∀ j earlier, (j < i)%nat → calls !! j = Some earlier → consults earlier →
         decisions !! j = Some ServeExact ∨ decisions !! j = Some ServeDeterministicCoverage) ∧
  (∀ i j, decisions !! i = Some JoinInflight → decisions !! j = Some JoinInflight → i = j).
Proof.
  pose proof (λ i, route_all_serves calls candidates i) as Hserve. split; [exact Hserve|]. split.
  { intros i j (call & p & Hi & Hc & _ & _ & Hn)%Hserve (call' & p' & Hj & Hc' & _ & _ & Hn')%Hserve.
    destruct (Nat.lt_trichotomy i j) as [Hlt|[?|Hlt]]; [|done|]; exfalso.
    - exact (Hn' i call Hlt Hi Hc).
    - exact (Hn j call' Hlt Hj Hc'). }
  split; [apply route_all_joins|apply route_all_joins_once].
Qed.

Lemma route_classified_passes `{Blake3Hash} call candidates classification : ¬ consults call →
  (∀ decision, decide_status classification decision = Universal.PassthroughWithoutStorage) →
  ∃ decision, route_classified call candidates classification = (decision, candidates) ∧
    (decision = Universal.PassthroughWithoutStorage ∨ decision = Universal.RefuseByPolicy).
Proof.
  intros Hn Hp. destruct (route_without_consulting call candidates Hn) as [Ha _].
  unfold route_classified, route_with_tool_policy_v1.
  destruct (route call candidates) as [routed after]. simpl in Ha. subst after.
  eexists. split; [done|]. case_match; auto.
Qed.

(** A call whose effect is a mutation, an external side effect or unknown is
    passed through without storage or refused, in every context and at every
    value, and its route leaves the candidates' proofs as they were. *)
Theorem side_effects_leave_the_store `{CanonicalJson, Blake3Hash} input call candidates context value :
  GatewayToolCallV1_from_input input = Ok call →
  call_effect_class call ∈ [Effects.Mutation; Effects.ExternalSideEffect; Effects.Unknown] →
  ∃ decision, route_automatically_v1 call candidates context value = Some (decision, candidates) ∧
    decision ∈ [Universal.PassthroughWithoutStorage; Universal.RefuseByPolicy;
                Universal.RefuseDangerousInvalidConfiguration].
Proof.
  intros Hb%from_input_bounded He.
  destruct (classify_action_total call context Hb) as (c & Hc & Hk).
  rewrite (route_automatically_eq _ _ _ _ _ Hc).
  assert (¬ consults call) as Hn by (by intros (_ & ? & _)). rewrite !elem_of_cons, elem_of_nil in He.
  setoid_rewrite elem_of_cons. setoid_rewrite elem_of_cons.
  destruct Hk as [policy profile Hr _|policy _ _ _|policy profile _ _|policy capability _ [Hcap _] Hf];
    cbn [classified_status is_reuse_qualified]; rewrite ?andb_false_l.
  - exfalso. destruct Hr as (_ & _ & Hs & _). rewrite Hs in He. by destruct_or! He.
  - eexists. split; [done|]. do 2 right. by constructor.
  - destruct (negb _); [eauto|].
    destruct (route_classified_passes call candidates (mkClassified policy (Some profile) Statuses.ContractOnly) Hn)
      as (? & -> & []); [done|..]; eauto.
  - destruct (negb _); [eauto|].
    destruct (route_classified_passes call candidates (mkClassified policy None Statuses.Unprofiled) Hn)
      as (? & -> & []); [|eauto..].
    intros d. unfold decide_status. simpl. rewrite Hcap. destruct capability; try done.
    rewrite Hf in He by done. by destruct_or! He.
Qed.

(** ** Metrics *)

Module MetricLaws.
Import Metrics.

Definition sum_of (f : UniversalGatewayMetricEventV1 → Z) (events : list UniversalGatewayMetricEventV1) : Z :=
  foldr (λ event sum, f event + sum) 0 events.

(** Each field with what the events of its name add to it: one each, or what
    they carry. *)
Definition added (self : UniversalGatewayMetricsV1) (events : list UniversalGatewayMetricEventV1) :
    UniversalGatewayMetricsV1 := {|
  routes := routes self + sum_of (λ event, match event with Route => 1 | _ => 0 end) events;
  misses := misses self + sum_of (λ event, match event with Miss => 1 | _ => 0 end) events;
  joins := joins self + sum_of (λ event, match event with Join => 1 | _ => 0 end) events;
  candidates := candidates self + sum_of (λ event, match event with Candidate => 1 | _ => 0 end) events;
  promotions := promotions self + sum_of (λ event, match event with Promotion => 1 | _ => 0 end) events;
  invalidations :=
    invalidations self + sum_of (λ event, match event with Invalidation => 1 | _ => 0 end) events;
  quarantines := quarantines self + sum_of (λ event, match event with Quarantine => 1 | _ => 0 end) events;
  bytes := bytes self + sum_of (λ event, match event with Bytes n => n | _ => 0 end) events;
  measured_time_micros :=
    measured_time_micros self + sum_of (λ event, match event with MeasuredTimeMicros n => n | _ => 0 end) events;
|}.

Definition fits (self : UniversalGatewayMetricsV1) : Prop :=
  is_u64 (routes self) ∧ is_u64 (misses self) ∧ is_u64 (joins self) ∧ is_u64 (candidates self) ∧
  is_u64 (promotions self) ∧ is_u64 (invalidations self) ∧ is_u64 (quarantines self) ∧
  is_u64 (bytes self) ∧ is_u64 (measured_time_micros self).

Definition u64_event (event : UniversalGatewayMetricEventV1) : Prop :=
  match event with Bytes n | MeasuredTimeMicros n => is_u64 n | _ => True end.

(** The metrics after the events, and the events that overflowed. *)
Fixpoint record_all (events : list UniversalGatewayMetricEventV1) (self : UniversalGatewayMetricsV1) :
    list UniversalGatewayMetricEventV1 * UniversalGatewayMetricsV1 :=
  match events with
  | [] => ([], self)
  | event :: events =>
    match record event self with
    | Returned _ self => record_all events self
    | Threw _ self => let '(refused, self) := record_all events self in (event :: refused, self)
    | Panicked => (event :: events, self)
    end
  end.

Lemma record_exact event self : fits self → u64_event event →
  (fits (added self [event]) → record event self = Returned () (added self [event])) ∧
  (¬ fits (added self [event]) → record event self = Threw MetricOverflow self).
Proof.
  intros Hs Hu. unfold record, u64_checked_add, gets, lift_result, modify, mbind, state_bind.
  destruct self as [r m j c p i q b t]. unfold fits, added, is_u64 in *. cbn in Hs.
  destruct event; unfold u64_event, is_u64 in Hu; simpl;
    (match goal with |- context [?a <=? U64_MAX] => destruct (Z.leb_spec a U64_MAX) end; simpl;
     split; intros Hf; rewrite ?Z.add_0_r; try done; exfalso; unfold U64_MAX in *; first [lia|apply Hf; lia]).
Qed.

Lemma sum_of_nonneg f events : (∀ event, event ∈ events → 0 <= f event) → 0 <= sum_of f events.
Proof.
  induction events as [|event events IH]; intros Hf; simpl; [lia|].
  pose proof (Hf event ltac:(left)). specialize (IH (λ e He, Hf e ltac:(by right))). lia.
Qed.

Lemma added_cons self event events : added self (event :: events) = added (added self [event]) events.
Proof. unfold added. simpl. f_equal; lia. Qed.

Lemma fits_first self event events : fits self → Forall u64_event (event :: events) →
  fits (added self (event :: events)) → fits (added self [event]).
Proof.
  intros Hs [He Hu]%list.Forall_cons Hf.
  assert (∀ f, (∀ e, u64_event e → 0 <= f e) → 0 <= sum_of f events) as Hn.
  { intros f Hf'. apply sum_of_nonneg. intros e Hin. rewrite list.Forall_forall in Hu. auto. }
  unfold fits, added, is_u64 in *. simpl in *.
  repeat match goal with H : context [sum_of ?f events] |- _ =>
    let Hp := fresh in
    pose proof (Hn f ltac:(intros []; unfold u64_event, is_u64; lia)) as Hp; revert Hp;
    generalize dependent (sum_of f events); intros
  end.
  destruct event; unfold u64_event, is_u64 in He; lia.
Qed.

Lemma record_all_exact events self : Forall u64_event events → fits self →
  (fits (added self events) ↔ fst (record_all events self) = []) ∧
  (fits (added self events) → snd (record_all events self) = added self events).
Proof.
  revert self. induction events as [|event events IH]; intros self Hu Hs.
  { assert (added self [] = self) as -> by (destruct self; unfold added; simpl; f_equal; lia). done. }
  pose proof Hu as [He Hu']%list.Forall_cons.
  destruct (record_exact event self Hs He) as [Hok Hno]. cbn [record_all].
  destruct (decide (fits (added self [event]))) as [Hf|Hf].
  - rewrite (Hok Hf), added_cons. by apply IH.
  - rewrite (Hno Hf). destruct (record_all events self) as [refused after]. cbn [fst snd].
    split; [split; [|done]|]; intros Ha; by destruct Hf; eapply fits_first.
Qed.
End MetricLaws.

(** C38. Metrics are exact. Recording an event adds to the field of its name, one or
    the bytes or microseconds it carries, and to no other; when that field would
    pass a u64 the event is refused and nothing changes. So from the default, no
    event of a sequence is refused exactly when the nine totals of the sequence
    fit a u64, and then the fields are those totals. *)
Theorem metrics_exact :
  (∀ event self, MetricLaws.fits self → MetricLaws.u64_event event →
     (MetricLaws.fits (MetricLaws.added self [event]) →
        Metrics.record event self = Returned () (MetricLaws.added self [event])) ∧
     (¬ MetricLaws.fits (MetricLaws.added self [event]) →
        Metrics.record event self = Threw Metrics.MetricOverflow self)) ∧
  (∀ events, Forall MetricLaws.u64_event events →
     (MetricLaws.fits (MetricLaws.added Metrics.default_metrics events) ↔
        fst (MetricLaws.record_all events Metrics.default_metrics) = []) ∧
     (MetricLaws.fits (MetricLaws.added Metrics.default_metrics events) →
        snd (MetricLaws.record_all events Metrics.default_metrics) =
        MetricLaws.added Metrics.default_metrics events)).
Proof.
  split; [intros; by apply MetricLaws.record_exact|]. intros events Hu. apply MetricLaws.record_all_exact; [done|].
  by vm_compute.
Qed.

(** ** Witnesses *)

Module GatewaySample.
#[local] Instance sample_json : CanonicalJson := λ input, Ok (tool_id (input_tool input)).
#[local] Instance sample_hash : Blake3Hash := λ message, replicate 31 0 ++ [len message mod 256].

Definition name : list Z := bstr "sample".
Definition digest : DigestReferenceV1 := mkDigestReference (bstr "blake3") (replicate 64 97).

Definition input_of (tool : list Z) (effect : Effects.EffectClass) : GatewayToolCallInputV1 :=
  mkCallInput 1 (mkProvider name name) (mkModel name name) (mkTool tool name) []
    (mkWorkspace name (bstr ".")) (mkAgentCall name name name name) None
    (States.Known (mkStateReference 1 digest digest)) Permissions.Preapproved effect
    Freshness.Snapshot Presentations.Exact.

Definition read_input : GatewayToolCallInputV1 := input_of (bstr "git.status") Effects.SnapshotRead.
Definition read_call : GatewayToolCallV1 := mkCall read_input [] (bstr "git.status").
Definition send_input : GatewayToolCallInputV1 := input_of (bstr "chat.send") Effects.ExternalSideEffect.
Definition send_call : GatewayToolCallV1 := mkCall send_input [] (bstr "chat.send").

Definition sample_proof : StoreExactResultProofV1 :=
  mkExactProof false (call_request_digest read_call) (replicate 64 97) (replicate 64 97)
    (replicate 64 97) (replicate 64 97) Effects.SnapshotRead Freshness.Snapshot 1 1 10 20
    (replicate 64 97) (replicate 64 97).

Definition sample_candidates : RoutingCandidatesV1 := with_store_exact_proof no_candidates sample_proof.
Definition sample_value : ReuseValueModelV1 := Measured 1000 10 10 10 100.

Lemma automatic_reuse_exact_witness :
  route_automatically_v1 read_call sample_candidates batch_without_stdin sample_value =
    Some (Universal.ReusePromotedResult,
          mkRouting (Some (use_exact sample_proof)) None None None) ∧
  ∃ decision after,
    route_automatically_v1 read_call sample_candidates batch_without_stdin sample_value =
      Some (decision, after) ∧
    (decision = Universal.ReusePromotedResult ↔
       sealed_read read_call batch_without_stdin ∧ is_preapproved read_call = true ∧
       pays sample_value ∧ answered read_call sample_candidates) ∧
    (decision = Universal.RefuseDangerousInvalidConfiguration ↔
       names_read read_call = true ∧ in_batch batch_without_stdin ∧ ¬ reads_snapshot read_call).
Proof.
  split; [vm_compute; reflexivity|]. apply (automatic_reuse_exact read_input); [vm_compute; reflexivity|].
  simpl. repeat constructor; unfold is_u64; lia.
Defined.

Definition sample_join : StoreInflightJoinProofV1 :=
  mkJoinProof false (call_request_digest read_call) (replicate 64 97) (replicate 64 97)
    (replicate 64 97) (replicate 64 97) Effects.SnapshotRead Freshness.Snapshot 1 1 10 20
    (replicate 64 97) (replicate 64 97).

Definition join_candidates : RoutingCandidatesV1 := with_store_inflight_proof no_candidates sample_join.

(** The exact proof is served after calls that do not consult it, and not again; the
    join proof likewise, with no exact proof around. *)
Lemma proof_serves_once_witness :
  route_all [send_call; read_call; read_call] sample_candidates =
    [ExecuteNonReplayable; ServeExact; Execute] ∧
  route_all [send_call; read_call; read_call] join_candidates =
    [ExecuteNonReplayable; JoinInflight; Execute] ∧
  (∃ p, store_exact sample_candidates = Some p ∧ exact_covers p read_call) ∧
  (∃ p, store_inflight join_candidates = Some p ∧ join_covers p read_call).
Proof.
  split; [vm_compute; reflexivity|]. split; [vm_compute; reflexivity|].
  destruct (proof_serves_once [send_call; read_call; read_call] sample_candidates) as [He _].
  destruct (proof_serves_once [send_call; read_call; read_call] join_candidates) as (_ & _ & Hj & _).
  split.
  - destruct (proj1 (He 1%nat) ltac:(vm_compute; reflexivity)) as (call & p & [= <-] & _ & Hp & Hc & _). by exists p.
  - destruct (Hj 1%nat ltac:(vm_compute; reflexivity)) as (call & p & [= <-] & _ & Hp & Hc & _). by exists p.
Defined.

Lemma side_effects_leave_the_store_witness :
  ∃ decision, route_automatically_v1 send_call sample_candidates batch_without_stdin sample_value =
      Some (decision, sample_candidates) ∧
    decision ∈ [Universal.PassthroughWithoutStorage; Universal.RefuseByPolicy;
                Universal.RefuseDangerousInvalidConfiguration].
Proof.
  apply (side_effects_leave_the_store send_input); [vm_compute; reflexivity|].
  right. constructor.
Defined.

Definition sample_events : list Metrics.UniversalGatewayMetricEventV1 :=
  [Metrics.Route; Metrics.Bytes 40; Metrics.Bytes 2].

Lemma metrics_exact_witness :
  snd (MetricLaws.record_all sample_events Metrics.default_metrics) = Metrics.mkMetrics 1 0 0 0 0 0 0 42 0 ∧
  Metrics.record (Metrics.Bytes 1) (Metrics.mkMetrics 1 0 0 0 0 0 0 U64_MAX 0) =
    Threw Metrics.MetricOverflow (Metrics.mkMetrics 1 0 0 0 0 0 0 U64_MAX 0).
Proof.
  destruct metrics_exact as [Hone Hall]. split.
  - rewrite (proj2 (Hall sample_events ltac:(repeat constructor; vm_compute; congruence)));
      [reflexivity|split_and!; vm_compute; split; congruence].
  - apply (Hone (Metrics.Bytes 1) (Metrics.mkMetrics 1 0 0 0 0 0 0 U64_MAX 0)).
    + split_and!; vm_compute; split; congruence.
    + by vm_compute.
    + intros (_ & _ & _ & _ & _ & _ & _ & [_ Hb] & _). vm_compute in Hb. done.
Defined.
End GatewaySample.
