(* ===== verification/TeamRequestKey.v ===== *)
(** * The portable request key

    [src/src/team_request_key.rs] without its file-system walk: the descriptor
    of a request and the bytes its digest is taken over, the namespace checks,
    the command subset with the operands it observes, the modelled environment
    and portable paths. A [String] or an [OsString] is its bytes, a [Digest] the
    32 bytes of the hash; indices of arguments are [nat]. The parsers take the
    command word and the arguments after it, whose first index is 1. *)

From Stdlib Require Import String.
From stdpp Require Import gmap.
From S2P Require Import Prelude Monad Bytes ContractTypes Canonical CanonicalSpec CanonicalParse.
From S2P Require Import CanonicalCodec RecordTypes Paths Digest PathModel Text Team.
Import Components.

Definition TEAM_REQUEST_KEY_SCHEMA_VERSION : Z := 1.
Definition REQUEST_DOMAIN : list Z := bstr "again.team-request-key.v1".
Definition TREE_DOMAIN : list Z := bstr "again.team-request-tree.v1".
Definition ENVIRONMENT_DOMAIN : list Z := bstr "again.team-request-environment.v1".
Definition MODELED_ENVIRONMENT : list string := ["LANG"; "LC_ALL"; "LC_CTYPE"; "TZ"]%string.

(** [matches!(value, "a" | "b" | ..)] and [slice.contains(&value)]. *)
Definition among (words : list string) (value : list Z) : bool :=
  any (λ word, bytes_eqb (bstr word) value) words.

(** ** Descriptors *)

Module ObservationKinds.
Inductive TeamObservationKindV1 := File | RecursiveTree.
End ObservationKinds.

Record ModeledEnvironmentV1 := mkModeled { modeled_name : list Z; value_digest : list Z }.

Record TeamObservationV1 := mkObservation {
  observation_kind : ObservationKinds.TeamObservationKindV1;
  repository_path : list Z;
  content_digest : list Z;
  observation_entries : Z;
  observation_bytes : Z;
}.

Record TeamRequestDescriptorV1 := mkDescriptor {
  schema_version : Z;
  tenant_id : list Z;
  repository_id : list Z;
  generation_id : list Z;
  repository_relative_cwd : list Z;
  normalized_argv : list (list Z);
  modeled_environment_of : list ModeledEnvironmentV1;
  observations : list TeamObservationV1;
  policy_digest : list Z;
  execution_profile_digest : list Z;
  platform_digest : list Z;
  image_digest : list Z;
}.

Record TeamRequestKeyV1 := mkRequestKey {
  request_digest : list Z;
  descriptor : TeamRequestDescriptorV1;
}.

Definition kind_tag (kind : ObservationKinds.TeamObservationKindV1) : Z :=
  match kind with ObservationKinds.File => 1 | ObservationKinds.RecursiveTree => 2 end.

Definition put_modeled (value : ModeledEnvironmentV1) : list Z :=
  put_bytes (modeled_name value) ++ value_digest value.

Definition put_observation (observation : TeamObservationV1) : list Z :=
  put_u8 (kind_tag (observation_kind observation)) ++ put_bytes (repository_path observation)
  ++ content_digest observation ++ put_u64 (observation_entries observation)
  ++ put_u64 (observation_bytes observation).

(** The hashed bytes of a descriptor. *)
Definition descriptor_bytes (d : TeamRequestDescriptorV1) : list Z :=
  put_bytes REQUEST_DOMAIN ++ put_u16 (schema_version d) ++ put_bytes (tenant_id d)
  ++ put_bytes (repository_id d) ++ put_bytes (generation_id d)
  ++ put_bytes (repository_relative_cwd d)
  ++ put_u64 (len (normalized_argv d)) ++ flat_map put_bytes (normalized_argv d)
  ++ put_u64 (len (modeled_environment_of d)) ++ flat_map put_modeled (modeled_environment_of d)
  ++ put_u64 (len (observations d)) ++ flat_map put_observation (observations d)
  ++ policy_digest d ++ execution_profile_digest d ++ platform_digest d ++ image_digest d.

(** ** Refusals *)

Module LocalOnly.
Inductive TeamLocalOnlyReason :=
| InvalidNamespace (field : string)
| InvalidGenerationId
| EmptyArgv
| NonUtf8Argument (index : nat)
| ControlCharacterArgument (index : nat)
| AbsoluteExecutable
| UnsupportedCommand (command : list Z)
| UnsupportedArgument (command : list Z) (index : nat)
| MissingOperand (command : list Z)
| TtyDependent
| NonUtf8EnvironmentName (index : nat)
| NonUtf8EnvironmentValue (name : list Z)
| UnsupportedEnvironment (name : list Z)
| DuplicateEnvironment (name : list Z)
| UnsupportedEnvironmentValue (name : list Z)
| WorkspaceNotDirectory
| WorkingDirectoryNotDirectory
| WorkingDirectoryOutsideRepository
| AbsolutePath (index : nat)
| OutsideRepository (index : nat)
| NonCanonicalPath (index : nat)
| ExcludedPath (index : nat)
| SymlinkPath (index : nat)
| MissingPath (index : nat)
| StdinDependent (index : nat)
| UnsupportedFileType (index : nat)
| NonPortableFilesystemPath
| ConcurrentFilesystemMutation
| ResourceLimit (limit : string)
| Io (operation : string) (path : list Z).
End LocalOnly.
Import LocalOnly.

(** ** Namespaces *)

Definition validate_namespace (value : list Z) (field : string) : result TeamLocalOnlyReason () :=
  let valid_first := match value with byte :: _ => is_ascii_alnum byte | [] => false end in
  if negb valid_first || (128 <? len value)
     || negb (forallb (λ byte, is_ascii_alnum byte || is_among [45; 95; 46; 58] byte) (tail value))
  then Err (InvalidNamespace field) else Ok ().

Definition validate_generation_id (value : list Z) : result TeamLocalOnlyReason () :=
  if negb (len value =? 32)
     || any (λ byte, negb (is_ascii_hexdigit byte) || is_ascii_uppercase byte) value
  then Err InvalidGenerationId else Ok ().

(** ** Arguments *)

Fixpoint portable_arguments (index : nat) (argv : list (list Z)) :
    result TeamLocalOnlyReason (list (list Z)) :=
  match argv with
  | [] => Ok []
  | value :: argv =>
    if negb (valid_utf8 value) then Err (NonUtf8Argument index)
    else if any is_control (chars value) then Err (ControlCharacterArgument index)
    else rest ← portable_arguments (S index) argv; Ok (value :: rest)
  end.

Definition portable_argv (argv : list (list Z)) : result TeamLocalOnlyReason (list (list Z)) :=
  match argv with [] => Err EmptyArgv | _ => portable_arguments 0 argv end.

Module Operands.
Inductive OperandKind := File | FileOrTree.
End Operands.

Record Operand := mkOperand { argv_index : nat; operand_kind : Operands.OperandKind }.

Section commands.
Context (command : list Z).

Definition unsupported_argument_value (index : nat) : TeamLocalOnlyReason :=
  UnsupportedArgument command index.

Definition unsupported_argument {A} (index : nat) : result TeamLocalOnlyReason A :=
  Err (unsupported_argument_value index).

(** The loops that push one operand per argument, from [index] on; [refuse] is
    the guard in front of the push. *)
Fixpoint push_operands (refuse : list Z → bool) (kind : Operands.OperandKind) (index : nat)
    (arguments : list (list Z)) : result TeamLocalOnlyReason (list Operand) :=
  match arguments with
  | [] => Ok []
  | value :: arguments =>
    if refuse value then unsupported_argument index
    else
      rest ← push_operands refuse kind (S index) arguments;
      Ok (mkOperand index kind :: rest)
  end.

Definition require_operands (operands : list Operand) : result TeamLocalOnlyReason (list Operand) :=
  match operands with [] => Err (MissingOperand command) | _ => Ok operands end.

Definition dashed (value : list Z) : bool := starts_with [45] value.

Definition file_operands_from (index : nat) (arguments : list (list Z)) (options_done : bool) :
    result TeamLocalOnlyReason (list Operand) :=
  operands ← push_operands (λ value, negb options_done
    && (dashed value || (bytes_eqb command (bstr "tail") && starts_with [43] value)))
    Operands.File index arguments;
  require_operands operands.

Definition parse_cat (arguments : list (list Z)) : result TeamLocalOnlyReason (list Operand) :=
  match arguments with
  | value :: rest =>
    if bytes_eqb value (bstr "--")
    then operands ← push_operands (λ _, false) Operands.File 2 rest; require_operands operands
    else operands ← push_operands dashed Operands.File 1 arguments; require_operands operands
  | [] => require_operands []
  end.

(** The decimal value of digits. *)
Definition decimal (digits : list Z) : Z := fold_left (λ n byte, 10 * n + (byte - 48)) digits 0.

Definition validate_count (value : list Z) : bool :=
  negb (bool_decide (value = [])) && forallb is_ascii_digit value && (decimal value <=? U64_MAX).

(** The options of [head] and [tail]: the index and the arguments after them,
    and whether a double dash ended them. *)
Fixpoint head_tail_options (index : nat) (selector_seen : bool) (arguments : list (list Z)) :
    result TeamLocalOnlyReason (nat * list (list Z) * bool) :=
  match arguments with
  | [] => Ok (index, [], false)
  | value :: rest =>
    if bytes_eqb value (bstr "--") then Ok (S index, rest, true)
    else if among ["-n"; "--lines"; "-c"; "--bytes"]%string value then
      if selector_seen then unsupported_argument index
      else match rest with
      | [] => unsupported_argument index
      | count :: rest =>
        if validate_count count then head_tail_options (S (S index)) true rest
        else unsupported_argument (S index)
      end
    else match (match strip_prefix (bstr "--lines=") value with
                | Some count => Some count
                | None => strip_prefix (bstr "--bytes=") value
                end) with
    | Some count =>
      if selector_seen || negb (validate_count count) then unsupported_argument index
      else head_tail_options (S index) true rest
    | None =>
      if dashed value then unsupported_argument index
      else if bytes_eqb command (bstr "tail") && starts_with [43] value
      then unsupported_argument index
      else Ok (index, arguments, false)
    end
  end.

Definition parse_head_tail (arguments : list (list Z)) : result TeamLocalOnlyReason (list Operand) :=
  '(index, rest, options_done) ← head_tail_options 1 false arguments;
  file_operands_from index rest options_done.

Definition parse_wc (arguments : list (list Z)) : result TeamLocalOnlyReason (list Operand) :=
  match arguments with
  | [] => Err (MissingOperand command)
  | mode :: rest =>
    if negb (among ["-c"; "--bytes"; "-l"; "--lines"]%string mode) then unsupported_argument 1
    else match rest with
    | value :: operands =>
      if bytes_eqb value (bstr "--") then file_operands_from 3 operands true
      else file_operands_from 2 rest false
    | [] => file_operands_from 2 [] false
    end
  end.

Definition safe_search_flag (value : list Z) (is_rg : bool) : bool :=
  among ["-F"; "--fixed-strings"; "-i"; "--ignore-case"; "-n"; "--line-number"; "--with-filename";
         "--no-filename"; "-v"; "--invert-match"; "-w"; "--word-regexp"; "-x"; "--line-regexp"]%string
    value
  || (negb is_rg && among ["-E"; "-h"; "-H"]%string value)
  || (is_rg && among ["--no-ignore"; "--no-messages"; "--count"; "-c"; "--sort=path"]%string value).

Record SearchOptions := mkSearch {
  search_index : nat;
  search_rest : list (list Z);
  search_done : bool;
  no_ignore : bool;
  sort_path : bool;
}.

Fixpoint search_flags (is_rg : bool) (index : nat) (no_ignore sort_path : bool)
    (arguments : list (list Z)) : result TeamLocalOnlyReason SearchOptions :=
  match arguments with
  | [] => Ok (mkSearch index [] false no_ignore sort_path)
  | value :: rest =>
    if bytes_eqb value (bstr "--") then Ok (mkSearch (S index) rest true no_ignore sort_path)
    else if negb (dashed value) then Ok (mkSearch index arguments false no_ignore sort_path)
    else if negb (safe_search_flag value is_rg) then unsupported_argument index
    else search_flags is_rg (S index) (no_ignore || bytes_eqb value (bstr "--no-ignore"))
           (sort_path || bytes_eqb value (bstr "--sort=path")) rest
  end.

Definition parse_search (arguments : list (list Z)) (is_rg : bool) :
    result TeamLocalOnlyReason (list Operand) :=
  options ← search_flags is_rg 1 false false arguments;
  if is_rg && (negb (no_ignore options) || negb (sort_path options))
  then Err (UnsupportedArgument command 0)
  else match search_rest options with
  | [] => Err (MissingOperand command)
  | _pattern :: paths =>
    operands ← push_operands (λ value, negb (search_done options) && dashed value)
                 (if is_rg then Operands.FileOrTree else Operands.File)
                 (S (search_index options)) paths;
    match paths with [] => Err (MissingOperand command) | _ => Ok operands end
  end.

Definition parse_command (arguments : list (list Z)) : result TeamLocalOnlyReason (list Operand) :=
  if is_absolute command then Err AbsoluteExecutable
  else if among ["cat"]%string command then parse_cat arguments
  else if among ["head"; "tail"]%string command then parse_head_tail arguments
  else if among ["wc"]%string command then parse_wc arguments
  else if among ["grep"]%string command then parse_search arguments false
  else if among ["rg"]%string command then parse_search arguments true
  else Err (UnsupportedCommand command).
End commands.

(** ** Environments *)

Section environments.
Context `{Blake3Hash}.

Definition digest_bytes (domain bytes : list Z) : list Z :=
  blake3_hash (put_bytes domain ++ put_bytes bytes).

Definition digest_descriptor (d : TeamRequestDescriptorV1) : list Z := blake3_hash (descriptor_bytes d).

Fixpoint insert_environment (index : nat) (values : gmap (list Z) (list Z))
    (environment : list (list Z * list Z)) :
    result TeamLocalOnlyReason (gmap (list Z) (list Z)) :=
  match environment with
  | [] => Ok values
  | (name, value) :: environment =>
    if negb (valid_utf8 name) then Err (NonUtf8EnvironmentName index)
    else if negb (among MODELED_ENVIRONMENT name) then Err (UnsupportedEnvironment name)
    else if bool_decide (is_Some (values !! name)) then Err (DuplicateEnvironment name)
    else if negb (valid_utf8 value) then Err (NonUtf8EnvironmentValue name)
    else if (4096 <? len value) || any (is_among [0; 10; 13]) (chars value)
    then Err (UnsupportedEnvironmentValue name)
    else insert_environment (S index) (<[name := digest_bytes ENVIRONMENT_DOMAIN value]> values)
           environment
  end.

Definition modeled_environment (environment : list (list Z * list Z)) :
    result TeamLocalOnlyReason (list ModeledEnvironmentV1) :=
  values ← insert_environment 0 ∅ environment;
  Ok ((λ '(name, value), mkModeled name value) <$> entries values).
End environments.

(** The exact environment of a team run: both names once, in any order. *)
Fixpoint exact_environment_loop (lang lc_all : bool) (environment : list (list Z * list Z)) : bool :=
  match environment with
  | [] => lang && lc_all
  | (name, value) :: environment =>
    if bytes_eqb name (bstr "LANG") && bytes_eqb value (bstr "C") && negb lang
    then exact_environment_loop true lc_all environment
    else if bytes_eqb name (bstr "LC_ALL") && bytes_eqb value (bstr "C") && negb lc_all
    then exact_environment_loop lang true environment
    else false
  end.

Definition is_exact_team_environment (environment : list (list Z * list Z)) : bool :=
  if negb (len environment =? 2) then false else exact_environment_loop false false environment.

(** ** Portable paths *)

Fixpoint portable_parts (parts : list Component) : result TeamLocalOnlyReason (list (list Z)) :=
  match parts with
  | [] => Ok []
  | CurDir :: parts => portable_parts parts
  | Normal value :: parts =>
    if negb (valid_utf8 value) then Err NonPortableFilesystemPath
    else if bool_decide (value = []) || contains 92 value || any is_control (chars value)
    then Err NonPortableFilesystemPath
    else rest ← portable_parts parts; Ok (value :: rest)
  | (ParentDir | RootDir) :: _ => Err WorkingDirectoryOutsideRepository
  end.

(** [is_dot] is [path == Path::new(".")], an equality of components. *)
Definition portable_components (parts : list Component) (allow_empty : bool) :
    result TeamLocalOnlyReason (list Z) :=
  names ← portable_parts parts;
  match names with
  | [] => if allow_empty || bool_decide (parts = [CurDir]) then Ok DOT else Err NonPortableFilesystemPath
  | _ => Ok (join_components names)
  end.

Definition portable_repository_path (path : list Z) (allow_empty : bool) :
    result TeamLocalOnlyReason (list Z) := portable_components (components path) allow_empty.

Definition path_reason (reason : TeamLocalOnlyReason) (index : nat) : TeamLocalOnlyReason :=
  match reason with
  | WorkingDirectoryOutsideRepository => OutsideRepository index
  | NonPortableFilesystemPath => NonCanonicalPath index
  | other => other
  end.

Definition components_excluded (parts : list Component) : bool :=
  any (λ component, match component with
    | Normal value => negb (valid_utf8 value) || starts_with DOT value
                      || bytes_eqb value (bstr ".again") || bytes_eqb value (bstr ".git")
    | _ => false
    end) parts.

Definition path_is_excluded (path : list Z) : bool := components_excluded (components path).
