(* ===== verification/Privacy.v ===== *)
(** * Publication admission

    [src/src/privacy.rs]: the sharing policy of a repository with its digest,
    the admission of a request to the remote cache and of a captured execution
    to publication, and the credential scanners. Text is its UTF-8 bytes and a
    path its bytes. [f64] is a parameter, the class [Float64]: the precision of
    its [log2] is unspecified, and only comparisons with the entropy depend on
    it. A [Digest] is the 32 bytes of the hash. *)

From Stdlib Require Import String.
From S2P Require Import Prelude Monad Bytes ContractTypes Canonical CanonicalSpec CanonicalParse.
From S2P Require Import CanonicalCodec RecordTypes Paths RecordValidation Digest PathModel Text.
From S2P Require Import Team TeamRequestKey.
Import Components.

(** The operations of [f64] the entropy uses; a literal is mantissa and decimal
    exponent, [f64_zero] the start of a sum. *)
Class Float64 := {
  f64 : Type;
  f64_of_usize : nat → f64;
  f64_literal : Z → Z → f64;
  f64_zero : f64;
  f64_add : f64 → f64 → f64;
  f64_mul : f64 → f64 → f64;
  f64_div : f64 → f64 → f64;
  f64_neg : f64 → f64;
  f64_log2 : f64 → f64;
  f64_ge : f64 → f64 → bool;
}.

Definition MAX_POLICY_OUTPUT_BYTES : Z := 16 * 1024 * 1024.
Definition MAX_ARGUMENT_COUNT : Z := 256.
Definition MAX_ARGUMENT_BYTES : Z := 64 * 1024.
Definition MAX_POLICY_PREFIXES : Z := 256.
Definition MAX_REPOSITORY_PATH_BYTES : Z := 4096.
Definition POLICY_SCHEMA_VERSION : Z := 1.
Definition CLASSIFIER_VERSION : list Z := bstr "again-publication-classifier-v1".
Definition CLASSIFIER_DOMAIN : list Z := bstr "again.publication-classifier.v1".
Definition POLICY_DOMAIN : list Z := bstr "again.repository-sharing-policy.v1".
Definition CLASSIFIER_RULE_MANIFEST : list Z :=
  bstr "utf8-required;binary-controls-denied;complete-pipe-capture-only;"
  ++ bstr "zero-exit;empty-stderr;bounded-output;relative-repository-paths;"
  ++ bstr "sealed-team-request-v1;exact-policy-binding;"
  ++ bstr "explicit-include-exclude;builtin-sensitive-paths-v2;"
  ++ bstr "pem-private-key;aws-access-key-v1;github-token-v1;bearer-v1;"
  ++ bstr "jwt-like-v1;secret-assignment-v2;high-entropy-v2;"
  ++ bstr "obvious-hash-exceptions-v2".

(** ** Data *)

Module Prefixes.
Inductive PrefixKind := Include | Exclude.
Inductive SharingPolicyError :=
| InvalidVersion | MissingIncludePrefixes | MissingExcludePrefixes | InvalidOutputLimit
| InvalidPrefix (kind : PrefixKind) (index : nat) | SensitiveIncludePrefix.
End Prefixes.
Import Prefixes.

Module PathErrors.
Inductive PathParseError := NonUtf8 | Absolute | ParentTraversal | NonCanonical.
End PathErrors.

Module Captures.
Inductive CapturedStdin := StdinClosed | StdinPipe | StdinTerminal | StdinUnknown.
Inductive CapturedStream := CompletePipe (bytes : list Z) | Terminal | StreamUnknown | StreamScannerError.
Inductive CapturedExit := Code (code : Z) | Signal | ExitUnknown.
End Captures.
Import Captures.

Record CapturedExecution := mkExecution {
  captured_stdin : CapturedStdin;
  captured_stdout : CapturedStream;
  captured_stderr : CapturedStream;
  captured_exit : CapturedExit;
}.

Module Reasons.
Inductive StreamKind := Stdin | Stdout | Stderr.
Inductive InspectionSource :=
| FromStdin | FromStdout | FromStderr | FromExitStatus | FromCwd | FromArgv (index : nat)
| FromScopedPath (index : nat).
Inductive RelativePathProblem := Absolute | ParentTraversal | NonCanonical.
Inductive CredentialKind :=
| PemPrivateKey | AwsAccessKey | GitHubToken | BearerToken | JwtLike | SecretAssignment
| HighEntropyToken.
Inductive LocalOnlyReason :=
| RequestSchemaMismatch | RequestDigestMismatch | PolicyDigestMismatch
| Unknown (input : InspectionSource) | ScannerError (input : InspectionSource)
| NonUtf8 (input : InspectionSource) | Binary (stream : StreamKind) | Tty (stream : StreamKind)
| StdinDependent | UnknownExit | NonZeroExit (code : Z) | NonEmptyStderr (bytes : Z)
| Oversize (stream : StreamKind) (bytes limit : Z)
| EmptyArgv | OversizeArgv
| InvalidRelativePath (input : InspectionSource) (problem : RelativePathProblem)
| SensitivePath (input : InspectionSource) | ExcludedPath (input : InspectionSource)
| OutsideIncludePrefixes (input : InspectionSource)
| CredentialShape (input : InspectionSource) (kind : CredentialKind).
End Reasons.
Import Reasons.

(** ** Paths of a repository *)

(** A [NormalizedRepoPath]: its components. *)
Definition NormalizedRepoPath : Type := list (list Z).

Fixpoint normal_components (parts : list Component) : result PathErrors.PathParseError NormalizedRepoPath :=
  match parts with
  | [] => Ok []
  | CurDir :: parts => normal_components parts
  | Normal value :: parts =>
    if negb (valid_utf8 value) then Err PathErrors.NonUtf8
    else if bool_decide (value = []) then Err PathErrors.NonCanonical
    else rest ← normal_components parts; Ok (value :: rest)
  | ParentDir :: _ => Err PathErrors.ParentTraversal
  | RootDir :: _ => Err PathErrors.Absolute
  end.

(** The bytes no repository path may hold: a backslash, NUL, the glob characters. *)
Definition noncanonical_byte (b : Z) : bool := is_among [92; 0; 42; 63; 91; 93; 123; 125] b.

Definition drive_prefix (raw : list Z) : bool :=
  match raw with drive :: colon :: _ => is_ascii_alphabetic drive && (colon =? 58) | _ => false end.

Definition NormalizedRepoPath_parse (path : list Z) :
    result PathErrors.PathParseError NormalizedRepoPath :=
  if bool_decide (path = []) then Err PathErrors.NonCanonical
  else if is_absolute path then Err PathErrors.Absolute
  else if negb (valid_utf8 path) then Err PathErrors.NonUtf8
  else if (MAX_REPOSITORY_PATH_BYTES <? len path) || any noncanonical_byte path || drive_prefix path
  then Err PathErrors.NonCanonical
  else normal_components (components path).

Definition is_root (self : NormalizedRepoPath) : bool :=
  match self with [] => true | _ => false end.

Fixpoint path_under (prefix path : NormalizedRepoPath) : bool :=
  match prefix, path with
  | [], _ => true
  | name :: prefix, component :: path => bytes_eqb name component && path_under prefix path
  | _ :: _, [] => false
  end.

Definition canonical (self : NormalizedRepoPath) : list Z :=
  if is_root self then DOT else join_components self.

Definition normalize_candidate_path (path : list Z) (input : InspectionSource) :
    result LocalOnlyReason NormalizedRepoPath :=
  map_err (λ error, match error with
    | PathErrors.NonUtf8 => NonUtf8 input
    | PathErrors.Absolute => InvalidRelativePath input Absolute
    | PathErrors.ParentTraversal => InvalidRelativePath input ParentTraversal
    | PathErrors.NonCanonical => InvalidRelativePath input NonCanonical
    end) (NormalizedRepoPath_parse path).

Definition SENSITIVE_STEMS : list string :=
  ["credential"; "credentials"; "key"; "keys"; "auth"; "authorization"; "secret"; "secrets"]%string.

Definition is_sensitive_component (component : list Z) : bool :=
  let lower := to_ascii_lowercase component in
  if starts_with (bstr ".env") lower then true
  else if among [".netrc"; ".npmrc"; ".pypirc"; "id_rsa"; "id_dsa"; "id_ecdsa"; "id_ed25519"]%string
            lower then true
  else
    let stem := trim_start_matches [46] lower in
    any (λ word, bytes_eqb stem (bstr word)
      || match strip_prefix (bstr word) stem with
         | Some (b :: _) => is_among [46; 45; 95] b
         | _ => false
         end) SENSITIVE_STEMS
    || any (λ word, among SENSITIVE_STEMS word || bytes_eqb word (bstr "oauth"))
         (split_any [46; 45; 95] stem).

Definition path_has_sensitive_component (path : NormalizedRepoPath) : bool :=
  any is_sensitive_component path.

(** ** Sharing policies *)

Record RepositorySharingPolicy := mkSharingPolicy {
  sharing_version : list Z;
  include_prefixes : list NormalizedRepoPath;
  exclude_prefixes : list NormalizedRepoPath;
  max_output_bytes : Z;
  sharing_digest : list Z;
}.

Definition path_compare : NormalizedRepoPath → NormalizedRepoPath → comparison :=
  list_compare bytes_compare.

Fixpoint normalize_prefixes (kind : PrefixKind) (index : nat) (normalized : list NormalizedRepoPath)
    (prefixes : list (list Z)) : result SharingPolicyError (list NormalizedRepoPath) :=
  match prefixes with
  | [] => Ok normalized
  | prefix :: prefixes =>
    path ← map_err (λ _, InvalidPrefix kind index) (NormalizedRepoPath_parse prefix);
    normalize_prefixes kind (S index) (btree_insert path_compare path normalized) prefixes
  end.

Definition normalize_policy_prefixes (prefixes : list (list Z)) (kind : PrefixKind) :
    result SharingPolicyError (list NormalizedRepoPath) :=
  if MAX_POLICY_PREFIXES <? len prefixes then Err (InvalidPrefix kind 0)
  else normalize_prefixes kind 0 [] prefixes.

Definition validate_policy_version (version : list Z) : result SharingPolicyError () :=
  if bool_decide (version = []) || (64 <? len version)
     || negb (forallb (λ byte, is_ascii_alnum byte || is_among [46; 95; 45] byte) version)
  then Err InvalidVersion else Ok ().

(** Length-prefixed bytes, big-endian. *)
Definition put_be (bytes : list Z) : list Z := be_bytes 8 (len bytes) ++ bytes.

Definition put_paths (paths : list NormalizedRepoPath) : list Z :=
  be_bytes 8 (len paths) ++ flat_map (λ path, put_be (canonical path)) paths.

Section admission.
Context `{Blake3Hash}.

Definition publication_classifier_digest_v1 : list Z :=
  blake3_hash (put_be CLASSIFIER_DOMAIN ++ put_be CLASSIFIER_VERSION ++ put_be CLASSIFIER_RULE_MANIFEST).

Definition classifier_digest : list Z := publication_classifier_digest_v1.

(** The hashed bytes of a policy. *)
Definition policy_bytes (version : list Z) (includes excludes : list NormalizedRepoPath)
    (max_output_bytes : Z) : list Z :=
  put_be POLICY_DOMAIN ++ be_bytes 2 POLICY_SCHEMA_VERSION ++ classifier_digest ++ put_be version
  ++ be_bytes 8 max_output_bytes ++ put_paths includes ++ put_paths excludes.

Definition sharing_policy_digest (version : list Z) (includes excludes : list NormalizedRepoPath)
    (max_output_bytes : Z) : list Z :=
  blake3_hash (policy_bytes version includes excludes max_output_bytes).

Definition RepositorySharingPolicy_new (version : list Z) (includes excludes : list (list Z))
    (max_output_bytes : Z) : result SharingPolicyError RepositorySharingPolicy :=
  _ ← validate_policy_version version;
  if bool_decide (includes = []) then Err MissingIncludePrefixes
  else if bool_decide (excludes = []) then Err MissingExcludePrefixes
  else if (max_output_bytes =? 0) || (MAX_POLICY_OUTPUT_BYTES <? max_output_bytes)
  then Err InvalidOutputLimit
  else
    includes ← normalize_policy_prefixes includes Include;
    excludes ← normalize_policy_prefixes excludes Exclude;
    if any path_has_sensitive_component includes then Err SensitiveIncludePrefix
    else Ok (mkSharingPolicy version includes excludes max_output_bytes
               (sharing_policy_digest version includes excludes max_output_bytes)).

(** ** Scanners *)

Definition is_token_byte (byte : Z) : bool :=
  is_ascii_alnum byte || is_among [95; 45; 46; 43; 47; 61] byte.
Definition is_identifier_byte (byte : Z) : bool := is_ascii_alnum byte || (byte =? 95).
Definition is_ascii_uppercase_or_digit (byte : Z) : bool :=
  is_ascii_uppercase byte || is_ascii_digit byte.

(** The starts of a substring, in order. *)
Definition find_all (haystack needle : list Z) : list nat :=
  List.filter (λ start, negb (bool_decide (needle = [])) && (len needle <=? len haystack)
                        && starts_with needle (drop start haystack))
    (seq 0 (S (length haystack - length needle))).

Definition find_subslice (haystack needle : list Z) : option nat := head (find_all haystack needle).

(** Token ranges: the loops of the iterator; each round passes a byte, so the
    length bounds the rounds. *)
Fixpoint token_ranges_from (fuel : nat) (bytes : list Z) (cursor : nat) : list (nat * nat) :=
  match fuel with
  | O => []
  | S fuel =>
    let start := advance (λ b, negb (is_token_byte b)) bytes cursor in
    if (start =? length bytes)%nat then []
    else
      let finish := advance is_token_byte bytes start in
      (start, finish) :: token_ranges_from fuel bytes finish
  end.

Definition token_ranges (bytes : list Z) : list (nat * nat) :=
  token_ranges_from (S (length bytes)) bytes 0.

Definition slice (bytes : list Z) (start finish : nat) : list Z := take (finish - start) (drop start bytes).

Definition byte_before (bytes : list Z) (start : nat) : option Z :=
  match start with O => None | S before => bytes !! before end.

Definition has_token_boundaries (bytes : list Z) (start finish : nat) : bool :=
  match byte_before bytes start with Some b => negb (is_identifier_byte b) | None => true end
  && match bytes !! finish with Some b => negb (is_identifier_byte b) | None => true end.

Definition is_placeholder (value : list Z) : bool :=
  let value := to_ascii_lowercase (trim_matches [39; 34; 60; 62; 91; 93] value) in
  bool_decide (value = [])
  || among ["none"; "null"; "redacted"; "masked"; "placeholder"; "changeme"]%string value
  || starts_with (bstr "${") value
  || starts_with (bstr "{{") value.

Definition SECRET_FLAGS : list string :=
  ["password"; "passwd"; "secret"; "token"; "api_key"; "apikey"; "access_key"; "private_key";
   "client_secret"; "authorization"; "auth"; "credential"; "credentials"; "key"; "keys"]%string.
Definition SECRET_SUFFIXES : list string :=
  ["_password"; "_passwd"; "_secret"; "_token"; "_api_key"; "_access_key"; "_private_key";
   "_client_secret"; "_authorization"; "_auth"; "_credential"; "_credentials"; "_key"; "_keys"]%string.

Definition is_secret_flag (argument : list Z) : bool :=
  if negb (starts_with [45] argument) then false
  else
    let trimmed := trim_start_matches [45] argument in
    let name := match split_once 61 trimmed with Some (name, _) => name | None => trimmed end in
    let flag := to_ascii_lowercase (replace_byte 45 95 name) in
    among SECRET_FLAGS flag || any (λ suffix, ends_with (bstr suffix) flag) SECRET_SUFFIXES.

Definition contains_pem_private_key (text : list Z) : bool :=
  let begin := bstr "-----BEGIN " in
  any (λ offset,
    let remaining := drop (offset + length begin) text in
    let line_end := Nat.min (run_length (λ b, negb (is_among [10; 13] b)) remaining) 80 in
    match find_subslice (take line_end remaining) (bstr "PRIVATE KEY-----") with
    | Some _ => true
    | None => false
    end) (find_all text begin).

Definition AWS_PREFIXES : list string :=
  ["AKIA"; "ASIA"; "AIDA"; "AROA"; "AIPA"; "ANPA"; "ANVA"; "ASCA"]%string.

Definition contains_aws_access_key (text : list Z) : bool :=
  if len text <? 20 then false
  else any (λ start,
    let token := slice text start (start + 20) in
    any (λ prefix, starts_with (bstr prefix) token) AWS_PREFIXES
    && forallb is_ascii_uppercase_or_digit token
    && has_token_boundaries text start (start + 20)) (seq 0 (S (length text - 20))).

Definition GITHUB_PREFIXES : list (string * nat) :=
  [("ghp_", 30%nat); ("gho_", 30%nat); ("ghu_", 30%nat); ("ghs_", 30%nat); ("ghr_", 30%nat);
   ("github_pat_", 20%nat)]%string.

Definition contains_github_token (text : list Z) : bool :=
  any (λ '(prefix, minimum_tail),
    any (λ start,
      let tail_start := (start + length (bstr prefix))%nat in
      let finish := advance is_identifier_byte text tail_start in
      (minimum_tail <=? finish - tail_start)%nat && has_token_boundaries text start finish)
      (find_all text (bstr prefix))) GITHUB_PREFIXES.

Definition contains_bearer_token (text : list Z) : bool :=
  let lower := to_ascii_lowercase text in
  any (λ start,
    if match byte_before lower start with Some b => is_ascii_alnum b | None => false end then false
    else
      let cursor := (start + 6)%nat in
      if negb match text !! cursor with Some b => is_ascii_whitespace b | None => false end then false
      else
        let cursor := advance is_ascii_whitespace text cursor in
        (8 <=? run_length is_token_byte (drop cursor text))%nat)
    (find_all lower (bstr "bearer")).

Definition jwt_byte (byte : Z) : bool := is_ascii_alnum byte || is_among [95; 45] byte.

Definition is_jwt (token : list Z) : bool :=
  match split_on 46 token with
  | [header; payload; signature] =>
    starts_with (bstr "eyJ") header && (8 <=? len header) && (8 <=? len payload)
    && (8 <=? len signature) && forallb (forallb jwt_byte) [header; payload; signature]
  | _ => false
  end.

Definition contains_jwt_like (text : list Z) : bool :=
  any (λ '(start, finish), is_jwt (slice text start finish)) (token_ranges text).

Definition SECRET_KEYS : list string :=
  ["password"; "passwd"; "secret"; "token"; "api_key"; "apikey"; "access_key"; "private_key";
   "client_secret"; "authorization"; "aws_secret_access_key"]%string.

Definition space_or_quote (byte : Z) : bool := is_ascii_whitespace byte || is_among [39; 34] byte.
Definition ends_value (byte : Z) : bool := is_ascii_whitespace byte || is_among [39; 34; 44; 59] byte.

(** A key at [start]: whether a value that is no placeholder is assigned to it. *)
Definition assigns_secret (text : list Z) (start width : nat) : bool :=
  let lower := to_ascii_lowercase text in
  if match byte_before lower start with Some b => is_ascii_alnum b | None => false end then false
  else
    let cursor := (start + width)%nat in
    if match lower !! cursor with Some b => is_ascii_alnum b | None => false end then false
    else
      let cursor := advance space_or_quote text cursor in
      if negb match text !! cursor with Some b => is_among [61; 58] b | None => false end then false
      else
        let cursor := advance space_or_quote text (S cursor) in
        let finish := advance (λ b, negb (ends_value b)) text cursor in
        (4 <=? finish - cursor)%nat && negb (is_placeholder (slice text cursor finish)).

Definition contains_secret_assignment (text : list Z) : bool :=
  any (λ key, any (λ start, assigns_secret text start (length (bstr key)))
                (find_all (to_ascii_lowercase text) (bstr key))) SECRET_KEYS.

Definition looks_like_uuid (token : list Z) : bool :=
  (len token =? 36)
  && forallb (λ index, bool_decide (token !! index = Some 45)) [8; 13; 18; 23]%nat
  && forallb (λ index, bool_decide (index ∈ [8; 13; 18; 23]%nat)
                       || match token !! index with Some b => is_ascii_hexdigit b | None => true end)
       (seq 0 (length token)).

Definition is_obvious_hash (all : list Z) (start : nat) (token : list Z) : bool :=
  if any (λ prefix, starts_with (bstr prefix) (to_ascii_lowercase token))
       ["sha256-"; "sha384-"; "sha512-"; "blake3-"]%string then true
  else if looks_like_uuid token then true
  else
    let prior := slice all (start - 8) start in
    any (λ prefix, ends_with (bstr prefix) prior)
      ["sha256:"; "sha384:"; "sha512:"; "blake3:"; "h1:"]%string.

Definition entropy_classes (token : list Z) : nat :=
  (Nat.b2n (any is_ascii_lowercase token) + Nat.b2n (any is_ascii_uppercase token)
   + Nat.b2n (any is_ascii_digit token) + Nat.b2n (any (λ b, negb (is_ascii_alnum b)) token))%nat.

Section entropy.
Context `{Float64}.

(** The counts of the 256 byte values, those that occur. *)
Definition byte_counts (token : list Z) : list nat :=
  List.filter (λ count, negb (count =? 0)%nat)
    ((λ value, count (λ b, b =? Z.of_nat value) token) <$> seq 0 256).

Definition shannon_entropy (token : list Z) : f64 :=
  let length := f64_of_usize (length token) in
  fold_left f64_add
    ((λ count, let probability := f64_div (f64_of_usize count) length in
               f64_mul (f64_neg probability) (f64_log2 probability)) <$> byte_counts token)
    f64_zero.

Definition is_high_entropy (text : list Z) (start : nat) (token : list Z) : bool :=
  if (len token <? 32) || (512 <? len token) || is_obvious_hash text start token then false
  else
    let entropy := shannon_entropy token in
    if forallb is_ascii_hexdigit token then f64_ge entropy (f64_literal 32 (-1))
    else (3 <=? entropy_classes token)%nat && f64_ge entropy (f64_literal 42 (-1)).

Definition contains_high_entropy_token (text : list Z) : bool :=
  any (λ '(start, finish), is_high_entropy text start (slice text start finish)) (token_ranges text).

Definition detect_credential_shape (text : list Z) : option CredentialKind :=
  if contains_pem_private_key text then Some PemPrivateKey
  else if contains_aws_access_key text then Some AwsAccessKey
  else if contains_github_token text then Some GitHubToken
  else if contains_bearer_token text then Some BearerToken
  else if contains_jwt_like text then Some JwtLike
  else if contains_secret_assignment text then Some SecretAssignment
  else if contains_high_entropy_token text then Some HighEntropyToken
  else None.

(** ** Evaluation *)

Definition binary_control (ch : Z) : bool := is_control ch && negb (is_among [10; 13; 9] ch).

Definition inspect_text (bytes : list Z) (input : InspectionSource) : result LocalOnlyReason () :=
  if negb (valid_utf8 bytes) then Err (NonUtf8 input)
  else if any binary_control (chars bytes)
  then Err (Binary match input with FromStderr => Stderr | _ => Stdout end)
  else match detect_credential_shape bytes with
  | Some kind => Err (CredentialShape input kind)
  | None => Ok ()
  end.

Definition complete_stream_bytes (stream : CapturedStream) (kind : StreamKind) :
    result LocalOnlyReason (list Z) :=
  let input := match kind with Stdin => FromStdin | Stdout => FromStdout | Stderr => FromStderr end in
  match stream with
  | CompletePipe bytes => Ok bytes
  | Terminal => Err (Tty kind)
  | StreamUnknown => Err (Unknown input)
  | StreamScannerError => Err (ScannerError input)
  end.

Definition check_output_size (bytes : list Z) (stream : StreamKind) (limit : Z) :
    result LocalOnlyReason () :=
  if limit <? len bytes then Err (Oversize stream (len bytes) limit) else Ok ().

Definition evaluate_execution (policy : RepositorySharingPolicy) (execution : CapturedExecution) :
    result LocalOnlyReason () :=
  _ ← match captured_stdin execution with
      | StdinClosed => Ok ()
      | StdinPipe => Err StdinDependent
      | StdinTerminal => Err (Tty Stdin)
      | StdinUnknown => Err (Unknown FromStdin)
      end;
  _ ← match captured_exit execution with
      | Code code => if code =? 0 then Ok () else Err (NonZeroExit code)
      | Signal | ExitUnknown => Err UnknownExit
      end;
  stdout ← complete_stream_bytes (captured_stdout execution) Stdout;
  stderr ← complete_stream_bytes (captured_stderr execution) Stderr;
  _ ← check_output_size stdout Stdout (max_output_bytes policy);
  _ ← check_output_size stderr Stderr (max_output_bytes policy);
  if negb (bool_decide (stderr = [])) then Err (NonEmptyStderr (len stderr)) else Ok ().

Definition check_path_safety (policy : RepositorySharingPolicy) (path : NormalizedRepoPath)
    (input : InspectionSource) (allow_root_context : bool) : result LocalOnlyReason () :=
  if path_has_sensitive_component path then Err (SensitivePath input)
  else if any (λ prefix, path_under prefix path) (exclude_prefixes policy)
  then Err (ExcludedPath input)
  else if negb allow_root_context && negb (any (λ prefix, path_under prefix path) (include_prefixes policy))
  then Err (OutsideIncludePrefixes input)
  else Ok ().

Fixpoint evaluate_scoped (policy : RepositorySharingPolicy) (index : nat) (paths : list (list Z)) :
    result LocalOnlyReason () :=
  match paths with
  | [] => Ok ()
  | path :: paths =>
    let source := FromScopedPath index in
    path ← normalize_candidate_path path source;
    _ ← check_path_safety policy path source false;
    evaluate_scoped policy (S index) paths
  end.

Definition evaluate_paths (policy : RepositorySharingPolicy) (cwd : list Z)
    (scoped_paths : list (list Z)) : result LocalOnlyReason () :=
  cwd ← normalize_candidate_path cwd FromCwd;
  _ ← check_path_safety policy cwd FromCwd (is_root cwd);
  evaluate_scoped policy 0 scoped_paths.

(** The loop that bounds the arguments; [total] are the bytes so far. *)
Fixpoint bound_arguments (index : nat) (total : Z) (argv : list (list Z)) : result LocalOnlyReason () :=
  match argv with
  | [] => Ok ()
  | value :: argv =>
    if negb (valid_utf8 value) then Err (NonUtf8 (FromArgv index))
    else
      total ← ok_or (u64_checked_add total (len value)) OversizeArgv;
      if (MAX_ARGUMENT_BYTES <? total) || contains 0 value then Err OversizeArgv
      else bound_arguments (S index) total argv
  end.

Fixpoint check_flag_values (index : nat) (values : list (list Z)) : result LocalOnlyReason () :=
  match values with
  | flag :: ((value :: _) as rest) =>
    if is_secret_flag flag && negb (is_placeholder value)
    then Err (CredentialShape (FromArgv index) SecretAssignment)
    else check_flag_values (S index) rest
  | _ => Ok ()
  end.

Definition assigned_flag (value : list Z) : bool :=
  match split_once 61 value with
  | Some (flag, assigned) => is_secret_flag flag && negb (is_placeholder assigned)
  | None => false
  end.

Fixpoint check_assigned_flags (index : nat) (values : list (list Z)) : result LocalOnlyReason () :=
  match values with
  | [] => Ok ()
  | value :: values =>
    if assigned_flag value then Err (CredentialShape (FromArgv index) SecretAssignment)
    else check_assigned_flags (S index) values
  end.

Fixpoint inspect_arguments (index : nat) (values : list (list Z)) : result LocalOnlyReason () :=
  match values with
  | [] => Ok ()
  | value :: values =>
    _ ← inspect_text value (FromArgv index);
    inspect_arguments (S index) values
  end.

Definition evaluate_argv (argv : list (list Z)) : result LocalOnlyReason () :=
  if bool_decide (argv = []) then Err EmptyArgv
  else if MAX_ARGUMENT_COUNT <? len argv then Err OversizeArgv
  else
    _ ← bound_arguments 0 0 argv;
    _ ← check_flag_values 0 argv;
    _ ← check_assigned_flags 0 argv;
    _ ← inspect_arguments 0 argv;
    match detect_credential_shape (join_with 32 argv) with
    | Some kind => Err (CredentialShape (FromArgv 0) kind)
    | None => Ok ()
    end.

(** ** Admission *)

Record RemoteRequestAdmissionV1 := mkAdmission {
  admitted_request_key : list Z;
  admitted_policy_digest : list Z;
  admitted_classifier_digest : list Z;
}.

Definition admission_matches (self : RemoteRequestAdmissionV1) (policy : RepositorySharingPolicy)
    (request : TeamRequestKeyV1) : bool :=
  bytes_eqb (admitted_request_key self) (request_digest request)
  && bytes_eqb (admitted_policy_digest self) (sharing_digest policy)
  && bytes_eqb (admitted_classifier_digest self) publication_classifier_digest_v1.

Definition check_binding (policy : RepositorySharingPolicy) (request : TeamRequestKeyV1) :
    result LocalOnlyReason () :=
  if negb (schema_version (descriptor request) =? TEAM_REQUEST_KEY_SCHEMA_VERSION)
  then Err RequestSchemaMismatch
  else if negb (bytes_eqb (policy_digest (descriptor request)) (sharing_digest policy))
  then Err PolicyDigestMismatch
  else Ok ().

Definition admit_remote_request_v1 (policy : RepositorySharingPolicy) (request : TeamRequestKeyV1) :
    result LocalOnlyReason RemoteRequestAdmissionV1 :=
  _ ← check_binding policy request;
  let d := descriptor request in
  _ ← evaluate_paths policy (repository_relative_cwd d) (repository_path <$> observations d);
  _ ← evaluate_argv (normalized_argv d);
  Ok (mkAdmission (request_digest request) (sharing_digest policy) publication_classifier_digest_v1).

Record PublishableResult := mkPublishable {
  publishable_privacy : PrivacyMetadata;
  publishable_classifier_digest : list Z;
  publishable_policy_digest : list Z;
}.

Definition evaluate_derived_facts (policy : RepositorySharingPolicy) (cwd : list Z)
    (argv scoped_paths : list (list Z)) (execution : CapturedExecution) :
    result LocalOnlyReason PublishableResult :=
  _ ← evaluate_execution policy execution;
  _ ← evaluate_paths policy cwd scoped_paths;
  _ ← evaluate_argv argv;
  stdout ← complete_stream_bytes (captured_stdout execution) Stdout;
  _ ← inspect_text stdout FromStdout;
  Ok (mkPublishable (mkPrivacy Internal Repository false) classifier_digest (sharing_digest policy)).

Definition PublishableResult_evaluate (policy : RepositorySharingPolicy) (request : TeamRequestKeyV1)
    (execution : CapturedExecution) : result LocalOnlyReason PublishableResult :=
  _ ← check_binding policy request;
  let d := descriptor request in
  evaluate_derived_facts policy (repository_relative_cwd d) (normalized_argv d)
    (repository_path <$> observations d) execution.
End entropy.
End admission.
