(* ===== verification/PrivacyTheorems.v ===== *)
(** * Credential shapes and publication admission

    What each scanner of [Privacy] looks for, as a decomposition of the text,
    and that it finds exactly that; what the path and argument checks accept.
    The second part holds the properties of admission. *)

From Stdlib Require Import String Sorting.Sorted.
From S2P Require Import Prelude Monad Bytes ContractTypes Canonical CanonicalSpec CanonicalParse.
From S2P Require Import CanonicalCodec RecordTypes Paths RecordValidation Digest.
From S2P Require Import IdentityRoundTrip TreeSpec PathModel PolicyTheorems Text Team TeamLaws.
From S2P Require Import TeamRequestKey Privacy.
Import Components Prefixes Captures Reasons.

(** ** Edges *)

(** The byte at the edge of a part is not of a class, if there is one. *)
Definition ends_without (p : Z → bool) (l : list Z) : Prop := ∀ b, list.last l = Some b → p b = false.
Definition starts_without (p : Z → bool) (l : list Z) : Prop := ∀ b, head l = Some b → p b = false.

Abbreviation all p l := (Forall (λ b, p b = true) l) (only parsing).

Lemma any_exists {A} (p : A → bool) l : any p l = true ↔ ∃ x, x ∈ l ∧ p x = true.
Proof.
  rewrite any_true. split.
  - intros (i & x & Hi & Hp). exists x. split; [by eapply list_elem_of_lookup_2|done].
  - intros (x & [i Hi]%list_elem_of_lookup & Hp). eauto.
Qed.

Lemma forallb_Forall (p : Z → bool) l : forallb p l = true ↔ all p l.
Proof.
  rewrite forallb_forall, list.Forall_forall. split; intros Hl x Hx; apply Hl; by apply list_elem_of_In.
Qed.

Lemma lookup_at_head (before rest : list Z) : (before ++ rest) !! length before = head rest.
Proof. rewrite lookup_app_r by lia. rewrite Nat.sub_diag. by destruct rest. Qed.

Lemma byte_before_last (before rest : list Z) : byte_before (before ++ rest) (length before) = list.last before.
Proof.
  destruct before as [|b before _] using rev_ind; [done|]. rewrite length_app, Nat.add_1_r. simpl.
  rewrite last_snoc, lookup_app_l by (rewrite length_app; simpl; lia).
  by rewrite lookup_app_r, Nat.sub_diag by lia.
Qed.

Lemma starts_with_iff p l : starts_with p l = true ↔ ∃ rest, l = p ++ rest.
Proof.
  unfold starts_with. destruct (strip_prefix p l) as [k|] eqn:Hs.
  - apply strip_prefix_Some in Hs. naive_solver.
  - split; [done|]. intros [rest Hr]. apply strip_prefix_Some in Hr. congruence.
Qed.

(** ** Substrings *)

Lemma elem_of_find_all haystack needle start :
  start ∈ find_all haystack needle ↔
  needle ≠ [] ∧ ∃ before after, haystack = before ++ needle ++ after ∧ length before = start.
Proof.
  unfold find_all. rewrite list_elem_of_In, filter_In, <- list_elem_of_In, elem_of_seq.
  rewrite !andb_true_iff, negb_true_iff, bool_decide_eq_false, Z.leb_le, starts_with_iff. unfold len. split.
  - intros (Hs & (Hn & Hl) & rest & Hr). split; [done|]. exists (take start haystack), rest.
    rewrite <- Hr, take_drop, length_take. split; [done|lia].
  - intros (Hn & before & after & -> & <-). rewrite !length_app. split; [lia|].
    split; [split; [done|lia]|]. exists after. by rewrite drop_app_length.
Qed.

Lemma any_find_all p haystack needle : needle ≠ [] →
  any p (find_all haystack needle) = true ↔
  ∃ before after, haystack = before ++ needle ++ after ∧ p (length before) = true.
Proof.
  intros Hn. rewrite any_exists. setoid_rewrite elem_of_find_all. split.
  - intros (x & (_ & before & after & -> & <-) & Hp). eauto.
  - intros (before & after & -> & Hp). eauto 8.
Qed.

(** ** Tokens *)

Definition isolated (p : Z → bool) (text before token after : list Z) : Prop :=
  text = before ++ token ++ after ∧ ends_without p before ∧ starts_without p after.

Lemma advance_spec p bytes cursor (next := advance p bytes cursor) :
  (cursor <= length bytes)%nat →
  (cursor <= next <= length bytes)%nat ∧
  (∀ i b, (cursor <= i < next)%nat → bytes !! i = Some b → p b = true) ∧
  (∀ b, bytes !! next = Some b → p b = false).
Proof.
  intros Hc. unfold next, advance. destruct (run_length_split p (drop cursor bytes)) as (Ha & Hh & Hl).
  rewrite length_drop in Hl. split; [lia|]. split.
  - intros i b Hi Hb. rewrite list.Forall_forall in Ha. apply Ha, list_elem_of_lookup.
    exists (i - cursor)%nat. apply lookup_take_Some. rewrite lookup_drop.
    split; [|lia]. by replace (cursor + (i - cursor))%nat with i by lia.
  - intros b Hb. apply Hh. rewrite drop_drop.
    rewrite <- (Nat.add_0_r (cursor + _)) in Hb. rewrite <- lookup_drop in Hb.
    by rewrite head_lookup.
Qed.

(** A maximal run from [s] to [e]. *)
Definition token_at (bytes : list Z) (s e : nat) : Prop :=
  (s < e <= length bytes)%nat ∧
  (∀ i b, (s <= i < e)%nat → bytes !! i = Some b → is_token_byte b = true) ∧
  (∀ b, byte_before bytes s = Some b → is_token_byte b = false) ∧
  (∀ b, bytes !! e = Some b → is_token_byte b = false).

(** A round of the iterator finds the first run at or after a cursor that is not
    inside a run. *)
Lemma token_round bytes cursor (start := advance (λ b, negb (is_token_byte b)) bytes cursor)
    (finish := advance is_token_byte bytes start) :
  (cursor <= length bytes)%nat →
  (∀ b c, bytes !! cursor = Some b → is_token_byte b = true → byte_before bytes cursor = Some c →
          is_token_byte c = false) →
  (start = length bytes ∧ ∀ s e, token_at bytes s e → (s < cursor)%nat) ∨
  (start ≠ length bytes ∧ (cursor < finish <= length bytes)%nat ∧ token_at bytes start finish ∧
   (∀ b, bytes !! finish = Some b → is_token_byte b = false) ∧
   ∀ s e, token_at bytes s e → (cursor <= s)%nat → (s = start ∧ e = finish) ∨ (finish <= s)%nat).
Proof.
  intros Hc Hin.
  destruct (advance_spec (λ b, negb (is_token_byte b)) bytes cursor Hc) as (Hs & Hskip & Hat).
  fold start in Hs, Hskip, Hat.
  assert (∀ s e, token_at bytes s e → (cursor <= s)%nat → (start <= s)%nat) as Hge.
  { intros s e (Hse & Ht & _) Hcs. destruct (decide (start <= s)%nat) as [?|Hlt]; [done|].
    destruct (lookup_lt_is_Some_2 bytes s) as [b Hb]; [lia|].
    specialize (Hskip s b ltac:(lia) Hb). rewrite (Ht s b ltac:(lia) Hb) in Hskip. done. }
  destruct (decide (start = length bytes)) as [He|He].
  { left. split; [done|]. intros s e Ht. destruct (decide (s < cursor)%nat) as [?|Hn]; [done|].
    specialize (Hge s e Ht ltac:(lia)). destruct Ht as [? _]. lia. }
  right. split; [done|].
  destruct (advance_spec is_token_byte bytes start) as (Hf & Hrun & Hend); [lia|].
  fold finish in Hf, Hrun, Hend.
  destruct (lookup_lt_is_Some_2 bytes start) as [b Hb]; [lia|].
  pose proof (Hat b Hb) as Hbt. apply negb_false_iff in Hbt.
  assert (start ≠ finish) as Hne by (intros Heq; rewrite <- Heq in Hend; rewrite (Hend b Hb) in Hbt; done).
  split; [lia|]. split; [|split; [done|]].
  - split; [lia|]. split; [done|]. split; [|done]. intros c Hcb.
    destruct (decide (start = cursor)) as [Heq|Hneq].
    + rewrite Heq in Hb, Hcb. by eapply Hin.
    + unfold byte_before in Hcb. destruct start as [|start']; [done|].
      apply negb_true_iff. apply (Hskip start' c); [lia|done].
  - intros s e Ht Hcs. pose proof (Hge s e Ht Hcs) as Hss.
    destruct Ht as (Hse & Htok & Hbef & Hafter).
    destruct (decide (s = start)) as [->|Hns].
    + left. split; [done|]. destruct (Nat.lt_trichotomy e finish) as [Hlt|[?|Hgt]]; [|done|].
      * destruct (lookup_lt_is_Some_2 bytes e) as [c Hce]; [lia|].
        pose proof (Hafter c Hce) as Hx. rewrite (Hrun e c ltac:(lia) Hce) in Hx. done.
      * destruct (lookup_lt_is_Some_2 bytes finish) as [c Hce]; [lia|].
        specialize (Htok finish c ltac:(lia) Hce). rewrite (Hend c Hce) in Htok. done.
    + right. destruct (decide (finish <= s)%nat) as [?|Hlt]; [done|].
      destruct s as [|s']; [lia|]. destruct (lookup_lt_is_Some_2 bytes s') as [c Hcs']; [lia|].
      specialize (Hbef c Hcs'). rewrite (Hrun s' c ltac:(lia) Hcs') in Hbef. done.
Qed.

Lemma elem_of_token_ranges_from fuel bytes cursor s e :
  (cursor <= length bytes)%nat → (length bytes - cursor < fuel)%nat →
  (∀ b c, bytes !! cursor = Some b → is_token_byte b = true → byte_before bytes cursor = Some c →
          is_token_byte c = false) →
  (s, e) ∈ token_ranges_from fuel bytes cursor ↔ token_at bytes s e ∧ (cursor <= s)%nat.
Proof.
  revert cursor; induction fuel as [|fuel IH]; intros cursor Hc Hf Hin; [lia|].
  cbn [token_ranges_from]. destruct (token_round bytes cursor Hc Hin)
    as [[He Hnone]|(Hne & Hfin & Htok & Hend & Hrest)].
  - rewrite He, Nat.eqb_refl. split; [by intros ?%not_elem_of_nil|].
    intros [Ht Hs]. specialize (Hnone s e Ht). lia.
  - rewrite (proj2 (Nat.eqb_neq _ _) Hne), elem_of_cons, IH; [|lia..|].
    + split.
      * intros [[= -> ->]|[Ht Hs]]; [split; [done|]|split; [done|lia]].
        destruct (advance_spec (λ b, negb (is_token_byte b)) bytes cursor Hc) as [? _]. lia.
      * intros [Ht Hs]. destruct (Hrest s e Ht Hs) as [[-> ->]|?]; [by left|by right].
    + intros b c Hb Htb _. rewrite (Hend b Hb) in Htb. done.
Qed.

Lemma elem_of_token_ranges bytes s e : (s, e) ∈ token_ranges bytes ↔ token_at bytes s e.
Proof.
  unfold token_ranges. rewrite elem_of_token_ranges_from by (try done; lia).
  split; [by intros [? _]|]. intros Ht. split; [done|lia].
Qed.

Lemma token_at_isolated bytes before token after :
  isolated is_token_byte bytes before token after → token ≠ [] → all is_token_byte token →
  token_at bytes (length before) (length before + length token).
Proof.
  intros (-> & Hb & Ha) Hn Ht. split; [|split; [|split]].
  - rewrite !length_app. destruct token; [done|]. simpl. lia.
  - intros i b Hi Hx. rewrite lookup_app_r, lookup_app_l in Hx by lia.
    rewrite list.Forall_forall in Ht. by eapply Ht, list_elem_of_lookup_2.
  - intros b. rewrite byte_before_last. apply Hb.
  - intros b. rewrite app_assoc, <- length_app, lookup_at_head. apply Ha.
Qed.

Lemma isolated_of_token_at bytes s e : token_at bytes s e →
  isolated is_token_byte bytes (take s bytes) (slice bytes s e) (drop e bytes) ∧
  slice bytes s e ≠ [] ∧ all is_token_byte (slice bytes s e) ∧ length (take s bytes) = s.
Proof.
  intros (Hse & Ht & Hb & Ha).
  assert (length (take s bytes) = s) as Hl by (rewrite length_take; lia).
  assert (length (slice bytes s e) = (e - s)%nat) as Hls
    by (unfold slice; rewrite length_take, length_drop; lia).
  assert (bytes = take s bytes ++ slice bytes s e ++ drop e bytes) as Heq.
  { unfold slice. rewrite <- (take_drop s bytes) at 1. f_equal.
    rewrite <- (take_drop (e - s) (drop s bytes)) at 1. f_equal. rewrite drop_drop. f_equal. lia. }
  split_and!; [split_and!; [done|..]|..|done].
  - intros b Hx. apply Hb. rewrite <- Hx, <- (byte_before_last (take s bytes) (drop s bytes)).
    by rewrite take_drop, Hl.
  - intros b Hx. apply Ha. rewrite head_lookup, lookup_drop, Nat.add_0_r in Hx. done.
  - intros Hnil. rewrite Hnil in Hls. simpl in Hls. lia.
  - apply list.Forall_forall. intros b [i Hi]%list_elem_of_lookup.
    apply lookup_take_Some in Hi as [Hi Hlt]. rewrite lookup_drop in Hi.
    apply (Ht (s + i)%nat b); [lia|done].
Qed.

(** A test of every token range is a test of every isolated token. *)
Lemma any_token_ranges (p : nat → list Z → bool) bytes :
  any (λ '(s, e), p s (slice bytes s e)) (token_ranges bytes) = true ↔
  ∃ before token after, isolated is_token_byte bytes before token after ∧ token ≠ [] ∧
    all is_token_byte token ∧ p (length before) token = true.
Proof.
  rewrite any_exists. split.
  - intros ([s e] & Hr%elem_of_token_ranges & Hp).
    destruct (isolated_of_token_at bytes s e Hr) as (Hi & Hn & Ht & Hl).
    exists (take s bytes), (slice bytes s e), (drop e bytes). rewrite Hl. done.
  - intros (before & token & after & Hi & Hn & Ht & Hp).
    exists (length before, length before + length token)%nat. split.
    + apply elem_of_token_ranges. by eapply token_at_isolated.
    + destruct Hi as [-> _]. unfold slice. rewrite drop_app_length.
      replace (length before + length token - length before)%nat with (length token) by lia.
      by rewrite take_app_length.
Qed.

(** ** Runs after a part *)

Lemma advance_run p before run rest : all p run → starts_without p rest →
  advance p (before ++ run ++ rest) (length before) = length (before ++ run).
Proof.
  intros Ha Hs. unfold advance. rewrite drop_app_length, run_length_app by done. by rewrite length_app.
Qed.

Lemma run_split p l : ∃ run rest, l = run ++ rest ∧ all p run ∧ starts_without p rest.
Proof.
  destruct (run_length_split p l) as (Ha & Hh & _).
  exists (take (run_length p l) l), (drop (run_length p l) l). rewrite take_drop. done.
Qed.

(** The first bytes of a run, at most [n] of them, contain a word of its class. *)
Lemma find_in_run p n l word : word ≠ [] → all p word →
  is_Some (find_subslice (take (Nat.min (run_length p l) n) l) word) ↔
  ∃ x rest, l = x ++ word ++ rest ∧ all p x ∧ (length (x ++ word) <= n)%nat.
Proof.
  intros Hn Hw. unfold find_subslice, is_Some.
  transitivity (∃ start, start ∈ find_all (take (Nat.min (run_length p l) n) l) word).
  { destruct (find_all _ _) as [|x rest]; simpl; split.
    - by intros [? ?].
    - by intros [? ?%not_elem_of_nil].
    - intros _. exists x. left.
    - eauto. }
  setoid_rewrite elem_of_find_all. split.
  - intros (start & _ & x & y & Ht & _). set (m := Nat.min _ _) in Ht.
    destruct (run_length_split p l) as (Ha & _ & Hl).
    assert (all p (take m l)) as Hm.
    { apply (list.Forall_take _ m) in Ha. rewrite take_take in Ha.
      by replace (Nat.min m (run_length p l)) with m in Ha by lia. }
    exists x, (y ++ drop m l). assert (length (take m l) <= n)%nat as Hln by (rewrite length_take; lia).
    rewrite Ht in Hm, Hln. rewrite !length_app in *. apply list.Forall_app in Hm as [Hx _].
    split; [|split; [done|lia]]. rewrite <- (take_drop m l) at 1. rewrite Ht. by rewrite <- !app_assoc.
  - intros (x & rest & -> & Hx & Hl). exists (length x). split; [done|].
    assert (length (x ++ word) <= run_length p (x ++ word ++ rest))%nat as Hr.
    { apply run_length_ge. exists (x ++ word), rest. rewrite <- app_assoc.
      split; [done|]. split; [by apply list.Forall_app|done]. }
    set (m := Nat.min _ n). exists x, (take (m - length (x ++ word)) rest). split; [|done].
    rewrite app_assoc, take_app. rewrite (take_ge (x ++ word)) by lia. by rewrite <- app_assoc.
Qed.

Lemma boundaries_iff before token after :
  has_token_boundaries (before ++ token ++ after) (length before) (length (before ++ token)) = true ↔
  ends_without is_identifier_byte before ∧ starts_without is_identifier_byte after.
Proof.
  unfold has_token_boundaries. rewrite andb_true_iff, byte_before_last, app_assoc, lookup_at_head.
  unfold ends_without, starts_without.
  split; intros [Hb Ha]; split.
  - intros b Hx. rewrite Hx in Hb. by apply negb_true_iff.
  - intros b Hx. rewrite Hx in Ha. by apply negb_true_iff.
  - destruct (list.last before) as [b|]; [|done]. by rewrite Hb.
  - destruct (head after) as [b|]; [|done]. by rewrite Ha.
Qed.

(** ** The shapes *)

(** A private key in PEM: its marker within 80 bytes on the line of a header. *)
Definition pem_shape (text : list Z) : Prop :=
  ∃ before line after, text = before ++ bstr "-----BEGIN " ++ line ++ bstr "PRIVATE KEY-----" ++ after ∧
    (10 ∉ line) ∧ (13 ∉ line) ∧ (length line <= 64)%nat.

(** Twenty upper-case letters and digits with a known prefix, not part of an identifier. *)
Definition aws_shape (text : list Z) : Prop :=
  ∃ before prefix rest after, isolated is_identifier_byte text before (bstr prefix ++ rest) after ∧
    prefix ∈ AWS_PREFIXES ∧ length rest = 16%nat ∧ all is_ascii_uppercase_or_digit rest.

(** A prefix of GitHub with enough identifier bytes after it, not part of an identifier. *)
Definition github_shape (text : list Z) : Prop :=
  ∃ before prefix minimum rest after,
    isolated is_identifier_byte text before (bstr prefix ++ rest) after ∧
    (prefix, minimum) ∈ GITHUB_PREFIXES ∧ all is_identifier_byte rest ∧ (minimum <= length rest)%nat.

(** The word bearer in any case, not continuing a word, white space, and eight token bytes. *)
Definition bearer_shape (text : list Z) : Prop :=
  ∃ before word space token after, text = before ++ word ++ space ++ token ++ after ∧
    to_ascii_lowercase word = bstr "bearer" ∧ ends_without is_ascii_alnum before ∧ space ≠ [] ∧
    all is_ascii_whitespace space ∧ all is_token_byte token ∧ length token = 8%nat.

(** An isolated token of three dotted parts, each of eight URL-safe bytes or more,
    the first a header. *)
Definition jwt_shape (text : list Z) : Prop :=
  ∃ before header payload signature after,
    isolated is_token_byte text before (header ++ [46] ++ payload ++ [46] ++ signature) after ∧
    (∃ rest, header = bstr "eyJ" ++ rest) ∧
    Forall (λ part, all jwt_byte part ∧ (8 <= length part)%nat) [header; payload; signature].

(** A secret's name, not part of a word, an equals sign or a colon, and a value of
    four bytes or more that is no placeholder; blanks and quotes may stand around
    the sign. *)
Definition assignment_shape (text : list Z) : Prop :=
  ∃ before key blank sign blank' value after,
    text = before ++ key ++ blank ++ [sign] ++ blank' ++ value ++ after ∧
    (∃ name, name ∈ SECRET_KEYS ∧ to_ascii_lowercase key = bstr name) ∧
    ends_without is_ascii_alnum before ∧ all space_or_quote blank ∧ sign ∈ [61; 58] ∧
    all space_or_quote blank' ∧ all (λ b, negb (ends_value b)) value ∧
    starts_without (λ b, negb (ends_value b)) after ∧ (4 <= length value)%nat ∧
    is_placeholder value = false.

Definition entropy_shape `{Float64} (text : list Z) : Prop :=
  ∃ before token after, isolated is_token_byte text before token after ∧ all is_token_byte token ∧
    is_high_entropy text (length before) token = true.

Lemma newline_free line : all (λ b, negb (is_among [10; 13] b)) line ↔ (10 ∉ line) ∧ (13 ∉ line).
Proof.
  induction line as [|b line IH].
  - split; [intros _; split; apply not_elem_of_nil|constructor].
  - rewrite list.Forall_cons, IH, negb_true_iff, is_among_false, !not_elem_of_cons.
    pose proof (not_elem_of_nil b). naive_solver.
Qed.

Lemma pem_iff text : contains_pem_private_key text = true ↔ pem_shape text.
Proof.
  unfold contains_pem_private_key, pem_shape. rewrite any_find_all by done.
  transitivity (∃ before after, text = before ++ bstr "-----BEGIN " ++ after ∧
    ∃ x rest, after = x ++ bstr "PRIVATE KEY-----" ++ rest ∧ all (λ b, negb (is_among [10; 13] b)) x ∧
      (length (x ++ bstr "PRIVATE KEY-----") <= 80)%nat).
  - do 2 (apply exist_proper; intros ?).
    split; intros [-> Hx]; (split; [done|]); rewrite app_assoc, <- length_app, drop_app_length in *.
    + apply find_in_run; [done|by vm_compute; repeat constructor|]. by case_match.
    + apply find_in_run in Hx as [i Hi]; [|done|by vm_compute; repeat constructor]. by rewrite Hi.
  - setoid_rewrite newline_free. setoid_rewrite length_app. split.
    + intros (before & after & -> & x & rest & -> & [? ?] & ?). exists before, x, rest.
      split_and!; [done..|]. revert H1. vm_compute (length _). lia.
    + intros (before & line & after & -> & ? & ? & ?). do 2 eexists. split; [done|].
      exists line, after. split_and!; [done..|]. vm_compute (length (bstr _)). lia.
Qed.

Lemma aws_iff text : contains_aws_access_key text = true ↔ aws_shape text.
Proof.
  unfold contains_aws_access_key, aws_shape.
  assert (∀ prefix, prefix ∈ AWS_PREFIXES → length (bstr prefix) = 4%nat ∧
            all is_ascii_uppercase_or_digit (bstr prefix)) as Hpre.
  { apply list.Forall_forall. repeat constructor. }
  split.
  - destruct (Z.ltb_spec (len text) 20) as [|Hl]; [done|]. unfold len in Hl.
    rewrite any_exists. intros (start & Hs%elem_of_seq & Ht).
    set (token := slice text start (start + 20)) in Ht.
    assert (length token = 20%nat) as Hlt by (unfold token, slice; rewrite length_take, length_drop; lia).
    assert (text = take start text ++ token ++ drop (start + 20) text) as Heq.
    { unfold token, slice. rewrite <- (take_drop start text) at 1. f_equal.
      rewrite <- (take_drop 20 (drop start text)) at 1. rewrite drop_drop.
      by replace (start + 20 - start)%nat with 20%nat by lia. }
    apply andb_true_iff in Ht as [[Hp Ha]%andb_true_iff Hb].
    apply any_exists in Hp as (prefix & Hin & [rest Hr]%starts_with_iff). apply forallb_Forall in Ha.
    assert (length (take start text) = start) as Hst by (rewrite length_take; lia).
    assert (has_token_boundaries (take start text ++ token ++ drop (start + 20) text)
      (length (take start text)) (length (take start text ++ token)) = true) as Hb'
      by (rewrite <- Heq, length_app, Hst, Hlt; exact Hb).
    apply boundaries_iff in Hb'.
    destruct (Hpre prefix Hin) as [Hp4 _]. rewrite Hr in Heq, Hlt, Ha. rewrite length_app in Hlt.
    apply list.Forall_app in Ha as [_ Ha].
    exists (take start text), prefix, rest, (drop (start + 20) text). split_and!; [by split|done|lia|done].
  - intros (before & prefix & rest & after & (-> & Hb & Ha) & Hin & Hl & Hr).
    destruct (Hpre prefix Hin) as [Hp4 Hpa]. set (token := bstr prefix ++ rest).
    assert (length token = 20%nat) as Hlt by (unfold token; rewrite length_app; lia).
    unfold len. rewrite (proj2 (Z.ltb_ge _ _)) by (rewrite !length_app; lia).
    apply any_exists. exists (length before). split; [apply elem_of_seq; rewrite !length_app; lia|].
    assert (slice (before ++ token ++ after) (length before) (length before + 20) = token) as ->.
    { unfold slice. rewrite drop_app_length. replace (length before + 20 - length before)%nat
        with (length token) by lia. by rewrite take_app_length. }
    rewrite !andb_true_iff. split_and!.
    + apply any_exists. exists prefix. split; [done|]. apply starts_with_iff. by exists rest.
    + apply forallb_Forall. by apply list.Forall_app.
    + replace (length before + 20)%nat with (length (before ++ token)) by (rewrite length_app; lia).
      by apply boundaries_iff.
Qed.

Lemma github_iff text : contains_github_token text = true ↔ github_shape text.
Proof.
  unfold contains_github_token, github_shape.
  assert (∀ prefix minimum, (prefix, minimum) ∈ GITHUB_PREFIXES → bstr prefix ≠ []) as Hpre.
  { intros prefix minimum Hin. unfold GITHUB_PREFIXES in Hin. rewrite !elem_of_cons, elem_of_nil in Hin.
    by destruct_or! Hin; simplify_eq. }
  rewrite any_exists. split.
  - intros ([prefix minimum] & Hin & Hf). apply any_find_all in Hf as (before & rest & -> & Ht);
      [|by eapply Hpre]. destruct (run_split is_identifier_byte rest) as (run & after & -> & Hr & Ha).
    rewrite <- length_app, (app_assoc before), advance_run in Ht by done.
    rewrite <- !app_assoc in Ht. apply andb_true_iff in Ht as [Hm%Nat.leb_le Hb].
    rewrite !length_app in Hm. rewrite (app_assoc (bstr prefix)) in Hb. apply boundaries_iff in Hb as [Hb _].
    exists before, prefix, minimum, run, after. split_and!; try done; [|lia].
    split; [by rewrite <- !app_assoc|done].
  - intros (before & prefix & minimum & run & after & (-> & Hb & Ha) & Hin & Hr & Hm).
    exists (prefix, minimum). split; [done|]. apply any_find_all; [by eapply Hpre|].
    exists before, (run ++ after). split; [by rewrite <- !app_assoc|].
    replace (before ++ (bstr prefix ++ run) ++ after) with ((before ++ bstr prefix) ++ run ++ after)
      by (by rewrite <- !app_assoc).
    rewrite <- length_app, advance_run by done. apply andb_true_iff. split.
    + apply Nat.leb_le. rewrite !length_app. lia.
    + rewrite <- !app_assoc, (app_assoc (bstr prefix)). by apply boundaries_iff.
Qed.

(** Case does not matter to the classes of letters. *)
Lemma lower_alnum b : is_ascii_alnum (lower_byte b) = is_ascii_alnum b.
Proof.
  unfold lower_byte. destruct (is_ascii_uppercase b) eqn:Hu; [|done].
  unfold is_ascii_alnum, is_ascii_alphabetic. rewrite Hu.
  unfold is_ascii_uppercase in Hu. apply andb_true_iff in Hu as [?%Z.leb_le ?%Z.leb_le].
  unfold is_ascii_lowercase. rewrite (proj2 (Z.leb_le 97 (b + 32))), (proj2 (Z.leb_le (b + 32) 122)) by lia.
  by rewrite orb_true_r.
Qed.

(** The guard in front of a word: the text before it does not end in a letter or digit. *)
Lemma word_guard before rest :
  match byte_before (to_ascii_lowercase before ++ rest) (length before) with
  | Some b => is_ascii_alnum b
  | None => false
  end = false ↔ ends_without is_ascii_alnum before.
Proof.
  rewrite <- length_to_ascii_lowercase, byte_before_last. unfold to_ascii_lowercase, ends_without.
  rewrite fmap_last. destruct (list.last before) as [b|]; simpl; [|naive_solver].
  rewrite lower_alnum. naive_solver.
Qed.

(** A word found in the lower case text. *)
Lemma any_find_lower p text word : word ≠ [] →
  any p (find_all (to_ascii_lowercase text) word) = true ↔
  ∃ before found after, text = before ++ found ++ after ∧ to_ascii_lowercase found = word ∧
    p (length before) = true.
Proof.
  intros Hn. rewrite any_find_all by done. split.
  - intros (b & a & Ht & Hp). apply to_ascii_lowercase_app_inv in Ht as (before & rest & -> & <- & Hr).
    apply to_ascii_lowercase_app_inv in Hr as (found & after & -> & <- & <-).
    rewrite length_to_ascii_lowercase in Hp. eauto 7.
  - intros (before & found & after & -> & <- & Hp). exists (to_ascii_lowercase before), (to_ascii_lowercase after).
    rewrite !to_ascii_lowercase_app, length_to_ascii_lowercase. done.
Qed.

Lemma lookup_skip (before found after : list Z) n : length found = n →
  (before ++ found ++ after) !! (length before + n)%nat = head after.
Proof. intros <-. by rewrite app_assoc, <- length_app, lookup_at_head. Qed.

Lemma advance_skip p (before found run rest : list Z) n : length found = n → all p run → starts_without p rest →
  advance p (before ++ found ++ run ++ rest) (length before + n) = length (before ++ found ++ run).
Proof.
  intros <- Hr Hs. rewrite app_assoc, <- length_app, advance_run by done. by rewrite <- app_assoc.
Qed.

Lemma drop_parts (a b c d : list Z) : drop (length (a ++ b ++ c)) (a ++ b ++ c ++ d) = d.
Proof.
  replace (a ++ b ++ c ++ d) with ((a ++ b ++ c) ++ d) by (by rewrite <- !app_assoc).
  apply drop_app_length.
Qed.

Lemma head_run p (run rest : list Z) : all p run → starts_without p rest →
  match head (run ++ rest) with Some b => p b | None => false end = true ↔ run ≠ [].
Proof.
  intros Ha Hs. destruct run as [|b run]; simpl.
  - destruct rest as [|b rest]; simpl; [naive_solver|]. rewrite (Hs b eq_refl). naive_solver.
  - inversion Ha. naive_solver.
Qed.

Lemma length_bearer word : to_ascii_lowercase word = bstr "bearer" → length word = 6%nat.
Proof. intros Hw. by rewrite <- length_to_ascii_lowercase, Hw. Qed.

(** Token bytes are no white space. *)
Lemma token_not_space b : is_token_byte b = true → is_ascii_whitespace b = false.
Proof.
  intros Ht. destruct (is_ascii_whitespace b) eqn:Hw; [|done].
  unfold is_ascii_whitespace in Hw. rewrite !orb_true_iff, !Z.eqb_eq in Hw.
  by destruct_or! Hw; subst.
Qed.

Lemma starts_without_app p l k : l ≠ [] → starts_without p (l ++ k) ↔ starts_without p l.
Proof. destruct l; [done|]. unfold starts_without. simpl. naive_solver. Qed.

Lemma all_starts_without (p q : Z → bool) l : (∀ b, p b = true → q b = false) → all p l → starts_without q l.
Proof. intros Hpq Ha b Hb. destruct l as [|x l]; [done|]. simplify_eq/=. inversion Ha; auto. Qed.

Lemma bearer_iff text : contains_bearer_token text = true ↔ bearer_shape text.
Proof.
  unfold contains_bearer_token, bearer_shape. rewrite any_find_lower by done. split.
  - intros (before & word & after & -> & Hw & Ht). pose proof (length_bearer word Hw) as Hl.
    rewrite to_ascii_lowercase_app in Ht.
    destruct (match byte_before _ _ with Some b => _ | None => _ end) eqn:Hg; [done|].
    apply word_guard in Hg. rewrite lookup_skip in Ht by done.
    destruct (run_split is_ascii_whitespace after) as (space & rest & -> & Hs & Hr).
    destruct (negb _) eqn:Hh in Ht; [done|]. apply negb_false_iff, head_run in Hh; [|done..].
    rewrite advance_skip in Ht by done. apply Nat.leb_le, run_length_ge in Ht as (token & tail & Heq & Ha & Hn).
    rewrite drop_parts in Heq. subst rest. exists before, word, space, token, tail. done.
  - intros (before & word & space & token & after & -> & Hw & Hb & Hne & Hs & Ht & Hn).
    exists before, word, (space ++ token ++ after). split; [done|]. split; [done|].
    pose proof (length_bearer word Hw) as Hl. rewrite to_ascii_lowercase_app.
    rewrite (proj2 (word_guard before _) Hb). rewrite lookup_skip by done.
    assert (starts_without is_ascii_whitespace (token ++ after)) as Hsw.
    { apply starts_without_app; [by destruct token|]. eapply all_starts_without, Ht. apply token_not_space. }
    rewrite (proj2 (head_run _ space _ Hs Hsw) Hne). simpl negb. cbv match.
    rewrite advance_skip by done. apply Nat.leb_le, run_length_ge. exists token, after.
    by rewrite drop_parts.
Qed.

Lemma join_split separator l : join_with separator (split_on separator l) = l.
Proof.
  induction l as [|b l IH]; simpl; [done|]. destruct (Z.eqb_spec b separator) as [->|Hb].
  - rewrite <- IH at 2. simpl. by destruct (split_on separator l) eqn:Hs; [destruct l; simpl in Hs; repeat case_match|].
  - destruct (split_on separator l) as [|part parts]; simpl in *; [by subst|]. destruct parts; simpl; by f_equal.
Qed.

Lemma jwt_not_dot part : all jwt_byte part → (46 ∉ part).
Proof. rewrite list.Forall_forall. intros Ha Hin. by specialize (Ha 46 Hin). Qed.

Lemma is_jwt_iff token : is_jwt token = true ↔
  ∃ header payload signature, token = header ++ [46] ++ payload ++ [46] ++ signature ∧
    (∃ rest, header = bstr "eyJ" ++ rest) ∧
    Forall (λ part, all jwt_byte part ∧ (8 <= length part)%nat) [header; payload; signature].
Proof.
  unfold is_jwt. pose proof (join_split 46 token) as Hj. split.
  - destruct (split_on 46 token) as [|h [|p [|s [|? ?]]]]; try done.
    rewrite !andb_true_iff, !Z.leb_le, starts_with_iff. unfold len. simpl.
    rewrite !andb_true_iff, !forallb_Forall. intros ((((Hh & ?) & ?) & ?) & ? & ? & ? & _).
    exists h, p, s. rewrite <- Hj. split; [done|]. split; [done|].
    repeat constructor; done || lia.
  - intros (h & p & s & -> & Hh & Hf). rewrite !list.Forall_cons in Hf.
    destruct Hf as ([Hah Hlh] & [Hap Hlp] & [Has Hls] & _). simpl.
    rewrite split_on_cons, split_on_cons, split_on_single by by apply jwt_not_dot.
    rewrite !andb_true_iff, !Z.leb_le, starts_with_iff. unfold len. simpl.
    rewrite ?andb_true_iff, !forallb_Forall. split_and!; done || lia.
Qed.

Lemma jwt_token part : all jwt_byte part → all is_token_byte part.
Proof.
  intros Ha. eapply list.Forall_impl; [exact Ha|]. intros b. unfold jwt_byte, is_token_byte. rewrite !orb_true_iff, !is_among_true.
  intros [?|Hb]; [by left|right]. rewrite !elem_of_cons in *. pose proof (not_elem_of_nil b). tauto.
Qed.

Lemma jwt_iff text : contains_jwt_like text = true ↔ jwt_shape text.
Proof.
  unfold contains_jwt_like, jwt_shape. rewrite (any_token_ranges (λ _, is_jwt)).
  setoid_rewrite is_jwt_iff. split.
  - intros (before & token & after & Hi & _ & _ & h & p & s & -> & Hh & Hf). eauto 8.
  - intros (before & h & p & s & after & Hi & Hh & Hf).
    exists before, (h ++ [46] ++ p ++ [46] ++ s), after. split_and!; [done|by destruct h| |eauto 6].
    rewrite !list.Forall_cons in Hf. destruct Hf as ([? _] & [? _] & [? _] & _).
    rewrite !list.Forall_app, !list.Forall_singleton. split_and!; try done; by apply jwt_token.
Qed.

Lemma quote_not_alnum b : space_or_quote b = true → is_ascii_alnum b = false.
Proof.
  unfold space_or_quote, is_ascii_whitespace. rewrite !orb_true_iff, !Z.eqb_eq, is_among_true.
  rewrite !elem_of_cons. intros Hb. destruct_or! Hb; subst; try done. by apply not_elem_of_nil in Hb.
Qed.

Lemma value_not_quote b : negb (ends_value b) = true → space_or_quote b = false.
Proof.
  rewrite negb_true_iff. unfold ends_value, space_or_quote. rewrite !orb_false_iff, !is_among_false.
  rewrite !not_elem_of_cons. tauto.
Qed.

Lemma sign_not_quote b : b ∈ [61; 58] → space_or_quote b = false ∧ is_ascii_alnum b = false.
Proof. rewrite !elem_of_cons. intros Hb. destruct_or! Hb; subst; try done. by apply not_elem_of_nil in Hb. Qed.

(** The guard after a word: what follows does not continue it. *)
Lemma word_end before key after n : length key = n →
  match to_ascii_lowercase (before ++ key ++ after) !! (length before + n)%nat with
  | Some b => is_ascii_alnum b
  | None => false
  end = false ↔ starts_without is_ascii_alnum after.
Proof.
  intros Hn. unfold to_ascii_lowercase. rewrite list_lookup_fmap, lookup_skip by done.
  unfold starts_without. destruct (head after) as [b|]; simpl; [|naive_solver].
  rewrite lower_alnum. naive_solver.
Qed.

Lemma sign_at (pre rest : list Z) :
  match (pre ++ rest) !! length pre with Some b => is_among [61; 58] b | None => false end = true ↔
  ∃ sign tail, rest = sign :: tail ∧ sign ∈ [61; 58].
Proof.
  rewrite lookup_at_head. destruct rest as [|b rest]; cbn -[is_among]; [naive_solver|].
  rewrite is_among_true. naive_solver.
Qed.

Lemma slice_run (pre run rest : list Z) :
  slice (pre ++ run ++ rest) (length pre) (length (pre ++ run)) = run.
Proof.
  unfold slice. rewrite drop_app_length, length_app.
  replace (length pre + length run - length pre)%nat with (length run) by lia. apply take_app_length.
Qed.

(** The value after a sign. *)
Lemma assigned_value pre blank value rest (cursor := advance space_or_quote (pre ++ blank ++ value ++ rest) (length pre))
    (finish := advance (λ b, negb (ends_value b)) (pre ++ blank ++ value ++ rest) cursor) :
  all space_or_quote blank → starts_without space_or_quote (value ++ rest) →
  all (λ b, negb (ends_value b)) value → starts_without (λ b, negb (ends_value b)) rest →
  (4 <=? finish - cursor)%nat && negb (is_placeholder (slice (pre ++ blank ++ value ++ rest) cursor finish))
    = true ↔ (4 <= length value)%nat ∧ is_placeholder value = false.
Proof.
  intros Hb Hs Hv Hr. unfold finish, cursor. rewrite advance_run by done.
  rewrite (app_assoc pre), advance_run, slice_run by done.
  rewrite andb_true_iff, Nat.leb_le, negb_true_iff, (length_app (pre ++ blank)).
  replace (length (pre ++ blank) + length value - length (pre ++ blank))%nat with (length value) by lia. done.
Qed.

Lemma assigns_secret_iff before key after n : length key = n →
  assigns_secret (before ++ key ++ after) (length before) n = true ↔
  ends_without is_ascii_alnum before ∧
  ∃ blank sign blank' value rest, after = blank ++ [sign] ++ blank' ++ value ++ rest ∧
    all space_or_quote blank ∧ sign ∈ [61; 58] ∧ all space_or_quote blank' ∧
    all (λ b, negb (ends_value b)) value ∧ starts_without (λ b, negb (ends_value b)) rest ∧
    (4 <= length value)%nat ∧ is_placeholder value = false.
Proof.
  intros Hn. unfold assigns_secret. split.
  - rewrite to_ascii_lowercase_app. destruct (match byte_before _ _ with Some b => _ | None => _ end) eqn:Hg;
      [done|]. apply word_guard in Hg. intros Ha. split; [done|]. revert Ha.
    destruct (match _ !! _ with Some b => is_ascii_alnum b | None => _ end); [done|].
    destruct (run_split space_or_quote after) as (blank & rest & -> & Hb & Hr).
    rewrite advance_skip by done.
    destruct (negb _) eqn:Hs; [done|]. apply negb_false_iff in Hs.
    replace (before ++ key ++ blank ++ rest) with ((before ++ key ++ blank) ++ rest) in *
      by (by rewrite <- !app_assoc).
    apply sign_at in Hs as (sign & tail & -> & Hsign).
    destruct (run_split space_or_quote tail) as (blank' & tail' & -> & Hb' & Hr').
    destruct (run_split (λ b, negb (ends_value b)) tail') as (value & rest' & -> & Hv & Hr'').
    replace ((before ++ key ++ blank) ++ sign :: blank' ++ value ++ rest') with
      (((before ++ key ++ blank) ++ [sign]) ++ blank' ++ value ++ rest') by (by rewrite <- !app_assoc).
    replace (S (length (before ++ key ++ blank))) with (length ((before ++ key ++ blank) ++ [sign]))
      by (rewrite length_app; simpl; lia).
    rewrite assigned_value by done. intros [Hl Hp].
    exists blank, sign, blank', value, rest'. split_and!; done.
  - intros (Hbef & blank & sign & blank' & value & rest & -> & Hb & Hsign & Hb' & Hv & Hr & Hl & Hp).
    destruct (sign_not_quote sign Hsign) as [Hsq Hsa].
    rewrite (to_ascii_lowercase_app before), (proj2 (word_guard before _) Hbef), <- to_ascii_lowercase_app.
    rewrite (proj2 (word_end before key _ n Hn)).
    2: { destruct blank as [|b blank]; [by intros b [= <-]|]. intros c [= <-].
         inversion Hb. by apply quote_not_alnum. }
    rewrite advance_skip by (done || by intros b [= <-]).
    replace (before ++ key ++ blank ++ [sign] ++ blank' ++ value ++ rest) with
      ((before ++ key ++ blank) ++ sign :: blank' ++ value ++ rest) by (by rewrite <- !app_assoc).
    rewrite (proj2 (sign_at _ _)) by eauto. simpl negb. cbv match.
    replace ((before ++ key ++ blank) ++ sign :: blank' ++ value ++ rest) with
      (((before ++ key ++ blank) ++ [sign]) ++ blank' ++ value ++ rest) by (by rewrite <- !app_assoc).
    replace (S (length (before ++ key ++ blank))) with (length ((before ++ key ++ blank) ++ [sign]))
      by (rewrite (length_app (before ++ key ++ blank)); simpl; lia).
    apply assigned_value; try done.
    apply starts_without_app; [by intros ->; simpl in Hl; lia|]. eapply all_starts_without, Hv. apply value_not_quote.
Qed.

Lemma assignment_iff text : contains_secret_assignment text = true ↔ assignment_shape text.
Proof.
  unfold contains_secret_assignment, assignment_shape.
  assert (∀ name, name ∈ SECRET_KEYS → bstr name ≠ []) as Hne
    by (apply list.Forall_forall; repeat (constructor; [done|]); constructor).
  assert (∀ key name, to_ascii_lowercase key = bstr name → length key = length (bstr name)) as Hlen
    by (intros key name <-; by rewrite length_to_ascii_lowercase).
  rewrite any_exists. split.
  - intros (name & Hin & Hf). apply any_find_lower in Hf as (before & key & after & -> & Hk & Ha); [|by apply Hne].
    apply assigns_secret_iff in Ha as (Hb & blank & sign & blank' & value & rest & -> & Ha); [|by apply Hlen].
    destruct Ha as (? & ? & ? & ? & ? & ? & ?).
    exists before, key, blank, sign, blank', value, rest. split_and!; eauto.
  - intros (before & key & blank & sign & blank' & value & rest & -> & (name & Hin & Hk) & Hb & Ha).
    exists name. split; [done|]. apply any_find_lower; [by apply Hne|].
    exists before, key, (blank ++ [sign] ++ blank' ++ value ++ rest). split; [done|]. split; [done|].
    apply assigns_secret_iff; [by apply Hlen|]. split; [done|]. exists blank, sign, blank', value, rest. done.
Qed.

Lemma entropy_iff `{Float64} text : contains_high_entropy_token text = true ↔ entropy_shape text.
Proof.
  unfold contains_high_entropy_token, entropy_shape. rewrite (any_token_ranges (is_high_entropy text)).
  split; [naive_solver|]. intros (before & token & after & Hi & Ht & He).
  exists before, token, after. split_and!; try done. intros ->. done.
Qed.

Definition has_shape `{Float64} (text : list Z) (kind : CredentialKind) : Prop :=
  match kind with
  | PemPrivateKey => pem_shape text
  | AwsAccessKey => aws_shape text
  | GitHubToken => github_shape text
  | BearerToken => bearer_shape text
  | JwtLike => jwt_shape text
  | SecretAssignment => assignment_shape text
  | HighEntropyToken => entropy_shape text
  end.

(** The detector reports a shape the text has, and none exactly when it has none. *)
Lemma detect_sound `{Float64} text kind : detect_credential_shape text = Some kind → has_shape text kind.
Proof.
  unfold detect_credential_shape, has_shape.
  repeat (case_match; [intros [= <-]; by
    (rewrite <- pem_iff || rewrite <- aws_iff || rewrite <- github_iff || rewrite <- bearer_iff ||
     rewrite <- jwt_iff || rewrite <- assignment_iff || rewrite <- entropy_iff)|]). done.
Qed.

Lemma detect_none `{Float64} text :
  detect_credential_shape text = None ↔ ∀ kind, ¬ has_shape text kind.
Proof.
  split.
  - unfold detect_credential_shape. intros Hn kind Hs. revert Hn.
    destruct kind; cbn [has_shape] in Hs;
      [apply pem_iff in Hs|apply aws_iff in Hs|apply github_iff in Hs|apply bearer_iff in Hs|
       apply jwt_iff in Hs|apply assignment_iff in Hs|apply entropy_iff in Hs];
      rewrite Hs; by repeat case_match.
  - intros Hk. destruct (detect_credential_shape text) as [kind|] eqn:Hd; [|done].
    by apply detect_sound, Hk in Hd.
Qed.

(** ** Clean text, arguments and paths *)

Definition clean_text `{Float64} (text : list Z) : Prop :=
  valid_utf8 text = true ∧ Forall (λ c, binary_control c = false) (chars text) ∧
  ∀ kind, ¬ has_shape text kind.

Lemma any_false_Forall {A} (p : A → bool) l : any p l = false ↔ Forall (λ x, p x = false) l.
Proof.
  rewrite any_false, list.Forall_lookup. done.
Qed.

Lemma inspect_text_Ok `{Float64} text input : inspect_text text input = Ok () ↔ clean_text text.
Proof.
  unfold inspect_text, clean_text. rewrite <- any_false_Forall, <- detect_none.
  destruct (valid_utf8 text); simpl; [|naive_solver].
  destruct (any binary_control _); [naive_solver|].
  destruct (detect_credential_shape text); naive_solver.
Qed.

Lemma inspect_arguments_Ok `{Float64} index values :
  inspect_arguments index values = Ok () ↔ Forall clean_text values.
Proof.
  revert index. induction values as [|value values IH]; intros index; simpl; [by split|].
  rewrite list.Forall_cons, <- (inspect_text_Ok value (FromArgv index)), <- (IH (S index)).
  destruct (inspect_text value (FromArgv index)) as [[]|]; simpl; naive_solver.
Qed.

(** No secret flag is followed by a value, and none is assigned one. *)
Definition flags_without_values (values : list (list Z)) : Prop :=
  ∀ i flag value, values !! i = Some flag → values !! S i = Some value →
    is_secret_flag flag = true → is_placeholder value = true.

Lemma check_flag_values_Ok index values :
  check_flag_values index values = Ok () ↔ flags_without_values values.
Proof.
  unfold flags_without_values. revert index.
  induction values as [|flag rest IH]; intros index; [split; [by intros _ []|done]|].
  destruct rest as [|value rest]; [split; [by intros _ [] ? ?|done]|].
  change (check_flag_values index (flag :: value :: rest)) with
    (if is_secret_flag flag && negb (is_placeholder value)
     then Err (CredentialShape (FromArgv index) SecretAssignment)
     else check_flag_values (S index) (value :: rest)).
  destruct (is_secret_flag flag && negb (is_placeholder value)) eqn:Hc.
  - split; [done|]. intros Hf. apply andb_true_iff in Hc as [Hs Hp].
    by rewrite (Hf 0%nat flag value eq_refl eq_refl Hs) in Hp.
  - rewrite IH. split; intros Hf.
    + intros [|i] x y Hx Hy Hs; [|by eapply Hf]. simplify_eq/=. rewrite Hs in Hc.
      by destruct (is_placeholder _).
    + intros i x y. apply (Hf (S i)).
Qed.

Lemma check_assigned_flags_Ok index values :
  check_assigned_flags index values = Ok () ↔ Forall (λ v, assigned_flag v = false) values.
Proof.
  revert index. induction values as [|value values IH]; intros index; simpl; [by split|].
  rewrite list.Forall_cons, <- (IH (S index)). destruct (assigned_flag value); naive_solver.
Qed.

Definition total_bytes (values : list (list Z)) : Z := foldr (λ v n, len v + n) 0 values.

Lemma total_bytes_nonneg values : 0 <= total_bytes values.
Proof. induction values; simpl; unfold len in *; lia. Qed.

Lemma bound_arguments_Ok index total values : 0 <= total →
  bound_arguments index total values = Ok () ↔
  Forall (λ v, valid_utf8 v = true ∧ (0 ∉ v)) values ∧
  (values = [] ∨ total + total_bytes values <= MAX_ARGUMENT_BYTES).
Proof.
  revert index total. induction values as [|value values IH]; intros index total Ht; simpl.
  { split; [|done]. intros _. split; [constructor|by left]. }
  pose proof (total_bytes_nonneg values). assert (0 <= len value) by (unfold len; lia).
  rewrite list.Forall_cons. destruct (valid_utf8 value) eqn:Hu; simpl; [|naive_solver].
  destruct (u64_checked_add total (len value)) as [sum|] eqn:Hs; simpl.
  - apply u64_checked_add_Some in Hs as [-> _].
    destruct (Z.ltb_spec MAX_ARGUMENT_BYTES (total + len value)); simpl; [split; [done|intros [_ [?|?]]; [done|lia]]|].
    destruct (contains 0 value) eqn:Hc.
    { apply contains_iff in Hc. naive_solver. }
    rewrite IH by lia. apply not_true_iff_false in Hc. rewrite contains_iff in Hc.
    split; intros [Hf Hb]; (split; [naive_solver|]).
    + right. destruct Hb as [->|Hb]; simpl; lia.
    + destruct Hb as [|Hb]; [done|]. right. lia.
  - apply u64_checked_add_None in Hs. split; [done|]. intros [_ [?|?]]; [done|].
    unfold U64_MAX, MAX_ARGUMENT_BYTES in *. lia.
Qed.

Definition clean_argv `{Float64} (argv : list (list Z)) : Prop :=
  argv ≠ [] ∧ len argv <= MAX_ARGUMENT_COUNT ∧ total_bytes argv <= MAX_ARGUMENT_BYTES ∧
  Forall (λ v, 0 ∉ v) argv ∧ flags_without_values argv ∧
  Forall (λ v, assigned_flag v = false) argv ∧ Forall clean_text argv ∧
  ∀ kind, ¬ has_shape (join_with 32 argv) kind.

Lemma evaluate_argv_Ok `{Float64} argv : evaluate_argv argv = Ok () ↔ clean_argv argv.
Proof.
  unfold evaluate_argv, clean_argv. case_bool_decide as Hn; [naive_solver|].
  destruct (Z.ltb_spec MAX_ARGUMENT_COUNT (len argv)); [split; [done|intros (_ & ? & _); lia]|].
  rewrite !result_bind_Ok_iff. setoid_rewrite result_bind_Ok_iff.
  split.
  - intros ([] & Hb & [] & Hf & H1). apply bound_arguments_Ok in Hb as [Hu [?|Hb]]; [done| |lia].
    apply result_bind_Ok in H1 as ([] & Ha & H2). apply result_bind_Ok in H2 as ([] & Hi & Hd).
    apply check_flag_values_Ok in Hf. apply check_assigned_flags_Ok in Ha. apply inspect_arguments_Ok in Hi.
    split_and!; try done. { eapply list.Forall_impl; [exact Hu|]. by intros x [_ ?]. }
    apply detect_none. by case_match.
  - intros (_ & _ & Hb & Hz & Hf & Ha & Hi & Hd). exists (). split.
    { apply bound_arguments_Ok; [lia|]. split; [|by right].
      apply list.Forall_forall. intros v Hv. rewrite list.Forall_forall in Hz, Hi.
      split; [by apply Hi|by apply Hz]. }
    exists (). split; [by apply check_flag_values_Ok|].
    rewrite (proj2 (check_assigned_flags_Ok 0 argv) Ha). simpl.
    rewrite (proj2 (inspect_arguments_Ok 0 argv) Hi). simpl.
    by rewrite (proj2 (detect_none _) Hd).
Qed.

(** ** Paths *)

(** What a spelling must be to name a path of the repository by its components. *)
Definition repository_names (path : list Z) (names : NormalizedRepoPath) : Prop :=
  path ≠ [] ∧ is_absolute path = false ∧ valid_utf8 path = true ∧
  len path <= MAX_REPOSITORY_PATH_BYTES ∧ Forall (λ b, noncanonical_byte b = false) path ∧
  drive_prefix path = false ∧ (ParentDir ∉ components path) ∧
  Forall (λ name, valid_utf8 name = true) names ∧ names = omap normal_name (components path).

Lemma normal_components_Ok parts names :
  Forall (λ c, match c with Normal name => name ≠ [] | _ => True end) parts → (RootDir ∉ parts) →
  normal_components parts = Ok names ↔
  (ParentDir ∉ parts) ∧ Forall (λ name, valid_utf8 name = true) names ∧ names = omap normal_name parts.
Proof.
  intros Hn. revert names. induction Hn as [|part parts Hp _ IH]; intros names Hr.
  { simpl. split; [intros [= <-]; split; [apply not_elem_of_nil|by split]|]. by intros (_ & _ & ->). }
  apply not_elem_of_cons in Hr as [Hr Hrs]. rewrite not_elem_of_cons. destruct part; simpl.
  - done.
  - rewrite IH by done. naive_solver.
  - split; [done|]. naive_solver.
  - destruct (valid_utf8 name) eqn:Hu; simpl.
    + case_bool_decide; [done|]. rewrite result_bind_Ok_iff. setoid_rewrite IH; [|done]. split.
      * intros (rest & (Hnp & Hf & ->) & [= <-]). split; [done|]. split; [by constructor|done].
      * intros ([_ Hnp] & Hf & ->). inversion Hf; subst. eauto 6.
    + split; [done|]. intros (_ & Hf & ->). inversion Hf; subst. congruence.
Qed.

Lemma components_relative path : is_absolute path = false → RootDir ∉ components path.
Proof.
  intros Ha. unfold components. rewrite Ha.
  assert (∀ part, body_component part ≠ Some RootDir) as Hb
    by (intros part; unfold body_component; by repeat case_match).
  destruct (split_on SLASH path) as [|first rest]; [apply not_elem_of_nil|].
  intros [Hf|(part & _ & Hp)%list_elem_of_omap]%elem_of_app; [|by eapply Hb].
  destruct (bytes_eqb first DOT); [by apply list_elem_of_singleton in Hf|].
  destruct (body_component first) as [c|] eqn:Hc; [|by apply not_elem_of_nil in Hf].
  apply list_elem_of_singleton in Hf as <-. by eapply Hb.
Qed.

Lemma component_name_nonempty name : component_name name → name ≠ [].
Proof. by intros [Hp _] ->. Qed.

Lemma parse_Ok path names : NormalizedRepoPath_parse path = Ok names ↔ repository_names path names.
Proof.
  unfold NormalizedRepoPath_parse, repository_names. rewrite <- any_false_Forall.
  case_bool_decide; [naive_solver|]. destruct (is_absolute path) eqn:Ha; [naive_solver|].
  destruct (valid_utf8 path); simpl; [|naive_solver].
  destruct (Z.ltb_spec MAX_REPOSITORY_PATH_BYTES (len path)); simpl; [split; [done|intros (_ & _ & _ & ? & _); lia]|].
  destruct (any noncanonical_byte path); simpl; [naive_solver|].
  destruct (drive_prefix path); simpl; [naive_solver|].
  rewrite normal_components_Ok; [naive_solver| |by apply components_relative].
  apply list.Forall_forall. intros [] Hin; try done. by eapply component_name_nonempty, components_names.
Qed.

Lemma parsed_names path names : repository_names path names → Forall component_name names.
Proof.
  intros (_ & _ & _ & _ & _ & _ & _ & _ & ->). apply list.Forall_forall.
  intros name (c & Hc & Hn)%list_elem_of_omap. destruct c; simplify_eq/=. by eapply components_names.
Qed.

Lemma path_under_iff prefix path : path_under prefix path = true ↔ prefix `prefix_of` path.
Proof.
  revert path. induction prefix as [|name prefix IH]; intros path; simpl.
  - split; [|done]. intros _. apply prefix_nil.
  - destruct path as [|c path]; [split; [done|]; intros Hp; by apply prefix_nil_not in Hp|].
    rewrite andb_true_iff, bytes_eqb_eq, IH. split.
    + intros [-> Hp]. by apply prefix_cons.
    + intros Hp. split; [by eapply prefix_cons_inv_1|by eapply prefix_cons_inv_2].
Qed.

(** The policy lets a path be shared: no sensitive component, not under an
    excluded prefix, under an included one (or the root, where that is enough). *)
Definition shareable_names (policy : RepositorySharingPolicy) (root_enough : bool)
    (names : NormalizedRepoPath) : Prop :=
  Forall (λ name, is_sensitive_component name = false) names ∧
  Forall (λ prefix, ¬ prefix `prefix_of` names) (exclude_prefixes policy) ∧
  ((root_enough = true ∧ names = []) ∨ Exists (λ prefix, prefix `prefix_of` names) (include_prefixes policy)).

Definition shareable_path (policy : RepositorySharingPolicy) (root_enough : bool) (path : list Z) : Prop :=
  ∃ names, repository_names path names ∧ shareable_names policy root_enough names.

Lemma any_under names prefixes : any (λ prefix, path_under prefix names) prefixes = true ↔
  Exists (λ prefix, prefix `prefix_of` names) prefixes.
Proof. rewrite any_exists, list.Exists_exists. by setoid_rewrite path_under_iff. Qed.

Lemma check_path_safety_Ok policy names input root_context :
  check_path_safety policy names input (root_context && is_root names) = Ok () ↔
  shareable_names policy root_context names.
Proof.
  unfold check_path_safety, shareable_names. rewrite <- any_false_Forall. fold (path_has_sensitive_component names).
  destruct (path_has_sensitive_component names); [naive_solver|].
  destruct (any _ (exclude_prefixes policy)) eqn:He.
  { apply any_under, list.Exists_exists in He as (p & Hin & Hp). split; [done|].
    rewrite list.Forall_forall. intros (_ & Hf & _). by destruct (Hf p Hin). }
  assert (Forall (λ prefix, ¬ prefix `prefix_of` names) (exclude_prefixes policy)) as Hex.
  { apply any_false_Forall in He. eapply list.Forall_impl; [exact He|]. cbn beta. intros p Hp Hu.
    apply path_under_iff in Hu. congruence. }
  rewrite <- any_under. destruct (any _ (include_prefixes policy)).
  { rewrite andb_false_r. naive_solver. }
  rewrite andb_true_r. destruct root_context, names; simpl; naive_solver.
Qed.

Lemma evaluate_scoped_Ok policy index paths :
  evaluate_scoped policy index paths = Ok () ↔ Forall (shareable_path policy false) paths.
Proof.
  revert index. induction paths as [|path paths IH]; intros index; simpl; [by split|].
  rewrite list.Forall_cons, <- (IH (S index)). unfold shareable_path, normalize_candidate_path.
  setoid_rewrite <- parse_Ok.
  destruct (NormalizedRepoPath_parse path) as [names|error]; simpl; [|naive_solver].
  pose proof (check_path_safety_Ok policy names (FromScopedPath index) false) as Hc. simpl in Hc.
  destruct (check_path_safety _ _ _ _) as [[]|]; simpl; naive_solver.
Qed.

Lemma evaluate_paths_Ok policy cwd paths : evaluate_paths policy cwd paths = Ok () ↔
  shareable_path policy true cwd ∧ Forall (shareable_path policy false) paths.
Proof.
  unfold evaluate_paths. rewrite <- (evaluate_scoped_Ok policy 0 paths).
  unfold shareable_path at 1, normalize_candidate_path. setoid_rewrite <- parse_Ok.
  destruct (NormalizedRepoPath_parse cwd) as [names|error]; simpl; [|naive_solver].
  pose proof (check_path_safety_Ok policy names FromCwd true) as Hc. simpl in Hc.
  destruct (check_path_safety _ _ _ _) as [[]|]; simpl; naive_solver.
Qed.

(** * Properties of publication admission *)

(** ** Detection *)

(** C23. The credential detector is exact: it reports nothing exactly when the text
    has none of the reviewed shapes (a PEM private key, an AWS key, a GitHub
    token, a bearer token, a JWT, an assigned secret, a high-entropy token), each
    given as a decomposition of the text; and what it reports is a shape of the
    text, the first in the order of the list. *)
Theorem credential_detector_exact `{Float64} text :
  (detect_credential_shape text = None ↔ ∀ kind, ¬ has_shape text kind) ∧
  (∀ kind, detect_credential_shape text = Some kind → has_shape text kind) ∧
  (pem_shape text → detect_credential_shape text = Some PemPrivateKey).
Proof.
  split; [apply detect_none|]. split; [apply detect_sound|].
  intros Hp%pem_iff. unfold detect_credential_shape. by rewrite Hp.
Qed.

(** ** Admission *)

(** The request is of the schema and was built under this policy. *)
Definition bound_request (policy : RepositorySharingPolicy) (request : TeamRequestKeyV1) : Prop :=
  schema_version (descriptor request) = TEAM_REQUEST_KEY_SCHEMA_VERSION ∧
  policy_digest (descriptor request) = sharing_digest policy.

(** Everything of the request that would leave the machine may. *)
Definition shareable_request `{Float64} (policy : RepositorySharingPolicy) (request : TeamRequestKeyV1) : Prop :=
  bound_request policy request ∧
  shareable_path policy true (repository_relative_cwd (descriptor request)) ∧
  Forall (λ o, shareable_path policy false (repository_path o)) (observations (descriptor request)) ∧
  clean_argv (normalized_argv (descriptor request)).

Lemma check_binding_Ok policy request : check_binding policy request = Ok () ↔ bound_request policy request.
Proof.
  unfold check_binding, bound_request. destruct (Z.eqb_spec (schema_version (descriptor request))
    TEAM_REQUEST_KEY_SCHEMA_VERSION); simpl; [|naive_solver].
  destruct (bytes_eqb _ _) eqn:Hb; simpl.
  - apply bytes_eqb_eq in Hb. naive_solver.
  - apply not_true_iff_false in Hb. rewrite bytes_eqb_eq in Hb. naive_solver.
Qed.

Lemma shareable_request_iff `{Float64} policy request (d := descriptor request) :
  shareable_request policy request ↔
  check_binding policy request = Ok () ∧
  evaluate_paths policy (repository_relative_cwd d) (repository_path <$> observations d) = Ok () ∧
  evaluate_argv (normalized_argv d) = Ok ().
Proof.
  unfold shareable_request, d. rewrite check_binding_Ok, evaluate_paths_Ok, evaluate_argv_Ok.
  pose proof (list.Forall_fmap repository_path (shareable_path policy false) (observations (descriptor request)))
    as Hf. unfold compose in Hf. tauto.
Qed.

(** C22. A request is admitted to the remote cache exactly when it is of the schema,
    built under the policy, its working directory and every observed path is a
    canonical relative path that the policy lets out, and its arguments are
    bounded, free of NUL, of secrets passed to flags and of every credential
    shape, each alone and joined; the admission then names exactly this request,
    this policy and this classifier. *)
Theorem remote_admission_exact `{Blake3Hash, Float64} policy request admission :
  admit_remote_request_v1 policy request = Ok admission ↔
  shareable_request policy request ∧
  admission = mkAdmission (request_digest request) (sharing_digest policy)
                publication_classifier_digest_v1.
Proof.
  unfold admit_remote_request_v1. rewrite shareable_request_iff.
  destruct (check_binding policy request) as [[]|]; simpl; [|naive_solver].
  destruct (evaluate_paths policy _ _) as [[]|]; simpl; [|naive_solver].
  destruct (evaluate_argv _) as [[]|]; simpl; naive_solver.
Qed.

(** The facts of a capture that may be published: no input, exit zero, nothing on
    the error stream, and complete output [stdout] within the limit and clean. *)
Definition publishable_capture `{Float64} (policy : RepositorySharingPolicy) (execution : CapturedExecution)
    (stdout : list Z) : Prop :=
  execution = mkExecution StdinClosed (CompletePipe stdout) (CompletePipe []) (Code 0) ∧
  len stdout <= max_output_bytes policy ∧ clean_text stdout.

Lemma evaluate_execution_Ok policy execution : evaluate_execution policy execution = Ok () ↔
  ∃ stdout, execution = mkExecution StdinClosed (CompletePipe stdout) (CompletePipe []) (Code 0) ∧
    len stdout <= max_output_bytes policy.
Proof.
  unfold evaluate_execution, check_output_size. destruct execution as [stdin stdout stderr exit]. simpl.
  split.
  - destruct stdin; try done. destruct exit as [code| |]; try done. destruct (Z.eqb_spec code 0); [|done].
    destruct stdout as [out| | |]; try done. destruct stderr as [err| | |]; try done. simpl.
    destruct (Z.ltb_spec (max_output_bytes policy) (len out)); [done|]. simpl.
    destruct (max_output_bytes policy <? len err); [done|]. simpl.
    case_bool_decide; [|done]. subst. eauto.
  - intros (out & [= -> -> -> ->] & Hl). cbn -[Z.ltb len].
    destruct (Z.ltb_spec (max_output_bytes policy) (len out)); [lia|]. cbn -[Z.ltb len].
    destruct (Z.ltb_spec (max_output_bytes policy) (len (A:=Z) [])); [unfold len in *; simpl in *; lia|done].
Qed.

Lemma publishable_iff `{Blake3Hash, Float64} policy request execution publishable :
  PublishableResult_evaluate policy request execution = Ok publishable ↔
  shareable_request policy request ∧ (∃ stdout, publishable_capture policy execution stdout) ∧
  publishable = mkPublishable (mkPrivacy Internal Repository false) classifier_digest (sharing_digest policy).
Proof.
  unfold PublishableResult_evaluate, evaluate_derived_facts, publishable_capture. rewrite shareable_request_iff.
  destruct (check_binding policy request) as [[]|]; simpl; [|naive_solver].
  destruct (evaluate_execution policy execution) as [[]|] eqn:He; simpl.
  - apply evaluate_execution_Ok in He as (stdout & -> & Hl). simpl.
    destruct (evaluate_paths policy _ _) as [[]|]; simpl; [|naive_solver].
    destruct (evaluate_argv _) as [[]|]; simpl; [|naive_solver].
    pose proof (inspect_text_Ok stdout FromStdout) as Hi.
    destruct (inspect_text stdout FromStdout) as [[]|]; simpl; naive_solver.
  - split; [done|]. intros (_ & (stdout & Hx & Hl & _) & _).
    assert (evaluate_execution policy execution = Ok ()) as Hk by (apply evaluate_execution_Ok; eauto).
    congruence.
Qed.

(** A captured execution is publishable exactly when its request is shareable, it
    read no input, exited with zero, wrote nothing to the error stream, and its
    complete output is within the policy's limit, UTF-8 text without control
    characters and free of every credential shape; the evidence then names this
    policy and this classifier. *)
Theorem publishable_exact `{Blake3Hash, Float64} policy request execution publishable :
  PublishableResult_evaluate policy request execution = Ok publishable ↔
  shareable_request policy request ∧ (∃ stdout, publishable_capture policy execution stdout) ∧
  publishable = mkPublishable (mkPrivacy Internal Repository false) classifier_digest (sharing_digest policy).
Proof. apply publishable_iff. Qed.

(** ** The digest of a policy *)

Lemma join_components_with parts : join_components parts = join_with SLASH parts.
Proof.
  induction parts as [|part [|next parts] IH]; [done..|].
  change (part ++ [SLASH] ++ join_components (next :: parts) =
          part ++ SLASH :: join_with SLASH (next :: parts)). by rewrite IH.
Qed.

(** The bytes of the parts, each with a separator. *)
Definition joined_length (parts : list (list Z)) : nat := sum_list ((λ part, S (length part)) <$> parts).

Lemma length_join_with separator parts : parts ≠ [] →
  S (length (join_with separator parts)) = joined_length parts.
Proof.
  unfold joined_length. induction parts as [|part [|next parts] IH]; [done|simpl; lia|]. intros _.
  change (join_with separator (part :: next :: parts)) with
    (part ++ separator :: join_with separator (next :: parts)).
  rewrite length_app. cbn [length]. rewrite IH by done. simpl. lia.
Qed.

Lemma names_shorter parts :
  (joined_length (omap normal_name (omap body_component parts)) <= joined_length parts)%nat.
Proof.
  unfold joined_length. induction parts as [|part parts IH]; csimpl; [lia|].
  destruct (body_component part) as [c|] eqn:Hc; csimpl; [|lia].
  apply body_component_normal in Hc as [->|[-> _]]; csimpl; lia.
Qed.

Lemma canonical_short path names : repository_names path names → len (canonical names) <= MAX_REPOSITORY_PATH_BYTES.
Proof.
  intros (Hne & Ha & _ & Hl & _ & _ & _ & _ & ->). unfold canonical.
  destruct (is_root _) eqn:Hr; [done|]. rewrite join_components_with.
  assert (joined_length (omap normal_name (components path)) <= joined_length (split_on SLASH path))%nat as Hj.
  { unfold components. rewrite Ha. destruct (split_on SLASH path) as [|first rest]; [done|].
    rewrite omap_app. pose proof (names_shorter rest) as Hrest. unfold joined_length in *.
    rewrite fmap_app.
    assert (∀ a b : list nat, sum_list (a ++ b) = (sum_list a + sum_list b)%nat) as Hsum
      by (intros a b; induction a; csimpl; lia).
    rewrite Hsum. csimpl. destruct (bytes_eqb first DOT); csimpl; [lia|].
    destruct (body_component first) as [c|] eqn:Hc; csimpl; [|lia].
    apply body_component_normal in Hc as [->|[-> _]]; csimpl; lia. }
  pose proof (length_join_with SLASH (omap normal_name (components path))) as Hn.
  pose proof (length_join_with SLASH (split_on SLASH path)) as Hs. rewrite join_split in Hs.
  assert (split_on SLASH path ≠ []) by (destruct path; csimpl; by repeat case_match).
  unfold len in *. destruct (omap normal_name (components path)); [done|].
  specialize (Hn ltac:(done)). specialize (Hs ltac:(done)). lia.
Qed.

Lemma canonical_inj names names' : Forall component_name names → Forall component_name names' →
  canonical names = canonical names' → names = names'.
Proof.
  assert (∀ ns, ns ≠ [] → Forall component_name ns → join_components ns ≠ DOT) as Hdot.
  { intros ns Hn Hf Hd. pose proof (split_join ns Hn Hf) as Hs. rewrite Hd in Hs.
    vm_compute in Hs. subst ns. inversion Hf as [|? ? [Hp _]]. done. }
  intros Hf Hf'. unfold canonical. destruct names as [|n ns], names' as [|n' ns']; simpl is_root; cbv match.
  - done.
  - intros He. by destruct (Hdot (n' :: ns')).
  - intros He. by destruct (Hdot (n :: ns)).
  - intros He. apply (f_equal (split_on SLASH)) in He. by rewrite !split_join in He.
Qed.

Lemma be_bytes_prefix n : prefix_code (λ z, 0 <= z < 256 ^ Z.of_nat n) (be_bytes n).
Proof.
  intros x y l k Hx Hy He. apply app_inj_1 in He as [He ->]; [|by rewrite !be_bytes_length].
  split; [|done]. apply (f_equal be_value) in He. by rewrite !be_value_small in He.
Qed.

Definition short (bytes : list Z) : Prop := len bytes <= MAX_REPOSITORY_PATH_BYTES.

Lemma put_be_prefix : prefix_code short put_be.
Proof.
  intros a b l k Ha Hb. unfold put_be. rewrite <- !app_assoc. unfold short, MAX_REPOSITORY_PATH_BYTES, len in *.
  intros He. apply (be_bytes_prefix 8) in He as [Hl He]; [|simpl; lia..].
  apply app_inj_1 in He as [-> ->]; [done|lia].
Qed.

(** A path as a parsed prefix has it. *)
Definition parsed (names : NormalizedRepoPath) : Prop := Forall component_name names ∧ short (canonical names).

Lemma put_canonical_prefix : prefix_code parsed (λ path, put_be (canonical path)).
Proof.
  intros a b l k [Ha Hsa] [Hb Hsb] He. apply put_be_prefix in He as [He ->]; [|done..].
  by apply canonical_inj in He.
Qed.

Lemma put_paths_prefix :
  prefix_code (λ paths, Forall parsed paths ∧ len paths <= MAX_POLICY_PREFIXES) put_paths.
Proof.
  intros a b l k [Ha Hla] [Hb Hlb]. unfold put_paths. rewrite <- !app_assoc. intros He.
  unfold MAX_POLICY_PREFIXES, len in *.
  apply (be_bytes_prefix 8) in He as [Hl He]; [|simpl; lia..].
  eapply flat_map_prefix; [apply put_canonical_prefix|done..|lia|done].
Qed.

Lemma btree_insert_subset {A} compare (x y : A) set : y ∈ btree_insert compare x set → y = x ∨ y ∈ set.
Proof.
  induction set as [|z set IH]; simpl; [intros ->%list_elem_of_singleton; by left|].
  destruct (compare x z); rewrite !elem_of_cons; naive_solver.
Qed.

Lemma btree_insert_length {A} compare (x : A) set :
  (length (btree_insert compare x set) <= S (length set))%nat.
Proof. induction set as [|z set IH]; simpl; [lia|]. destruct (compare x z); simpl; lia. Qed.

Lemma normalize_prefixes_Ok kind index normalized prefixes result :
  normalize_prefixes kind index normalized prefixes = Ok result →
  Forall parsed normalized →
  Forall parsed result ∧ (length result <= length normalized + length prefixes)%nat.
Proof.
  revert index normalized. induction prefixes as [|prefix prefixes IH]; intros index normalized; simpl.
  { intros [= ->] Hf. split; [done|lia]. }
  destruct (NormalizedRepoPath_parse prefix) as [path|] eqn:Hp; simpl; [|done].
  intros Hn Hf. apply IH in Hn as [Hr Hl].
  - split; [done|]. pose proof (btree_insert_length path_compare path normalized). lia.
  - apply parse_Ok in Hp. rewrite list.Forall_forall in Hf. apply list.Forall_forall.
    intros y [->|Hy]%btree_insert_subset; [|by apply Hf].
    split; [by eapply parsed_names|by eapply canonical_short].
Qed.

Lemma normalize_policy_prefixes_Ok prefixes kind result :
  normalize_policy_prefixes prefixes kind = Ok result →
  Forall parsed result ∧ len result <= MAX_POLICY_PREFIXES.
Proof.
  unfold normalize_policy_prefixes. destruct (Z.ltb_spec MAX_POLICY_PREFIXES (len prefixes)); [done|].
  intros Hn. apply normalize_prefixes_Ok in Hn as [Hf Hl]; [|constructor].
  split; [done|]. unfold len in *. simpl in Hl. lia.
Qed.

(** What a policy holds when it was built. *)
Lemma sharing_policy_Ok `{Blake3Hash} version includes excludes limit policy :
  RepositorySharingPolicy_new version includes excludes limit = Ok policy →
  short (sharing_version policy) ∧ max_output_bytes policy = limit ∧
  (Forall parsed (include_prefixes policy) ∧ len (include_prefixes policy) <= MAX_POLICY_PREFIXES) ∧
  (Forall parsed (exclude_prefixes policy) ∧ len (exclude_prefixes policy) <= MAX_POLICY_PREFIXES) ∧
  Forall (λ p, path_has_sensitive_component p = false) (include_prefixes policy) ∧
  sharing_digest policy = sharing_policy_digest (sharing_version policy) (include_prefixes policy)
    (exclude_prefixes policy) (max_output_bytes policy).
Proof.
  unfold RepositorySharingPolicy_new, validate_policy_version.
  destruct (bool_decide (version = []) || (64 <? len version) || _) eqn:Hv; [done|]. simpl.
  rewrite !orb_false_iff, Z.ltb_ge in Hv. destruct Hv as [[_ Hv] _].
  do 2 (case_bool_decide; [done|]). destruct (_ || _); [done|].
  intros (i & Hi%normalize_policy_prefixes_Ok & (e & He%normalize_policy_prefixes_Ok & Hp)%result_bind_Ok)%result_bind_Ok.
  destruct (any path_has_sensitive_component i) eqn:Hs; [done|]. simplify_eq. simpl.
  apply any_false_Forall in Hs. destruct Hi, He. unfold short, MAX_REPOSITORY_PATH_BYTES.
  split_and!; done || lia.
Qed.

Lemma policy_bytes_inj `{Blake3HashOk} v v' i i' e e' m m' :
  short v → short v' →
  Forall parsed i ∧ len i <= MAX_POLICY_PREFIXES → Forall parsed i' ∧ len i' <= MAX_POLICY_PREFIXES →
  Forall parsed e ∧ len e <= MAX_POLICY_PREFIXES → Forall parsed e' ∧ len e' <= MAX_POLICY_PREFIXES →
  is_u64 m → is_u64 m' →
  policy_bytes v i e m = policy_bytes v' i' e' m' → v = v' ∧ i = i' ∧ e = e' ∧ m = m'.
Proof.
  intros Hv Hv' Hi Hi' He He' Hm Hm'. unfold policy_bytes. intros Heq.
  apply app_inv_head, app_inv_head, app_inv_head in Heq.
  apply put_be_prefix in Heq as [-> Heq]; [|done..].
  apply (be_bytes_prefix 8) in Heq as [-> Heq]; [|done..].
  apply put_paths_prefix in Heq as [-> Heq]; [|done..].
  rewrite <- (app_nil_r (put_paths e)), <- (app_nil_r (put_paths e')) in Heq.
  by apply put_paths_prefix in Heq as [-> _].
Qed.

(** A policy never includes a sensitive prefix, and its digest identifies it: two
    built policies with the same digest have the same version, prefixes and
    limit, unless their encodings collide under the hash. *)
Theorem sharing_policy_binds `{Blake3HashOk} version version' includes includes' excludes excludes'
    limit limit' policy policy' :
  is_u64 limit → is_u64 limit' →
  RepositorySharingPolicy_new version includes excludes limit = Ok policy →
  RepositorySharingPolicy_new version' includes' excludes' limit' = Ok policy' →
  let bytes p := policy_bytes (sharing_version p) (include_prefixes p) (exclude_prefixes p)
                   (max_output_bytes p) in
  Forall (λ p, path_has_sensitive_component p = false) (include_prefixes policy) ∧
  (sharing_digest policy = sharing_digest policy' →
   policy = policy' ∨ bytes policy ≠ bytes policy' ∧ blake3_hash (bytes policy) = blake3_hash (bytes policy')).
Proof.
  intros Hm Hm' Hp%sharing_policy_Ok Hp'%sharing_policy_Ok bytes.
  destruct Hp as (Hv & <- & Hi & He & Hs & Hd), Hp' as (Hv' & <- & Hi' & He' & _ & Hd').
  split; [done|]. intros Heq. destruct (decide (bytes policy = bytes policy')) as [Hb|Hb].
  - left. pose proof (policy_bytes_inj _ _ _ _ _ _ _ _ Hv Hv' Hi Hi' He He' Hm Hm' Hb) as (? & ? & ? & ?).
    destruct policy, policy'. simpl in *. congruence.
  - right. split; [done|]. rewrite Hd, Hd' in Heq. exact Heq.
Qed.

(** ** A sample *)

Module PrivacySample.
#[local] Instance sample_hash : Blake3Hash := λ message, replicate 31 0 ++ [len message mod 256].

#[local] Instance sample_hash_ok : Blake3HashOk.
Proof.
  intros message. split; [|done]. apply list.Forall_app. split; [by repeat constructor|].
  constructor; [|constructor]. unfold is_u8. pose proof (Z.mod_pos_bound (len message) 256). lia.
Qed.

(** Integers scaled by 1000, with a logarithm that is exact at powers of two. *)
#[local] Instance sample_float : Float64 := {|
  f64 := Z;
  f64_of_usize n := 1000 * Z.of_nat n;
  f64_literal mantissa exponent := 1000 * mantissa * 10 ^ (exponent + 3) / 1000;
  f64_zero := 0;
  f64_add := Z.add;
  f64_mul a b := a * b / 1000;
  f64_div a b := 1000 * a / b;
  f64_neg := Z.opp;
  f64_log2 a := if a <=? 0 then 0 else 1000 * (Z.log2 a - 10);
  f64_ge a b := b <=? a;
|}.

Definition policy_result : result SharingPolicyError RepositorySharingPolicy :=
  RepositorySharingPolicy_new (bstr "v1") [bstr "src"; bstr "docs"; bstr "./src"] [bstr "src/private"] 1024.

Definition policy : RepositorySharingPolicy :=
  mkSharingPolicy (bstr "v1") [[bstr "docs"]; [bstr "src"]] [[bstr "src"; bstr "private"]] 1024
    (sharing_policy_digest (bstr "v1") [[bstr "docs"]; [bstr "src"]] [[bstr "src"; bstr "private"]] 1024).

Example policy_built : policy_result = Ok policy.
Proof. vm_compute. reflexivity. Qed.

Definition request (path : list Z) (argv : list (list Z)) : TeamRequestKeyV1 :=
  mkRequestKey [] (mkDescriptor 1 (bstr "t") (bstr "r") (replicate 32 48) DOT argv []
    [mkObservation ObservationKinds.File path [] 1 1] (sharing_digest policy) [] [] []).

Example shared_request :
  admit_remote_request_v1 policy (request (bstr "src/lib.rs") [bstr "cat"; bstr "src/lib.rs"]) =
  Ok (mkAdmission [] (sharing_digest policy) publication_classifier_digest_v1).
Proof. vm_compute. reflexivity. Qed.

Example excluded_request :
  admit_remote_request_v1 policy (request (bstr "src/private/a") [bstr "cat"; bstr "src/private/a"]) =
  Err (ExcludedPath (FromScopedPath 0)).
Proof. vm_compute. reflexivity. Qed.

Example credential_request :
  admit_remote_request_v1 policy
    (request (bstr "src/a") [bstr "grep"; bstr "Bearer"; bstr "0123456789"; bstr "src/a"]) =
  Err (CredentialShape (FromArgv 0) BearerToken).
Proof. vm_compute. reflexivity. Qed.

Lemma sharing_policy_binds_witness :
  Forall (λ p, path_has_sensitive_component p = false) (include_prefixes policy).
Proof.
  assert (is_u64 1024) as Hu by (unfold is_u64; lia).
  assert (RepositorySharingPolicy_new (bstr "v1") [bstr "src"; bstr "docs"; bstr "./src"]
    [bstr "src/private"] 1024 = Ok policy) as Hp by (vm_compute; reflexivity).
  exact (proj1 (sharing_policy_binds _ _ _ _ _ _ _ _ policy policy Hu Hu Hp Hp)).
Defined.
End PrivacySample.
