(* ===== verification/RequestObservation.v ===== *)
(** * Observing the file system for a request key

    The rest of [src/src/team_request_key.rs]: resolving the operands of a
    request, hashing files and trees and building the key. The host answers every
    call at its own time: the state counts the calls, so a file system that
    changes in between is one that answers differently, and the epoch checks of
    the code are real. The error kind of a failed call is not kept. The digest
    cache is any type with the two operations of [FileDigestCache]
    ([src/src/fingerprint.rs]). *)

From Stdlib Require Import String.
From stdpp Require Import gmap.
From S2P Require Import Prelude Monad Bytes ContractTypes Canonical CanonicalSpec CanonicalParse.
From S2P Require Import CanonicalCodec RecordTypes Paths RecordValidation Digest PathModel Text.
From S2P Require Import Team TeamRequestKey.
Import Components LocalOnly.

Definition TEAM_ALPHA_MAX_FILE_BYTES : Z := 1024 * 1024 * 1024.
Definition TEAM_ALPHA_MAX_TREE_BYTES : Z := 4 * 1024 * 1024 * 1024.
Definition TEAM_ALPHA_MAX_TREE_ENTRIES : Z := 100000.
Definition TEAM_ALPHA_MAX_DIRECTORY_ENTRIES : Z := 16384.
Definition TEAM_ALPHA_MAX_DISCOVERED_TREE_ENTRIES : Z := 100000.
Definition TEAM_ALPHA_MAX_TREE_DEPTH : Z := 256.

(** ** The host *)

Module FileKinds.
Inductive FileKind := RegularFile | Directory | Symlink | Special.
Inductive IoError := NotFound | OtherError.
End FileKinds.
Import FileKinds.

(** What the code reads of [std::fs::Metadata]. *)
Record Metadata := mkMetadata {
  meta_kind : FileKind;
  meta_dev : Z;
  meta_ino : Z;
  meta_mode : Z;
  meta_uid : Z;
  meta_gid : Z;
  meta_len : Z;
  meta_mtime : Z;
  meta_mtime_nsec : Z;
  meta_ctime : Z;
  meta_ctime_nsec : Z;
}.

Definition is_file (m : Metadata) : bool := match meta_kind m with RegularFile => true | _ => false end.
Definition is_dir (m : Metadata) : bool := match meta_kind m with Directory => true | _ => false end.
Definition is_link (m : Metadata) : bool := match meta_kind m with Symlink => true | _ => false end.

(** [std::fs]: canonicalization, metadata with and without following links, open
    files with their metadata and the results of reading them to the end ([None]
    a failed read), and the names in a directory ([None] a failed entry). *)
Class TeamHost := {
  host_canonicalize : nat → list Z → option (list Z);
  host_metadata : nat → list Z → option Metadata;
  host_symlink_metadata : nat → list Z → result IoError Metadata;
  host_open : nat → list Z → option nat;
  host_file_metadata : nat → nat → option Metadata;
  host_read : nat → nat → list (option (list Z));
  host_read_dir : nat → list Z → option (list (option (list Z)));
}.

Definition same_epoch (left right : Metadata) : bool :=
  (meta_dev left =? meta_dev right) && (meta_ino left =? meta_ino right)
  && (meta_mode left =? meta_mode right) && (meta_uid left =? meta_uid right)
  && (meta_gid left =? meta_gid right) && (meta_len left =? meta_len right)
  && (meta_mtime left =? meta_mtime right) && (meta_mtime_nsec left =? meta_mtime_nsec right)
  && (meta_ctime left =? meta_ctime right) && (meta_ctime_nsec left =? meta_ctime_nsec right).

Record FileIdentity := mkFileIdentity {
  identity_device : Z;
  identity_inode : Z;
  identity_mode : Z;
  identity_uid : Z;
  identity_gid : Z;
  identity_size : Z;
  identity_mtime_sec : Z;
  identity_mtime_nsec : Z;
  identity_ctime_sec : Z;
  identity_ctime_nsec : Z;
}.

Definition FileIdentity_from_metadata (m : Metadata) : FileIdentity :=
  mkFileIdentity (meta_dev m) (meta_ino m) (meta_mode m) (meta_uid m) (meta_gid m) (meta_len m)
    (meta_mtime m) (meta_mtime_nsec m) (meta_ctime m) (meta_ctime_nsec m).

Definition FileIdentity_is_valid (self : FileIdentity) : bool :=
  (0 <=? identity_mtime_nsec self) && (identity_mtime_nsec self <? 1000000000)
  && (0 <=? identity_ctime_nsec self) && (identity_ctime_nsec self <? 1000000000).

Class FileDigestCache (C : Type) := {
  cache_lookup : FileIdentity → C → option (list Z) * C;
  cache_record : FileIdentity → list Z → C → C;
}.

Record TreeTraversalLimits := mkLimits {
  max_depth : Z;
  max_directory_entries : Z;
  max_discovered_entries : Z;
  max_observed_entries : Z;
  max_tree_bytes : Z;
}.

Definition default_limits : TreeTraversalLimits :=
  mkLimits TEAM_ALPHA_MAX_TREE_DEPTH TEAM_ALPHA_MAX_DIRECTORY_ENTRIES
    TEAM_ALPHA_MAX_DISCOVERED_TREE_ENTRIES TEAM_ALPHA_MAX_TREE_ENTRIES TEAM_ALPHA_MAX_TREE_BYTES.

Record KeyBuildStats := mkStats { cache_hits : Z; files_hashed : Z; bytes_hashed : Z }.

Definition u64_saturating_add (a b : Z) : Z := Z.min (a + b) U64_MAX.

Record ResolvedOperand := mkResolved {
  resolved_absolute : list Z;
  resolved_repository_path : list Z;
  resolved_metadata : Metadata;
}.

(** [TeamRequestKeyInput]. *)
Record TeamRequestKeyInput := mkInput {
  input_tenant_id : list Z;
  input_repository_id : list Z;
  input_generation_id : list Z;
  input_workspace : list Z;
  input_cwd : list Z;
  input_argv : list (list Z);
  input_environment : list (list Z * list Z);
  stdin_is_tty : bool;
  stdout_is_tty : bool;
  stderr_is_tty : bool;
  input_policy_digest : list Z;
  input_execution_profile_digest : list Z;
  input_platform_digest : list Z;
  input_image_digest : list Z;
}.

Definition TeamRequestKeyInput_new_for_verified_descriptor (descriptor : TeamRequestDescriptorV1)
    (workspace cwd : list Z) (argv : list (list Z)) (environment : list (list Z * list Z)) :
    TeamRequestKeyInput :=
  mkInput (tenant_id descriptor) (repository_id descriptor) (generation_id descriptor) workspace cwd argv
    environment false false false (policy_digest descriptor) (execution_profile_digest descriptor)
    (platform_digest descriptor) (image_digest descriptor).

Record TreeSummary := mkSummary { summary_digest : list Z; summary_entries : Z; summary_bytes : Z }.

Record TreeChild := mkChild { child_path : list Z; child_relative : list Z }.

Inductive TreeAction :=
| Visit (child : TreeChild) (depth : Z)
| ExitDirectory (path : list Z) (before : Metadata).

(** The running totals of a walk and the bytes hashed so far. *)
Record Walk := mkWalk {
  walk_hashed : list Z;
  walk_entries : Z;
  walk_bytes : Z;
  walk_discovered : Z;
}.

Definition put (bytes : list Z) (w : Walk) : Walk :=
  mkWalk (walk_hashed w ++ bytes) (walk_entries w) (walk_bytes w) (walk_discovered w).

Section observation.
Context `{TeamHost, Blake3Hash, Blake3} {C : Type} `{!FileDigestCache C}.

(** The time of the next call, the cache and the statistics. *)
Record Session := mkSession { clock : nat; session_cache : C; session_stats : KeyBuildStats }.

Definition M (A : Type) : Type := state_m Session TeamLocalOnlyReason A.

(** One call to the host. *)
Definition ask {A} (call : nat → A) : M A := λ s,
  Returned (call (clock s)) (mkSession (S (clock s)) (session_cache s) (session_stats s)).

Definition or_io {A} (answer : option A) (operation : string) (path : list Z) : M A :=
  lift_result (ok_or answer (Io operation path)).

Definition metadata (path : list Z) (operation : string) : M Metadata :=
  answer ← ask (λ t, host_metadata t path); or_io answer operation path.

(** [symlink_metadata] where every error is an [io_reason]. *)
Definition link_metadata (path : list Z) (operation : string) : M Metadata :=
  answer ← ask (λ t, host_symlink_metadata t path);
  or_io (match answer with Ok m => Some m | Err _ => None end) operation path.

(** [symlink_metadata] where a missing path has a reason of its own. *)
Definition operand_metadata (path : list Z) (operation : string) (argv_index : nat) : M Metadata :=
  answer ← ask (λ t, host_symlink_metadata t path);
  match answer with
  | Ok m => mret m
  | Err NotFound => mthrow (MissingPath argv_index)
  | Err OtherError => mthrow (Io operation path)
  end.

Definition lookup_digest (identity : FileIdentity) : M (option (list Z)) := λ s,
  if FileIdentity_is_valid identity then
    let '(answer, cache) := cache_lookup identity (session_cache s) in
    Returned answer (mkSession (clock s) cache (session_stats s))
  else Returned None s.

Definition record_digest (identity : FileIdentity) (digest : list Z) : M () := λ s,
  if FileIdentity_is_valid identity
  then Returned () (mkSession (clock s) (cache_record identity digest (session_cache s)) (session_stats s))
  else Returned () s.

Definition with_stats (f : KeyBuildStats → KeyBuildStats) : M () :=
  modify (λ s, mkSession (clock s) (session_cache s) (f (session_stats s))).

(** ** Files *)

(** The read loop: the bytes counted and the bytes hashed so far. *)
Fixpoint read_loop (path : list Z) (bytes : Z) (hashed : list Z) (reads : list (option (list Z))) :
    result TeamLocalOnlyReason (Z * list Z) :=
  match reads with
  | [] | Some [] :: _ => Ok (bytes, hashed)
  | None :: _ => Err (Io "read file" path)
  | Some chunk :: reads =>
    bytes ← ok_or (u64_checked_add bytes (len chunk)) (ResourceLimit "file_bytes");
    if TEAM_ALPHA_MAX_FILE_BYTES <? bytes then Err (ResourceLimit "file_bytes")
    else read_loop path bytes (hashed ++ chunk) reads
  end.

Definition portable_file_content_hasher (content : list Z) : list Z :=
  blake3_derive_key (bstr "again.file.content.v1") content.

Definition cached_file_digest (path : list Z) (before : Metadata) (digest : list Z) : M (list Z * Z) :=
  file ← ask (λ t, host_open t path);
  file ← or_io file "open cached file" path;
  opened ← ask (λ t, host_file_metadata t file);
  opened ← or_io opened "inspect open cached file" path;
  path_after ← link_metadata path "reinspect cached file path";
  if negb (is_file opened) || negb (same_epoch before opened) || negb (same_epoch before path_after)
     || negb (same_epoch opened path_after)
  then mthrow ConcurrentFilesystemMutation
  else
    with_stats (λ s, mkStats (u64_saturating_add (cache_hits s) 1) (files_hashed s) (bytes_hashed s));;
    mret (digest, meta_len before).

Definition hashed_file_digest (path : list Z) (before : Metadata) (identity : FileIdentity) :
    M (list Z * Z) :=
  file ← ask (λ t, host_open t path);
  file ← or_io file "open file" path;
  opened ← ask (λ t, host_file_metadata t file);
  opened ← or_io opened "inspect open file" path;
  if negb (same_epoch before opened) || negb (is_file opened)
  then mthrow ConcurrentFilesystemMutation
  else
    reads ← ask (λ t, host_read t file);
    '(bytes, content) ← lift_result (read_loop path 0 [] reads);
    opened_after ← ask (λ t, host_file_metadata t file);
    opened_after ← or_io opened_after "reinspect open file" path;
    path_after ← link_metadata path "reinspect file path";
    if negb (bytes =? meta_len before) || negb (same_epoch before opened_after)
       || negb (same_epoch before path_after)
    then mthrow ConcurrentFilesystemMutation
    else
      let digest := portable_file_content_hasher content in
      record_digest identity digest;;
      with_stats (λ s, mkStats (cache_hits s) (u64_saturating_add (files_hashed s) 1)
                         (u64_saturating_add (bytes_hashed s) bytes));;
      mret (digest, bytes).

Definition stable_file_digest (path : list Z) (before : Metadata) : M (list Z * Z) :=
  if TEAM_ALPHA_MAX_FILE_BYTES <? meta_len before then mthrow (ResourceLimit "file_bytes")
  else
    let identity := FileIdentity_from_metadata before in
    hit ← lookup_digest identity;
    match hit with
    | Some digest => cached_file_digest path before digest
    | None => hashed_file_digest path before identity
    end.

Definition observe_file (resolved : ResolvedOperand) (argv_index : nat) : M TeamObservationV1 :=
  if negb (is_file (resolved_metadata resolved)) then mthrow (UnsupportedFileType argv_index)
  else
    '(digest, bytes) ← stable_file_digest (resolved_absolute resolved) (resolved_metadata resolved);
    mret (mkObservation ObservationKinds.File (resolved_repository_path resolved) digest 1 bytes).

(** ** Trees *)

(** The loop over the directory stream: the names, bounded per directory and over
    the walk. *)
Fixpoint collect_names (directory : list Z) (limits : TreeTraversalLimits)
    (directory_entries discovered : Z) (stream : list (option (list Z))) :
    result TeamLocalOnlyReason (list (list Z) * Z) :=
  match stream with
  | [] => Ok ([], discovered)
  | None :: _ => Err (Io "read tree entry" directory)
  | Some name :: stream =>
    directory_entries ← ok_or (u64_checked_add directory_entries 1) (ResourceLimit "directory_entries");
    if max_directory_entries limits <? directory_entries then Err (ResourceLimit "directory_entries")
    else
      discovered ← ok_or (u64_checked_add discovered 1) (ResourceLimit "discovered_tree_entries");
      if max_discovered_entries limits <? discovered
      then Err (ResourceLimit "discovered_tree_entries")
      else
        '(names, discovered) ← collect_names directory limits directory_entries discovered stream;
        Ok (name :: names, discovered)
  end.

(** The children of a directory: visible names with their path and their path
    relative to the root. *)
Fixpoint tree_children (root directory : list Z) (names : list (list Z)) :
    result TeamLocalOnlyReason (list TreeChild) :=
  match names with
  | [] => Ok []
  | name :: names =>
    if negb (valid_utf8 name) then Err NonPortableFilesystemPath
    else if starts_with DOT name then tree_children root directory names
    else if contains 92 name || any is_control (chars name) then Err NonPortableFilesystemPath
    else
      let path := path_join directory name in
      relative ← ok_or (strip_components (components root) (components path))
                   ConcurrentFilesystemMutation;
      relative ← portable_components relative false;
      children ← tree_children root directory names;
      Ok (mkChild path relative :: children)
  end.

Definition read_bounded_children (root directory : list Z) (discovered : Z)
    (limits : TreeTraversalLimits) : M (list TreeChild * Z) :=
  reader ← ask (λ t, host_read_dir t directory);
  reader ← or_io reader "read tree directory" directory;
  '(names, discovered) ← lift_result (collect_names directory limits 0 discovered reader);
  let names := stable_sort bytes_compare names in
  children ← lift_result (tree_children root directory names);
  mret (children, discovered).

(** [push_children_in_reverse]: the stack with its top first. *)
Definition push_children (children : list TreeChild) (depth : Z) (actions : list TreeAction) :
    list TreeAction := ((λ child, Visit child depth) <$> children) ++ actions.

(** A popped action: the walk and the stack after it. *)
Definition tree_step (root : list Z) (argv_index : nat) (limits : TreeTraversalLimits)
    (action : TreeAction) (actions : list TreeAction) (w : Walk) : M (list TreeAction * Walk) :=
  match action with
  | Visit child depth =>
    child_metadata ← link_metadata (child_path child) "inspect tree entry";
    if is_link child_metadata then mthrow (SymlinkPath argv_index)
    else
      entries ← lift_result (ok_or (u64_checked_add (walk_entries w) 1) (ResourceLimit "tree_entries"));
      let w := mkWalk (walk_hashed w) entries (walk_bytes w) (walk_discovered w) in
      if max_observed_entries limits <? entries then mthrow (ResourceLimit "tree_entries")
      else if is_dir child_metadata then
        if max_depth limits <? depth then mthrow (ResourceLimit "tree_depth")
        else
          let w := put (put_u8 1 ++ put_bytes (child_relative child)) w in
          before ← metadata (child_path child) "inspect tree directory";
          if negb (is_dir before) then mthrow ConcurrentFilesystemMutation
          else
            '(children, discovered) ←
              read_bounded_children root (child_path child) (walk_discovered w) limits;
            let w := mkWalk (walk_hashed w) (walk_entries w) (walk_bytes w) discovered in
            mret (push_children children (depth + 1)
                    (ExitDirectory (child_path child) before :: actions), w)
      else if is_file child_metadata then
        projected ← lift_result (ok_or (u64_checked_add (walk_bytes w) (meta_len child_metadata))
                                   (ResourceLimit "tree_bytes"));
        if max_tree_bytes limits <? projected then mthrow (ResourceLimit "tree_bytes")
        else
          '(digest, size) ← stable_file_digest (child_path child) child_metadata;
          if negb (size =? meta_len child_metadata) then mthrow ConcurrentFilesystemMutation
          else
            let w := mkWalk (walk_hashed w) (walk_entries w) projected (walk_discovered w) in
            mret (actions, put (put_u8 3 ++ put_bytes (child_relative child) ++ digest ++ put_u64 size) w)
      else mthrow (UnsupportedFileType argv_index)
  | ExitDirectory path before =>
    after ← metadata path "reinspect tree directory";
    if negb (same_epoch before after) then mthrow ConcurrentFilesystemMutation
    else mret (actions, if negb (bool_decide (components path = components root)) then put (put_u8 2) w else w)
  end.

(** The loop; running out of fuel is a panic, which never happens. *)
Fixpoint tree_loop (fuel : nat) (root : list Z) (argv_index : nat) (limits : TreeTraversalLimits)
    (actions : list TreeAction) (w : Walk) : M Walk :=
  match actions with
  | [] => mret w
  | action :: actions =>
    match fuel with
    | O => λ _, Panicked
    | S fuel =>
      '(actions, w) ← tree_step root argv_index limits action actions w;
      tree_loop fuel root argv_index limits actions w
    end
  end.

(** Each discovered entry is visited and left once; the root is left once. *)
Definition tree_fuel (limits : TreeTraversalLimits) : nat :=
  S (2 * Z.to_nat (max_discovered_entries limits)).

Definition walk_tree_iterative (root : list Z) (argv_index : nat) (limits : TreeTraversalLimits)
    (hashed : list Z) : M Walk :=
  root_before ← metadata root "inspect tree directory";
  if negb (is_dir root_before) then mthrow ConcurrentFilesystemMutation
  else
    '(children, discovered) ← read_bounded_children root root 0 limits;
    tree_loop (tree_fuel limits) root argv_index limits
      (push_children children 1 [ExitDirectory root root_before]) (mkWalk hashed 0 0 discovered).

Definition observe_tree (root : list Z) (argv_index : nat) (limits : TreeTraversalLimits) :
    M TreeSummary :=
  before ← metadata root "inspect tree root";
  if negb (is_dir before) then mthrow ConcurrentFilesystemMutation
  else
    w ← walk_tree_iterative root argv_index limits (put_bytes TREE_DOMAIN);
    after ← metadata root "reinspect tree root";
    if negb (same_epoch before after) then mthrow ConcurrentFilesystemMutation
    else mret (mkSummary (blake3_hash (walk_hashed w)) (walk_entries w) (walk_bytes w)).

(** ** Operands *)

(** The path [strip_prefix] leaves of a canonical path: its names joined. *)
Definition relative_path (parts : list Component) : list Z := join_components (omap normal_name parts).

Definition canonicalize (path : list Z) (operation : string) : M (list Z) :=
  answer ← ask (λ t, host_canonicalize t path); or_io answer operation path.

Definition resolve_workspace_and_cwd (workspace cwd : list Z) : M (list Z * list Z * list Z) :=
  workspace ← canonicalize workspace "canonicalize workspace";
  inspected ← metadata workspace "inspect workspace";
  if negb (is_dir inspected) then mthrow WorkspaceNotDirectory
  else
    cwd ← canonicalize cwd "canonicalize working directory";
    inspected ← metadata cwd "inspect working directory";
    if negb (is_dir inspected) then mthrow WorkingDirectoryNotDirectory
    else
      relative ← lift_result (ok_or (strip_components (components workspace) (components cwd))
                                WorkingDirectoryOutsideRepository);
      relative ← lift_result (portable_components relative true);
      mret (workspace, cwd, relative).

Fixpoint reject_symlink_components (candidate : list Z) (relative : list Component)
    (argv_index : nat) : M () :=
  match relative with
  | [] => mret ()
  | Normal value :: relative =>
    let candidate := path_join candidate value in
    inspected ← operand_metadata candidate "inspect path component" argv_index;
    if is_link inspected then mthrow (SymlinkPath argv_index)
    else reject_symlink_components candidate relative argv_index
  | _ :: relative => reject_symlink_components candidate relative argv_index
  end.

Definition escapes (component : Component) : bool :=
  match component with ParentDir | RootDir => true | _ => false end.

(** The repository-relative path of an operand and its portable spelling: the
    checks of [resolve_operand] that ask the host nothing. *)
Definition operand_path (workspace cwd spelling : list Z) (argv_index : nat) :
    result TeamLocalOnlyReason (list Z * list Z) :=
  if bytes_eqb spelling (bstr "-") then Err (StdinDependent argv_index)
  else if is_absolute spelling then Err (AbsolutePath argv_index)
  else if any escapes (components spelling) then Err (OutsideRepository argv_index)
  else
    normalized ← map_err (λ reason, path_reason reason argv_index)
                   (portable_repository_path spelling false);
    if negb (bytes_eqb normalized spelling) then Err (NonCanonicalPath argv_index)
    else
      cwd_relative ← ok_or (strip_components (components workspace) (components cwd))
                       WorkingDirectoryOutsideRepository;
      let cwd_relative := relative_path cwd_relative in
      let repository_relative :=
        if bool_decide (components spelling = components DOT) then cwd_relative
        else path_join cwd_relative spelling in
      repository_path ← map_err (λ reason, path_reason reason argv_index)
                          (portable_repository_path repository_relative true);
      if path_is_excluded repository_relative then Err (ExcludedPath argv_index)
      else Ok (repository_relative, repository_path).

Definition resolve_operand (workspace cwd spelling : list Z) (argv_index : nat) : M ResolvedOperand :=
  '(repository_relative, repository_path) ← lift_result (operand_path workspace cwd spelling argv_index);
  let absolute := if bytes_eqb repository_relative [] then workspace
                  else path_join workspace repository_relative in
  reject_symlink_components workspace (components repository_relative) argv_index;;
  inspected ← operand_metadata absolute "inspect operand" argv_index;
  if is_link inspected then mthrow (SymlinkPath argv_index)
  else mret (mkResolved absolute repository_path inspected).

(** ** Keys *)

Definition preflight_operand (workspace cwd : list Z) (argv : list (list Z)) (operand : Operand) : M () :=
  spelling ← lift_index (argv !! argv_index operand);
  resolved ← resolve_operand workspace cwd spelling (argv_index operand);
  let m := resolved_metadata resolved in
  if is_file m then
    if TEAM_ALPHA_MAX_FILE_BYTES <? meta_len m then mthrow (ResourceLimit "file_bytes") else mret ()
  else match operand_kind operand with
  | Operands.FileOrTree => if is_dir m then mret () else mthrow (UnsupportedFileType (argv_index operand))
  | Operands.File => mthrow (UnsupportedFileType (argv_index operand))
  end.

(** [parse_command(&argv)] of a request whose first word is present. *)
Definition command_operands (argv : list (list Z)) : M (list Operand) :=
  match argv with
  | command :: arguments => lift_result (parse_command command arguments)
  | [] => λ _, Panicked
  end.

Definition preflight_team_request_v1 (workspace cwd : list Z) (argv : list (list Z))
    (environment : list (list Z * list Z)) : M () :=
  argv ← lift_result (portable_argv argv);
  operands ← command_operands argv;
  _ ← lift_result (modeled_environment environment);
  '(workspace, cwd, _) ← resolve_workspace_and_cwd workspace cwd;
  _ ← mapM (preflight_operand workspace cwd argv) operands;
  mret ().

Definition observe_operand (workspace cwd : list Z) (argv : list (list Z))
    (limits : TreeTraversalLimits) (operand : Operand) : M TeamObservationV1 :=
  spelling ← lift_index (argv !! argv_index operand);
  resolved ← resolve_operand workspace cwd spelling (argv_index operand);
  match operand_kind operand with
  | Operands.File => observe_file resolved (argv_index operand)
  | Operands.FileOrTree =>
    if is_file (resolved_metadata resolved) then observe_file resolved (argv_index operand)
    else if is_dir (resolved_metadata resolved) then
      summary ← observe_tree (resolved_absolute resolved) (argv_index operand) limits;
      mret (mkObservation ObservationKinds.RecursiveTree (resolved_repository_path resolved)
              (summary_digest summary) (summary_entries summary) (summary_bytes summary))
    else mthrow (UnsupportedFileType (argv_index operand))
  end.

Definition build_team_request_key_v1_with_options (input : TeamRequestKeyInput)
    (limits : TreeTraversalLimits) : M TeamRequestKeyV1 :=
  lift_result (validate_namespace (input_tenant_id input) "tenant_id");;
  lift_result (validate_namespace (input_repository_id input) "repository_id");;
  lift_result (validate_generation_id (input_generation_id input));;
  if stdin_is_tty input || stdout_is_tty input || stderr_is_tty input then mthrow TtyDependent
  else
    argv ← lift_result (portable_argv (input_argv input));
    operands ← command_operands argv;
    environment ← lift_result (modeled_environment (input_environment input));
    '(workspace, cwd, relative_cwd) ← resolve_workspace_and_cwd (input_workspace input) (input_cwd input);
    observations ← mapM (observe_operand workspace cwd argv limits) operands;
    let descriptor :=
      mkDescriptor TEAM_REQUEST_KEY_SCHEMA_VERSION (input_tenant_id input) (input_repository_id input)
        (input_generation_id input) relative_cwd argv environment observations
        (input_policy_digest input) (input_execution_profile_digest input)
        (input_platform_digest input) (input_image_digest input) in
    mret (mkRequestKey (digest_descriptor descriptor) descriptor).

(** With fresh statistics and the default limits; the answer and the cache. *)
Definition build_team_request_key_v1_with_cache (input : TeamRequestKeyInput) (t : nat) (cache : C) :
    outcome Session TeamLocalOnlyReason TeamRequestKeyV1 :=
  build_team_request_key_v1_with_options input default_limits (mkSession t cache (mkStats 0 0 0)).
End observation.

#[export] Instance FileIdentity_eq_dec : EqDecision FileIdentity.
Proof. solve_decision. Defined.

#[export] Instance FileIdentity_countable : Countable FileIdentity.
Proof.
  refine (inj_countable'
    (λ i, (identity_device i, identity_inode i, identity_mode i, identity_uid i, identity_gid i,
      identity_size i, identity_mtime_sec i, identity_mtime_nsec i, identity_ctime_sec i, identity_ctime_nsec i))
    (λ '(a, b, c, d, e, f, g, h, i, j), mkFileIdentity a b c d e f g h i j) _).
  by intros [].
Defined.

(** The memory of one invocation over another cache. *)
Record SessionFileDigestCache (C : Type) := mkSessionCache {
  persistent : C;
  memory : gmap FileIdentity (list Z);
}.
Arguments mkSessionCache {_} _ _.
Arguments persistent {_} _.
Arguments memory {_} _.

Definition SessionFileDigestCache_lookup {C} `{FileDigestCache C} (identity : FileIdentity)
    (self : SessionFileDigestCache C) : option (list Z) * SessionFileDigestCache C :=
  match memory self !! identity with
  | Some digest => (Some digest, self)
  | None =>
    let '(answer, cache) := cache_lookup identity (persistent self) in
    match answer with
    | Some digest => (Some digest, mkSessionCache cache (<[identity := digest]> (memory self)))
    | None => (None, mkSessionCache cache (memory self))
    end
  end.

Definition SessionFileDigestCache_record {C} `{FileDigestCache C} (identity : FileIdentity) (digest : list Z)
    (self : SessionFileDigestCache C) : SessionFileDigestCache C :=
  mkSessionCache (cache_record identity digest (persistent self)) (<[identity := digest]> (memory self)).

#[export] Instance session_digest_cache {C} `{FileDigestCache C} :
  FileDigestCache (SessionFileDigestCache C) :=
  {| cache_lookup := SessionFileDigestCache_lookup; cache_record := SessionFileDigestCache_record |}.

(** [NoFileDigestCache]. *)
Definition NoFileDigestCache : FileDigestCache () :=
  {| cache_lookup _ c := (None, c); cache_record _ _ c := c |}.

Definition build_team_request_key_v1 `{TeamHost, Blake3Hash, Blake3} (input : TeamRequestKeyInput) (t : nat) :
    outcome Session TeamLocalOnlyReason TeamRequestKeyV1 :=
  build_team_request_key_v1_with_cache (C := ()) (FileDigestCache0 := NoFileDigestCache) input t ().
