(* ===== verification/RequestTree.v ===== *)
(** * Laws of the portable request key

    The injectivity of a descriptor's bytes; the stack walk over a tree against a
    recursive encoding; the build over a digest cache against the build that
    hashes every file. *)

From Stdlib Require Import String Sorting.Sorted.
From stdpp Require Import gmap.
From S2P Require Import Prelude Monad Bytes ContractTypes Canonical CanonicalSpec CanonicalParse.
From S2P Require Import CanonicalCodec RecordTypes Paths RecordValidation Digest.
From S2P Require Import IdentityRoundTrip RecordTop TreeSpec PathModel Text Team TeamCrypto.
From S2P Require Import TrustBundle TeamLaws TeamRequestKey RequestObservation.
Import Components LocalOnly.

(** ** Typing *)

Definition observation_wf (o : TeamObservationV1) : Prop :=
  is_slice (repository_path o) ∧ is_digest (content_digest o) ∧ is_u64 (observation_entries o) ∧
  is_u64 (observation_bytes o).

Definition modeled_wf (m : ModeledEnvironmentV1) : Prop :=
  is_slice (modeled_name m) ∧ is_digest (value_digest m).

Definition descriptor_wf (d : TeamRequestDescriptorV1) : Prop :=
  is_u16 (schema_version d) ∧ is_slice (tenant_id d) ∧ is_slice (repository_id d) ∧
  is_slice (generation_id d) ∧ is_slice (repository_relative_cwd d) ∧
  wf_list is_slice (normalized_argv d) ∧ wf_list modeled_wf (modeled_environment_of d) ∧
  wf_list observation_wf (observations d) ∧ is_digest (policy_digest d) ∧
  is_digest (execution_profile_digest d) ∧ is_digest (platform_digest d) ∧ is_digest (image_digest d).

(** ** Encoding *)

Lemma raw_digest_prefix : prefix_code is_digest (λ d, d).
Proof. intros a b l k [_ Ha] [_ Hb] He. apply app_inj_1 in He as [-> ->]; [done|congruence]. Qed.

Lemma put_modeled_prefix : prefix_code modeled_wf put_modeled.
Proof.
  intros [] [] l k [? ?] [? ?]. unfold put_modeled. simpl in *. rewrite <- !app_assoc.
  intros [-> [-> ->]%raw_digest_prefix]%put_bytes_prefix; done.
Qed.

Lemma kind_tag_inj k k' : kind_tag k = kind_tag k' → k = k'.
Proof. by destruct k, k'. Qed.

Lemma put_observation_prefix : prefix_code observation_wf put_observation.
Proof.
  intros [k1 p1 c1 e1 b1] [k2 p2 c2 e2 b2] l k (? & ? & ? & ?) (? & ? & ? & ?). unfold put_observation.
  cbn [observation_kind repository_path content_digest observation_entries observation_bytes] in *.
  rewrite <- !app_assoc. intros He.
  apply put_u8_prefix in He as [->%kind_tag_inj He]; [|done..].
  apply put_bytes_prefix in He as [-> He]; [|done..].
  apply raw_digest_prefix in He as [-> He]; [|done..].
  apply put_u64_prefix in He as [-> He]; [|done..].
  by apply put_u64_prefix in He as [-> ->].
Qed.

Lemma counted_app_prefix {A} (wf : A → Prop) f a b l k : prefix_code wf f → wf_list wf a → wf_list wf b →
  put_u64 (len a) ++ flat_map f a ++ l = put_u64 (len b) ++ flat_map f b ++ k → a = b ∧ l = k.
Proof.
  intros Hf Ha Hb He. apply (counted_prefix wf f Hf); [done..|]. unfold put_count. by rewrite <- !app_assoc.
Qed.

Lemma descriptor_bytes_inj d d' : descriptor_wf d → descriptor_wf d' →
  descriptor_bytes d = descriptor_bytes d' → d = d'.
Proof.
  intros (? & ? & ? & ? & ? & Ha & Hm & Ho & ? & ? & ? & ?) (? & ? & ? & ? & ? & Ha' & Hm' & Ho' & ? & ? & ? & ?) He.
  destruct d, d'. unfold descriptor_bytes in He. cbn in * |-. apply app_inv_head in He.
  apply put_u16_prefix in He as [-> He]; [|done..].
  do 4 (apply put_bytes_prefix in He as [-> He]; [|done..]).
  apply (counted_app_prefix is_slice put_bytes) in He as [-> He]; [|apply put_bytes_prefix|done..].
  apply (counted_app_prefix modeled_wf put_modeled) in He as [-> He]; [|apply put_modeled_prefix|done..].
  apply (counted_app_prefix observation_wf put_observation) in He as [-> He];
    [|apply put_observation_prefix|done..].
  do 3 (apply raw_digest_prefix in He as [-> He]; [|done..]). by subst.
Qed.

(** * The tree walk of a request key

    What the stack machine [walk_tree_iterative] of [RequestObservation] computes
    on a file system that holds still: the recursive encoding of the tree of its
    visible entries. A [Forest] is the contents of a directory in the order of
    the walk, each directory with the stream of names the host reports for it. *)

Import Components LocalOnly FileKinds.

(** ** Forests *)

Inductive Forest :=
| Nil
| FileNode (name : list Z) (m : Metadata) (content : list Z) (rest : Forest)
| DirNode (name : list Z) (m : Metadata) (stream : list (list Z)) (children rest : Forest).

Fixpoint names (f : Forest) : list (list Z) :=
  match f with
  | Nil => []
  | FileNode name _ _ rest | DirNode name _ _ _ rest => name :: names rest
  end.

(** The entries, the bytes and the names below the directory's own stream. *)
Fixpoint count (f : Forest) : Z :=
  match f with
  | Nil => 0
  | FileNode _ _ _ rest => 1 + count rest
  | DirNode _ _ _ children rest => 1 + count children + count rest
  end.

Fixpoint total (f : Forest) : Z :=
  match f with
  | Nil => 0
  | FileNode _ _ content rest => len content + total rest
  | DirNode _ _ _ children rest => total children + total rest
  end.

Fixpoint below (f : Forest) : Z :=
  match f with
  | Nil => 0
  | FileNode _ _ _ rest => below rest
  | DirNode _ _ stream children rest => len stream + below children + below rest
  end.

(** The pops of the stack that a forest takes. *)
Fixpoint actions (f : Forest) : nat :=
  match f with
  | Nil => 0
  | FileNode _ _ _ rest => S (actions rest)
  | DirNode _ _ _ children rest => S (actions children + S (actions rest))
  end.

(** What the digest of a tree is about: names and contents. *)
Inductive Shape :=
| NoShape
| FileShape (name content : list Z) (rest : Shape)
| DirShape (name : list Z) (children rest : Shape).

Fixpoint shape (f : Forest) : Shape :=
  match f with
  | Nil => NoShape
  | FileNode name _ content rest => FileShape name content (shape rest)
  | DirNode name _ _ children rest => DirShape name (shape children) (shape rest)
  end.

Fixpoint shape_contents (t : Shape) : list (list Z) :=
  match t with
  | NoShape => []
  | FileShape _ content rest => content :: shape_contents rest
  | DirShape _ children rest => shape_contents children ++ shape_contents rest
  end.

Section encoding.
Context `{Blake3}.

(** The recursive encoding, below the names [ns] from the root. *)
Fixpoint encode (ns : list (list Z)) (t : Shape) : list Z :=
  match t with
  | NoShape => []
  | FileShape name content rest =>
    put_u8 3 ++ put_bytes (join_components (ns ++ [name])) ++ portable_file_content_hasher content
    ++ put_u64 (len content) ++ encode ns rest
  | DirShape name children rest =>
    put_u8 1 ++ put_bytes (join_components (ns ++ [name])) ++ encode (ns ++ [name]) children
    ++ put_u8 2 ++ encode ns rest
  end.

Definition encode_root (t : Shape) : list Z := put_bytes TREE_DOMAIN ++ encode [] t.
End encoding.

(** ** Names *)

Definition portable_name (name : list Z) : Prop :=
  component_name name ∧ valid_utf8 name = true ∧ contains 92 name = false ∧
  any is_control (chars name) = false.

Definition visible (name : list Z) : Prop := starts_with DOT name = false.
#[export] Instance visible_dec name : Decision (visible name) := decide (_ = _).

(** The names of a directory are the visible ones of its stream, sorted. *)
Definition names_of (stream : list (list Z)) (f : Forest) : Prop :=
  Forall (λ name, valid_utf8 name = true) stream ∧
  names f = base.filter visible (stable_sort bytes_compare stream) ∧ Forall portable_name (names f).

Lemma portable_parts_names ns : Forall portable_name ns → portable_parts (Normal <$> ns) = Ok ns.
Proof.
  induction 1 as [|name ns [[Hp _] (Hu & Hb & Hc)] Hf IH]; csimpl; [done|].
  rewrite Hu, Hb, Hc, IH. rewrite bool_decide_eq_false_2; [done|]. by intros ->.
Qed.

Lemma portable_components_names ns allow : ns ≠ [] → Forall portable_name ns →
  portable_components (Normal <$> ns) allow = Ok (join_components ns).
Proof. intros Hn Hf. unfold portable_components. rewrite portable_parts_names by done. by destruct ns. Qed.

Definition children_of (path : list Z) (ns : list (list Z)) (f : Forest) : list TreeChild :=
  (λ name, mkChild (path_join path name) (join_components (ns ++ [name]))) <$> names f.

(** A directory below the root, [ns] away from it. *)
Definition placed (root path : list Z) (ns : list (list Z)) : Prop :=
  path ≠ [] ∧ components path = components root ++ (Normal <$> ns) ∧ Forall portable_name ns.

Lemma placed_child root path ns name : placed root path ns → portable_name name →
  placed root (path_join path name) (ns ++ [name]).
Proof.
  intros (Hp & Hc & Hf) Hn. split; [|split].
  - unfold path_join. destruct Hn as [[Hpn _] _]. by repeat case_match; destruct path, name.
  - rewrite components_entry, Hc, fmap_app, app_assoc by (done || apply Hn). done.
  - apply list.Forall_app. auto.
Qed.

Lemma tree_children_names root path ns l : placed root path ns →
  Forall (λ name, valid_utf8 name = true) l → Forall portable_name (base.filter visible l) →
  tree_children root path l = Ok ((λ name, mkChild (path_join path name) (join_components (ns ++ [name])))
    <$> base.filter visible l).
Proof.
  intros Hpl. induction 1 as [|name l Hu Hl IH]; [done|]. cbn [tree_children]. rewrite Hu. cbn [negb].
  rewrite filter_cons. destruct (decide (visible name)) as [Hd|Hd]; unfold visible in Hd.
  2:{ apply not_false_is_true in Hd. rewrite Hd. apply IH. }
  rewrite Hd. intros [Hn Hf]%list.Forall_cons.
  destruct (placed_child root path ns name Hpl Hn) as (_ & Hc & Hfn).
  destruct Hn as (Hname & _ & Hb & Hctl). rewrite Hb, Hctl. cbn [orb].
  rewrite (proj2 (strip_components_Some _ _ _) Hc). cbn.
  rewrite portable_components_names by (done || by destruct ns). cbn. by rewrite IH.
Qed.

(** ** A host that holds still *)

Section presentation.
Context `{TeamHost} (content_of : FileIdentity → list Z).

(** A file: its metadata, and a handle that reads as its content. The content is
    the one its identity stands for, which is what a digest cache relies on. *)
Definition presents_file (path : list Z) (m : Metadata) (content : list Z) : Prop :=
  is_file m = true ∧ is_dir m = false ∧ is_link m = false ∧
  meta_len m = len content ∧ len content <= TEAM_ALPHA_MAX_FILE_BYTES ∧
  content_of (FileIdentity_from_metadata m) = content ∧
  (∀ t, host_symlink_metadata t path = Ok m) ∧
  ∃ file chunks, (∀ t, host_open t path = Some file) ∧ (∀ t, host_file_metadata t file = Some m) ∧
    (∀ t, host_read t file = Some <$> chunks) ∧ concat chunks = content ∧
    Forall (λ chunk, chunk ≠ []) chunks.

Definition presents_directory (path : list Z) (m : Metadata) (stream : list (list Z)) : Prop :=
  is_dir m = true ∧ is_link m = false ∧ (∀ t, host_symlink_metadata t path = Ok m) ∧
  (∀ t, host_metadata t path = Some m) ∧ (∀ t, host_read_dir t path = Some (Some <$> stream)).

Fixpoint presents (path : list Z) (f : Forest) : Prop :=
  match f with
  | Nil => True
  | FileNode name m content rest => presents_file (path_join path name) m content ∧ presents path rest
  | DirNode name m stream children rest =>
    presents_directory (path_join path name) m stream ∧ names_of stream children ∧
    presents (path_join path name) children ∧ presents path rest
  end.
End presentation.

(** The limits of a walk: machine integers, and what a forest at depth [d] needs. *)
Definition limits_wf (l : TreeTraversalLimits) : Prop :=
  max_directory_entries l <= U64_MAX ∧ max_discovered_entries l <= U64_MAX ∧
  max_observed_entries l <= U64_MAX ∧ max_tree_bytes l <= U64_MAX.

Fixpoint shallow (l : TreeTraversalLimits) (d : Z) (f : Forest) : Prop :=
  match f with
  | Nil => True
  | FileNode _ _ _ rest => shallow l d rest
  | DirNode _ _ stream children rest =>
    d <= max_depth l ∧ len stream <= max_directory_entries l ∧ shallow l (d + 1) children ∧
    shallow l d rest
  end.

Definition fits (l : TreeTraversalLimits) (w : Walk) (f : Forest) : Prop :=
  0 <= walk_entries w ∧ walk_entries w + count f <= max_observed_entries l ∧
  0 <= walk_bytes w ∧ walk_bytes w + total f <= max_tree_bytes l ∧
  0 <= walk_discovered w ∧ walk_discovered w + below f <= max_discovered_entries l.

Definition walked `{Blake3} (ns : list (list Z)) (f : Forest) (w : Walk) : Walk :=
  mkWalk (walk_hashed w ++ encode ns (shape f)) (walk_entries w + count f) (walk_bytes w + total f)
    (walk_discovered w + below f).

(** The goal up to rearranging sums and appended lists. *)
Ltac eqgoal H := revert H; match goal with |- ?P → ?Q => cut (P = Q); [by intros ->|] end;
  unfold walked, put; cbn [shape encode count total below walk_hashed walk_entries walk_bytes walk_discovered];
  rewrite <- ?app_assoc; do 2 f_equal; f_equal; lia.

Lemma sizes_nonneg f : 0 <= count f ∧ 0 <= total f ∧ 0 <= below f.
Proof. induction f; cbn; unfold len in *; lia. Qed.

(** ** Running *)

Lemma bind_run {S E A B} (m : state_m S E A) (k : A → state_m S E B) s a s' :
  m s = Returned a s' → (m ≫= k) s = k a s'.
Proof. intros Hm. unfold mbind, state_bind. by rewrite Hm. Qed.

Lemma same_epoch_refl m : same_epoch m m = true.
Proof. unfold same_epoch. by rewrite !Z.eqb_refl. Qed.

Lemma read_loop_chunks path bytes hashed chunks : 0 <= bytes →
  bytes + len (concat chunks) <= TEAM_ALPHA_MAX_FILE_BYTES → Forall (λ chunk, chunk ≠ []) chunks →
  read_loop path bytes hashed (Some <$> chunks) = Ok (bytes + len (concat chunks), hashed ++ concat chunks).
Proof.
  intros Hb Hl Hf. revert bytes hashed Hb Hl.
  induction Hf as [|chunk chunks Hc Hf IH]; intros bytes hashed Hb Hl; csimpl.
  - by rewrite Z.add_0_r, app_nil_r.
  - csimpl in Hl. rewrite len_app in *. pose proof (len_nonneg (concat chunks)).
    pose proof (len_nonneg chunk). destruct chunk as [|b tl] eqn:He; [done|]. rewrite <- He in *.
    assert (u64_checked_add bytes (len chunk) = Some (bytes + len chunk)) as ->.
    { apply u64_checked_add_Some. unfold TEAM_ALPHA_MAX_FILE_BYTES in Hl. unfold U64_MAX. lia. }
    cbn. rewrite (proj2 (Z.ltb_ge _ _)) by lia. rewrite IH by lia.
    by rewrite <- app_assoc, Z.add_assoc.
Qed.

Lemma collect_names_all path l here discovered stream : limits_wf l → 0 <= here → 0 <= discovered →
  here + len stream <= max_directory_entries l → discovered + len stream <= max_discovered_entries l →
  collect_names path l here discovered (Some <$> stream) = Ok (stream, discovered + len stream).
Proof.
  intros (Hw1 & Hw2 & _). revert here discovered.
  induction stream as [|name stream IH]; intros here discovered Hh Hd Hl1 Hl2; csimpl.
  { by rewrite Z.add_0_r. }
  rewrite len_cons in *. pose proof (len_nonneg stream).
  rewrite !(proj2 (u64_checked_add_Some _ 1 _)) by (split; [done|lia]). cbn.
  rewrite !(proj2 (Z.ltb_ge _ _)) by lia. rewrite IH by lia. cbn. do 2 f_equal. lia.
Qed.

Create HintDb walk discriminated.

(** The digest cache is a view of the contents: what it holds satisfies [sound]. *)
Class SoundCache {C} `{FileDigestCache C, Blake3} (content_of : FileIdentity → list Z) (sound : C → Prop) := {
  lookup_sound identity c answer c' : sound c → cache_lookup identity c = (answer, c') →
    sound c' ∧ ∀ digest, answer = Some digest → digest = portable_file_content_hasher (content_of identity);
  record_sound identity c : sound c →
    sound (cache_record identity (portable_file_content_hasher (content_of identity)) c);
}.

Section walks.
Context `{TeamHost, Blake3Hash, Blake3} {C : Type} `{!FileDigestCache C}.
Context (content_of : FileIdentity → list Z) (sound : C → Prop) `{!SoundCache content_of sound}.

(** From every state with a sound cache, [m] returns [a] and leaves one. *)
Definition yields {A} (m : M (C := C) A) (a : A) : Prop :=
  ∀ s, sound (session_cache s) → ∃ s', m s = Returned a s' ∧ sound (session_cache s').

Lemma yields_ret {A} (a : A) : yields (mret a) a.
Proof. intros s Hs. by exists s. Qed.

Lemma yields_bind {A B} (m : M A) (k : A → M B) a b : yields m a → yields (k a) b → yields (m ≫= k) b.
Proof.
  intros Hm Hk s Hs. destruct (Hm s Hs) as (s1 & Hr & Hs1). rewrite (bind_run _ _ _ _ _ Hr). by apply Hk.
Qed.

Lemma yields_ask {A} (call : nat → A) a : (∀ t, call t = a) → yields (ask call) a.
Proof. intros Hc s Hs. unfold ask. rewrite Hc. by eexists. Qed.

Lemma yields_lift {A} (r : result TeamLocalOnlyReason A) a : r = Ok a → yields (lift_result r) a.
Proof. intros -> s Hs. by exists s. Qed.

Lemma yields_or_io {A} (a : A) operation path : yields (or_io (Some a) operation path) a.
Proof. by apply yields_lift. Qed.

Lemma yields_stats f : yields (with_stats f) ().
Proof. intros s Hs. by eexists. Qed.

Lemma yields_metadata path operation m : (∀ t, host_metadata t path = Some m) →
  yields (metadata path operation) m.
Proof. intros Hm. eapply yields_bind; [by apply yields_ask|apply yields_or_io]. Qed.

Lemma yields_link_metadata path operation m : (∀ t, host_symlink_metadata t path = Ok m) →
  yields (link_metadata path operation) m.
Proof. intros Hm. eapply yields_bind; [by apply yields_ask|apply yields_or_io]. Qed.

Lemma yields_record identity : yields
  (record_digest identity (portable_file_content_hasher (content_of identity))) ().
Proof.
  intros s Hs. unfold record_digest. destruct (FileIdentity_is_valid identity); eexists; (split; [done|]); cbn.
  - by apply record_sound.
  - done.
Qed.

#[local] Hint Resolve yields_ret yields_ask yields_lift yields_or_io yields_stats yields_metadata
  yields_link_metadata yields_record : walk.

Lemma yields_lookup identity s : sound (session_cache s) → ∃ answer s1,
  lookup_digest identity s = Returned answer s1 ∧ sound (session_cache s1) ∧
  ∀ d, answer = Some d → d = portable_file_content_hasher (content_of identity).
Proof.
  intros Hs. unfold lookup_digest. destruct (FileIdentity_is_valid _); [|by exists None, s].
  destruct (cache_lookup _ _) as [answer c'] eqn:Hk.
  destruct (lookup_sound _ _ _ _ Hs Hk) as [Hs' Ha]. eexists _, _; (split; [done|]). auto.
Qed.

(** A file, whether its digest is cached or not. *)
Lemma yields_file path m content : presents_file content_of path m content →
  yields (stable_file_digest path m) (portable_file_content_hasher content, len content).
Proof.
  intros (Hf & _ & _ & Hl & Hmax & Hc & Hm & file & chunks & Hopen & Hmeta & Hread & Hcat & Hne) s Hs.
  unfold stable_file_digest. rewrite Hl, (proj2 (Z.ltb_ge _ _)) by done. cbv zeta.
  destruct (yields_lookup (FileIdentity_from_metadata m) s Hs) as (answer & s1 & Hr & Hs1 & Ha).
  rewrite Hc in Ha.
  rewrite (bind_run _ _ _ _ _ Hr). destruct answer as [digest|].
  - rewrite (Ha _ eq_refl). revert s1 Hr Hs1. intros s1 _. revert s1. change (yields (cached_file_digest path m
      (portable_file_content_hasher content)) (portable_file_content_hasher content, len content)).
    unfold cached_file_digest. do 5 (eapply yields_bind; [eauto with walk|]).
    rewrite Hf, same_epoch_refl. cbn [negb orb]. rewrite <- Hl. eapply yields_bind; auto with walk.
  - clear Ha Hr. revert s1 Hs1. change (yields (hashed_file_digest path m (FileIdentity_from_metadata m))
      (portable_file_content_hasher content, len content)).
    unfold hashed_file_digest. do 4 (eapply yields_bind; [eauto with walk|]).
    rewrite Hf, same_epoch_refl. cbn [negb orb]. do 2 (eapply yields_bind; [eauto with walk|]).
    + apply yields_lift. apply read_loop_chunks; [done| |done]. by rewrite Hcat.
    + rewrite Hcat. cbn [app]. do 3 (eapply yields_bind; [eauto with walk|]).
      rewrite Hl, Z.add_0_l, Z.eqb_refl, same_epoch_refl. cbn [negb orb].
      pose proof (yields_record (FileIdentity_from_metadata m)) as Hrecord. rewrite Hc in Hrecord.
      eapply yields_bind; [exact Hrecord|]. eapply yields_bind; auto with walk.
Qed.

(** ** Directories *)

Context (root : list Z) (argv_index : nat) (l : TreeTraversalLimits) (Hl : limits_wf l).

Lemma yields_children path m stream f ns discovered : presents_directory path m stream →
  names_of stream f → placed root path ns → 0 <= discovered →
  len stream <= max_directory_entries l → discovered + len stream <= max_discovered_entries l →
  yields (read_bounded_children root path discovered l) (children_of path ns f, discovered + len stream).
Proof.
  intros (_ & _ & _ & _ & Hread) (Hu & Hnames & Hf) Hpl Hd Hm1 Hm2. unfold read_bounded_children.
  do 2 (eapply yields_bind; [eauto with walk|]).
  eapply yields_bind; [by apply yields_lift, collect_names_all|]. cbv beta iota zeta.
  eapply yields_bind; [|apply yields_ret]. apply yields_lift. unfold children_of. rewrite Hnames in *.
  apply tree_children_names; [done| |done]. by rewrite stable_sort_Permutation.
Qed.

Lemma placed_not_root path ns name : placed root path (ns ++ [name]) → components path ≠ components root.
Proof.
  intros (_ & Hc & _) He. rewrite Hc in He. apply (f_equal length) in He.
  rewrite length_app, length_fmap, length_app in He. cbn in He. lia.
Qed.

Lemma yields_step action actions w k r next w' :
  yields (tree_step root argv_index l action actions w) (next, w') →
  yields (tree_loop k root argv_index l next w') r →
  yields (tree_loop (S k) root argv_index l (action :: actions) w) r.
Proof. intros Hs Hk. cbn [tree_loop]. by eapply yields_bind. Qed.

Lemma step_entry child m d rest w : (∀ t, host_symlink_metadata t (child_path child) = Ok m) →
  is_link m = false → 0 <= walk_entries w → walk_entries w + 1 <= max_observed_entries l → ∀ r,
  yields (if is_dir m then
      if max_depth l <? d then mthrow (ResourceLimit "tree_depth")
      else
        let w := put (put_u8 1 ++ put_bytes (child_relative child))
                   (mkWalk (walk_hashed w) (walk_entries w + 1) (walk_bytes w) (walk_discovered w)) in
        before ← metadata (child_path child) "inspect tree directory";
        if negb (is_dir before) then mthrow ConcurrentFilesystemMutation
        else
          '(children, discovered) ←
            read_bounded_children root (child_path child) (walk_discovered w) l;
          let w := mkWalk (walk_hashed w) (walk_entries w) (walk_bytes w) discovered in
          mret (push_children children (d + 1) (ExitDirectory (child_path child) before :: rest), w)
    else if is_file m then
      projected ← lift_result (ok_or (u64_checked_add (walk_bytes w) (meta_len m))
                                 (ResourceLimit "tree_bytes"));
      if max_tree_bytes l <? projected then mthrow (ResourceLimit "tree_bytes")
      else
        '(digest, size) ← stable_file_digest (child_path child) m;
        if negb (size =? meta_len m) then mthrow ConcurrentFilesystemMutation
        else
          let w := mkWalk (walk_hashed w) (walk_entries w + 1) projected (walk_discovered w) in
          mret (rest, put (put_u8 3 ++ put_bytes (child_relative child) ++ digest ++ put_u64 size) w)
    else mthrow (UnsupportedFileType argv_index)) r →
  yields (tree_step root argv_index l (Visit child d) rest w) r.
Proof.
  intros Hm Hlink Hw0 Hw r Hr. cbn [tree_step]. eapply yields_bind; [eauto with walk|]. rewrite Hlink.
  destruct Hl as (_ & _ & Ho & _). eapply yields_bind.
  - apply yields_lift. rewrite (proj2 (u64_checked_add_Some _ _ _)) by (split; [done|lia]). done.
  - cbv zeta. cbn [walk_hashed walk_entries walk_bytes walk_discovered].
    rewrite (proj2 (Z.ltb_ge _ _)) by done. exact Hr.
Qed.

Lemma step_file child m content d rest w : presents_file content_of (child_path child) m content →
  0 <= walk_entries w → walk_entries w + 1 <= max_observed_entries l →
  0 <= walk_bytes w → walk_bytes w + len content <= max_tree_bytes l →
  yields (tree_step root argv_index l (Visit child d) rest w)
    (rest, mkWalk (walk_hashed w ++ put_u8 3 ++ put_bytes (child_relative child)
                     ++ portable_file_content_hasher content ++ put_u64 (len content))
             (walk_entries w + 1) (walk_bytes w + len content) (walk_discovered w)).
Proof.
  intros Hp Hw0 Hw Hb0 Hb. pose proof Hp as (Hf & Hd & Hlink & Hlen & _ & _ & Hm & _).
  eapply step_entry; [done..|]. rewrite Hd, Hf, Hlen. destruct Hl as (_ & _ & _ & Ht).
  eapply yields_bind.
  { apply yields_lift. rewrite (proj2 (u64_checked_add_Some _ _ _)) by (split; [done|lia]). done. }
  cbv beta. rewrite (proj2 (Z.ltb_ge _ _)) by done.
  eapply yields_bind; [by apply yields_file|]. cbv beta iota zeta. rewrite Z.eqb_refl. apply yields_ret.
Qed.

Lemma step_directory child m stream f ns d rest w :
  presents_directory (child_path child) m stream → names_of stream f → placed root (child_path child) ns →
  d <= max_depth l → len stream <= max_directory_entries l →
  0 <= walk_entries w → walk_entries w + 1 <= max_observed_entries l →
  0 <= walk_discovered w → walk_discovered w + len stream <= max_discovered_entries l →
  yields (tree_step root argv_index l (Visit child d) rest w)
    (push_children (children_of (child_path child) ns f) (d + 1) (ExitDirectory (child_path child) m :: rest),
     mkWalk (walk_hashed w ++ put_u8 1 ++ put_bytes (child_relative child)) (walk_entries w + 1)
       (walk_bytes w) (walk_discovered w + len stream)).
Proof.
  intros Hp Hnames Hpl Hdepth Hs Hw0 Hw Hd0 Hd. pose proof Hp as (Hdir & Hlink & Hm & Hm' & _).
  eapply step_entry; [done..|]. rewrite Hdir, (proj2 (Z.ltb_ge _ _)) by done. cbv zeta.
  eapply yields_bind; [eauto with walk|]. rewrite Hdir. cbn [negb].
  eapply yields_bind; [by eapply yields_children|]. apply yields_ret.
Qed.

Lemma step_exit path ns name m rest w : placed root path (ns ++ [name]) →
  (∀ t, host_metadata t path = Some m) →
  yields (tree_step root argv_index l (ExitDirectory path m) rest w) (rest, put (put_u8 2) w).
Proof.
  intros Hpl Hm. cbn [tree_step]. eapply yields_bind; [eauto with walk|].
  rewrite same_epoch_refl, bool_decide_eq_false_2 by (by eapply placed_not_root). apply yields_ret.
Qed.

(** The walk over the children of a directory. *)
Lemma yields_forest f : ∀ path ns d rest w k r,
  placed root path ns → presents content_of path f → Forall portable_name (names f) →
  shallow l d f → fits l w f →
  yields (tree_loop k root argv_index l rest (walked ns f w)) r →
  yields (tree_loop (actions f + k) root argv_index l (push_children (children_of path ns f) d rest) w) r.
Proof.
  induction f as [|name m content f IH|name m stream children IHc f IH];
    intros path ns d rest w k r Hpl Hp Hn Hs Hf Hk.
  - destruct w. unfold walked in Hk. cbn in *. by rewrite app_nil_r, !Z.add_0_r in Hk.
  - destruct Hp as [Hp1 Hp]. apply list.Forall_cons in Hn as [Hn1 Hn].
    pose proof (sizes_nonneg f) as (? & ? & ?). pose proof (len_nonneg content).
    unfold fits in Hf. cbn [count total below] in Hf.
    eapply yields_step; [eapply step_file; [exact Hp1|lia..]|].
    eapply (IH path ns d); [done..| |]; [unfold fits; cbn [walk_entries walk_bytes walk_discovered]; lia|].
    eqgoal Hk.
  - destruct Hp as (Hp1 & Hnames & Hpc & Hp). apply list.Forall_cons in Hn as [Hn1 Hn].
    destruct Hs as (Hd & Hsl & Hsc & Hs).
    pose proof (sizes_nonneg f) as (? & ? & ?). pose proof (sizes_nonneg children) as (? & ? & ?).
    pose proof (len_nonneg stream). unfold fits in Hf. cbn [count total below] in Hf.
    pose proof (placed_child _ _ _ _ Hpl Hn1) as Hplc.
    eapply yields_step; [eapply step_directory; [exact Hp1|exact Hnames|exact Hplc|lia..]|].
    cbn [child_path child_relative]. rewrite <- Nat.add_assoc.
    eapply IHc; [exact Hplc|exact Hpc|apply Hnames|done| |];
      [unfold fits; cbn [walk_entries walk_bytes walk_discovered]; lia|].
    cbn [Nat.add]. eapply yields_step; [eapply step_exit; [exact Hplc|apply Hp1]|].
    eapply (IH path ns d); [done..| |];
      [unfold fits; cbn [put walked walk_entries walk_bytes walk_discovered]; lia|].
    eqgoal Hk.
Qed.

(** ** Fuel *)

Lemma len_names stream f : names_of stream f → len (names f) <= len stream.
Proof.
  intros (_ & -> & _). unfold len. pose proof (length_filter visible (stable_sort bytes_compare stream)).
  pose proof (Permutation_length (stable_sort_Permutation bytes_compare stream)). lia.
Qed.

Lemma count_below f path : presents content_of path f → count f <= len (names f) + below f.
Proof.
  revert path. induction f as [|name m content f IH|name m stream children IHc f IH]; intros path Hp.
  - done.
  - destruct Hp as [_ Hp]. specialize (IH _ Hp). cbn [names count below]. rewrite len_cons. lia.
  - destruct Hp as (_ & Hn & Hc & Hp). specialize (IH _ Hp). specialize (IHc _ Hc).
    apply len_names in Hn. cbn [names count below]. rewrite len_cons. lia.
Qed.

Lemma actions_count f : Z.of_nat (actions f) <= 2 * count f.
Proof. induction f; cbn [actions count]; lia. Qed.

(** ** The whole walk *)

Lemma yields_tree m stream f hashed :
  root ≠ [] → presents_directory root m stream → names_of stream f → presents content_of root f →
  shallow l 1 f → len stream <= max_directory_entries l → count f <= max_observed_entries l →
  total f <= max_tree_bytes l → len stream + below f <= max_discovered_entries l →
  yields (walk_tree_iterative root argv_index l hashed)
    (mkWalk (hashed ++ encode [] (shape f)) (count f) (total f) (len stream + below f)).
Proof.
  intros Hr Hp Hn Hpf Hs Hm1 Hm2 Hm3 Hm4. pose proof Hp as (Hd & _ & _ & Hm & _).
  assert (placed root root []) as Hpl by (split; [done|split; [by rewrite app_nil_r|done]]).
  pose proof (sizes_nonneg f) as (? & ? & ?). pose proof (len_nonneg stream).
  unfold walk_tree_iterative. eapply yields_bind; [eauto with walk|]. rewrite Hd. cbn [negb].
  eapply yields_bind; [apply (yields_children root m stream f []); done || lia|]. cbv beta iota.
  pose proof (count_below _ _ Hpf). pose proof (len_names _ _ Hn). pose proof (actions_count f).
  replace (tree_fuel l) with (actions f + S (tree_fuel l - S (actions f)))%nat by (unfold tree_fuel; lia).
  eapply yields_forest; [done..|apply Hn|done| |].
  { unfold fits. cbn [walk_entries walk_bytes walk_discovered]. lia. }
  eapply yields_step.
  - cbn [tree_step]. eapply yields_bind; [eauto with walk|].
    rewrite same_epoch_refl, bool_decide_eq_true_2 by done. apply yields_ret.
  - destruct (tree_fuel l - S (actions f))%nat; cbn [negb tree_loop]; unfold walked;
      cbn [walk_hashed walk_entries walk_bytes walk_discovered]; rewrite !Z.add_0_l; apply yields_ret.
Qed.
End walks.

#[export] Hint Resolve yields_ret yields_ask yields_lift yields_or_io yields_stats yields_metadata
  yields_link_metadata yields_record : walk.

(** * The digest cache of a request key

    A build over a digest cache, against the same build that hashes every file:
    on a file system that holds still the cache changes no key. *)

Import Components LocalOnly FileKinds.

(** The answers of the host do not depend on the time, and what a regular file
    reads as is a function of its identity. *)
Class QuietHost `{TeamHost} (content_of : FileIdentity → list Z) : Prop := {
  quiet_canonicalize t u path : host_canonicalize t path = host_canonicalize u path;
  quiet_metadata t u path : host_metadata t path = host_metadata u path;
  quiet_symlink_metadata t u path : host_symlink_metadata t path = host_symlink_metadata u path;
  quiet_open t u path : host_open t path = host_open u path;
  quiet_file_metadata t u file : host_file_metadata t file = host_file_metadata u file;
  quiet_read t u file : host_read t file = host_read u file;
  quiet_read_dir t u path : host_read_dir t path = host_read_dir u path;
  quiet_content t path file m content : host_file_metadata t file = Some m → is_file m = true →
    read_loop path 0 [] (host_read t file) = Ok (meta_len m, content) →
    content = content_of (FileIdentity_from_metadata m);
}.

Lemma same_epoch_identity m m' : same_epoch m m' = true →
  FileIdentity_from_metadata m = FileIdentity_from_metadata m' ∧ meta_len m = meta_len m'.
Proof.
  unfold same_epoch. rewrite !andb_true_iff, !Z.eqb_eq.
  intros [[[[[[[[[? ?] ?] ?] ?] ?] ?] ?] ?] ?]. unfold FileIdentity_from_metadata. split; congruence.
Qed.

Section transparency.
Context `{TeamHost, Blake3Hash, Blake3} {C D : Type} `{!FileDigestCache C, !FileDigestCache D}.
Context (content_of : FileIdentity → list Z) (sound : C → Prop) (sound' : D → Prop).
Context `{!SoundCache content_of sound, !SoundCache content_of sound', !QuietHost content_of}.

(** Whatever [m] returns, [n] returns too, over any other sound cache. *)
Definition follows {A} (m : M (C := C) A) (n : M (C := D) A) : Prop :=
  ∀ s u a s', sound (session_cache s) → sound' (session_cache u) → m s = Returned a s' →
  sound (session_cache s') ∧ ∃ u', n u = Returned a u' ∧ sound' (session_cache u').

Lemma follows_ret {A} (a : A) : follows (mret a) (mret a).
Proof. intros s u b s' Hs Hu [= <- <-]. split; [done|]. by exists u. Qed.

Lemma follows_throw {A} (e : TeamLocalOnlyReason) (n : M A) : follows (mthrow e) n.
Proof. by intros s u b s' Hs Hu. Qed.

Lemma follows_bind {A B} (m : M A) n (k : A → M B) j :
  follows m n → (∀ a, follows (k a) (j a)) → follows (m ≫= k) (n ≫= j).
Proof.
  intros Hm Hk s u b s' Hs Hu. unfold mbind, state_bind. destruct (m s) as [a s1|e s1|] eqn:Hr; try done.
  destruct (Hm s u a s1 Hs Hu Hr) as (Hs1 & u1 & -> & Hu1). by apply Hk.
Qed.

Lemma follows_ask {A} (call : nat → A) : (∀ t v, call t = call v) → follows (ask call) (ask call).
Proof.
  intros Hc s u a s' Hs Hu [= <- <-]. split; [done|]. unfold ask. rewrite (Hc (clock s) (clock u)).
  by eexists.
Qed.

Lemma follows_lift {A} (r : result TeamLocalOnlyReason A) : follows (lift_result r) (lift_result r).
Proof. destruct r; [apply follows_ret|apply follows_throw]. Qed.

Lemma follows_index {A} (o : option A) : follows (lift_index o) (lift_index o).
Proof. destruct o; [apply follows_ret|]. by intros s u b s' Hs Hu. Qed.

Lemma follows_stats f g : follows (with_stats f) (with_stats g).
Proof. intros s u a s' Hs Hu [= <- <-]. split; [done|]. by eexists. Qed.

Lemma follows_record identity : follows
  (record_digest identity (portable_file_content_hasher (content_of identity)))
  (record_digest identity (portable_file_content_hasher (content_of identity))).
Proof.
  intros s u a s' Hs Hu. unfold record_digest. destruct (FileIdentity_is_valid identity); intros [= <- <-];
    (split; [|eexists; split; [done|]]); cbn; by try apply record_sound.
Qed.

Lemma follows_if {A} (b : bool) (m m' : M A) n n' :
  (b = true → follows m n) → (b = false → follows m' n') → follows (if b then m else m') (if b then n else n').
Proof. destruct b; auto. Qed.

Lemma follows_mapM {A B} (f : A → M B) g l : (∀ a, follows (f a) (g a)) → follows (mapM f l) (mapM g l).
Proof.
  intros Hf. induction l as [|a l IH]; cbn [mapM]; [apply follows_ret|].
  apply follows_bind; [apply Hf|]. intros b. apply follows_bind; [apply IH|]. intros bs. apply follows_ret.
Qed.

(** ** Files *)

Context (cold : ∀ identity (c : C), (cache_lookup identity c).1 = None).

Lemma returned_bind {S E A B} (m : state_m S E A) (k : A → state_m S E B) s b s' :
  (m ≫= k) s = Returned b s' → ∃ a s1, m s = Returned a s1 ∧ k a s1 = Returned b s'.
Proof. unfold mbind, state_bind. destruct (m s); naive_solver. Qed.

Lemma returned_or_io {A} (o : option A) operation path s a s' :
  (or_io o operation path : M (C := C) A) s = Returned a s' → o = Some a ∧ s' = s.
Proof. unfold or_io, lift_result, ok_or. destruct o; naive_solver. Qed.

Lemma returned_link_metadata path operation s m s' :
  (link_metadata path operation : M (C := C) _) s = Returned m s' →
  (∀ t, host_symlink_metadata t path = Ok m) ∧ session_cache s' = session_cache s.
Proof.
  intros (answer & s1 & [= <- <-] & [Hm ->]%returned_or_io)%returned_bind. split; [|done].
  intros t. rewrite (quiet_symlink_metadata t (clock s)). by case_match; simplify_eq.
Qed.

(** What the answers are for a file that is hashed. *)
Definition hashed_facts (path : list Z) (before : Metadata) (content : list Z) : Prop :=
  ∃ file opened after, (∀ t, host_open t path = Some file) ∧
    (∀ t, host_file_metadata t file = Some opened) ∧
    (∀ t, host_symlink_metadata t path = Ok after) ∧
    (∀ t, read_loop path 0 [] (host_read t file) = Ok (meta_len before, content)) ∧
    is_file opened = true ∧ same_epoch before opened = true ∧ same_epoch before after = true ∧
    same_epoch opened after = true ∧ content_of (FileIdentity_from_metadata before) = content.

Lemma same_epoch_trans m m1 m2 : same_epoch m m1 = true → same_epoch m m2 = true → same_epoch m1 m2 = true.
Proof.
  unfold same_epoch. rewrite !andb_true_iff, !Z.eqb_eq.
  intros [[[[[[[[[? ?] ?] ?] ?] ?] ?] ?] ?] ?] [[[[[[[[[? ?] ?] ?] ?] ?] ?] ?] ?] ?]. split_and!; congruence.
Qed.

Lemma hashed_returned path before s d n s' : sound (session_cache s) →
  hashed_file_digest path before (FileIdentity_from_metadata before) s = Returned (d, n) s' →
  sound (session_cache s') ∧ ∃ content, hashed_facts path before content ∧
    d = portable_file_content_hasher content ∧ n = meta_len before.
Proof.
  intros Hs. unfold hashed_file_digest.
  intros (a1 & s1 & [= <- <-] & (file & s2 & [Hopen ->]%returned_or_io & H2)%returned_bind)%returned_bind.
  apply returned_bind in H2 as (a3 & s3 & [= <- <-] & (opened & s4 & [Hmeta ->]%returned_or_io & H4)%returned_bind).
  destruct (same_epoch before opened) eqn:He1; [|done]. destruct (is_file opened) eqn:Hf; [|done].
  cbn [negb orb] in H4. apply returned_bind in H4 as (reads & s5 & [= <- <-] & H5).
  apply returned_bind in H5 as ([bytes content] & s6 & Hread & H6).
  unfold lift_result in Hread. destruct (read_loop _ _ _ _) as [[bytes' content']|] eqn:Hloop; [|done].
  injection Hread as -> -> <-.
  apply returned_bind in H6 as (a7 & s7 & [= <- <-] & (opened' & s8 & [Hmeta' ->]%returned_or_io & H8)%returned_bind).
  apply returned_bind in H8 as (after & s9 & [Hlink Hc]%returned_link_metadata & H9).
  destruct (Z.eqb_spec bytes (meta_len before)) as [->|]; [|done].
  destruct (same_epoch before opened'); [|done]. destruct (same_epoch before after) eqn:He2; [|done].
  cbn [negb orb] in H9. cbn in Hc.
  pose proof (same_epoch_identity _ _ He1) as [Hid Hlen].
  assert (content = content_of (FileIdentity_from_metadata before)) as Hcontent.
  { rewrite Hid. rewrite Hlen in Hloop. eapply quiet_content; [exact Hmeta|done|].
    erewrite quiet_read; exact Hloop. }
  apply returned_bind in H9 as ([] & s10 & Hrec & [= <- <- <-]). split.
  - cbn. unfold record_digest in Hrec. destruct (FileIdentity_is_valid _); simplify_eq/=; rewrite Hc; cbn.
    + by apply record_sound.
    + done.
  - exists content. split; [|done]. exists file, opened, after. split_and!; try done.
    + intros t. by rewrite <- Hopen; apply quiet_open.
    + intros t. by rewrite <- Hmeta; apply quiet_file_metadata.
    + intros t. by rewrite <- Hloop; f_equal; apply quiet_read.
    + by eapply same_epoch_trans.
Qed.

Lemma yields_hashed path before content : hashed_facts path before content →
  yields sound' (stable_file_digest path before) (portable_file_content_hasher content, meta_len before)
  ∨ TEAM_ALPHA_MAX_FILE_BYTES < meta_len before.
Proof.
  intros (file & opened & after & Hopen & Hmeta & Hlink & Hread & Hf & He1 & He2 & He3 & Hc).
  destruct (Z.ltb_spec TEAM_ALPHA_MAX_FILE_BYTES (meta_len before)) as [|Hmax]; [by right|]. left.
  intros u Hu. unfold stable_file_digest. rewrite (proj2 (Z.ltb_ge _ _)) by done. cbv zeta.
  destruct (yields_lookup content_of sound' (FileIdentity_from_metadata before) u Hu)
    as (answer & u1 & Hr & Hu1 & Ha).
  rewrite (bind_run _ _ _ _ _ Hr). clear Hr. destruct answer as [digest|].
  - rewrite (Ha _ eq_refl), Hc. clear Ha. revert u1 Hu1. change (yields sound' (cached_file_digest path before
      (portable_file_content_hasher content)) (portable_file_content_hasher content, meta_len before)).
    unfold cached_file_digest. do 5 (eapply yields_bind; [eauto with walk|]).
    rewrite Hf, He1, He2, He3. cbn [negb orb]. eapply yields_bind; auto with walk.
  - clear Ha. revert u1 Hu1. change (yields sound' (hashed_file_digest path before
      (FileIdentity_from_metadata before)) (portable_file_content_hasher content, meta_len before)).
    unfold hashed_file_digest. do 4 (eapply yields_bind; [eauto with walk|]).
    rewrite Hf, He1. cbn [negb orb].
    eapply yields_bind; [apply yields_ask; intros t; apply (quiet_read t 0%nat)|].
    eapply yields_bind; [apply yields_lift, Hread|]. cbv beta iota.
    do 3 (eapply yields_bind; [eauto with walk|]).
    rewrite Z.eqb_refl, He1, He2. cbn [negb orb].
    pose proof (yields_record content_of sound' (FileIdentity_from_metadata before)) as Hrecord.
    rewrite Hc in Hrecord. eapply yields_bind; [exact Hrecord|]. eapply yields_bind; auto with walk.
Qed.

Lemma follows_file path before : follows (stable_file_digest path before) (stable_file_digest path before).
Proof.
  intros s u [d n] s' Hs Hu. unfold stable_file_digest at 1.
  destruct (TEAM_ALPHA_MAX_FILE_BYTES <? meta_len before) eqn:Hmax; [done|]. cbv zeta.
  intros (answer & s1 & Hlook & Hr)%returned_bind.
  assert (answer = None ∧ sound (session_cache s1)) as [-> Hs1].
  { unfold lookup_digest in Hlook. destruct (FileIdentity_is_valid _); [|by simplify_eq].
    destruct (cache_lookup _ _) as [o c'] eqn:Hk. simplify_eq/=.
    specialize (cold (FileIdentity_from_metadata before) (session_cache s)). rewrite Hk in cold.
    split; [done|]. by apply (lookup_sound _ _ _ _ Hs Hk). }
  destruct (hashed_returned _ _ _ _ _ _ Hs1 Hr) as (Hs' & content & Hfacts & -> & ->). split; [done|].
  destruct (yields_hashed _ _ _ Hfacts) as [Hy|Hlt]; [by apply Hy|]. by apply Z.ltb_nlt in Hmax.
Qed.

(** ** The build *)

Create HintDb follow discriminated.
#[local] Hint Resolve follows_ret follows_throw follows_lift follows_index follows_stats follows_file : follow.

(** Structural rules: binds, pairs, tests and matches on the same value. *)
Ltac follow := cbv zeta; repeat
  match goal with
  | |- follows (mbind _ _) (mbind _ _) => apply follows_bind; [|intros ?; cbv beta]
  | |- follows (if ?b then _ else _) _ => destruct b
  | |- follows (match ?x with _ => _ end) _ => destruct x
  | |- follows (ask _) _ => apply follows_ask; intros
  | |- follows _ _ => solve [eauto with follow]
  end.

Lemma follows_metadata path operation : follows (metadata path operation) (metadata path operation).
Proof. unfold metadata, or_io. follow. apply quiet_metadata. Qed.

Lemma follows_link_metadata path operation :
  follows (link_metadata path operation) (link_metadata path operation).
Proof. unfold link_metadata, or_io. follow. apply quiet_symlink_metadata. Qed.

Lemma follows_canonicalize path operation : follows (canonicalize path operation) (canonicalize path operation).
Proof. unfold canonicalize, or_io. follow. apply quiet_canonicalize. Qed.

Lemma follows_operand_metadata path operation index :
  follows (operand_metadata path operation index) (operand_metadata path operation index).
Proof. unfold operand_metadata, or_io. follow. apply quiet_symlink_metadata. Qed.

#[local] Hint Resolve follows_metadata follows_link_metadata follows_canonicalize
  follows_operand_metadata : follow.

Lemma follows_observe_file resolved index : follows (observe_file resolved index) (observe_file resolved index).
Proof. unfold observe_file. follow. Qed.

Lemma follows_children root directory discovered l :
  follows (read_bounded_children root directory discovered l) (read_bounded_children root directory discovered l).
Proof. unfold read_bounded_children, or_io. follow. apply quiet_read_dir. Qed.

#[local] Hint Resolve follows_observe_file follows_children : follow.

Lemma follows_step root index l action actions w :
  follows (tree_step root index l action actions w) (tree_step root index l action actions w).
Proof. unfold tree_step. follow. Qed.

#[local] Hint Resolve follows_step : follow.

Lemma follows_loop fuel root index l actions w :
  follows (tree_loop fuel root index l actions w) (tree_loop fuel root index l actions w).
Proof.
  revert actions w. induction fuel as [|fuel IH]; intros [|action actions] w; cbn [tree_loop]; follow.
  by intros s u a s' _ _.
Qed.

#[local] Hint Resolve follows_loop : follow.

Lemma follows_tree root index l : follows (observe_tree root index l) (observe_tree root index l).
Proof. unfold observe_tree, walk_tree_iterative. follow. Qed.

Lemma follows_reject candidate relative index :
  follows (reject_symlink_components candidate relative index)
    (reject_symlink_components candidate relative index).
Proof.
  revert candidate. induction relative as [|c relative IH]; intros candidate; cbn [reject_symlink_components];
    follow; apply IH.
Qed.

#[local] Hint Resolve follows_tree follows_reject : follow.

Lemma follows_resolve workspace cwd spelling index :
  follows (resolve_operand workspace cwd spelling index) (resolve_operand workspace cwd spelling index).
Proof. unfold resolve_operand. follow. Qed.

#[local] Hint Resolve follows_resolve : follow.

Lemma follows_operand workspace cwd argv l operand :
  follows (observe_operand workspace cwd argv l operand) (observe_operand workspace cwd argv l operand).
Proof. unfold observe_operand. follow. Qed.

Lemma follows_command argv : follows (command_operands argv) (command_operands argv).
Proof. unfold command_operands. follow. by intros s u a s' _ _. Qed.

Lemma follows_workspace workspace cwd :
  follows (resolve_workspace_and_cwd workspace cwd) (resolve_workspace_and_cwd workspace cwd).
Proof. unfold resolve_workspace_and_cwd. follow. Qed.

#[local] Hint Resolve follows_command follows_workspace : follow.

Lemma follows_build input l :
  follows (build_team_request_key_v1_with_options input l) (build_team_request_key_v1_with_options input l).
Proof.
  unfold build_team_request_key_v1_with_options. follow. apply follows_mapM. apply follows_operand.
Qed.
End transparency.
