(* ===== verification/RequestKeyTheorems.v ===== *)
(** * Properties of the request key

    Keys and tree digests bind what they were built from, the walk of a tree is
    its recursive encoding, and a digest cache changes no key. *)

From Stdlib Require Import String.
From stdpp Require Import gmap.
From S2P Require Import Prelude Monad Bytes ContractTypes Canonical CanonicalSpec CanonicalParse.
From S2P Require Import CanonicalCodec RecordTypes Paths RecordValidation Digest.
From S2P Require Import IdentityRoundTrip TreeSpec PathModel Text Team TeamCrypto TrustBundle.
From S2P Require Import TeamLaws TeamRequestKey RequestObservation RequestTree.
Import Components LocalOnly FileKinds.

(** ** The encoding of a tree *)

(** The typing of a tree below [ns]: names are names, paths and files have lengths
    a machine word holds. *)
Fixpoint shape_wf (ns : list (list Z)) (t : Shape) : Prop :=
  match t with
  | NoShape => True
  | FileShape name content rest =>
    component_name name ∧ is_slice (join_components (ns ++ [name])) ∧ is_u64 (len content) ∧ shape_wf ns rest
  | DirShape name children rest =>
    component_name name ∧ is_slice (join_components (ns ++ [name])) ∧ shape_wf (ns ++ [name]) children ∧
    shape_wf ns rest
  end.

(** Two contents of the trees under one digest. *)
Definition content_collision `{Blake3} (t t' : Shape) : Prop :=
  ∃ c c', c ∈ shape_contents t ∧ c' ∈ shape_contents t' ∧ c ≠ c' ∧
    portable_file_content_hasher c = portable_file_content_hasher c'.

(** What follows the entries of a directory. *)
Definition closing (k : list Z) : Prop := k = [] ∨ ∃ k', k = put_u8 2 ++ k'.

Lemma joined_name ns name name' : Forall component_name ns → component_name name → component_name name' →
  join_components (ns ++ [name]) = join_components (ns ++ [name']) → name = name'.
Proof.
  intros Hns Hn Hn' He. apply (f_equal (split_on SLASH)) in He.
  assert (∀ n, component_name n → split_on SLASH (join_components (ns ++ [n])) = ns ++ [n]) as Hs.
  { intros n Hc. apply split_join; [by destruct ns|]. apply list.Forall_app. auto. }
  rewrite !Hs in He by done. by apply app_inv_head in He as [= ->].
Qed.

Section injective.
Context `{Blake3, !Blake3Ok}.

Lemma hasher_prefix c c' l k :
  portable_file_content_hasher c ++ l = portable_file_content_hasher c' ++ k →
  portable_file_content_hasher c = portable_file_content_hasher c' ∧ l = k.
Proof. apply raw_digest_prefix; apply blake3_is_digest. Qed.

Lemma collision_weaken t t' u u' : shape_contents t ⊆ shape_contents u → shape_contents t' ⊆ shape_contents u' →
  content_collision t t' → content_collision u u'.
Proof. intros Ht Ht' (c & c' & Hc & Hc' & Hn & He). exists c, c'. auto. Qed.

Lemma encode_inj t : ∀ ns t' k k', Forall component_name ns → shape_wf ns t → shape_wf ns t' →
  closing k → closing k' → encode ns t ++ k = encode ns t' ++ k' →
  (t = t' ∧ k = k') ∨ content_collision t t'.
Proof.
  induction t as [|name content rest IH|name children IHc rest IH]; intros ns t' k k' Hns Hwf Hwf' Hk Hk' He.
  - destruct t' as [|? ? ?|? ? ?]; [by left|..]; cbn in He; subst k; destruct Hk as [?|[? ?]]; done.
  - destruct t' as [|name' content' rest'|? ? ?]; [|..|cbn in He; done].
    { cbn in He. subst k'. by destruct Hk' as [?|[? ?]]. }
    destruct Hwf as (Hn & Hs & Hl & Hw), Hwf' as (Hn' & Hs' & Hl' & Hw').
    cbn [encode] in He. rewrite <- !app_assoc in He. apply app_inv_head in He.
    apply put_bytes_prefix in He as [Hname He]; [|done..]. apply joined_name in Hname as ->; [|done..].
    apply hasher_prefix in He as [Hd He]. apply put_u64_prefix in He as [_ He]; [|done..].
    destruct (decide (content = content')) as [->|Hne].
    + destruct (IH _ _ _ _ Hns Hw Hw' Hk Hk' He) as [[-> ->]|Hc]; [by left|right].
      eapply collision_weaken, Hc; cbn; by apply list_subseteq_cons.
    + right. exists content, content'. cbn. split_and!; [left|left|done..].
  - destruct t' as [|? ? ?|name' children' rest']; [|cbn in He; done|].
    { cbn in He. subst k'. by destruct Hk' as [?|[? ?]]. }
    destruct Hwf as (Hn & Hs & Hwc & Hw), Hwf' as (Hn' & Hs' & Hwc' & Hw').
    cbn [encode] in He. rewrite <- !app_assoc in He. apply app_inv_head in He.
    apply put_bytes_prefix in He as [Hname He]; [|done..]. apply joined_name in Hname as ->; [|done..].
    assert (Forall component_name (ns ++ [name'])) as Hns' by (apply list.Forall_app; auto).
    destruct (IHc _ _ _ _ Hns' Hwc Hwc' ltac:(by right; eexists) ltac:(by right; eexists) He) as [[-> He']|Hc].
    + apply app_inv_head in He'. destruct (IH _ _ _ _ Hns Hw Hw' Hk Hk' He') as [[-> ->]|Hc]; [by left|right].
      eapply collision_weaken, Hc; cbn; intros c ?; apply elem_of_app; auto.
    + right. eapply collision_weaken, Hc; cbn; intros c ?; apply elem_of_app; auto.
Qed.

Lemma encode_root_inj t t' : shape_wf [] t → shape_wf [] t' → encode_root t = encode_root t' →
  t = t' ∨ content_collision t t'.
Proof.
  intros Ht Ht' He%app_inv_head.
  destruct (encode_inj t [] t' [] [] ltac:(constructor) Ht Ht' ltac:(by left) ltac:(by left)) as [[-> _]|?];
    [by rewrite !app_nil_r|by left|by right].
Qed.
End injective.

(** ** What a build puts into its key *)

Lemma portable_arguments_Ok index argv argv' : portable_arguments index argv = Ok argv' → argv' = argv.
Proof.
  revert index argv'. induction argv as [|value argv IH]; intros index argv'; cbn; [by intros [= <-]|].
  do 2 (case_match; [done|]). intros (rest & Hr & [= <-])%result_bind_Ok. by rewrite (IH _ _ Hr).
Qed.

Lemma portable_argv_Ok argv argv' : portable_argv argv = Ok argv' → argv' = argv.
Proof. destruct argv; [done|]. apply portable_arguments_Ok. Qed.

Definition no_tty (input : TeamRequestKeyInput) : Prop :=
  stdin_is_tty input = false ∧ stdout_is_tty input = false ∧ stderr_is_tty input = false.

Lemma returned_lift {S E A} (r : result E A) (s : S) a s' : lift_result r s = Returned a s' → r = Ok a ∧ s' = s.
Proof. unfold lift_result. destruct r; naive_solver. Qed.

Section builds.
Context `{TeamHost, Blake3Hash, Blake3} {C : Type} `{!FileDigestCache C}.

Lemma build_returned input l (s : Session (C := C)) key s' :
  build_team_request_key_v1_with_options input l s = Returned key s' →
  request_digest key = digest_descriptor (descriptor key) ∧ no_tty input ∧
  ∃ environment cwd observed, modeled_environment (input_environment input) = Ok environment ∧
    descriptor key = mkDescriptor TEAM_REQUEST_KEY_SCHEMA_VERSION (input_tenant_id input)
      (input_repository_id input) (input_generation_id input) cwd (input_argv input) environment observed
      (input_policy_digest input) (input_execution_profile_digest input)
      (input_platform_digest input) (input_image_digest input).
Proof.
  unfold build_team_request_key_v1_with_options, no_tty.
  do 3 (intros (? & ? & [_ ->]%returned_lift & Hb)%returned_bind; revert Hb).
  destruct (stdin_is_tty input), (stdout_is_tty input), (stderr_is_tty input); try done. cbn [orb].
  intros (argv & ? & [->%portable_argv_Ok ->]%returned_lift & Hb)%returned_bind.
  apply returned_bind in Hb as (operands & ? & _ & Hb).
  apply returned_bind in Hb as (environment & ? & [He ->]%returned_lift & Hb).
  apply returned_bind in Hb as ([[workspace cwd] relative] & ? & _ & Hb).
  apply returned_bind in Hb as (observed & ? & _ & [= <- <-]). cbn. split_and!; try done.
  by eexists _, _, _.
Qed.
End builds.

(** C24. An equal request key means an equal request: when two builds, on any hosts
    and over any caches, return keys with equal digests, then the two descriptors
    are the same, so the namespaces, the generation, the arguments, the digests of
    the environment, the observed files and trees and the policy, profile, platform
    and image digests are the same, and neither request had a terminal; or the two
    descriptors are a BLAKE3 collision. *)
Theorem request_key_binds `{Blake3Hash, Blake3} (host host' : TeamHost) {C D : Type}
    `{!FileDigestCache C, !FileDigestCache D} input input' l l' (s u : Session (C := C))
    (s' u' : Session (C := D)) key key' :
  build_team_request_key_v1_with_options (H := host) input l s = Returned key u →
  build_team_request_key_v1_with_options (H := host') input' l' s' = Returned key' u' →
  descriptor_wf (descriptor key) → descriptor_wf (descriptor key') →
  request_digest key = request_digest key' →
  (descriptor_bytes (descriptor key) ≠ descriptor_bytes (descriptor key') ∧
    blake3_hash (descriptor_bytes (descriptor key)) = blake3_hash (descriptor_bytes (descriptor key')))
  ∨ (key = key' ∧ no_tty input ∧ no_tty input' ∧
     input_tenant_id input = input_tenant_id input' ∧
     input_repository_id input = input_repository_id input' ∧
     input_generation_id input = input_generation_id input' ∧
     input_argv input = input_argv input' ∧
     modeled_environment (input_environment input) = modeled_environment (input_environment input') ∧
     input_policy_digest input = input_policy_digest input' ∧
     input_execution_profile_digest input = input_execution_profile_digest input' ∧
     input_platform_digest input = input_platform_digest input' ∧
     input_image_digest input = input_image_digest input').
Proof.
  intros (Hd & Ht & env & cwd & obs & He & Hk)%build_returned
    (Hd' & Ht' & env' & cwd' & obs' & He' & Hk')%build_returned Hwf Hwf' Heq.
  destruct (decide (descriptor_bytes (descriptor key) = descriptor_bytes (descriptor key'))) as [Hb|Hb].
  - right. apply descriptor_bytes_inj in Hb; [|done..]. rewrite He, He'. split; [|split; [done|split; [done|]]].
    + destruct key, key'. cbn in *. congruence.
    + rewrite Hk, Hk' in Hb. injection Hb. intros. by subst.
  - left. split; [done|]. by rewrite Hd, Hd' in Heq.
Qed.

(** ** Walks *)

(** A host that holds a tree still at [root], within the limits of a walk. *)
Record tree_at (host : TeamHost) (content_of : FileIdentity → list Z) (root : list Z)
    (l : TreeTraversalLimits) (m : Metadata) (stream : list (list Z)) (f : Forest) : Prop := {
  tree_root : root ≠ [];
  tree_directory : presents_directory root m stream;
  tree_names : names_of stream f;
  tree_presented : presents content_of root f;
  tree_shallow : shallow l 1 f;
  tree_stream : len stream <= max_directory_entries l;
  tree_count : count f <= max_observed_entries l;
  tree_total : total f <= max_tree_bytes l;
  tree_discovered : len stream + below f <= max_discovered_entries l;
}.

Lemma yields_observe_tree (host : TeamHost) `{Blake3Hash, Blake3} {C : Type} `{!FileDigestCache C}
    content_of (sound : C → Prop) `{!SoundCache content_of sound} root argv_index l m stream f :
  limits_wf l → tree_at host content_of root l m stream f →
  yields sound (observe_tree root argv_index l) (mkSummary (blake3_hash (encode_root (shape f))) (count f) (total f)).
Proof.
  intros Hl []. pose proof tree_directory0 as (Hd & _ & _ & Hm & _). unfold observe_tree.
  eapply yields_bind; [eauto with walk|]. rewrite Hd. cbn [negb].
  eapply yields_bind; [by eapply yields_tree|]. cbn [walk_hashed walk_entries walk_bytes].
  eapply yields_bind; [eauto with walk|]. rewrite same_epoch_refl. apply yields_ret.
Qed.

(** C25. The stack walk over a directory computes the recursive encoding of its
    tree. On a host that holds a tree still, within the limits, and over any
    digest cache that is sound for its contents, the walk returns, without running
    out of fuel and without a refusal: the digest is that of the recursive
    encoding of the visible entries, sorted by name, and the counts are the number
    of entries and the sum of the file sizes. The cache stays sound. *)
Theorem tree_walk_exact (host : TeamHost) `{Blake3Hash, Blake3} {C : Type} `{!FileDigestCache C}
    content_of (sound : C → Prop) `{!SoundCache content_of sound} root argv_index l m stream f s :
  limits_wf l → tree_at host content_of root l m stream f → sound (session_cache s) →
  ∃ s', observe_tree root argv_index l s =
      Returned (mkSummary (blake3_hash (encode_root (shape f))) (count f) (total f)) s' ∧
    sound (session_cache s').
Proof. intros Hl Ht Hs. by eapply (yields_observe_tree host content_of sound). Qed.

(** A tree digest identifies the tree: when the walks of two quiet trees, on
    any two hosts and over any sound caches, return equal digests, the two trees
    have the same visible names, the same kinds and the same file contents at
    every place, or two file contents, or the two encodings, collide. Metadata,
    hidden entries and the order of the directory streams play no part. *)
Theorem tree_digest_binds (host host' : TeamHost) `{Blake3Hash, Blake3, !Blake3Ok} {C D : Type}
    `{!FileDigestCache C, !FileDigestCache D} content_of content_of' (sound : C → Prop) (sound' : D → Prop)
    `{!SoundCache content_of sound, !SoundCache content_of' sound'}
    root root' i i' l l' m m' stream stream' f f' s s' a a' u u' :
  limits_wf l → limits_wf l' →
  tree_at host content_of root l m stream f → tree_at host' content_of' root' l' m' stream' f' →
  shape_wf [] (shape f) → shape_wf [] (shape f') →
  sound (session_cache s) → sound' (session_cache s') →
  observe_tree (H := host) root i l s = Returned a u → observe_tree (H := host') root' i' l' s' = Returned a' u' →
  summary_digest a = summary_digest a' →
  shape f = shape f' ∨ content_collision (shape f) (shape f') ∨
  (encode_root (shape f) ≠ encode_root (shape f') ∧
    blake3_hash (encode_root (shape f)) = blake3_hash (encode_root (shape f'))).
Proof.
  intros Hl Hl' Ht Ht' Hw Hw' Hs Hs' Ho Ho' Heq.
  destruct (yields_observe_tree host content_of sound root i l m stream f Hl Ht s Hs) as (? & Hy & _).
  destruct (yields_observe_tree host' content_of' sound' root' i' l' m' stream' f' Hl' Ht' s' Hs') as (? & Hy' & _).
  rewrite Hy in Ho. rewrite Hy' in Ho'. simplify_eq/=.
  destruct (decide (encode_root (shape f) = encode_root (shape f'))) as [He|]; [|auto].
  apply encode_root_inj in He as [?|?]; auto.
Qed.

#[export] Instance no_cache_sound `{Blake3} content_of :
  @SoundCache () NoFileDigestCache _ content_of (λ _, True).
Proof. split; [|done]. by intros identity [] answer [] _ [= <-]. Qed.

(** The cache of a session is sound when the one below it is. *)
Definition session_sound {C} `{Blake3} content_of (sound : C → Prop) (self : SessionFileDigestCache C) : Prop :=
  sound (persistent self) ∧
  map_Forall (λ identity digest, digest = portable_file_content_hasher (content_of identity)) (memory self).

#[export] Instance session_cache_sound {C} `{FileDigestCache C, Blake3} content_of (sound : C → Prop)
    `{!SoundCache content_of sound} : SoundCache content_of (session_sound content_of sound).
Proof.
  split.
  - intros identity [c memory] answer c' [Hc Hm]. cbn in *. unfold SessionFileDigestCache_lookup. cbn.
    destruct (memory !! identity) as [digest|] eqn:Hk.
    { intros [= <- <-]. split; [done|]. intros d [= <-]. by apply Hm. }
    destruct (cache_lookup identity c) as [[digest|] c1] eqn:Hl;
      destruct (lookup_sound _ _ _ _ Hc Hl) as [Hc1 Ha]; intros [= <- <-]; (split; [split; [done|]|done]).
    + apply map_Forall_insert_2; [|done]. by apply Ha.
    + done.
  - intros identity [c memory] [Hc Hm]. split; cbn; [by apply record_sound|].
    by apply map_Forall_insert_2.
Qed.

Lemma session_empty_sound {C} `{Blake3} content_of (sound : C → Prop) c :
  sound c → session_sound content_of sound (mkSessionCache c ∅).
Proof. split; [done|]. apply map_Forall_empty. Qed.

(** ** Digests on a host that changes *)

Lemma same_epoch_iff m m' :
  same_epoch m m' = true ↔ FileIdentity_from_metadata m' = FileIdentity_from_metadata m.
Proof.
  unfold same_epoch, FileIdentity_from_metadata. rewrite !andb_true_iff, !Z.eqb_eq. split.
  - intros [[[[[[[[[-> ->] ->] ->] ->] ->] ->] ->] ->] ->]. done.
  - intros [= -> -> -> -> -> -> -> -> -> ->]. by split_and!.
Qed.

(** The digest of a file and where it came from: the file that was opened and the
    path afterwards have the identity the path had before, at consecutive calls
    to the host from time [t] on; the digest is what the cache answered, or the
    digest of the bytes read, of the length the metadata said, from a file that
    kept its identity while it was read. *)
Definition observed_digest `{TeamHost, Blake3} {C} `{!FileDigestCache C} (path : list Z) (before : Metadata)
    (t : nat) (cache : C) (d : list Z) : Prop :=
  let unchanged m := FileIdentity_from_metadata m = FileIdentity_from_metadata before in
  ∃ file opened after, host_open t path = Some file ∧
    host_file_metadata (t + 1) file = Some opened ∧ is_file opened = true ∧ unchanged opened ∧ unchanged after ∧
    ((FileIdentity_is_valid (FileIdentity_from_metadata before) = true ∧
      (cache_lookup (FileIdentity_from_metadata before) cache).1 = Some d ∧
      host_symlink_metadata (t + 2) path = Ok after) ∨
     ∃ content reread, read_loop path 0 [] (host_read (t + 2) file) = Ok (meta_len before, content) ∧
       host_file_metadata (t + 3) file = Some reread ∧ unchanged reread ∧
       host_symlink_metadata (t + 4) path = Ok after ∧ d = portable_file_content_hasher content).

Section changing.
Context `{TeamHost, Blake3Hash, Blake3} {C : Type} `{!FileDigestCache C}.

Lemma asked_link_metadata path operation (s : Session (C := C)) m s' :
  link_metadata path operation s = Returned m s' → host_symlink_metadata (clock s) path = Ok m ∧ clock s' = S (clock s).
Proof.
  intros (answer & s1 & [= <- <-] & [Hm ->]%returned_or_io)%returned_bind. split; [|done]. by case_match; simplify_eq.
Qed.

Lemma cached_observed path before digest (s : Session (C := C)) d n s' :
  cached_file_digest path before digest s = Returned (d, n) s' →
  d = digest ∧ n = meta_len before ∧
  ∃ file opened after, host_open (clock s) path = Some file ∧
    host_file_metadata (clock s + 1) file = Some opened ∧ is_file opened = true ∧
    same_epoch before opened = true ∧ same_epoch before after = true ∧
    host_symlink_metadata (clock s + 2) path = Ok after.
Proof.
  unfold cached_file_digest.
  intros (a1 & s1 & [= <- <-] & (file & s2 & [Hopen ->]%returned_or_io & H2)%returned_bind)%returned_bind.
  apply returned_bind in H2 as (a3 & s3 & [= <- <-] & (opened & s4 & [Hmeta ->]%returned_or_io & H4)%returned_bind).
  apply returned_bind in H4 as (after & s5 & [Hlink Hc]%asked_link_metadata & H5). cbn [clock] in *.
  destruct (is_file opened) eqn:Hf; [|done]. destruct (same_epoch before opened) eqn:He1; [|done].
  destruct (same_epoch before after) eqn:He2; [|done]. destruct (same_epoch opened after); [|done].
  cbn [negb orb] in H5. apply returned_bind in H5 as (u & s6 & _ & [= <- <- _]).
  split; [done|]. split; [done|]. exists file, opened, after. rewrite (Nat.add_comm _ 1), (Nat.add_comm _ 2). by split_and!.
Qed.

Lemma hashed_observed path before identity (s : Session (C := C)) d n s' :
  hashed_file_digest path before identity s = Returned (d, n) s' →
  n = meta_len before ∧
  ∃ file opened after content reread, host_open (clock s) path = Some file ∧
    host_file_metadata (clock s + 1) file = Some opened ∧ is_file opened = true ∧
    same_epoch before opened = true ∧ same_epoch before after = true ∧
    read_loop path 0 [] (host_read (clock s + 2) file) = Ok (meta_len before, content) ∧
    host_file_metadata (clock s + 3) file = Some reread ∧ same_epoch before reread = true ∧
    host_symlink_metadata (clock s + 4) path = Ok after ∧ d = portable_file_content_hasher content.
Proof.
  unfold hashed_file_digest.
  intros (a1 & s1 & [= <- <-] & (file & s2 & [Hopen ->]%returned_or_io & H2)%returned_bind)%returned_bind.
  apply returned_bind in H2 as (a3 & s3 & [= <- <-] & (opened & s4 & [Hmeta ->]%returned_or_io & H4)%returned_bind).
  destruct (same_epoch before opened) eqn:He1; [|done]. destruct (is_file opened) eqn:Hf; [|done].
  cbn [negb orb] in H4. apply returned_bind in H4 as (reads & s5 & [= <- <-] & H5).
  apply returned_bind in H5 as ([bytes content] & s6 & [Hread ->]%returned_lift & H6).
  apply returned_bind in H6 as (a7 & s7 & [= <- <-] & (reread & s8 & [Hmeta' ->]%returned_or_io & H8)%returned_bind).
  apply returned_bind in H8 as (after & s9 & [Hlink Hc]%asked_link_metadata & H9).
  destruct (Z.eqb_spec bytes (meta_len before)) as [->|]; [|done].
  destruct (same_epoch before reread) eqn:He3; [|done]. destruct (same_epoch before after) eqn:He2; [|done].
  cbn [negb orb] in H9. apply returned_bind in H9 as (u & s10 & _ & [= <- <- _]). cbn [clock] in *.
  split; [done|]. exists file, opened, after, content, reread.
  rewrite (Nat.add_comm _ 1), (Nat.add_comm _ 2), (Nat.add_comm _ 3), (Nat.add_comm _ 4). by split_and!.
Qed.

Lemma stable_observed path before (s : Session (C := C)) d n s' :
  stable_file_digest path before s = Returned (d, n) s' →
  n = meta_len before ∧ meta_len before <= TEAM_ALPHA_MAX_FILE_BYTES ∧
  observed_digest path before (clock s) (session_cache s) d.
Proof.
  unfold stable_file_digest. destruct (Z.ltb_spec TEAM_ALPHA_MAX_FILE_BYTES (meta_len before)); [done|].
  intros (answer & s1 & Hlook & Hr)%returned_bind.
  assert (clock s1 = clock s ∧ ∀ digest, answer = Some digest →
    FileIdentity_is_valid (FileIdentity_from_metadata before) = true ∧
    (cache_lookup (FileIdentity_from_metadata before) (session_cache s)).1 = Some digest) as [Hc Ha].
  { revert Hlook. unfold lookup_digest. destruct (FileIdentity_is_valid _); [|by intros [= <- <-]].
    destruct (cache_lookup _ _) as [a c]. by intros [= <- <-]. }
  unfold observed_digest. rewrite <- Hc. destruct answer as [digest|].
  - apply cached_observed in Hr as (-> & -> & file & opened & after & ? & ? & ? & He1%same_epoch_iff & He2%same_epoch_iff & ?).
    destruct (Ha _ eq_refl). split; [done|]. split; [done|]. exists file, opened, after.
    do 5 (split; [done|]). by left.
  - apply hashed_observed in Hr as (-> & file & opened & after & content & reread & ? & ? & ? & He1%same_epoch_iff
      & He2%same_epoch_iff & ? & ? & He3%same_epoch_iff & ? & ->).
    split; [done|]. split; [done|]. exists file, opened, after. do 5 (split; [done|]). right. by exists content, reread.
Qed.
End changing.

(** C26. The digest cache changes no key: on a quiet host, whenever the build that
    hashes every file returns a key, the build over a sound digest cache returns
    the same key, whichever files the cache answers for, and leaves the cache
    sound; and so does the build over a session's own cache in front of a sound
    one, which stays sound with it, whatever the session has remembered. On any
    host, which may change between two calls, a file gets a digest only when the
    opened file and the path afterwards have the identity the path had before,
    and the digest is the cache's for that identity or that of the bytes read
    from a file that kept it. *)
Theorem digest_cache_transparent `{Blake3Hash, Blake3} (host : TeamHost) {C : Type} `{!FileDigestCache C}
    content_of (sound : C → Prop) `{!SoundCache content_of sound} :
  (∀ `{!QuietHost content_of} input t t' key u,
     build_team_request_key_v1 input t = Returned key u →
     (∀ cache, sound cache → ∃ u',
        build_team_request_key_v1_with_cache input t' cache = Returned key u' ∧ sound (session_cache u')) ∧
     (∀ cache : SessionFileDigestCache C, session_sound content_of sound cache → ∃ u',
        build_team_request_key_v1_with_cache input t' cache = Returned key u' ∧
        session_sound content_of sound (session_cache u')) ∧
     (∀ cache, sound cache → session_sound content_of sound (mkSessionCache cache ∅))) ∧
  (∀ path before (s : Session (C := C)) d n s', stable_file_digest path before s = Returned (d, n) s' →
     n = meta_len before ∧ meta_len before <= TEAM_ALPHA_MAX_FILE_BYTES ∧
     observed_digest path before (clock s) (session_cache s) d).
Proof.
  split; [|intros; by eapply stable_observed].
  intros Hq input t t' key u Hb. unfold build_team_request_key_v1, build_team_request_key_v1_with_cache in *.
  split; [|split; [|by apply session_empty_sound]]; intros cache Hc.
  - refine (proj2 (follows_build content_of (λ _, True) sound _ input default_limits _
      (mkSession t' cache (mkStats 0 0 0)) _ _ I Hc Hb)). done.
  - refine (proj2 (follows_build content_of (λ _, True) (session_sound content_of sound) _ input default_limits _
      (mkSession t' cache (mkStats 0 0 0)) _ _ I Hc Hb)). done.
Qed.

(** ** A small workspace *)

Module RequestSample.
#[local] Instance sample_hash : Blake3Hash := λ message, replicate 31 0 ++ [len message mod 256].
#[local] Instance sample_derive : Blake3 := λ _ message, replicate 31 0 ++ [len message mod 256].

#[local] Instance sample_derive_ok : Blake3Ok.
Proof.
  intros context message. split; [|done]. apply list.Forall_app. split; [by repeat constructor|].
  constructor; [|constructor]. unfold is_u8. pose proof (Z.mod_pos_bound (len message) 256). lia.
Qed.

Definition node_metadata (kind : FileKind) (inode size : Z) : Metadata :=
  mkMetadata kind 1 inode 0 0 0 size 0 0 0 0.

(** The nodes: a path, the metadata, the content of a file and the stream of a
    directory. The position of a node is its inode and its handle. *)
Definition nodes : list (list Z * Metadata * list Z * list (list Z)) :=
  [(bstr "/w", node_metadata Directory 0 0, [], [bstr "t"]);
   (bstr "/w/t", node_metadata Directory 1 0, [], [bstr "b.txt"; bstr ".git"; bstr "sub"; bstr "a.txt"]);
   (bstr "/w/t/a.txt", node_metadata RegularFile 2 5, bstr "hello", []);
   (bstr "/w/t/b.txt", node_metadata RegularFile 3 0, [], []);
   (bstr "/w/t/sub", node_metadata Directory 4 0, [], [bstr "c"]);
   (bstr "/w/t/sub/c", node_metadata RegularFile 5 1, bstr "x", [])].

Definition handle (path : list Z) : option nat :=
  fst <$> list_find (λ node, node.1.1.1 = path) nodes.

Definition node (path : list Z) : option (list Z * Metadata * list Z * list (list Z)) :=
  handle path ≫= λ i, nodes !! i.

Arguments node : simpl never.
Arguments handle : simpl never.

#[local] Instance sample_host : TeamHost := {|
  host_canonicalize _ path := Some path;
  host_metadata _ path := (λ n, n.1.1.2) <$> node path;
  host_symlink_metadata _ path := match node path with Some n => Ok n.1.1.2 | None => Err NotFound end;
  host_open _ path := handle path;
  host_file_metadata _ file := (λ n, n.1.1.2) <$> nodes !! file;
  host_read _ file := match nodes !! file with Some (_, _, (_ :: _) as content, _) => [Some content] | _ => [] end;
  host_read_dir _ path := (λ n, map Some n.2) <$> node path;
|}.

Definition content_of (identity : FileIdentity) : list Z :=
  match nodes !! Z.to_nat (identity_inode identity) with Some (_, _, content, _) => content | None => [] end.

#[local] Instance sample_quiet : QuietHost content_of.
Proof.
  split; try done. intros t path file m content. cbn.
  do 6 (destruct file as [|file]; [intros [= <-]; try done; intros _; by intros [= <-]|]).
  by destruct file.
Qed.

#[local] Existing Instance NoFileDigestCache.

Definition tree : Forest :=
  FileNode (bstr "a.txt") (node_metadata RegularFile 2 5) (bstr "hello")
    (FileNode (bstr "b.txt") (node_metadata RegularFile 3 0) []
      (DirNode (bstr "sub") (node_metadata Directory 4 0) [bstr "c"]
        (FileNode (bstr "c") (node_metadata RegularFile 5 1) (bstr "x") Nil) Nil)).

Definition stream : list (list Z) := [bstr "b.txt"; bstr ".git"; bstr "sub"; bstr "a.txt"].

Definition input : TeamRequestKeyInput :=
  mkInput (bstr "tenant") (bstr "repo") (replicate 32 48) (bstr "/w") (bstr "/w") 
    [bstr "rg"; bstr "--no-ignore"; bstr "--sort=path"; bstr "x"; bstr "t"; bstr "t/a.txt"]
    [(bstr "LANG", bstr "C")] false false false (replicate 32 1) (replicate 32 2) (replicate 32 3)
    (replicate 32 4).

Definition hashed_key : outcome (Session (C := ())) TeamLocalOnlyReason TeamRequestKeyV1 :=
  build_team_request_key_v1 input 0.

Example hashed_key_returned : match hashed_key with Returned _ _ => true | _ => false end = true.
Proof. vm_compute. reflexivity. Qed.

Example missing_operand : build_team_request_key_v1
  (mkInput (bstr "tenant") (bstr "repo") (replicate 32 48) (bstr "/w") (bstr "/w/t")
    [bstr "cat"; bstr "missing"] [] false false false [] [] [] []) 0 =
  Threw (MissingPath 1) (mkSession 6 () (mkStats 0 0 0)).
Proof. vm_compute. reflexivity. Qed.

Lemma valid_names l : forallb (λ name, plain_component name && negb (contains SLASH name)
    && valid_utf8 name && negb (contains 92 name) && negb (any is_control (chars name))) l = true →
  Forall portable_name l.
Proof.
  intros Hf. rewrite forallb_forall in Hf. apply list.Forall_forall. intros name Hin.
  specialize (Hf name (proj1 (list_elem_of_In _ _) Hin)). revert Hf.
  rewrite !andb_true_iff, !negb_true_iff. intros [[[[Hp Hs] Hu] Hb] Hc]. split_and!; try done.
  split; [done|]. rewrite <- contains_iff. by rewrite Hs.
Qed.

Lemma sample_directory path m s : node path = Some (path, m, [], s) → is_dir m = true → is_link m = false →
  presents_directory path m s.
Proof.
  intros Hn Hd Hl. split_and!; try done; intros t; cbn; by rewrite Hn.
Qed.

Lemma sample_file path m content i : handle path = Some i → nodes !! i = Some (path, m, content, []) →
  is_file m = true → meta_len m = len content → len content <= TEAM_ALPHA_MAX_FILE_BYTES →
  content_of (FileIdentity_from_metadata m) = content → presents_file content_of path m content.
Proof.
  intros Hh Hn Hf Hl Hm Hc. unfold is_file in Hf. assert (node path = nodes !! i) as Hp by (unfold node; by rewrite Hh).
  rewrite Hn in Hp. split_and!; try done.
  1-2: unfold is_dir, is_link; by destruct (meta_kind m).
  - intros t. cbn. by rewrite Hp.
  - exists i, (match content with [] => [] | _ => [content] end). split_and!.
    + intros t. by rewrite <- Hh.
    + intros t. cbn. by rewrite Hn.
    + intros t. cbn. rewrite Hn. by destruct content.
    + destruct content; [done|]. cbn. by rewrite app_nil_r.
    + destruct content; repeat constructor. done.
Qed.

Lemma sample_tree : tree_at sample_host content_of (bstr "/w/t") default_limits
  (node_metadata Directory 1 0) stream tree.
Proof.
  split; try (vm_compute; done).
  - split_and!; [by repeat constructor|vm_compute; reflexivity|apply valid_names; vm_compute; reflexivity].
  - cbn [presents tree]. split; [by apply (sample_file _ _ _ 2)|].
    split; [by apply (sample_file _ _ _ 3)|]. split; [by apply sample_directory|].
    split; [|by split; [split; [by apply (sample_file _ _ _ 5)|]|]].
    split_and!; [by repeat constructor|vm_compute; reflexivity|apply valid_names; vm_compute; reflexivity].
Qed.

(** ** Witnesses *)

Lemma default_limits_wf : limits_wf default_limits.
Proof. by vm_compute. Qed.

(** The cache of a session that has read one of the files. *)
Definition warm : SessionFileDigestCache () :=
  cache_record (FileIdentity_from_metadata (node_metadata RegularFile 2 5))
    (portable_file_content_hasher (bstr "hello")) (mkSessionCache () ∅).

Definition sound : SessionFileDigestCache () → Prop := session_sound content_of (λ _, True).

Lemma warm_sound : sound warm.
Proof.
  apply (record_sound (content_of := content_of) (FileIdentity_from_metadata (node_metadata RegularFile 2 5))).
  split; [done|]. apply map_Forall_empty.
Qed.

Definition start {C} (cache : C) : Session := mkSession 0 cache (mkStats 0 0 0).

Lemma tree_walk_exact_witness : ∃ s', observe_tree (bstr "/w/t") 1 default_limits (start warm) =
    Returned (mkSummary (blake3_hash (encode_root (shape tree))) 4 6) s' ∧ sound (session_cache s').
Proof.
  exact (tree_walk_exact sample_host content_of sound (bstr "/w/t") 1 default_limits
    (node_metadata Directory 1 0) stream tree (start warm) default_limits_wf sample_tree warm_sound).
Defined.

Lemma small_slice b : forallb (λ byte, (0 <=? byte) && (byte <? 256)) b = true → len b <= 1024 → is_slice b.
Proof.
  intros Hf Hl. split; [|unfold ISIZE_MAX; lia]. rewrite forallb_forall in Hf. apply list.Forall_forall.
  intros byte Hin. specialize (Hf byte (proj1 (list_elem_of_In _ _) Hin)). unfold is_u8. lia.
Qed.

Lemma sample_shape_wf : shape_wf [] (shape tree).
Proof.
  assert (∀ name, component_name name ↔ plain_component name = true ∧ contains SLASH name = false) as Hc.
  { intros name. unfold component_name. by rewrite <- contains_iff, not_true_iff_false. }
  cbn [shape_wf shape tree]. rewrite !Hc.
  split_and!; by first [apply small_slice; vm_compute|vm_compute].
Qed.

Lemma tree_digest_binds_witness : shape tree = shape tree ∨ content_collision (shape tree) (shape tree) ∨
  (encode_root (shape tree) ≠ encode_root (shape tree) ∧
   blake3_hash (encode_root (shape tree)) = blake3_hash (encode_root (shape tree))).
Proof.
  destruct (yields_observe_tree sample_host content_of sound (bstr "/w/t") 1 default_limits
    (node_metadata Directory 1 0) stream tree default_limits_wf sample_tree (start warm) warm_sound)
    as (u & Ho & _).
  destruct (yields_observe_tree sample_host content_of (λ _ : (), True) (bstr "/w/t") 4 default_limits
    (node_metadata Directory 1 0) stream tree default_limits_wf sample_tree (start ()) I) as (u' & Ho' & _).
  exact (tree_digest_binds sample_host sample_host content_of content_of sound (λ _ : (), True)
    _ _ _ _ _ _ _ _ _ _ _ _ (start warm) (start ()) _ _ u u' default_limits_wf default_limits_wf sample_tree sample_tree
    sample_shape_wf sample_shape_wf warm_sound I Ho Ho' eq_refl).
Defined.

Definition sample_key : TeamRequestKeyV1 :=
  match hashed_key with Returned key _ => key | _ => mkRequestKey [] (mkDescriptor 0 [] [] [] [] [] [] [] [] [] [] []) end.

Definition sample_end : Session (C := ()) :=
  match hashed_key with Returned _ s => s | _ => start () end.

Lemma sample_key_wf : descriptor_wf (descriptor sample_key).
Proof.
  let d := eval vm_compute in (descriptor sample_key) in
    assert (descriptor sample_key = d) as -> by (vm_compute; reflexivity).
  assert (∀ d, forallb (λ byte, (0 <=? byte) && (byte <? 256)) d = true → length d = 32%nat → is_digest d) as Hd.
  { intros d Hf Hl. split; [|done]. apply small_slice; [done|]. unfold len. lia. }
  split_and!; cbn; repeat first
    [by apply small_slice; vm_compute|by apply Hd|by unfold is_u16, is_u64; lia
    |by unfold len, ISIZE_MAX; cbn; lia|split|constructor].
Qed.

Lemma request_key_binds_witness :
  (descriptor_bytes (descriptor sample_key) ≠ descriptor_bytes (descriptor sample_key) ∧
    blake3_hash (descriptor_bytes (descriptor sample_key)) = blake3_hash (descriptor_bytes (descriptor sample_key)))
  ∨ (sample_key = sample_key ∧ no_tty input ∧ no_tty input ∧ input_tenant_id input = input_tenant_id input ∧
     input_repository_id input = input_repository_id input ∧
     input_generation_id input = input_generation_id input ∧ input_argv input = input_argv input ∧
     modeled_environment (input_environment input) = modeled_environment (input_environment input) ∧
     input_policy_digest input = input_policy_digest input ∧
     input_execution_profile_digest input = input_execution_profile_digest input ∧
     input_platform_digest input = input_platform_digest input ∧
     input_image_digest input = input_image_digest input).
Proof.
  assert (∀ s, build_team_request_key_v1_with_options (FileDigestCache0 := NoFileDigestCache) input
    default_limits (mkSession s () (mkStats 0 0 0)) = Returned sample_key
      (mkSession (clock sample_end + s) () (session_stats sample_end))) as Hb.
  { intros s. vm_compute. reflexivity. }
  exact (request_key_binds sample_host sample_host input input default_limits default_limits _ _ _ _
    sample_key sample_key (Hb 0%nat) (Hb 7%nat) sample_key_wf sample_key_wf eq_refl).
Defined.

Lemma digest_cache_transparent_witness :
  (∃ u', build_team_request_key_v1_with_cache input 3 warm = Returned sample_key u' ∧
    sound (session_cache u')) ∧
  observed_digest (bstr "/w/t/a.txt") (node_metadata RegularFile 2 5) 0 warm
    (portable_file_content_hasher (bstr "hello")).
Proof.
  split.
  - refine (proj1 (proj2 (proj1 (digest_cache_transparent (C := ()) (FileDigestCache0 := NoFileDigestCache)
      sample_host content_of (λ _, True)) _ input 0 3 sample_key sample_end _)) warm warm_sound)%nat.
    vm_compute. reflexivity.
  - refine (proj2 (proj2 (proj2 (digest_cache_transparent sample_host content_of sound)
      (bstr "/w/t/a.txt") (node_metadata RegularFile 2 5) (start warm) _ 5 _ _))).
    vm_compute. reflexivity.
Defined.
End RequestSample.
