(* ===== verification/LookupBundle.v ===== *)
(** * Lookup bundles

    [src/src/team_lookup_bundle.rs]: the framing of one response that carries a
    trust bundle, a manifest and two ciphertexts, its parser, and the validator
    that checks the framing while the body arrives in chunks. [usize] is 64 bits
    wide. The validator is the state of [state_m]; [lookup_frame] is the wire
    format the parser accepts, as a specification. *)

From Stdlib Require Import String.
From S2P Require Import Prelude Monad Bytes ContractTypes Canonical CanonicalSpec CanonicalParse.
From S2P Require Import CanonicalCodec Team TeamLaws Privacy.

Definition TEAM_LOOKUP_BUNDLE_MAGIC : list Z := bstr "AGNBNDL1".
Definition TEAM_LOOKUP_BUNDLE_HEADER_BYTES : nat := 32.
Definition TEAM_LOOKUP_BUNDLE_SCHEMA_VERSION : Z := 1.
Definition VERSION_OFFSET : nat := 8.
Definition FLAGS_OFFSET : nat := 10.
Definition TRUST_LENGTH_OFFSET : nat := 12.
Definition MANIFEST_LENGTH_OFFSET : nat := 16.
Definition STDOUT_LENGTH_OFFSET : nat := 20.
Definition STDERR_LENGTH_OFFSET : nat := 24.
Definition RESERVED_OFFSET : nat := 28.

(** Limits of [src/src/remote.rs]. *)
Definition MAX_BLOB_BYTES : Z := 16 * 1024 * 1024.
Definition MAX_MANIFEST_BYTES : Z := 64 * 1024.
Definition MAX_TRUST_BUNDLE_BYTES : Z := 1500000.

Record UntrustedTeamLookupBundleV1 := mkLookup {
  initial_trust_json : list Z;
  manifest_json : list Z;
  stdout_ciphertext : list Z;
  stderr_ciphertext : list Z;
}.

Module LookupErrors.
Inductive TeamLookupBundleWireError :=
| ResponseBudgetExceeded | HeaderTruncated | InvalidMagic | UnsupportedVersion | UnsupportedFlags
| NonZeroReserved | EmptyTrustBundle | EmptyManifest | TrustBundleTooLarge | ManifestTooLarge
| StdoutCiphertextTooLarge | StderrCiphertextTooLarge | LengthOverflow | PayloadTruncated
| TrailingBytes.
End LookupErrors.
Import LookupErrors.

(** Only called with the offsets of a header that was checked to be complete. *)
Definition read_u16 (body : list Z) (offset : nat) : Z := be_value (take 2 (drop offset body)).
Definition read_u32 (body : list Z) (offset : nat) : Z := be_value (take 4 (drop offset body)).

(** [try_fold] with [checked_add]. *)
Fixpoint checked_total (total : Z) (lengths : list Z) : option Z :=
  match lengths with
  | [] => Some total
  | length :: lengths => total ← u64_checked_add total length; checked_total total lengths
  end.

Definition validate_header (header : list Z) (max_response_bytes : Z) :
    result TeamLookupBundleWireError Z :=
  if (length header <? TEAM_LOOKUP_BUNDLE_HEADER_BYTES)%nat then Err HeaderTruncated
  else if negb (bytes_eqb (take (length TEAM_LOOKUP_BUNDLE_MAGIC) header) TEAM_LOOKUP_BUNDLE_MAGIC)
  then Err InvalidMagic
  else if negb (read_u16 header VERSION_OFFSET =? TEAM_LOOKUP_BUNDLE_SCHEMA_VERSION)
  then Err UnsupportedVersion
  else if negb (read_u16 header FLAGS_OFFSET =? 0) then Err UnsupportedFlags
  else if negb (read_u32 header RESERVED_OFFSET =? 0) then Err NonZeroReserved
  else
    let trust_length := read_u32 header TRUST_LENGTH_OFFSET in
    let manifest_length := read_u32 header MANIFEST_LENGTH_OFFSET in
    let stdout_length := read_u32 header STDOUT_LENGTH_OFFSET in
    let stderr_length := read_u32 header STDERR_LENGTH_OFFSET in
    if trust_length =? 0 then Err EmptyTrustBundle
    else if manifest_length =? 0 then Err EmptyManifest
    else if MAX_TRUST_BUNDLE_BYTES <? trust_length then Err TrustBundleTooLarge
    else if MAX_MANIFEST_BYTES <? manifest_length then Err ManifestTooLarge
    else if MAX_BLOB_BYTES <? stdout_length then Err StdoutCiphertextTooLarge
    else if MAX_BLOB_BYTES <? stderr_length then Err StderrCiphertextTooLarge
    else
      expected ← ok_or (checked_total (Z.of_nat TEAM_LOOKUP_BUNDLE_HEADER_BYTES)
                          [trust_length; manifest_length; stdout_length; stderr_length])
                   LengthOverflow;
      if max_response_bytes <? expected then Err ResponseBudgetExceeded else Ok expected.

(** ** The validator of a stream *)

Record TeamLookupBundleStreamValidator := mkValidator {
  validator_header : list Z;
  header_bytes : nat;
  received_bytes : Z;
  expected_bytes : option Z;
  max_response_bytes : Z;
}.

Definition TeamLookupBundleStreamValidator_new (max_response_bytes : Z) :
    TeamLookupBundleStreamValidator :=
  mkValidator (replicate TEAM_LOOKUP_BUNDLE_HEADER_BYTES 0) 0 0 None max_response_bytes.

Definition V (A : Type) : Type :=
  state_m TeamLookupBundleStreamValidator TeamLookupBundleWireError A.

(** [self.header[n..n + copied].copy_from_slice(&chunk[..copied])] and the count. *)
Definition copy_header (copied : nat) (chunk : list Z) (self : TeamLookupBundleStreamValidator) :
    TeamLookupBundleStreamValidator :=
  let n := header_bytes self in
  mkValidator (take n (validator_header self) ++ take copied chunk
                 ++ drop (n + copied) (validator_header self))
    (n + copied) (received_bytes self) (expected_bytes self) (max_response_bytes self).

Definition set_expected (expected : Z) (self : TeamLookupBundleStreamValidator) :
    TeamLookupBundleStreamValidator :=
  mkValidator (validator_header self) (header_bytes self) (received_bytes self) (Some expected)
    (max_response_bytes self).

Definition set_received (received : Z) (self : TeamLookupBundleStreamValidator) :
    TeamLookupBundleStreamValidator :=
  mkValidator (validator_header self) (header_bytes self) received (expected_bytes self)
    (max_response_bytes self).

(** The part of [push] that fills the header. *)
Definition push_header (chunk : list Z) : V () :=
  filled ← gets header_bytes;
  if (filled <? TEAM_LOOKUP_BUNDLE_HEADER_BYTES)%nat then
    let copied := Nat.min (TEAM_LOOKUP_BUNDLE_HEADER_BYTES - filled) (length chunk) in
    modify (copy_header copied chunk);;
    self ← gets id;
    if (header_bytes self =? TEAM_LOOKUP_BUNDLE_HEADER_BYTES)%nat then
      expected ← lift_result (validate_header (validator_header self) (max_response_bytes self));
      modify (set_expected expected)
    else mret ()
  else mret ().

Definition push (chunk : list Z) : V () :=
  self ← gets id;
  next_received ← lift_result (ok_or (u64_checked_add (received_bytes self) (len chunk)) LengthOverflow);
  if max_response_bytes self <? next_received then mthrow ResponseBudgetExceeded
  else
    push_header chunk;;
    expected ← gets expected_bytes;
    if match expected with Some expected => expected <? next_received | None => false end
    then mthrow TrailingBytes
    else modify (set_received next_received).

Definition finish (self : TeamLookupBundleStreamValidator) : result TeamLookupBundleWireError () :=
  if (header_bytes self <? TEAM_LOOKUP_BUNDLE_HEADER_BYTES)%nat then Err HeaderTruncated
  else
    expected ← ok_or (expected_bytes self) HeaderTruncated;
    match received_bytes self ?= expected with
    | Lt => Err PayloadTruncated
    | Gt => Err TrailingBytes
    | Eq => Ok ()
    end.

(** Chunks as they arrive, then the end of the body: the loop of the transport. *)
Fixpoint push_all (chunks : list (list Z)) : V () :=
  match chunks with
  | [] => mret ()
  | chunk :: chunks => push chunk;; push_all chunks
  end.

Definition stream_accepts (max_response_bytes : Z) (chunks : list (list Z)) : bool :=
  match push_all chunks (TeamLookupBundleStreamValidator_new max_response_bytes) with
  | Returned _ self => is_ok (finish self)
  | _ => false
  end.

(** ** The parser of a body *)

Definition parse_team_lookup_bundle_v1 (body : list Z) (max_response_bytes : Z) :
    outcome TeamLookupBundleStreamValidator TeamLookupBundleWireError UntrustedTeamLookupBundleV1 :=
  (push body;;
   validator ← gets id;
   lift_result (finish validator);;
   expected_length ← lift_result (validate_header body max_response_bytes);
   let trust_length := Z.to_nat (read_u32 body TRUST_LENGTH_OFFSET) in
   let manifest_length := Z.to_nat (read_u32 body MANIFEST_LENGTH_OFFSET) in
   let stdout_length := Z.to_nat (read_u32 body STDOUT_LENGTH_OFFSET) in
   let trust_start := TEAM_LOOKUP_BUNDLE_HEADER_BYTES in
   let manifest_start := (trust_start + trust_length)%nat in
   let stdout_start := (manifest_start + manifest_length)%nat in
   let stderr_start := (stdout_start + stdout_length)%nat in
   mret (mkLookup (slice body trust_start manifest_start) (slice body manifest_start stdout_start)
           (slice body stdout_start stderr_start)
           (slice body stderr_start (Z.to_nat expected_length))))
  (TeamLookupBundleStreamValidator_new max_response_bytes).

(** ** The wire format *)

Definition lookup_header (trust manifest stdout stderr : Z) : list Z :=
  TEAM_LOOKUP_BUNDLE_MAGIC ++ be_bytes 2 TEAM_LOOKUP_BUNDLE_SCHEMA_VERSION ++ be_bytes 2 0 ++
  be_bytes 4 trust ++ be_bytes 4 manifest ++ be_bytes 4 stdout ++ be_bytes 4 stderr ++ be_bytes 4 0.

Definition lookup_frame (f : UntrustedTeamLookupBundleV1) : list Z :=
  lookup_header (len (initial_trust_json f)) (len (manifest_json f)) (len (stdout_ciphertext f))
    (len (stderr_ciphertext f)) ++
  initial_trust_json f ++ manifest_json f ++ stdout_ciphertext f ++ stderr_ciphertext f.

(** What a header may declare. *)
Definition declarable (max trust manifest stdout stderr : Z) : Prop :=
  0 < trust <= MAX_TRUST_BUNDLE_BYTES ∧ 0 < manifest <= MAX_MANIFEST_BYTES ∧
  0 <= stdout <= MAX_BLOB_BYTES ∧ 0 <= stderr <= MAX_BLOB_BYTES ∧
  32 + trust + manifest + stdout + stderr <= max.

Definition within_limits (max : Z) (f : UntrustedTeamLookupBundleV1) : Prop :=
  declarable max (len (initial_trust_json f)) (len (manifest_json f)) (len (stdout_ciphertext f))
    (len (stderr_ciphertext f)).

(** ** Headers *)

Lemma read_u16_app before after z (offset : nat) :
  length before = offset → is_u16 z → read_u16 (before ++ be_bytes 2 z ++ after) offset = z.
Proof.
  intros <- Hz. unfold read_u16. rewrite drop_app_length, take_app_le by (by rewrite be_bytes_length).
  rewrite take_ge by (by rewrite be_bytes_length). by apply be_value_small.
Qed.

Lemma read_u32_app before after z (offset : nat) :
  length before = offset → is_u32 z → read_u32 (before ++ be_bytes 4 z ++ after) offset = z.
Proof.
  intros <- Hz. unfold read_u32. rewrite drop_app_length, take_app_le by (by rewrite be_bytes_length).
  rewrite take_ge by (by rewrite be_bytes_length). by apply be_value_small.
Qed.

(** A field read from complete bytes is the field written there. *)
Lemma field_bytes n (body : list Z) offset :
  is_bytes body → (offset + n <= length body)%nat →
  take n (drop offset body) = be_bytes n (be_value (take n (drop offset body))).
Proof.
  intros Hb Hl. pose proof (be_bytes_be_value _ (is_bytes_take_drop n offset body Hb)) as Hv.
  by rewrite length_take, length_drop, Nat.min_l in Hv by lia.
Qed.

Lemma take_segments (h : list Z) :
  take 32 h = take 8 h ++ take 2 (drop 8 h) ++ take 2 (drop 10 h) ++ take 4 (drop 12 h) ++
    take 4 (drop 16 h) ++ take 4 (drop 20 h) ++ take 4 (drop 24 h) ++ take 4 (drop 28 h).
Proof.
  assert (∀ n m (l : list Z), take (n + m) l = take n l ++ take m (drop n l)) as Hs.
  { intros n m l. rewrite <- (take_drop n l) at 1. destruct (decide (n ≤ length l)%nat).
    - rewrite take_app_ge by (rewrite length_take; lia). rewrite length_take. do 2 f_equal. lia.
    - rewrite drop_ge, app_nil_r, take_nil, app_nil_r, take_take by lia. f_equal. lia. }
  change 32%nat with (8 + (2 + (2 + (4 + (4 + (4 + (4 + 4)))))))%nat.
  by rewrite !Hs, !drop_drop.
Qed.

Lemma lookup_header_length t m o r : length (lookup_header t m o r) = 32%nat.
Proof. unfold lookup_header. by rewrite !length_app, !be_bytes_length. Qed.

Lemma header_reads t m o r rest :
  is_u32 t → is_u32 m → is_u32 o → is_u32 r →
  let h := lookup_header t m o r ++ rest in
  take 8 h = TEAM_LOOKUP_BUNDLE_MAGIC ∧ read_u16 h 8 = 1 ∧ read_u16 h 10 = 0 ∧ read_u32 h 12 = t ∧
  read_u32 h 16 = m ∧ read_u32 h 20 = o ∧ read_u32 h 24 = r ∧ read_u32 h 28 = 0.
Proof.
  intros Ht Hm Ho Hr. unfold lookup_header. rewrite <- !app_assoc. cbv zeta.
  set (a := TEAM_LOOKUP_BUNDLE_MAGIC). assert (length a = 8%nat) as Ha by done. clearbody a.
  assert (∀ l k : list Z, read_u32 (l ++ be_bytes 4 0 ++ k) (length l) = 0) as H0.
  { intros l k. by apply read_u32_app. }
  set (b := be_bytes 2 TEAM_LOOKUP_BUNDLE_SCHEMA_VERSION). set (c := be_bytes 2 0).
  split; [by rewrite take_app_length'|].
  split; [by apply (read_u16_app a (c ++ be_bytes 4 t ++ be_bytes 4 m ++ be_bytes 4 o ++ be_bytes 4 r ++ be_bytes 4 0 ++ rest) 1)|].
  split.
  { rewrite (app_assoc a). apply read_u16_app; [|done]. rewrite length_app, Ha. done. }
  split.
  { rewrite (app_assoc a), (app_assoc _ c). apply read_u32_app; [|done]. by rewrite !length_app, Ha. }
  split.
  { rewrite (app_assoc a), (app_assoc _ c), (app_assoc _ (be_bytes 4 t)). apply read_u32_app; [|done].
    by rewrite !length_app, Ha. }
  split.
  { rewrite (app_assoc a), (app_assoc _ c), (app_assoc _ (be_bytes 4 t)), (app_assoc _ (be_bytes 4 m)).
    apply read_u32_app; [|done]. by rewrite !length_app, Ha. }
  split.
  { rewrite (app_assoc a), (app_assoc _ c), (app_assoc _ (be_bytes 4 t)), (app_assoc _ (be_bytes 4 m)),
      (app_assoc _ (be_bytes 4 o)). apply read_u32_app; [|done]. by rewrite !length_app, Ha. }
  rewrite (app_assoc a), (app_assoc _ c), (app_assoc _ (be_bytes 4 t)), (app_assoc _ (be_bytes 4 m)),
    (app_assoc _ (be_bytes 4 o)), (app_assoc _ (be_bytes 4 r)). apply read_u32_app; [|done].
  by rewrite !length_app, Ha.
Qed.

Lemma declarable_u32 max t m o r : declarable max t m o r →
  is_u32 t ∧ is_u32 m ∧ is_u32 o ∧ is_u32 r ∧ 0 <= 32 + t + m + o + r <= 2 ^ 32.
Proof.
  unfold declarable, MAX_TRUST_BUNDLE_BYTES, MAX_MANIFEST_BYTES, MAX_BLOB_BYTES, is_u32. lia.
Qed.

Lemma checked_total_Some t m o r :
  0 <= t → 0 <= m → 0 <= o → 0 <= r → 32 + t + m + o + r <= 2 ^ 32 →
  checked_total 32 [t; m; o; r] = Some (32 + t + m + o + r).
Proof.
  intros. cbn [checked_total]. unfold u64_checked_add, U64_MAX.
  repeat (rewrite (proj2 (Z.leb_le _ _)) by lia; cbn -[Z.add Z.leb]). done.
Qed.

Lemma validate_header_exact h max e : is_bytes h →
  validate_header h max = Ok e ↔
  (32 ≤ length h)%nat ∧
  ∃ t m o r, take 32 h = lookup_header t m o r ∧ declarable max t m o r ∧ e = 32 + t + m + o + r.
Proof.
  intros Hb. unfold validate_header. cbv zeta. autorewrite with checks. split.
  - intros (Hl & Hm & Hv & Hf & Hr & Ht & Hn & Hrest). apply Nat.ltb_ge in Hl. split; [done|].
    unfold TEAM_LOOKUP_BUNDLE_HEADER_BYTES in Hl.
    assert (∀ off, (off + 4 <= 32)%nat → take 4 (drop off h) = be_bytes 4 (read_u32 h off) ∧ is_u32 (read_u32 h off)) as H4.
    { intros off Hoff. split; [apply field_bytes; [done|lia]|].
      pose proof (be_value_range _ (is_bytes_take_drop 4 off h Hb)) as Hrange. unfold len in Hrange.
      rewrite length_take, length_drop, Nat.min_l in Hrange by lia. exact Hrange. }
    exists (read_u32 h 12), (read_u32 h 16), (read_u32 h 20), (read_u32 h 24).
    destruct (H4 12%nat) as [E12 U12]; [lia|]. destruct (H4 16%nat) as [E16 U16']; [lia|].
    destruct (H4 20%nat) as [E20 U20]; [lia|]. destruct (H4 24%nat) as [E24 U24]; [lia|].
    destruct (H4 28%nat) as [E28 _]; [lia|].
    unfold TRUST_LENGTH_OFFSET, MANIFEST_LENGTH_OFFSET, STDOUT_LENGTH_OFFSET, STDERR_LENGTH_OFFSET in *.
    destruct Hrest as (? & ? & ? & ? & Hrest). unfold is_u32 in *.
    unfold MAX_TRUST_BUNDLE_BYTES, MAX_MANIFEST_BYTES, MAX_BLOB_BYTES in *.
    rewrite checked_total_Some in Hrest by lia. cbn [ok_or] in Hrest.
    change (Ok ?x ≫= ?f) with (f x) in Hrest. cbv beta in Hrest. rewrite guard_Ok in Hrest.
    destruct Hrest as [Hmax [= <-]]. apply Z.ltb_ge in Hmax. split; [|split; [|done]].
    + rewrite take_segments, E12, E16, E20, E24, E28. unfold lookup_header.
      change 8%nat with (length TEAM_LOOKUP_BUNDLE_MAGIC) at 1. rewrite Hm.
      rewrite (field_bytes 2 h 8), (field_bytes 2 h 10) by (done || lia).
      unfold read_u16, VERSION_OFFSET, FLAGS_OFFSET, RESERVED_OFFSET in Hv, Hf, Hr. by rewrite Hv, Hf, Hr.
    + unfold declarable, MAX_TRUST_BUNDLE_BYTES, MAX_MANIFEST_BYTES, MAX_BLOB_BYTES. lia.
  - intros (Hl & t & m & o & r & Hh & Hd & ->). pose proof (declarable_u32 _ _ _ _ _ Hd) as (? & ? & ? & ? & ?).
    rewrite <- (take_drop 32 h), Hh. pose proof (header_reads t m o r (drop 32 h)) as Hreads. cbv zeta in Hreads.
    destruct Hreads as (Hm8 & H8 & H10 & H12 & H16 & H20 & H24 & H28); [done..|].
    unfold VERSION_OFFSET, FLAGS_OFFSET, RESERVED_OFFSET, TRUST_LENGTH_OFFSET, MANIFEST_LENGTH_OFFSET,
      STDOUT_LENGTH_OFFSET, STDERR_LENGTH_OFFSET.
    rewrite H8, H10, H12, H16, H20, H24, H28.
    unfold declarable, MAX_TRUST_BUNDLE_BYTES, MAX_MANIFEST_BYTES, MAX_BLOB_BYTES in *.
    change (Z.of_nat TEAM_LOOKUP_BUNDLE_HEADER_BYTES) with 32. rewrite checked_total_Some by lia. cbn [ok_or].
    change (Ok ?x ≫= ?f) with (f x). cbv beta. rewrite guard_Ok. rewrite Z.ltb_ge.
    split_and!; try done; lia.
Qed.

(** ** Streams *)

(** The declared length is a function of the first 32 bytes. *)
Lemma validate_header_take body max : (32 ≤ length body)%nat →
  validate_header (take 32 body) max = validate_header body max.
Proof.
  intros Hl. unfold validate_header, read_u16, read_u32.
  assert (∀ n off, (off + n <= 32)%nat → take n (drop off (take 32 body)) = take n (drop off body)) as Ht.
  { intros n off Hn. rewrite !firstn_skipn_comm, take_take. do 2 f_equal. lia. }
  unfold VERSION_OFFSET, FLAGS_OFFSET, RESERVED_OFFSET, TRUST_LENGTH_OFFSET, MANIFEST_LENGTH_OFFSET,
    STDOUT_LENGTH_OFFSET, STDERR_LENGTH_OFFSET, TEAM_LOOKUP_BUNDLE_HEADER_BYTES.
  rewrite !Ht by lia. rewrite take_take, length_take, !Nat.min_l by (simpl; lia).
  by rewrite (proj2 (Nat.ltb_ge (length body) 32)) by lia.
Qed.

(** What a validator may have received: within the budget and, once the header
    is there, within the length it declares. *)
Definition admissible (max : Z) (p : list Z) : Prop :=
  len p <= max ∧ len p <= U64_MAX ∧
  ((32 ≤ length p)%nat → ∃ e, validate_header (take 32 p) max = Ok e ∧ len p <= e).

(** The validator that has received [p]. *)
Definition validator_of (max : Z) (p : list Z) : TeamLookupBundleStreamValidator :=
  mkValidator (take 32 p ++ replicate (32 - length p) 0) (Nat.min 32 (length p)) (len p)
    (if (32 <=? length p)%nat
     then match validate_header (take 32 p) max with Ok e => Some e | Err _ => None end else None)
    max.

Lemma validator_of_nil max : TeamLookupBundleStreamValidator_new max = validator_of max [].
Proof. done. Qed.

Lemma admissible_prefix max p q : admissible max (p ++ q) → admissible max p.
Proof.
  unfold admissible, len. rewrite length_app. intros (? & ? & Hh). split_and!; [lia..|].
  intros Hl. rewrite take_app_le in Hh by done. destruct Hh as (e & ? & ?); [lia|]. exists e. split; [done|lia].
Qed.

(** Filling the header. *)
Lemma copy_header_of max p chunk : (length p < 32)%nat →
  copy_header (Nat.min (32 - length p) (length chunk)) chunk (validator_of max p)
  = mkValidator (take 32 (p ++ chunk) ++ replicate (32 - length (p ++ chunk)) 0)
      (Nat.min 32 (length (p ++ chunk))) (len p) None max.
Proof.
  intros Hp. unfold copy_header, validator_of. cbn [header_bytes validator_header received_bytes expected_bytes max_response_bytes].
  rewrite (proj2 (Nat.leb_gt 32 (length p))) by done. rewrite length_app, (Nat.min_r 32 (length p)) by lia.
  f_equal; [|lia].
  rewrite (take_ge p 32) by lia. rewrite take_app_length, take_app, (take_ge p 32) by lia.
  rewrite drop_app_ge by lia. rewrite drop_replicate, <- app_assoc. f_equal. f_equal; [|f_equal; lia].
  destruct (decide (length chunk ≤ 32 - length p)%nat).
  - rewrite Nat.min_r by done. by rewrite !take_ge by lia.
  - by rewrite Nat.min_l by lia.
Qed.

Lemma push_header_exact max p chunk s :
  admissible max p → len (p ++ chunk) <= max → len (p ++ chunk) <= U64_MAX →
  push_header chunk (validator_of max p) = Returned () s ↔
  ((32 ≤ length (p ++ chunk))%nat → ∃ e, validate_header (take 32 (p ++ chunk)) max = Ok e) ∧
  s = set_received (len p) (validator_of max (p ++ chunk)).
Proof.
  intros (Ha & Hu & Hd) Hm Hum. unfold push_header, mbind, state_bind, gets.
  cbn [header_bytes validator_of]. destruct (Nat.ltb_spec (Nat.min 32 (length p)) TEAM_LOOKUP_BUNDLE_HEADER_BYTES)
    as [Hp|Hp]; unfold TEAM_LOOKUP_BUNDLE_HEADER_BYTES in *.
  - assert (length p < 32)%nat as Hp' by lia. rewrite (Nat.min_r 32 (length p)) by lia.
    cbn [modify]. rewrite copy_header_of by done. cbn [header_bytes id].
    rewrite length_app in *. destruct (Nat.eqb_spec (Nat.min 32 (length p + length chunk)) 32) as [Hf|Hf].
    + cbn [validator_header max_response_bytes id]. rewrite (proj2 (Nat.sub_0_le 32 _)) by lia. cbn [replicate].
      rewrite app_nil_r. unfold set_received, validator_of. rewrite length_app, (proj2 (Nat.leb_le 32 _)) by lia.
      rewrite (proj2 (Nat.sub_0_le 32 _)) by lia. cbn [replicate]. rewrite app_nil_r.
      destruct (validate_header (take 32 (p ++ chunk)) max) as [e|e]; cbn.
      * split; [intros [= <-]|intros [_ ->]]; [|done]. split; [eauto|done].
      * split; [done|]. intros [He _]. destruct He as [? ?]; [lia|done].
    + unfold set_received, validator_of. rewrite length_app, (proj2 (Nat.leb_gt 32 _)) by lia. cbn.
      split; [intros [= <-]|intros [_ ->]]; [|done]. split; [lia|done].
  - assert (32 ≤ length p)%nat as Hp' by lia. cbn.
    assert (take 32 (p ++ chunk) = take 32 p) as Ht by (by apply take_app_le).
    assert (set_received (len p) (validator_of max (p ++ chunk)) = validator_of max p) as ->.
    { unfold set_received, validator_of. rewrite Ht, length_app.
      rewrite !(proj2 (Nat.leb_le 32 _)), !(proj2 (Nat.sub_0_le 32 _)), !Nat.min_l by lia. done. }
    split; [intros [= <-]|by intros [_ ->]]. split; [|done]. intros _. rewrite Ht.
    destruct (Hd Hp') as (e & ? & _). eauto.
Qed.

(** One chunk: accepted exactly when what has been received stays admissible. *)
Lemma push_exact max p chunk s :
  admissible max p →
  push chunk (validator_of max p) = Returned () s ↔
  admissible max (p ++ chunk) ∧ s = validator_of max (p ++ chunk).
Proof.
  intros Ha. unfold push, mbind at 1, state_bind at 1. cbn [gets id].
  change (received_bytes (validator_of max p)) with (len p).
  change (max_response_bytes (validator_of max p)) with max.
  replace (u64_checked_add (len p) (len chunk)) with
    (if len (p ++ chunk) <=? U64_MAX then Some (len (p ++ chunk)) else None)
    by (unfold u64_checked_add, len; by rewrite length_app, Nat2Z.inj_add).
  destruct (Z.leb_spec (len (p ++ chunk)) U64_MAX) as [Hu|Hu]; cycle 1.
  { cbn. split; [done|]. intros [(_ & ? & _) _]. lia. }
  unfold mbind at 1, state_bind at 1. cbn [lift_result ok_or].
  destruct (Z.ltb_spec max (len (p ++ chunk))) as [Hm|Hm].
  { cbn. split; [done|]. intros [(? & _) _]. lia. }
  unfold mbind at 1, state_bind at 1.
  destruct (push_header chunk (validator_of max p)) as [[] s'|e s'|] eqn:Hh.
  - apply push_header_exact in Hh as [He ->]; [|done..].
    unfold mbind, state_bind, modify, gets.
    change (expected_bytes (set_received (len p) (validator_of max (p ++ chunk))))
      with (expected_bytes (validator_of max (p ++ chunk))).
    cbn [expected_bytes validator_of].
    destruct (Nat.leb_spec 32 (length (p ++ chunk))) as [Hl|Hl].
    + destruct (He Hl) as (e & Hv). rewrite Hv. destruct (Z.ltb_spec e (len (p ++ chunk))) as [Hx|Hx].
      * split; [done|]. intros [(_ & _ & Hd) _]. destruct (Hd Hl) as (e' & Hv' & ?). rewrite Hv in Hv'.
        injection Hv' as <-. lia.
      * assert (set_received (len (p ++ chunk)) (set_received (len p) (validator_of max (p ++ chunk)))
                = validator_of max (p ++ chunk)) as -> by done.
        split; [intros [= <-]|by intros [_ ->]]. split; [|done]. split_and!; [done..|]. eauto.
    + assert (set_received (len (p ++ chunk)) (set_received (len p) (validator_of max (p ++ chunk)))
                = validator_of max (p ++ chunk)) as -> by done.
      split; [intros [= <-]|by intros [_ ->]]. split; [|done]. split_and!; [done..|]. lia.
  - split; [done|]. intros [(_ & _ & Hd) _].
    assert (push_header chunk (validator_of max p)
            = Returned () (set_received (len p) (validator_of max (p ++ chunk)))) as Hp.
    { apply push_header_exact; [done..|]. split; [|done]. intros Hl. destruct (Hd Hl) as (x & ? & _). eauto. }
    by rewrite Hh in Hp.
  - split; [done|]. intros [(_ & _ & Hd) _].
    assert (push_header chunk (validator_of max p)
            = Returned () (set_received (len p) (validator_of max (p ++ chunk)))) as Hp.
    { apply push_header_exact; [done..|]. split; [|done]. intros Hl. destruct (Hd Hl) as (x & ? & _). eauto. }
    by rewrite Hh in Hp.
Qed.

Lemma push_all_exact max chunks : ∀ p s,
  admissible max p →
  push_all chunks (validator_of max p) = Returned () s ↔
  admissible max (p ++ concat chunks) ∧ s = validator_of max (p ++ concat chunks).
Proof.
  induction chunks as [|chunk chunks IH]; intros p s Ha; cbn [push_all concat].
  - rewrite app_nil_r. cbn. split; [intros [= <-]|intros [_ ->]]; done.
  - unfold mbind, state_bind. rewrite app_assoc.
    destruct (push chunk (validator_of max p)) as [[] s'|e s'|] eqn:Hp.
    + apply push_exact in Hp as [Hc ->]; [|done]. by rewrite IH.
    + split; [done|]. intros [Hc%admissible_prefix _].
      rewrite (proj2 (push_exact max p chunk _ Ha)) in Hp by done. done.
    + split; [done|]. intros [Hc%admissible_prefix _].
      rewrite (proj2 (push_exact max p chunk _ Ha)) in Hp by done. done.
Qed.

(** A body is complete when its header declares exactly its length. *)
Lemma finish_exact max body : admissible max body →
  finish (validator_of max body) = Ok () ↔
  (32 ≤ length body)%nat ∧ validate_header body max = Ok (len body).
Proof.
  intros (_ & _ & Hd). unfold finish. cbn [header_bytes validator_of expected_bytes received_bytes].
  unfold TEAM_LOOKUP_BUNDLE_HEADER_BYTES.
  destruct (Nat.ltb_spec (Nat.min 32 (length body)) 32) as [Hl|Hl].
  { split; [done|]. intros [? _]. lia. }
  assert (32 ≤ length body)%nat as Hb by lia. rewrite (proj2 (Nat.leb_le _ _)) by done.
  rewrite validate_header_take by done. destruct (Hd Hb) as (e & He & _). rewrite validate_header_take in He by done.
  rewrite He. cbn. destruct (Z.compare_spec (len body) e) as [->|?|?]; split; try done.
  all: intros [_ [= ?]]; lia.
Qed.

Lemma header_admissible max body :
  len body <= U64_MAX → (32 ≤ length body)%nat → validate_header body max = Ok (len body) → admissible max body.
Proof.
  intros Hu Hl Hv. assert (len body <= max) as Hm.
  { unfold validate_header in Hv. cbv zeta in Hv. autorewrite with checks in Hv.
    destruct Hv as (_ & _ & _ & _ & _ & _ & _ & _ & _ & _ & _ & Hv).
    destruct (checked_total _ _) as [e|]; cbn in Hv; [|done].
    destruct (Z.ltb_spec max e) as [?|?]; [done|]. injection Hv as <-. done. }
  split_and!; [done..|]. intros _. rewrite validate_header_take by done. eauto with lia.
Qed.

(** The frames of a body. *)
Lemma frame_iff max body : is_bytes body →
  ((32 ≤ length body)%nat ∧ validate_header body max = Ok (len body)) ↔
  ∃ f, body = lookup_frame f ∧ within_limits max f.
Proof.
  intros Hb. rewrite validate_header_exact by done. split.
  - intros (Hl & _ & t & m & o & r & Hh & Hd & He).
    pose proof (declarable_u32 _ _ _ _ _ Hd) as (Ht & Hm & Ho & Hr & _). unfold is_u32 in *.
    set (rest := drop 32 body). assert (len rest = t + m + o + r) as Hrest.
    { unfold rest, len in *. rewrite length_drop. lia. }
    set (rest1 := drop (Z.to_nat t) rest). set (rest2 := drop (Z.to_nat m) rest1).
    exists (mkLookup (take (Z.to_nat t) rest) (take (Z.to_nat m) rest1) (take (Z.to_nat o) rest2)
              (drop (Z.to_nat o) rest2)).
    assert (len (take (Z.to_nat t) rest) = t ∧ len (take (Z.to_nat m) rest1) = m ∧
            len (take (Z.to_nat o) rest2) = o ∧ len (drop (Z.to_nat o) rest2) = r) as (Lt & Lm & Lo & Lr).
    { unfold len in *. unfold rest2, rest1. rewrite !length_take, !length_drop. lia. }
    unfold lookup_frame, within_limits. cbn [initial_trust_json manifest_json stdout_ciphertext stderr_ciphertext].
    rewrite Lt, Lm, Lo, Lr. split; [|done]. rewrite <- Hh, take_drop.
    unfold rest2. rewrite take_drop. unfold rest1. rewrite take_drop. unfold rest. by rewrite take_drop.
  - intros (f & -> & Hd). unfold lookup_frame. unfold within_limits in Hd.
    assert (∀ t m o r k, (32 ≤ length (lookup_header t m o r ++ k))%nat) as Hl.
    { intros. rewrite length_app, lookup_header_length. lia. }
    split; [apply Hl|]. split; [apply Hl|].
    do 4 eexists. rewrite take_app_le by (by rewrite lookup_header_length).
    rewrite take_ge by (by rewrite lookup_header_length). split; [done|]. split; [done|].
    unfold len. rewrite !length_app, lookup_header_length. lia.
Qed.

Lemma frame_slices f max (body := lookup_frame f) : within_limits max f →
  mkLookup (slice body 32 (32 + Z.to_nat (read_u32 body 12)))
    (slice body (32 + Z.to_nat (read_u32 body 12)) (32 + Z.to_nat (read_u32 body 12) + Z.to_nat (read_u32 body 16)))
    (slice body (32 + Z.to_nat (read_u32 body 12) + Z.to_nat (read_u32 body 16))
       (32 + Z.to_nat (read_u32 body 12) + Z.to_nat (read_u32 body 16) + Z.to_nat (read_u32 body 20)))
    (slice body (32 + Z.to_nat (read_u32 body 12) + Z.to_nat (read_u32 body 16) + Z.to_nat (read_u32 body 20))
       (length body)) = f.
Proof.
  intros Hd. destruct f as [t m o r]. unfold within_limits in Hd.
  pose proof (declarable_u32 _ _ _ _ _ Hd) as (Ht & Hm & Ho & Hr & _).
  unfold body, lookup_frame. cbn [initial_trust_json manifest_json stdout_ciphertext stderr_ciphertext] in *.
  pose proof (header_reads _ _ _ _ (t ++ m ++ o ++ r) Ht Hm Ho Hr) as Hreads. cbv zeta in Hreads.
  destruct Hreads as (_ & _ & _ & -> & -> & -> & _ & _). unfold len. rewrite !Nat2Z.id.
  set (h := lookup_header _ _ _ _). assert (length h = 32%nat) as Hh by apply lookup_header_length. clearbody h.
  unfold slice. rewrite !length_app, Hh.
  assert (∀ (a b c X : list Z) i j, X = a ++ b ++ c → i = length a → j = (i + length b)%nat →
            take (j - i) (drop i X) = b) as Hslice.
  { intros a b c X i j -> -> ->. by rewrite drop_app_length, take_app_length' by lia. }
  f_equal; [apply (Hslice h _ (m ++ o ++ r))|apply (Hslice (h ++ t) _ (o ++ r))
           |apply (Hslice (h ++ t ++ m) _ r)|apply (Hslice (h ++ t ++ m ++ o) _ [])];
    rewrite ?length_app, ?app_nil_r, ?Hh, <- ?app_assoc; lia || done.
Qed.

Lemma push_no_panic chunk s : push chunk s ≠ Panicked.
Proof.
  apply (wp_no_panic _ (λ _ _, True) (λ _ _, True)). unfold push, push_header. by wp_steps.
Qed.

(** The outcome of parsing, by the header of the body. *)
Lemma parse_Returned body max f :
  len body <= U64_MAX →
  (∃ s, parse_team_lookup_bundle_v1 body max = Returned f s) ↔
  ((32 ≤ length body)%nat ∧ validate_header body max = Ok (len body)) ∧
  f = mkLookup (slice body 32 (32 + Z.to_nat (read_u32 body 12)))
    (slice body (32 + Z.to_nat (read_u32 body 12)) (32 + Z.to_nat (read_u32 body 12) + Z.to_nat (read_u32 body 16)))
    (slice body (32 + Z.to_nat (read_u32 body 12) + Z.to_nat (read_u32 body 16))
       (32 + Z.to_nat (read_u32 body 12) + Z.to_nat (read_u32 body 16) + Z.to_nat (read_u32 body 20)))
    (slice body (32 + Z.to_nat (read_u32 body 12) + Z.to_nat (read_u32 body 16) + Z.to_nat (read_u32 body 20))
       (length body)).
Proof.
  intros Hu. unfold parse_team_lookup_bundle_v1. rewrite validator_of_nil. split.
  - intros (s & Hs). unfold mbind at 1, state_bind at 1 in Hs.
    destruct (push body (validator_of max [])) as [[] s'|e s'|] eqn:Hp; [|done..].
    pose proof (admissible_prefix max [] body) as H0. cbn [app] in H0.
    assert (admissible max []) as Hn.
    { split; [|by split; [|simpl; lia]]. unfold push, mbind, state_bind in Hp. cbn in Hp.
      destruct (ok_or _ _) as [n|] eqn:Hn; [|done]. cbn in Hp. destruct (Z.ltb_spec max n); [done|].
      apply ok_or_Ok in Hn. unfold u64_checked_add in Hn. destruct (_ <=? U64_MAX); [|done]. injection Hn as <-.
      unfold len in *. simpl. lia. }
    apply push_exact in Hp as [Ha ->]; [|done]. cbn [app] in *.
    unfold mbind, state_bind, gets, lift_result in Hs. cbn [id] in Hs.
    destruct (finish (validator_of max body)) as [[]|] eqn:Hf; [|done].
    apply finish_exact in Hf as [Hl Hv]; [|done]. rewrite Hv in Hs. injection Hs as <- <-.
    split; [done|]. unfold len. by rewrite Nat2Z.id.
  - intros [[Hl Hv] ->]. pose proof (header_admissible max body Hu Hl Hv) as Ha.
    assert (admissible max []) as Hn by (by apply (admissible_prefix max [] body)).
    assert (push body (validator_of max []) = Returned () (validator_of max body)) as Hp by (by apply push_exact).
    assert (finish (validator_of max body) = Ok ()) as Hf by (by apply finish_exact).
    exists (validator_of max body). unfold mbind, state_bind, gets, lift_result. rewrite Hp. cbn [id].
    rewrite Hf, Hv. unfold len. by rewrite Nat2Z.id.
Qed.

Lemma parse_no_panic body max : parse_team_lookup_bundle_v1 body max ≠ Panicked.
Proof.
  unfold parse_team_lookup_bundle_v1, mbind at 1, state_bind at 1.
  pose proof (push_no_panic body (TeamLookupBundleStreamValidator_new max)) as Hp.
  destruct (push _ _); [|done..]. unfold mbind, state_bind, gets, lift_result.
  destruct (finish _); [|done]. by destruct (validate_header _ _).
Qed.

(** ** Properties *)

(** C34. The parser of a lookup bundle accepts exactly the wire format: a body parses
    to a bundle exactly when it is that bundle's frame, byte for byte, with every
    field within its limit and the whole within the response budget; it never
    panics. *)
Theorem lookup_parse_exact body max f :
  is_bytes body → len body <= ISIZE_MAX →
  ((∃ s, parse_team_lookup_bundle_v1 body max = Returned f s) ↔
   body = lookup_frame f ∧ within_limits max f) ∧
  parse_team_lookup_bundle_v1 body max ≠ Panicked.
Proof.
  intros Hb Hs. split; [|apply parse_no_panic].
  rewrite parse_Returned by (unfold ISIZE_MAX, U64_MAX in *; lia). rewrite frame_iff by done. split.
  - intros [(g & -> & Hd) ->]. by rewrite (frame_slices g max Hd).
  - intros [-> Hd]. split; [by exists f|]. by rewrite (frame_slices f max Hd).
Qed.

(** C35. However a body is cut into chunks, the validator that sees them arrive
    accepts exactly what the parser accepts of the whole body; and at every
    moment it has let through no more than the budget, nor more than a complete
    header declares. *)
Theorem lookup_stream_exact chunks max :
  is_bytes (concat chunks) → len (concat chunks) <= ISIZE_MAX → 0 <= max →
  (stream_accepts max chunks = true ↔
   ∃ f s, parse_team_lookup_bundle_v1 (concat chunks) max = Returned f s) ∧
  (∀ s, push_all chunks (TeamLookupBundleStreamValidator_new max) = Returned () s →
   received_bytes s = len (concat chunks) ∧ received_bytes s <= max ∧
   ∀ e, validate_header (concat chunks) max = Ok e → received_bytes s <= e).
Proof.
  intros Hb Hs Hm. rewrite validator_of_nil.
  assert (len (concat chunks) <= U64_MAX) as Hu by (unfold ISIZE_MAX, U64_MAX in *; lia).
  assert (admissible max []) as Hn by (split; [done|by split; [|simpl; lia]]).
  split.
  - unfold stream_accepts. rewrite validator_of_nil.
    destruct (push_all chunks (validator_of max [])) as [[] s|e s|] eqn:Hp.
    + apply push_all_exact in Hp as [Ha ->]; [|done]. cbn [app] in *. split.
      * destruct (finish _) as [[]|] eqn:Hf; [|done]. intros _. apply finish_exact in Hf; [|done].
        eexists. by apply parse_Returned.
      * intros (f & Hf). apply parse_Returned in Hf as [Hf _]; [|done].
        by rewrite (proj2 (finish_exact max (concat chunks) Ha)).
    + split; [done|]. intros (f & Hf). apply parse_Returned in Hf as [[Hl Hv] _]; [|done].
      rewrite (proj2 (push_all_exact max chunks [] (validator_of max (concat chunks)) Hn)) in Hp; [done|].
      split; [by apply header_admissible|done].
    + split; [done|]. intros (f & Hf). apply parse_Returned in Hf as [[Hl Hv] _]; [|done].
      rewrite (proj2 (push_all_exact max chunks [] (validator_of max (concat chunks)) Hn)) in Hp; [done|].
      split; [by apply header_admissible|done].
  - intros s [(Ha & _ & Hd) ->]%push_all_exact; [|done]. cbn [app] in *. split; [done|]. split; [done|].
    intros e He. assert (32 ≤ length (concat chunks))%nat as Hl by (by apply validate_header_exact in He as [? _]).
    destruct (Hd Hl) as (e' & He' & ?). rewrite validate_header_take in He' by done. cbn. congruence.
Qed.

Module LookupSample.

Definition bundle : UntrustedTeamLookupBundleV1 := mkLookup [123; 125] [91; 93] [1; 2; 3] [4].

Lemma lookup_parse_exact_witness :
  (∃ s, parse_team_lookup_bundle_v1 (lookup_frame bundle) 100 = Returned bundle s) ∧
  ∀ f, ¬ ∃ s, parse_team_lookup_bundle_v1 (lookup_frame bundle) 39 = Returned f s.
Proof.
  assert (is_bytes (lookup_frame bundle)) as Hb by (repeat constructor; done).
  split; [|intros f]; rewrite (proj1 (lookup_parse_exact _ _ _ Hb ltac:(done))).
  - split; [done|]. split_and!; done.
  - intros [He (_ & _ & _ & _ & Hm)]. apply (f_equal len) in He. revert He Hm. unfold lookup_frame, len.
    rewrite !length_app, !lookup_header_length. simpl. lia.
Defined.

(** The header in two chunks, then the fields. *)
Definition chunks : list (list Z) := [take 5 (lookup_frame bundle); take 28 (drop 5 (lookup_frame bundle));
  drop 33 (lookup_frame bundle)].

Lemma lookup_stream_exact_witness :
  stream_accepts 100 chunks = true ∧ stream_accepts 100 (chunks ++ [[0]]) = false ∧
  ∃ f s, parse_team_lookup_bundle_v1 (concat chunks) 100 = Returned f s.
Proof.
  assert (is_bytes (concat chunks)) as Hb by (repeat constructor; done).
  split; [by vm_compute|]. split; [by vm_compute|].
  apply (proj1 (lookup_stream_exact chunks 100 Hb ltac:(done) ltac:(done))). by vm_compute.
Defined.
End LookupSample.
