(* ===== verification/EncryptedManifest.v ===== *)
(** * Encrypted team results

    [src/src/team_manifest_v2.rs]: the manifest of an encrypted result and the
    bytes that are signed and authenticated, the two-execution check of a local
    result, its admission, the builder of a publication, and the verification
    and decryption on the consumer's side. XChaCha20-Poly1305 is a parameter, the
    class [XChaCha20Poly1305]; [XChaCha20Poly1305Ok] holds its documented facts.
    A [Digest] is the 32 bytes of the hash ([digest_bytes_eq] of TeamLaws: the
    [expect] of [digest_bytes] cannot fail). Every constant of the [put_]
    functions is that of [src/src/team.rs]. *)

From Stdlib Require Import String.
From stdpp Require Import gmap.
From S2P Require Import Prelude Monad Bytes ContractTypes Canonical CanonicalSpec CanonicalParse.
From S2P Require Import CanonicalCodec RecordTypes Paths RecordValidation Digest Text Team TeamCrypto.
From S2P Require Import TrustBundle TeamRequestKey Privacy.
Import Captures.

Class XChaCha20Poly1305 := {
  (** [Aead::encrypt] and [Aead::decrypt]: key, nonce, message, associated data. *)
  aead_encrypt : list Z → list Z → list Z → list Z → option (list Z);
  aead_decrypt : list Z → list Z → list Z → list Z → option (list Z);
}.

(** Decryption inverts encryption under the same key, nonce and associated data,
    and a ciphertext is its message and a tag of 16 bytes. *)
Class XChaCha20Poly1305Ok `{XChaCha20Poly1305} : Prop := {
  aead_round_trip key nonce message aad ciphertext :
    aead_encrypt key nonce message aad = Some ciphertext →
    aead_decrypt key nonce ciphertext aad = Some message;
  aead_length key nonce message aad ciphertext :
    aead_encrypt key nonce message aad = Some ciphertext → len ciphertext = len message + 16;
}.

Definition ENCRYPTED_MANIFEST_SCHEMA_VERSION : Z := 2.
Definition LOCAL_RESULT_PROOF_SCHEMA_VERSION : Z := 1.
Definition REPOSITORY_ENCRYPTION_KEY_BYTES : Z := 32.
Definition XCHACHA20_NONCE_BYTES : Z := 24.
Definition POLY1305_TAG_BYTES : Z := 16.
Definition MAX_V2_CIPHERTEXT_STREAM_BYTES : Z := MAX_BLOB_SIZE.
Definition MAX_V2_PLAINTEXT_STREAM_BYTES : Z := MAX_V2_CIPHERTEXT_STREAM_BYTES - POLY1305_TAG_BYTES.
Definition V2_SIGNING_DOMAIN : list Z := bstr "again.remote-cache.encrypted-manifest.v2".
Definition STREAM_AAD_DOMAIN : list Z := bstr "again.remote-cache.encrypted-stream-aad.v2".
Definition LOCAL_PROOF_DOMAIN : list Z := bstr "again.local-two-execution-proof.v1".
Definition PRODUCER_AUTHORIZATION_DOMAIN : list Z := bstr "again.team-producer-authorization.v1".

#[export] Instance PrivacyMetadata_eq_dec : EqDecision PrivacyMetadata.
Proof. solve_decision. Defined.

(** ** Data *)

Record RepositoryEncryptionKeyV1 := mkRepositoryKey { key_id : list Z; key_bytes : list Z }.

Inductive ResultStatusV2 := Success.

Module StreamLabels.
Inductive EncryptedStreamLabelV2 := Stdout | Stderr.
End StreamLabels.

Record EncryptedStreamRefV2 := mkStreamRef {
  ciphertext_digest : list Z;
  ciphertext_size_bytes : Z;
  nonce : list Z;
}.

Record ManifestSignatureV2 := mkSignatureV2 {
  v2_signature_schema_version : Z;
  v2_signature_algorithm : SignatureAlgorithm;
  v2_signature_key_id : list Z;
  v2_signature_bytes : list Z;
}.

Record EncryptedRemoteCacheManifestV2 := mkManifestV2 {
  v2_schema_version : Z;
  v2_record_id : list Z;
  v2_tenant_id : list Z;
  v2_repository_id : list Z;
  v2_generation_id : list Z;
  v2_request_key : list Z;
  v2_policy_digest : list Z;
  v2_classifier_digest : list Z;
  v2_execution_profile_digest : list Z;
  v2_platform_digest : list Z;
  v2_image_digest : list Z;
  v2_result_status : ResultStatusV2;
  v2_duration_micros : Z;
  v2_proof_schema_version : Z;
  v2_producer_version : list Z;
  v2_local_proof_digest : list Z;
  v2_privacy : PrivacyMetadata;
  v2_repository_encryption_key_id : list Z;
  v2_stdout : EncryptedStreamRefV2;
  v2_stderr : EncryptedStreamRefV2;
  v2_producer_id : list Z;
  v2_created_at : Z;
  v2_expires_at : Z;
  v2_signature : ManifestSignatureV2;
}.

Module ManifestV2Errors.
Import StreamLabels.
Inductive ManifestV2Error :=
| UnknownSchemaVersion | UnknownProofSchemaVersion | UnknownSignatureSchemaVersion
| UnsupportedSignatureAlgorithm | InvalidIdentifier (field : string) | IntegerOutOfRange
| InvalidLifetime | CreatedInFuture | Expired | ReleaseClockRollback | InvalidSignatureSize
| InvalidSignature | Unshareable | SecretTainted
| InvalidCiphertextSize (stream : EncryptedStreamLabelV2) | NonEmptyEncryptedStderr | NonceReuse
| ValidatedResultRequestMismatch | PublicationPolicyMismatch
| Trust (error : TrustErrors.TrustBundleError)
| UntrustedProducer | UntrustedProducerKeyMaterial | RevokedKey | RevokedRecord
| EncryptionFailed (stream : EncryptedStreamLabelV2) | CiphertextLengthInvariant
| TrustRequestMismatch | TenantMismatch | RepositoryMismatch | InvalidGenerationId
| GenerationMismatch | RequestKeyMismatch | PolicyMismatch | ClassifierMismatch | PrivacyMismatch
| ConsumerPrivacyGateRejected | ExecutionProfileMismatch | PlatformMismatch | ImageMismatch
| RepositoryKeyIdMismatch | CiphertextSizeMismatch (stream : EncryptedStreamLabelV2)
| CiphertextDigestMismatch (stream : EncryptedStreamLabelV2)
| AuthenticationFailed (stream : EncryptedStreamLabelV2).
End ManifestV2Errors.
Import ManifestV2Errors.

Abbreviation manifest_v2 := (result ManifestV2Error).

Definition v2_identifier (value : list Z) (field : string) : manifest_v2 () :=
  map_err (λ _, InvalidIdentifier field) (team_validate_identifier value).

Definition v2_validate_generation_id (value : list Z) : manifest_v2 () :=
  if negb (len value =? 32)
     || any (λ byte, negb (is_ascii_hexdigit byte) || is_ascii_uppercase byte) value
  then Err InvalidGenerationId else Ok ().

Definition RepositoryEncryptionKeyV1_from_bytes (id bytes : list Z) :
    manifest_v2 RepositoryEncryptionKeyV1 :=
  v2_identifier id "repository_encryption_key_id";;
  Ok (mkRepositoryKey id bytes).

(** ** The signed and the authenticated bytes *)

Definition result_status_tag (value : ResultStatusV2) : Z := match value with Success => 1 end.
Definition stream_label_tag (value : StreamLabels.EncryptedStreamLabelV2) : Z :=
  match value with StreamLabels.Stdout => 1 | StreamLabels.Stderr => 2 end.

Definition put_stream_ref (stream : EncryptedStreamRefV2) (include_ciphertext_digest : bool) : list Z :=
  (if include_ciphertext_digest then put_digest (ciphertext_digest stream) else []) ++
  put_u64 (ciphertext_size_bytes stream) ++
  put_bytes (nonce stream).

Definition put_manifest_semantics (m : EncryptedRemoteCacheManifestV2)
    (include_ciphertext_digests : bool) : list Z :=
  put_u16 (v2_schema_version m) ++
  put_string (v2_record_id m) ++
  put_string (v2_tenant_id m) ++
  put_string (v2_repository_id m) ++
  put_string (v2_generation_id m) ++
  put_digest (v2_request_key m) ++
  put_digest (v2_policy_digest m) ++
  put_digest (v2_classifier_digest m) ++
  put_digest (v2_execution_profile_digest m) ++
  put_digest (v2_platform_digest m) ++
  put_digest (v2_image_digest m) ++
  put_u8 (result_status_tag (v2_result_status m)) ++
  put_u64 (v2_duration_micros m) ++
  put_u16 (v2_proof_schema_version m) ++
  put_string (v2_producer_version m) ++
  put_digest (v2_local_proof_digest m) ++
  put_u8 (privacy_class_tag (classification (v2_privacy m))) ++
  put_u8 (shareability_tag (shareability (v2_privacy m))) ++
  put_u8 (Z.b2z (secret_tainted (v2_privacy m))) ++
  put_string (v2_repository_encryption_key_id m) ++
  put_stream_ref (v2_stdout m) include_ciphertext_digests ++
  put_stream_ref (v2_stderr m) include_ciphertext_digests ++
  put_string (v2_producer_id m) ++
  put_u64 (v2_created_at m) ++
  put_u64 (v2_expires_at m) ++
  put_u16 (v2_signature_schema_version (v2_signature m)) ++
  put_u8 (signature_algorithm_tag (v2_signature_algorithm (v2_signature m))) ++
  put_string (v2_signature_key_id (v2_signature m)).

Definition canonical_signing_bytes (self : EncryptedRemoteCacheManifestV2) : list Z :=
  put_bytes V2_SIGNING_DOMAIN ++ put_manifest_semantics self true.

Definition stream_aad (self : EncryptedRemoteCacheManifestV2)
    (stream : StreamLabels.EncryptedStreamLabelV2) : list Z :=
  put_bytes STREAM_AAD_DOMAIN ++ put_manifest_semantics self false ++ put_u8 (stream_label_tag stream).

(** ** Validation *)

Definition v2_validate_privacy (privacy : PrivacyMetadata) : manifest_v2 () :=
  if bool_decide (shareability privacy = LocalOnly) then Err Unshareable
  else if secret_tainted privacy || bool_decide (classification privacy = Secret)
  then Err SecretTainted else Ok ().

Definition validate_stream_ref (stream : EncryptedStreamRefV2)
    (label : StreamLabels.EncryptedStreamLabelV2) : manifest_v2 () :=
  if (ciphertext_size_bytes stream <? POLY1305_TAG_BYTES)
     || (MAX_V2_CIPHERTEXT_STREAM_BYTES <? ciphertext_size_bytes stream)
  then Err (InvalidCiphertextSize label) else Ok ().

Definition v2_validate_wire (self : EncryptedRemoteCacheManifestV2) : manifest_v2 () :=
  let signature := v2_signature self in
  if negb (v2_schema_version self =? ENCRYPTED_MANIFEST_SCHEMA_VERSION) then Err UnknownSchemaVersion
  else
    v2_identifier (v2_record_id self) "record_id";;
    v2_identifier (v2_tenant_id self) "tenant_id";;
    v2_identifier (v2_repository_id self) "repository_id";;
    v2_identifier (v2_producer_version self) "producer_version";;
    v2_identifier (v2_repository_encryption_key_id self) "repository_encryption_key_id";;
    v2_identifier (v2_producer_id self) "producer_id";;
    v2_identifier (v2_signature_key_id signature) "signature.key_id";;
    v2_validate_generation_id (v2_generation_id self);;
    if negb (v2_proof_schema_version self =? LOCAL_RESULT_PROOF_SCHEMA_VERSION)
    then Err UnknownProofSchemaVersion
    else if negb (v2_signature_schema_version signature =? SIGNATURE_ENVELOPE_SCHEMA_VERSION)
    then Err UnknownSignatureSchemaVersion
    else if negb (bool_decide (v2_signature_algorithm signature = Ed25519))
    then Err UnsupportedSignatureAlgorithm
    else if negb (len (v2_signature_bytes signature) =? ED25519_SIGNATURE_SIZE)
    then Err InvalidSignatureSize
    else if (MAX_JSON_SAFE_INTEGER <? v2_duration_micros self)
       || (MAX_JSON_SAFE_INTEGER <? v2_created_at self)
       || (MAX_JSON_SAFE_INTEGER <? v2_expires_at self)
    then Err IntegerOutOfRange
    else if (v2_expires_at self <=? v2_created_at self)
       || (MAX_MANIFEST_LIFETIME_SECONDS <? v2_expires_at self - v2_created_at self)
    then Err InvalidLifetime
    else
      v2_validate_privacy (v2_privacy self);;
      validate_stream_ref (v2_stdout self) StreamLabels.Stdout;;
      validate_stream_ref (v2_stderr self) StreamLabels.Stderr;;
      if negb (ciphertext_size_bytes (v2_stderr self) =? POLY1305_TAG_BYTES)
      then Err NonEmptyEncryptedStderr
      else if bytes_eqb (nonce (v2_stdout self)) (nonce (v2_stderr self)) then Err NonceReuse
      else Ok ().

(** ** Local results *)

Record CompleteLocalExecutionV1 := mkComplete {
  complete_exit_code : option Z;
  complete_stdout : list Z;
  complete_stderr : list Z;
  complete_duration_micros : Z;
}.

Record ValidatedLocalResultV1 := mkValidated {
  result_request_key : list Z;
  result_stdout : list Z;
  result_duration_micros : Z;
  result_proof_schema_version : Z;
  result_producer_version : list Z;
  result_local_proof_digest : list Z;
}.

Module LocalResultErrors.
Inductive LocalResultValidationError :=
| InvalidProducerVersion | NonZeroExit (run code : Z) | AbnormalExit (run : Z)
| NonEmptyStderr (run bytes : Z) | OversizeStdout (run bytes : Z) | DurationOutOfRange (run : Z)
| ExecutionMismatch.
End LocalResultErrors.

Definition hash_put_bytes (value : list Z) : list Z := put_u64 (len value) ++ value.

Section local.
Import LocalResultErrors.
Context `{Blake3Hash}.

Definition local_proof_digest (request_key stdout stderr : list Z)
    (first_duration_micros second_duration_micros : Z) (producer_version : list Z) : list Z :=
  blake3_hash
    (hash_put_bytes LOCAL_PROOF_DOMAIN ++ put_u16 LOCAL_RESULT_PROOF_SCHEMA_VERSION ++
     hash_put_bytes request_key ++ [0] ++ hash_put_bytes stdout ++ hash_put_bytes stderr ++
     put_u64 first_duration_micros ++ put_u64 second_duration_micros ++ hash_put_bytes producer_version).

(** One round of the loop over the two executions. *)
Definition validate_complete (execution : CompleteLocalExecutionV1) (run : Z) :
    result LocalResultValidationError () :=
  match complete_exit_code execution with
  | Some 0 =>
    if negb (bool_decide (complete_stderr execution = []))
    then Err (NonEmptyStderr run (len (complete_stderr execution)))
    else if MAX_V2_PLAINTEXT_STREAM_BYTES <? len (complete_stdout execution)
    then Err (OversizeStdout run (len (complete_stdout execution)))
    else if MAX_JSON_SAFE_INTEGER <? complete_duration_micros execution
    then Err (DurationOutOfRange run)
    else Ok ()
  | Some code => Err (NonZeroExit run code)
  | None => Err (AbnormalExit run)
  end.

Definition validate_two_complete_executions_v1 (request : TeamRequestKeyV1)
    (first second : CompleteLocalExecutionV1) (producer_version : list Z) :
    result LocalResultValidationError ValidatedLocalResultV1 :=
  map_err (λ _, InvalidProducerVersion) (team_validate_identifier producer_version);;
  validate_complete first 1;;
  validate_complete second 2;;
  if negb (bytes_eqb (complete_stdout first) (complete_stdout second))
     || negb (bytes_eqb (complete_stderr first) (complete_stderr second))
     || negb (bool_decide (complete_exit_code first = complete_exit_code second))
  then Err ExecutionMismatch
  else
    Ok (mkValidated (request_digest request) (complete_stdout first) (complete_duration_micros first)
          LOCAL_RESULT_PROOF_SCHEMA_VERSION producer_version
          (local_proof_digest (request_digest request) (complete_stdout first) (complete_stderr first)
             (complete_duration_micros first) (complete_duration_micros second) producer_version)).
End local.

(** ** Admission of a local result *)

Record AdmittedLocalPublicationV2 := mkAdmitted {
  admitted_result : ValidatedLocalResultV1;
  admitted_privacy : PrivacyMetadata;
  admitted_classifier : list Z;
  admitted_policy : list Z;
}.

Record RejectedLocalPublicationV2 := mkRejected {
  rejected_reason : Reasons.LocalOnlyReason;
  rejected_result : ValidatedLocalResultV1;
}.

(** The capture the classifier sees: a closed input, exit zero, these streams. *)
Definition captured (stdout stderr : list Z) : CapturedExecution :=
  mkExecution StdinClosed (CompletePipe stdout) (CompletePipe stderr) (Code 0).

Definition admit_validated_local_publication_v2 `{Blake3Hash, Float64} (policy : RepositorySharingPolicy)
    (request : TeamRequestKeyV1) (local : ValidatedLocalResultV1) :
    result RejectedLocalPublicationV2 AdmittedLocalPublicationV2 :=
  if negb (bytes_eqb (result_request_key local) (request_digest request))
  then Err (mkRejected Reasons.RequestDigestMismatch local)
  else
    match PublishableResult_evaluate policy request (captured (result_stdout local) []) with
    | Err reason => Err (mkRejected reason local)
    | Ok publishable =>
      Ok (mkAdmitted local (publishable_privacy publishable)
            (publishable_classifier_digest publishable) (publishable_policy_digest publishable))
    end.

(** ** Publication *)

Definition trust_request (request : TeamRequestKeyV1) : TrustBoundRequest :=
  let d := descriptor request in
  mkRequest (request_digest request) (policy_digest d) (execution_profile_digest d)
    (platform_digest d) (image_digest d).

Record ManifestV2BuildInput := mkBuildInput {
  build_record_id : list Z;
  build_request : TeamRequestKeyV1;
  build_admitted : AdmittedLocalPublicationV2;
  build_signer : Ed25519Signer;
  build_verified_trust : VerifiedTrustBundle;
  build_repository_key : RepositoryEncryptionKeyV1;
  build_now : Z;
  build_created_at : Z;
  build_expires_at : Z;
}.

Record EncryptedPublicationV2 := mkPublication {
  publication_manifest : EncryptedRemoteCacheManifestV2;
  publication_stdout_ciphertext : list Z;
  publication_stderr_ciphertext : list Z;
}.

Definition with_streams (m : EncryptedRemoteCacheManifestV2) (stdout stderr : EncryptedStreamRefV2) :
    EncryptedRemoteCacheManifestV2 :=
  mkManifestV2 (v2_schema_version m) (v2_record_id m) (v2_tenant_id m) (v2_repository_id m)
    (v2_generation_id m) (v2_request_key m) (v2_policy_digest m) (v2_classifier_digest m)
    (v2_execution_profile_digest m) (v2_platform_digest m) (v2_image_digest m) (v2_result_status m)
    (v2_duration_micros m) (v2_proof_schema_version m) (v2_producer_version m)
    (v2_local_proof_digest m) (v2_privacy m) (v2_repository_encryption_key_id m) stdout stderr
    (v2_producer_id m) (v2_created_at m) (v2_expires_at m) (v2_signature m).

Definition with_signature_bytes (m : EncryptedRemoteCacheManifestV2) (signature : list Z) :
    EncryptedRemoteCacheManifestV2 :=
  mkManifestV2 (v2_schema_version m) (v2_record_id m) (v2_tenant_id m) (v2_repository_id m)
    (v2_generation_id m) (v2_request_key m) (v2_policy_digest m) (v2_classifier_digest m)
    (v2_execution_profile_digest m) (v2_platform_digest m) (v2_image_digest m) (v2_result_status m)
    (v2_duration_micros m) (v2_proof_schema_version m) (v2_producer_version m)
    (v2_local_proof_digest m) (v2_privacy m) (v2_repository_encryption_key_id m) (v2_stdout m)
    (v2_stderr m) (v2_producer_id m) (v2_created_at m) (v2_expires_at m)
    (mkSignatureV2 (v2_signature_schema_version (v2_signature m))
       (v2_signature_algorithm (v2_signature m)) (v2_signature_key_id (v2_signature m)) signature).

Section publication.
Context `{Ed25519Dalek, Blake3Hash, XChaCha20Poly1305}.

Definition authorization_challenge (record_id : list Z) (request : TeamRequestKeyV1)
    (signer : Ed25519Signer) : list Z :=
  let d := descriptor request in
  put_bytes PRODUCER_AUTHORIZATION_DOMAIN ++
  put_string (tenant_id d) ++
  put_string (repository_id d) ++
  put_string (generation_id d) ++
  put_bytes (request_digest request) ++
  put_string record_id ++
  put_string (signer_key_id signer) ++
  put_string (signer_producer_id signer).

Definition authorize_publication_v2 (record_id : list Z) (request : TeamRequestKeyV1)
    (signer : Ed25519Signer) (verified_trust : VerifiedTrustBundle) (now_unix_seconds : Z) :
    manifest_v2 () :=
  v2_identifier record_id "record_id";;
  let d := descriptor request in
  context ← map_err Trust (verification_context verified_trust (trust_request request) now_unix_seconds);
  if negb (bytes_eqb (context_tenant_id context) (tenant_id d)) then Err TenantMismatch
  else if negb (bytes_eqb (context_repository_id context) (repository_id d)) then Err RepositoryMismatch
  else if negb (bytes_eqb (bundle_generation_id (verified_bundle verified_trust)) (generation_id d))
  then Err GenerationMismatch
  else if bool_decide (signer_key_id signer ∈ context_revoked_key_ids context) then Err RevokedKey
  else if bool_decide (record_id ∈ context_revoked_record_ids context) then Err RevokedRecord
  else if negb (bool_decide (trusted_producer_keys context !! signer_key_id signer
                             = Some (signer_producer_id signer)))
  then Err UntrustedProducer
  else
    let challenge := authorization_challenge record_id request signer in
    let signature := sign_protocol_message signer challenge in
    if negb (verify (producer_verifier verified_trust) Ed25519 (signer_key_id signer)
               (signer_producer_id signer) challenge signature)
    then Err UntrustedProducerKeyMaterial
    else Ok ().

(** The manifest before anything is encrypted or signed. *)
Definition unsealed_manifest (input : ManifestV2BuildInput) (stdout_ciphertext_size : Z)
    (stdout_nonce stderr_nonce : list Z) : EncryptedRemoteCacheManifestV2 :=
  let d := descriptor (build_request input) in
  let local := admitted_result (build_admitted input) in
  let placeholder_digest := blake3_hash [] in
  {| v2_schema_version := ENCRYPTED_MANIFEST_SCHEMA_VERSION;
     v2_record_id := build_record_id input;
     v2_tenant_id := tenant_id d;
     v2_repository_id := repository_id d;
     v2_generation_id := generation_id d;
     v2_request_key := request_digest (build_request input);
     v2_policy_digest := policy_digest d;
     v2_classifier_digest := admitted_classifier (build_admitted input);
     v2_execution_profile_digest := execution_profile_digest d;
     v2_platform_digest := platform_digest d;
     v2_image_digest := image_digest d;
     v2_result_status := Success;
     v2_duration_micros := result_duration_micros local;
     v2_proof_schema_version := result_proof_schema_version local;
     v2_producer_version := result_producer_version local;
     v2_local_proof_digest := result_local_proof_digest local;
     v2_privacy := admitted_privacy (build_admitted input);
     v2_repository_encryption_key_id := key_id (build_repository_key input);
     v2_stdout := mkStreamRef placeholder_digest stdout_ciphertext_size stdout_nonce;
     v2_stderr := mkStreamRef placeholder_digest POLY1305_TAG_BYTES stderr_nonce;
     v2_producer_id := signer_producer_id (build_signer input);
     v2_created_at := build_created_at input;
     v2_expires_at := build_expires_at input;
     v2_signature := mkSignatureV2 SIGNATURE_ENVELOPE_SCHEMA_VERSION Ed25519
                       (signer_key_id (build_signer input)) (replicate 64 0) |}.

Definition build_encrypted_publication_with_nonces_v2 (input : ManifestV2BuildInput)
    (stdout_nonce stderr_nonce : list Z) : manifest_v2 EncryptedPublicationV2 :=
  let admitted := build_admitted input in
  let local := admitted_result admitted in
  let request := build_request input in
  if negb (bytes_eqb (result_request_key local) (request_digest request))
  then Err ValidatedResultRequestMismatch
  else if negb (bytes_eqb (admitted_policy admitted) (policy_digest (descriptor request)))
  then Err PublicationPolicyMismatch
  else
    v2_validate_privacy (admitted_privacy admitted);;
    authorize_publication_v2 (build_record_id input) request (build_signer input)
      (build_verified_trust input) (build_now input);;
    if (MAX_JSON_SAFE_INTEGER <? build_now input)
       || (MAX_JSON_SAFE_INTEGER <? build_created_at input)
       || (MAX_JSON_SAFE_INTEGER <? build_expires_at input)
    then Err IntegerOutOfRange
    else if build_now input <? build_created_at input then Err CreatedInFuture
    else
      stdout_ciphertext_size ←
        ok_or (u64_checked_add (len (result_stdout local)) POLY1305_TAG_BYTES) IntegerOutOfRange;
      let manifest := unsealed_manifest input stdout_ciphertext_size stdout_nonce stderr_nonce in
      v2_validate_wire manifest;;
      let key := key_bytes (build_repository_key input) in
      stdout_ciphertext ←
        ok_or (aead_encrypt key stdout_nonce (result_stdout local) (stream_aad manifest StreamLabels.Stdout))
          (EncryptionFailed StreamLabels.Stdout);
      stderr_ciphertext ←
        ok_or (aead_encrypt key stderr_nonce [] (stream_aad manifest StreamLabels.Stderr))
          (EncryptionFailed StreamLabels.Stderr);
      if negb (len stdout_ciphertext =? ciphertext_size_bytes (v2_stdout manifest))
         || negb (len stderr_ciphertext =? ciphertext_size_bytes (v2_stderr manifest))
      then Err CiphertextLengthInvariant
      else
        let manifest := with_streams manifest
          (mkStreamRef (blake3_hash stdout_ciphertext) stdout_ciphertext_size stdout_nonce)
          (mkStreamRef (blake3_hash stderr_ciphertext) POLY1305_TAG_BYTES stderr_nonce) in
        let manifest := with_signature_bytes manifest
          (sign_protocol_message (build_signer input) (canonical_signing_bytes manifest)) in
        v2_validate_wire manifest;;
        let signature := v2_signature manifest in
        if negb (verify (producer_verifier (build_verified_trust input))
                   (v2_signature_algorithm signature) (v2_signature_key_id signature)
                   (v2_producer_id manifest) (canonical_signing_bytes manifest)
                   (v2_signature_bytes signature))
        then Err UntrustedProducerKeyMaterial
        else Ok (mkPublication manifest stdout_ciphertext stderr_ciphertext).

(** [while stdout_nonce == stderr_nonce]: draws from the generator [random],
    whose [n]th answer is [random n]; [None] when [fuel] draws all collide. *)
Fixpoint fresh_stderr_nonce (fuel n : nat) (random : nat → list Z) (stdout_nonce : list Z) :
    option (list Z) :=
  if bytes_eqb stdout_nonce (random n)
  then match fuel with O => None | S fuel => fresh_stderr_nonce fuel (S n) random stdout_nonce end
  else Some (random n).

Definition build_encrypted_publication_v2 (fuel : nat) (random : nat → list Z)
    (input : ManifestV2BuildInput) : option (manifest_v2 EncryptedPublicationV2) :=
  let stdout_nonce := random O in
  stderr_nonce ← fresh_stderr_nonce fuel 1 random stdout_nonce;
  Some (build_encrypted_publication_with_nonces_v2 input stdout_nonce stderr_nonce).
End publication.

(** ** Consumption *)

Record VerifiedRemoteResultV2 := mkVerifiedResult {
  remote_result_stdout : list Z;
  remote_result_stderr : list Z;
  remote_result_duration_micros : Z;
  remote_result_local_proof_digest : list Z;
  remote_result_producer_id : list Z;
  verified_at : Z;
  release_expires_at : Z;
}.

Definition verify_fresh_for_release (self : VerifiedRemoteResultV2) (now_unix_seconds : Z) :
    manifest_v2 () :=
  if now_unix_seconds <? verified_at self then Err ReleaseClockRollback
  else if release_expires_at self <=? now_unix_seconds then Err Expired
  else Ok ().

(** The result afterwards; on an error it is unchanged. *)
Definition rebind_release_freshness (self : VerifiedRemoteResultV2)
    (now_unix_seconds trust_expires_at_unix_seconds : Z) : manifest_v2 VerifiedRemoteResultV2 :=
  verify_fresh_for_release self now_unix_seconds;;
  if trust_expires_at_unix_seconds <=? now_unix_seconds then Err Expired
  else Ok (mkVerifiedResult (remote_result_stdout self) (remote_result_stderr self)
             (remote_result_duration_micros self) (remote_result_local_proof_digest self)
             (remote_result_producer_id self) now_unix_seconds
             (Z.min (release_expires_at self) trust_expires_at_unix_seconds)).

Definition trust_bound_eqb (left right : TrustBoundRequest) : bool :=
  bytes_eqb (request_request_key left) (request_request_key right)
  && bytes_eqb (request_policy_digest left) (request_policy_digest right)
  && bytes_eqb (request_execution_profile_digest left) (request_execution_profile_digest right)
  && bytes_eqb (request_platform_digest left) (request_platform_digest right)
  && bytes_eqb (request_image_digest left) (request_image_digest right).

Section consumption.
Context `{Ed25519Dalek, Blake3Hash}.

Definition verify_manifest_for_pull_v2 (manifest : EncryptedRemoteCacheManifestV2)
    (request : TeamRequestKeyV1) (sharing_policy : RepositorySharingPolicy)
    (verified_trust : VerifiedTrustBundle) (trust_bound : TrustBoundRequest)
    (repository_key : RepositoryEncryptionKeyV1) (now_unix_seconds : Z) : manifest_v2 () :=
  v2_validate_wire manifest;;
  let d := descriptor request in
  if negb (trust_bound_eqb trust_bound (trust_request request)) then Err TrustRequestMismatch
  else
    context ← map_err Trust (verification_context verified_trust trust_bound now_unix_seconds);
    let signature := v2_signature manifest in
    if negb (bytes_eqb (context_tenant_id context) (tenant_id d)) then Err TenantMismatch
    else if negb (bytes_eqb (context_repository_id context) (repository_id d))
    then Err RepositoryMismatch
    else if negb (bytes_eqb (bundle_generation_id (verified_bundle verified_trust)) (generation_id d))
    then Err GenerationMismatch
    else if negb (bytes_eqb (v2_tenant_id manifest) (tenant_id d)) then Err TenantMismatch
    else if negb (bytes_eqb (v2_repository_id manifest) (repository_id d)) then Err RepositoryMismatch
    else if negb (bytes_eqb (v2_generation_id manifest) (generation_id d)) then Err GenerationMismatch
    else if negb (bytes_eqb (v2_request_key manifest) (request_digest request))
    then Err RequestKeyMismatch
    else if negb (bytes_eqb (v2_policy_digest manifest) (policy_digest d))
       || negb (bytes_eqb (v2_policy_digest manifest) (sharing_digest sharing_policy))
    then Err PolicyMismatch
    else if negb (bytes_eqb (v2_execution_profile_digest manifest) (execution_profile_digest d))
    then Err ExecutionProfileMismatch
    else if negb (bytes_eqb (v2_platform_digest manifest) (platform_digest d)) then Err PlatformMismatch
    else if negb (bytes_eqb (v2_image_digest manifest) (image_digest d)) then Err ImageMismatch
    else if now_unix_seconds <? v2_created_at manifest then Err CreatedInFuture
    else if v2_expires_at manifest <=? now_unix_seconds then Err Expired
    else if negb (bytes_eqb (v2_repository_encryption_key_id manifest) (key_id repository_key))
    then Err RepositoryKeyIdMismatch
    else if bool_decide (v2_record_id manifest ∈ context_revoked_record_ids context)
    then Err RevokedRecord
    else if bool_decide (v2_signature_key_id signature ∈ context_revoked_key_ids context)
    then Err RevokedKey
    else if negb (bool_decide (trusted_producer_keys context !! v2_signature_key_id signature
                               = Some (v2_producer_id manifest)))
    then Err UntrustedProducer
    else if negb (verify (producer_verifier verified_trust) (v2_signature_algorithm signature)
                    (v2_signature_key_id signature) (v2_producer_id manifest)
                    (canonical_signing_bytes manifest) (v2_signature_bytes signature))
    then Err InvalidSignature
    else Ok ().

Definition validate_ciphertext (reference : EncryptedStreamRefV2) (ciphertext : list Z)
    (stream : StreamLabels.EncryptedStreamLabelV2) : manifest_v2 () :=
  if negb (len ciphertext =? ciphertext_size_bytes reference) then Err (CiphertextSizeMismatch stream)
  else if negb (bytes_eqb (blake3_hash ciphertext) (ciphertext_digest reference))
  then Err (CiphertextDigestMismatch stream)
  else Ok ().

Definition verify_and_decrypt_v2 `{XChaCha20Poly1305, Float64}
    (manifest : EncryptedRemoteCacheManifestV2) (stdout_ciphertext stderr_ciphertext : list Z)
    (request : TeamRequestKeyV1) (sharing_policy : RepositorySharingPolicy)
    (verified_trust : VerifiedTrustBundle) (trust_bound : TrustBoundRequest)
    (repository_key : RepositoryEncryptionKeyV1) (now_unix_seconds : Z) :
    manifest_v2 VerifiedRemoteResultV2 :=
  verify_manifest_for_pull_v2 manifest request sharing_policy verified_trust trust_bound
    repository_key now_unix_seconds;;
  validate_ciphertext (v2_stdout manifest) stdout_ciphertext StreamLabels.Stdout;;
  validate_ciphertext (v2_stderr manifest) stderr_ciphertext StreamLabels.Stderr;;
  stdout ← ok_or (aead_decrypt (key_bytes repository_key) (nonce (v2_stdout manifest))
                    stdout_ciphertext (stream_aad manifest StreamLabels.Stdout))
             (AuthenticationFailed StreamLabels.Stdout);
  stderr ← ok_or (aead_decrypt (key_bytes repository_key) (nonce (v2_stderr manifest))
                    stderr_ciphertext (stream_aad manifest StreamLabels.Stderr))
             (AuthenticationFailed StreamLabels.Stderr);
  if negb (bool_decide (stderr = [])) then Err NonEmptyEncryptedStderr
  else if negb (len stdout + POLY1305_TAG_BYTES =? ciphertext_size_bytes (v2_stdout manifest))
  then Err CiphertextLengthInvariant
  else
    locally_classified ←
      map_err (λ _, ConsumerPrivacyGateRejected)
        (PublishableResult_evaluate sharing_policy request (captured stdout stderr));
    if negb (bytes_eqb (v2_classifier_digest manifest) (publishable_classifier_digest locally_classified))
    then Err ClassifierMismatch
    else if negb (bool_decide (v2_privacy manifest = publishable_privacy locally_classified))
    then Err PrivacyMismatch
    else Ok (mkVerifiedResult stdout stderr (v2_duration_micros manifest)
               (v2_local_proof_digest manifest) (v2_producer_id manifest) now_unix_seconds
               (Z.min (v2_expires_at manifest) (bundle_expires_at (verified_bundle verified_trust)))).
End consumption.
