(* ===== verification/TeamPull.v ===== *)
(** * Pulling a team result

    [src/src/team_pull.rs] with what it calls: the clock of
    [src/src/team_clock.rs], the runtime binding of
    [src/src/runtime_attestation.rs] and the durable trust checkpoint of
    [src/src/team_config.rs]. A pull is a computation over the client's trust
    tracker, its digest cache, its clock, its transport and its checkpoint file.
    The traits of the code are classes: [TeamClock], [TeamPullTransport],
    [TeamBundlePullTransport]; the file operations of the checkpoint, the
    inspection of an executable and serde's two decoders are classes too. The
    live runtime of macOS, whose checkpoint file [verify_executable_current] loads
    and inspects, is behind the class [RuntimeHost]. The last field of the state is a
    log of the steps that succeeded, which the code does not have and no step
    reads: theorems about the order of the steps are stated with it. *)

From Stdlib Require Import String.
From stdpp Require Import gmap.
From S2P Require Import Prelude Monad Bytes ContractTypes Canonical CanonicalSpec CanonicalParse.
From S2P Require Import CanonicalCodec RecordTypes Paths RecordValidation Digest Text Team TeamCrypto.
From S2P Require Import TrustBundle TeamRequestKey Privacy RequestObservation LookupBundle EncryptedManifest.

(** ** The clock *)

Module ClockErrors.
Inductive TeamClockError := BeforeUnixEpoch | OutOfRange | Rollback (previous current : Z).
End ClockErrors.

(** The trait [TeamClock]: the answer and the clock afterwards. *)
Class TeamClock (K : Type) := sample_unix_seconds : K → result ClockErrors.TeamClockError Z * K.

(** [validate_monotonic_sample]: the answer and the last sample afterwards. *)
Definition validate_monotonic_sample (last_sample : option Z) (current : Z) :
    result ClockErrors.TeamClockError Z * option Z :=
  if MAX_JSON_SAFE_INTEGER <? current then (Err ClockErrors.OutOfRange, last_sample)
  else match last_sample with
  | Some previous =>
    if current <? previous then (Err (ClockErrors.Rollback previous current), last_sample)
    else (Ok current, Some current)
  | None => (Ok current, Some current)
  end.

(** The wall clock: the seconds since the epoch at each reading, if not before it. *)
Class SystemTime := system_seconds : nat → option Z.

Record SystemTeamClock := mkSystemClock { last_sample : option Z; readings : nat }.

Definition SystemTeamClock_new : SystemTeamClock := mkSystemClock None 0.

#[export] Instance system_team_clock `{SystemTime} : TeamClock SystemTeamClock := λ self,
  match system_seconds (readings self) with
  | None => (Err ClockErrors.BeforeUnixEpoch, mkSystemClock (last_sample self) (S (readings self)))
  | Some current =>
    let '(answer, last) := validate_monotonic_sample (last_sample self) current in
    (answer, mkSystemClock last (S (readings self)))
  end.

(** ** The runtime *)

Module ToolKinds.
Inductive ToolKind := Cat | Head | Tail | Wc | Grep | Ls | Pwd | Rg.
Inductive ExecutableProvenance := AppleSystem | OpenAiCodexBundle.
Inductive VerifyError :=
| UnsupportedPlatform | UnsupportedTool | RequestedNameMismatch | BasenameMismatch | PathNotCanonical
| SystemPathMismatch | CodexBundlePathMismatch | NotRegularExecutable | PrivilegedMode | ScriptFile
| SignatureInvalid | SignatureIdentityMismatch | SystemProfileMismatch | ContentDigestMismatch
| InspectionFailed.
End ToolKinds.

Record ExecutableIdentity := mkExecutable {
  executable_tool : ToolKinds.ToolKind;
  canonical_path : list Z;
  provenance : ToolKinds.ExecutableProvenance;
  semantic_profile : list Z;
}.

#[export] Instance ToolKind_eq_dec : EqDecision ToolKinds.ToolKind.
Proof. solve_decision. Defined.
#[export] Instance ExecutableProvenance_eq_dec : EqDecision ToolKinds.ExecutableProvenance.
Proof. solve_decision. Defined.
#[export] Instance ExecutableIdentity_eq_dec : EqDecision ExecutableIdentity.
Proof. solve_decision. Defined.

Record TeamRuntimeAttestationV1 := mkRuntime {
  runtime_command_name : list Z;
  runtime_executable_identity : ExecutableIdentity;
  runtime_executable_digest : list Z;
  runtime_platform_digest : list Z;
  runtime_image_digest : list Z;
}.

(** The kind of an I/O error is not kept. *)
Module RuntimeErrors.
Inductive RuntimeAttestationError :=
| UnsupportedPlatform | UnsupportedArchitecture | ExecutableNotAudited (error : ToolKinds.VerifyError)
| ExecutableIdentityMismatch | ExecutableChanged | RequestBindingMismatch | DynamicClosureMismatch
| SystemProfileMismatch | RuntimeFactMismatch (field : string) | RuntimeFactIo (field : string)
| CsrInspectionFailed | CsrPolicyMismatch | ActiveCacheUnavailable | ActiveCacheMismatch
| UnsafeArtifact (artifact : string) | ArtifactDigestMismatch (artifact : string)
| ArtifactSizeMismatch (artifact : string) | ArtifactReadLimit (artifact : string)
| ArtifactIo (artifact : string) | CacheHeaderInvalid | CodeSignTimeout | CodeSignOutputLimit
| CodeSignFailed | CodeSignIdentityMismatch | CheckpointPathInvalid | CheckpointMissing
| CheckpointUnsafe | CheckpointIo | CheckpointSizeLimit | CheckpointSchemaMismatch
| CheckpointCorrupt | CheckpointStale | CheckpointClockAnomaly | CheckpointRollback
| CheckpointLocked | DigestEncoding.
End RuntimeErrors.

(** [inspect_executable] and, on macOS, the digests of the platform and the image
    computed from the live runtime, at each call. *)
Class RuntimeHost := {
  inspect_executable :
    nat → list Z → list Z → result RuntimeErrors.RuntimeAttestationError (ExecutableIdentity * list Z);
  live_runtime_digests :
    nat → TeamRuntimeAttestationV1 → result RuntimeErrors.RuntimeAttestationError (list Z * list Z);
}.

Section runtime.
Import RuntimeErrors.
Context `{RuntimeHost}.

Definition verify_executable_current (self : TeamRuntimeAttestationV1) (t : nat) :
    result RuntimeAttestationError () :=
  '(identity, digest) ←
    inspect_executable t (runtime_command_name self) (canonical_path (runtime_executable_identity self));
  if negb (bool_decide (identity = runtime_executable_identity self))
     || negb (bytes_eqb digest (runtime_executable_digest self))
  then Err ExecutableChanged
  else
    '(platform, image) ← live_runtime_digests t self;
    if negb (bytes_eqb platform (runtime_platform_digest self))
       || negb (bytes_eqb image (runtime_image_digest self))
    then Err RequestBindingMismatch
    else Ok ().

Definition verify_request_binding (self : TeamRuntimeAttestationV1) (request : TeamRequestKeyV1) (t : nat) :
    result RuntimeAttestationError () :=
  let d := descriptor request in
  if negb (bool_decide (head (normalized_argv d) = Some (runtime_command_name self)))
     || negb (bytes_eqb (platform_digest d) (runtime_platform_digest self))
     || negb (bytes_eqb (image_digest d) (runtime_image_digest self))
  then Err RequestBindingMismatch
  else verify_executable_current self t.
End runtime.

(** ** Configuration *)

Record TeamProfileV1 := mkProfile {
  profile_endpoint_origin : list Z;
  profile_tenant_id : list Z;
  profile_repository_id : list Z;
  profile_generation_id : list Z;
  profile_pinned_root : PinnedRootKey;
  profile_max_response_bytes : Z;
}.

Definition expected_trust_bundle (self : TeamProfileV1) : ExpectedTrustBundle :=
  mkExpected (profile_tenant_id self) (profile_repository_id self) (profile_generation_id self)
    (profile_endpoint_origin self).

(** The paths and sources of an error are not kept. *)
Module ConfigErrors.
Inductive TeamConfigError :=
| NonCanonicalPath (label : string) | UntrustedAncestor (label : string) | UnsafeFile (label : string)
| FileChanged (label : string) | FileTooLarge (label : string) (limit : Z) | Io (label : string)
| UnsupportedPlatform | InvalidProfileJson | UnknownProfileVersion | InvalidProfileField (field : string)
| AliasedProfileFiles | WorkspaceStateOverlap (label : string) | MissingPublisherConfig
| InvalidReadToken | InvalidWriteToken | InvalidRepositoryKeyJson | UnknownRepositoryKeyVersion
| InvalidRepositoryKeyMaterial | InvalidSharingPolicyJson | UnknownSharingPolicyVersion
| InvalidSharingPolicy (error : Prefixes.SharingPolicyError) | InvalidProducerSigningKeyJson
| UnknownProducerSigningKeyVersion | InvalidProducerSigningKeyMaterial
| InvalidProducerSigningKey (error : CryptoErrors.CryptoError) | InvalidCheckpointJson
| EmptyCheckpoint | CheckpointLockTimeout | Trust (error : TrustErrors.TrustBundleError).
End ConfigErrors.

#[export] Instance ProducerKeyBindingV1_eq_dec : EqDecision ProducerKeyBindingV1.
Proof. solve_decision. Defined.
#[export] Instance TrustCheckpointV1_eq_dec : EqDecision TrustCheckpointV1.
Proof. solve_decision. Defined.

(** [src/src/team_config.rs], the files: the lock of the checkpoint and its
    release, reading and decoding the checkpoint, encoding one, and replacing
    the file atomically. *)
Class CheckpointStore (D : Type) := {
  acquire_checkpoint_lock : D → result ConfigErrors.TeamConfigError () * D;
  release_checkpoint_lock : D → D;
  read_checkpoint_if_present : D → result ConfigErrors.TeamConfigError (option TrustCheckpointV1) * D;
  encode_checkpoint : TrustCheckpointV1 → option (list Z);
  atomic_write_checkpoint : list Z → D → result ConfigErrors.TeamConfigError () * D;
}.

Definition MAX_TRUST_CHECKPOINT_BYTES : Z := 8 * 1024 * 1024.

(** A call that answers with a [Result] and a new state. *)
Definition call {S E A} (f : S → result E A * S) : state_m S E A := λ s,
  match f s with (Ok a, s) => Returned a s | (Err e, s) => Threw e s end.

Section persist.
Import ConfigErrors.
Context `{Ed25519Dalek, UrlParser} {D : Type} `{!CheckpointStore D}.

(** Two restores into a fresh tracker. *)
Definition restores_in_order (profile : TeamProfileV1) (existing checkpoint : TrustCheckpointV1) :
    outcome TrustEpochTracker TrustErrors.TrustBundleError () :=
  (restore_checkpoint existing (expected_trust_bundle profile) (profile_pinned_root profile);;
   restore_checkpoint checkpoint (expected_trust_bundle profile) (profile_pinned_root profile))
  TrustEpochTracker_new.

(** The steps under the lock. *)
Definition replace_checkpoint (profile : TeamProfileV1) (checkpoint : TrustCheckpointV1) :
    state_m D TeamConfigError () :=
  existing ← call read_checkpoint_if_present;
  match existing with
  | Some existing =>
    match restores_in_order profile existing checkpoint with
    | Returned _ _ => mret ()
    | Threw e _ => mthrow (Trust e)
    | Panicked => lift_index None
    end
  | None => mret ()
  end;;
  encoded ← lift_result (ok_or (encode_checkpoint checkpoint) InvalidCheckpointJson);
  if MAX_TRUST_CHECKPOINT_BYTES <? len encoded
  then mthrow (FileTooLarge "trust checkpoint" MAX_TRUST_CHECKPOINT_BYTES)
  else
    call (atomic_write_checkpoint encoded);;
    committed ← call read_checkpoint_if_present;
    committed ← lift_result (ok_or committed (FileChanged "trust checkpoint"));
    if negb (bool_decide (committed = checkpoint)) then mthrow (FileChanged "trust checkpoint")
    else mret ().

(** The lock is released on every return. *)
Definition under_lock {A} (body : state_m D TeamConfigError A) : state_m D TeamConfigError A :=
  _ ← call acquire_checkpoint_lock;
  (λ d, match body d with
        | Returned a d => Returned a (release_checkpoint_lock d)
        | Threw e d => Threw e (release_checkpoint_lock d)
        | Panicked => Panicked
        end) : state_m D TeamConfigError A.

Definition persist_trust_checkpoint (profile : TeamProfileV1) (tracker : TrustEpochTracker) :
    state_m D TeamConfigError () :=
  checkpoint ← lift_result
    (map_err Trust (export_checkpoint tracker (expected_trust_bundle profile) (profile_pinned_root profile)));
  checkpoint ← lift_result (ok_or checkpoint EmptyCheckpoint);
  under_lock (replace_checkpoint profile checkpoint).
End persist.

(** ** The transport *)

Module RemoteErrors.
Inductive ServiceErrorClass := Transient | ConfigurationOrAuth | Corruption.
Inductive RemoteError :=
| InvalidEndpoint | InsecureEndpoint | NonLoopbackTestEndpoint | InvalidToken | InvalidRepository
| RequestBindingMismatch | RepositoryGenerationMismatch | TrustOriginMismatch
| TrustBundle (error : TrustErrors.TrustBundleError) | BlobTooLarge | ManifestTooLarge
| UploadDigestMismatch | ResponseTooLarge (limit : Z) | MissingContentLength | InvalidContentLength
| InvalidResponseContentType | DigestMismatch | SizeMismatch | DigestHeaderMismatch
| InvalidManifest | InvalidTrustBundle | InvalidManifestV2
| InvalidLookupBundle (error : LookupErrors.TeamLookupBundleWireError)
| RequestBudgetExceeded | ResponseBudgetExceeded | TransferBudgetExceeded | PublishOriginMismatch
| PublishCredentialRoleMismatch | ManifestVerification (error : VerificationErrors.VerificationError)
| Timeout (operation : string) | Transport (operation : string) | RedirectRejected | Unauthorized
| Forbidden | NotFound | ManifestNotFound | Conflict | ValidationFailed | PayloadTooLarge
| UnsupportedMediaType | RateLimited | ServiceRejected (code : list Z) (status : Z) (class : ServiceErrorClass)
| InvalidServiceErrorCode | UnexpectedStatus (status : Z).
End RemoteErrors.
Import RemoteErrors (RemoteError).

Class TeamPullTransport (T : Type) := {
  transport_endpoint_origin : T → list Z;
  transport_repository_id : T → list Z;
  transport_generation_id : T → list Z;
  fetch_latest_trust_bundle : T → result RemoteError TrustBundleV1 * T;
  fetch_manifest_v2 : list Z → T → result RemoteError EncryptedRemoteCacheManifestV2 * T;
  fetch_ciphertext : EncryptedStreamRefV2 → T → result RemoteError (list Z) * T;
  after_decrypt : T → T;
}.

Class TeamBundlePullTransport (T : Type) := {
  fetch_lookup_bundle_v1_body : list Z → T → result RemoteError (list Z) * T;
  bundle_fetch_latest_trust_bundle : T → result RemoteError TrustBundleV1 * T;
  bundle_after_decrypt : T → T;
}.

(** [serde_json::from_slice] at the two types of a response. *)
Class TeamResponses := {
  trust_of_json : list Z → option TrustBundleV1;
  manifest_of_json : list Z → option EncryptedRemoteCacheManifestV2;
}.

Definition decode_team_trust_response `{TeamResponses} (bytes : list Z) : result RemoteError TrustBundleV1 :=
  ok_or (trust_of_json bytes) RemoteErrors.InvalidTrustBundle.

Definition decode_team_manifest_v2_response `{TeamResponses} (bytes : list Z) :
    result RemoteError EncryptedRemoteCacheManifestV2 :=
  ok_or (manifest_of_json bytes) RemoteErrors.InvalidManifestV2.

Module PullErrors.
Inductive TeamPullError :=
| Config (error : ConfigErrors.TeamConfigError) | TenantMismatch | RepositoryMismatch
| GenerationMismatch | PolicyMismatch | RequestAdmissionMismatch
| Request (reason : LocalOnly.TeamLocalOnlyReason) | RequestChangedDuringLookup
| RuntimeAttestation (error : RuntimeErrors.RuntimeAttestationError) | TransportBindingMismatch
| CacheMiss | Remote (error : RemoteError)
| LookupBundleWire (error : LookupErrors.TeamLookupBundleWireError)
| Trust (error : TrustErrors.TrustBundleError) | Manifest (error : ManifestV2Errors.ManifestV2Error)
| Clock (error : ClockErrors.TeamClockError).
End PullErrors.
Import PullErrors.

Definition map_manifest_fetch_error (error : RemoteError) : TeamPullError :=
  match error with RemoteErrors.ManifestNotFound => CacheMiss | error => Remote error end.

Definition map_bundle_fetch_error (error : RemoteError) : TeamPullError :=
  match error with
  | RemoteErrors.ManifestNotFound => CacheMiss
  | RemoteErrors.InvalidLookupBundle error => LookupBundleWire error
  | error => Remote error
  end.

Definition validate_local_bindings (tenant repository generation : list Z) (request : TeamRequestKeyV1)
    (sharing_policy : RepositorySharingPolicy) : result TeamPullError () :=
  let d := descriptor request in
  if negb (bytes_eqb (tenant_id d) tenant) then Err TenantMismatch
  else if negb (bytes_eqb (repository_id d) repository) then Err RepositoryMismatch
  else if negb (bytes_eqb (generation_id d) generation) then Err GenerationMismatch
  else if negb (bytes_eqb (policy_digest d) (sharing_digest sharing_policy)) then Err PolicyMismatch
  else Ok ().

Definition preflight_manifest_bindings (m : EncryptedRemoteCacheManifestV2) (request : TeamRequestKeyV1) :
    result TeamPullError () :=
  let d := descriptor request in
  if negb (bytes_eqb (v2_tenant_id m) (tenant_id d))
  then Err (Manifest ManifestV2Errors.TenantMismatch)
  else if negb (bytes_eqb (v2_repository_id m) (repository_id d))
  then Err (Manifest ManifestV2Errors.RepositoryMismatch)
  else if negb (bytes_eqb (v2_generation_id m) (generation_id d))
  then Err (Manifest ManifestV2Errors.GenerationMismatch)
  else if negb (bytes_eqb (v2_request_key m) (request_digest request))
  then Err (Manifest ManifestV2Errors.RequestKeyMismatch)
  else if negb (bytes_eqb (v2_policy_digest m) (policy_digest d))
  then Err (Manifest ManifestV2Errors.PolicyMismatch)
  else if negb (bytes_eqb (v2_execution_profile_digest m) (execution_profile_digest d))
  then Err (Manifest ManifestV2Errors.ExecutionProfileMismatch)
  else if negb (bytes_eqb (v2_platform_digest m) (platform_digest d))
  then Err (Manifest ManifestV2Errors.PlatformMismatch)
  else if negb (bytes_eqb (v2_image_digest m) (image_digest d))
  then Err (Manifest ManifestV2Errors.ImageMismatch)
  else Ok ().

(** ** The pull *)

#[export] Instance TeamObservationKindV1_eq_dec : EqDecision ObservationKinds.TeamObservationKindV1.
Proof. solve_decision. Defined.
#[export] Instance ModeledEnvironmentV1_eq_dec : EqDecision ModeledEnvironmentV1.
Proof. solve_decision. Defined.
#[export] Instance TeamObservationV1_eq_dec : EqDecision TeamObservationV1.
Proof. solve_decision. Defined.
#[export] Instance TeamRequestDescriptorV1_eq_dec : EqDecision TeamRequestDescriptorV1.
Proof. solve_decision. Defined.
#[export] Instance TeamRequestKeyV1_eq_dec : EqDecision TeamRequestKeyV1.
Proof. solve_decision. Defined.

(** What an observer sees of a pull, in order: each call to the service, the clock,
    the checkpoint file and the host that succeeded, with its answer, and the
    decryption. The times are those of the host. *)
Module PullEvents.
Inductive PullEvent :=
| FetchedTrust (bundle : TrustBundleV1)
| FetchedManifest (manifest : EncryptedRemoteCacheManifestV2)
| FetchedCiphertext (stream : EncryptedStreamRefV2) (ciphertext : list Z)
| FetchedBody (body : list Z)
| Sampled (now : Z)
| AcceptedTrust (bundle : TrustBundleV1) (now : Z)
| PersistedTrust (tracker : TrustEpochTracker)
| RebuiltRequest (time : nat) (request : TeamRequestKeyV1)
| VerifiedRuntime (time : nat) (request : TeamRequestKeyV1)
| Decrypted (stdout : list Z)
| NotifiedDecrypted.
End PullEvents.
Import PullEvents.

(** Everything a pull reads or changes: the time of the next call to the host, the
    digest cache, the transport, the clock, the tracker and the checkpoint file;
    and the log of what it did, which no step reads. *)
Record PullState (C T K D : Type) := mkPull {
  pull_time : nat;
  pull_cache : C;
  pull_transport : T;
  pull_clock : K;
  pull_tracker : TrustEpochTracker;
  pull_store : D;
  pull_log : list PullEvent;
}.
Arguments mkPull {_ _ _ _}.
Arguments pull_time {_ _ _ _}.
Arguments pull_cache {_ _ _ _}.
Arguments pull_transport {_ _ _ _}.
Arguments pull_clock {_ _ _ _}.
Arguments pull_tracker {_ _ _ _}.
Arguments pull_store {_ _ _ _}.
Arguments pull_log {_ _ _ _}.

(** What a pull is given. *)
Record PullInput := mkPullInput {
  pull_profile : TeamProfileV1;
  pull_request_input : TeamRequestKeyInput;
  pull_request : TeamRequestKeyV1;
  pull_admission : RemoteRequestAdmissionV1;
  pull_runtime : TeamRuntimeAttestationV1;
  pull_policy : RepositorySharingPolicy;
  pull_key : RepositoryEncryptionKeyV1;
}.

Section pull.
Context `{TeamHost, Blake3Hash, Blake3, Ed25519Dalek, UrlParser, RuntimeHost, XChaCha20Poly1305, Float64}.
Context {C T K D : Type} `{!FileDigestCache C, !TeamClock K, !CheckpointStore D}.

Abbreviation P := (state_m (PullState C T K D) TeamPullError).

Definition on_transport {A} (event : A → PullEvent) (convert : RemoteError → TeamPullError)
    (f : T → result RemoteError A * T) : P A := λ s,
  let '(answer, transport) := f (pull_transport s) in
  let put := mkPull (pull_time s) (pull_cache s) transport (pull_clock s) (pull_tracker s) (pull_store s) in
  match answer with
  | Ok a => Returned a (put (pull_log s ++ [event a]))
  | Err e => Threw (convert e) (put (pull_log s))
  end.

Definition sample : P Z := λ s,
  let '(answer, clock) := sample_unix_seconds (pull_clock s) in
  let put := mkPull (pull_time s) (pull_cache s) (pull_transport s) clock (pull_tracker s) (pull_store s) in
  match answer with
  | Ok now => Returned now (put (pull_log s ++ [Sampled now]))
  | Err e => Threw (Clock e) (put (pull_log s))
  end.

Definition verify_trust (profile : TeamProfileV1) (bundle : TrustBundleV1) (now_unix_seconds : Z) :
    P VerifiedTrustBundle := λ s,
  let put t := mkPull (pull_time s) (pull_cache s) (pull_transport s) (pull_clock s) t (pull_store s) in
  match verify_trust_bundle bundle (expected_trust_bundle profile) (profile_pinned_root profile)
          now_unix_seconds (pull_tracker s) with
  | Returned verified t =>
    Returned verified (put t (pull_log s ++ [AcceptedTrust bundle now_unix_seconds]))
  | Threw e t => Threw (Trust e) (put t (pull_log s))
  | Panicked => Panicked
  end.

Definition persist (profile : TeamProfileV1) : P () := λ s,
  let put d := mkPull (pull_time s) (pull_cache s) (pull_transport s) (pull_clock s) (pull_tracker s) d in
  match persist_trust_checkpoint profile (pull_tracker s) (pull_store s) with
  | Returned a d => Returned a (put d (pull_log s ++ [PersistedTrust (pull_tracker s)]))
  | Threw e d => Threw (Config e) (put d (pull_log s))
  | Panicked => Panicked
  end.

Definition verify_runtime (runtime : TeamRuntimeAttestationV1) (request : TeamRequestKeyV1) : P () := λ s,
  let put := mkPull (S (pull_time s)) (pull_cache s) (pull_transport s) (pull_clock s) (pull_tracker s)
    (pull_store s) in
  match verify_request_binding runtime request (pull_time s) with
  | Ok u => Returned u (put (pull_log s ++ [VerifiedRuntime (pull_time s) request]))
  | Err e => Threw (RuntimeAttestation e) (put (pull_log s))
  end.

(** [build_team_request_key_v1_with_cache] on the caller's facts; every failure
    is [RequestChangedDuringLookup]. *)
Definition rebuild_request (input : TeamRequestKeyInput) : P TeamRequestKeyV1 := λ s,
  let put (session : Session (C := C)) :=
    mkPull (clock session) (session_cache session) (pull_transport s) (pull_clock s) (pull_tracker s)
      (pull_store s) in
  match build_team_request_key_v1_with_cache input (pull_time s) (pull_cache s) with
  | Returned key session =>
    Returned key (put session (pull_log s ++ [RebuiltRequest (pull_time s) key]))
  | Threw _ session => Threw RequestChangedDuringLookup (put session (pull_log s))
  | Panicked => Panicked
  end.

(** The request rebuilt from live facts must be the request of the pull. *)
Definition recheck_request (i : PullInput) : P TeamRequestKeyV1 :=
  rebuilt ← rebuild_request (pull_request_input i);
  if negb (bool_decide (rebuilt = pull_request i)) then mthrow RequestChangedDuringLookup
  else mret rebuilt.

Definition check_manifest (i : PullInput) (verified_trust : VerifiedTrustBundle)
    (manifest : EncryptedRemoteCacheManifestV2) (now_unix_seconds : Z) : P () :=
  lift_result (map_err Manifest
    (verify_manifest_for_pull_v2 manifest (pull_request i) (pull_policy i) verified_trust
       (trust_request (pull_request i)) (pull_key i) now_unix_seconds)).

Definition check_context (i : PullInput) (verified_trust : VerifiedTrustBundle) (now_unix_seconds : Z) :
    P () :=
  lift_result (map_err Trust
    (verification_context verified_trust (trust_request (pull_request i)) now_unix_seconds));;
  mret ().

Definition decrypt (i : PullInput) (verified_trust : VerifiedTrustBundle)
    (manifest : EncryptedRemoteCacheManifestV2) (stdout stderr : list Z) (now_unix_seconds : Z) :
    P VerifiedRemoteResultV2 := λ s,
  match verify_and_decrypt_v2 manifest stdout stderr (pull_request i) (pull_policy i) verified_trust
          (trust_request (pull_request i)) (pull_key i) now_unix_seconds with
  | Ok remote =>
    Returned remote (mkPull (pull_time s) (pull_cache s) (pull_transport s) (pull_clock s) (pull_tracker s)
      (pull_store s) (pull_log s ++ [Decrypted (remote_result_stdout remote)]))
  | Err e => Threw (Manifest e) s
  end.

(** The end of both protocols, from the final trust bundle on. *)
Definition release (i : PullInput) (manifest : EncryptedRemoteCacheManifestV2)
    (remote : VerifiedRemoteResultV2) (final_untrusted_bundle : TrustBundleV1) :
    P VerifiedRemoteResultV2 :=
  release_now_unix_seconds ← sample;
  final_verified_trust ← verify_trust (pull_profile i) final_untrusted_bundle release_now_unix_seconds;
  persist (pull_profile i);;
  check_manifest i final_verified_trust manifest release_now_unix_seconds;;
  remote ← lift_result (map_err Manifest
    (rebind_release_freshness remote release_now_unix_seconds
       (bundle_expires_at (verified_bundle final_verified_trust))));
  final_request ← recheck_request i;
  verify_runtime (pull_runtime i) final_request;;
  final_now_unix_seconds ← sample;
  lift_result (map_err Manifest (verify_fresh_for_release remote final_now_unix_seconds));;
  mret remote.

Definition check_admission (i : PullInput) : P () :=
  if negb (admission_matches (pull_admission i) (pull_policy i) (pull_request i))
  then mthrow RequestAdmissionMismatch else mret ().

Definition finish_pull_v2 `{!TeamPullTransport T} (i : PullInput) : P VerifiedRemoteResultV2 :=
  let profile := pull_profile i in
  let request := pull_request i in
  verify_runtime (pull_runtime i) request;;
  transport ← gets pull_transport;
  if negb (bytes_eqb (transport_endpoint_origin transport) (profile_endpoint_origin profile))
     || negb (bytes_eqb (transport_repository_id transport) (profile_repository_id profile))
     || negb (bytes_eqb (transport_generation_id transport) (profile_generation_id profile))
  then mthrow TransportBindingMismatch
  else
    check_admission i;;
    untrusted_bundle ← on_transport FetchedTrust Remote fetch_latest_trust_bundle;
    trust_now_unix_seconds ← sample;
    verified_trust ← verify_trust profile untrusted_bundle trust_now_unix_seconds;
    persist profile;;
    check_context i verified_trust trust_now_unix_seconds;;
    manifest ← on_transport FetchedManifest map_manifest_fetch_error
      (fetch_manifest_v2 (request_digest request));
    lift_result (preflight_manifest_bindings manifest request);;
    check_manifest i verified_trust manifest trust_now_unix_seconds;;
    stdout_ciphertext ← on_transport (FetchedCiphertext (v2_stdout manifest)) Remote
      (fetch_ciphertext (v2_stdout manifest));
    stderr_ciphertext ← on_transport (FetchedCiphertext (v2_stderr manifest)) Remote
      (fetch_ciphertext (v2_stderr manifest));
    pre_decrypt_now_unix_seconds ← sample;
    refreshed_request ← recheck_request i;
    verify_runtime (pull_runtime i) refreshed_request;;
    remote ← decrypt i verified_trust manifest stdout_ciphertext stderr_ciphertext
               pre_decrypt_now_unix_seconds;
    on_transport (λ _, NotifiedDecrypted) Remote (λ transport, (Ok (), after_decrypt transport));;
    final_untrusted_bundle ← on_transport FetchedTrust Remote fetch_latest_trust_bundle;
    release i manifest remote final_untrusted_bundle.

(** [PendingBundledRemoteResultV1] is the pair of the result and its manifest. *)
Definition decrypt_bundle_body_v1 `{!TeamResponses} (i : PullInput) (body : list Z) :
    P (VerifiedRemoteResultV2 * EncryptedRemoteCacheManifestV2) :=
  let profile := pull_profile i in
  let request := pull_request i in
  verify_runtime (pull_runtime i) request;;
  check_admission i;;
  fields ← match parse_team_lookup_bundle_v1 body (profile_max_response_bytes profile) with
           | Returned fields _ => mret fields
           | Threw e _ => mthrow (LookupBundleWire e)
           | Panicked => lift_index None
           end;
  untrusted_bundle ← lift_result (map_err Remote (decode_team_trust_response (initial_trust_json fields)));
  manifest ← lift_result (map_err Remote (decode_team_manifest_v2_response (manifest_json fields)));
  trust_now_unix_seconds ← sample;
  verified_trust ← verify_trust profile untrusted_bundle trust_now_unix_seconds;
  persist profile;;
  check_context i verified_trust trust_now_unix_seconds;;
  lift_result (preflight_manifest_bindings manifest request);;
  check_manifest i verified_trust manifest trust_now_unix_seconds;;
  refreshed_request ← recheck_request i;
  verify_runtime (pull_runtime i) refreshed_request;;
  pre_decrypt_now_unix_seconds ← sample;
  remote ← decrypt i verified_trust manifest (stdout_ciphertext fields) (stderr_ciphertext fields)
             pre_decrypt_now_unix_seconds;
  mret (remote, manifest).

Definition finish_bundle_pull_v1 `{!TeamBundlePullTransport T, !TeamResponses} (i : PullInput) :
    P VerifiedRemoteResultV2 :=
  body ← on_transport FetchedBody map_bundle_fetch_error
           (fetch_lookup_bundle_v1_body (request_digest (pull_request i)));
  '(remote, manifest) ← decrypt_bundle_body_v1 i body;
  on_transport (λ _, NotifiedDecrypted) Remote (λ transport, (Ok (), bundle_after_decrypt transport));;
  final_untrusted_bundle ← on_transport FetchedTrust Remote bundle_fetch_latest_trust_bundle;
  release i manifest remote final_untrusted_bundle.
End pull.
