(* ===== verification/PullSample.v ===== *)
(** * A published and pulled result

    A concrete producer and consumer: the keys of [TrustSample], a repository of
    one file, a toy cipher and file system that obey the laws assumed of the real
    ones, a publication, and a service that hands it out. The theorems about
    encrypted results and pulls are applied to it. *)

From Stdlib Require Import String.
From stdpp Require Import gmap.
From S2P Require Import Prelude Monad Bytes ContractTypes Canonical CanonicalSpec CanonicalParse.
From S2P Require Import CanonicalCodec RecordTypes Paths RecordValidation Digest.
From S2P Require Import IdentityRoundTrip Text Team TeamCrypto TrustBundle TeamLaws TrustSample.
From S2P Require Import TeamRequestKey Privacy RequestObservation LookupBundle EncryptedManifest TeamPull.
Import FileKinds.

Module PullSample.
#[export] Existing Instances TrustSample.toy_ed25519 TrustSample.toy_ed25519_ok TrustSample.toy_blake3
  TrustSample.toy_blake3_ok TrustSample.toy_url.

#[export] Instance toy_derive : Blake3 := λ _ message, le_bytes 32 (len message).

(** Integers; only texts without long tokens are inspected. *)
#[export] Instance toy_float : Float64 := {|
  f64 := Z; f64_of_usize := Z.of_nat; f64_literal mantissa _ := mantissa; f64_zero := 0;
  f64_add := Z.add; f64_mul := Z.mul; f64_div := Z.div; f64_neg := Z.opp; f64_log2 := Z.log2;
  f64_ge a b := b <=? a;
|}.

(** The message and a tag of its length, the key, the nonce and the data. *)
Definition toy_tag (key nonce message aad : list Z) : list Z :=
  le_bytes 16 (foldr Z.add 0 (key ++ nonce) + 256 * len message + 65536 * len aad).

#[export] Instance toy_aead : XChaCha20Poly1305 := {|
  aead_encrypt key nonce message aad := Some (message ++ toy_tag key nonce message aad);
  aead_decrypt key nonce ciphertext aad :=
    let message := take (length ciphertext - 16) ciphertext in
    if bytes_eqb (drop (length ciphertext - 16) ciphertext) (toy_tag key nonce message aad)
    then Some message else None;
|}.

#[export] Instance toy_aead_ok : XChaCha20Poly1305Ok.
Proof.
  split; cbn; intros key n message aad c [= <-].
  - assert (length (message ++ toy_tag key n message aad) - 16 = length message)%nat as ->
      by (rewrite length_app; unfold toy_tag; rewrite le_bytes_length; lia).
    by rewrite drop_app_length, take_app_length, bytes_eqb_refl.
  - unfold len. rewrite length_app. unfold toy_tag. rewrite le_bytes_length. lia.
Qed.

(** The repository: [/w/src/a.txt]. *)
Definition file_metadata : Metadata := mkMetadata RegularFile 1 2 0 0 0 6 0 0 0 0.
Definition directory_metadata (inode : Z) : Metadata := mkMetadata Directory 1 inode 0 0 0 0 0 0 0 0.

Definition stat (path : list Z) : option Metadata :=
  if bytes_eqb path (bstr "/w/src/a.txt") then Some file_metadata
  else if bytes_eqb path (bstr "/w/src") then Some (directory_metadata 1)
  else if bytes_eqb path (bstr "/w") then Some (directory_metadata 0)
  else None.

#[export] Instance toy_host : TeamHost := {|
  host_canonicalize _ path := Some path;
  host_metadata _ path := stat path;
  host_symlink_metadata _ path := match stat path with Some m => Ok m | None => Err NotFound end;
  host_open _ path := if bytes_eqb path (bstr "/w/src/a.txt") then Some 0%nat else None;
  host_file_metadata _ _ := Some file_metadata;
  host_read _ _ := [Some (bstr "hello" ++ [10])];
  host_read_dir _ _ := None;
|}.

#[export] Existing Instance NoFileDigestCache.

Definition policy : RepositorySharingPolicy :=
  mkSharingPolicy (bstr "v1") [[bstr "src"]] [[bstr ".git"]] 1024
    (sharing_policy_digest (bstr "v1") [[bstr "src"]] [[bstr ".git"]] 1024).

Example sharing_policy_built :
  RepositorySharingPolicy_new (bstr "v1") [bstr "src"] [bstr ".git"] 1024 = Ok policy.
Proof. vm_compute. reflexivity. Qed.

Definition generation_hex : list Z := bstr "0123456789abcdef0123456789abcdef".

Definition request_input : TeamRequestKeyInput :=
  mkInput (bstr "tenant-a") (bstr "repo-a") generation_hex (bstr "/w") (bstr "/w")
    [bstr "cat"; bstr "src/a.txt"] [(bstr "LANG", bstr "C")] false false false
    (sharing_digest policy) (TrustSample.digest_of 2) (TrustSample.digest_of 3) (TrustSample.digest_of 4).

Definition built : outcome (Session (C := ())) LocalOnly.TeamLocalOnlyReason TeamRequestKeyV1 :=
  build_team_request_key_v1_with_cache request_input 0 ().

Definition request : TeamRequestKeyV1 :=
  match built with
  | Returned key _ => key
  | _ => mkRequestKey [] (mkDescriptor 0 [] [] [] [] [] [] [] [] [] [] [])
  end.

(** A bundle of an epoch with the producer's key, signed by the root. *)
Definition bundle (epoch expires : Z) : TrustBundleV1 :=
  let unsigned signature := {|
    bundle_schema_version := 1; bundle_root_key_id := bstr "root-key-1";
    bundle_tenant_id := bstr "tenant-a"; bundle_repository_id := bstr "repo-a";
    bundle_generation_id := generation_hex;
    bundle_endpoint_origin := bstr "https://cache.example.test";
    bundle_epoch := epoch; bundle_issued_at := 100; bundle_expires_at := expires;
    active_producer_keys := [TrustSample.binding "producer-key-1" TrustSample.producer_secret];
    bundle_revoked_key_ids := [bstr "revoked-key-1"];
    bundle_revoked_record_ids := [bstr "revoked-record-1"];
    allowed_policy_digests := [sharing_digest policy];
    allowed_execution_profile_digests := [TrustSample.digest_of 2];
    allowed_platform_digests := [TrustSample.digest_of 3];
    allowed_image_digests := [TrustSample.digest_of 4];
    bundle_signature := signature |} in
  unsigned (TrustSample.toy_sign TrustSample.root_secret (bundle_signing_bytes (unsigned []))).

Definition first_bundle : TrustBundleV1 := bundle 1 200.
Definition second_bundle : TrustBundleV1 := bundle 2 180.

(** ** The producer *)

Definition signer : Ed25519Signer :=
  mkSigner (bstr "producer-key-1") (bstr "producer-a") TrustSample.producer_secret.

Definition repository_key : RepositoryEncryptionKeyV1 :=
  mkRepositoryKey (bstr "repository-key-1") (replicate 32 5).

Definition first_run : CompleteLocalExecutionV1 := mkComplete (Some 0) (bstr "hello" ++ [10]) [] 11.
Definition second_run : CompleteLocalExecutionV1 := mkComplete (Some 0) (bstr "hello" ++ [10]) [] 12.

Definition local : ValidatedLocalResultV1 :=
  match validate_two_complete_executions_v1 request first_run second_run (bstr "again-v1") with
  | Ok local => local
  | Err _ => mkValidated [] [] 0 0 [] []
  end.

Definition admitted : AdmittedLocalPublicationV2 :=
  match admit_validated_local_publication_v2 policy request local with
  | Ok admitted => admitted
  | Err _ => mkAdmitted local (mkPrivacy Secret LocalOnly true) [] []
  end.

Definition build_input : ManifestV2BuildInput :=
  mkBuildInput (bstr "record-1") request admitted signer (capability first_bundle) repository_key
    110 105 1000.

Definition publication_result : result ManifestV2Errors.ManifestV2Error EncryptedPublicationV2 :=
  build_encrypted_publication_with_nonces_v2 build_input (replicate 24 1) (replicate 24 2).

Definition publication : EncryptedPublicationV2 :=
  match publication_result with
  | Ok publication => publication
  | Err _ => mkPublication (unsealed_manifest build_input 0 [] []) [] []
  end.

Example published : publication_result = Ok publication.
Proof. vm_compute. reflexivity. Qed.

(** ** The consumer *)

Definition profile : TeamProfileV1 :=
  mkProfile (bstr "https://cache.example.test") (bstr "tenant-a") (bstr "repo-a") generation_hex
    TrustSample.root 100000.

Definition executable : ExecutableIdentity :=
  mkExecutable ToolKinds.Cat (bstr "/bin/cat") ToolKinds.AppleSystem (bstr "profile").

Definition runtime : TeamRuntimeAttestationV1 :=
  mkRuntime (bstr "cat") executable (TrustSample.digest_of 9) (TrustSample.digest_of 3)
    (TrustSample.digest_of 4).

#[export] Instance toy_runtime : RuntimeHost := {|
  inspect_executable _ _ _ := Ok (executable, TrustSample.digest_of 9);
  live_runtime_digests _ _ := Ok (TrustSample.digest_of 3, TrustSample.digest_of 4);
|}.

Definition pull_input : PullInput :=
  mkPullInput profile request_input request
    (mkAdmission (request_digest request) (sharing_digest policy) publication_classifier_digest_v1)
    runtime policy repository_key.

Example admitted_request : admit_remote_request_v1 policy request = Ok (pull_admission pull_input).
Proof. vm_compute. reflexivity. Qed.

(** The clock reads 120, 121, and so on. *)
#[export] Instance toy_time : SystemTime := λ reading, Some (120 + Z.of_nat reading).

Definition first_tracker : TrustEpochTracker :=
  insert_accepted (bundle_scope first_bundle) (state_after None first_bundle) TrustEpochTracker_new.
Definition second_tracker : TrustEpochTracker :=
  insert_accepted (bundle_scope second_bundle)
    (state_after (accepted first_tracker !! bundle_scope second_bundle) second_bundle) first_tracker.

Definition checkpoint (t : TrustEpochTracker) : option TrustCheckpointV1 :=
  match export_checkpoint t (expected_trust_bundle profile) (profile_pinned_root profile) with
  | Ok checkpoint => checkpoint
  | Err _ => None
  end.

(** The checkpoint file: empty, or the epoch of one of the two checkpoints. *)
Definition store_of (second : TrustEpochTracker) : CheckpointStore (option (list Z)) := {|
  acquire_checkpoint_lock d := (Ok (), d);
  release_checkpoint_lock d := d;
  read_checkpoint_if_present d :=
    (match d with
     | None => Ok None
     | Some [1] => Ok (checkpoint first_tracker)
     | Some [2] => Ok (checkpoint second)
     | Some _ => Err ConfigErrors.InvalidCheckpointJson
     end, d);
  encode_checkpoint c := Some [highest_epoch c];
  atomic_write_checkpoint bytes _ := (Ok (), Some bytes);
|}.

#[export] Instance toy_store : CheckpointStore (option (list Z)) := store_of second_tracker.

(** The service hands out the first bundle, then the second, the manifest of the
    publication for its request and the two objects by their digests. *)
#[export] Instance toy_transport : TeamPullTransport nat := {|
  transport_endpoint_origin _ := bstr "https://cache.example.test";
  transport_repository_id _ := bstr "repo-a";
  transport_generation_id _ := generation_hex;
  fetch_latest_trust_bundle n := (Ok match n with O => first_bundle | _ => second_bundle end, S n);
  fetch_manifest_v2 key n :=
    (if bytes_eqb key (request_digest request) then Ok (publication_manifest publication)
     else Err RemoteErrors.ManifestNotFound, n);
  fetch_ciphertext blob n :=
    (if bytes_eqb (ciphertext_digest blob) (blake3_hash (publication_stdout_ciphertext publication))
     then Ok (publication_stdout_ciphertext publication)
     else if bytes_eqb (ciphertext_digest blob) (blake3_hash (publication_stderr_ciphertext publication))
     then Ok (publication_stderr_ciphertext publication)
     else Err RemoteErrors.NotFound, n);
  after_decrypt n := n;
|}.

Definition start : PullState () nat SystemTeamClock (option (list Z)) :=
  mkPull 0 () 0%nat SystemTeamClock_new TrustEpochTracker_new None [].

Definition pulled : outcome (PullState () nat SystemTeamClock (option (list Z))) PullErrors.TeamPullError
    VerifiedRemoteResultV2 := finish_pull_v2 pull_input start.

Example pulled_stdout :
  match pulled with
  | Returned r s => (remote_result_stdout r, verified_at r, release_expires_at r, pull_store s)
  | _ => ([], 0, 0, None)
  end = (bstr "hello" ++ [10], 122, 180, Some [2]).
Proof. vm_compute. reflexivity. Qed.

(** The other protocol: one response that frames the same bundle, manifest and
    objects; the two JSON texts are stand-ins for what serde decodes. *)
#[export] Instance toy_responses : TeamResponses := {|
  trust_of_json bytes := if bytes_eqb bytes (bstr "{trust}") then Some first_bundle else None;
  manifest_of_json bytes :=
    if bytes_eqb bytes (bstr "{manifest}") then Some (publication_manifest publication) else None;
|}.

Definition body : list Z :=
  lookup_frame (mkLookup (bstr "{trust}") (bstr "{manifest}") (publication_stdout_ciphertext publication)
                  (publication_stderr_ciphertext publication)).

#[export] Instance toy_bundle_transport : TeamBundlePullTransport nat := {|
  fetch_lookup_bundle_v1_body key n :=
    (if bytes_eqb key (request_digest request) then Ok body else Err RemoteErrors.ManifestNotFound, n);
  bundle_fetch_latest_trust_bundle n := (Ok second_bundle, S n);
  bundle_after_decrypt n := n;
|}.

Definition pulled_bundle : outcome (PullState () nat SystemTeamClock (option (list Z)))
    PullErrors.TeamPullError VerifiedRemoteResultV2 := finish_bundle_pull_v1 pull_input start.

Example pulled_bundle_stdout :
  match pulled_bundle with
  | Returned r s => (remote_result_stdout r, verified_at r, release_expires_at r, pull_store s)
  | _ => ([], 0, 0, None)
  end = (bstr "hello" ++ [10], 122, 180, Some [2]).
Proof. vm_compute. reflexivity. Qed.

(** A revocation published while the bytes were in flight stops the release. *)
Definition revoking_bundle : TrustBundleV1 :=
  let unsigned signature := mkBundle 1 (bstr "root-key-1") (bstr "tenant-a") (bstr "repo-a")
    generation_hex (bstr "https://cache.example.test") 2 100 180
    (active_producer_keys first_bundle) [bstr "revoked-key-1"]
    [bstr "record-1"; bstr "revoked-record-1"] [sharing_digest policy]
    [TrustSample.digest_of 2] [TrustSample.digest_of 3] [TrustSample.digest_of 4] signature in
  unsigned (TrustSample.toy_sign TrustSample.root_secret (bundle_signing_bytes (unsigned []))).

Definition revoking_store : CheckpointStore (option (list Z)) :=
  store_of (insert_accepted (bundle_scope revoking_bundle)
    (state_after (accepted first_tracker !! bundle_scope revoking_bundle) revoking_bundle) first_tracker).

Definition revoking_transport : TeamPullTransport nat := {|
  transport_endpoint_origin := transport_endpoint_origin;
  transport_repository_id := transport_repository_id;
  transport_generation_id := transport_generation_id;
  fetch_latest_trust_bundle n := (Ok match n with O => first_bundle | _ => revoking_bundle end, S n);
  fetch_manifest_v2 := fetch_manifest_v2;
  fetch_ciphertext := fetch_ciphertext;
  after_decrypt n := n;
|}.

Example revoked_in_flight :
  match finish_pull_v2 (CheckpointStore0 := revoking_store) (TeamPullTransport0 := revoking_transport)
          pull_input start with
  | Threw e s => Some (e, pull_store s)
  | _ => None
  end = Some (PullErrors.Manifest ManifestV2Errors.RevokedRecord, Some [2]).
Proof. vm_compute. reflexivity. Qed.

(** ** Facts about the bundles *)

Definition sample_bundle (b : TrustBundleV1) : Prop := b = first_bundle ∨ b = second_bundle.

Lemma sample_bundle_wf b : sample_bundle b → TrustBundleV1_wf b.
Proof.
  assert (∀ n, is_u8 n → is_digest (TrustSample.digest_of n)) as Hd.
  { intros n Hn. split; [by apply list.Forall_replicate|apply length_replicate]. }
  assert (∀ d, is_digest d → wf_list is_digest [d]) as Hds.
  { intros d Hn. split; [by apply list.Forall_singleton|done]. }
  assert (∀ e x, is_u64 e → is_u64 x → TrustBundleV1_wf (bundle e x)) as Hall.
  { intros e x He Hx. unfold TrustBundleV1_wf. cbn [bundle bundle_schema_version].
    split_and!; try done; try (by apply TrustSample.text_check); try (by apply Hds, Hd).
    - split; [|done]. apply list.Forall_singleton. split_and!; [by apply TrustSample.text_check..|by apply (Hd 7)].
    - split; [by apply list.Forall_singleton, TrustSample.text_check|done].
    - split; [by apply list.Forall_singleton, TrustSample.text_check|done].
    - apply Hds, TrustSample.toy_blake3_ok. }
  intros [-> | ->]; by apply Hall.
Qed.

Lemma sample_bundle_valid b : sample_bundle b → valid_bundle b.
Proof. intros [-> | ->]; apply validate_wire_shape_iff; vm_compute; reflexivity. Qed.

Lemma sample_fresh b now : sample_bundle b → 100 <= now < 180 → fresh_at b now.
Proof. intros [-> | ->] Hn; split; cbn [bundle_issued_at bundle_expires_at first_bundle second_bundle bundle]; lia. Qed.
End PullSample.
