(* ===== verification/EncryptedTheorems.v ===== *)
(** * Properties of encrypted results

    What the validation, the verification and the builder of
    [EncryptedManifest] accept, and that a published result decrypts at the
    consumer to the producer's output. *)

From Stdlib Require Import String.
From stdpp Require Import gmap.
From S2P Require Import Prelude Monad Bytes ContractTypes Canonical CanonicalSpec CanonicalParse.
From S2P Require Import CanonicalCodec RecordTypes Paths RecordValidation Digest.
From S2P Require Import IdentityRoundTrip TreeSpec Text Team TeamCrypto TrustBundle TeamLaws.
From S2P Require Import TeamRequestKey Privacy PrivacyTheorems EncryptedManifest PullSample.
Import Captures ManifestV2Errors.

(** ** Checks *)

Lemma v2_identifier_Ok s field : v2_identifier s field = Ok () ↔ identifier s.
Proof.
  unfold v2_identifier. rewrite <- (named_identifier_Ok s field). unfold named_identifier.
  destruct (team_validate_identifier s) as [[]|]; split; done.
Qed.

Lemma v2_generation_Ok s : v2_validate_generation_id s = Ok () ↔ generation s.
Proof.
  rewrite <- validate_generation_id_Ok. unfold v2_validate_generation_id, TrustBundle.validate_generation_id.
  by destruct (_ || _).
Qed.

Lemma map_err_Ok {E F A} (f : E → F) (r : result E A) a : map_err f r = Ok a ↔ r = Ok a.
Proof. destruct r; simpl; naive_solver. Qed.

Lemma bytes_eqb_neq a b : bytes_eqb a b = false ↔ a ≠ b.
Proof. by rewrite <- not_true_iff_false, bytes_eqb_eq. Qed.

(** A stream reference: from one tag to 16 MiB of ciphertext. *)
Definition valid_stream (s : EncryptedStreamRefV2) : Prop := 16 <= ciphertext_size_bytes s <= 16 * 2 ^ 20.

Lemma validate_stream_Ok s label : validate_stream_ref s label = Ok () ↔ valid_stream s.
Proof.
  unfold validate_stream_ref, valid_stream, POLY1305_TAG_BYTES, MAX_V2_CIPHERTEXT_STREAM_BYTES, MAX_BLOB_SIZE.
  autorewrite with checks. lia.
Qed.

Definition sharable_privacy (p : PrivacyMetadata) : Prop :=
  shareability p ≠ LocalOnly ∧ secret_tainted p = false ∧ classification p ≠ Secret.

Lemma v2_privacy_Ok p : v2_validate_privacy p = Ok () ↔ sharable_privacy p.
Proof. unfold v2_validate_privacy, sharable_privacy. autorewrite with checks. tauto. Qed.

(** A manifest of the wire format. *)
Record valid_manifest (m : EncryptedRemoteCacheManifestV2) : Prop := {
  vm_schema : v2_schema_version m = 2;
  vm_record : identifier (v2_record_id m);
  vm_tenant : identifier (v2_tenant_id m);
  vm_repository : identifier (v2_repository_id m);
  vm_producer_version : identifier (v2_producer_version m);
  vm_key : identifier (v2_repository_encryption_key_id m);
  vm_producer : identifier (v2_producer_id m);
  vm_signer : identifier (v2_signature_key_id (v2_signature m));
  vm_generation : generation (v2_generation_id m);
  vm_proof : v2_proof_schema_version m = 1;
  vm_envelope : v2_signature_schema_version (v2_signature m) = 1;
  vm_signature : len (v2_signature_bytes (v2_signature m)) = 64;
  vm_duration : v2_duration_micros m <= 2 ^ 53 - 1;
  vm_interval : v2_created_at m < v2_expires_at m <= 2 ^ 53 - 1;
  vm_lifetime : v2_expires_at m - v2_created_at m <= 30 * 86400;
  vm_privacy : sharable_privacy (v2_privacy m);
  vm_stdout : valid_stream (v2_stdout m);
  vm_stderr : ciphertext_size_bytes (v2_stderr m) = 16;
  vm_nonces : nonce (v2_stdout m) ≠ nonce (v2_stderr m);
}.

Lemma v2_validate_wire_iff m : v2_validate_wire m = Ok () ↔ valid_manifest m.
Proof.
  unfold v2_validate_wire, ENCRYPTED_MANIFEST_SCHEMA_VERSION, LOCAL_RESULT_PROOF_SCHEMA_VERSION,
    SIGNATURE_ENVELOPE_SCHEMA_VERSION, ED25519_SIGNATURE_SIZE, MAX_JSON_SAFE_INTEGER,
    MAX_MANIFEST_LIFETIME_SECONDS, POLY1305_TAG_BYTES. cbv zeta. autorewrite with checks.
  rewrite !v2_identifier_Ok, v2_generation_Ok, v2_privacy_Ok, !validate_stream_Ok, bytes_eqb_neq.
  unfold valid_stream.
  change (Z.shiftl 1 53) with (2 ^ 53). split.
  - intros (? & ? & ? & ? & ? & ? & ? & ? & ? & ? & ? & ? & ? & ? & ? & ? & ? & ? & ? & ? & _).
    constructor; try done; unfold valid_stream; lia.
  - intros [? ? ? ? ? ? ? ? ? ? ? ? ? ? ? ? Hs ? ?]. unfold valid_stream in Hs.
    by destruct (v2_signature_algorithm (v2_signature m)); split_and!; try done; lia.
Qed.

(** ** Verification *)

Section verification.
Context `{Ed25519Dalek, UrlParser, Blake3Hash}.

(** The bundle lets this producer sign: its key is active, bound to the producer,
    and [signature] is its signature of [message]. *)
Definition producer_signed (b : TrustBundleV1) (kid producer message signature : list Z) : Prop :=
  ∃ pk, mkBinding kid producer pk ∈ active_producer_keys b ∧ len signature = 64 ∧
    verify_strict pk message signature = true.

(** What the consumer requires of a manifest under a bundle, at a moment. *)
Record pull_authorized (b : TrustBundleV1) (m : EncryptedRemoteCacheManifestV2)
    (request : TeamRequestKeyV1) (policy : RepositorySharingPolicy) (kid : list Z) (now : Z) : Prop := {
  pa_valid : valid_manifest m;
  pa_fresh : fresh_at b now;
  pa_allows : allows b (trust_request request);
  pa_scope : bundle_tenant_id b = tenant_id (descriptor request) ∧
    bundle_repository_id b = repository_id (descriptor request) ∧
    bundle_generation_id b = generation_id (descriptor request);
  pa_namespace : v2_tenant_id m = tenant_id (descriptor request) ∧
    v2_repository_id m = repository_id (descriptor request) ∧
    v2_generation_id m = generation_id (descriptor request);
  pa_request : v2_request_key m = request_digest request;
  pa_policy : v2_policy_digest m = policy_digest (descriptor request) ∧
    v2_policy_digest m = sharing_digest policy;
  pa_runtime : v2_execution_profile_digest m = execution_profile_digest (descriptor request) ∧
    v2_platform_digest m = platform_digest (descriptor request) ∧
    v2_image_digest m = image_digest (descriptor request);
  pa_interval : v2_created_at m <= now < v2_expires_at m;
  pa_key : v2_repository_encryption_key_id m = kid;
  pa_record_alive : v2_record_id m ∉ bundle_revoked_record_ids b;
  pa_key_alive : v2_signature_key_id (v2_signature m) ∉ bundle_revoked_key_ids b;
  pa_signed : producer_signed b (v2_signature_key_id (v2_signature m)) (v2_producer_id m)
    (canonical_signing_bytes m) (v2_signature_bytes (v2_signature m));
}.

Lemma trust_bound_eqb_eq r r' : trust_bound_eqb r r' = true ↔ r = r'.
Proof.
  unfold trust_bound_eqb. rewrite !andb_true_iff, !bytes_eqb_eq. destruct r, r'; simpl. naive_solver.
Qed.

Lemma active_binding b kid producer pk : valid_bundle b →
  collect_bindings (active_producer_keys b) !! kid = Some (producer, pk) ↔
  mkBinding kid producer pk ∈ active_producer_keys b.
Proof.
  intros Hv. split.
  - intros ([k p v] & Hin & -> & [= -> ->])%collect_bindings_elem. exact Hin.
  - intros Hin. destruct (vb_active _ Hv) as [Ha _].
    exact (collect_bindings_lookup _ _ (ascending_distinct _ Ha) Hin).
Qed.

(** The verifier of a bundle accepts exactly the signatures of its producers. *)
Lemma verify_capability b algorithm kid producer message signature : valid_bundle b →
  verify (producer_verifier (capability b)) algorithm kid producer message signature = true ↔
  producer_signed b kid producer message signature.
Proof.
  intros Hv. unfold verify, Ed25519Verifier_SignatureVerifier, Ed25519Verifier_verify, producer_signed.
  cbn [capability producer_verifier verifier_keys]. destruct algorithm. rewrite bool_decide_eq_true_2 by done.
  setoid_rewrite <- active_binding; [|done]. cbn [negb orb].
  destruct (Z.eqb_spec (len signature) ED25519_SIGNATURE_SIZE) as [Hl|Hl]; cbn [negb].
  - destruct (collect_bindings _ !! kid) as [[owner key]|]; [|naive_solver].
    destruct (bytes_eqb owner producer) eqn:Ho; cbn [negb].
    + apply bytes_eqb_eq in Ho as ->. naive_solver.
    + apply bytes_eqb_neq in Ho. split; [done|]. by intros (pk & [= -> ->] & _).
  - split; [done|]. by intros (pk & _ & ? & _).
Qed.

Lemma producer_trusted b kid producer message signature : valid_bundle b →
  producer_signed b kid producer message signature →
  (fst <$> collect_bindings (active_producer_keys b)) !! kid = Some producer.
Proof. intros Hv (pk & Hin & _). rewrite lookup_fmap. apply active_binding in Hin as ->; done. Qed.

Lemma verify_manifest_iff b m request policy bound key now :
  TrustBundleV1_wf b → valid_bundle b →
  verify_manifest_for_pull_v2 m request policy (capability b) bound key now = Ok () ↔
  bound = trust_request request ∧ pull_authorized b m request policy (key_id key) now.
Proof.
  intros Hw Hv. unfold verify_manifest_for_pull_v2. cbv zeta. rewrite unit_bind_Ok, v2_validate_wire_iff.
  rewrite guard_Ok, negb_false_iff, trust_bound_eqb_eq, result_bind_Ok_iff.
  setoid_rewrite map_err_Ok. setoid_rewrite verification_context_iff; [|done..].
  autorewrite with checks. split.
  - intros (Hm & -> & c & (Hf & Ha & ->) & Hc). split; [done|].
    cbn [context_of context_tenant_id context_repository_id trusted_producer_keys context_revoked_key_ids
      context_revoked_record_ids capability verified_bundle] in Hc. autorewrite with checks in Hc.
    rewrite verify_capability, !not_elem_of_list_to_set in Hc by done.
    destruct Hc as (? & ? & ? & ? & ? & ? & ? & [? ?] & ? & ? & ? & ? & ? & ? & ? & ? & ? & ? & _).
    by constructor.
  - intros [-> [? ? ? [? [? ?]] [? [? ?]] ? [? ?] [? [? ?]] [? ?] ? ? ? Hs]].
    split; [done|]. split; [done|]. eexists. split; [split; [done|split; [done|reflexivity]]|].
    cbn [context_of context_tenant_id context_repository_id trusted_producer_keys context_revoked_key_ids
      context_revoked_record_ids capability verified_bundle]. autorewrite with checks.
    rewrite verify_capability, !not_elem_of_list_to_set by done.
    split_and!; try done. by eapply producer_trusted.
Qed.
End verification.

(** ** Decryption *)

Section decryption.
Context `{Ed25519Dalek, UrlParser, Blake3Hash, XChaCha20Poly1305, Float64}.

(** The two ciphertexts are the objects the manifest names. *)
Definition names_ciphertexts (m : EncryptedRemoteCacheManifestV2) (stdout stderr : list Z) : Prop :=
  len stdout = ciphertext_size_bytes (v2_stdout m) ∧ blake3_hash stdout = ciphertext_digest (v2_stdout m) ∧
  len stderr = ciphertext_size_bytes (v2_stderr m) ∧ blake3_hash stderr = ciphertext_digest (v2_stderr m).

(** The ciphertexts authenticate and decrypt to [plain] and to nothing. *)
Definition decrypts_to (m : EncryptedRemoteCacheManifestV2) (key stdout stderr plain : list Z) : Prop :=
  aead_decrypt key (nonce (v2_stdout m)) stdout (stream_aad m StreamLabels.Stdout) = Some plain ∧
  aead_decrypt key (nonce (v2_stderr m)) stderr (stream_aad m StreamLabels.Stderr) = Some [] ∧
  len plain + 16 = ciphertext_size_bytes (v2_stdout m).

(** The consumer's own policy lets the plaintext out, and the manifest says so. *)
Definition locally_publishable (m : EncryptedRemoteCacheManifestV2) (policy : RepositorySharingPolicy)
    (request : TeamRequestKeyV1) (plain : list Z) : Prop :=
  shareable_request policy request ∧ len plain <= max_output_bytes policy ∧ clean_text plain ∧
  v2_classifier_digest m = classifier_digest ∧ v2_privacy m = mkPrivacy Internal Repository false.

(** The capability of an accepted result. *)
Definition result_of (b : TrustBundleV1) (m : EncryptedRemoteCacheManifestV2) (plain : list Z) (now : Z) :
    VerifiedRemoteResultV2 :=
  mkVerifiedResult plain [] (v2_duration_micros m) (v2_local_proof_digest m) (v2_producer_id m) now
    (Z.min (v2_expires_at m) (bundle_expires_at b)).

Lemma validate_ciphertext_Ok s c label : validate_ciphertext s c label = Ok () ↔
  len c = ciphertext_size_bytes s ∧ blake3_hash c = ciphertext_digest s.
Proof. unfold validate_ciphertext. autorewrite with checks. tauto. Qed.

Lemma captured_publishable plain stdout policy : publishable_capture policy (captured plain []) stdout ↔
  stdout = plain ∧ len plain <= max_output_bytes policy ∧ clean_text plain.
Proof.
  unfold publishable_capture, captured. split; [by intros ([= ->] & ? & ?)|].
  by intros (-> & ? & ?).
Qed.

Lemma evaluate_captured policy request plain publishable :
  PublishableResult_evaluate policy request (captured plain []) = Ok publishable ↔
  shareable_request policy request ∧ len plain <= max_output_bytes policy ∧ clean_text plain ∧
  publishable = mkPublishable (mkPrivacy Internal Repository false) classifier_digest (sharing_digest policy).
Proof.
  rewrite publishable_iff. setoid_rewrite captured_publishable. split.
  - intros (? & (? & -> & ? & ?) & ->). done.
  - intros (? & ? & ? & ->). eauto 10.
Qed.

Lemma verify_and_decrypt_iff b m stdout stderr request policy bound key now r :
  TrustBundleV1_wf b → valid_bundle b →
  verify_and_decrypt_v2 m stdout stderr request policy (capability b) bound key now = Ok r ↔
  bound = trust_request request ∧ pull_authorized b m request policy (key_id key) now ∧
  names_ciphertexts m stdout stderr ∧
  ∃ plain, decrypts_to m (key_bytes key) stdout stderr plain ∧
    locally_publishable m policy request plain ∧ r = result_of b m plain now.
Proof.
  intros Hw Hv. unfold verify_and_decrypt_v2, names_ciphertexts, decrypts_to, locally_publishable, POLY1305_TAG_BYTES.
  rewrite unit_bind_Ok, verify_manifest_iff by done. rewrite !unit_bind_Ok, !validate_ciphertext_Ok, result_bind_Ok_iff.
  setoid_rewrite result_bind_Ok_iff. setoid_rewrite ok_or_Ok_iff. split.
  - intros ([? ?] & [? ?] & [? ?] & plain & Hp & err & He & Hr).
    autorewrite with checks in Hr. destruct Hr as (-> & Hl & (pub & Hpub & Hr)%result_bind_Ok).
    apply map_err_Ok, evaluate_captured in Hpub as (? & ? & ? & ->).
    cbn [publishable_classifier_digest publishable_privacy] in Hr. autorewrite with checks in Hr.
    destruct Hr as (? & ? & [= <-]). split_and!; try done. exists plain. done.
  - intros (-> & ? & (? & ? & ? & ?) & plain & (? & ? & Hl) & (? & ? & ? & Hc & Hx) & ->).
    split_and!; try done. exists plain. split; [done|]. exists []. split; [done|].
    rewrite (bool_decide_eq_true_2 (([] : list Z) = [])) by done. cbn [negb].
    rewrite Hl, Z.eqb_refl. cbn [negb].
    rewrite (proj2 (evaluate_captured policy request plain
      (mkPublishable (mkPrivacy Internal Repository false) classifier_digest (sharing_digest policy)))) by done.
    cbn [map_err]. unfold mbind, result_bind. cbn [publishable_classifier_digest publishable_privacy].
    rewrite Hc, Hx, bytes_eqb_refl, bool_decide_eq_true_2 by done. done.
Qed.
End decryption.

(** ** Publication *)

Section publication.
Context `{Ed25519Dalek, UrlParser, Blake3Hash, XChaCha20Poly1305, Float64}.

(** A local result that two identical, complete and successful runs support. *)
Lemma validate_complete_Ok e run : validate_complete e run = Ok () ↔
  complete_exit_code e = Some 0 ∧ complete_stderr e = [] ∧
  len (complete_stdout e) <= 16 * 2 ^ 20 - 16 ∧ complete_duration_micros e <= 2 ^ 53 - 1.
Proof.
  unfold validate_complete, MAX_V2_PLAINTEXT_STREAM_BYTES, MAX_V2_CIPHERTEXT_STREAM_BYTES, MAX_BLOB_SIZE,
    POLY1305_TAG_BYTES, MAX_JSON_SAFE_INTEGER. change (Z.shiftl 1 53) with (2 ^ 53).
  destruct (complete_exit_code e) as [[]|]; [|split; [done|by intros ([=] & _)]..].
  autorewrite with checks. split; [intros (? & ? & ? & _)|intros (_ & ? & ? & ?)]; split_and!; try done; lia.
Qed.

Definition local_result (request : TeamRequestKeyV1) (first second : CompleteLocalExecutionV1)
    (version : list Z) : ValidatedLocalResultV1 :=
  mkValidated (request_digest request) (complete_stdout first) (complete_duration_micros first) 1 version
    (local_proof_digest (request_digest request) (complete_stdout first) []
       (complete_duration_micros first) (complete_duration_micros second) version).

Lemma two_executions_iff request first second version local :
  validate_two_complete_executions_v1 request first second version = Ok local ↔
  identifier version ∧ complete_exit_code first = Some 0 ∧ complete_exit_code second = Some 0 ∧
  complete_stderr first = [] ∧ complete_stderr second = [] ∧
  complete_stdout second = complete_stdout first ∧ len (complete_stdout first) <= 16 * 2 ^ 20 - 16 ∧
  complete_duration_micros first <= 2 ^ 53 - 1 ∧ complete_duration_micros second <= 2 ^ 53 - 1 ∧
  local = local_result request first second version.
Proof.
  unfold validate_two_complete_executions_v1, local_result. rewrite unit_bind_Ok, map_err_Ok, <- (map_err_Ok (λ _, InvalidIdentifier "")).
  change (map_err (λ _ : (), InvalidIdentifier "") (team_validate_identifier version)) with (v2_identifier version "").
  rewrite v2_identifier_Ok, !unit_bind_Ok, !validate_complete_Ok, guard_Ok. autorewrite with checks.
  split.
  - intros (? & (-> & He & ? & ?) & (Hx & Hs & ? & ?) & ((Ho & _) & _) & [= <-]). rewrite He. by split_and!.
  - intros (? & -> & -> & -> & -> & -> & ? & ? & ? & ->). by split_and!.
Qed.

Lemma admit_iff policy request local admitted :
  admit_validated_local_publication_v2 policy request local = Ok admitted ↔
  result_request_key local = request_digest request ∧
  shareable_request policy request ∧ len (result_stdout local) <= max_output_bytes policy ∧
  clean_text (result_stdout local) ∧
  admitted = mkAdmitted local (mkPrivacy Internal Repository false) classifier_digest (sharing_digest policy).
Proof.
  unfold admit_validated_local_publication_v2. rewrite guard_Ok, negb_bytes_eqb.
  pose proof (evaluate_captured policy request (result_stdout local)) as Hp.
  destruct (PublishableResult_evaluate _ _ _) as [p|] eqn:He.
  - specialize (proj1 (Hp p) eq_refl) as (? & ? & ? & ->). naive_solver.
  - split; [by intros [_ ?]|]. intros (_ & Hs & Hl & Hc & _).
    specialize (Hp (mkPublishable (mkPrivacy Internal Repository false) classifier_digest (sharing_digest policy))).
    destruct Hp as [_ Hp]. by discriminate Hp.
Qed.

(** The manifest of a publication, once sealed and signed. *)
Definition sealed_manifest (input : ManifestV2BuildInput) (stdout_nonce stderr_nonce stdout stderr : list Z) :
    EncryptedRemoteCacheManifestV2 :=
  let size := len (result_stdout (admitted_result (build_admitted input))) + 16 in
  let manifest := with_streams (unsealed_manifest input size stdout_nonce stderr_nonce)
    (mkStreamRef (blake3_hash stdout) size stdout_nonce) (mkStreamRef (blake3_hash stderr) 16 stderr_nonce) in
  with_signature_bytes manifest
    (sign_protocol_message (build_signer input) (canonical_signing_bytes manifest)).

(** What the builder has checked and made when it returns a publication. *)
Lemma build_Ok input stdout_nonce stderr_nonce b publication :
  build_verified_trust input = capability b → valid_bundle b →
  build_encrypted_publication_with_nonces_v2 input stdout_nonce stderr_nonce = Ok publication →
  ∃ stdout stderr,
    let m := sealed_manifest input stdout_nonce stderr_nonce stdout stderr in
    publication = mkPublication m stdout stderr ∧
    result_request_key (admitted_result (build_admitted input)) = request_digest (build_request input) ∧
    admitted_policy (build_admitted input) = policy_digest (descriptor (build_request input)) ∧
    valid_manifest m ∧ build_created_at input <= build_now input ∧
    names_ciphertexts m stdout stderr ∧
    aead_encrypt (key_bytes (build_repository_key input)) stdout_nonce
      (result_stdout (admitted_result (build_admitted input))) (stream_aad m StreamLabels.Stdout) = Some stdout ∧
    aead_encrypt (key_bytes (build_repository_key input)) stderr_nonce [] (stream_aad m StreamLabels.Stderr)
      = Some stderr ∧
    producer_signed b (signer_key_id (build_signer input)) (signer_producer_id (build_signer input))
      (canonical_signing_bytes m) (v2_signature_bytes (v2_signature m)).
Proof.
  intros Hb Hv. unfold build_encrypted_publication_with_nonces_v2. cbv zeta.
  rewrite !guard_Ok, !negb_bytes_eqb, !unit_bind_Ok, !guard_Ok. rewrite result_bind_Ok_iff.
  intros (Hk & Hpol & _ & _ & _ & Hc%Z.ltb_ge & size & Hsize & Hrest).
  apply ok_or_Ok in Hsize. unfold u64_checked_add in Hsize. destruct (_ <=? U64_MAX); [|done].
  injection Hsize as <-. apply unit_bind_Ok in Hrest as [_ Hrest].
  apply result_bind_Ok in Hrest as (stdout & Ho%ok_or_Ok & Hrest). apply result_bind_Ok in Hrest as (stderr & He%ok_or_Ok & Hrest).
  apply guard_Ok in Hrest as [Hlen Hrest]. apply unit_bind_Ok in Hrest as [Hm%v2_validate_wire_iff Hrest].
  apply guard_Ok in Hrest as [Hs%negb_false_iff [= <-]]. rewrite Hb in Hs. apply verify_capability in Hs; [|done].
  autorewrite with checks in Hlen. destruct Hlen as [Hlo Hle]. exists stdout, stderr. cbv zeta.
  split; [done|]. split; [done|]. split; [done|]. split; [exact Hm|]. split; [done|].
  split; [by split_and!|]. split; [exact Ho|]. split; [exact He|]. exact Hs.
Qed.
End publication.

(** The consumer still trusts what was published: its bundle is valid and fresh,
    allows the request's digests in the request's namespace, revokes neither the
    record nor the key, and keeps the producer's active bindings of [b]. *)
Record still_trusted `{Ed25519Dalek, UrlParser} (b b' : TrustBundleV1) (input : ManifestV2BuildInput) (now : Z) :
    Prop := {
  st_wf : TrustBundleV1_wf b';
  st_valid : valid_bundle b';
  st_fresh : fresh_at b' now;
  st_allows : allows b' (trust_request (build_request input));
  st_scope : bundle_tenant_id b' = tenant_id (descriptor (build_request input)) ∧
    bundle_repository_id b' = repository_id (descriptor (build_request input)) ∧
    bundle_generation_id b' = generation_id (descriptor (build_request input));
  st_record : build_record_id input ∉ bundle_revoked_record_ids b';
  st_key : signer_key_id (build_signer input) ∉ bundle_revoked_key_ids b';
  st_binding pk :
    mkBinding (signer_key_id (build_signer input)) (signer_producer_id (build_signer input)) pk
      ∈ active_producer_keys b →
    mkBinding (signer_key_id (build_signer input)) (signer_producer_id (build_signer input)) pk
      ∈ active_producer_keys b';
}.

Section exchange.
Context `{Ed25519Dalek, UrlParser, Blake3Hash, XChaCha20Poly1305Ok, Float64}.

(** The manifest of a published result is authorized at a consumer that trusts it. *)
Lemma published_authorized policy request first second version local admitted input n1 n2 b b' now stdout stderr :
  validate_two_complete_executions_v1 request first second version = Ok local →
  admit_validated_local_publication_v2 policy request local = Ok admitted →
  build_request input = request → build_admitted input = admitted →
  valid_manifest (sealed_manifest input n1 n2 stdout stderr) →
  policy_digest (descriptor request) = sharing_digest policy →
  producer_signed b (signer_key_id (build_signer input)) (signer_producer_id (build_signer input))
    (canonical_signing_bytes (sealed_manifest input n1 n2 stdout stderr))
    (v2_signature_bytes (v2_signature (sealed_manifest input n1 n2 stdout stderr))) →
  still_trusted b b' input now →
  build_created_at input <= now < build_expires_at input →
  pull_authorized b' (sealed_manifest input n1 n2 stdout stderr) request policy
    (key_id (build_repository_key input)) now.
Proof.
  intros Hl Ha <- <- Hm Hpol (pk & Hin & Hlen & Hsig) [? ? ? ? ? ? ? Hb] Hnow.
  constructor; try done. exists pk. split; [by apply Hb|done].
Qed.

Lemma published_decrypts policy request first second version local admitted input n1 n2 publication b b' now :
  validate_two_complete_executions_v1 request first second version = Ok local →
  admit_validated_local_publication_v2 policy request local = Ok admitted →
  build_request input = request → build_admitted input = admitted →
  build_verified_trust input = capability b → valid_bundle b →
  build_encrypted_publication_with_nonces_v2 input n1 n2 = Ok publication →
  still_trusted b b' input now →
  build_created_at input <= now < build_expires_at input →
  let m := publication_manifest publication in
  pull_authorized b' m request policy (key_id (build_repository_key input)) now ∧
  names_ciphertexts m (publication_stdout_ciphertext publication) (publication_stderr_ciphertext publication) ∧
  decrypts_to m (key_bytes (build_repository_key input)) (publication_stdout_ciphertext publication)
    (publication_stderr_ciphertext publication) (complete_stdout first) ∧
  locally_publishable m policy request (complete_stdout first) ∧
  v2_expires_at m = build_expires_at input ∧ v2_duration_micros m = complete_duration_micros first ∧
  v2_local_proof_digest m = local_proof_digest (request_digest request) (complete_stdout first) []
    (complete_duration_micros first) (complete_duration_micros second) version ∧
  v2_producer_id m = signer_producer_id (build_signer input).
Proof.
  intros Hl Ha Hr Hd Hv Hb Hbuild Ht Hnow. pose proof (build_Ok _ _ _ b _ Hv Hb Hbuild) as Hx. cbv zeta in Hx.
  destruct Hx as (stdout & stderr & -> & _ & Hpol & Hm & _ & Hn & Ho & He & Hs).
  pose proof Ha as (_ & Hshare & Hmax & Hclean & Hadm)%admit_iff.
  pose proof Hl as (_ & _ & _ & _ & _ & _ & _ & _ & _ & Hlocal)%two_executions_iff.
  assert (policy_digest (descriptor request) = sharing_digest policy) as Hpd by (by destruct Hshare as [[_ ?] _]).
  cbn [publication_manifest publication_stdout_ciphertext publication_stderr_ciphertext]. cbv zeta.
  split; [by eapply published_authorized|]. split; [done|].
  rewrite Hlocal in Hadm, Hmax, Hclean. rewrite Hd, Hadm in Ho.
  cbn [admitted_result result_stdout local_result] in Ho, Hmax, Hclean.
  split.
  { split; [exact (aead_round_trip _ _ _ _ _ Ho)|]. split; [exact (aead_round_trip _ _ _ _ _ He)|].
    change (len (complete_stdout first) + 16
      = len (result_stdout (admitted_result (build_admitted input))) + 16). by rewrite Hd, Hadm. }
  unfold locally_publishable, sealed_manifest.
  cbn [unsealed_manifest with_streams with_signature_bytes v2_classifier_digest v2_privacy v2_expires_at
    v2_duration_micros v2_local_proof_digest v2_producer_id].
  rewrite Hd, Hadm. cbn [admitted_result admitted_privacy admitted_classifier result_duration_micros
    result_local_proof_digest local_result]. by split_and!.
Qed.

(** C30. Round trip of an encrypted result: what a producer publishes from two complete
    runs, admitted by the sharing policy, is accepted by every consumer that
    holds the repository's key, has the same request and policy and still trusts
    the producer within the record's lifetime, and decrypts there to exactly the
    bytes both runs wrote; the capability carries the run's duration, the digest
    of the two-execution proof and the producer, and expires with the record or
    the consumer's bundle, whichever is first. *)
Theorem published_result_round_trip policy request first second version local admitted input n1 n2
    publication b b' now :
  validate_two_complete_executions_v1 request first second version = Ok local →
  admit_validated_local_publication_v2 policy request local = Ok admitted →
  build_request input = request → build_admitted input = admitted →
  build_verified_trust input = capability b → valid_bundle b →
  build_encrypted_publication_with_nonces_v2 input n1 n2 = Ok publication →
  still_trusted b b' input now →
  build_created_at input <= now < build_expires_at input →
  verify_and_decrypt_v2 (publication_manifest publication) (publication_stdout_ciphertext publication)
    (publication_stderr_ciphertext publication) request policy (capability b') (trust_request request)
    (build_repository_key input) now =
  Ok (mkVerifiedResult (complete_stdout first) [] (complete_duration_micros first)
        (local_proof_digest (request_digest request) (complete_stdout first) []
           (complete_duration_micros first) (complete_duration_micros second) version)
        (signer_producer_id (build_signer input)) now
        (Z.min (build_expires_at input) (bundle_expires_at b'))) ∧
  complete_stdout second = complete_stdout first.
Proof.
  intros Hl Ha Hr Hd Hv Hb Hbuild Ht Hnow. split; [|by apply two_executions_iff in Hl as (_ & _ & _ & _ & _ & ? & _)].
  destruct (published_decrypts policy request first second version local admitted input n1 n2 publication b b' now
    Hl Ha Hr Hd Hv Hb Hbuild Ht Hnow) as (Hp & Hn & Hdec & Hloc & Hex & Hdu & Hpr & Hid).
  apply verify_and_decrypt_iff; [apply Ht|apply Ht|]. split; [done|]. split; [done|]. split; [done|].
  exists (complete_stdout first). split; [done|]. split; [done|]. unfold result_of. by rewrite Hex, Hdu, Hpr, Hid.
Qed.
End exchange.

(** The second nonce is the first draw that differs from the first nonce; the loop
    ends as soon as the generator gives one, within as much fuel as the draws
    before it. *)
Lemma fresh_nonce_iff fuel random first second : ∀ n,
  fresh_stderr_nonce fuel n random first = Some second ↔
  ∃ k, (k ≤ fuel)%nat ∧ (∀ j, (j < k)%nat → random (n + j)%nat = first) ∧ random (n + k)%nat ≠ first ∧
    second = random (n + k)%nat.
Proof.
  induction fuel as [|fuel IH]; intros n; cbn [fresh_stderr_nonce]; destruct (bytes_eqb first (random n)) eqn:He.
  - apply bytes_eqb_eq in He. split; [done|]. intros (k & Hk & _ & Hne & _).
    assert (k = 0)%nat as -> by lia. by rewrite Nat.add_0_r in Hne.
  - apply bytes_eqb_neq in He. split; [intros [= <-]|].
    + exists 0%nat. rewrite Nat.add_0_r. split; [lia|]. split; [lia|done].
    + intros (k & Hk & _ & _ & ->). assert (k = 0)%nat as -> by lia. by rewrite Nat.add_0_r.
  - apply bytes_eqb_eq in He. rewrite IH. split; intros (k & Hk & Hb & Hne & Hs).
    + exists (S k). rewrite Nat.add_succ_r. split; [lia|]. split; [|done].
      intros [|j] Hj; [by rewrite Nat.add_0_r|]. rewrite Nat.add_succ_r. apply Hb. lia.
    + destruct k as [|k]; [by rewrite Nat.add_0_r in Hne|]. exists k. rewrite Nat.add_succ_r in Hne, Hs.
      split; [lia|]. split; [|done]. intros j Hj. specialize (Hb (S j)). rewrite Nat.add_succ_r in Hb. apply Hb. lia.
  - apply bytes_eqb_neq in He. split; [intros [= <-]|].
    + exists 0%nat. rewrite Nat.add_0_r. split; [lia|]. split; [lia|done].
    + intros ([|k] & Hk & Hb & _ & Hs); [by rewrite Hs, Nat.add_0_r|].
      specialize (Hb 0%nat). rewrite Nat.add_0_r in Hb. by rewrite Hb in He by lia.
Qed.

(** ** The bytes bind *)

#[local] Arguments put_u8 : simpl never.
#[local] Arguments put_u16 : simpl never.
#[local] Arguments put_u64 : simpl never.
#[local] Arguments put_bytes : simpl never.
#[local] Arguments put_string : simpl never.
#[local] Arguments put_stream_ref : simpl never.

Definition stream_wf (s : EncryptedStreamRefV2) : Prop :=
  is_digest (ciphertext_digest s) ∧ is_u64 (ciphertext_size_bytes s) ∧ is_slice (nonce s).

(** Every field is a value of its Rust type. *)
Definition manifest_wf (m : EncryptedRemoteCacheManifestV2) : Prop :=
  is_u16 (v2_schema_version m) ∧ is_text (v2_record_id m) ∧ is_text (v2_tenant_id m) ∧
  is_text (v2_repository_id m) ∧ is_text (v2_generation_id m) ∧ is_digest (v2_request_key m) ∧
  is_digest (v2_policy_digest m) ∧ is_digest (v2_classifier_digest m) ∧
  is_digest (v2_execution_profile_digest m) ∧ is_digest (v2_platform_digest m) ∧
  is_digest (v2_image_digest m) ∧ is_u64 (v2_duration_micros m) ∧ is_u16 (v2_proof_schema_version m) ∧
  is_text (v2_producer_version m) ∧ is_digest (v2_local_proof_digest m) ∧
  is_text (v2_repository_encryption_key_id m) ∧ stream_wf (v2_stdout m) ∧ stream_wf (v2_stderr m) ∧
  is_text (v2_producer_id m) ∧ is_u64 (v2_created_at m) ∧ is_u64 (v2_expires_at m) ∧
  is_u16 (v2_signature_schema_version (v2_signature m)) ∧ is_text (v2_signature_key_id (v2_signature m)).

Definition stream_part (digests : bool) (s : EncryptedStreamRefV2) : EncryptedStreamRefV2 :=
  mkStreamRef (if digests then ciphertext_digest s else []) (ciphertext_size_bytes s) (nonce s).

(** What the canonical bytes cover: all but the signature and, in the associated
    data, the digests of the ciphertexts. *)
Definition manifest_part (digests : bool) (m : EncryptedRemoteCacheManifestV2) :
    EncryptedRemoteCacheManifestV2 :=
  with_signature_bytes
    (with_streams m (stream_part digests (v2_stdout m)) (stream_part digests (v2_stderr m))) [].

Lemma put_stream_ref_part digests s s' l k : stream_wf s → stream_wf s' →
  put_stream_ref s digests ++ l = put_stream_ref s' digests ++ k →
  stream_part digests s = stream_part digests s' ∧ l = k.
Proof.
  intros (? & ? & ?) (? & ? & ?). unfold put_stream_ref, stream_part. rewrite <- !app_assoc.
  destruct digests; intros Heq; [peel put_digest_prefix|rewrite !app_nil_l in Heq].
  all: peel put_u64_prefix; peel put_bytes_prefix; split; [by f_equal|done].
Qed.

Lemma manifest_semantics_part digests m m' l k : manifest_wf m → manifest_wf m' →
  put_manifest_semantics m digests ++ l = put_manifest_semantics m' digests ++ k →
  manifest_part digests m = manifest_part digests m' ∧ l = k.
Proof.
  destruct m as [???????????[]????[c h t]?[???][???]???[e [] i g]], m' as [???????????[]????[c' h' t']?[???][???]???[e' [] i' g']].
  intros (?&?&?&?&?&?&?&?&?&?&?&?&?&?&?&?&?&?&?&?&?&?&?) (?&?&?&?&?&?&?&?&?&?&?&?&?&?&?&?&?&?&?&?&?&?&?).
  unfold put_manifest_semantics. rewrite <- !app_assoc. cbn in *. intros Heq.
  peel put_u16_prefix. do 4 peel put_text_prefix. do 6 peel put_digest_prefix. peel put_u8_prefix.
  peel put_u64_prefix. peel put_u16_prefix. peel put_text_prefix. peel put_digest_prefix.
  do 3 peel put_u8_prefix. peel put_text_prefix. do 2 peel (put_stream_ref_part digests).
  peel put_text_prefix. do 2 peel put_u64_prefix. peel put_u16_prefix. peel put_u8_prefix.
  peel put_text_prefix. split; [|done]. unfold manifest_part, with_streams, with_signature_bytes. cbn.
  assert (mkPrivacy c h t = mkPrivacy c' h' t') as ->
    by (f_equal; [by apply privacy_class_tag_inj|by apply shareability_tag_inj|by apply Z.b2z_inj]).
  by f_equal; try done; f_equal.
Qed.

Lemma v2_signing_bytes_part m : canonical_signing_bytes (manifest_part true m) = canonical_signing_bytes m.
Proof. by destruct m as [??????????????????[???][???]???[]]. Qed.

Lemma stream_aad_part m l : stream_aad (manifest_part false m) l = stream_aad m l.
Proof. by destruct m as [??????????????????[???][???]???[]]. Qed.

(** The messages that are signed, and the associated data of a stream, which is
    authenticated. *)
Inductive message_kind := ManifestV1 | ManifestV2 | SignedBundle | PublicationChallenge | StreamData.

Definition is_message (k : message_kind) (x : list Z) : Prop :=
  match k with
  | ManifestV1 => ∃ m : RemoteCacheManifest, x = manifest_signing_bytes m
  | ManifestV2 => ∃ m, x = canonical_signing_bytes m
  | SignedBundle => ∃ b, x = bundle_signing_bytes b
  | PublicationChallenge => ∃ record request signer, x = authorization_challenge record request signer
  | StreamData => ∃ m l, x = stream_aad m l
  end.

(** C31. The signed bytes of an encrypted manifest determine all of it but the
    signature itself; the associated data of a stream determine which stream it
    is and all of the manifest but the signature and the digests of the
    ciphertexts; and no message of one kind is a message of another, whatever
    their contents: the signed bytes of the two manifest versions, of trust
    bundles and of publication challenges, and the associated data of streams, are
    five disjoint sets. *)
Theorem encrypted_bytes_bind :
  (∀ m m', manifest_wf m → manifest_wf m' →
     canonical_signing_bytes m = canonical_signing_bytes m' ↔ manifest_part true m = manifest_part true m') ∧
  (∀ m m' l l', manifest_wf m → manifest_wf m' →
     stream_aad m l = stream_aad m' l' ↔ manifest_part false m = manifest_part false m' ∧ l = l') ∧
  (∀ k k' x, is_message k x → is_message k' x → k = k').
Proof.
  split; [|split].
  - intros m m' Hm Hm'. split.
    + unfold canonical_signing_bytes. intros Heq%app_inv_head. apply (f_equal (λ x, x ++ [])) in Heq.
      by apply manifest_semantics_part in Heq as [? _].
    + intros Heq. by rewrite <- v2_signing_bytes_part, Heq, v2_signing_bytes_part.
  - intros m m' l l' Hm Hm'. split.
    + unfold stream_aad. intros Heq%app_inv_head. apply manifest_semantics_part in Heq as [? Heq]; [|done..].
      split; [done|]. injection Heq. by destruct l, l'.
    + intros [Heq ->]. by rewrite <- stream_aad_part, Heq, stream_aad_part.
  - intros k k' x. unfold is_message, canonical_signing_bytes, stream_aad, manifest_signing_bytes,
      bundle_signing_bytes, authorization_challenge.
    intros Hk Hk'. destruct k, k'; try done; exfalso;
      repeat match goal with H : ∃ _, _ |- _ => destruct H end; subst x;
      match goal with H : _ = _ |- _ => by inversion H end.
Qed.

(** ** A sample *)

#[local] Existing Instances PullSample.toy_float PullSample.toy_aead PullSample.toy_aead_ok
  TrustSample.TrustSample.toy_ed25519 TrustSample.TrustSample.toy_blake3 TrustSample.TrustSample.toy_url.

Lemma sample_still_trusted b now : PullSample.sample_bundle b → 100 <= now < 180 →
  still_trusted PullSample.first_bundle b PullSample.build_input now.
Proof.
  intros Hb Hn. split.
  - by apply PullSample.sample_bundle_wf.
  - by apply PullSample.sample_bundle_valid.
  - by apply PullSample.sample_fresh.
  - destruct Hb as [-> | ->]; split_and!; by apply list_elem_of_singleton; vm_compute.
  - destruct Hb as [-> | ->]; by vm_compute.
  - destruct Hb as [-> | ->]; apply (bool_decide_unpack _); vm_compute; exact I.
  - destruct Hb as [-> | ->]; apply (bool_decide_unpack _); vm_compute; exact I.
  - by destruct Hb as [-> | ->].
Qed.

Lemma published_result_round_trip_witness :
  still_trusted PullSample.first_bundle PullSample.second_bundle PullSample.build_input 150 ∧
  ∃ r, verify_and_decrypt_v2 (publication_manifest PullSample.publication)
    (publication_stdout_ciphertext PullSample.publication)
    (publication_stderr_ciphertext PullSample.publication) PullSample.request PullSample.policy
    (capability PullSample.second_bundle) (trust_request PullSample.request) PullSample.repository_key 150 = Ok r ∧
  remote_result_stdout r = bstr "hello" ++ [10] ∧ release_expires_at r = 180.
Proof.
  assert (still_trusted PullSample.first_bundle PullSample.second_bundle PullSample.build_input 150) as Ht
    by (apply sample_still_trusted; [by right|lia]).
  split; [exact Ht|]. eexists. split.
  - apply (published_result_round_trip PullSample.policy PullSample.request PullSample.first_run
      PullSample.second_run (bstr "again-v1") PullSample.local PullSample.admitted PullSample.build_input
      (replicate 24 1) (replicate 24 2) PullSample.publication PullSample.first_bundle PullSample.second_bundle 150);
      [vm_compute; reflexivity|vm_compute; reflexivity|done|done|done| | |done|].
    + apply PullSample.sample_bundle_valid. by left.
    + vm_compute. reflexivity.
    + cbn. lia.
  - done.
Defined.

Lemma encrypted_bytes_bind_witness :
  stream_aad (publication_manifest PullSample.publication) StreamLabels.Stdout ≠
  stream_aad (publication_manifest PullSample.publication) StreamLabels.Stderr.
Proof.
  assert (manifest_wf (publication_manifest PullSample.publication)) as Hw.
  { assert (∀ d, forallb (λ b, (0 <=? b) && (b <? 256)) d && (length d =? 32)%nat = true → is_digest d) as Hd.
    { intros d [Hb Hl%Nat.eqb_eq]%andb_true_iff. by split; [apply is_bytes_check|]. }
    unfold manifest_wf, stream_wf. split_and!;
      first [by apply TrustSample.TrustSample.text_check; vm_compute|by apply Hd; vm_compute|by vm_compute]. }
  destruct encrypted_bytes_bind as (_ & Ha & _). intros Heq. by apply Ha in Heq as [_ ?].
Defined.
