(* ===== verification/PullTheorems.v ===== *)
(** * Properties of a pull

    A result that a pull returns, by either protocol, is fenced: its trust is
    checked before anything is decrypted and again after, and it is fresh when it
    is handed out. [pull_trace] ties the log of a pull to the calls it made: each
    event is a successful call on the state the one before left. And an honest
    service is enough for a pull to succeed. *)

From Stdlib Require Import String.
From stdpp Require Import gmap.
From S2P Require Import Prelude Monad Bytes ContractTypes Canonical CanonicalSpec CanonicalParse.
From S2P Require Import CanonicalCodec RecordTypes Paths RecordValidation Digest.
From S2P Require Import IdentityRoundTrip TreeSpec Text Team TeamCrypto TrustBundle TeamLaws.
From S2P Require Import TeamRequestKey Privacy PrivacyTheorems RequestObservation.
From S2P Require Import LookupBundle EncryptedManifest TeamPull PullSample EncryptedTheorems.
Import PullErrors PullEvents.

(** ** Returned computations *)

Lemma state_bind_Returned {S E A B} (m : state_m S E A) (k : A → state_m S E B) s b s' :
  (m ≫= k) s = Returned b s' ↔ ∃ a s1, m s = Returned a s1 ∧ k a s1 = Returned b s'.
Proof. unfold mbind, state_bind. destruct (m s); naive_solver. Qed.

Lemma lift_Returned {S E A} (r : result E A) (s : S) a s' :
  lift_result r s = Returned a s' ↔ r = Ok a ∧ s' = s.
Proof. unfold lift_result. destruct r; naive_solver. Qed.

Lemma lift_map_Returned {S E F A} (f : E → F) (r : result E A) (s : S) a s' :
  lift_result (map_err f r) s = Returned a s' ↔ r = Ok a ∧ s' = s.
Proof. rewrite lift_Returned, map_err_Ok. done. Qed.

Lemma guard_state_Returned {S E A} (c : bool) (e : E) (k : state_m S E A) s a s' :
  (if c then mthrow e else k) s = Returned a s' ↔ c = false ∧ k s = Returned a s'.
Proof. destruct c; naive_solver. Qed.

(** Opens a hypothesis that says what a sequence of steps returned. *)
Ltac steps H :=
  repeat match type of H with
  | (mbind _ _) _ = Returned _ _ =>
    let a := fresh "a" in let s := fresh "st" in let H1 := fresh "Hstep" in
    apply state_bind_Returned in H as (a & s & H1 & H)
  | (if _ then mthrow _ else _) _ = Returned _ _ =>
    let H1 := fresh "Hguard" in apply guard_state_Returned in H as (H1 & H)
  end.

Section laws.
Context `{TeamHost, Blake3HashOk, Blake3, Ed25519Dalek, UrlParser, RuntimeHost, XChaCha20Poly1305, Float64}.
Context {C T K D : Type} `{!FileDigestCache C, !TeamClock K, !CheckpointStore D}.

Abbreviation PS := (PullState C T K D).

(** A bundle the profile's root signed for the profile's scope, fresh at a moment. *)
Definition trusted_at (profile : TeamProfileV1) (b : TrustBundleV1) (now : Z) : Prop :=
  valid_bundle b ∧ bundle_root_key_id b = root_key_id (profile_pinned_root profile) ∧
  verify_strict (root_verifying_key (profile_pinned_root profile)) (bundle_signing_bytes b)
    (bundle_signature b) = true ∧
  bundle_scope b = expected_scope (expected_trust_bundle profile) ∧ fresh_at b now.

Definition tracker_after (b : TrustBundleV1) (t : TrustEpochTracker) : TrustEpochTracker :=
  insert_accepted (bundle_scope b) (state_after (accepted t !! bundle_scope b) b) t.

(** The checkpoint of the tracker is in the file: it was read back after the last
    write, under the lock that was then released. *)
Definition durable (profile : TeamProfileV1) (t : TrustEpochTracker) (d : D) : Prop :=
  ∃ c d1 d2, export_checkpoint t (expected_trust_bundle profile) (profile_pinned_root profile) = Ok (Some c) ∧
    read_checkpoint_if_present d1 = (Ok (Some c), d2) ∧ d = release_checkpoint_lock d2.

(** What an event of the log says happened: the part of the state it is about went
    from its value before to its value after by a successful call with this answer,
    and no other part changed. [answered] is what the service may answer. *)
Inductive pull_step (i : PullInput) (answered : PullEvent → T → T → Prop) : PullEvent → PS → PS → Prop :=
| service_step e t c tr tr' k tk d l : answered e tr tr' →
  pull_step i answered e (mkPull t c tr k tk d l) (mkPull t c tr' k tk d (l ++ [e]))
| clock_step now t c tr k k' tk d l : sample_unix_seconds k = (Ok now, k') →
  pull_step i answered (Sampled now) (mkPull t c tr k tk d l) (mkPull t c tr k' tk d (l ++ [Sampled now]))
| trust_step b now t c tr k tk d l : trusted_at (pull_profile i) b now →
  (∀ a, accepted tk !! bundle_scope b = Some a → may_follow a b) →
  pull_step i answered (AcceptedTrust b now) (mkPull t c tr k tk d l)
    (mkPull t c tr k (tracker_after b tk) d (l ++ [AcceptedTrust b now]))
| persist_step t c tr k tk d d' l :
  persist_trust_checkpoint (pull_profile i) tk d = Returned () d' → durable (pull_profile i) tk d' →
  pull_step i answered (PersistedTrust tk) (mkPull t c tr k tk d l)
    (mkPull t c tr k tk d' (l ++ [PersistedTrust tk]))
| rebuild_step request session t c tr k tk d l :
  build_team_request_key_v1_with_cache (pull_request_input i) t c = Returned request session →
  pull_step i answered (RebuiltRequest t request) (mkPull t c tr k tk d l)
    (mkPull (clock session) (session_cache session) tr k tk d (l ++ [RebuiltRequest t request]))
| runtime_step request t c tr k tk d l :
  verify_request_binding (pull_runtime i) request t = Ok () →
  pull_step i answered (VerifiedRuntime t request) (mkPull t c tr k tk d l)
    (mkPull (S t) c tr k tk d (l ++ [VerifiedRuntime t request]))
| decrypt_step stdout t c tr k tk d l :
  pull_step i answered (Decrypted stdout) (mkPull t c tr k tk d l)
    (mkPull t c tr k tk d (l ++ [Decrypted stdout])).

(** The events of a list happened one after the other, and nothing else did. *)
Inductive pull_trace (i : PullInput) (answered : PullEvent → T → T → Prop) : list PullEvent → PS → PS → Prop :=
| trace_nil s : pull_trace i answered [] s s
| trace_cons e es s1 s2 s3 : pull_step i answered e s1 s2 → pull_trace i answered es s2 s3 →
  pull_trace i answered (e :: es) s1 s3.

Section steps.
Context (i : PullInput) (answered : PullEvent → T → T → Prop).
Abbreviation happened := (pull_trace i answered).

Lemma trace_one e s s' : pull_step i answered e s s' → happened [e] s s'.
Proof. intros. by econstructor; [|constructor]. Qed.

Lemma trace_app es1 es2 s1 s2 s3 : happened es1 s1 s2 → happened es2 s2 s3 → happened (es1 ++ es2) s1 s3.
Proof. induction 1; [done|]. intros. econstructor; eauto. Qed.

Lemma trace_log es s s' : happened es s s' → pull_log s' = pull_log s ++ es.
Proof.
  induction 1 as [s|e es s1 s2 s3 He _ IH]; [by rewrite app_nil_r|].
  rewrite IH. assert (pull_log s2 = pull_log s1 ++ [e]) as -> by by destruct He. by rewrite <- app_assoc.
Qed.

(** The tracker and its file after a list of events that does not touch them. *)
Definition same_trust (s s' : PS) : Prop :=
  pull_tracker s' = pull_tracker s ∧ pull_store s' = pull_store s.

Definition trust_event (e : PullEvent) : bool :=
  match e with AcceptedTrust _ _ | PersistedTrust _ => true | _ => false end.

Lemma trace_same_trust es s s' : happened es s s' → forallb (negb ∘ trust_event) es = true → same_trust s s'.
Proof.
  induction 1 as [s|e es s1 s2 s3 He _ IH]; [done|]. intros [Hn [Ht Hs]%IH]%andb_true_iff.
  destruct He; cbn in *; try done; by split.
Qed.

Lemma verify_trust_Returned b now (s s' : PS) v : TrustBundleV1_wf b →
  verify_trust (pull_profile i) b now s = Returned v s' →
  trusted_at (pull_profile i) b now ∧ v = capability b ∧
  (∀ a, accepted (pull_tracker s) !! bundle_scope b = Some a → may_follow a b) ∧
  pull_tracker s' = tracker_after b (pull_tracker s) ∧ happened [AcceptedTrust b now] s s'.
Proof.
  intros Hw. destruct s as [t c tr k tk d l]. unfold verify_trust. cbn [pull_tracker].
  destruct (verify_trust_bundle _ _ _ _ _) as [v' t'|e t'|] eqn:Hv; [|done..]. intros [= <- <-].
  apply verify_trust_bundle_iff in Hv as (? & ? & ? & ? & ? & ? & ? & -> & ->); [|done].
  assert (trusted_at (pull_profile i) b now) by by split_and!.
  split; [done|]. split; [done|]. split; [done|]. split; [done|]. by apply trace_one, trust_step.
Qed.

Lemma on_transport_Returned {A} (event : A → PullEvent) convert (f : T → result RemoteErrors.RemoteError A * T)
    (s s' : PS) a :
  (∀ t t', f t = (Ok a, t') → answered (event a) t t') →
  on_transport event convert f s = Returned a s' →
  f (pull_transport s) = (Ok a, pull_transport s') ∧ happened [event a] s s'.
Proof.
  intros Hf. destruct s as [t c tr k tk d l]. unfold on_transport. cbn [pull_transport].
  destruct (f tr) as [[a'|e] tr'] eqn:He; [|done]. intros [= -> <-]. split; [done|].
  by apply trace_one, service_step, Hf.
Qed.

Lemma sample_Returned (s s' : PS) now : sample s = Returned now s' → happened [Sampled now] s s'.
Proof.
  destruct s as [t c tr k tk d l]. unfold sample. cbn [pull_clock].
  destruct (sample_unix_seconds k) as [[n|e] k'] eqn:He; [|done]. intros [= -> <-].
  by apply trace_one, clock_step.
Qed.

Lemma verify_runtime_Returned request (s s' : PS) u : verify_runtime (pull_runtime i) request s = Returned u s' →
  happened [VerifiedRuntime (pull_time s) request] s s'.
Proof.
  destruct s as [t c tr k tk d l]. unfold verify_runtime. cbn [pull_time].
  destruct (verify_request_binding _ _ _) as [[]|e] eqn:He; [|done]. intros [= _ <-].
  by apply trace_one, runtime_step.
Qed.

Lemma recheck_Returned (s s' : PS) request : recheck_request i s = Returned request s' →
  request = pull_request i ∧ happened [RebuiltRequest (pull_time s) (pull_request i)] s s'.
Proof.
  unfold recheck_request. intros Hr. steps Hr. apply negb_false_iff, bool_decide_eq_true in Hguard as ->.
  injection Hr as <- <-. split; [done|]. revert Hstep. destruct s as [t c tr k tk d l].
  unfold rebuild_request. cbn [pull_time pull_cache].
  destruct (build_team_request_key_v1_with_cache _ _ _) as [key session|e session|] eqn:Hb; [|done..].
  intros [= -> <-]. by apply trace_one, rebuild_step.
Qed.

Lemma call_Returned {S E A} (f : S → result E A * S) s a s' :
  call f s = Returned a s' ↔ f s = (Ok a, s').
Proof. unfold call. destruct (f s) as [[]]; naive_solver. Qed.

Lemma persisted profile t (d d' : D) u :
  persist_trust_checkpoint profile t d = Returned u d' → durable profile t d'.
Proof.
  unfold persist_trust_checkpoint. intros Hp. steps Hp.
  apply lift_map_Returned in Hstep as [Hx ->]. apply lift_Returned in Hstep0 as [->%ok_or_Ok ->].
  unfold under_lock in Hp. steps Hp. destruct (replace_checkpoint _ _ _) as [[] d1|e d1|] eqn:Hr; [|done..].
  injection Hp as _ <-. unfold replace_checkpoint in Hr. steps Hr.
  apply call_Returned in Hstep4. apply lift_Returned in Hstep5 as [->%ok_or_Ok ->].
  apply negb_false_iff, bool_decide_eq_true in Hguard0 as ->. injection Hr as <-. do 3 eexists. eauto.
Qed.

Lemma persist_Returned (s s' : PS) u : persist (pull_profile i) s = Returned u s' →
  pull_tracker s' = pull_tracker s ∧ durable (pull_profile i) (pull_tracker s) (pull_store s') ∧
  happened [PersistedTrust (pull_tracker s)] s s'.
Proof.
  destruct s as [t c tr k tk d l]. unfold persist. cbn [pull_tracker pull_store].
  destruct (persist_trust_checkpoint _ _ _) as [[] d'|e d'|] eqn:Hp; [|done..].
  intros [= _ <-]. apply persisted in Hp as Hd. split; [done|]. split; [done|]. by apply trace_one, persist_step.
Qed.
End steps.

(** A trust bundle, accepted and durable, under which the manifest is authorized
    for the request at [now]; [t] is the tracker before it. *)
Record accepted_under (i : PullInput) (t : TrustEpochTracker) (b : TrustBundleV1)
    (m : EncryptedRemoteCacheManifestV2) (now : Z) : Prop := {
  au_trusted : trusted_at (pull_profile i) b now;
  au_follows a : accepted t !! bundle_scope b = Some a → may_follow a b;
  au_manifest : pull_authorized b m (pull_request i) (pull_policy i) (key_id (pull_key i)) now;
}.

(** From the live facts of the client the request is rebuilt, then its runtime is
    verified; the trace gives the facts at these moments. *)
Lemma live_steps i answered (s s1 s2 : PS) request u :
  recheck_request i s = Returned request s1 → verify_runtime (pull_runtime i) request s1 = Returned u s2 →
  pull_trace i answered [RebuiltRequest (pull_time s) (pull_request i);
    VerifiedRuntime (pull_time s1) (pull_request i)] s s2.
Proof.
  intros [-> Ht]%(recheck_Returned i answered) Hr%(verify_runtime_Returned i answered).
  exact (trace_app _ _ _ _ _ _ _ Ht Hr).
Qed.

Lemma check_manifest_Returned i b m now (s s' : PS) u : TrustBundleV1_wf b → valid_bundle b →
  check_manifest i (capability b) m now s = Returned u s' →
  pull_authorized b m (pull_request i) (pull_policy i) (key_id (pull_key i)) now ∧ s' = s.
Proof.
  intros Hw Hv. unfold check_manifest. intros [Hm ->]%lift_map_Returned. destruct u.
  by apply verify_manifest_iff in Hm as [_ Hm].
Qed.

(** Trust is accepted and durable before the manifest is relied on; [es] is what
    happens between. *)
Lemma accept_steps i answered es b m now (s s1 s2 s3 s4 : PS) v u1 u2 : TrustBundleV1_wf b →
  verify_trust (pull_profile i) b now s = Returned v s1 →
  persist (pull_profile i) s1 = Returned u1 s2 →
  pull_trace i answered es s2 s3 → forallb (negb ∘ trust_event) es = true →
  check_manifest i v m now s3 = Returned u2 s4 →
  v = capability b ∧ valid_bundle b ∧ accepted_under i (pull_tracker s) b m now ∧
  pull_tracker s4 = tracker_after b (pull_tracker s) ∧
  durable (pull_profile i) (pull_tracker s4) (pull_store s4) ∧
  pull_trace i answered
    (AcceptedTrust b now :: PersistedTrust (tracker_after b (pull_tracker s)) :: es) s s4.
Proof.
  intros Hw (Ht & -> & Hf & Hs1 & T1)%(verify_trust_Returned i answered)
    (Hs2 & Hd & T2)%(persist_Returned i answered) T3 He Hm; [|done].
  destruct (trace_same_trust _ _ _ _ _ T3 He) as [Ht3 Hd3]. pose proof Ht as (Hv & _).
  apply check_manifest_Returned in Hm as [Hm ->]; [|done..]. rewrite Hs1 in T2, Hd, Hs2.
  split; [done|]. split; [done|]. split; [by split|]. rewrite Ht3, Hs2, Hd3. split; [done|]. split; [done|].
  exact (trace_app _ _ _ _ _ _ _ T1 (trace_app _ _ _ _ _ _ _ T2 T3)).
Qed.

Lemma verify_fresh_Ok r now : verify_fresh_for_release r now = Ok () ↔ verified_at r <= now < release_expires_at r.
Proof. unfold verify_fresh_for_release. autorewrite with checks. tauto. Qed.

(** The capability bound to a later bundle: it can only expire sooner. *)
Definition rebound (r : VerifiedRemoteResultV2) (b : TrustBundleV1) (now : Z) : VerifiedRemoteResultV2 :=
  mkVerifiedResult (remote_result_stdout r) (remote_result_stderr r) (remote_result_duration_micros r)
    (remote_result_local_proof_digest r) (remote_result_producer_id r) now
    (Z.min (release_expires_at r) (bundle_expires_at b)).

Lemma rebind_Ok r b now r' : rebind_release_freshness r now (bundle_expires_at b) = Ok r' ↔
  verified_at r <= now < release_expires_at r ∧ now < bundle_expires_at b ∧ r' = rebound r b now.
Proof.
  unfold rebind_release_freshness. rewrite unit_bind_Ok, verify_fresh_Ok, guard_Ok. autorewrite with checks.
  split; [intros (? & ? & [= <-])|intros (? & ? & ->)]; done.
Qed.

(** What happens from the second bundle on. *)
Definition releasing (i : PullInput) (t : TrustEpochTracker) (b : TrustBundleV1) (released final : Z)
    (rebuilt verified : nat) : list PullEvent :=
  [Sampled released; AcceptedTrust b released; PersistedTrust (tracker_after b t);
   RebuiltRequest rebuilt (pull_request i); VerifiedRuntime verified (pull_request i); Sampled final].

Lemma release_Returned i answered m remote b (s s' : PS) r : TrustBundleV1_wf b →
  release i m remote b s = Returned r s' →
  ∃ released final rebuilt verified, accepted_under i (pull_tracker s) b m released ∧
    verified_at remote <= released < release_expires_at remote ∧ released < bundle_expires_at b ∧
    r = rebound remote b released ∧ released <= final < release_expires_at r ∧
    pull_tracker s' = tracker_after b (pull_tracker s) ∧
    durable (pull_profile i) (pull_tracker s') (pull_store s') ∧
    pull_trace i answered (releasing i (pull_tracker s) b released final rebuilt verified) s s'.
Proof.
  intros Hw Hr. unfold release in Hr. steps Hr. apply (sample_Returned i answered) in Hstep as T1.
  destruct (trace_same_trust _ _ _ _ _ T1 eq_refl) as [Ht _].
  destruct (accept_steps i answered [] b m a st st0 st1 st1 st2 a0 a1 a2 Hw Hstep0 Hstep1 (trace_nil _ _ _)
    eq_refl Hstep2) as (-> & Hv & Ha & Htr & Hd & T2).
  apply lift_map_Returned in Hstep3 as [(Hr1 & Hr2 & ->)%rebind_Ok ->].
  pose proof (live_steps i answered _ _ _ _ _ Hstep4 Hstep5) as T3.
  destruct (trace_same_trust _ _ _ _ _ T3 eq_refl) as [Ht3 Hs3].
  apply (sample_Returned i answered) in Hstep6 as T4.
  destruct (trace_same_trust _ _ _ _ _ T4 eq_refl) as [Ht4 Hs4].
  apply lift_map_Returned in Hstep7 as [Hfresh ->]. destruct a7. apply verify_fresh_Ok in Hfresh.
  injection Hr as <- <-. rewrite Ht in Ha, Htr, T2. exists a, a6. do 2 eexists.
  split; [done|]. split; [done|]. split; [done|]. split; [done|]. split; [done|].
  rewrite Ht4, Ht3, Hs4, Hs3. split; [done|]. split; [done|].
  exact (trace_app _ _ _ _ _ _ _ T1 (trace_app _ _ _ _ _ _ _ T2 (trace_app _ _ _ _ _ _ _ T3 T4))).
Qed.

(** ** Fenced results *)

(** What a protocol does up to the decryption: from the tracker, the first bundle,
    the manifest, the ciphertexts and the times at which the trust was checked
    and the decryption started. *)
Definition prologue : Type :=
  TrustEpochTracker → TrustBundleV1 → EncryptedRemoteCacheManifestV2 → list Z → list Z → Z → Z →
  list PullEvent → Prop.

(** A result released by a pull that took the state from [s] to [s']. *)
Definition fenced (i : PullInput) (answered : PullEvent → T → T → Prop) (before : prologue)
    (s : PS) (r : VerifiedRemoteResultV2) (s' : PS) : Prop :=
  ∃ b1 b2 m stdout stderr plain checked decrypted released final events rebuilt verified,
    let t := pull_tracker s in
    accepted_under i t b1 m checked ∧
    pull_authorized b1 m (pull_request i) (pull_policy i) (key_id (pull_key i)) decrypted ∧
    names_ciphertexts m stdout stderr ∧ decrypts_to m (key_bytes (pull_key i)) stdout stderr plain ∧
    locally_publishable m (pull_policy i) (pull_request i) plain ∧
    accepted_under i (tracker_after b1 t) b2 m released ∧ bundle_epoch b1 <= bundle_epoch b2 ∧
    decrypted <= released <= final ∧
    final < Z.min (v2_expires_at m) (Z.min (bundle_expires_at b1) (bundle_expires_at b2)) ∧
    r = rebound (result_of b1 m plain decrypted) b2 released ∧
    pull_tracker s' = tracker_after b2 (tracker_after b1 t) ∧
    durable (pull_profile i) (pull_tracker s') (pull_store s') ∧
    before t b1 m stdout stderr checked decrypted events ∧
    pull_trace i answered
      (events ++ [Decrypted plain; NotifiedDecrypted; FetchedTrust b2] ++
       releasing i (tracker_after b1 t) b2 released final rebuilt verified) s s'.

Lemma epochs_advance i t b1 b2 m m' now now' :
  accepted_under i t b1 m now → accepted_under i (tracker_after b1 t) b2 m' now' →
  bundle_epoch b1 <= bundle_epoch b2.
Proof.
  intros [(_ & _ & _ & Hs1 & _) _ _] [(_ & _ & _ & Hs2 & _) Hf _].
  destruct (Hf (state_after (accepted t !! bundle_scope b1) b1)) as [[He _]|[He _]].
  - unfold tracker_after, insert_accepted. cbn [accepted]. rewrite Hs2, Hs1. apply lookup_insert_eq.
  - cbn in He. lia.
  - cbn in He. lia.
Qed.

(** From the decryption on, both protocols are the same. *)
Lemma decrypt_release i answered (before : prologue) events b1 m stdout stderr checked decrypted b2 remote
    (s0 s s1 s2 s3 : PS) r :
  TrustBundleV1_wf b1 → TrustBundleV1_wf b2 → valid_bundle b1 →
  accepted_under i (pull_tracker s0) b1 m checked →
  before (pull_tracker s0) b1 m stdout stderr checked decrypted events →
  pull_trace i answered events s0 s → pull_tracker s = tracker_after b1 (pull_tracker s0) →
  decrypt i (capability b1) m stdout stderr decrypted s = Returned remote s1 →
  pull_trace i answered [NotifiedDecrypted; FetchedTrust b2] s1 s2 →
  release i m remote b2 s2 = Returned r s3 → fenced i answered before s0 r s3.
Proof.
  intros Hw1 Hw2 Hv1 Ha He T1 Ht Hd T2 Hr. unfold decrypt in Hd. 
  destruct (verify_and_decrypt_v2 _ _ _ _ _ _ _ _ _) as [remote'|e] eqn:Hv; [|done]. injection Hd as -> <-.
  apply verify_and_decrypt_iff in Hv as (_ & Hp & Hn & plain & Hdec & Hloc & ->); [|done..].
  destruct (trace_same_trust _ _ _ _ _ T2 eq_refl) as [Ht2 _]. cbn in Ht2. rewrite Ht in Ht2.
  apply (release_Returned i answered) in Hr
    as (released & final & rebuilt & verified & Ha2 & Hrel & Hb2 & -> & Hfin & Ht3 & Hdur & T3); [|done].
  rewrite Ht2 in Ha2, Ht3, T3. cbn in Hrel, Hfin.
  exists b1, b2, m, stdout, stderr, plain, checked, decrypted, released, final, events, rebuilt, verified.
  cbv zeta. split; [done|]. split; [done|]. split; [done|]. split; [done|]. split; [done|]. split; [done|].
  split; [by eapply epochs_advance|]. split; [lia|]. split; [lia|]. split; [done|]. split; [done|].
  split; [done|]. split; [done|]. eapply trace_app; [exact T1|].
  refine (trace_app _ _ [Decrypted plain] _ _ _ _ _ (trace_app _ _ _ _ _ _ _ T2 T3)).
  apply trace_one. destruct s. apply decrypt_step.
Qed.
End laws.

Section theorems.
Context `{TeamHost, Blake3HashOk, Blake3, Ed25519Dalek, UrlParser, RuntimeHost, XChaCha20Poly1305, Float64}.
Context {C T K D : Type} `{!FileDigestCache C, !TeamClock K, !CheckpointStore D}.

Abbreviation PS := (PullState C T K D).

Lemma check_admission_Returned i (s s' : PS) u : check_admission i s = Returned u s' →
  admission_matches (pull_admission i) (pull_policy i) (pull_request i) = true ∧ s' = s.
Proof. unfold check_admission. intros [Hg%negb_false_iff [= <- <-]]%guard_state_Returned. done. Qed.

Lemma check_context_Returned i v now (s s' : PS) u : check_context i v now s = Returned u s' → s' = s.
Proof. unfold check_context. intros Hc. steps Hc. apply lift_map_Returned in Hstep as [_ ->]. by injection Hc. Qed.

(** The answers of the service of each protocol. *)
Definition legacy_answered `{!TeamPullTransport T} (i : PullInput) (e : PullEvent) (t t' : T) : Prop :=
  match e with
  | FetchedTrust b => fetch_latest_trust_bundle t = (Ok b, t')
  | FetchedManifest m => fetch_manifest_v2 (request_digest (pull_request i)) t = (Ok m, t')
  | FetchedCiphertext stream bytes => fetch_ciphertext stream t = (Ok bytes, t')
  | NotifiedDecrypted => t' = after_decrypt t
  | _ => False
  end.

Definition bundled_answered `{!TeamBundlePullTransport T} (i : PullInput) (e : PullEvent) (t t' : T) : Prop :=
  match e with
  | FetchedTrust b => bundle_fetch_latest_trust_bundle t = (Ok b, t')
  | FetchedBody body => fetch_lookup_bundle_v1_body (request_digest (pull_request i)) t = (Ok body, t')
  | NotifiedDecrypted => t' = bundle_after_decrypt t
  | _ => False
  end.

(** What each does up to the decryption. *)
Definition legacy_prologue (i : PullInput) : prologue := λ t b m stdout stderr checked decrypted events,
  ∃ t1 t2 t3, events =
    [VerifiedRuntime t1 (pull_request i); FetchedTrust b; Sampled checked; AcceptedTrust b checked;
     PersistedTrust (tracker_after b t); FetchedManifest m; FetchedCiphertext (v2_stdout m) stdout;
     FetchedCiphertext (v2_stderr m) stderr; Sampled decrypted; RebuiltRequest t2 (pull_request i);
     VerifiedRuntime t3 (pull_request i)].

Definition bundled_prologue `{!TeamResponses} (i : PullInput) : prologue :=
  λ t b m stdout stderr checked decrypted events, ∃ fields rest body t1 t2 t3,
    parse_team_lookup_bundle_v1 body (profile_max_response_bytes (pull_profile i)) = Returned fields rest ∧
    trust_of_json (initial_trust_json fields) = Some b ∧ manifest_of_json (manifest_json fields) = Some m ∧
    stdout_ciphertext fields = stdout ∧ stderr_ciphertext fields = stderr ∧
    events =
      [FetchedBody body; VerifiedRuntime t1 (pull_request i); Sampled checked; AcceptedTrust b checked;
       PersistedTrust (tracker_after b t); RebuiltRequest t2 (pull_request i);
       VerifiedRuntime t3 (pull_request i); Sampled decrypted].

Lemma legacy_fenced `{!TeamPullTransport T} (i : PullInput) (s s' : PS) r :
  (∀ t b t', fetch_latest_trust_bundle t = (Ok b, t') → TrustBundleV1_wf b) →
  finish_pull_v2 i s = Returned r s' → fenced i (legacy_answered i) (legacy_prologue i) s r s'.
Proof.
  intros Hwf Hp. unfold finish_pull_v2 in Hp. cbv zeta in Hp. steps Hp.
  apply (verify_runtime_Returned i (legacy_answered i)) in Hstep as T0. injection Hstep0 as _ <-.
  apply check_admission_Returned in Hstep1 as [_ ->].
  apply (on_transport_Returned i (legacy_answered i)) in Hstep2 as [Hb1%Hwf T2]; [|done].
  apply (sample_Returned i (legacy_answered i)) in Hstep3 as T3.
  pose proof (trace_app _ _ _ _ _ _ _ T0 (trace_app _ _ _ _ _ _ _ T2 T3)) as Ta.
  apply check_context_Returned in Hstep6 as ->.
  apply (on_transport_Returned i (legacy_answered i)) in Hstep7 as [_ T7]; [|done].
  apply lift_Returned in Hstep8 as [_ ->].
  destruct (accept_steps i _ _ _ _ _ _ _ _ _ _ _ _ _ Hb1 Hstep4 Hstep5 T7 eq_refl Hstep9)
    as (-> & Hv & Ha & Ht & _ & Tb).
  apply (on_transport_Returned i (legacy_answered i)) in Hstep10 as [_ T10]; [|done].
  apply (on_transport_Returned i (legacy_answered i)) in Hstep11 as [_ T11]; [|done].
  apply (sample_Returned i (legacy_answered i)) in Hstep12 as T12.
  pose proof (live_steps i (legacy_answered i) _ _ _ _ _ Hstep13 Hstep14) as T14.
  pose proof (trace_app _ _ _ _ _ _ _ T10 (trace_app _ _ _ _ _ _ _ T11
    (trace_app _ _ _ _ _ _ _ T12 T14))) as Tc.
  apply (on_transport_Returned i (legacy_answered i)) in Hstep16 as [_ T16]; [|by intros ?? [= _ <-]].
  apply (on_transport_Returned i (legacy_answered i)) in Hstep17 as [Hb2%Hwf T17]; [|done].
  destruct (trace_same_trust _ _ _ _ _ Ta eq_refl) as [Et _]. destruct (trace_same_trust _ _ _ _ _ Tc eq_refl) as [Ec _].
  rewrite Et in Ha, Ht, Tb.
  eapply decrypt_release; [exact Hb1|exact Hb2|exact Hv|exact Ha| | | |exact Hstep15
    |exact (trace_app _ _ _ _ _ _ _ T16 T17)|exact Hp].
  - do 3 eexists. reflexivity.
  - exact (trace_app _ _ _ _ _ _ _ Ta (trace_app _ _ _ _ _ _ _ Tb Tc)).
  - congruence.
Qed.

(** The decryption of a bundle's body: all of the prologue but the fetch. *)
Lemma decrypt_body_Returned `{!TeamResponses} answered (i : PullInput) body (s s' : PS) remote m :
  (∀ bytes b, trust_of_json bytes = Some b → TrustBundleV1_wf b) →
  decrypt_bundle_body_v1 i body s = Returned (remote, m) s' →
  ∃ b stdout stderr checked decrypted events s1, TrustBundleV1_wf b ∧ valid_bundle b ∧
    accepted_under i (pull_tracker s) b m checked ∧
    bundled_prologue i (pull_tracker s) b m stdout stderr checked decrypted (FetchedBody body :: events) ∧
    pull_trace i answered events s s1 ∧ pull_tracker s1 = tracker_after b (pull_tracker s) ∧
    decrypt i (capability b) m stdout stderr decrypted s1 = Returned remote s'.
Proof.
  intros Hjson Hp. unfold decrypt_bundle_body_v1 in Hp. cbv zeta in Hp. steps Hp.
  apply (verify_runtime_Returned i answered) in Hstep as T0. apply check_admission_Returned in Hstep0 as [_ ->].
  destruct (parse_team_lookup_bundle_v1 _ _) as [fields rest|e rest|] eqn:Hparse; [|done..].
  injection Hstep1 as <- <-. apply lift_map_Returned in Hstep2 as [Hj1%ok_or_Ok ->].
  apply lift_map_Returned in Hstep3 as [Hj2%ok_or_Ok ->]. apply (sample_Returned i answered) in Hstep4 as T4.
  apply check_context_Returned in Hstep7 as ->. apply lift_Returned in Hstep8 as [_ ->].
  pose proof (Hjson _ _ Hj1) as Hb1.
  destruct (accept_steps i answered [] _ _ _ _ _ _ _ _ _ _ _ Hb1 Hstep5 Hstep6 (trace_nil _ _ _) eq_refl Hstep9)
    as (-> & Hv & Ha & Ht & _ & Tb).
  pose proof (trace_app _ _ _ _ _ _ _ T0 T4) as Ta.
  pose proof (live_steps i answered _ _ _ _ _ Hstep10 Hstep11) as T11.
  apply (sample_Returned i answered) in Hstep12 as T12. pose proof (trace_app _ _ _ _ _ _ _ T11 T12) as Tc.
  injection Hp as <- <- <-.
  destruct (trace_same_trust _ _ _ _ _ Ta eq_refl) as [Et _]. destruct (trace_same_trust _ _ _ _ _ Tc eq_refl) as [Ec _].
  rewrite Et in Ha, Ht, Tb. do 7 eexists.
  split; [exact Hb1|]. split; [exact Hv|]. split; [exact Ha|]. split.
  { do 6 eexists. split; [exact Hparse|]. split; [done|]. split; [done|]. do 2 (split; [reflexivity|]). reflexivity. }
  split; [exact (trace_app _ _ _ _ _ _ _ Ta (trace_app _ _ _ _ _ _ _ Tb Tc))|]. split; [congruence|].
  exact Hstep13.
Qed.

Lemma bundled_fenced `{!TeamBundlePullTransport T, !TeamResponses} (i : PullInput) (s s' : PS) r :
  (∀ t b t', bundle_fetch_latest_trust_bundle t = (Ok b, t') → TrustBundleV1_wf b) →
  (∀ bytes b, trust_of_json bytes = Some b → TrustBundleV1_wf b) →
  finish_bundle_pull_v1 i s = Returned r s' → fenced i (bundled_answered i) (bundled_prologue i) s r s'.
Proof.
  intros Hwf Hjson Hp. unfold finish_bundle_pull_v1 in Hp. steps Hp.
  apply (on_transport_Returned i (bundled_answered i)) in Hstep as [_ T0]; [|done].
  destruct a0 as [remote m]. steps Hp.
  apply (on_transport_Returned i (bundled_answered i)) in Hstep as [_ T1]; [|by intros ?? [= _ <-]].
  apply (on_transport_Returned i (bundled_answered i)) in Hstep1 as [Hb2%Hwf T2]; [|done].
  apply (decrypt_body_Returned (bundled_answered i)) in Hstep0
    as (b & stdout & stderr & checked & decrypted & events & s1 & Hb1 & Hv & Ha & He & Tb & Ht & Hd); [|done].
  destruct (trace_same_trust _ _ _ _ _ T0 eq_refl) as [Et _]. rewrite Et in Ha, He, Ht.
  eapply decrypt_release; [exact Hb1|exact Hb2|exact Hv|exact Ha|exact He
    |exact (trace_app _ _ _ _ _ _ _ T0 Tb)|exact Ht|exact Hd
    |exact (trace_app _ _ _ _ _ _ _ T1 T2)|exact Hp].
Qed.

(** C32. A pull releases only fenced results, by either protocol, and the whole of
    what it did is known: its log grew by exactly the protocol's events up to the
    decryption, the decryption, the notification, the fetch of a second trust
    bundle, and the release; each event happened, in this order, as a successful
    call on the state that the one before left. Before the decryption a bundle of
    the root was accepted over the client's tracker, made durable, and the
    manifest authorized under it; it still was at the moment of decryption, after
    the live request was rebuilt and the runtime verified; the ciphertexts are the
    objects the manifest names and the consumer's own policy admits the
    plaintext. After it, a second bundle, no older, was fetched, accepted over the
    first and made durable, and still authorizes the manifest, so neither the
    record nor the key was revoked meanwhile; then the live request was rebuilt
    again, to the request of the pull, the runtime verified, and the clock, which
    never went back, sampled a last time: the record and both bundles were
    unexpired, which also bounds the capability. The checkpoint of the final
    tracker was read back from the file. *)
Theorem pulled_result_fenced (i : PullInput) (s s' : PS) r :
  (∀ `{!TeamPullTransport T},
   (∀ t b t', fetch_latest_trust_bundle t = (Ok b, t') → TrustBundleV1_wf b) →
   finish_pull_v2 i s = Returned r s' → fenced i (legacy_answered i) (legacy_prologue i) s r s') ∧
  (∀ `{!TeamBundlePullTransport T, !TeamResponses},
   (∀ t b t', bundle_fetch_latest_trust_bundle t = (Ok b, t') → TrustBundleV1_wf b) →
   (∀ bytes b, trust_of_json bytes = Some b → TrustBundleV1_wf b) →
   finish_bundle_pull_v1 i s = Returned r s' → fenced i (bundled_answered i) (bundled_prologue i) s r s').
Proof. split; intros; [by apply legacy_fenced|by eapply bundled_fenced]. Qed.
End theorems.

(** ** Progress *)

Section progress.
Context `{TeamHost, Blake3HashOk, Blake3, Ed25519Dalek, UrlParser, RuntimeHost, XChaCha20Poly1305Ok, Float64}.
Context {C T K D : Type} `{!FileDigestCache C, !TeamClock K, !CheckpointStore D}.

Abbreviation PS := (PullState C T K D).

(** A client whose facts do not change, with a clock that goes forward: its
    request and runtime hold at every moment, it samples [n1] to [n4], it may
    accept the two bundles and can store their epochs. *)
Record steady_client (i : PullInput) (s : PS) (b1 b2 : TrustBundleV1) (n1 n2 n3 n4 : Z) : Prop := {
  sc_runtime t : verify_request_binding (pull_runtime i) (pull_request i) t = Ok ();
  sc_request t c : ∃ session,
    build_team_request_key_v1_with_cache (pull_request_input i) t c = Returned (pull_request i) session;
  sc_admission : admission_matches (pull_admission i) (pull_policy i) (pull_request i) = true;
  sc_clock : ∃ k1 k2 k3 k4, sample_unix_seconds (pull_clock s) = (Ok n1, k1) ∧
    sample_unix_seconds k1 = (Ok n2, k2) ∧ sample_unix_seconds k2 = (Ok n3, k3) ∧
    sample_unix_seconds k3 = (Ok n4, k4);
  sc_first : trusted_at (pull_profile i) b1 n1;
  sc_follows1 a : accepted (pull_tracker s) !! bundle_scope b1 = Some a → may_follow a b1;
  sc_second : trusted_at (pull_profile i) b2 n3;
  sc_follows2 a : accepted (tracker_after b1 (pull_tracker s)) !! bundle_scope b2 = Some a → may_follow a b2;
  sc_store : ∃ d1 d2,
    persist_trust_checkpoint (pull_profile i) (tracker_after b1 (pull_tracker s)) (pull_store s)
      = Returned () d1 ∧
    persist_trust_checkpoint (pull_profile i) (tracker_after b2 (tracker_after b1 (pull_tracker s))) d1
      = Returned () d2;
  sc_wf1 : TrustBundleV1_wf b1;
  sc_wf2 : TrustBundleV1_wf b2;
  sc_profile : valid_expected (expected_trust_bundle (pull_profile i));
}.

(** A service that answers a pull with the bundles, the manifest and its objects. *)
Record honest_service `{!TeamPullTransport T} (i : PullInput) (t : T) (b1 b2 : TrustBundleV1)
    (m : EncryptedRemoteCacheManifestV2) (stdout stderr : list Z) : Prop := {
  hs_binding : transport_endpoint_origin t = profile_endpoint_origin (pull_profile i) ∧
    transport_repository_id t = profile_repository_id (pull_profile i) ∧
    transport_generation_id t = profile_generation_id (pull_profile i);
  hs_answers : ∃ t1 t2 t3 t4 t5,
    fetch_latest_trust_bundle t = (Ok b1, t1) ∧
    fetch_manifest_v2 (request_digest (pull_request i)) t1 = (Ok m, t2) ∧
    fetch_ciphertext (v2_stdout m) t2 = (Ok stdout, t3) ∧
    fetch_ciphertext (v2_stderr m) t3 = (Ok stderr, t4) ∧
    fetch_latest_trust_bundle (after_decrypt t4) = (Ok b2, t5);
}.

Lemma then_Returned {S E A B} (m : state_m S E A) (k : A → state_m S E B) s a s1 b s' :
  m s = Returned a s1 → k a s1 = Returned b s' → (m ≫= k) s = Returned b s'.
Proof. intros Hm Hk. apply state_bind_Returned. eauto. Qed.

(** One more step of a computation that ends. *)
Lemma then_ends {S E A B} (m : state_m S E A) (k : A → state_m S E B) s a s1 b :
  m s = Returned a s1 → (∃ s', k a s1 = Returned b s') → ∃ s', (m ≫= k) s = Returned b s'.
Proof. intros Hm [s' Hk]. exists s'. by eapply then_Returned. Qed.

Lemma verify_trust_step profile b now t c (tr : T) (k : K) t0 (d : D) l : TrustBundleV1_wf b →
  valid_expected (expected_trust_bundle profile) → trusted_at profile b now →
  (∀ a, accepted t0 !! bundle_scope b = Some a → may_follow a b) →
  verify_trust profile b now (mkPull t c tr k t0 d l : PS) =
  Returned (capability b) (mkPull t c tr k (tracker_after b t0) d (l ++ [AcceptedTrust b now])).
Proof.
  intros Hw He (Hv & Hr & Hs & Hsc & Hf) Hm. unfold verify_trust. cbn [pull_tracker].
  rewrite (proj2 (verify_trust_bundle_iff b _ _ now t0 (capability b) (tracker_after b t0) Hw)); [done|].
  by split_and!.
Qed.

Lemma check_manifest_step i b m now (s : PS) : TrustBundleV1_wf b → valid_bundle b →
  pull_authorized b m (pull_request i) (pull_policy i) (key_id (pull_key i)) now →
  check_manifest i (capability b) m now s = Returned () s.
Proof.
  intros Hw Hv Hp. apply lift_map_Returned. split; [|done]. by apply verify_manifest_iff.
Qed.

Lemma check_context_step i b m now (s : PS) : TrustBundleV1_wf b → valid_bundle b →
  pull_authorized b m (pull_request i) (pull_policy i) (key_id (pull_key i)) now →
  check_context i (capability b) now s = Returned () s.
Proof.
  intros Hw Hv Hp. eapply then_Returned; [|done]. apply lift_map_Returned. split; [|done].
  apply verification_context_iff; [done..|]. split; [apply Hp|]. split; [apply Hp|done].
Qed.

Lemma preflight_step i b m now : pull_authorized b m (pull_request i) (pull_policy i) (key_id (pull_key i)) now →
  preflight_manifest_bindings m (pull_request i) = Ok ().
Proof.
  intros [_ _ _ _ (? & ? & ?) ? (? & _) (? & ? & ?) _ _ _ _ _]. unfold preflight_manifest_bindings. cbv zeta.
  autorewrite with checks. by split_and!.
Qed.

Lemma recheck_step i b1 b2 n1 n2 n3 n4 (s0 : PS) t c (tr : T) (k : K) t0 (d : D) :
  steady_client i s0 b1 b2 n1 n2 n3 n4 → ∃ t' c', ∀ l,
    recheck_request i (mkPull t c tr k t0 d l : PS) =
    Returned (pull_request i) (mkPull t' c' tr k t0 d (l ++ [RebuiltRequest t (pull_request i)])).
Proof.
  intros Hc. destruct (sc_request _ _ _ _ _ _ _ _ Hc t c) as [[t' c' stats] Hb]. exists t', c'. intros l.
  unfold recheck_request. eapply then_Returned.
  - unfold rebuild_request. cbn [pull_time pull_cache]. by rewrite Hb.
  - by rewrite bool_decide_eq_true_2.
Qed.

(** The end of a pull that nothing disturbs. *)
Lemma release_step i b1 b2 m plain n1 n2 n3 n4 (s0 : PS) t c (tr : T) (k2 k3 k4 : K) (d1 d2 : D) l :
  steady_client i s0 b1 b2 n1 n2 n3 n4 →
  sample_unix_seconds k2 = (Ok n3, k3) → sample_unix_seconds k3 = (Ok n4, k4) →
  persist_trust_checkpoint (pull_profile i) (tracker_after b2 (tracker_after b1 (pull_tracker s0))) d1
    = Returned () d2 →
  pull_authorized b2 m (pull_request i) (pull_policy i) (key_id (pull_key i)) n3 →
  n2 <= n3 <= n4 → n4 < Z.min (v2_expires_at m) (Z.min (bundle_expires_at b1) (bundle_expires_at b2)) →
  ∃ s', release i m (result_of b1 m plain n2) b2
    (mkPull t c tr k2 (tracker_after b1 (pull_tracker s0)) d1 l : PS)
  = Returned (rebound (result_of b1 m plain n2) b2 n3) s'.
Proof.
  intros Hc Hk3 Hk4 Hd Hm Hn Hlast. pose proof (sc_wf2 _ _ _ _ _ _ _ _ Hc) as Hw.
  pose proof (sc_second _ _ _ _ _ _ _ _ Hc) as Ht. pose proof Ht as [Hv _].
  destruct (recheck_step i b1 b2 n1 n2 n3 n4 s0 t c tr k3 (tracker_after b2 (tracker_after b1 (pull_tracker s0))) d2 Hc)
    as (t' & c' & Hr).
  unfold release.
  eapply then_ends; [unfold sample; cbn [pull_clock]; rewrite Hk3; done|]. cbn [pull_time pull_cache pull_transport pull_tracker pull_store pull_log].
  eapply then_ends; [apply (verify_trust_step _ _ _ _ _ _ _ _ _ _ Hw (sc_profile _ _ _ _ _ _ _ _ Hc) Ht (sc_follows2 _ _ _ _ _ _ _ _ Hc))|].
  eapply then_ends; [unfold persist; cbn [pull_tracker pull_store pull_log]; rewrite Hd; done|].
  cbn [pull_time pull_cache pull_transport pull_tracker pull_store pull_clock pull_log].
  eapply then_ends; [by apply check_manifest_step|].
  eapply then_ends.
  { apply lift_map_Returned. split; [|done]. apply rebind_Ok. cbn. split; [lia|]. split; [lia|done]. }
  eapply then_ends; [apply Hr|].
  eapply then_ends; [unfold verify_runtime; rewrite (sc_runtime _ _ _ _ _ _ _ _ Hc); done|].
  cbn [pull_time pull_cache pull_transport pull_tracker pull_store pull_clock pull_log].
  eapply then_ends; [unfold sample; cbn [pull_clock]; rewrite Hk4; done|].
  eapply then_ends; [|by eexists]. apply lift_map_Returned. split; [|done]. apply verify_fresh_Ok. cbn. lia.
Qed.

Lemma decrypt_returns i b m stdout stderr plain now (s : PS) : TrustBundleV1_wf b → valid_bundle b →
  pull_authorized b m (pull_request i) (pull_policy i) (key_id (pull_key i)) now →
  names_ciphertexts m stdout stderr → decrypts_to m (key_bytes (pull_key i)) stdout stderr plain →
  locally_publishable m (pull_policy i) (pull_request i) plain →
  decrypt i (capability b) m stdout stderr now s =
  Returned (result_of b m plain now) (mkPull (pull_time s) (pull_cache s) (pull_transport s) (pull_clock s)
    (pull_tracker s) (pull_store s) (pull_log s ++ [Decrypted plain])).
Proof.
  intros Hw Hv Hp Hn Hd Hl. unfold decrypt.
  rewrite (proj2 (verify_and_decrypt_iff b m stdout stderr (pull_request i) (pull_policy i)
    (trust_request (pull_request i)) (pull_key i) now (result_of b m plain now) Hw Hv)); [done|]. by eauto 10.
Qed.

(** A pull of an authorized, decryptable manifest from an honest service. *)
Lemma steady_pull `{!TeamPullTransport T} i (s : PS) b1 b2 m stdout stderr plain n1 n2 n3 n4 :
  steady_client i s b1 b2 n1 n2 n3 n4 → honest_service i (pull_transport s) b1 b2 m stdout stderr →
  pull_authorized b1 m (pull_request i) (pull_policy i) (key_id (pull_key i)) n1 →
  pull_authorized b1 m (pull_request i) (pull_policy i) (key_id (pull_key i)) n2 →
  pull_authorized b2 m (pull_request i) (pull_policy i) (key_id (pull_key i)) n3 →
  names_ciphertexts m stdout stderr → decrypts_to m (key_bytes (pull_key i)) stdout stderr plain →
  locally_publishable m (pull_policy i) (pull_request i) plain →
  n2 <= n3 <= n4 → n4 < Z.min (v2_expires_at m) (Z.min (bundle_expires_at b1) (bundle_expires_at b2)) →
  ∃ s', finish_pull_v2 i s = Returned (rebound (result_of b1 m plain n2) b2 n3) s'.
Proof.
  intros Hc Hs Hp1 Hp2 Hp3 Hn Hdec Hloc Hord Hlast. destruct s as [t c tr k t0 d l0].
  destruct Hs as [(Ho & Hrep & Hgen) (t1 & t2 & t3 & t4 & t5 & Hf1 & Hf2 & Hf3 & Hf4 & Hf5)].
  destruct (sc_clock _ _ _ _ _ _ _ _ Hc) as (k1 & k2 & k3 & k4 & Hk1 & Hk2 & Hk3 & Hk4).
  destruct (sc_store _ _ _ _ _ _ _ _ Hc) as (d1 & d2 & Hd1 & Hd2).
  pose proof (sc_wf1 _ _ _ _ _ _ _ _ Hc) as Hw. pose proof (sc_first _ _ _ _ _ _ _ _ Hc) as Ht. pose proof Ht as [Hv _].
  cbn [pull_transport pull_clock pull_tracker pull_store pull_log] in *.
  destruct (recheck_step i b1 b2 n1 n2 n3 n4 _ (S t) c t4 k2 (tracker_after b1 t0) d1 Hc) as (t' & c' & Hr).
  pose proof (λ l, release_step i b1 b2 m plain n1 n2 n3 n4 _ (S t') c' t5 k2 k3 k4 d1 d2 l Hc Hk3 Hk4 Hd2 Hp3
    Hord Hlast) as Hrel.
  unfold finish_pull_v2. cbv zeta.
  eapply then_ends; [unfold verify_runtime; rewrite (sc_runtime _ _ _ _ _ _ _ _ Hc); done|].
  cbn [pull_time pull_cache pull_transport pull_clock pull_tracker pull_store pull_log].
  eapply then_ends; [done|]. cbn [pull_transport]. rewrite Ho, Hrep, Hgen, !bytes_eqb_refl. cbn [negb orb].
  eapply then_ends; [unfold check_admission; by rewrite (sc_admission _ _ _ _ _ _ _ _ Hc)|].
  eapply then_ends; [unfold on_transport; cbn [pull_transport]; rewrite Hf1; done|].
  cbn [pull_time pull_cache pull_clock pull_tracker pull_store pull_log].
  eapply then_ends; [unfold sample; cbn [pull_clock]; rewrite Hk1; done|].
  cbn [pull_time pull_cache pull_transport pull_tracker pull_store pull_log].
  eapply then_ends; [exact (verify_trust_step _ _ _ _ _ _ _ _ _ _ Hw (sc_profile _ _ _ _ _ _ _ _ Hc) Ht (sc_follows1 _ _ _ _ _ _ _ _ Hc))|].
  eapply then_ends; [unfold persist; cbn [pull_tracker pull_store pull_log]; rewrite Hd1; done|].
  cbn [pull_time pull_cache pull_transport pull_clock pull_tracker].
  eapply then_ends; [by eapply check_context_step|].
  eapply then_ends; [unfold on_transport; cbn [pull_transport]; rewrite Hf2; done|].
  cbn [pull_time pull_cache pull_clock pull_tracker pull_store pull_log].
  eapply then_ends; [by rewrite (preflight_step _ _ _ _ Hp1)|].
  eapply then_ends; [by apply check_manifest_step|].
  eapply then_ends; [unfold on_transport; cbn [pull_transport]; rewrite Hf3; done|].
  cbn [pull_time pull_cache pull_clock pull_tracker pull_store pull_log].
  eapply then_ends; [unfold on_transport; cbn [pull_transport]; rewrite Hf4; done|].
  cbn [pull_time pull_cache pull_clock pull_tracker pull_store pull_log].
  eapply then_ends; [unfold sample; cbn [pull_clock]; rewrite Hk2; done|].
  cbn [pull_time pull_cache pull_transport pull_tracker pull_store pull_log].
  eapply then_ends; [apply Hr|].
  eapply then_ends; [unfold verify_runtime; rewrite (sc_runtime _ _ _ _ _ _ _ _ Hc); done|].
  cbn [pull_time pull_cache pull_transport pull_clock pull_tracker pull_store pull_log].
  eapply then_ends; [by eapply decrypt_returns|].
  eapply then_ends; [done|]. cbn [pull_time pull_cache pull_transport pull_clock pull_tracker pull_store pull_log].
  eapply then_ends; [unfold on_transport; cbn [pull_transport]; rewrite Hf5; done|]. apply Hrel.
Qed.

(** C33. Progress, end to end. A producer publishes what two complete runs wrote; a
    service answers a pull with that publication and two trust bundles under
    which the producer is still trusted; and the consumer holds the same
    repository key, request and policy, its facts stay the same and its clock
    goes forward within the lifetimes. Then the pull completes, and releases
    exactly the bytes both runs wrote. *)
Theorem honest_pull_completes `{!TeamPullTransport T} (i : PullInput) (s : PS) b b1 b2 n1 n2 n3 n4
    first second version local admitted input nonce1 nonce2 publication :
  validate_two_complete_executions_v1 (pull_request i) first second version = Ok local →
  admit_validated_local_publication_v2 (pull_policy i) (pull_request i) local = Ok admitted →
  build_request input = pull_request i → build_admitted input = admitted →
  build_repository_key input = pull_key i →
  build_verified_trust input = capability b → valid_bundle b →
  build_encrypted_publication_with_nonces_v2 input nonce1 nonce2 = Ok publication →
  steady_client i s b1 b2 n1 n2 n3 n4 →
  honest_service i (pull_transport s) b1 b2 (publication_manifest publication)
    (publication_stdout_ciphertext publication) (publication_stderr_ciphertext publication) →
  still_trusted b b1 input n1 → still_trusted b b1 input n2 → still_trusted b b2 input n3 →
  build_created_at input <= n1 <= n2 → n2 <= n3 <= n4 →
  n4 < Z.min (build_expires_at input) (Z.min (bundle_expires_at b1) (bundle_expires_at b2)) →
  ∃ r s', finish_pull_v2 i s = Returned r s' ∧ remote_result_stdout r = complete_stdout first ∧
    complete_stdout second = complete_stdout first ∧ remote_result_stderr r = [] ∧
    remote_result_producer_id r = signer_producer_id (build_signer input) ∧ verified_at r = n3.
Proof.
  intros Hl Ha Hr Hd Hk Hv Hb Hbuild Hc Hs T1 T2 T3 Hn1 Hn3 Hn4.
  assert (∀ b' n, still_trusted b b' input n → build_created_at input <= n < build_expires_at input → _) as Hpub
    by (exact (λ b' n, published_decrypts _ _ _ _ _ _ _ input nonce1 nonce2 publication b b' n Hl Ha Hr Hd Hv Hb Hbuild)).
  cbv zeta in Hpub.
  destruct (Hpub b1 n1 T1) as (P1 & _); [lia|].
  destruct (Hpub b1 n2 T2) as (P2 & Hn & Hdec & Hloc & Hex & _ & _ & Hid); [lia|].
  destruct (Hpub b2 n3 T3) as (P3 & _); [lia|]. rewrite Hk in *.
  destruct (steady_pull i s b1 b2 _ _ _ (complete_stdout first) n1 n2 n3 n4 Hc Hs P1 P2 P3 Hn Hdec Hloc Hn3)
    as (s' & Hf); [by rewrite Hex|].
  eexists _, s'. split; [exact Hf|]. split; [done|].
  split; [by apply two_executions_iff in Hl as (_ & _ & _ & _ & _ & ? & _)|]. split; [done|]. split; [|done].
  cbn. by rewrite Hid.
Qed.
End progress.

(** ** A sample *)

#[local] Existing Instances PullSample.toy_float PullSample.toy_aead PullSample.toy_aead_ok
  PullSample.toy_derive PullSample.toy_host PullSample.toy_runtime PullSample.toy_time PullSample.toy_store
  PullSample.toy_transport PullSample.toy_responses PullSample.toy_bundle_transport NoFileDigestCache
  TrustSample.TrustSample.toy_ed25519 TrustSample.TrustSample.toy_blake3
  TrustSample.TrustSample.toy_blake3_ok TrustSample.TrustSample.toy_url.

Lemma pulled_result_fenced_witness :
  (∃ r s', finish_pull_v2 PullSample.pull_input PullSample.start = Returned r s' ∧
     fenced PullSample.pull_input (legacy_answered PullSample.pull_input)
       (legacy_prologue PullSample.pull_input) PullSample.start r s') ∧
  (∃ r s', finish_bundle_pull_v1 PullSample.pull_input PullSample.start = Returned r s' ∧
     fenced PullSample.pull_input (bundled_answered PullSample.pull_input)
       (bundled_prologue PullSample.pull_input) PullSample.start r s').
Proof.
  split.
  - pose proof PullSample.pulled_stdout as Hp. destruct PullSample.pulled as [r s'|e s'|] eqn:Hr; [|done..].
    exists r, s'. split; [exact Hr|].
    apply (proj1 (pulled_result_fenced PullSample.pull_input PullSample.start s' r) PullSample.toy_transport);
      [|exact Hr].
    intros t b t' [= <- _]. apply PullSample.sample_bundle_wf. destruct t; [by left|by right].
  - pose proof PullSample.pulled_bundle_stdout as Hp.
    destruct PullSample.pulled_bundle as [r s'|e s'|] eqn:Hr; [|done..]. exists r, s'. split; [exact Hr|].
    apply (proj2 (pulled_result_fenced PullSample.pull_input PullSample.start s' r)
      PullSample.toy_bundle_transport PullSample.toy_responses); [| |exact Hr].
    + intros t b t' [= <- _]. apply PullSample.sample_bundle_wf. by right.
    + intros bytes b. cbn. destruct (bytes_eqb _ _); [|done]. intros [= <-]. apply PullSample.sample_bundle_wf. by left.
Defined.

Lemma sample_trusted b now : PullSample.sample_bundle b → 100 <= now < 180 → trusted_at PullSample.profile b now.
Proof.
  intros Hb Hn. split; [by apply PullSample.sample_bundle_valid|].
  split; [by destruct Hb as [-> | ->]|]. split; [destruct Hb as [-> | ->]; vm_compute; reflexivity|].
  split; [by destruct Hb as [-> | ->]|]. by apply PullSample.sample_fresh.
Qed.

Lemma sample_steady :
  steady_client PullSample.pull_input PullSample.start PullSample.first_bundle PullSample.second_bundle 120 121 122 123.
Proof.
  assert (PullSample.sample_bundle PullSample.first_bundle) as H1 by by left.
  assert (PullSample.sample_bundle PullSample.second_bundle) as H2 by by right.
  split.
  - intros t. vm_compute. reflexivity.
  - intros t []. eexists. transitivity
      (build_team_request_key_v1_with_cache PullSample.request_input t ()); [done|]. vm_compute. reflexivity.
  - vm_compute. reflexivity.
  - do 4 eexists. split; [vm_compute; reflexivity|]. split; [vm_compute; reflexivity|].
    split; vm_compute; reflexivity.
  - by apply sample_trusted.
  - cbn. intros a. by rewrite lookup_empty.
  - by apply sample_trusted.
  - intros a. unfold tracker_after. cbn [insert_accepted accepted]. rewrite lookup_insert_eq. intros [= <-]. right.
    cbn [state_after accepted_epoch]. split; [done|]. split; [|by split].
    intros k ->%list_elem_of_singleton.
    split; [unfold state_after; cbn [accepted_revoked_key_ids]; rewrite elem_of_list_to_set; by intros ?%list_elem_of_singleton|].
    intros v. unfold state_after. cbn [historical_key_bindings PullSample.start pull_tracker]. 
    cbn. vm_compute. by intros [= <-].
  - exists (Some [1]), (Some [2]). split; vm_compute; reflexivity.
  - by apply PullSample.sample_bundle_wf.
  - by apply PullSample.sample_bundle_wf.
  - apply validate_expected_iff. vm_compute. reflexivity.
Qed.

Lemma honest_pull_completes_witness :
  steady_client PullSample.pull_input PullSample.start PullSample.first_bundle PullSample.second_bundle
    120 121 122 123 ∧
  ∃ r s', finish_pull_v2 PullSample.pull_input PullSample.start = Returned r s' ∧
    remote_result_stdout r = bstr "hello" ++ [10] ∧ verified_at r = 122.
Proof.
  split; [exact sample_steady|].
  assert (PullSample.sample_bundle PullSample.first_bundle) as H1 by by left.
  assert (PullSample.sample_bundle PullSample.second_bundle) as H2 by by right.
  assert (honest_service PullSample.pull_input (pull_transport PullSample.start) PullSample.first_bundle
    PullSample.second_bundle (publication_manifest PullSample.publication)
    (publication_stdout_ciphertext PullSample.publication)
    (publication_stderr_ciphertext PullSample.publication)) as Hs.
  { split; [by split_and!|]. exists 1%nat, 1%nat, 1%nat, 1%nat, 2%nat. split; [done|].
    split; [vm_compute; reflexivity|]. split; [vm_compute; reflexivity|]. split; vm_compute; reflexivity. }
  destruct (honest_pull_completes PullSample.pull_input PullSample.start PullSample.first_bundle
    PullSample.first_bundle PullSample.second_bundle 120 121 122 123 PullSample.first_run PullSample.second_run
    (bstr "again-v1") PullSample.local PullSample.admitted PullSample.build_input (replicate 24 1)
    (replicate 24 2) PullSample.publication) as (r & s' & Hf & Ho & _ & _ & _ & Hv).
  - vm_compute. reflexivity.
  - vm_compute. reflexivity.
  - done.
  - done.
  - done.
  - done.
  - by apply PullSample.sample_bundle_valid.
  - vm_compute. reflexivity.
  - exact sample_steady.
  - exact Hs.
  - by apply sample_still_trusted.
  - by apply sample_still_trusted.
  - by apply sample_still_trusted.
  - cbn. lia.
  - lia.
  - cbn. lia.
  - exists r, s'. by split_and!.
Defined.
